(* ===== verification/_CoqProject ===== *)
-Q . S2P
Prelude.v
Errors.v
Trits.v
TritLong.v
TritByte.v
FlexTrit.v
Sponge.v
Curl.v
BigInt.v
Kerl.v
SpongeType.v
Normalize.v
Iss.v
IssV2.v
Merkle.v
Transaction.v
Sign.v
Bundle.v
PTrit.v
PCurl.v
PearlDiver.v
Pow.v
Containers.v
StateDelta.v
Snapshot.v
Statements.v
Sqlite.v
Tangle.v
Traversal.v
Ledger.v
SpentAddresses.v
SignedFiles.v
Caches.v
Pruning.v
Gossip.v
Solidifier.v
TransactionValidator.v
Milestone.v
LocalSnapshots.v
Rating.v
TipSelection.v
Troika.v
Ftroika.v
MamTrits.v
MamSponge.v
Wots.v
Pb3.v
Mss.v
MssClassic.v
MssTraversal.v
MssLifetime.v
MssStorage.v
