(* ===== verification/Prelude.v ===== *)
(** * Verification of the Entangled core

    Entangled is the C implementation of the IOTA node (cIRI) with the libraries it
    is built on.  This development models the core of the node: from trits and hash
    functions up to the ledger and the milestones that move it.

    ** The program

    A transaction is 8019 trits.  Its hash is Curl-P of all of them; bundles of
    transactions move balances and are signed with Winternitz signatures over Kerl.  A
    node receives transactions from its neighbors as gossip packets, validates and
    stores them in an SQL database (the tangle), where every transaction approves two
    others, its trunk and its branch.  A transaction is solid when its whole past is in
    the database.  The coordinator issues milestones, signed with a Merkle tree of keys;
    every milestone confirms its past, and the ledger validator adds up what the
    confirmed bundles move and applies it to the latest snapshot, the ledger.  The
    client side prepares bundles: it signs their inputs and searches the nonces of their
    transactions (the proof of work).

    ** Conventions

    Integers of [w] bits are in [Z], with [uwrap] and [swrap] where the C code converts.
    Arrays are lists; a buffer that is not initialised is an argument, so that a result
    does not depend on it unless a theorem says so.  The outcomes of the allocations to
    come are a list of booleans, the [heap].  Functions that return a [retcode_t] return
    it first, followed by what they write through their pointers.  [None] stands for
    undefined behaviour, or for fuel that ran out, as the comment at the definition says.
    Logs, locks and the null checks of pointers that are never null are left out.
    Threads are functions on one turn of their loop, or step relations where the order
    of the turns matters ([PearlDiver], [Gossip], [Solidifier]).

    ** Files

    The definitions keep the names of the C functions they model.

    - [Prelude]: integers, buffers, chunks, trits; tactics.  [Errors]: [common/errors.h].
    - Trinary numbers, [common/trinary]: [Trits] ([add.c], [trit_tryte.c],
      [tryte_ascii.c]), [TritLong] ([trit_long.c]), [TritByte] ([trit_byte.c]), [FlexTrit]
      ([flex_trit.c], one trit per byte), [PTrit] ([ptrit.c], [ptrit_incr.c]).
    - Hash functions, [common/crypto]: [Sponge] is the interface, with its laws as the
      class [SpongeLaws]; [Curl] ([curl-p]) and [Kerl] ([kerl], over [BigInt]) implement
      it, [SpongeType] ([sponge]) selects one of them; [PCurl] is the 64-fold Curl.
      [Troika] is the reference implementation of that hash, [Ftroika] the bit-sliced one
      ([troika], [ftroika], [mam/troika]).
    - MAM, [mam]: [MamTrits] (the buffers of [trits.c]), [MamSponge] ([sponge.c],
      [spongos.c]), [Wots] ([wots.c]), [Pb3] ([pb3.c]).  Its Merkle signatures are [Mss]
      ([mss_common.c]) over two interfaces, [MssTree] (a tree of keys) and [MssPaths] (its
      authentication paths), which [MssClassic] ([mss_classic.c], the whole tree in
      memory) and [MssTraversal] ([mss_traversal.c], some of its nodes, computed in time)
      implement; [MssLifetime] is about all signatures of a tree, [MssStorage] about trees
      that are saved and loaded.
    - Signatures: [Normalize] ([iss/normalize.c]), [Iss] ([iss/v1]), [IssV2] ([iss/v2]),
      [Merkle] (the key trees of [utils/merkle.c]), [Sign] ([common/helpers/sign.c] and
      others), over any sponge; [SignedFiles] ([ciri/utils/signed_files.c]).
    - Transactions and bundles, [common/model]: [Transaction], [Bundle].
    - Proof of work: [PearlDiver] ([pearl_diver.c], [hashcash.c], [hamming.c]), [Pow]
      ([common/helpers/pow.c]).
    - The ledger, [ciri/consensus/snapshot]: [Containers] ([utils/containers/hash]),
      [StateDelta], [Snapshot].
    - Storage: [Statements] ([ciri/storage/sql/statements.c], as queries on tables),
      [Sqlite] ([storage/sql/sqlite3/storage.c]) over the class [Sqlite] of what the
      database engine does, with its laws [SqliteLaws] and, for engines that do not fail
      on bindings and reads, [SqliteReliable]; [memory_sqlite] is an instance.
    - The tangle, [ciri/consensus/tangle]: [Tangle], [Traversal]; the class [TangleView]
      is what the database promises to the consensus.
    - Consensus: [Ledger] ([bundle_validator], [ledger_validator]), [Solidifier]
      ([transaction_solidifier]), [TransactionValidator], [Milestone] ([milestone]),
      [Rating] ([cw_rating_calculator], [utils/bitset], [hash_indexed_map]),
      [TipSelection] ([tip_selection]: entry point, walker, exit probabilities' validator,
      selector), over the class [CLibrary] of [rand] and [exp]; its doubles are the
      specification floats of the Standard Library.
    - Around the ledger: [SpentAddresses] ([spent_addresses]), [LocalSnapshots]
      ([snapshot/snapshots_service.c], [local_snapshots_manager.c]) moves the initial
      snapshot forward and tells [Pruning] ([pruning_service.c]), which deletes what lies
      behind it and records the addresses that were spent from.
    - The node, [ciri/node]: [Caches] (tips, recently seen bytes, requests), [Gossip]
      (protocol and the parts of [network] that frame packets).

    ** What is proved

    - Round trips: trits and trytes, bytes, integers; transactions and their trits;
      transactions and their rows; snapshots and their files; deltas; Kerl's conversion;
      packets from a node to its neighbor.
    - Hashing: the 64-fold Curl is 64 Curls, the bit-sliced Troika is Troika; any selected sponge obeys the laws.
    - Signatures: a genuine signature verifies, in both versions of the scheme; a Merkle
      branch leads back to the root; normalized hashes are incomparable; which bundles,
      milestones and signed files are valid, and that genuine ones are.
    - Merkle signatures of MAM: any tree signs with every key once and each signature
      verifies; the two ways to compute authentication paths give the same paths, and the
      traversal goes on where it stood after a tree has been saved and loaded.
    - Proof of work: the search ends under every schedule, and what it returns is right.
    - Storage: batches are atomic, and what is stored is loaded.
    - The tangle: a traversal visits what is reachable, once; solidity is closed.
    - The ledger: patches and milestones keep it balanced, as does a whole run over the
      milestones; what an accepted tip means.
    - Local snapshots: the initial snapshot stays the ledger of its milestone; what is
      pruned lies behind a milestone and has its spent addresses recorded.
    - Tip selection: the ratings of a subtangle are exact, selected tips are solid and
      consistent, the entry point lies at the depth asked for.
    - The node: however TCP cuts the stream, every packet is read; the caches are
      bounded; requests are tracked; handshakes and transactions are accepted exactly
      when they should.
    - Defects: theorems that show where the code does not do what it means to, such as
      [conflicting_tips_accepted], [find_tail_leaves_bundle], [invalid_packet_blocks],
      [milestone_gap_spins], [walk_spins], [snapshot_needs_initial_milestone],
      [deposit_hides_spend], [last_character_not_signed] and, in MAM, [negative_size_accepted] and
      [exhausted_tree_not_loaded].

    ** Bounds and fuel

    A loop whose number of turns the code bounds has that bound as its fuel: a bundle is
    loaded with its last index plus two, the packets of a read with one turn per byte at
    most.  The loops that the database bounds take their fuel as an argument, with a
    theorem that enough of it gives the result ([dfs_to_past_exact]) or statements that
    hold for every fuel that gives one; [milestone_gap_spins] is about every fuel.  The
    schedules of [PearlDiver] are arbitrary lists of threads.  Hypotheses of the form
    [< 2 ^ 63] keep sums of balances in range where the code does not check them; what
    happens beyond them is [overflowing_delta_accepted].

    ** Not modelled

    MariaDB, the HTTP interface and the client library (JSON over libraries that are not
    part of the repository), the configuration, the packed encodings of flex trits, the
    exit probability map (which the node does not use), the callbacks of libuv, and the
    messages of MAM above its codec and signatures.  Keccak and SQLite are parameters with
    named laws. *)

From stdpp Require Export base list numbers.
From Stdlib Require Export ZArith Lia.

Declare Scope iota_scope.
Delimit Scope iota_scope with iota.
#[global] Open Scope Z_scope.

#[global] Arguments Z.mul : simpl never.
#[global] Arguments Z.add : simpl never.
#[global] Arguments Z.sub : simpl never.
#[global] Arguments Z.pow : simpl never.
#[global] Arguments Z.div : simpl never.
#[global] Arguments Z.modulo : simpl never.
#[global] Arguments Z.of_nat : simpl never.
#[global] Arguments Nat.modulo : simpl never.
#[global] Arguments Nat.div : simpl never.

(** ** Machine integers

    C integers are represented by the mathematical integer they denote; every
    conversion to a [w]-bit type is written out with [uwrap] or [swrap]. *)
Definition uwrap (w : Z) (z : Z) : Z := z mod 2 ^ w.
Definition swrap (w : Z) (z : Z) : Z := (z + 2 ^ (w - 1)) mod 2 ^ w - 2 ^ (w - 1).

Abbreviation u8 := (uwrap 8).
Abbreviation u32 := (uwrap 32).
Abbreviation u64 := (uwrap 64).
Abbreviation i8 := (swrap 8).
Abbreviation i32 := (swrap 32).
Abbreviation i64 := (swrap 64).

Definition INT64_MIN : Z := - 2 ^ 63.
Definition INT64_MAX : Z := 2 ^ 63 - 1.

Create HintDb iota.
Create Rewrite HintDb iota.

Lemma uwrap_small w z : 0 <= z < 2 ^ w -> uwrap w z = z.
Proof. apply Z.mod_small. Qed.

Lemma uwrap_range w z : 0 <= w -> 0 <= uwrap w z < 2 ^ w.
Proof. intros. apply Z.mod_pos_bound. apply Z.pow_pos_nonneg; lia. Qed.

Lemma swrap_small w z : 0 < w -> - 2 ^ (w - 1) <= z < 2 ^ (w - 1) -> swrap w z = z.
Proof.
  intros Hw Hz. unfold swrap.
  assert (2 ^ w = 2 * 2 ^ (w - 1)) as E.
  { rewrite <- Z.pow_succ_r by lia. f_equal; lia. }
  rewrite Z.mod_small; lia.
Qed.

Lemma swrap_range w z : 0 < w -> - 2 ^ (w - 1) <= swrap w z < 2 ^ (w - 1).
Proof.
  intros Hw. unfold swrap.
  assert (2 ^ w = 2 * 2 ^ (w - 1)) as E.
  { rewrite <- Z.pow_succ_r by lia. f_equal; lia. }
  pose proof (Z.mod_pos_bound (z + 2 ^ (w - 1)) (2 ^ w)). 
  assert (0 < 2 ^ (w - 1)) by (apply Z.pow_pos_nonneg; lia). lia.
Qed.

Lemma swrap_eqm w a b : a mod 2 ^ w = b mod 2 ^ w -> swrap w a = swrap w b.
Proof.
  intros E. unfold swrap. rewrite <- (Zplus_mod_idemp_l a), <- (Zplus_mod_idemp_l b).
  by rewrite E.
Qed.

Lemma swrap_mod w z : 0 <= w -> swrap w z mod 2 ^ w = z mod 2 ^ w.
Proof.
  intros. unfold swrap. rewrite Zminus_mod_idemp_l. f_equal. lia.
Qed.

(** Arithmetic on already wrapped values can be wrapped once at the end. *)
Lemma swrap_add_l w a b : 0 <= w -> swrap w (swrap w a + b) = swrap w (a + b).
Proof.
  intros. apply swrap_eqm. rewrite <- Zplus_mod_idemp_l, swrap_mod by done.
  apply Zplus_mod_idemp_l.
Qed.

Lemma swrap_mul_l w a b : 0 <= w -> swrap w (swrap w a * b) = swrap w (a * b).
Proof.
  intros. apply swrap_eqm. rewrite <- Zmult_mod_idemp_l, swrap_mod by done.
  apply Zmult_mod_idemp_l.
Qed.

Lemma swrap_swrap w a : 0 <= w -> swrap w (swrap w a) = swrap w a.
Proof. intros. apply swrap_eqm. by apply swrap_mod. Qed.

(** ** Lists used as C buffers

    [buf_write off src buf] is [memcpy(buf + off, src, |src|)].  A write past
    the end of the buffer is undefined in C; here the part that does not fit is
    dropped, and theorems state the length under which everything fits. *)
Definition buf_write {A} (off : nat) (src buf : list A) : list A :=
  take off buf ++ take (length buf - off) src ++ drop (off + length src) buf.

Definition buf_read {A} (off n : nat) (buf : list A) : list A := take n (drop off buf).

Lemma length_buf_write {A} off (src buf : list A) :
  (off <= length buf)%nat -> length (buf_write off src buf) = length buf.
Proof.
  intros. unfold buf_write. rewrite !length_app, !length_take, length_drop. lia.
Qed.

Lemma buf_read_write_same {A} off (src buf : list A) :
  (off + length src <= length buf)%nat ->
  buf_read off (length src) (buf_write off src buf) = src.
Proof.
  intros. unfold buf_read, buf_write.
  rewrite (take_ge src) by lia.
  rewrite drop_app_length' by (rewrite length_take; lia).
  by rewrite take_app_length.
Qed.

(** A write leaves every slice that lies before or after it unchanged. *)
Lemma buf_read_write_before {A} off n off' (src buf : list A) :
  (off + n <= off')%nat -> (off' <= length buf)%nat ->
  buf_read off n (buf_write off' src buf) = buf_read off n buf.
Proof.
  intros. unfold buf_read, buf_write.
  apply list_eq; intros i.
  destruct (decide (i < n)%nat).
  - rewrite !lookup_take_lt by done. rewrite !lookup_drop.
    rewrite lookup_app_l by (rewrite length_take; lia).
    by rewrite lookup_take_lt by lia.
  - by rewrite !lookup_take_ge by lia.
Qed.

Lemma buf_read_write_after {A} off n off' (src buf : list A) :
  (off' + length src <= off)%nat -> (off' + length src <= length buf)%nat ->
  buf_read off n (buf_write off' src buf) = buf_read off n buf.
Proof.
  intros. unfold buf_read, buf_write. f_equal.
  rewrite (take_ge src) by lia.
  rewrite app_assoc, drop_app_ge by (rewrite length_app, length_take; lia).
  rewrite length_app, length_take, drop_drop. f_equal. lia.
Qed.

Lemma buf_read_0 {A} n (buf : list A) : buf_read 0 n buf = take n buf.
Proof. done. Qed.

Lemma length_buf_read {A} off n (buf : list A) :
  (off + n <= length buf)%nat -> length (buf_read off n buf) = n.
Proof. intros. unfold buf_read. rewrite length_take, length_drop. lia. Qed.

(** A function applied through a pointer into the middle of a buffer. *)
Definition at_pos {A} (off : nat) (f : list A -> list A) (buf : list A) : list A :=
  take off buf ++ f (drop off buf).

Lemma at_pos_app {A} pos (f : list A -> list A) pre rest : length pre = pos ->
  at_pos pos f (pre ++ rest) = pre ++ f rest.
Proof. intros H. unfold at_pos. by rewrite take_app_length', drop_app_length'. Qed.

Lemma length_at_pos {A} off (f : list A -> list A) buf : (forall l, length (f l) = length l) ->
  length (at_pos off f buf) = length buf.
Proof. intros Hf. unfold at_pos. rewrite length_app, Hf, <- length_app. by rewrite take_drop. Qed.

(** Two lists that agree from [n] on agree from any later index on. *)
Lemma drop_eq_le {A} n m (l1 l2 : list A) : (n <= m)%nat ->
  drop n l1 = drop n l2 -> drop m l1 = drop m l2.
Proof.
  intros Hle E. replace m with (n + (m - n))%nat by lia. by rewrite <- !drop_drop, E.
Qed.

Lemma Forall_drop_le {A} (P : A -> Prop) n m l : (n <= m)%nat ->
  Forall P (drop n l) -> Forall P (drop m l).
Proof.
  intros Hle H. replace m with (n + (m - n))%nat by lia. rewrite <- drop_drop. by apply Forall_drop.
Qed.

(** ** Chunked processing

    Loops of the form [for (i = 0; i < len; i += n)] that treat [n] items at a
    time, the last time possibly fewer. *)
Fixpoint chunks_fuel {A} (fuel n : nat) (l : list A) : list (list A) :=
  match fuel, l with
  | O, _ | _, [] => []
  | S fuel, _ => take n l :: chunks_fuel fuel n (drop n l)
  end.

Definition chunks {A} (n : nat) (l : list A) : list (list A) := chunks_fuel (length l) n l.

Lemma chunks_fuel_enough {A} n f1 f2 (l : list A) :
  (0 < n)%nat -> (length l <= f1)%nat -> (length l <= f2)%nat ->
  chunks_fuel f1 n l = chunks_fuel f2 n l.
Proof.
  intros Hn. revert f2 l. induction f1 as [|f1 IH]; intros [|f2] [|x l] H1 H2;
    simpl in *; try done; try lia.
  f_equal. apply IH; rewrite length_drop; simpl; lia.
Qed.

Lemma chunks_nil {A} n : @chunks A n [] = [].
Proof. done. Qed.

Lemma chunks_unfold {A} n (l : list A) :
  (0 < n)%nat -> l <> [] -> chunks n l = take n l :: chunks n (drop n l).
Proof.
  intros Hn Hl. unfold chunks. destruct l as [|x l]; [done|].
  cbn [length chunks_fuel]. f_equal.
  apply chunks_fuel_enough; [lia| |lia].
  rewrite length_drop. simpl. lia.
Qed.

(** Induction on a list, [n] items at a time. *)
Lemma chunk_ind {A} (n : nat) (P : list A -> Prop) :
  (0 < n)%nat -> P [] -> (forall l, l <> [] -> P (drop n l) -> P l) -> forall l, P l.
Proof.
  intros Hn H0 HS l.
  remember (length l) as k eqn:E. revert l E.
  induction k as [k IH] using (well_founded_ind Nat.lt_wf_0). intros l ->.
  destruct l as [|x l]; [done|].
  apply HS; [done|]. eapply IH; [|done]. rewrite length_drop. simpl. lia.
Qed.

Lemma chunks_app_exact {A} n (l1 l2 : list A) :
  (0 < n)%nat -> length l1 = n -> chunks n (l1 ++ l2) = l1 :: chunks n l2.
Proof.
  intros Hn Hl. rewrite chunks_unfold; [|done|].
  - by rewrite take_app_length', drop_app_length'.
  - destruct l1; simpl in *; [lia|done].
Qed.

(** Cutting a list whose first part is a whole number of chunks. *)
Lemma chunks_app {A} n k (l1 l2 : list A) : (0 < n)%nat -> length l1 = (k * n)%nat ->
  chunks n (l1 ++ l2) = chunks n l1 ++ chunks n l2.
Proof.
  intros Hn. revert l1. induction k as [|k IH]; intros l1 Hl.
  - by destruct l1.
  - assert (length (take n l1) = n) as Ht by (rewrite length_take; lia).
    rewrite <- (take_drop n l1), <- app_assoc,
      (chunks_app_exact n (take n l1) (drop n l1 ++ l2)),
      (chunks_app_exact n (take n l1) (drop n l1)) by done.
    cbn [app]. f_equal. apply IH. rewrite length_drop. lia.
Qed.

Lemma Forall_chunks {A} (P : A -> Prop) n l : Forall P l -> Forall (Forall P) (chunks n l).
Proof.
  unfold chunks. generalize (length l) as fuel. intros fuel. revert l.
  induction fuel as [|fuel IH]; intros l Hl; [constructor|].
  destruct l as [|x l]; [constructor|]. cbn [chunks_fuel].
  apply Forall_cons_iff. split; [by apply Forall_take|by apply IH, Forall_drop].
Qed.

(** A loop that treats one chunk after the other. *)
Lemma foldl_inv {A S} (f : S -> A -> S) (P : A -> Prop) (I : S -> Prop) l s :
  (forall s x, I s -> P x -> I (f s x)) -> Forall P l -> I s -> I (foldl f s l).
Proof.
  intros Hf Hl. revert s. induction Hl as [|x l Hx Hl IH]; intros s Hs; cbn [foldl]; auto.
Qed.

(** ** Balanced ternary

    [bal ts] is the integer that a little-endian sequence of trits denotes. *)
Definition is_trit (t : Z) : Prop := -1 <= t <= 1.

#[global] Instance is_trit_dec t : Decision (is_trit t).
Proof. unfold is_trit. apply _. Defined.

Abbreviation trits_ok := (Forall is_trit).

Fixpoint bal (ts : list Z) : Z :=
  match ts with
  | [] => 0
  | t :: ts => t + 3 * bal ts
  end.

Lemma is_trit_cases t : is_trit t -> t = -1 \/ t = 0 \/ t = 1.
Proof. unfold is_trit. lia. Qed.

(** Case analysis on every trit of the context. *)
Ltac trit_cases :=
  repeat match goal with
  | H : is_trit ?t |- _ => destruct (is_trit_cases t H) as [->|[->| ->]]; clear H
  end.

Ltac inv_trits :=
  repeat match goal with
  | H : Forall _ (_ :: _) |- _ => apply Forall_cons_iff in H; destruct H
  | H : Forall _ (_ ++ _) |- _ => apply Forall_app in H; destruct H
  end.

(** Closed decidable goals, by evaluation. *)
Ltac closed_decide := apply (bool_decide_unpack _); vm_compute; exact I.

Ltac solve_forall :=
  cbn [app];
  repeat first
    [ done | assumption | apply Forall_nil | apply Forall_cons
    | (apply Forall_app; split) | apply Forall_take | apply Forall_drop ];
  eauto with iota.

Lemma bal_app l1 l2 : bal (l1 ++ l2) = bal l1 + 3 ^ Z.of_nat (length l1) * bal l2.
Proof.
  induction l1 as [|t l1 IH]; simpl.
  - rewrite Z.pow_0_r. lia.
  - rewrite IH, Nat2Z.inj_succ, Z.pow_succ_r by lia. ring.
Qed.

Lemma bal_replicate_0 n : bal (replicate n 0) = 0.
Proof. induction n; simpl; lia. Qed.

Lemma pow3_pos n : 0 < 3 ^ Z.of_nat n.
Proof. apply Z.pow_pos_nonneg; lia. Qed.

Lemma pow3_S n : 3 ^ Z.of_nat (S n) = 3 * 3 ^ Z.of_nat n.
Proof. rewrite Nat2Z.inj_succ, Z.pow_succ_r; lia. Qed.

(** A sequence of [n] trits denotes a number in [-(3^n-1)/2 .. (3^n-1)/2]. *)
Lemma bal_bound ts : trits_ok ts -> 2 * Z.abs (bal ts) <= 3 ^ Z.of_nat (length ts) - 1.
Proof.
  induction 1 as [|t ts Ht _ IH]; simpl bal; [simpl; lia|].
  cbn [length]. rewrite pow3_S. unfold is_trit in Ht. lia.
Qed.

(** Balanced ternary notation of a given width is unique. *)
Lemma bal_inj ts us :
  trits_ok ts -> trits_ok us -> length ts = length us -> bal ts = bal us -> ts = us.
Proof.
  intros Ht. revert us. induction Ht as [|t ts Ht _ IH]; intros [|u us] Hu Hl Hb;
    simpl in *; try lia; [done|].
  inv_trits. unfold is_trit in *.
  assert (t = u /\ bal ts = bal us) as [-> E] by (split; lia).
  f_equal. apply IH; [done|lia|done].
Qed.

Lemma nth_trit i s : trits_ok s -> is_trit (nth i s 0).
Proof.
  intros Hs. destruct (decide (i < length s)%nat).
  - rewrite List.Forall_forall in Hs. apply Hs, nth_In. lia.
  - rewrite nth_overflow by lia. unfold is_trit. lia.
Qed.

Definition zsum (l : list Z) : Z := foldr Z.add 0 l.

Lemma zsum_app l1 l2 : zsum (l1 ++ l2) = zsum l1 + zsum l2.
Proof. unfold zsum. induction l1 as [|x l1 IH]; cbn in *; lia. Qed.

(** Indexing a list that is given by its elements. *)
Lemma nth_map_seq {A} (f : nat -> A) n k d : (k < n)%nat -> nth k (map f (seq 0 n)) d = f k.
Proof.
  intros Hk. rewrite (nth_indep _ d (f 0%nat)) by (by rewrite length_map, length_seq).
  by rewrite map_nth, seq_nth.
Qed.

#[export] Hint Resolve is_trit_cases pow3_pos bal_bound : iota.
#[export] Hint Rewrite @length_app @length_take @length_drop @length_replicate @length_map : iota.
