(* ===== verification/Errors.v ===== *)
(** * Error codes

    The enumeration of [common/errors.h]: a code has the module that raised it,
    a severity and a number, packed in sixteen bits. *)
From S2P Require Import Prelude.

Definition RC_SEVERITY_MASK : Z := 0x00C0.
Definition RC_SEVERITY_SHIFT : Z := 6.
Definition RC_MODULE_MASK : Z := 0xFF00.
Definition RC_MODULE_SHIFT : Z := 8.
Definition RC_ERRORCODE_MASK : Z := 0x003F.

Definition RC_SEVERITY_MINOR : Z := Z.shiftl 0x0 RC_SEVERITY_SHIFT.
Definition RC_SEVERITY_MODERATE : Z := Z.shiftl 0x1 RC_SEVERITY_SHIFT.
Definition RC_SEVERITY_MAJOR : Z := Z.shiftl 0x2 RC_SEVERITY_SHIFT.
Definition RC_SEVERITY_FATAL : Z := Z.shiftl 0x3 RC_SEVERITY_SHIFT.
Definition RC_MODULE_GENERAL : Z := Z.shiftl 0x01 RC_MODULE_SHIFT.
Definition RC_MODULE_STORAGE : Z := Z.shiftl 0x02 RC_MODULE_SHIFT.
Definition RC_MODULE_NEIGHBOR : Z := Z.shiftl 0x03 RC_MODULE_SHIFT.
Definition RC_MODULE_CCLIENT : Z := Z.shiftl 0x04 RC_MODULE_SHIFT.
Definition RC_MODULE_CONSENSUS : Z := Z.shiftl 0x05 RC_MODULE_SHIFT.
Definition RC_MODULE_CW : Z := Z.shiftl 0x06 RC_MODULE_SHIFT.
Definition RC_MODULE_EXIT_PROBABILITIES : Z := Z.shiftl 0x07 RC_MODULE_SHIFT.
Definition RC_MODULE_SNAPSHOT : Z := Z.shiftl 0x08 RC_MODULE_SHIFT.
Definition RC_MODULE_LEDGER_VALIDATOR : Z := Z.shiftl 0x09 RC_MODULE_SHIFT.
Definition RC_MODULE_TIP_SELECTOR : Z := Z.shiftl 0x0A RC_MODULE_SHIFT.
Definition RC_MODULE_TANGLE : Z := Z.shiftl 0x0B RC_MODULE_SHIFT.
Definition RC_MODULE_UTILS : Z := Z.shiftl 0x0C RC_MODULE_SHIFT.
Definition RC_MODULE_PROCESSOR : Z := Z.shiftl 0x0D RC_MODULE_SHIFT.
Definition RC_MODULE_CONF : Z := Z.shiftl 0x0E RC_MODULE_SHIFT.
Definition RC_MODULE_API : Z := Z.shiftl 0x0F RC_MODULE_SHIFT.
Definition RC_MODULE_NODE : Z := Z.shiftl 0x10 RC_MODULE_SHIFT.
Definition RC_MODULE_MAM : Z := Z.shiftl 0x11 RC_MODULE_SHIFT.
Definition RC_MODULE_HELPERS : Z := Z.shiftl 0x12 RC_MODULE_SHIFT.
Definition RC_MODULE_CRYPTO : Z := Z.shiftl 0x13 RC_MODULE_SHIFT.
Definition RC_MODULE_COMMON : Z := Z.shiftl 0x14 RC_MODULE_SHIFT.
Definition RC_MODULE_HANDLE : Z := Z.shiftl 0x15 RC_MODULE_SHIFT.
Definition RC_MODULE_NETWORK : Z := Z.shiftl 0x16 RC_MODULE_SHIFT.

Definition RC_GET_SEVERITY (x : Z) : Z := Z.land x RC_SEVERITY_MASK.
Definition RC_GET_MODULE (x : Z) : Z := Z.land x RC_MODULE_MASK.
Definition RC_GET_ERRORCODE (x : Z) : Z := Z.land x RC_ERRORCODE_MASK.

Inductive retcode_t :=
| RC_OK
| RC_ERROR
| RC_NULL_PARAM
| RC_INVALID_PARAM
| RC_OOM
| RC_STILL_RUNNING
| RC_STORAGE_FAILED_OPEN_DB
| RC_STORAGE_FAILED_INSERT_DB
| RC_STORAGE_NO_PATH_FOR_DB_SPECIFIED
| RC_STORAGE_FAILED_NOT_IMPLEMENTED
| RC_STORAGE_FAILED_BINDING
| RC_STORAGE_FAILED_PREPARED_STATEMENT
| RC_STORAGE_FAILED_FINALIZE
| RC_STORAGE_FAILED_STEP
| RC_STORAGE_FAILED_BEGIN
| RC_STORAGE_FAILED_END
| RC_STORAGE_FAILED_ROLLBACK
| RC_STORAGE_FAILED_CONFIG
| RC_STORAGE_FAILED_INIT
| RC_STORAGE_FAILED_SHUTDOWN
| RC_STORAGE_FAILED_EXECUTE
| RC_STORAGE_FAILED_STORE_RESULT
| RC_STORAGE_FAILED_GET_RESULT
| RC_STORAGE_FAILED_SET_ATTR
| RC_STORAGE_FAILED_INIT_STATEMENT
| RC_STORAGE_FAILED_CLOSE_STATEMENT
| RC_NEIGHBOR_FAILED_URI_PARSING
| RC_NEIGHBOR_INVALID_PROTOCOL
| RC_NEIGHBOR_INVALID_HOST
| RC_NEIGHBOR_FAILED_SEND
| RC_NEIGHBOR_FAILED_ENDPOINT_INIT
| RC_NEIGHBOR_FAILED_ENDPOINT_DESTROY
| RC_NEIGHBOR_ALREADY_PAIRED
| RC_NEIGHBOR_NOT_PAIRED
| RC_CCLIENT_JSON_CREATE
| RC_CCLIENT_JSON_PARSE
| RC_CCLIENT_HTTP
| RC_CCLIENT_HTTP_REQ
| RC_CCLIENT_RES_ERROR
| RC_CCLIENT_JSON_KEY
| RC_CCLIENT_FLEX_TRITS
| RC_CCLIENT_NULL_PTR
| RC_CCLIENT_UNIMPLEMENTED
| RC_CCLIENT_INVALID_SECURITY
| RC_CCLIENT_TX_DESERIALIZE_FAILED
| RC_CCLIENT_INSUFFICIENT_BALANCE
| RC_CCLIENT_POW_FAILED
| RC_CCLIENT_INVALID_TRANSFER
| RC_CCLIENT_INVALID_TAIL_HASH
| RC_CCLIENT_INVALID_BUNDLE
| RC_CCLIENT_CHECK_BALANCE
| RC_CCLIENT_NOT_PROMOTABLE
| RC_CCLIENT_NO_LOCAL_POW
| RC_CONSENSUS_NOT_IMPLEMENTED
| RC_CW_FAILED_IN_DFS_FROM_DB
| RC_CW_FAILED_IN_LIGHT_DFS
| RC_EXIT_PROBABILITIES_INVALID_ENTRYPOINT
| RC_EXIT_PROBABILITIES_MISSING_RATING
| RC_EXIT_PROBABILITIES_NOT_IMPLEMENTED
| RC_SNAPSHOT_FILE_NOT_FOUND
| RC_SNAPSHOT_INVALID_FILE
| RC_SNAPSHOT_INVALID_SUPPLY
| RC_SNAPSHOT_INCONSISTENT_SNAPSHOT
| RC_SNAPSHOT_INCONSISTENT_PATCH
| RC_SNAPSHOT_BALANCE_NOT_FOUND
| RC_SNAPSHOT_INVALID_SIGNATURE
| RC_SNAPSHOT_FAILED_JSON_PARSING
| RC_SNAPSHOT_SERVICE_NOT_ENOUGH_DEPTH
| RC_SNAPSHOT_SERVICE_MILESTONE_NOT_LOADED
| RC_SNAPSHOT_SERVICE_MILESTONE_NOT_SOLID
| RC_SNAPSHOT_SERVICE_MILESTONE_TOO_OLD
| RC_SNAPSHOT_METADATA_FAILED_DESERIALIZING
| RC_SNAPSHOT_METADATA_FAILED_SERIALIZING
| RC_SNAPSHOT_STATE_DELTA_FAILED_DESERIALIZING
| RC_SNAPSHOT_MISSING_MILESTONE_TRANSACTION
| RC_LEDGER_VALIDATOR_INVALID_TRANSACTION
| RC_LEDGER_VALIDATOR_COULD_NOT_LOAD_MILESTONE
| RC_LEDGER_VALIDATOR_INCONSISTENT_DELTA
| RC_LEDGER_VALIDATOR_TRANSACTION_NOT_SOLID
| RC_TIP_SELECTOR_TIPS_NOT_CONSISTENT
| RC_TIP_SELECTOR_REFERENCE_TOO_OLD
| RC_TANGLE_TAIL_NOT_FOUND
| RC_TANGLE_NOT_A_TAIL
| RC_UTILS_FAILED_REMOVE_FILE
| RC_UTILS_FAILED_TO_COPY_FILE
| RC_UTILS_FAILED_TO_OPEN_FILE
| RC_UTILS_INVALID_SIG_FILE
| RC_UTILS_INVALID_LOGGER_VERSION
| RC_UTILS_FAILED_WRITE_FILE
| RC_UTILS_FAILED_READ_FILE
| RC_UTILS_FAILED_OPEN_SRC_FILE
| RC_UTILS_FAILED_OPEN_CREATE_DST_FILE
| RC_UTILS_FAILED_CLOSE_FILE
| RC_UTILS_FILE_DOES_NOT_EXITS
| RC_UTILS_SOCKET_TLS_RNG
| RC_UTILS_SOCKET_TLS_CA
| RC_UTILS_SOCKET_TLS_CLIENT_PEM
| RC_UTILS_SOCKET_TLS_CLIENT_PK
| RC_UTILS_SOCKET_TLS_CONF
| RC_UTILS_SOCKET_TLS_AUTHMODE
| RC_UTILS_SOCKET_CLIENT_AUTH
| RC_UTILS_SOCKET_TLS_HANDSHAKE
| RC_UTILS_SOCKET_CONNECT
| RC_UTILS_SOCKET_RECV
| RC_UTILS_SOCKET_SEND
| RC_UTILS_BUNDLE_MINER_BAD_PARAM
| RC_PROCESSOR_INVALID_TRANSACTION
| RC_PROCESSOR_INVALID_REQUEST
| RC_CONF_INVALID_ARGUMENT
| RC_CONF_MISSING_ARGUMENT
| RC_CONF_UNKNOWN_OPTION
| RC_CONF_PARSER_ERROR
| RC_API_MAX_GET_TRYTES
| RC_API_FIND_TRANSACTIONS_NO_INPUT
| RC_API_MAX_FIND_TRANSACTIONS
| RC_API_INVALID_DEPTH_INPUT
| RC_API_UNSYNCED_NODE
| RC_API_TAIL_MISSING
| RC_API_NOT_TAIL
| RC_API_GET_BALANCES_INVALID_THRESHOLD
| RC_API_GET_BALANCES_UNKNOWN_TIP
| RC_API_GET_BALANCES_INCONSISTENT_TIP
| RC_NODE_SET_PACKET_TRANSACTION_FAILED
| RC_NODE_SET_PACKET_REQUEST_FAILED
| RC_MAM_BUFFER_TOO_SMALL
| RC_MAM_INVALID_ARGUMENT
| RC_MAM_INVALID_VALUE
| RC_MAM_NEGATIVE_VALUE
| RC_MAM_INTERNAL_ERROR
| RC_MAM_NOT_IMPLEMENTED
| RC_MAM_PB3_EOF
| RC_MAM_PB3_BAD_ONEOF
| RC_MAM_PB3_BAD_OPTIONAL
| RC_MAM_PB3_BAD_REPEATED
| RC_MAM_PB3_BAD_MAC
| RC_MAM_PB3_BAD_SIG
| RC_MAM_PB3_BAD_EKEY
| RC_MAM_TRITS_SIZE_T_NOT_SUPPORTED
| RC_MAM_CHANNEL_NOT_FOUND
| RC_MAM_ENDPOINT_NOT_FOUND
| RC_MAM_VERSION_NOT_SUPPORTED
| RC_MAM_CHANNEL_NOT_TRUSTED
| RC_MAM_ENDPOINT_NOT_TRUSTED
| RC_MAM_KEYLOAD_IRRELEVANT
| RC_MAM_KEYLOAD_OVERLOADED
| RC_MAM_BUNDLE_NOT_EMPTY
| RC_MAM_BUNDLE_DOES_NOT_CONTAIN_HEADER
| RC_MAM_RECV_CTX_NOT_FOUND
| RC_MAM_SEND_CTX_NOT_FOUND
| RC_MAM_MESSAGE_NOT_FOUND
| RC_MAM_BAD_PACKET_ORD
| RC_MAM_MSS_EXHAUSTED
| RC_MAM_NTRU_POLY_FAILED
| RC_MAM_API_FAILED_CREATE_ENDPOINT
| RC_MAM_API_FAILED_CREATE_CHANNEL
| RC_MAM_MSS_NOT_FOUND
| RC_HELPERS_POW_INVALID_TX
| RC_CRYPTO_UNSUPPORTED_SPONGE_TYPE
| RC_COMMON_BUNDLE_SIGN
| RC_THREAD_CREATE
| RC_THREAD_JOIN
| RC_COND_INIT
| RC_COND_SIGNAL
| RC_COND_DESTROY
| RC_LOCK_INIT
| RC_LOCK_DESTROY
| RC_DOMAIN_RESOLUTION
| RC_EVENT_LOOP
| RC_TCP_SERVER_INIT
| RC_INVALID_PACKET
| RC_INVALID_PACKET_TYPE
| RC_FAILED_HANDSHAKE
| RC_WRITE_TCP_FAILED
| RC_ASYNC_INIT_FAILED
| RC_ASYNC_CALL_FAILED.

Definition rc_value (c : retcode_t) : Z :=
  match c with
  | RC_OK => 0
  | RC_ERROR => 0xFFFF
  | RC_NULL_PARAM => Z.lor (Z.lor 0x01 RC_MODULE_GENERAL) RC_SEVERITY_MAJOR
  | RC_INVALID_PARAM => Z.lor (Z.lor 0x02 RC_MODULE_GENERAL) RC_SEVERITY_MAJOR
  | RC_OOM => Z.lor (Z.lor 0x03 RC_MODULE_GENERAL) RC_SEVERITY_MAJOR
  | RC_STILL_RUNNING => Z.lor (Z.lor 0x04 RC_MODULE_GENERAL) RC_SEVERITY_MODERATE
  | RC_STORAGE_FAILED_OPEN_DB => Z.lor (Z.lor 0x01 RC_MODULE_STORAGE) RC_SEVERITY_FATAL
  | RC_STORAGE_FAILED_INSERT_DB => Z.lor (Z.lor 0x02 RC_MODULE_STORAGE) RC_SEVERITY_MAJOR
  | RC_STORAGE_NO_PATH_FOR_DB_SPECIFIED => Z.lor (Z.lor 0x03 RC_MODULE_STORAGE) RC_SEVERITY_FATAL
  | RC_STORAGE_FAILED_NOT_IMPLEMENTED => Z.lor (Z.lor 0x04 RC_MODULE_STORAGE) RC_SEVERITY_MAJOR
  | RC_STORAGE_FAILED_BINDING => Z.lor (Z.lor 0x05 RC_MODULE_STORAGE) RC_SEVERITY_MAJOR
  | RC_STORAGE_FAILED_PREPARED_STATEMENT => Z.lor (Z.lor 0x06 RC_MODULE_STORAGE) RC_SEVERITY_MAJOR
  | RC_STORAGE_FAILED_FINALIZE => Z.lor (Z.lor 0x07 RC_MODULE_STORAGE) RC_SEVERITY_MAJOR
  | RC_STORAGE_FAILED_STEP => Z.lor (Z.lor 0x08 RC_MODULE_STORAGE) RC_SEVERITY_MAJOR
  | RC_STORAGE_FAILED_BEGIN => Z.lor (Z.lor 0x09 RC_MODULE_STORAGE) RC_SEVERITY_MAJOR
  | RC_STORAGE_FAILED_END => Z.lor (Z.lor 0x0A RC_MODULE_STORAGE) RC_SEVERITY_MAJOR
  | RC_STORAGE_FAILED_ROLLBACK => Z.lor (Z.lor 0x0B RC_MODULE_STORAGE) RC_SEVERITY_FATAL
  | RC_STORAGE_FAILED_CONFIG => Z.lor (Z.lor 0x0C RC_MODULE_STORAGE) RC_SEVERITY_FATAL
  | RC_STORAGE_FAILED_INIT => Z.lor (Z.lor 0x0D RC_MODULE_STORAGE) RC_SEVERITY_FATAL
  | RC_STORAGE_FAILED_SHUTDOWN => Z.lor (Z.lor 0x0E RC_MODULE_STORAGE) RC_SEVERITY_FATAL
  | RC_STORAGE_FAILED_EXECUTE => Z.lor (Z.lor 0x0F RC_MODULE_STORAGE) RC_SEVERITY_FATAL
  | RC_STORAGE_FAILED_STORE_RESULT => Z.lor (Z.lor 0x10 RC_MODULE_STORAGE) RC_SEVERITY_FATAL
  | RC_STORAGE_FAILED_GET_RESULT => Z.lor (Z.lor 0x11 RC_MODULE_STORAGE) RC_SEVERITY_FATAL
  | RC_STORAGE_FAILED_SET_ATTR => Z.lor (Z.lor 0x12 RC_MODULE_STORAGE) RC_SEVERITY_FATAL
  | RC_STORAGE_FAILED_INIT_STATEMENT => Z.lor (Z.lor 0x13 RC_MODULE_STORAGE) RC_SEVERITY_MAJOR
  | RC_STORAGE_FAILED_CLOSE_STATEMENT => Z.lor (Z.lor 0x14 RC_MODULE_STORAGE) RC_SEVERITY_MAJOR
  | RC_NEIGHBOR_FAILED_URI_PARSING => Z.lor (Z.lor 0x01 RC_MODULE_NEIGHBOR) RC_SEVERITY_MAJOR
  | RC_NEIGHBOR_INVALID_PROTOCOL => Z.lor (Z.lor 0x02 RC_MODULE_NEIGHBOR) RC_SEVERITY_MAJOR
  | RC_NEIGHBOR_INVALID_HOST => Z.lor (Z.lor 0x03 RC_MODULE_NEIGHBOR) RC_SEVERITY_MAJOR
  | RC_NEIGHBOR_FAILED_SEND => Z.lor (Z.lor 0x04 RC_MODULE_NEIGHBOR) RC_SEVERITY_MODERATE
  | RC_NEIGHBOR_FAILED_ENDPOINT_INIT => Z.lor (Z.lor 0x05 RC_MODULE_NEIGHBOR) RC_SEVERITY_FATAL
  | RC_NEIGHBOR_FAILED_ENDPOINT_DESTROY => Z.lor (Z.lor 0x06 RC_MODULE_NEIGHBOR) RC_SEVERITY_FATAL
  | RC_NEIGHBOR_ALREADY_PAIRED => Z.lor (Z.lor 0x07 RC_MODULE_NEIGHBOR) RC_SEVERITY_MODERATE
  | RC_NEIGHBOR_NOT_PAIRED => Z.lor (Z.lor 0x08 RC_MODULE_NEIGHBOR) RC_SEVERITY_MODERATE
  | RC_CCLIENT_JSON_CREATE => Z.lor (Z.lor 0x01 RC_MODULE_CCLIENT) RC_SEVERITY_FATAL
  | RC_CCLIENT_JSON_PARSE => Z.lor (Z.lor 0x02 RC_MODULE_CCLIENT) RC_SEVERITY_MAJOR
  | RC_CCLIENT_HTTP => Z.lor (Z.lor 0x04 RC_MODULE_CCLIENT) RC_SEVERITY_MAJOR
  | RC_CCLIENT_HTTP_REQ => Z.lor (Z.lor 0x05 RC_MODULE_CCLIENT) RC_SEVERITY_MAJOR
  | RC_CCLIENT_RES_ERROR => Z.lor (Z.lor 0x07 RC_MODULE_CCLIENT) RC_SEVERITY_MODERATE
  | RC_CCLIENT_JSON_KEY => Z.lor (Z.lor 0x08 RC_MODULE_CCLIENT) RC_SEVERITY_MINOR
  | RC_CCLIENT_FLEX_TRITS => Z.lor (Z.lor 0x09 RC_MODULE_CCLIENT) RC_SEVERITY_MODERATE
  | RC_CCLIENT_NULL_PTR => Z.lor (Z.lor 0x0A RC_MODULE_CCLIENT) RC_SEVERITY_MAJOR
  | RC_CCLIENT_UNIMPLEMENTED => Z.lor (Z.lor 0x0B RC_MODULE_CCLIENT) RC_SEVERITY_MAJOR
  | RC_CCLIENT_INVALID_SECURITY => Z.lor (Z.lor 0x0C RC_MODULE_CCLIENT) RC_SEVERITY_MINOR
  | RC_CCLIENT_TX_DESERIALIZE_FAILED => Z.lor (Z.lor 0x0E RC_MODULE_CCLIENT) RC_SEVERITY_MODERATE
  | RC_CCLIENT_INSUFFICIENT_BALANCE => Z.lor (Z.lor 0x0F RC_MODULE_CCLIENT) RC_SEVERITY_MINOR
  | RC_CCLIENT_POW_FAILED => Z.lor (Z.lor 0x10 RC_MODULE_CCLIENT) RC_SEVERITY_MINOR
  | RC_CCLIENT_INVALID_TRANSFER => Z.lor (Z.lor 0x11 RC_MODULE_CCLIENT) RC_SEVERITY_MODERATE
  | RC_CCLIENT_INVALID_TAIL_HASH => Z.lor (Z.lor 0x12 RC_MODULE_CCLIENT) RC_SEVERITY_MAJOR
  | RC_CCLIENT_INVALID_BUNDLE => Z.lor (Z.lor 0x13 RC_MODULE_CCLIENT) RC_SEVERITY_MINOR
  | RC_CCLIENT_CHECK_BALANCE => Z.lor (Z.lor 0x14 RC_MODULE_CCLIENT) RC_SEVERITY_MINOR
  | RC_CCLIENT_NOT_PROMOTABLE => Z.lor (Z.lor 0x15 RC_MODULE_CCLIENT) RC_SEVERITY_MINOR
  | RC_CCLIENT_NO_LOCAL_POW => Z.lor (Z.lor 0x16 RC_MODULE_CCLIENT) RC_SEVERITY_MINOR
  | RC_CONSENSUS_NOT_IMPLEMENTED => Z.lor (Z.lor 0x01 RC_MODULE_CONSENSUS) RC_SEVERITY_MAJOR
  | RC_CW_FAILED_IN_DFS_FROM_DB => Z.lor (Z.lor 0x01 RC_MODULE_CW) RC_SEVERITY_MAJOR
  | RC_CW_FAILED_IN_LIGHT_DFS => Z.lor (Z.lor 0x02 RC_MODULE_CW) RC_SEVERITY_MAJOR
  | RC_EXIT_PROBABILITIES_INVALID_ENTRYPOINT => Z.lor (Z.lor 0x01 RC_MODULE_EXIT_PROBABILITIES) RC_SEVERITY_MAJOR
  | RC_EXIT_PROBABILITIES_MISSING_RATING => Z.lor (Z.lor 0x02 RC_MODULE_EXIT_PROBABILITIES) RC_SEVERITY_MODERATE
  | RC_EXIT_PROBABILITIES_NOT_IMPLEMENTED => Z.lor (Z.lor 0x03 RC_MODULE_EXIT_PROBABILITIES) RC_SEVERITY_MAJOR
  | RC_SNAPSHOT_FILE_NOT_FOUND => Z.lor (Z.lor 0x01 RC_MODULE_SNAPSHOT) RC_SEVERITY_FATAL
  | RC_SNAPSHOT_INVALID_FILE => Z.lor (Z.lor 0x02 RC_MODULE_SNAPSHOT) RC_SEVERITY_FATAL
  | RC_SNAPSHOT_INVALID_SUPPLY => Z.lor (Z.lor 0x03 RC_MODULE_SNAPSHOT) RC_SEVERITY_FATAL
  | RC_SNAPSHOT_INCONSISTENT_SNAPSHOT => Z.lor (Z.lor 0x04 RC_MODULE_SNAPSHOT) RC_SEVERITY_FATAL
  | RC_SNAPSHOT_INCONSISTENT_PATCH => Z.lor (Z.lor 0x05 RC_MODULE_SNAPSHOT) RC_SEVERITY_MAJOR
  | RC_SNAPSHOT_BALANCE_NOT_FOUND => Z.lor (Z.lor 0x06 RC_MODULE_SNAPSHOT) RC_SEVERITY_MODERATE
  | RC_SNAPSHOT_INVALID_SIGNATURE => Z.lor (Z.lor 0x07 RC_MODULE_SNAPSHOT) RC_SEVERITY_FATAL
  | RC_SNAPSHOT_FAILED_JSON_PARSING => Z.lor (Z.lor 0x08 RC_MODULE_SNAPSHOT) RC_SEVERITY_FATAL
  | RC_SNAPSHOT_SERVICE_NOT_ENOUGH_DEPTH => Z.lor (Z.lor 0x09 RC_MODULE_SNAPSHOT) RC_SEVERITY_MODERATE
  | RC_SNAPSHOT_SERVICE_MILESTONE_NOT_LOADED => Z.lor (Z.lor 0x0A RC_MODULE_SNAPSHOT) RC_SEVERITY_MODERATE
  | RC_SNAPSHOT_SERVICE_MILESTONE_NOT_SOLID => Z.lor (Z.lor 0x0B RC_MODULE_SNAPSHOT) RC_SEVERITY_MODERATE
  | RC_SNAPSHOT_SERVICE_MILESTONE_TOO_OLD => Z.lor (Z.lor 0x0C RC_MODULE_SNAPSHOT) RC_SEVERITY_MODERATE
  | RC_SNAPSHOT_METADATA_FAILED_DESERIALIZING => Z.lor (Z.lor 0x0D RC_MODULE_SNAPSHOT) RC_SEVERITY_MODERATE
  | RC_SNAPSHOT_METADATA_FAILED_SERIALIZING => Z.lor (Z.lor 0x0E RC_MODULE_SNAPSHOT) RC_SEVERITY_MODERATE
  | RC_SNAPSHOT_STATE_DELTA_FAILED_DESERIALIZING => Z.lor (Z.lor 0x0F RC_MODULE_SNAPSHOT) RC_SEVERITY_MODERATE
  | RC_SNAPSHOT_MISSING_MILESTONE_TRANSACTION => Z.lor (Z.lor 0x10 RC_MODULE_SNAPSHOT) RC_SEVERITY_MODERATE
  | RC_LEDGER_VALIDATOR_INVALID_TRANSACTION => Z.lor (Z.lor 0x01 RC_MODULE_LEDGER_VALIDATOR) RC_SEVERITY_MAJOR
  | RC_LEDGER_VALIDATOR_COULD_NOT_LOAD_MILESTONE => Z.lor (Z.lor 0x02 RC_MODULE_LEDGER_VALIDATOR) RC_SEVERITY_MAJOR
  | RC_LEDGER_VALIDATOR_INCONSISTENT_DELTA => Z.lor (Z.lor 0x03 RC_MODULE_LEDGER_VALIDATOR) RC_SEVERITY_FATAL
  | RC_LEDGER_VALIDATOR_TRANSACTION_NOT_SOLID => Z.lor (Z.lor 0x04 RC_MODULE_LEDGER_VALIDATOR) RC_SEVERITY_FATAL
  | RC_TIP_SELECTOR_TIPS_NOT_CONSISTENT => Z.lor (Z.lor 0x01 RC_MODULE_TIP_SELECTOR) RC_SEVERITY_MODERATE
  | RC_TIP_SELECTOR_REFERENCE_TOO_OLD => Z.lor (Z.lor 0x02 RC_MODULE_TIP_SELECTOR) RC_SEVERITY_MODERATE
  | RC_TANGLE_TAIL_NOT_FOUND => Z.lor (Z.lor 0x01 RC_MODULE_TANGLE) RC_SEVERITY_MODERATE
  | RC_TANGLE_NOT_A_TAIL => Z.lor (Z.lor 0x02 RC_MODULE_TANGLE) RC_SEVERITY_MODERATE
  | RC_UTILS_FAILED_REMOVE_FILE => Z.lor (Z.lor 0x01 RC_MODULE_UTILS) RC_SEVERITY_MAJOR
  | RC_UTILS_FAILED_TO_COPY_FILE => Z.lor (Z.lor 0x02 RC_MODULE_UTILS) RC_SEVERITY_MAJOR
  | RC_UTILS_FAILED_TO_OPEN_FILE => Z.lor (Z.lor 0x03 RC_MODULE_UTILS) RC_SEVERITY_MAJOR
  | RC_UTILS_INVALID_SIG_FILE => Z.lor (Z.lor 0x04 RC_MODULE_UTILS) RC_SEVERITY_MAJOR
  | RC_UTILS_INVALID_LOGGER_VERSION => Z.lor (Z.lor 0x05 RC_MODULE_UTILS) RC_SEVERITY_MAJOR
  | RC_UTILS_FAILED_WRITE_FILE => Z.lor (Z.lor 0x06 RC_MODULE_UTILS) RC_SEVERITY_MAJOR
  | RC_UTILS_FAILED_READ_FILE => Z.lor (Z.lor 0x07 RC_MODULE_UTILS) RC_SEVERITY_MAJOR
  | RC_UTILS_FAILED_OPEN_SRC_FILE => Z.lor (Z.lor 0x08 RC_MODULE_UTILS) RC_SEVERITY_MAJOR
  | RC_UTILS_FAILED_OPEN_CREATE_DST_FILE => Z.lor (Z.lor 0x09 RC_MODULE_UTILS) RC_SEVERITY_MAJOR
  | RC_UTILS_FAILED_CLOSE_FILE => Z.lor (Z.lor 0x0A RC_MODULE_UTILS) RC_SEVERITY_MAJOR
  | RC_UTILS_FILE_DOES_NOT_EXITS => Z.lor (Z.lor 0x0B RC_MODULE_UTILS) RC_SEVERITY_MAJOR
  | RC_UTILS_SOCKET_TLS_RNG => Z.lor (Z.lor 0x0C RC_MODULE_UTILS) RC_SEVERITY_MAJOR
  | RC_UTILS_SOCKET_TLS_CA => Z.lor (Z.lor 0x0D RC_MODULE_UTILS) RC_SEVERITY_MAJOR
  | RC_UTILS_SOCKET_TLS_CLIENT_PEM => Z.lor (Z.lor 0x0E RC_MODULE_UTILS) RC_SEVERITY_MAJOR
  | RC_UTILS_SOCKET_TLS_CLIENT_PK => Z.lor (Z.lor 0x0F RC_MODULE_UTILS) RC_SEVERITY_MAJOR
  | RC_UTILS_SOCKET_TLS_CONF => Z.lor (Z.lor 0x10 RC_MODULE_UTILS) RC_SEVERITY_MAJOR
  | RC_UTILS_SOCKET_TLS_AUTHMODE => Z.lor (Z.lor 0x11 RC_MODULE_UTILS) RC_SEVERITY_MAJOR
  | RC_UTILS_SOCKET_CLIENT_AUTH => Z.lor (Z.lor 0x12 RC_MODULE_UTILS) RC_SEVERITY_MAJOR
  | RC_UTILS_SOCKET_TLS_HANDSHAKE => Z.lor (Z.lor 0x13 RC_MODULE_UTILS) RC_SEVERITY_MAJOR
  | RC_UTILS_SOCKET_CONNECT => Z.lor (Z.lor 0x14 RC_MODULE_UTILS) RC_SEVERITY_MAJOR
  | RC_UTILS_SOCKET_RECV => Z.lor (Z.lor 0x15 RC_MODULE_UTILS) RC_SEVERITY_MINOR
  | RC_UTILS_SOCKET_SEND => Z.lor (Z.lor 0x16 RC_MODULE_UTILS) RC_SEVERITY_MINOR
  | RC_UTILS_BUNDLE_MINER_BAD_PARAM => Z.lor (Z.lor 0x17 RC_MODULE_UTILS) RC_SEVERITY_MINOR
  | RC_PROCESSOR_INVALID_TRANSACTION => Z.lor (Z.lor 0x01 RC_MODULE_PROCESSOR) RC_SEVERITY_MODERATE
  | RC_PROCESSOR_INVALID_REQUEST => Z.lor (Z.lor 0x02 RC_MODULE_PROCESSOR) RC_SEVERITY_MODERATE
  | RC_CONF_INVALID_ARGUMENT => Z.lor (Z.lor 0x01 RC_MODULE_CONF) RC_SEVERITY_FATAL
  | RC_CONF_MISSING_ARGUMENT => Z.lor (Z.lor 0x02 RC_MODULE_CONF) RC_SEVERITY_FATAL
  | RC_CONF_UNKNOWN_OPTION => Z.lor (Z.lor 0x03 RC_MODULE_CONF) RC_SEVERITY_FATAL
  | RC_CONF_PARSER_ERROR => Z.lor (Z.lor 0x04 RC_MODULE_CONF) RC_SEVERITY_FATAL
  | RC_API_MAX_GET_TRYTES => Z.lor (Z.lor 0x01 RC_MODULE_API) RC_SEVERITY_MODERATE
  | RC_API_FIND_TRANSACTIONS_NO_INPUT => Z.lor (Z.lor 0x02 RC_MODULE_API) RC_SEVERITY_MODERATE
  | RC_API_MAX_FIND_TRANSACTIONS => Z.lor (Z.lor 0x3 RC_MODULE_API) RC_SEVERITY_MODERATE
  | RC_API_INVALID_DEPTH_INPUT => Z.lor (Z.lor 0x04 RC_MODULE_API) RC_SEVERITY_MODERATE
  | RC_API_UNSYNCED_NODE => Z.lor (Z.lor 0x05 RC_MODULE_API) RC_SEVERITY_MODERATE
  | RC_API_TAIL_MISSING => Z.lor (Z.lor 0x06 RC_MODULE_API) RC_SEVERITY_MODERATE
  | RC_API_NOT_TAIL => Z.lor (Z.lor 0x07 RC_MODULE_API) RC_SEVERITY_MODERATE
  | RC_API_GET_BALANCES_INVALID_THRESHOLD => Z.lor (Z.lor 0x08 RC_MODULE_API) RC_SEVERITY_MINOR
  | RC_API_GET_BALANCES_UNKNOWN_TIP => Z.lor (Z.lor 0x09 RC_MODULE_API) RC_SEVERITY_MINOR
  | RC_API_GET_BALANCES_INCONSISTENT_TIP => Z.lor (Z.lor 0x0A RC_MODULE_API) RC_SEVERITY_MINOR
  | RC_NODE_SET_PACKET_TRANSACTION_FAILED => Z.lor (Z.lor 0x01 RC_MODULE_NODE) RC_SEVERITY_MODERATE
  | RC_NODE_SET_PACKET_REQUEST_FAILED => Z.lor (Z.lor 0x02 RC_MODULE_NODE) RC_SEVERITY_MODERATE
  | RC_MAM_BUFFER_TOO_SMALL => Z.lor (Z.lor 0x01 RC_MODULE_MAM) RC_SEVERITY_MODERATE
  | RC_MAM_INVALID_ARGUMENT => Z.lor (Z.lor 0x02 RC_MODULE_MAM) RC_SEVERITY_MODERATE
  | RC_MAM_INVALID_VALUE => Z.lor (Z.lor 0x03 RC_MODULE_MAM) RC_SEVERITY_MODERATE
  | RC_MAM_NEGATIVE_VALUE => Z.lor (Z.lor 0x04 RC_MODULE_MAM) RC_SEVERITY_MODERATE
  | RC_MAM_INTERNAL_ERROR => Z.lor (Z.lor 0x05 RC_MODULE_MAM) RC_SEVERITY_MODERATE
  | RC_MAM_NOT_IMPLEMENTED => Z.lor (Z.lor 0x06 RC_MODULE_MAM) RC_SEVERITY_MODERATE
  | RC_MAM_PB3_EOF => Z.lor (Z.lor 0x07 RC_MODULE_MAM) RC_SEVERITY_MODERATE
  | RC_MAM_PB3_BAD_ONEOF => Z.lor (Z.lor 0x08 RC_MODULE_MAM) RC_SEVERITY_MODERATE
  | RC_MAM_PB3_BAD_OPTIONAL => Z.lor (Z.lor 0x09 RC_MODULE_MAM) RC_SEVERITY_MODERATE
  | RC_MAM_PB3_BAD_REPEATED => Z.lor (Z.lor 0x0A RC_MODULE_MAM) RC_SEVERITY_MODERATE
  | RC_MAM_PB3_BAD_MAC => Z.lor (Z.lor 0x0B RC_MODULE_MAM) RC_SEVERITY_MODERATE
  | RC_MAM_PB3_BAD_SIG => Z.lor (Z.lor 0x0C RC_MODULE_MAM) RC_SEVERITY_MODERATE
  | RC_MAM_PB3_BAD_EKEY => Z.lor (Z.lor 0x0D RC_MODULE_MAM) RC_SEVERITY_MODERATE
  | RC_MAM_TRITS_SIZE_T_NOT_SUPPORTED => Z.lor (Z.lor 0x0E RC_MODULE_MAM) RC_SEVERITY_MODERATE
  | RC_MAM_CHANNEL_NOT_FOUND => Z.lor (Z.lor 0x0F RC_MODULE_MAM) RC_SEVERITY_MODERATE
  | RC_MAM_ENDPOINT_NOT_FOUND => Z.lor (Z.lor 0x10 RC_MODULE_MAM) RC_SEVERITY_MODERATE
  | RC_MAM_VERSION_NOT_SUPPORTED => Z.lor (Z.lor 0x11 RC_MODULE_MAM) RC_SEVERITY_MODERATE
  | RC_MAM_CHANNEL_NOT_TRUSTED => Z.lor (Z.lor 0x12 RC_MODULE_MAM) RC_SEVERITY_MODERATE
  | RC_MAM_ENDPOINT_NOT_TRUSTED => Z.lor (Z.lor 0x13 RC_MODULE_MAM) RC_SEVERITY_MODERATE
  | RC_MAM_KEYLOAD_IRRELEVANT => Z.lor (Z.lor 0x14 RC_MODULE_MAM) RC_SEVERITY_MODERATE
  | RC_MAM_KEYLOAD_OVERLOADED => Z.lor (Z.lor 0x15 RC_MODULE_MAM) RC_SEVERITY_MODERATE
  | RC_MAM_BUNDLE_NOT_EMPTY => Z.lor (Z.lor 0x16 RC_MODULE_MAM) RC_SEVERITY_MODERATE
  | RC_MAM_BUNDLE_DOES_NOT_CONTAIN_HEADER => Z.lor (Z.lor 0x17 RC_MODULE_MAM) RC_SEVERITY_MODERATE
  | RC_MAM_RECV_CTX_NOT_FOUND => Z.lor (Z.lor 0x18 RC_MODULE_MAM) RC_SEVERITY_MODERATE
  | RC_MAM_SEND_CTX_NOT_FOUND => Z.lor (Z.lor 0x19 RC_MODULE_MAM) RC_SEVERITY_MODERATE
  | RC_MAM_MESSAGE_NOT_FOUND => Z.lor (Z.lor 0x1A RC_MODULE_MAM) RC_SEVERITY_MODERATE
  | RC_MAM_BAD_PACKET_ORD => Z.lor (Z.lor 0x1B RC_MODULE_MAM) RC_SEVERITY_MODERATE
  | RC_MAM_MSS_EXHAUSTED => Z.lor (Z.lor 0x1C RC_MODULE_MAM) RC_SEVERITY_MODERATE
  | RC_MAM_NTRU_POLY_FAILED => Z.lor (Z.lor 0x1D RC_MODULE_MAM) RC_SEVERITY_MODERATE
  | RC_MAM_API_FAILED_CREATE_ENDPOINT => Z.lor (Z.lor 0x1E RC_MODULE_MAM) RC_SEVERITY_MODERATE
  | RC_MAM_API_FAILED_CREATE_CHANNEL => Z.lor (Z.lor 0x1F RC_MODULE_MAM) RC_SEVERITY_MODERATE
  | RC_MAM_MSS_NOT_FOUND => Z.lor (Z.lor 0x20 RC_MODULE_MAM) RC_SEVERITY_MODERATE
  | RC_HELPERS_POW_INVALID_TX => Z.lor (Z.lor 0x01 RC_MODULE_HELPERS) RC_SEVERITY_MODERATE
  | RC_CRYPTO_UNSUPPORTED_SPONGE_TYPE => Z.lor (Z.lor 0x01 RC_MODULE_CRYPTO) RC_SEVERITY_MAJOR
  | RC_COMMON_BUNDLE_SIGN => Z.lor (Z.lor 0x01 RC_MODULE_COMMON) RC_SEVERITY_MINOR
  | RC_THREAD_CREATE => Z.lor (Z.lor 0x01 RC_MODULE_HANDLE) RC_SEVERITY_FATAL
  | RC_THREAD_JOIN => Z.lor (Z.lor 0x02 RC_MODULE_HANDLE) RC_SEVERITY_MODERATE
  | RC_COND_INIT => Z.lor (Z.lor 0x03 RC_MODULE_HANDLE) RC_SEVERITY_FATAL
  | RC_COND_SIGNAL => Z.lor (Z.lor 0x04 RC_MODULE_HANDLE) RC_SEVERITY_FATAL
  | RC_COND_DESTROY => Z.lor (Z.lor 0x05 RC_MODULE_HANDLE) RC_SEVERITY_FATAL
  | RC_LOCK_INIT => Z.lor (Z.lor 0x06 RC_MODULE_HANDLE) RC_SEVERITY_FATAL
  | RC_LOCK_DESTROY => Z.lor (Z.lor 0x07 RC_MODULE_HANDLE) RC_SEVERITY_FATAL
  | RC_DOMAIN_RESOLUTION => Z.lor (Z.lor 0x01 RC_MODULE_NETWORK) RC_SEVERITY_FATAL
  | RC_EVENT_LOOP => Z.lor (Z.lor 0x02 RC_MODULE_NETWORK) RC_SEVERITY_FATAL
  | RC_TCP_SERVER_INIT => Z.lor (Z.lor 0x03 RC_MODULE_NETWORK) RC_SEVERITY_FATAL
  | RC_INVALID_PACKET => Z.lor (Z.lor 0x04 RC_MODULE_NETWORK) RC_SEVERITY_FATAL
  | RC_INVALID_PACKET_TYPE => Z.lor (Z.lor 0x05 RC_MODULE_NETWORK) RC_SEVERITY_FATAL
  | RC_FAILED_HANDSHAKE => Z.lor (Z.lor 0x06 RC_MODULE_NETWORK) RC_SEVERITY_FATAL
  | RC_WRITE_TCP_FAILED => Z.lor (Z.lor 0x07 RC_MODULE_NETWORK) RC_SEVERITY_FATAL
  | RC_ASYNC_INIT_FAILED => Z.lor (Z.lor 0x08 RC_MODULE_NETWORK) RC_SEVERITY_FATAL
  | RC_ASYNC_CALL_FAILED => Z.lor (Z.lor 0x09 RC_MODULE_NETWORK) RC_SEVERITY_FATAL
  end.

Definition all_codes : list retcode_t :=
  [RC_OK;
   RC_ERROR;
   RC_NULL_PARAM;
   RC_INVALID_PARAM;
   RC_OOM;
   RC_STILL_RUNNING;
   RC_STORAGE_FAILED_OPEN_DB;
   RC_STORAGE_FAILED_INSERT_DB;
   RC_STORAGE_NO_PATH_FOR_DB_SPECIFIED;
   RC_STORAGE_FAILED_NOT_IMPLEMENTED;
   RC_STORAGE_FAILED_BINDING;
   RC_STORAGE_FAILED_PREPARED_STATEMENT;
   RC_STORAGE_FAILED_FINALIZE;
   RC_STORAGE_FAILED_STEP;
   RC_STORAGE_FAILED_BEGIN;
   RC_STORAGE_FAILED_END;
   RC_STORAGE_FAILED_ROLLBACK;
   RC_STORAGE_FAILED_CONFIG;
   RC_STORAGE_FAILED_INIT;
   RC_STORAGE_FAILED_SHUTDOWN;
   RC_STORAGE_FAILED_EXECUTE;
   RC_STORAGE_FAILED_STORE_RESULT;
   RC_STORAGE_FAILED_GET_RESULT;
   RC_STORAGE_FAILED_SET_ATTR;
   RC_STORAGE_FAILED_INIT_STATEMENT;
   RC_STORAGE_FAILED_CLOSE_STATEMENT;
   RC_NEIGHBOR_FAILED_URI_PARSING;
   RC_NEIGHBOR_INVALID_PROTOCOL;
   RC_NEIGHBOR_INVALID_HOST;
   RC_NEIGHBOR_FAILED_SEND;
   RC_NEIGHBOR_FAILED_ENDPOINT_INIT;
   RC_NEIGHBOR_FAILED_ENDPOINT_DESTROY;
   RC_NEIGHBOR_ALREADY_PAIRED;
   RC_NEIGHBOR_NOT_PAIRED;
   RC_CCLIENT_JSON_CREATE;
   RC_CCLIENT_JSON_PARSE;
   RC_CCLIENT_HTTP;
   RC_CCLIENT_HTTP_REQ;
   RC_CCLIENT_RES_ERROR;
   RC_CCLIENT_JSON_KEY;
   RC_CCLIENT_FLEX_TRITS;
   RC_CCLIENT_NULL_PTR;
   RC_CCLIENT_UNIMPLEMENTED;
   RC_CCLIENT_INVALID_SECURITY;
   RC_CCLIENT_TX_DESERIALIZE_FAILED;
   RC_CCLIENT_INSUFFICIENT_BALANCE;
   RC_CCLIENT_POW_FAILED;
   RC_CCLIENT_INVALID_TRANSFER;
   RC_CCLIENT_INVALID_TAIL_HASH;
   RC_CCLIENT_INVALID_BUNDLE;
   RC_CCLIENT_CHECK_BALANCE;
   RC_CCLIENT_NOT_PROMOTABLE;
   RC_CCLIENT_NO_LOCAL_POW;
   RC_CONSENSUS_NOT_IMPLEMENTED;
   RC_CW_FAILED_IN_DFS_FROM_DB;
   RC_CW_FAILED_IN_LIGHT_DFS;
   RC_EXIT_PROBABILITIES_INVALID_ENTRYPOINT;
   RC_EXIT_PROBABILITIES_MISSING_RATING;
   RC_EXIT_PROBABILITIES_NOT_IMPLEMENTED;
   RC_SNAPSHOT_FILE_NOT_FOUND;
   RC_SNAPSHOT_INVALID_FILE;
   RC_SNAPSHOT_INVALID_SUPPLY;
   RC_SNAPSHOT_INCONSISTENT_SNAPSHOT;
   RC_SNAPSHOT_INCONSISTENT_PATCH;
   RC_SNAPSHOT_BALANCE_NOT_FOUND;
   RC_SNAPSHOT_INVALID_SIGNATURE;
   RC_SNAPSHOT_FAILED_JSON_PARSING;
   RC_SNAPSHOT_SERVICE_NOT_ENOUGH_DEPTH;
   RC_SNAPSHOT_SERVICE_MILESTONE_NOT_LOADED;
   RC_SNAPSHOT_SERVICE_MILESTONE_NOT_SOLID;
   RC_SNAPSHOT_SERVICE_MILESTONE_TOO_OLD;
   RC_SNAPSHOT_METADATA_FAILED_DESERIALIZING;
   RC_SNAPSHOT_METADATA_FAILED_SERIALIZING;
   RC_SNAPSHOT_STATE_DELTA_FAILED_DESERIALIZING;
   RC_SNAPSHOT_MISSING_MILESTONE_TRANSACTION;
   RC_LEDGER_VALIDATOR_INVALID_TRANSACTION;
   RC_LEDGER_VALIDATOR_COULD_NOT_LOAD_MILESTONE;
   RC_LEDGER_VALIDATOR_INCONSISTENT_DELTA;
   RC_LEDGER_VALIDATOR_TRANSACTION_NOT_SOLID;
   RC_TIP_SELECTOR_TIPS_NOT_CONSISTENT;
   RC_TIP_SELECTOR_REFERENCE_TOO_OLD;
   RC_TANGLE_TAIL_NOT_FOUND;
   RC_TANGLE_NOT_A_TAIL;
   RC_UTILS_FAILED_REMOVE_FILE;
   RC_UTILS_FAILED_TO_COPY_FILE;
   RC_UTILS_FAILED_TO_OPEN_FILE;
   RC_UTILS_INVALID_SIG_FILE;
   RC_UTILS_INVALID_LOGGER_VERSION;
   RC_UTILS_FAILED_WRITE_FILE;
   RC_UTILS_FAILED_READ_FILE;
   RC_UTILS_FAILED_OPEN_SRC_FILE;
   RC_UTILS_FAILED_OPEN_CREATE_DST_FILE;
   RC_UTILS_FAILED_CLOSE_FILE;
   RC_UTILS_FILE_DOES_NOT_EXITS;
   RC_UTILS_SOCKET_TLS_RNG;
   RC_UTILS_SOCKET_TLS_CA;
   RC_UTILS_SOCKET_TLS_CLIENT_PEM;
   RC_UTILS_SOCKET_TLS_CLIENT_PK;
   RC_UTILS_SOCKET_TLS_CONF;
   RC_UTILS_SOCKET_TLS_AUTHMODE;
   RC_UTILS_SOCKET_CLIENT_AUTH;
   RC_UTILS_SOCKET_TLS_HANDSHAKE;
   RC_UTILS_SOCKET_CONNECT;
   RC_UTILS_SOCKET_RECV;
   RC_UTILS_SOCKET_SEND;
   RC_UTILS_BUNDLE_MINER_BAD_PARAM;
   RC_PROCESSOR_INVALID_TRANSACTION;
   RC_PROCESSOR_INVALID_REQUEST;
   RC_CONF_INVALID_ARGUMENT;
   RC_CONF_MISSING_ARGUMENT;
   RC_CONF_UNKNOWN_OPTION;
   RC_CONF_PARSER_ERROR;
   RC_API_MAX_GET_TRYTES;
   RC_API_FIND_TRANSACTIONS_NO_INPUT;
   RC_API_MAX_FIND_TRANSACTIONS;
   RC_API_INVALID_DEPTH_INPUT;
   RC_API_UNSYNCED_NODE;
   RC_API_TAIL_MISSING;
   RC_API_NOT_TAIL;
   RC_API_GET_BALANCES_INVALID_THRESHOLD;
   RC_API_GET_BALANCES_UNKNOWN_TIP;
   RC_API_GET_BALANCES_INCONSISTENT_TIP;
   RC_NODE_SET_PACKET_TRANSACTION_FAILED;
   RC_NODE_SET_PACKET_REQUEST_FAILED;
   RC_MAM_BUFFER_TOO_SMALL;
   RC_MAM_INVALID_ARGUMENT;
   RC_MAM_INVALID_VALUE;
   RC_MAM_NEGATIVE_VALUE;
   RC_MAM_INTERNAL_ERROR;
   RC_MAM_NOT_IMPLEMENTED;
   RC_MAM_PB3_EOF;
   RC_MAM_PB3_BAD_ONEOF;
   RC_MAM_PB3_BAD_OPTIONAL;
   RC_MAM_PB3_BAD_REPEATED;
   RC_MAM_PB3_BAD_MAC;
   RC_MAM_PB3_BAD_SIG;
   RC_MAM_PB3_BAD_EKEY;
   RC_MAM_TRITS_SIZE_T_NOT_SUPPORTED;
   RC_MAM_CHANNEL_NOT_FOUND;
   RC_MAM_ENDPOINT_NOT_FOUND;
   RC_MAM_VERSION_NOT_SUPPORTED;
   RC_MAM_CHANNEL_NOT_TRUSTED;
   RC_MAM_ENDPOINT_NOT_TRUSTED;
   RC_MAM_KEYLOAD_IRRELEVANT;
   RC_MAM_KEYLOAD_OVERLOADED;
   RC_MAM_BUNDLE_NOT_EMPTY;
   RC_MAM_BUNDLE_DOES_NOT_CONTAIN_HEADER;
   RC_MAM_RECV_CTX_NOT_FOUND;
   RC_MAM_SEND_CTX_NOT_FOUND;
   RC_MAM_MESSAGE_NOT_FOUND;
   RC_MAM_BAD_PACKET_ORD;
   RC_MAM_MSS_EXHAUSTED;
   RC_MAM_NTRU_POLY_FAILED;
   RC_MAM_API_FAILED_CREATE_ENDPOINT;
   RC_MAM_API_FAILED_CREATE_CHANNEL;
   RC_MAM_MSS_NOT_FOUND;
   RC_HELPERS_POW_INVALID_TX;
   RC_CRYPTO_UNSUPPORTED_SPONGE_TYPE;
   RC_COMMON_BUNDLE_SIGN;
   RC_THREAD_CREATE;
   RC_THREAD_JOIN;
   RC_COND_INIT;
   RC_COND_SIGNAL;
   RC_COND_DESTROY;
   RC_LOCK_INIT;
   RC_LOCK_DESTROY;
   RC_DOMAIN_RESOLUTION;
   RC_EVENT_LOOP;
   RC_TCP_SERVER_INIT;
   RC_INVALID_PACKET;
   RC_INVALID_PACKET_TYPE;
   RC_FAILED_HANDSHAKE;
   RC_WRITE_TCP_FAILED;
   RC_ASYNC_INIT_FAILED;
   RC_ASYNC_CALL_FAILED].

(** The code with a given value. *)
Definition rc_of_value (v : Z) : option retcode_t := find (fun c => rc_value c =? v) all_codes.

Lemma rc_of_value_of c : rc_of_value (rc_value c) = Some c.
Proof. destruct c; vm_compute; reflexivity. Qed.

Lemma rc_value_inj c1 c2 : rc_value c1 = rc_value c2 -> c1 = c2.
Proof. intros E. apply (f_equal rc_of_value) in E. rewrite !rc_of_value_of in E. congruence. Qed.

#[global] Instance retcode_t_eq_dec : EqDecision retcode_t.
Proof.
  intros c1 c2. destruct (decide (rc_value c1 = rc_value c2)) as [E|E].
  - left. by apply rc_value_inj.
  - right. intros ->. by apply E.
Defined.

Lemma all_codes_complete c : In c all_codes.
Proof. pose proof (rc_of_value_of c) as H. by apply find_some in H as [H _]. Qed.

Definition code_fields_ok (c : retcode_t) : bool :=
  let v := rc_value c in
  (0 <=? v) && (v <? 2 ^ 16) &&
  (v =? Z.lor (Z.lor (RC_GET_ERRORCODE v) (RC_GET_MODULE v)) (RC_GET_SEVERITY v)).

(** Every code fits in sixteen bits, is the disjoint sum of the three fields
    that the accessors extract, and two codes with the same module, severity and
    number are the same code. *)
Theorem retcode_fields c1 c2 :
  code_fields_ok c1 = true /\
  (RC_GET_MODULE (rc_value c1) = RC_GET_MODULE (rc_value c2) ->
   RC_GET_SEVERITY (rc_value c1) = RC_GET_SEVERITY (rc_value c2) ->
   RC_GET_ERRORCODE (rc_value c1) = RC_GET_ERRORCODE (rc_value c2) -> c1 = c2).
Proof.
  assert (forallb code_fields_ok all_codes = true) as Hf by (vm_compute; reflexivity).
  rewrite forallb_forall in Hf.
  pose proof (all_codes_complete c1) as H1. pose proof (all_codes_complete c2) as H2.
  split; [by apply Hf|]. intros Hm Hs He.
  apply rc_value_inj.
  pose proof (Hf _ H1) as F1. pose proof (Hf _ H2) as F2. unfold code_fields_ok in F1, F2.
  apply andb_true_iff in F1 as [_ F1], F2 as [_ F2]. apply Z.eqb_eq in F1, F2.
  by rewrite F1, F2, Hm, Hs, He.
Qed.

Lemma retcode_fields_witness :
  RC_GET_MODULE (rc_value RC_OOM) = RC_MODULE_GENERAL /\ RC_OOM = RC_OOM.
Proof. split; [reflexivity|]. apply (retcode_fields RC_OOM RC_OOM); reflexivity. Defined.
