(* ===== verification/Trits.v ===== *)
(** * Trits and trytes

    Model of [common/trinary/trits.h], [tryte.h], [add.c], [trit_tryte.c] and
    [tryte_ascii.c].  A [trit_t] and a [tryte_t] are C [int8_t]s, represented by
    the integer they hold; arrays are lists.  The conversion tables are copied
    from the source; a read outside of a table, undefined in C, yields 0 here
    (or the empty row), and [tryte_index_bounds] shows that it does not happen
    on well-formed input. *)

From S2P Require Import Prelude.

Definition RADIX : Z := 3.
Definition TRYTE_SPACE_SIZE : Z := 27.
Definition TRYTE_VALUE_MAX : Z := 13.
Definition TRYTE_VALUE_MIN : Z := -13.

(** ASCII codes of ["9ABCDEFGHIJKLMNOPQRSTUVWXYZ"]. *)
Definition TRYTE_ALPHABET : list Z :=
  [57; 65; 66; 67; 68; 69; 70; 71; 72; 73; 74; 75; 76; 77; 78; 79; 80; 81; 82; 83;
   84; 85; 86; 87; 88; 89; 90].

Definition INDEX_OF_TRYTE (tryte : Z) : Z :=
  if tryte =? 57 then 0 else tryte - 65 + 1.

(** Table lookup [t[i]] with an [int] or [size_t] index. *)
Definition lut_at {A} (d : A) (t : list A) (i : Z) : A :=
  if i <? 0 then d else nth (Z.to_nat i) t d.

Definition TRYTES_TRITS_LUT : list (list Z) :=
  [[0; 0; 0];  [1; 0; 0];  [-1; 1; 0];  [0; 1; 0];  [1; 1; 0];  [-1; -1; 1];  [0; -1; 1];  [1; -1; 1];  [-1; 0; 1];
   [0; 0; 1];  [1; 0; 1];  [-1; 1; 1];  [0; 1; 1];  [1; 1; 1];  [-1; -1; -1]; [0; -1; -1]; [1; -1; -1]; [-1; 0; -1];
   [0; 0; -1]; [1; 0; -1]; [-1; 1; -1]; [0; 1; -1]; [1; 1; -1]; [-1; -1; 0];  [0; -1; 0];  [1; -1; 0];  [-1; 0; 0]].

(** ** [trit_tryte.c] *)

Definition num_trytes_for_trits (num_trits : nat) : nat := (num_trits + 3 - 1) / 3.

Definition get_trit_at (trytes : list Z) (length index : nat) : Z :=
  let tindex := (index / 3)%nat in
  if (length <=? tindex)%nat then 0 else
  let tryte := nth tindex trytes 0 in
  let cindex := u64 (INDEX_OF_TRYTE tryte) in
  nth (index mod 3) (lut_at [] TRYTES_TRITS_LUT cindex) 0.

(** Returns the status and the updated array. *)
Definition set_trit_at (trytes : list Z) (length index : nat) (trit : Z) : Z * list Z :=
  let tindex := (index / 3)%nat in
  if (length <=? tindex)%nat then (0, trytes) else
  let tryte := nth tindex trytes 0 in
  let cindex := u64 (INDEX_OF_TRYTE tryte) in
  let trits :=
    if cindex >? 26 then lut_at [] TRYTES_TRITS_LUT 0 else lut_at [] TRYTES_TRITS_LUT cindex in
  let trits := <[(index mod 3)%nat := trit]> trits in
  let tryte := i8 (nth 0 trits 0 + nth 1 trits 0 * 3 + nth 2 trits 0 * 9) in
  let tryte := if tryte <? 0 then i8 (tryte + TRYTE_SPACE_SIZE) else tryte in
  (1, <[tindex := lut_at 0 TRYTE_ALPHABET (u64 tryte)]> trytes).

(** The inner loop of [trits_to_trytes]: from the last trit of a group down to
    the first, [k = k * RADIX + trits[i + l]]. *)
Definition tryte_value (group : list Z) : Z :=
  foldr (fun t k => i32 (i32 (k * RADIX) + t)) 0 group.

Definition tryte_of_trits (group : list Z) : Z :=
  let k := tryte_value group in
  let k := if k <? 0 then k + TRYTE_SPACE_SIZE else k in
  lut_at 0 TRYTE_ALPHABET k.

(** [trits_to_trytes (take length trits)]: one tryte per group of at most three
    trits. *)
Definition trits_to_trytes (trits : list Z) : list Z := map tryte_of_trits (chunks 3 trits).

Definition trytes_to_trits (trytes : list Z) : list Z :=
  concat (map (fun tryte => lut_at [] TRYTES_TRITS_LUT (INDEX_OF_TRYTE tryte)) trytes).

(** ** [tryte_ascii.c] *)

(** [input] is the NUL-terminated C string without its terminator: a list of
    non-zero [char]s.  [%] and [/] are the truncated division of C. *)
Definition ascii_to_trytes (input : list Z) : list Z :=
  concat (map (fun dec =>
    let first := Z.rem dec TRYTE_SPACE_SIZE in
    let second := Z.quot (dec - first) TRYTE_SPACE_SIZE in
    [lut_at 0 TRYTE_ALPHABET first; lut_at 0 TRYTE_ALPHABET second]) input).

Definition trytes_to_ascii (input : list Z) : list Z :=
  map (fun pair =>
    i8 (INDEX_OF_TRYTE (nth 0 pair 0) + INDEX_OF_TRYTE (nth 1 pair 0) * TRYTE_SPACE_SIZE))
    (chunks 2 input).

(** ** [add.c] *)

Record ha_o := { ha_s : Z; ha_c : Z }.

Definition trit_cons (a b : Z) : Z := if a =? b then a else 0.

Definition trit_sum (a b : Z) : Z :=
  let s := i8 (a + b) in
  if s =? 2 then -1 else if s =? -2 then 1 else s.

Definition trit_full_add (a b c : Z) : ha_o :=
  let s_ab := trit_sum a b in
  let x := i8 (trit_cons a b + trit_cons s_ab c) in
  {| ha_s := trit_sum s_ab c; ha_c := Z.b2z (x >? 0) - Z.b2z (x <? 0) |}.

(** [t] is the [s] trits that remain; the recursion of the source is on them. *)
Fixpoint add_internal (t : list Z) (negative : bool) (v : Z) (r : ha_o) : Z * list Z :=
  if (v =? 0) && (ha_c r =? 0) then (0, t) else
  match t with
  | [] => (1, [])
  | t0 :: t =>
      let trit := i8 (Z.rem (i64 (v + 1)) 3 - 1) in
      let trit := if negative then i8 (- trit) else trit in
      let r := trit_full_add t0 trit (ha_c r) in
      let '(ret, t) := add_internal t negative (Z.quot (i64 (v + 1)) 3) r in
      (ret, ha_s r :: t)
  end.

Definition add_assign (t : list Z) (v : Z) : Z * list Z :=
  add_internal t (v <? 0) v {| ha_s := 0; ha_c := 0 |}.

Fixpoint add_trits_loop (lh rh : list Z) (r : ha_o) : list Z :=
  match lh, rh with
  | l :: lh, h :: rh =>
      let r := trit_full_add l h (ha_c r) in ha_s r :: add_trits_loop lh rh r
  | _, _ => rh
  end.

(** [rh] receives the sum; the carry out of the last trit is dropped. *)
Definition add_trits (lh rh : list Z) : list Z := add_trits_loop lh rh {| ha_s := 0; ha_c := 0 |}.

(** * Well-formed trytes and the tables *)

Definition is_tryte (y : Z) : Prop := y = 57 \/ 65 <= y <= 90.

#[global] Instance is_tryte_dec y : Decision (is_tryte y).
Proof. unfold is_tryte. apply _. Defined.

Abbreviation trytes_ok := (Forall is_tryte).

(** A property of trytes that holds of the 27 letters holds of all of them. *)
Lemma is_tryte_ind (P : Z -> Prop) :
  Forall P TRYTE_ALPHABET -> forall y, is_tryte y -> P y.
Proof.
  intros HP y Hy. rewrite Forall_forall in HP. apply HP.
  unfold is_tryte, TRYTE_ALPHABET in *. simpl. lia.
Qed.

Lemma lut_row_ok y : is_tryte y ->
  exists a b c, lut_at [] TRYTES_TRITS_LUT (INDEX_OF_TRYTE y) = [a; b; c] /\
    is_trit a /\ is_trit b /\ is_trit c /\ tryte_of_trits [a; b; c] = y.
Proof.
  intros Hy. revert y Hy. apply is_tryte_ind.
  repeat (apply Forall_cons; [eexists _, _, _; split; [reflexivity|];
    repeat split; by vm_compute|]). apply Forall_nil.
Qed.

Lemma tryte_of_trits_row a b c : is_trit a -> is_trit b -> is_trit c ->
  lut_at [] TRYTES_TRITS_LUT (INDEX_OF_TRYTE (tryte_of_trits [a; b; c])) = [a; b; c].
Proof. intros. trit_cases; reflexivity. Qed.

Lemma tryte_of_trits_ok a b c : is_trit a -> is_trit b -> is_trit c ->
  is_tryte (tryte_of_trits [a; b; c]).
Proof. intros. trit_cases; vm_compute; (by left) || (right; split; discriminate). Qed.

(** Missing trits of the last group count as zeros. *)
Lemma tryte_of_trits_pad1 a : tryte_of_trits [a] = tryte_of_trits [a; 0; 0].
Proof. reflexivity. Qed.
Lemma tryte_of_trits_pad2 a b : tryte_of_trits [a; b] = tryte_of_trits [a; b; 0].
Proof. reflexivity. Qed.

#[export] Hint Resolve lut_row_ok tryte_of_trits_ok : iota.

(** ** Groups of three trits *)

Definition pad3 (ts : list Z) : list Z := ts ++ replicate ((3 - length ts mod 3) mod 3) 0.

(** Induction on trits by groups of three, the last group possibly shorter. *)
Lemma trits3_ind (P : list Z -> Prop) :
  P [] -> (forall a, P [a]) -> (forall a b, P [a; b]) ->
  (forall a b c ts, P ts -> P (a :: b :: c :: ts)) -> forall ts, P ts.
Proof.
  intros H0 H1 H2 H3. apply (chunk_ind 3); [lia|done|].
  intros [|a [|b [|c ts]]] Hne IH; try done. by apply H3.
Qed.

Lemma trits_to_trytes_3 a b c ts :
  trits_to_trytes (a :: b :: c :: ts) = tryte_of_trits [a; b; c] :: trits_to_trytes ts.
Proof. unfold trits_to_trytes. by rewrite chunks_unfold by (done || lia). Qed.

Lemma pad3_3 a b c ts : pad3 (a :: b :: c :: ts) = a :: b :: c :: pad3 ts.
Proof.
  unfold pad3. replace (length (a :: b :: c :: ts)) with (length ts + 1 * 3)%nat by (simpl; lia).
  by rewrite Nat.Div0.mod_add.
Qed.

Lemma pad3_exact ts : (length ts mod 3 = 0)%nat -> pad3 ts = ts.
Proof. intros E. unfold pad3. rewrite E. apply app_nil_r. Qed.

Lemma trytes_to_trits_cons y ys :
  trytes_to_trits (y :: ys) = lut_at [] TRYTES_TRITS_LUT (INDEX_OF_TRYTE y) ++ trytes_to_trits ys.
Proof. done. Qed.

Lemma length_trytes_to_trits ys : trytes_ok ys -> length (trytes_to_trits ys) = (3 * length ys)%nat.
Proof.
  induction 1 as [|y ys Hy _ IH]; [done|].
  rewrite trytes_to_trits_cons, length_app, IH.
  destruct (lut_row_ok y Hy) as (a & b & c & -> & _). simpl. lia.
Qed.

Lemma trytes_to_trits_ok ys : trytes_ok ys -> trits_ok (trytes_to_trits ys).
Proof.
  induction 1 as [|y ys Hy _ IH]; [constructor|].
  rewrite trytes_to_trits_cons. destruct (lut_row_ok y Hy) as (a & b & c & -> & ? & ? & ? & _).
  solve_forall.
Qed.

Lemma trits_to_trytes_ok ts : trits_ok ts -> trytes_ok (trits_to_trytes ts).
Proof.
  revert ts. apply (trits3_ind (fun ts => trits_ok ts -> trytes_ok (trits_to_trytes ts))).
  - constructor.
  - intros a H. inv_trits. apply Forall_singleton. apply (tryte_of_trits_ok a 0 0); done.
  - intros a b H. inv_trits. apply Forall_singleton. apply (tryte_of_trits_ok a b 0); done.
  - intros a b c ts IH H. inv_trits. rewrite trits_to_trytes_3. constructor; eauto with iota.
Qed.

Lemma trytes_of_trits_padded ts : trits_ok ts ->
  trytes_to_trits (trits_to_trytes ts) = pad3 ts.
Proof.
  revert ts. apply (trits3_ind (fun ts => trits_ok ts -> trytes_to_trits (trits_to_trytes ts) = pad3 ts)).
  - done.
  - intros a H. inv_trits. trit_cases; reflexivity.
  - intros a b H. inv_trits. trit_cases; reflexivity.
  - intros a b c ts IH H. inv_trits.
    rewrite trits_to_trytes_3, pad3_3, trytes_to_trits_cons, tryte_of_trits_row by done.
    by rewrite IH.
Qed.

Lemma trits_of_trytes_id ys : trytes_ok ys -> trits_to_trytes (trytes_to_trits ys) = ys.
Proof.
  induction 1 as [|y ys Hy _ IH]; [done|].
  rewrite trytes_to_trits_cons. destruct (lut_row_ok y Hy) as (a & b & c & -> & ? & ? & ? & E).
  cbn [app]. by rewrite trits_to_trytes_3, E, IH.
Qed.

(** ** Array access through trytes

    [get_trit_at] and [set_trit_at] implement reads and writes of an array of
    trits that is stored three to a tryte; [trytes_to_trits] is the abstraction
    function of that representation. *)
Lemma tryte_index_bounds y : is_tryte y ->
  u64 (INDEX_OF_TRYTE y) = INDEX_OF_TRYTE y /\ 0 <= INDEX_OF_TRYTE y <= 26.
Proof.
  intros Hy. assert (0 <= INDEX_OF_TRYTE y <= 26).
  { unfold is_tryte, INDEX_OF_TRYTE in *. destruct (Z.eqb_spec y 57); lia. }
  split; [|done]. apply uwrap_small. lia.
Qed.

Lemma divmod3_lt i n : (i < 3 * n)%nat -> (i / 3 < n)%nat /\ (i mod 3 < 3)%nat.
Proof. intros. split; [apply Nat.Div0.div_lt_upper_bound; lia | apply Nat.mod_upper_bound; lia]. Qed.

Lemma lookup_trytes_to_trits ys i : trytes_ok ys ->
  trytes_to_trits ys !! i =
    (y ← ys !! (i / 3)%nat; lut_at [] TRYTES_TRITS_LUT (INDEX_OF_TRYTE y) !! (i mod 3)%nat).
Proof.
  intros H. revert i. induction H as [|y ys Hy _ IH]; intros i.
  - by rewrite !lookup_nil.
  - rewrite trytes_to_trits_cons. destruct (lut_row_ok y Hy) as (a & b & c & E & _).
    rewrite E. destruct (decide (i < 3)%nat) as [Hi|Hi].
    + rewrite Nat.div_small, Nat.mod_small by done. cbn. rewrite E. by destruct i as [|[|[|]]]; try lia.
    + rewrite lookup_app_r by (simpl; lia). rewrite IH. cbn [length].
      assert (exists k, i = k + 1 * 3)%nat as [k ->] by (exists (i - 3)%nat; lia).
      rewrite Nat.div_add, Nat.Div0.mod_add, Nat.add_sub by lia.
      by rewrite (Nat.add_comm (k / 3) 1).
Qed.

Lemma get_trit_at_spec ys i : trytes_ok ys -> (i < 3 * length ys)%nat ->
  trytes_to_trits ys !! i = Some (get_trit_at ys (length ys) i).
Proof.
  intros H Hi. destruct (divmod3_lt i _ Hi) as [Hd Hm].
  rewrite lookup_trytes_to_trits by done.
  destruct (lookup_lt_is_Some_2 ys _ Hd) as [y Hy]. rewrite Hy. cbn.
  assert (is_tryte y) as Hyt by (eapply Forall_lookup_1; eauto).
  destruct (tryte_index_bounds y Hyt) as [Hu _].
  unfold get_trit_at. rewrite (proj2 (Nat.leb_gt _ _)) by done.
  rewrite (nth_lookup_Some _ _ _ _ Hy), Hu.
  destruct (lut_row_ok y Hyt) as (a & b & c & -> & _).
  by destruct (i mod 3)%nat as [|[|[|]]]; try lia.
Qed.

Lemma set_trit_at_tryte y k t : is_tryte y -> is_trit t -> (k < 3)%nat ->
  let trits := <[k := t]> (lut_at [] TRYTES_TRITS_LUT (INDEX_OF_TRYTE y)) in
  let v := i8 (nth 0 trits 0 + nth 1 trits 0 * 3 + nth 2 trits 0 * 9) in
  let v := if v <? 0 then i8 (v + TRYTE_SPACE_SIZE) else v in
  lut_at 0 TRYTE_ALPHABET (u64 v) = tryte_of_trits trits.
Proof.
  intros Hy Ht Hk. destruct (lut_row_ok y Hy) as (a & b & c & -> & ? & ? & ? & _).
  destruct k as [|[|[|]]]; [| | |lia]; cbn [insert list_insert nth]; trit_cases; reflexivity.
Qed.

Lemma row_insert_ok y k t : is_tryte y -> is_trit t -> (k < 3)%nat ->
  let trits := <[k := t]> (lut_at [] TRYTES_TRITS_LUT (INDEX_OF_TRYTE y)) in
  is_tryte (tryte_of_trits trits) /\
  lut_at [] TRYTES_TRITS_LUT (INDEX_OF_TRYTE (tryte_of_trits trits)) = trits.
Proof.
  intros Hy Ht Hk. destruct (lut_row_ok y Hy) as (a & b & c & -> & ? & ? & ? & _).
  destruct k as [|[|[|]]]; [| | |lia]; cbn [insert list_insert]; split;
    auto using tryte_of_trits_row with iota.
Qed.

Lemma set_trit_at_unfold ys i t y : trytes_ok ys -> is_trit t -> (i < 3 * length ys)%nat ->
  ys !! (i / 3)%nat = Some y ->
  set_trit_at ys (length ys) i t =
    (1, <[(i / 3)%nat := tryte_of_trits (<[(i mod 3)%nat := t]>
                           (lut_at [] TRYTES_TRITS_LUT (INDEX_OF_TRYTE y)))]> ys).
Proof.
  intros H Ht Hi Hy. destruct (divmod3_lt i _ Hi) as [Hd Hm].
  assert (is_tryte y) as Hyt by (eapply Forall_lookup_1; eauto).
  destruct (tryte_index_bounds y Hyt) as [Hu Hb].
  unfold set_trit_at. rewrite (proj2 (Nat.leb_gt _ _)) by done.
  rewrite (nth_lookup_Some _ _ _ _ Hy), Hu.
  replace (INDEX_OF_TRYTE y >? 26) with false by lia.
  cbv zeta. by rewrite set_trit_at_tryte.
Qed.

(** ** ASCII *)

Lemma ascii_digits d : 1 <= d <= 127 ->
  let first := Z.rem d TRYTE_SPACE_SIZE in
  let second := Z.quot (d - first) TRYTE_SPACE_SIZE in
  0 <= first <= 26 /\ 0 <= second <= 4 /\ d = first + second * TRYTE_SPACE_SIZE.
Proof.
  intros Hd. cbv zeta. unfold TRYTE_SPACE_SIZE.
  rewrite Z.rem_mod_nonneg by lia.
  pose proof (Z.mod_pos_bound d 27). pose proof (Z.mod_le d 27).
  rewrite Z.quot_div_nonneg by lia. Z.to_euclidean_division_equations. lia.
Qed.

Lemma index_of_alphabet k : 0 <= k <= 26 -> INDEX_OF_TRYTE (lut_at 0 TRYTE_ALPHABET k) = k.
Proof.
  intros Hk. assert (Forall (fun k => INDEX_OF_TRYTE (lut_at 0 TRYTE_ALPHABET k) = k)
    (map Z.of_nat (seq 0 27))) as H by (vm_compute; repeat constructor).
  rewrite Forall_forall in H. apply H. apply in_map_iff.
  exists (Z.to_nat k). split; [lia|]. apply in_seq. lia.
Qed.

(** ** Ripple addition *)

Lemma trit_full_add_spec a b c0 : is_trit a -> is_trit b -> is_trit c0 ->
  let r := trit_full_add a b c0 in
  is_trit (ha_s r) /\ is_trit (ha_c r) /\ a + b + c0 = ha_s r + 3 * ha_c r.
Proof. intros. trit_cases; vm_compute; repeat split; discriminate. Qed.

(** The digit that [add_internal] takes from a non-negative [v] and the value it
    goes on with. *)
Lemma add_digit v : 0 <= v < INT64_MAX ->
  let d := i8 (Z.rem (i64 (v + 1)) 3 - 1) in
  let q := Z.quot (i64 (v + 1)) 3 in
  is_trit d /\ v = d + 3 * q /\ 0 <= q < INT64_MAX.
Proof.
  intros Hv. unfold INT64_MAX in *. cbv zeta. rewrite (swrap_small 64) by lia.
  rewrite Z.rem_mod_nonneg, Z.quot_div_nonneg by lia.
  pose proof (Z.mod_pos_bound (v + 1) 3). unfold is_trit.
  rewrite swrap_small by lia. Z.to_euclidean_division_equations. lia.
Qed.

(** The subtrahend of the congruence below is a multiple of [3^n]. *)
Lemma add_internal_spec t : forall v r, trits_ok t -> 0 <= v < INT64_MAX -> is_trit (ha_c r) ->
  let '(ret, t') := add_internal t false v r in
  trits_ok t' /\ length t' = length t /\ (ret = 0 \/ ret = 1) /\
  exists k, bal t + v + ha_c r = bal t' + 3 ^ Z.of_nat (length t) * k /\ (ret = 0 -> k = 0).
Proof.
  induction t as [|t0 t IH]; intros v r Ht Hv Hr; cbn [add_internal].
  - destruct ((v =? 0) && (ha_c r =? 0)) eqn:E.
    + split_and!; auto. exists 0. cbn. split; [lia|done].
    + split_and!; auto. exists (v + ha_c r). cbn. split; lia.
  - destruct ((v =? 0) && (ha_c r =? 0)) eqn:E.
    + split_and!; auto. exists 0. split; [lia|done].
    + inv_trits. destruct (add_digit v Hv) as (Hd & Hvd & Hq).
      set (d := i8 _) in *. set (q := Z.quot _ _) in *.
      destruct (trit_full_add_spec t0 d (ha_c r)) as (Hs & Hc & Hsum); [done..|].
      set (r' := trit_full_add t0 d (ha_c r)) in *.
      specialize (IH q r' ltac:(done) Hq Hc).
      destruct (add_internal t false q r') as [ret t'].
      destruct IH as (Ht' & Hl & Hret & k & Hk & Hk0).
      split_and!; [by constructor|simpl; lia|done|].
      exists k. cbn [bal length]. rewrite pow3_S. split; [lia|done].
Qed.

(** Once the value to add is used up the sign flag plays no role. *)
Lemma add_internal_sign t r : is_trit (ha_c r) -> trits_ok t ->
  add_internal t true 0 r = add_internal t false 0 r.
Proof.
  revert r. induction t as [|t0 t IH]; intros r Hr Ht; [done|].
  cbn [add_internal]. destruct (ha_c r =? 0) eqn:E; [done|].
  change (Z.quot (i64 (0 + 1)) 3) with 0.
  change (i8 (- i8 (Z.rem (i64 (0 + 1)) 3 - 1))) with (i8 (Z.rem (i64 (0 + 1)) 3 - 1)).
  inv_trits. rewrite IH; [done| |done].
  by apply (trit_full_add_spec t0 (i8 (Z.rem (i64 (0 + 1)) 3 - 1)) (ha_c r)).
Qed.

Lemma add_trits_loop_spec lh : forall rh r, trits_ok lh -> trits_ok rh -> length lh = length rh ->
  is_trit (ha_c r) ->
  let rh' := add_trits_loop lh rh r in
  trits_ok rh' /\ length rh' = length rh /\
  exists k, is_trit k /\
    bal lh + bal rh + ha_c r = bal rh' + 3 ^ Z.of_nat (length rh) * k.
Proof.
  induction lh as [|l lh IH]; intros [|h rh] r Hl Hh Hlen Hr; simpl in Hlen; try lia; cbv zeta.
  - cbn [add_trits_loop bal length]. split_and!; [constructor|done|]. exists (ha_c r). split; [done|lia].
  - cbn [add_trits_loop]. inv_trits.
    destruct (trit_full_add_spec l h (ha_c r)) as (Hs & Hc & Hsum); [done..|].
    set (r' := trit_full_add l h (ha_c r)) in *.
    destruct (IH rh r') as (Hok & Hlen' & k & Hk & E); [done|done|lia|done|].
    split_and!; [by constructor|simpl; lia|]. exists k. split; [done|].
    cbn [bal length]. rewrite pow3_S. lia.
Qed.

(** * Properties *)

(** Trit/tryte conversion round-trips in both directions: encoding [ts] and
    decoding gives [ts] padded with zeros to whole trytes, and every sequence of
    letters of the tryte alphabet is the encoding of the trits it decodes to. *)
Theorem trits_trytes_roundtrip ts ys : trits_ok ts -> trytes_ok ys ->
  trytes_ok (trits_to_trytes ts) /\ trytes_to_trits (trits_to_trytes ts) = pad3 ts /\
  trits_ok (trytes_to_trits ys) /\ trits_to_trytes (trytes_to_trits ys) = ys.
Proof.
  intros. split_and!; auto using trits_to_trytes_ok, trytes_of_trits_padded,
    trytes_to_trits_ok, trits_of_trytes_id.
Qed.

Lemma trits_trytes_roundtrip_witness :
  trytes_ok (trits_to_trytes [1; 0; -1; 1]) /\
  trytes_to_trits (trits_to_trytes [1; 0; -1; 1]) = pad3 [1; 0; -1; 1] /\
  trits_ok (trytes_to_trits [57; 77; 90]) /\
  trits_to_trytes (trytes_to_trits [57; 77; 90]) = [57; 77; 90].
Proof. apply (trits_trytes_roundtrip [1; 0; -1; 1] [57; 77; 90]); closed_decide. Defined.

(** In-place access to the packed array refines access to the array of trits
    that it stands for: [set_trit_at] within bounds succeeds, keeps the array
    well formed and updates exactly the addressed trit, and [get_trit_at] reads
    the addressed trit; out of bounds both leave the array alone and give 0. *)
Theorem packed_trits_refine_array ys i t : trytes_ok ys -> is_trit t ->
  let '(status, ys') := set_trit_at ys (length ys) i t in
  (if decide (i < 3 * length ys)%nat then
     status = 1 /\ trytes_ok ys' /\ trytes_to_trits ys' = <[i := t]> (trytes_to_trits ys) /\
     trytes_to_trits ys !! i = Some (get_trit_at ys (length ys) i)
   else status = 0 /\ ys' = ys /\ get_trit_at ys (length ys) i = 0).
Proof.
  intros H Ht. case_decide as Hi.
  - destruct (divmod3_lt i _ Hi) as [Hd Hm].
    destruct (lookup_lt_is_Some_2 ys _ Hd) as [y Hy].
    assert (is_tryte y) as Hyt by (eapply Forall_lookup_1; eauto).
    rewrite (set_trit_at_unfold _ _ _ y) by done.
    destruct (row_insert_ok y (i mod 3) t Hyt Ht Hm) as [Hok Hrow].
    set (y' := tryte_of_trits _) in *.
    assert (trytes_ok (<[(i / 3)%nat := y']> ys)) as Hok'.
    { apply Forall_insert; done. }
    split_and!; [done|done| |by apply get_trit_at_spec].
    apply list_eq; intros j. rewrite lookup_trytes_to_trits by done.
    destruct (decide (j = i)) as [->|Hne].
    + rewrite (list_lookup_insert_eq (trytes_to_trits ys)) by (rewrite length_trytes_to_trits; done).
      rewrite list_lookup_insert_eq by done. cbn. rewrite Hrow.
      destruct (lut_row_ok y Hyt) as (a & b & c & -> & _).
      by rewrite list_lookup_insert_eq by done.
    + rewrite (list_lookup_insert_ne (trytes_to_trits ys)) by done.
      rewrite (lookup_trytes_to_trits ys) by done.
      destruct (decide (j / 3 = i / 3)%nat) as [E|E].
      * rewrite E, list_lookup_insert_eq, Hy by done. cbn. rewrite Hrow.
        apply list_lookup_insert_ne. intros E'.
        apply Hne. rewrite (Nat.div_mod_eq j 3), (Nat.div_mod_eq i 3), E, E'. done.
      * by rewrite list_lookup_insert_ne by done.
  - assert (length ys <= i / 3)%nat as Hge.
    { apply Nat.div_le_lower_bound; lia. }
    unfold set_trit_at, get_trit_at. rewrite (proj2 (Nat.leb_le _ _)) by done. done.
Qed.

Lemma packed_trits_refine_array_witness :
  let '(status, ys') := set_trit_at [57; 77] 2 4 (-1) in
  status = 1 /\ trytes_ok ys' /\ trytes_to_trits ys' = <[4%nat := -1]> (trytes_to_trits [57; 77]) /\
  trytes_to_trits [57; 77] !! 4%nat = Some (get_trit_at [57; 77] 2 4).
Proof. apply (packed_trits_refine_array [57; 77] 4 (-1)); closed_decide. Defined.

(** ASCII text survives the trip through trytes: every string of 7-bit
    characters is recovered from its two-trytes-per-character encoding. *)
Theorem ascii_trytes_roundtrip cs : Forall (fun d => 1 <= d <= 127) cs ->
  trytes_to_ascii (ascii_to_trytes cs) = cs.
Proof.
  induction 1 as [|d cs Hd _ IH]; [done|].
  unfold trytes_to_ascii, ascii_to_trytes in *. cbn [map concat].
  rewrite chunks_app_exact by (done || lia). cbn [map]. rewrite IH. f_equal.
  destruct (ascii_digits d Hd) as (Hf & Hs & E). cbn [nth].
  rewrite !index_of_alphabet by lia. rewrite <- E. apply swrap_small; lia.
Qed.

Lemma ascii_trytes_roundtrip_witness :
  trytes_to_ascii (ascii_to_trytes [73; 79; 84; 65; 126]) = [73; 79; 84; 65; 126].
Proof. apply ascii_trytes_roundtrip. closed_decide. Defined.

(** Adding a non-negative 64-bit number in place is exact: the result is a
    sequence of trits of the same length that denotes the sum whenever
    [add_assign] reports success, and the sum modulo [3^n] in every case. *)
Theorem add_assign_exact t v : trits_ok t -> 0 <= v < INT64_MAX ->
  let '(ret, t') := add_assign t v in
  trits_ok t' /\ length t' = length t /\ (ret = 0 \/ ret = 1) /\
  (ret = 0 -> bal t' = bal t + v) /\
  (3 ^ Z.of_nat (length t) | bal t + v - bal t').
Proof.
  intros Ht Hv. unfold add_assign. replace (v <? 0) with false by lia.
  pose proof (add_internal_spec t v {| ha_s := 0; ha_c := 0 |} Ht Hv ltac:(done)) as H.
  destruct (add_internal t false v _) as [ret t'].
  destruct H as (Hok & Hl & Hret & k & Hk & Hk0). cbn [ha_c] in Hk.
  split_and!; [done|done|done| |exists k; lia].
  intros E. specialize (Hk0 E). subst k. lia.
Qed.

Lemma add_assign_exact_witness :
  let '(ret, t') := add_assign [1; 1; 1; 0] 100 in
  trits_ok t' /\ length t' = 4%nat /\ (ret = 0 \/ ret = 1) /\
  (ret = 0 -> bal t' = bal [1; 1; 1; 0] + 100) /\
  (3 ^ Z.of_nat 4 | bal [1; 1; 1; 0] + 100 - bal t').
Proof. apply (add_assign_exact [1; 1; 1; 0] 100); [closed_decide|done]. Defined.

(** Subtracting one does not subtract: [add_assign] negates the digit of a
    value that is itself still negative, so that adding [-1] has exactly the
    effect of adding [+1], on every number of at least one trit. *)
Theorem add_assign_minus_one_adds_one t : trits_ok t -> t <> [] ->
  add_assign t (-1) = add_assign t 1.
Proof.
  intros Ht Hne. destruct t as [|t0 t]; [done|]. inv_trits.
  unfold add_assign. cbn [add_internal ha_c].
  change (-1 <? 0) with true. change (1 <? 0) with false.
  change ((-1 =? 0) && (0 =? 0)) with false. change ((1 =? 0) && (0 =? 0)) with false. cbv iota.
  change (Z.quot (i64 (-1 + 1)) 3) with 0. change (Z.quot (i64 (1 + 1)) 3) with 0.
  change (i8 (- i8 (Z.rem (i64 (-1 + 1)) 3 - 1))) with 1.
  change (i8 (Z.rem (i64 (1 + 1)) 3 - 1)) with 1.
  rewrite add_internal_sign; [done| |done].
  by apply (trit_full_add_spec t0 1 0).
Qed.

Lemma add_assign_minus_one_adds_one_witness :
  add_assign [0; 0; 0] (-1) = add_assign [0; 0; 0] 1 /\ add_assign [0; 0; 0] (-1) = (0, [1; 0; 0]).
Proof.
  split; [|reflexivity]. apply add_assign_minus_one_adds_one; [closed_decide|done].
Defined.

(** Ripple addition of two numbers of equal width computes their sum modulo
    [3^n], with a dropped carry of at most one trit. *)
Theorem add_trits_sum lh rh : trits_ok lh -> trits_ok rh -> length lh = length rh ->
  trits_ok (add_trits lh rh) /\ length (add_trits lh rh) = length rh /\
  exists k, is_trit k /\
    bal lh + bal rh = bal (add_trits lh rh) + 3 ^ Z.of_nat (length rh) * k.
Proof.
  intros Hl Hr Hlen.
  destruct (add_trits_loop_spec lh rh {| ha_s := 0; ha_c := 0 |}) as (? & ? & k & Hk & E); [done..|].
  split_and!; [done|done|]. exists k. split; [done|]. unfold add_trits. cbn [ha_c] in E. lia.
Qed.

Lemma add_trits_sum_witness :
  trits_ok (add_trits [1; 1] [1; -1]) /\ length (add_trits [1; 1] [1; -1]) = 2%nat /\
  exists k, is_trit k /\
    bal [1; 1] + bal [1; -1] = bal (add_trits [1; 1] [1; -1]) + 3 ^ Z.of_nat 2 * k.
Proof. apply add_trits_sum; [closed_decide..|done]. Defined.
