(* ===== verification/TritLong.v ===== *)
(** * Integers as trits

    Model of [common/trinary/trit_long.c] but for [decode_long], whose table of
    powers is of type [double].  The value of a number is an [int64_t]; output
    buffers are threaded explicitly. *)

From S2P Require Import Prelude Trits.

(** ** [trits_to_long] *)

(** [accum = accum * RADIX + trits[end]] from the last trit down to the first. *)
Definition trits_to_long (trits : list Z) : Z :=
  foldr (fun t accum => i64 (i64 (accum * RADIX) + t)) 0 trits.

(** ** [min_trits] *)

(** [v_abs] as both [min_trits] and [long_to_trits] compute it: the magnitude of
    the value as an unsigned 64-bit integer, with the case of [INT64_MIN]. *)
Definition v_abs_of (value : Z) : Z :=
  if value =? INT64_MIN then u64 (INT64_MAX + 1) else u64 (Z.abs value).

(** [while (v_abs > vp) { vp = vp * RADIX + 1; num++; }] *)
Fixpoint min_trits_loop (fuel : nat) (v_abs vp : Z) (num : nat) : option nat :=
  if v_abs >? vp then
    match fuel with
    | O => None
    | S fuel => min_trits_loop fuel v_abs (u64 (vp * RADIX + 1)) (S num)
    end
  else Some num.

(** Forty iterations are enough for any 64-bit value ([min_trits_total]). *)
Definition min_trits_fuel : nat := 40.

Definition min_trits (value : Z) : nat :=
  default O (min_trits_loop min_trits_fuel (v_abs_of value) 1 1).

(** ** [long_to_trits] *)

(** The digit written for [v_abs]: unsigned arithmetic, then truncation to
    [trit_t]. *)
Definition long_digit (v_abs : Z) : Z := i8 (u64 (u64 (v_abs + 1) mod RADIX - 1)).

(** The [for] loop; [buf] is the output from index [i] on. *)
Fixpoint long_to_trits_loop (n : nat) (v_abs : Z) (negative : bool) (buf : list Z) : list Z :=
  match n, buf with
  | O, _ | _, [] => buf
  | S n, b :: buf' =>
      if v_abs =? 0 then buf else
      let trit := long_digit v_abs in
      let trit := if negative then i8 (- trit) else trit in
      trit :: long_to_trits_loop n (u64 (v_abs + 1) / RADIX) negative buf'
  end.

(** Returns the number of significant trits and the updated output buffer. *)
Definition long_to_trits (value : Z) (trits : list Z) : nat * list Z :=
  let negative := value <? 0 in
  let size := min_trits value in
  let trits := buf_write 0 (replicate 3 0) trits in
  (size, long_to_trits_loop size (v_abs_of value) negative trits).

(** ** Length-prefixed encoding *)

Definition nearest_greater_multiple_of_three (value : nat) : nat :=
  let rem := (value mod 3)%nat in
  if (rem =? 0)%nat then value else (value + 3 - rem)%nat.

Definition encoded_zero : list Z := [1; 0; 0; -1].

(** [llabs]; its result for [INT64_MIN], undefined in C, wraps around. *)
Definition llabs (v : Z) : Z := i64 (Z.abs v).

(** [(1 << (length / RADIX)) - 1] in [int] arithmetic. *)
Definition encoding_mask (length : nat) : Z := i32 (i32 (Z.shiftl 1 (Z.of_nat (length / 3))) - 1).

Definition encoded_length (value : Z) : nat :=
  if value =? 0 then length encoded_zero else
  let length := nearest_greater_multiple_of_three (min_trits (llabs value)) in
  (length + min_trits (encoding_mask length))%nat.

(** The loop of [encode_long] over all trytes but the last: a tryte of
    non-negative value is negated and its bit set in [encoding]. *)
Fixpoint encode_long_loop (n : nat) (index : nat) (encoding : Z) (trits : list Z) : Z * list Z :=
  match n with
  | O => (encoding, trits)
  | S n =>
      let group := take 3 trits in
      let '(encoding, group) :=
        if trits_to_long group >=? 0
        then (Z.lor encoding (i32 (Z.shiftl 1 (Z.of_nat index))), map (fun t => i8 (- t)) group)
        else (encoding, group) in
      let '(encoding, rest) := encode_long_loop n (S index) encoding (drop 3 trits) in
      (encoding, group ++ rest)
  end.

Definition encode_long (value : Z) (trits : list Z) (num_trits : nat) : Z * list Z :=
  if (num_trits <? encoded_length value)%nat then (-1, trits) else
  if value =? 0 then (0, buf_write 0 encoded_zero trits) else
  let length := nearest_greater_multiple_of_three (min_trits (llabs value)) in
  let '(_, trits) := long_to_trits value trits in
  let index := (length / 3 - 1)%nat in
  let '(encoding, trits) := encode_long_loop index 0 0 trits in
  let group := buf_read (length - 3) 3 trits in
  let '(encoding, trits) :=
    if trits_to_long group <=? 0
    then (Z.lor encoding (i32 (Z.shiftl 1 (Z.of_nat index))),
          buf_write (length - 3) (map (fun t => i8 (- t)) group) trits)
    else (encoding, trits) in
  let '(_, tail) := long_to_trits encoding (drop length trits) in
  (0, take length trits ++ tail).

(** * Value of a sequence of trits *)

Lemma trits_to_long_mod ts : trits_to_long ts = i64 (bal ts).
Proof.
  induction ts as [|t ts IH]; [done|].
  cbn [trits_to_long foldr bal]. fold (trits_to_long ts). rewrite IH.
  rewrite swrap_mul_l, swrap_add_l by lia. unfold RADIX. f_equal. lia.
Qed.

(** Up to forty trits fit into 64 bits. *)
Lemma trits_to_long_exact ts : trits_ok ts -> (length ts <= 40)%nat -> trits_to_long ts = bal ts.
Proof.
  intros Ht Hl. rewrite trits_to_long_mod. apply swrap_small; [lia|].
  pose proof (bal_bound ts Ht).
  assert (3 ^ Z.of_nat (length ts) <= 3 ^ 40) by (apply Z.pow_le_mono_r; lia).
  change (2 ^ (64 - 1)) with 9223372036854775808.
  change (3 ^ 40) with 12157665459056928801 in *. lia.
Qed.

(** ** Length of the representation *)

(** [rep_max n] is the largest number of [n] trits. *)
Definition rep_max (n : nat) : Z := (3 ^ Z.of_nat n - 1) / 2.

Lemma rep_max_S n : rep_max (S n) = 3 * rep_max n + 1.
Proof.
  unfold rep_max. rewrite pow3_S.
  assert (exists k, 3 ^ Z.of_nat n = 2 * k + 1) as [k ->].
  { induction n as [|n [k IH]]; [by exists 0|]. rewrite pow3_S, IH. exists (3 * k + 1). lia. }
  replace (2 * k + 1 - 1) with (k * 2) by lia.
  replace (3 * (2 * k + 1) - 1) with ((3 * k + 1) * 2) by lia.
  by rewrite !Z.div_mul by lia.
Qed.

Lemma rep_max_odd n : 2 * rep_max n + 1 = 3 ^ Z.of_nat n.
Proof. induction n as [|n IH]; [done|]. rewrite rep_max_S, pow3_S. lia. Qed.

Lemma rep_max_mono n m : (n <= m)%nat -> rep_max n <= rep_max m.
Proof.
  intros H. assert (3 ^ Z.of_nat n <= 3 ^ Z.of_nat m) by (apply Z.pow_le_mono_r; lia).
  pose proof (rep_max_odd n). pose proof (rep_max_odd m). lia.
Qed.

(** With fuel for [41 - num] more iterations the loop stops at the least width
    that represents [v]. *)
Lemma min_trits_loop_spec v fuel : forall num, v <= 2 ^ 63 -> (1 <= num)%nat ->
  (num + fuel = 41)%nat -> (num = 1%nat \/ rep_max (num - 1) < v) ->
  exists n, min_trits_loop fuel v (rep_max num) num = Some n /\
    (1 <= n <= 41)%nat /\ v <= rep_max n /\ (n = 1%nat \/ rep_max (n - 1) < v).
Proof.
  change (2 ^ 63) with 9223372036854775808.
  induction fuel as [|fuel IH]; intros num Hv H1 Hf Hlow; cbn [min_trits_loop];
    (destruct (Z.gtb_spec v (rep_max num)) as [Hgt|Hle]; [|exists num; split_and!; (done || lia)]).
  - exfalso. replace num with 41%nat in * by lia.
    change (rep_max 41) with 18236498188585393201 in *. lia.
  - assert (rep_max (S num) <= rep_max 41) as Hb by (apply rep_max_mono; lia).
    change (rep_max 41) with 18236498188585393201 in Hb.
    assert (0 <= rep_max num) by (apply (rep_max_mono 0); lia).
    rewrite rep_max_S in Hb. unfold RADIX.
    rewrite Z.mul_comm, uwrap_small by lia. rewrite <- rep_max_S.
    apply IH; [done|lia..|]. right. by rewrite Nat.sub_succ, Nat.sub_0_r.
Qed.

Definition is_int64 (v : Z) : Prop := INT64_MIN <= v <= INT64_MAX.

#[global] Instance is_int64_dec v : Decision (is_int64 v).
Proof. unfold is_int64. apply _. Defined.

Lemma v_abs_of_spec v : is_int64 v -> v_abs_of v = Z.abs v /\ 0 <= v_abs_of v <= 2 ^ 63.
Proof.
  unfold is_int64, v_abs_of, INT64_MIN, INT64_MAX. intros Hv.
  destruct (Z.eqb_spec v (- 2 ^ 63)) as [->|Hne]; [done|].
  rewrite uwrap_small by lia. lia.
Qed.

(** [min_trits] stops, and returns the least positive width that can hold the
    value. *)
Lemma min_trits_spec v : is_int64 v ->
  min_trits_loop min_trits_fuel (v_abs_of v) 1 1 = Some (min_trits v) /\
  (1 <= min_trits v <= 41)%nat /\ Z.abs v <= rep_max (min_trits v) /\
  (min_trits v = 1%nat \/ rep_max (min_trits v - 1) < Z.abs v).
Proof.
  intros Hv. destruct (v_abs_of_spec v Hv) as [E Hb].
  unfold min_trits. rewrite E in *.
  destruct (min_trits_loop_spec (Z.abs v) min_trits_fuel 1) as (n & Hn & H); [lia|lia|done|by left|].
  change (rep_max 1) with 1 in Hn. rewrite Hn. done.
Qed.

(** ** Digits *)

Lemma long_digit_spec a : 0 < a <= 2 ^ 63 ->
  is_trit (long_digit a) /\ a = long_digit a + 3 * (u64 (a + 1) / RADIX) /\
  0 <= u64 (a + 1) / RADIX /\
  (forall n, a <= rep_max (S n) -> u64 (a + 1) / RADIX <= rep_max n).
Proof.
  change (2 ^ 63) with 9223372036854775808. intros Ha. unfold long_digit, RADIX, is_trit.
  rewrite (uwrap_small 64 (a + 1)) by lia.
  pose proof (Z.mod_pos_bound (a + 1) 3 ltac:(lia)).
  pose proof (Z.div_mod (a + 1) 3 ltac:(lia)) as Hdm.
  assert (i8 (u64 ((a + 1) mod 3 - 1)) = (a + 1) mod 3 - 1) as ->.
  { assert ((a + 1) mod 3 = 0 \/ (a + 1) mod 3 = 1 \/ (a + 1) mod 3 = 2) as [E|[E|E]] by lia;
      rewrite E; reflexivity. }
  split_and!; [lia..|]. intros n. rewrite rep_max_S. lia.
Qed.

(** The loop run for exactly the required number of trits writes the balanced
    ternary notation, followed by what the buffer already held. *)
Lemma long_to_trits_loop_spec n : forall a neg buf,
  0 <= a <= 2 ^ 63 -> a <= rep_max n -> (n = O \/ a = 0 \/ rep_max (n - 1) < a) ->
  (n <= length buf)%nat -> (a = 0 -> take n buf = replicate n 0) ->
  exists ts, long_to_trits_loop n a neg buf = ts ++ drop n buf /\ length ts = n /\
    trits_ok ts /\ bal ts = if neg then - a else a.
Proof.
  induction n as [|n IH]; intros a neg buf Ha Hmax Hmin Hlen Hz.
  - exists []. change (rep_max 0) with 0 in Hmax. split_and!; try done. cbn. destruct neg; lia.
  - destruct buf as [|b buf]; [simpl in Hlen; lia|]. cbn [long_to_trits_loop].
    destruct (Z.eqb_spec a 0) as [->|Hne].
    + specialize (Hz eq_refl). exists (replicate (S n) 0).
      rewrite <- Hz at 1. rewrite take_drop. split_and!; [done|by rewrite length_replicate| |].
      * by apply Forall_replicate.
      * rewrite bal_replicate_0. by destruct neg.
    + destruct (long_digit_spec a ltac:(lia)) as (Hd & E & Hq & Hqm).
      set (d := long_digit a) in *. set (q := u64 (a + 1) / RADIX) in *.
      destruct (IH q neg buf) as (ts & Ets & Hlts & Hts & Hbal).
      * unfold is_trit in Hd. lia.
      * by apply Hqm.
      * destruct n as [|n]; [by left|right]. destruct Hmin as [|[|Hmin]]; [lia..|].
        rewrite Nat.sub_succ, Nat.sub_0_r, rep_max_S in Hmin. unfold is_trit in Hd.
        rewrite Nat.sub_succ, Nat.sub_0_r. right. lia.
      * simpl in Hlen. lia.
      * intros Eq. assert (n = O) as ->; [|done].
        destruct n as [|n]; [done|exfalso]. destruct Hmin as [|[|Hmin]]; [lia..|].
        rewrite Nat.sub_succ, Nat.sub_0_r, rep_max_S in Hmin. unfold is_trit in Hd.
        pose proof (rep_max_mono 0 n ltac:(lia)). change (rep_max 0) with 0 in *. lia.
      * exists ((if neg then i8 (- d) else d) :: ts). cbn [length drop app bal].
        assert (i8 (- d) = - d) as -> by (apply swrap_small; unfold is_trit in Hd; lia).
        split_and!; [by rewrite Ets|lia| |destruct neg; lia].
        constructor; [|done]. unfold is_trit in *. destruct neg; lia.
Qed.

(** [long_to_trits] overwrites its output with the representation of the value;
    what lies behind the representation (and the three trits that are always
    cleared) keeps its contents. *)
Lemma long_to_trits_spec v buf : is_int64 v -> (3 <= length buf)%nat ->
  (min_trits v <= length buf)%nat ->
  exists ts, long_to_trits v buf = (min_trits v, ts ++ drop (min_trits v) (buf_write 0 [0; 0; 0] buf)) /\
    length ts = min_trits v /\ trits_ok ts /\ bal ts = v.
Proof.
  intros Hv H3 Hl. destruct (min_trits_spec v Hv) as (_ & H1 & Hmax & Hmin).
  destruct (v_abs_of_spec v Hv) as [E Hb]. unfold long_to_trits.
  destruct (long_to_trits_loop_spec (min_trits v) (v_abs_of v) (v <? 0) (buf_write 0 [0; 0; 0] buf))
    as (ts & Ets & Hlen & Hok & Hbal); rewrite ?E in *.
  - lia.
  - done.
  - destruct Hmin as [->|Hmin]; [|auto]. change (rep_max 1) with 1 in Hmax.
    change (rep_max (1 - 1)) with 0. lia.
  - by rewrite length_buf_write by lia.
  - intros Ez. assert (v = 0) as -> by lia. change (min_trits 0) with 1%nat.
    destruct buf as [|? [|? [|? ?]]]; simpl in H3; try lia. done.
  - exists ts. split_and!; [|done..|]. { cbn [replicate]. by rewrite Ets. }
    rewrite Hbal. destruct (Z.ltb_spec v 0); lia.
Qed.

(** In a cleared buffer the rest stays zero: the buffer as a whole denotes the
    value. *)
Lemma long_to_trits_zeros v n : is_int64 v -> (3 <= n)%nat -> (min_trits v <= n)%nat ->
  let buf := (long_to_trits v (replicate n 0)).2 in
  length buf = n /\ trits_ok buf /\ bal buf = v.
Proof.
  intros Hv H3 Hl.
  destruct (long_to_trits_spec v (replicate n 0)) as (ts & E & Hlen & Hok & Hbal);
    rewrite ?length_replicate; [done..|]. cbv zeta. rewrite E. cbn [snd].
  assert (buf_write 0 [0; 0; 0] (replicate n 0) = replicate n 0) as ->.
  { destruct n as [|[|[|n]]]; try lia. unfold buf_write.
    by rewrite length_replicate, (take_ge [0; 0; 0]) by (simpl; lia). }
  rewrite drop_replicate. split_and!.
  - rewrite length_app, length_replicate. lia.
  - apply Forall_app. split; [done|]. by apply Forall_replicate.
  - by rewrite bal_app, bal_replicate_0, Z.mul_0_r, Z.add_0_r.
Qed.

(** * Properties *)

(** [long_to_trits] and [trits_to_long] round-trip on every [int64_t],
    [INT64_MIN] included: the trits written are valid, they read back as the
    value, the loop that computes their number terminates, and no non-empty
    sequence of trits that is shorter denotes the value. *)
Theorem long_trits_roundtrip v buf : is_int64 v ->
  (3 <= length buf)%nat -> (min_trits v <= length buf)%nat ->
  let '(n, buf') := long_to_trits v buf in
  length buf' = length buf /\ trits_ok (take n buf') /\ trits_to_long (take n buf') = v /\
  min_trits_loop min_trits_fuel (v_abs_of v) 1 1 = Some n /\
  (forall ts, trits_ok ts -> ts <> [] -> bal ts = v -> (n <= length ts)%nat).
Proof.
  intros Hv H3 Hl. destruct (min_trits_spec v Hv) as (Hrun & H1 & Hmax & Hmin).
  destruct (long_to_trits_spec v buf Hv H3 Hl) as (ts & E & Hlen & Hok & Hbal).
  rewrite E. rewrite take_app_length' by done. split_and!; [|done| |done|].
  - rewrite length_app, length_drop, length_buf_write by lia. lia.
  - rewrite trits_to_long_mod, Hbal. unfold is_int64, INT64_MIN, INT64_MAX in Hv.
    apply swrap_small; lia.
  - intros us Hus Hne Hb. destruct Hmin as [->|Hmin].
    + destruct us; simpl; [done|lia].
    + pose proof (bal_bound us Hus) as Hbd. rewrite Hb in Hbd.
      destruct (decide (min_trits v <= length us)%nat) as [|Hlt]; [done|exfalso].
      pose proof (rep_max_mono (length us) (min_trits v - 1) ltac:(lia)).
      pose proof (rep_max_odd (length us)). lia.
Qed.

Lemma long_trits_roundtrip_witness :
  let '(n, buf') := long_to_trits INT64_MIN (replicate 81 1) in
  length buf' = length (replicate 81 1) /\ trits_ok (take n buf') /\
  trits_to_long (take n buf') = INT64_MIN /\
  min_trits_loop min_trits_fuel (v_abs_of INT64_MIN) 1 1 = Some n /\
  (forall ts, trits_ok ts -> ts <> [] -> bal ts = INT64_MIN -> (n <= length ts)%nat).
Proof.
  apply (long_trits_roundtrip INT64_MIN (replicate 81 1)); closed_decide.
Defined.
