(* ===== verification/TritByte.v ===== *)
(** * Trits packed into bytes

    Model of [common/trinary/trit_byte.c], five trits to a [byte_t] (a signed
    8-bit integer), with the lookup table that the default build uses
    ([NO_BYTES_TRITS_LUT] undefined). *)

From S2P Require Import Prelude Trits.

Definition BYTE_SPACE_SIZE : Z := 243.
Definition NUMBER_OF_TRITS_IN_A_BYTE : nat := 5.
Definition BYTE_VALUE_MAX : Z := 121.

(** Values are ordered like this: 0, 1, ..., 121, -121, ..., -2, -1. *)
Definition BYTES_TRITS_LUT : list (list Z) :=
   [[0; 0; 0; 0; 0]; [1; 0; 0; 0; 0]; [-1; 1; 0; 0; 0]; [0; 1; 0; 0; 0]; [1; 1; 0; 0; 0]; [-1; -1; 1; 0; 0];
    [0; -1; 1; 0; 0]; [1; -1; 1; 0; 0]; [-1; 0; 1; 0; 0]; [0; 0; 1; 0; 0]; [1; 0; 1; 0; 0]; [-1; 1; 1; 0; 0];
    [0; 1; 1; 0; 0]; [1; 1; 1; 0; 0]; [-1; -1; -1; 1; 0]; [0; -1; -1; 1; 0]; [1; -1; -1; 1; 0];
    [-1; 0; -1; 1; 0]; [0; 0; -1; 1; 0]; [1; 0; -1; 1; 0]; [-1; 1; -1; 1; 0]; [0; 1; -1; 1; 0];
    [1; 1; -1; 1; 0]; [-1; -1; 0; 1; 0]; [0; -1; 0; 1; 0]; [1; -1; 0; 1; 0]; [-1; 0; 0; 1; 0]; [0; 0; 0; 1; 0];
    [1; 0; 0; 1; 0]; [-1; 1; 0; 1; 0]; [0; 1; 0; 1; 0]; [1; 1; 0; 1; 0]; [-1; -1; 1; 1; 0]; [0; -1; 1; 1; 0];
    [1; -1; 1; 1; 0]; [-1; 0; 1; 1; 0]; [0; 0; 1; 1; 0]; [1; 0; 1; 1; 0]; [-1; 1; 1; 1; 0]; [0; 1; 1; 1; 0];
    [1; 1; 1; 1; 0]; [-1; -1; -1; -1; 1]; [0; -1; -1; -1; 1]; [1; -1; -1; -1; 1]; [-1; 0; -1; -1; 1];
    [0; 0; -1; -1; 1]; [1; 0; -1; -1; 1]; [-1; 1; -1; -1; 1]; [0; 1; -1; -1; 1]; [1; 1; -1; -1; 1];
    [-1; -1; 0; -1; 1]; [0; -1; 0; -1; 1]; [1; -1; 0; -1; 1]; [-1; 0; 0; -1; 1]; [0; 0; 0; -1; 1];
    [1; 0; 0; -1; 1]; [-1; 1; 0; -1; 1]; [0; 1; 0; -1; 1]; [1; 1; 0; -1; 1]; [-1; -1; 1; -1; 1];
    [0; -1; 1; -1; 1]; [1; -1; 1; -1; 1]; [-1; 0; 1; -1; 1]; [0; 0; 1; -1; 1]; [1; 0; 1; -1; 1];
    [-1; 1; 1; -1; 1]; [0; 1; 1; -1; 1]; [1; 1; 1; -1; 1]; [-1; -1; -1; 0; 1]; [0; -1; -1; 0; 1];
    [1; -1; -1; 0; 1]; [-1; 0; -1; 0; 1]; [0; 0; -1; 0; 1]; [1; 0; -1; 0; 1]; [-1; 1; -1; 0; 1];
    [0; 1; -1; 0; 1]; [1; 1; -1; 0; 1]; [-1; -1; 0; 0; 1]; [0; -1; 0; 0; 1]; [1; -1; 0; 0; 1];
    [-1; 0; 0; 0; 1]; [0; 0; 0; 0; 1]; [1; 0; 0; 0; 1]; [-1; 1; 0; 0; 1]; [0; 1; 0; 0; 1]; [1; 1; 0; 0; 1];
    [-1; -1; 1; 0; 1]; [0; -1; 1; 0; 1]; [1; -1; 1; 0; 1]; [-1; 0; 1; 0; 1]; [0; 0; 1; 0; 1]; [1; 0; 1; 0; 1];
    [-1; 1; 1; 0; 1]; [0; 1; 1; 0; 1]; [1; 1; 1; 0; 1]; [-1; -1; -1; 1; 1]; [0; -1; -1; 1; 1];
    [1; -1; -1; 1; 1]; [-1; 0; -1; 1; 1]; [0; 0; -1; 1; 1]; [1; 0; -1; 1; 1]; [-1; 1; -1; 1; 1];
    [0; 1; -1; 1; 1]; [1; 1; -1; 1; 1]; [-1; -1; 0; 1; 1]; [0; -1; 0; 1; 1]; [1; -1; 0; 1; 1];
    [-1; 0; 0; 1; 1]; [0; 0; 0; 1; 1]; [1; 0; 0; 1; 1]; [-1; 1; 0; 1; 1]; [0; 1; 0; 1; 1]; [1; 1; 0; 1; 1];
    [-1; -1; 1; 1; 1]; [0; -1; 1; 1; 1]; [1; -1; 1; 1; 1]; [-1; 0; 1; 1; 1]; [0; 0; 1; 1; 1]; [1; 0; 1; 1; 1];
    [-1; 1; 1; 1; 1]; [0; 1; 1; 1; 1]; [1; 1; 1; 1; 1]; [-1; -1; -1; -1; -1]; [0; -1; -1; -1; -1];
    [1; -1; -1; -1; -1]; [-1; 0; -1; -1; -1]; [0; 0; -1; -1; -1]; [1; 0; -1; -1; -1]; [-1; 1; -1; -1; -1];
    [0; 1; -1; -1; -1]; [1; 1; -1; -1; -1]; [-1; -1; 0; -1; -1]; [0; -1; 0; -1; -1]; [1; -1; 0; -1; -1];
    [-1; 0; 0; -1; -1]; [0; 0; 0; -1; -1]; [1; 0; 0; -1; -1]; [-1; 1; 0; -1; -1]; [0; 1; 0; -1; -1];
    [1; 1; 0; -1; -1]; [-1; -1; 1; -1; -1]; [0; -1; 1; -1; -1]; [1; -1; 1; -1; -1]; [-1; 0; 1; -1; -1];
    [0; 0; 1; -1; -1]; [1; 0; 1; -1; -1]; [-1; 1; 1; -1; -1]; [0; 1; 1; -1; -1]; [1; 1; 1; -1; -1];
    [-1; -1; -1; 0; -1]; [0; -1; -1; 0; -1]; [1; -1; -1; 0; -1]; [-1; 0; -1; 0; -1]; [0; 0; -1; 0; -1];
    [1; 0; -1; 0; -1]; [-1; 1; -1; 0; -1]; [0; 1; -1; 0; -1]; [1; 1; -1; 0; -1]; [-1; -1; 0; 0; -1];
    [0; -1; 0; 0; -1]; [1; -1; 0; 0; -1]; [-1; 0; 0; 0; -1]; [0; 0; 0; 0; -1]; [1; 0; 0; 0; -1];
    [-1; 1; 0; 0; -1]; [0; 1; 0; 0; -1]; [1; 1; 0; 0; -1]; [-1; -1; 1; 0; -1]; [0; -1; 1; 0; -1];
    [1; -1; 1; 0; -1]; [-1; 0; 1; 0; -1]; [0; 0; 1; 0; -1]; [1; 0; 1; 0; -1]; [-1; 1; 1; 0; -1];
    [0; 1; 1; 0; -1]; [1; 1; 1; 0; -1]; [-1; -1; -1; 1; -1]; [0; -1; -1; 1; -1]; [1; -1; -1; 1; -1];
    [-1; 0; -1; 1; -1]; [0; 0; -1; 1; -1]; [1; 0; -1; 1; -1]; [-1; 1; -1; 1; -1]; [0; 1; -1; 1; -1];
    [1; 1; -1; 1; -1]; [-1; -1; 0; 1; -1]; [0; -1; 0; 1; -1]; [1; -1; 0; 1; -1]; [-1; 0; 0; 1; -1];
    [0; 0; 0; 1; -1]; [1; 0; 0; 1; -1]; [-1; 1; 0; 1; -1]; [0; 1; 0; 1; -1]; [1; 1; 0; 1; -1];
    [-1; -1; 1; 1; -1]; [0; -1; 1; 1; -1]; [1; -1; 1; 1; -1]; [-1; 0; 1; 1; -1]; [0; 0; 1; 1; -1];
    [1; 0; 1; 1; -1]; [-1; 1; 1; 1; -1]; [0; 1; 1; 1; -1]; [1; 1; 1; 1; -1]; [-1; -1; -1; -1; 0];
    [0; -1; -1; -1; 0]; [1; -1; -1; -1; 0]; [-1; 0; -1; -1; 0]; [0; 0; -1; -1; 0]; [1; 0; -1; -1; 0];
    [-1; 1; -1; -1; 0]; [0; 1; -1; -1; 0]; [1; 1; -1; -1; 0]; [-1; -1; 0; -1; 0]; [0; -1; 0; -1; 0];
    [1; -1; 0; -1; 0]; [-1; 0; 0; -1; 0]; [0; 0; 0; -1; 0]; [1; 0; 0; -1; 0]; [-1; 1; 0; -1; 0];
    [0; 1; 0; -1; 0]; [1; 1; 0; -1; 0]; [-1; -1; 1; -1; 0]; [0; -1; 1; -1; 0]; [1; -1; 1; -1; 0];
    [-1; 0; 1; -1; 0]; [0; 0; 1; -1; 0]; [1; 0; 1; -1; 0]; [-1; 1; 1; -1; 0]; [0; 1; 1; -1; 0];
    [1; 1; 1; -1; 0]; [-1; -1; -1; 0; 0]; [0; -1; -1; 0; 0]; [1; -1; -1; 0; 0]; [-1; 0; -1; 0; 0];
    [0; 0; -1; 0; 0]; [1; 0; -1; 0; 0]; [-1; 1; -1; 0; 0]; [0; 1; -1; 0; 0]; [1; 1; -1; 0; 0];
    [-1; -1; 0; 0; 0]; [0; -1; 0; 0; 0]; [1; -1; 0; 0; 0]; [-1; 0; 0; 0; 0]].

(** [byte = byte * RADIX + trits[i]] from the last trit down to the first. *)
Definition trits_to_byte (trits : list Z) : Z :=
  foldr (fun t byte => i8 (byte * RADIX + t)) 0 trits.

Definition trits_to_bytes (trits : list Z) : list Z :=
  map trits_to_byte (chunks NUMBER_OF_TRITS_IN_A_BYTE trits).

(** The [num_trits] trits that are copied to the output. *)
Definition byte_to_trits (byte : Z) (num_trits : nat) : list Z :=
  if (num_trits =? 0)%nat then [] else
  take num_trits (lut_at [] BYTES_TRITS_LUT (if byte <? 0 then BYTE_SPACE_SIZE + byte else byte)).

(** [num_trits] trits in all, at most five from each byte.  The output beyond
    the trits of [bytes] is not written. *)
Fixpoint bytes_to_trits (bytes : list Z) (num_trits : nat) : list Z :=
  match bytes with
  | [] => []
  | byte :: bytes =>
      if (num_trits =? 0)%nat then [] else
      byte_to_trits byte (Nat.min num_trits NUMBER_OF_TRITS_IN_A_BYTE) ++
      bytes_to_trits bytes (num_trits - NUMBER_OF_TRITS_IN_A_BYTE)
  end.

(** * The table *)

Definition is_byte (b : Z) : Prop := -121 <= b <= 121.

#[global] Instance is_byte_dec b : Decision (is_byte b).
Proof. unfold is_byte. apply _. Defined.

Abbreviation bytes_ok := (Forall is_byte).

(** All 243 rows, checked by evaluation: the row of a byte is its five-trit
    balanced ternary notation. *)
Definition lut_row_correct (b : Z) : bool :=
  let row := byte_to_trits b 5 in
  bool_decide (trits_ok row) && (length row =? 5)%nat && (bal row =? b) && (trits_to_byte row =? b).

Lemma lut_rows_correct : forallb lut_row_correct (map (fun k => Z.of_nat k - 121) (seq 0 243)) = true.
Proof. vm_compute. reflexivity. Qed.

Lemma byte_row b : is_byte b ->
  trits_ok (byte_to_trits b 5) /\ length (byte_to_trits b 5) = 5%nat /\
  bal (byte_to_trits b 5) = b /\ trits_to_byte (byte_to_trits b 5) = b.
Proof.
  intros Hb. pose proof lut_rows_correct as H. rewrite forallb_forall in H.
  specialize (H b). unfold lut_row_correct in H.
  assert (In b (map (fun k => Z.of_nat k - 121) (seq 0 243))) as Hin.
  { apply in_map_iff. exists (Z.to_nat (b + 121)). unfold is_byte in Hb. split; [lia|].
    apply in_seq. lia. }
  apply H in Hin. rewrite !andb_true_iff, bool_decide_eq_true, Nat.eqb_eq, !Z.eqb_eq in Hin.
  by destruct Hin as [[[? ?] ?] ?].
Qed.

Lemma byte_to_trits_take b n : (n <= 5)%nat -> byte_to_trits b n = take n (byte_to_trits b 5).
Proof.
  intros Hn. unfold byte_to_trits. destruct n as [|n]; [done|]. cbn [Nat.eqb].
  rewrite take_take. f_equal. lia.
Qed.

Lemma trits_to_byte_spec ts : trits_ok ts -> (length ts <= 5)%nat ->
  trits_to_byte ts = bal ts /\ is_byte (bal ts).
Proof.
  intros Ht Hl. pose proof (bal_bound ts Ht) as Hb.
  assert (is_byte (bal ts)).
  { assert (3 ^ Z.of_nat (length ts) <= 3 ^ 5) by (apply Z.pow_le_mono_r; lia).
    change (3 ^ 5) with 243 in *. unfold is_byte. lia. }
  split; [|done]. clear Hb H. induction Ht as [|t ts Ht Hts IH]; [done|].
  simpl in Hl. cbn [trits_to_byte foldr bal]. fold (trits_to_byte ts). rewrite IH by lia.
  pose proof (bal_bound ts Hts) as Hb.
  assert (3 ^ Z.of_nat (length ts) <= 3 ^ 4) by (apply Z.pow_le_mono_r; lia).
  change (3 ^ 4) with 81 in *. unfold is_trit, RADIX in *. rewrite swrap_small by lia. lia.
Qed.

(** Reading back [length ts] trits of the byte that packs [ts] gives [ts]. *)
Lemma byte_trits_id ts : trits_ok ts -> (length ts <= 5)%nat ->
  byte_to_trits (trits_to_byte ts) (length ts) = ts.
Proof.
  intros Ht Hl. destruct (trits_to_byte_spec ts Ht Hl) as [-> Hb].
  destruct (byte_row (bal ts) Hb) as (Hok & Hlen & Hbal & _).
  rewrite byte_to_trits_take by done.
  assert (byte_to_trits (bal ts) 5 = ts ++ replicate (5 - length ts) 0) as ->.
  { apply bal_inj; [done| |rewrite length_app, length_replicate; lia|].
    - apply Forall_app. split; [done|]. by apply Forall_replicate.
    - rewrite Hbal, bal_app, bal_replicate_0. lia. }
  by rewrite take_app_length.
Qed.

Lemma trits_to_bytes_unfold ts : ts <> [] ->
  trits_to_bytes ts = trits_to_byte (take 5 ts) :: trits_to_bytes (drop 5 ts).
Proof. intros. unfold trits_to_bytes. by rewrite chunks_unfold by (done || (cbv; lia)). Qed.

Lemma bytes_trits_id ts : trits_ok ts ->
  bytes_to_trits (trits_to_bytes ts) (length ts) = ts.
Proof.
  revert ts. apply (chunk_ind 5 (fun ts => trits_ok ts -> _ = ts)); [lia|done|].
  intros ts Hne IH Ht. rewrite trits_to_bytes_unfold by done. cbn [bytes_to_trits].
  destruct (Nat.eqb_spec (length ts) 0) as [E|_]; [by apply nil_length_inv in E|].
  rewrite length_drop in IH. unfold NUMBER_OF_TRITS_IN_A_BYTE in *.
  rewrite IH by (by apply Forall_drop).
  replace (Nat.min (length ts) 5) with (length (take 5 ts)) by (rewrite length_take; lia).
  rewrite byte_trits_id; [apply take_drop|by apply Forall_take|].
  rewrite length_take. lia.
Qed.

Lemma trits_bytes_id bs : bytes_ok bs ->
  let ts := bytes_to_trits bs (5 * length bs) in
  trits_ok ts /\ length ts = (5 * length bs)%nat /\ trits_to_bytes ts = bs.
Proof.
  induction 1 as [|b bs Hb _ IH]; [done|].
  cbn [bytes_to_trits length]. replace (5 * S (length bs) =? 0)%nat with false by (symmetry; apply Nat.eqb_neq; lia).
  unfold NUMBER_OF_TRITS_IN_A_BYTE.
  replace (Nat.min (5 * S (length bs)) 5) with 5%nat by lia.
  replace (5 * S (length bs) - 5)%nat with (5 * length bs)%nat by lia.
  destruct IH as (Hok & Hlen & E). destruct (byte_row b Hb) as (Hrow & Hrl & _ & Hval). cbv zeta.
  split_and!; [by apply Forall_app|rewrite length_app; lia|].
  rewrite trits_to_bytes_unfold by (intros Ez; apply (f_equal length) in Ez; rewrite length_app in Ez; simpl in Ez; lia).
  by rewrite take_app_length', drop_app_length', Hval, E.
Qed.

(** * Properties *)

(** Packing five trits to a byte loses nothing in either direction: any
    sequence of trits, whatever its length, is read back from its bytes, and
    every array of byte values in [-121..121] is what packing its trits gives;
    packed values are always in that range. *)
Theorem trits_bytes_roundtrip ts bs : trits_ok ts -> bytes_ok bs ->
  bytes_to_trits (trits_to_bytes ts) (length ts) = ts /\ bytes_ok (trits_to_bytes ts) /\
  trits_to_bytes (bytes_to_trits bs (5 * length bs)) = bs.
Proof.
  intros Ht Hb. split_and!; [by apply bytes_trits_id| |by apply trits_bytes_id].
  revert ts Ht. apply (chunk_ind 5 (fun ts => trits_ok ts -> bytes_ok (trits_to_bytes ts))); [lia|constructor|].
  intros ts Hne IH Ht. rewrite trits_to_bytes_unfold by done. constructor.
  - edestruct (trits_to_byte_spec (take 5 ts)) as [-> ?]; [by apply Forall_take| |done].
    rewrite length_take. lia.
  - apply IH. by apply Forall_drop.
Qed.

Lemma trits_bytes_roundtrip_witness :
  bytes_to_trits (trits_to_bytes [1; -1; 0; 0; 1; -1; -1]) 7 = [1; -1; 0; 0; 1; -1; -1] /\
  bytes_ok (trits_to_bytes [1; -1; 0; 0; 1; -1; -1]) /\
  trits_to_bytes (bytes_to_trits [-121; 77; 0] 15) = [-121; 77; 0].
Proof. apply (trits_bytes_roundtrip [1; -1; 0; 0; 1; -1; -1] [-121; 77; 0]); closed_decide. Defined.
