(* ===== verification/FlexTrit.v ===== *)
(** * Flex trits

    Model of [common/trinary/flex_trit.h] and [flex_trit.c] in the encoding that
    is chosen when no [FLEX_TRIT_ENCODING_*] macro is set: one trit per byte,
    [FLEX_TRIT_NULL_VALUE = 0].  In this encoding an array of [flex_trit_t] and
    the array of its trits coincide; the packed encodings are covered by the
    tryte and byte codecs ([Trits], [TritByte]) that they are built from.

    Every function takes the output array and returns the number that the C
    function returns, with the updated array.  Sizes are natural numbers: no sum
    of sizes wraps around. *)

From S2P Require Import Prelude Trits TritByte.

Definition FLEX_TRIT_NULL_VALUE : Z := 0.

Definition memset {A} (v : A) (n : nat) (buf : list A) : list A := buf_write 0 (replicate n v) buf.

(** ** Access *)

Definition flex_trits_at (flex_trits : list Z) (len index : nat) : Z :=
  if (len <=? index)%nat then 0 else nth index flex_trits 0.

Definition flex_trits_set_at (flex_trits : list Z) (len index : nat) (trit : Z) : Z * list Z :=
  if (len <=? index)%nat then (0, flex_trits) else (1, <[index := trit]> flex_trits).

Fixpoint flex_trits_are_null (flex_trits : list Z) (len : nat) : bool :=
  match len, flex_trits with
  | S len, t :: flex_trits =>
      if negb (t =? FLEX_TRIT_NULL_VALUE) then false else flex_trits_are_null flex_trits len
  | _, _ => true
  end.

(** ** Slices *)

Definition flex_trits_slice (to_flex_trits : list Z) (to_len : nat) (flex_trits : list Z)
    (len start num_trits : nat) : nat * list Z :=
  if (num_trits =? 0)%nat || (to_len <? num_trits)%nat || (len <? start + num_trits)%nat
  then (O, to_flex_trits) else
  let to_flex_trits := memset FLEX_TRIT_NULL_VALUE to_len to_flex_trits in
  (num_trits, buf_write 0 (buf_read start num_trits flex_trits) to_flex_trits).

Definition flex_trits_insert (to_flex_trits : list Z) (to_len : nat) (flex_trits : list Z)
    (len start num_trits : nat) : nat * list Z :=
  if (num_trits =? 0)%nat || (len <? num_trits)%nat || (to_len <? num_trits)%nat ||
     (to_len <=? start)%nat || (to_len <? start + num_trits)%nat
  then (O, to_flex_trits) else
  (num_trits, buf_write start (take num_trits flex_trits) to_flex_trits).

Definition flex_trits_insert_from_pos (dst_trits : list Z) (dst_len : nat) (src_trits : list Z)
    (src_len src_start_pos dst_start_pos num_trits : nat) : nat * list Z :=
  if (num_trits =? 0)%nat || (src_len <? num_trits)%nat || (dst_len <? num_trits)%nat ||
     (src_len <=? src_start_pos)%nat || (src_len <? src_start_pos + num_trits)%nat ||
     (dst_len <=? dst_start_pos)%nat || (dst_len <? dst_start_pos + num_trits)%nat
  then (O, dst_trits) else
  (num_trits, buf_write dst_start_pos (buf_read src_start_pos num_trits src_trits) dst_trits).

(** ** Conversions *)

Definition flex_trits_to_trits (trits : list Z) (to_len : nat) (flex_trits : list Z)
    (len num_trits : nat) : nat * list Z :=
  if (num_trits =? 0)%nat || (len <? num_trits)%nat || (to_len <? num_trits)%nat
  then (O, trits) else
  let num_bytes := num_trits in
  let trits := memset 0 to_len trits in
  (num_bytes, buf_write 0 (take num_bytes flex_trits) trits).

Definition flex_trits_from_trits (to_flex_trits : list Z) (to_len : nat) (trits : list Z)
    (len num_trits : nat) : nat * list Z :=
  if (len <? num_trits)%nat || (to_len <? num_trits)%nat || (num_trits =? 0)%nat
  then (O, to_flex_trits) else
  let to_flex_trits := memset FLEX_TRIT_NULL_VALUE to_len to_flex_trits in
  (num_trits, buf_write 0 (take num_trits trits) to_flex_trits).

Definition flex_trits_to_trytes (trytes : list Z) (to_len : nat) (flex_trits : list Z)
    (len num_trits : nat) : nat * list Z :=
  if (len <? num_trits)%nat || (to_len * 3 <? num_trits)%nat then (O, trytes) else
  let trytes := memset 57 to_len trytes in
  (num_trits, buf_write 0 (trits_to_trytes (take num_trits flex_trits)) trytes).

Definition flex_trits_from_trytes (to_flex_trits : list Z) (to_len : nat) (trytes : list Z)
    (len num_trytes : nat) : nat * list Z :=
  if (len <? num_trytes)%nat || (to_len <? num_trytes * 3)%nat then (O, to_flex_trits) else
  let to_flex_trits := memset FLEX_TRIT_NULL_VALUE to_len to_flex_trits in
  (num_trytes, buf_write 0 (trytes_to_trits (take num_trytes trytes)) to_flex_trits).

Definition MIN_BYTES (num_trits : nat) : nat := (num_trits + 5 - 1) / 5.

Definition flex_trits_to_bytes (bytes : list Z) (to_len : nat) (flex_trits : list Z)
    (len num_trits : nat) : nat * list Z :=
  if (len <? num_trits)%nat || (to_len <? num_trits)%nat then (O, bytes) else
  let bytes := memset 0 (MIN_BYTES to_len) bytes in
  (num_trits, buf_write 0 (trits_to_bytes (take num_trits flex_trits)) bytes).

Definition flex_trits_from_bytes (to_flex_trits : list Z) (to_len : nat) (bytes : list Z)
    (len num_trits : nat) : nat * list Z :=
  if (len <? num_trits)%nat || (to_len <? num_trits)%nat then (O, to_flex_trits) else
  let to_flex_trits := memset FLEX_TRIT_NULL_VALUE to_len to_flex_trits in
  let num_bytes := MIN_BYTES num_trits in
  (num_trits, buf_write 0 (bytes_to_trits (take num_bytes bytes) num_trits) to_flex_trits).

(** * Lemmas *)

Lemma length_memset {A} (v : A) n buf : length (memset v n buf) = length buf.
Proof. apply length_buf_write. lia. Qed.

Lemma memset_all {A} (v : A) n buf : length buf = n -> memset v n buf = replicate n v.
Proof.
  intros. unfold memset, buf_write. rewrite length_replicate.
  rewrite drop_ge by lia. rewrite (take_ge (replicate n v)) by (rewrite length_replicate; lia).
  cbn [take app]. by rewrite app_nil_r.
Qed.

Lemma buf_write_replicate (src : list Z) n v : (length src <= n)%nat ->
  buf_write 0 src (replicate n v) = src ++ replicate (n - length src) v.
Proof.
  intros. unfold buf_write. rewrite length_replicate, drop_replicate.
  rewrite (take_ge src) by lia. cbn [take app]. do 2 f_equal.
Qed.

(** The common shape of the conversions: clear the output, then copy. *)
Lemma memset_write (v : Z) n buf (src : list Z) : length buf = n -> (length src <= n)%nat ->
  buf_write 0 src (memset v n buf) = src ++ replicate (n - length src) v.
Proof. intros. by rewrite memset_all, buf_write_replicate. Qed.

Lemma memset_write_all (v : Z) n buf (src : list Z) : length buf = n -> length src = n ->
  buf_write 0 src (memset v n buf) = src.
Proof.
  intros Hb Hs. rewrite memset_write by lia. rewrite Hs, Nat.sub_diag. apply app_nil_r.
Qed.

(** Boolean guards, decided by arithmetic. *)
Ltac guards :=
  repeat match goal with
  | |- context [(?a =? ?b)%nat] => destruct (Nat.eqb_spec a b); try lia
  | |- context [(?a <? ?b)%nat] => destruct (Nat.ltb_spec a b); try lia
  | |- context [(?a <=? ?b)%nat] => destruct (Nat.leb_spec a b); try lia
  end; cbn [orb andb negb].

Lemma flex_trits_slice_ok to n flex len start : length to = n -> length flex = len ->
  (0 < n)%nat -> (start + n <= len)%nat ->
  flex_trits_slice to n flex len start n = (n, buf_read start n flex).
Proof.
  intros. unfold flex_trits_slice. guards.
  by rewrite memset_write_all by (rewrite ?length_buf_read; lia).
Qed.

Lemma flex_trits_to_trits_ok to n flex : length to = n -> length flex = n -> (0 < n)%nat ->
  flex_trits_to_trits to n flex n n = (n, flex).
Proof.
  intros. unfold flex_trits_to_trits. guards. rewrite take_ge by lia.
  by rewrite memset_write_all.
Qed.

Lemma flex_trits_from_trits_ok to n trits : length to = n -> length trits = n -> (0 < n)%nat ->
  flex_trits_from_trits to n trits n n = (n, trits).
Proof.
  intros. unfold flex_trits_from_trits. guards. rewrite take_ge by lia.
  by rewrite memset_write_all.
Qed.

Lemma flex_trits_insert_ok to to_len flex len start : length to = to_len -> length flex = len ->
  (0 < len)%nat -> (start + len <= to_len)%nat ->
  flex_trits_insert to to_len flex len start len = (len, buf_write start flex to).
Proof. intros. unfold flex_trits_insert. guards. by rewrite take_ge by lia. Qed.

#[export] Hint Rewrite @length_memset @length_buf_write @length_buf_read : iota.

(** * Properties *)

(** Inserting a sequence of trits into an array and slicing the same range
    out again returns it, and every other slice is unaffected. *)
Theorem flex_insert_slice to flex out start : (0 < length flex)%nat ->
  (start + length flex <= length to)%nat -> length out = length flex ->
  let '(n, to') := flex_trits_insert to (length to) flex (length flex) start (length flex) in
  n = length flex /\ length to' = length to /\
  flex_trits_slice out (length out) to' (length to) start (length out) = (length out, flex) /\
  (forall out' start', (0 < length out')%nat -> (start' + length out' <= length to)%nat ->
     (start' + length out' <= start \/ start + length flex <= start')%nat ->
     flex_trits_slice out' (length out') to' (length to) start' (length out') =
     flex_trits_slice out' (length out') to (length to) start' (length out')).
Proof.
  intros Hf Hs Ho. rewrite flex_trits_insert_ok by done.
  assert (length (buf_write start flex to) = length to) as Hl by (apply length_buf_write; lia).
  split_and!; [done|done| |].
  - rewrite flex_trits_slice_ok by lia. rewrite Ho, buf_read_write_same by lia. done.
  - intros out' start' H1 H2 Hd. rewrite !flex_trits_slice_ok by lia. f_equal.
    destruct Hd; [apply buf_read_write_before|apply buf_read_write_after]; lia.
Qed.

Lemma flex_insert_slice_witness :
  let '(n, to') := flex_trits_insert [0; 0; 0; 0; 1] 5 [1; -1] 2 2 2 in
  n = 2%nat /\ length to' = 5%nat /\
  flex_trits_slice [0; 0] 2 to' 5 2 2 = (2%nat, [1; -1]) /\
  (forall out' start', (0 < length out')%nat -> (start' + length out' <= 5)%nat ->
     (start' + length out' <= 2 \/ 2 + 2 <= start')%nat ->
     flex_trits_slice out' (length out') to' 5 start' (length out') =
     flex_trits_slice out' (length out') [0; 0; 0; 0; 1] 5 start' (length out')).
Proof. apply (flex_insert_slice [0; 0; 0; 0; 1] [1; -1] [0; 0] 2); cbn; lia. Defined.
