(* ===== verification/Sponge.v ===== *)
(** * The sponge interface

    What [common/crypto/sponge] and the signature scheme ask of a sponge
    function: a state with the operations [absorb], [squeeze] and [reset], and
    the laws under which the clients are verified.  [Curl] and [Kerl] are
    instances. *)
From S2P Require Import Prelude.

Definition HASH_LENGTH_TRIT : nat := 243.

Class Sponge (St : Type) := {
  sponge_ok : St -> Prop;
  regular : list Z -> Prop;
  absorb : St -> list Z -> St;
  squeeze : St -> nat -> list Z * St;
  reset : St -> St
}.

(** [regular] inputs are absorbed the same way in one call or in several.

    [reset] forgets everything that was absorbed or squeezed; a squeeze of a
    whole number of blocks fills its output with trits. *)
Class SpongeLaws (St : Type) `{Sponge St} := {
  absorb_ok s ts : sponge_ok s -> trits_ok ts -> sponge_ok (absorb s ts);
  squeeze_ok s n : sponge_ok s -> sponge_ok (squeeze s n).2;
  reset_ok s : sponge_ok s -> sponge_ok (reset s);
  squeeze_length s k : sponge_ok s ->
    length (squeeze s (k * HASH_LENGTH_TRIT)).1 = (k * HASH_LENGTH_TRIT)%nat;
  squeeze_trits s n : sponge_ok s -> trits_ok (squeeze s n).1;
  reset_absorb s ts : reset (absorb s ts) = reset s;
  reset_squeeze s n : reset (squeeze s n).2 = reset s;
  reset_reset s : reset (reset s) = reset s;
  absorb_app s k l1 l2 : length l1 = (k * HASH_LENGTH_TRIT)%nat -> regular l2 ->
    absorb s (l1 ++ l2) = absorb (absorb s l1) l2
}.

#[export] Hint Resolve absorb_ok squeeze_ok reset_ok squeeze_trits : iota.
#[export] Hint Rewrite @reset_absorb @reset_squeeze @reset_reset using typeclasses eauto : iota.

Section Hash.
Context {St : Type} `{SpongeLaws St}.

(** The recurrent composition of the clients: absorb, squeeze one hash, reset. *)
Definition hash_step (s : St) (ts : list Z) : list Z * St :=
  let s := absorb s ts in
  let '(out, s) := squeeze s HASH_LENGTH_TRIT in
  (out, reset s).

(** From a reset state the composition is a function of the input alone. *)
Definition hash_of (s : St) (ts : list Z) : list Z :=
  (squeeze (absorb (reset s) ts) HASH_LENGTH_TRIT).1.

Lemma hash_step_eq s ts : reset s = s -> hash_step s ts = (hash_of s ts, s).
Proof.
  intros E. unfold hash_step, hash_of.
  pose proof (reset_squeeze (absorb s ts) HASH_LENGTH_TRIT) as Er.
  rewrite reset_absorb, E in Er. rewrite E.
  by destruct (squeeze (absorb s ts) HASH_LENGTH_TRIT) as [out s']; cbn in *; rewrite Er.
Qed.

Lemma squeeze_length_1 s : sponge_ok s -> length (squeeze s HASH_LENGTH_TRIT).1 = HASH_LENGTH_TRIT.
Proof.
  intros Hs. pose proof (squeeze_length s 1 Hs) as Hl.
  by rewrite Nat.mul_1_l in Hl.
Qed.

Lemma length_hash_of s ts : sponge_ok s -> trits_ok ts -> length (hash_of s ts) = HASH_LENGTH_TRIT.
Proof. intros. apply squeeze_length_1. eauto with iota. Qed.

Lemma hash_of_ok s ts : sponge_ok s -> trits_ok ts -> trits_ok (hash_of s ts).
Proof. intros. unfold hash_of. eauto with iota. Qed.
End Hash.

#[export] Hint Resolve hash_of_ok : iota.
