(* ===== verification/Curl.v ===== *)
(** * Curl-P

    [common/crypto/curl-p]: the trit-wise sponge of [curl_p.c] with the tables of
    [const.c], and [curl_digest] of [digest.c].  The Curl state is an instance of
    the sponge interface. *)
From S2P Require Import Prelude Sponge.

Definition STATE_LENGTH : nat := 3 * HASH_LENGTH_TRIT.

Definition CURL_INDEX : list Z :=
  [0; 364; 728; 363; 727; 362; 726; 361; 725; 360; 724; 359; 723; 358; 722; 357; 721; 356; 720;
   355; 719; 354; 718; 353; 717; 352; 716; 351; 715; 350; 714; 349; 713; 348; 712; 347; 711;
   346; 710; 345; 709; 344; 708; 343; 707; 342; 706; 341; 705; 340; 704; 339; 703; 338; 702;
   337; 701; 336; 700; 335; 699; 334; 698; 333; 697; 332; 696; 331; 695; 330; 694; 329; 693;
   328; 692; 327; 691; 326; 690; 325; 689; 324; 688; 323; 687; 322; 686; 321; 685; 320; 684;
   319; 683; 318; 682; 317; 681; 316; 680; 315; 679; 314; 678; 313; 677; 312; 676; 311; 675;
   310; 674; 309; 673; 308; 672; 307; 671; 306; 670; 305; 669; 304; 668; 303; 667; 302; 666;
   301; 665; 300; 664; 299; 663; 298; 662; 297; 661; 296; 660; 295; 659; 294; 658; 293; 657;
   292; 656; 291; 655; 290; 654; 289; 653; 288; 652; 287; 651; 286; 650; 285; 649; 284; 648;
   283; 647; 282; 646; 281; 645; 280; 644; 279; 643; 278; 642; 277; 641; 276; 640; 275; 639;
   274; 638; 273; 637; 272; 636; 271; 635; 270; 634; 269; 633; 268; 632; 267; 631; 266; 630;
   265; 629; 264; 628; 263; 627; 262; 626; 261; 625; 260; 624; 259; 623; 258; 622; 257; 621;
   256; 620; 255; 619; 254; 618; 253; 617; 252; 616; 251; 615; 250; 614; 249; 613; 248; 612;
   247; 611; 246; 610; 245; 609; 244; 608; 243; 607; 242; 606; 241; 605; 240; 604; 239; 603;
   238; 602; 237; 601; 236; 600; 235; 599; 234; 598; 233; 597; 232; 596; 231; 595; 230; 594;
   229; 593; 228; 592; 227; 591; 226; 590; 225; 589; 224; 588; 223; 587; 222; 586; 221; 585;
   220; 584; 219; 583; 218; 582; 217; 581; 216; 580; 215; 579; 214; 578; 213; 577; 212; 576;
   211; 575; 210; 574; 209; 573; 208; 572; 207; 571; 206; 570; 205; 569; 204; 568; 203; 567;
   202; 566; 201; 565; 200; 564; 199; 563; 198; 562; 197; 561; 196; 560; 195; 559; 194; 558;
   193; 557; 192; 556; 191; 555; 190; 554; 189; 553; 188; 552; 187; 551; 186; 550; 185; 549;
   184; 548; 183; 547; 182; 546; 181; 545; 180; 544; 179; 543; 178; 542; 177; 541; 176; 540;
   175; 539; 174; 538; 173; 537; 172; 536; 171; 535; 170; 534; 169; 533; 168; 532; 167; 531;
   166; 530; 165; 529; 164; 528; 163; 527; 162; 526; 161; 525; 160; 524; 159; 523; 158; 522;
   157; 521; 156; 520; 155; 519; 154; 518; 153; 517; 152; 516; 151; 515; 150; 514; 149; 513;
   148; 512; 147; 511; 146; 510; 145; 509; 144; 508; 143; 507; 142; 506; 141; 505; 140; 504;
   139; 503; 138; 502; 137; 501; 136; 500; 135; 499; 134; 498; 133; 497; 132; 496; 131; 495;
   130; 494; 129; 493; 128; 492; 127; 491; 126; 490; 125; 489; 124; 488; 123; 487; 122; 486;
   121; 485; 120; 484; 119; 483; 118; 482; 117; 481; 116; 480; 115; 479; 114; 478; 113; 477;
   112; 476; 111; 475; 110; 474; 109; 473; 108; 472; 107; 471; 106; 470; 105; 469; 104; 468;
   103; 467; 102; 466; 101; 465; 100; 464; 99; 463; 98; 462; 97; 461; 96; 460; 95; 459; 94;
   458; 93; 457; 92; 456; 91; 455; 90; 454; 89; 453; 88; 452; 87; 451; 86; 450; 85; 449; 84;
   448; 83; 447; 82; 446; 81; 445; 80; 444; 79; 443; 78; 442; 77; 441; 76; 440; 75; 439; 74;
   438; 73; 437; 72; 436; 71; 435; 70; 434; 69; 433; 68; 432; 67; 431; 66; 430; 65; 429; 64;
   428; 63; 427; 62; 426; 61; 425; 60; 424; 59; 423; 58; 422; 57; 421; 56; 420; 55; 419; 54;
   418; 53; 417; 52; 416; 51; 415; 50; 414; 49; 413; 48; 412; 47; 411; 46; 410; 45; 409; 44;
   408; 43; 407; 42; 406; 41; 405; 40; 404; 39; 403; 38; 402; 37; 401; 36; 400; 35; 399; 34;
   398; 33; 397; 32; 396; 31; 395; 30; 394; 29; 393; 28; 392; 27; 391; 26; 390; 25; 389; 24;
   388; 23; 387; 22; 386; 21; 385; 20; 384; 19; 383; 18; 382; 17; 381; 16; 380; 15; 379; 14;
   378; 13; 377; 12; 376; 11; 375; 10; 374; 9; 373; 8; 372; 7; 371; 6; 370; 5; 369; 4; 368; 3;
   367; 2; 366; 1; 365; 0].

Definition TRUTH_TABLE : list Z := [1; 0; -1; 2; 1; -1; 0; 2; -1; 1; 0].

Inductive CurlType := CURL_P_27 | CURL_P_81.

Definition rounds (t : CurlType) : nat := match t with CURL_P_27 => 27 | CURL_P_81 => 81 end.

Record Curl := mkCurl { c_state : list Z; c_type : CurlType }.

(** [TRUTH_TABLE[a + ((unsigned)b << 2) + 5]], in unsigned arithmetic. *)
Definition sbox_trit (a b : Z) : Z :=
  nth (Z.to_nat (u32 (u32 (u32 a + u32 (Z.shiftl (u32 b) 2)) + 5))) TRUTH_TABLE 0.

(** The new state; the destination buffer is overwritten as a whole. *)
Definition sbox (s : list Z) : list Z :=
  map (fun i => sbox_trit (nth (Z.to_nat (nth i CURL_INDEX 0)) s 0)
                          (nth (Z.to_nat (nth (i + 1) CURL_INDEX 0)) s 0))
      (seq 0 STATE_LENGTH).

(** Two buffers, [ctx] and the local [s], written in turn. *)
Fixpoint transform_loop (n round : nat) (ctx s : list Z) : list Z * list Z :=
  match n with
  | O => (ctx, s)
  | S n =>
      if Nat.odd round then transform_loop n (S round) (sbox s) s
      else transform_loop n (S round) ctx (sbox ctx)
  end.

Definition transform (c : Curl) : Curl :=
  let n := rounds (c_type c) in
  let '(ctx, s) := transform_loop n 0 (c_state c) [] in
  mkCurl (if Nat.odd n then s else ctx) (c_type c).

Definition curl_init (c : Curl) : Curl := mkCurl (replicate STATE_LENGTH 0) (c_type c).

Definition curl_absorb (c : Curl) (trits : list Z) : Curl :=
  foldl (fun c block => transform (mkCurl (buf_write 0 block (c_state c)) (c_type c)))
    c (chunks HASH_LENGTH_TRIT trits).

Fixpoint curl_squeeze_loop (num_chunks : nat) (c : Curl) (length : nat) : list Z * Curl :=
  match num_chunks with
  | O => ([], c)
  | S n =>
      let out := take (if (length <? HASH_LENGTH_TRIT)%nat then length else HASH_LENGTH_TRIT) (c_state c) in
      let length := if (length <? HASH_LENGTH_TRIT)%nat then 0%nat else (length - HASH_LENGTH_TRIT)%nat in
      let '(rest, c) := curl_squeeze_loop n (transform c) length in
      (out ++ rest, c)
  end.

Definition curl_squeeze (c : Curl) (length : nat) : list Z * Curl :=
  let num_chunks := (length / HASH_LENGTH_TRIT +
    (if (length mod HASH_LENGTH_TRIT =? 0)%nat then 0 else 1))%nat in
  curl_squeeze_loop num_chunks c length.

Definition curl_reset (c : Curl) : Curl := mkCurl (replicate STATE_LENGTH 0) (c_type c).

Definition curl_digest (trits : list Z) (c : Curl) : list Z * Curl :=
  let c := curl_absorb c trits in
  curl_squeeze c HASH_LENGTH_TRIT.

(** * The permutation *)

Lemma CURL_INDEX_spec i : (i <= STATE_LENGTH)%nat ->
  nth i CURL_INDEX 0 = (364 * Z.of_nat i) mod Z.of_nat STATE_LENGTH.
Proof.
  intros Hi.
  assert (forallb (fun i => nth i CURL_INDEX 0 =? (364 * Z.of_nat i) mod Z.of_nat STATE_LENGTH)
            (seq 0 (S STATE_LENGTH)) = true) as H by (by vm_compute).
  rewrite forallb_forall in H. apply Z.eqb_eq, H, in_seq. lia.
Qed.

Lemma sbox_trit_ok a b : is_trit a -> is_trit b -> is_trit (sbox_trit a b).
Proof. intros. trit_cases; vm_compute; split; discriminate. Qed.

Lemma length_sbox s : length (sbox s) = STATE_LENGTH.
Proof. unfold sbox. by rewrite length_map, length_seq. Qed.

Lemma sbox_ok s : trits_ok s -> trits_ok (sbox s).
Proof.
  intros Hs. unfold sbox. apply List.Forall_map, List.Forall_forall. intros i _.
  apply sbox_trit_ok; by apply nth_trit.
Qed.

(** The ping-pong between the two buffers leaves the iterate of [sbox] in the
    buffer that the parity of the round count selects. *)
Lemma transform_loop_spec n round ctx s : 
  let r := transform_loop n round ctx s in
  (if Nat.odd (n + round) then r.2 else r.1) =
  Nat.iter n sbox (if Nat.odd round then s else ctx).
Proof.
  revert round ctx s. induction n as [|n IH]; intros round ctx s; cbv zeta; [done|].
  cbn [transform_loop]. rewrite Nat.iter_succ_r.
  replace (S n + round)%nat with (n + S round)%nat by lia.
  destruct (Nat.odd round) eqn:E; rewrite IH; f_equal; rewrite Nat.odd_succ, <- Nat.negb_odd, E; done.
Qed.

Lemma transform_iter c :
  transform c = mkCurl (Nat.iter (rounds (c_type c)) sbox (c_state c)) (c_type c).
Proof.
  unfold transform.
  pose proof (transform_loop_spec (rounds (c_type c)) 0 (c_state c) []) as H. cbv zeta in H.
  rewrite Nat.add_0_r in H. cbn [Nat.odd Nat.even negb] in H. rewrite <- H.
  by destruct (transform_loop _ _ _ _) as [ctx s].
Qed.

(** * The sponge laws *)

Definition curl_ok (c : Curl) : Prop := length (c_state c) = STATE_LENGTH /\ trits_ok (c_state c).

#[global] Instance curl_ok_dec c : Decision (curl_ok c).
Proof. unfold curl_ok. apply _. Defined.

Lemma transform_type c : c_type (transform c) = c_type c.
Proof. by rewrite transform_iter. Qed.

Lemma transform_ok c : curl_ok c -> curl_ok (transform c).
Proof.
  rewrite transform_iter. intros [Hl Ht]. unfold curl_ok. cbn [c_state].
  induction (rounds (c_type c)) as [|n [IHl IHt]]; [done|]. cbn [Nat.iter nat_rect].
  split; [apply length_sbox|by apply sbox_ok].
Qed.

Lemma curl_reset_ok c : curl_ok (curl_reset c).
Proof.
  split; cbn [c_state curl_reset]; [apply length_replicate|].
  apply Forall_replicate. unfold is_trit. lia.
Qed.

Lemma buf_write_ok off src buf : trits_ok src -> trits_ok buf -> trits_ok (buf_write off src buf).
Proof. intros. unfold buf_write. solve_forall. Qed.

Lemma curl_absorb_app k l1 l2 c : length l1 = (k * HASH_LENGTH_TRIT)%nat ->
  curl_absorb c (l1 ++ l2) = curl_absorb (curl_absorb c l1) l2.
Proof.
  intros Hl. unfold curl_absorb. rewrite (chunks_app _ k) by (done || (unfold HASH_LENGTH_TRIT; lia)).
  apply foldl_app.
Qed.

Lemma curl_absorb_ok c ts : curl_ok c -> trits_ok ts -> curl_ok (curl_absorb c ts).
Proof.
  intros Hc Hts. unfold curl_absorb.
  apply (foldl_inv _ (Forall is_trit) curl_ok); [|by apply Forall_chunks|done].
  intros c' block [Hl Ht] Hb. apply transform_ok. split; cbn [c_state].
  - by rewrite length_buf_write by lia.
  - by apply buf_write_ok.
Qed.

Lemma curl_absorb_type c ts : c_type (curl_absorb c ts) = c_type c.
Proof.
  unfold curl_absorb. revert c. induction (chunks HASH_LENGTH_TRIT ts) as [|b bs IH]; intros c; [done|].
  cbn [foldl]. rewrite IH. by rewrite transform_type.
Qed.

Lemma curl_squeeze_loop_type n c len : c_type (curl_squeeze_loop n c len).2 = c_type c.
Proof.
  revert c len. induction n as [|n IH]; intros c len; [done|]. cbn [curl_squeeze_loop].
  match goal with |- context [curl_squeeze_loop n ?a ?b] =>
    specialize (IH a b); destruct (curl_squeeze_loop n a b) end.
  cbn [snd] in *. by rewrite IH, transform_type.
Qed.

Lemma curl_squeeze_loop_ok n c len : curl_ok c ->
  trits_ok (curl_squeeze_loop n c len).1 /\ curl_ok (curl_squeeze_loop n c len).2.
Proof.
  revert c len. induction n as [|n IH]; intros c len Hc; [by split_and!|].
  cbn [curl_squeeze_loop].
  match goal with |- context [curl_squeeze_loop n ?a ?b] =>
    specialize (IH a b (transform_ok _ Hc)); destruct (curl_squeeze_loop n a b) as [rest c'] end.
  destruct IH as [Ht Ho]. split; cbn [fst snd] in *; [|done].
  apply Forall_app. split; [|done]. apply Forall_take, Hc.
Qed.

Lemma length_curl_squeeze_loop k c : curl_ok c ->
  length (curl_squeeze_loop k c (k * HASH_LENGTH_TRIT)).1 = (k * HASH_LENGTH_TRIT)%nat.
Proof.
  revert c. induction k as [|k IH]; intros c Hc; [done|]. cbn [curl_squeeze_loop].
  destruct (Nat.ltb_spec (S k * HASH_LENGTH_TRIT) HASH_LENGTH_TRIT) as [?|_]; [lia|].
  replace (S k * HASH_LENGTH_TRIT - HASH_LENGTH_TRIT)%nat with (k * HASH_LENGTH_TRIT)%nat by lia.
  specialize (IH _ (transform_ok _ Hc)). destruct (curl_squeeze_loop k _ _) as [rest c'].
  cbn [fst] in *. rewrite length_app, IH, length_take.
  destruct Hc as [-> _]. unfold STATE_LENGTH. lia.
Qed.

#[export] Instance curl_sponge : Sponge Curl := {
  sponge_ok := curl_ok; regular _ := True; absorb := curl_absorb; squeeze := curl_squeeze; reset := curl_reset }.

#[export] Instance curl_sponge_laws : SpongeLaws Curl.
Proof.
  split; cbn.
  - apply curl_absorb_ok.
  - intros. by apply curl_squeeze_loop_ok.
  - intros s _. apply curl_reset_ok.
  - intros s k Hs. unfold curl_squeeze.
    rewrite Nat.div_mul, Nat.Div0.mod_mul by (unfold HASH_LENGTH_TRIT; lia).
    cbn [Nat.eqb]. rewrite Nat.add_0_r. by apply length_curl_squeeze_loop.
  - intros. by apply curl_squeeze_loop_ok.
  - intros. unfold curl_reset. by rewrite curl_absorb_type.
  - intros s n. unfold curl_reset, curl_squeeze. by rewrite curl_squeeze_loop_type.
  - done.
  - intros. by apply (curl_absorb_app k).
Qed.

(** ** Constant states *)

Lemma nth_replicate_lt {A} n k (x d : A) : (k < n)%nat -> nth k (replicate n x) d = x.
Proof. intros. apply nth_lookup_Some. by apply lookup_replicate_2. Qed.

Lemma sbox_const t : sbox (replicate STATE_LENGTH t) = replicate STATE_LENGTH (sbox_trit t t).
Proof.
  apply (nth_ext _ _ 0 0); [by rewrite length_sbox, length_replicate|].
  intros n Hn. rewrite length_sbox in Hn. rewrite nth_replicate_lt by done.
  unfold sbox. rewrite nth_map_seq by done. rewrite !CURL_INDEX_spec by lia.
  assert (forall m, nth (Z.to_nat (m mod Z.of_nat STATE_LENGTH)) (replicate STATE_LENGTH t) 0 = t) as Hm.
  { intros m. apply nth_replicate_lt. pose proof (Z.mod_pos_bound m (Z.of_nat STATE_LENGTH) ltac:(done)). lia. }
  by rewrite !Hm.
Qed.

(** The constant states are permuted in a cycle of three, and the numbers of rounds
    are multiples of three. *)
Lemma transform_zero ty : transform (mkCurl (replicate STATE_LENGTH 0) ty) = mkCurl (replicate STATE_LENGTH 0) ty.
Proof.
  rewrite transform_iter. cbn [c_state c_type]. f_equal.
  assert (Nat.iter 3 sbox (replicate STATE_LENGTH 0) = replicate STATE_LENGTH 0) as H3.
  { cbn [Nat.iter nat_rect]. rewrite !sbox_const. reflexivity. }
  assert (exists k, rounds ty = (k * 3)%nat) as [k ->] by (destruct ty; [by exists 9%nat|by exists 27%nat]).
  induction k as [|k IH]; [done|]. replace (S k * 3)%nat with (k * 3 + 3)%nat by lia.
  by rewrite Nat.iter_add, H3.
Qed.
