(* ===== verification/BigInt.v ===== *)
(** * Multi-word integers

    Model of [common/crypto/kerl/bigint.c].  A number is an array of [uint32_t]
    words, least significant first; [bval] is the integer it denotes.  The
    arithmetic of [full_add] is the 64-bit arithmetic of the source. *)

From S2P Require Import Prelude.

Record full_add_s := { fa_carry : Z; fa_v : Z }.

Definition full_add (fa : full_add_s) (lh rh : Z) : full_add_s :=
  let v := u64 (lh + rh) in
  let hi := u32 (Z.shiftr v 32) in
  let fv := u32 (Z.land v 0xFFFFFFFF) in
  let carry1 := Z.b2z (negb (hi =? 0)) in
  if negb (fa_carry fa =? 0) then
    let v := u64 (fv + 1) in
    let hi := u32 (Z.shiftr v 32) in
    {| fa_carry := Z.b2z (negb (carry1 =? 0) || negb (hi =? 0)); fa_v := u32 (Z.land v 0xFFFFFFFF) |}
  else {| fa_carry := carry1; fa_v := fv |}.

Definition bigint_not (base : list Z) : list Z := map (fun w => u32 (Z.lnot w)) base.

(** The carry loop of [bigint_add_small]; [base] is the array from word [i] on.
    The source does not check the end of the array: running past it is
    undefined, and the model stops there. *)
Fixpoint bigint_add_small_loop (base : list Z) (i : nat) (fa : full_add_s) : nat * list Z :=
  if fa_carry fa =? 0 then (i, base) else
  match base with
  | [] => (i, [])
  | w :: base =>
      let fa := full_add fa w 0 in
      let '(i, base) := bigint_add_small_loop base (S i) fa in
      (i, fa_v fa :: base)
  end.

(** Returns the number of words visited and the updated array. *)
Definition bigint_add_small (base : list Z) (other : Z) : nat * list Z :=
  match base with
  | [] => (1%nat, [])
  | w :: base =>
      let fa := full_add {| fa_carry := 0; fa_v := 0 |} w other in
      let '(i, base) := bigint_add_small_loop base 1 fa in
      (i, fa_v fa :: base)
  end.

(** The common loop of [bigint_add] and [bigint_sub]: [len] is the length of
    [rh]; the carry out is what the [assert] of [bigint_sub] tests. *)
Fixpoint bigint_add_loop (f : Z -> Z) (base rh : list Z) (fa : full_add_s) : full_add_s * list Z :=
  match base, rh with
  | w :: base, r :: rh =>
      let fa := full_add fa w (f r) in
      let '(fa', base) := bigint_add_loop f base rh fa in
      (fa', fa_v fa :: base)
  | _, _ => (fa, base)
  end.

Definition bigint_add (base rh : list Z) : list Z :=
  (bigint_add_loop (fun r => r) base rh {| fa_carry := 0; fa_v := 0 |}).2.

(** Returns the asserted carry and the difference. *)
Definition bigint_sub (base rh : list Z) : bool * list Z :=
  let '(fa, base) := bigint_add_loop (fun r => u32 (Z.lnot r)) base rh {| fa_carry := 1; fa_v := 0 |} in
  (negb (fa_carry fa =? 0), base).

(** From the most significant word down. *)
Fixpoint bigint_cmp_loop (lh rh : list Z) : Z :=
  match lh, rh with
  | l :: lh, r :: rh =>
      if l <? r then -1 else if l >? r then 1 else bigint_cmp_loop lh rh
  | _, _ => 0
  end.

Definition bigint_cmp (lh rh : list Z) : Z := bigint_cmp_loop (rev lh) (rev rh).

(** * Values *)

Definition is_u32 (w : Z) : Prop := 0 <= w < 2 ^ 32.

#[global] Instance is_u32_dec w : Decision (is_u32 w).
Proof. unfold is_u32. apply _. Defined.

Abbreviation words_ok := (Forall is_u32).

Fixpoint bval (ws : list Z) : Z :=
  match ws with
  | [] => 0
  | w :: ws => w + 2 ^ 32 * bval ws
  end.

(** [2^(32 n)], the number of values of [n] words. *)
Definition wpow (n : nat) : Z := 2 ^ (32 * Z.of_nat n).

Lemma wpow_0 : wpow 0 = 1.
Proof. done. Qed.

Lemma wpow_S n : wpow (S n) = 2 ^ 32 * wpow n.
Proof. unfold wpow. rewrite <- Z.pow_add_r by lia. f_equal. lia. Qed.

Lemma wpow_pos n : 0 < wpow n.
Proof. apply Z.pow_pos_nonneg; lia. Qed.

Lemma wpow_add n m : wpow (n + m) = wpow n * wpow m.
Proof. unfold wpow. rewrite <- Z.pow_add_r by lia. f_equal. lia. Qed.

Lemma bval_bound ws : words_ok ws -> 0 <= bval ws < wpow (length ws).
Proof.
  induction 1 as [|w ws Hw _ IH]; cbn [bval length]; [by rewrite wpow_0|].
  rewrite wpow_S. unfold is_u32 in Hw. nia.
Qed.

Lemma bval_app l1 l2 : bval (l1 ++ l2) = bval l1 + wpow (length l1) * bval l2.
Proof.
  induction l1 as [|w l1 IH]; cbn [bval app length]; [rewrite wpow_0; lia|].
  rewrite IH, wpow_S. lia.
Qed.

Lemma bval_inj l1 l2 : words_ok l1 -> words_ok l2 -> length l1 = length l2 ->
  bval l1 = bval l2 -> l1 = l2.
Proof.
  intros H1. revert l2. induction H1 as [|w l1 Hw _ IH]; intros [|x l2] H2 Hl E;
    simpl in Hl; try lia; [done|].
  cbn [bval] in E. apply Forall_cons_iff in H2 as [Hx H2]. unfold is_u32 in *.
  assert (w = x /\ bval l1 = bval l2) as [-> E'] by (change (2 ^ 32) with 4294967296 in *; lia).
  f_equal. apply IH; (done || lia).
Qed.

Lemma bval_replicate_0 n : bval (replicate n 0) = 0.
Proof. induction n as [|n IH]; [done|]. cbn [replicate bval]. rewrite IH. lia. Qed.

Lemma bval_zeros ws : Forall (fun w => w = 0) ws -> bval ws = 0.
Proof. induction 1 as [|w ws -> _ IH]; [done|]. cbn [bval]. lia. Qed.

Lemma bval_eq_0 ws : words_ok ws -> bval ws = 0 -> Forall (fun w => w = 0) ws.
Proof.
  induction 1 as [|w ws Hw Hws IH]; intros E; [constructor|].
  cbn [bval] in E. pose proof (bval_bound ws Hws). unfold is_u32 in Hw.
  constructor; [lia|]. apply IH. lia.
Qed.

(** ** Word addition with carry *)

Definition is_bit (b : Z) : Prop := b = 0 \/ b = 1.

Lemma full_add_spec fa lh rh : is_bit (fa_carry fa) -> is_u32 lh -> is_u32 rh ->
  let r := full_add fa lh rh in
  is_bit (fa_carry r) /\ is_u32 (fa_v r) /\
  lh + rh + fa_carry fa = fa_v r + 2 ^ 32 * fa_carry r.
Proof.
  unfold is_u32, is_bit. intros Hc Hl Hr. change (2 ^ 32) with 4294967296 in *. cbv zeta.
  unfold full_add. change 0xFFFFFFFF with (Z.ones 32).
  rewrite !Z.land_ones, !Z.shiftr_div_pow2 by lia.
  rewrite (uwrap_small 64 (lh + rh)) by lia.
  assert (forall x, u32 (x mod 2 ^ 32) = x mod 2 ^ 32) as Hu.
  { intros. apply uwrap_small, Z.mod_pos_bound. lia. }
  rewrite !Hu. change (2 ^ 32) with 4294967296.
  pose proof (Z.mod_pos_bound (lh + rh) 4294967296 ltac:(lia)) as Hm.
  pose proof (Z.div_mod (lh + rh) 4294967296 ltac:(lia)) as Hd.
  set (m := (lh + rh) mod 4294967296) in *. set (q := (lh + rh) / 4294967296) in *.
  rewrite (uwrap_small 64 (m + 1)) by lia. rewrite (uwrap_small 32 q) by (change (2 ^ 32) with 4294967296; lia).
  assert (Hq : q = 0 \/ q = 1) by lia.
  destruct Hc as [->| ->]; cbn [negb Z.eqb fa_carry fa_v].
  - destruct Hq as [Hq|Hq]; rewrite Hq in *; cbn; lia.
  - pose proof (Z.mod_pos_bound (m + 1) 4294967296 ltac:(lia)) as Hm'.
    pose proof (Z.div_mod (m + 1) 4294967296 ltac:(lia)) as Hd'.
    set (m' := (m + 1) mod 4294967296) in *. set (q' := (m + 1) / 4294967296) in *.
    rewrite (uwrap_small 32 q') by (change (2 ^ 32) with 4294967296; lia).
    assert (Hq' : q' = 0 \/ q' = 1) by lia.
    destruct Hq as [Hq|Hq]; destruct Hq' as [Hq'|Hq']; rewrite Hq, Hq' in *; cbn; lia.
Qed.

Lemma lnot_u32 w : is_u32 w -> u32 (Z.lnot w) = 2 ^ 32 - 1 - w /\ is_u32 (u32 (Z.lnot w)).
Proof.
  unfold is_u32, Z.lnot. intros Hw.
  assert (u32 (Z.pred (- w)) = 2 ^ 32 - 1 - w) as ->.
  { unfold uwrap. replace (Z.pred (- w)) with ((2 ^ 32 - 1 - w) + (-1) * 2 ^ 32) by lia.
    rewrite Z.mod_add by lia. apply Z.mod_small. lia. }
  lia.
Qed.

(** ** The operations *)

Lemma bigint_not_spec ws : words_ok ws ->
  words_ok (bigint_not ws) /\ length (bigint_not ws) = length ws /\
  bval (bigint_not ws) = wpow (length ws) - 1 - bval ws.
Proof.
  induction 1 as [|w ws Hw _ (IH1 & IH2 & IH3)]; [done|].
  destruct (lnot_u32 w Hw) as [E Hu]. unfold bigint_not in *. cbn [map length bval].
  split_and!; [by constructor|by rewrite IH2|]. rewrite wpow_S, E, IH3. lia.
Qed.

Lemma bigint_add_loop_spec f base : forall rh fa, words_ok base -> words_ok rh ->
  length base = length rh -> is_bit (fa_carry fa) ->
  (forall r, is_u32 r -> is_u32 (f r)) ->
  let '(fa', base') := bigint_add_loop f base rh fa in
  is_bit (fa_carry fa') /\ words_ok base' /\ length base' = length base /\
  bval base + bval (map f rh) + fa_carry fa = bval base' + wpow (length base) * fa_carry fa'.
Proof.
  induction base as [|w base IH]; intros [|r rh] fa Hb Hr Hl Hc Hf; simpl in Hl; try lia.
  - cbn [bigint_add_loop bval map length]. rewrite wpow_0. split_and!; (done || lia).
  - cbn [bigint_add_loop]. inv_trits.
    destruct (full_add_spec fa w (f r)) as (Hc' & Hv & E); [done|done|by apply Hf|].
    set (fa1 := full_add fa w (f r)) in *.
    specialize (IH rh fa1 ltac:(done) ltac:(done) ltac:(lia) Hc' Hf).
    destruct (bigint_add_loop f base rh fa1) as [fa' base'].
    destruct IH as (Hc'' & Hok & Hlen & E').
    split_and!; [done|by constructor|simpl; lia|].
    cbn [bval map length]. rewrite wpow_S. lia.
Qed.

Lemma bigint_add_spec base rh : words_ok base -> words_ok rh -> length base = length rh ->
  words_ok (bigint_add base rh) /\ length (bigint_add base rh) = length base /\
  bval (bigint_add base rh) = (bval base + bval rh) mod wpow (length base).
Proof.
  intros Hb Hr Hl. unfold bigint_add.
  pose proof (bigint_add_loop_spec (fun r => r) base rh {| fa_carry := 0; fa_v := 0 |} Hb Hr Hl
    ltac:(by left) ltac:(done)) as H.
  destruct (bigint_add_loop _ base rh _) as [fa base']. destruct H as (Hc & Hok & Hlen & E).
  cbn [snd fa_carry] in *. split_and!; [done|done|]. rewrite map_id in E.
  pose proof (bval_bound base' Hok). rewrite Hlen in *.
  apply (Z.mod_unique_pos _ _ (fa_carry fa)); lia.
Qed.

(** The carry that is asserted is set exactly when nothing was borrowed. *)
Lemma bigint_sub_spec base rh : words_ok base -> words_ok rh -> length base = length rh ->
  let '(carry, base') := bigint_sub base rh in
  words_ok base' /\ length base' = length base /\
  carry = (bval rh <=? bval base) /\
  bval base' = (bval base - bval rh) mod wpow (length base).
Proof.
  intros Hb Hr Hl. unfold bigint_sub.
  pose proof (bigint_add_loop_spec (fun r => u32 (Z.lnot r)) base rh {| fa_carry := 1; fa_v := 0 |}
    Hb Hr Hl ltac:(by right) ltac:(intros; by apply lnot_u32)) as H.
  destruct (bigint_add_loop _ base rh _) as [fa base']. destruct H as (Hc & Hok & Hlen & E).
  fold (bigint_not rh) in E. destruct (bigint_not_spec rh Hr) as (_ & _ & En).
  rewrite En, <- Hl in E. cbn [fa_carry] in E.
  pose proof (bval_bound base' Hok). pose proof (bval_bound base Hb). pose proof (bval_bound rh Hr).
  rewrite Hlen, <- ?Hl in *. split_and!; [done|done| |].
  - destruct Hc as [Hc|Hc]; rewrite Hc in *; destruct (Z.leb_spec (bval rh) (bval base)); cbn; lia.
  - apply (Z.mod_unique_pos _ _ (fa_carry fa - 1)); lia.
Qed.

Lemma bigint_add_small_loop_spec base : forall i fa, words_ok base -> is_bit (fa_carry fa) ->
  bval base + fa_carry fa < wpow (length base) ->
  let '(i', base') := bigint_add_small_loop base i fa in
  words_ok base' /\ length base' = length base /\ bval base' = bval base + fa_carry fa /\
  (i <= i' <= i + length base)%nat /\ drop (i' - i) base' = drop (i' - i) base.
Proof.
  induction base as [|w base IH]; intros i fa Hb Hc Hlt; cbn [bigint_add_small_loop];
    (destruct (Z.eqb_spec (fa_carry fa) 0) as [E0|E0];
      [rewrite E0; split_and!; (done || lia)|]).
  - cbn [length bval] in Hlt. rewrite wpow_0 in Hlt. unfold is_bit in Hc. lia.
  - inv_trits.
    destruct (full_add_spec fa w 0) as (Hc' & Hv & E); [done|done|done|].
    set (fa1 := full_add fa w 0) in *.
    cbn [bval length] in Hlt. rewrite wpow_S in Hlt.
    assert (bval base + fa_carry fa1 < wpow (length base)) as Hlt'.
    { unfold is_u32 in *. change (2 ^ 32) with 4294967296 in *. lia. }
    specialize (IH (S i) fa1 ltac:(done) Hc' Hlt').
    destruct (bigint_add_small_loop base (S i) fa1) as [i' base'].
    destruct IH as (Hok & Hlen & Hval & Hi & Hdrop).
    split_and!; [by constructor|simpl; lia|cbn [bval]; lia|simpl; lia..|].
    replace (i' - i)%nat with (S (i' - S i)) by lia. exact Hdrop.
Qed.

(** Without overflow, the sum is exact and the words that were not visited are
    unchanged. *)
Lemma bigint_add_small_spec base other : words_ok base -> is_u32 other -> base <> [] ->
  bval base + other < wpow (length base) ->
  let '(i, base') := bigint_add_small base other in
  words_ok base' /\ length base' = length base /\ bval base' = bval base + other /\
  (1 <= i <= length base)%nat /\ drop i base' = drop i base.
Proof.
  intros Hb Ho Hne Hlt. destruct base as [|w base]; [done|]. unfold bigint_add_small. inv_trits.
  destruct (full_add_spec {| fa_carry := 0; fa_v := 0 |} w other) as (Hc' & Hv & E); [by left|done|done|].
  set (fa1 := full_add _ w other) in *. cbn [fa_carry] in E.
  cbn [bval length] in Hlt. rewrite wpow_S in Hlt.
  pose proof (bigint_add_small_loop_spec base 1 fa1 ltac:(done) Hc') as IH.
  destruct (bigint_add_small_loop base 1 fa1) as [i' base'].
  destruct IH as (Hok & Hlen & Hval & Hi & Hdrop).
  { unfold is_u32 in *. change (2 ^ 32) with 4294967296 in *. lia. }
  split_and!; [by constructor|simpl; lia|cbn [bval]; lia|simpl; lia..|].
  replace i' with (S (i' - 1)) by lia. exact Hdrop.
Qed.

Lemma bigint_cmp_snoc l1 l2 a b : bigint_cmp (l1 ++ [a]) (l2 ++ [b]) =
  if a <? b then -1 else if a >? b then 1 else bigint_cmp l1 l2.
Proof. unfold bigint_cmp. by rewrite !rev_unit. Qed.

Lemma bigint_cmp_spec l1 : forall l2, words_ok l1 -> words_ok l2 -> length l1 = length l2 ->
  bigint_cmp l1 l2 = Z.sgn (bval l1 - bval l2).
Proof.
  induction l1 as [|a l1 IH] using rev_ind; intros l2 H1 H2 Hl.
  - by destruct l2.
  - destruct l2 as [|b l2 _] using rev_ind; [rewrite length_app in Hl; simpl in Hl; lia|].
    rewrite !length_app in Hl. simpl in Hl. inv_trits.
    rewrite bigint_cmp_snoc, IH by (done || lia). rewrite !bval_app. cbn [bval].
    replace (length l2) with (length l1) by lia.
    pose proof (bval_bound l1 ltac:(done)). pose proof (bval_bound l2 ltac:(done)).
    replace (length l2) with (length l1) in * by lia.
    destruct (Z.ltb_spec a b); [|destruct (Z.gtb_spec a b)].
    + symmetry. apply Z.sgn_neg. nia.
    + symmetry. apply Z.sgn_pos. nia.
    + replace b with a by lia. f_equal. lia.
Qed.
