(* ===== verification/Kerl.v ===== *)
(** * Kerl

    Model of [common/crypto/kerl/converter.c], [kerl.c] and [hash.c] on a
    little-endian machine, where [(uint32_t* ) bytes] reads four bytes, least
    significant first.  The Keccak sponge is a third-party library: it is a
    parameter of the model. *)

From S2P Require Import Prelude Sponge Trits TritLong BigInt.

Definition INT_LEN : nat := 12.
Definition BYTE_LEN : nat := 48.
Definition TRIT_LEN : nat := 243.

Definition HALF_3 : list Z :=
  [0xa5ce8964; 0x9f007669; 0x1484504f; 0x3ade00d9; 0x0c24486e; 0x50979d57;
   0x79a4c702; 0x48bbae36; 0xa9f6808b; 0xaa06a805; 0xa87fabdf; 0x5e69ebef].

(** ** The two views of a buffer *)

Definition word_bytes (w : Z) : list Z :=
  [u8 w; u8 (Z.shiftr w 8); u8 (Z.shiftr w 16); u8 (Z.shiftr w 24)].

Definition word_of_bytes (bs : list Z) : Z :=
  nth 0 bs 0 + 2 ^ 8 * nth 1 bs 0 + 2 ^ 16 * nth 2 bs 0 + 2 ^ 24 * nth 3 bs 0.

Definition bytes_of_words (ws : list Z) : list Z := concat (map word_bytes ws).
Definition words_of_bytes (bs : list Z) : list Z := map word_of_bytes (chunks 4 bs).

Definition is_null (base : list Z) : bool := forallb (fun w => w =? 0) base.

(** [for (i = 0; i < 24; i++)] swap [bytes[i]] and [bytes[48 - i - 1]]. *)
Fixpoint space_reverse_loop (n i : nat) (bytes : list Z) : list Z :=
  match n with
  | O => bytes
  | S n =>
      let tmp := nth i bytes 0 in
      let bytes := <[i := nth (BYTE_LEN - i - 1) bytes 0]> bytes in
      space_reverse_loop n (S i) (<[(BYTE_LEN - i - 1)%nat := tmp]> bytes)
  end.

Definition space_reverse (bytes : list Z) : list Z := space_reverse_loop 24 0 bytes.

(** ** Trits to bytes *)

(** Multiplication of the first [sz] words by the radix. *)
Fixpoint mul_radix (sz : nat) (base : list Z) (carry : Z) : Z * list Z :=
  match sz, base with
  | S sz, w :: base =>
      let v := u64 (u64 (w * RADIX) + carry) in
      let '(carry, base) := mul_radix sz base (u32 (Z.shiftr v 32)) in
      (carry, u32 (Z.land v 0xFFFFFFFF) :: base)
  | _, _ => (carry, base)
  end.

(** Multiply by the radix: the state is [size] and the words; a carry out of the
    words in use opens a new word. *)
Definition convert_mul (st : nat * list Z) : nat * list Z :=
  let '(size, base) := st in
  let sz := size in
  let '(carry, base) := mul_radix sz base 0 in
  if negb (carry =? 0) then (S size, <[sz := carry]> base) else (size, base).

(** One iteration over the trits. *)
Definition convert_step (trit : Z) (st : nat * list Z) : nat * list Z :=
  let '(size, base) := convert_mul st in
  let '(sz, base) := bigint_add_small base (u32 (trit + 1)) in
  (if (size <? sz)%nat then sz else size, base).

(** [bytes] is the caller's buffer: [memset(base, 0, INT_LEN)] clears twelve of
    its 48 bytes, so that nine words keep what the buffer held. *)
Definition convert_trits_to_bytes (trits bytes : list Z) : list Z :=
  let base := words_of_bytes (buf_write 0 (replicate INT_LEN 0) bytes) in
  let digits := take (TRIT_LEN - 1) trits in
  let base :=
    if forallb (fun t => t =? -1) digits then
      (bigint_add_small (bigint_not HALF_3) 1).2
    else
      let '(_, base) := foldr convert_step (1%nat, base) digits in
      if is_null base then base
      else if bigint_cmp HALF_3 base <=? 0 then (bigint_sub base HALF_3).2
      else (bigint_add_small (bigint_not (bigint_sub HALF_3 base).2) 1).2 in
  space_reverse (bytes_of_words base).

(** ** Bytes to trits *)

(** Division by the radix, from the most significant word down. *)
Fixpoint div_radix (base : list Z) : Z * list Z :=
  match base with
  | [] => (0, [])
  | w :: base =>
      let '(rem, base) := div_radix base in
      let lhs := Z.lor (u64 (Z.shiftl rem 32)) w in
      (u32 (lhs mod RADIX), u32 (lhs / RADIX) :: base)
  end.

Fixpoint digits_loop (n : nat) (base : list Z) : list Z :=
  match n with
  | O => []
  | S n => let '(rem, base) := div_radix base in i8 (u8 rem - 1) :: digits_loop n base
  end.

Definition convert_bytes_to_trits (bytes : list Z) : list Z :=
  if is_null (words_of_bytes bytes) then replicate TRIT_LEN 0 else
  let base := words_of_bytes (space_reverse bytes) in
  let '(base, flip_trits) :=
    if Z.shiftr (nth (INT_LEN - 1) base 0) 31 =? 0 then (bigint_add base HALF_3, false)
    else
      let base := bigint_not base in
      if bigint_cmp base HALF_3 >? 0 then ((bigint_sub base HALF_3).2, true)
      else ((bigint_sub HALF_3 (bigint_add_small base 1).2).2, false) in
  let trits := digits_loop (TRIT_LEN - 1) base in
  let trits := if flip_trits then map (fun t => i8 (- t)) trits else trits in
  trits ++ [0].

(** ** The sponge *)

Section Keccak.
(** The Keccak instance of the library: its state, [Keccak_HashInitialize] with
    the parameters of [kerl_init], [Keccak_HashUpdate] of 48 bytes and
    [Keccak_HashSqueeze] of 48 bytes. *)
Context {keccak : Type} (keccak_init : keccak)
  (keccak_update : keccak -> list Z -> keccak) (keccak_squeeze : keccak -> list Z * keccak).

(** The contents of the stack buffer [bytes] when [kerl_absorb] is entered. *)
Context (stack : list Z).

Definition kerl_init : keccak := keccak_init.

(** One iteration: the buffer [bytes] keeps its contents between the blocks. *)
Definition absorb_step (st : keccak * list Z) (block : list Z) : keccak * list Z :=
  let '(ctx, bytes) := st in
  let bytes := convert_trits_to_bytes block bytes in (keccak_update ctx bytes, bytes).

Definition kerl_absorb (ctx : keccak) (trits : list Z) : keccak :=
  (foldl absorb_step (ctx, stack) (chunks HASH_LENGTH_TRIT trits)).1.

(** [n] blocks of 243 trits: the C function is called with [length = 243 n]. *)
Fixpoint kerl_squeeze (ctx : keccak) (n : nat) : list Z * keccak :=
  match n with
  | O => ([], ctx)
  | S n =>
      let '(bytes, ctx) := keccak_squeeze ctx in
      let trits := convert_bytes_to_trits bytes in
      let bytes := bytes_of_words (map (fun w => Z.lxor w 0xFFFFFFFF) (words_of_bytes bytes)) in
      let ctx := keccak_update kerl_init bytes in
      let '(rest, ctx) := kerl_squeeze ctx n in
      (trits ++ rest, ctx)
  end.

Definition kerl_reset (ctx : keccak) : keccak := kerl_init.

Definition kerl_hash (trits : list Z) : list Z * keccak :=
  kerl_squeeze (kerl_absorb kerl_init trits) 1.
End Keccak.

(** * Bytes and words *)

Definition is_u8 (b : Z) : Prop := 0 <= b < 2 ^ 8.

#[global] Instance is_u8_dec b : Decision (is_u8 b).
Proof. unfold is_u8. apply _. Defined.

Abbreviation octets_ok := (Forall is_u8).

(** Little-endian and big-endian value of a sequence of bytes. *)
Fixpoint le_value (bs : list Z) : Z :=
  match bs with
  | [] => 0
  | b :: bs => b + 2 ^ 8 * le_value bs
  end.

Definition be_value (bs : list Z) : Z := le_value (rev bs).

Lemma word_bytes_ok w : octets_ok (word_bytes w).
Proof. repeat constructor; apply (Z.mod_pos_bound _ (2 ^ 8)); lia. Qed.

Lemma word_bytes_value w : is_u32 w ->
  word_of_bytes (word_bytes w) = w.
Proof.
  unfold is_u32, word_of_bytes, word_bytes, uwrap. cbn [nth]. intros Hw.
  rewrite !Z.shiftr_div_pow2 by lia.
  change (2 ^ 32) with 4294967296 in *. change (2 ^ 24) with 16777216.
  change (2 ^ 16) with 65536. change (2 ^ 8) with 256.
  replace (w / 65536) with (w / 256 / 256) by (rewrite Z.div_div by lia; done).
  replace (w / 16777216) with (w / 256 / 256 / 256) by (rewrite !Z.div_div by lia; done).
  pose proof (Z.div_mod w 256 ltac:(lia)). set (q1 := w / 256) in *.
  pose proof (Z.div_mod q1 256 ltac:(lia)). set (q2 := q1 / 256) in *.
  pose proof (Z.div_mod q2 256 ltac:(lia)). set (q3 := q2 / 256) in *.
  pose proof (Z.mod_pos_bound w 256 ltac:(lia)). pose proof (Z.mod_pos_bound q1 256 ltac:(lia)).
  pose proof (Z.mod_pos_bound q2 256 ltac:(lia)).
  rewrite (Z.mod_small q3) by lia. lia.
Qed.

Lemma word_of_bytes_ok a b c d : is_u8 a -> is_u8 b -> is_u8 c -> is_u8 d ->
  is_u32 (word_of_bytes [a; b; c; d]) /\
  word_of_bytes [a; b; c; d] = le_value [a; b; c; d].
Proof.
  unfold is_u8, is_u32, word_of_bytes. cbn [nth le_value].
  change (2 ^ 32) with 4294967296. change (2 ^ 24) with 16777216.
  change (2 ^ 16) with 65536. change (2 ^ 8) with 256. lia.
Qed.

Lemma le_value_app l1 l2 : le_value (l1 ++ l2) = le_value l1 + 2 ^ (8 * Z.of_nat (length l1)) * le_value l2.
Proof.
  induction l1 as [|b l1 IH]; cbn [le_value app length]; [lia|].
  rewrite IH, Nat2Z.inj_succ, Z.mul_succ_r, (Z.pow_add_r 2 _ 8) by lia. lia.
Qed.

Lemma le_value_nonneg bs : octets_ok bs -> 0 <= le_value bs.
Proof. induction 1 as [|b bs Hb _ IH]; cbn [le_value]; unfold is_u8 in *; lia. Qed.

Lemma le_value_0 bs : octets_ok bs -> le_value bs = 0 <-> Forall (fun b => b = 0) bs.
Proof.
  induction 1 as [|b bs Hb Hbs IH]; cbn [le_value]; [done|].
  rewrite Forall_cons_iff, <- IH. pose proof (le_value_nonneg bs Hbs). unfold is_u8 in *. lia.
Qed.

(** The words that four bytes at a time form. *)
Lemma words_of_bytes_spec n : forall bs, octets_ok bs -> length bs = (4 * n)%nat ->
  words_ok (words_of_bytes bs) /\ length (words_of_bytes bs) = n /\
  bval (words_of_bytes bs) = le_value bs.
Proof.
  induction n as [|n IH]; intros bs Hb Hl.
  - destruct bs; [done|simpl in Hl; lia].
  - do 4 (destruct bs as [|? bs]; [simpl in Hl; lia|]). inv_trits.
    unfold words_of_bytes. change (z :: z0 :: z1 :: z2 :: bs) with ([z; z0; z1; z2] ++ bs).
    rewrite chunks_app_exact by (done || lia). cbn [map].
    destruct (IH bs ltac:(done)) as (Hok & Hlen & Hv); [simpl in Hl; lia|].
    unfold words_of_bytes in *.
    destruct (word_of_bytes_ok z z0 z1 z2) as [Hw E]; [done..|].
    split_and!; [by constructor|simpl; lia|]. cbn [bval]. rewrite E, Hv. cbn [le_value app].
    change (2 ^ 32) with 4294967296. change (2 ^ 8) with 256. lia.
Qed.

Lemma words_of_bytes_of_words ws : words_ok ws ->
  octets_ok (bytes_of_words ws) /\ length (bytes_of_words ws) = (4 * length ws)%nat /\
  words_of_bytes (bytes_of_words ws) = ws.
Proof.
  induction 1 as [|w ws Hw _ (IH1 & IH2 & IH3)]; [done|].
  unfold bytes_of_words, words_of_bytes in *. cbn [map concat]. split_and!.
  - apply Forall_app. split; [apply word_bytes_ok|done].
  - rewrite length_app, IH2. simpl. lia.
  - rewrite chunks_app_exact by (done || lia). cbn [map]. by rewrite word_bytes_value, IH3.
Qed.

Lemma le_value_bytes_of_words ws : words_ok ws -> le_value (bytes_of_words ws) = bval ws.
Proof.
  intros Hw. destruct (words_of_bytes_of_words ws Hw) as (Hok & Hl & E).
  destruct (words_of_bytes_spec (length ws) (bytes_of_words ws)) as (_ & _ & Hv); [done..|].
  by rewrite <- Hv, E.
Qed.

Lemma space_reverse_rev bs : length bs = BYTE_LEN -> space_reverse bs = rev bs.
Proof.
  unfold BYTE_LEN. intros Hl.
  do 48 (destruct bs as [|? bs]; [simpl in Hl; lia|]).
  destruct bs; [|simpl in Hl; lia]. reflexivity.
Qed.

Lemma is_null_spec ws : words_ok ws -> is_null ws = (bval ws =? 0).
Proof.
  intros Hw. destruct (Z.eqb_spec (bval ws) 0) as [E|E].
  - apply bval_eq_0 in E; [|done]. unfold is_null. rewrite forallb_forall.
    rewrite Forall_forall in E. intros x Hx. by rewrite (E x Hx).
  - apply not_true_is_false. intros Hn. apply E, bval_zeros.
    unfold is_null in Hn. rewrite forallb_forall in Hn. rewrite Forall_forall.
    intros x Hx. by apply Z.eqb_eq, Hn.
Qed.

(** * Trits to bytes *)

Lemma HALF_3_spec : words_ok HALF_3 /\ length HALF_3 = 12%nat /\ bval HALF_3 = rep_max 242.
Proof. split_and!; [closed_decide|done|vm_compute; done]. Qed.

Lemma half_3_bounds : 2 * rep_max 242 + 1 = 3 ^ 242 /\ 0 < rep_max 242 /\ 3 ^ 242 < wpow 12 /\
  wpow 12 = 2 ^ 384.
Proof. vm_compute. done. Qed.

Lemma mul_radix_spec sz : forall base carry, words_ok base -> 0 <= carry <= 2 -> (sz <= length base)%nat ->
  let '(carry', base') := mul_radix sz base carry in
  0 <= carry' <= 2 /\ words_ok base' /\ length base' = length base /\ drop sz base' = drop sz base /\
  bval (take sz base) * 3 + carry = bval (take sz base') + wpow sz * carry'.
Proof.
  induction sz as [|sz IH]; intros base carry Hb Hc Hl.
  - cbn [mul_radix]. rewrite !take_0, wpow_0. cbn [bval]. split_and!; (done || lia).
  - destruct base as [|w base]; [simpl in Hl; lia|]. inv_trits. cbn [mul_radix].
    unfold is_u32, RADIX in *. change (2 ^ 32) with 4294967296 in *.
    rewrite (uwrap_small 64 (w * 3)), (uwrap_small 64 (w * 3 + carry)) by lia.
    change 0xFFFFFFFF with (Z.ones 32). rewrite Z.land_ones, Z.shiftr_div_pow2 by lia.
    change (2 ^ 32) with 4294967296.
    pose proof (Z.mod_pos_bound (w * 3 + carry) 4294967296 ltac:(lia)) as Hm.
    pose proof (Z.div_mod (w * 3 + carry) 4294967296 ltac:(lia)) as Hd.
    set (m := (w * 3 + carry) mod 4294967296) in *. set (q := (w * 3 + carry) / 4294967296) in *.
    rewrite (uwrap_small 32 q), (uwrap_small 32 m) by (change (2 ^ 32) with 4294967296; lia).
    specialize (IH base q ltac:(done) ltac:(lia) ltac:(simpl in Hl; lia)).
    destruct (mul_radix sz base q) as [carry' base'].
    destruct IH as (Hc' & Hok & Hlen & Hdrop & E).
    split_and!; [lia|lia|by constructor|simpl; lia|done|].
    cbn [take bval]. rewrite wpow_S. change (2 ^ 32) with 4294967296. lia.
Qed.

(** The invariant of the conversion loop: the words denote the number read so
    far and those from [size] on are zero. *)
Definition conv_inv (st : nat * list Z) (x : Z) : Prop :=
  words_ok st.2 /\ length st.2 = 12%nat /\ bval st.2 = x /\ (1 <= st.1 <= 12)%nat /\
  Forall (fun w => w = 0) (drop st.1 st.2).

Lemma bval_take_drop n ws : (n <= length ws)%nat ->
  bval ws = bval (take n ws) + wpow n * bval (drop n ws).
Proof.
  intros Hn. rewrite <- (take_drop n ws) at 1. rewrite bval_app, length_take.
  by rewrite Nat.min_l by lia.
Qed.

Lemma conv_mul st x : conv_inv st x -> 3 * x < wpow 12 -> conv_inv (convert_mul st) (3 * x).
Proof.
  destruct st as [size base]. intros (Hw & Hl & Hx & H1 & Hz) Hlt. cbn [fst snd] in *.
  unfold convert_mul. pose proof (mul_radix_spec size base 0 Hw ltac:(lia) ltac:(lia)) as Hm.
  destruct (mul_radix size base 0) as [carry base1]. destruct Hm as (Hc & Hw1 & Hl1 & Hd1 & E1).
  rewrite (bval_take_drop size base), (bval_zeros (drop size base)) in Hx by (done || lia).
  destruct (Z.eqb_spec carry 0) as [->|Hne]; cbn [negb].
  - split_and!; cbn [fst snd]; [done|lia| |lia|lia|by rewrite Hd1].
    rewrite (bval_take_drop size base1), Hd1, (bval_zeros (drop size base)) by (done || lia). lia.
  - assert (size < 12)%nat as Hs.
    { destruct (decide (size = 12%nat)) as [->|]; [exfalso|lia].
      assert (0 <= bval (take 12 base1)) by (apply bval_bound; by apply Forall_take).
      pose proof (wpow_pos 12). nia. }
    assert (drop (S size) base1 = drop (S size) base) as Hd2 by (by apply (drop_eq_le size); [lia|]).
    assert (Forall (fun w => w = 0) (drop (S size) base)) as Hz2 by (by apply (Forall_drop_le _ size); [lia|]).
    split_and!; cbn [fst snd]; [|by rewrite length_insert; lia| |lia|lia|].
    + apply Forall_insert; [done|]. unfold is_u32. lia.
    + rewrite insert_take_drop by lia. rewrite bval_app, length_take, Nat.min_l by lia.
      cbn [bval]. rewrite Hd2, (bval_zeros (drop (S size) base)) by done. lia.
    + by rewrite drop_insert_lt, Hd2 by lia.
Qed.

Lemma conv_step st x t : conv_inv st x -> is_trit t -> 3 * x + (t + 1) < wpow 12 ->
  conv_inv (convert_step t st) (3 * x + (t + 1)).
Proof.
  intros Hinv Ht Hlt. unfold is_trit in Ht.
  destruct (conv_mul st x Hinv ltac:(lia)) as (Hw & Hl & Hx & H1 & Hz).
  unfold convert_step. destruct (convert_mul st) as [size base]. cbn [fst snd] in *.
  rewrite (uwrap_small 32 (t + 1)) by lia.
  pose proof (bigint_add_small_spec base (t + 1) Hw ltac:(unfold is_u32; lia)) as Ha.
  destruct (bigint_add_small base (t + 1)) as [i base'].
  destruct Ha as (Hw' & Hl' & Hx' & Hi & Hd); [by destruct base|rewrite Hl; lia|].
  destruct (Nat.ltb_spec size i) as [Hlt'|Hge]; split_and!; cbn [fst snd]; try done; try lia.
  - rewrite Hd. by apply (Forall_drop_le _ size); [lia|].
  - by rewrite (drop_eq_le i size base' base) by done.
Qed.

#[local] Opaque rep_max wpow.

(** The loop reads the number [sum (t_i + 1) 3^i]. *)
Lemma conv_loop ds : trits_ok ds -> (length ds <= 242)%nat ->
  conv_inv (foldr convert_step (1%nat, replicate 12 0) ds) (bal ds + rep_max (length ds)).
Proof.
  induction 1 as [|t ds Ht Hds IH]; intros Hl.
  - split_and!; cbn; [closed_decide|done|done|lia|lia|closed_decide].
  - simpl in Hl. cbn [foldr length bal]. rewrite rep_max_S.
    replace (t + 3 * bal ds + _) with (3 * (bal ds + rep_max (length ds)) + (t + 1)) by lia.
    apply conv_step; [apply IH; lia|done|].
    pose proof (bal_bound ds Hds). pose proof (rep_max_odd (length ds)).
    pose proof (rep_max_mono (S (length ds)) 242 ltac:(lia)) as Hm. rewrite rep_max_S in Hm.
    pose proof half_3_bounds. unfold is_trit in Ht. lia.
Qed.

Lemma cleared_buffer bytes : length bytes = BYTE_LEN -> Forall (fun b => b = 0) (drop 12 bytes) ->
  words_of_bytes (buf_write 0 (replicate INT_LEN 0) bytes) = replicate 12 0.
Proof.
  intros Hl Hz. assert (buf_write 0 (replicate INT_LEN 0) bytes = replicate 48 0) as ->; [|done].
  unfold buf_write, BYTE_LEN in *. rewrite Hl, take_0. cbn [app].
  rewrite take_ge by (rewrite length_replicate; unfold INT_LEN; lia).
  rewrite length_replicate. change (0 + INT_LEN)%nat with 12%nat.
  assert (drop 12 bytes = replicate 36 0) as ->; [|done].
  symmetry. apply replicate_as_Forall_2; [rewrite length_drop; lia|].
  eapply Forall_impl; [|exact Hz]. done.
Qed.

(** A number of 384 bits, read as two's complement. *)
Definition signed384 (x : Z) : Z := if x <? 2 ^ 383 then x else x - 2 ^ 384.

(** The words that the conversion ends with denote the trits, modulo [2^384]. *)
Lemma conv_final base ds : trits_ok ds -> length ds = 242%nat -> words_ok base -> length base = 12%nat ->
  bval base = bal ds + rep_max 242 ->
  let base' :=
    if is_null base then base
    else if bigint_cmp HALF_3 base <=? 0 then (bigint_sub base HALF_3).2
    else (bigint_add_small (bigint_not (bigint_sub HALF_3 base).2) 1).2 in
  words_ok base' /\ length base' = 12%nat /\
  (bval base <> 0 -> bval base' = bal ds mod 2 ^ 384).
Proof.
  intros Hds Hld Hw Hl Hx. destruct HALF_3_spec as (H3 & H3l & H3v).
  destruct half_3_bounds as (Hodd & Hpos & Hlt & Hw12).
  pose proof (bal_bound ds Hds) as Hb. rewrite Hld in Hb. change (Z.of_nat 242) with 242 in Hb.
  cbv zeta. rewrite is_null_spec by done.
  destruct (Z.eqb_spec (bval base) 0) as [E|E]; [split_and!; [assumption..|contradiction]|].
  rewrite bigint_cmp_spec, H3v by (done || lia).
  destruct (Z.leb_spec (Z.sgn (rep_max 242 - bval base)) 0) as [Hs|Hs].
  - pose proof (bigint_sub_spec base HALF_3 Hw H3 ltac:(lia)) as Hsub.
    destruct (bigint_sub base HALF_3) as [c base']. destruct Hsub as (? & ? & _ & Hv).
    rewrite Hl, Hw12, H3v in Hv. split_and!; [done|cbn; lia|]. intros _. cbn [snd].
    rewrite Hv, Hx. f_equal. lia.
  - assert (bal ds < 0) by (apply Z.sgn_pos_iff in Hs; lia).
    pose proof (bigint_sub_spec HALF_3 base H3 Hw ltac:(lia)) as Hsub.
    destruct (bigint_sub HALF_3 base) as [c diff]. destruct Hsub as (Hd & Hdl & _ & Hv). cbn [snd].
    rewrite H3l, Hw12, H3v, Hx, Z.mod_small in Hv by lia.
    destruct (bigint_not_spec diff Hd) as (Hn & Hnl & Hnv). rewrite Hdl, H3l in *.
    pose proof (bigint_add_small_spec (bigint_not diff) 1 Hn) as Ha.
    destruct (bigint_add_small (bigint_not diff) 1) as [i base']. cbn [snd].
    destruct Ha as (? & ? & Hv' & _);
      [closed_decide|intros En; by rewrite En in Hnl|rewrite Hnl; lia|].
    split_and!; [done|lia|]. intros _.
    rewrite Hv', Hnv, Hv, Hw12. apply (Z.mod_unique_pos _ _ (-1)); lia.
Qed.

(** Minus one everywhere: the number is [- rep_max 242]. *)
Lemma conv_all_minus_1 ds : length ds = 242%nat -> forallb (fun t => t =? -1) ds = true ->
  bal ds = - rep_max 242.
Proof.
  intros Hl H. assert (ds = replicate 242 (-1)) as ->; [|vm_compute; done].
  symmetry. apply replicate_as_Forall_2; [done|]. rewrite forallb_forall in H. rewrite Forall_forall.
  intros x Hx. apply H, Z.eqb_eq in Hx. done.
Qed.

Lemma trits_ok_not_min ds : trits_ok ds -> length ds = 242%nat ->
  forallb (fun t => t =? -1) ds = false -> bal ds + rep_max 242 <> 0.
Proof.
  intros Hds Hl H E. assert (ds = replicate 242 (-1)) as ->; [|done].
  apply bal_inj; [done|by apply Forall_replicate|by rewrite length_replicate|].
  assert (bal (replicate 242 (-1)) = - rep_max 242) as -> by (vm_compute; done). lia.
Qed.

(** From a cleared buffer, the 48 bytes are the big-endian two's complement of
    the number that the first 242 trits denote. *)
Lemma convert_trits_to_bytes_spec trits bytes : trits_ok trits -> length trits = TRIT_LEN ->
  length bytes = BYTE_LEN -> Forall (fun b => b = 0) (drop 12 bytes) ->
  let r := convert_trits_to_bytes trits bytes in
  octets_ok r /\ length r = BYTE_LEN /\ be_value r = bal (take 242 trits) mod 2 ^ 384.
Proof.
  intros Ht Hl Hb Hz. cbv zeta. unfold convert_trits_to_bytes, TRIT_LEN in *.
  change (243 - 1)%nat with 242%nat. rewrite cleared_buffer by done.
  assert (trits_ok (take 242 trits)) as Hds by (by apply Forall_take).
  assert (length (take 242 trits) = 242%nat) as Hld by (rewrite length_take; lia).
  set (ds := take 242 trits) in *. set (base := if forallb _ ds then _ else _).
  assert (words_ok base /\ length base = 12%nat /\ bval base = bal ds mod 2 ^ 384) as (Hw & Hwl & Hv).
  { subst base. destruct (forallb _ ds) eqn:Hall.
    - rewrite (conv_all_minus_1 ds Hld Hall). split_and!; [closed_decide|done|vm_compute; done].
    - pose proof (conv_loop ds Hds ltac:(lia)) as Hinv.
      destruct (foldr convert_step _ ds) as [size base]. destruct Hinv as (? & ? & Hx & _).
      cbn [snd] in *. rewrite Hld in Hx. change (Z.of_nat 242) with 242 in Hx.
      destruct (conv_final base ds) as (? & ? & Hv); [done..|].
      split_and!; [done|done|]. apply Hv. rewrite Hx. by apply trits_ok_not_min. }
  destruct (words_of_bytes_of_words base Hw) as (Ho & Hol & _).
  rewrite Hwl in Hol. rewrite space_reverse_rev by done. unfold be_value.
  rewrite rev_involutive, length_rev, le_value_bytes_of_words by done.
  split_and!; [by apply Forall_rev|done|done].
Qed.

(** * Bytes to trits *)

Lemma div_radix_spec ws : words_ok ws ->
  let '(rem, q) := div_radix ws in
  0 <= rem <= 2 /\ words_ok q /\ length q = length ws /\ bval ws = 3 * bval q + rem.
Proof.
  induction 1 as [|w ws Hw Hws IH]; cbn [div_radix].
  - cbn. split_and!; (done || lia || constructor).
  - destruct (div_radix ws) as [rem q]. destruct IH as (Hr & Hq & Hl & E).
    unfold is_u32, RADIX in *. change (2 ^ 32) with 4294967296 in *.
    assert (Z.lor (u64 (Z.shiftl rem 32)) w = rem * 4294967296 + w) as ->.
    { rewrite Z.shiftl_mul_pow2 by lia. change (2 ^ 32) with 4294967296.
      rewrite uwrap_small by lia. change 4294967296 with (2 ^ 32).
      rewrite <- Z.shiftl_mul_pow2, <- Z.add_lor_land by lia.
      assert (Z.land (Z.shiftl rem 32) w = 0) as ->; [|lia].
      apply Z.bits_inj'. intros n Hn. rewrite Z.land_spec, Z.bits_0, andb_false_iff.
      destruct (decide (n < 32)); [left; by apply Z.shiftl_spec_low|right].
      apply (Z.bits_above_log2 w n); [lia|].
      destruct (decide (w = 0)) as [->|]; [simpl; lia|]. apply Z.log2_lt_pow2; [lia|].
      apply (Z.lt_le_trans _ (2 ^ 32)); [lia|]. apply Z.pow_le_mono_r; lia. }
    pose proof (Z.mod_pos_bound (rem * 4294967296 + w) 3 ltac:(lia)).
    pose proof (Z.div_mod (rem * 4294967296 + w) 3 ltac:(lia)).
    set (m := (rem * 4294967296 + w) mod 3) in *. set (d := (rem * 4294967296 + w) / 3) in *.
    rewrite (uwrap_small 32 m), (uwrap_small 32 d) by (change (2 ^ 32) with 4294967296; lia).
    split_and!; [lia|lia| |simpl; lia|].
    + constructor; [|done]. unfold is_u32. change (2 ^ 32) with 4294967296. lia.
    + cbn [bval]. change (2 ^ 32) with 4294967296. lia.
Qed.

Lemma digits_loop_spec n : forall ws, words_ok ws ->
  let ts := digits_loop n ws in
  trits_ok ts /\ length ts = n /\
  exists k, bval ws = bal ts + rep_max n + 3 ^ Z.of_nat n * k.
Proof.
  induction n as [|n IH]; intros ws Hws; cbn [digits_loop].
  - split_and!; [constructor|done|]. exists (bval ws). change (rep_max 0) with 0. cbn [bal]. lia.
  - pose proof (div_radix_spec ws Hws) as Hd. destruct (div_radix ws) as [rem q].
    destruct Hd as (Hr & Hq & _ & E). destruct (IH q Hq) as (Hok & Hl & k & Hk).
    rewrite (uwrap_small 8 rem), swrap_small by lia. cbv zeta.
    split_and!; [constructor; [unfold is_trit; lia|done]|simpl; lia|].
    exists k. cbn [bal]. rewrite rep_max_S, pow3_S. lia.
Qed.

Lemma neg_trits ts : trits_ok ts ->
  let us := map (fun t => i8 (- t)) ts in
  trits_ok us /\ length us = length ts /\ bal us = - bal ts.
Proof.
  induction 1 as [|t ts Ht _ (IH1 & IH2 & IH3)]; [done|]. cbv zeta in *. cbn [map].
  unfold is_trit in Ht. rewrite swrap_small by lia.
  split_and!; [constructor; [unfold is_trit; lia|done]|simpl; lia|]. cbn [bal]. lia.
Qed.

(** The sign bit of twelve words. *)
Lemma sign_bit_spec ws : words_ok ws -> length ws = 12%nat ->
  (Z.shiftr (nth 11 ws 0) 31 =? 0) = (bval ws <? 2 ^ 383).
Proof.
  intros Hw Hl.
  assert (exists w, drop 11 ws = [w] /\ nth 11 ws 0 = w) as (w & Ed & ->).
  { clear Hw. do 11 (destruct ws as [|? ws]; [simpl in Hl; lia|]).
    destruct ws as [|w [|]]; simpl in Hl; try lia. by exists w. }
  pose proof (bval_take_drop 11 ws ltac:(lia)) as E. rewrite Ed in E. cbn [bval] in E.
  pose proof (bval_bound (take 11 ws) ltac:(by apply Forall_take)) as Hb.
  rewrite length_take, Hl in Hb. change (11 `min` 12)%nat with 11%nat in Hb.
  assert (is_u32 w) as Hw32.
  { apply (Forall_drop _ 11) in Hw. rewrite Ed in Hw. by inv_trits. }
  unfold is_u32 in Hw32. rewrite Z.shiftr_div_pow2 by lia.
  assert (2 ^ 383 = wpow 11 * 2 ^ 31) as ->.
  { Transparent wpow. unfold wpow. rewrite <- Z.pow_add_r by lia. done. }
  change (2 ^ 32) with 4294967296 in *. change (2 ^ 31) with 2147483648.
  pose proof (Z.div_mod w 2147483648 ltac:(lia)).
  pose proof (Z.mod_pos_bound w 2147483648 ltac:(lia)).
  destruct (Z.ltb_spec (bval ws) (wpow 11 * 2147483648)) as [Hlt|Hge].
  - apply Z.eqb_eq. assert (w < 2147483648) by nia. apply Z.div_small. lia.
  - apply Z.eqb_neq. assert (2147483648 <= w) by nia. lia.
Qed.
#[local] Opaque wpow.

(** The words that the digits are taken from, and whether they are negated:
    [y] is the number and [s] the sign of the result. *)
Lemma bytes_number base : words_ok base -> length base = 12%nat ->
  signed384 (bval base) <> - rep_max 242 - 1 ->
  let '(base', flip) :=
    if Z.shiftr (nth (INT_LEN - 1) base 0) 31 =? 0 then (bigint_add base HALF_3, false)
    else
      let base := bigint_not base in
      if bigint_cmp base HALF_3 >? 0 then ((bigint_sub base HALF_3).2, true)
      else ((bigint_sub HALF_3 (bigint_add_small base 1).2).2, false) in
  words_ok base' /\
  exists k, signed384 (bval base) =
    (if flip : bool then - (bval base' - rep_max 242) else bval base' - rep_max 242) + 3 ^ 242 * k.
Proof.
  intros Hw Hl Hne. destruct HALF_3_spec as (H3 & H3l & H3v).
  destruct half_3_bounds as (Hodd & Hpos & Hlt & Hw12).
  pose proof (bval_bound base Hw) as Hb. rewrite Hl, Hw12 in Hb.
  assert (2 ^ 384 = 2 * 2 ^ 383) as E384 by (rewrite <- Z.pow_succ_r by lia; done).
  assert (rep_max 242 < 2 ^ 383) by lia.
  change (INT_LEN - 1)%nat with 11%nat. rewrite sign_bit_spec by done.
  unfold signed384 in *. destruct (Z.ltb_spec (bval base) (2 ^ 383)) as [Hs|Hs].
  - destruct (bigint_add_spec base HALF_3) as (Ha & _ & Hv); [done|done|lia|].
    split; [done|]. exists 0. rewrite Hv, Hl, Hw12, H3v, Z.mod_small by lia. lia.
  - cbv zeta. destruct (bigint_not_spec base Hw) as (Hn & Hnl & Hnv).
    rewrite Hl, Hw12 in *.
    rewrite bigint_cmp_spec, H3v by (done || lia).
    destruct (Z.gtb_spec (Z.sgn (bval (bigint_not base) - rep_max 242)) 0) as [Hc|Hc].
    + pose proof (bigint_sub_spec (bigint_not base) HALF_3 Hn H3 ltac:(lia)) as Hsub.
      destruct (bigint_sub (bigint_not base) HALF_3) as [c base']. destruct Hsub as (Hb' & _ & _ & Hv).
      cbn [snd]. split; [done|]. exists (-1).
      rewrite Hnl, Hw12, H3v, Z.mod_small in Hv by lia. lia.
    + pose proof (bigint_add_small_spec (bigint_not base) 1 Hn) as Ha.
      destruct (bigint_add_small (bigint_not base) 1) as [i b1]. cbn [snd].
      destruct Ha as (Hb1 & Hbl & Hbv & _);
        [closed_decide|intros En; by rewrite En in Hnl|rewrite Hnl, Hw12; lia|].
      pose proof (bigint_sub_spec HALF_3 b1 H3 Hb1 ltac:(lia)) as Hsub.
      destruct (bigint_sub HALF_3 b1) as [c base']. destruct Hsub as (Hb' & _ & _ & Hv).
      cbn [snd]. split; [done|]. exists 0.
      rewrite H3l, Hw12, H3v, Z.mod_small in Hv by lia. lia.
Qed.

Lemma be_value_null bytes : octets_ok bytes -> length bytes = BYTE_LEN ->
  is_null (words_of_bytes bytes) = true -> be_value bytes = 0.
Proof.
  intros Ho Hl Hn. destruct (words_of_bytes_spec 12 bytes) as (Hw & _ & Hv); [done..|].
  rewrite is_null_spec, Hv in Hn by done. apply Z.eqb_eq, le_value_0 in Hn; [|done].
  unfold be_value. apply le_value_0; by apply Forall_rev.
Qed.

Lemma convert_bytes_to_trits_spec bytes : octets_ok bytes -> length bytes = BYTE_LEN ->
  signed384 (be_value bytes) <> - rep_max 242 - 1 ->
  let ts := convert_bytes_to_trits bytes in
  exists ds, ts = ds ++ [0] /\ trits_ok ds /\ length ds = 242%nat /\
  (3 ^ 242 | signed384 (be_value bytes) - bal ds).
Proof.
  intros Ho Hl Hne. cbv zeta. unfold convert_bytes_to_trits.
  destruct (is_null (words_of_bytes bytes)) eqn:En.
  - exists (replicate 242 0). split_and!; [done|by apply Forall_replicate|done|].
    rewrite be_value_null, bal_replicate_0 by done. by exists 0.
  - rewrite space_reverse_rev by done. unfold TRIT_LEN. change (243 - 1)%nat with 242%nat.
    destruct (words_of_bytes_spec 12 (rev bytes)) as (Hw & Hwl & Hwv);
      [by apply Forall_rev|by rewrite length_rev|].
    unfold be_value in *. rewrite <- Hwv in *.
    pose proof (bytes_number (words_of_bytes (rev bytes)) Hw Hwl Hne) as Hb.
    destruct (if _ =? 0 then _ else _) as [base flip]. destruct Hb as (Hbw & k & Hk).
    destruct (digits_loop_spec 242 base Hbw) as (Hok & Hlen & k' & Hk').
    change (Z.of_nat 242) with 242 in Hk'.
    destruct (neg_trits _ Hok) as (Hnok & Hnlen & Hnb). cbv zeta in Hnb.
    destruct flip; eexists; (split; [reflexivity|]); split_and!; try done; try lia.
    + exists (k - k'). lia.
    + exists (k + k'). lia.
Qed.

(** Without a condition on the number: the 243 trits are trits. *)
Lemma bytes_number_words base : words_ok base -> length base = 12%nat ->
  words_ok (if Z.shiftr (nth (INT_LEN - 1) base 0) 31 =? 0 then (bigint_add base HALF_3, false)
    else
      let base := bigint_not base in
      if bigint_cmp base HALF_3 >? 0 then ((bigint_sub base HALF_3).2, true)
      else ((bigint_sub HALF_3 (bigint_add_small base 1).2).2, false)).1.
Proof.
  intros Hw Hl. destruct HALF_3_spec as (H3 & H3l & H3v).
  destruct half_3_bounds as (_ & _ & _ & Hw12).
  pose proof (bval_bound base Hw) as Hb. rewrite Hl, Hw12 in Hb.
  change (INT_LEN - 1)%nat with 11%nat. rewrite sign_bit_spec by done.
  destruct (Z.ltb_spec (bval base) (2 ^ 383)) as [Hs|Hs]; [by apply bigint_add_spec; rewrite ?Hl, ?H3l|]. cbv zeta.
  destruct (bigint_not_spec base Hw) as (Hn & Hnl & Hnv). rewrite Hl in Hnl.
  destruct (bigint_cmp _ _ >? 0).
  - pose proof (bigint_sub_spec (bigint_not base) HALF_3 Hn H3 ltac:(lia)) as Hsub.
    destruct (bigint_sub (bigint_not base) HALF_3) as [c base']. apply Hsub.
  - pose proof (bigint_add_small_spec (bigint_not base) 1 Hn) as Ha.
    destruct (bigint_add_small (bigint_not base) 1) as [i b1]. cbn [snd].
    destruct Ha as (Hb1 & Hbl & _ & _);
      [closed_decide|intros En; by rewrite En in Hnl|
       rewrite Hnl, Hw12; rewrite Hl, Hw12 in Hnv; assert (0 < 2 ^ 383) by (by apply Z.pow_pos_nonneg); lia|].
    pose proof (bigint_sub_spec HALF_3 b1 H3 Hb1 ltac:(lia)) as Hsub.
    destruct (bigint_sub HALF_3 b1) as [c base']. apply Hsub.
Qed.

Lemma convert_bytes_to_trits_ok bytes : octets_ok bytes -> length bytes = BYTE_LEN ->
  trits_ok (convert_bytes_to_trits bytes) /\ length (convert_bytes_to_trits bytes) = TRIT_LEN.
Proof.
  intros Ho Hl. unfold convert_bytes_to_trits.
  destruct (is_null (words_of_bytes bytes)).
  - split; [by apply Forall_replicate|by rewrite length_replicate].
  - rewrite space_reverse_rev by done.
    destruct (words_of_bytes_spec 12 (rev bytes)) as (Hw & Hwl & _);
      [by apply Forall_rev|by rewrite length_rev|].
    pose proof (bytes_number_words _ Hw Hwl) as Hb.
    destruct (if _ =? 0 then _ else _) as [base flip]. cbn [fst] in Hb.
    destruct (digits_loop_spec (TRIT_LEN - 1) base Hb) as (Hok & Hlen & _).
    destruct (neg_trits _ Hok) as (Hnok & Hnlen & _). cbv zeta in *.
    destruct flip; (split; [by solve_forall|rewrite length_app]).
    + by rewrite Hnlen, Hlen.
    + by rewrite Hlen.
Qed.

(** * Kerl as a sponge *)

Section KerlSponge.
Context {keccak : Type} (keccak_init : keccak)
  (keccak_update : keccak -> list Z -> keccak) (keccak_squeeze : keccak -> list Z * keccak)
  (stack : list Z).

(** The contents that the buffer [bytes] of [kerl_absorb] can have. *)
Inductive buffer_reached : list Z -> Prop :=
| reached_stack : buffer_reached stack
| reached_block block bytes : buffer_reached bytes ->
    buffer_reached (convert_trits_to_bytes block bytes).

(** Blocks whose conversion does not depend on what the buffer held. *)
Definition regular_block (block : list Z) : Prop := forall b1 b2,
  buffer_reached b1 -> buffer_reached b2 ->
  convert_trits_to_bytes block b1 = convert_trits_to_bytes block b2.

(** A squeeze of the library fills the 48 bytes it is asked for. *)
Definition keccak_fills : Prop := forall s,
  octets_ok (keccak_squeeze s).1 /\ length (keccak_squeeze s).1 = BYTE_LEN.

Definition kerl_sponge : Sponge keccak := {|
  sponge_ok _ := True;
  regular ts := Forall regular_block (chunks HASH_LENGTH_TRIT ts);
  absorb := kerl_absorb keccak_update stack;
  squeeze s n := kerl_squeeze keccak_init keccak_update keccak_squeeze s
                   ((n + HASH_LENGTH_TRIT - 1) / HASH_LENGTH_TRIT);
  reset := kerl_reset keccak_init |}.

Lemma kerl_squeeze_ok s n : keccak_fills ->
  let r := kerl_squeeze keccak_init keccak_update keccak_squeeze s n in
  trits_ok r.1 /\ length r.1 = (n * HASH_LENGTH_TRIT)%nat.
Proof.
  intros Hk. revert s. induction n as [|n IH]; intros s; cbv zeta; [done|].
  cbn [kerl_squeeze]. destruct (Hk s) as [Ho Hl].
  destruct (keccak_squeeze s) as [bytes s']. cbn [fst] in *.
  destruct (convert_bytes_to_trits_ok bytes Ho Hl) as [Ht Htl].
  match goal with |- context [kerl_squeeze _ _ _ ?a n] =>
    specialize (IH a); destruct (kerl_squeeze keccak_init keccak_update keccak_squeeze a n) end.
  cbn [fst] in *. destruct IH as [IHt IHl]. split; [by solve_forall|].
  rewrite length_app, IHl, Htl. unfold TRIT_LEN, HASH_LENGTH_TRIT. lia.
Qed.

Lemma absorb_reached blocks ctx bytes : buffer_reached bytes ->
  buffer_reached (foldl (absorb_step keccak_update) (ctx, bytes) blocks).2.
Proof.
  revert ctx bytes. induction blocks as [|b blocks IH]; intros ctx bytes Hb; [done|].
  cbn [foldl absorb_step]. apply IH. by constructor.
Qed.

Lemma absorb_regular blocks ctx b1 b2 : Forall regular_block blocks ->
  buffer_reached b1 -> buffer_reached b2 ->
  (foldl (absorb_step keccak_update) (ctx, b1) blocks).1 = (foldl (absorb_step keccak_update) (ctx, b2) blocks).1.
Proof.
  intros Hr. revert ctx b1 b2. induction Hr as [|b blocks Hb Hr IH]; intros ctx b1 b2 H1 H2; [done|].
  cbn [foldl absorb_step]. rewrite (Hb b1 b2 H1 H2). apply IH; by constructor.
Qed.

Lemma kerl_absorb_app ctx k l1 l2 : length l1 = (k * HASH_LENGTH_TRIT)%nat ->
  Forall regular_block (chunks HASH_LENGTH_TRIT l2) ->
  kerl_absorb keccak_update stack ctx (l1 ++ l2) =
  kerl_absorb keccak_update stack (kerl_absorb keccak_update stack ctx l1) l2.
Proof.
  intros Hl Hr. unfold kerl_absorb.
  rewrite (chunks_app _ k) by (done || (unfold HASH_LENGTH_TRIT; lia)). rewrite foldl_app.
  pose proof (absorb_reached (chunks HASH_LENGTH_TRIT l1) ctx stack reached_stack) as Hb.
  destruct (foldl (absorb_step keccak_update) (ctx, stack) _) as [ctx' bytes]. cbn [fst snd] in *.
  apply absorb_regular; [done|done|constructor].
Qed.

Lemma kerl_sponge_laws : keccak_fills -> @SpongeLaws keccak kerl_sponge.
Proof.
  intros Hk. split; try done; cbn.
  - intros s k _. rewrite (proj2 (kerl_squeeze_ok _ _ Hk)). f_equal.
    replace (k * HASH_LENGTH_TRIT + HASH_LENGTH_TRIT - 1)%nat
      with (242 + k * HASH_LENGTH_TRIT)%nat by (unfold HASH_LENGTH_TRIT; lia).
    by rewrite Nat.div_add by done.
  - intros s n _. by apply kerl_squeeze_ok.
  - intros. by apply (kerl_absorb_app s k).
Qed.
End KerlSponge.

(** A small stand-in for Keccak, for concrete runs: the state is the last block
    mixed with the ones before. *)
Module Toy.
Definition init : list Z := map Z.of_nat (seq 1 BYTE_LEN).
Definition mix (a b : Z) : Z := (5 * a + 3 * b + 7) mod 256.
Definition update (s block : list Z) : list Z :=
  map (fun i => mix (nth i s 0) (nth i block 0 + nth (i - 1) s 0)) (seq 0 BYTE_LEN).
Definition squeeze (s : list Z) : list Z * list Z :=
  (map (fun i => mix (nth i s 0) (Z.of_nat i)) (seq 0 BYTE_LEN), s).

Lemma fills : keccak_fills squeeze.
Proof.
  intros s. split; cbn [squeeze fst].
  - apply List.Forall_map, List.Forall_forall. intros i _. unfold mix, is_u8.
    apply Z.mod_pos_bound. lia.
  - by rewrite length_map, length_seq.
Qed.

Definition sponge : Sponge (list Z) := kerl_sponge init update squeeze (replicate BYTE_LEN 0).
Definition laws : @SpongeLaws (list Z) sponge := kerl_sponge_laws init update squeeze _ fills.
End Toy.

(** * Properties *)

(** C22: from a cleared buffer the 243 trits of a block become the 48-byte
    big-endian two's complement of the integer that the first 242 of them denote
    (the comparison with, and subtraction of, [HALF_3] and the multi-word
    multiplication and addition are exact), and converting the bytes back gives
    the same trits with the last one cleared. *)
Theorem kerl_conversion_roundtrip trits bytes : trits_ok trits -> length trits = TRIT_LEN ->
  length bytes = BYTE_LEN -> Forall (fun b => b = 0) (drop 12 bytes) ->
  let r := convert_trits_to_bytes trits bytes in
  octets_ok r /\ length r = BYTE_LEN /\ be_value r = bal (take 242 trits) mod 2 ^ 384 /\
  convert_bytes_to_trits r = take 242 trits ++ [0].
Proof.
  intros Ht Hl Hb Hz. cbv zeta.
  destruct (convert_trits_to_bytes_spec trits bytes Ht Hl Hb Hz) as (Ho & Hrl & Hv).
  split_and!; [done..|].
  assert (trits_ok (take 242 trits)) as Hds by (by apply Forall_take).
  assert (length (take 242 trits) = 242%nat) as Hld by (unfold TRIT_LEN in Hl; rewrite length_take; lia).
  destruct half_3_bounds as (Hodd & Hpos & Hlt & Hw12). rewrite Hw12 in Hlt.
  pose proof (bal_bound _ Hds) as Hbd. rewrite Hld in Hbd. change (Z.of_nat 242) with 242 in Hbd.
  assert (2 ^ 384 = 2 * 2 ^ 383) as E384 by (rewrite <- Z.pow_succ_r by lia; done).
  assert (signed384 (be_value (convert_trits_to_bytes trits bytes)) = bal (take 242 trits)) as Hs.
  { rewrite Hv. unfold signed384. destruct (decide (0 <= bal (take 242 trits))).
    - rewrite Z.mod_small by lia. destruct (Z.ltb_spec (bal (take 242 trits)) (2 ^ 383)); lia.
    - rewrite <- (Z.mod_unique_pos _ _ (-1) (bal (take 242 trits) + 2 ^ 384)) by lia.
      destruct (Z.ltb_spec (bal (take 242 trits) + 2 ^ 384) (2 ^ 383)); lia. }
  destruct (convert_bytes_to_trits_spec _ Ho Hrl) as (ds & E & Hok & Hlen & k & Hk); [lia|].
  cbv zeta in E. rewrite E. f_equal. rewrite Hs in Hk.
  pose proof (bal_bound _ Hok) as Hbd'. rewrite Hlen in Hbd'. change (Z.of_nat 242) with 242 in Hbd'.
  apply bal_inj; [done..|lia|]. assert (k = 0) as -> by nia. lia.
Qed.

Lemma kerl_conversion_roundtrip_witness :
  let trits := replicate 100 (-1) ++ replicate 143 1 in
  let r := convert_trits_to_bytes trits (replicate 48 0) in
  octets_ok r /\ length r = BYTE_LEN /\ be_value r = bal (take 242 trits) mod 2 ^ 384 /\
  convert_bytes_to_trits r = take 242 trits ++ [0].
Proof.
  cbv zeta. apply kerl_conversion_roundtrip; closed_decide.
Defined.

(** Bytes that are not the 48-byte number [- (3^242 - 1) / 2 - 1] are turned
    into the unique 242 trits that are congruent to their signed big-endian
    value modulo [3^242], followed by a zero. *)
Theorem convert_bytes_to_trits_congruent bytes : octets_ok bytes -> length bytes = BYTE_LEN ->
  signed384 (be_value bytes) <> - rep_max 242 - 1 ->
  length (convert_bytes_to_trits bytes) = TRIT_LEN /\ trits_ok (convert_bytes_to_trits bytes) /\
  forall ds, trits_ok ds -> length ds = 242%nat ->
    (3 ^ 242 | signed384 (be_value bytes) - bal ds) <-> convert_bytes_to_trits bytes = ds ++ [0].
Proof.
  intros Ho Hl Hne.
  destruct (convert_bytes_to_trits_spec bytes Ho Hl Hne) as (ds & E & Hok & Hlen & k & Hk).
  rewrite E. split_and!; [rewrite length_app, Hlen; done|by solve_forall|].
  intros ds' Hok' Hlen'. split.
  - intros (k' & Hk'). f_equal. apply bal_inj; try assumption; [congruence|].
    pose proof (bal_bound _ Hok) as Hb. pose proof (bal_bound _ Hok') as Hb'.
    rewrite Hlen in Hb. rewrite Hlen' in Hb'. change (Z.of_nat 242) with 242 in *.
    assert (0 < 3 ^ 242) by (apply Z.pow_pos_nonneg; lia). assert (k = k') by nia. lia.
  - intros Ed. apply app_inj_tail in Ed as [<- _]. by exists k.
Qed.

Lemma convert_bytes_to_trits_congruent_witness :
  let bytes := replicate 47 255 ++ [251] in
  length (convert_bytes_to_trits bytes) = TRIT_LEN /\ trits_ok (convert_bytes_to_trits bytes) /\
  forall ds, trits_ok ds -> length ds = 242%nat ->
    (3 ^ 242 | signed384 (be_value bytes) - bal ds) <-> convert_bytes_to_trits bytes = ds ++ [0].
Proof.
  cbv zeta. apply convert_bytes_to_trits_congruent; [closed_decide|done|].
  vm_compute. discriminate.
Defined.

(** The conversion of a block depends on uninitialised memory: clearing
    twelve bytes leaves nine of the twelve words as the caller's stack held them,
    and a block whose high trits are all [-1] is converted with those words. *)
Theorem kerl_block_depends_on_stack :
  exists trits stack1 stack2, trits_ok trits /\ length trits = TRIT_LEN /\
    octets_ok stack1 /\ length stack1 = BYTE_LEN /\ octets_ok stack2 /\ length stack2 = BYTE_LEN /\
    convert_trits_to_bytes trits stack1 <> convert_trits_to_bytes trits stack2.
Proof.
  exists (1 :: replicate 242 (-1)), (replicate 48 0), (replicate 47 0 ++ [1]).
  split_and!; closed_decide.
Qed.
