(* ===== verification/SpongeType.v ===== *)
(** * Sponge selection

    [common/crypto/sponge/sponge.c]: the record of function pointers and state
    that [sponge_init] fills according to the sponge type, and the wrappers that
    call through it.  [None] as a result stands for undefined behaviour: a call
    through a pointer that was never set, or on a state of another type. *)
From S2P Require Import Prelude Errors Sponge Trits Curl Kerl.

Inductive sponge_type_t :=
| SPONGE_CURLP27 | SPONGE_CURLP81 | SPONGE_KERL | SPONGE_TROIKA | SPONGE_UNKNOWN.

(** The three function pointers are always set together. *)
Inductive sponge_fns := curl_fns | kerl_fns.

Section Dispatch.
Context {keccak : Type} (keccak_init : keccak)
  (keccak_update : keccak -> list Z -> keccak) (keccak_squeeze : keccak -> list Z * keccak)
  (stack : list Z).
Abbreviation kerl := (kerl_sponge keccak_init keccak_update keccak_squeeze stack).

Record sponge_t := mkSponge { sp_fns : option sponge_fns; sp_state : option (Curl + keccak) }.

(** [alloc] tells whether [malloc] succeeds. *)
Definition sponge_init (alloc : bool) (sponge : option sponge_t) (type : sponge_type_t)
  : retcode_t * option sponge_t :=
  match sponge with
  | None => (RC_NULL_PARAM, None)
  | Some sponge =>
      let curl t :=
        if alloc then
          (RC_OK, Some (mkSponge (Some curl_fns) (Some (inl (curl_init (mkCurl [] t))))))
        else (RC_OOM, Some (mkSponge (sp_fns sponge) None)) in
      match type with
      | SPONGE_CURLP27 => curl CURL_P_27
      | SPONGE_CURLP81 => curl CURL_P_81
      | SPONGE_KERL =>
          if alloc then (RC_OK, Some (mkSponge (Some kerl_fns) (Some (inr (kerl_init keccak_init)))))
          else (RC_OOM, Some (mkSponge (sp_fns sponge) None))
      | SPONGE_TROIKA => (RC_OK, Some sponge)
      | SPONGE_UNKNOWN => (RC_CRYPTO_UNSUPPORTED_SPONGE_TYPE, Some sponge)
      end
  end.

Definition sponge_absorb (sponge : option sponge_t) (input : list Z)
  : option (retcode_t * option sponge_t) :=
  match sponge with
  | None => Some (RC_NULL_PARAM, None)
  | Some s =>
      match sp_fns s, sp_state s with
      | Some curl_fns, Some (inl c) =>
          Some (RC_OK, Some (mkSponge (sp_fns s) (Some (inl (curl_absorb c input)))))
      | Some kerl_fns, Some (inr k) =>
          Some (RC_OK, Some (mkSponge (sp_fns s) (Some (inr (@absorb _ kerl k input)))))
      | _, _ => None
      end
  end.

Definition sponge_squeeze (sponge : option sponge_t) (length : nat)
  : option (retcode_t * list Z * option sponge_t) :=
  match sponge with
  | None => Some (RC_NULL_PARAM, [], None)
  | Some s =>
      match sp_fns s, sp_state s with
      | Some curl_fns, Some (inl c) =>
          let '(out, c) := curl_squeeze c length in
          Some (RC_OK, out, Some (mkSponge (sp_fns s) (Some (inl c))))
      | Some kerl_fns, Some (inr k) =>
          let '(out, k) := @squeeze _ kerl k length in
          Some (RC_OK, out, Some (mkSponge (sp_fns s) (Some (inr k))))
      | _, _ => None
      end
  end.

Definition sponge_reset (sponge : option sponge_t) : option (retcode_t * option sponge_t) :=
  match sponge with
  | None => Some (RC_NULL_PARAM, None)
  | Some s =>
      match sp_fns s, sp_state s with
      | Some curl_fns, Some (inl c) =>
          Some (RC_OK, Some (mkSponge (sp_fns s) (Some (inl (curl_reset c)))))
      | Some kerl_fns, Some (inr k) =>
          Some (RC_OK, Some (mkSponge (sp_fns s) (Some (inr (kerl_reset keccak_init k)))))
      | _, _ => None
      end
  end.

Definition sponge_destroy (sponge : option sponge_t) : retcode_t * option sponge_t :=
  match sponge with
  | None => (RC_NULL_PARAM, None)
  | Some s => (RC_OK, Some (mkSponge (sp_fns s) None))
  end.

(** ** A sponge that was initialised *)

Inductive usable : sponge_t -> Prop :=
| usable_curl c : curl_ok c -> usable (mkSponge (Some curl_fns) (Some (inl c)))
| usable_kerl k : usable (mkSponge (Some kerl_fns) (Some (inr k))).

(** The wrappers as total operations; on a usable sponge they are what the C
    wrappers do. *)
#[local] Instance dispatch_sponge : Sponge sponge_t := {
  sponge_ok := usable;
  regular := @regular _ kerl;
  absorb s ts := match sponge_absorb (Some s) ts with Some (_, Some s) => s | _ => s end;
  squeeze s n :=
    match sponge_squeeze (Some s) n with Some (_, out, Some s) => (out, s) | _ => ([], s) end;
  reset s := match sponge_reset (Some s) with Some (_, Some s) => s | _ => s end }.

Lemma sponge_init_usable sponge type : type <> SPONGE_TROIKA -> type <> SPONGE_UNKNOWN ->
  exists s, sponge_init true (Some sponge) type = (RC_OK, Some s) /\ usable s.
Proof.
  intros HT HU. destruct type; try contradiction; (eexists; split; [reflexivity|]).
  - apply usable_curl, curl_reset_ok.
  - apply usable_curl, curl_reset_ok.
  - apply usable_kerl.
Qed.

Lemma dispatch_defined s : usable s ->
  (forall ts, sponge_absorb (Some s) ts = Some (RC_OK, Some (absorb s ts))) /\
  (forall n, sponge_squeeze (Some s) n = Some (RC_OK, (squeeze s n).1, Some (squeeze s n).2)) /\
  sponge_reset (Some s) = Some (RC_OK, Some (reset s)).
Proof.
  destruct 1 as [c Hc|k]; (split_and!; [done| |done]); intros n;
    cbn [squeeze dispatch_sponge sponge_squeeze sp_fns sp_state].
  - by destruct (curl_squeeze c n).
  - by destruct (@squeeze _ kerl k n).
Qed.

Lemma dispatch_sponge_laws : keccak_fills keccak_squeeze -> SpongeLaws sponge_t.
Proof.
  intros Hk. pose proof (kerl_sponge_laws keccak_init keccak_update keccak_squeeze stack Hk) as KL.
  pose proof curl_sponge_laws as CL.
  split; cbn [sponge_ok absorb squeeze reset dispatch_sponge].
  - intros s ts [c Hc|k] Hts; cbn; constructor. by apply curl_absorb_ok.
  - intros s n [c Hc|k]; cbn [sponge_squeeze sp_fns sp_state].
    + pose proof (@squeeze_ok _ _ CL c n Hc) as H. cbn in H.
      destruct (curl_squeeze c n). by constructor.
    + destruct (@squeeze _ kerl k n). constructor.
  - intros s [c Hc|k]; cbn; constructor. apply (@reset_ok _ _ CL c Hc).
  - intros s n [c Hc|k]; cbn [sponge_squeeze sp_fns sp_state].
    + pose proof (@squeeze_length _ _ CL c n Hc) as H. cbn [squeeze curl_sponge] in H.
      by destruct (curl_squeeze c _).
    + pose proof (@squeeze_length _ _ KL k n I) as H. by destruct (@squeeze _ kerl k _).
  - intros s n [c Hc|k]; cbn [sponge_squeeze sp_fns sp_state].
    + pose proof (@squeeze_trits _ _ CL c n Hc) as H. cbn [squeeze curl_sponge] in H.
      by destruct (curl_squeeze c _).
    + pose proof (@squeeze_trits _ _ KL k n I) as H. by destruct (@squeeze _ kerl k _).
  - intros [[[]|] [[c|k]|]] ts; try done. cbn.
    pose proof (@reset_absorb _ _ CL c ts) as H. cbn in H. by rewrite H.
  - intros [[[]|] [[c|k]|]] n; try done; cbn [sponge_squeeze sp_fns sp_state].
    + pose proof (@reset_squeeze _ _ CL c n) as H. cbn in H.
      destruct (curl_squeeze c n). cbn in *. by rewrite H.
    + by destruct (@squeeze _ kerl k n).
  - by intros [[[]|] [[c|k]|]].
  - intros [[[]|] [[c|k]|]] n l1 l2 Hl Hr; try done; cbn.
    + pose proof (@absorb_app _ _ CL c n l1 l2 Hl I) as E. cbn in E. by rewrite E.
    + pose proof (@absorb_app _ _ KL k n l1 l2 Hl Hr) as E. cbn in E. by rewrite E.
Qed.
End Dispatch.

Arguments mkSponge {keccak}.
Arguments usable {keccak}.
Arguments sp_fns {keccak}.
Arguments sp_state {keccak}.

(** A sponge that was initialised successfully as Curl-P-27, Curl-P-81 or
    Kerl accepts every call: absorb, squeeze and reset return [RC_OK], leave the
    sponge usable, and a squeeze of [k] blocks delivers [243 k] trits. *)
Theorem sponge_init_then_use {keccak} (kinit : keccak) kupdate ksqueeze stack sponge type :
  keccak_fills ksqueeze -> type <> SPONGE_TROIKA -> type <> SPONGE_UNKNOWN ->
  exists s, sponge_init kinit true (Some sponge) type = (RC_OK, Some s) /\
  forall ts k, trits_ok ts ->
  exists s1 out s2 s3,
    sponge_absorb kinit kupdate ksqueeze stack (Some s) ts = Some (RC_OK, Some s1) /\
    sponge_squeeze kinit kupdate ksqueeze stack (Some s1) (k * 243) = Some (RC_OK, out, Some s2) /\
    sponge_reset kinit (Some s2) = Some (RC_OK, Some s3) /\
    usable s1 /\ usable s2 /\ usable s3 /\ trits_ok out /\ length out = (k * 243)%nat.
Proof.
  intros Hk HT HU. destruct (sponge_init_usable kinit sponge type HT HU) as (s & E & Hs).
  exists s. split; [done|]. intros ts k Hts.
  pose proof (dispatch_sponge_laws kinit kupdate ksqueeze stack Hk) as L.
  set (D := dispatch_sponge kinit kupdate ksqueeze stack) in *.
  destruct (dispatch_defined kinit kupdate ksqueeze stack s Hs) as (Ha & _).
  assert (usable (absorb s ts)) as H1 by exact (absorb_ok s ts Hs Hts).
  destruct (dispatch_defined kinit kupdate ksqueeze stack _ H1) as (_ & Hq & _).
  assert (usable (squeeze (absorb s ts) (k * 243)).2) as H2 by exact (squeeze_ok _ _ H1).
  destruct (dispatch_defined kinit kupdate ksqueeze stack _ H2) as (_ & _ & Hr).
  do 4 eexists. split_and!; [apply Ha|apply Hq|apply Hr|done|done|exact (reset_ok _ H2)|
    exact (squeeze_trits _ _ H1)|exact (squeeze_length _ k H1)].
Qed.

Lemma sponge_init_then_use_witness :
  exists s, sponge_init Toy.init true (Some (mkSponge None None)) SPONGE_KERL = (RC_OK, Some s) /\
  forall ts k, trits_ok ts ->
  exists s1 out s2 s3,
    sponge_absorb Toy.init Toy.update Toy.squeeze [] (Some s) ts = Some (RC_OK, Some s1) /\
    sponge_squeeze Toy.init Toy.update Toy.squeeze [] (Some s1) (k * 243) = Some (RC_OK, out, Some s2) /\
    sponge_reset Toy.init (Some s2) = Some (RC_OK, Some s3) /\
    usable s1 /\ usable s2 /\ usable s3 /\ trits_ok out /\ length out = (k * 243)%nat.
Proof. apply sponge_init_then_use; [exact Toy.fills|discriminate..]. Defined.

(** Initialising a sponge as Troika reports success and sets nothing, so a
    freshly declared sponge cannot be used afterwards. *)
Theorem sponge_init_troika_unusable {keccak} (kinit : keccak) kupdate ksqueeze stack alloc ts :
  let sponge := mkSponge None None in
  sponge_init kinit alloc (Some sponge) SPONGE_TROIKA = (RC_OK, Some sponge) /\
  sponge_absorb kinit kupdate ksqueeze stack (Some sponge) ts = None.
Proof. done. Qed.
