(* ===== verification/Normalize.v ===== *)
(** * Normalized hashes

    [common/crypto/iss/normalize.c]: the trytes of a hash are adjusted, fragment
    by fragment, until they sum to zero, so that no signed hash dominates
    another one. *)
From S2P Require Import Prelude Trits TritLong FlexTrit.

Definition SECURITY_LEVEL_MAX : nat := 3.
Definition NORMALIZED_FRAGMENT_LENGTH : nat := 27.
Definition HASH_LENGTH_TRYTE : nat := 81.

Definition normalized_hash_is_secure (normalized_hash : list Z) (length : nat) : bool :=
  forallb (fun b => negb (b =? TRYTE_VALUE_MAX)) (take length normalized_hash).

(** [hash[j * 3] + hash[j * 3 + 1] * 3 + hash[j * 3 + 2] * 9] *)
Definition hash_tryte_val (hash : list Z) (j : nat) : Z :=
  nth (j * 3) hash 0 + nth (j * 3 + 1) hash 0 * 3 + nth (j * 3 + 2) hash 0 * 9.

(** The inner [for] with its [break]: the first value that may move does. *)
Fixpoint dec_first (frag : list Z) : list Z :=
  match frag with
  | [] => []
  | b :: frag => if b >? TRYTE_VALUE_MIN then i8 (b - 1) :: frag else b :: dec_first frag
  end.

Fixpoint inc_first (frag : list Z) : list Z :=
  match frag with
  | [] => []
  | b :: frag => if b <? TRYTE_VALUE_MAX then i8 (b + 1) :: frag else b :: inc_first frag
  end.

(** [sum] counts the iterations of the [while] loops. *)
Definition normalize_fragment (hash : list Z) (i : nat) : list Z :=
  let frag := map (fun j => i8 (hash_tryte_val hash j))
                  (seq (i * NORMALIZED_FRAGMENT_LENGTH) NORMALIZED_FRAGMENT_LENGTH) in
  let sum := foldl (fun sum b => i32 (sum + b)) 0 frag in
  if sum >? 0 then Nat.iter (Z.to_nat sum) dec_first frag
  else Nat.iter (Z.to_nat (- sum)) inc_first frag.

Definition normalize_hash (hash : list Z) : list Z :=
  concat (map (normalize_fragment hash) (seq 0 SECURITY_LEVEL_MAX)).

(** [for (c ...) long_to_trits(bytes[c], &normalized_hash[c * RADIX])] *)
Definition write_trytes (bytes : list Z) (normalized_hash : list Z) : list Z :=
  foldl (fun buf c =>
           take (c * 3) buf ++ (long_to_trits (nth c bytes 0) (drop (c * 3) buf)).2)
    normalized_hash (seq 0 HASH_LENGTH_TRYTE).

Definition normalize_hash_to_trits (hash normalized_hash : list Z) : list Z :=
  write_trytes (normalize_hash hash) normalized_hash.

(** [stack] is the initial contents of the local [hash_trits]. *)
Definition normalize_flex_hash (stack hash : list Z) : list Z :=
  normalize_hash (flex_trits_to_trits stack 243 hash 243 243).2.

Definition normalize_flex_hash_to_trits (stack hash normalized_hash : list Z) : list Z :=
  write_trytes (normalize_flex_hash stack hash) normalized_hash.

(** * The adjustment *)

Definition tryte_range (b : Z) : Prop := TRYTE_VALUE_MIN <= b <= TRYTE_VALUE_MAX.

#[global] Instance tryte_range_dec b : Decision (tryte_range b).
Proof. unfold tryte_range. apply _. Defined.

Lemma zsum_bounds l : Forall tryte_range l ->
  -13 * Z.of_nat (length l) <= zsum l <= 13 * Z.of_nat (length l).
Proof.
  induction 1 as [|b l Hb Hl IH]; cbn [zsum foldr length]; [lia|].
  fold (zsum l). unfold tryte_range, TRYTE_VALUE_MIN, TRYTE_VALUE_MAX in Hb. lia.
Qed.

Lemma dec_first_spec l : Forall tryte_range l -> -13 * Z.of_nat (length l) < zsum l ->
  Forall tryte_range (dec_first l) /\ length (dec_first l) = length l /\
  zsum (dec_first l) = zsum l - 1.
Proof.
  induction 1 as [|b l Hb Hl IH]; cbn [zsum foldr length dec_first]; [lia|].
  fold (zsum l). intros Hs. unfold tryte_range, TRYTE_VALUE_MIN, TRYTE_VALUE_MAX in *.
  destruct (Z.gtb_spec b (-13)).
  - rewrite swrap_small by lia. cbn [zsum foldr length]. fold (zsum l).
    split_and!; [constructor; [lia|done]|lia|lia].
  - destruct IH as (IH1 & IH2 & IH3); [lia|]. cbn [zsum foldr length]. fold (zsum (dec_first l)).
    split_and!; [constructor; [lia|done]|lia|lia].
Qed.

Lemma inc_first_spec l : Forall tryte_range l -> zsum l < 13 * Z.of_nat (length l) ->
  Forall tryte_range (inc_first l) /\ length (inc_first l) = length l /\
  zsum (inc_first l) = zsum l + 1.
Proof.
  induction 1 as [|b l Hb Hl IH]; cbn [zsum foldr length inc_first]; [lia|].
  fold (zsum l). intros Hs. unfold tryte_range, TRYTE_VALUE_MIN, TRYTE_VALUE_MAX in *.
  destruct (Z.ltb_spec b 13).
  - rewrite swrap_small by lia. cbn [zsum foldr length]. fold (zsum l).
    split_and!; [constructor; [lia|done]|lia|lia].
  - destruct IH as (IH1 & IH2 & IH3); [lia|]. cbn [zsum foldr length]. fold (zsum (inc_first l)).
    split_and!; [constructor; [lia|done]|lia|lia].
Qed.

(** [n] adjustments move the sum by [n] as long as it does not cross zero. *)
Lemma iter_adjust n (f : list Z -> list Z) (d : Z) l :
  (forall l', Forall tryte_range l' -> length l' = length l -> 0 < - d * zsum l' ->
    Forall tryte_range (f l') /\ length (f l') = length l' /\ zsum (f l') = zsum l' + d) ->
  Forall tryte_range l -> (d = 1 \/ d = -1) -> - d * zsum l = Z.of_nat n ->
  Forall tryte_range (Nat.iter n f l) /\ length (Nat.iter n f l) = length l /\
  zsum (Nat.iter n f l) = 0.
Proof.
  intros Hf Hl Hd Hs.
  assert (forall k, (k <= n)%nat -> Forall tryte_range (Nat.iter k f l) /\
    length (Nat.iter k f l) = length l /\ zsum (Nat.iter k f l) = zsum l + d * Z.of_nat k) as H.
  { induction k as [|k IH]; intros Hk; [cbn [Nat.iter nat_rect]; change (Z.of_nat 0) with 0; split_and!; (done || lia)|].
    destruct IH as (IH1 & IH2 & IH3); [lia|]. cbn [Nat.iter nat_rect]. fold (Nat.iter k f l).
    destruct (Hf (Nat.iter k f l)) as (? & ? & ?); [done..|nia|].
    split_and!; [done|lia|lia]. }
  destruct (H n ltac:(lia)) as (? & ? & ?). split_and!; [done..|nia].
Qed.

Lemma foldl_i32_sum l acc : Forall tryte_range l ->
  Z.abs acc + 13 * Z.of_nat (length l) < 2 ^ 31 ->
  foldl (fun sum b => i32 (sum + b)) acc l = acc + zsum l.
Proof.
  intros Hl. revert acc. induction Hl as [|b l Hb Hl IH]; intros acc Ha; cbn [foldl length zsum foldr] in *;
    [lia|]. fold (zsum l). unfold tryte_range, TRYTE_VALUE_MIN, TRYTE_VALUE_MAX in *.
  rewrite swrap_small, IH by lia. lia.
Qed.


Lemma hash_tryte_val_range hash j : trits_ok hash -> tryte_range (hash_tryte_val hash j).
Proof.
  intros Hh. unfold hash_tryte_val.
  pose proof (nth_trit (j * 3) hash Hh). pose proof (nth_trit (j * 3 + 1) hash Hh).
  pose proof (nth_trit (j * 3 + 2) hash Hh).
  unfold is_trit, tryte_range, TRYTE_VALUE_MIN, TRYTE_VALUE_MAX in *. lia.
Qed.

Lemma tryte_vals_ok hash js : trits_ok hash ->
  map (fun j => i8 (hash_tryte_val hash j)) js = map (hash_tryte_val hash) js /\
  Forall tryte_range (map (hash_tryte_val hash) js).
Proof.
  intros Hh. split.
  - apply map_ext. intros j. pose proof (hash_tryte_val_range hash j Hh) as H.
    unfold tryte_range, TRYTE_VALUE_MIN, TRYTE_VALUE_MAX in H. apply swrap_small; lia.
  - apply List.Forall_map, List.Forall_forall. intros j _. by apply hash_tryte_val_range.
Qed.

Definition fragment_vals (hash : list Z) (i : nat) : list Z :=
  map (hash_tryte_val hash) (seq (i * NORMALIZED_FRAGMENT_LENGTH) NORMALIZED_FRAGMENT_LENGTH).

Lemma normalize_fragment_eq hash i : trits_ok hash ->
  normalize_fragment hash i =
  let frag := fragment_vals hash i in
  if zsum frag >? 0 then Nat.iter (Z.to_nat (zsum frag)) dec_first frag
  else Nat.iter (Z.to_nat (- zsum frag)) inc_first frag.
Proof.
  intros Hh. unfold normalize_fragment, fragment_vals.
  destruct (tryte_vals_ok hash (seq (i * NORMALIZED_FRAGMENT_LENGTH) NORMALIZED_FRAGMENT_LENGTH) Hh)
    as [-> Hr].
  rewrite foldl_i32_sum by (done || (rewrite length_map, length_seq; done)). done.
Qed.

Lemma normalize_fragment_spec hash i : trits_ok hash ->
  Forall tryte_range (normalize_fragment hash i) /\
  length (normalize_fragment hash i) = NORMALIZED_FRAGMENT_LENGTH /\
  zsum (normalize_fragment hash i) = 0.
Proof.
  intros Hh. rewrite normalize_fragment_eq by done. cbv zeta.
  assert (length (fragment_vals hash i) = NORMALIZED_FRAGMENT_LENGTH) as Hl
    by (unfold fragment_vals; by rewrite length_map, length_seq).
  assert (Forall tryte_range (fragment_vals hash i)) as Hr by (by apply tryte_vals_ok).
  rewrite <- Hl. destruct (Z.gtb_spec (zsum (fragment_vals hash i)) 0) as [Hs|Hs].
  - apply (iter_adjust _ dec_first (-1)); [|done|lia|lia].
    intros l' Hl' _ Hp. destruct (dec_first_spec l' Hl') as (? & ? & ?); [|split_and!; (done || lia)].
    destruct (zsum_bounds l' Hl'). lia.
  - apply (iter_adjust _ inc_first 1); [|done|lia|lia].
    intros l' Hl' _ Hp. destruct (inc_first_spec l' Hl') as (? & ? & ?); [|split_and!; (done || lia)].
    destruct (zsum_bounds l' Hl'). lia.
Qed.

Lemma normalize_hash_3 hash : normalize_hash hash =
  normalize_fragment hash 0 ++ normalize_fragment hash 1 ++ normalize_fragment hash 2.
Proof. unfold normalize_hash. cbn [seq map concat SECURITY_LEVEL_MAX]. by rewrite app_nil_r. Qed.

Lemma normalize_hash_frag hash i : trits_ok hash -> (i < SECURITY_LEVEL_MAX)%nat ->
  buf_read (i * NORMALIZED_FRAGMENT_LENGTH) NORMALIZED_FRAGMENT_LENGTH (normalize_hash hash) =
  normalize_fragment hash i.
Proof.
  intros Hh Hi. rewrite normalize_hash_3. unfold buf_read, SECURITY_LEVEL_MAX in *.
  destruct (normalize_fragment_spec hash 0 Hh) as (_ & H0 & _).
  destruct (normalize_fragment_spec hash 1 Hh) as (_ & H1 & _).
  destruct (normalize_fragment_spec hash 2 Hh) as (_ & H2 & _).
  unfold NORMALIZED_FRAGMENT_LENGTH in *.
  destruct i as [|[|[|i]]]; [..|lia].
  - rewrite drop_0. by apply take_app_length'.
  - rewrite drop_app_length' by lia. by apply take_app_length'.
  - rewrite app_assoc, drop_app_length' by (rewrite length_app; lia). by apply take_ge; lia.
Qed.

Lemma length_normalize_hash hash : trits_ok hash -> length (normalize_hash hash) = HASH_LENGTH_TRYTE.
Proof.
  intros Hh. rewrite normalize_hash_3, !length_app.
  rewrite !(proj1 (proj2 (normalize_fragment_spec hash _ Hh))). done.
Qed.

Lemma normalize_hash_range hash : trits_ok hash -> Forall tryte_range (normalize_hash hash).
Proof.
  intros Hh. rewrite normalize_hash_3.
  repeat (apply Forall_app; split); by apply normalize_fragment_spec.
Qed.

(** ** Writing the trytes back as trits *)

Lemma tryte_int64 b : tryte_range b -> is_int64 b /\ (min_trits b <= 3)%nat.
Proof.
  unfold tryte_range, TRYTE_VALUE_MIN, TRYTE_VALUE_MAX. intros Hb.
  assert (is_int64 b) as Hi by (unfold is_int64, INT64_MIN, INT64_MAX; lia).
  split; [done|]. destruct (min_trits_spec b Hi) as (_ & _ & _ & [->|Hmin]); [lia|].
  destruct (decide (min_trits b <= 3)%nat) as [|Hn]; [done|].
  pose proof (rep_max_mono 3 (min_trits b - 1) ltac:(lia)).
  change (rep_max 3) with 13 in *. lia.
Qed.

(** Three trits for a tryte, at the front of any buffer. *)
Lemma long_to_trits_tryte b buf : tryte_range b -> (3 <= length buf)%nat ->
  exists ts, (long_to_trits b buf).2 = ts ++ drop 3 buf /\
    length ts = 3%nat /\ trits_ok ts /\ bal ts = b.
Proof.
  intros Hb Hl. destruct (tryte_int64 b Hb) as [Hi Hm].
  destruct (long_to_trits_spec b buf Hi Hl ltac:(lia)) as (ts & E & Htl & Hok & Hbal).
  rewrite E. cbn [snd]. exists (ts ++ replicate (3 - min_trits b) 0).
  assert (is_trit 0) by (unfold is_trit; lia).
  split_and!.
  - rewrite <- app_assoc. f_equal.
    destruct buf as [|? [|? [|? buf]]]; simpl in Hl; try lia. cbn [drop].
    unfold buf_write. rewrite take_0, (take_ge [0;0;0]) by (simpl; lia). cbn [app length drop].
    destruct (min_trits b) as [|[|[|[|?]]]]; (done || lia).
  - rewrite length_app, length_replicate. lia.
  - apply Forall_app. split; [done|by apply Forall_replicate].
  - by rewrite bal_app, bal_replicate_0, Z.mul_0_r, Z.add_0_r.
Qed.

(** After [n] trytes the buffer starts with the trits of the first [n] bytes. *)
Lemma write_trytes_loop bytes buf n : Forall tryte_range bytes -> (n <= length bytes)%nat ->
  (n * 3 <= length buf)%nat ->
  exists ts, foldl (fun buf c =>
      take (c * 3) buf ++ (long_to_trits (nth c bytes 0) (drop (c * 3) buf)).2) buf (seq 0 n)
    = ts ++ drop (n * 3) buf /\
  length ts = (n * 3)%nat /\ trits_ok ts /\
  forall j, (j < n)%nat -> hash_tryte_val ts j = nth j bytes 0.
Proof.
  intros Hb Hn Hl. induction n as [|n IH].
  - exists []. split_and!; [by rewrite drop_0|done|constructor|lia].
  - destruct IH as (ts & E & Htl & Hok & Hv); [lia..|].
    rewrite seq_S, foldl_app, E. cbn [foldl]. rewrite Nat.add_0_l.
    rewrite take_app_length', drop_app_length' by done.
    destruct (long_to_trits_tryte (nth n bytes 0) (drop (n * 3) buf)) as (us & Eu & Hul & Huok & Hub).
    { rewrite List.Forall_forall in Hb. apply Hb, nth_In. lia. }
    { rewrite length_drop. lia. }
    rewrite Eu, drop_drop, app_assoc. exists (ts ++ us). split_and!.
    + do 2 f_equal. lia.
    + rewrite length_app. lia.
    + by apply Forall_app.
    + intros j Hj. unfold hash_tryte_val. destruct (decide (j < n)%nat).
      * rewrite !app_nth1 by lia. by apply Hv.
      * assert (j = n) as -> by lia. rewrite !app_nth2 by lia.
        replace (n * 3 - length ts)%nat with 0%nat by lia.
        replace (n * 3 + 1 - length ts)%nat with 1%nat by lia.
        replace (n * 3 + 2 - length ts)%nat with 2%nat by lia.
        destruct us as [|a [|b [|c [|]]]]; simpl in Hul; try lia. cbn [nth]. rewrite <- Hub. cbn [bal]. lia.
Qed.

Lemma normalize_hash_to_trits_spec hash buf : trits_ok hash -> length buf = 243%nat ->
  let r := normalize_hash_to_trits hash buf in
  length r = 243%nat /\ trits_ok r /\
  map (hash_tryte_val r) (seq 0 HASH_LENGTH_TRYTE) = normalize_hash hash.
Proof.
  intros Hh Hl. cbv zeta. unfold normalize_hash_to_trits, write_trytes.
  pose proof (length_normalize_hash hash Hh) as Hn.
  destruct (write_trytes_loop (normalize_hash hash) buf HASH_LENGTH_TRYTE) as (ts & E & Htl & Hok & Hv).
  - by apply normalize_hash_range.
  - lia.
  - unfold HASH_LENGTH_TRYTE. lia.
  - rewrite E, drop_ge, app_nil_r by (unfold HASH_LENGTH_TRYTE; lia).
    split_and!; [done|done|].
    apply (nth_ext _ _ 0 0); [by rewrite length_map, length_seq|].
    intros j Hj. rewrite length_map, length_seq in Hj.
    rewrite (nth_indep _ 0 (hash_tryte_val ts 0)) by (by rewrite length_map, length_seq).
    rewrite map_nth, seq_nth by done. by apply Hv.
Qed.

(** Trytes determine their trits: the result does not depend on the buffer. *)
Lemma tryte_vals_inj ts us n : trits_ok ts -> trits_ok us -> length ts = (n * 3)%nat -> length us = (n * 3)%nat ->
  (forall j, (j < n)%nat -> hash_tryte_val ts j = hash_tryte_val us j) -> ts = us.
Proof.
  revert ts us. induction n as [|n IH]; intros ts us Ht Hu Hl1 Hl2 Hv.
  - by destruct ts, us.
  - destruct ts as [|t1 [|t2 [|t3 ts]]], us as [|u1 [|u2 [|u3 us]]]; simpl in Hl1, Hl2; try lia.
    inv_trits. pose proof (Hv 0%nat ltac:(lia)) as E. unfold hash_tryte_val in E. cbn [nth Nat.mul Nat.add] in E.
    unfold is_trit in *. assert (t1 = u1 /\ t2 = u2 /\ t3 = u3) as (-> & -> & ->) by lia.
    do 3 f_equal. apply IH; try assumption; try lia. intros j Hj. apply (Hv (S j)). lia.
Qed.

Lemma normalize_hash_to_trits_indep hash b1 b2 : trits_ok hash -> length b1 = 243%nat -> length b2 = 243%nat ->
  normalize_hash_to_trits hash b1 = normalize_hash_to_trits hash b2.
Proof.
  intros Hh H1 H2. destruct (normalize_hash_to_trits_spec hash b1 Hh H1) as (L1 & O1 & E1).
  destruct (normalize_hash_to_trits_spec hash b2 Hh H2) as (L2 & O2 & E2).
  apply (tryte_vals_inj _ _ 81); [assumption|assumption|rewrite L1; reflexivity|rewrite L2; reflexivity|]. intros j Hj.
  rewrite <- E1 in E2. apply (proj1 List.map_ext_in_iff (eq_sym E2)). apply in_seq.
  unfold HASH_LENGTH_TRYTE. lia.
Qed.

Lemma normalize_flex_hash_to_trits_eq stack hash buf : length stack = 243%nat -> length hash = 243%nat ->
  normalize_flex_hash_to_trits stack hash buf = normalize_hash_to_trits hash buf.
Proof.
  intros Hs Hh. unfold normalize_flex_hash_to_trits, normalize_flex_hash, normalize_hash_to_trits.
  rewrite flex_trits_to_trits_ok; [reflexivity|rewrite Hs; reflexivity|exact Hh|apply Nat.leb_le; reflexivity].
Qed.

(** Balanced fragments are left alone. *)
Lemma normalize_hash_id hash : trits_ok hash ->
  (forall i, (i < SECURITY_LEVEL_MAX)%nat -> zsum (fragment_vals hash i) = 0) ->
  normalize_hash hash = map (hash_tryte_val hash) (seq 0 HASH_LENGTH_TRYTE).
Proof.
  intros Hh Hz. rewrite normalize_hash_3, !normalize_fragment_eq by done. cbv zeta.
  rewrite !Hz by (unfold SECURITY_LEVEL_MAX; lia). cbn [Z.gtb Z.compare].
  change (Z.to_nat (- 0)) with 0%nat. cbn [Nat.iter nat_rect].
  unfold fragment_vals. by rewrite <- !List.map_app.
Qed.

Lemma sum_le_eq l1 l2 : Forall2 Z.le l1 l2 -> zsum l1 = zsum l2 -> l1 = l2.
Proof.
  assert (forall l1 l2, Forall2 Z.le l1 l2 -> zsum l1 <= zsum l2) as Hle.
  { induction 1 as [|x y m1 m2 Hxy _ IH]; unfold zsum in *; cbn [foldr]; lia. }
  induction 1 as [|x y m1 m2 Hxy Hm IH]; [done|]. unfold zsum in *. cbn [foldr]. intros E.
  pose proof (Hle _ _ Hm) as H. unfold zsum in H. assert (x = y) as -> by lia. f_equal. apply IH. lia.
Qed.

(** * Properties *)

(** C24: the normalized hash has 81 trytes in [-13 .. 13]; every fragment of 27
    sums to zero; a hash that is already balanced is left as it is; and writing
    the trytes out as trits and normalizing again changes nothing. *)
Theorem normalize_hash_balanced hash buf : trits_ok hash -> length buf = 243%nat ->
  length (normalize_hash hash) = HASH_LENGTH_TRYTE /\
  Forall tryte_range (normalize_hash hash) /\
  (forall i, (i < SECURITY_LEVEL_MAX)%nat ->
    zsum (buf_read (i * NORMALIZED_FRAGMENT_LENGTH) NORMALIZED_FRAGMENT_LENGTH (normalize_hash hash)) = 0) /\
  ((forall i, (i < SECURITY_LEVEL_MAX)%nat -> zsum (fragment_vals hash i) = 0) ->
    normalize_hash hash = map (hash_tryte_val hash) (seq 0 HASH_LENGTH_TRYTE)) /\
  normalize_hash (normalize_hash_to_trits hash buf) = normalize_hash hash.
Proof.
  intros Hh Hb. split_and!.
  - by apply length_normalize_hash.
  - by apply normalize_hash_range.
  - intros i Hi. rewrite normalize_hash_frag by done. by apply normalize_fragment_spec.
  - by apply normalize_hash_id.
  - destruct (normalize_hash_to_trits_spec hash buf Hh Hb) as (Hl & Hok & Hv).
    rewrite normalize_hash_id; [done|done|]. intros i Hi.
    rewrite <- (proj2 (proj2 (normalize_fragment_spec hash i Hh))). f_equal.
    rewrite <- normalize_hash_frag, <- Hv by done. unfold fragment_vals, buf_read.
    rewrite skipn_map, firstn_map. f_equal. unfold SECURITY_LEVEL_MAX in Hi.
    destruct i as [|[|[|i]]]; [reflexivity..|lia].
Qed.

Lemma normalize_hash_balanced_witness :
  let hash := replicate 100 1 ++ replicate 143 (-1) in
  length (normalize_hash hash) = HASH_LENGTH_TRYTE /\
  Forall tryte_range (normalize_hash hash) /\
  (forall i, (i < SECURITY_LEVEL_MAX)%nat ->
    zsum (buf_read (i * NORMALIZED_FRAGMENT_LENGTH) NORMALIZED_FRAGMENT_LENGTH (normalize_hash hash)) = 0) /\
  ((forall i, (i < SECURITY_LEVEL_MAX)%nat -> zsum (fragment_vals hash i) = 0) ->
    normalize_hash hash = map (hash_tryte_val hash) (seq 0 HASH_LENGTH_TRYTE)) /\
  normalize_hash (normalize_hash_to_trits hash (replicate 243 7)) = normalize_hash hash.
Proof.
  cbv zeta. apply normalize_hash_balanced; [closed_decide|reflexivity].
Defined.

(** No normalized hash dominates another one: if the first [27 s] trytes of
    two normalized hashes differ then each has a tryte, among these, that is
    smaller than the other's, so that a signature of one hash cannot be turned
    into a signature of the other by hashing fragments further. *)
Theorem normalized_hash_incomparable h1 h2 s : trits_ok h1 -> trits_ok h2 ->
  (s <= SECURITY_LEVEL_MAX)%nat ->
  take (s * NORMALIZED_FRAGMENT_LENGTH) (normalize_hash h1) <>
  take (s * NORMALIZED_FRAGMENT_LENGTH) (normalize_hash h2) ->
  exists j, (j < s * NORMALIZED_FRAGMENT_LENGTH)%nat /\
    nth j (normalize_hash h1) 0 < nth j (normalize_hash h2) 0.
Proof.
  intros H1 H2 Hs Hne. unfold SECURITY_LEVEL_MAX in Hs.
  set (n := (s * NORMALIZED_FRAGMENT_LENGTH)%nat) in *.
  destruct (existsb (fun j => nth j (normalize_hash h1) 0 <? nth j (normalize_hash h2) 0) (seq 0 n)) eqn:E.
  { apply existsb_exists in E as (j & Hj & Hlt). apply in_seq in Hj. exists j. lia. }
  exfalso. apply Hne.
  assert (forall h, trits_ok h -> length (take n (normalize_hash h)) = n /\
                    zsum (take n (normalize_hash h)) = 0) as Hz.
  { intros h Hh. rewrite length_take, length_normalize_hash, normalize_hash_3 by done.
    destruct (normalize_fragment_spec h 0 Hh) as (_ & L0 & Z0).
    destruct (normalize_fragment_spec h 1 Hh) as (_ & L1 & Z1).
    destruct (normalize_fragment_spec h 2 Hh) as (_ & L2 & Z2).
    subst n. unfold HASH_LENGTH_TRYTE, NORMALIZED_FRAGMENT_LENGTH in *. split; [lia|].
    destruct s as [|[|[|[|s]]]]; [done|..|lia].
    - by rewrite take_app_length' by lia.
    - rewrite app_assoc, take_app_length' by (rewrite length_app; lia). rewrite zsum_app. lia.
    - rewrite take_ge by (rewrite !length_app; lia). rewrite !zsum_app. lia. }
  destruct (Hz h1 H1) as [L1 Z1], (Hz h2 H2) as [L2 Z2].
  symmetry. apply sum_le_eq; [|lia].
  apply Forall2_same_length_lookup_2; [lia|]. intros j x y Hx Hy.
  assert (j < n)%nat as Hj by (apply lookup_lt_Some in Hx; lia).
  rewrite lookup_take_lt in Hx, Hy by done.
  apply (nth_lookup_Some _ _ 0) in Hx, Hy. rewrite <- Hx, <- Hy.
  destruct (Z.le_gt_cases (nth j (normalize_hash h2) 0) (nth j (normalize_hash h1) 0)) as [|Hlt]; [done|].
  exfalso. apply not_true_iff_false in E. apply E. apply existsb_exists. exists j.
  split; [apply in_seq; lia|by apply Z.ltb_lt].
Qed.

Lemma normalized_hash_incomparable_witness :
  exists j, (j < 1 * NORMALIZED_FRAGMENT_LENGTH)%nat /\
    nth j (normalize_hash (replicate 10 1 ++ replicate 233 0)) 0 <
    nth j (normalize_hash (replicate 243 0)) 0.
Proof.
  apply (normalized_hash_incomparable _ _ 1); [closed_decide|closed_decide|closed_decide|].
  vm_compute. discriminate.
Defined.
