(* ===== verification/Iss.v ===== *)
(** * The signing scheme

    [common/crypto/iss/v1]: Winternitz one-time signatures over a sponge.
    [iss.c] works on any [sponge_t] and [iss.c.inc] is instantiated at Curl and
    at Kerl; the text is the same up to the order of the parameters, so the model
    is written once over the sponge interface.  Buffers that the C code updates
    in place are threaded, with the caller's aliasing where it uses it. *)
From S2P Require Import Prelude Trits Sponge Normalize.

Definition ISS_FRAGMENTS : nat := 27.
Definition ISS_KEY_LENGTH : nat := HASH_LENGTH_TRIT * ISS_FRAGMENTS.

Section Iss.
Context {St : Type} {Sp : Sponge St}.

(** [for (j = 0; j < n; j++) { absorb; squeeze; reset }] on one block. *)
Fixpoint chain (n : nat) (s : St) (block : list Z) : list Z * St :=
  match n with
  | O => (block, s)
  | S n => let '(block, s) := hash_step s block in chain n s block
  end.

(** A loop over the blocks of a buffer, [n] of them from block [i] on, each of
    which is rewritten in place. *)
Fixpoint for_blocks (f : nat -> St -> list Z -> list Z * St) (n i : nat) (s : St) (buf : list Z)
  : list Z * St :=
  match n with
  | O => (buf, s)
  | S n =>
      let '(block, s) := f i s (buf_read (i * HASH_LENGTH_TRIT) HASH_LENGTH_TRIT buf) in
      for_blocks f n (S i) s (buf_write (i * HASH_LENGTH_TRIT) block buf)
  end.

(** The number of iterations of [for (; p < end; p += HASH_LENGTH_TRIT)]. *)
Definition num_blocks (len : nat) : nat := (len + HASH_LENGTH_TRIT - 1) / HASH_LENGTH_TRIT.

Definition iss_subseed (s : St) (seed : list Z) (index : Z) : list Z * St :=
  let out := take HASH_LENGTH_TRIT seed in
  let '(_, out) := add_assign out index in
  hash_step s out.

Fixpoint key_blocks (n : nat) (s : St) : list Z * St :=
  match n with
  | O => ([], s)
  | S n =>
      let '(block, s) := squeeze s HASH_LENGTH_TRIT in
      let '(rest, s) := key_blocks n s in (block ++ rest, s)
  end.

(** [None] for the return value [-1]. *)
Definition iss_key (s : St) (subseed : list Z) (key_length : nat) : option (list Z * St) :=
  if negb (key_length mod HASH_LENGTH_TRIT =? 0)%nat then None else
  let s := absorb s subseed in
  let '(key, s) := key_blocks (num_blocks key_length) s in
  Some (key, reset s).

(** The second loop: digest [k] is written at trit [243 k] from [d] on. *)
Fixpoint digest_blocks (n k d : nat) (s : St) (mem : list Z) : list Z * St :=
  match n with
  | O => (mem, s)
  | S n =>
      let '(digest, s) := hash_step s (buf_read (k * ISS_KEY_LENGTH) ISS_KEY_LENGTH mem) in
      digest_blocks n (S k) d s (buf_write (d + k * HASH_LENGTH_TRIT) digest mem)
  end.

(** One region of memory holds the key at its start and receives the digest at
    [d]: [d = 0] is the call with [digest == key]. *)
Definition iss_key_digest (s : St) (mem : list Z) (d key_length : nat) : option (list Z * St) :=
  if negb (key_length mod ISS_KEY_LENGTH =? 0)%nat then None else
  let '(mem, s) := for_blocks (fun _ s block => chain 26 s block) (num_blocks key_length) 0 s mem in
  Some (digest_blocks (key_length / ISS_KEY_LENGTH) 0 d s mem).

Definition iss_address (s : St) (digest : list Z) : list Z * St := hash_step s digest.

(** [(size_t)(TRYTE_VALUE_MAX - HASH_TRYTE_VAL(hash, i))] and
    [(size_t)(HASH_TRYTE_VAL(hash, i) - TRYTE_VALUE_MIN)] *)
Definition sign_rounds (hash : list Z) (i : nat) : nat :=
  Z.to_nat (u64 (TRYTE_VALUE_MAX - hash_tryte_val hash i)).
Definition verify_rounds (hash : list Z) (i : nat) : nat :=
  Z.to_nat (u64 (hash_tryte_val hash i - TRYTE_VALUE_MIN)).

(** [sig] starts as a copy of [key], or is [key]. *)
Definition iss_signature (s : St) (hash key : list Z) : list Z * St :=
  for_blocks (fun i s block => chain (sign_rounds hash i) s block)
    (num_blocks (length key)) 0 s key.

(** Returns the digest and the rewritten signature buffer. *)
Definition iss_sig_digest (s : St) (hash sig : list Z) : list Z * list Z * St :=
  let '(sig, s) := for_blocks (fun i s block => chain (verify_rounds hash i) s block)
                     (num_blocks (length sig)) 0 s sig in
  let '(dig, s) := hash_step s sig in (dig, sig, s).

Fixpoint merkle_root_loop (n i : nat) (s : St) (hash siblings : list Z) (leaf_index : nat)
  : list Z * St :=
  match n with
  | O => (hash, s)
  | S n =>
      let sibling := buf_read (i * HASH_LENGTH_TRIT) HASH_LENGTH_TRIT siblings in
      let s :=
        if Nat.testbit leaf_index i then absorb (absorb s sibling) hash
        else absorb (absorb s hash) sibling in
      let '(hash, s) := squeeze s HASH_LENGTH_TRIT in
      merkle_root_loop n (S i) (reset s) hash siblings leaf_index
  end.

(** [leaf_index & j] with [j = 1 << i]; on a 64-bit machine at most 64 levels. *)
Definition iss_merkle_root (s : St) (hash siblings : list Z) (siblings_number leaf_index : nat)
  : list Z * St :=
  merkle_root_loop siblings_number 0 s hash siblings leaf_index.
End Iss.

(** * Loops over blocks *)

Section Lemmas.
Context {St : Type} `{SpongeLaws St}.

Definition block (i : nat) (buf : list Z) : list Z :=
  buf_read (i * HASH_LENGTH_TRIT) HASH_LENGTH_TRIT buf.

(** Blocks that are each replaced by a block of the same length. *)
Lemma for_blocks_spec (f : nat -> St -> list Z -> list Z * St) (g : nat -> list Z) n : forall i s buf,
  ((i + n) * HASH_LENGTH_TRIT <= length buf)%nat ->
  (forall j, (i <= j < i + n)%nat -> f j s (block j buf) = (g j, s) /\ length (g j) = HASH_LENGTH_TRIT) ->
  for_blocks f n i s buf =
    (take (i * HASH_LENGTH_TRIT) buf ++ concat (map g (seq i n)) ++ drop ((i + n) * HASH_LENGTH_TRIT) buf, s).
Proof.
  induction n as [|n IH]; intros i s buf Hl Hf; cbn [for_blocks seq map concat].
  - rewrite Nat.add_0_r. cbn [app]. by rewrite take_drop.
  - destruct (Hf i ltac:(lia)) as [E Hg]. unfold block in E. rewrite E.
    assert (buf_write (i * HASH_LENGTH_TRIT) (g i) buf =
      (take (i * HASH_LENGTH_TRIT) buf ++ g i) ++ drop (S i * HASH_LENGTH_TRIT) buf) as Ew.
    { unfold buf_write. rewrite (take_ge (g i)) by lia. rewrite app_assoc. do 2 f_equal. lia. }
    assert (length (take (i * HASH_LENGTH_TRIT) buf ++ g i) = (S i * HASH_LENGTH_TRIT)%nat) as Hp.
    { rewrite length_app, length_take. lia. }
    rewrite IH.
    + f_equal. rewrite Ew, take_app_length' by done. rewrite <- !app_assoc. do 3 f_equal.
      replace (i + S n)%nat with (S i + n)%nat by lia.
      rewrite app_assoc, drop_app_ge by lia. rewrite Hp, drop_drop. f_equal. lia.
    + rewrite length_buf_write by lia. lia.
    + intros j Hj. destruct (Hf j ltac:(lia)) as [E' Hg']. split; [|done].
      rewrite <- E'. f_equal. unfold block.
      apply buf_read_write_after; rewrite ?Hg; nia.
Qed.

Lemma seq_shift' n a : seq a n = map (fun j => (a + j)%nat) (seq 0 n).
Proof.
  revert a. induction n as [|n IH]; intros a; [done|]. cbn [seq map].
  f_equal; [lia|]. rewrite (IH (S a)), (IH 1%nat), List.map_map. apply map_ext. intros; lia.
Qed.

(** The number of iterations for a whole number of blocks. *)
Lemma num_blocks_exact n : num_blocks (n * HASH_LENGTH_TRIT) = n.
Proof.
  unfold num_blocks. replace (n * HASH_LENGTH_TRIT + HASH_LENGTH_TRIT - 1)%nat
    with (242 + n * HASH_LENGTH_TRIT)%nat by (unfold HASH_LENGTH_TRIT; lia).
  by rewrite Nat.div_add by done.
Qed.

Lemma for_blocks_all (f : nat -> St -> list Z -> list Z * St) (g : nat -> list Z) n s buf : length buf = (n * HASH_LENGTH_TRIT)%nat ->
  (forall j, (j < n)%nat -> f j s (block j buf) = (g j, s) /\ length (g j) = HASH_LENGTH_TRIT) ->
  for_blocks f n 0 s buf = (concat (map g (seq 0 n)), s).
Proof.
  intros Hl Hf. rewrite (for_blocks_spec f g); [|lia|intros; apply Hf; lia].
  rewrite drop_ge by lia. cbn [Nat.mul Nat.add]. by rewrite take_0, app_nil_r.
Qed.

Lemma length_concat_blocks (g : nat -> list Z) w a n :
  (forall j, (a <= j < a + n)%nat -> length (g j) = w) -> length (concat (map g (seq a n))) = (n * w)%nat.
Proof.
  revert a. induction n as [|n IH]; intros a Hg; [done|]. cbn [seq map concat].
  rewrite length_app, Hg, IH; [lia| |lia]. intros. apply Hg. lia.
Qed.

(** A block of a concatenation of blocks. *)
Lemma read_concat (g : nat -> list Z) w n i rest : (forall j, (j < n)%nat -> length (g j) = w) ->
  (i < n)%nat -> buf_read (i * w) w (concat (map g (seq 0 n)) ++ rest) = g i.
Proof.
  intros Hg Hi. unfold buf_read.
  replace n with (i + S (n - S i))%nat by lia.
  rewrite seq_app, List.map_app, concat_app, <- app_assoc.
  rewrite drop_app_length' by (rewrite (length_concat_blocks g w); [lia|intros; apply Hg; lia]).
  cbn [seq map concat Nat.add]. rewrite <- app_assoc. apply take_app_length'. symmetry. by apply Hg.
Qed.

(** * Chains *)

(** [hash_of] applied [n] times. *)
Definition chain_of (s : St) (n : nat) (b : list Z) : list Z := Nat.iter n (hash_of s) b.

Lemma chain_eq n s b : reset s = s -> chain n s b = (chain_of s n b, s).
Proof.
  intros Hr. revert b. induction n as [|n IH]; intros b; [done|]. cbn [chain].
  rewrite hash_step_eq by done. rewrite IH. unfold chain_of. by rewrite Nat.iter_succ_r.
Qed.

Lemma chain_of_add s m n b : chain_of s m (chain_of s n b) = chain_of s (m + n) b.
Proof. unfold chain_of. by rewrite <- Nat.iter_add. Qed.

Lemma chain_of_ok s n b : sponge_ok s -> trits_ok b -> length b = HASH_LENGTH_TRIT ->
  trits_ok (chain_of s n b) /\ length (chain_of s n b) = HASH_LENGTH_TRIT.
Proof.
  intros Hs Hb Hl. unfold chain_of. induction n as [|n [IH1 IH2]]; [done|]. cbn [Nat.iter nat_rect].
  split; [by apply hash_of_ok|by apply length_hash_of].
Qed.

Lemma block_ok j n buf : trits_ok buf -> length buf = (n * HASH_LENGTH_TRIT)%nat -> (j < n)%nat ->
  trits_ok (block j buf) /\ length (block j buf) = HASH_LENGTH_TRIT.
Proof.
  intros Hb Hl Hj. unfold block. split; [unfold buf_read; solve_forall|].
  apply length_buf_read. nia.
Qed.

Lemma rounds_26 hash i : trits_ok hash ->
  (verify_rounds hash i + sign_rounds hash i)%nat = 26%nat.
Proof.
  intros Hh. pose proof (hash_tryte_val_range hash i Hh) as Hr.
  unfold tryte_range, verify_rounds, sign_rounds, TRYTE_VALUE_MIN, TRYTE_VALUE_MAX in *.
  rewrite !uwrap_small by lia. lia.
Qed.

(** * Digests of a key *)

Definition frag (f : nat) (buf : list Z) : list Z := buf_read (f * ISS_KEY_LENGTH) ISS_KEY_LENGTH buf.

Lemma digest_blocks_spec d s n : sponge_ok s -> reset s = s -> forall k mem,
  trits_ok mem -> (d = 0 \/ (k + n) * ISS_KEY_LENGTH <= d)%nat ->
  (d + (k + n) * HASH_LENGTH_TRIT <= length mem)%nat ->
  let r := digest_blocks n k d s mem in
  r.2 = s /\ length r.1 = length mem /\
  buf_read d ((k + n) * HASH_LENGTH_TRIT) r.1 =
    buf_read d (k * HASH_LENGTH_TRIT) mem ++ concat (map (fun j => hash_of s (frag j mem)) (seq k n)).
Proof.
  intros Hs Hr. induction n as [|n IH]; intros k mem Hm Hd Hl; cbv zeta; cbn [digest_blocks].
  { cbn [seq map concat fst snd]. by rewrite Nat.add_0_r, app_nil_r. }
  rewrite hash_step_eq by done. fold (frag k mem).
  assert (trits_ok (frag k mem)) as Hf by (unfold frag, buf_read; solve_forall).
  set (dig := hash_of s (frag k mem)).
  assert (length dig = HASH_LENGTH_TRIT) as Hdl by (by apply length_hash_of).
  assert (trits_ok dig) as Hdo by (by apply hash_of_ok).
  set (mem1 := buf_write (d + k * HASH_LENGTH_TRIT) dig mem).
  assert (length mem1 = length mem) as Hl1 by (apply length_buf_write; lia).
  destruct (IH (S k) mem1) as (E2 & El & Er).
  - unfold mem1, buf_write. solve_forall.
  - destruct Hd; [by left|right; lia].
  - lia.
  - split_and!; [done|lia|].
    replace (k + S n)%nat with (S k + n)%nat by lia. rewrite Er. cbn [seq map concat].
    rewrite app_assoc. f_equal.
    + unfold buf_read, mem1, buf_write. rewrite (take_ge dig) by lia. rewrite Hdl.
      assert (take (d + k * HASH_LENGTH_TRIT) mem = take d mem ++ take (k * HASH_LENGTH_TRIT) (drop d mem)) as ->.
      { rewrite <- (take_drop d mem) at 1. rewrite take_app_ge by (rewrite length_take; lia).
        rewrite length_take. do 2 f_equal. lia. }
      rewrite <- app_assoc, drop_app_length' by (rewrite length_take; lia).
      rewrite app_assoc, take_app_length'; [done|].
      rewrite length_app, length_take, length_drop. lia.
    + f_equal. apply map_ext_in. intros j Hj. apply in_seq in Hj. f_equal. unfold frag, mem1.
      unfold ISS_KEY_LENGTH, ISS_FRAGMENTS in *. destruct Hd as [->|Hd].
      * apply buf_read_write_after; rewrite ?Hdl; unfold HASH_LENGTH_TRIT in *; nia.
      * apply buf_read_write_before; unfold HASH_LENGTH_TRIT in *; nia.
Qed.

(** The key with every block at the end of its chain. *)
Definition chained (s : St) (n : nat) (key : list Z) : list Z :=
  concat (map (fun j => chain_of s 26 (block j key)) (seq 0 n)).

Definition key_blocks_num (n : nat) : nat := n * ISS_FRAGMENTS.

Lemma key_len n : (n * ISS_KEY_LENGTH = key_blocks_num n * HASH_LENGTH_TRIT)%nat.
Proof. unfold ISS_KEY_LENGTH, key_blocks_num. lia. Qed.

Lemma chained_ok s n key : sponge_ok s -> trits_ok key ->
  length key = (n * HASH_LENGTH_TRIT)%nat ->
  trits_ok (chained s n key) /\ length (chained s n key) = length key.
Proof.
  intros Hs Hk Hl. unfold chained. split.
  - apply Forall_concat, List.Forall_map, List.Forall_forall. intros j Hj. apply in_seq in Hj.
    destruct (block_ok j n key); [done..|lia|]. by apply chain_of_ok.
  - rewrite (length_concat_blocks _ HASH_LENGTH_TRIT); [done|]. intros j Hj.
    destruct (block_ok j n key); [done..|lia|]. by apply chain_of_ok.
Qed.

Lemma chain_blocks s (r : nat -> nat) n key : sponge_ok s -> reset s = s -> trits_ok key ->
  length key = (n * HASH_LENGTH_TRIT)%nat ->
  for_blocks (fun i s block => chain (r i) s block) n 0 s key =
    (concat (map (fun j => chain_of s (r j) (block j key)) (seq 0 n)), s).
Proof.
  intros Hs Hr Hk Hl.
  apply (for_blocks_all _ (fun j => chain_of s (r j) (block j key))); [done|].
  intros j Hj. destruct (block_ok j n key) as [Hb Hbl]; [done..|].
  rewrite chain_eq by done. split; [done|]. by apply chain_of_ok.
Qed.

(** In place ([d = 0]): the buffer starts with the digests of the fragments. *)
Lemma key_digest_in_place s n key : sponge_ok s -> reset s = s -> trits_ok key ->
  length key = (n * ISS_KEY_LENGTH)%nat ->
  exists mem, iss_key_digest s key 0 (length key) = Some (mem, s) /\
  length mem = length key /\
  take (n * HASH_LENGTH_TRIT) mem =
    concat (map (fun f => hash_of s (frag f (chained s (key_blocks_num n) key))) (seq 0 n)).
Proof.
  intros Hs Hr Hk Hl. unfold iss_key_digest.
  rewrite Hl, Nat.Div0.mod_mul, Nat.div_mul by (unfold ISS_KEY_LENGTH, HASH_LENGTH_TRIT, ISS_FRAGMENTS; lia).
  cbn [Nat.eqb negb]. rewrite key_len, num_blocks_exact.
  rewrite key_len in Hl. rewrite (chain_blocks s (fun _ => 26%nat)) by done.
  fold (chained s (key_blocks_num n) key).
  destruct (chained_ok s (key_blocks_num n) key Hs Hk Hl) as [Hc Hcl].
  destruct (digest_blocks_spec 0 s n Hs Hr 0 (chained s (key_blocks_num n) key)) as (E2 & El & Er);
    [done|by left|rewrite Hcl, Hl; unfold key_blocks_num, ISS_FRAGMENTS; nia|].
  destruct (digest_blocks n 0 0 s _) as [mem s']. cbn [fst snd] in *. subst s'.
  exists mem. split_and!; [done|lia|]. cbn [Nat.add] in Er. rewrite !buf_read_0 in Er.
  rewrite Er. cbn [Nat.mul]. by rewrite take_0.
Qed.

(** * Signatures *)

Lemma signature_eq s hash key n : sponge_ok s -> reset s = s -> trits_ok key ->
  length key = (n * HASH_LENGTH_TRIT)%nat ->
  iss_signature s hash key =
    (concat (map (fun j => chain_of s (sign_rounds hash j) (block j key)) (seq 0 n)), s).
Proof.
  intros Hs Hr Hk Hl. unfold iss_signature. rewrite Hl, num_blocks_exact. by apply chain_blocks.
Qed.

Lemma hash_tryte_val_drop hash f i :
  hash_tryte_val (drop (f * ISS_FRAGMENTS * 3) hash) i = hash_tryte_val hash (f * ISS_FRAGMENTS + i).
Proof.
  unfold hash_tryte_val. rewrite !nth_skipn, !Nat.mul_add_distr_r. by rewrite !Nat.add_assoc.
Qed.

(** A fragment of a concatenation of blocks, as a concatenation. *)
Lemma frag_concat (g : nat -> list Z) n f :
  (forall j, (j < key_blocks_num n)%nat -> length (g j) = HASH_LENGTH_TRIT) -> (f < n)%nat ->
  frag f (concat (map g (seq 0 (key_blocks_num n)))) =
    concat (map (fun j => g (f * ISS_FRAGMENTS + j)%nat) (seq 0 ISS_FRAGMENTS)).
Proof.
  intros Hg Hf. unfold frag, buf_read, key_blocks_num in *.
  replace (n * ISS_FRAGMENTS)%nat with (f * ISS_FRAGMENTS + (ISS_FRAGMENTS + (n - S f) * ISS_FRAGMENTS))%nat
    by nia.
  rewrite !seq_app, !List.map_app, !concat_app. cbn [Nat.add].
  rewrite drop_app_length'.
  2: { rewrite (length_concat_blocks g HASH_LENGTH_TRIT); [unfold ISS_KEY_LENGTH; lia|].
       intros. apply Hg. nia. }
  rewrite take_app_length'.
  2: { rewrite (length_concat_blocks g HASH_LENGTH_TRIT); [unfold ISS_KEY_LENGTH; lia|].
       intros. apply Hg. nia. }
  f_equal. rewrite (seq_shift' ISS_FRAGMENTS (f * ISS_FRAGMENTS)). by rewrite List.map_map.
Qed.

Lemma block_concat (g : nat -> list Z) n j :
  (forall j, (j < n)%nat -> length (g j) = HASH_LENGTH_TRIT) -> (j < n)%nat ->
  block j (concat (map g (seq 0 n))) = g j.
Proof.
  intros Hg Hj. unfold block. rewrite <- (app_nil_r (concat _)).
  by apply (read_concat g HASH_LENGTH_TRIT n).
Qed.

(** Verifying one fragment takes its blocks to the end of their chains. *)
Lemma sig_digest_fragment s hash key n f : sponge_ok s -> reset s = s -> trits_ok hash ->
  trits_ok key -> length key = (n * ISS_KEY_LENGTH)%nat -> (f < n)%nat ->
  let sig := concat (map (fun j => chain_of s (sign_rounds hash j) (block j key)) (seq 0 (key_blocks_num n))) in
  iss_sig_digest s (drop (f * ISS_FRAGMENTS * 3) hash) (frag f sig) =
    (hash_of s (frag f (chained s (key_blocks_num n) key)), frag f (chained s (key_blocks_num n) key), s).
Proof.
  intros Hs Hr Hh Hk Hl Hf. cbv zeta. rewrite key_len in Hl.
  assert (forall r j, (j < key_blocks_num n)%nat ->
    trits_ok (chain_of s (r j) (block j key)) /\
    length (chain_of s (r j) (block j key)) = HASH_LENGTH_TRIT) as Hc.
  { intros r j Hj. destruct (block_ok j (key_blocks_num n) key); [done..|]. by apply chain_of_ok. }
  unfold chained. rewrite !frag_concat by (done || (intros; by apply (Hc (fun _ => 26%nat)))
    || (intros; by apply (Hc (sign_rounds hash)))).
  assert (forall j, (j < ISS_FRAGMENTS)%nat -> (f * ISS_FRAGMENTS + j < key_blocks_num n)%nat) as Hin.
  { intros j Hj. unfold key_blocks_num. nia. }
  set (g := fun j => chain_of s (sign_rounds hash (f * ISS_FRAGMENTS + j)) (block (f * ISS_FRAGMENTS + j) key)).
  change (concat (map (fun j => chain_of s (sign_rounds hash (f * ISS_FRAGMENTS + j)) _) _))
    with (concat (map g (seq 0 ISS_FRAGMENTS))).
  assert (forall j, (j < ISS_FRAGMENTS)%nat -> trits_ok (g j) /\ length (g j) = HASH_LENGTH_TRIT) as Hg.
  { intros j Hj. apply (Hc (sign_rounds hash)). by apply Hin. }
  assert (length (concat (map g (seq 0 ISS_FRAGMENTS))) = (ISS_FRAGMENTS * HASH_LENGTH_TRIT)%nat) as Hgl.
  { apply length_concat_blocks. intros j Hj. apply Hg. lia. }
  unfold iss_sig_digest. rewrite Hgl, num_blocks_exact.
  rewrite (chain_blocks s (verify_rounds (drop (f * ISS_FRAGMENTS * 3) hash)) ISS_FRAGMENTS); [|done..| |done].
  - rewrite hash_step_eq by done.
    match goal with |- (hash_of s ?a, _, _) = (hash_of s ?b, _, _) => assert (a = b) as ->; [|done] end.
    f_equal. apply map_ext_in. intros j Hj. apply in_seq in Hj.
    rewrite block_concat by (lia || (intros; by apply Hg)). unfold g. rewrite chain_of_add.
    f_equal. unfold verify_rounds. rewrite hash_tryte_val_drop. by apply (rounds_26 hash).
  - apply Forall_concat, List.Forall_map, List.Forall_forall. intros j Hj. apply in_seq in Hj.
    apply Hg. lia.
Qed.

(** The digest of any signature is a hash. *)
Lemma sig_digest_ok s hash sig n : sponge_ok s -> reset s = s -> trits_ok sig ->
  length sig = (n * HASH_LENGTH_TRIT)%nat ->
  trits_ok (iss_sig_digest s hash sig).1.1 /\ length (iss_sig_digest s hash sig).1.1 = HASH_LENGTH_TRIT.
Proof.
  intros Hs Hr Hk Hl. unfold iss_sig_digest. rewrite Hl, num_blocks_exact, chain_blocks by done.
  rewrite hash_step_eq by done. cbn [fst].
  assert (trits_ok (concat (map (fun j => chain_of s (verify_rounds hash j) (block j sig)) (seq 0 n)))) as Ht.
  { apply Forall_concat, List.Forall_map, List.Forall_forall. intros j Hj. apply in_seq in Hj.
    destruct (block_ok j n sig); [done..|lia|]. by apply chain_of_ok. }
  split; [by apply hash_of_ok|by apply length_hash_of].
Qed.

Lemma length_key_blocks n s : sponge_ok s ->
  length (key_blocks n s).1 = (n * HASH_LENGTH_TRIT)%nat /\ trits_ok (key_blocks n s).1 /\
  reset (key_blocks n s).2 = reset s.
Proof.
  revert s. induction n as [|n IH]; intros s Hs; [done|]. cbn [key_blocks].
  pose proof (squeeze_length_1 s Hs) as Hl. pose proof (squeeze_trits s HASH_LENGTH_TRIT Hs) as Ht.
  pose proof (squeeze_ok s HASH_LENGTH_TRIT Hs) as Ho.
  pose proof (reset_squeeze s HASH_LENGTH_TRIT) as Hr.
  destruct (squeeze s HASH_LENGTH_TRIT) as [b s']. cbn [fst snd] in *.
  destruct (IH s' Ho) as (IH1 & IH2 & IH3). destruct (key_blocks n s') as [rest s''].
  cbn [fst snd] in *. rewrite length_app. split_and!; [lia|by apply Forall_app|congruence].
Qed.

Lemma iss_key_ok s subseed n : sponge_ok s -> reset s = s -> trits_ok subseed ->
  exists key, iss_key s subseed (n * HASH_LENGTH_TRIT) = Some (key, s) /\
    length key = (n * HASH_LENGTH_TRIT)%nat /\ trits_ok key.
Proof.
  intros Hs Hr Hsub. unfold iss_key. rewrite Nat.Div0.mod_mul, num_blocks_exact. cbn [Nat.eqb negb].
  destruct (length_key_blocks n (absorb s subseed)) as (Hl & Ht & Hre); [by apply absorb_ok|].
  destruct (key_blocks n _) as [key s']. cbn [fst snd] in *.
  exists key. split_and!; [|done..]. by rewrite Hre, reset_absorb, Hr.
Qed.

Lemma iss_subseed_ok s seed index : sponge_ok s -> reset s = s -> trits_ok seed ->
  0 <= index < INT64_MAX ->
  exists sub, iss_subseed s seed index = (sub, s) /\ trits_ok sub /\ length sub = HASH_LENGTH_TRIT.
Proof.
  intros Hs Hr Hse Hi. unfold iss_subseed, add_assign. replace (index <? 0) with false by lia.
  pose proof (add_internal_spec (take HASH_LENGTH_TRIT seed) index {| ha_s := 0; ha_c := 0 |}) as Ha.
  destruct (add_internal _ false index _) as [ret out].
  destruct Ha as (Ho & _); [by apply Forall_take|done|done|].
  rewrite hash_step_eq by done. eexists. split_and!; [done|by apply hash_of_ok|by apply length_hash_of].
Qed.

(** ** Merkle paths *)

(** The root that a leaf and its siblings determine, from level [i] up. *)
Fixpoint root_of (s : St) (i : nat) (leaf_index : nat) (siblings : list (list Z)) (hash : list Z) : list Z :=
  match siblings with
  | [] => hash
  | sib :: siblings =>
      root_of s (S i) leaf_index siblings
        (squeeze (if Nat.testbit leaf_index i then absorb (absorb s sib) hash
                  else absorb (absorb s hash) sib) HASH_LENGTH_TRIT).1
  end.

Lemma merkle_root_loop_eq s leaf_index sibs n : reset s = s -> forall i hash,
  merkle_root_loop n i s hash sibs leaf_index =
    (root_of s i leaf_index (map (fun j => block j sibs) (seq i n)) hash, s).
Proof.
  intros Hr. induction n as [|n IH]; intros i hash; [done|].
  cbn [merkle_root_loop seq map root_of]. fold (block i sibs).
  set (s1 := if Nat.testbit leaf_index i then _ else _).
  assert (reset (squeeze s1 HASH_LENGTH_TRIT).2 = s) as E.
  { rewrite reset_squeeze. unfold s1. destruct (Nat.testbit leaf_index i);
      by rewrite !reset_absorb. }
  destruct (squeeze s1 HASH_LENGTH_TRIT) as [h s2]. cbn [fst snd] in *. by rewrite E, IH.
Qed.
End Lemmas.

(** * Properties *)

(** C6: verification of a genuine signature recovers the key's digests: for a
    key of [n] fragments, the digest that [iss_sig_digest] computes from fragment
    [f] of the signature, with the hash from fragment [f] on, is the [f]-th digest
    that [iss_key_digest] leaves in the key's own buffer, and the sponge is left
    in its reset state. *)
Theorem iss_signature_verifies {St} `{SpongeLaws St} s hash key n f :
  sponge_ok s -> reset s = s -> trits_ok hash -> trits_ok key ->
  length key = (n * ISS_KEY_LENGTH)%nat -> (f < n)%nat ->
  exists digests,
    iss_key_digest s key 0 (length key) = Some (digests, s) /\
    let '(sig, s') := iss_signature s hash key in
    s' = s /\ length sig = length key /\
    let '(dig, _, s'') :=
      iss_sig_digest s (drop (f * ISS_FRAGMENTS * 3) hash) (buf_read (f * ISS_KEY_LENGTH) ISS_KEY_LENGTH sig) in
    s'' = s /\ dig = buf_read (f * HASH_LENGTH_TRIT) HASH_LENGTH_TRIT digests.
Proof.
  intros Hs Hr Hh Hk Hl Hf.
  destruct (key_digest_in_place s n key Hs Hr Hk Hl) as (digs & Ed & Hdl & Hdt).
  exists digs. split; [done|].
  assert (length key = (key_blocks_num n * HASH_LENGTH_TRIT)%nat) as Hl' by (by rewrite Hl, key_len).
  rewrite (signature_eq s hash key (key_blocks_num n)) by done. split_and!; [done| |].
  { rewrite (length_concat_blocks _ HASH_LENGTH_TRIT); [done|]. intros j Hj.
    destruct (block_ok j (key_blocks_num n) key); [done..|lia|]. by apply chain_of_ok. }
  pose proof (sig_digest_fragment s hash key n f Hs Hr Hh Hk Hl Hf) as E. cbv zeta in E.
  unfold frag at 1 in E. rewrite E. split; [done|].
  destruct (chained_ok s (key_blocks_num n) key Hs Hk Hl') as [Hco Hcl].
  assert (buf_read (f * HASH_LENGTH_TRIT) HASH_LENGTH_TRIT digs =
          buf_read (f * HASH_LENGTH_TRIT) HASH_LENGTH_TRIT (take (n * HASH_LENGTH_TRIT) digs)) as ->.
  { unfold buf_read. rewrite <- (take_drop (n * HASH_LENGTH_TRIT) digs) at 1.
    unfold ISS_KEY_LENGTH, ISS_FRAGMENTS in Hl.
    rewrite drop_app_le by (rewrite length_take; nia).
    rewrite take_app_le by (rewrite length_drop, length_take; nia). done. }
  rewrite Hdt, <- (app_nil_r (concat _)).
  rewrite (read_concat _ HASH_LENGTH_TRIT n) by (done || (intros; apply length_hash_of; [done|];
    unfold frag, buf_read; solve_forall)). done.
Qed.

(** A sponge small enough to run a whole signature. *)
Module ToySponge.
Definition step (l : list Z) : list Z :=
  map (fun '(a, b) => i8 ((a + 2 * b + 2) mod 3 - 1)) (zip l (drop 1 l ++ take 1 l)).
Definition ok (s : list Z) : Prop := length s = HASH_LENGTH_TRIT /\ trits_ok s.
Definition zero : list Z := replicate HASH_LENGTH_TRIT 0.
Definition fill (n : nat) (s : list Z) : list Z := concat (replicate n s).

Lemma step_ok s : ok s -> ok (step s).
Proof.
  intros [Hl Ht]. split; unfold step.
  - rewrite length_map, length_zip_with, length_app, length_drop, length_take. lia.
  - apply List.Forall_map, List.Forall_forall. intros [a b] _. unfold is_trit.
    pose proof (Z.mod_pos_bound (a + 2 * b + 2) 3 ltac:(lia)). rewrite swrap_small by lia. lia.
Qed.

#[global] Instance sponge : Sponge (list Z) := {
  sponge_ok := ok;
  regular _ := True;
  absorb s ts := foldl (fun s b => step (buf_write 0 (take HASH_LENGTH_TRIT b) s)) s (chunks HASH_LENGTH_TRIT ts);
  squeeze s n := (take n (fill (num_blocks n) s), step s);
  reset _ := zero }.

#[global] Instance laws : SpongeLaws (list Z).
Proof.
  assert (ok zero) as Hz.
  { split; [apply length_replicate|]. apply Forall_replicate. unfold is_trit. lia. }
  assert (forall n s, ok s -> length (fill n s) = (n * HASH_LENGTH_TRIT)%nat /\ trits_ok (fill n s)) as Hf.
  { intros n s [Hl Ht]. unfold fill. induction n as [|n [IH1 IH2]]; [done|]. cbn [replicate concat].
    split; [rewrite length_app; lia|by apply Forall_app]. }
  split; try done; cbn.
  - intros s ts Hs Hts. apply (foldl_inv _ (Forall is_trit) ok); [|by apply Forall_chunks|done].
    intros s' b [Hl' Ht'] Hb. apply step_ok. split; [by rewrite length_buf_write by lia|].
    unfold buf_write. solve_forall.
  - intros. by apply step_ok.
  - intros s k Hs. rewrite length_take, num_blocks_exact.
    destruct (Hf k s Hs) as [-> _]. lia.
  - intros s n Hs. apply Forall_take. by apply Hf.
  - intros s k l1 l2 Hl _.
    rewrite (chunks_app _ k) by (done || (unfold HASH_LENGTH_TRIT; lia)). apply foldl_app.
Qed.
End ToySponge.

Lemma iss_signature_verifies_witness :
  let key := replicate ISS_KEY_LENGTH 1 ++ replicate ISS_KEY_LENGTH 0 in
  let hash := replicate 100 1 ++ replicate 143 (-1) in
  exists digests,
    iss_key_digest ToySponge.zero key 0 (length key) = Some (digests, ToySponge.zero) /\
    let '(sig, s') := iss_signature ToySponge.zero hash key in
    s' = ToySponge.zero /\ length sig = length key /\
    let '(dig, _, s'') :=
      iss_sig_digest ToySponge.zero (drop (1 * ISS_FRAGMENTS * 3) hash)
        (buf_read (1 * ISS_KEY_LENGTH) ISS_KEY_LENGTH sig) in
    s'' = ToySponge.zero /\ dig = buf_read (1 * HASH_LENGTH_TRIT) HASH_LENGTH_TRIT digests.
Proof.
  cbv zeta. apply (iss_signature_verifies _ _ _ 2).
  - split; [reflexivity|closed_decide].
  - reflexivity.
  - closed_decide.
  - closed_decide.
  - rewrite length_app, !length_replicate. reflexivity.
  - lia.
Defined.

(** A Merkle path leads to the root it was cut from: the loop hashes the leaf
    with one sibling per level, on the side that the level's bit of the leaf index
    gives, and leaves the sponge reset. *)
Theorem iss_merkle_root_path {St} `{SpongeLaws St} s hash siblings n leaf_index : reset s = s ->
  iss_merkle_root s hash siblings n leaf_index =
    (root_of s 0 leaf_index (map (fun j => block j siblings) (seq 0 n)) hash, s).
Proof. intros Hr. unfold iss_merkle_root. by apply merkle_root_loop_eq. Qed.

Lemma iss_merkle_root_path_witness :
  iss_merkle_root ToySponge.zero (replicate 243 1) (replicate 486 (-1)) 2 1 =
    (root_of ToySponge.zero 0 1 (map (fun j => block j (replicate 486 (-1))) (seq 0 2)) (replicate 243 1),
     ToySponge.zero).
Proof. apply iss_merkle_root_path. reflexivity. Defined.
