(* ===== verification/IssV2.v ===== *)
(** * The second signing scheme

    [common/crypto/iss/v2/iss.c.inc], instantiated at Curl and at Kerl; as for the first
    scheme the model is over the sponge interface, with the names that the instance at
    Curl has.  It differs from the first one in how a key is derived, in that the whole key
    has one digest, and in that the part of the hash that is signed is a window of it, whose
    trits sum to zero. *)
From S2P Require Import Prelude Trits Sponge Normalize Iss.

Definition TRYTE_WIDTH : nat := 3.
Definition ISS_CHUNK_LENGTH : nat := HASH_LENGTH_TRIT / TRYTE_WIDTH.

Section IssV2.
Context {St : Type} {Sp : Sponge St}.

Definition iss_curl_subseed (s : St) (seed : list Z) (index : Z) : list Z * St :=
  let out := take HASH_LENGTH_TRIT seed in
  let '(_, out) := add_assign out index in
  hash_step s out.

(** [None] for the return value [-1]. *)
Definition iss_curl_key (s : St) (subseed : list Z) (key_length : nat) : option (list Z * St) :=
  if negb (key_length mod HASH_LENGTH_TRIT =? 0)%nat then None else
  let s := absorb s subseed in
  let '(key, s) := squeeze s key_length in
  Some (for_blocks (fun _ s block => hash_step s block) (num_blocks key_length) 0 (reset s) key).

Definition iss_curl_digest (s : St) (chunk : list Z) (count : Z) : Z * list Z * St :=
  if (27 <=? count) || (count <? 0) then (1, chunk, s) else
  let '(chunk, s) := chain (Z.to_nat count) s chunk in (0, chunk, s).

(** A call whose result is not looked at. *)
Definition digest_block (count : Z) (s : St) (block : list Z) : list Z * St :=
  let '(_, block, s) := iss_curl_digest s block count in (block, s).

(** The digest and what is left in the buffer of the key. *)
Definition iss_curl_key_digest (s : St) (key : list Z) (key_length : nat) : option (list Z * list Z * St) :=
  if negb (key_length mod HASH_LENGTH_TRIT =? 0)%nat then None else
  let '(key, s) := for_blocks (fun _ => digest_block 26) (num_blocks key_length) 0 s key in
  let '(digest, s) := hash_step s (take key_length key) in Some (digest, key, s).

Definition iss_curl_address (s : St) (digest : list Z) : list Z * St := hash_step s digest.

Fixpoint window_loop (n i : nat) (sum : Z) (hash : list Z) : nat :=
  match n with
  | O => 0
  | S n =>
      let sum := foldl Z.add sum (take (HASH_LENGTH_TRIT / TRYTE_WIDTH) hash) in
      if sum =? 0 then i else window_loop n (S i) sum (drop (HASH_LENGTH_TRIT / TRYTE_WIDTH) hash)
  end.

Definition signed_window (hash : list Z) : nat := window_loop TRYTE_WIDTH 1 0 hash.

(** The values that [j] takes in the two nested loops, one for each of [n] blocks. *)
Fixpoint window_positions (n window i j : nat) : list nat :=
  match n with
  | O => []
  | S n => j :: if (j + TRYTE_WIDTH <? (i + 1) * ISS_CHUNK_LENGTH)%nat then window_positions n window i (j + TRYTE_WIDTH)
                else let i := ((i + 1) mod window)%nat in window_positions n window i (i * ISS_CHUNK_LENGTH)
  end.

Definition positions (window offset n : nat) : list nat :=
  let i := (offset mod window)%nat in window_positions n window i (i * ISS_CHUNK_LENGTH).

Definition tryte_at (hash : list Z) (j : nat) : Z := nth j hash 0 + nth (j + 1) hash 0 * 3 + nth (j + 2) hash 0 * 9.

(** [sig] starts as a copy of [key], or is [key]. *)
Definition iss_curl_signature (s : St) (hash : list Z) (start_offset : nat) (key : list Z) : Z * list Z * St :=
  let window := signed_window hash in
  if (window =? 0)%nat then (1, key, s) else
  let n := num_blocks (length key) in
  let ps := positions window start_offset n in
  let '(sig, s) := for_blocks (fun b => digest_block (TRYTE_VALUE_MAX - tryte_at hash (nth b ps 0%nat))) n 0 s key in
  (0, sig, s).

(** [dig] is the buffer of the digest.  What is absorbed may lie beyond the end of the
    signature, which is undefined: [None]. *)
Definition iss_curl_sig_digest (s : St) (dig hash : list Z) (offset : nat) (sig : list Z) : option (Z * list Z * list Z * St) :=
  let window := signed_window hash in
  if (window =? 0)%nat then Some (1, dig, sig, s) else
  let n := num_blocks (length sig) in
  let ps := positions window offset n in
  let '(sig, s) := for_blocks (fun b => digest_block (tryte_at hash (nth b ps 0%nat) - TRYTE_VALUE_MIN)) n 0 s sig in
  if (length sig <? window * ISS_KEY_LENGTH)%nat then None else
  let '(dig, s) := hash_step s (take (window * ISS_KEY_LENGTH) sig) in Some (0, dig, sig, s).
End IssV2.

(** * Lemmas *)
Section Lemmas.
Context {St : Type} `{SpongeLaws St}.

(** The trytes of a hash are signed with at most 26 turns, which verification completes. *)
Lemma tryte_at_range hash j : trits_ok hash -> -13 <= tryte_at hash j <= 13.
Proof.
  intros Hh. assert (forall i, -1 <= nth i hash 0 <= 1) as Hn.
  { intros i. destruct (Nat.lt_ge_cases i (length hash)) as [Hi|Hi]; [|rewrite nth_overflow by done; lia].
    rewrite List.Forall_forall in Hh. apply Hh, nth_In, Hi. }
  unfold tryte_at. pose proof (Hn j). pose proof (Hn (j + 1)%nat). pose proof (Hn (j + 2)%nat). lia.
Qed.

Lemma digest_block_eq s b count : reset s = s -> 0 <= count < 27 ->
  digest_block count s b = (chain_of s (Z.to_nat count) b, s).
Proof.
  intros Hr Hc. unfold digest_block, iss_curl_digest.
  replace ((27 <=? count) || (count <? 0)) with false by lia. by rewrite chain_eq.
Qed.

(** A loop that hashes block [b] [r b] times. *)
Lemma digest_blocks_eq s (r : nat -> Z) n key : sponge_ok s -> reset s = s -> trits_ok key ->
  length key = (n * HASH_LENGTH_TRIT)%nat -> (forall b, 0 <= r b < 27) ->
  for_blocks (fun b => digest_block (r b)) n 0 s key =
    (concat (map (fun b => chain_of s (Z.to_nat (r b)) (block b key)) (seq 0 n)), s).
Proof.
  intros Hs Hr Hk Hl Hc. apply (for_blocks_all _ (fun b => chain_of s (Z.to_nat (r b)) (block b key))); [done|].
  intros j Hj. destruct (block_ok j n key) as [Hb Hbl]; [done..|]. rewrite digest_block_eq by done.
  split; [done|]. by apply chain_of_ok.
Qed.

Lemma blocks_ok s (r : nat -> nat) n key : sponge_ok s -> trits_ok key -> length key = (n * HASH_LENGTH_TRIT)%nat ->
  forall j, (j < n)%nat -> trits_ok (chain_of s (r j) (block j key)) /\ length (chain_of s (r j) (block j key)) = HASH_LENGTH_TRIT.
Proof. intros Hs Hk Hl j Hj. destruct (block_ok j n key); [done..|]. by apply chain_of_ok. Qed.

Lemma concat_blocks_ok (g : nat -> list Z) n :
  (forall j, (j < n)%nat -> trits_ok (g j) /\ length (g j) = HASH_LENGTH_TRIT) ->
  trits_ok (concat (map g (seq 0 n))) /\ length (concat (map g (seq 0 n))) = (n * HASH_LENGTH_TRIT)%nat.
Proof.
  intros Hg. split; [|apply length_concat_blocks; intros; apply Hg; lia].
  apply Forall_concat, List.Forall_map, List.Forall_forall. intros j Hj. apply in_seq in Hj. apply Hg. lia.
Qed.

(** The first blocks of a concatenation. *)
Lemma take_concat_blocks (g : nat -> list Z) m n : (m <= n)%nat ->
  (forall j, (j < n)%nat -> length (g j) = HASH_LENGTH_TRIT) ->
  take (m * HASH_LENGTH_TRIT) (concat (map g (seq 0 n))) = concat (map g (seq 0 m)).
Proof.
  intros Hm Hg. replace n with (m + (n - m))%nat by lia. rewrite seq_app, List.map_app, concat_app.
  apply take_app_length'. symmetry. apply length_concat_blocks. intros. apply Hg. lia.
Qed.

Lemma block_take j m key : (j < m)%nat -> block j (take (m * HASH_LENGTH_TRIT) key) = block j key.
Proof.
  intros Hj. unfold block, buf_read. rewrite skipn_firstn_comm, take_take. f_equal. nia.
Qed.

Lemma key_digest_eq s key n : sponge_ok s -> reset s = s -> trits_ok key -> length key = (n * HASH_LENGTH_TRIT)%nat ->
  iss_curl_key_digest s key (length key) = Some (hash_of s (chained s n key), chained s n key, s).
Proof.
  intros Hs Hr Hk Hl. unfold iss_curl_key_digest. rewrite Hl, Nat.Div0.mod_mul, num_blocks_exact. cbn [Nat.eqb negb].
  rewrite (digest_blocks_eq s (fun _ => 26) n) by (done || lia). change (Z.to_nat 26) with 26%nat. fold (chained s n key).
  destruct (chained_ok s n key) as [_ Hcl]; [done..|]. rewrite take_ge by lia. by rewrite hash_step_eq.
Qed.
End Lemmas.

(** * Properties *)

(** C38: with the second scheme as well, verification of a genuine signature recovers the
    digest of the key.  When the first [w] thirds of the hash are the least that sum to zero,
    it is the digest of the first [w] fragments of the key, whatever lies behind them and
    wherever in the window the signing starts. *)
Theorem iss_v2_signature_verifies {St} `{SpongeLaws St} s hash offset key n dig :
  sponge_ok s -> reset s = s -> trits_ok hash -> trits_ok key -> length key = (n * ISS_KEY_LENGTH)%nat ->
  let w := signed_window hash in (0 < w <= n)%nat ->
  exists digest chains sig sig',
    iss_curl_key_digest s (take (w * ISS_KEY_LENGTH) key) (w * ISS_KEY_LENGTH) = Some (digest, chains, s) /\
    iss_curl_signature s hash offset key = (0, sig, s) /\ length sig = length key /\
    iss_curl_sig_digest s dig hash offset sig = Some (0, digest, sig', s).
Proof.
  intros Hs Hr Hh Hk Hl w Hw.
  assert (forall m, (m * ISS_KEY_LENGTH = m * ISS_FRAGMENTS * HASH_LENGTH_TRIT)%nat) as Hlen by (intros m; unfold ISS_KEY_LENGTH; lia).
  rewrite Hlen in *. set (nb := (n * ISS_FRAGMENTS)%nat) in *. set (wb := (w * ISS_FRAGMENTS)%nat) in *.
  assert (wb <= nb)%nat as Hle by (unfold wb, nb; nia).
  assert (length (take (wb * HASH_LENGTH_TRIT) key) = (wb * HASH_LENGTH_TRIT)%nat) as Hlt by (rewrite length_take; nia).
  pose proof (key_digest_eq s (take (wb * HASH_LENGTH_TRIT) key) wb Hs Hr (Forall_take _ _ _ Hk) Hlt) as Ed. rewrite Hlt in Ed.
  set (t := fun b => tryte_at hash (nth b (positions w offset nb) 0%nat)).
  assert (forall b, -13 <= t b <= 13) as Ht by (intros b; by apply tryte_at_range).
  set (g := fun b => chain_of s (Z.to_nat (TRYTE_VALUE_MAX - t b)) (block b key)).
  destruct (concat_blocks_ok g nb) as [Hg Hgl]; [intros; by apply (blocks_ok s (fun b => Z.to_nat (TRYTE_VALUE_MAX - t b)) nb)|].
  assert (iss_curl_signature s hash offset key = (0, concat (map g (seq 0 nb)), s)) as Es.
  { unfold iss_curl_signature. fold w. destruct (Nat.eqb_spec w 0); [lia|]. rewrite Hl, num_blocks_exact.
    rewrite (digest_blocks_eq s (fun b => TRYTE_VALUE_MAX - t b)); [done..|]. intros b. pose proof (Ht b). unfold TRYTE_VALUE_MAX. lia. }
  eexists _, _, _, (chained s nb key). split_and!; [exact Ed|exact Es|lia|]. clear Es Ed.
  unfold iss_curl_sig_digest. fold w. destruct (Nat.eqb_spec w 0); [lia|]. rewrite Hgl, num_blocks_exact.
  rewrite (digest_blocks_eq s (fun b => t b - TRYTE_VALUE_MIN)); [|done..|].
  2: { intros b. pose proof (Ht b). unfold TRYTE_VALUE_MIN. lia. }
  assert (concat (map (fun b => chain_of s (Z.to_nat (t b - TRYTE_VALUE_MIN)) (block b (concat (map g (seq 0 nb))))) (seq 0 nb)) =
    chained s nb key) as ->.
  { unfold chained. f_equal. apply map_ext_in. intros j Hj. apply in_seq in Hj.
    rewrite block_concat by (lia || (intros; by apply (blocks_ok s (fun b => Z.to_nat (TRYTE_VALUE_MAX - t b)) nb))).
    unfold g. rewrite chain_of_add. f_equal. pose proof (Ht j). unfold TRYTE_VALUE_MAX, TRYTE_VALUE_MIN. lia. }
  destruct (chained_ok s nb key) as [_ Hcl]; [done..|]. rewrite Hlen. fold wb. destruct (Nat.ltb_spec (length (chained s nb key)) (wb * HASH_LENGTH_TRIT)); [nia|].
  rewrite hash_step_eq by done. do 5 f_equal. unfold chained at 1. rewrite (take_concat_blocks _ wb nb); [|done|].
  2: { intros; by apply (blocks_ok s (fun _ => 26%nat) nb). }
  unfold chained. f_equal. apply map_ext_in. intros j Hj. apply in_seq in Hj. by rewrite block_take by lia.
Qed.

(** The hash sums to zero after two thirds; the key has one fragment more. *)
Lemma iss_v2_signature_verifies_witness :
  let key := replicate (3 * ISS_KEY_LENGTH) 1 in
  let hash := replicate 81 1 ++ replicate 81 (-1) ++ replicate 81 1 in
  exists digest chains sig sig',
    iss_curl_key_digest ToySponge.zero (take (2 * ISS_KEY_LENGTH) key) (2 * ISS_KEY_LENGTH) = Some (digest, chains, ToySponge.zero) /\
    iss_curl_signature ToySponge.zero hash 1 key = (0, sig, ToySponge.zero) /\ length sig = length key /\
    iss_curl_sig_digest ToySponge.zero [] hash 1 sig = Some (0, digest, sig', ToySponge.zero).
Proof.
  cbv zeta. apply (iss_v2_signature_verifies ToySponge.zero (replicate 81 1 ++ replicate 81 (-1) ++ replicate 81 1) 1
    (replicate (3 * ISS_KEY_LENGTH) 1) 3 []).
  - split; [reflexivity|closed_decide].
  - reflexivity.
  - closed_decide.
  - closed_decide.
  - rewrite length_replicate. reflexivity.
  - vm_compute. lia.
Defined.
