(* ===== verification/Merkle.v ===== *)
(** * Merkle trees

    [utils/merkle.c]: perfect trees of the addresses of the second signing scheme, whose
    nodes lie in one array, every node before its left and this before its right subtree.
    The C code is about Curl; as the signing schemes are, the model is over the sponge
    interface. *)
From S2P Require Import Prelude Trits Sponge Normalize Iss IssV2.

Definition LEAF_INDEX_OUT_OF_BOUNDS : Z := 3.
Definition DEPTH_OUT_OF_BOUNDS : Z := 4.
Definition merkle_null_hash : list Z := replicate HASH_LENGTH_TRIT 0.

(** ** Shape

    [1 << n] is a shift of an [int], which is undefined from [n = 31] on; the functions
    that return an option are [None] where it happens, the others are used below. *)

Definition binary_tree_size (acc depth : Z) : Z := u64 (2 ^ (depth + 1) - 1 + acc).

(** [count] is halved: at most 64 turns. *)
Fixpoint merkle_size_loop (fuel : nat) (acc count : Z) : Z :=
  match fuel with
  | O => acc
  | S fuel => if 2 <=? count then merkle_size_loop fuel (u64 (acc + count)) (Z.shiftr (u64 (count + 1)) 1) else acc
  end.

Definition merkle_size (leaf_count : Z) : Z :=
  if leaf_count =? 0 then 0 else if leaf_count =? 1 then 1 else merkle_size_loop 64 1 leaf_count.

Fixpoint merkle_depth_loop (fuel : nat) (depth node_count : Z) : option Z :=
  match fuel with
  | O => None
  | S fuel => if binary_tree_size 0 depth <? node_count then merkle_depth_loop fuel (depth + 1) node_count else Some (depth + 1)
  end.

Definition merkle_depth (node_count : Z) : option Z := merkle_depth_loop 30 0 node_count.

(** The loop, of [n] turns to go. *)
Fixpoint node_index_loop (n : nat) (depth_cursor width_of_leaves tree_depth index width_cursor : Z) : Z :=
  match n with
  | O => index
  | S n =>
      let half := Z.shiftr width_of_leaves depth_cursor in
      if half <=? width_cursor
      then node_index_loop n (depth_cursor + 1) width_of_leaves tree_depth
             (u64 (index + (2 ^ (tree_depth - depth_cursor + 1) - 1))) (u64 (width_cursor - half))
      else node_index_loop n (depth_cursor + 1) width_of_leaves tree_depth index width_cursor
  end.

Definition merkle_node_index_traverse (acc depth width tree_depth : Z) : Z :=
  if tree_depth =? 0 then 0 else
  node_index_loop (Z.to_nat depth) 1 (2 ^ depth) tree_depth (u64 (depth + acc)) width.

Definition merkle_node_index (depth width tree_depth : Z) : Z := merkle_node_index_traverse 0 depth width tree_depth.

Definition merkle_leaf_index (leaf_index leaf_count : Z) : Z := u64 (leaf_count - leaf_index - 1).

(** The trits of a node. *)
Definition node_offset (depth width tree_depth : Z) : nat := HASH_LENGTH_TRIT * Z.to_nat (merkle_node_index depth width tree_depth).
Definition get_node (depth width tree_depth : Z) (tree : list Z) : list Z :=
  buf_read (node_offset depth width tree_depth) HASH_LENGTH_TRIT tree.

Section Merkle.
Context {St : Type} {Sp : Sponge St}.

(** The length of the key is a multiple of the length of a hash, so that neither
    [iss_curl_key] nor [iss_curl_key_digest] fails; [None] where they do. *)
Definition merkle_leaf (seed : list Z) (index : Z) (key_size : nat) (c : St) : option (list Z * St) :=
  let '(key, c) := iss_curl_subseed c seed index in
  match iss_curl_key c key key_size with
  | None => None
  | Some (key, c) =>
      match iss_curl_key_digest c key key_size with
      | None => None
      | Some (digest, _, c) => Some (iss_curl_address c digest)
      end
  end.

Fixpoint leaves_loop (n : nat) (leaf_index base_size : Z) (seed : list Z) (offset td : Z) (key_size : nat) (tree : list Z) (c : St)
    : option (list Z * St) :=
  match n with
  | O => Some (tree, c)
  | S n =>
      match merkle_leaf seed (i64 (u64 (offset + merkle_leaf_index leaf_index base_size))) key_size c with
      | None => None
      | Some (leaf, c) =>
          leaves_loop n (leaf_index + 1) base_size seed offset td key_size (buf_write (node_offset td leaf_index td) leaf tree) c
      end
  end.

(** The nodes of [depth - 1], from two nodes of [depth] each; [n] of them to go. *)
Fixpoint level_loop (n : nat) (width cur_size depth td : Z) (tree : list Z) (c : St) : list Z * St :=
  match n with
  | O => (tree, c)
  | S n =>
      let c := if width <? u64 (cur_size - 1)
               then absorb (absorb c (get_node depth (width + 1) td tree)) (get_node depth width td tree)
               else absorb (absorb c (get_node depth width td tree)) merkle_null_hash in
      let '(hash, c) := squeeze c HASH_LENGTH_TRIT in
      level_loop n (width + 2) cur_size depth td (buf_write (node_offset (depth - 1) (Z.shiftr width 1) td) hash tree) (reset c)
  end.

Fixpoint levels_loop (depth : nat) (cur_size td : Z) (tree : list Z) (c : St) : list Z * St :=
  match depth with
  | O => (tree, c)
  | S d =>
      let '(tree, c) := level_loop (Z.to_nat (Z.shiftr (cur_size + 1) 1)) 0 cur_size (Z.of_nat depth) td tree c in
      levels_loop d (Z.shiftr (u64 (cur_size + 1)) 1) td tree c
  end.

Definition merkle_create (tree : list Z) (base_size : Z) (seed : list Z) (offset : Z) (security : nat) (c : St)
    : option (Z * list Z * St) :=
  if negb (base_size =? 0) && negb (Z.land base_size (base_size - 1) =? 0) then Some (-1, tree, c) else
  match merkle_depth (merkle_size base_size) with
  | None => None
  | Some depth =>
      let td := u64 (depth - 1) in
      match leaves_loop (Z.to_nat base_size) 0 base_size seed offset td (security * ISS_KEY_LENGTH) tree c with
      | None => None
      | Some (tree, c) => let '(tree, c) := levels_loop (Z.to_nat td) base_size td tree c in Some (0, tree, c)
      end
  end.

(** [merkle_root] is the text of [iss_merkle_root] with another type for the state. *)
Definition merkle_root (c : St) (hash siblings : list Z) (siblings_number leaf_index : nat) : list Z * St :=
  merkle_root_loop siblings_number 0 c hash siblings leaf_index.
End Merkle.

(** [depth_index] turns to go; [i] counts them. *)
Fixpoint branch_loop (depth_index i : nat) (sibling_index : Z) (tree : list Z) (tree_length tree_depth : Z) (siblings : list Z) : list Z :=
  match depth_index with
  | O => siblings
  | S d =>
      let sibling_index := if Z.testbit sibling_index 0 then sibling_index - 1 else u64 (sibling_index + 1) in
      let site_index := u64 (Z.of_nat HASH_LENGTH_TRIT * merkle_node_index (Z.of_nat depth_index) sibling_index (tree_depth - 1)) in
      let sibling := if tree_length <=? site_index then merkle_null_hash else buf_read (Z.to_nat site_index) HASH_LENGTH_TRIT tree in
      branch_loop d (S i) (Z.shiftr sibling_index 1) tree tree_length tree_depth (buf_write (i * HASH_LENGTH_TRIT) sibling siblings)
  end.

(** The pointers are not null. *)
Definition merkle_branch (tree siblings : list Z) (tree_length tree_depth leaf_index leaf_count : Z) : option (Z * list Z) :=
  if tree_length <=? u64 (Z.of_nat HASH_LENGTH_TRIT * merkle_node_index (u64 (tree_depth - 1)) leaf_index (u64 (tree_depth - 1)))
  then Some (LEAF_INDEX_OUT_OF_BOUNDS, siblings) else
  match merkle_depth (tree_length / Z.of_nat HASH_LENGTH_TRIT) with
  | None => None
  | Some depth =>
      if depth <? tree_depth then Some (DEPTH_OUT_OF_BOUNDS, siblings) else
      Some (0, branch_loop (Z.to_nat (tree_depth - 1)) 0 (merkle_leaf_index leaf_index leaf_count) tree tree_length tree_depth siblings)
  end.

(** * The order of the nodes *)

(** How many nodes of left subtrees come before a node, besides those on its path. *)
Fixpoint skips (td d : nat) (w : Z) : Z :=
  match d with
  | O => 0
  | S d => if 2 ^ Z.of_nat d <=? w then 2 ^ Z.of_nat td - 1 + skips (td - 1) d (w - 2 ^ Z.of_nat d) else skips (td - 1) d w
  end.

Definition preorder (td d : nat) (w : Z) : Z := Z.of_nat d + skips td d w.

Lemma tree_pow_S n : 2 ^ Z.of_nat (S n) = 2 * 2 ^ Z.of_nat n.
Proof. rewrite Nat2Z.inj_succ. apply Z.pow_succ_r. lia. Qed.

Lemma tree_pow_pos n : 0 < 2 ^ Z.of_nat n.
Proof. apply Z.pow_pos_nonneg; lia. Qed.

Lemma preorder_range d : forall td w, (d <= td)%nat -> 0 <= w < 2 ^ Z.of_nat d -> 0 <= preorder td d w <= 2 * 2 ^ Z.of_nat td - 2.
Proof.
  unfold preorder. induction d as [|d IH]; intros td w Hd Hw; cbn [skips].
  - pose proof (tree_pow_pos td). lia.
  - destruct td as [|td]; [lia|]. rewrite tree_pow_S in Hw. rewrite Nat.sub_succ, Nat.sub_0_r, tree_pow_S. pose proof (tree_pow_pos td).
    destruct (Z.leb_spec (2 ^ Z.of_nat d) w).
    + pose proof (IH td (w - 2 ^ Z.of_nat d)). lia.
    + pose proof (IH td w). lia.
Qed.

Lemma preorder_inj d : forall td w d' w', (d <= td)%nat -> (d' <= td)%nat -> 0 <= w < 2 ^ Z.of_nat d -> 0 <= w' < 2 ^ Z.of_nat d' ->
  preorder td d w = preorder td d' w' -> d = d' /\ w = w'.
Proof.
  induction d as [|d IH]; intros td w [|d'] w' Hd Hd' Hw Hw' E.
  - cbn in Hw, Hw'. lia.
  - exfalso. destruct td as [|td]; [lia|]. unfold preorder in E. cbn [skips] in E. rewrite Nat.sub_succ, Nat.sub_0_r, !tree_pow_S in *. pose proof (tree_pow_pos td).
    destruct (Z.leb_spec (2 ^ Z.of_nat d') w').
    + pose proof (preorder_range d' td (w' - 2 ^ Z.of_nat d')). unfold preorder in *. lia.
    + pose proof (preorder_range d' td w'). unfold preorder in *. lia.
  - exfalso. destruct td as [|td]; [lia|]. unfold preorder in E. cbn [skips] in E. rewrite Nat.sub_succ, Nat.sub_0_r, !tree_pow_S in *. pose proof (tree_pow_pos td).
    destruct (Z.leb_spec (2 ^ Z.of_nat d) w).
    + pose proof (preorder_range d td (w - 2 ^ Z.of_nat d)). unfold preorder in *. lia.
    + pose proof (preorder_range d td w). unfold preorder in *. lia.
  - destruct td as [|td]; [lia|]. unfold preorder in E. cbn [skips] in E. rewrite Nat.sub_succ, Nat.sub_0_r, !tree_pow_S in *.
    destruct (Z.leb_spec (2 ^ Z.of_nat d) w), (Z.leb_spec (2 ^ Z.of_nat d') w').
    + destruct (IH td (w - 2 ^ Z.of_nat d) d' (w' - 2 ^ Z.of_nat d')) as [-> ?]; unfold preorder; lia.
    + exfalso. pose proof (preorder_range d td (w - 2 ^ Z.of_nat d)). pose proof (preorder_range d' td w'). unfold preorder in *. lia.
    + exfalso. pose proof (preorder_range d' td (w' - 2 ^ Z.of_nat d')). pose proof (preorder_range d td w). unfold preorder in *. lia.
    + destruct (IH td w d' w') as [-> ?]; unfold preorder; lia.
Qed.

(** The loop adds up what the path skips. *)
Lemma node_index_loop_eq n : forall t k index w, (n <= t)%nat -> 0 <= w < 2 ^ Z.of_nat n -> 0 <= index ->
  index + 2 * 2 ^ Z.of_nat t < 2 ^ 63 -> 0 <= k ->
  node_index_loop n (k + 1) (2 ^ (k + Z.of_nat n)) (k + Z.of_nat t) index w = index + skips t n w.
Proof.
  induction n as [|n IH]; intros t k index w Hn Hw Hi Hb Hk; cbn [node_index_loop skips]; [lia|].
  destruct t as [|t]; [lia|]. rewrite tree_pow_S in *. pose proof (tree_pow_pos t). pose proof (tree_pow_pos n).
  assert (2 ^ Z.of_nat n <= 2 ^ Z.of_nat t) by (apply Z.pow_le_mono_r; lia).
  assert (Z.shiftr (2 ^ (k + Z.of_nat (S n))) (k + 1) = 2 ^ Z.of_nat n) as ->.
  { rewrite Z.shiftr_div_pow2 by lia. replace (k + Z.of_nat (S n)) with (Z.of_nat n + (k + 1)) by lia.
    rewrite Z.pow_add_r by lia. apply Z.div_mul. apply Z.pow_nonzero; lia. }
  replace (k + Z.of_nat (S t) - (k + 1) + 1) with (Z.of_nat (S t)) by lia. rewrite tree_pow_S.
  replace (k + Z.of_nat (S n)) with (k + 1 + Z.of_nat n) by lia. replace (k + Z.of_nat (S t)) with (k + 1 + Z.of_nat t) by lia.
  rewrite Nat.sub_succ, Nat.sub_0_r. destruct (Z.leb_spec (2 ^ Z.of_nat n) w).
  - rewrite !uwrap_small by lia. rewrite (IH t (k + 1)) by lia. lia.
  - rewrite (IH t (k + 1)) by lia. lia.
Qed.

Lemma half_up x : Z.shiftr (2 * x + 1) 1 = x.
Proof. rewrite Z.shiftr_div_pow2 by lia. change (2 ^ 1) with 2. symmetry. apply (Z.div_unique _ 2 _ 1); lia. Qed.

Lemma half x : Z.shiftr (2 * x) 1 = x.
Proof. rewrite Z.shiftr_div_pow2 by lia. change (2 ^ 1) with 2. symmetry. apply (Z.div_unique _ 2 _ 0); lia. Qed.

Lemma merkle_size_loop_eq k : forall fuel acc, (k < fuel)%nat -> 0 <= acc -> acc + 2 * 2 ^ Z.of_nat k < 2 ^ 63 ->
  merkle_size_loop fuel acc (2 ^ Z.of_nat k) = acc + 2 * 2 ^ Z.of_nat k - 2.
Proof.
  induction k as [|k IH]; intros [|fuel] acc Hf Ha Hb; [lia| |lia|]; cbn [merkle_size_loop]; [change (2 ^ Z.of_nat 0) with 1 in *; cbn [Z.leb Z.compare]; change (2 <=? 1) with false; cbv iota; lia|].
  rewrite tree_pow_S in *. pose proof (tree_pow_pos k). replace (2 <=? 2 * 2 ^ Z.of_nat k) with true by lia.
  rewrite !uwrap_small by lia. rewrite half_up, IH by lia. lia.
Qed.

Section Shape.
Context (td : nat) (Htd : (td <= 29)%nat).

Lemma pow2_small : 0 < 2 ^ Z.of_nat td <= 2 ^ 29.
Proof using Htd. split; [apply tree_pow_pos|]. apply Z.pow_le_mono_r; lia. Qed.

Lemma node_index_eq d w : (d <= td)%nat -> 0 <= w < 2 ^ Z.of_nat d ->
  merkle_node_index (Z.of_nat d) w (Z.of_nat td) = preorder td d w.
Proof using Htd.
  intros Hd Hw. unfold merkle_node_index, merkle_node_index_traverse, preorder. pose proof pow2_small.
  destruct (Z.eqb_spec (Z.of_nat td) 0) as [E|E].
  - destruct d; [|lia]. done.
  - rewrite Nat2Z.id, Z.add_0_r. rewrite uwrap_small by lia.
    pose proof (node_index_loop_eq d td 0 (Z.of_nat d) w) as Hl. rewrite !Z.add_0_l in Hl. apply Hl; lia.
Qed.

Lemma merkle_size_eq : merkle_size (2 ^ Z.of_nat td) = 2 * 2 ^ Z.of_nat td - 1.
Proof using Htd.
  unfold merkle_size. pose proof pow2_small. destruct (Z.eqb_spec (2 ^ Z.of_nat td) 0); [lia|].
  destruct (Z.eqb_spec (2 ^ Z.of_nat td) 1) as [->|]; [done|]. rewrite merkle_size_loop_eq by lia. lia.
Qed.

Lemma merkle_depth_loop_eq n : forall d fuel, (td = d + n)%nat -> (n < fuel)%nat ->
  merkle_depth_loop fuel (Z.of_nat d) (2 * 2 ^ Z.of_nat td - 1) = Some (Z.of_nat td + 1).
Proof using Htd.
  pose proof pow2_small. induction n as [|n IH]; intros d [|fuel] Hd Hf; [lia| |lia|]; cbn [merkle_depth_loop]; unfold binary_tree_size.
  - assert (2 ^ (Z.of_nat d + 1) = 2 * 2 ^ Z.of_nat td) as ->.
    { rewrite <- Z.pow_succ_r by lia. f_equal. lia. }
    rewrite uwrap_small by lia. replace (_ <? _) with false by lia. f_equal. lia.
  - assert (2 * 2 ^ (Z.of_nat d + 1) <= 2 * 2 ^ Z.of_nat td) as Hle.
    { apply Z.mul_le_mono_nonneg_l; [lia|]. apply Z.pow_le_mono_r; lia. }
    assert (0 < 2 ^ (Z.of_nat d + 1)) by (apply Z.pow_pos_nonneg; lia).
    rewrite uwrap_small by lia. replace (_ <? _) with true by lia.
    replace (Z.of_nat d + 1) with (Z.of_nat (S d)) by lia. apply IH; lia.
Qed.

Lemma merkle_depth_eq : merkle_depth (2 * 2 ^ Z.of_nat td - 1) = Some (Z.of_nat td + 1).
Proof using Htd. unfold merkle_depth. apply (merkle_depth_loop_eq td 0); lia. Qed.

(** ** Reading and writing nodes *)

Definition tree_length : nat := HASH_LENGTH_TRIT * Z.to_nat (2 * 2 ^ Z.of_nat td - 1).
Definition in_tree (d : nat) (w : Z) : Prop := (d <= td)%nat /\ 0 <= w < 2 ^ Z.of_nat d.
Definition node (tree : list Z) (d : nat) (w : Z) : list Z := get_node (Z.of_nat d) w (Z.of_nat td) tree.
Definition set_node (tree : list Z) (d : nat) (w : Z) (h : list Z) : list Z :=
  buf_write (node_offset (Z.of_nat d) w (Z.of_nat td)) h tree.

Lemma node_offset_fits d w : in_tree d w -> (node_offset (Z.of_nat d) w (Z.of_nat td) + HASH_LENGTH_TRIT <= tree_length)%nat.
Proof using Htd.
  intros [Hd Hw]. unfold node_offset, tree_length. rewrite node_index_eq by done. pose proof (preorder_range d td w Hd Hw). nia.
Qed.

Lemma length_set_node tree d w h : in_tree d w -> length tree = tree_length -> length (set_node tree d w h) = tree_length.
Proof using Htd. intros Hi Hl. pose proof (node_offset_fits d w Hi). unfold set_node. by rewrite length_buf_write by lia. Qed.

Lemma node_set_same tree d w h : in_tree d w -> length tree = tree_length -> length h = HASH_LENGTH_TRIT ->
  node (set_node tree d w h) d w = h.
Proof using Htd.
  intros Hi Hl Hh. pose proof (node_offset_fits d w Hi). unfold node, get_node, set_node. rewrite <- Hh. apply buf_read_write_same. lia.
Qed.

Lemma node_set_other tree d w d' w' h : in_tree d w -> in_tree d' w' -> length tree = tree_length -> length h = HASH_LENGTH_TRIT ->
  (d <> d' \/ w <> w') -> node (set_node tree d w h) d' w' = node tree d' w'.
Proof using Htd.
  intros Hi Hi' Hl Hh Hne. pose proof (node_offset_fits d w Hi). pose proof (node_offset_fits d' w' Hi').
  unfold node, get_node, set_node. destruct Hi as [Hd Hw], Hi' as [Hd' Hw'].
  assert (preorder td d w <> preorder td d' w') as Hp.
  { intros E. apply preorder_inj in E; [|done..]. destruct E as [-> ->]. tauto. }
  pose proof (preorder_range d td w Hd Hw). pose proof (preorder_range d' td w' Hd' Hw').
  unfold node_offset in *. rewrite !node_index_eq in * by done.
  destruct (Z.lt_ge_cases (preorder td d w) (preorder td d' w')); [apply buf_read_write_after|apply buf_read_write_before]; nia.
Qed.
End Shape.

Lemma nat_testbit n : forall a, Nat.testbit a n = Z.testbit (Z.of_nat a) (Z.of_nat n).
Proof.
  induction n as [|n IH]; intros a.
  - rewrite Z.bit0_odd, Nat.bit0_odd. destruct (Nat.Even_or_Odd a) as [[x ->]|[x ->]].
    + rewrite Nat2Z.inj_mul, Z.odd_mul, Nat.odd_mul. done.
    + rewrite Nat2Z.inj_add, Nat2Z.inj_mul, Z.odd_add, Z.odd_mul, Nat.odd_add, Nat.odd_mul. done.
  - rewrite Nat2Z.inj_succ, <- Z.div2_bits by lia. replace (Z.of_nat a / 2) with (Z.of_nat (Nat.div2 a)); [apply IH|].
    rewrite Nat.div2_div. by rewrite Nat2Z.inj_div.
Qed.

Definition flip (x : Z) : Z := if Z.testbit x 0 then x - 1 else x + 1.

Lemma flip_spec x : 0 <= x -> exists h b, x = 2 * h + (if b : bool then 1 else 0) /\ flip x = 2 * h + (if b then 0 else 1) /\
  Z.shiftr x 1 = h /\ Z.shiftr (flip x) 1 = h /\ Z.testbit x 0 = b /\ 0 <= h.
Proof.
  intros Hx. exists (x / 2), (Z.testbit x 0). assert (x = 2 * (x / 2) + (if Z.testbit x 0 then 1 else 0)) as E.
  { pose proof (Z.div_mod x 2 ltac:(lia)). rewrite <- Z.bit0_mod in *. by destruct (Z.testbit x 0). }
  pose proof (Z.div_pos x 2 Hx). assert (flip x = 2 * (x / 2) + (if Z.testbit x 0 then 0 else 1)) as Ef.
  { unfold flip. destruct (Z.testbit x 0); lia. }
  split_and!; [done|done|by rewrite Z.shiftr_div_pow2| |done|lia].
  rewrite Ef. destruct (Z.testbit x 0); [rewrite Z.add_0_r; apply half|apply half_up].
Qed.

(** * Making a tree *)

Section Create.
Context {St : Type} `{SpongeLaws St} (s : St) (Hs : sponge_ok s) (Hr : reset s = s).

Lemma key_ok subseed n : trits_ok subseed ->
  exists key, iss_curl_key s subseed (n * HASH_LENGTH_TRIT) = Some (key, s) /\ trits_ok key /\ length key = (n * HASH_LENGTH_TRIT)%nat.
Proof using All.
  intros Hsub. unfold iss_curl_key. rewrite Nat.Div0.mod_mul, num_blocks_exact. cbn [Nat.eqb negb].
  pose proof (squeeze_length (absorb s subseed) n (absorb_ok _ _ Hs Hsub)) as Hl.
  pose proof (squeeze_trits (absorb s subseed) (n * HASH_LENGTH_TRIT) (absorb_ok _ _ Hs Hsub)) as Ht.
  pose proof (reset_squeeze (absorb s subseed) (n * HASH_LENGTH_TRIT)) as Hre. rewrite reset_absorb, Hr in Hre.
  destruct (squeeze _ _) as [key s']. cbn [fst snd] in *. rewrite Hre.
  assert (forall j, (j < n)%nat -> trits_ok (hash_of s (block j key)) /\ length (hash_of s (block j key)) = HASH_LENGTH_TRIT) as Hj.
  { intros j Hj. destruct (block_ok j n key Ht Hl Hj). split; [by apply hash_of_ok|by apply length_hash_of]. }
  rewrite (for_blocks_all _ (fun j => hash_of s (block j key)) n s key Hl).
  - eexists. split; [done|]. by apply concat_blocks_ok.
  - intros j Hjn. rewrite hash_step_eq by done. split; [done|]. by apply Hj.
Qed.

Lemma merkle_leaf_ok seed index security : trits_ok seed -> 0 <= index < INT64_MAX ->
  exists leaf, merkle_leaf seed index (security * ISS_KEY_LENGTH) s = Some (leaf, s) /\ trits_ok leaf /\ length leaf = HASH_LENGTH_TRIT.
Proof using All.
  intros Hse Hi. unfold merkle_leaf. destruct (iss_subseed_ok s seed index Hs Hr Hse Hi) as (sub & E & Hsub & _).
  change (iss_curl_subseed s seed index) with (iss_subseed s seed index). rewrite E.
  replace (security * ISS_KEY_LENGTH)%nat with (security * ISS_FRAGMENTS * HASH_LENGTH_TRIT)%nat by (unfold ISS_KEY_LENGTH; lia).
  destruct (key_ok sub (security * ISS_FRAGMENTS) Hsub) as (key & Ek & Hk & Hkl). rewrite Ek.
  rewrite <- Hkl. rewrite (key_digest_eq s key (security * ISS_FRAGMENTS)) by done.
  destruct (chained_ok s (security * ISS_FRAGMENTS) key Hs Hk Hkl) as [Hc _].
  unfold iss_curl_address. rewrite hash_step_eq by done. eexists. split; [done|].
  assert (trits_ok (hash_of s (chained s (security * ISS_FRAGMENTS) key))) by (by apply hash_of_ok).
  split; [by apply hash_of_ok|by apply length_hash_of].
Qed.

(** The address of a leaf. *)
Definition leaf_of (seed : list Z) (index : Z) (security : nat) : list Z :=
  match merkle_leaf seed index (security * ISS_KEY_LENGTH) s with Some (leaf, _) => leaf | None => [] end.

(** The hash of two nodes, the right one first. *)
Definition parent (right left : list Z) : list Z := (squeeze (absorb (absorb s right) left) HASH_LENGTH_TRIT).1.

Lemma parent_ok right left : trits_ok right -> trits_ok left ->
  trits_ok (parent right left) /\ length (parent right left) = HASH_LENGTH_TRIT.
Proof using Hs H0. intros H1 H2. unfold parent. split; [eauto with iota|]. apply squeeze_length_1. eauto with iota. Qed.

Context (td : nat) (Htd : (td <= 29)%nat).
Abbreviation nd := (node td).
Abbreviation inside := (in_tree td).

Lemma leaves_loop_spec seed offset security n : trits_ok seed -> 0 <= offset -> offset + 2 ^ Z.of_nat td < INT64_MAX ->
  forall i tree, 0 <= i -> i + Z.of_nat n = 2 ^ Z.of_nat td -> length tree = tree_length td ->
  exists tree', leaves_loop n i (2 ^ Z.of_nat td) seed offset (Z.of_nat td) (security * ISS_KEY_LENGTH) tree s = Some (tree', s) /\
    length tree' = tree_length td /\
    (forall w, i <= w < 2 ^ Z.of_nat td -> trits_ok (nd tree' td w) /\
      nd tree' td w = leaf_of seed (offset + (2 ^ Z.of_nat td - w - 1)) security) /\
    (forall w, 0 <= w < i -> nd tree' td w = nd tree td w).
Proof using All.
  intros Hse Ho Hmax. unfold INT64_MAX in Hmax. pose proof (pow2_small td Htd). induction n as [|n IH]; intros i tree Hi0 Hi Hl; cbn [leaves_loop].
  - exists tree. split_and!; [done|done|intros; lia|done].
  - unfold merkle_leaf_index. rewrite (uwrap_small 64 (2 ^ Z.of_nat td - i - 1)), (uwrap_small 64 (offset + _)), swrap_small by lia.
    destruct (merkle_leaf_ok seed (offset + (2 ^ Z.of_nat td - i - 1)) security Hse) as (leaf & E & Hlt & Hll); [unfold INT64_MAX; lia|].
    rewrite E. fold (set_node td tree td i leaf). assert (inside td i) as Hin by (unfold in_tree; lia).
    destruct (IH (i + 1) (set_node td tree td i leaf)) as (tree' & E' & Hl' & Hnew & Hold); [lia|lia|by apply length_set_node|].
    exists tree'. split_and!; [done|done| |].
    + intros w Hw. destruct (Z.eq_dec w i) as [->|]; [|apply Hnew; lia].
      rewrite Hold by lia. rewrite node_set_same by done. split; [done|]. unfold leaf_of. by rewrite E.
    + intros w Hw. rewrite Hold by lia. apply node_set_other; [done|done| |done|done|lia]. unfold in_tree. lia.
Qed.

Lemma level_loop_spec d n : (S d <= td)%nat -> forall x tree, 0 <= x -> x + Z.of_nat n = 2 ^ Z.of_nat d -> length tree = tree_length td ->
  (forall w, 0 <= w < 2 ^ Z.of_nat (S d) -> trits_ok (nd tree (S d) w)) ->
  exists tree', level_loop n (2 * x) (2 ^ Z.of_nat (S d)) (Z.of_nat (S d)) (Z.of_nat td) tree s = (tree', s) /\ length tree' = tree_length td /\
    (forall w, x <= w < 2 ^ Z.of_nat d -> nd tree' d w = parent (nd tree (S d) (2 * w + 1)) (nd tree (S d) (2 * w))) /\
    (forall e w, inside e w -> (e <> d \/ w < x) -> nd tree' e w = nd tree e w).
Proof using All.
  intros Hd. pose proof (pow2_small td Htd).
  assert (2 ^ Z.of_nat (S d) <= 2 ^ Z.of_nat td) by (apply Z.pow_le_mono_r; lia). pose proof (tree_pow_S d) as Hp.
  set (W := 2 ^ Z.of_nat (S d)) in *. induction n as [|n IH]; intros x tree Hx0 Hx Hl Ht; cbn [level_loop].
  - exists tree. split_and!; [done|done|intros; lia|done].
  - rewrite (uwrap_small 64 (W - 1)) by lia. replace (2 * x <? W - 1) with true by lia. fold (nd tree (S d) (2 * x + 1)).
    fold (nd tree (S d) (2 * x)). destruct (parent_ok (nd tree (S d) (2 * x + 1)) (nd tree (S d) (2 * x))) as [Hpt Hpl]; [apply Ht; lia..|].
    pose proof (reset_squeeze (absorb (absorb s (nd tree (S d) (2 * x + 1))) (nd tree (S d) (2 * x))) HASH_LENGTH_TRIT) as Hre.
    rewrite !reset_absorb, Hr in Hre. unfold parent in Hpt, Hpl. pose proof (eq_refl (parent (nd tree (S d) (2 * x + 1)) (nd tree (S d) (2 * x)))) as Hpe.
    unfold parent in Hpe at 1. destruct (squeeze _ _) as [h s']. cbn [fst snd] in *. rewrite Hre, half.
    replace (Z.of_nat (S d) - 1) with (Z.of_nat d) by lia. fold (set_node td tree d x h).
    assert (inside d x) as Hin by (unfold in_tree; lia). replace (2 * x + 2) with (2 * (x + 1)) by lia.
    assert (forall e w, inside e w -> (e <> d \/ w <> x) -> nd (set_node td tree d x h) e w = nd tree e w) as Hother.
    { intros e w He Hne. apply node_set_other; [done|done|done|done|done|]. destruct Hne; [left|right]; congruence. }
    destruct (IH (x + 1) (set_node td tree d x h)) as (tree' & E' & Hl' & Hnew & Hold); [lia|lia|by apply length_set_node| |].
    { intros w Hw. rewrite Hother; [by apply Ht|unfold in_tree; lia|left; lia]. }
    exists tree'. split_and!; [done|done| |].
    + intros w Hw. destruct (Z.eq_dec w x) as [->|].
      * rewrite Hold by (done || lia). rewrite node_set_same by done. exact Hpe.
      * rewrite Hnew by lia. f_equal; (apply Hother; [unfold in_tree; lia|left; lia]).
    + intros e w He Hne. rewrite Hold by (done || lia). apply Hother; [done|]. lia.
Qed.

(** Every node is the hash of the two below it. *)
Definition hashed (tree : list Z) (d : nat) : Prop :=
  forall e w, (e < d)%nat -> 0 <= w < 2 ^ Z.of_nat e -> nd tree e w = parent (nd tree (S e) (2 * w + 1)) (nd tree (S e) (2 * w)).

Lemma levels_loop_spec d : (d <= td)%nat -> forall tree, length tree = tree_length td ->
  (forall w, 0 <= w < 2 ^ Z.of_nat d -> trits_ok (nd tree d w)) ->
  exists tree', levels_loop d (2 ^ Z.of_nat d) (Z.of_nat td) tree s = (tree', s) /\ length tree' = tree_length td /\ hashed tree' d /\
    (forall e w, inside e w -> (d <= e)%nat -> nd tree' e w = nd tree e w).
Proof using All.
  pose proof (pow2_small td Htd). induction d as [|d IH]; intros Hd tree Hl Ht; cbn [levels_loop].
  - exists tree. split_and!; [done|done|intros e w He; lia|done].
  - assert (2 ^ Z.of_nat (S d) <= 2 ^ Z.of_nat td) by (apply Z.pow_le_mono_r; lia). pose proof (tree_pow_S d) as Hp. pose proof (tree_pow_pos d).
    rewrite uwrap_small by lia. assert (Z.shiftr (2 ^ Z.of_nat (S d) + 1) 1 = 2 ^ Z.of_nat d) as -> by (rewrite Hp; apply half_up).
    destruct (level_loop_spec d (Z.to_nat (2 ^ Z.of_nat d)) Hd 0 tree) as (tree1 & E1 & Hl1 & Hnew1 & Hold1); [lia|lia|done|done|].
    rewrite Z.mul_0_r in E1. rewrite E1. destruct (IH ltac:(lia) tree1) as (tree' & E' & Hl' & Hh & Hold); [done| |].
    { intros w Hw. rewrite Hnew1 by lia. apply parent_ok; apply Ht; lia. }
    exists tree'. split_and!; [done|done| |].
    + intros e w He Hw. destruct (Nat.eq_dec e d) as [->|]; [|apply Hh; lia].
      rewrite Hold by (unfold in_tree; lia). rewrite Hnew1 by lia.
      f_equal; (rewrite Hold by (unfold in_tree; lia); symmetry; apply Hold1; [unfold in_tree; lia|left; lia]).
    + intros e w He Hde. rewrite Hold by (done || lia). apply Hold1; [done|left; lia].
Qed.

Lemma merkle_create_eq tree seed offset security : trits_ok seed -> 0 <= offset -> offset + 2 ^ Z.of_nat td < INT64_MAX ->
  length tree = tree_length td ->
  exists tree', merkle_create tree (2 ^ Z.of_nat td) seed offset security s = Some (0, tree', s) /\ length tree' = tree_length td /\
    hashed tree' td /\ (forall w, 0 <= w < 2 ^ Z.of_nat td -> nd tree' td w = leaf_of seed (offset + (2 ^ Z.of_nat td - w - 1)) security).
Proof using All.
  intros Hse Ho Hmax Hl. pose proof (pow2_small td Htd). unfold merkle_create.
  assert (Z.land (2 ^ Z.of_nat td) (2 ^ Z.of_nat td - 1) = 0) as ->.
  { replace (2 ^ Z.of_nat td - 1) with (Z.ones (Z.of_nat td)) by (rewrite Z.ones_equiv; lia). rewrite Z.land_ones by lia. apply Z.mod_same. lia. }
  cbn [Z.eqb negb]. rewrite andb_false_r, merkle_size_eq, merkle_depth_eq by done.
  replace (Z.of_nat td + 1 - 1) with (Z.of_nat td) by lia. rewrite uwrap_small by lia.
  destruct (leaves_loop_spec seed offset security (Z.to_nat (2 ^ Z.of_nat td)) Hse Ho Hmax 0 tree) as (tree1 & E1 & Hl1 & Hnew1 & _); [lia..|done|].
  rewrite E1, Nat2Z.id. destruct (levels_loop_spec td ltac:(lia) tree1 Hl1) as (tree' & E' & Hl' & Hh & Hold); [by intros; apply Hnew1|].
  rewrite E'. exists tree'. split_and!; [done..|]. intros w Hw. rewrite Hold by (unfold in_tree; lia). by apply Hnew1.
Qed.

(** ** Branches *)

(** The siblings of a position and of those above it. *)
Lemma branch_loop_spec tree n : (n <= td)%nat -> forall i pos siblings, 0 <= pos < 2 ^ Z.of_nat n ->
  length siblings = ((i + n) * HASH_LENGTH_TRIT)%nat -> length tree = tree_length td ->
  exists siblings', branch_loop n i pos tree (Z.of_nat (tree_length td)) (Z.of_nat td + 1) siblings = siblings' /\
    length siblings' = length siblings /\
    (forall j, (j < i)%nat -> block j siblings' = block j siblings) /\
    (forall j, (j < n)%nat -> block (i + j) siblings' = nd tree (n - j) (flip (Z.shiftr pos (Z.of_nat j)))).
Proof using Htd.
  pose proof (pow2_small td Htd). induction n as [|n IH]; intros Hn i pos siblings Hpos Hl Ht; cbn [branch_loop].
  - exists siblings. split_and!; [done|done|done|intros; lia].
  - rewrite tree_pow_S in Hpos. destruct (flip_spec pos) as (h & b & E & Ef & Hh & Hfh & Hb & Hh0); [lia|].
    assert ((if Z.testbit pos 0 then pos - 1 else u64 (pos + 1)) = flip pos) as ->.
    { unfold flip. destruct (Z.testbit pos 0); [done|]. apply uwrap_small.
      assert (2 ^ Z.of_nat n <= 2 ^ Z.of_nat td) by (apply Z.pow_le_mono_r; lia). lia. }
    assert (in_tree td (S n) (flip pos)) as Hin.
    { split; [lia|]. rewrite Ef, tree_pow_S. destruct b; lia. }
    pose proof (node_offset_fits td Htd (S n) (flip pos) Hin) as Hfit. replace (Z.of_nat td + 1 - 1) with (Z.of_nat td) by lia.
    pose proof Hin as [Hd Hw]. pose proof (node_index_eq td Htd (S n) (flip pos) Hd Hw) as Hix. pose proof (preorder_range (S n) td (flip pos) Hd Hw).
    assert (u64 (Z.of_nat HASH_LENGTH_TRIT * merkle_node_index (Z.of_nat (S n)) (flip pos) (Z.of_nat td)) =
      Z.of_nat (node_offset (Z.of_nat (S n)) (flip pos) (Z.of_nat td))) as ->.
    { unfold node_offset. rewrite Hix. unfold HASH_LENGTH_TRIT. rewrite uwrap_small by lia. lia. }
    unfold HASH_LENGTH_TRIT in Hfit. replace (Z.of_nat (tree_length td) <=? _) with false by lia. rewrite Nat2Z.id.
    fold HASH_LENGTH_TRIT in Hfit.
    change (buf_read (node_offset (Z.of_nat (S n)) (flip pos) (Z.of_nat td)) HASH_LENGTH_TRIT tree) with (nd tree (S n) (flip pos)).
    rewrite Hfh. assert (length (nd tree (S n) (flip pos)) = HASH_LENGTH_TRIT) as Hnl.
    { unfold node, get_node. apply length_buf_read. lia. }
    set (siblings1 := buf_write (i * HASH_LENGTH_TRIT) (nd tree (S n) (flip pos)) siblings).
    assert (length siblings1 = length siblings) as Hl1 by (apply length_buf_write; lia).
    destruct (IH ltac:(lia) (S i) h siblings1) as (siblings' & E' & Hl' & Hold & Hnew); [destruct b; lia|rewrite Hl1; lia|done|].
    exists siblings'. rewrite E'. split_and!; [done|lia| |].
    + intros j Hj. rewrite Hold by lia. apply buf_read_write_before; [|lia]. nia.
    + intros [|j] Hj.
      * rewrite Nat.add_0_r, Hold by lia. rewrite Nat.sub_0_r, Z.shiftr_0_r. unfold block, siblings1.
        pose proof (buf_read_write_same (i * HASH_LENGTH_TRIT) (nd tree (S n) (flip pos)) siblings) as Hw'. rewrite Hnl in Hw'. apply Hw'. lia.
      * replace (i + S j)%nat with (S i + j)%nat by lia. rewrite Hnew by lia. f_equal. f_equal. rewrite <- Hh, Z.shiftr_shiftr by lia. f_equal. lia.
Qed.

(** Going up from a node with the siblings leads to the root. *)
Lemma root_of_node tree li : hashed tree td -> (Z.of_nat li < 2 ^ Z.of_nat td) -> forall n i siblings, (i + n = td)%nat ->
  siblings = map (fun j => nd tree (td - j) (flip (Z.shiftr (2 ^ Z.of_nat td - 1 - Z.of_nat li) (Z.of_nat j)))) (seq i n) ->
  root_of s i li siblings (nd tree n (Z.shiftr (2 ^ Z.of_nat td - 1 - Z.of_nat li) (Z.of_nat i))) = nd tree 0 0.
Proof using Htd.
  intros Hh Hli. set (pos := 2 ^ Z.of_nat td - 1 - Z.of_nat li). assert (0 <= pos < 2 ^ Z.of_nat td) as Hpos by lia.
  induction n as [|n IH]; intros i siblings Hi ->; cbn [seq map root_of].
  - assert (i = td) as -> by lia. reflexivity.
  - assert (0 <= Z.shiftr pos (Z.of_nat i) < 2 ^ Z.of_nat (S n)) as Hr0.
    { rewrite Z.shiftr_div_pow2 by lia. split; [apply Z.div_pos; [lia|apply tree_pow_pos]|]. apply Z.div_lt_upper_bound; [apply tree_pow_pos|].
      rewrite <- Z.pow_add_r by lia. replace (Z.of_nat i + Z.of_nat (S n)) with (Z.of_nat td) by lia. lia. }
    destruct (flip_spec (Z.shiftr pos (Z.of_nat i)) ltac:(lia)) as (h & b & E & Ef & Hsh & _ & Hb & Hh0).
    assert (Nat.testbit li i = negb b) as ->.
    { rewrite nat_testbit, <- Hb, Z.shiftr_spec, Z.add_0_l by lia. unfold pos.
      replace (2 ^ Z.of_nat td - 1 - Z.of_nat li) with (Z.ones (Z.of_nat td) - Z.of_nat li) by (rewrite Z.ones_equiv; lia).
      rewrite Z.sub_nocarry_ldiff.
      - rewrite Z.ldiff_spec, Z.ones_spec_low by lia. destruct (Z.testbit (Z.of_nat li) (Z.of_nat i)); reflexivity.
      - apply Z.bits_inj'. intros k Hk. rewrite Z.ldiff_spec, Z.bits_0. destruct (Z.lt_ge_cases k (Z.of_nat td)).
        + rewrite Z.ones_spec_low by lia. apply andb_false_r.
        + rewrite Z.ones_spec_high by lia. rewrite andb_true_r. apply Z.bits_above_log2; [lia|].
          destruct (Nat.eq_dec li 0) as [->|]; [change (Z.log2 (Z.of_nat 0)) with 0; lia|]. apply Z.lt_le_trans with (Z.of_nat td); [|done]. apply Z.log2_lt_pow2; lia. }
    replace (td - i)%nat with (S n) by lia. rewrite Ef, E. rewrite tree_pow_S in Hr0.
    assert (in_tree td n h) as [Hin1 Hin2] by (split; [lia|destruct b; lia]).
    assert ((squeeze (if negb b then absorb (absorb s (nd tree (S n) (2 * h + (if b then 0 else 1)))) (nd tree (S n) (2 * h + (if b then 1 else 0)))
      else absorb (absorb s (nd tree (S n) (2 * h + (if b then 1 else 0)))) (nd tree (S n) (2 * h + (if b then 0 else 1)))) HASH_LENGTH_TRIT).1 =
      nd tree n h) as ->.
    { rewrite (Hh n h) by lia. unfold parent. destruct b; cbn [negb]; rewrite Z.add_0_r; done. }
    assert (h = Z.shiftr pos (Z.of_nat (S i))) as ->.
    { rewrite <- Hsh, Z.shiftr_shiftr by lia. f_equal. lia. }
    apply IH; [lia|done].
Qed.
End Create.

(** * Properties *)

(** C39: in a tree that [merkle_create] has made, the branch of a leaf leads back to the root:
    [merkle_branch] succeeds for each leaf, and [merkle_root] computes the first node of the
    tree from the address of the leaf, its index and its branch.  The leaf of an index is the
    address of the key of the offset plus that index, although the array has them in the
    other order. *)
Theorem merkle_branch_leads_to_root {St} `{SpongeLaws St} s td tree seed offset security siblings :
  sponge_ok s -> reset s = s -> (td <= 29)%nat -> trits_ok seed -> 0 <= offset -> offset + 2 ^ Z.of_nat td < INT64_MAX ->
  length tree = tree_length td -> length siblings = (td * HASH_LENGTH_TRIT)%nat ->
  exists tree', merkle_create tree (2 ^ Z.of_nat td) seed offset security s = Some (0, tree', s) /\ length tree' = length tree /\
    forall leaf_index, Z.of_nat leaf_index < 2 ^ Z.of_nat td -> exists siblings',
      merkle_branch tree' siblings (Z.of_nat (length tree)) (Z.of_nat td + 1) (Z.of_nat leaf_index) (2 ^ Z.of_nat td) = Some (0, siblings') /\
      merkle_root s (leaf_of s seed (offset + Z.of_nat leaf_index) security) siblings' td leaf_index = (take HASH_LENGTH_TRIT tree', s).
Proof.
  intros Hs Hr Htd Hse Ho Hmax Hl Hls. pose proof (pow2_small td Htd).
  destruct (merkle_create_eq s Hs Hr td Htd tree seed offset security Hse Ho Hmax Hl) as (tree' & E & Hl' & Hh & Hleaf).
  exists tree'. split_and!; [done|lia|]. intros li Hli.
  set (pos := 2 ^ Z.of_nat td - 1 - Z.of_nat li).
  destruct (branch_loop_spec td Htd tree' td ltac:(lia) 0 pos siblings) as (siblings' & Eb & _ & _ & Hblocks); [lia|by rewrite Hls|done|].
  exists siblings'. split.
  - unfold merkle_branch. rewrite Hl. rewrite (uwrap_small 64 (Z.of_nat td + 1 - 1)) by lia.
    replace (Z.of_nat td + 1 - 1) with (Z.of_nat td) by lia. rewrite node_index_eq by lia.
    pose proof (preorder_range td td (Z.of_nat li) ltac:(lia) ltac:(lia)) as Hp. unfold tree_length at 1 2. unfold HASH_LENGTH_TRIT at 1 2 3 4.
    rewrite Nat2Z.inj_mul, Z2Nat.id by lia. change (Z.of_nat 243) with 243. rewrite uwrap_small by lia. replace (_ <=? _) with false by lia.
    rewrite Z.mul_comm, Z.div_mul by lia. rewrite merkle_depth_eq by done. rewrite Z.ltb_irrefl. rewrite Nat2Z.id.
    unfold merkle_leaf_index. rewrite uwrap_small by lia. replace (2 ^ Z.of_nat td - Z.of_nat li - 1) with pos by lia. by rewrite Eb.
  - unfold merkle_root. rewrite merkle_root_loop_eq by done. f_equal. rewrite (map_ext_in _
      (fun j => node td tree' (td - j) (flip (Z.shiftr pos (Z.of_nat j))))) by (intros j Hj; apply in_seq in Hj; apply (Hblocks j); lia).
    assert (leaf_of s seed (offset + Z.of_nat li) security = node td tree' td (Z.shiftr pos (Z.of_nat 0))) as ->.
    { rewrite Z.shiftr_0_r, Hleaf by lia. f_equal. lia. }
    rewrite (root_of_node s td Htd tree' li Hh Hli td 0) by done. unfold node, get_node, node_offset. rewrite (node_index_eq td Htd 0 0) by (cbn; lia).
    unfold preorder, skips. rewrite Nat.mul_0_r. apply buf_read_0.
Qed.

(** The tree of four leaves, and the branch of the third. *)
Lemma merkle_branch_leads_to_root_witness :
  exists tree siblings,
    merkle_create (replicate (tree_length 2) 1) 4 (replicate 243 1) 7 2 ToySponge.zero = Some (0, tree, ToySponge.zero) /\
    merkle_branch tree (replicate (2 * HASH_LENGTH_TRIT) 0) (Z.of_nat (tree_length 2)) 3 2 4 = Some (0, siblings) /\
    merkle_root ToySponge.zero (leaf_of ToySponge.zero (replicate 243 1) 9 2) siblings 2 2 = (take HASH_LENGTH_TRIT tree, ToySponge.zero).
Proof.
  destruct (merkle_branch_leads_to_root ToySponge.zero 2 (replicate (tree_length 2) 1) (replicate 243 1) 7 2
    (replicate (2 * HASH_LENGTH_TRIT) 0)) as (tree & E & _ & Hleaf).
  - split; [reflexivity|closed_decide].
  - reflexivity.
  - lia.
  - closed_decide.
  - lia.
  - reflexivity.
  - apply length_replicate.
  - apply length_replicate.
  - rewrite length_replicate in Hleaf. destruct (Hleaf 2%nat) as (siblings & Eb & Er); [reflexivity|].
    exists tree, siblings. split; [exact E|split; [exact Eb|exact Er]].
Defined.
