(* ===== verification/Transaction.v ===== *)
(** * Transactions

    The data model of [common/model/transaction.h] with its accessors, and the
    serialization of [transaction.c] (one trit per flex trit).  The accessors
    [assert] that the field they read was loaded; the asserts are the masks of
    [loaded_columns_mask], which the model keeps. *)
From S2P Require Import Prelude Trits TritLong TritByte FlexTrit Sponge Curl.

(** ** Layout *)

Definition NUM_TRITS_SIGNATURE : nat := Z.to_nat 6561.
Definition NUM_TRITS_ADDRESS : nat := 243.
Definition NUM_TRITS_VALUE : nat := 81.
Definition NUM_TRITS_OBSOLETE_TAG : nat := 81.
Definition NUM_TRITS_TIMESTAMP : nat := 27.
Definition NUM_TRITS_CURRENT_INDEX : nat := 27.
Definition NUM_TRITS_LAST_INDEX : nat := 27.
Definition NUM_TRITS_BUNDLE : nat := 243.
Definition NUM_TRITS_TRUNK : nat := 243.
Definition NUM_TRITS_BRANCH : nat := 243.
Definition NUM_TRITS_TAG : nat := 81.
Definition NUM_TRITS_ATTACHMENT_TIMESTAMP : nat := 27.
Definition NUM_TRITS_ATTACHMENT_TIMESTAMP_LOWER : nat := 27.
Definition NUM_TRITS_ATTACHMENT_TIMESTAMP_UPPER : nat := 27.
Definition NUM_TRITS_NONCE : nat := 81.
Definition NUM_TRITS_HASH : nat := 243.
Definition NUM_TRITS_SERIALIZED_TRANSACTION : nat := Z.to_nat 8019.
Definition NUM_TRITS_MESSAGE : nat := NUM_TRITS_SIGNATURE.
Definition NUM_TRITS_ESSENCE : nat :=
  NUM_TRITS_ADDRESS + NUM_TRITS_VALUE + NUM_TRITS_OBSOLETE_TAG + NUM_TRITS_TIMESTAMP +
  NUM_TRITS_CURRENT_INDEX + NUM_TRITS_LAST_INDEX.

(** ** Data *)

Record iota_transaction_fields_essence_t := mk_essence {
  e_address : list Z;
  e_value : Z;
  e_obsolete_tag : list Z;
  e_timestamp : Z;
  e_current_index : Z;
  e_last_index : Z;
  e_bundle : list Z
}.

Record iota_transaction_fields_attachment_t := mk_attachment {
  a_trunk : list Z;
  a_branch : list Z;
  a_attachment_timestamp : Z;
  a_attachment_timestamp_lower : Z;
  a_attachment_timestamp_upper : Z;
  a_nonce : list Z;
  a_tag : list Z
}.

Record iota_transaction_fields_consensus_t := mk_consensus {
  c_hash : list Z
}.

Record iota_transaction_fields_data_t := mk_data {
  d_signature_or_message : list Z
}.

Record iota_transaction_fields_metadata_t := mk_metadata {
  m_snapshot_index : Z;
  m_solid : bool;
  m_validity : Z;
  m_arrival_timestamp : Z
}.

Record field_mask_t := mk_mask {
  k_essence : Z; k_attachment : Z; k_consensus : Z; k_data : Z; k_metadata : Z
}.

Record iota_transaction_t := mk_tx {
  essence : iota_transaction_fields_essence_t;
  attachment : iota_transaction_fields_attachment_t;
  consensus : iota_transaction_fields_consensus_t;
  data : iota_transaction_fields_data_t;
  metadata : iota_transaction_fields_metadata_t;
  loaded_columns_mask : field_mask_t
}.

Definition MASK_ESSENCE_ADDRESS : Z := Z.shiftl 1 0.
Definition MASK_ESSENCE_VALUE : Z := Z.shiftl 1 1.
Definition MASK_ESSENCE_OBSOLETE_TAG : Z := Z.shiftl 1 2.
Definition MASK_ESSENCE_TIMESTAMP : Z := Z.shiftl 1 3.
Definition MASK_ESSENCE_CURRENT_INDEX : Z := Z.shiftl 1 4.
Definition MASK_ESSENCE_LAST_INDEX : Z := Z.shiftl 1 5.
Definition MASK_ESSENCE_BUNDLE : Z := Z.shiftl 1 6.
Definition MASK_ESSENCE_ALL : Z := Z.lor (Z.lor (Z.lor (Z.lor (Z.lor (Z.lor MASK_ESSENCE_ADDRESS MASK_ESSENCE_VALUE) MASK_ESSENCE_OBSOLETE_TAG) MASK_ESSENCE_TIMESTAMP) MASK_ESSENCE_CURRENT_INDEX) MASK_ESSENCE_LAST_INDEX) MASK_ESSENCE_BUNDLE.
Definition MASK_ATTACHMENT_TRUNK : Z := Z.shiftl 1 0.
Definition MASK_ATTACHMENT_BRANCH : Z := Z.shiftl 1 1.
Definition MASK_ATTACHMENT_TIMESTAMP : Z := Z.shiftl 1 2.
Definition MASK_ATTACHMENT_TIMESTAMP_LOWER : Z := Z.shiftl 1 3.
Definition MASK_ATTACHMENT_TIMESTAMP_UPPER : Z := Z.shiftl 1 4.
Definition MASK_ATTACHMENT_NONCE : Z := Z.shiftl 1 5.
Definition MASK_ATTACHMENT_TAG : Z := Z.shiftl 1 6.
Definition MASK_ATTACHMENT_ALL : Z := Z.lor (Z.lor (Z.lor (Z.lor (Z.lor (Z.lor MASK_ATTACHMENT_TRUNK MASK_ATTACHMENT_BRANCH) MASK_ATTACHMENT_TIMESTAMP) MASK_ATTACHMENT_TIMESTAMP_LOWER) MASK_ATTACHMENT_TIMESTAMP_UPPER) MASK_ATTACHMENT_NONCE) MASK_ATTACHMENT_TAG.
Definition MASK_CONSENSUS_HASH : Z := Z.shiftl 1 0.
Definition MASK_CONSENSUS_ALL : Z := MASK_CONSENSUS_HASH.
Definition MASK_DATA_SIG_OR_MSG : Z := Z.shiftl 1 0.
Definition MASK_DATA_ALL : Z := MASK_DATA_SIG_OR_MSG.
Definition MASK_METADATA_SNAPSHOT_INDEX : Z := Z.shiftl 1 0.
Definition MASK_METADATA_SOLID : Z := Z.shiftl 1 1.
Definition MASK_METADATA_VALIDITY : Z := Z.shiftl 1 2.
Definition MASK_METADATA_ARRIVAL_TIMESTAMP : Z := Z.shiftl 1 3.
Definition MASK_METADATA_ALL : Z := Z.lor (Z.lor (Z.lor MASK_METADATA_SNAPSHOT_INDEX MASK_METADATA_SOLID) MASK_METADATA_VALIDITY) MASK_METADATA_ARRIVAL_TIMESTAMP.

(** ** Accessors *)

Definition set_essence (v : iota_transaction_fields_essence_t) (tx : iota_transaction_t) : iota_transaction_t :=
  mk_tx v (attachment tx) (consensus tx) (data tx) (metadata tx) (loaded_columns_mask tx).
Definition set_attachment (v : iota_transaction_fields_attachment_t) (tx : iota_transaction_t) : iota_transaction_t :=
  mk_tx (essence tx) v (consensus tx) (data tx) (metadata tx) (loaded_columns_mask tx).
Definition set_consensus (v : iota_transaction_fields_consensus_t) (tx : iota_transaction_t) : iota_transaction_t :=
  mk_tx (essence tx) (attachment tx) v (data tx) (metadata tx) (loaded_columns_mask tx).
Definition set_data (v : iota_transaction_fields_data_t) (tx : iota_transaction_t) : iota_transaction_t :=
  mk_tx (essence tx) (attachment tx) (consensus tx) v (metadata tx) (loaded_columns_mask tx).
Definition set_metadata (v : iota_transaction_fields_metadata_t) (tx : iota_transaction_t) : iota_transaction_t :=
  mk_tx (essence tx) (attachment tx) (consensus tx) (data tx) v (loaded_columns_mask tx).
(** [loaded_columns_mask.essence |= bit] *)
Definition or_essence (bit : Z) (tx : iota_transaction_t) : iota_transaction_t :=
  let k := loaded_columns_mask tx in
  mk_tx (essence tx) (attachment tx) (consensus tx) (data tx) (metadata tx)
    (mk_mask (u8 (Z.lor (k_essence k) bit)) (k_attachment k) (k_consensus k) (k_data k) (k_metadata k)).
(** [loaded_columns_mask.attachment |= bit] *)
Definition or_attachment (bit : Z) (tx : iota_transaction_t) : iota_transaction_t :=
  let k := loaded_columns_mask tx in
  mk_tx (essence tx) (attachment tx) (consensus tx) (data tx) (metadata tx)
    (mk_mask (k_essence k) (u8 (Z.lor (k_attachment k) bit)) (k_consensus k) (k_data k) (k_metadata k)).
(** [loaded_columns_mask.consensus |= bit] *)
Definition or_consensus (bit : Z) (tx : iota_transaction_t) : iota_transaction_t :=
  let k := loaded_columns_mask tx in
  mk_tx (essence tx) (attachment tx) (consensus tx) (data tx) (metadata tx)
    (mk_mask (k_essence k) (k_attachment k) (u8 (Z.lor (k_consensus k) bit)) (k_data k) (k_metadata k)).
(** [loaded_columns_mask.data |= bit] *)
Definition or_data (bit : Z) (tx : iota_transaction_t) : iota_transaction_t :=
  let k := loaded_columns_mask tx in
  mk_tx (essence tx) (attachment tx) (consensus tx) (data tx) (metadata tx)
    (mk_mask (k_essence k) (k_attachment k) (k_consensus k) (u8 (Z.lor (k_data k) bit)) (k_metadata k)).
(** [loaded_columns_mask.metadata |= bit] *)
Definition or_metadata (bit : Z) (tx : iota_transaction_t) : iota_transaction_t :=
  let k := loaded_columns_mask tx in
  mk_tx (essence tx) (attachment tx) (consensus tx) (data tx) (metadata tx)
    (mk_mask (k_essence k) (k_attachment k) (k_consensus k) (k_data k) (u8 (Z.lor (k_metadata k) bit))).

(** [memcpy(dst, src, sizeof(dst))] *)
Definition copy_into (dst src : list Z) : list Z := buf_write 0 (take (length dst) src) dst.

Definition transaction_address (tx : iota_transaction_t) : list Z := e_address (essence tx).
Definition transaction_set_address (tx : iota_transaction_t) (v : list Z) : iota_transaction_t :=
  or_essence MASK_ESSENCE_ADDRESS (set_essence (mk_essence (copy_into (e_address (essence tx)) v) (e_value (essence tx)) (e_obsolete_tag (essence tx)) (e_timestamp (essence tx)) (e_current_index (essence tx)) (e_last_index (essence tx)) (e_bundle (essence tx))) tx).

Definition transaction_value (tx : iota_transaction_t) : Z := e_value (essence tx).
Definition transaction_set_value (tx : iota_transaction_t) (v : Z) : iota_transaction_t :=
  or_essence MASK_ESSENCE_VALUE (set_essence (mk_essence (e_address (essence tx)) v (e_obsolete_tag (essence tx)) (e_timestamp (essence tx)) (e_current_index (essence tx)) (e_last_index (essence tx)) (e_bundle (essence tx))) tx).

Definition transaction_obsolete_tag (tx : iota_transaction_t) : list Z := e_obsolete_tag (essence tx).
Definition transaction_set_obsolete_tag (tx : iota_transaction_t) (v : list Z) : iota_transaction_t :=
  or_essence MASK_ESSENCE_OBSOLETE_TAG (set_essence (mk_essence (e_address (essence tx)) (e_value (essence tx)) (copy_into (e_obsolete_tag (essence tx)) v) (e_timestamp (essence tx)) (e_current_index (essence tx)) (e_last_index (essence tx)) (e_bundle (essence tx))) tx).

Definition transaction_timestamp (tx : iota_transaction_t) : Z := e_timestamp (essence tx).
Definition transaction_set_timestamp (tx : iota_transaction_t) (v : Z) : iota_transaction_t :=
  or_essence MASK_ESSENCE_TIMESTAMP (set_essence (mk_essence (e_address (essence tx)) (e_value (essence tx)) (e_obsolete_tag (essence tx)) v (e_current_index (essence tx)) (e_last_index (essence tx)) (e_bundle (essence tx))) tx).

Definition transaction_current_index (tx : iota_transaction_t) : Z := e_current_index (essence tx).
Definition transaction_set_current_index (tx : iota_transaction_t) (v : Z) : iota_transaction_t :=
  or_essence MASK_ESSENCE_CURRENT_INDEX (set_essence (mk_essence (e_address (essence tx)) (e_value (essence tx)) (e_obsolete_tag (essence tx)) (e_timestamp (essence tx)) v (e_last_index (essence tx)) (e_bundle (essence tx))) tx).

Definition transaction_last_index (tx : iota_transaction_t) : Z := e_last_index (essence tx).
Definition transaction_set_last_index (tx : iota_transaction_t) (v : Z) : iota_transaction_t :=
  or_essence MASK_ESSENCE_LAST_INDEX (set_essence (mk_essence (e_address (essence tx)) (e_value (essence tx)) (e_obsolete_tag (essence tx)) (e_timestamp (essence tx)) (e_current_index (essence tx)) v (e_bundle (essence tx))) tx).

Definition transaction_bundle (tx : iota_transaction_t) : list Z := e_bundle (essence tx).
Definition transaction_set_bundle (tx : iota_transaction_t) (v : list Z) : iota_transaction_t :=
  or_essence MASK_ESSENCE_BUNDLE (set_essence (mk_essence (e_address (essence tx)) (e_value (essence tx)) (e_obsolete_tag (essence tx)) (e_timestamp (essence tx)) (e_current_index (essence tx)) (e_last_index (essence tx)) (copy_into (e_bundle (essence tx)) v)) tx).

Definition transaction_trunk (tx : iota_transaction_t) : list Z := a_trunk (attachment tx).
Definition transaction_set_trunk (tx : iota_transaction_t) (v : list Z) : iota_transaction_t :=
  or_attachment MASK_ATTACHMENT_TRUNK (set_attachment (mk_attachment (copy_into (a_trunk (attachment tx)) v) (a_branch (attachment tx)) (a_attachment_timestamp (attachment tx)) (a_attachment_timestamp_lower (attachment tx)) (a_attachment_timestamp_upper (attachment tx)) (a_nonce (attachment tx)) (a_tag (attachment tx))) tx).

Definition transaction_branch (tx : iota_transaction_t) : list Z := a_branch (attachment tx).
Definition transaction_set_branch (tx : iota_transaction_t) (v : list Z) : iota_transaction_t :=
  or_attachment MASK_ATTACHMENT_BRANCH (set_attachment (mk_attachment (a_trunk (attachment tx)) (copy_into (a_branch (attachment tx)) v) (a_attachment_timestamp (attachment tx)) (a_attachment_timestamp_lower (attachment tx)) (a_attachment_timestamp_upper (attachment tx)) (a_nonce (attachment tx)) (a_tag (attachment tx))) tx).

Definition transaction_attachment_timestamp (tx : iota_transaction_t) : Z := a_attachment_timestamp (attachment tx).
Definition transaction_set_attachment_timestamp (tx : iota_transaction_t) (v : Z) : iota_transaction_t :=
  or_attachment MASK_ATTACHMENT_TIMESTAMP (set_attachment (mk_attachment (a_trunk (attachment tx)) (a_branch (attachment tx)) v (a_attachment_timestamp_lower (attachment tx)) (a_attachment_timestamp_upper (attachment tx)) (a_nonce (attachment tx)) (a_tag (attachment tx))) tx).

Definition transaction_attachment_timestamp_lower (tx : iota_transaction_t) : Z := a_attachment_timestamp_lower (attachment tx).
Definition transaction_set_attachment_timestamp_lower (tx : iota_transaction_t) (v : Z) : iota_transaction_t :=
  or_attachment MASK_ATTACHMENT_TIMESTAMP_LOWER (set_attachment (mk_attachment (a_trunk (attachment tx)) (a_branch (attachment tx)) (a_attachment_timestamp (attachment tx)) v (a_attachment_timestamp_upper (attachment tx)) (a_nonce (attachment tx)) (a_tag (attachment tx))) tx).

Definition transaction_attachment_timestamp_upper (tx : iota_transaction_t) : Z := a_attachment_timestamp_upper (attachment tx).
Definition transaction_set_attachment_timestamp_upper (tx : iota_transaction_t) (v : Z) : iota_transaction_t :=
  or_attachment MASK_ATTACHMENT_TIMESTAMP_UPPER (set_attachment (mk_attachment (a_trunk (attachment tx)) (a_branch (attachment tx)) (a_attachment_timestamp (attachment tx)) (a_attachment_timestamp_lower (attachment tx)) v (a_nonce (attachment tx)) (a_tag (attachment tx))) tx).

Definition transaction_nonce (tx : iota_transaction_t) : list Z := a_nonce (attachment tx).
Definition transaction_set_nonce (tx : iota_transaction_t) (v : list Z) : iota_transaction_t :=
  or_attachment MASK_ATTACHMENT_NONCE (set_attachment (mk_attachment (a_trunk (attachment tx)) (a_branch (attachment tx)) (a_attachment_timestamp (attachment tx)) (a_attachment_timestamp_lower (attachment tx)) (a_attachment_timestamp_upper (attachment tx)) (copy_into (a_nonce (attachment tx)) v) (a_tag (attachment tx))) tx).

Definition transaction_tag (tx : iota_transaction_t) : list Z := a_tag (attachment tx).
Definition transaction_set_tag (tx : iota_transaction_t) (v : list Z) : iota_transaction_t :=
  or_attachment MASK_ATTACHMENT_TAG (set_attachment (mk_attachment (a_trunk (attachment tx)) (a_branch (attachment tx)) (a_attachment_timestamp (attachment tx)) (a_attachment_timestamp_lower (attachment tx)) (a_attachment_timestamp_upper (attachment tx)) (a_nonce (attachment tx)) (copy_into (a_tag (attachment tx)) v)) tx).

Definition transaction_hash (tx : iota_transaction_t) : list Z := c_hash (consensus tx).
Definition transaction_set_hash (tx : iota_transaction_t) (v : list Z) : iota_transaction_t :=
  or_consensus MASK_CONSENSUS_HASH (set_consensus (mk_consensus (copy_into (c_hash (consensus tx)) v)) tx).

Definition transaction_signature (tx : iota_transaction_t) : list Z := d_signature_or_message (data tx).
Definition transaction_set_signature (tx : iota_transaction_t) (v : list Z) : iota_transaction_t :=
  or_data MASK_DATA_SIG_OR_MSG (set_data (mk_data (copy_into (d_signature_or_message (data tx)) v)) tx).

Definition transaction_message (tx : iota_transaction_t) : list Z := d_signature_or_message (data tx).
Definition transaction_set_message (tx : iota_transaction_t) (v : list Z) : iota_transaction_t :=
  or_data MASK_DATA_SIG_OR_MSG (set_data (mk_data (copy_into (d_signature_or_message (data tx)) v)) tx).

Definition transaction_snapshot_index (tx : iota_transaction_t) : Z := m_snapshot_index (metadata tx).
Definition transaction_set_snapshot_index (tx : iota_transaction_t) (v : Z) : iota_transaction_t :=
  or_metadata MASK_METADATA_SNAPSHOT_INDEX (set_metadata (mk_metadata v (m_solid (metadata tx)) (m_validity (metadata tx)) (m_arrival_timestamp (metadata tx))) tx).

Definition transaction_solid (tx : iota_transaction_t) : bool := m_solid (metadata tx).
Definition transaction_set_solid (tx : iota_transaction_t) (v : bool) : iota_transaction_t :=
  or_metadata MASK_METADATA_SOLID (set_metadata (mk_metadata (m_snapshot_index (metadata tx)) v (m_validity (metadata tx)) (m_arrival_timestamp (metadata tx))) tx).

Definition transaction_validity (tx : iota_transaction_t) : Z := m_validity (metadata tx).
Definition transaction_set_validity (tx : iota_transaction_t) (v : Z) : iota_transaction_t :=
  or_metadata MASK_METADATA_VALIDITY (set_metadata (mk_metadata (m_snapshot_index (metadata tx)) (m_solid (metadata tx)) v (m_arrival_timestamp (metadata tx))) tx).

Definition transaction_arrival_timestamp (tx : iota_transaction_t) : Z := m_arrival_timestamp (metadata tx).
Definition transaction_set_arrival_timestamp (tx : iota_transaction_t) (v : Z) : iota_transaction_t :=
  or_metadata MASK_METADATA_ARRIVAL_TIMESTAMP (set_metadata (mk_metadata (m_snapshot_index (metadata tx)) (m_solid (metadata tx)) (m_validity (metadata tx)) v) tx).

(** Writing a buffer field without its mask, as the deserialization does. *)
Definition put_address (v : list Z) (tx : iota_transaction_t) : iota_transaction_t :=
  set_essence (mk_essence v (e_value (essence tx)) (e_obsolete_tag (essence tx)) (e_timestamp (essence tx)) (e_current_index (essence tx)) (e_last_index (essence tx)) (e_bundle (essence tx))) tx.
Definition put_obsolete_tag (v : list Z) (tx : iota_transaction_t) : iota_transaction_t :=
  set_essence (mk_essence (e_address (essence tx)) (e_value (essence tx)) v (e_timestamp (essence tx)) (e_current_index (essence tx)) (e_last_index (essence tx)) (e_bundle (essence tx))) tx.
Definition put_bundle (v : list Z) (tx : iota_transaction_t) : iota_transaction_t :=
  set_essence (mk_essence (e_address (essence tx)) (e_value (essence tx)) (e_obsolete_tag (essence tx)) (e_timestamp (essence tx)) (e_current_index (essence tx)) (e_last_index (essence tx)) v) tx.
Definition put_trunk (v : list Z) (tx : iota_transaction_t) : iota_transaction_t :=
  set_attachment (mk_attachment v (a_branch (attachment tx)) (a_attachment_timestamp (attachment tx)) (a_attachment_timestamp_lower (attachment tx)) (a_attachment_timestamp_upper (attachment tx)) (a_nonce (attachment tx)) (a_tag (attachment tx))) tx.
Definition put_branch (v : list Z) (tx : iota_transaction_t) : iota_transaction_t :=
  set_attachment (mk_attachment (a_trunk (attachment tx)) v (a_attachment_timestamp (attachment tx)) (a_attachment_timestamp_lower (attachment tx)) (a_attachment_timestamp_upper (attachment tx)) (a_nonce (attachment tx)) (a_tag (attachment tx))) tx.
Definition put_nonce (v : list Z) (tx : iota_transaction_t) : iota_transaction_t :=
  set_attachment (mk_attachment (a_trunk (attachment tx)) (a_branch (attachment tx)) (a_attachment_timestamp (attachment tx)) (a_attachment_timestamp_lower (attachment tx)) (a_attachment_timestamp_upper (attachment tx)) v (a_tag (attachment tx))) tx.
Definition put_tag (v : list Z) (tx : iota_transaction_t) : iota_transaction_t :=
  set_attachment (mk_attachment (a_trunk (attachment tx)) (a_branch (attachment tx)) (a_attachment_timestamp (attachment tx)) (a_attachment_timestamp_lower (attachment tx)) (a_attachment_timestamp_upper (attachment tx)) (a_nonce (attachment tx)) v) tx.
Definition put_hash (v : list Z) (tx : iota_transaction_t) : iota_transaction_t :=
  set_consensus (mk_consensus v) tx.
Definition put_signature_or_message (v : list Z) (tx : iota_transaction_t) : iota_transaction_t :=
  set_data (mk_data v) tx.

(** ** Deserialization *)

(** The stack buffers [partial] and [buffer]. *)
Abbreviation stack := (list Z * list Z)%type.

(** [flex_trits_slice(partial, n, ...); flex_trits_to_trits(buffer, n, ...)],
    then [trits_to_long(buffer, n)]. *)
Definition read_long (trits : list Z) (offset n : nat) (st : stack) : Z * stack :=
  let '(partial, buffer) := st in
  let '(_, partial) := flex_trits_slice partial n trits NUM_TRITS_SERIALIZED_TRANSACTION offset n in
  let '(_, buffer) := flex_trits_to_trits buffer n partial n n in
  (trits_to_long (take n buffer), (partial, buffer)).

Definition read_field (dst trits : list Z) (offset n : nat) : list Z :=
  (flex_trits_slice dst n trits NUM_TRITS_SERIALIZED_TRANSACTION offset n).2.

(** [tx_trits] and [hash] are further stack buffers. *)
Definition transaction_deserialize_trits (st : stack) (tx_trits hash : list Z)
    (tx : iota_transaction_t) (trits : list Z) (compute_hash : bool) : nat * iota_transaction_t :=
  let offset := 0%nat in
  let tx := put_signature_or_message (read_field (d_signature_or_message (data tx)) trits offset NUM_TRITS_SIGNATURE) tx in
  let tx := or_data MASK_DATA_SIG_OR_MSG tx in
  let offset := (offset + NUM_TRITS_SIGNATURE)%nat in
  let tx := put_address (read_field (e_address (essence tx)) trits offset NUM_TRITS_ADDRESS) tx in
  let tx := or_essence MASK_ESSENCE_ADDRESS tx in
  let offset := (offset + NUM_TRITS_ADDRESS)%nat in
  let '(v, st) := read_long trits offset NUM_TRITS_VALUE st in
  let tx := transaction_set_value tx v in
  let offset := (offset + NUM_TRITS_VALUE)%nat in
  let tx := put_obsolete_tag (read_field (e_obsolete_tag (essence tx)) trits offset NUM_TRITS_OBSOLETE_TAG) tx in
  let tx := or_essence MASK_ESSENCE_OBSOLETE_TAG tx in
  let offset := (offset + NUM_TRITS_OBSOLETE_TAG)%nat in
  let '(v, st) := read_long trits offset NUM_TRITS_TIMESTAMP st in
  let tx := transaction_set_timestamp tx (u64 v) in
  let offset := (offset + NUM_TRITS_TIMESTAMP)%nat in
  let '(v, st) := read_long trits offset NUM_TRITS_CURRENT_INDEX st in
  let tx := transaction_set_current_index tx (u64 v) in
  let offset := (offset + NUM_TRITS_CURRENT_INDEX)%nat in
  let '(v, st) := read_long trits offset NUM_TRITS_LAST_INDEX st in
  let tx := transaction_set_last_index tx (u64 v) in
  let offset := (offset + NUM_TRITS_LAST_INDEX)%nat in
  let tx := put_bundle (read_field (e_bundle (essence tx)) trits offset NUM_TRITS_BUNDLE) tx in
  let tx := or_essence MASK_ESSENCE_BUNDLE tx in
  let offset := (offset + NUM_TRITS_BUNDLE)%nat in
  let tx := put_trunk (read_field (a_trunk (attachment tx)) trits offset NUM_TRITS_TRUNK) tx in
  let tx := or_attachment MASK_ATTACHMENT_TRUNK tx in
  let offset := (offset + NUM_TRITS_TRUNK)%nat in
  let tx := put_branch (read_field (a_branch (attachment tx)) trits offset NUM_TRITS_BRANCH) tx in
  let tx := or_attachment MASK_ATTACHMENT_BRANCH tx in
  let offset := (offset + NUM_TRITS_BRANCH)%nat in
  let tx := put_tag (read_field (a_tag (attachment tx)) trits offset NUM_TRITS_TAG) tx in
  let tx := or_attachment MASK_ATTACHMENT_TAG tx in
  let offset := (offset + NUM_TRITS_TAG)%nat in
  let '(v, st) := read_long trits offset NUM_TRITS_ATTACHMENT_TIMESTAMP st in
  let tx := transaction_set_attachment_timestamp tx (u64 v) in
  let offset := (offset + NUM_TRITS_ATTACHMENT_TIMESTAMP)%nat in
  let '(v, st) := read_long trits offset NUM_TRITS_ATTACHMENT_TIMESTAMP_LOWER st in
  let tx := transaction_set_attachment_timestamp_lower tx (u64 v) in
  let offset := (offset + NUM_TRITS_ATTACHMENT_TIMESTAMP_LOWER)%nat in
  let '(v, st) := read_long trits offset NUM_TRITS_ATTACHMENT_TIMESTAMP_UPPER st in
  let tx := transaction_set_attachment_timestamp_upper tx (u64 v) in
  let offset := (offset + NUM_TRITS_ATTACHMENT_TIMESTAMP_UPPER)%nat in
  let tx := put_nonce (read_field (a_nonce (attachment tx)) trits offset NUM_TRITS_NONCE) tx in
  let tx := or_attachment MASK_ATTACHMENT_NONCE tx in
  let offset := (offset + NUM_TRITS_NONCE)%nat in
  let tx :=
    if compute_hash then
      let curl := mkCurl (c_state (curl_init (mkCurl [] CURL_P_81))) CURL_P_81 in
      let '(_, tx_trits) := flex_trits_to_trits tx_trits NUM_TRITS_SERIALIZED_TRANSACTION trits offset offset in
      let '(hash, _) := curl_digest (take NUM_TRITS_SERIALIZED_TRANSACTION tx_trits) curl in
      let tx := put_hash (flex_trits_from_trits (c_hash (consensus tx)) NUM_TRITS_HASH hash
                            NUM_TRITS_HASH NUM_TRITS_HASH).2 tx in
      or_consensus MASK_CONSENSUS_HASH tx
    else tx in
  (offset, tx).

(** ** Serialization *)

Definition long_to_flex_trit (value : Z) (trits : list Z) : nat * list Z :=
  let buffer := replicate NUM_TRITS_VALUE 0 in
  let '(long_size, buffer) := long_to_trits value buffer in
  (long_size, (flex_trits_from_trits trits NUM_TRITS_VALUE buffer NUM_TRITS_VALUE NUM_TRITS_VALUE).2).

(** [flex_trits_insert(trits, NUM_TRITS_SERIALIZED_TRANSACTION, field, n, offset, n)] *)
Definition insert_field (field : list Z) (n : nat) (acc : nat * list Z) : nat * list Z :=
  let '(offset, trits) := acc in
  ((offset + n)%nat, (flex_trits_insert trits NUM_TRITS_SERIALIZED_TRANSACTION field n offset n).2).

(** The same for a number, which goes through the stack buffer [partial]. *)
Definition insert_long (value : Z) (n : nat) (acc : nat * list Z * list Z) : nat * list Z * list Z :=
  let '(offset, trits, partial) := acc in
  let '(_, partial) := long_to_flex_trit value partial in
  (insert_field partial n (offset, trits), partial).

Definition insert_buf (field : list Z) (n : nat) (acc : nat * list Z * list Z) : nat * list Z * list Z :=
  let '(offset, trits, partial) := acc in (insert_field field n (offset, trits), partial).

Definition transaction_serialize_to_flex_trits (partial : list Z) (tx : iota_transaction_t) (trits : list Z)
    : nat * list Z :=
  let acc := (0%nat, memset FLEX_TRIT_NULL_VALUE NUM_TRITS_SERIALIZED_TRANSACTION trits, partial) in
  let acc := insert_buf (d_signature_or_message (data tx)) NUM_TRITS_SIGNATURE acc in
  let acc := insert_buf (e_address (essence tx)) NUM_TRITS_ADDRESS acc in
  let acc := insert_long (e_value (essence tx)) NUM_TRITS_VALUE acc in
  let acc := insert_buf (e_obsolete_tag (essence tx)) NUM_TRITS_OBSOLETE_TAG acc in
  let acc := insert_long (i64 (e_timestamp (essence tx))) NUM_TRITS_TIMESTAMP acc in
  let acc := insert_long (i64 (e_current_index (essence tx))) NUM_TRITS_CURRENT_INDEX acc in
  let acc := insert_long (i64 (e_last_index (essence tx))) NUM_TRITS_LAST_INDEX acc in
  let acc := insert_buf (e_bundle (essence tx)) NUM_TRITS_BUNDLE acc in
  let acc := insert_buf (a_trunk (attachment tx)) NUM_TRITS_TRUNK acc in
  let acc := insert_buf (a_branch (attachment tx)) NUM_TRITS_BRANCH acc in
  let acc := insert_buf (a_tag (attachment tx)) NUM_TRITS_TAG acc in
  let acc := insert_long (i64 (a_attachment_timestamp (attachment tx))) NUM_TRITS_ATTACHMENT_TIMESTAMP acc in
  let acc := insert_long (i64 (a_attachment_timestamp_lower (attachment tx))) NUM_TRITS_ATTACHMENT_TIMESTAMP_LOWER acc in
  let acc := insert_long (i64 (a_attachment_timestamp_upper (attachment tx))) NUM_TRITS_ATTACHMENT_TIMESTAMP_UPPER acc in
  let acc := insert_buf (a_nonce (attachment tx)) NUM_TRITS_NONCE acc in
  acc.1.

(** ** Utility functions *)

(** Every field is cleared (the null flex trit is zero), every mask dropped. *)
Definition transaction_reset (tx : iota_transaction_t) : iota_transaction_t :=
  let null n := replicate n FLEX_TRIT_NULL_VALUE in
  mk_tx
    (mk_essence (null NUM_TRITS_ADDRESS) 0 (null NUM_TRITS_OBSOLETE_TAG) 0 0 0 (null NUM_TRITS_BUNDLE))
    (mk_attachment (null NUM_TRITS_TRUNK) (null NUM_TRITS_BRANCH) 0 0 0 (null NUM_TRITS_NONCE) (null NUM_TRITS_TAG))
    (mk_consensus (null NUM_TRITS_HASH))
    (mk_data (null NUM_TRITS_SIGNATURE))
    (mk_metadata 0 false 0 0)
    (mk_mask 0 0 0 0 0).

(** The scan from the end, with [pos] an [uint8_t] that wraps around when the
    whole hash is null. *)
Fixpoint weight_scan (fuel : nat) (hash : list Z) (pos num : Z) : Z * Z :=
  match fuel with
  | O => (pos, num)
  | S fuel =>
      let old := pos in
      let pos := u8 (pos - 1) in
      if (old >? 0) && (nth (Z.to_nat pos) hash 0 =? FLEX_TRIT_NULL_VALUE)
      then weight_scan fuel hash pos (u8 (num + 1)) else (pos, num)
  end.

(** [None]: the hash is read past its end. *)
Definition transaction_weight_magnitude (tx : iota_transaction_t) : option Z :=
  let hash := transaction_hash tx in
  let '(pos, num) := weight_scan (S NUM_TRITS_HASH) hash (Z.of_nat NUM_TRITS_HASH) 0 in
  if pos >? 0 then
    match hash !! Z.to_nat pos with
    | None => None
    | Some t =>
        let '(_, one_trit_buffer) := flex_trits_to_trits [0] 1 [t] 1 1 in
        Some (if nth 0 one_trit_buffer 0 =? 0 then u8 (num + 1) else num)
    end
  else Some num.

(** [alloc] tells whether [malloc] succeeds; the memory it returns is arbitrary. *)
Definition transaction_new (alloc : bool) (mem : iota_transaction_t) : option iota_transaction_t :=
  if alloc then Some (transaction_reset mem) else None.

Definition transaction_deserialize (alloc : bool) (mem : iota_transaction_t) (st : stack) (tx_trits hash : list Z)
    (trits : list Z) (compute_hash : bool) : option iota_transaction_t :=
  match transaction_new alloc mem with
  | None => None
  | Some tx =>
      let '(n, tx) := transaction_deserialize_trits st tx_trits hash tx trits compute_hash in
      if (n =? 0)%nat then None else Some tx
  end.

Definition transaction_serialize (alloc : option (list Z)) (partial : list Z) (tx : iota_transaction_t)
    : option (list Z) :=
  match alloc with
  | None => None
  | Some mem =>
      let '(n, trits) := transaction_serialize_to_flex_trits partial tx mem in
      if (n =? 0)%nat then None else Some trits
  end.

(** * The serialized form *)

Definition trits81 (v : Z) : list Z := (long_to_trits v (replicate NUM_TRITS_VALUE 0)).2.

Lemma min_trits_64 v : is_int64 v -> (min_trits v <= 41)%nat.
Proof.
  intros Hv. destruct (min_trits_spec v Hv) as (_ & ? & _). lia.
Qed.

Lemma trits81_spec v : is_int64 v ->
  length (trits81 v) = NUM_TRITS_VALUE /\ trits_ok (trits81 v) /\ bal (trits81 v) = v.
Proof.
  intros Hv. pose proof (min_trits_64 v Hv). apply long_to_trits_zeros; [done|..]; unfold NUM_TRITS_VALUE; lia.
Qed.

(** A number of at most [n] trits is already denoted by the first [n]. *)
Lemma trits81_take v n : is_int64 v -> (n <= NUM_TRITS_VALUE)%nat -> Z.abs v <= rep_max n ->
  trits81 v = take n (trits81 v) ++ replicate (NUM_TRITS_VALUE - n) 0.
Proof.
  intros Hv Hn Hr. destruct (trits81_spec v Hv) as (Hl & Hok & Hb).
  rewrite <- (take_drop n (trits81 v)) at 1. f_equal.
  assert (trits_ok (take n (trits81 v))) as Ht by (by apply Forall_take).
  assert (trits_ok (drop n (trits81 v))) as Hd by (by apply Forall_drop).
  assert (length (take n (trits81 v)) = n) as Htl by (rewrite length_take; lia).
  pose proof (bal_bound _ Ht) as Hbt. rewrite Htl in Hbt.
  rewrite <- (take_drop n (trits81 v)), bal_app, Htl in Hb.
  pose proof (rep_max_odd n) as Ho. pose proof (pow3_pos n).
  assert (bal (drop n (trits81 v)) = 0) as Hz by nia.
  apply bal_inj; [done| |rewrite length_drop, length_replicate; lia|by rewrite bal_replicate_0].
  apply Forall_replicate. unfold is_trit. lia.
Qed.

Lemma bal_take_trits81 v n : is_int64 v -> (n <= NUM_TRITS_VALUE)%nat -> Z.abs v <= rep_max n ->
  bal (take n (trits81 v)) = v.
Proof.
  intros Hv Hn Hr. destruct (trits81_spec v Hv) as (_ & _ & Hb).
  rewrite (trits81_take v n) in Hb by done. by rewrite bal_app, bal_replicate_0, Z.mul_0_r, Z.add_0_r in Hb.
Qed.

Lemma long_to_flex_trit_eq v partial : is_int64 v -> length partial = NUM_TRITS_VALUE ->
  long_to_flex_trit v partial = (min_trits v, trits81 v).
Proof.
  intros Hv Hp. destruct (trits81_spec v Hv) as (Hl & _ & _). unfold long_to_flex_trit.
  fold (trits81 v). unfold trits81 in *. 
  destruct (long_to_trits_spec v (replicate NUM_TRITS_VALUE 0)) as (ts & E & _); [done| | |].
  { rewrite length_replicate. unfold NUM_TRITS_VALUE. lia. }
  { rewrite length_replicate. pose proof (min_trits_64 v Hv). unfold NUM_TRITS_VALUE. lia. }
  rewrite E in *. cbn [snd] in *.
  rewrite flex_trits_from_trits_ok; [done|done|done|unfold NUM_TRITS_VALUE; lia].
Qed.

(** The accumulator after the fields [pre] were written. *)
Definition acc_of (pre partial : list Z) : nat * list Z * list Z :=
  (length pre, pre ++ replicate (NUM_TRITS_SERIALIZED_TRANSACTION - length pre) 0, partial).

Lemma insert_field_eq field n pre : (0 < n)%nat -> (n <= length field)%nat ->
  (length pre + n <= NUM_TRITS_SERIALIZED_TRANSACTION)%nat ->
  insert_field field n (length pre, pre ++ replicate (NUM_TRITS_SERIALIZED_TRANSACTION - length pre) 0) =
  ((length pre + n)%nat,
   (pre ++ take n field) ++ replicate (NUM_TRITS_SERIALIZED_TRANSACTION - (length pre + n)) 0).
Proof.
  intros Hn Hf Hl. unfold insert_field. f_equal. unfold flex_trits_insert. guards. cbn [snd].
  unfold buf_write. rewrite take_app_length' by done.
  rewrite (take_ge (take n field)) by (rewrite length_app, length_replicate, length_take; lia).
  rewrite <- app_assoc. do 2 f_equal. rewrite length_take, drop_app_ge, drop_replicate by lia.
  f_equal. lia.
Qed.

Lemma insert_buf_eq field n pre partial : length field = n -> (0 < n)%nat ->
  (length pre + n <= NUM_TRITS_SERIALIZED_TRANSACTION)%nat ->
  insert_buf field n (acc_of pre partial) = acc_of (pre ++ field) partial.
Proof.
  intros Hf Hn Hl. unfold insert_buf, acc_of. rewrite insert_field_eq by lia.
  rewrite take_ge by lia. by rewrite length_app, Hf.
Qed.

Lemma insert_long_eq v n pre partial : is_int64 v -> length partial = NUM_TRITS_VALUE ->
  (0 < n <= NUM_TRITS_VALUE)%nat -> (length pre + n <= NUM_TRITS_SERIALIZED_TRANSACTION)%nat ->
  insert_long v n (acc_of pre partial) = acc_of (pre ++ take n (trits81 v)) (trits81 v).
Proof.
  intros Hv Hp Hn Hl. destruct (trits81_spec v Hv) as (Htl & _ & _).
  unfold insert_long, acc_of. rewrite long_to_flex_trit_eq by done.
  rewrite insert_field_eq by lia. rewrite length_app, length_take. repeat f_equal; lia.
Qed.

(** ** Well-formed transactions *)

(** A 64-bit field that is written with 27 trits. *)
Definition fits27 (v : Z) : Prop := 0 <= v < 2 ^ 64 /\ Z.abs (i64 v) <= rep_max 27.

Definition sized (n : nat) (buf : list Z) : Prop := length buf = n.
Definition trits_of (n : nat) (buf : list Z) : Prop := length buf = n /\ trits_ok buf.

#[global] Instance fits27_dec v : Decision (fits27 v).
Proof. unfold fits27. apply _. Defined.
#[global] Instance trits_of_dec n buf : Decision (trits_of n buf).
Proof. unfold trits_of. apply _. Defined.

Record tx_wf (tx : iota_transaction_t) : Prop := {
  wf_sig : trits_of NUM_TRITS_SIGNATURE (d_signature_or_message (data tx));
  wf_address : trits_of NUM_TRITS_ADDRESS (e_address (essence tx));
  wf_value : is_int64 (e_value (essence tx));
  wf_obsolete_tag : trits_of NUM_TRITS_OBSOLETE_TAG (e_obsolete_tag (essence tx));
  wf_timestamp : fits27 (e_timestamp (essence tx));
  wf_current_index : fits27 (e_current_index (essence tx));
  wf_last_index : fits27 (e_last_index (essence tx));
  wf_bundle : trits_of NUM_TRITS_BUNDLE (e_bundle (essence tx));
  wf_trunk : trits_of NUM_TRITS_TRUNK (a_trunk (attachment tx));
  wf_branch : trits_of NUM_TRITS_BRANCH (a_branch (attachment tx));
  wf_tag : trits_of NUM_TRITS_TAG (a_tag (attachment tx));
  wf_ats : fits27 (a_attachment_timestamp (attachment tx));
  wf_atsl : fits27 (a_attachment_timestamp_lower (attachment tx));
  wf_atsu : fits27 (a_attachment_timestamp_upper (attachment tx));
  wf_nonce : trits_of NUM_TRITS_NONCE (a_nonce (attachment tx));
  wf_hash : length (c_hash (consensus tx)) = NUM_TRITS_HASH
}.

Lemma fits27_int64 v : fits27 v -> is_int64 (i64 v) /\ u64 (i64 v) = v.
Proof.
  intros [Hv _]. split.
  - pose proof (swrap_range 64 v ltac:(lia)) as H. unfold is_int64, INT64_MIN, INT64_MAX. lia.
  - unfold uwrap. rewrite swrap_mod by lia. apply Z.mod_small. lia.
Qed.

(** The fields of a transaction, in the order and width of the wire format. *)
Definition wire_fields (tx : iota_transaction_t) : list (list Z) :=
  [d_signature_or_message (data tx); e_address (essence tx); trits81 (e_value (essence tx));
   e_obsolete_tag (essence tx); take 27 (trits81 (i64 (e_timestamp (essence tx))));
   take 27 (trits81 (i64 (e_current_index (essence tx))));
   take 27 (trits81 (i64 (e_last_index (essence tx)))); e_bundle (essence tx);
   a_trunk (attachment tx); a_branch (attachment tx); a_tag (attachment tx);
   take 27 (trits81 (i64 (a_attachment_timestamp (attachment tx))));
   take 27 (trits81 (i64 (a_attachment_timestamp_lower (attachment tx))));
   take 27 (trits81 (i64 (a_attachment_timestamp_upper (attachment tx)))); a_nonce (attachment tx)].

Definition wire_sizes : list nat :=
  [NUM_TRITS_SIGNATURE; NUM_TRITS_ADDRESS; NUM_TRITS_VALUE; NUM_TRITS_OBSOLETE_TAG; NUM_TRITS_TIMESTAMP;
   NUM_TRITS_CURRENT_INDEX; NUM_TRITS_LAST_INDEX; NUM_TRITS_BUNDLE; NUM_TRITS_TRUNK; NUM_TRITS_BRANCH;
   NUM_TRITS_TAG; NUM_TRITS_ATTACHMENT_TIMESTAMP; NUM_TRITS_ATTACHMENT_TIMESTAMP_LOWER;
   NUM_TRITS_ATTACHMENT_TIMESTAMP_UPPER; NUM_TRITS_NONCE].

Lemma wire_fields_ok tx : tx_wf tx ->
  Forall2 (fun f n => trits_of n f) (wire_fields tx) wire_sizes.
Proof.
  intros W. assert (forall v, is_int64 v -> trits_of 81 (trits81 v)) as H81.
  { intros v Hv. destruct (trits81_spec v Hv) as (? & ? & _). by split. }
  assert (forall v, fits27 v -> trits_of 27 (take 27 (trits81 (i64 v)))) as H27.
  { intros v Hv. destruct (fits27_int64 v Hv) as [Hi _]. destruct (trits81_spec _ Hi) as (Hl & Ht & _).
    split; [rewrite length_take, Hl; done|by apply Forall_take]. }
  destruct W. unfold wire_fields, wire_sizes.
  repeat (apply Forall2_cons; [auto|]). apply Forall2_nil.
Qed.

(** The numbers of a well-formed transaction, with the sizes of their trits. *)
Lemma wf_numbers tx : tx_wf tx ->
  Forall (fun v => is_int64 v /\ length (trits81 v) = NUM_TRITS_VALUE)
    [e_value (essence tx); i64 (e_timestamp (essence tx)); i64 (e_current_index (essence tx));
     i64 (e_last_index (essence tx)); i64 (a_attachment_timestamp (attachment tx));
     i64 (a_attachment_timestamp_lower (attachment tx)); i64 (a_attachment_timestamp_upper (attachment tx))].
Proof.
  intros W. assert (forall v, fits27 v -> is_int64 (i64 v)) as Hi by (intros v Hv; by apply fits27_int64).
  destruct W. repeat (apply Forall_cons; [split; [auto|apply trits81_spec; auto]|]). apply Forall_nil.
Qed.

Ltac wire_nums := unfold NUM_TRITS_VALUE, NUM_TRITS_SERIALIZED_TRANSACTION, NUM_TRITS_SIGNATURE,
  NUM_TRITS_ADDRESS, NUM_TRITS_OBSOLETE_TAG, NUM_TRITS_TIMESTAMP, NUM_TRITS_CURRENT_INDEX,
  NUM_TRITS_LAST_INDEX, NUM_TRITS_BUNDLE, NUM_TRITS_TRUNK, NUM_TRITS_BRANCH, NUM_TRITS_TAG,
  NUM_TRITS_ATTACHMENT_TIMESTAMP, NUM_TRITS_ATTACHMENT_TIMESTAMP_LOWER,
  NUM_TRITS_ATTACHMENT_TIMESTAMP_UPPER, NUM_TRITS_NONCE in *.

Lemma serialize_eq partial tx mem : tx_wf tx -> length partial = NUM_TRITS_VALUE ->
  length mem = NUM_TRITS_SERIALIZED_TRANSACTION ->
  transaction_serialize_to_flex_trits partial tx mem =
    (NUM_TRITS_SERIALIZED_TRANSACTION, concat (wire_fields tx)).
Proof.
  intros W Hp Hm. pose proof (wf_numbers tx W) as Hn.
  unfold transaction_serialize_to_flex_trits. cbv zeta. rewrite memset_all by done.
  change (0%nat, replicate NUM_TRITS_SERIALIZED_TRANSACTION FLEX_TRIT_NULL_VALUE, partial)
    with (acc_of [] partial).
  repeat (apply Forall_cons_iff in Hn as [[? ?] Hn]).
  destruct W; repeat match goal with H : trits_of _ _ |- _ => destruct H as [? _] end.
  do 15 (first [rewrite insert_buf_eq by (first [assumption | autorewrite with iota; wire_nums; cbn [length]; lia])
             | rewrite insert_long_eq by (first [assumption | autorewrite with iota; wire_nums; cbn [length]; lia])]).
  unfold acc_of. cbn [fst app]. f_equal.
  - autorewrite with iota. wire_nums. lia.
  - replace (_ - _)%nat with 0%nat by (autorewrite with iota; wire_nums; lia).
    rewrite (take_ge (trits81 (e_value _))) by lia.
    unfold wire_fields. cbn [concat replicate]. rewrite !app_nil_r, <- !app_assoc. done.
Qed.

(** ** Reading the fields back *)

Definition wire_off (i : nat) : nat := foldl Nat.add 0%nat (take i wire_sizes).
Definition wire_get (i : nat) (trits : list Z) : list Z :=
  buf_read (wire_off i) (nth i wire_sizes 0%nat) trits.

Lemma foldl_add_shift l a : foldl Nat.add a l = (a + foldl Nat.add 0 l)%nat.
Proof.
  revert a. induction l as [|x l IH]; intros a; cbn [foldl]; [lia|]. rewrite IH, (IH (0 + x)%nat). lia.
Qed.

(** The field [i] of a concatenation of fields of the given sizes. *)
Lemma read_concat_sizes (fs : list (list Z)) ns i f n rest :
  Forall2 (fun f n => length f = n) fs ns -> fs !! i = Some f -> ns !! i = Some n ->
  buf_read (foldl Nat.add 0%nat (take i ns)) n (concat fs ++ rest) = f.
Proof.
  intros H. revert i. induction H as [|f0 n0 fs ns Hf _ IH]; intros i Hi Hn; [done|].
  destruct i as [|i]; cbn [take foldl concat] in *.
  - injection Hi as ->. injection Hn as ->. rewrite <- app_assoc. unfold buf_read. rewrite drop_0.
    by apply take_app_length'.
  - rewrite foldl_add_shift, <- app_assoc. unfold buf_read. rewrite Nat.add_0_l.
    rewrite drop_app_ge by lia. rewrite <- Hf, Nat.add_comm, Nat.add_sub. by apply IH.
Qed.

Lemma wire_get_fields tx i f n : tx_wf tx -> wire_fields tx !! i = Some f -> wire_sizes !! i = Some n ->
  wire_get i (concat (wire_fields tx)) = f.
Proof.
  intros W Hf Hn. unfold wire_get, wire_off. rewrite <- (app_nil_r (concat _)).
  rewrite (nth_lookup_Some wire_sizes i 0%nat n Hn). apply read_concat_sizes with (ns := wire_sizes); [|done..].
  eapply Forall2_impl; [|by apply wire_fields_ok]. by intros ? ? [? _].
Qed.

Lemma buf_write_0 {A} (x p : list A) : (length x <= length p)%nat ->
  buf_write 0 x p = x ++ drop (length x) p.
Proof.
  intros. unfold buf_write. rewrite take_0, (take_ge x) by lia. done.
Qed.

Lemma slice_prefix to n flex len start : (0 < n <= length to)%nat -> length flex = len ->
  (start + n <= len)%nat ->
  flex_trits_slice to n flex len start n = (n, buf_read start n flex ++ drop n to).
Proof.
  intros Hn Hl Hs. unfold flex_trits_slice, memset. guards.
  assert (length (buf_read start n flex) = n) as Hr by (rewrite length_buf_read; lia).
  rewrite (buf_write_0 (replicate n _)) by (rewrite length_replicate; lia). rewrite length_replicate.
  rewrite buf_write_0 by (rewrite length_app, length_replicate, length_drop; lia).
  by rewrite Hr, drop_app_length' by (by rewrite length_replicate).
Qed.

Lemma read_long_eq trits off n p b : length trits = NUM_TRITS_SERIALIZED_TRANSACTION ->
  (0 < n <= NUM_TRITS_VALUE)%nat -> (off + n <= NUM_TRITS_SERIALIZED_TRANSACTION)%nat ->
  length p = NUM_TRITS_VALUE /\ length b = NUM_TRITS_VALUE ->
  exists p' b', (length p' = NUM_TRITS_VALUE /\ length b' = NUM_TRITS_VALUE) /\
  read_long trits off n (p, b) = (trits_to_long (buf_read off n trits), (p', b')).
Proof.
  intros Hl Hn Ho [Hp Hb]. unfold read_long.
  rewrite slice_prefix by lia.
  assert (length (buf_read off n trits) = n) as Hr by (rewrite length_buf_read; lia).
  unfold flex_trits_to_trits, memset. guards.
  rewrite (take_app_length' (buf_read off n trits)) by done.
  rewrite (buf_write_0 (replicate n 0)) by (rewrite length_replicate; lia). rewrite length_replicate.
  rewrite buf_write_0 by (rewrite length_app, length_replicate, length_drop; lia).
  rewrite Hr, (drop_app_length' (replicate n 0)) by (by rewrite length_replicate).
  rewrite take_app_length' by done.
  eexists _, _. split; [|reflexivity]. rewrite !length_app, !length_drop. lia.
Qed.

Lemma read_field_eq dst trits off n : length trits = NUM_TRITS_SERIALIZED_TRANSACTION ->
  length dst = n -> (0 < n)%nat -> (off + n <= NUM_TRITS_SERIALIZED_TRANSACTION)%nat ->
  read_field dst trits off n = buf_read off n trits.
Proof. intros. unfold read_field. by rewrite flex_trits_slice_ok. Qed.

(** The memory of a transaction structure: its arrays have their sizes. *)
Definition tx_sized (tx : iota_transaction_t) : Prop :=
  length (d_signature_or_message (data tx)) = NUM_TRITS_SIGNATURE /\
  length (e_address (essence tx)) = NUM_TRITS_ADDRESS /\
  length (e_obsolete_tag (essence tx)) = NUM_TRITS_OBSOLETE_TAG /\
  length (e_bundle (essence tx)) = NUM_TRITS_BUNDLE /\
  length (a_trunk (attachment tx)) = NUM_TRITS_TRUNK /\
  length (a_branch (attachment tx)) = NUM_TRITS_BRANCH /\
  length (a_tag (attachment tx)) = NUM_TRITS_TAG /\
  length (a_nonce (attachment tx)) = NUM_TRITS_NONCE /\
  length (c_hash (consensus tx)) = NUM_TRITS_HASH.

(** What the fields of a deserialized transaction are. *)
Definition wire_long (i : nat) (trits : list Z) : Z := trits_to_long (wire_get i trits).

Definition decoded_essence (trits : list Z) : iota_transaction_fields_essence_t :=
  mk_essence (wire_get 1 trits) (wire_long 2 trits) (wire_get 3 trits) (u64 (wire_long 4 trits))
    (u64 (wire_long 5 trits)) (u64 (wire_long 6 trits)) (wire_get 7 trits).

Definition decoded_attachment (trits : list Z) : iota_transaction_fields_attachment_t :=
  mk_attachment (wire_get 8 trits) (wire_get 9 trits) (u64 (wire_long 11 trits)) (u64 (wire_long 12 trits))
    (u64 (wire_long 13 trits)) (wire_get 14 trits) (wire_get 10 trits).

(** Every field of the wire format is marked as loaded. *)
Definition wire_loaded (k : field_mask_t) : Prop :=
  Z.land (k_essence k) MASK_ESSENCE_ALL = MASK_ESSENCE_ALL /\
  Z.land (k_attachment k) MASK_ATTACHMENT_ALL = MASK_ATTACHMENT_ALL /\
  Z.land (k_data k) MASK_DATA_ALL = MASK_DATA_ALL.

Lemma u8_lor_bit k i j : 0 <= i < 8 -> 0 <= j < 8 ->
  Z.testbit (u8 (Z.lor k (Z.shiftl 1 j))) i = Z.testbit k i || (i =? j).
Proof.
  intros Hi Hj. unfold uwrap. rewrite Z.mod_pow2_bits_low by lia. rewrite Z.lor_spec. f_equal.
  rewrite Z.shiftl_1_l, Z.pow2_bits_eqb by lia. apply Z.eqb_sym.
Qed.

Ltac wire_side :=
  first [assumption | (split; assumption) | (wire_nums; lia) ].

(** A mask has all of its [n] bits. *)
Lemma mask_full k n : 0 <= n -> (forall i, 0 <= i < n -> Z.testbit k i = true) ->
  Z.land k (Z.ones n) = Z.ones n.
Proof.
  intros Hn H. apply Z.bits_inj'. intros i Hi. rewrite Z.land_spec.
  destruct (decide (i < n)).
  - rewrite H by lia. by rewrite Z.ones_spec_low by lia.
  - rewrite Z.ones_spec_high by lia. apply andb_false_r.
Qed.

(** The Curl-P-81 hash of the serialized transaction. *)
Definition tx_curl_hash (trits : list Z) : list Z :=
  (curl_digest trits (curl_init (mkCurl [] CURL_P_81))).1.

Lemma length_tx_curl_hash trits : trits_ok trits -> length (tx_curl_hash trits) = NUM_TRITS_HASH.
Proof.
  intros Ht. unfold tx_curl_hash, curl_digest.
  refine (squeeze_length_1 (curl_absorb _ trits) _).
  apply curl_absorb_ok; [apply curl_reset_ok|done].
Qed.

Ltac tx_cbn := cbn [essence attachment consensus data metadata loaded_columns_mask
  put_signature_or_message put_address put_obsolete_tag put_bundle put_trunk put_branch put_tag put_nonce put_hash
  set_essence set_attachment set_consensus set_data set_metadata
  or_essence or_attachment or_consensus or_data or_metadata
  transaction_set_value transaction_set_timestamp transaction_set_current_index transaction_set_last_index
  transaction_set_attachment_timestamp transaction_set_attachment_timestamp_lower
  transaction_set_attachment_timestamp_upper
  e_address e_value e_obsolete_tag e_timestamp e_current_index e_last_index e_bundle
  a_trunk a_branch a_attachment_timestamp a_attachment_timestamp_lower a_attachment_timestamp_upper a_nonce a_tag
  c_hash d_signature_or_message k_essence k_attachment k_consensus k_data k_metadata fst snd].

Ltac mask_bits :=
  let i := fresh "i" in let Hi := fresh "Hi" in
  match goal with |- Z.land _ ?m = _ =>
    let n := eval vm_compute in (Z.log2 m + 1) in change m with (Z.ones n) end;
  apply mask_full; [lia|intros i Hi];
  repeat match goal with |- context [u8 (Z.lor ?k ?m)] =>
    let b := eval vm_compute in (Z.log2 m) in change m with (Z.shiftl 1 b); rewrite u8_lor_bit by lia end;
  lia.

Definition decoded (trits : list Z) (tx tx' : iota_transaction_t) (compute_hash : bool) : Prop :=
  essence tx' = decoded_essence trits /\ attachment tx' = decoded_attachment trits /\
  data tx' = mk_data (wire_get 0 trits) /\ metadata tx' = metadata tx /\
  consensus tx' = (if compute_hash then mk_consensus (tx_curl_hash trits) else consensus tx) /\
  wire_loaded (loaded_columns_mask tx').

Lemma deserialize_eq p b txt hash tx trits ch : tx_sized tx -> trits_ok trits ->
  length trits = NUM_TRITS_SERIALIZED_TRANSACTION ->
  length p = NUM_TRITS_VALUE -> length b = NUM_TRITS_VALUE ->
  length txt = NUM_TRITS_SERIALIZED_TRANSACTION ->
  let r := transaction_deserialize_trits (p, b) txt hash tx trits ch in
  r.1 = NUM_TRITS_SERIALIZED_TRANSACTION /\ decoded trits tx r.2 ch.
Proof.
  intros Hs Hok Hl Hp Hb Htx. assert (length p = NUM_TRITS_VALUE /\ length b = NUM_TRITS_VALUE) as H0 by done.
  clear Hp Hb.
  destruct tx as [[? ? ? ? ? ? ?] [? ? ? ? ? ? ?] [?] [?] meta [? ? ? ? ?]].
  unfold tx_sized in Hs. cbn in Hs. destruct_and! Hs.
  unfold transaction_deserialize_trits. cbv zeta.
  tx_cbn.
  do 7 (match goal with H : length ?p' = NUM_TRITS_VALUE /\ length ?b' = NUM_TRITS_VALUE
    |- context [read_long trits ?o ?n (?p', ?b')] =>
      let E := fresh in
      destruct (read_long_eq trits o n p' b') as (? & ? & ? & E); [wire_side..|rewrite E; clear E H; tx_cbn]
    end).
  rewrite !read_field_eq by wire_side.
  match goal with |- context [flex_trits_to_trits txt _ trits ?o ?o] =>
    replace o with NUM_TRITS_SERIALIZED_TRANSACTION by (wire_nums; lia) end.
  rewrite flex_trits_to_trits_ok by wire_side.
  rewrite take_ge by lia. change (mkCurl (c_state _) CURL_P_81) with (curl_init (mkCurl [] CURL_P_81)).
  pose proof (length_tx_curl_hash trits Hok) as Hh. unfold decoded, tx_curl_hash in *.
  destruct (curl_digest trits _) as [h c]. cbn [fst] in *.
  rewrite flex_trits_from_trits_ok by (done || (unfold NUM_TRITS_HASH; lia)). cbn [snd].
  destruct ch; tx_cbn; split_and!; try reflexivity.
  all: unfold wire_loaded; tx_cbn; split_and!; mask_bits.
Qed.

(** ** Numbers on the wire *)

Lemma read_value v : is_int64 v -> trits_to_long (trits81 v) = v.
Proof.
  intros Hv. destruct (trits81_spec v Hv) as (_ & _ & Hb). rewrite trits_to_long_mod, Hb.
  unfold is_int64, INT64_MIN, INT64_MAX in Hv. apply swrap_small; lia.
Qed.

Lemma read_fits27 v : fits27 v -> u64 (trits_to_long (take 27 (trits81 (i64 v)))) = v.
Proof.
  intros Hf. destruct (fits27_int64 v Hf) as [Hi Hu]. destruct Hf as [_ Hr].
  rewrite trits_to_long_mod, bal_take_trits81 by (done || (unfold NUM_TRITS_VALUE; lia)).
  by rewrite swrap_swrap by lia.
Qed.

Lemma wire_trits_ok tx : tx_wf tx -> trits_ok (concat (wire_fields tx)) /\
  length (concat (wire_fields tx)) = NUM_TRITS_SERIALIZED_TRANSACTION.
Proof.
  intros W. pose proof (wire_fields_ok tx W) as H. split.
  - apply Forall_concat. clear W. induction H as [|f n fs ns [_ Hf] _ IH]; [constructor|].
    by apply Forall_cons.
  - assert (length (concat (wire_fields tx)) = foldr Nat.add 0%nat wire_sizes) as ->; [|vm_compute; done].
    clear W. induction H as [|f n fs ns [Hf _] _ IH]; [done|]. cbn [concat foldr].
    rewrite length_app. lia.
Qed.

Lemma decoded_wire tx : tx_wf tx ->
  decoded_essence (concat (wire_fields tx)) = essence tx /\
  decoded_attachment (concat (wire_fields tx)) = attachment tx /\
  mk_data (wire_get 0 (concat (wire_fields tx))) = data tx.
Proof.
  intros W. pose proof (fun i f n => wire_get_fields tx i f n W) as Hg.
  unfold decoded_essence, decoded_attachment, wire_long.
  rewrite (Hg 0%nat _ _ eq_refl eq_refl), (Hg 1%nat _ _ eq_refl eq_refl), (Hg 2%nat _ _ eq_refl eq_refl),
    (Hg 3%nat _ _ eq_refl eq_refl), (Hg 4%nat _ _ eq_refl eq_refl), (Hg 5%nat _ _ eq_refl eq_refl),
    (Hg 6%nat _ _ eq_refl eq_refl), (Hg 7%nat _ _ eq_refl eq_refl), (Hg 8%nat _ _ eq_refl eq_refl),
    (Hg 9%nat _ _ eq_refl eq_refl), (Hg 10%nat _ _ eq_refl eq_refl), (Hg 11%nat _ _ eq_refl eq_refl),
    (Hg 12%nat _ _ eq_refl eq_refl), (Hg 13%nat _ _ eq_refl eq_refl), (Hg 14%nat _ _ eq_refl eq_refl).
  clear Hg. destruct W. rewrite read_value, !read_fits27 by done.
  by destruct tx as [[] [] [] [] ? ?].
Qed.

(** Cutting a wire buffer into its fields and joining them. *)
Lemma wire_split trits i : (i < 15)%nat ->
  drop (wire_off i) trits = wire_get i trits ++ drop (wire_off (S i)) trits.
Proof.
  intros Hi. unfold wire_get, buf_read.
  assert (wire_off (S i) = wire_off i + nth i wire_sizes 0)%nat as ->.
  { do 15 (destruct i as [|i]; [reflexivity|]). lia. }
  by rewrite <- drop_drop, take_drop.
Qed.

Lemma wire_join trits : length trits = NUM_TRITS_SERIALIZED_TRANSACTION ->
  trits = concat (map (fun i => wire_get i trits) (seq 0 15)).
Proof.
  intros Hl. rewrite <- (drop_0 trits) at 1. change 0%nat with (wire_off 0) at 1.
  do 15 (rewrite wire_split by lia). rewrite drop_ge; [done|].
  rewrite Hl. vm_compute. done.
Qed.

Lemma wire_get_ok trits i n : trits_ok trits -> length trits = NUM_TRITS_SERIALIZED_TRANSACTION ->
  wire_sizes !! i = Some n -> trits_of n (wire_get i trits).
Proof.
  intros Ht Hl Hn. unfold wire_get. rewrite (nth_lookup_Some _ _ 0%nat _ Hn). split.
  - apply length_buf_read. rewrite Hl. do 15 (destruct i as [|i]; [injection Hn as <-; apply Nat.leb_le; vm_compute; reflexivity|]).
    done.
  - unfold buf_read. solve_forall.
Qed.

(** A 27-trit field becomes a 64-bit number and back. *)
Lemma wire_long_27 ts : trits_of 27 ts ->
  fits27 (u64 (trits_to_long ts)) /\ take 27 (trits81 (i64 (u64 (trits_to_long ts)))) = ts.
Proof.
  intros [Hl Hok]. pose proof (bal_bound ts Hok) as Hb. rewrite Hl in Hb. change (3 ^ Z.of_nat 27) with 7625597484987 in Hb.
  rewrite trits_to_long_exact by (done || lia).
  assert (is_int64 (bal ts)) as Hi by (unfold is_int64, INT64_MIN, INT64_MAX; lia).
  assert (i64 (u64 (bal ts)) = bal ts) as E.
  { rewrite <- (swrap_small 64 (bal ts)) at 2 by lia. apply swrap_eqm. unfold uwrap. by rewrite Zmod_mod. }
  assert (Z.abs (bal ts) <= rep_max 27) as Hr by (change (rep_max 27) with 3812798742493; lia).
  rewrite E. split.
  - split; [apply uwrap_range; lia|by rewrite E].
  - destruct (trits81_spec _ Hi) as (Htl & Hto & _).
    apply bal_inj; [by apply Forall_take|done| |].
    + rewrite length_take, Htl, Hl. done.
    + apply bal_take_trits81; [done|unfold NUM_TRITS_VALUE; lia|done].
Qed.

Lemma wire_long_81 ts : trits_of 81 ts -> is_int64 (bal ts) -> trits81 (trits_to_long ts) = ts /\
  is_int64 (trits_to_long ts).
Proof.
  intros [Hl Hok] Hi. assert (trits_to_long ts = bal ts) as ->.
  { rewrite trits_to_long_mod. unfold is_int64, INT64_MIN, INT64_MAX in Hi. apply swrap_small; lia. }
  split; [|done]. destruct (trits81_spec _ Hi) as (Htl & Hto & Hb). apply bal_inj; try assumption. by rewrite Htl, Hl.
Qed.

Lemma decoded_wf tx tx' trits ch : trits_ok trits -> length trits = NUM_TRITS_SERIALIZED_TRANSACTION ->
  is_int64 (bal (wire_get 2 trits)) -> tx_sized tx -> decoded trits tx tx' ch ->
  tx_wf tx' /\ concat (wire_fields tx') = trits.
Proof.
  intros Ht Hl Hv Hs (He & Ha & Hd & Hm & Hc & _).
  pose proof (fun i n => wire_get_ok trits i n Ht Hl) as Hg.
  assert (length (c_hash (consensus tx')) = NUM_TRITS_HASH) as Hh.
  { rewrite Hc. destruct ch; [by apply length_tx_curl_hash|]. unfold tx_sized in Hs. by destruct_and! Hs. }
  destruct tx' as [e a c d m k]. cbn [essence attachment data consensus] in He, Ha, Hd, Hh. subst e a d.
  destruct (wire_long_81 _ (Hg 2%nat _ eq_refl) Hv) as [E2 I2].
  destruct (wire_long_27 _ (Hg 4%nat _ eq_refl)) as [F4 E4].
  destruct (wire_long_27 _ (Hg 5%nat _ eq_refl)) as [F5 E5].
  destruct (wire_long_27 _ (Hg 6%nat _ eq_refl)) as [F6 E6].
  destruct (wire_long_27 _ (Hg 11%nat _ eq_refl)) as [F11 E11].
  destruct (wire_long_27 _ (Hg 12%nat _ eq_refl)) as [F12 E12].
  destruct (wire_long_27 _ (Hg 13%nat _ eq_refl)) as [F13 E13].
  split.
  - split; unfold decoded_essence, decoded_attachment, wire_long; tx_cbn; try assumption; by apply Hg.
  - unfold wire_fields, decoded_essence, decoded_attachment, wire_long; tx_cbn.
    rewrite E2, E4, E5, E6, E11, E12, E13. symmetry. by apply wire_join.
Qed.

(** ** Weight magnitude *)

Fixpoint trailing_zeros (rev_hash : list Z) : nat :=
  match rev_hash with
  | t :: rest => if t =? 0 then S (trailing_zeros rest) else O
  | [] => O
  end.

Lemma weight_scan_spec hash : (length hash < 256)%nat -> forall n fuel num,
  (n <= length hash)%nat -> (n < fuel)%nat -> 0 <= num -> num + Z.of_nat n < 256 ->
  let k := trailing_zeros (rev (take n hash)) in
  weight_scan fuel hash (Z.of_nat n) num =
    (if (k =? n)%nat then 255 else Z.of_nat (n - k - 1), num + Z.of_nat k).
Proof.
  intros Hlen. induction n as [|n IH]; intros fuel num Hn Hf H0 Hnum; cbv zeta.
  - destruct fuel as [|fuel]; [lia|]. cbn. by rewrite Z.add_0_r.
  - destruct fuel as [|fuel]; [lia|]. cbn [weight_scan].
    destruct (lookup_lt_is_Some_2 hash n ltac:(lia)) as [t Ht].
    rewrite (take_S_r hash n t), rev_app_distr by done. cbn [rev app trailing_zeros].
    replace (Z.of_nat (S n) - 1) with (Z.of_nat n) by lia.
    rewrite uwrap_small by lia. rewrite Nat2Z.id, (nth_lookup_Some _ _ 0 _ Ht).
    destruct (Z.gtb_spec (Z.of_nat (S n)) 0); [|lia]. cbn [andb]. unfold FLEX_TRIT_NULL_VALUE.
    destruct (Z.eqb_spec t 0) as [->|Ht0].
    + rewrite uwrap_small by lia. rewrite IH by lia. cbn [Nat.eqb].
      set (k := trailing_zeros _). f_equal. lia.
    + cbn [Nat.eqb]. f_equal; lia.
Qed.

(** * Properties *)

(** C1: serialization followed by deserialization gives the transaction back:
    every essence, attachment and data field (the 64-bit numbers up to the 27
    trits they are given), all their masks set, and, when asked for, the
    Curl-P-81 hash of the 8019 trits; what the buffers held before does not
    matter. *)
Theorem transaction_serialize_roundtrip tx tx0 partial mem p b txt h ch :
  tx_wf tx -> tx_sized tx0 -> length partial = NUM_TRITS_VALUE -> length p = NUM_TRITS_VALUE ->
  length b = NUM_TRITS_VALUE -> length mem = NUM_TRITS_SERIALIZED_TRANSACTION ->
  length txt = NUM_TRITS_SERIALIZED_TRANSACTION ->
  let '(n, trits) := transaction_serialize_to_flex_trits partial tx mem in
  let '(m, tx') := transaction_deserialize_trits (p, b) txt h tx0 trits ch in
  n = NUM_TRITS_SERIALIZED_TRANSACTION /\ m = NUM_TRITS_SERIALIZED_TRANSACTION /\
  essence tx' = essence tx /\ attachment tx' = attachment tx /\ data tx' = data tx /\
  wire_loaded (loaded_columns_mask tx') /\
  (ch = true -> c_hash (consensus tx') = tx_curl_hash trits).
Proof.
  intros W Hs Hpa Hp Hb Hm Htx. rewrite serialize_eq by done.
  destruct (wire_trits_ok tx W) as [Ht Hl].
  pose proof (deserialize_eq p b txt h tx0 (concat (wire_fields tx)) ch Hs Ht Hl Hp Hb Htx) as H.
  cbv zeta in H. destruct (transaction_deserialize_trits _ _ _ _ _ _) as [m tx']. cbn [fst snd] in H.
  destruct H as (-> & He & Ha & Hd & _ & Hc & Hk). destruct (decoded_wire tx W) as (E1 & E2 & E3).
  split_and!; [done..|congruence|congruence|congruence|done|]. intros ->. by rewrite Hc.
Qed.

(** Deserialization followed by serialization gives back the trits: any 8019
    trits whose value field denotes a 64-bit number. *)
Theorem transaction_deserialize_roundtrip trits tx0 partial mem p b txt h ch :
  trits_ok trits -> length trits = NUM_TRITS_SERIALIZED_TRANSACTION ->
  is_int64 (bal (wire_get 2 trits)) ->
  tx_sized tx0 -> length partial = NUM_TRITS_VALUE -> length p = NUM_TRITS_VALUE ->
  length b = NUM_TRITS_VALUE -> length mem = NUM_TRITS_SERIALIZED_TRANSACTION ->
  length txt = NUM_TRITS_SERIALIZED_TRANSACTION ->
  let '(n, tx) := transaction_deserialize_trits (p, b) txt h tx0 trits ch in
  transaction_serialize_to_flex_trits partial tx mem = (NUM_TRITS_SERIALIZED_TRANSACTION, trits).
Proof.
  intros Ht Hl Hv Hs Hpa Hp Hb Hm Htx.
  pose proof (deserialize_eq p b txt h tx0 trits ch Hs Ht Hl Hp Hb Htx) as H.
  cbv zeta in H. destruct (transaction_deserialize_trits _ _ _ _ _ _) as [m tx']. cbn [fst snd] in H.
  destruct H as (_ & Hd). destruct (decoded_wf tx0 tx' trits ch) as [W E]; [done..|].
  rewrite serialize_eq by done. by rewrite E.
Qed.

Definition sample_tx : iota_transaction_t :=
  mk_tx
    (mk_essence (replicate 243 1) INT64_MIN (replicate 81 (-1)) 1546300800 1 2 (replicate 243 (-1)))
    (mk_attachment (replicate 243 0) (replicate 243 1) 1546300801 0 3812798742493 (replicate 81 1) (replicate 81 0))
    (mk_consensus (replicate 243 0)) (mk_data (replicate NUM_TRITS_SIGNATURE 1))
    (mk_metadata 0 false 0 0) (mk_mask 0 0 0 0 0).

Lemma sample_tx_wf : tx_wf sample_tx.
Proof. split; closed_decide. Qed.

Lemma sample_tx_sized : tx_sized sample_tx.
Proof. unfold tx_sized. split_and!; closed_decide. Qed.

Lemma transaction_serialize_roundtrip_witness :
  let buf n := replicate n 7 in
  let '(n, trits) := transaction_serialize_to_flex_trits (buf 81%nat) sample_tx
                       (buf NUM_TRITS_SERIALIZED_TRANSACTION) in
  let '(m, tx') := transaction_deserialize_trits (buf 81%nat, buf 81%nat) (buf NUM_TRITS_SERIALIZED_TRANSACTION)
                     (buf 243%nat) (transaction_reset sample_tx) trits false in
  n = NUM_TRITS_SERIALIZED_TRANSACTION /\ m = NUM_TRITS_SERIALIZED_TRANSACTION /\
  essence tx' = essence sample_tx /\ attachment tx' = attachment sample_tx /\ data tx' = data sample_tx /\
  wire_loaded (loaded_columns_mask tx') /\
  (false = true -> c_hash (consensus tx') = tx_curl_hash trits).
Proof.
  cbv zeta. apply transaction_serialize_roundtrip.
  - exact sample_tx_wf.
  - unfold tx_sized. split_and!; closed_decide.
  - reflexivity.
  - reflexivity.
  - reflexivity.
  - apply length_replicate.
  - apply length_replicate.
Defined.

Lemma transaction_deserialize_roundtrip_witness :
  let buf n := replicate n 7 in
  let trits := concat (wire_fields sample_tx) in
  let '(n, tx) := transaction_deserialize_trits (buf 81%nat, buf 81%nat) (buf NUM_TRITS_SERIALIZED_TRANSACTION)
                    (buf 243%nat) (transaction_reset sample_tx) trits false in
  transaction_serialize_to_flex_trits (buf 81%nat) tx (buf NUM_TRITS_SERIALIZED_TRANSACTION) =
    (NUM_TRITS_SERIALIZED_TRANSACTION, trits).
Proof.
  cbv zeta. apply transaction_deserialize_roundtrip.
  - closed_decide.
  - vm_compute. reflexivity.
  - rewrite (wire_get_fields sample_tx 2 _ _ sample_tx_wf eq_refl eq_refl). closed_decide.
  - unfold tx_sized. split_and!; closed_decide.
  - reflexivity.
  - reflexivity.
  - reflexivity.
  - apply length_replicate.
  - apply length_replicate.
Defined.

(** The weight magnitude of a hash with a trit set is the number of its
    trailing zero trits; for the all-zero hash the scan leaves its index at 255,
    where the code goes on to read behind the hash. *)
Theorem transaction_weight_magnitude_spec tx : length (c_hash (consensus tx)) = NUM_TRITS_HASH ->
  transaction_weight_magnitude tx =
    (let k := trailing_zeros (rev (c_hash (consensus tx))) in
     if (k =? NUM_TRITS_HASH)%nat then None else Some (Z.of_nat k)).
Proof.
  intros Hl. unfold transaction_weight_magnitude, transaction_hash. cbv zeta.
  set (hash := c_hash (consensus tx)) in *. unfold NUM_TRITS_HASH in *.
  pose proof (weight_scan_spec hash ltac:(lia) 243 244 0 ltac:(lia) ltac:(lia) ltac:(lia) ltac:(lia)) as E.
  cbv zeta in E. rewrite take_ge in E by lia. rewrite E. clear E.
  assert (forall l, (trailing_zeros l <= length l)%nat) as Hle.
  { intros l. induction l as [|t l IH]; cbn; [lia|]. destruct (t =? 0); lia. }
  assert (forall l, (trailing_zeros l < length l)%nat -> nth (trailing_zeros l) l 0 <> 0) as Hnz.
  { intros l. induction l as [|t l IH]; cbn; [lia|]. destruct (Z.eqb_spec t 0); [|done]. intros; apply IH; lia. }
  specialize (Hle (rev hash)). specialize (Hnz (rev hash)). rewrite length_rev, Hl in *.
  set (k := trailing_zeros (rev hash)) in *. destruct (Nat.eqb_spec k 243) as [Hk|Hk].
  - cbn [Z.gtb Z.compare]. rewrite lookup_ge_None_2; [done|]. change (Z.to_nat 255) with 255%nat. lia.
  - destruct (Z.gtb_spec (Z.of_nat (243 - k - 1)) 0); [|by rewrite Z.add_0_l].
    rewrite Nat2Z.id. destruct (lookup_lt_is_Some_2 hash (243 - k - 1) ltac:(lia)) as [t Ht].
    rewrite Ht. cbn [flex_trits_to_trits]. 
    assert (t <> 0) as Ht0.
    { rewrite rev_nth in Hnz by lia. rewrite Hl in Hnz. replace (243 - S k)%nat with (243 - k - 1)%nat in Hnz by lia.
      rewrite (nth_lookup_Some _ _ 0 _ Ht) in Hnz. apply Hnz. lia. }
    change (flex_trits_to_trits [0] 1 [t] 1 1) with (1%nat, [t]). cbv iota beta. cbn [nth].
    destruct (Z.eqb_spec t 0); [done|]. f_equal.
Qed.

Lemma transaction_weight_magnitude_spec_witness :
  transaction_weight_magnitude (put_hash (replicate 229 1 ++ replicate 14 0) sample_tx) = Some 14 /\
  transaction_weight_magnitude sample_tx = None.
Proof.
  split; rewrite transaction_weight_magnitude_spec by reflexivity; vm_compute; reflexivity.
Defined.
