(* ===== verification/Sign.v ===== *)
(** * Signing helpers

    [common/helpers/sign.c], [checksum.c] and [digest.c]: from a seed to an
    address and to the signature of a bundle hash, with the state of the sponge
    threaded.  The code uses Kerl; the model is over any sponge with an initial
    state, of which Kerl is an instance.  The results of the allocations are
    arguments; [None] is the null pointer. *)
From S2P Require Import Prelude Trits TritLong FlexTrit Sponge Curl Kerl Normalize Iss Transaction.

(** A sponge with the state that initialization and reset produce. *)
Class SpongeInit (St : Type) `{Sponge St} := {
  init_state : St;
  init_ok : sponge_ok init_state;
  reset_init s : reset s = init_state
}.

Section Sign.
Context {St : Type} {Sp : Sponge St} {SI : SpongeInit St}.

(** [iss_*_key] and [iss_*_key_digest] as the helpers call them: the return code
    is ignored, and on failure nothing was done. *)
Definition key_or (s : St) (subseed key : list Z) (key_length : nat) : list Z * St :=
  match iss_key s subseed key_length with Some r => r | None => (key, s) end.

Definition key_digest_or (s : St) (key : list Z) (key_length : nat) : list Z * St :=
  match iss_key_digest s key 0 key_length with Some r => r | None => (key, s) end.

Definition valid_security (security : nat) : bool := (0 <? security)%nat && (security <=? 3)%nat.

Lemma valid_security_range security : valid_security security = true -> (0 < security <= 3)%nat.
Proof. unfold valid_security. intros [H1%Nat.ltb_lt H2%Nat.leb_le]%andb_prop. lia. Qed.

Definition iota_sign_address_gen_trits (alloc_key alloc_address : bool)
    (seed : option (list Z)) (index : Z) (security : nat) : option (list Z) :=
  let key_length := (security * ISS_KEY_LENGTH)%nat in
  match seed with
  | None => None
  | Some seed =>
      if negb (valid_security security) then None else
      if negb alloc_key then None else
      if negb alloc_address then None else
      let key := replicate key_length 0 in
      let s := init_state in
      let subseed := take HASH_LENGTH_TRIT seed in
      let '(subseed, s) := iss_subseed s subseed (i64 index) in
      let '(key, s) := key_or s subseed key key_length in
      let '(key, s) := key_digest_or s key key_length in
      let '(address, s) := iss_address s (take (security * HASH_LENGTH_TRIT) key) in
      Some address
  end.

(** [normalized] is the contents of the stack buffer. *)
Definition iota_sign_signature_gen_trits (alloc : bool) (normalized : list Z)
    (seed : option (list Z)) (index : Z) (security : nat) (bundle_hash : option (list Z)) : option (list Z) :=
  let key_length := (security * ISS_KEY_LENGTH)%nat in
  match seed, bundle_hash with
  | Some seed, Some bundle_hash =>
      if negb (valid_security security) then None else
      if negb alloc then None else
      let key := replicate key_length 0 in
      let s := init_state in
      let subseed := take HASH_LENGTH_TRIT seed in
      let '(subseed, s) := iss_subseed s subseed (i64 index) in
      let '(key, s) := key_or s subseed key key_length in
      let normalized_bundle_hash := normalize_hash_to_trits bundle_hash normalized in
      let '(key, s) := iss_signature s normalized_bundle_hash key in
      Some key
  | _, _ => None
  end.

Definition iota_sign_address_gen_trytes (alloc alloc_key alloc_address : bool)
    (seed : option (list Z)) (index : Z) (security : nat) : option (list Z) :=
  match seed with
  | None => None
  | Some seed =>
      if negb (valid_security security) then None else
      if negb alloc then None else
      let seed_trits := trytes_to_trits (take HASH_LENGTH_TRYTE seed) in
      match iota_sign_address_gen_trits alloc_key alloc_address (Some seed_trits) index security with
      | None => None
      | Some address_trits => Some (trits_to_trytes (take HASH_LENGTH_TRIT address_trits))
      end
  end.

Definition iota_sign_address_gen_flex_trits (alloc alloc_key alloc_address : bool) (stack : list Z)
    (seed : option (list Z)) (index : Z) (security : nat) : option (list Z) :=
  match seed with
  | None => None
  | Some seed =>
      if negb (valid_security security) then None else
      if negb alloc then None else
      let address := replicate HASH_LENGTH_TRIT 0 in
      let '(_, seed_trits) := flex_trits_to_trits stack HASH_LENGTH_TRIT seed HASH_LENGTH_TRIT HASH_LENGTH_TRIT in
      match iota_sign_address_gen_trits alloc_key alloc_address (Some seed_trits) index security with
      | None => None
      | Some address_trits =>
          Some (flex_trits_from_trits address HASH_LENGTH_TRIT address_trits HASH_LENGTH_TRIT HASH_LENGTH_TRIT).2
      end
  end.

Definition iota_sign_signature_gen_trytes (alloc alloc_key : bool) (normalized : list Z)
    (seed : option (list Z)) (index : Z) (security : nat) (bundle_hash : option (list Z)) : option (list Z) :=
  match seed, bundle_hash with
  | Some seed, Some bundle_hash =>
      if negb (valid_security security) then None else
      if negb alloc then None else
      let seed_trits := trytes_to_trits (take HASH_LENGTH_TRYTE seed) in
      let bundle_hash_trits := trytes_to_trits (take HASH_LENGTH_TRYTE bundle_hash) in
      match iota_sign_signature_gen_trits alloc_key normalized (Some seed_trits) index security
              (Some bundle_hash_trits) with
      | None => None
      | Some signature_trits => Some (trits_to_trytes (take (security * ISS_KEY_LENGTH) signature_trits))
      end
  | _, _ => None
  end.

Definition iota_sign_signature_gen_flex_trits (alloc alloc_key : bool) (normalized stack1 stack2 : list Z)
    (seed : option (list Z)) (index : Z) (security : nat) (bundle_hash : option (list Z)) : option (list Z) :=
  let signature_length := (security * ISS_KEY_LENGTH)%nat in
  match seed, bundle_hash with
  | Some seed, Some bundle_hash =>
      if negb (valid_security security) then None else
      if negb alloc then None else
      let signature := replicate signature_length 0 in
      let '(_, seed_trits) := flex_trits_to_trits stack1 HASH_LENGTH_TRIT seed HASH_LENGTH_TRIT HASH_LENGTH_TRIT in
      let '(_, bundle_hash_trits) :=
        flex_trits_to_trits stack2 HASH_LENGTH_TRIT bundle_hash HASH_LENGTH_TRIT HASH_LENGTH_TRIT in
      match iota_sign_signature_gen_trits alloc_key normalized (Some seed_trits) index security
              (Some bundle_hash_trits) with
      | None => None
      | Some signature_trits =>
          Some (flex_trits_from_trits signature signature_length signature_trits signature_length signature_length).2
      end
  | _, _ => None
  end.

(** ** What the helpers compute *)

Context {SL : SpongeLaws St}.

Lemma init_reset : reset init_state = init_state.
Proof. apply reset_init. Qed.

Lemma i64_small v : 0 <= v < INT64_MAX -> i64 v = v.
Proof. unfold INT64_MAX. intros. apply swrap_small; lia. Qed.

(** The private key of a seed and an index. *)
Definition seed_key (seed : list Z) (index : Z) (security : nat) : list Z :=
  (key_or init_state (iss_subseed init_state (take HASH_LENGTH_TRIT seed) (i64 index)).1
     (replicate (security * ISS_KEY_LENGTH) 0) (security * ISS_KEY_LENGTH)).1.

Lemma seed_key_ok seed index security : trits_ok seed -> 0 <= index < INT64_MAX ->
  trits_ok (seed_key seed index security) /\
  length (seed_key seed index security) = (security * ISS_KEY_LENGTH)%nat /\
  exists sub, iss_subseed init_state (take HASH_LENGTH_TRIT seed) (i64 index) = (sub, init_state) /\
    key_or init_state sub (replicate (security * ISS_KEY_LENGTH) 0) (security * ISS_KEY_LENGTH) =
      (seed_key seed index security, init_state).
Proof.
  intros Hs Hi. unfold seed_key. rewrite i64_small by done.
  destruct (iss_subseed_ok init_state (take HASH_LENGTH_TRIT seed) index init_ok init_reset) as (sub & E & Hsub & _);
    [by apply Forall_take|done|].
  rewrite E. cbn [fst].
  destruct (iss_key_ok init_state sub (key_blocks_num security) init_ok init_reset Hsub) as (key & Ek & Hl & Hk).
  rewrite <- key_len in *. unfold key_or. rewrite Ek. cbn [fst].
  split_and!; [done|done|]. exists sub. split; [done|by rewrite Ek].
Qed.

(** The digests of the fragments of a key, one after the other. *)
Definition key_digests (key : list Z) (security : nat) : list Z :=
  concat (map (fun f => hash_of init_state (frag f (chained init_state (key_blocks_num security) key)))
    (seq 0 security)).

Lemma address_gen_eq seed index security : trits_ok seed -> 0 <= index < INT64_MAX ->
  valid_security security = true ->
  iota_sign_address_gen_trits true true (Some seed) index security =
    Some (hash_of init_state (key_digests (seed_key seed index security) security)).
Proof.
  intros Hs Hi Hv. destruct (seed_key_ok seed index security Hs Hi) as (Hk & Hl & sub & Es & Ek).
  unfold iota_sign_address_gen_trits. rewrite Hv. cbn [negb]. cbv zeta. rewrite Es, Ek.
  destruct (key_digest_in_place init_state security _ init_ok init_reset Hk Hl) as (mem & Ed & _ & Ht).
  unfold key_digest_or. rewrite <- Hl, Ed. unfold iss_address.
  rewrite hash_step_eq by apply init_reset. by rewrite Ht.
Qed.

Lemma signature_gen_eq seed index security normalized hash : trits_ok seed -> 0 <= index < INT64_MAX ->
  valid_security security = true ->
  iota_sign_signature_gen_trits true normalized (Some seed) index security (Some hash) =
    Some (iss_signature init_state (normalize_hash_to_trits hash normalized) (seed_key seed index security)).1.
Proof.
  intros Hs Hi Hv. destruct (seed_key_ok seed index security Hs Hi) as (Hk & Hl & sub & Es & Ek).
  unfold iota_sign_signature_gen_trits. rewrite Hv. cbn [negb]. cbv zeta. rewrite Es, Ek.
  by destruct (iss_signature _ _ _).
Qed.

Lemma key_digests_ok key security : trits_ok key -> length key = (security * ISS_KEY_LENGTH)%nat ->
  trits_ok (key_digests key security).
Proof.
  intros Hk Hl. rewrite key_len in Hl. destruct (chained_ok init_state _ key init_ok Hk Hl) as [Hco _].
  apply Forall_concat, List.Forall_map, List.Forall_forall. intros i _. apply hash_of_ok; [apply init_ok|].
  unfold frag, buf_read. solve_forall.
Qed.

(** The [flex_trits] functions are the [trits] functions. *)
Lemma address_gen_flex_eq stack seed index security : trits_ok seed -> length seed = HASH_LENGTH_TRIT ->
  length stack = HASH_LENGTH_TRIT -> 0 <= index < INT64_MAX -> valid_security security = true ->
  iota_sign_address_gen_flex_trits true true true stack (Some seed) index security =
  iota_sign_address_gen_trits true true (Some seed) index security.
Proof.
  intros Hs Hl Hst Hi Hv. unfold iota_sign_address_gen_flex_trits. rewrite Hv. cbn [negb]. cbv zeta.
  rewrite flex_trits_to_trits_ok by (done || (unfold HASH_LENGTH_TRIT; lia)).
  rewrite address_gen_eq by done. f_equal. destruct (seed_key_ok seed index security Hs Hi) as (Hk & Hkl & _).
  rewrite flex_trits_from_trits_ok; [done|apply length_replicate| |unfold HASH_LENGTH_TRIT; lia].
  apply length_hash_of; [apply init_ok|]. by apply key_digests_ok.
Qed.

Lemma signature_gen_flex_eq normalized s1 s2 seed index security hash : trits_ok seed ->
  length seed = HASH_LENGTH_TRIT -> length hash = HASH_LENGTH_TRIT -> length s1 = HASH_LENGTH_TRIT ->
  length s2 = HASH_LENGTH_TRIT -> 0 <= index < INT64_MAX -> valid_security security = true ->
  iota_sign_signature_gen_flex_trits true true normalized s1 s2 (Some seed) index security (Some hash) =
  iota_sign_signature_gen_trits true normalized (Some seed) index security (Some hash).
Proof.
  intros Hs Hl Hh H1 H2 Hi Hv. unfold iota_sign_signature_gen_flex_trits. rewrite Hv. cbn [negb]. cbv zeta.
  rewrite !flex_trits_to_trits_ok by (done || (unfold HASH_LENGTH_TRIT; lia)).
  rewrite signature_gen_eq by done. f_equal.
  destruct (seed_key_ok seed index security Hs Hi) as (Hk & Hkl & _).
  pose proof (valid_security_range security Hv) as Hr.
  rewrite flex_trits_from_trits_ok; [done|apply length_replicate| |unfold ISS_KEY_LENGTH, HASH_LENGTH_TRIT, ISS_FRAGMENTS; lia].
  pose proof Hkl as Hkl'. rewrite key_len in Hkl'.
  rewrite (signature_eq _ _ _ (key_blocks_num security)) by (done || apply init_ok || apply init_reset).
  cbn [fst]. rewrite (length_concat_blocks _ HASH_LENGTH_TRIT); [by rewrite key_len|].
  intros j Hj. destruct (block_ok j (key_blocks_num security) (seed_key seed index security)); [done..|lia|].
  by apply chain_of_ok; [apply init_ok|..].
Qed.
End Sign.

(** ** Digests *)

(** [None]: [calloc] failed. *)
Definition iota_flex_digest (alloc1 alloc2 : bool) (flex_trits : list Z) (num_trits : nat) : option (list Z) :=
  if negb alloc1 then None else
  let trits := (flex_trits_to_trits (replicate num_trits 0) num_trits flex_trits num_trits num_trits).2 in
  let '(trits_hash, _) := curl_digest trits (curl_init (mkCurl [] CURL_P_81)) in
  if negb alloc2 then None else
  Some (flex_trits_from_trits (replicate num_trits 0) HASH_LENGTH_TRIT trits_hash HASH_LENGTH_TRIT HASH_LENGTH_TRIT).2.

(** [strnlen(trytes, TRYTE_LENGTH)] *)
Definition TRYTE_LENGTH : nat := 2673.
Fixpoint strnlen (s : list Z) (n : nat) : nat :=
  match n, s with
  | S n, c :: s => if c =? 0 then O else S (strnlen s n)
  | _, _ => O
  end.

Definition iota_digest (alloc1 alloc2 : bool) (trytes : list Z) : option (list Z) :=
  let length := strnlen trytes TRYTE_LENGTH in
  if negb alloc1 then None else
  let trits := trytes_to_trits (take length trytes) in
  let '(trits_hash, _) := curl_digest trits (curl_init (mkCurl [] CURL_P_81)) in
  if negb alloc2 then None else
  Some (trits_to_trytes trits_hash).

(** ** Instances *)

Definition kerl_sponge_init {keccak : Type} (keccak_init : keccak) keccak_update keccak_squeeze stack
  : @SpongeInit keccak (kerl_sponge keccak_init keccak_update keccak_squeeze stack) :=
  @Build_SpongeInit keccak (kerl_sponge keccak_init keccak_update keccak_squeeze stack)
    (kerl_init keccak_init) I (fun _ => eq_refl).

#[global] Instance toy_sponge_init : SpongeInit (list Z).
Proof.
  refine {| init_state := ToySponge.zero |}.
  - split; [apply length_replicate|]. apply Forall_replicate. unfold is_trit. lia.
  - done.
Defined.
