(* ===== verification/Bundle.v ===== *)
(** * Bundles

    [common/model/bundle.c]: the hash of a bundle, its finalization, validation
    and signing.  A bundle is the list of its transactions ([UT_array]); a
    transaction pointer is a position in it.  Kerl enters through the sponge
    interface. *)
From S2P Require Import Prelude Errors Trits TritLong FlexTrit Sponge Curl Normalize Iss Transaction Sign.

Definition MAX_IOTA_SUPPLY : Z := 2779530283277761.

Inductive bundle_status_t :=
| BUNDLE_NOT_INITIALIZED | BUNDLE_VALID | BUNDLE_EMPTY | BUNDLE_INCOMPLETE | BUNDLE_INVALID_TX
| BUNDLE_INVALID_INPUT_ADDRESS | BUNDLE_INVALID_VALUE | BUNDLE_INVALID_HASH | BUNDLE_INVALID_SIGNATURE.

#[global] Instance bundle_status_t_eq_dec : EqDecision bundle_status_t.
Proof. solve_decision. Defined.

Abbreviation bundle_transactions_t := (list iota_transaction_t).

(** [memcmp(a, b, n) == 0] *)
Definition memeq (n : nat) (a b : list Z) : bool := bool_decide (take n a = take n b).

Section Bundle.
Context {St : Type} {Sp : Sponge St} {SI : SpongeInit St}.

(** The trits that are absorbed for a transaction. *)
Definition essence_trits_of (address : list Z) (value : Z) (obsolete_tag : list Z)
    (timestamp current_index last_index : Z) (essence_trits : list Z) : list Z :=
  let buf := memset 0 NUM_TRITS_ESSENCE essence_trits in
  let pos := 0%nat in
  let buf := at_pos pos (fun b => (flex_trits_to_trits b NUM_TRITS_ADDRESS address NUM_TRITS_ADDRESS NUM_TRITS_ADDRESS).2) buf in
  let pos := (pos + NUM_TRITS_ADDRESS)%nat in
  let buf := at_pos pos (fun b => (long_to_trits value b).2) buf in
  let pos := (pos + NUM_TRITS_VALUE)%nat in
  let buf := at_pos pos (fun b => (flex_trits_to_trits b NUM_TRITS_OBSOLETE_TAG obsolete_tag
                                    NUM_TRITS_OBSOLETE_TAG NUM_TRITS_OBSOLETE_TAG).2) buf in
  let pos := (pos + NUM_TRITS_OBSOLETE_TAG)%nat in
  let buf := at_pos pos (fun b => (long_to_trits (i64 timestamp) b).2) buf in
  let pos := (pos + NUM_TRITS_TIMESTAMP)%nat in
  let buf := at_pos pos (fun b => (long_to_trits current_index b).2) buf in
  let pos := (pos + NUM_TRITS_CURRENT_INDEX)%nat in
  at_pos pos (fun b => (long_to_trits last_index b).2) buf.

Definition absorb_essence (kerl : St) (address : list Z) (value : Z) (obsolete_tag : list Z)
    (timestamp current_index last_index : Z) (essence_trits : list Z) : St * list Z :=
  let buf := essence_trits_of address value obsolete_tag timestamp current_index last_index essence_trits in
  (absorb kerl (take NUM_TRITS_ESSENCE buf), buf).

Definition absorb_tx (st : St * list Z) (tx : iota_transaction_t) : St * list Z :=
  let '(kerl, buf) := st in
  absorb_essence kerl (transaction_address tx) (transaction_value tx) (transaction_obsolete_tag tx)
    (transaction_timestamp tx) (i64 (transaction_current_index tx)) (i64 (transaction_last_index tx)) buf.

(** [essence_trits] is the stack buffer, [out] the output buffer. *)
Definition bundle_calculate_hash (essence_trits : list Z) (bundle : bundle_transactions_t) (out : list Z) : list Z :=
  let '(kerl, _) := foldl absorb_tx (init_state, essence_trits) bundle in
  let '(bundle_hash_trits, _) := squeeze kerl NUM_TRITS_HASH in
  (flex_trits_from_trits out NUM_TRITS_HASH bundle_hash_trits NUM_TRITS_HASH NUM_TRITS_HASH).2.

Definition bundle_at (bundle : bundle_transactions_t) (index : nat) : option iota_transaction_t :=
  if (index <? length bundle)%nat then bundle !! index else None.

Definition bundle_transactions_add (bundle : bundle_transactions_t) (tx : iota_transaction_t)
  : bundle_transactions_t := bundle ++ [tx].

(** ** Finalization *)

Definition insecure (normalized_hash : list Z) : bool := existsb (fun b => b =? 13) normalized_hash.

(** [flex_trits_from_trits(transaction_obsolete_tag(head_tx), ...)]: the tag of the
    first transaction is written through a pointer. *)
Definition write_head_tag (tag : list Z) (bundle : bundle_transactions_t) : bundle_transactions_t :=
  match bundle with
  | [] => []
  | tx :: rest =>
      put_obsolete_tag (flex_trits_from_trits (transaction_obsolete_tag tx) NUM_TRITS_TAG tag
                          NUM_TRITS_TAG NUM_TRITS_TAG).2 tx :: rest
  end.

(** The search for a secure hash, of at most [fuel] rounds. *)
Fixpoint finalize_loop (fuel : nat) (essence_trits out stack : list Z) (bundle : bundle_transactions_t)
    (increased_tag_trits : list Z) : option bundle_transactions_t :=
  match fuel with
  | O => None
  | S fuel =>
      let bundle_hash := bundle_calculate_hash essence_trits bundle out in
      let normalized_hash := normalize_flex_hash stack bundle_hash in
      if insecure normalized_hash then
        let '(_, tag) := add_assign increased_tag_trits 1 in
        finalize_loop fuel essence_trits out stack (write_head_tag tag bundle) tag
      else Some (map (fun tx => transaction_set_bundle tx bundle_hash) bundle)
  end.

(** An empty bundle has no head to read the tag of. *)
Definition bundle_finalize (fuel : nat) (essence_trits out stack tag_stack : list Z)
    (bundle : bundle_transactions_t) : option bundle_transactions_t :=
  match bundle with
  | [] => None
  | head_tx :: _ =>
      let '(_, tag) := flex_trits_to_trits tag_stack NUM_TRITS_TAG (transaction_obsolete_tag head_tx)
                         NUM_TRITS_TAG NUM_TRITS_TAG in
      finalize_loop fuel essence_trits out stack bundle tag
  end.

(** ** Signatures *)

(** The [do ... while] over the transactions of one input; returns the address
    sponge and the transactions that are left. *)
Fixpoint input_loop (key_stack normalized_bundle address : list Z) (txs : bundle_transactions_t)
    (offset : nat) (address_kerl : St) : St * bundle_transactions_t :=
  match txs with
  | [] => (address_kerl, [])
  | curr_inp_tx :: rest =>
      let next_offset := ((offset + ISS_FRAGMENTS * 3 - 1) mod NUM_TRITS_HASH + 1)%nat in
      let '(_, key) := flex_trits_to_trits key_stack NUM_TRITS_SIGNATURE (transaction_signature curr_inp_tx)
                         NUM_TRITS_SIGNATURE NUM_TRITS_SIGNATURE in
      let '(digested_sig_trits, _, _) :=
        iss_sig_digest init_state (drop (offset mod NUM_TRITS_HASH) normalized_bundle) key in
      let address_kerl := absorb address_kerl digested_sig_trits in
      match rest with
      | next :: _ =>
          if memeq NUM_TRITS_ADDRESS (transaction_address next) address && (transaction_value next =? 0)
          then input_loop key_stack normalized_bundle address rest next_offset address_kerl
          else (address_kerl, rest)
      | [] => (address_kerl, [])
      end
  end.

(** [is_valid]; the fuel is the number of transactions. *)
Fixpoint signatures_loop (fuel : nat) (key_stack digest_stack normalized_bundle : list Z)
    (txs : bundle_transactions_t) : option bool :=
  match txs with
  | [] => Some true
  | curr_tx :: rest =>
      match fuel with
      | O => None
      | S fuel =>
          if transaction_value curr_tx >=? 0
          then signatures_loop fuel key_stack digest_stack normalized_bundle rest
          else
            let '(address_kerl, rest) :=
              input_loop key_stack normalized_bundle (transaction_address curr_tx) txs 0 init_state in
            let '(digested_address, _) := squeeze address_kerl NUM_TRITS_ADDRESS in
            let '(_, digest) := flex_trits_from_trits digest_stack NUM_TRITS_HASH digested_address
                                  NUM_TRITS_ADDRESS NUM_TRITS_ADDRESS in
            if negb (memeq NUM_TRITS_ADDRESS digest (transaction_address curr_tx)) then Some false
            else signatures_loop fuel key_stack digest_stack normalized_bundle rest
      end
  end.

Definition validate_signatures (key_stack digest_stack : list Z) (bundle : bundle_transactions_t)
    (normalized_bundle : list Z) : option bool :=
  signatures_loop (length bundle) key_stack digest_stack normalized_bundle bundle.

(** ** Validation *)

(** The stack buffers of [bundle_validate] and of what it calls. *)
Record validate_stack := {
  vs_essence : list Z; vs_hash : list Z; vs_trits : list Z; vs_normalized : list Z;
  vs_key : list Z; vs_digest : list Z
}.

(** What is checked when the last transaction is reached. *)
Definition final_checks (st : validate_stack) (bundle : bundle_transactions_t) (bundle_hash : list Z)
    (bundle_value : Z) : bundle_status_t :=
  if negb (bundle_value =? 0) then BUNDLE_INVALID_VALUE else
  let bundle_hash_calculated := bundle_calculate_hash (vs_essence st) bundle (vs_hash st) in
  if negb (memeq NUM_TRITS_HASH bundle_hash bundle_hash_calculated) then BUNDLE_INVALID_HASH else
  let normalized_bundle := normalize_flex_hash_to_trits (vs_trits st) bundle_hash_calculated (vs_normalized st) in
  match validate_signatures (vs_key st) (vs_digest st) bundle normalized_bundle with
  | Some true => BUNDLE_VALID
  | _ => BUNDLE_INVALID_SIGNATURE
  end.

Fixpoint validate_loop (st : validate_stack) (bundle : bundle_transactions_t) (bundle_hash : list Z)
    (last_index : Z) (txs : bundle_transactions_t) (bundle_value current_index : Z)
    (status : bundle_status_t) : bundle_status_t :=
  match txs with
  | [] => status
  | curr_tx :: txs =>
      let tx_value := transaction_value curr_tx in
      if llabs tx_value >? MAX_IOTA_SUPPLY then BUNDLE_INVALID_VALUE else
      let bundle_value := i64 (bundle_value + tx_value) in
      if llabs bundle_value >? MAX_IOTA_SUPPLY then BUNDLE_INVALID_VALUE else
      if negb (transaction_current_index curr_tx =? current_index) ||
         negb (transaction_last_index curr_tx =? last_index) then BUNDLE_INVALID_TX else
      let current_index := u64 (current_index + 1) in
      if negb (transaction_value curr_tx =? 0) &&
         negb (flex_trits_at (transaction_address curr_tx) NUM_TRITS_ADDRESS (NUM_TRITS_ADDRESS - 1) =? 0)
      then BUNDLE_INVALID_INPUT_ADDRESS else
      if transaction_current_index curr_tx =? last_index then
        match final_checks st bundle bundle_hash bundle_value with
        | BUNDLE_VALID => validate_loop st bundle bundle_hash last_index txs bundle_value current_index BUNDLE_VALID
        | s => s
        end
      else validate_loop st bundle bundle_hash last_index txs bundle_value current_index BUNDLE_VALID
  end.

(** The return code and [*status]; [None] when the first element of an empty
    array is dereferenced. *)
Definition bundle_validate (st : validate_stack) (bundle : option bundle_transactions_t) (status : bundle_status_t)
    : option (retcode_t * bundle_status_t) :=
  match bundle with
  | None => Some (RC_NULL_PARAM, BUNDLE_NOT_INITIALIZED)
  | Some bundle =>
      match bundle with
      | [] => None
      | curr_tx :: _ =>
          let last_index := transaction_last_index curr_tx in
          if negb (Z.of_nat (length bundle) =? u64 (last_index + 1)) then Some (RC_OK, BUNDLE_INCOMPLETE) else
          let bundle_hash := transaction_bundle curr_tx in
          Some (RC_OK, validate_loop st bundle bundle_hash last_index bundle 0 0 status)
      end
  end.

(** ** Indexes, messages and signing *)

Definition bundle_reset_indexes (bundle : bundle_transactions_t) : bundle_transactions_t :=
  let last_index := u64 (Z.of_nat (length bundle) - 1) in
  imap (fun i tx => transaction_set_current_index (transaction_set_last_index tx last_index) (Z.of_nat i)) bundle.

(** [messages] are C strings. *)
Fixpoint bundle_set_messages (bundle : bundle_transactions_t) (messages : list (list Z)) : bundle_transactions_t :=
  match bundle, messages with
  | tx :: bundle, msg :: messages =>
      let msg_len := strnlen msg (length msg) in
      let sig := (flex_trits_from_trytes (d_signature_or_message (data tx)) NUM_TRITS_SIGNATURE msg 2187 msg_len).2 in
      or_data MASK_DATA_SIG_OR_MSG (put_signature_or_message sig tx) :: bundle_set_messages bundle messages
  | _, _ => bundle
  end.

Record input_t := mk_input { in_balance : Z; in_key_index : Z; in_security : nat; in_address : list Z }.

(** The position of [tx], the index of the next signature and the bundle. *)
Abbreviation sign_state := (nat * nat * bundle_transactions_t)%type.

Inductive sign_result :=
| Signed (st : sign_state)
| SignError
| SignUndefined.

(** [for (int i = 0; i < input->security; i++)]: one fragment per transaction;
    [bundle_at] beyond the end is a null pointer. *)
Fixpoint write_fragments (n i : nat) (signature : list Z) (st : sign_state) : sign_result :=
  match n with
  | O => Signed st
  | S n =>
      let '(pos, curr_index, bundle) := st in
      match bundle_at bundle (curr_index + i) with
      | None => SignUndefined
      | Some tx =>
          let tx := or_data MASK_DATA_SIG_OR_MSG
                      (put_signature_or_message
                         (buf_write 0 (buf_read (i * NUM_TRITS_SIGNATURE) NUM_TRITS_SIGNATURE signature)
                            (d_signature_or_message (data tx))) tx) in
          write_fragments n (S i) signature
            ((curr_index + i)%nat, curr_index, <[(curr_index + i)%nat := tx]> bundle)
      end
  end.

(** The stack buffers of the signature generation. *)
Record sign_stack := { ss_normalized : list Z; ss_seed : list Z; ss_hash : list Z }.

(** [INPUTS_FOREACH]; [tx] is the transaction at [pos], which signing moves. *)
Fixpoint inputs_loop (ss : sign_stack) (alloc : bool) (seed : list Z) (inputs : list input_t) (st : sign_state)
  : sign_result :=
  match inputs with
  | [] => Signed st
  | input :: inputs =>
      let '(pos, curr_index, bundle) := st in
      match bundle !! pos with
      | None => SignUndefined
      | Some tx =>
          if memeq NUM_TRITS_ADDRESS (in_address input) (transaction_address tx) then
            if Z.of_nat curr_index >? transaction_current_index tx then inputs_loop ss alloc seed inputs st else
            match iota_sign_signature_gen_flex_trits alloc alloc (ss_normalized ss) (ss_seed ss) (ss_hash ss)
                    (Some seed) (in_key_index input) (in_security input) (Some (transaction_bundle tx)) with
            | None => SignError
            | Some signed_signature =>
                match write_fragments (in_security input) 0 signed_signature st with
                | Signed (pos, curr_index, bundle) =>
                    inputs_loop ss alloc seed inputs (pos, (curr_index + in_security input)%nat, bundle)
                | r => r
                end
            end
          else inputs_loop ss alloc seed inputs st
      end
  end.

(** [BUNDLE_FOREACH] from position [pos] on. *)
Fixpoint sign_loop (fuel : nat) (ss : sign_stack) (alloc : bool) (seed : list Z) (inputs : list input_t)
    (st : sign_state) : option sign_result :=
  let '(pos, curr_index, bundle) := st in
  match bundle !! pos with
  | None => Some (Signed st)
  | Some tx =>
      match fuel with
      | O => None
      | S fuel =>
          if transaction_value tx <? 0 then
            match inputs_loop ss alloc seed inputs st with
            | Signed (pos, curr_index, bundle) =>
                sign_loop fuel ss alloc seed inputs (S pos, curr_index, bundle)
            | r => Some r
            end
          else sign_loop fuel ss alloc seed inputs (S pos, S curr_index, bundle)
      end
  end.

(** [None]: out of fuel, in the search for a hash or in the loop over the bundle. *)
Definition bundle_sign (fuel : nat) (ss : sign_stack) (essence_trits out stack tag_stack : list Z) (alloc : bool)
    (bundle : bundle_transactions_t) (seed : list Z) (inputs : list input_t)
    : option (sign_result + retcode_t * bundle_transactions_t) :=
  let bundle := bundle_reset_indexes bundle in
  match bundle_finalize fuel essence_trits out stack tag_stack bundle with
  | None => None
  | Some bundle =>
      match sign_loop fuel ss alloc seed inputs (0%nat, 0%nat, bundle) with
      | None => None
      | Some (Signed (_, _, bundle)) => Some (inr (RC_OK, bundle_reset_indexes bundle))
      | Some SignError => Some (inr (RC_COMMON_BUNDLE_SIGN, bundle))
      | Some SignUndefined => Some (inl SignUndefined)
      end
  end.

(** * Hashes and finalization *)

Context {SL : SpongeLaws St}.

(** What the hash of a bundle depends on. *)
Definition essence_of (tx : iota_transaction_t) :=
  (transaction_address tx, transaction_value tx, transaction_obsolete_tag tx, transaction_timestamp tx,
   transaction_current_index tx, transaction_last_index tx).

Lemma calculate_hash_ext es out b1 b2 : map essence_of b1 = map essence_of b2 ->
  bundle_calculate_hash es b1 out = bundle_calculate_hash es b2 out.
Proof.
  intros E. unfold bundle_calculate_hash.
  assert (forall st, foldl absorb_tx st b1 = foldl absorb_tx st b2) as Hf; [|by rewrite Hf].
  revert b2 E. induction b1 as [|t1 b1 IH]; intros [|t2 b2] E st; try discriminate; [done|].
  cbn [map] in E. cbn [foldl].
  assert (essence_of t1 = essence_of t2) as E1 by exact (f_equal (hd (essence_of t1)) E).
  apply (f_equal (@tl _)) in E. cbn [tl] in E.
  assert (absorb_tx st t1 = absorb_tx st t2) as ->; [|by apply IH].
  destruct st as [kerl buf]. unfold absorb_tx. unfold essence_of in E1. by injection E1 as -> -> -> -> -> ->.
Qed.

Lemma essence_set_bundle h tx : essence_of (transaction_set_bundle tx h) = essence_of tx.
Proof. done. Qed.

(** The [n]-th state of the search. *)
Definition next_tag (st : bundle_transactions_t * list Z) : bundle_transactions_t * list Z :=
  let tag := (add_assign st.2 1).2 in (write_head_tag tag st.1, tag).

Definition hash_is_insecure (es out stack : list Z) (bundle : bundle_transactions_t) : bool :=
  insecure (normalize_flex_hash stack (bundle_calculate_hash es bundle out)).

#[local] Opaque bundle_calculate_hash normalize_flex_hash.

Lemma finalize_loop_spec fuel es out stack bundle tag b' :
  finalize_loop fuel es out stack bundle tag = Some b' <->
  exists n, (n < fuel)%nat /\
    (forall k, (k < n)%nat -> hash_is_insecure es out stack (Nat.iter k next_tag (bundle, tag)).1 = true) /\
    let b := (Nat.iter n next_tag (bundle, tag)).1 in
    hash_is_insecure es out stack b = false /\
    b' = map (fun tx => transaction_set_bundle tx (bundle_calculate_hash es b out)) b.
Proof.
  revert bundle tag. induction fuel as [|fuel IH]; intros bundle tag; cbn [finalize_loop].
  { split; [done|]. intros (n & Hn & _). lia. }
  destruct (insecure (normalize_flex_hash stack (bundle_calculate_hash es bundle out))) eqn:E.
  - destruct (add_assign tag 1) as [ret tag'] eqn:Et. rewrite IH.
    assert (next_tag (bundle, tag) = (write_head_tag tag' bundle, tag')) as En
      by (unfold next_tag; cbn [fst snd]; by rewrite Et).
    split.
    + intros (n & Hn & Hk & Hs). exists (S n). split; [lia|]. split.
      * intros [|k] Hk'; [done|]. rewrite Nat.iter_succ_r, En. apply Hk. lia.
      * by rewrite Nat.iter_succ_r, En.
    + intros ([|n] & Hn & Hk & Hs); [destruct Hs as [Hs _]; exfalso; unfold hash_is_insecure in Hs;
        cbn [Nat.iter nat_rect fst] in Hs; congruence|].
      exists n. split; [lia|]. split.
      * intros k Hk'. rewrite <- En, <- Nat.iter_succ_r. apply Hk. lia.
      * by rewrite <- En, <- Nat.iter_succ_r.
  - split.
    + intros [= <-]. exists 0%nat. split; [lia|]. split; [lia|]. done.
    + intros ([|n] & Hn & Hk & Hs & ->); [done|].
      specialize (Hk 0%nat ltac:(lia)). unfold hash_is_insecure in Hk. cbn [Nat.iter nat_rect fst] in Hk. congruence.
Qed.

Lemma finalize_loop_none fuel es out stack bundle tag :
  finalize_loop fuel es out stack bundle tag = None <->
  forall n, (n < fuel)%nat -> hash_is_insecure es out stack (Nat.iter n next_tag (bundle, tag)).1 = true.
Proof.
  revert bundle tag. induction fuel as [|fuel IH]; intros bundle tag; cbn [finalize_loop]; [split; [lia|done]|].
  destruct (insecure (normalize_flex_hash stack (bundle_calculate_hash es bundle out))) eqn:E.
  - destruct (add_assign tag 1) as [ret tag'] eqn:Et. rewrite IH.
    assert (next_tag (bundle, tag) = (write_head_tag tag' bundle, tag')) as En
      by (unfold next_tag; cbn [fst snd]; by rewrite Et).
    split; intros H.
    + intros [|n] Hn; [done|]. rewrite Nat.iter_succ_r, En. apply H. lia.
    + intros n Hn. rewrite <- En, <- Nat.iter_succ_r. apply H. lia.
  - split; [done|]. intros H. specialize (H 0%nat ltac:(lia)). unfold hash_is_insecure in H.
    cbn [Nat.iter nat_rect fst] in H. congruence.
Qed.

(** ** The trits of an essence *)

Definition essence_fields (tx : iota_transaction_t) : list Z :=
  e_address (essence tx) ++ trits81 (e_value (essence tx)) ++ e_obsolete_tag (essence tx) ++
  take 27 (trits81 (i64 (e_timestamp (essence tx)))) ++
  take 27 (trits81 (i64 (e_current_index (essence tx)))) ++
  take 27 (trits81 (i64 (e_last_index (essence tx)))).

Lemma to_trits_zeros n m field : (0 < n <= m)%nat -> length field = n ->
  (flex_trits_to_trits (replicate m 0) n field n n).2 = field ++ replicate (m - n) 0.
Proof.
  intros Hn Hf. unfold flex_trits_to_trits, memset. guards. cbn [snd]. rewrite take_ge by lia.
  rewrite (buf_write_0 (replicate n 0)) by (rewrite !length_replicate; lia).
  rewrite length_replicate, drop_replicate.
  rewrite buf_write_0 by (rewrite length_app, !length_replicate; lia).
  by rewrite drop_app_length' by (by rewrite length_replicate).
Qed.

Lemma long_zeros v n m : is_int64 v -> Z.abs v <= rep_max n -> (27 <= n <= m)%nat -> (m >= 41)%nat \/ (n < 41)%nat ->
  (n <= NUM_TRITS_VALUE)%nat ->
  (long_to_trits v (replicate m 0)).2 = take n (trits81 v) ++ replicate (m - n) 0.
Proof.
  intros Hv Hr Hn Hm Hn81. destruct (min_trits_spec v Hv) as (_ & [H1 H41] & Hmax & Hmin).
  assert (min_trits v <= n)%nat as Hmn.
  { destruct Hmin as [->|Hmin]; [lia|]. destruct (decide (min_trits v <= n)%nat) as [|Hn']; [done|].
    pose proof (rep_max_mono n (min_trits v - 1) ltac:(lia)). lia. }
  destruct (long_to_trits_zeros v m Hv ltac:(lia) ltac:(lia)) as (Hl & Hok & Hb).
  destruct (trits81_spec v Hv) as (Htl & Hto & _).
  apply bal_inj; [done| |rewrite length_app, length_take, length_replicate; lia|].
  - apply Forall_app. split; [by apply Forall_take|]. apply Forall_replicate. unfold is_trit. lia.
  - by rewrite bal_app, bal_replicate_0, Z.mul_0_r, Z.add_0_r, bal_take_trits81.
Qed.

Lemma essence_trits_eq tx es : tx_wf tx -> length es = NUM_TRITS_ESSENCE ->
  essence_trits_of (transaction_address tx) (transaction_value tx) (transaction_obsolete_tag tx)
    (transaction_timestamp tx) (i64 (transaction_current_index tx)) (i64 (transaction_last_index tx)) es
  = essence_fields tx.
Proof.
  intros W Hes. unfold essence_trits_of. cbv zeta. rewrite memset_all by done.
  pose proof (wf_numbers tx W) as Hn. repeat (apply Forall_cons_iff in Hn as [[? ?] Hn]).
  destruct W; repeat match goal with H : trits_of _ _ |- _ => destruct H as [? _] end.
  repeat match goal with H : fits27 _ |- _ => destruct H as [_ ?] end.
  unfold transaction_address, transaction_value, transaction_obsolete_tag, transaction_timestamp,
    transaction_current_index, transaction_last_index.
  assert (Z.abs (e_value (essence tx)) <= rep_max 81).
  { unfold is_int64, INT64_MIN, INT64_MAX in *. pose proof (rep_max_mono 41 81 ltac:(lia)).
    assert (rep_max 41 = 18236498188585393201) as E by (vm_compute; reflexivity). lia. }
  unfold NUM_TRITS_ESSENCE. wire_nums. change (243 + 81 + 81 + 27 + 27 + 27)%nat with 486%nat.
  change (replicate 486 0) with ([] ++ replicate 486 0).
  rewrite (at_pos_app 0) by done. rewrite to_trits_zeros by lia. cbn [app].
  rewrite at_pos_app by done. rewrite (long_zeros _ 81) by (done || (unfold NUM_TRITS_VALUE; lia)).
  rewrite (take_ge (trits81 (e_value _))) by lia.
  do 4 (rewrite app_assoc, at_pos_app by (rewrite ?length_app, ?length_take; lia);
        first [rewrite to_trits_zeros by lia | rewrite (long_zeros _ 27) by (done || (unfold NUM_TRITS_VALUE; lia))]).
  unfold essence_fields. rewrite <- !app_assoc, app_nil_r. done.
Qed.

Lemma essence_fields_ok tx : tx_wf tx ->
  trits_ok (essence_fields tx) /\ length (essence_fields tx) = NUM_TRITS_ESSENCE.
Proof.
  intros W. pose proof (wire_fields_ok tx W) as H. unfold wire_fields, wire_sizes in H.
  repeat match goal with H : Forall2 _ (_ :: _) (_ :: _) |- _ => inversion H; clear H; subst end.
  unfold trits_of in *. destruct_and!. unfold essence_fields. split; [solve_forall|].
  rewrite !length_app. unfold NUM_TRITS_ESSENCE. lia.
Qed.

(** The state of Kerl after all essences. *)
Definition bundle_sponge (bundle : bundle_transactions_t) : St :=
  foldl (fun s tx => absorb s (essence_fields tx)) init_state bundle.

Lemma bundle_sponge_ok bundle : Forall tx_wf bundle -> sponge_ok (bundle_sponge bundle).
Proof.
  intros W. apply (foldl_inv _ tx_wf sponge_ok); [|done|apply init_ok].
  intros s tx Hs Hw. apply absorb_ok; [done|]. by apply essence_fields_ok.
Qed.

#[local] Transparent bundle_calculate_hash.
Lemma calculate_hash_eq es out bundle : Forall tx_wf bundle -> length es = NUM_TRITS_ESSENCE ->
  length out = NUM_TRITS_HASH ->
  bundle_calculate_hash es bundle out = (squeeze (bundle_sponge bundle) NUM_TRITS_HASH).1.
Proof.
  intros W He Ho. unfold bundle_calculate_hash.
  assert (forall s buf, length buf = NUM_TRITS_ESSENCE ->
    (foldl absorb_tx (s, buf) bundle).1 = foldl (fun s tx => absorb s (essence_fields tx)) s bundle) as Hf.
  { clear He. induction W as [|tx bundle Hw W IH]; intros s buf Hb; [done|]. cbn [foldl].
    destruct (essence_fields_ok tx Hw) as [_ Hl].
    unfold absorb_tx at 2, absorb_essence. rewrite essence_trits_eq by done.
    rewrite take_ge by lia. by apply IH. }
  specialize (Hf init_state es He). destruct (foldl absorb_tx _ _) as [kerl buf]. cbn [fst] in Hf. subst kerl.
  fold (bundle_sponge bundle).
  pose proof (squeeze_length_1 (bundle_sponge bundle) (bundle_sponge_ok bundle W)) as Hl.
  change HASH_LENGTH_TRIT with NUM_TRITS_HASH in Hl.
  destruct (squeeze (bundle_sponge bundle) NUM_TRITS_HASH) as [h s]. cbn [fst] in *.
  by rewrite flex_trits_from_trits_ok by (done || (unfold NUM_TRITS_HASH; lia)).
Qed.
#[local] Opaque bundle_calculate_hash.

Lemma calculate_hash_ok es out bundle : Forall tx_wf bundle -> length es = NUM_TRITS_ESSENCE ->
  length out = NUM_TRITS_HASH ->
  trits_of NUM_TRITS_HASH (bundle_calculate_hash es bundle out).
Proof.
  intros W He Ho. rewrite calculate_hash_eq by done. pose proof (bundle_sponge_ok bundle W) as Hs.
  split; [by apply squeeze_length_1|by apply squeeze_trits].
Qed.

(** ** The search keeps bundles well-formed *)

Lemma put_tag_wf tx tag : tx_wf tx -> trits_of NUM_TRITS_OBSOLETE_TAG tag -> tx_wf (put_obsolete_tag tag tx).
Proof. intros [] Ht. by split. Qed.

Lemma set_bundle_wf tx h : tx_wf tx -> trits_of NUM_TRITS_BUNDLE h ->
  tx_wf (transaction_set_bundle tx h) /\ transaction_bundle (transaction_set_bundle tx h) = h.
Proof.
  intros W [Hl Hh]. assert (copy_into (e_bundle (essence tx)) h = h) as E.
  { unfold copy_into. destruct W as [_ _ _ _ _ _ _ [Hb _]]. rewrite Hb, take_ge by lia.
    rewrite buf_write_0 by lia. rewrite drop_ge by lia. apply app_nil_r. }
  split.
  - destruct W. unfold transaction_set_bundle. split; tx_cbn; try assumption. rewrite E. by split.
  - unfold transaction_bundle, transaction_set_bundle. tx_cbn. done.
Qed.

Definition search_inv (bundle : bundle_transactions_t) (st : bundle_transactions_t * list Z) : Prop :=
  Forall tx_wf st.1 /\ trits_of NUM_TRITS_TAG st.2 /\
  map (fun tx => (transaction_address tx, transaction_value tx, transaction_timestamp tx,
                  transaction_current_index tx, transaction_last_index tx, attachment tx, data tx)) st.1 =
  map (fun tx => (transaction_address tx, transaction_value tx, transaction_timestamp tx,
                  transaction_current_index tx, transaction_last_index tx, attachment tx, data tx)) bundle.

Lemma search_inv_next bundle st : search_inv bundle st -> search_inv bundle (next_tag st).
Proof.
  destruct st as [b tag]. intros (W & [Htl Hto] & E). cbn [fst snd] in *.
  unfold next_tag. cbn [fst snd].
  pose proof (add_internal_spec tag 1 {| ha_s := 0; ha_c := 0 |} Hto ltac:(done) ltac:(done)) as Ha.
  unfold add_assign. change (1 <? 0) with false. destruct (add_internal tag false 1 _) as [ret tag'].
  destruct Ha as (Hto' & Htl' & _). cbn [snd].
  assert (trits_of NUM_TRITS_TAG tag') as Ht by (split; [lia|done]).
  split_and!; [|done|]; destruct b as [|tx b]; try done; cbn [write_head_tag fst].
  - apply Forall_cons_iff in W as [Hw W]. apply Forall_cons_iff. split; [|done].
    destruct Ht as [Hl Ho]. unfold transaction_obsolete_tag.
    rewrite flex_trits_from_trits_ok; [| |done|unfold NUM_TRITS_TAG; lia].
    + by apply put_tag_wf.
    + by destruct Hw as [_ _ _ [Hol _]].
Qed.

Lemma search_inv_iter bundle st n : search_inv bundle st -> search_inv bundle (Nat.iter n next_tag st).
Proof.
  intros H. induction n as [|n IH]; [done|]. cbn [Nat.iter nat_rect]. by apply search_inv_next.
Qed.

(** ** Signatures are examined to the end *)

Lemma input_loop_shorter ks nb address tx txs offset s :
  (length (input_loop ks nb address (tx :: txs) offset s).2 <= length txs)%nat.
Proof.
  revert tx offset s. induction txs as [|nxt txs IH]; intros tx offset s; cbn [input_loop];
    destruct (flex_trits_to_trits _ _ _ _ _) as [? key]; destruct (iss_sig_digest _ _ _) as [[dig ?] ?].
  - done.
  - destruct (memeq _ _ _ && _); [|done]. etransitivity; [apply IH|]. simpl. lia.
Qed.

Lemma signatures_loop_total ks ds nb fuel txs : (length txs <= fuel)%nat ->
  exists b, signatures_loop fuel ks ds nb txs = Some b.
Proof.
  revert txs. induction fuel as [|fuel IH]; intros [|tx txs] Hl; cbn [signatures_loop length] in *;
    [by eexists|lia|by eexists|].
  destruct (transaction_value tx >=? 0); [apply IH; lia|].
  pose proof (input_loop_shorter ks nb (transaction_address tx) tx txs 0 init_state) as Hs.
  destruct (input_loop _ _ _ _ _ _) as [s rest]. cbn [snd] in Hs.
  destruct (squeeze _ _) as [da ?]. destruct (flex_trits_from_trits _ _ _ _ _) as [? dg].
  destruct (negb _); [by eexists|]. apply IH. lia.
Qed.

(** ** The validation loop *)

(** What is checked of transaction number [i], [bv] being the sum of the values
    before it. *)
Definition tx_checks (last i bv : Z) (tx : iota_transaction_t) : Prop :=
  Z.abs (transaction_value tx) <= MAX_IOTA_SUPPLY /\
  Z.abs (bv + transaction_value tx) <= MAX_IOTA_SUPPLY /\
  transaction_current_index tx = i /\ transaction_last_index tx = last /\
  (transaction_value tx <> 0 ->
   flex_trits_at (transaction_address tx) NUM_TRITS_ADDRESS (NUM_TRITS_ADDRESS - 1) = 0).

Fixpoint all_checks (last i bv : Z) (txs : bundle_transactions_t) : Prop :=
  match txs with
  | [] => True
  | tx :: txs => tx_checks last i bv tx /\ all_checks last (i + 1) (bv + transaction_value tx) txs
  end.

Definition bundle_value (txs : bundle_transactions_t) : Z := zsum (map transaction_value txs).

Lemma bundle_value_cons tx txs : bundle_value (tx :: txs) = transaction_value tx + bundle_value txs.
Proof. done. Qed.

(** The same, transaction by transaction. *)
Lemma all_checks_lookup last txs : forall i bv, all_checks last i bv txs <->
  forall j tx, txs !! j = Some tx ->
    tx_checks last (i + Z.of_nat j) (bv + bundle_value (take j txs)) tx.
Proof.
  induction txs as [|tx txs IH]; intros i bv; cbn [all_checks]; [done|]. rewrite IH. split.
  - intros [H Hr] [|j] tx' Hj.
    + injection Hj as <-. cbn [take]. replace (bv + bundle_value []) with bv by (cbn; lia).
      by rewrite Z.add_0_r.
    + cbn [take]. rewrite bundle_value_cons.
      replace (i + Z.of_nat (S j)) with (i + 1 + Z.of_nat j) by lia. rewrite Z.add_assoc. by apply Hr.
  - intros H. split.
    + specialize (H 0%nat tx eq_refl). cbn [take] in H.
      replace (bv + bundle_value []) with bv in H by (cbn; lia). by rewrite Z.add_0_r in H.
    + intros j tx' Hj. specialize (H (S j) tx' Hj). cbn [take] in H.
      rewrite bundle_value_cons, Z.add_assoc in H.
      by replace (i + Z.of_nat (S j)) with (i + 1 + Z.of_nat j) in H by lia.
Qed.

(** Values for which [llabs] is the absolute value. *)
Definition proper_value (v : Z) : Prop := INT64_MIN < v <= INT64_MAX.

Lemma llabs_proper v : proper_value v -> llabs v = Z.abs v.
Proof. unfold proper_value, INT64_MIN, INT64_MAX, llabs. intros. apply swrap_small; lia. Qed.

Lemma final_checks_valid st bundle h bv : final_checks st bundle h bv = BUNDLE_VALID <->
  bv = 0 /\ memeq NUM_TRITS_HASH h (bundle_calculate_hash (vs_essence st) bundle (vs_hash st)) = true /\
  validate_signatures (vs_key st) (vs_digest st) bundle
    (normalize_flex_hash_to_trits (vs_trits st) (bundle_calculate_hash (vs_essence st) bundle (vs_hash st))
       (vs_normalized st)) = Some true.
Proof.
  unfold final_checks. destruct (Z.eqb_spec bv 0) as [->|Hbv]; cbn [negb]; [|split; [done|by intros [? _]]].
  destruct (memeq _ _ _); cbn [negb]; [|split; [done|by intros (_ & ? & _)]].
  destruct (validate_signatures _ _ _ _) as [[]|]; (split; [done|]); by intros (_ & _ & ?).
Qed.

Lemma validate_loop_spec st bundle h last txs : 0 <= last -> last + 1 < 2 ^ 64 ->
  forall bv i status, Forall (fun tx => proper_value (transaction_value tx)) txs ->
  Z.abs bv <= MAX_IOTA_SUPPLY -> 0 <= i -> i + Z.of_nat (length txs) = last + 1 -> txs <> [] ->
  (validate_loop st bundle h last txs bv i status = BUNDLE_VALID <->
   all_checks last i bv txs /\ final_checks st bundle h (bv + bundle_value txs) = BUNDLE_VALID).
Proof.
  intros H0 Hlast. induction txs as [|tx txs IH]; intros bv i status Hp Hbv Hi Hlen Hne; [done|clear Hne].
  apply Forall_cons_iff in Hp as [Hv Hp]. cbn [length] in Hlen.
  cbn [validate_loop all_checks]. unfold tx_checks. cbv zeta. rewrite bundle_value_cons, Z.add_assoc.
  rewrite (llabs_proper _ Hv).
  destruct (Z.gtb_spec (Z.abs (transaction_value tx)) MAX_IOTA_SUPPLY) as [Hgt|Hle];
    [split; [done|lia]|].
  unfold MAX_IOTA_SUPPLY in *.
  rewrite (swrap_small 64 (bv + transaction_value tx)) by lia.
  rewrite (llabs_proper (bv + transaction_value tx)) by (unfold proper_value, INT64_MIN, INT64_MAX; lia).
  destruct (Z.gtb_spec (Z.abs (bv + transaction_value tx)) 2779530283277761) as [Hgt|Hle2];
    [split; [done|lia]|].
  destruct (Z.eqb_spec (transaction_current_index tx) i) as [Hc|Hc]; cbn [negb orb]; [|split; [done|lia]].
  destruct (Z.eqb_spec (transaction_last_index tx) last) as [Hl|Hl]; cbn [negb]; [|split; [done|lia]].
  match goal with |- (if ?c then _ else _) = _ <-> _ => assert (c = false <->
    (transaction_value tx <> 0 ->
     flex_trits_at (transaction_address tx) NUM_TRITS_ADDRESS (NUM_TRITS_ADDRESS - 1) = 0)) as Ha end.
  { destruct (Z.eqb_spec (transaction_value tx) 0); cbn [negb andb]; [tauto|].
    rewrite negb_false_iff, Z.eqb_eq. tauto. }
  destruct (negb _ && negb _); [split; [done|]; intros [[(_ & _ & _ & _ & Hx) _] _]; by apply Ha in Hx|].
  assert (transaction_value tx <> 0 -> flex_trits_at (transaction_address tx) NUM_TRITS_ADDRESS
    (NUM_TRITS_ADDRESS - 1) = 0) as Haddr by (by apply Ha). clear Ha.
  rewrite Hc. rewrite (uwrap_small 64 (i + 1)) by lia.
  destruct txs as [|tx' txs].
  - cbn [length] in Hlen. replace (i =? last) with true by lia. cbn [validate_loop all_checks].
    replace (bv + transaction_value tx + bundle_value []) with (bv + transaction_value tx) by (cbn; lia).
    destruct (final_checks _ _ _ _); (split; [done||(intros; split_and!; (done||lia))|by intros [_ ?]]).
  - cbn [length] in Hlen. replace (i =? last) with false by lia.
    rewrite IH by (done || lia || (cbn [length]; lia)).
    split; [intros [? ?]; split_and!; (done || lia)|by intros [[_ ?] ?]].
Qed.

(** ** The groups of a bundle *)

(** What the loop over one input absorbs for the [i]-th transaction. *)
Definition fragment_digest (nb : list Z) (i : nat) (tx : iota_transaction_t) : list Z :=
  (iss_sig_digest init_state (drop ((i * 81) mod NUM_TRITS_HASH) nb) (transaction_signature tx)).1.1.

Fixpoint absorb_group (nb : list Z) (i : nat) (s : St) (g : bundle_transactions_t) : St :=
  match g with
  | [] => s
  | tx :: g => absorb_group nb (S i) (absorb s (fragment_digest nb i tx)) g
  end.

(** The transactions after the first one of an input. *)
Definition continues (addr : list Z) (tx : iota_transaction_t) : bool :=
  memeq NUM_TRITS_ADDRESS (transaction_address tx) addr && (transaction_value tx =? 0).

(** What follows is not part of the group. *)
Definition group_ends (addr : list Z) (rest : bundle_transactions_t) : Prop :=
  match rest with [] => True | tx :: _ => continues addr tx = false end.

Definition signature_sized (tx : iota_transaction_t) : Prop :=
  length (transaction_signature tx) = NUM_TRITS_SIGNATURE.

Lemma input_loop_eq ks nb addr rest : length ks = NUM_TRITS_SIGNATURE -> group_ends addr rest ->
  forall g tx i offset s, signature_sized tx -> Forall signature_sized g -> Forall (fun tx => continues addr tx = true) g ->
  (offset mod NUM_TRITS_HASH = (i * 81) mod NUM_TRITS_HASH)%nat ->
  input_loop ks nb addr (tx :: g ++ rest) offset s = (absorb_group nb i s (tx :: g), rest).
Proof.
  intros Hks Hend. induction g as [|tx' g IH]; intros tx i offset s Htx Hg Hc Ho; cbn [app input_loop];
    rewrite flex_trits_to_trits_ok by (done || (unfold NUM_TRITS_SIGNATURE; lia)); rewrite Ho;
    cbn [absorb_group]; unfold fragment_digest at 1;
    destruct (iss_sig_digest _ _ (transaction_signature tx)) as [[dig ?] ?]; cbn [fst].
  - unfold group_ends in Hend. destruct rest as [|nxt rest]; [done|].
    unfold continues in Hend. by rewrite Hend.
  - apply Forall_cons_iff in Hg as [Htx' Hg]. apply Forall_cons_iff in Hc as [Hc' Hc].
    unfold continues in Hc'. rewrite Hc'. apply IH; try done.
    replace (offset + ISS_FRAGMENTS * 3 - 1)%nat with (offset + 80)%nat by (unfold ISS_FRAGMENTS; lia).
    unfold NUM_TRITS_HASH in *. clear -Ho.
    pose proof (Nat.div_mod offset 243 ltac:(lia)). pose proof (Nat.div_mod (i * 81) 243 ltac:(lia)).
    set (q := (offset / 243)%nat) in *. set (r := (i * 81 / 243)%nat) in *. rewrite Ho in *.
    set (m := ((i * 81) mod 243)%nat) in *.
    assert (m = 0 \/ m = 81 \/ m = 162)%nat as Hm.
    { pose proof (Nat.mod_upper_bound (i * 81) 243 ltac:(lia)). unfold m in *. lia. }
    assert ((offset + 80) mod 243 = m + 80)%nat as -> by (symmetry; apply (Nat.mod_unique _ _ q); lia).
    replace (S i * 81)%nat with (81 + (m + r * 243))%nat by lia. clear -Hm.
    rewrite Nat.add_assoc, Nat.Div0.mod_add. destruct Hm as [->|[->| ->]]; reflexivity.
Qed.

(** Every list of transactions starts with a longest such group. *)
Lemma split_group addr (txs : bundle_transactions_t) : exists g rest,
  txs = g ++ rest /\ Forall (fun tx => continues addr tx = true) g /\ group_ends addr rest.
Proof.
  induction txs as [|tx txs (g & rest & -> & Hg & Hr)]; [by exists [], []|].
  destruct (continues addr tx) eqn:E; [exists (tx :: g), rest|exists [], (tx :: g ++ rest)]; (split_and!; auto).
Qed.

(** The signatures of a bundle: every transaction with a negative value starts a
    group, whose fragments together hash to the address of the group. *)
Inductive inputs_signed (nb : list Z) : bundle_transactions_t -> Prop :=
| signed_nil : inputs_signed nb []
| signed_other tx txs : 0 <= transaction_value tx -> inputs_signed nb txs -> inputs_signed nb (tx :: txs)
| signed_input tx g rest :
    transaction_value tx < 0 ->
    Forall (fun tx' => continues (transaction_address tx) tx' = true) g ->
    group_ends (transaction_address tx) rest ->
    take NUM_TRITS_ADDRESS (squeeze (absorb_group nb 0 init_state (tx :: g)) NUM_TRITS_ADDRESS).1 =
      take NUM_TRITS_ADDRESS (transaction_address tx) ->
    inputs_signed nb rest -> inputs_signed nb (tx :: g ++ rest).

Definition signature_wf (tx : iota_transaction_t) : Prop :=
  trits_of NUM_TRITS_SIGNATURE (transaction_signature tx).

Lemma signature_wf_sized l : Forall signature_wf l -> Forall signature_sized l.
Proof. intros H. eapply List.Forall_impl; [|exact H]. by intros ? []. Qed.

Lemma absorb_group_ok nb g : Forall signature_wf g ->
  forall i s, sponge_ok s -> sponge_ok (absorb_group nb i s g).
Proof.
  intros Hg. induction Hg as [|tx g [Hl Ht] Hg IH]; intros i s Hs; [done|]. cbn [absorb_group].
  apply IH, absorb_ok; [done|]. unfold fragment_digest.
  apply (sig_digest_ok _ _ _ 27); [apply init_ok|apply init_reset|done|]. rewrite Hl. reflexivity.
Qed.

(** Groups that end cannot have different lengths. *)
Lemma group_unique addr g g' rest rest' : Forall (fun tx => continues addr tx = true) g ->
  Forall (fun tx => continues addr tx = true) g' -> group_ends addr rest -> group_ends addr rest' ->
  g ++ rest = g' ++ rest' -> g = g' /\ rest = rest'.
Proof.
  intros Hc Hc' He He'. revert g' Hc'.
  induction Hc as [|x g Hx Hc IH]; intros g' Hc' Eq; destruct Hc' as [|y g' Hy Hc']; cbn [app] in Eq.
  - done.
  - subst rest. unfold group_ends in He. congruence.
  - subst rest'. unfold group_ends in He'. congruence.
  - injection Eq as -> Eq. by destruct (IH _ Hc' Eq) as [-> ->].
Qed.

(** One round of the loop, at an input. *)
Lemma signatures_loop_input fuel ks ds nb tx g rest : length ks = NUM_TRITS_SIGNATURE ->
  length ds = NUM_TRITS_HASH -> Forall signature_wf (tx :: g) -> transaction_value tx < 0 ->
  Forall (fun tx' => continues (transaction_address tx) tx' = true) g ->
  group_ends (transaction_address tx) rest ->
  signatures_loop (S fuel) ks ds nb (tx :: g ++ rest) =
    if memeq NUM_TRITS_ADDRESS (squeeze (absorb_group nb 0 init_state (tx :: g)) NUM_TRITS_ADDRESS).1
         (transaction_address tx)
    then signatures_loop fuel ks ds nb rest else Some false.
Proof.
  intros Hks Hds Hg Hv Hc He. pose proof (signature_wf_sized _ Hg) as Hgs.
  pose proof (absorb_group_ok nb _ Hg 0 init_state init_ok) as Hok.
  apply Forall_cons_iff in Hgs as [Htx Hgs].
  cbn [signatures_loop]. destruct (Z.geb_spec (transaction_value tx) 0); [lia|].
  rewrite (input_loop_eq ks nb _ rest Hks He g tx 0 0 init_state) by done.
  pose proof (squeeze_length_1 _ Hok) as Hl. change HASH_LENGTH_TRIT with NUM_TRITS_ADDRESS in Hl.
  destruct (squeeze (absorb_group nb 0 init_state (tx :: g)) NUM_TRITS_ADDRESS) as [da s']. cbn [fst] in *.
  change (flex_trits_from_trits ds NUM_TRITS_HASH da NUM_TRITS_ADDRESS NUM_TRITS_ADDRESS)
    with (flex_trits_from_trits ds NUM_TRITS_HASH da NUM_TRITS_HASH NUM_TRITS_HASH).
  rewrite flex_trits_from_trits_ok by (done || (unfold NUM_TRITS_HASH; lia)).
  by destruct (memeq _ _ _).
Qed.

Lemma memeq_true n a b : memeq n a b = true <-> take n a = take n b.
Proof. apply bool_decide_eq_true. Qed.

Lemma signatures_loop_spec ks ds nb : length ks = NUM_TRITS_SIGNATURE ->
  length ds = NUM_TRITS_HASH -> forall fuel txs, (length txs <= fuel)%nat -> Forall signature_wf txs ->
  signatures_loop fuel ks ds nb txs = Some true <-> inputs_signed nb txs.
Proof.
  intros Hks Hds. induction fuel as [|fuel IH]; intros [|tx txs] Hl W; [|simpl in Hl; lia| |];
    [split; [constructor|done]..|]. cbn [length] in Hl.
  destruct (Z.le_gt_cases 0 (transaction_value tx)) as [Hv|Hv].
  - cbn [signatures_loop]. apply Forall_cons_iff in W as [_ W].
    destruct (Z.geb_spec (transaction_value tx) 0); [|lia].
    rewrite IH by (done || lia). split; [by constructor|].
    inversion 1; subst; [done|lia].
  - destruct (split_group (transaction_address tx) txs) as (g & rest & -> & Hc & He).
    rewrite app_comm_cons in W. apply Forall_app in W as [Wg W].
    rewrite signatures_loop_input by done. rewrite length_app in Hl.
    destruct (memeq _ _ _) eqn:E.
    + rewrite IH by (done || lia). apply memeq_true in E. split; [by constructor|].
      inversion 1 as [| |tx' g' rest' _ Hc' He' _ Hr [Heq Heq']]; subst; [lia|].
      by destruct (group_unique _ _ _ _ _ Hc' Hc He' He Heq') as [-> ->].
    + split; [done|]. inversion 1 as [| |tx' g' rest' _ Hc' He' Ea Hr [Heq Heq']]; subst; [lia|].
      destruct (group_unique _ _ _ _ _ Hc' Hc He' He Heq') as [-> ->].
      apply memeq_true in Ea. congruence.
Qed.

(** ** Genuine signatures *)

(** The transactions of one input: the signature in consecutive fragments, the
    address repeated, and a value in the first one only. *)
Definition input_group (addr sig : list Z) (security : nat) (g : bundle_transactions_t) : Prop :=
  length g = security /\
  forall i tx, g !! i = Some tx ->
    transaction_address tx = addr /\
    transaction_signature tx = buf_read (i * ISS_KEY_LENGTH) ISS_KEY_LENGTH sig /\
    (i = 0%nat -> transaction_value tx < 0) /\ (i <> 0%nat -> transaction_value tx = 0).

(** Absorbing the digests one by one. *)
Lemma absorb_group_eq nb (d : nat -> list Z) g : forall i s,
  (forall j tx, g !! j = Some tx -> fragment_digest nb (i + j) tx = d (i + j)%nat) ->
  (forall j, (j < i + length g)%nat -> length (d j) = HASH_LENGTH_TRIT) ->
  (forall j, (i <= j < i + length g)%nat -> (0 < j)%nat -> regular (d j)) ->
  s = absorb init_state (concat (map d (seq 0 i))) -> (0 < i)%nat ->
  absorb_group nb i s g = absorb init_state (concat (map d (seq 0 (i + length g)))).
Proof.
  induction g as [|tx g IH]; intros i s Hd Hl Hr -> Hi; cbn [absorb_group length] in *.
  - by rewrite Nat.add_0_r.
  - replace (i + S (length g))%nat with (S i + length g)%nat by lia. apply IH; try lia.
    + intros j tx' Hj. replace (S i + j)%nat with (i + S j)%nat by lia. by apply Hd.
    + intros j Hj. apply Hl. lia.
    + intros j Hj Hj'. apply Hr; lia.
    + specialize (Hd 0%nat tx eq_refl). rewrite Nat.add_0_r in Hd. rewrite Hd.
      rewrite seq_S, List.map_app, concat_app. cbn [map concat Nat.add]. rewrite app_nil_r.
      symmetry. apply (absorb_app _ i); [|apply Hr; lia].
      apply length_concat_blocks. intros j Hj. apply Hl. lia.
Qed.

(** The digest of every fragment of a signature is that of the key. *)
Lemma group_digests nb key addr security g i tx : trits_ok nb -> trits_ok key ->
  length key = (security * ISS_KEY_LENGTH)%nat -> (0 < security <= 3)%nat ->
  input_group addr (iss_signature init_state nb key).1 security g -> g !! i = Some tx ->
  signature_wf tx /\
  fragment_digest nb i tx = hash_of init_state (frag i (chained init_state (key_blocks_num security) key)).
Proof.
  intros Hnb Hk Hl Hsec [Hgl Hg] Htx. pose proof (lookup_lt_Some _ _ _ Htx) as Hi. rewrite Hgl in Hi.
  assert (length key = (key_blocks_num security * HASH_LENGTH_TRIT)%nat) as Hl' by (by rewrite Hl, key_len).
  destruct (Hg i tx Htx) as (_ & Hs & _).
  rewrite (signature_eq _ _ _ (key_blocks_num security)) in Hs by (done || apply init_ok || apply init_reset).
  cbn [fst] in Hs. fold (frag i) in Hs.
  pose proof (sig_digest_fragment init_state nb key security i init_ok init_reset Hnb Hk Hl Hi) as Hd.
  cbv zeta in Hd.
  assert (forall j, (j < key_blocks_num security)%nat ->
    trits_ok (chain_of init_state (sign_rounds nb j) (block j key)) /\
    length (chain_of init_state (sign_rounds nb j) (block j key)) = HASH_LENGTH_TRIT) as Hc.
  { intros j Hj. destruct (block_ok j (key_blocks_num security) key); [done..|].
    apply chain_of_ok; [apply init_ok|done..]. }
  split.
  - unfold signature_wf. rewrite Hs. split.
    + rewrite length_buf_read; [reflexivity|].
      rewrite (length_concat_blocks _ HASH_LENGTH_TRIT); [rewrite <- key_len; unfold ISS_KEY_LENGTH; nia|].
      intros j Hj. apply Hc; lia.
    + unfold buf_read. apply Forall_take, Forall_drop, Forall_concat, List.Forall_map, List.Forall_forall.
      intros j Hj. apply in_seq in Hj. apply Hc; lia.
  - unfold fragment_digest. rewrite Hs.
    assert ((i * 81) mod NUM_TRITS_HASH = i * ISS_FRAGMENTS * 3)%nat as ->
      by (destruct i as [|[|[|i]]]; [reflexivity..|lia]).
    unfold frag in Hd at 1. by rewrite Hd.
Qed.

Lemma group_continues addr sig security tx g : input_group addr sig security (tx :: g) ->
  transaction_address tx = addr /\ transaction_value tx < 0 /\
  Forall (fun tx' => continues addr tx' = true) g.
Proof.
  intros [Hl Hg]. destruct (Hg 0%nat tx eq_refl) as (Ha & _ & Hv & _). split_and!; [done|auto|].
  apply Forall_lookup. intros i tx' Hi. destruct (Hg (S i) tx' Hi) as (Ha' & _ & _ & Hv').
  unfold continues. rewrite Ha', Hv' by done. rewrite (proj2 (memeq_true _ _ _)) by done. done.
Qed.

Lemma group_signed nb key addr security g rest : trits_ok nb -> trits_ok key ->
  length key = (security * ISS_KEY_LENGTH)%nat -> (0 < security <= 3)%nat ->
  input_group addr (iss_signature init_state nb key).1 security g -> group_ends addr rest ->
  addr = hash_of init_state (key_digests key security) ->
  (forall f, (0 < f < security)%nat ->
     regular (hash_of init_state (frag f (chained init_state (key_blocks_num security) key)))) ->
  inputs_signed nb rest -> inputs_signed nb (g ++ rest).
Proof.
  intros Hnb Hk Hl Hsec Hg Hend Haddr Hreg Hr.
  pose proof (fun i tx => group_digests nb key addr security g i tx Hnb Hk Hl Hsec Hg) as Hdig.
  assert (length key = (key_blocks_num security * HASH_LENGTH_TRIT)%nat) as Hl' by (by rewrite Hl, key_len).
  destruct (chained_ok init_state _ key init_ok Hk Hl') as [Hco _].
  set (d := fun f => hash_of init_state (frag f (chained init_state (key_blocks_num security) key))) in *.
  assert (forall i, length (d i) = HASH_LENGTH_TRIT) as Hd.
  { intros i. apply length_hash_of; [apply init_ok|]. unfold frag, buf_read. solve_forall. }
  pose proof (proj1 Hg) as Hgl.
  destruct g as [|tx g]; [simpl in Hgl; lia|]. destruct (group_continues _ _ _ _ _ Hg) as (Ha & Hv & Hc).
  cbn [app]. apply signed_input; rewrite ?Ha; try done. f_equal. cbn [absorb_group].
  destruct (Hdig 0%nat tx eq_refl) as [_ E0]. rewrite E0.
  rewrite (absorb_group_eq nb d); [|intros j tx' Hj; by apply (Hdig (S j))|intros; apply Hd| | |lia].
  - rewrite Haddr. unfold hash_of, key_digests. rewrite init_reset.
    cbn [length] in Hgl. replace (1 + length g)%nat with security by lia. done.
  - intros j Hj _. apply Hreg. cbn [length] in Hgl. lia.
  - cbn [seq map concat]. by rewrite app_nil_r.
Qed.
End Bundle.

(** ** Candidates *)

Definition incremented (tag : list Z) (n : nat) : list Z := Nat.iter n (fun t => (add_assign t 1).2) tag.

(** The bundle with the tag of its head incremented [n] times. *)
Definition candidate (bundle : bundle_transactions_t) (n : nat) : bundle_transactions_t :=
  match bundle with
  | [] => []
  | tx :: rest => put_obsolete_tag (incremented (transaction_obsolete_tag tx) n) tx :: rest
  end.

Lemma incremented_spec tag n : trits_ok tag ->
  trits_ok (incremented tag n) /\ length (incremented tag n) = length tag /\
  (3 ^ Z.of_nat (length tag) | bal tag + Z.of_nat n - bal (incremented tag n)).
Proof.
  intros Ht. induction n as [|n (IH1 & IH2 & [q IH3])].
  - split_and!; [done|done|]. exists 0. cbn [incremented Nat.iter nat_rect]. unfold incremented. cbn. lia.
  - unfold incremented in *. cbn [Nat.iter nat_rect].
    set (t := Nat.iter n _ tag) in *. change (nat_rect _ tag _ n) with t.
    pose proof (add_internal_spec t 1 {| ha_s := 0; ha_c := 0 |} IH1 ltac:(done) ltac:(done)) as Ha.
    unfold add_assign. change (1 <? 0) with false. destruct (add_internal t false 1 _) as [ret t'].
    destruct Ha as (Ht' & Hl' & _ & k & Ek & _). cbn [ha_c snd] in *. rewrite IH2 in Ek.
    split_and!; [done|lia|]. exists (q + k). lia.
Qed.

Lemma head_put_tag tx t : trits_of NUM_TRITS_TAG (transaction_obsolete_tag tx) -> trits_of NUM_TRITS_TAG t ->
  (flex_trits_from_trits (transaction_obsolete_tag tx) NUM_TRITS_TAG t NUM_TRITS_TAG NUM_TRITS_TAG).2 = t.
Proof. intros [Hl _] [Ht _]. by rewrite flex_trits_from_trits_ok by (done || (unfold NUM_TRITS_TAG; lia)). Qed.

Lemma iter_next_tag tx rest n : trits_of NUM_TRITS_TAG (transaction_obsolete_tag tx) ->
  Nat.iter n next_tag (tx :: rest, transaction_obsolete_tag tx) =
  (candidate (tx :: rest) n, incremented (transaction_obsolete_tag tx) n).
Proof.
  intros Ht. assert (forall n, trits_of NUM_TRITS_TAG (incremented (transaction_obsolete_tag tx) n)) as Hi.
  { intros m. destruct Ht as [Hl Ho]. destruct (incremented_spec _ m Ho) as (? & ? & _). split; [lia|done]. }
  induction n as [|n IH]; [by destruct tx as [[] ? ? ? ? ?]|]. cbn [Nat.iter nat_rect].
  change (nat_rect _ _ _ n) with (Nat.iter n next_tag (tx :: rest, transaction_obsolete_tag tx)).
  rewrite IH. unfold next_tag. cbn [fst snd].
  change (add_assign (incremented (transaction_obsolete_tag tx) n) 1).2
    with (incremented (transaction_obsolete_tag tx) (S n)).
  f_equal. unfold candidate, write_head_tag. f_equal.
  rewrite head_put_tag; [done| |done]. exact (Hi n).
Qed.

Lemma candidate_wf bundle n : Forall tx_wf bundle -> Forall tx_wf (candidate bundle n).
Proof.
  destruct bundle as [|tx rest]; [done|]. intros W. apply Forall_cons_iff in W as [Hw W].
  apply Forall_cons_iff. split; [|done]. apply put_tag_wf; [done|].
  destruct (wf_obsolete_tag tx Hw) as [Hl Ho]. unfold transaction_obsolete_tag.
  destruct (incremented_spec _ n Ho) as (Hi & Hil & _). split; [lia|done].
Qed.

(** * Properties *)

#[local] Opaque bundle_calculate_hash normalize_hash.

Section Properties.
Context {St : Type} {Sp : Sponge St} {SI : SpongeInit St} {SL : SpongeLaws St}.

(** The search for a secure hash ends, within [fuel] rounds, exactly when one
    of the first [fuel] candidates (the bundle with the tag of its first
    transaction incremented [n] times) has a normalized hash without a 13; the
    result is the first such candidate, every transaction of which carries the
    hash that [bundle_calculate_hash] gives for the result itself. *)
Theorem bundle_finalize_first_secure fuel es out stack tag_stack bundle :
  Forall tx_wf bundle -> bundle <> [] -> length es = NUM_TRITS_ESSENCE -> length out = NUM_TRITS_HASH ->
  length stack = NUM_TRITS_HASH -> length tag_stack = NUM_TRITS_TAG ->
  let secure n := ~ In 13 (normalize_hash (bundle_calculate_hash es (candidate bundle n) out)) in
  (bundle_finalize fuel es out stack tag_stack bundle = None <-> forall n, (n < fuel)%nat -> ~ secure n) /\
  forall b', bundle_finalize fuel es out stack tag_stack bundle = Some b' ->
    exists n, (n < fuel)%nat /\ secure n /\ (forall k, (k < n)%nat -> ~ secure k) /\
      b' = map (fun tx => transaction_set_bundle tx (bundle_calculate_hash es b' out)) (candidate bundle n) /\
      Forall (fun tx => tx_wf tx /\ transaction_bundle tx = bundle_calculate_hash es b' out) b'.
Proof.
  intros W Hne He Ho Hs Hts. destruct bundle as [|tx rest]; [done|]. cbv zeta.
  assert (trits_of NUM_TRITS_TAG (transaction_obsolete_tag tx)) as Htag
    by (apply Forall_cons_iff in W as [[] _]; done).
  assert (forall n, hash_is_insecure es out stack (candidate (tx :: rest) n) = true <->
    In 13 (normalize_hash (bundle_calculate_hash es (candidate (tx :: rest) n) out))) as Hins.
  { intros n. unfold hash_is_insecure, normalize_flex_hash, insecure.
    rewrite flex_trits_to_trits_ok; [|done|apply calculate_hash_ok; [by apply candidate_wf|done..]|unfold NUM_TRITS_HASH; lia].
    cbn [snd]. rewrite existsb_exists. split; [intros (x & Hx & ->%Z.eqb_eq)|]; eauto. }
  unfold bundle_finalize.
  rewrite flex_trits_to_trits_ok by (done || apply Htag || (unfold NUM_TRITS_TAG; lia)). split.
  - rewrite finalize_loop_none. split; intros H n Hn.
    + specialize (H n Hn). rewrite iter_next_tag in H by done. apply Hins in H. auto.
    + rewrite iter_next_tag by done. cbn [fst]. specialize (H n Hn). rewrite <- Hins in H.
      apply not_false_iff_true. intros E. apply H. congruence.
  - intros b Hb. apply finalize_loop_spec in Hb as (n & Hn & Hk & Hsec). rewrite iter_next_tag in Hsec by done.
    cbv zeta in Hsec. destruct Hsec as [Hsec Hb]. cbn [fst] in *. apply not_true_iff_false in Hsec.
    rewrite Hins in Hsec. exists n.
    assert (bundle_calculate_hash es b out = bundle_calculate_hash es (candidate (tx :: rest) n) out) as Eh.
    { apply calculate_hash_ext. rewrite Hb, List.map_map. apply map_ext. intros a. reflexivity. }
    pose proof (calculate_hash_ok es out _ (candidate_wf _ n W) He Ho) as Hh.
    pose proof (candidate_wf _ n W) as Wc. rewrite Eh. split_and!; [done|done| |done|].
    + intros k Hk' Hn'. apply Hn'. rewrite <- Hins. specialize (Hk k Hk'). rewrite iter_next_tag in Hk by done. exact Hk.
    + rewrite Hb. apply List.Forall_map. eapply List.Forall_impl; [|exact Wc]. intros a Ha. by apply set_bundle_wf.
Qed.
Definition stack_sized (st : validate_stack) : Prop :=
  length (vs_essence st) = NUM_TRITS_ESSENCE /\ length (vs_hash st) = NUM_TRITS_HASH /\
  length (vs_trits st) = NUM_TRITS_HASH /\ length (vs_normalized st) = NUM_TRITS_HASH /\
  length (vs_key st) = NUM_TRITS_SIGNATURE /\ length (vs_digest st) = NUM_TRITS_HASH.

Lemma final_checks_spec st bundle h : stack_sized st -> Forall tx_wf bundle -> length h = NUM_TRITS_HASH ->
  let hash := bundle_calculate_hash (vs_essence st) bundle (vs_hash st) in
  final_checks st bundle h (bundle_value bundle) = BUNDLE_VALID <->
  bundle_value bundle = 0 /\ h = hash /\
  inputs_signed (normalize_hash_to_trits hash (vs_normalized st)) bundle.
Proof.
  intros (He & Hh & Ht & Hn & Hk & Hd) W Hl. cbv zeta. rewrite final_checks_valid, memeq_true.
  pose proof (calculate_hash_ok _ _ _ W He Hh) as [Hcl Hct].
  rewrite !take_ge by lia.
  rewrite normalize_flex_hash_to_trits_eq by (rewrite ?Ht, ?Hcl; reflexivity).
  unfold validate_signatures. rewrite signatures_loop_spec; [done|done|done|done|].
  eapply List.Forall_impl; [|exact W]. intros tx []. done.
Qed.

(** C2: a bundle of well-formed transactions is found valid exactly when it has
    the announced length, every transaction is at its index with the common last
    index, all values and partial sums are within the supply, addresses that
    carry value end in a zero trit, the values sum to zero, the bundle hash of
    the first transaction is that of the essences, and the fragments of every
    input hash to its address. *)
Theorem bundle_validate_valid_iff st head rest status : let bundle := head :: rest in
  Z.of_nat (length bundle) < 2 ^ 64 ->
  stack_sized st -> Forall tx_wf bundle -> Forall (fun tx => proper_value (transaction_value tx)) bundle ->
  let hash := bundle_calculate_hash (vs_essence st) bundle (vs_hash st) in
  bundle_validate st (Some bundle) status = Some (RC_OK, BUNDLE_VALID) <->
  transaction_last_index head + 1 = Z.of_nat (length bundle) /\
  (forall j tx, bundle !! j = Some tx ->
     Z.abs (transaction_value tx) <= MAX_IOTA_SUPPLY /\
     Z.abs (bundle_value (take (S j) bundle)) <= MAX_IOTA_SUPPLY /\
     transaction_current_index tx = Z.of_nat j /\ transaction_last_index tx = transaction_last_index head /\
     (transaction_value tx <> 0 ->
      flex_trits_at (transaction_address tx) NUM_TRITS_ADDRESS (NUM_TRITS_ADDRESS - 1) = 0)) /\
  bundle_value bundle = 0 /\ transaction_bundle head = hash /\
  inputs_signed (normalize_hash_to_trits hash (vs_normalized st)) bundle.
Proof.
  intros bundle Hsz Hst W Hp hash. 
  change (bundle_validate st (Some bundle) status) with
    (if negb (Z.of_nat (length bundle) =? u64 (transaction_last_index head + 1)) then Some (RC_OK, BUNDLE_INCOMPLETE)
     else Some (RC_OK, validate_loop st bundle (transaction_bundle head) (transaction_last_index head) bundle 0 0 status)).
  assert (0 <= transaction_last_index head < 2 ^ 64 /\ length (transaction_bundle head) = NUM_TRITS_HASH) as [Hr Hbl].
  { apply Forall_cons_iff in W as [Wh _]. split; [apply (wf_last_index head Wh)|apply (wf_bundle head Wh)]. }
  assert (0 < Z.of_nat (length bundle)) as Hlen by (cbn; lia).
  destruct (Z.eqb_spec (Z.of_nat (length bundle)) (u64 (transaction_last_index head + 1))) as [E|E]; cbn [negb].
  2: { split; [done|]. intros [El _]. rewrite El, uwrap_small in E by lia. done. }
  assert (transaction_last_index head + 1 = Z.of_nat (length bundle)) as El.
  { destruct (Z.eq_dec (transaction_last_index head) (2 ^ 64 - 1)) as [El|].
    - rewrite El in E. change (u64 (2 ^ 64 - 1 + 1)) with 0 in E. lia.
    - by rewrite uwrap_small in E by lia. }
  subst hash. rewrite <- (final_checks_spec st bundle (transaction_bundle head)) by done.
  assert (forall s, Some (RC_OK, s) = Some (RC_OK, BUNDLE_VALID) <-> s = BUNDLE_VALID) as -> by (split; congruence).
  rewrite validate_loop_spec by (done || lia || (unfold MAX_IOTA_SUPPLY; cbn; lia)).
  rewrite Z.add_0_l, all_checks_lookup. unfold tx_checks.
  assert (forall j tx, bundle !! j = Some tx ->
    0 + bundle_value (take j bundle) + transaction_value tx = bundle_value (take (S j) bundle)) as Hs.
  { intros j tx Hj. rewrite (take_S_r _ _ _ Hj). unfold bundle_value.
    rewrite List.map_app, zsum_app. cbn. lia. }
  split.
  - intros [Ha Hf]. split_and!; [done| |done]. intros j tx Hj. rewrite <- (Hs j tx Hj). by apply (Ha j tx).
  - intros (_ & Ha & Hf). split; [|done]. intros j tx Hj. rewrite (Hs j tx Hj). by apply Ha.
Qed.
(** The transactions of every input carry, in order, the fragments that
    [iota_sign_signature_gen_flex_trits] makes of [hash] for the seed, index and
    security level that [iota_sign_address_gen_flex_trits] made the address of. *)
Inductive genuinely_signed (buf stack hash : list Z) : bundle_transactions_t -> Prop :=
| genuine_nil : genuinely_signed buf stack hash []
| genuine_other tx txs : 0 <= transaction_value tx -> genuinely_signed buf stack hash txs ->
    genuinely_signed buf stack hash (tx :: txs)
| genuine_input seed index security addr sig g rest :
    trits_of HASH_LENGTH_TRIT seed -> 0 <= index < INT64_MAX -> valid_security security = true ->
    iota_sign_address_gen_flex_trits true true true stack (Some seed) index security = Some addr ->
    iota_sign_signature_gen_flex_trits true true buf stack stack (Some seed) index security (Some hash) = Some sig ->
    (forall f, (0 < f < security)%nat -> regular (hash_of init_state
       (frag f (chained init_state (key_blocks_num security) (seed_key seed index security))))) ->
    input_group addr sig security g -> group_ends addr rest ->
    genuinely_signed buf stack hash rest -> genuinely_signed buf stack hash (g ++ rest).

(** C9: the signatures that the signing helpers generate are the ones that
    validation accepts: if every input of a bundle carries the signature of its
    address's key for the normalized hash, [validate_signatures] answers yes. *)
Theorem genuine_signatures_validate ks ds buf stack hash bundle :
  length ks = NUM_TRITS_SIGNATURE -> length ds = NUM_TRITS_HASH -> length buf = NUM_TRITS_HASH ->
  length stack = HASH_LENGTH_TRIT -> trits_of NUM_TRITS_HASH hash -> Forall signature_wf bundle ->
  genuinely_signed buf stack hash bundle ->
  validate_signatures ks ds bundle (normalize_hash_to_trits hash buf) = Some true.
Proof.
  intros Hks Hds Hb Hst [Hhl Hh] W G. unfold validate_signatures. apply signatures_loop_spec; [done..|].
  clear W. induction G as [|tx txs Hv G IH|seed index security addr sig g rest [Hsl Hs] Hi Hsec Ea Es Hreg Hg He G IH];
    [constructor|by constructor|].
  rewrite address_gen_flex_eq, address_gen_eq in Ea by done. injection Ea as <-.
  rewrite signature_gen_flex_eq, signature_gen_eq in Es by done. injection Es as <-.
  destruct (seed_key_ok seed index security Hs Hi) as (Hk & Hkl & _).
  destruct (normalize_hash_to_trits_spec hash buf Hh Hb) as (_ & Hn & _).
  eapply group_signed; [exact Hn|exact Hk|exact Hkl| |exact Hg|exact He|done|exact Hreg|exact IH].
  by apply valid_security_range.
Qed.
End Properties.

(** * Witnesses *)

Module Sample.
Definition es : list Z := replicate NUM_TRITS_ESSENCE 7.
Definition buf : list Z := replicate NUM_TRITS_HASH 7.
Definition stack : validate_stack :=
  {| vs_essence := es; vs_hash := buf; vs_trits := buf; vs_normalized := buf;
     vs_key := replicate NUM_TRITS_SIGNATURE 7; vs_digest := buf |}.

(** A transaction without value, on its own; and one that spends. *)
Definition tx_of (address signature : list Z) (value current last : Z) : iota_transaction_t :=
  mk_tx
    (mk_essence address value (replicate 81 0) 1546300800 current last (replicate 243 0))
    (mk_attachment (replicate 243 0) (replicate 243 0) 0 0 0 (replicate 81 0) (replicate 81 0))
    (mk_consensus (replicate 243 0)) (mk_data signature)
    (mk_metadata 0 false 0 0) (mk_mask 0 0 0 0 0).

Definition message : iota_transaction_t := tx_of (replicate 243 1) (replicate NUM_TRITS_SIGNATURE 0) 0 0 0.
Definition hash : list Z := bundle_calculate_hash es [message] buf.
Definition tx : iota_transaction_t := transaction_set_bundle message hash.

Lemma message_wf : tx_wf message.
Proof. split; closed_decide. Qed.

Lemma hash_ok : trits_of NUM_TRITS_HASH hash.
Proof. apply calculate_hash_ok; [|apply length_replicate..]. by apply Forall_cons_iff; split; [apply message_wf|]. Qed.

Lemma tx_ok : tx_wf tx /\ transaction_bundle tx = hash.
Proof. apply set_bundle_wf; [apply message_wf|apply hash_ok]. Qed.

Lemma stack_ok : stack_sized stack.
Proof. unfold stack_sized. split_and!; apply length_replicate. Qed.

(** The input of security level 1 with the signature [sig]. *)
Definition spend (addr sig : list Z) : iota_transaction_t :=
  tx_of addr (buf_read (0 * ISS_KEY_LENGTH) ISS_KEY_LENGTH sig) (-1) 1 1.

Lemma spend_group addr sig : input_group addr sig 1 [spend addr sig].
Proof.
  split; [reflexivity|]. intros [|i] t Ht; [|by destruct i]. injection Ht as <-.
  split; [reflexivity|]. split; [reflexivity|]. by split.
Qed.
End Sample.

Lemma bundle_finalize_first_secure_witness :
  let bundle := [Sample.message] in
  let secure n := ~ In 13 (normalize_hash (bundle_calculate_hash Sample.es (candidate bundle n) Sample.buf)) in
  (bundle_finalize 5 Sample.es Sample.buf Sample.buf (replicate 81 7) bundle = None <->
    forall n, (n < 5)%nat -> ~ secure n) /\
  forall b', bundle_finalize 5 Sample.es Sample.buf Sample.buf (replicate 81 7) bundle = Some b' ->
    exists n, (n < 5)%nat /\ secure n /\ (forall k, (k < n)%nat -> ~ secure k) /\
      b' = map (fun tx => transaction_set_bundle tx (bundle_calculate_hash Sample.es b' Sample.buf)) (candidate bundle n) /\
      Forall (fun tx => tx_wf tx /\ transaction_bundle tx = bundle_calculate_hash Sample.es b' Sample.buf) b'.
Proof.
  cbv zeta. apply (bundle_finalize_first_secure 5 Sample.es Sample.buf Sample.buf (replicate 81 7) [Sample.message]).
  - apply Forall_cons_iff. split; [exact Sample.message_wf|constructor].
  - discriminate.
  - apply length_replicate.
  - apply length_replicate.
  - apply length_replicate.
  - apply length_replicate.
Defined.

Lemma bundle_validate_valid_iff_witness :
  bundle_validate Sample.stack (Some [Sample.tx]) BUNDLE_EMPTY = Some (RC_OK, BUNDLE_VALID).
Proof.
  apply (bundle_validate_valid_iff Sample.stack Sample.tx [] BUNDLE_EMPTY).
  - reflexivity.
  - exact Sample.stack_ok.
  - apply Forall_cons_iff. split; [apply Sample.tx_ok|constructor].
  - apply Forall_cons_iff. split; [|constructor]. cbv. split; [reflexivity|discriminate].
  - split; [reflexivity|]. split.
    + intros [|j] tx Hj; [|discriminate]. injection Hj as <-. cbn [take].
      split_and!; [cbv; discriminate|cbv; discriminate|reflexivity|reflexivity|]. intros Hv. by destruct Hv.
    + split_and!; [reflexivity|apply Sample.tx_ok|]. apply signed_other; [cbv; discriminate|constructor].
Defined.

(** An input of security level 1 and the transaction that receives its value. *)
Lemma genuine_signatures_validate_witness : exists g out,
  length g = 1%nat /\ transaction_value out = 1 /\ Forall (fun tx => transaction_value tx = -1) g /\
  validate_signatures (replicate NUM_TRITS_SIGNATURE 7) Sample.buf (out :: g ++ [])
    (normalize_hash_to_trits Sample.hash Sample.buf) = Some true.
Proof.
  set (seed := replicate 243 1).
  assert (trits_of HASH_LENGTH_TRIT seed) as [Hsl Hs] by closed_decide.
  assert (0 <= 3 < INT64_MAX) as Hi by (unfold INT64_MAX; lia).
  pose proof (eq_trans (address_gen_flex_eq Sample.buf seed 3 1 Hs Hsl eq_refl Hi eq_refl)
    (address_gen_eq seed 3 1 Hs Hi eq_refl)) as Ea.
  pose proof (eq_trans (signature_gen_flex_eq Sample.buf Sample.buf Sample.buf seed 3 1 Sample.hash Hs Hsl
    (proj1 Sample.hash_ok) eq_refl eq_refl Hi eq_refl)
    (signature_gen_eq seed 3 1 Sample.buf Sample.hash Hs Hi eq_refl)) as Es.
  match type of Ea with _ = Some ?a => set (addr := a) in Ea end.
  match type of Es with _ = Some ?s => set (sig := s) in Es end.
  pose proof (Sample.spend_group addr sig) as Hg.
  exists [Sample.spend addr sig], (Sample.tx_of seed (replicate NUM_TRITS_SIGNATURE 0) 1 0 1).
  split_and!; [reflexivity|reflexivity|by constructor|].
  destruct (seed_key_ok seed 3 1 Hs Hi) as (Hk & Hkl & _).
  apply (genuine_signatures_validate _ _ Sample.buf Sample.buf Sample.hash).
  - apply length_replicate.
  - apply length_replicate.
  - apply length_replicate.
  - apply length_replicate.
  - exact Sample.hash_ok.
  - apply Forall_cons_iff. split; [closed_decide|]. apply Forall_cons_iff. split; [|constructor].
    eapply (group_digests (normalize_hash_to_trits Sample.hash Sample.buf) _ _ 1 _ 0); [|exact Hk|exact Hkl|lia|exact Hg|reflexivity].
    destruct Sample.hash_ok. by apply normalize_hash_to_trits_spec.
  - apply genuine_other; [done|].
    apply (genuine_input _ _ _ seed 3 1 addr sig); [by split|exact Hi|reflexivity|exact Ea|exact Es|lia|exact Hg|exact I|constructor].
Defined.
