(* ===== verification/PTrit.v ===== *)
(** * Parallel trits

    [common/trinary/ptrit.c] and [ptrit_incr.c]: a [ptrit_t] holds 64 trits as
    two 64-bit words, one bit of each word per trit, in the configuration
    [PTRIT_64] with [PTRIT_CVT_ANDN].  Slice number [i] of an array of ptrits is
    the array of its [i]-th trits. *)
From S2P Require Import Prelude Trits.

Definition PTRIT_SIZE : nat := 64.

Record ptrit_t := mk_ptrit { low : Z; high : Z }.

(** Not-a-Trit *)
Definition NaT : Z := 2.

Definition cvt_te1_to_tep : list (Z * Z) := [(1, 1); (0, 1); (0, 0); (1, 0)].
Definition cvt_tep_to_te1 : list (list Z) := [[NaT; 1]; [-1; 0]].

(** The operations of the generic platform. *)
Definition NOT (x : Z) : Z := u64 (Z.lnot x).
Definition AND (x y : Z) : Z := Z.land x y.
Definition XOR (x y : Z) : Z := Z.lxor x y.
Definition ANDN (x y : Z) : Z := AND (NOT x) y.
Definition XORANDN (x y z : Z) : Z := XOR x (ANDN y z).
Definition XORAND (x y z : Z) : Z := XOR x (AND y z).
Definition ANDAND (x y z : Z) : Z := AND x (AND y z).

(** [cvt_te1_to_tep[t & 3]] *)
Definition cvt_te1 (t : Z) : Z * Z := nth (Z.to_nat (Z.land t 3)) cvt_te1_to_tep (0, 0).

Definition ptrit_fill (p : ptrit_t) (t : Z) : ptrit_t :=
  let c := cvt_te1 t in
  mk_ptrit (u64 (0 - c.1)) (u64 (0 - c.2)).

Definition ptrit_set (p : ptrit_t) (idx : nat) (t : Z) : ptrit_t :=
  let c := cvt_te1 t in
  let idx := Z.of_nat idx mod 64 in
  let low := Z.land (low p) (NOT (u64 (Z.shiftl 1 idx))) in
  let low := Z.lor low (u64 (Z.shiftl c.1 idx)) in
  let high := Z.land (high p) (NOT (u64 (Z.shiftl 1 idx))) in
  let high := Z.lor high (u64 (Z.shiftl c.2 idx)) in
  mk_ptrit low high.

Definition ptrit_get (p : ptrit_t) (idx : nat) : Z :=
  let idx := Z.of_nat idx mod 64 in
  let low := Z.land 1 (Z.shiftr (low p) idx) in
  let high := Z.land 1 (Z.shiftr (high p) idx) in
  nth (Z.to_nat high) (nth (Z.to_nat low) cvt_tep_to_te1 []) 0.

Fixpoint ptrits_fill (n : nat) (dst : list ptrit_t) (src : list Z) : list ptrit_t :=
  match n, dst, src with
  | S n, p :: dst, t :: src => ptrit_fill p t :: ptrits_fill n dst src
  | _, _, _ => dst
  end.

Fixpoint ptrits_set_slice (n : nat) (dst : list ptrit_t) (idx : nat) (src : list Z) : list ptrit_t :=
  match n, dst, src with
  | S n, p :: dst, t :: src => ptrit_set p idx t :: ptrits_set_slice n dst idx src
  | _, _, _ => dst
  end.

Fixpoint ptrits_get_slice (n : nat) (dst : list Z) (src : list ptrit_t) (idx : nat) : list Z :=
  match n, dst, src with
  | S n, _ :: dst, p :: src => ptrit_get p idx :: ptrits_get_slice n dst src idx
  | _, _, _ => dst
  end.

(** [__builtin_ctzll] of a non-zero word. *)
Fixpoint ctz (p : positive) : nat :=
  match p with
  | xO p => S (ctz p)
  | _ => O
  end.
Definition CTZ64 (w : Z) : nat := match w with Zpos p => ctz p | _ => O end.

Definition ptrits_find_zero_slice (n : nat) (p : list ptrit_t) : nat :=
  let t := u64 (-1) in
  let t := foldl (fun t p => ANDAND t (low p) (high p)) t (take n p) in
  if t =? 0 then 64%nat else CTZ64 t.

Fixpoint sum_slice_loop (n : nat) (p : list ptrit_t) (idx : nat) (sum : Z) : Z :=
  match n, p with
  | S n, q :: p => sum_slice_loop n p idx (i64 (sum + ptrit_get q idx))
  | _, _ => sum
  end.

Definition ptrits_sum_slice (n : nat) (p : list ptrit_t) (idx : nat) : Z := sum_slice_loop n p idx 0.

(** ** Increments *)

Fixpoint trits_inc (n : nat) (t : list Z) : list Z :=
  match n, t with
  | S n, x :: t => if i8 (x + 1) =? 2 then -1 :: trits_inc n t else i8 (x + 1) :: t
  | _, _ => t
  end.

Fixpoint log3_loop (fuel : nat) (n k g : Z) : option Z :=
  match fuel with
  | O => None
  | S fuel => if g <? n then log3_loop fuel n (k + 1) (u64 (g * 3)) else Some k
  end.

Definition ptrit_log3 (n : Z) : option Z := log3_loop 42 n 0 1.

Fixpoint set_iota_loop (m i n : nat) (range : list ptrit_t) (value : list Z) : list ptrit_t * list Z :=
  match m with
  | O => (range, value)
  | S m => set_iota_loop m (S i) n (ptrits_set_slice n range i value) (trits_inc n value)
  end.

Definition ptrit_set_iota (n : nat) (range : list ptrit_t) (value : list Z) : list ptrit_t * list Z :=
  set_iota_loop PTRIT_SIZE 0 n range value.

(** The returned flag says that all [n] ptrits overflowed; only the first byte of
    the carry is looked at. *)
Fixpoint ptrit_hincr (n : nat) (t : list ptrit_t) : bool * list ptrit_t :=
  match n, t with
  | S n, p :: t =>
      let a := low p in
      let low := XOR (low p) (high p) in
      let high := a in
      let carry := ANDN a low in
      if Z.land carry 255 =? 0 then (false, mk_ptrit low high :: t)
      else let '(o, t) := ptrit_hincr n t in (o, mk_ptrit low high :: t)
  | _, _ => (true, t)
  end.

(** * Bits and trits *)

Definition trit_of_bits (l h : bool) : Z :=
  match l, h with
  | true, false => -1
  | true, true => 0
  | false, true => 1
  | false, false => NaT
  end.

Lemma uwrap_testbit w z i : 0 <= i < w -> Z.testbit (uwrap w z) i = Z.testbit z i.
Proof. intros. apply Z.mod_pow2_bits_low. lia. Qed.

Lemma NOT_testbit x i : 0 <= i < 64 -> Z.testbit (NOT x) i = negb (Z.testbit x i).
Proof. intros. unfold NOT. rewrite uwrap_testbit, Z.lnot_spec by lia. done. Qed.

Lemma land_1_testbit z i : 0 <= i -> Z.land 1 (Z.shiftr z i) = Z.b2z (Z.testbit z i).
Proof.
  intros. rewrite Z.land_comm. change 1 with (Z.ones 1) at 1. rewrite Z.land_ones by lia.
  rewrite <- (Z.add_0_l i) at 2. rewrite <- Z.shiftr_spec by lia. by rewrite Z.bit0_mod.
Qed.

Lemma ptrit_get_bits p i : (i < PTRIT_SIZE)%nat ->
  ptrit_get p i = trit_of_bits (Z.testbit (low p) (Z.of_nat i)) (Z.testbit (high p) (Z.of_nat i)).
Proof.
  unfold PTRIT_SIZE. intros. unfold ptrit_get. rewrite Z.mod_small by lia. rewrite !land_1_testbit by lia.
  by destruct (Z.testbit (low p) _), (Z.testbit (high p) _).
Qed.

Lemma trit_of_bits_inj l h l' h' : trit_of_bits l h = trit_of_bits l' h' -> l = l' /\ h = h'.
Proof. by destruct l, h, l', h'. Qed.

Lemma bits_testbit (i j : nat) b : (i < 64)%nat -> (j < 64)%nat ->
  Z.testbit (u64 (Z.shiftl (Z.b2z b) (Z.of_nat i))) (Z.of_nat j) = b && (i =? j)%nat.
Proof.
  intros. rewrite uwrap_testbit by lia. destruct (Nat.eqb_spec i j) as [->|Hne].
  - rewrite Z.shiftl_spec by lia. rewrite Z.sub_diag. by destruct b.
  - destruct b; cbn [Z.b2z andb]; [|by rewrite Z.shiftl_0_l, Z.bits_0].
    rewrite Z.shiftl_1_l, Z.pow2_bits_false by lia. done.
Qed.

(** The encoding of a trit, as two bits. *)
Lemma cvt_te1_bits t : is_trit t -> exists l h, cvt_te1 t = (Z.b2z l, Z.b2z h) /\ trit_of_bits l h = t.
Proof.
  intros Ht. trit_cases; [exists true, false|exists true, true|exists false, true]; done.
Qed.

Lemma ptrit_get_set p i j t : is_trit t -> (i < PTRIT_SIZE)%nat -> (j < PTRIT_SIZE)%nat ->
  ptrit_get (ptrit_set p i t) j = if (i =? j)%nat then t else ptrit_get p j.
Proof.
  intros Ht Hi Hj. rewrite !ptrit_get_bits by done. unfold PTRIT_SIZE in *.
  destruct (cvt_te1_bits t Ht) as (l & h & E & Et). unfold ptrit_set. rewrite E. cbn [fst snd low high].
  rewrite Z.mod_small by lia. rewrite !Z.lor_spec, !Z.land_spec, !NOT_testbit, !bits_testbit by lia.
  change 1 with (Z.b2z true). rewrite !bits_testbit by lia.
  destruct (Nat.eqb_spec i j) as [->|Hne]; cbn [andb negb].
  - rewrite !andb_false_r, !andb_true_r. done.
  - by rewrite !andb_true_r, !andb_false_r, !orb_false_r.
Qed.

Lemma ptrit_get_fill p j t : is_trit t -> (j < PTRIT_SIZE)%nat -> ptrit_get (ptrit_fill p t) j = t.
Proof.
  intros Ht Hj. rewrite ptrit_get_bits by done. unfold PTRIT_SIZE in *.
  assert (forall i, 0 <= i < 64 -> Z.testbit (u64 (-1)) i = true) as Hm.
  { intros. rewrite uwrap_testbit by done. apply Z.bits_m1. lia. }
  unfold ptrit_fill. trit_cases; cbn [cvt_te1 fst snd low high].
  all: repeat match goal with |- context [cvt_te1 ?t] => let v := eval vm_compute in (cvt_te1 t) in change (cvt_te1 t) with v end.
  all: cbn [fst snd low high]; change (0 - 1) with (-1); change (u64 (0 - 0)) with 0.
  all: rewrite ?Hm, ?Z.bits_0 by lia; done.
Qed.

(** ** Slices *)

Definition slice (i : nat) (ps : list ptrit_t) : list Z := map (fun p => ptrit_get p i) ps.

Lemma slice_app i ps qs : slice i (ps ++ qs) = slice i ps ++ slice i qs.
Proof. apply List.map_app. Qed.

Lemma slice_take i n ps : slice i (take n ps) = take n (slice i ps).
Proof. symmetry. apply firstn_map. Qed.

Lemma slice_drop i n ps : slice i (drop n ps) = drop n (slice i ps).
Proof. symmetry. apply skipn_map. Qed.

Lemma length_slice i ps : length (slice i ps) = length ps.
Proof. apply length_map. Qed.

Lemma slice_fill n dst src i : trits_ok src -> (i < PTRIT_SIZE)%nat ->
  (n <= length dst)%nat -> (n <= length src)%nat ->
  slice i (ptrits_fill n dst src) = take n src ++ drop n (slice i dst).
Proof.
  intros Hs Hi. revert dst src Hs. induction n as [|n IH]; intros [|p dst] [|t src] Hs Hd Hl; simpl in Hd, Hl;
    try lia; try done. inv_trits. cbn [ptrits_fill slice map take drop app].
  rewrite ptrit_get_fill by done. f_equal. apply IH; (done || lia).
Qed.

Lemma slice_set n dst src i j : trits_ok src -> (i < PTRIT_SIZE)%nat -> (j < PTRIT_SIZE)%nat ->
  (n <= length dst)%nat -> (n <= length src)%nat ->
  slice j (ptrits_set_slice n dst i src) =
    if (i =? j)%nat then take n src ++ drop n (slice j dst) else slice j dst.
Proof.
  intros Hs Hi Hj. revert dst src Hs. induction n as [|n IH]; intros [|p dst] [|t src] Hs Hd Hl; simpl in Hd, Hl;
    try lia; try (by destruct (i =? j)%nat). inv_trits. cbn [ptrits_set_slice slice map take drop app].
  rewrite ptrit_get_set by done. unfold slice in IH. rewrite IH by (done || lia).
  by destruct (i =? j)%nat.
Qed.

Lemma length_set_slice n dst src i : length (ptrits_set_slice n dst i src) = length dst.
Proof. revert dst src. induction n as [|n IH]; intros [|p dst] [|t src]; cbn; auto. Qed.

Lemma length_fill n dst src : length (ptrits_fill n dst src) = length dst.
Proof. revert dst src. induction n as [|n IH]; intros [|p dst] [|t src]; cbn; auto. Qed.

Lemma get_slice_eq n dst src i : (n <= length dst)%nat -> (n <= length src)%nat ->
  ptrits_get_slice n dst src i = take n (slice i src) ++ drop n dst.
Proof.
  revert dst src. induction n as [|n IH]; intros [|t dst] [|p src] Hd Hs; simpl in Hd, Hs; try lia; try done.
  cbn [ptrits_get_slice slice map take drop app]. f_equal. apply IH; lia.
Qed.

(** ** The search for a zero slice *)

Definition word (z : Z) : Prop := 0 <= z < 2 ^ 64.

Lemma word_high z i : word z -> 64 <= i -> Z.testbit z i = false.
Proof.
  intros [Hl Hh] Hi. destruct (Z.eq_dec z 0) as [->|]; [apply Z.bits_0|].
  apply Z.bits_above_log2; [done|]. apply Z.lt_le_trans with 64; [|done]. apply Z.log2_lt_pow2; lia.
Qed.

Lemma word_zero z : word z -> (forall i, 0 <= i < 64 -> Z.testbit z i = false) -> z = 0.
Proof.
  intros Hw Hz. apply Z.bits_inj. intros i. rewrite Z.bits_0.
  destruct (Z.ltb_spec i 0); [by apply Z.testbit_neg_r|].
  destruct (Z.ltb_spec i 64); [apply Hz; lia|by apply word_high].
Qed.

Lemma word_land x y : word x -> word (Z.land x y).
Proof.
  unfold word. intros Hx. split; [apply Z.land_nonneg; lia|].
  destruct (Z.eq_dec (Z.land x y) 0) as [->|Hne]; [lia|].
  assert (0 <= Z.land x y) by (apply Z.land_nonneg; lia).
  apply Z.log2_lt_pow2; [lia|]. destruct (Z.ltb_spec (Z.log2 (Z.land x y)) 64) as [|Hge]; [done|].
  pose proof (Z.bit_log2 (Z.land x y) ltac:(lia)) as Hb. rewrite Z.land_spec in Hb.
  rewrite word_high in Hb by done. done.
Qed.

Definition zero_bit (i : nat) (p : ptrit_t) : bool :=
  Z.testbit (low p) (Z.of_nat i) && Z.testbit (high p) (Z.of_nat i).

Lemma zero_bit_spec i p : (i < PTRIT_SIZE)%nat -> zero_bit i p = true <-> ptrit_get p i = 0.
Proof. intros. rewrite ptrit_get_bits by done. unfold zero_bit. by destruct (Z.testbit _ _), (Z.testbit _ _). Qed.

Lemma zero_mask_spec ps t : word t ->
  let t' := foldl (fun t p => ANDAND t (low p) (high p)) t ps in
  word t' /\ forall i : nat, Z.testbit t' (Z.of_nat i) = Z.testbit t (Z.of_nat i) && forallb (zero_bit i) ps.
Proof.
  revert t. induction ps as [|p ps IH]; intros t Ht; cbv zeta; cbn [foldl forallb].
  - split; [done|]. intros. by rewrite andb_true_r.
  - destruct (IH (ANDAND t (low p) (high p))) as [Hw Hb]; [by apply word_land|]. split; [done|].
    intros i. rewrite Hb. unfold ANDAND, AND, zero_bit. rewrite !Z.land_spec. by rewrite <- !andb_assoc.
Qed.

Lemma CTZ64_spec w : 0 < w -> Z.testbit w (Z.of_nat (CTZ64 w)) = true /\
  forall j, (j < CTZ64 w)%nat -> Z.testbit w (Z.of_nat j) = false.
Proof.
  destruct w as [|p|p]; [lia| |lia]. intros _. cbn [CTZ64]. induction p as [p IH|p IH|]; cbn [ctz].
  - split; [done|lia].
  - rewrite Nat2Z.inj_succ. change (Zpos p~0) with (2 * Zpos p).
    rewrite Z.testbit_even_succ by lia. destruct IH as [IH1 IH2]. split; [done|].
    intros [|j] Hj; [by rewrite Z.testbit_even_0|].
    rewrite Nat2Z.inj_succ, Z.testbit_even_succ by lia. apply IH2. lia.
  - split; [done|lia].
Qed.

Lemma all_ones_word : word (u64 (-1)).
Proof. unfold word. vm_compute. split; [discriminate|reflexivity]. Qed.

Lemma find_zero_slice_le n ps : (ptrits_find_zero_slice n ps <= PTRIT_SIZE)%nat.
Proof.
  unfold ptrits_find_zero_slice. destruct (zero_mask_spec (take n ps) _ all_ones_word) as [Hm _].
  set (t := foldl _ _ _) in *. unfold PTRIT_SIZE. destruct (Z.eqb_spec t 0); [lia|].
  destruct (CTZ64_spec t) as [Ht _]; [unfold word in Hm; lia|].
  destruct (decide (CTZ64 t <= 64)%nat) as [|Hgt]; [done|]. by rewrite word_high in Ht by (done || lia).
Qed.

(** The least slice of zeros, or [PTRIT_SIZE]. *)
Lemma find_zero_slice_spec n ps : (n <= length ps)%nat ->
  let i := ptrits_find_zero_slice n ps in
  (i <= PTRIT_SIZE)%nat /\
  ((i < PTRIT_SIZE)%nat -> Forall (fun t => t = 0) (slice i (take n ps))) /\
  (forall j, (j < i)%nat -> ~ Forall (fun t => t = 0) (slice j (take n ps))).
Proof.
  intros Hn. cbv zeta. unfold ptrits_find_zero_slice.
  destruct (zero_mask_spec (take n ps) _ all_ones_word) as [Hm Hb].
  set (t := foldl _ _ _) in *.
  assert (forall i, (i < PTRIT_SIZE)%nat -> Z.testbit t (Z.of_nat i) = true <->
    Forall (fun t => t = 0) (slice i (take n ps))) as Hs.
  { intros i Hi. rewrite Hb. unfold PTRIT_SIZE in Hi. rewrite uwrap_testbit, Z.bits_m1 by lia. cbn [andb].
    rewrite forallb_forall. unfold slice. rewrite List.Forall_map, List.Forall_forall.
    split; intros H p Hp; apply (zero_bit_spec i p Hi); auto. }
  assert (forall i, (i < PTRIT_SIZE)%nat -> Z.testbit t (Z.of_nat i) = false ->
    ~ Forall (fun t => t = 0) (slice i (take n ps))) as Hs'.
  { intros i Hi E H. apply Hs in H; [congruence|done]. }
  unfold PTRIT_SIZE in *. destruct (Z.eqb_spec t 0) as [E|Hne].
  - split; [lia|]. split; [lia|]. intros j Hj. apply Hs'; [done|]. by rewrite E, Z.bits_0.
  - destruct (CTZ64_spec t) as [Ht Hl]; [unfold word in Hm; lia|].
    assert (CTZ64 t < 64)%nat as Hc.
    { destruct (decide (CTZ64 t < 64)%nat) as [|Hge]; [done|]. rewrite word_high in Ht by (done || lia). done. }
    split; [lia|]. split; [intros _; by apply Hs|]. intros j Hj. apply Hs'; [lia|by apply Hl].
Qed.

(** ** Homogeneous increments *)

(** All 64 slices are the trits [t]. *)
Definition uniform (ps : list ptrit_t) (t : list Z) : Prop :=
  forall i, (i < PTRIT_SIZE)%nat -> slice i ps = t.

Lemma uniform_cons p ps x t : uniform (p :: ps) (x :: t) <->
  (forall i, (i < PTRIT_SIZE)%nat -> ptrit_get p i = x) /\ uniform ps t.
Proof.
  unfold uniform, slice. cbn [map]. split.
  - intros H. split; intros i Hi; by injection (H i Hi).
  - intros [H1 H2] i Hi. by rewrite H1, H2.
Qed.

(** The bits of the incremented ptrit and of the carry. *)
Lemma hincr_bits p i : (i < PTRIT_SIZE)%nat -> is_trit (ptrit_get p i) ->
  let l := XOR (low p) (high p) in
  ptrit_get (mk_ptrit l (low p)) i = (if ptrit_get p i =? 1 then -1 else ptrit_get p i + 1) /\
  Z.testbit (ANDN (low p) l) (Z.of_nat i) = (ptrit_get p i =? 1).
Proof.
  intros Hi Ht. cbv zeta. revert Ht.
  rewrite (ptrit_get_bits p), (ptrit_get_bits (mk_ptrit _ _)) by done. cbn [low high].
  unfold ANDN, AND, XOR, PTRIT_SIZE in *.
  rewrite Z.land_spec, NOT_testbit, !Z.lxor_spec by lia.
  destruct (Z.testbit (low p) _), (Z.testbit (high p) _); cbn; try done.
  intros H. unfold is_trit, NaT in H. lia.
Qed.

Lemma carry_byte z (b : bool) : (forall i, 0 <= i < 8 -> Z.testbit z i = b) -> (Z.land z 255 =? 0) = negb b.
Proof.
  intros H. destruct b.
  - apply Z.eqb_neq. intros E. apply (f_equal (fun x => Z.testbit x 0)) in E.
    rewrite Z.land_spec, H, Z.bits_0 in E by lia. done.
  - apply Z.eqb_eq, Z.bits_inj. intros i. rewrite Z.land_spec, Z.bits_0.
    destruct (Z.ltb_spec i 0); [by rewrite Z.testbit_neg_r|].
    destruct (Z.ltb_spec i 8); [rewrite H by lia; done|].
    change 255 with (Z.ones 8). rewrite Z.ones_spec_high by lia. apply andb_false_r.
Qed.

(** Increment with overflow flag, on the common trits. *)
Fixpoint inc_flag (n : nat) (t : list Z) : bool * list Z :=
  match n, t with
  | S n, x :: t => if x =? 1 then let '(o, t) := inc_flag n t in (o, -1 :: t) else (false, (x + 1) :: t)
  | _, _ => (true, t)
  end.

Lemma hincr_uniform n ps t : trits_ok t -> uniform ps t ->
  (ptrit_hincr n ps).1 = (inc_flag n t).1 /\ uniform (ptrit_hincr n ps).2 (inc_flag n t).2.
Proof.
  assert (forall ps t, uniform ps t -> length ps = length t) as Hlen.
  { intros ps' t' H. rewrite <- (H 0%nat) by (unfold PTRIT_SIZE; lia). by rewrite length_slice. }
  revert ps t. induction n as [|n IH]; intros [|p ps] [|x t] Ht Hu; pose proof (Hlen _ _ Hu) as Hl;
    simpl in Hl; try lia; [done..|].
  apply uniform_cons in Hu as [Hx Hu]. inv_trits. cbn [ptrit_hincr inc_flag].
  assert (forall i, (i < PTRIT_SIZE)%nat ->
    ptrit_get (mk_ptrit (XOR (low p) (high p)) (low p)) i = (if x =? 1 then -1 else x + 1) /\
    Z.testbit (ANDN (low p) (XOR (low p) (high p))) (Z.of_nat i) = (x =? 1)) as Hb.
  { intros i Hi. pose proof (hincr_bits p i Hi) as H1. cbv zeta in H1. rewrite Hx in H1 by done. auto. }
  rewrite (carry_byte _ (x =? 1)).
  2: { intros i Hi. rewrite <- (Z2Nat.id i) by lia. apply Hb. unfold PTRIT_SIZE. lia. }
  destruct (x =? 1); cbn [negb].
  - destruct (IH ps t) as [E1 E2]; [done..|]. destruct (ptrit_hincr n ps), (inc_flag n t). cbn [fst snd] in *.
    split; [done|]. apply uniform_cons. split; [intros; by apply Hb|done].
  - split; [done|]. apply uniform_cons. split; [intros; by apply Hb|done].
Qed.

Lemma inc_flag_spec n t : trits_ok t -> (n <= length t)%nat ->
  let '(o, t') := inc_flag n t in
  trits_ok t' /\ length t' = length t /\ drop n t' = drop n t /\
  bal (take n t') + (if o then 3 ^ Z.of_nat n else 0) = bal (take n t) + 1.
Proof.
  revert t. induction n as [|n IH]; intros t Ht Hl; cbn [inc_flag].
  { split_and!; try done. }
  destruct t as [|x t]; [simpl in Hl; lia|]. inv_trits. destruct (Z.eqb_spec x 1) as [->|Hne].
  - specialize (IH t ltac:(done) ltac:(simpl in Hl; lia)). destruct (inc_flag n t) as [o t'].
    destruct IH as (H1 & H2 & H3 & H4). split_and!.
    + apply Forall_cons_iff. split; [unfold is_trit; lia|done].
    + cbn [length]. lia.
    + by cbn [drop].
    + cbn [take bal]. rewrite pow3_S. destruct o; lia.
  - unfold is_trit in *. split_and!; try done.
    + apply Forall_cons_iff. split; [unfold is_trit; lia|done].
    + cbn [take bal]. lia.
Qed.

(** ** Consecutive values *)

Lemma trits_inc_flag n t : trits_ok t -> trits_inc n t = (inc_flag n t).2.
Proof.
  revert t. induction n as [|n IH]; intros [|x t] Ht; try done. inv_trits. cbn [trits_inc inc_flag].
  rewrite IH by done. unfold is_trit in *. rewrite swrap_small by lia.
  destruct (Z.eqb_spec (x + 1) 2), (Z.eqb_spec x 1); try lia; [|done].
  by destruct (inc_flag n t).
Qed.

Lemma iter_inc n t m : trits_ok t -> (n <= length t)%nat ->
  let t' := Nat.iter m (trits_inc n) t in
  trits_ok t' /\ length t' = length t /\ drop n t' = drop n t /\
  exists k, 0 <= k /\ bal (take n t') + 3 ^ Z.of_nat n * k = bal (take n t) + Z.of_nat m.
Proof.
  intros Ht Hl. cbv zeta. induction m as [|m (IH1 & IH2 & IH3 & k & Hk & IH4)].
  - split_and!; try done. exists 0. cbn [Nat.iter nat_rect]. lia.
  - cbn [Nat.iter nat_rect]. set (t1 := Nat.iter m _ t) in *. change (nat_rect _ t _ m) with t1.
    rewrite trits_inc_flag by done. pose proof (inc_flag_spec n t1 IH1 ltac:(lia)) as H.
    destruct (inc_flag n t1) as [o t']. destruct H as (H1 & H2 & H3 & H4). cbn [snd].
    split_and!; [done|lia|by rewrite H3|].
    destruct o; [exists (k + 1)|exists k]; lia.
Qed.

(** Slice [i] of the range holds the [i]-th value. *)
Lemma set_iota_spec m i n range value : trits_ok value -> (n <= length value)%nat -> (n <= length range)%nat ->
  (i + m <= PTRIT_SIZE)%nat ->
  let '(range', value') := set_iota_loop m i n range value in
  value' = Nat.iter m (trits_inc n) value /\ length range' = length range /\
  (forall j, (j < PTRIT_SIZE)%nat -> slice j range' =
    if ((i <=? j) && (j <? i + m))%nat
    then take n (Nat.iter (j - i) (trits_inc n) value) ++ drop n (slice j range)
    else slice j range).
Proof.
  revert i range value. induction m as [|m IH]; intros i range value Hv Hnv Hnr Hi; cbn [set_iota_loop].
  { split_and!; try done. intros j Hj. destruct (Nat.leb_spec i j), (Nat.ltb_spec j (i + 0)); try done; lia. }
  destruct (iter_inc n value 1 Hv Hnv) as (Hv1 & Hl1 & _). cbn [Nat.iter nat_rect] in Hv1, Hl1.
  specialize (IH (S i) (ptrits_set_slice n range i value) (trits_inc n value) Hv1 ltac:(lia)).
  rewrite length_set_slice in IH. specialize (IH ltac:(lia) ltac:(lia)).
  destruct (set_iota_loop m (S i) _ _ _) as [range' value']. destruct IH as (-> & Hlr & Hs).
  split_and!; [by rewrite Nat.iter_succ_r|done|]. intros j Hj. rewrite Hs by done.
  rewrite !slice_set by (done || lia). destruct (Nat.eqb_spec i j) as [->|Hne].
  - replace (S j <=? j)%nat with false by (symmetry; apply Nat.leb_gt; lia).
    replace (j <=? j)%nat with true by (symmetry; apply Nat.leb_le; lia).
    replace (j <? j + S m)%nat with true by (symmetry; apply Nat.ltb_lt; lia). by rewrite Nat.sub_diag.
  - destruct (Nat.leb_spec (S i) j), (Nat.leb_spec i j); try lia; cbn [andb]; [|done].
    replace (j <? i + S m)%nat with (j <? S i + m)%nat by (f_equal; lia).
    destruct (j <? S i + m)%nat; [|done]. f_equal. f_equal.
    replace (j - i)%nat with (S (j - S i))%nat by lia. by rewrite Nat.iter_succ_r.
Qed.

(** ** Sums *)

Lemma zsum_bound ts : trits_ok ts -> Z.abs (zsum ts) <= Z.of_nat (length ts).
Proof.
  induction 1 as [|t ts Ht _ IH]; [done|]. unfold zsum in *. cbn [foldr length]. unfold is_trit in Ht. lia.
Qed.

Lemma sum_slice_spec n ps i sum : (n <= length ps)%nat -> trits_ok (take n (slice i ps)) ->
  Z.abs sum + Z.of_nat n <= INT64_MAX -> sum_slice_loop n ps i sum = sum + zsum (take n (slice i ps)).
Proof.
  unfold INT64_MAX. revert ps sum. induction n as [|n IH]; intros [|p ps] sum Hl Ht Hs; simpl in Hl; try lia;
    cbn [sum_slice_loop slice map take]; [cbn; lia..|].
  cbn [slice map take] in Ht. inv_trits. unfold zsum. cbn [foldr].
  pose proof H as Hp. unfold is_trit in Hp. rewrite swrap_small by lia. rewrite IH by (done || lia).
  unfold zsum, slice. lia.
Qed.

(** ** Logarithms *)

Lemma log3_loop_spec fuel n k : 1 <= n <= 3 ^ 40 -> (k + fuel = 42)%nat -> (k <= 40)%nat ->
  (forall j, (j < k)%nat -> 3 ^ Z.of_nat j < n) ->
  exists r : nat, log3_loop fuel n (Z.of_nat k) (3 ^ Z.of_nat k) = Some (Z.of_nat r) /\
    n <= 3 ^ Z.of_nat r /\ forall j, (j < r)%nat -> 3 ^ Z.of_nat j < n.
Proof.
  intros Hn. revert k. induction fuel as [|fuel IH]; intros k Hf Hk Hlt; [lia|]. cbn [log3_loop].
  destruct (Z.ltb_spec (3 ^ Z.of_nat k) n) as [Hg|Hg]; [|by exists k].
  destruct (decide (k = 40%nat)) as [->|Hk']; [change (Z.of_nat 40) with 40 in Hg; lia|].
  rewrite uwrap_small.
  - replace (Z.of_nat k + 1) with (Z.of_nat (S k)) by lia.
    replace (3 ^ Z.of_nat k * 3) with (3 ^ Z.of_nat (S k)) by (rewrite pow3_S; lia).
    apply IH; [lia|lia|]. intros j Hj. destruct (decide (j = k)) as [->|]; [done|]. apply Hlt. lia.
  - pose proof (pow3_pos k). split; [lia|].
    apply Z.le_lt_trans with (3 ^ 40); [|by vm_compute].
    replace (3 ^ Z.of_nat k * 3) with (3 ^ Z.of_nat (S k)) by (rewrite pow3_S; lia).
    apply Z.pow_le_mono_r; lia.
Qed.

(** * Properties *)

(** An array of ptrits is 64 arrays of trits: reading slice [j] after slice
    [i] was written gives what was written, or what was there before when
    [j <> i], and filling writes every slice. *)
Theorem ptrits_refine_slices n dst src out i j : trits_ok src -> (i < PTRIT_SIZE)%nat -> (j < PTRIT_SIZE)%nat ->
  length dst = n -> length src = n -> length out = n ->
  ptrits_get_slice n out (ptrits_set_slice n dst i src) j =
    (if (i =? j)%nat then src else ptrits_get_slice n out dst j) /\
  ptrits_get_slice n out (ptrits_fill n dst src) j = src.
Proof.
  intros Hs Hi Hj Hd Hl Ho.
  rewrite !get_slice_eq by (rewrite ?length_set_slice, ?length_fill; lia).
  rewrite slice_set, slice_fill by (done || lia).
  rewrite !(drop_ge out), !(drop_ge (slice j dst)), (take_ge src), !app_nil_r by (rewrite ?length_slice; lia).
  split; [|by rewrite take_ge by lia]. destruct (i =? j)%nat; [|done]. by rewrite take_ge by lia.
Qed.

Lemma ptrits_refine_slices_witness :
  let dst := [mk_ptrit 0 0; mk_ptrit 5 7] in
  ptrits_get_slice 2 [9; 9] (ptrits_set_slice 2 dst 63 [-1; 1]) 63 = (if (63 =? 63)%nat then [-1; 1] else ptrits_get_slice 2 [9; 9] dst 63) /\
  ptrits_get_slice 2 [9; 9] (ptrits_fill 2 dst [-1; 1]) 63 = [-1; 1].
Proof.
  cbv zeta. apply (ptrits_refine_slices 2 [mk_ptrit 0 0; mk_ptrit 5 7] [-1; 1] [9; 9] 63 63);
    [closed_decide|apply Nat.ltb_lt; reflexivity|apply Nat.ltb_lt; reflexivity|reflexivity|reflexivity|reflexivity].
Defined.

(** [ptrits_find_zero_slice] gives the least slice whose [n] trits are all
    zero, and [PTRIT_SIZE] when there is none. *)
Theorem find_zero_slice_least n ps : (n <= length ps)%nat ->
  let i := ptrits_find_zero_slice n ps in
  (i <= PTRIT_SIZE)%nat /\
  ((i < PTRIT_SIZE)%nat -> forall k p, (k < n)%nat -> ps !! k = Some p -> ptrit_get p i = 0) /\
  (forall j, (j < i)%nat -> exists k p, (k < n)%nat /\ ps !! k = Some p /\ ptrit_get p j <> 0).
Proof.
  intros Hn. destruct (find_zero_slice_spec n ps Hn) as (H1 & H2 & H3). cbv zeta. split_and!; [done| |].
  - intros Hi k p Hk Hp. specialize (H2 Hi). rewrite Forall_lookup in H2. apply (H2 k).
    unfold slice. rewrite list_lookup_fmap. by rewrite lookup_take_lt, Hp.
  - intros j Hj. specialize (H3 j Hj). apply not_Forall_Exists in H3; [|apply _].
    apply Exists_exists in H3 as (t & Ht & Hne). apply in_map_iff in Ht as (p & <- & Hp).
    apply list_elem_of_In, list_elem_of_lookup in Hp as (k & E).
    apply lookup_take_Some in E as [E Hkn]. by exists k, p.
Qed.

Lemma find_zero_slice_least_witness :
  let ps := [mk_ptrit 12 14; mk_ptrit 8 28] in
  ptrits_find_zero_slice 2 ps = 3%nat /\ ptrit_get (mk_ptrit 8 28) 3 = 0.
Proof.
  cbv zeta. split; [vm_compute; reflexivity|].
  apply (proj1 (proj2 (find_zero_slice_least 2 [mk_ptrit 12 14; mk_ptrit 8 28] ltac:(reflexivity))) ltac:(vm_compute; lia) 1%nat);
    [lia|reflexivity].
Defined.

(** On ptrits all of whose slices are the same trits, [ptrit_hincr] adds one
    to every slice, and reports an overflow exactly when the trits wrap around. *)
Theorem ptrit_hincr_increments ps t : trits_ok t -> uniform ps t ->
  let '(o, ps') := ptrit_hincr (length ps) ps in
  exists t', uniform ps' t' /\ trits_ok t' /\ length t' = length t /\
    bal t' + (if o then 3 ^ Z.of_nat (length t) else 0) = bal t + 1.
Proof.
  intros Ht Hu. assert (length ps = length t) as Hl.
  { rewrite <- (Hu 0%nat) by (unfold PTRIT_SIZE; lia). by rewrite length_slice. }
  destruct (hincr_uniform (length ps) ps t Ht Hu) as [E1 E2]. rewrite Hl in *.
  pose proof (inc_flag_spec (length t) t Ht ltac:(lia)) as H.
  destruct (ptrit_hincr (length t) ps) as [o ps'], (inc_flag (length t) t) as [o' t']. cbn [fst snd] in *. subst o'.
  destruct H as (H1 & H2 & _ & H4). exists t'. rewrite !take_ge in H4 by lia. done.
Qed.

Lemma ptrit_hincr_increments_witness :
  let ps := [mk_ptrit 0 (2 ^ 64 - 1); mk_ptrit (2 ^ 64 - 1) 0] in
  let '(o, ps') := ptrit_hincr (length ps) ps in
  exists t', uniform ps' t' /\ trits_ok t' /\ length t' = length [1; -1] /\
    bal t' + (if o then 3 ^ Z.of_nat (length [1; -1]) else 0) = bal [1; -1] + 1.
Proof.
  cbv zeta. apply ptrit_hincr_increments; [closed_decide|]. intros i Hi. unfold PTRIT_SIZE in Hi.
  do 64 (destruct i as [|i]; [reflexivity|]). lia.
Defined.

(** [ptrit_set_iota] writes [value + i] into slice [i], and leaves [value]
    increased by 64, both modulo [3^n]; different slices hold different values
    when [n] is at least [ptrit_log3(64)]. *)
Theorem ptrit_set_iota_consecutive n range value : trits_ok value -> (n <= length value)%nat -> length range = n ->
  let '(range', value') := ptrit_set_iota n range value in
  length range' = n /\ trits_ok value' /\
  (3 ^ Z.of_nat n | bal (take n value) + 64 - bal (take n value')) /\
  (forall i, (i < PTRIT_SIZE)%nat -> trits_ok (slice i range') /\
     (3 ^ Z.of_nat n | bal (take n value) + Z.of_nat i - bal (slice i range'))) /\
  (forall k i j, ptrit_log3 64 = Some (Z.of_nat k) -> (k <= n)%nat -> (i < PTRIT_SIZE)%nat -> (j < PTRIT_SIZE)%nat ->
     slice i range' = slice j range' -> i = j).
Proof.
  intros Hv Hn Hr. unfold ptrit_set_iota.
  pose proof (set_iota_spec PTRIT_SIZE 0 n range value Hv Hn ltac:(lia) ltac:(lia)) as H.
  destruct (set_iota_loop _ _ _ _ _) as [range' value']. destruct H as (-> & Hl & Hs).
  assert (forall i, (i < PTRIT_SIZE)%nat -> trits_ok (slice i range') /\
    exists q, bal (take n value) + Z.of_nat i - bal (slice i range') = q * 3 ^ Z.of_nat n) as Hi.
  { intros i Hi. rewrite Hs by done. replace ((0 <=? i)%nat && (i <? 0 + PTRIT_SIZE)%nat) with true
      by (symmetry; apply andb_true_intro; split; [by apply Nat.leb_le; lia|by apply Nat.ltb_lt]).
    rewrite (drop_ge (slice i range)), app_nil_r, Nat.sub_0_r by (rewrite length_slice; lia).
    destruct (iter_inc n value i Hv Hn) as (H1 & _ & _ & k & _ & H4).
    split; [by apply Forall_take|]. exists k. lia. }
  split_and!.
  - lia.
  - by apply iter_inc.
  - destruct (iter_inc n value PTRIT_SIZE Hv Hn) as (_ & _ & _ & k & _ & H4). exists k.
    change (Z.of_nat PTRIT_SIZE) with 64 in H4. lia.
  - intros i Hi'. destruct (Hi i Hi') as [? [q Hq]]. split; [done|]. by exists q.
  - intros k i j Hk Hkn Hi1 Hj1 E. destruct (Hi i Hi1) as [_ [q1 E1]], (Hi j Hj1) as [_ [q2 E2]].
    rewrite E in E1. change (ptrit_log3 64) with (Some 4) in Hk. injection Hk as Hk. assert (k = 4%nat) as -> by lia.
    assert (81 <= 3 ^ Z.of_nat n) by (change 81 with (3 ^ 4); apply Z.pow_le_mono_r; lia).
    assert (Z.of_nat i - Z.of_nat j = (q1 - q2) * 3 ^ Z.of_nat n) as Hd by lia.
    unfold PTRIT_SIZE in *. destruct (Z.eq_dec (q1 - q2) 0) as [E0|]; [rewrite E0 in Hd; lia|nia].
Qed.

Lemma ptrit_set_iota_consecutive_witness :
  let '(range', value') := ptrit_set_iota 4 (replicate 4 (mk_ptrit 0 0)) (replicate 6 (-1)) in
  length range' = 4%nat /\ trits_ok value' /\
  (3 ^ Z.of_nat 4 | bal (take 4 (replicate 6 (-1))) + 64 - bal (take 4 value')) /\
  (forall i, (i < PTRIT_SIZE)%nat -> trits_ok (slice i range') /\
     (3 ^ Z.of_nat 4 | bal (take 4 (replicate 6 (-1))) + Z.of_nat i - bal (slice i range'))) /\
  (forall k i j, ptrit_log3 64 = Some (Z.of_nat k) -> (k <= 4)%nat -> (i < PTRIT_SIZE)%nat -> (j < PTRIT_SIZE)%nat ->
     slice i range' = slice j range' -> i = j).
Proof.
  apply ptrit_set_iota_consecutive; [closed_decide|apply Nat.leb_le; reflexivity|reflexivity].
Defined.
