(* ===== verification/PCurl.v ===== *)
(** * Parallel Curl

    [common/crypto/curl-p/ptrit.c]: 64 Curl sponges at once on parallel trits, in
    the configuration [PCURL_STATE_SHORT] with [PCURL_SBOX_UNWIND_2].  The state is
    an array of three half states; a pointer into it is an index.  The S-box
    works in place, with pointers that run against each other; it is verified by
    running it on a symbolic array. *)
From S2P Require Import Prelude Sponge Curl PTrit.

Definition CURL_RATE : nat := 243.
Definition CURL_STATE_SIZE : nat := 3 * CURL_RATE.
Definition CURL_STATE_HALF_SIZE : nat := (CURL_STATE_SIZE + 1) / 2.
Definition PCURL_LENGTH : nat := 3 * (CURL_STATE_SIZE + 1) / 2.

Record pcurl_t := mk_pcurl { p_state : list ptrit_t; round_count : nat }.

(** ** The S-box *)

Definition null_ptrit : ptrit_t := mk_ptrit 0 0.
Definition cell (st : list ptrit_t) (p : nat) : ptrit_t := nth p st null_ptrit.

(** The two words are written one after the other. *)
Definition pcurl_s2 (a b c : nat) (st : list ptrit_t) : list ptrit_t :=
  let l := XORANDN (high (cell st a)) (low (cell st b)) (low (cell st a)) in
  let st := <[c := mk_ptrit l (high (cell st c))]> st in
  let h := XORAND (low (cell st a)) (high (cell st b)) (low (cell st c)) in
  <[c := mk_ptrit (low (cell st c)) h]> st.

(** [n] times [pcurl_s2(x, y, z); pcurl_s2(y, x, z)], where a pointer is moved
    after each use as first or third argument: by [S] for [++], by [pred] for
    [--].  Returns the pointers and the state. *)
Fixpoint sbox_loop (dx dy dz : nat -> nat) (n x y z : nat) (st : list ptrit_t)
    : (nat * nat * nat) * list ptrit_t :=
  match n with
  | O => ((x, y, z), st)
  | S n =>
      let st := pcurl_s2 x y z st in
      let x := dx x in
      let z := dz z in
      let st := pcurl_s2 y x z st in
      let y := dy y in
      let z := dz z in
      sbox_loop dx dy dz n x y z st
  end.

Definition pcurl_sbox_0 (a b c : nat) (st : list ptrit_t) : list ptrit_t :=
  let a := (a + CURL_STATE_HALF_SIZE - 1)%nat in
  let b := (b + CURL_STATE_HALF_SIZE - 1)%nat in
  let c := (c + 0)%nat in
  let aa := a in
  let c0 := c in
  let st := pcurl_s2 b a c st in
  let b := pred b in
  let c := S c in
  let '((a, b, c), st) := sbox_loop pred pred S (CURL_STATE_SIZE / 4) a b c st in
  let '((a, b, aa), st) := sbox_loop pred pred pred (CURL_STATE_SIZE / 4) a b aa st in
  <[aa := cell st c0]> st.

Definition pcurl_sbox_1 (a b c : nat) (st : list ptrit_t) : list ptrit_t :=
  let c := (c + CURL_STATE_HALF_SIZE - 1)%nat in
  let a := (a + 0)%nat in
  let b := (b + CURL_STATE_HALF_SIZE - 1)%nat in
  let cc := c in
  let b0 := b in
  let st := pcurl_s2 a c b st in
  let a := S a in
  let b := pred b in
  let '((c, a, b), st) := sbox_loop pred S pred (CURL_STATE_SIZE / 4) c a b st in
  let '((c, a, cc), st) := sbox_loop pred S pred (CURL_STATE_SIZE / 4) c a cc st in
  <[cc := cell st b0]> st.

Definition pcurl_sbox_2 (a b c : nat) (st : list ptrit_t) : list ptrit_t :=
  let b := (b + 0)%nat in
  let c := (c + 0)%nat in
  let a := (a + 0)%nat in
  let bb := b in
  let a0 := a in
  let st := pcurl_s2 c b a st in
  let c := S c in
  let a := S a in
  let '((b, c, a), st) := sbox_loop S S S (CURL_STATE_SIZE / 4) b c a st in
  let '((b, c, bb), st) := sbox_loop S S S (CURL_STATE_SIZE / 4) b c bb st in
  <[bb := cell st a0]> st.

Definition pcurl_three_rounds (a b c : nat) (st : list ptrit_t) : list ptrit_t :=
  let st := pcurl_sbox_0 a b c st in
  let st := pcurl_sbox_1 a b c st in
  pcurl_sbox_2 a b c st.

Definition pcurl_transform (ctx : pcurl_t) : pcurl_t :=
  let a := 0%nat in
  let b := (a + CURL_STATE_HALF_SIZE)%nat in
  let c := (b + CURL_STATE_HALF_SIZE)%nat in
  let st := <[(b + CURL_STATE_HALF_SIZE - 1)%nat := cell (p_state ctx) a]> (p_state ctx) in
  mk_pcurl (Nat.iter (round_count ctx / 3) (pcurl_three_rounds a b c) st) (round_count ctx).

(** ** The sponge *)

(** [memset_safe(ctx->state, sizeof(ctx->state), -1, sizeof(ctx->state))] *)
Definition pcurl_reset (ctx : pcurl_t) : pcurl_t :=
  mk_pcurl (replicate PCURL_LENGTH (mk_ptrit (u64 (-1)) (u64 (-1)))) (round_count ctx).

Definition pcurl_init (ctx : pcurl_t) (rounds : nat) : pcurl_t :=
  mk_pcurl (p_state (pcurl_reset ctx)) rounds.

(** Full blocks, then what is left, if anything. *)
Definition pcurl_absorb (ctx : pcurl_t) (ptrits : list ptrit_t) : pcurl_t :=
  foldl (fun ctx block => pcurl_transform (mk_pcurl (buf_write 0 block (p_state ctx)) (round_count ctx)))
    ctx (chunks CURL_RATE ptrits).

Fixpoint pcurl_squeeze_loop (n : nat) (ctx : pcurl_t) : list ptrit_t * pcurl_t :=
  match n with
  | O => ([], ctx)
  | S n =>
      let out := take CURL_RATE (p_state ctx) in
      let '(rest, ctx) := pcurl_squeeze_loop n (pcurl_transform ctx) in
      (out ++ rest, ctx)
  end.

Definition pcurl_squeeze (ctx : pcurl_t) (length : nat) : list ptrit_t * pcurl_t :=
  let '(out, ctx) := pcurl_squeeze_loop (length / CURL_RATE) ctx in
  let length := (length mod CURL_RATE)%nat in
  if (0 <? length)%nat then (out ++ take length (p_state ctx), pcurl_transform ctx) else (out, ctx).

Definition pcurl_get_hash (ctx : pcurl_t) : list ptrit_t * pcurl_t :=
  (take CURL_RATE (p_state ctx), pcurl_reset ctx).

Definition pcurl_hash_data (ctx : pcurl_t) (data : list ptrit_t) : list ptrit_t * pcurl_t :=
  let ctx := pcurl_reset ctx in
  let ctx := pcurl_absorb ctx data in
  pcurl_get_hash ctx.

(** * The S-box as a sequence of operations *)

Inductive op := S2 (a b c : nat) | Cp (src dst : nat).

Definition exec (st : list ptrit_t) (o : op) : list ptrit_t :=
  match o with
  | S2 a b c => pcurl_s2 a b c st
  | Cp src dst => <[dst := cell st src]> st
  end.

Fixpoint loop_ops (dx dy dz : nat -> nat) (n x y z : nat) : (nat * nat * nat) * list op :=
  match n with
  | O => ((x, y, z), [])
  | S n =>
      let '(r, ops) := loop_ops dx dy dz n (dx x) (dy y) (dz (dz z)) in
      (r, S2 x y z :: S2 y (dx x) (dz z) :: ops)
  end.

Lemma sbox_loop_ops dx dy dz n x y z st :
  sbox_loop dx dy dz n x y z st =
    ((loop_ops dx dy dz n x y z).1, foldl exec st (loop_ops dx dy dz n x y z).2).
Proof.
  revert x y z st. induction n as [|n IH]; intros x y z st; [done|]. cbn [sbox_loop loop_ops].
  rewrite IH. by destruct (loop_ops dx dy dz n (dx x) (dy y) (dz (dz z))).
Qed.

Definition ops_0 (a b c : nat) : list op :=
  let a := (a + CURL_STATE_HALF_SIZE - 1)%nat in
  let b := (b + CURL_STATE_HALF_SIZE - 1)%nat in
  let '((a', b', _), l1) := loop_ops pred pred S (CURL_STATE_SIZE / 4) a (pred b) (S c) in
  let '((_, _, aa), l2) := loop_ops pred pred pred (CURL_STATE_SIZE / 4) a' b' a in
  S2 b a c :: l1 ++ l2 ++ [Cp c aa].

Definition ops_1 (a b c : nat) : list op :=
  let c := (c + CURL_STATE_HALF_SIZE - 1)%nat in
  let b := (b + CURL_STATE_HALF_SIZE - 1)%nat in
  let '((c', a', _), l1) := loop_ops pred S pred (CURL_STATE_SIZE / 4) c (S a) (pred b) in
  let '((_, _, cc), l2) := loop_ops pred S pred (CURL_STATE_SIZE / 4) c' a' c in
  S2 a c b :: l1 ++ l2 ++ [Cp b cc].

Definition ops_2 (a b c : nat) : list op :=
  let '((b', c', _), l1) := loop_ops S S S (CURL_STATE_SIZE / 4) b (S c) (S a) in
  let '((_, _, bb), l2) := loop_ops S S S (CURL_STATE_SIZE / 4) b' c' b in
  S2 c b a :: l1 ++ l2 ++ [Cp a bb].

Ltac sbox_ops :=
  unfold pcurl_sbox_0, pcurl_sbox_1, pcurl_sbox_2, ops_0, ops_1, ops_2; cbv zeta; rewrite ?Nat.add_0_r;
  repeat (rewrite sbox_loop_ops;
          match goal with |- context [loop_ops ?dx ?dy ?dz ?n ?x ?y ?z] =>
            destruct (loop_ops dx dy dz n x y z) as [[[? ?] ?] ?] end; cbn [fst snd]);
  cbn [foldl]; rewrite !foldl_app; cbn [foldl exec]; reflexivity.

Lemma sbox_0_ops a b c st : pcurl_sbox_0 a b c st = foldl exec st (ops_0 a b c).
Proof. sbox_ops. Qed.

Lemma sbox_1_ops a b c st : pcurl_sbox_1 a b c st = foldl exec st (ops_1 a b c).
Proof. sbox_ops. Qed.

Lemma sbox_2_ops a b c st : pcurl_sbox_2 a b c st = foldl exec st (ops_2 a b c).
Proof. sbox_ops. Qed.

(** ** Running it on symbols *)

(** A cell holds trit [n] of the state before, or trit [k] of the state after. *)
Inductive sym := Old (n : Z) | New (k : Z) | Junk.

(** After one application, trit [k] comes from the trits [364 k] and [364 (k+1)]. *)
Definition new_of (i j : Z) : sym :=
  if j =? (i + 364) mod 729 then New ((1458 - 2 * i) mod 729) else Junk.

Definition aexec (m : list sym) (o : op) : option (list sym) :=
  match o with
  | S2 a b c =>
      if (c =? a)%nat || (c =? b)%nat || negb (c <? length m)%nat then None else
      match nth a m Junk, nth b m Junk with
      | Old i, Old j => Some (<[c := new_of i j]> m)
      | _, _ => None
      end
  | Cp src dst => if (dst <? length m)%nat then Some (<[dst := nth src m Junk]> m) else None
  end.

Fixpoint arun (m : list sym) (ops : list op) : option (list sym) :=
  match ops with
  | [] => Some m
  | o :: ops => match aexec m o with Some m => arun m ops | None => None end
  end.

(** What a symbol says of the contents of a cell. *)
Definition conc (old new : list ptrit_t) (s : sym) (p : ptrit_t) : Prop :=
  match s with
  | Old n => 0 <= n < 729 /\ p = nth (Z.to_nat n) old null_ptrit
  | New k => 0 <= k < 729 /\ p = nth (Z.to_nat k) new null_ptrit
  | Junk => True
  end.

(** The parallel S-box, without its memory. *)
Definition s2 (a b : ptrit_t) : ptrit_t :=
  let l := XORANDN (high a) (low b) (low a) in mk_ptrit l (XORAND (low a) (high b) l).

Definition psbox (s : list ptrit_t) : list ptrit_t :=
  map (fun i => s2 (nth (Z.to_nat (nth i CURL_INDEX 0)) s null_ptrit)
                   (nth (Z.to_nat (nth (i + 1) CURL_INDEX 0)) s null_ptrit))
      (seq 0 STATE_LENGTH).

Lemma pcurl_s2_eq a b c st : c <> a -> c <> b -> (c < length st)%nat ->
  pcurl_s2 a b c st = <[c := s2 (cell st a) (cell st b)]> st.
Proof.
  intros Ha Hb Hc. unfold pcurl_s2. cbv zeta.
  set (l := XORANDN (high (cell st a)) (low (cell st b)) (low (cell st a))).
  set (p := mk_ptrit l (high (cell st c))).
  assert (forall i, cell (<[c := p]> st) i = if (i =? c)%nat then p else cell st i) as Hg.
  { intros i. unfold cell. destruct (Nat.eqb_spec i c) as [->|Hne].
    - apply nth_lookup_Some. apply list_lookup_insert_eq. done.
    - rewrite !nth_lookup. by rewrite list_lookup_insert_ne. }
  rewrite !Hg, Nat.eqb_refl. replace (a =? c)%nat with false by (symmetry; apply Nat.eqb_neq; congruence).
  replace (b =? c)%nat with false by (symmetry; apply Nat.eqb_neq; congruence).
  rewrite list_insert_insert_eq. done.
Qed.

Lemma nth_psbox old k : 0 <= k < 729 -> exists i j, 0 <= i < 729 /\ j = (i + 364) mod 729 /\
  k = (1458 - 2 * i) mod 729 /\
  nth (Z.to_nat k) (psbox old) null_ptrit = s2 (nth (Z.to_nat i) old null_ptrit) (nth (Z.to_nat j) old null_ptrit).
Proof.
  intros Hk. exists ((364 * k) mod 729), ((364 * (k + 1)) mod 729).
  pose proof (Z.mod_pos_bound (364 * k) 729 ltac:(lia)) as Hm. split; [lia|]. split_and!.
  - rewrite Zplus_mod_idemp_l. f_equal. lia.
  - rewrite Zminus_mod, Zmult_mod_idemp_r, <- Zminus_mod.
    replace (1458 - 2 * (364 * k)) with (k + (2 - k) * 729) by lia. rewrite Z.mod_add by lia.
    symmetry. apply Z.mod_small. lia.
  - unfold psbox. rewrite nth_map_seq by (unfold STATE_LENGTH, HASH_LENGTH_TRIT; lia).
    rewrite !CURL_INDEX_spec by (unfold STATE_LENGTH, HASH_LENGTH_TRIT; lia).
    change (Z.of_nat STATE_LENGTH) with 729. rewrite Nat2Z.inj_add, !Z2Nat.id by lia. done.
Qed.

Lemma length_psbox s : length (psbox s) = STATE_LENGTH.
Proof. unfold psbox. by rewrite length_map, length_seq. Qed.

Definition represents (old new : list ptrit_t) (m : list sym) (st : list ptrit_t) : Prop :=
  Forall2 (conc old new) m st.

Lemma represents_cell old new m st p : represents old new m st -> conc old new (nth p m Junk) (cell st p).
Proof.
  unfold represents, cell. intros H. revert p. induction H as [|s q m st Hs H IH]; intros [|p]; cbn; auto.
Qed.

Lemma represents_insert old new m st p s q : represents old new m st -> conc old new s q ->
  represents old new (<[p := s]> m) (<[p := q]> st).
Proof. intros H Hs. by apply Forall2_insert. Qed.

Lemma aexec_sound old m st o m' : represents old (psbox old) m st -> aexec m o = Some m' ->
  represents old (psbox old) m' (exec st o).
Proof.
  intros H E. pose proof (Forall2_length H) as Hl. destruct o as [a b c|src dst]; cbn [aexec exec] in *.
  - destruct (Nat.eqb_spec c a) as [|Hca]; [done|]. destruct (Nat.eqb_spec c b) as [|Hcb]; [done|].
    destruct (Nat.ltb_spec c (length m)) as [Hc|]; [|done]. cbn [orb negb] in E.
    rewrite pcurl_s2_eq by lia.
    pose proof (represents_cell _ _ _ _ a H) as Ha. pose proof (represents_cell _ _ _ _ b H) as Hb.
    destruct (nth a m Junk) as [i| |], (nth b m Junk) as [j| |]; try done. injection E as <-.
    apply represents_insert; [done|]. unfold new_of. destruct (Z.eqb_spec j ((i + 364) mod 729)) as [Hj|]; [|done].
    cbn [conc] in *. destruct Ha as [Hi ->], Hb as [_ ->].
    pose proof (Z.mod_pos_bound (1458 - 2 * i) 729 ltac:(lia)) as Hk. split; [done|].
    destruct (nth_psbox old _ Hk) as (i' & j' & Hi' & Hj' & Ek & En). rewrite En.
    assert (i' = i) as ->.
    { apply (f_equal (fun x => (x * 364) mod 729)) in Ek. rewrite !Zmult_mod_idemp_l in Ek.
      replace ((1458 - 2 * i) * 364) with (i + (728 - i) * 729) in Ek by lia.
      replace ((1458 - 2 * i') * 364) with (i' + (728 - i') * 729) in Ek by lia.
      rewrite !Z.mod_add, !Z.mod_small in Ek by lia. done. }
    by rewrite Hj', Hj.
  - destruct (Nat.ltb_spec dst (length m)); [|done]. injection E as <-.
    apply represents_insert; [done|]. by apply represents_cell.
Qed.

Lemma arun_sound old ops : forall m st m', represents old (psbox old) m st -> arun m ops = Some m' ->
  represents old (psbox old) m' (foldl exec st ops).
Proof.
  induction ops as [|o ops IH]; intros m st m' H E; cbn [arun foldl] in *; [by injection E as <-|].
  destruct (aexec m o) as [m1|] eqn:E1; [|done]. eapply IH; [|done]. by eapply aexec_sound.
Qed.

(** The next application starts where this one ended. *)
Definition advance (s : sym) : sym := match s with New k => Old k | _ => Junk end.

Lemma represents_advance old new any m st : represents old new m st -> represents new any (map advance m) st.
Proof.
  unfold represents. induction 1 as [|s p m st Hs H IH]; cbn [map]; constructor; [|done].
  by destruct s.
Qed.

(** Where the trits are: at the start of a round, and after each S-box. *)
Definition layout : list sym := map (fun n => Old (Z.of_nat n)) (seq 0 729) ++ [Old 0] ++ replicate 365 Junk.

Definition next_layout (m : list sym) (ops : list op) : option (list sym) := map advance <$> arun m ops.

Definition sym_eqb (s t : sym) : bool :=
  match s, t with
  | Old i, Old j => i =? j
  | _, Junk => true
  | _, _ => false
  end.

(** Three S-boxes lead back to the layout. *)
Lemma layouts_cycle :
  match next_layout layout (ops_0 0 365 730) with
  | Some m => match next_layout m (ops_1 0 365 730) with
              | Some m => match next_layout m (ops_2 0 365 730) with
                          | Some m => forallb (fun '(s, t) => sym_eqb s t) (zip m layout) && (length m =? 1095)%nat
                          | None => false end
              | None => false end
  | None => false
  end = true.
Proof. vm_compute. reflexivity. Qed.

Lemma represents_weaken old any m m' st : represents old any m st -> length m = length m' ->
  forallb (fun '(s, t) => sym_eqb s t) (zip m m') = true -> represents old any m' st.
Proof.
  unfold represents. intros H. revert m'. induction H as [|s p m st Hs H IH]; intros [|t m'] Hl E; try done.
  cbn [zip forallb zip_with] in E. apply andb_prop in E as [Es E]. injection Hl as Hl.
  constructor; [|by apply IH]. destruct s, t; cbn [sym_eqb] in Es; try done. apply Z.eqb_eq in Es. by subst.
Qed.

Lemma represents_any old new any m st : represents old new m st ->
  Forall (fun s => match s with New _ => False | _ => True end) m -> represents old any m st.
Proof.
  unfold represents. induction 1 as [|s p m st Hs H IH]; intros Hf; constructor; apply Forall_cons_iff in Hf as [Hn Hf].
  - by destruct s.
  - by apply IH.
Qed.

Lemma step_layout old m ops m' st : represents old (psbox old) m st -> next_layout m ops = Some m' ->
  represents (psbox old) (psbox (psbox old)) m' (foldl exec st ops).
Proof.
  unfold next_layout. intros H E. destruct (arun m ops) as [m1|] eqn:E1; [|done]. injection E as <-.
  eapply represents_advance. by eapply arun_sound.
Qed.

Lemma pcurl_round old st : represents old (psbox old) layout st ->
  represents (Nat.iter 3 psbox old) (psbox (Nat.iter 3 psbox old)) layout (pcurl_three_rounds 0 365 730 st).
Proof.
  intros H. unfold pcurl_three_rounds. cbv zeta. rewrite sbox_0_ops, sbox_1_ops, sbox_2_ops. pose proof layouts_cycle as C.
  destruct (next_layout layout _) as [m1|] eqn:E1; [|done].
  destruct (next_layout m1 _) as [m2|] eqn:E2; [|done].
  destruct (next_layout m2 _) as [m3|] eqn:E3; [|done].
  apply andb_prop in C as [C Cl]. apply Nat.eqb_eq in Cl.
  pose proof (step_layout _ _ _ _ _ (step_layout _ _ _ _ _ (step_layout _ _ _ _ _ H E1) E2) E3) as Hr.
  eapply represents_weaken; [exact Hr|by rewrite Cl|done].
Qed.

Lemma iter_rel {A B} (R : A -> B -> Prop) f g n x y : (forall x y, R x y -> R (f x) (g y)) ->
  R x y -> R (Nat.iter n f x) (Nat.iter n g y).
Proof. intros Hf H. induction n as [|n IH]; [exact H|]. apply (Hf _ _ IH). Qed.

Lemma iter_mul {A} (f : A -> A) m n x : Nat.iter n (Nat.iter m f) x = Nat.iter (m * n) f x.
Proof.
  induction n as [|n IH]; [by rewrite Nat.mul_0_r|]. replace (m * S n)%nat with (m + m * n)%nat by lia.
  rewrite Nat.iter_add. cbn [Nat.iter nat_rect]. by rewrite <- IH.
Qed.

Lemma pcurl_rounds_spec n old st : represents old (psbox old) layout st ->
  represents (Nat.iter (3 * n) psbox old) (psbox (Nat.iter (3 * n) psbox old)) layout
    (Nat.iter n (pcurl_three_rounds 0 365 730) st).
Proof.
  intros H. rewrite <- iter_mul.
  apply (iter_rel (fun old st => represents old (psbox old) layout st)); [|exact H].
  intros x y Hxy. apply pcurl_round. exact Hxy.
Qed.

(** The logical state. *)
Definition p_trits (ctx : pcurl_t) : list ptrit_t := take CURL_STATE_SIZE (p_state ctx).

Lemma layout_start st : length st = PCURL_LENGTH ->
  represents (take CURL_STATE_SIZE st) (psbox (take CURL_STATE_SIZE st)) layout (<[729%nat := cell st 0]> st).
Proof.
  intros Hl. change PCURL_LENGTH with 1095%nat in Hl. change CURL_STATE_SIZE with 729%nat.
  unfold represents, layout. rewrite (insert_take_drop st) by lia.
  assert (forall n, (n < 729)%nat -> nth n (take 729 st) null_ptrit = cell st n) as Hn.
  { intros n Hn. unfold cell. rewrite !nth_lookup, lookup_take_lt by done. done. }
  apply Forall2_app; [|cbn [app]; apply Forall2_cons].
  - apply Forall2_same_length_lookup_2; [rewrite length_map, length_seq, length_take; lia|].
    intros i s p Hs Hp. apply list_lookup_fmap_Some in Hs as (n & -> & Hs). apply lookup_seq in Hs as [-> Hi].
    cbn [conc Nat.add]. rewrite Nat2Z.id. split; [lia|]. by rewrite (nth_lookup_Some _ _ null_ptrit _ Hp).
  - cbn [conc]. split; [lia|]. exact (eq_sym (Hn 0%nat ltac:(lia))).
  - apply Forall2_same_length_lookup_2; [rewrite length_replicate, length_drop; lia|].
    intros i s p Hs _. apply lookup_replicate in Hs as [-> _]. done.
Qed.

Lemma layout_end old any st : represents old any layout st -> length old = 729%nat ->
  length st = PCURL_LENGTH /\ take CURL_STATE_SIZE st = old.
Proof.
  intros H Hl. change CURL_STATE_SIZE with 729%nat. split.
  - rewrite <- (Forall2_length H). unfold layout. by rewrite !length_app, length_map, length_seq, length_replicate.
  - unfold represents, layout in H. apply Forall2_app_inv_l in H as (k1 & k2 & H1 & _ & ->).
    pose proof (Forall2_length H1) as Hk. rewrite length_map, length_seq in Hk.
    rewrite take_app_length' by lia. apply (nth_ext _ _ null_ptrit null_ptrit); [lia|]. intros n Hn.
    destruct (lookup_lt_is_Some_2 k1 n ltac:(lia)) as [y Hy].
    assert (map (fun n => Old (Z.of_nat n)) (seq 0 729) !! n = Some (Old (Z.of_nat n))) as Hx.
    { rewrite list_lookup_fmap, lookup_seq_lt by lia. done. }
    destruct (Forall2_lookup_lr _ _ _ _ _ _ H1 Hx Hy) as [_ E]. rewrite Nat2Z.id in E.
    rewrite <- E. by apply nth_lookup_Some.
Qed.

Definition pcurl_sized (ctx : pcurl_t) : Prop := length (p_state ctx) = PCURL_LENGTH.

(** In three times [round_count / 3] rounds the S-box is applied to all trits. *)
Lemma pcurl_transform_spec ctx : pcurl_sized ctx ->
  pcurl_sized (pcurl_transform ctx) /\ round_count (pcurl_transform ctx) = round_count ctx /\
  p_trits (pcurl_transform ctx) = Nat.iter (3 * (round_count ctx / 3)) psbox (p_trits ctx).
Proof.
  intros Hs. unfold pcurl_transform. cbv zeta.
  change (0 + CURL_STATE_HALF_SIZE + CURL_STATE_HALF_SIZE - 1)%nat with 729%nat.
  change (0 + CURL_STATE_HALF_SIZE + CURL_STATE_HALF_SIZE)%nat with 730%nat.
  change (0 + CURL_STATE_HALF_SIZE)%nat with 365%nat.
  pose proof (pcurl_rounds_spec (round_count ctx / 3) _ _ (layout_start (p_state ctx) Hs)) as H.
  apply layout_end in H as [H1 H2]; [split_and!; [exact H1|reflexivity|exact H2]|].
  unfold pcurl_sized in Hs. change PCURL_LENGTH with 1095%nat in Hs.
  induction (3 * (round_count ctx / 3))%nat as [|n IH].
  - cbn [Nat.iter nat_rect]. rewrite length_take. change CURL_STATE_SIZE with 729%nat. lia.
  - cbn [Nat.iter nat_rect]. by rewrite length_psbox.
Qed.

(** ** Slice by slice it is Curl *)

Lemma s2_sbox a b i : (i < PTRIT_SIZE)%nat -> is_trit (ptrit_get a i) -> is_trit (ptrit_get b i) ->
  ptrit_get (s2 a b) i = sbox_trit (ptrit_get a i) (ptrit_get b i).
Proof.
  intros Hi. unfold s2, XORANDN, XORAND, XOR, ANDN, AND. cbv zeta.
  rewrite !(ptrit_get_bits _ i) by done. cbn [low high]. unfold PTRIT_SIZE in Hi.
  rewrite !Z.lxor_spec, !Z.land_spec, !Z.lxor_spec, !Z.land_spec, !NOT_testbit by lia.
  destruct (Z.testbit (low a) _), (Z.testbit (high a) _), (Z.testbit (low b) _), (Z.testbit (high b) _);
    cbn [trit_of_bits negb andb xorb]; unfold NaT; try (intros ? ?; unfold is_trit in *; lia);
    intros _ _; vm_compute; reflexivity.
Qed.

Lemma slice_psbox i s : (i < PTRIT_SIZE)%nat -> length s = STATE_LENGTH -> trits_ok (slice i s) ->
  slice i (psbox s) = sbox (slice i s).
Proof.
  intros Hi Hl Ht. unfold slice at 1, psbox, sbox. rewrite List.map_map. apply map_ext_in. intros k Hk.
  apply in_seq in Hk. rewrite !CURL_INDEX_spec by lia.
  assert (forall m : nat, nth (Z.to_nat ((364 * Z.of_nat m) mod Z.of_nat STATE_LENGTH)) (slice i s) 0 =
    ptrit_get (nth (Z.to_nat ((364 * Z.of_nat m) mod Z.of_nat STATE_LENGTH)) s null_ptrit) i) as Hn.
  { intros m. pose proof (Z.mod_pos_bound (364 * Z.of_nat m) (Z.of_nat STATE_LENGTH) ltac:(done)).
    rewrite (nth_indep _ 0 (ptrit_get null_ptrit i)) by (rewrite length_slice; lia). unfold slice. exact (map_nth (fun p => ptrit_get p i) s null_ptrit _). }
  rewrite !Hn. apply s2_sbox; [done|rewrite <- Hn; by apply nth_trit..].
Qed.

Lemma slice_iter i n s : (i < PTRIT_SIZE)%nat -> length s = STATE_LENGTH -> trits_ok (slice i s) ->
  slice i (Nat.iter n psbox s) = Nat.iter n sbox (slice i s).
Proof.
  intros Hi Hl Ht. induction n as [|n IH]; [done|]. cbn [Nat.iter nat_rect].
  change (nat_rect _ s _ n) with (Nat.iter n psbox s). change (nat_rect _ (slice i s) _ n) with (Nat.iter n sbox (slice i s)).
  rewrite <- IH. apply slice_psbox; [done| |].
  - destruct n as [|n]; [done|]. apply length_psbox.
  - rewrite IH. clear IH. induction n as [|n IHn]; [done|]. by apply sbox_ok.
Qed.

(** The simulation: slice [i] of the parallel state is the state of a Curl. *)
Definition simulates (i : nat) (p : pcurl_t) (c : Curl) : Prop :=
  pcurl_sized p /\ round_count p = rounds (c_type c) /\ slice i (p_trits p) = c_state c /\ trits_ok (c_state c).

Lemma simulates_ok i p c : simulates i p c -> curl_ok c.
Proof.
  intros (Hs & _ & E & Ht). split; [|done]. rewrite <- E, length_slice. unfold p_trits.
  rewrite length_take, Hs. reflexivity.
Qed.

Lemma simulates_transform i p c : (i < PTRIT_SIZE)%nat -> simulates i p c ->
  simulates i (pcurl_transform p) (transform c).
Proof.
  intros Hi H. pose proof (transform_ok c (simulates_ok i p c H)) as [_ Hok].
  pose proof (simulates_ok i p c H) as [Hcl _].
  destruct H as (Hs & Hr & E & Ht). destruct (pcurl_transform_spec p Hs) as (H1 & H2 & H3).
  unfold simulates. rewrite transform_type. split_and!; [done|congruence| |done].
  rewrite H3, transform_iter, Hr. cbn [c_state].
  assert (3 * (rounds (c_type c) / 3) = rounds (c_type c))%nat as -> by (by destruct (c_type c)).
  rewrite slice_iter; [by rewrite E|done| |by rewrite E].
  rewrite <- Hcl, <- E. symmetry. apply length_slice.
Qed.

Lemma p_trits_write block st r : length st = PCURL_LENGTH -> (length block <= CURL_RATE)%nat ->
  p_trits (mk_pcurl (buf_write 0 block st) r) = buf_write 0 block (take CURL_STATE_SIZE st).
Proof.
  intros Hl Hb. unfold p_trits. cbn [p_state]. unfold buf_write. rewrite !take_0, !Nat.sub_0_r. cbn [app Nat.add].
  change PCURL_LENGTH with 1095%nat in Hl. change CURL_RATE with 243%nat in Hb. change CURL_STATE_SIZE with 729%nat.
  rewrite !(take_ge block) by (rewrite ?length_take; lia). rewrite take_app_ge by lia. f_equal.
  rewrite take_drop_commute. f_equal. f_equal. lia.
Qed.

Lemma simulates_write i p c block : (i < PTRIT_SIZE)%nat -> simulates i p c -> trits_ok (slice i block) ->
  (length block <= CURL_RATE)%nat ->
  simulates i (mk_pcurl (buf_write 0 block (p_state p)) (round_count p))
    (mkCurl (buf_write 0 (slice i block) (c_state c)) (c_type c)).
Proof.
  intros Hi (Hs & Hr & E & Ht) Hb Hl. unfold simulates. cbn [p_state round_count c_state c_type]. split_and!.
  - unfold pcurl_sized in *. cbn [p_state]. rewrite length_buf_write by lia. done.
  - done.
  - rewrite p_trits_write by done. rewrite <- E. unfold buf_write. rewrite !slice_app, slice_drop, !slice_take.
    rewrite length_slice. unfold p_trits. by rewrite slice_take, !length_take, length_slice.
  - by apply buf_write_ok.
Qed.

Lemma slice_chunks i ps : map (slice i) (chunks CURL_RATE ps) = chunks HASH_LENGTH_TRIT (slice i ps).
Proof.
  change HASH_LENGTH_TRIT with CURL_RATE. revert ps. apply (chunk_ind CURL_RATE); [unfold CURL_RATE; lia|done|].
  intros ps Hne IH. rewrite (chunks_unfold _ ps), (chunks_unfold _ (slice i ps)); [|unfold CURL_RATE; lia| |unfold CURL_RATE; lia|done].
  - cbn [map]. by rewrite slice_take, IH, slice_drop.
  - by destruct ps.
Qed.

Lemma length_chunks n (l : list ptrit_t) : (0 < n)%nat -> Forall (fun b => (length b <= n)%nat) (chunks n l).
Proof.
  intros Hn. revert l. apply (chunk_ind n); [done|constructor|]. intros l Hl IH.
  rewrite chunks_unfold by done. apply Forall_cons_iff. split; [rewrite length_take; lia|done].
Qed.

Lemma simulates_absorb i p c data : (i < PTRIT_SIZE)%nat -> simulates i p c -> trits_ok (slice i data) ->
  simulates i (pcurl_absorb p data) (curl_absorb c (slice i data)).
Proof.
  intros Hi H Hd. unfold pcurl_absorb, curl_absorb. rewrite <- slice_chunks.
  pose proof (Forall_chunks _ HASH_LENGTH_TRIT _ Hd) as Hok. rewrite <- slice_chunks in Hok.
  pose proof (length_chunks CURL_RATE data ltac:(unfold CURL_RATE; lia)) as Hlen.
  revert p c H Hok Hlen. induction (chunks CURL_RATE data) as [|b bs IH]; intros p c H Hok Hlen; [done|].
  cbn [map foldl] in *. apply Forall_cons_iff in Hok as [Hb Hok]. apply Forall_cons_iff in Hlen as [Hbl Hlen].
  apply IH; [|done|done]. apply simulates_transform; [done|]. by apply simulates_write.
Qed.

Lemma slice_state i p c n : simulates i p c -> (n <= CURL_STATE_SIZE)%nat ->
  slice i (take n (p_state p)) = take n (c_state c).
Proof.
  intros (_ & _ & E & _) Hn. rewrite <- E. unfold p_trits. rewrite !slice_take, take_take. f_equal. lia.
Qed.

Lemma simulates_squeeze i n r : (i < PTRIT_SIZE)%nat -> (r < CURL_RATE)%nat -> forall p c, simulates i p c ->
  let '(out, p') := pcurl_squeeze_loop n p in
  let '(out, p') := if (0 <? r)%nat then (out ++ take r (p_state p'), pcurl_transform p') else (out, p') in
  let '(out', c') := curl_squeeze_loop (n + (if (r =? 0)%nat then 0 else 1)) c (n * CURL_RATE + r) in
  slice i out = out' /\ simulates i p' c'.
Proof.
  intros Hi Hr. change HASH_LENGTH_TRIT with CURL_RATE in *.
  induction n as [|n IH]; intros p c H; cbn [pcurl_squeeze_loop Nat.add].
  - destruct (Nat.eqb_spec r 0) as [->|Hr0]; [done|].
    replace (0 <? r)%nat with true by (symmetry; apply Nat.ltb_lt; lia).
    cbn [curl_squeeze_loop Nat.mul Nat.add app].
    replace (r <? HASH_LENGTH_TRIT)%nat with true by (symmetry; apply Nat.ltb_lt; exact Hr).
    rewrite app_nil_r. split; [|by apply simulates_transform].
    apply (slice_state i p c); [done|]. unfold CURL_STATE_SIZE. lia.
  - specialize (IH _ _ (simulates_transform i p c Hi H)).
    cbn [curl_squeeze_loop].
    destruct (Nat.ltb_spec (S n * CURL_RATE + r) HASH_LENGTH_TRIT) as [Hlt|_];
      [change HASH_LENGTH_TRIT with CURL_RATE in Hlt; lia|].
    replace (S n * CURL_RATE + r - HASH_LENGTH_TRIT)%nat with (n * CURL_RATE + r)%nat
      by (change HASH_LENGTH_TRIT with CURL_RATE; lia).
    destruct (pcurl_squeeze_loop n (pcurl_transform p)) as [out p'].
    destruct (curl_squeeze_loop _ (transform c) _) as [out' c'].
    assert (slice i (take CURL_RATE (p_state p)) = take CURL_RATE (c_state c)) as E
      by (apply slice_state; [done|unfold CURL_STATE_SIZE; lia]).
    change HASH_LENGTH_TRIT with CURL_RATE.
    destruct (0 <? r)%nat; destruct IH as [IH1 IH2]; (split; [|done]); rewrite <- IH1, <- E, ?slice_app, <- ?app_assoc; done.
Qed.

Lemma slice_replicate i n q : slice i (replicate n q) = replicate n (ptrit_get q i).
Proof. induction n as [|n IH]; [done|]. cbn [replicate slice map]. f_equal. exact IH. Qed.

Lemma simulates_zero i p t r : (i < PTRIT_SIZE)%nat -> r = rounds t ->
  simulates i (mk_pcurl (p_state (pcurl_reset p)) r) (mkCurl (replicate STATE_LENGTH 0) t).
Proof.
  intros Hi ->. unfold simulates, pcurl_reset, pcurl_sized, p_trits. cbn [p_state round_count c_state c_type].
  split_and!; [apply length_replicate|done| |].
  - rewrite take_replicate. rewrite slice_replicate. f_equal.
    rewrite ptrit_get_bits by done. cbn [low high]. unfold PTRIT_SIZE in Hi.
    rewrite uwrap_testbit, Z.bits_m1 by lia. done.
  - apply Forall_replicate. unfold is_trit. lia.
Qed.

(** * Properties *)

(** C15: parallel Curl computes 64 Curls at once: initialization, reset, absorbing
    and squeezing any number of trits keep every slice in step with the trit-wise
    Curl on that slice, and squeeze the same trits. *)
Theorem pcurl_simulates_curl i p c : (i < PTRIT_SIZE)%nat -> simulates i p c ->
  (forall data, trits_ok (slice i data) -> simulates i (pcurl_absorb p data) (curl_absorb c (slice i data))) /\
  (forall n, let '(out, p') := pcurl_squeeze p n in
             let '(out', c') := curl_squeeze c n in slice i out = out' /\ simulates i p' c') /\
  simulates i (pcurl_reset p) (curl_reset c) /\
  simulates i (pcurl_init p (rounds (c_type c))) (curl_init c) /\
  simulates i (pcurl_transform p) (transform c).
Proof.
  intros Hi H. split_and!.
  - intros data Hd. by apply simulates_absorb.
  - intros n. unfold pcurl_squeeze, curl_squeeze.
    pose proof (Nat.mod_upper_bound n CURL_RATE ltac:(unfold CURL_RATE; lia)) as Hr.
    pose proof (simulates_squeeze i (n / CURL_RATE) (n mod CURL_RATE) Hi Hr p c H) as Hs.
    replace (n / CURL_RATE * CURL_RATE + n mod CURL_RATE)%nat with n in Hs
      by (pose proof (Nat.div_mod n CURL_RATE ltac:(unfold CURL_RATE; lia)); lia).
    change HASH_LENGTH_TRIT with CURL_RATE.
    destruct (pcurl_squeeze_loop _ p) as [out p']. exact Hs.
  - unfold curl_reset. destruct H as (_ & Hr & _). unfold pcurl_reset at 1. by apply (simulates_zero i p).
  - by apply simulates_zero.
  - by apply simulates_transform.
Qed.

Lemma pcurl_simulates_curl_witness :
  let p := pcurl_init (mk_pcurl [] 0) 81 in
  let c := curl_init (mkCurl [] CURL_P_81) in
  let data := replicate 500 (mk_ptrit (2 ^ 63) 0) in
  simulates 63 (pcurl_absorb p data) (curl_absorb c (slice 63 data)) /\
  simulates 63 (pcurl_transform p) (transform c).
Proof.
  cbv zeta. set (p := pcurl_init _ _). set (c := curl_init _).
  assert (simulates 63 p c) as H.
  { apply (simulates_zero 63 (mk_pcurl [] 0) CURL_P_81 81); [apply Nat.ltb_lt; reflexivity|reflexivity]. }
  assert (63 < PTRIT_SIZE)%nat as Hi by (apply Nat.ltb_lt; reflexivity).
  split.
  - refine (proj1 (pcurl_simulates_curl 63 p c Hi H) _ _). closed_decide.
  - exact (proj2 (proj2 (proj2 (proj2 (pcurl_simulates_curl 63 p c Hi H))))).
Defined.
