(* ===== verification/PearlDiver.v ===== *)
(** * The nonce search

    [common/crypto/curl-p/pearl_diver.c], [hashcash.c] and [hamming.c]: a search by
    several threads, each of which runs through the values of a range of the
    parallel Curl state.  The threads share the overall status; a run is a
    sequence of atomic steps, at the points where the lock is taken, in the order
    that a schedule gives. *)
From S2P Require Import Prelude Trits Sponge Curl PTrit PCurl.

Inductive PearlDiverStatus :=
| PEARL_DIVER_SUCCESS | PEARL_DIVER_RUNNING | PEARL_DIVER_INTERRUPTED | PEARL_DIVER_ERROR.

Inductive search_status_t := SEARCH_RUNNING | SEARCH_INTERRUPT | SEARCH_FINISHED | SEARCH_NOT_FOUND.

#[global] Instance search_status_t_eq_dec : EqDecision search_status_t.
Proof. solve_decision. Defined.

Record SearchInstance := mk_inst {
  si_pcurl : pcurl_t; si_begin : nat; si_end : nat; si_result : Z; si_status : search_status_t
}.

Definition put_pcurl p (i : SearchInstance) := mk_inst p (si_begin i) (si_end i) (si_result i) (si_status i).
Definition put_result r (i : SearchInstance) := mk_inst (si_pcurl i) (si_begin i) (si_end i) r (si_status i).
Definition put_status s (i : SearchInstance) := mk_inst (si_pcurl i) (si_begin i) (si_end i) (si_result i) s.

(** ** Initialization *)

(** A function applied to the state from position [off] on. *)
Definition on_state (off : nat) (f : list ptrit_t -> list ptrit_t) (p : pcurl_t) : pcurl_t :=
  mk_pcurl (at_pos off f (p_state p)) (round_count p).

Fixpoint init_inst_loop (n : nat) (pcurl : pcurl_t) (n_log3 begin_ end_ : nat) (value : list Z) : list SearchInstance :=
  match n with
  | O => []
  | S n =>
      let sub := drop begin_ (p_state pcurl) in
      let '(range, value) := ptrit_set_iota n_log3 sub value in
      mk_inst (mk_pcurl (take begin_ (p_state pcurl) ++ range) (round_count pcurl)) (begin_ + n_log3) end_ (-1)
        SEARCH_RUNNING :: init_inst_loop n pcurl n_log3 begin_ end_ value
  end.

Definition init_inst (n : nat) (pcurl : pcurl_t) (begin_ end_ : nat) : option (list SearchInstance) :=
  match ptrit_log3 (Z.of_nat (PTRIT_SIZE * n)) with
  | None => None
  | Some log3 =>
      let n_log3 := Nat.min (Z.to_nat log3) (end_ - begin_) in
      let value := replicate CURL_STATE_SIZE (-1) in
      let pcurl := on_state (begin_ + n_log3) (fun s => ptrits_fill (end_ - (begin_ + n_log3)) s value) pcurl in
      Some (init_inst_loop n pcurl n_log3 begin_ end_ value)
  end.

(** ** Threads *)

(** Where a thread is: before reading the status, before its computation, before
    writing the status; or it has returned. *)
Inductive program_point := AtCheck | AtTest | AtPublish | Returned.

Abbreviation thread := (program_point * SearchInstance)%type.
Record search_state := mk_search { overall_status : search_status_t; threads : list thread }.

Section Search.
(** The test, with its argument. *)
Context (test : pcurl_t -> Z).

(** One step of [run_search_thread]; returns the overall status too. *)
Definition thread_step (overall : search_status_t) (t : thread) : search_status_t * thread :=
  let '(pc, inst) := t in
  match pc with
  | AtCheck =>
      let inst := put_status overall inst in
      if negb (bool_decide (si_status inst = SEARCH_RUNNING)) then (overall, (Returned, inst))
      else (overall, (AtTest, inst))
  | AtTest =>
      let copy := pcurl_transform (si_pcurl inst) in
      let inst := put_result (test copy) inst in
      if si_result inst >=? 0 then (overall, (AtPublish, inst))
      else
        let '(overflow, sub) := ptrit_hincr (si_end inst - si_begin inst) (drop (si_begin inst) (p_state (si_pcurl inst))) in
        let inst := put_pcurl (mk_pcurl (take (si_begin inst) (p_state (si_pcurl inst)) ++ sub)
                                        (round_count (si_pcurl inst))) inst in
        if overflow : bool then (overall, (Returned, put_status SEARCH_NOT_FOUND inst))
        else (overall, (AtCheck, inst))
  | AtPublish => (SEARCH_FINISHED, (Returned, inst))
  | Returned => (overall, t)
  end.

(** Thread number [i] is scheduled. *)
Definition search_step (st : search_state) (i : nat) : search_state :=
  match threads st !! i with
  | None => st
  | Some t =>
      let '(overall, t) := thread_step (overall_status st) t in
      mk_search overall (<[i := t]> (threads st))
  end.

Definition returned (t : thread) : bool := match t.1 with Returned => true | _ => false end.

(** The joins, from the last thread to the first; [created] says which threads
    could be started.  [None] when some thread has not returned. *)
Fixpoint join_loop (ts : list (bool * thread)) (found : option SearchInstance) : option (option SearchInstance) :=
  match ts with
  | [] => Some found
  | (created, t) :: ts =>
      if negb created then join_loop ts found else
      if negb (returned t) then None else
      match found with
      | None => if si_result t.2 >=? 0 then join_loop ts (Some t.2) else join_loop ts None
      | Some f => join_loop ts (Some f)
      end
  end.

(** [alloc]: no allocation failed. *)
Definition pd_search_n (alloc : bool) (created : list bool) (schedule : list nat) (ctx : Curl) (begin_ end_ n_procs : nat)
    : option (PearlDiverStatus * Curl) :=
  if negb alloc then Some (PEARL_DIVER_ERROR, ctx) else
  let pcurl := pcurl_init (mk_pcurl [] 0) (rounds (c_type ctx)) in
  let pcurl := on_state 0 (fun s => ptrits_fill STATE_LENGTH s (c_state ctx)) pcurl in
  match init_inst n_procs pcurl begin_ end_ with
  | None => None
  | Some insts =>
      let st := mk_search SEARCH_RUNNING (map (fun i => (AtCheck, i)) insts) in
      (* a thread that could not be created takes no steps *)
      let st := foldl search_step st (filter (fun i => nth i created false = true) schedule) in
      match join_loop (rev (zip created (threads st))) None with
      | None => None
      | Some None => Some (PEARL_DIVER_ERROR, ctx)
      | Some (Some found) =>
          let sub := ptrits_get_slice (end_ - begin_) (drop begin_ (c_state ctx))
                       (drop begin_ (p_state (si_pcurl found))) (Z.to_nat (si_result found)) in
          Some (PEARL_DIVER_SUCCESS, mkCurl (take begin_ (c_state ctx) ++ sub) (c_type ctx))
      end
  end.
End Search.

(** ** The two tests *)

Definition hashcash_test (mwm : Z) (pcurl : pcurl_t) : Z :=
  let p := drop (Z.to_nat (Z.of_nat HASH_LENGTH_TRIT - mwm)) (p_state pcurl) in
  let i := ptrits_find_zero_slice (Z.to_nat mwm) p in
  if (PTRIT_SIZE =? i)%nat then -1 else Z.of_nat i.

(** [for (; j++ < security;)]; the fuel is [security]. *)
Fixpoint hamming_inner (fuel security j : nat) (p : list ptrit_t) (i : nat) (sum : Z) : nat :=
  match fuel with
  | O => S j
  | S fuel =>
      if (j <? security)%nat then
        let j := S j in
        let sum := i64 (sum + ptrits_sum_slice (HASH_LENGTH_TRIT / 3) p i) in
        let p := drop (HASH_LENGTH_TRIT / 3) p in
        if sum =? 0 then j else hamming_inner fuel security j p i sum
      else S j
  end.

Fixpoint hamming_loop (n i security : nat) (pcurl : pcurl_t) : Z :=
  match n with
  | O => -1
  | S n =>
      if (security =? hamming_inner security security 0 (p_state pcurl) i 0)%nat then Z.of_nat i
      else hamming_loop n (S i) security pcurl
  end.

Definition hamming_test (security : nat) (pcurl : pcurl_t) : Z := hamming_loop PTRIT_SIZE 0 security pcurl.

Definition hashcash alloc created schedule (ctx : Curl) (begin_ end_ : nat) (min_weight : Z) (n_procs : nat) :=
  pd_search_n (hashcash_test min_weight) alloc created schedule ctx begin_ end_ n_procs.

Definition hamming alloc created schedule (ctx : Curl) (begin_ end_ security n_procs : nat) :=
  pd_search_n (hamming_test security) alloc created schedule ctx begin_ end_ n_procs.

(** * The invariant of an instance *)

Lemma hincr_app n rng suf : length rng = n ->
  ptrit_hincr n (rng ++ suf) = ((ptrit_hincr n rng).1, (ptrit_hincr n rng).2 ++ suf).
Proof.
  revert rng. induction n as [|n IH]; intros [|p rng] Hl; simpl in Hl; try lia.
  - by destruct suf.
  - cbn [app ptrit_hincr]. destruct (Z.land _ 255 =? 0); [done|].
    rewrite IH by lia. by destruct (ptrit_hincr n rng).
Qed.

Lemma length_hincr n ps : length (ptrit_hincr n ps).2 = length ps.
Proof.
  revert ps. induction n as [|n IH]; intros [|p ps]; try done. cbn [ptrit_hincr].
  destruct (Z.land _ 255 =? 0); [done|]. specialize (IH ps). destruct (ptrit_hincr n ps). cbn in *. lia.
Qed.

Lemma length_uniform ps t : uniform ps t -> length ps = length t.
Proof. intros H. rewrite <- (H 0%nat) by (unfold PTRIT_SIZE; lia). by rewrite length_slice. Qed.

(** Replacing the end of a region. *)
Lemma replace_tail {A} (S v t : list A) b sb e : (b <= sb <= e)%nat -> (e <= length S)%nat ->
  length v = (e - b)%nat -> length t = (e - sb)%nat ->
  let L := take b S ++ v ++ drop e S in
  take sb L ++ t ++ drop e L = take b S ++ (take (sb - b) v ++ t) ++ drop e S.
Proof.
  intros Hb He Hv Ht. cbv zeta. rewrite take_app_ge by (rewrite length_take; lia).
  rewrite length_take, Nat.min_l by lia. rewrite (take_app_le v) by lia.
  rewrite (app_assoc _ v), drop_app_length' by (rewrite length_app, length_take; lia).
  by rewrite <- !app_assoc.
Qed.

Section Invariant.
Context (test : pcurl_t -> Z) (S0 : list Z) (ct : CurlType) (begin_ end_ start : nat).
Context (HS : length S0 = STATE_LENGTH) (HSt : trits_ok S0) (Hrange : (begin_ <= start <= end_)%nat) (Hend : (end_ <= STATE_LENGTH)%nat).

(** The part of the state that [ptrit_hincr] runs through. *)
Definition counter (p : pcurl_t) : list ptrit_t := take (end_ - start) (drop start (p_state p)).

Record inst_ok (i : SearchInstance) : Prop := {
  ok_sized : pcurl_sized (si_pcurl i);
  ok_rounds : round_count (si_pcurl i) = rounds ct;
  ok_begin : si_begin i = start;
  ok_end : si_end i = end_;
  ok_slices j : (j < PTRIT_SIZE)%nat -> exists v, trits_ok v /\ length v = (end_ - begin_)%nat /\
    slice j (p_trits (si_pcurl i)) = take begin_ S0 ++ v ++ drop end_ S0;
  ok_result : 0 <= si_result i -> test (pcurl_transform (si_pcurl i)) = si_result i
}.

Definition counts (i : SearchInstance) (t : list Z) : Prop := trits_ok t /\ uniform (counter (si_pcurl i)) t.

(** The state of an instance after an increment. *)
Definition next_pcurl (i : SearchInstance) : bool * pcurl_t :=
  let '(overflow, sub) := ptrit_hincr (si_end i - si_begin i) (drop (si_begin i) (p_state (si_pcurl i))) in
  (overflow, mk_pcurl (take (si_begin i) (p_state (si_pcurl i)) ++ sub) (round_count (si_pcurl i))).

Lemma next_pcurl_eq i : inst_ok i ->
  next_pcurl i = ((ptrit_hincr (end_ - start) (counter (si_pcurl i))).1,
    mk_pcurl (take start (p_state (si_pcurl i)) ++ (ptrit_hincr (end_ - start) (counter (si_pcurl i))).2 ++
              drop end_ (p_state (si_pcurl i))) (rounds ct)).
Proof.
  intros [Hs Hr Hb He _ _]. unfold next_pcurl. rewrite Hb, He, Hr.
  assert (drop start (p_state (si_pcurl i)) = counter (si_pcurl i) ++ drop end_ (p_state (si_pcurl i))) as E.
  { unfold counter. rewrite <- (take_drop (end_ - start) (drop start _)) at 1. f_equal.
    rewrite drop_drop. f_equal. lia. }
  rewrite E, hincr_app; [done|]. unfold counter. rewrite length_take, length_drop.
  unfold pcurl_sized in Hs. rewrite Hs. change PCURL_LENGTH with 1095%nat. change STATE_LENGTH with 729%nat in Hend. lia.
Qed.

Lemma take_state {A} (L : list A) : take CURL_STATE_SIZE L = take STATE_LENGTH L.
Proof. done. Qed.

Lemma next_pcurl_ok i t r s : inst_ok i -> counts i t -> r < 0 ->
  let '(overflow, p) := next_pcurl i in
  let i' := mk_inst p start end_ r s in
  inst_ok i' /\ exists t', counts i' t' /\ length t' = length t /\
    bal t' + (if overflow then 3 ^ Z.of_nat (length t) else 0) = bal t + 1.
Proof.
  intros Hi [Ht Hu] Hr0. rewrite next_pcurl_eq by done. destruct Hi as [Hs Hr Hb He Hsl _].
  pose proof (length_uniform _ _ Hu) as Hcl.
  set (st := p_state (si_pcurl i)) in *. unfold pcurl_sized in Hs. change (p_state (si_pcurl i)) with st in Hs.
  change PCURL_LENGTH with 1095%nat in Hs. change STATE_LENGTH with 729%nat in *.
  assert (length (counter (si_pcurl i)) = (end_ - start)%nat) as Hc
    by (unfold counter; fold st; rewrite length_take, length_drop; lia).
  destruct (hincr_uniform (end_ - start) (counter (si_pcurl i)) t Ht Hu) as [E1 E2].
  pose proof (inc_flag_spec (end_ - start) t Ht ltac:(lia)) as Hinc.
  pose proof (length_hincr (end_ - start) (counter (si_pcurl i))) as Hhl. rewrite Hc in Hhl.
  destruct (ptrit_hincr _ _) as [o ps'], (inc_flag _ t) as [o' t']. cbn [fst snd] in *. subst o'.
  destruct Hinc as (H1 & H2 & _ & H4). replace (end_ - start)%nat with (length t) in H4 by lia.
  rewrite !take_ge in H4 by lia. split.
  - split; cbn [si_pcurl si_begin si_end si_result]; [|done..| |lia].
    + unfold pcurl_sized. cbn [p_state]. rewrite !length_app, length_take, length_drop.
      change PCURL_LENGTH with 1095%nat. lia.
    + intros j Hj. destruct (Hsl j Hj) as (v & Hv & Hvl & E). unfold p_trits in *. cbn [p_state].
      change CURL_STATE_SIZE with 729%nat in *. fold st in E. rewrite slice_take in E.
      rewrite slice_take, !slice_app, slice_take, slice_drop, (E2 j Hj).
      exists (take (start - begin_) v ++ t'). split_and!.
      * apply Forall_app. split; [by apply Forall_take|done].
      * rewrite length_app, length_take. lia.
      * rewrite <- (replace_tail S0 v t' begin_ start end_) by lia. cbv zeta. rewrite <- E.
        rewrite take_take, Nat.min_l by lia.
        rewrite take_app_ge, length_take, length_slice, Nat.min_l by (rewrite ?length_take, ?length_slice; lia).
        rewrite take_app_ge by lia. do 2 f_equal. rewrite take_drop_commute. do 2 f_equal. lia.
  - exists t'. split_and!; [|lia|done]. split; [done|]. unfold counter. cbn [si_pcurl p_state].
    rewrite drop_app_length' by (rewrite length_take; lia). rewrite take_app_length' by lia. done.
Qed.

(** ** Steps *)

(** A bound on the number of steps a thread still takes. *)
Definition at_most (k : nat) (t : thread) : Prop :=
  match t.1 with
  | Returned => True
  | AtPublish => (1 <= k)%nat
  | AtCheck => exists ts, counts t.2 ts /\ length ts = (end_ - start)%nat /\
      3 ^ Z.of_nat (end_ - start) - 1 - 2 * bal ts + 3 <= Z.of_nat k
  | AtTest => exists ts, counts t.2 ts /\ length ts = (end_ - start)%nat /\
      3 ^ Z.of_nat (end_ - start) - 1 - 2 * bal ts + 2 <= Z.of_nat k
  end.

Lemma inst_ok_status s i : inst_ok i -> inst_ok (put_status s i).
Proof. intros []. by split. Qed.

Lemma thread_step_ok k overall t : inst_ok t.2 -> (t.1 = AtPublish -> 0 <= si_result t.2) -> at_most k t ->
  let t' := (thread_step test overall t).2 in
  inst_ok t'.2 /\ (t'.1 = AtPublish -> 0 <= si_result t'.2) /\ at_most (pred k) t'.
Proof.
  destruct t as [pc i]. intros Hi Hp Hk. cbn [fst snd] in *. destruct pc; cbn [thread_step].
  - cbv zeta. pose proof (inst_ok_status overall i Hi) as Hi'.
    destruct (bool_decide _); cbn [negb fst snd]; (split_and!; [done|done|]); [|done].
    destruct Hk as (ts & Hc & Hl & Hb). exists ts. split_and!; [exact Hc|done|]. cbn [fst snd] in *. lia.
  - destruct Hk as (ts & Hc & Hl & Hb). cbn [fst snd] in *. cbn [put_result si_result].
    destruct (Z.geb_spec (test (pcurl_transform (si_pcurl i))) 0) as [Hr|Hr].
    + cbv zeta. cbn [fst snd]. split_and!; [destruct Hi; by split|done|].
      unfold at_most. cbn [fst]. destruct Hc as [Hct _]. pose proof (bal_bound ts Hct). rewrite Hl in *. lia.
    + pose proof (next_pcurl_ok i ts (test (pcurl_transform (si_pcurl i))) (si_status i) Hi Hc Hr) as Hn.
      unfold next_pcurl in Hn. unfold put_result, put_pcurl, put_status. cbn [si_end si_begin si_pcurl si_status si_result].
      destruct (ptrit_hincr _ _) as [o sub]. cbv zeta in Hn.
      rewrite (ok_begin i Hi), (ok_end i Hi) in *.
      destruct Hn as (Hok & t' & Hct & Hlt & Hbal). rewrite Hl in *.
      destruct o; cbv zeta; cbn [fst snd]; (split_and!; [|done|]).
      * exact (inst_ok_status _ _ Hok).
      * done.
      * exact Hok.
      * exists t'. split_and!; [exact Hct|done|]. cbn [fst snd]. pose proof (bal_bound ts (proj1 Hc)). rewrite Hl in *. lia.
  - cbv zeta. cbn [fst snd]. split_and!; [done|done|done].
  - by split_and!.
Qed.

Lemma at_most_0 t : at_most 0 t -> t.1 = Returned.
Proof.
  clear HS Hrange Hend. unfold at_most. destruct (t.1); [| |lia|done]; intros (ts & [Ht _] & Hl & Hb);
    pose proof (bal_bound ts Ht) as Hbb; rewrite Hl in Hbb; lia.
Qed.

Definition threads_ok (b : nat -> nat) (st : search_state) : Prop :=
  forall i t, threads st !! i = Some t ->
    inst_ok t.2 /\ (t.1 = AtPublish -> 0 <= si_result t.2) /\ at_most (b i) t.

(** Each thread's bound goes down with its own steps, whatever the others do. *)
Lemma search_step_ok b st i : threads_ok b st ->
  threads_ok (fun j => if (j =? i)%nat then pred (b j) else b j) (search_step test st i).
Proof.
  intros H j t Hj. unfold search_step in Hj. destruct (threads st !! i) as [ti|] eqn:Ei.
  - destruct (H i ti Ei) as (H1 & H2 & H3).
    pose proof (thread_step_ok (b i) (overall_status st) ti H1 H2 H3) as Hs. cbv zeta in Hs.
    destruct (thread_step test (overall_status st) ti) as [o t']. cbn [threads snd] in *.
    destruct (Nat.eqb_spec j i) as [->|Hne].
    + rewrite list_lookup_insert_eq in Hj by (by eapply lookup_lt_Some). injection Hj as <-. done.
    + rewrite list_lookup_insert_ne in Hj by done. by apply H.
  - destruct (Nat.eqb_spec j i) as [->|Hne]; [congruence|]. by apply H.
Qed.

Lemma run_ok sched : forall b st, threads_ok b st ->
  threads_ok (fun j => b j - count_occ Nat.eq_dec sched j)%nat (foldl (search_step test) st sched) /\
  length (threads (foldl (search_step test) st sched)) = length (threads st).
Proof.
  induction sched as [|i sched IH]; intros b st H; cbn [foldl].
  - split; [|done]. intros j t Hj. cbn [count_occ]. rewrite Nat.sub_0_r. by apply H.
  - destruct (IH _ _ (search_step_ok b st i H)) as [IH1 IH2]. split.
    + intros j t Hj. destruct (IH1 j t Hj) as (H1 & H2 & H3). split_and!; [done|done|].
      cbn [count_occ]. destruct (Nat.eqb_spec j i) as [->|Hne], (Nat.eq_dec i _); try congruence.
      * replace (b i - S (count_occ Nat.eq_dec sched i))%nat with (pred (b i) - count_occ Nat.eq_dec sched i)%nat by lia. done.
    + rewrite IH2. unfold search_step. destruct (threads st !! i) as [ti|]; [|done].
      destruct (thread_step _ _ _). cbn [threads]. apply length_insert.
Qed.
End Invariant.

(** ** Joining *)

Lemma join_loop_complete ts found : Forall (fun bt => bt.1 = true -> returned bt.2 = true) ts ->
  exists r, join_loop ts found = Some r.
Proof.
  intros H. revert found. induction H as [|[c t] ts Ht H IH]; intros found; [by eexists|].
  cbn [join_loop fst snd] in *. destruct c; cbn [negb]; [|apply IH]. rewrite Ht by done. cbn [negb].
  destruct found; [apply IH|]. destruct (si_result t.2 >=? 0); apply IH.
Qed.

Lemma join_loop_found ts found f : join_loop ts found = Some (Some f) ->
  found = Some f \/ exists c t, In (c, t) ts /\ t.2 = f /\ 0 <= si_result f.
Proof.
  revert found. induction ts as [|[c t] ts IH]; intros found E; cbn [join_loop] in E.
  - injection E as ->. by left.
  - assert (forall found', join_loop ts found' = Some (Some f) -> found' = found ->
      found = Some f \/ exists c0 t0, In (c0, t0) ((c, t) :: ts) /\ t0.2 = f /\ 0 <= si_result f) as Hrec.
    { intros found' E' <-. destruct (IH _ E') as [|(c' & t' & Hin & Hr)]; [by left|].
      right. exists c', t'. split; [by right|done]. }
    destruct c; cbn [negb] in E; [|by eapply Hrec]. destruct (returned t); cbn [negb] in E; [|done].
    destruct found as [f'|]; [by eapply Hrec|].
    destruct (Z.geb_spec (si_result t.2) 0) as [Hr|Hr]; [|by eapply Hrec].
    destruct (IH _ E) as [[= <-]|(c' & t' & Hin & Ht)].
    + right. exists true, t. split_and!; [by left|done|done].
    + right. exists c', t'. split; [by right|done].
Qed.

(** ** The instances at the start *)

Lemma filled_slice S0 st j : trits_ok S0 -> length S0 = STATE_LENGTH -> length st = PCURL_LENGTH -> (j < PTRIT_SIZE)%nat ->
  slice j (at_pos 0 (fun s => ptrits_fill STATE_LENGTH s S0) st) = S0 ++ drop STATE_LENGTH (slice j st).
Proof.
  intros Ht Hl Hs Hj. unfold at_pos. rewrite take_0, drop_0. cbn [app].
  change PCURL_LENGTH with 1095%nat in Hs. change STATE_LENGTH with 729%nat in *.
  rewrite slice_fill by (done || lia). by rewrite take_ge by lia.
Qed.

Section Init.
Context (test : pcurl_t -> Z) (S0 : list Z) (ct : CurlType) (begin_ end_ n_log3 : nat).
Context (HS : length S0 = STATE_LENGTH) (HSt : trits_ok S0) (Hbe : (begin_ + n_log3 <= end_)%nat) (Hend : (end_ <= STATE_LENGTH)%nat).

Definition start := (begin_ + n_log3)%nat.

(** The common state: the initial one with the counter cleared. *)
Definition cleared (p : pcurl_t) : Prop :=
  pcurl_sized p /\ round_count p = rounds ct /\
  forall j, (j < PTRIT_SIZE)%nat -> exists rest,
    slice j (p_state p) = take start S0 ++ replicate (end_ - start) (-1) ++ drop end_ (S0 ++ rest).

Lemma cleared_init st : length st = PCURL_LENGTH ->
  cleared (on_state start (fun s => ptrits_fill (end_ - start) s (replicate CURL_STATE_SIZE (-1)))
    (on_state 0 (fun s => ptrits_fill STATE_LENGTH s S0) (mk_pcurl st (rounds ct)))).
Proof.
  intros Hst. unfold cleared, on_state. cbn [p_state round_count].
  assert (forall n src (l : list ptrit_t), length (ptrits_fill n l src) = length l) as Hf by (intros; apply length_fill).
  set (st1 := at_pos 0 _ st). assert (length st1 = PCURL_LENGTH) as Hl1 by (unfold st1; rewrite length_at_pos; auto).
  split_and!; [|done|].
  - unfold pcurl_sized. cbn [p_state]. by rewrite length_at_pos by auto.
  - intros j Hj. exists (drop STATE_LENGTH (slice j st)). rewrite <- (filled_slice S0 st j) by done. fold st1.
    pose proof (filled_slice S0 st j HSt HS Hst Hj) as E. fold st1 in E.
    unfold at_pos. rewrite slice_app, slice_take. change PCURL_LENGTH with 1095%nat in *. change STATE_LENGTH with 729%nat in *.
    change CURL_STATE_SIZE with 729%nat. unfold start in *.
    rewrite slice_fill; [|apply Forall_replicate; unfold is_trit; lia|done|rewrite length_drop; lia|rewrite length_replicate; lia].
    rewrite slice_drop, drop_drop, take_replicate. rewrite E at 1. rewrite take_app_le by lia. do 2 f_equal.
    + f_equal. lia.
    + f_equal. lia.
Qed.

Lemma init_loop_ok n p value : cleared p -> trits_ok value -> (n_log3 <= length value)%nat ->
  length (init_inst_loop n p n_log3 begin_ end_ value) = n /\
  Forall (fun i => inst_ok test S0 ct begin_ end_ start i /\ counts end_ start i (replicate (end_ - start) (-1)))
    (init_inst_loop n p n_log3 begin_ end_ value).
Proof.
  intros (Hs & Hr & Hsl). revert value. induction n as [|n IH]; intros value Hv Hvl; [done|]. cbn [init_inst_loop].
  unfold pcurl_sized in Hs. change PCURL_LENGTH with 1095%nat in Hs. change STATE_LENGTH with 729%nat in *.
  pose proof (set_iota_spec PTRIT_SIZE 0 n_log3 (drop begin_ (p_state p)) value Hv Hvl
    ltac:(rewrite length_drop; lia) ltac:(lia)) as H.
  unfold ptrit_set_iota. destruct (set_iota_loop _ _ _ _ _) as [range value']. destruct H as (-> & Hrl & Hrs).
  destruct (iter_inc n_log3 value PTRIT_SIZE Hv Hvl) as (Hv' & Hvl' & _).
  destruct (IH _ Hv' ltac:(lia)) as [IHl IHf]. rewrite length_drop in Hrl.
  cbn [length]. split; [lia|]. apply Forall_cons_iff. split; [|exact IHf].
  assert (forall j, (j < PTRIT_SIZE)%nat -> exists vj rest, trits_ok vj /\ length vj = n_log3 /\
    slice j (take begin_ (p_state p) ++ range) =
      take begin_ S0 ++ vj ++ replicate (end_ - start) (-1) ++ drop end_ (S0 ++ rest)) as Hall.
  { intros j Hj. destruct (Hsl j Hj) as [rest E]. exists (take n_log3 (Nat.iter j (trits_inc n_log3) value)), rest.
    destruct (iter_inc n_log3 value j Hv Hvl) as (H1 & H2 & _). split_and!; [by apply Forall_take|rewrite length_take; lia|].
    rewrite slice_app, slice_take, Hrs by done.
    replace ((0 <=? j)%nat && (j <? 0 + PTRIT_SIZE)%nat) with true
      by (symmetry; apply andb_true_intro; split; [by apply Nat.leb_le; lia|by apply Nat.ltb_lt]).
    rewrite Nat.sub_0_r, slice_drop, drop_drop, E. fold start.
    rewrite take_app_le by (rewrite length_take; unfold start; lia). rewrite take_take, Nat.min_l by (unfold start; lia).
    rewrite drop_app_length' by (rewrite length_take; unfold start; lia). done. }
  split; [split; cbn [si_pcurl si_begin si_end si_result]; try done|split].
  - unfold pcurl_sized. cbn [p_state]. rewrite length_app, length_take, Hrl. change PCURL_LENGTH with 1095%nat. lia.
  - intros j Hj. destruct (Hall j Hj) as (vj & rest & H1 & H2 & E). unfold p_trits. cbn [p_state].
    exists (vj ++ replicate (end_ - start) (-1)). split_and!.
    + apply Forall_app. split; [done|]. apply Forall_replicate. unfold is_trit. lia.
    + rewrite length_app, length_replicate. unfold start. lia.
    + rewrite slice_take, E. change CURL_STATE_SIZE with 729%nat. rewrite !(app_assoc _ _ (drop end_ _)), (app_assoc (take begin_ S0)).
      rewrite take_app_ge by (rewrite !length_app, length_take, length_replicate; unfold start; lia). f_equal.
      rewrite !length_app, length_take, length_replicate.
      rewrite take_drop_commute. replace (end_ + _)%nat with (length S0) by (unfold start in *; lia).
      by rewrite take_app_length.
  - apply Forall_replicate. unfold is_trit. lia.
  - intros j Hj. destruct (Hall j Hj) as (vj & rest & H1 & H2 & E). unfold counter. cbn [si_pcurl p_state].
    rewrite slice_take, slice_drop, E, (app_assoc (take begin_ S0)).
    rewrite drop_app_length' by (rewrite length_app, length_take; unfold start; lia).
    by rewrite take_app_length' by (by rewrite length_replicate).
Qed.
End Init.

(** * The search *)

(** Steps that are enough for a counter of [m] trits. *)
Definition enough_steps (m : nat) : nat := Z.to_nat (2 * 3 ^ Z.of_nat m + 2).

Lemma bal_minus_ones m : 2 * bal (replicate m (-1)) = 1 - 3 ^ Z.of_nat m.
Proof. induction m as [|m IH]; [done|]. cbn [replicate bal]. rewrite pow3_S. lia. Qed.

Section Run.
Context (test : pcurl_t -> Z) (created : list bool) (schedule : list nat) (ctx : Curl) (begin_ end_ n_procs : nat).
Context (Hctx : curl_ok ctx) (Hbe : (begin_ <= end_)%nat) (Hend : (end_ <= STATE_LENGTH)%nat).
Context (Hn : (1 <= n_procs)%nat) (Hnp : Z.of_nat (PTRIT_SIZE * n_procs) <= 3 ^ 40).

Definition the_start : nat :=
  match ptrit_log3 (Z.of_nat (PTRIT_SIZE * n_procs)) with
  | Some l => (begin_ + Nat.min (Z.to_nat l) (end_ - begin_))%nat
  | None => begin_
  end.

Definition the_schedule : list nat := filter (fun i => nth i created false = true) schedule.

(** The initial parallel state, and the instances. *)
Definition initial_pcurl : pcurl_t :=
  on_state 0 (fun s => ptrits_fill STATE_LENGTH s (c_state ctx)) (pcurl_init (mk_pcurl [] 0) (rounds (c_type ctx))).

Lemma init_inst_ok : exists insts, init_inst n_procs initial_pcurl begin_ end_ = Some insts /\
  length insts = n_procs /\ (begin_ <= the_start <= end_)%nat /\
  Forall (fun i => inst_ok test (c_state ctx) (c_type ctx) begin_ end_ the_start i /\
                   counts end_ the_start i (replicate (end_ - the_start) (-1))) insts.
Proof.
  destruct Hctx as [Hl Ht]. unfold init_inst, the_start.
  destruct (log3_loop_spec 42 (Z.of_nat (PTRIT_SIZE * n_procs)) 0) as (log3 & E & _);
    [unfold PTRIT_SIZE in *; lia|done|lia|lia|].
  assert (ptrit_log3 (Z.of_nat (PTRIT_SIZE * n_procs)) = Some (Z.of_nat log3)) as El by exact E.
  rewrite El, Nat2Z.id. set (n_log3 := Nat.min log3 (end_ - begin_)).
  assert (begin_ + n_log3 <= end_)%nat as Hne by lia.
  pose proof (cleared_init (c_state ctx) (c_type ctx) begin_ end_ n_log3 Hl Ht Hne Hend
    (replicate PCURL_LENGTH (mk_ptrit (u64 (-1)) (u64 (-1)))) (length_replicate _ _)) as Hc.
  destruct (init_loop_ok test (c_state ctx) (c_type ctx) begin_ end_ n_log3 Hl Hne Hend n_procs _
    (replicate CURL_STATE_SIZE (-1)) Hc) as [Hil Hif].
  { apply Forall_replicate. unfold is_trit. lia. }
  { rewrite length_replicate. change STATE_LENGTH with 729%nat in *. change CURL_STATE_SIZE with 729%nat. lia. }
  eexists. split; [reflexivity|]. split; [exact Hil|]. split; [lia|exact Hif].
Qed.

(** The state in which the threads are joined. *)
Lemma search_run : exists st,
  length (threads st) = n_procs /\
  threads_ok test (c_state ctx) (c_type ctx) begin_ end_ the_start
    (fun i => enough_steps (end_ - the_start) - count_occ Nat.eq_dec the_schedule i)%nat st /\
  pd_search_n test true created schedule ctx begin_ end_ n_procs =
    match join_loop (rev (zip created (threads st))) None with
    | None => None
    | Some None => Some (PEARL_DIVER_ERROR, ctx)
    | Some (Some found) =>
        let sub := ptrits_get_slice (end_ - begin_) (drop begin_ (c_state ctx))
                     (drop begin_ (p_state (si_pcurl found))) (Z.to_nat (si_result found)) in
        Some (PEARL_DIVER_SUCCESS, mkCurl (take begin_ (c_state ctx) ++ sub) (c_type ctx))
    end.
Proof.
  destruct init_inst_ok as (insts & E & Hil & Hs & Hif).
  unfold pd_search_n. cbn [negb]. cbv zeta. fold initial_pcurl. rewrite E. fold the_schedule.
  pose proof (run_ok test (c_state ctx) (c_type ctx) begin_ end_ the_start (proj1 Hctx) Hs Hend
    the_schedule (fun _ => enough_steps (end_ - the_start))
    (mk_search SEARCH_RUNNING (map (fun i => (AtCheck, i)) insts))) as Hrun.
  destruct Hrun as [H1 H2].
  - intros i t Hi. cbn [threads] in Hi. apply list_lookup_fmap_Some in Hi as (inst & -> & Hi).
    pose proof (proj1 (Forall_lookup _ _) Hif i inst Hi) as [Hok Hct]. cbn [fst snd].
    split_and!; [done|done|]. exists (replicate (end_ - the_start) (-1)).
    split_and!; [exact Hct|apply length_replicate|]. rewrite bal_minus_ones. unfold enough_steps.
    rewrite Z2Nat.id; [lia|]. pose proof (pow3_pos (end_ - the_start)). lia.
  - eexists. split_and!; [|exact H1|reflexivity]. rewrite H2. cbn [threads]. by rewrite length_map.
Qed.
End Run.

Lemma count_the_schedule created schedule i : nth i created false = true ->
  count_occ Nat.eq_dec (the_schedule created schedule) i = count_occ Nat.eq_dec schedule i.
Proof.
  intros Hcr. unfold the_schedule. induction schedule as [|j l IH]; [done|]. rewrite filter_cons.
  destruct (decide (nth j created false = true)) as [Hj|Hj]; cbn [count_occ];
    destruct (Nat.eq_dec j i) as [->|]; congruence.
Qed.

(** ** Soundness *)

(** Whatever the interleaving of the threads, when the search reports success
    the state of [ctx] has changed only in [begin .. end), and its transform is a
    slice of a transformed parallel state that passed the test. *)
Lemma pd_search_sound test alloc created schedule ctx begin_ end_ n_procs ctx' :
  curl_ok ctx -> (begin_ <= end_)%nat -> (end_ <= STATE_LENGTH)%nat -> (1 <= n_procs)%nat ->
  Z.of_nat (PTRIT_SIZE * n_procs) <= 3 ^ 40 ->
  (forall p, 0 <= test p -> (Z.to_nat (test p) < PTRIT_SIZE)%nat) ->
  pd_search_n test alloc created schedule ctx begin_ end_ n_procs = Some (PEARL_DIVER_SUCCESS, ctx') ->
  c_type ctx' = c_type ctx /\ curl_ok ctx' /\
  take begin_ (c_state ctx') = take begin_ (c_state ctx) /\ drop end_ (c_state ctx') = drop end_ (c_state ctx) /\
  exists p, 0 <= test p /\ simulates (Z.to_nat (test p)) p (transform ctx').
Proof.
  intros Hctx Hbe Hend Hn Hnp Htest E. destruct alloc; [|done].
  destruct (search_run test created schedule ctx begin_ end_ n_procs Hctx Hbe Hend Hn Hnp) as (st & Hl & Hok & Er).
  rewrite Er in E. clear Er. destruct (join_loop _ None) as [[f|]|] eqn:Ej; [|done|done]. cbv zeta in E.
  injection E as <-. destruct (join_loop_found _ _ _ Ej) as [|(c & t & Hin & <- & Hr)]; [done|].
  apply in_rev, list_elem_of_In in Hin. apply list_elem_of_lookup in Hin as (i & Hi).
  apply lookup_zip_with_Some in Hi as (c' & t' & [= <- <-] & _ & Hi).
  destruct (Hok i t Hi) as ([Hs Hrd Hb He Hsl Hres] & _). specialize (Hres Hr).
  set (p := si_pcurl t.2) in *. destruct Hctx as [Hcl Hct].
  assert (Z.to_nat (si_result t.2) < PTRIT_SIZE)%nat as Hlt by (rewrite <- Hres; apply Htest; lia).
  destruct (Hsl _ Hlt) as (v & Hv & Hvl & Ev). unfold pcurl_sized in Hs.
  unfold p_trits in Ev. rewrite slice_take in Ev. change CURL_STATE_SIZE with STATE_LENGTH in Ev.
  change STATE_LENGTH with 729%nat in *. change PCURL_LENGTH with 1095%nat in Hs.
  assert (take begin_ (c_state ctx) ++ ptrits_get_slice (end_ - begin_) (drop begin_ (c_state ctx))
    (drop begin_ (p_state p)) (Z.to_nat (si_result t.2)) = take begin_ (c_state ctx) ++ v ++ drop end_ (c_state ctx)) as Ec.
  { rewrite get_slice_eq by (rewrite length_drop; lia). rewrite drop_drop. f_equal.
    replace (begin_ + (end_ - begin_))%nat with end_ by lia. f_equal.
    rewrite slice_drop. apply (f_equal (fun l => take (end_ - begin_) (drop begin_ l))) in Ev.
    rewrite drop_app_length' in Ev by (rewrite length_take; lia). rewrite take_app_length' in Ev by lia.
    rewrite <- Ev, <- skipn_firstn_comm, firstn_skipn_comm. 
    rewrite take_take. f_equal. f_equal. lia. }
  rewrite Ec. cbn [c_type c_state]. assert (simulates (Z.to_nat (si_result t.2)) p
    (mkCurl (take begin_ (c_state ctx) ++ v ++ drop end_ (c_state ctx)) (c_type ctx))) as Hsim.
  { unfold simulates, pcurl_sized. cbn [c_type c_state]. split_and!; [exact Hs|exact Hrd| |].
    - unfold p_trits. by rewrite slice_take.
    - solve_forall. }
  split_and!; [done|by eapply simulates_ok| | |].
  - rewrite take_app_length' by (rewrite length_take; lia). done.
  - rewrite app_assoc, drop_app_length' by (rewrite length_app, length_take; lia). done.
  - exists (pcurl_transform p). rewrite Hres. split; [done|]. by apply simulates_transform.
Qed.

(** ** The tests *)

Lemma hashcash_test_range mwm p : 0 <= hashcash_test mwm p -> (Z.to_nat (hashcash_test mwm p) < PTRIT_SIZE)%nat.
Proof.
  unfold hashcash_test. pose proof (find_zero_slice_le (Z.to_nat mwm) (drop (Z.to_nat (Z.of_nat HASH_LENGTH_TRIT - mwm)) (p_state p))).
  set (i := ptrits_find_zero_slice _ _) in *.
  destruct (Nat.eqb_spec PTRIT_SIZE i) as [E|]; [lia|]. rewrite Nat2Z.id. lia.
Qed.

(** Success of [hashcash]: the last [mwm] trits of the hash are zero. *)
Lemma hashcash_ok alloc created schedule ctx begin_ end_ mwm n_procs ctx' :
  curl_ok ctx -> (begin_ <= end_)%nat -> (end_ <= STATE_LENGTH)%nat -> (1 <= n_procs)%nat ->
  Z.of_nat (PTRIT_SIZE * n_procs) <= 3 ^ 40 -> 0 <= mwm <= Z.of_nat HASH_LENGTH_TRIT ->
  hashcash alloc created schedule ctx begin_ end_ mwm n_procs = Some (PEARL_DIVER_SUCCESS, ctx') ->
  c_type ctx' = c_type ctx /\ curl_ok ctx' /\
  take begin_ (c_state ctx') = take begin_ (c_state ctx) /\ drop end_ (c_state ctx') = drop end_ (c_state ctx) /\
  drop (HASH_LENGTH_TRIT - Z.to_nat mwm) (take HASH_LENGTH_TRIT (c_state (transform ctx'))) = replicate (Z.to_nat mwm) 0.
Proof.
  intros Hctx Hbe Hend Hn Hnp Hm E.
  destruct (pd_search_sound (hashcash_test mwm) alloc created schedule ctx begin_ end_ n_procs ctx' Hctx Hbe Hend Hn Hnp
    (hashcash_test_range mwm) E) as (H1 & H2 & H3 & H4 & p & Hp & Hsim).
  split_and!; [done..|]. destruct Hsim as (Hs & _ & Es & _). rewrite <- Es. clear Es.
  unfold pcurl_sized in Hs. change PCURL_LENGTH with 1095%nat in Hs. change HASH_LENGTH_TRIT with 243%nat in *.
  revert Hp. unfold hashcash_test. change HASH_LENGTH_TRIT with 243%nat.
  replace (Z.to_nat (Z.of_nat 243 - mwm)) with (243 - Z.to_nat mwm)%nat by lia.
  set (m := Z.to_nat mwm) in *. assert (m <= 243)%nat by lia.
  destruct (find_zero_slice_spec m (drop (243 - m) (p_state p))) as (Hle & Hz & _); [rewrite length_drop; lia|].
  set (i := ptrits_find_zero_slice _ _) in *. destruct (Nat.eqb_spec PTRIT_SIZE i) as [Ei|Ei]; [lia|].
  intros _. rewrite Nat2Z.id. specialize (Hz ltac:(lia)). rewrite slice_take, slice_drop in Hz.
  unfold p_trits. rewrite slice_take, take_take. change (243 `min` CURL_STATE_SIZE)%nat with 243%nat.
  rewrite take_drop_commute in Hz. replace (243 - m + m)%nat with 243%nat in Hz by lia.
  apply (nth_ext _ _ 0 0); rewrite length_drop, length_take, length_slice, ?length_replicate; [lia|].
  intros k Hk. rewrite (nth_lookup_Some (replicate m 0) k 0 0) by (apply lookup_replicate_2; lia). rewrite List.Forall_forall in Hz. apply Hz, nth_In.
  rewrite length_drop, length_take, length_slice. lia.
Qed.

(** ** Hamming *)

Lemma hamming_inner_spec ps i security : trits_ok (take (security * 81) (slice i ps)) ->
  (security * 81 <= length ps)%nat -> (security <= 1000)%nat -> forall fuel j, (j + fuel = security)%nat ->
  hamming_inner fuel security j (drop (j * 81) ps) i (zsum (take (j * 81) (slice i ps))) = security ->
  (j < security)%nat ->
  zsum (take (security * 81) (slice i ps)) = 0 /\
  forall k, (j < k < security)%nat -> zsum (take (k * 81) (slice i ps)) <> 0.
Proof.
  intros Ht Hl Hsec. induction fuel as [|fuel IH]; intros j Hj E Hlt; [lia|]. cbn [hamming_inner] in E.
  replace (j <? security)%nat with true in E by (symmetry; apply Nat.ltb_lt; lia).
  change (HASH_LENGTH_TRIT / 3)%nat with 81%nat in E.
  assert (forall k, (k <= security)%nat -> take (k * 81) (take (security * 81) (slice i ps)) = take (k * 81) (slice i ps)) as Htk.
  { intros k Hk. rewrite take_take. f_equal. lia. }
  assert (i64 (zsum (take (j * 81) (slice i ps)) + ptrits_sum_slice 81 (drop (j * 81) ps) i) =
    zsum (take (S j * 81) (slice i ps))) as Es.
  { assert (take (j * 81) (slice i ps) ++ take 81 (drop (j * 81) (slice i ps)) = take (S j * 81) (slice i ps)) as Ej.
    { replace (S j * 81)%nat with (j * 81 + 81)%nat by lia. apply take_take_drop. }
    unfold ptrits_sum_slice. rewrite sum_slice_spec.
    - rewrite Z.add_0_l, slice_drop, <- zsum_app, Ej, <- Htk by lia.
      pose proof (zsum_bound _ (Forall_take _ (S j * 81) _ Ht)) as Hb. rewrite !length_take in Hb.
      apply swrap_small; lia.
    - rewrite length_drop. nia.
    - rewrite slice_drop. apply (Forall_take _ (S j * 81)) in Ht. rewrite Htk, <- Ej in Ht by lia.
      by apply Forall_app in Ht as [_ Ht].
    - unfold INT64_MAX. lia. }
  rewrite Es in E. destruct (Z.eqb_spec (zsum (take (S j * 81) (slice i ps))) 0) as [E0|E0].
  - assert (S j = security) as <- by done. split; [done|]. intros k Hk. lia.
  - rewrite drop_drop in E. replace (j * 81 + 81)%nat with (S j * 81)%nat in E by lia.
    destruct (decide (S j = security)) as [Hs|Hs].
    + destruct fuel as [|fuel]; [|lia]. cbn [hamming_inner] in E. lia.
    + destruct (IH (S j) ltac:(lia) E ltac:(lia)) as [H1 H2]. split; [done|].
      intros k Hk. destruct (decide (k = S j)) as [->|]; [done|]. apply H2. lia.
Qed.

Lemma hamming_loop_spec security p n i : 0 <= hamming_loop n i security p ->
  exists j, (i <= j < i + n)%nat /\ hamming_loop n i security p = Z.of_nat j /\
    hamming_inner security security 0 (p_state p) j 0 = security.
Proof.
  revert i. induction n as [|n IH]; intros i; cbn [hamming_loop]; [lia|].
  destruct (Nat.eqb_spec security (hamming_inner security security 0 (p_state p) i 0)) as [E|E].
  - intros _. exists i. split_and!; [lia|lia|done|done].
  - intros H. destruct (IH (S i) H) as (j & Hj & H1 & H2). exists j. split_and!; [lia|lia|done|done].
Qed.

(** ** One thread that succeeds at once *)

Lemma pd_search_at_once test ctx begin_ end_ i : init_inst 1 (initial_pcurl ctx) begin_ end_ = Some [i] ->
  0 <= test (pcurl_transform (si_pcurl i)) ->
  exists ctx', pd_search_n test true [true] [0; 0; 0]%nat ctx begin_ end_ 1 = Some (PEARL_DIVER_SUCCESS, ctx').
Proof.
  intros E Ht. unfold pd_search_n. cbn [negb]. unfold initial_pcurl in E. cbv zeta. rewrite E. clear E. cbn [map].
  assert (filter (fun j => nth j [true] false = true) [0; 0; 0]%nat = [0; 0; 0]%nat) as -> by reflexivity.
  cbn [foldl]. unfold search_step. cbn [threads lookup list_lookup overall_status thread_step].
  cbn [put_status si_status]. rewrite bool_decide_eq_true_2 by done. cbn [negb].
  cbn [threads lookup list_lookup overall_status thread_step list_insert insert].
  cbn [put_result put_status si_result si_pcurl].
  destruct (Z.geb_spec (test (pcurl_transform (si_pcurl i))) 0) as [_|]; [|lia].
  cbn [threads lookup list_lookup overall_status thread_step list_insert insert].
  cbn [zip zip_with rev app join_loop negb returned fst snd put_result si_result].
  destruct (Z.geb_spec (test (pcurl_transform (si_pcurl i))) 0) as [_|]; [|lia]. by eexists.
Qed.

(** The state of zeros, which stays as it is. *)
Definition zero_curl : Curl := mkCurl (replicate STATE_LENGTH 0) CURL_P_81.

Lemma zero_curl_ok : curl_ok zero_curl.
Proof. apply (curl_reset_ok (mkCurl [] CURL_P_81)). Qed.

(** With nothing to search for, the first test is that of the state of zeros. *)
Lemma zero_at_once test : (forall p, simulates 0 p zero_curl -> 0 <= test p) ->
  exists ctx', pd_search_n test true [true] [0; 0; 0]%nat zero_curl 243 243 1 = Some (PEARL_DIVER_SUCCESS, ctx').
Proof.
  intros Htest. destruct (init_inst_ok test zero_curl 243 243 1 zero_curl_ok) as (insts & E & Hl & Hs & Hf);
    [lia|apply Nat.leb_le; reflexivity|lia|vm_compute; discriminate|].
  destruct insts as [|i [|]]; simpl in Hl; try lia.
  apply (pd_search_at_once test _ _ _ i E), Htest.
  apply Forall_cons_iff in Hf as [[[H1 H2 _ _ Hsl _] _] _].
  assert (0 < PTRIT_SIZE)%nat as H0 by (apply Nat.ltb_lt; reflexivity).
  replace zero_curl with (transform zero_curl) by apply transform_zero. apply simulates_transform; [done|].
  split_and!; [done|done| |apply zero_curl_ok].
  destruct (Hsl 0%nat H0) as (v & _ & Hv & ->). destruct v; [|simpl in Hv; lia]. apply take_drop.
Qed.

Lemma simulates_zero_slice p n : simulates 0 p zero_curl -> (n <= STATE_LENGTH)%nat ->
  (n <= length (p_state p))%nat /\ slice 0 (take n (p_state p)) = replicate n 0.
Proof.
  intros (Hs & _ & E & _) Hn. split.
  - unfold pcurl_sized in Hs. rewrite Hs. change PCURL_LENGTH with 1095%nat. change STATE_LENGTH with 729%nat in Hn. lia.
  - replace (replicate n 0) with (take n (c_state zero_curl)) by (cbn [zero_curl c_state]; rewrite take_replicate; f_equal; lia).
    rewrite <- E. unfold p_trits. rewrite !slice_take, take_take. f_equal.
    change CURL_STATE_SIZE with STATE_LENGTH. lia.
Qed.

Lemma zsum_zeros n : zsum (replicate n 0) = 0.
Proof. unfold zsum. induction n as [|n IH]; [done|]. cbn [replicate foldr]. lia. Qed.

Lemma hamming_zero p : simulates 0 p zero_curl -> 0 <= hamming_test 1 p.
Proof.
  intros H. destruct (simulates_zero_slice p 81 H) as [Hl E]; [apply Nat.leb_le; reflexivity|].
  rewrite slice_take in E. unfold hamming_test, PTRIT_SIZE. cbn [hamming_loop hamming_inner].
  change (0 <? 1)%nat with true. change (HASH_LENGTH_TRIT / 3)%nat with 81%nat. cbv iota.
  unfold ptrits_sum_slice. rewrite sum_slice_spec, E, zsum_zeros by
    (rewrite ?E; (apply Forall_replicate; unfold is_trit; lia) || done || (unfold INT64_MAX; lia)).
  exact (Z.le_refl 0).
Qed.

(** * Properties *)

(** C25: the search ends: in any schedule in which every thread that could be
    created gets [2 * 3^m + 2] steps, [m] being the number of trits its counter
    has, all threads have returned when they are joined. *)
Theorem pd_search_terminates test alloc created schedule ctx begin_ end_ n_procs :
  curl_ok ctx -> (begin_ <= end_)%nat -> (end_ <= STATE_LENGTH)%nat -> (1 <= n_procs)%nat ->
  Z.of_nat (PTRIT_SIZE * n_procs) <= 3 ^ 40 ->
  (forall i, (i < n_procs)%nat -> nth i created false = true ->
     (enough_steps (end_ - begin_) <= count_occ Nat.eq_dec schedule i)%nat) ->
  exists r, pd_search_n test alloc created schedule ctx begin_ end_ n_procs = Some r.
Proof.
  intros Hctx Hbe Hend Hn Hnp Hfair. destruct alloc; [|by eexists].
  destruct (search_run test created schedule ctx begin_ end_ n_procs Hctx Hbe Hend Hn Hnp) as (st & Hl & Hok & Er).
  rewrite Er. clear Er.
  destruct (join_loop_complete (rev (zip created (threads st))) None) as [r ->]; [|by destruct r; eexists].
  apply List.Forall_rev, Forall_lookup. intros i [c t] Hi Hc. cbn [fst snd] in *. subst c.
  apply lookup_zip_with_Some in Hi as (c' & t' & [= <- <-] & Hi1 & Hi2).
  destruct (Hok i t Hi2) as (_ & _ & Hk).
  assert (nth i created false = true) as Hcr by (by apply nth_lookup_Some).
  pose proof (count_the_schedule created schedule i Hcr) as Ecount.
  rewrite Ecount in Hk.
  replace (_ - _)%nat with 0%nat in Hk; [apply at_most_0 in Hk; [unfold returned; by rewrite Hk|..]|].
  pose proof (Hfair i ltac:(apply lookup_lt_Some in Hi2; lia) Hcr) as Hf.
  assert (enough_steps (end_ - the_start begin_ end_ n_procs) <= enough_steps (end_ - begin_))%nat; [|lia].
  unfold enough_steps. apply Z2Nat.inj_le; [pose proof (pow3_pos (end_ - the_start begin_ end_ n_procs)); lia|
    pose proof (pow3_pos (end_ - begin_)); lia|].
  assert (begin_ <= the_start begin_ end_ n_procs)%nat by (unfold the_start; destruct (ptrit_log3 _); lia).
  assert (3 ^ Z.of_nat (end_ - the_start begin_ end_ n_procs) <= 3 ^ Z.of_nat (end_ - begin_))
    by (apply Z.pow_le_mono_r; lia). lia.
Qed.

Lemma pd_search_terminates_witness : exists r,
  pd_search_n (fun _ => 0) true [true; false] (replicate 8 0%nat ++ replicate 8 0%nat) zero_curl 162 163 2 = Some r.
Proof.
  apply pd_search_terminates.
  - apply (curl_reset_ok (mkCurl [] CURL_P_81)).
  - lia.
  - apply Nat.leb_le. reflexivity.
  - lia.
  - vm_compute. discriminate.
  - intros [|[|i]] Hi Hc; [vm_compute; lia|discriminate|lia].
Defined.

(** When [hamming] succeeds, the first [81 * security] trits of the hash sum
    to zero, and no shorter sequence of whole fragments does, so that the message
    has exactly the security level that was asked for. *)
Theorem hamming_sound alloc created schedule ctx begin_ end_ security n_procs ctx' :
  curl_ok ctx -> (begin_ <= end_)%nat -> (end_ <= STATE_LENGTH)%nat -> (1 <= n_procs)%nat ->
  Z.of_nat (PTRIT_SIZE * n_procs) <= 3 ^ 40 -> (0 < security <= 3)%nat ->
  hamming alloc created schedule ctx begin_ end_ security n_procs = Some (PEARL_DIVER_SUCCESS, ctx') ->
  take begin_ (c_state ctx') = take begin_ (c_state ctx) /\ drop end_ (c_state ctx') = drop end_ (c_state ctx) /\
  let hash := take HASH_LENGTH_TRIT (c_state (transform ctx')) in
  zsum (take (security * 81) hash) = 0 /\
  forall k, (0 < k < security)%nat -> zsum (take (k * 81) hash) <> 0.
Proof.
  intros Hctx Hbe Hend Hn Hnp Hsec E.
  assert (forall p, 0 <= hamming_test security p -> (Z.to_nat (hamming_test security p) < PTRIT_SIZE)%nat) as Hrange.
  { intros p Hp. destruct (hamming_loop_spec security p PTRIT_SIZE 0 Hp) as (j & Hj & Ej & _).
    unfold hamming_test. rewrite Ej, Nat2Z.id. lia. }
  destruct (pd_search_sound (hamming_test security) alloc created schedule ctx begin_ end_ n_procs ctx' Hctx Hbe Hend Hn Hnp
    Hrange E) as (_ & _ & H3 & H4 & p & Hp & Hs & _ & Es & Ht).
  split_and!; [done|done|]. cbv zeta.
  destruct (hamming_loop_spec security p PTRIT_SIZE 0 Hp) as (j & Hj & Ej & Hin).
  unfold hamming_test in Es. rewrite Ej, Nat2Z.id in Es. rewrite <- Es in Ht |- *. clear Es.
  unfold p_trits in *. unfold pcurl_sized in Hs. change PCURL_LENGTH with 1095%nat in Hs. change CURL_STATE_SIZE with 729%nat in *.
  change HASH_LENGTH_TRIT with 243%nat.
  rewrite slice_take in Ht |- *. rewrite (take_take _ 243 729). change (243 `min` 729)%nat with 243%nat.
  assert (forall k, (k <= 3)%nat -> take (k * 81) (take 243 (slice j (p_state p))) =
    take (k * 81) (slice j (p_state p))) as Htk.
  { intros k Hk. rewrite take_take. f_equal. lia. }
  rewrite Htk by lia.
  destruct (hamming_inner_spec (p_state p) j security) with (fuel := security) (j := 0%nat) as [H1 H2]; try lia.
  - apply (Forall_take _ (security * 81)) in Ht. rewrite take_take in Ht.
    rewrite Nat.min_l in Ht by lia. exact Ht.
  - exact Hin.
  - split; [done|]. intros k Hk. rewrite Htk by lia. by apply H2.
Qed.

Lemma hamming_sound_witness : exists ctx',
  hamming true [true] [0; 0; 0]%nat zero_curl 243 243 1 1 = Some (PEARL_DIVER_SUCCESS, ctx') /\
  let hash := take HASH_LENGTH_TRIT (c_state (transform ctx')) in
  zsum (take (1 * 81) hash) = 0 /\ forall k, (0 < k < 1)%nat -> zsum (take (k * 81) hash) <> 0.
Proof.
  destruct (zero_at_once (hamming_test 1) hamming_zero) as [ctx' E]. exists ctx'. split; [exact E|].
  refine (proj2 (proj2 (hamming_sound true [true] [0; 0; 0]%nat zero_curl 243 243 1 1 ctx' zero_curl_ok _ _ _ _ _ E))).
  - lia.
  - apply Nat.leb_le. reflexivity.
  - lia.
  - vm_compute. discriminate.
  - lia.
Defined.
