(* ===== verification/Pow.v ===== *)
(** * Proof of work

    [common/helpers/pow.c]: the search for a nonce with [hashcash], and the
    attachment of a bundle to the tangle, from its last transaction to its first. *)
From S2P Require Import Prelude Errors Trits TritLong FlexTrit Sponge Curl PTrit PCurl PearlDiver Transaction Sign Bundle.

Definition NONCE_LENGTH : nat := 27 * 3.

(** What the environment contributes to one search: whether its allocations
    succeed, which threads are created, how they are scheduled, and the number of
    processors. *)
Record search_run := mk_run {
  sr_alloc : bool; sr_created : list bool; sr_schedule : list nat; sr_procs : nat
}.

(** [None]: the schedule ends before the threads have returned.  The buffer has
    one more element than the nonce. *)
Definition do_pow (run : search_run) (curl : Curl) (trits_in : list Z) (mwm : Z) : option (option (list Z)) :=
  let trits_len := length trits_in in
  let nonce_trits := replicate (NONCE_LENGTH + 1) 0 in
  let curl := curl_absorb curl (take (trits_len - HASH_LENGTH_TRIT) trits_in) in
  let curl := mkCurl (buf_write 0 (buf_read (trits_len - HASH_LENGTH_TRIT) HASH_LENGTH_TRIT trits_in) (c_state curl))
                     (c_type curl) in
  match hashcash (sr_alloc run) (sr_created run) (sr_schedule run) curl (HASH_LENGTH_TRIT - NONCE_LENGTH)
          HASH_LENGTH_TRIT mwm (sr_procs run) with
  | None => None
  | Some (PEARL_DIVER_SUCCESS, curl) =>
      Some (Some (buf_write 0 (buf_read (HASH_LENGTH_TRIT - NONCE_LENGTH) NONCE_LENGTH (c_state curl)) nonce_trits))
  | Some _ => Some None
  end.

Definition pow_curl : Curl := mkCurl (c_state (curl_init (mkCurl [] CURL_P_81))) CURL_P_81.

(** The argument is a C string. *)
Definition iota_pow_trytes (run : search_run) (alloc alloc_nonce : bool) (trytes_in : list Z) (mwm : Z)
    : option (option (list Z)) :=
  let tryte_len := strnlen trytes_in (length trytes_in) in
  if negb alloc then Some None else
  let trits := trytes_to_trits (take tryte_len trytes_in) in
  match do_pow run pow_curl trits mwm with
  | None => None
  | Some None => Some None
  | Some (Some nonce_trits) =>
      if negb alloc_nonce then Some None else
      let nonce_trytes := replicate (NUM_TRITS_NONCE / 3 + 1) 0 in
      Some (Some (buf_write 0 (trits_to_trytes (take NUM_TRITS_NONCE nonce_trits)) nonce_trytes))
  end.

Definition iota_pow_flex (run : search_run) (alloc alloc_nonce : bool) (flex_trits_in : list Z) (mwm : Z)
    : option (option (list Z)) :=
  let num_trits := length flex_trits_in in
  if negb alloc then Some None else
  let trits := (flex_trits_to_trits (replicate num_trits 0) num_trits flex_trits_in num_trits num_trits).2 in
  match do_pow run pow_curl trits mwm with
  | None => None
  | Some None => Some None
  | Some (Some nonce_trits) =>
      if negb alloc_nonce then Some None else
      Some (Some (flex_trits_from_trits (replicate NUM_TRITS_NONCE 0) NUM_TRITS_NONCE nonce_trits
                    NUM_TRITS_NONCE NUM_TRITS_NONCE).2)
  end.

(** ** Attaching a bundle *)

(** The environment of one round: the search, the allocations, the clock, and the
    contents of the stack and of the buffer. *)
Record pow_env := mk_env {
  pe_run : search_run; pe_alloc : bool; pe_alloc_nonce : bool; pe_alloc_digest : bool * bool;
  pe_time : Z; pe_partial : list Z
}.

Inductive pow_result :=
| PowReturned (rc : retcode_t) (bundle : bundle_transactions_t)
| PowUndefined
| PowUnfinished.

(** The position of the first transaction with this index. *)
Fixpoint find_index (bundle : bundle_transactions_t) (cur_idx : Z) : option nat :=
  match bundle with
  | [] => None
  | tx :: bundle => if transaction_current_index tx =? cur_idx then Some O else S <$> find_index bundle cur_idx
  end.

Definition FLEX_TRIT_SIZE_27 : nat := 27.

(** The fields that are set before the search. *)
Definition attach (time : Z) (tx : iota_transaction_t) (trunk branch : list Z) : iota_transaction_t :=
  let tx := transaction_set_trunk tx trunk in
  let tx := transaction_set_branch tx branch in
  let tx := transaction_set_attachment_timestamp tx (u64 time) in
  let tx := transaction_set_attachment_timestamp_lower tx 0 in
  transaction_set_attachment_timestamp_upper tx 3812798742493.

Definition fill_tag (tx : iota_transaction_t) : iota_transaction_t :=
  if flex_trits_are_null (transaction_tag tx) FLEX_TRIT_SIZE_27
  then put_tag (buf_write 0 (take FLEX_TRIT_SIZE_27 (transaction_obsolete_tag tx)) (transaction_tag tx)) tx
  else tx.

Definition prepare (env : pow_env) (tx : iota_transaction_t) (trunk branch : list Z) : iota_transaction_t :=
  fill_tag (attach (pe_time env) tx trunk branch).

(** The body of [do ... while (cur_idx != 0)]; [continue] is what follows when the
    condition holds. *)
Definition pow_round (continue : list Z -> Z -> option (list Z) -> bundle_transactions_t -> pow_result)
    (env : pow_env) (trunk branch : list Z) (mwm : Z)
    (txflex : list Z) (cur_idx : Z) (ctrunk : option (list Z)) (bundle : bundle_transactions_t) : pow_result :=
  let cur_idx := u64 (cur_idx - 1) in
  match find_index bundle cur_idx with
  | None => PowReturned RC_HELPERS_POW_INVALID_TX bundle
  | Some pos =>
      match bundle !! pos with
      | None => PowUndefined
      | Some tx =>
          match (if transaction_current_index tx =? transaction_last_index tx then Some (trunk, branch)
                 else match ctrunk with Some ctrunk => Some (ctrunk, trunk) | None => None end) with
          | None => PowUndefined
          | Some (t, b) =>
              let tx := prepare env tx t b in
              let txflex := (transaction_serialize_to_flex_trits (pe_partial env) tx txflex).2 in
              match iota_pow_flex (pe_run env) (pe_alloc env) (pe_alloc_nonce env) txflex mwm with
              | None => PowUnfinished
              | Some None => PowReturned RC_OOM (<[pos := tx]> bundle)
              | Some (Some nonce) =>
                  let tx := transaction_set_nonce tx nonce in
                  let bundle := <[pos := tx]> bundle in
                  if negb (transaction_current_index tx =? 0) then
                    let txflex := (transaction_serialize_to_flex_trits (pe_partial env) tx txflex).2 in
                    match iota_flex_digest (pe_alloc_digest env).1 (pe_alloc_digest env).2 txflex
                            NUM_TRITS_SERIALIZED_TRANSACTION with
                    | None => PowReturned RC_OOM bundle
                    | Some digest =>
                        if negb (cur_idx =? 0) then continue txflex cur_idx (Some digest) bundle
                        else PowReturned RC_OK bundle
                    end
                  else
                    if negb (cur_idx =? 0) then continue txflex cur_idx None bundle
                    else PowReturned RC_OK bundle
              end
          end
      end
  end.

(** [round] numbers the environments. *)
Fixpoint pow_loop (fuel round : nat) (envs : nat -> pow_env) (trunk branch : list Z) (mwm : Z)
    (txflex : list Z) (cur_idx : Z) (ctrunk : option (list Z)) (bundle : bundle_transactions_t) : pow_result :=
  match fuel with
  | O => PowUnfinished
  | S fuel =>
      pow_round (pow_loop fuel (S round) envs trunk branch mwm) (envs round) trunk branch mwm txflex cur_idx ctrunk bundle
  end.

(** The fuel is a bound on the rounds. *)
Definition iota_pow_bundle (fuel : nat) (envs : nat -> pow_env) (txflex : list Z)
    (bundle : option bundle_transactions_t) (trunk branch : option (list Z)) (mwm : Z) : pow_result :=
  match bundle, trunk, branch with
  | Some bundle, Some trunk, Some branch =>
      match bundle with
      | [] => PowReturned RC_OK []
      | tx :: _ =>
          let cur_idx := u64 (transaction_last_index tx + 1) in
          pow_loop fuel 0 envs trunk branch mwm txflex cur_idx None bundle
      end
  | b, _, _ => PowReturned RC_NULL_PARAM (default [] b)
  end.

(** * A nonce that was found is a proof of work *)

(** A hash with [mwm] trailing zero trits. *)
Definition heavy (mwm : Z) (hash : list Z) : Prop :=
  drop (HASH_LENGTH_TRIT - Z.to_nat mwm) hash = replicate (Z.to_nat mwm) 0.

Definition run_ok (run : search_run) : Prop :=
  (1 <= sr_procs run)%nat /\ Z.of_nat (PTRIT_SIZE * sr_procs run) <= 3 ^ 40.

Lemma curl_digest_block c ts b : curl_ok c -> (exists k, length ts = (k * HASH_LENGTH_TRIT)%nat) -> length b = HASH_LENGTH_TRIT ->
  (curl_digest (ts ++ b) c).1 =
  take HASH_LENGTH_TRIT (c_state (transform (mkCurl (buf_write 0 b (c_state (curl_absorb c ts))) (c_type c)))).
Proof.
  intros Hc [k Hk] Hb. unfold curl_digest. rewrite (curl_absorb_app k) by done.
  set (c1 := curl_absorb c ts). assert (c_type c1 = c_type c) as Et by apply curl_absorb_type.
  assert (curl_absorb c1 b = transform (mkCurl (buf_write 0 b (c_state c1)) (c_type c1))) as ->.
  { unfold curl_absorb at 1. rewrite <- (app_nil_r b) at 1.
    rewrite chunks_app_exact by (done || (unfold HASH_LENGTH_TRIT; lia)). done. }
  rewrite Et. unfold curl_squeeze.
  change (HASH_LENGTH_TRIT / HASH_LENGTH_TRIT + _)%nat with 1%nat. cbn [curl_squeeze_loop].
  rewrite Nat.ltb_irrefl. cbn [fst]. apply app_nil_r.
Qed.

(** [do_pow] finds the last 81 trits. *)
Lemma do_pow_ok run curl trits mwm k buf : run_ok run -> curl_ok curl -> trits_ok trits ->
  length trits = (S k * HASH_LENGTH_TRIT)%nat -> 0 <= mwm <= Z.of_nat HASH_LENGTH_TRIT ->
  do_pow run curl trits mwm = Some (Some buf) ->
  exists nonce, buf = nonce ++ [0] /\ trits_of NONCE_LENGTH nonce /\
    heavy mwm (curl_digest (take (length trits - NONCE_LENGTH) trits ++ nonce) curl).1.
Proof.
  intros [Hr1 Hr2] Hc Ht Hl Hm E. unfold do_pow in E.
  assert (length trits - HASH_LENGTH_TRIT = k * HASH_LENGTH_TRIT)%nat as El by (rewrite Hl; lia). rewrite El in E.
  set (ts := take (k * HASH_LENGTH_TRIT) trits) in *. set (b := buf_read (k * HASH_LENGTH_TRIT) HASH_LENGTH_TRIT trits) in *.
  assert (length ts = (k * HASH_LENGTH_TRIT)%nat) as Hts by (unfold ts; rewrite length_take; lia).
  assert (length b = HASH_LENGTH_TRIT) as Hb by (unfold b; apply length_buf_read; lia).
  assert (trits_ok b) as Hbt by (unfold b, buf_read; solve_forall).
  pose proof (curl_absorb_ok curl ts Hc ltac:(by apply Forall_take)) as [Hcl Hct].
  rewrite curl_absorb_type in E. set (c1 := curl_absorb curl ts) in *.
  destruct (hashcash _ _ _ _ _ _ _ _) as [[[] ctx']|] eqn:Eh; try done. injection E as <-.
  change (HASH_LENGTH_TRIT - NONCE_LENGTH)%nat with 162%nat in *. change HASH_LENGTH_TRIT with 243%nat in *.
  change NONCE_LENGTH with 81%nat.
  apply hashcash_ok in Eh; [|split; cbn [c_state]; [by rewrite length_buf_write by lia|by apply buf_write_ok]|lia|apply Nat.leb_le; reflexivity|done|done|done].
  destruct Eh as (Hty & [Hsl Hst] & Hpre & Hsuf & Hheavy). cbn [c_state c_type] in *.
  change STATE_LENGTH with 729%nat in *.
  assert (buf_write 0 b (c_state c1) = b ++ drop 243 (c_state c1)) as Ew by (rewrite buf_write_0 by lia; by rewrite Hb).
  rewrite Ew in *.
  rewrite take_app_le in Hpre by lia. rewrite drop_app_length' in Hsuf by lia.
  set (nonce := buf_read 162 81 (c_state ctx')). exists nonce.
  assert (length nonce = 81%nat) as Hn by (apply length_buf_read; lia).
  split; [|split; [split; [done|unfold nonce, buf_read; solve_forall]|]].
  - unfold buf_write. cbn [replicate take app length drop Nat.sub Nat.add]. rewrite take_ge by lia. rewrite Hn. done.
  - assert (take (length trits - 81) trits = ts ++ take 162 b) as ->.
    { unfold ts, b, buf_read. rewrite take_take, Nat.min_l by lia. rewrite take_take_drop. f_equal. lia. }
    rewrite <- app_assoc, curl_digest_block; [|done|by exists k|rewrite length_app, length_take; change HASH_LENGTH_TRIT with 243%nat; lia].
    unfold heavy. change HASH_LENGTH_TRIT with 243%nat. fold c1.
    replace (mkCurl (buf_write 0 (take 162 b ++ nonce) (c_state c1)) (c_type curl)) with ctx'; [done|].
    destruct ctx' as [st ty]. cbn [c_state c_type] in *. subst ty. f_equal.
    rewrite buf_write_0 by (rewrite length_app, length_take; lia).
    rewrite length_app, length_take, Hn, Hb. change (162 `min` 243 + 81)%nat with 243%nat.
    rewrite <- Hsuf, <- Hpre, <- app_assoc. unfold nonce, buf_read.
    rewrite <- (take_drop 162 st) at 1. f_equal. rewrite <- (take_drop 81 (drop 162 st)) at 1. f_equal.
    rewrite drop_drop. done.
Qed.

(** ** One transaction *)

Definition wire_hash (tx : iota_transaction_t) : list Z := tx_curl_hash (concat (wire_fields tx)).

Lemma pow_curl_ok : curl_ok pow_curl.
Proof. apply (curl_reset_ok (mkCurl [] CURL_P_81)). Qed.

Lemma length_wire tx : tx_wf tx -> length (concat (wire_fields tx)) = NUM_TRITS_SERIALIZED_TRANSACTION.
Proof. intros W. by destruct (wire_trits_ok tx W). Qed.

Lemma wire_hash_ok tx : tx_wf tx -> trits_of NUM_TRITS_HASH (wire_hash tx).
Proof.
  intros W. destruct (wire_trits_ok tx W) as [Ht _]. split; [by apply length_tx_curl_hash|].
  unfold wire_hash, tx_curl_hash, curl_digest, curl_squeeze.
  apply curl_squeeze_loop_ok. apply curl_absorb_ok; [apply curl_reset_ok|done].
Qed.

(** The nonce is the last field on the wire. *)
Lemma wire_nonce tx nonce : tx_wf tx -> trits_of NUM_TRITS_NONCE nonce ->
  concat (wire_fields (transaction_set_nonce tx nonce)) =
  take (NUM_TRITS_SERIALIZED_TRANSACTION - NONCE_LENGTH) (concat (wire_fields tx)) ++ nonce.
Proof.
  intros W [Hn _]. pose proof (length_wire tx W) as Hl.
  assert (exists fs, wire_fields tx = fs ++ [a_nonce (attachment tx)] /\
    wire_fields (transaction_set_nonce tx nonce) = fs ++ [copy_into (a_nonce (attachment tx)) nonce]) as (fs & E1 & E2).
  { eexists (_ :: _ :: _ :: _ :: _ :: _ :: _ :: _ :: _ :: _ :: _ :: _ :: _ :: [_]). split; reflexivity. }
  rewrite E1, concat_app in Hl. rewrite E1, E2, !concat_app. cbn [concat] in *. rewrite !app_nil_r in *.
  destruct (wf_nonce tx W) as [Ho _]. rewrite length_app, Ho in Hl.
  change NONCE_LENGTH with NUM_TRITS_NONCE. rewrite take_app_length' by (change NUM_TRITS_NONCE with 81%nat in *; lia).
  f_equal. unfold copy_into. rewrite Ho, take_ge, buf_write_0, drop_ge, app_nil_r by lia. done.
Qed.

Lemma set_nonce_wf tx nonce : tx_wf tx -> trits_of NUM_TRITS_NONCE nonce -> tx_wf (transaction_set_nonce tx nonce).
Proof.
  intros W [Hn Ht]. destruct (wf_nonce tx W) as [Ho _].
  assert (copy_into (a_nonce (attachment tx)) nonce = nonce) as E.
  { unfold copy_into. rewrite Ho, take_ge, buf_write_0, drop_ge, app_nil_r by lia. done. }
  destruct W. unfold transaction_set_nonce. rewrite E. by split.
Qed.

(** What one round of the loop does. *)
Lemma copy_into_take dst src n : length dst = n -> length (take n src) = n -> copy_into dst src = take n src.
Proof.
  intros Hd Hs. unfold copy_into. rewrite Hd, buf_write_0, drop_ge by lia. apply app_nil_r.
Qed.

Lemma fits27_0 : fits27 0.
Proof. unfold fits27. split; [lia|]. apply Z.leb_le. vm_compute. reflexivity. Qed.

Lemma fits27_upper : fits27 3812798742493.
Proof. unfold fits27. split; [lia|]. apply Z.leb_le. vm_compute. reflexivity. Qed.

Lemma attach_wf time tx t b : tx_wf tx -> trits_of NUM_TRITS_TRUNK (take NUM_TRITS_TRUNK t) ->
  trits_of NUM_TRITS_BRANCH (take NUM_TRITS_BRANCH b) -> fits27 (u64 time) ->
  tx_wf (attach time tx t b) /\
  a_trunk (attachment (attach time tx t b)) = take NUM_TRITS_TRUNK t /\
  a_branch (attachment (attach time tx t b)) = take NUM_TRITS_BRANCH b /\
  essence (attach time tx t b) = essence tx /\ data (attach time tx t b) = data tx.
Proof.
  intros W Ht Hb Htime. pose proof fits27_0 as Hf0. pose proof fits27_upper as Hf1.
  assert (copy_into (a_trunk (attachment tx)) t = take NUM_TRITS_TRUNK t /\
          copy_into (a_branch (attachment tx)) b = take NUM_TRITS_BRANCH b) as [Et Eb].
  { destruct (wf_trunk tx W), (wf_branch tx W), Ht, Hb. split; by apply copy_into_take. }
  unfold attach, transaction_set_trunk, transaction_set_branch. tx_cbn. rewrite Et, Eb.
  generalize dependent (3812798742493). intros upper Hf1. generalize dependent (u64 time). intros u Hu.
  split_and!; try reflexivity. destruct W. split; tx_cbn; assumption.
Qed.

Lemma fill_tag_wf tx : tx_wf tx -> tx_wf (fill_tag tx) /\
  a_trunk (attachment (fill_tag tx)) = a_trunk (attachment tx) /\
  a_branch (attachment (fill_tag tx)) = a_branch (attachment tx) /\
  essence (fill_tag tx) = essence tx /\ data (fill_tag tx) = data tx.
Proof.
  intros W. unfold fill_tag. destruct (flex_trits_are_null _ _); [|by split_and!].
  unfold put_tag. tx_cbn. split_and!; try reflexivity.
  destruct W. destruct wf_tag as [Hgl Hg]. pose proof wf_obsolete_tag as [_ Ho]. split; tx_cbn; try assumption.
  unfold transaction_tag, transaction_obsolete_tag. split; [rewrite length_buf_write by lia; done|].
  apply buf_write_ok; [by apply Forall_take|done].
Qed.

(** Of the 81 trits of the tag only the first 27 are looked at, and at most those
    are filled: the others are never copied from the obsolete tag. *)
Lemma fill_tag_rest tx : tx_wf tx ->
  drop FLEX_TRIT_SIZE_27 (transaction_tag (fill_tag tx)) = drop FLEX_TRIT_SIZE_27 (transaction_tag tx).
Proof.
  intros W. destruct (wf_tag tx W) as [Hl _]. destruct (wf_obsolete_tag tx W) as [Ho _].
  unfold fill_tag. destruct (flex_trits_are_null _ _); [|done].
  unfold put_tag, transaction_tag, transaction_obsolete_tag. tx_cbn. unfold FLEX_TRIT_SIZE_27.
  change NUM_TRITS_TAG with 81%nat in *. change NUM_TRITS_OBSOLETE_TAG with 81%nat in *.
  rewrite buf_write_0 by (rewrite length_take; lia). rewrite drop_app_length' by (rewrite length_take; lia).
  f_equal. rewrite length_take. lia.
Qed.

Lemma prepare_wf env tx t b : tx_wf tx -> trits_of NUM_TRITS_TRUNK (take NUM_TRITS_TRUNK t) ->
  trits_of NUM_TRITS_BRANCH (take NUM_TRITS_BRANCH b) -> fits27 (u64 (pe_time env)) -> tx_wf (prepare env tx t b) /\
  transaction_trunk (prepare env tx t b) = take NUM_TRITS_TRUNK t /\
  transaction_branch (prepare env tx t b) = take NUM_TRITS_BRANCH b /\
  essence (prepare env tx t b) = essence tx /\ data (prepare env tx t b) = data tx.
Proof.
  intros W Ht Hb Htime. destruct (attach_wf _ tx t b W Ht Hb Htime) as (W1 & H1 & H2 & H3 & H4).
  destruct (fill_tag_wf _ W1) as (W2 & H5 & H6 & H7 & H8). unfold prepare, transaction_trunk, transaction_branch.
  split; [exact W2|]. rewrite H5, H6, H7, H8. by split_and!.
Qed.

Lemma nonce_buffer found : length found = NONCE_LENGTH ->
  (flex_trits_from_trits (replicate NUM_TRITS_NONCE 0) NUM_TRITS_NONCE (found ++ [0]) NUM_TRITS_NONCE NUM_TRITS_NONCE).2
    = found.
Proof.
  intros Hnl. unfold flex_trits_from_trits. change NUM_TRITS_NONCE with 81%nat. change NONCE_LENGTH with 81%nat in Hnl.
  guards. cbn [snd]. rewrite take_app_length' by lia. apply memset_write_all; [apply length_replicate|done].
Qed.

Lemma pow_flex_ok env tx mwm nonce : run_ok (pe_run env) -> tx_wf tx -> 0 <= mwm <= Z.of_nat HASH_LENGTH_TRIT ->
  iota_pow_flex (pe_run env) (pe_alloc env) (pe_alloc_nonce env) (concat (wire_fields tx)) mwm = Some (Some nonce) ->
  trits_of NUM_TRITS_NONCE nonce /\ heavy mwm (wire_hash (transaction_set_nonce tx nonce)).
Proof.
  intros Hr W Hm E. destruct (wire_trits_ok tx W) as [Ht Hl]. unfold iota_pow_flex in E.
  destruct (pe_alloc env); cbn [negb] in E; [|done].
  rewrite flex_trits_to_trits_ok in E; [|apply length_replicate|done|rewrite Hl; apply Nat.ltb_lt; reflexivity].
  cbn [snd] in E. destruct (do_pow _ _ _ _) as [[buf|]|] eqn:Ed; try done.
  destruct (pe_alloc_nonce env); cbn [negb] in E; [|done].
  destruct (do_pow_ok _ _ _ _ 32 _ Hr pow_curl_ok Ht Hl Hm Ed) as (found & -> & [Hnl Hn] & Hheavy).
  rewrite nonce_buffer in E by done. apply Some_inj, Some_inj in E. subst nonce.
  split; [by split|]. unfold wire_hash. rewrite wire_nonce by (done || by split). rewrite Hl in Hheavy. exact Hheavy.
Qed.

Lemma flex_digest_ok tx digest : tx_wf tx ->
  forall a1 a2, iota_flex_digest a1 a2 (concat (wire_fields tx)) NUM_TRITS_SERIALIZED_TRANSACTION = Some digest ->
  take NUM_TRITS_HASH digest = wire_hash tx.
Proof.
  intros W a1 a2 E. destruct (wire_trits_ok tx W) as [Ht Hl]. destruct (wire_hash_ok tx W) as [Hhl _].
  unfold iota_flex_digest in E. destruct a1; cbn [negb] in E; [|done].
  rewrite flex_trits_to_trits_ok in E; [|apply length_replicate|done|apply Nat.ltb_lt; reflexivity].
  cbn [snd] in E. unfold wire_hash, tx_curl_hash in *. destruct (curl_digest _ _) as [h c]. cbn [fst] in *.
  destruct a2; cbn [negb] in E; [|done]. apply Some_inj in E. subst digest.
  unfold flex_trits_from_trits. change HASH_LENGTH_TRIT with 243%nat. change NUM_TRITS_HASH with 243%nat in *. guards. cbn [snd].
  rewrite (take_ge h) by lia. unfold memset. rewrite buf_write_0.
  - by rewrite take_app_length' by lia.
  - rewrite length_buf_write, length_replicate by lia. rewrite Hhl. apply Nat.leb_le. reflexivity.
Qed.

Lemma set_nonce_fields tx nonce :
  essence (transaction_set_nonce tx nonce) = essence tx /\ data (transaction_set_nonce tx nonce) = data tx /\
  transaction_trunk (transaction_set_nonce tx nonce) = transaction_trunk tx /\
  transaction_branch (transaction_set_nonce tx nonce) = transaction_branch tx.
Proof. by split_and!. Qed.

(** ** The loop over a bundle *)

Lemma find_index_eq bundle off : (forall i tx, bundle !! i = Some tx -> transaction_current_index tx = Z.of_nat (off + i)) ->
  forall j, (j < length bundle)%nat -> find_index bundle (Z.of_nat (off + j)) = Some j.
Proof.
  revert off. induction bundle as [|tx bundle IH]; intros off H j Hj; simpl in Hj; [lia|]. cbn [find_index].
  rewrite (H 0%nat tx eq_refl). destruct j as [|j].
  - by rewrite Z.eqb_refl.
  - destruct (Z.eqb_spec (Z.of_nat (off + 0)) (Z.of_nat (off + S j))); [lia|].
    replace (off + S j)%nat with (S off + j)%nat by lia. rewrite IH; [done| |lia].
    intros i t Hi. replace (S off + i)%nat with (off + S i)%nat by lia. by apply (H (S i)).
Qed.

Section Attach.
Context (envs : nat -> pow_env) (trunk branch : list Z) (mwm : Z) (b0 : bundle_transactions_t).
Context (Henv : forall k, run_ok (pe_run (envs k)) /\ fits27 (u64 (pe_time (envs k))) /\ length (pe_partial (envs k)) = NUM_TRITS_VALUE).
Context (Hmwm : 0 <= mwm <= Z.of_nat HASH_LENGTH_TRIT).
Context (Htrunk : trits_of NUM_TRITS_TRUNK trunk) (Hbranch : trits_of NUM_TRITS_BRANCH branch).
Context (Hsize : Z.of_nat (length b0) < 2 ^ 64).
Context (Hb0 : forall i tx, b0 !! i = Some tx ->
  tx_wf tx /\ transaction_current_index tx = Z.of_nat i /\ transaction_last_index tx = Z.of_nat (length b0) - 1).

(** Transaction number [i] is attached: its trunk is the hash of its successor. *)
Definition attached (b : bundle_transactions_t) (i : nat) (tx : iota_transaction_t) : Prop :=
  tx_wf tx /\ (exists tx0, b0 !! i = Some tx0 /\ essence tx = essence tx0 /\ data tx = data tx0) /\
  heavy mwm (wire_hash tx) /\
  (if (S i =? length b0)%nat then transaction_trunk tx = trunk /\ transaction_branch tx = branch
   else exists next, b !! S i = Some next /\ transaction_trunk tx = wire_hash next /\ transaction_branch tx = trunk).

Record pow_inv (j : nat) (b : bundle_transactions_t) (ctrunk : option (list Z)) : Prop := {
  pi_length : length b = length b0;
  pi_todo i : (i < j)%nat -> b !! i = b0 !! i;
  pi_done i tx : (j <= i)%nat -> b !! i = Some tx -> attached b i tx;
  pi_trunk tx : b !! j = Some tx -> (0 < j)%nat -> exists digest, ctrunk = Some digest /\ take NUM_TRITS_HASH digest = wire_hash tx
}.

Lemma pow_inv_index j b ctrunk : pow_inv j b ctrunk -> forall i tx, b !! i = Some tx ->
  transaction_current_index tx = Z.of_nat i /\ transaction_last_index tx = Z.of_nat (length b0) - 1.
Proof.
  intros [Hl Ht Hd _] i tx Hi. destruct (decide (i < j)%nat) as [Hij|Hij].
  - rewrite Ht in Hi by done. by apply Hb0 in Hi as (_ & ? & ?).
  - destruct (Hd i tx ltac:(lia) Hi) as (_ & (tx0 & H0 & E & _) & _).
    unfold transaction_current_index, transaction_last_index. rewrite E. by apply Hb0 in H0 as (_ & ? & ?).
Qed.

(** Transaction number [j] before its search: its references are set. *)
Definition ready (j : nat) (b : bundle_transactions_t) (tx : iota_transaction_t) : Prop :=
  tx_wf tx /\ (exists tx0, b0 !! j = Some tx0 /\ essence tx = essence tx0 /\ data tx = data tx0) /\
  (if (S j =? length b0)%nat then transaction_trunk tx = trunk /\ transaction_branch tx = branch
   else exists next, b !! S j = Some next /\ transaction_trunk tx = wire_hash next /\ transaction_branch tx = trunk).

Lemma prepare_ready j b ctrunk tx k t br : pow_inv (S j) b ctrunk -> b !! j = Some tx ->
  (if transaction_current_index tx =? transaction_last_index tx then Some (trunk, branch)
   else match ctrunk with Some ctrunk => Some (ctrunk, trunk) | None => None end) = Some (t, br) ->
  ready j b (prepare (envs k) tx t br).
Proof.
  intros [Hl Htodo Hdone Htr] Hj Ht.
  destruct (Henv k) as (_ & Htime & _). pose proof Hj as Hj0. rewrite Htodo in Hj0 by lia.
  destruct (Hb0 j tx Hj0) as (W & Hci & Hli). pose proof (lookup_lt_Some _ _ _ Hj) as Hjl.
  assert (trits_of NUM_TRITS_TRUNK (take NUM_TRITS_TRUNK t) /\ trits_of NUM_TRITS_BRANCH (take NUM_TRITS_BRANCH br) /\
    (if (S j =? length b0)%nat then take NUM_TRITS_TRUNK t = trunk /\ take NUM_TRITS_BRANCH br = branch
     else exists next, b !! S j = Some next /\ take NUM_TRITS_TRUNK t = wire_hash next /\ take NUM_TRITS_BRANCH br = trunk))
    as (Hwt & Hwb & Hlink).
  { assert (take NUM_TRITS_TRUNK trunk = trunk /\ take NUM_TRITS_BRANCH trunk = trunk /\ take NUM_TRITS_BRANCH branch = branch)
      as (E1 & E2 & E3) by (destruct Htrunk as [H1 _], Hbranch as [H2 _]; wire_nums; rewrite !take_ge by lia; done).
    rewrite Hci, Hli in Ht. destruct (Nat.eqb_spec (S j) (length b0)) as [E|E].
    - replace (Z.of_nat j =? _) with true in Ht by lia. injection Ht as <- <-. rewrite E1, E3. done.
    - replace (Z.of_nat j =? _) with false in Ht by lia.
      destruct (lookup_lt_is_Some_2 b (S j) ltac:(lia)) as [next Hn].
      destruct (Htr next Hn ltac:(lia)) as (digest & -> & Hdig). injection Ht as <- <-.
      destruct (Hdone (S j) next ltac:(lia) Hn) as (Wn & _). change NUM_TRITS_TRUNK with NUM_TRITS_HASH. rewrite Hdig, E2.
      split; [by apply wire_hash_ok|]. split; [done|]. by exists next. }
  destruct (prepare_wf (envs k) tx t br W Hwt Hwb Htime) as (W1 & P1 & P2 & P3 & P4). unfold ready.
  rewrite P1, P2, P3, P4. split; [exact W1|]. split; [exists tx; auto|exact Hlink].
Qed.

Lemma ready_found j b ctrunk tx k nonce : pow_inv (S j) b ctrunk -> ready j b tx -> (j < length b)%nat ->
  iota_pow_flex (pe_run (envs k)) (pe_alloc (envs k)) (pe_alloc_nonce (envs k)) (concat (wire_fields tx)) mwm
    = Some (Some nonce) ->
  tx_wf (transaction_set_nonce tx nonce) /\ transaction_current_index (transaction_set_nonce tx nonce) = Z.of_nat j /\
  forall ctrunk', ((0 < j)%nat -> exists digest, ctrunk' = Some digest /\
      take NUM_TRITS_HASH digest = wire_hash (transaction_set_nonce tx nonce)) ->
    pow_inv j (<[j := transaction_set_nonce tx nonce]> b) ctrunk'.
Proof.
  intros [Hl Htodo Hdone Htr] (W1 & (tx0 & Hj0 & Ess & Dat) & Hlink) Hjl Hpow. destruct (Henv k) as (Hrun & _ & _).
  destruct (pow_flex_ok _ _ _ _ Hrun W1 Hmwm Hpow) as [Hnonce Hheavy].
  pose proof (set_nonce_wf _ _ W1 Hnonce) as W2.
  destruct (set_nonce_fields tx nonce) as (E1 & E2 & E3 & E4).
  generalize dependent (transaction_set_nonce tx nonce). intros tx2 Hheavy W2 E1 E2 E3 E4.
  destruct (Hb0 j tx0 Hj0) as (_ & Hci & _). rewrite <- E3, <- E4 in Hlink. rewrite <- E1 in Ess. rewrite <- E2 in Dat.
  split; [exact W2|]. split; [unfold transaction_current_index in *; by rewrite Ess|].
  intros ctrunk' Hc. split.
  - by rewrite length_insert.
  - intros i Hi. rewrite list_lookup_insert_ne by lia. apply Htodo. lia.
  - intros i tx' Hi Hl'. destruct (decide (i = j)) as [->|Hne].
    + rewrite list_lookup_insert_eq in Hl' by done. apply Some_inj in Hl'. subst tx'.
      split; [done|]. split; [by exists tx0|]. split; [done|].
      destruct (Nat.eqb_spec (S j) (length b0)); [done|]. destruct Hlink as (next & Hn & Hlk). exists next.
      rewrite list_lookup_insert_ne by lia. done.
    + rewrite list_lookup_insert_ne in Hl' by lia. destruct (Hdone i tx' ltac:(lia) Hl') as (H1 & H2 & H3 & H4).
      split; [done|]. split; [done|]. split; [done|]. destruct (Nat.eqb_spec (S i) (length b0)); [done|].
      destruct H4 as (next & Hn & Hlk). exists next. rewrite list_lookup_insert_ne by lia. done.
  - intros tx' Hl' Hj'. rewrite list_lookup_insert_eq in Hl' by done. apply Some_inj in Hl'. subst tx'. by apply Hc.
Qed.

(** The outcomes of one round. *)
Lemma pow_round_cases continue round txflex j b ctrunk : pow_inv (S j) b ctrunk -> (S j <= length b0)%nat ->
  length txflex = NUM_TRITS_SERIALIZED_TRANSACTION ->
  let env := envs round in
  let r := pow_round continue env trunk branch mwm txflex (Z.of_nat (S j)) ctrunk b in
  exists tx, tx_wf tx /\
  match iota_pow_flex (pe_run env) (pe_alloc env) (pe_alloc_nonce env) (concat (wire_fields tx)) mwm with
  | None => r = PowUnfinished
  | Some None => exists b', r = PowReturned RC_OOM b'
  | Some (Some _) =>
      (exists b' c, j = 0%nat /\ r = PowReturned RC_OK b' /\ pow_inv 0 b' c) \/
      (exists tx' b', (0 < j)%nat /\ tx_wf tx' /\
         match iota_flex_digest (pe_alloc_digest env).1 (pe_alloc_digest env).2 (concat (wire_fields tx'))
                 NUM_TRITS_SERIALIZED_TRANSACTION with
         | None => r = PowReturned RC_OOM b'
         | Some digest => pow_inv j b' (Some digest) /\
             r = continue (concat (wire_fields tx')) (Z.of_nat j) (Some digest) b'
         end)
  end.
Proof.
  intros Hinv Hj Htx. cbv zeta. unfold pow_round. cbv zeta.
  replace (u64 (Z.of_nat (S j) - 1)) with (Z.of_nat j) by (rewrite uwrap_small; lia).
  destruct (Henv round) as (_ & _ & Hpart). pose proof (pi_length _ _ _ Hinv) as Hl.
  pose proof (find_index_eq b 0 (fun i tx Hi => proj1 (pow_inv_index _ _ _ Hinv i tx Hi)) j ltac:(lia)) as Ef.
  rewrite Nat.add_0_l in Ef. rewrite Ef.
  destruct (lookup_lt_is_Some_2 b j ltac:(lia)) as [tx Htxj]. rewrite Htxj.
  destruct (if _ =? _ then _ else _) as [[t br]|] eqn:Et.
  2: { destruct (pow_inv_index _ _ _ Hinv j tx Htxj) as [Hci Hli]. rewrite Hci, Hli in Et.
    destruct (Z.eqb_spec (Z.of_nat j) (Z.of_nat (length b0) - 1)); [discriminate Et|].
    destruct (lookup_lt_is_Some_2 b (S j) ltac:(lia)) as [next Hn].
    destruct (pi_trunk _ _ _ Hinv next Hn ltac:(lia)) as (digest & -> & _). discriminate Et. }
  pose proof (prepare_ready j b ctrunk tx round t br Hinv Htxj Et) as Hready.
  generalize dependent (prepare (envs round) tx t br). intros tx1 Hready. exists tx1. split; [apply Hready|].
  rewrite serialize_eq by (apply Hready || assumption). cbn [snd].
  destruct (iota_pow_flex _ _ _ _ _) as [[nonce|]|] eqn:Ep; [|by eexists|reflexivity].
  destruct (ready_found j b ctrunk tx1 round nonce Hinv Hready ltac:(lia) Ep) as (W2 & Hci & Hnext). clear Ep.
  generalize dependent (transaction_set_nonce tx1 nonce). intros tx2 W2 Hci Hnext. rewrite Hci.
  destruct (Z.eqb_spec (Z.of_nat j) 0) as [Hj0|Hj0]; cbn [negb].
  - left. exists (<[j:=tx2]> b), None. split; [lia|]. split; [reflexivity|]. assert (j = 0%nat) as -> by lia. apply Hnext. lia.
  - right. rewrite serialize_eq by (assumption || exact (length_wire _ (proj1 Hready))). cbn [snd].
    exists tx2, (<[j:=tx2]> b). split; [lia|]. split; [exact W2|].
    destruct (iota_flex_digest _ _ _ _) as [digest|] eqn:Ed; [|reflexivity]. apply flex_digest_ok in Ed; [|exact W2].
    split; [|reflexivity]. apply Hnext. intros _. by exists digest.
Qed.

Lemma pow_loop_ok fuel : forall round txflex j b ctrunk b', pow_inv (S j) b ctrunk -> (S j <= length b0)%nat ->
  length txflex = NUM_TRITS_SERIALIZED_TRANSACTION ->
  pow_loop fuel round envs trunk branch mwm txflex (Z.of_nat (S j)) ctrunk b = PowReturned RC_OK b' ->
  exists c, pow_inv 0 b' c.
Proof.
  induction fuel as [|fuel IH]; intros round txflex j b ctrunk b' Hinv Hj Htx E; [discriminate E|]. cbn [pow_loop] in E.
  pose proof (pow_round_cases (pow_loop fuel (S round) envs trunk branch mwm) round txflex j b ctrunk Hinv Hj Htx)
    as (tx & W & H). rewrite E in H.
  destruct (iota_pow_flex _ _ _ _ _) as [[nonce|]|]; [|by destruct H as [? H]|discriminate H].
  destruct H as [(b1 & c & _ & [= ->] & H)|(tx' & b1 & Hj0 & W' & H)]; [by exists c|].
  destruct (iota_flex_digest _ _ _ _) as [digest|]; [|discriminate H]. destruct H as [Hinv' E'].
  destruct j as [|j]; [lia|]. eapply IH; [exact Hinv'|lia|by apply length_wire|by symmetry].
Qed.

(** Every search ends with a nonce and every allocation succeeds. *)
Definition searches_succeed : Prop := forall k, pe_alloc_digest (envs k) = (true, true) /\
  forall tx, tx_wf tx -> exists nonce,
    iota_pow_flex (pe_run (envs k)) (pe_alloc (envs k)) (pe_alloc_nonce (envs k)) (concat (wire_fields tx)) mwm
      = Some (Some nonce).

Lemma pow_loop_total : searches_succeed -> forall fuel round txflex j b ctrunk, (j < fuel)%nat -> pow_inv (S j) b ctrunk ->
  (S j <= length b0)%nat -> length txflex = NUM_TRITS_SERIALIZED_TRANSACTION ->
  exists b', pow_loop fuel round envs trunk branch mwm txflex (Z.of_nat (S j)) ctrunk b = PowReturned RC_OK b'.
Proof.
  intros Hs. induction fuel as [|fuel IH]; intros round txflex j b ctrunk Hf Hinv Hj Htx; [lia|]. cbn [pow_loop].
  destruct (Hs round) as [Ha Hn].
  destruct (pow_round_cases (pow_loop fuel (S round) envs trunk branch mwm) round txflex j b ctrunk Hinv Hj Htx)
    as (tx & W & H). destruct (Hn tx W) as [nonce En]. rewrite En, Ha in H.
  destruct H as [(b1 & c & _ & H & _)|(tx' & b1 & Hj0 & W' & H)]; [by exists b1|].
  destruct (iota_flex_digest _ _ _ _) as [digest|] eqn:Ed.
  - destruct H as [Hinv' ->]. destruct j as [|j]; [lia|]. apply IH; [lia|exact Hinv'|lia|by apply length_wire].
  - unfold iota_flex_digest in Ed. cbn [fst snd negb] in Ed. destruct (curl_digest _ _). discriminate Ed.
Qed.
End Attach.

(** * Searches that succeed at once *)

(** One thread, three steps. *)
Definition sample_run : search_run := mk_run true [true] [0; 0; 0]%nat 1.

Lemma sample_run_ok : run_ok sample_run.
Proof. split; cbn [sr_procs sample_run]; [lia|vm_compute; discriminate]. Qed.

(** A weight of zero asks for nothing. *)
Lemma hashcash_weightless curl : curl_ok curl ->
  exists curl', hashcash true [true] [0; 0; 0]%nat curl (HASH_LENGTH_TRIT - NONCE_LENGTH) HASH_LENGTH_TRIT 0 1
    = Some (PEARL_DIVER_SUCCESS, curl').
Proof.
  intros Hc. destruct (init_inst_ok (hashcash_test 0) curl (HASH_LENGTH_TRIT - NONCE_LENGTH) HASH_LENGTH_TRIT 1 Hc)
    as (insts & E & Hl & _);
    [apply Nat.leb_le; reflexivity|apply Nat.leb_le; reflexivity|lia|vm_compute; discriminate|].
  destruct insts as [|i [|]]; simpl in Hl; try lia.
  apply (pd_search_at_once _ _ _ _ i E). unfold hashcash_test, ptrits_find_zero_slice. cbn [take foldl Z.to_nat].
  vm_compute. discriminate.
Qed.

Lemma do_pow_weightless trits k : trits_ok trits -> length trits = (S k * HASH_LENGTH_TRIT)%nat ->
  exists buf, do_pow sample_run pow_curl trits 0 = Some (Some buf).
Proof.
  intros Ht Hl. unfold do_pow. cbn [sample_run sr_alloc sr_created sr_schedule sr_procs].
  set (ts := take _ trits). pose proof (curl_absorb_ok pow_curl ts pow_curl_ok ltac:(by apply Forall_take)) as [Hcl Hct].
  rewrite curl_absorb_type. set (c1 := curl_absorb pow_curl ts) in *.
  assert (length (buf_read (length trits - HASH_LENGTH_TRIT) HASH_LENGTH_TRIT trits) = HASH_LENGTH_TRIT) as Hb
    by (apply length_buf_read; rewrite Hl; lia).
  set (b := buf_read _ _ trits) in *.
  assert (curl_ok (mkCurl (buf_write 0 b (c_state c1)) (c_type pow_curl))) as Hc.
  { assert (0 + length b <= length (c_state c1))%nat by (rewrite Hb, Hcl; apply Nat.leb_le; reflexivity).
    split; cbn [c_state].
    - rewrite length_buf_write by apply Nat.le_0_l. exact Hcl.
    - apply buf_write_ok; [apply Forall_take, Forall_drop; exact Ht|exact Hct]. }
  destruct (hashcash_weightless _ Hc) as [curl' ->]. by eexists.
Qed.

Lemma pow_flex_weightless msg k : trits_ok msg -> length msg = (S k * HASH_LENGTH_TRIT)%nat ->
  exists nonce, iota_pow_flex sample_run true true msg 0 = Some (Some nonce).
Proof.
  intros Ht Hl. unfold iota_pow_flex. cbn [negb].
  rewrite flex_trits_to_trits_ok; [|apply length_replicate|done|rewrite Hl; unfold HASH_LENGTH_TRIT; lia]. cbn [snd].
  destruct (do_pow_weightless msg k Ht Hl) as [buf ->]. by eexists.
Qed.

Definition sample_env : pow_env := mk_env sample_run true true (true, true) 1546300800 (replicate NUM_TRITS_VALUE 0).

Lemma sample_env_ok : run_ok (pe_run sample_env) /\ fits27 (u64 (pe_time sample_env)) /\
  length (pe_partial sample_env) = NUM_TRITS_VALUE.
Proof.
  split; [exact sample_run_ok|]. split; [|apply length_replicate]. unfold fits27. cbn [sample_env pe_time].
  rewrite uwrap_small by lia. split; [lia|]. apply Z.leb_le. vm_compute. reflexivity.
Qed.

Lemma sample_searches : searches_succeed (fun _ => sample_env) 0.
Proof.
  intros k. split; [done|]. intros tx W. destruct (wire_trits_ok tx W) as [Ht Hl]. by apply (pow_flex_weightless _ 32).
Qed.

Definition sample_bundle : bundle_transactions_t :=
  map (fun i => mk_tx
    (mk_essence (replicate 243 1) 0 (replicate 81 (-1)) 1546300800 i 1 (replicate 243 (-1)))
    (attachment sample_tx) (consensus sample_tx) (data sample_tx) (metadata sample_tx) (loaded_columns_mask sample_tx)) [0; 1].

Lemma sample_bundle_ok i tx : sample_bundle !! i = Some tx ->
  tx_wf tx /\ transaction_current_index tx = Z.of_nat i /\
  transaction_last_index tx = Z.of_nat (length sample_bundle) - 1.
Proof.
  destruct i as [|[|i]]; intros E; try discriminate E; apply Some_inj in E; subst tx;
    (split; [split; closed_decide|split; reflexivity]).
Qed.

(** * Properties *)

(** A nonce that [iota_pow_flex] returns is a proof of work for the message:
    whatever the schedule of the search, it has 81 trits, and the Curl-P-81 hash
    of the message with the nonce in place of its last 81 trits ends in at least
    [mwm] zero trits. *)
Theorem iota_pow_flex_sound run alloc alloc_nonce msg mwm k nonce : run_ok run -> trits_ok msg ->
  length msg = (S k * HASH_LENGTH_TRIT)%nat -> 0 <= mwm <= Z.of_nat HASH_LENGTH_TRIT ->
  iota_pow_flex run alloc alloc_nonce msg mwm = Some (Some nonce) ->
  trits_of NUM_TRITS_NONCE nonce /\
  heavy mwm (tx_curl_hash (take (length msg - NUM_TRITS_NONCE) msg ++ nonce)).
Proof.
  intros Hr Ht Hl Hm E. unfold iota_pow_flex in E. destruct alloc; cbn [negb] in E; [|done].
  rewrite flex_trits_to_trits_ok in E; [|apply length_replicate|done|rewrite Hl; unfold HASH_LENGTH_TRIT; lia].
  cbn [snd] in E. destruct (do_pow _ _ _ _) as [[buf|]|] eqn:Ed; try done.
  destruct alloc_nonce; cbn [negb] in E; [|done].
  destruct (do_pow_ok _ _ _ _ k _ Hr pow_curl_ok Ht Hl Hm Ed) as (found & -> & Hn & Hheavy).
  rewrite nonce_buffer in E by apply Hn. apply Some_inj, Some_inj in E. subst nonce. split; [exact Hn|exact Hheavy].
Qed.

Lemma iota_pow_flex_sound_witness : exists nonce,
  iota_pow_flex sample_run true true (replicate 243 0) 0 = Some (Some nonce) /\
  trits_of NUM_TRITS_NONCE nonce /\
  heavy 0 (tx_curl_hash (take (length (replicate 243 0) - NUM_TRITS_NONCE) (replicate 243 0) ++ nonce)).
Proof.
  assert (trits_ok (replicate 243 0)) as Ht by (apply Forall_replicate; unfold is_trit; lia).
  assert (length (replicate 243 0) = (1 * HASH_LENGTH_TRIT)%nat) as Hl by apply length_replicate.
  destruct (pow_flex_weightless _ 0 Ht Hl) as [nonce E].
  exists nonce. split; [exact E|].
  refine (iota_pow_flex_sound sample_run true true (replicate 243 0) 0 0 nonce sample_run_ok Ht Hl _ E).
  unfold HASH_LENGTH_TRIT. lia.
Defined.

(** When [iota_pow_bundle] returns [RC_OK], the bundle is attached: essences
    and messages are unchanged, every transaction has [mwm] trailing zero trits in
    its hash, the last one refers to [trunk] and [branch], and every other one
    refers to the hash of its successor and to [trunk].  It does return [RC_OK],
    in as many rounds as there are transactions, when every search succeeds. *)
Theorem iota_pow_bundle_attaches fuel envs trunk branch mwm txflex bundle :
  (forall k, run_ok (pe_run (envs k)) /\ fits27 (u64 (pe_time (envs k))) /\ length (pe_partial (envs k)) = NUM_TRITS_VALUE) ->
  0 <= mwm <= Z.of_nat HASH_LENGTH_TRIT -> trits_of NUM_TRITS_TRUNK trunk -> trits_of NUM_TRITS_BRANCH branch ->
  length txflex = NUM_TRITS_SERIALIZED_TRANSACTION -> Z.of_nat (length bundle) < 2 ^ 64 ->
  (forall i tx, bundle !! i = Some tx -> tx_wf tx /\ transaction_current_index tx = Z.of_nat i /\
     transaction_last_index tx = Z.of_nat (length bundle) - 1) ->
  let r := iota_pow_bundle fuel envs txflex (Some bundle) (Some trunk) (Some branch) mwm in
  (forall b', r = PowReturned RC_OK b' ->
    length b' = length bundle /\ forall i tx, b' !! i = Some tx -> attached trunk branch mwm bundle b' i tx) /\
  (searches_succeed envs mwm -> (length bundle <= fuel)%nat -> exists b', r = PowReturned RC_OK b').
Proof.
  intros Henv Hm Ht Hb Htx Hsz Hb0. cbv zeta. destruct bundle as [|tx rest] eqn:Eb; cbn [iota_pow_bundle].
  { split; [intros b' [= <-]; done|by eexists]. }
  rewrite <- Eb in *. destruct (Hb0 0%nat tx ltac:(by rewrite Eb)) as (_ & _ & Hli). rewrite Hli.
  replace (u64 (Z.of_nat (length bundle) - 1 + 1)) with (Z.of_nat (S (length rest)))
    by (rewrite Eb in *; cbn [length] in *; rewrite uwrap_small; lia).
  assert (length bundle = S (length rest)) as Hlen by (by rewrite Eb).
  assert (pow_inv trunk branch mwm bundle (S (length rest)) bundle None) as Hinv.
  { split; [done|done| |]; intros *.
    - intros Hi Hl. apply lookup_lt_Some in Hl. lia.
    - intros Hl _. apply lookup_lt_Some in Hl. lia. }
  split.
  - intros b' E. destruct (pow_loop_ok envs trunk branch mwm bundle Henv Hm Ht Hb Hsz Hb0 fuel 0 txflex (length rest) bundle
      None b' Hinv ltac:(lia) Htx E) as [c [Hl _ Hd _]]. split; [done|]. intros i t Hi. apply Hd; [lia|done].
  - intros Hs Hf. apply (pow_loop_total envs trunk branch mwm bundle Henv Hm Ht Hb Hsz Hb0 Hs); [lia|done|lia|done].
Qed.

Lemma iota_pow_bundle_attaches_witness : exists b',
  iota_pow_bundle 2 (fun _ => sample_env) (replicate NUM_TRITS_SERIALIZED_TRANSACTION 0) (Some sample_bundle)
    (Some (replicate 243 0)) (Some (replicate 243 1)) 0 = PowReturned RC_OK b' /\
  length b' = 2%nat /\
  forall i tx, b' !! i = Some tx -> attached (replicate 243 0) (replicate 243 1) 0 sample_bundle b' i tx.
Proof.
  destruct (iota_pow_bundle_attaches 2 (fun _ => sample_env) (replicate 243 0) (replicate 243 1) 0
    (replicate NUM_TRITS_SERIALIZED_TRANSACTION 0) sample_bundle) as [H1 H2].
  - intros _. exact sample_env_ok.
  - unfold HASH_LENGTH_TRIT. lia.
  - split; [apply length_replicate|apply Forall_replicate; unfold is_trit; lia].
  - split; [apply length_replicate|apply Forall_replicate; unfold is_trit; lia].
  - apply length_replicate.
  - apply Z.ltb_lt. reflexivity.
  - exact sample_bundle_ok.
  - destruct H2 as [b' E]; [exact sample_searches|apply Nat.leb_le; reflexivity|].
    exists b'. split; [exact E|exact (H1 b' E)].
Defined.
