(* ===== verification/Containers.v ===== *)
(** * Containers of hashes

    [utils/containers/hash]: maps and sets over uthash, stacks and queues over
    utlist.  uthash keeps its entries in a list in the order of insertion, the
    order of [HASH_ITER], so a map is the list of its entries.  The allocations to
    come are an argument, the [heap]. *)
From stdpp Require Export gmap.
From S2P Require Import Prelude Errors.
#[global] Open Scope Z_scope.

(** The outcomes of the next calls of [malloc]; all later calls succeed. *)
Definition heap := list bool.

Definition malloc (hp : heap) : bool * heap :=
  match hp with
  | [] => (true, [])
  | ok :: hp => (ok, hp)
  end.

(** [FLEX_TRIT_SIZE_243] flex trits. *)
Definition hash_t := list Z.

(** ** Maps *)

Section Map.
Context {V : Type}.

Definition hash_map := list (hash_t * V).
Implicit Types (map : hash_map) (hash : hash_t) (value : V).

Fixpoint HASH_FIND map hash : option V :=
  match map with
  | [] => None
  | (k, v) :: map => if decide (k = hash) then Some v else HASH_FIND map hash
  end.

Definition HASH_ADD map hash value : hash_map := map ++ [(hash, value)].

(** [HASH_DEL] of the entry that [HASH_FIND] returns. *)
Fixpoint HASH_DEL map hash : hash_map :=
  match map with
  | [] => []
  | (k, v) :: map => if decide (k = hash) then map else (k, v) :: HASH_DEL map hash
  end.

(** [entry->value = value], for the entry that [HASH_FIND] returns. *)
Fixpoint set_value map hash value : hash_map :=
  match map with
  | [] => []
  | (k, v) :: map => if decide (k = hash) then (k, value) :: map else (k, v) :: set_value map hash value
  end.

Definition hash_map_add (hp : heap) map hash value : retcode_t * hash_map * heap :=
  match HASH_FIND map hash with
  | Some _ => (RC_OK, map, hp)
  | None =>
      let '(ok, hp) := malloc hp in
      if negb ok then (RC_OOM, map, hp) else (RC_OK, HASH_ADD map hash value, hp)
  end.

Definition hash_map_contains map hash : bool := bool_decide (is_Some (HASH_FIND map hash)).

Definition hash_map_remove map hash : bool * hash_map :=
  match HASH_FIND map hash with
  | Some _ => (true, HASH_DEL map hash)
  | None => (false, map)
  end.

Definition hash_map_find map hash : option V := HASH_FIND map hash.

Definition hash_map_free map : hash_map := [].

Definition hash_map_size map : Z := Z.of_nat (length map).

Fixpoint hash_map_copy (hp : heap) (src dst : hash_map) : retcode_t * hash_map * heap :=
  match src with
  | [] => (RC_OK, dst, hp)
  | (k, v) :: src =>
      let '(ret, dst, hp) := hash_map_add hp dst k v in
      if negb (bool_decide (ret = RC_OK)) then (ret, dst, hp) else hash_map_copy hp src dst
  end.

Fixpoint equal_loop `{EqDecision V} (lhs rhs : hash_map) : bool :=
  match lhs with
  | [] => true
  | (k, v) :: lhs =>
      match HASH_FIND rhs k with
      | None => false
      | Some v' => if negb (bool_decide (v = v')) then false else equal_loop lhs rhs
      end
  end.

Definition hash_map_equal `{EqDecision V} (lhs rhs : hash_map) : bool :=
  if negb (hash_map_size lhs =? hash_map_size rhs) then false else equal_loop lhs rhs.
End Map.
#[global] Arguments hash_map : clear implicits.

(** ** Sets *)

Definition hash243_set := list hash_t.

Definition hash243_set_size (set : hash243_set) : Z := u32 (Z.of_nat (length set)).

Definition hash243_set_contains (set : hash243_set) (hash : hash_t) : bool := bool_decide (hash ∈ set).

Definition hash243_set_add (hp : heap) (set : hash243_set) (hash : hash_t) : retcode_t * hash243_set * heap :=
  if negb (hash243_set_contains set hash) then
    let '(ok, hp) := malloc hp in
    if negb ok then (RC_OOM, set, hp) else (RC_OK, set ++ [hash], hp)
  else (RC_OK, set, hp).

Fixpoint set_del (set : hash243_set) (hash : hash_t) : hash243_set :=
  match set with
  | [] => []
  | k :: set => if decide (k = hash) then set else k :: set_del set hash
  end.

Definition hash243_set_remove (set : hash243_set) (hash : hash_t) : retcode_t * hash243_set := (RC_OK, set_del set hash).

Fixpoint hash243_set_append (hp : heap) (set1 set2 : hash243_set) : retcode_t * hash243_set * heap :=
  match set1 with
  | [] => (RC_OK, set2, hp)
  | k :: set1 =>
      let '(ret, set2, hp) := hash243_set_add hp set2 k in
      if negb (bool_decide (ret = RC_OK)) then (ret, set2, hp) else hash243_set_append hp set1 set2
  end.

Definition hash243_set_free (set : hash243_set) : hash243_set := [].

(** [func] acts on a state of its own. *)
Fixpoint hash243_set_for_each {C} (set : hash243_set) (func : C -> hash_t -> retcode_t * C) (container : C)
    : retcode_t * C :=
  match set with
  | [] => (RC_OK, container)
  | k :: set =>
      let '(ret, container) := func container k in
      if negb (bool_decide (ret = RC_OK)) then (ret, container) else hash243_set_for_each set func container
  end.

(** [index] is the random number; the hash is only written when it is in range. *)
Definition hash243_set_random_hash (index : nat) (set : hash243_set) (hash : hash_t) : retcode_t * hash_t :=
  (RC_OK, default hash (set !! index)).

(** The keys of a map, added to a set; the result codes are ignored. *)
Fixpoint hash_map_keys {V} (hp : heap) (map : hash_map V) (keys : hash243_set) : hash243_set * heap :=
  match map with
  | [] => (keys, hp)
  | (k, _) :: map =>
      let '(_, keys, hp) := hash243_set_add hp keys k in
      hash_map_keys hp map keys
  end.

(** ** Stacks and queues *)

Definition hash243_stack := list hash_t.

Definition hash243_stack_push (hp : heap) (stack : hash243_stack) (hash : hash_t) : retcode_t * hash243_stack * heap :=
  let '(ok, hp) := malloc hp in
  if negb ok then (RC_OOM, stack, hp) else (RC_OK, hash :: stack, hp).

Definition hash243_stack_pop (stack : hash243_stack) : hash243_stack := tail stack.
Definition hash243_stack_peek (stack : hash243_stack) : option hash_t := head stack.
Definition hash243_stack_count (stack : hash243_stack) : Z := Z.of_nat (length stack).
Definition hash243_stack_at (stack : hash243_stack) (index : nat) : option hash_t := stack !! index.

Definition hash243_queue := list hash_t.

Definition hash243_queue_empty (queue : hash243_queue) : bool := match queue with [] => true | _ => false end.

Definition hash243_queue_push (hp : heap) (queue : hash243_queue) (hash : hash_t) : retcode_t * hash243_queue * heap :=
  let '(ok, hp) := malloc hp in
  if negb ok then (RC_OOM, queue, hp) else (RC_OK, queue ++ [hash], hp).

Definition hash243_queue_pop (queue : hash243_queue) : option hash_t * hash243_queue := (head queue, tail queue).
Definition hash243_queue_peek (queue : hash243_queue) : option hash_t := head queue.
Definition hash243_queue_count (queue : hash243_queue) : Z := Z.of_nat (length queue).
Definition hash243_queue_at (queue : hash243_queue) (index : nat) : option hash_t := queue !! index.

(** [count] starts at one and is compared with [size] after every push, so that
    a [size] of zero copies the whole queue. *)
Fixpoint queue_copy_loop (hp : heap) (dest src : hash243_queue) (size count : Z) : retcode_t * hash243_queue * heap :=
  match src with
  | [] => (RC_OK, dest, hp)
  | hash :: src =>
      let '(ret, dest, hp) := hash243_queue_push hp dest hash in
      if bool_decide (ret = RC_OK) then
        if count =? size then (RC_OK, dest, hp) else queue_copy_loop hp dest src size (u64 (count + 1))
      else (RC_OOM, dest, hp)
  end.

Definition hash243_queue_copy (hp : heap) (dest src : hash243_queue) (size : Z) : retcode_t * hash243_queue * heap :=
  match src with
  | [] => (RC_NULL_PARAM, dest, hp)
  | _ => queue_copy_loop hp dest src size 1
  end.

(** * Lemmas *)

Section MapLemmas.
Context {V : Type}.
Implicit Types (m : hash_map V) (h k : hash_t) (v : V).

(** uthash requires the keys to be different; which of several entries of a key
    it finds is unspecified. *)
Definition unique m : Prop := NoDup m.*1.

Definition to_gmap m : gmap hash_t V := list_to_map m.

Lemma HASH_FIND_gmap m h : HASH_FIND m h = to_gmap m !! h.
Proof.
  induction m as [|[k v] m IH]; [done|]. cbn [HASH_FIND]. unfold to_gmap. cbn [list_to_map foldr curry uncurry fst snd].
  destruct (decide (k = h)) as [->|Hne]; [by rewrite lookup_insert_eq|]. by rewrite lookup_insert_ne.
Qed.

Lemma HASH_FIND_None m h : HASH_FIND m h = None <-> (h ∉ m.*1).
Proof. rewrite HASH_FIND_gmap. unfold to_gmap. rewrite <- not_elem_of_list_to_map. done. Qed.

Lemma HASH_FIND_Some m h v : unique m -> HASH_FIND m h = Some v <-> ((h, v) ∈ m).
Proof. intros Hu. rewrite HASH_FIND_gmap. symmetry. by apply elem_of_list_to_map. Qed.

Lemma HASH_FIND_keys m h : is_Some (HASH_FIND m h) <-> (h ∈ m.*1).
Proof.
  rewrite <- not_eq_None_Some, HASH_FIND_None. split; [|auto]. intros H. destruct (decide (h ∈ m.*1)); [done|]. tauto.
Qed.

Lemma unique_nil : unique [].
Proof. constructor. Qed.

Lemma unique_cons k v m : unique ((k, v) :: m) <-> (k ∉ m.*1) /\ unique m.
Proof. unfold unique. cbn. by rewrite list.NoDup_cons. Qed.

Lemma HASH_ADD_gmap m h v : HASH_FIND m h = None -> to_gmap (HASH_ADD m h v) = <[h := v]> (to_gmap m).
Proof.
  intros Hn. apply map_eq. intros k. rewrite <- !HASH_FIND_gmap. unfold HASH_ADD.
  destruct (decide (h = k)) as [<-|Hne].
  - rewrite lookup_insert_eq. induction m as [|[k' v'] m IH]; cbn in *; [by rewrite decide_True|].
    destruct (decide (k' = h)); [done|auto].
  - rewrite lookup_insert_ne, <- HASH_FIND_gmap by done. clear Hn. induction m as [|[k' v'] m IH]; cbn.
    + by rewrite decide_False.
    + by destruct (decide (k' = k)).
Qed.

Lemma HASH_ADD_unique m h v : unique m -> HASH_FIND m h = None -> unique (HASH_ADD m h v).
Proof.
  intros Hu Hn%HASH_FIND_None. unfold unique, HASH_ADD in *. rewrite fmap_app. apply list.NoDup_app. split; [done|].
  split; [|apply list.NoDup_singleton]. intros k Hk. cbn. intros ->%list_elem_of_singleton. done.
Qed.

Lemma HASH_DEL_not_in m h : h ∉ m.*1 -> HASH_DEL m h = m.
Proof.
  induction m as [|[k v] m IH]; [done|]. cbn. rewrite not_elem_of_cons. intros [Hne Hn].
  rewrite decide_False by congruence. by rewrite IH.
Qed.

Lemma HASH_DEL_gmap m h : unique m -> to_gmap (HASH_DEL m h) = delete h (to_gmap m).
Proof.
  unfold to_gmap. induction m as [|[k v] m IH]; [intros; cbn; by rewrite delete_empty|]. rewrite unique_cons. intros [Hn Hu].
  cbn. destruct (decide (k = h)) as [->|Hne].
  - rewrite delete_insert_id; [done|]. by apply not_elem_of_list_to_map.
  - cbn. rewrite IH by done. by rewrite delete_insert_ne.
Qed.

Lemma HASH_DEL_sub m h k : k ∈ (HASH_DEL m h).*1 -> k ∈ m.*1.
Proof.
  induction m as [|[k' v'] m IH]; cbn; [done|]. destruct (decide (k' = h)); cbn; rewrite !list.elem_of_cons; [auto|].
  intros [->|H]; auto.
Qed.

Lemma HASH_DEL_unique m h : unique m -> unique (HASH_DEL m h).
Proof.
  induction m as [|[k v] m IH]; [done|]. rewrite unique_cons. intros [Hn Hu]. cbn. destruct (decide (k = h)); [done|].
  apply unique_cons. split; [|auto]. intros H. by apply HASH_DEL_sub in H.
Qed.

Lemma set_value_keys m h v : (set_value m h v).*1 = m.*1.
Proof. induction m as [|[k w] m IH]; [done|]. cbn. destruct (decide (k = h)); cbn; congruence. Qed.

Lemma set_value_gmap m h v : is_Some (HASH_FIND m h) -> to_gmap (set_value m h v) = <[h := v]> (to_gmap m).
Proof.
  induction m as [|[k w] m IH]; cbn; [by intros []|]. unfold to_gmap in *. destruct (decide (k = h)) as [->|Hne]; intros H; cbn.
  - by rewrite insert_insert_eq.
  - rewrite IH by done. by rewrite insert_insert_ne.
Qed.

Lemma set_value_unique m h v : unique m -> unique (set_value m h v).
Proof. unfold unique. by rewrite set_value_keys. Qed.

(** The two outcomes of an insertion. *)
Lemma hash_map_add_spec hp m h v ret m' hp' : unique m -> hash_map_add hp m h v = (ret, m', hp') ->
  unique m' /\
  ((ret = RC_OK /\ to_gmap m' = (if HASH_FIND m h is Some _ then to_gmap m else <[h := v]> (to_gmap m))) \/
   (ret = RC_OOM /\ m' = m)).
Proof.
  intros Hu E. unfold hash_map_add in E. destruct (HASH_FIND m h) eqn:Ef.
  - injection E as <- <- <-. auto.
  - destruct (malloc hp) as [[] hp1]; cbn in E; injection E as <- <- <-; [|auto].
    split; [by apply HASH_ADD_unique|]. left. by rewrite HASH_ADD_gmap.
Qed.

(** While memory lasts. *)
Lemma hash_map_add_nil m h v :
  hash_map_add [] m h v = (RC_OK, (if HASH_FIND m h is Some _ then m else HASH_ADD m h v), []).
Proof. unfold hash_map_add. by destruct (HASH_FIND m h). Qed.

Lemma hash_map_copy_spec hp src dst ret dst' hp' : unique (dst ++ src) -> hash_map_copy hp src dst = (ret, dst', hp') ->
  (ret = RC_OK /\ dst' = dst ++ src) \/ (ret = RC_OOM /\ exists n, dst' = dst ++ take n src).
Proof.
  revert hp dst. induction src as [|[k v] src IH]; intros hp dst Hu E; cbn in E.
  - injection E as <- <- <-. left. by rewrite app_nil_r.
  - unfold hash_map_add in E.
    assert (HASH_FIND dst k = None) as Ef.
    { apply HASH_FIND_None. unfold unique in Hu. rewrite fmap_app in Hu. apply list.NoDup_app in Hu as (_ & H & _).
      intros Hk. apply (H k Hk). cbn. left. }
    rewrite Ef in E. destruct (malloc hp) as [[] hp1]; cbn in E.
    + apply IH in E; [|unfold HASH_ADD; by rewrite <- app_assoc]. unfold HASH_ADD in E. rewrite <- !app_assoc in E.
      destruct E as [[-> ->]|[-> [n ->]]]; [by left|right]. split; [done|]. exists (S n). by rewrite <- !app_assoc.
    + injection E as <- <- <-. right. split; [done|]. exists 0%nat. by rewrite app_nil_r.
Qed.

Lemma hash_map_copy_nil src : unique src -> hash_map_copy [] src [] = (RC_OK, src, []).
Proof.
  intros Hu. assert (forall dst, unique (dst ++ src) -> hash_map_copy [] src dst = (RC_OK, dst ++ src, [])) as H; [|by apply H].
  clear Hu. induction src as [|[k v] src IH]; intros dst Hu; cbn; [by rewrite app_nil_r|].
  rewrite hash_map_add_nil.
  assert (HASH_FIND dst k = None) as ->.
  { apply HASH_FIND_None. unfold unique in Hu. rewrite fmap_app in Hu. apply list.NoDup_app in Hu as (_ & H & _).
    intros Hk. apply (H k Hk). cbn. left. }
  cbn. rewrite IH; unfold HASH_ADD; by rewrite <- app_assoc.
Qed.

Lemma size_gmap m : unique m -> size (to_gmap m) = length m.
Proof.
  induction m as [|[k v] m IH]; [intros; apply map_size_empty|]. rewrite unique_cons. intros [Hn Hu].
  unfold to_gmap in *. cbn. rewrite map_size_insert_None by (by apply not_elem_of_list_to_map). by rewrite IH.
Qed.

Lemma equal_loop_spec `{EqDecision V} l r : unique l -> equal_loop l r = true <-> (to_gmap l ⊆ to_gmap r).
Proof.
  intros Hu. induction l as [|[k v] l IH]; cbn.
  - split; [intros; apply map_empty_subseteq|done].
  - apply unique_cons in Hu as [Hn Hu]. specialize (IH Hu). unfold to_gmap in *. cbn.
    assert ((list_to_map l : gmap hash_t V) !! k = None) as Hk by (by apply not_elem_of_list_to_map).
    rewrite HASH_FIND_gmap. unfold to_gmap. split.
    + destruct (list_to_map r !! k) as [v'|] eqn:Er; [|done]. destruct (bool_decide_reflect (v = v')) as [->|]; [|done].
      intros E. apply insert_subseteq_l; [done|]. by apply IH.
    + intros Hs. assert (list_to_map r !! k = Some v) as -> by (eapply lookup_weaken; [|done]; apply lookup_insert_eq).
      rewrite bool_decide_eq_true_2 by done. cbn. apply IH. etransitivity; [|done]. by apply insert_subseteq.
Qed.

Lemma hash_map_equal_spec `{EqDecision V} l r : unique l -> unique r ->
  hash_map_equal l r = true <-> to_gmap l = to_gmap r.
Proof.
  intros Hl Hr. unfold hash_map_equal, hash_map_size. split.
  - destruct (Z.eqb_spec (Z.of_nat (length l)) (Z.of_nat (length r))) as [E|]; [|done]. cbn.
    intros Hs%equal_loop_spec; [|done]. apply map_subseteq_size_eq; [done|]. rewrite !size_gmap by done. lia.
  - intros E. assert (length l = length r) as -> by (rewrite <- !size_gmap by done; by rewrite E).
    rewrite Z.eqb_refl. cbn. apply equal_loop_spec; [done|]. by rewrite E.
Qed.
End MapLemmas.
