(* ===== verification/StateDelta.v ===== *)
(** * State deltas

    [ciri/consensus/snapshot/state_delta.c]: balances, and changes of balances, as
    maps from addresses to 64-bit integers; their binary and textual forms. *)
From S2P Require Import Prelude Errors Trits TritLong FlexTrit Transaction Containers.

Definition IOTA_SUPPLY : Z := 2779530283277761.
Definition FLEX_TRIT_SIZE_243 : nat := 243.
Definition NUM_TRYTES_ADDRESS : nat := 81.

Definition state_delta_t := hash_map Z.

Implicit Types (state delta patch : state_delta_t) (hash : hash_t) (value : Z) (hp : heap).

Definition state_delta_empty delta : bool := hash_map_size delta =? 0.

Definition state_delta_sum state : Z := foldl (fun sum iter => i64 (sum + iter.2)) 0 state.

Definition state_delta_add_or_sum hp state hash value : retcode_t * state_delta_t * heap :=
  if value =? 0 then (RC_OK, state, hp) else
  match HASH_FIND state hash with
  | Some entry_value =>
      let entry_value := i64 (entry_value + value) in
      let state := set_value state hash entry_value in
      let state := if entry_value =? 0 then (hash_map_remove state hash).2 else state in
      (RC_OK, state, hp)
  | None =>
      let '(ret, state, hp) := hash_map_add hp state hash value in
      if negb (bool_decide (ret = RC_OK)) then (ret, state, hp) else (RC_OK, state, hp)
  end.

Definition state_delta_sum_if_present state hash value : retcode_t * state_delta_t :=
  if value =? 0 then (RC_OK, state) else
  match HASH_FIND state hash with
  | Some entry_value => (RC_OK, set_value state hash (i64 (entry_value + value)))
  | None => (RC_OK, state)
  end.

Definition state_delta_add_or_replace hp state hash value : retcode_t * state_delta_t * heap :=
  match HASH_FIND state hash with
  | Some _ =>
      if value =? 0 then (RC_OK, (hash_map_remove state hash).2, hp)
      else (RC_OK, set_value state hash value, hp)
  | None =>
      let '(ret, state, hp) := hash_map_add hp state hash value in
      if negb (bool_decide (ret = RC_OK)) then (ret, state, hp) else (RC_OK, state, hp)
  end.

(** The loops of the form [HASH_ITER(...) { if ((ret = f(...)) != RC_OK) return ret; }]. *)
Fixpoint for_each_entry (f : heap -> state_delta_t -> hash_t -> Z -> retcode_t * state_delta_t * heap)
    hp (iter : state_delta_t) (target : state_delta_t) : retcode_t * state_delta_t * heap :=
  match iter with
  | [] => (RC_OK, target, hp)
  | (hash, value) :: iter =>
      let '(ret, target, hp) := f hp target hash value in
      if negb (bool_decide (ret = RC_OK)) then (ret, target, hp) else for_each_entry f hp iter target
  end.

Definition state_delta_create_patch hp state delta patch : retcode_t * state_delta_t * heap :=
  for_each_entry (fun hp patch hash value =>
    hash_map_add hp patch hash (i64 (default 0 (HASH_FIND state hash) + value))) hp delta patch.

Definition state_delta_apply_patch hp state patch : retcode_t * state_delta_t * heap :=
  for_each_entry (fun hp state hash value =>
    if negb (value =? 0) then state_delta_add_or_sum hp state hash value else (RC_OK, state, hp)) hp patch state.

Definition state_delta_apply_patch_if_present hp state patch : retcode_t * state_delta_t * heap :=
  for_each_entry (fun hp state hash value =>
    let '(ret, state) := state_delta_sum_if_present state hash value in (ret, state, hp)) hp patch state.

Definition state_delta_merge_patch hp state patch : retcode_t * state_delta_t * heap :=
  for_each_entry state_delta_add_or_replace hp patch state.

(** Entries of zero are removed on the way to the first negative one. *)
Fixpoint state_delta_is_consistent delta : bool * state_delta_t :=
  match delta with
  | [] => (true, [])
  | (hash, value) :: rest =>
      if value <=? 0 then
        if value <? 0 then (false, delta) else state_delta_is_consistent rest
      else let '(r, rest) := state_delta_is_consistent rest in (r, (hash, value) :: rest)
  end.

(** ** Binary form *)

(** The bytes of an [int64_t] on a little-endian machine, as [int8_t]. *)
Definition int64_bytes (v : Z) : list Z := map (fun k => i8 (Z.shiftr v (8 * Z.of_nat k))) (seq 0 8).

Fixpoint bytes_value (l : list Z) : Z :=
  match l with
  | [] => 0
  | b :: l => u8 b + 256 * bytes_value l
  end.

Definition bytes_int64 (l : list Z) : Z := i64 (bytes_value l).

Definition state_delta_serialized_size (delta : option state_delta_t) : Z :=
  match delta with
  | None => 0
  | Some delta => hash_map_size delta * (Z.of_nat FLEX_TRIT_SIZE_243 + 8)
  end.

Fixpoint serialize_loop delta (bytes : list Z) (offset : nat) : list Z :=
  match delta with
  | [] => bytes
  | (hash, value) :: delta =>
      let bytes := buf_write offset (take FLEX_TRIT_SIZE_243 hash) bytes in
      let offset := (offset + FLEX_TRIT_SIZE_243)%nat in
      let bytes := buf_write offset (int64_bytes value) bytes in
      let offset := (offset + 8)%nat in
      serialize_loop delta bytes offset
  end.

Definition state_delta_serialize delta (bytes : list Z) : retcode_t * list Z := (RC_OK, serialize_loop delta bytes 0).

Fixpoint deserialize_loop (n : nat) hp (bytes : list Z) (offset : nat) delta : retcode_t * state_delta_t * heap :=
  match n with
  | O => (RC_OK, delta, hp)
  | S n =>
      let '(ok, hp) := malloc hp in
      if negb ok then (RC_OOM, delta, hp) else
      let hash := buf_read offset FLEX_TRIT_SIZE_243 bytes in
      let offset := (offset + FLEX_TRIT_SIZE_243)%nat in
      let value := bytes_int64 (buf_read offset 8 bytes) in
      let offset := (offset + 8)%nat in
      deserialize_loop n hp bytes offset (HASH_ADD delta hash value)
  end.

Definition state_delta_deserialize hp (bytes : list Z) (size : nat) delta : retcode_t * state_delta_t * heap :=
  deserialize_loop (size / (FLEX_TRIT_SIZE_243 + 8)) hp bytes 0 delta.

(** ** Textual form

    Characters are their codes: 10 is the newline, 45 the minus sign, 48 to 57 the
    digits and 59 the semicolon. *)

(** [sprintf("%d")]; the fuel is more than the digits of a 64-bit number. *)
Fixpoint dec_loop (fuel : nat) (n : Z) (acc : list Z) : list Z :=
  match fuel with
  | O => acc
  | S fuel =>
      let acc := 48 + n mod 10 :: acc in
      if n <? 10 then acc else dec_loop fuel (n / 10) acc
  end.

Definition sprintf_d (v : Z) : list Z := if v <? 0 then 45 :: dec_loop 20 (- v) [] else dec_loop 20 v [].

Definition is_digit (c : Z) : bool := (48 <=? c) && (c <=? 57).
Definition is_space (c : Z) : bool := (c =? 32) || ((9 <=? c) && (c <=? 13)).

Fixpoint skip_while (p : Z -> bool) (s : list Z) : list Z :=
  match s with
  | c :: s' => if p c then skip_while p s' else s
  | [] => []
  end.

Fixpoint take_while (p : Z -> bool) (s : list Z) : list Z :=
  match s with
  | c :: s' => if p c then c :: take_while p s' else []
  | [] => []
  end.

Definition dec_value (acc : Z) (ds : list Z) : Z := foldl (fun acc c => acc * 10 + (c - 48)) acc ds.

(** [sscanf("%ld")], which is left undefined by C, and saturates, out of range. *)
Definition sscanf_d (s : list Z) : option Z :=
  let s := skip_while is_space s in
  let '(neg, s) := match s with
                   | c :: s' => if c =? 45 then (true, s') else if c =? 43 then (false, s') else (false, s)
                   | [] => (false, s)
                   end in
  match take_while is_digit s with
  | [] => None
  | ds =>
      let v := dec_value 0 ds in
      Some (Z.max INT64_MIN (Z.min INT64_MAX (if neg : bool then - v else v)))
  end.

(** [strtok] with a single delimiter on the rest of a C string: the token, and
    what follows the delimiter that is overwritten. *)
Definition strtok (delim : Z) (s : list Z) : option (list Z * list Z) :=
  match skip_while (Z.eqb delim) s with
  | [] => None
  | s =>
      let token := take_while (fun c => negb (c =? delim)) s in
      Some (token, drop (S (length token)) s)
  end.

Definition state_delta_serialized_str_size (delta : state_delta_t) : Z :=
  match delta with
  | [] => 0
  | _ => hash_map_size delta * (Z.of_nat NUM_TRYTES_ADDRESS + 1 + 16 + 1)
  end.

(** The characters written to [str], with what was written before. *)
Fixpoint serialize_str_loop delta (str : list Z) : retcode_t * list Z :=
  match delta with
  | [] => (RC_OK, str ++ [0])
  | (hash, value) :: delta =>
      let '(n, trytes) := flex_trits_to_trytes (replicate NUM_TRYTES_ADDRESS 0) NUM_TRYTES_ADDRESS hash
                            NUM_TRITS_ADDRESS NUM_TRITS_ADDRESS in
      if negb (n =? NUM_TRITS_ADDRESS)%nat then (RC_SNAPSHOT_STATE_DELTA_FAILED_DESERIALIZING, str) else
      let str := str ++ trytes in
      let str := str ++ [59] in
      let str := str ++ sprintf_d value ++ [10] in
      serialize_str_loop delta str
  end.

Definition state_delta_serialize_str delta : retcode_t * list Z := serialize_str_loop delta [].

(** The fuel bounds the number of lines.  The address is read from where the token
    starts, 81 characters whatever the length of the token. *)
Fixpoint deserialize_str_loop (fuel : nat) hp (token : option (list Z * list Z)) (supply : Z) delta
    : option (retcode_t * state_delta_t * heap) :=
  match fuel with
  | O => None
  | S fuel =>
      match token with
      | None =>
          if negb (supply =? IOTA_SUPPLY) then Some (RC_SNAPSHOT_INVALID_SUPPLY, hash_map_free delta, hp)
          else Some (RC_OK, delta, hp)
      | Some (token, rest) =>
          let '(n, curr_address) := flex_trits_from_trytes (replicate NUM_TRITS_ADDRESS 0) NUM_TRITS_ADDRESS
                                      (token ++ 0 :: rest) NUM_TRYTES_ADDRESS NUM_TRYTES_ADDRESS in
          if negb (n =? NUM_TRYTES_ADDRESS)%nat then Some (RC_SNAPSHOT_INVALID_FILE, delta, hp) else
          match strtok 10 rest with
          | None => Some (RC_SNAPSHOT_INVALID_FILE, delta, hp)
          | Some (token, rest) =>
              match sscanf_d token with
              | None => Some (RC_SNAPSHOT_INVALID_FILE, delta, hp)
              | Some value =>
                  if value <? 0 then Some (RC_SNAPSHOT_INCONSISTENT_SNAPSHOT, hash_map_free delta, hp) else
                  let supply := if value >? 0 then u64 (supply + value) else supply in
                  let '(ret, delta, hp) := hash_map_add hp delta curr_address value in
                  if negb (bool_decide (ret = RC_OK)) then Some (ret, delta, hp) else
                  deserialize_str_loop fuel hp (strtok 59 rest) supply delta
              end
          end
      end
  end.

Definition state_delta_deserialize_str hp (str : list Z) delta : option (retcode_t * state_delta_t * heap) :=
  let str := take_while (fun c => negb (c =? 0)) str in
  match strtok 59 str with
  | None => Some (RC_SNAPSHOT_INVALID_FILE, delta, hp)
  | token => deserialize_str_loop (S (length str)) hp token 0 delta
  end.

(** * Lemmas *)

Lemma i64_id v : is_int64 v -> i64 v = v.
Proof. unfold is_int64, INT64_MIN, INT64_MAX. intros. apply swrap_small; lia. Qed.

Lemma i64_range z : is_int64 (i64 z).
Proof. pose proof (swrap_range 64 z ltac:(lia)). unfold is_int64, INT64_MIN, INT64_MAX. lia. Qed.

Abbreviation balances_ok := (Forall is_int64).

Definition balance state hash : Z := default 0 (HASH_FIND state hash).
Definition total state : Z := zsum state.*2.

Lemma state_delta_sum_total state : state_delta_sum state = i64 (total state).
Proof.
  unfold state_delta_sum, total.
  assert (forall a, foldl (fun sum (iter : hash_t * Z) => i64 (sum + iter.2)) (i64 a) state = i64 (a + zsum state.*2)) as H.
  { induction state as [|[h v] state IH]; intros a; cbn; [f_equal; lia|]. unfold zsum in *.
    rewrite swrap_add_l by lia. rewrite IH. f_equal. lia. }
  specialize (H 0). rewrite Z.add_0_l in H. rewrite <- H. f_equal.
Qed.

Lemma balance_cons h v state k : balance ((h, v) :: state) k = if decide (h = k) then v else balance state k.
Proof. unfold balance. cbn. by destruct (decide (h = k)). Qed.

Lemma balance_not_in state k : k ∉ state.*1 -> balance state k = 0.
Proof. unfold balance. by intros ->%HASH_FIND_None. Qed.

Lemma balance_int64 state k : balances_ok state.*2 -> is_int64 (balance state k).
Proof.
  intros H. induction state as [|[h v] state IH]; [done|]. cbn in H. apply Forall_cons_iff in H as [Hv H].
  rewrite balance_cons. destruct (decide (h = k)); auto.
Qed.

Lemma total_set_value state h w : total (set_value state h w) = total state + (if HASH_FIND state h is Some v then w - v else 0).
Proof.
  unfold total, zsum. induction state as [|[k v] state IH]; cbn; [lia|]. destruct (decide (k = h)); cbn; lia.
Qed.

Lemma total_HASH_DEL state h : total (HASH_DEL state h) = total state - balance state h.
Proof.
  unfold total, zsum, balance. induction state as [|[k v] state IH]; cbn; [lia|]. destruct (decide (k = h)); cbn; lia.
Qed.

Lemma total_HASH_ADD state h v : total (HASH_ADD state h v) = total state + v.
Proof. unfold total, HASH_ADD. rewrite fmap_app, zsum_app. unfold zsum. cbn. lia. Qed.

Lemma balance_gmap state h : balance state h = default 0 (to_gmap state !! h).
Proof. unfold balance. by rewrite HASH_FIND_gmap. Qed.

Lemma set_value_balances state h w : balances_ok state.*2 -> is_int64 w -> balances_ok (set_value state h w).*2.
Proof.
  intros Hs Hw. induction state as [|[k v] state IH]; [done|]. cbn in *. apply Forall_cons_iff in Hs as [Hv Hs].
  destruct (decide (k = h)); cbn; apply Forall_cons_iff; auto.
Qed.

Lemma HASH_DEL_balances state h : balances_ok state.*2 -> balances_ok (HASH_DEL state h).*2.
Proof.
  intros Hs. induction state as [|[k v] state IH]; [done|]. cbn in *. apply Forall_cons_iff in Hs as [Hv Hs].
  destruct (decide (k = h)); cbn; [done|]. apply Forall_cons_iff; auto.
Qed.

(** One addition. *)
Lemma add_or_sum_spec hp state h v ret state' hp' : unique state -> balances_ok state.*2 -> is_int64 v ->
  state_delta_add_or_sum hp state h v = (ret, state', hp') ->
  unique state' /\ balances_ok state'.*2 /\
  ((ret = RC_OK /\ (forall k, balance state' k = if decide (k = h) then i64 (balance state h + v) else balance state k) /\
    total state' = total state + (i64 (balance state h + v) - balance state h)) \/
   (ret = RC_OOM /\ state' = state)).
Proof.
  intros Hu Hb Hv E. unfold state_delta_add_or_sum in E. pose proof (balance_int64 state h Hb) as Hbh.
  destruct (Z.eqb_spec v 0) as [->|Hv0].
  { injection E as <- <- <-. split; [done|]. split; [done|]. left. rewrite Z.add_0_r, i64_id by done.
    split; [done|]. split; [|lia]. intros k. by destruct (decide (k = h)) as [->|]. }
  destruct (HASH_FIND state h) as [w|] eqn:Ef.
  - assert (balance state h = w) as Ew by (unfold balance; by rewrite Ef). rewrite Ew in *.
    assert (is_int64 (i64 (w + v))) as Hi by apply i64_range.
    pose proof (set_value_unique state h (i64 (w + v)) Hu) as Hus.
    pose proof (set_value_balances state h _ Hb Hi) as Hbs.
    pose proof (total_set_value state h (i64 (w + v))) as Ht. rewrite Ef in Ht.
    assert (forall k, balance (set_value state h (i64 (w + v))) k = if decide (k = h) then i64 (w + v) else balance state k) as Hbal.
    { intros k. rewrite balance_gmap, set_value_gmap by (by rewrite Ef). destruct (decide (k = h)) as [->|].
      - by rewrite lookup_insert_eq.
      - rewrite lookup_insert_ne by done. by rewrite balance_gmap. }
    assert (is_Some (HASH_FIND (set_value state h (i64 (w + v))) h)) as Hf.
    { rewrite HASH_FIND_gmap, set_value_gmap by (by rewrite Ef). rewrite lookup_insert_eq. by eexists. }
    destruct (Z.eqb_spec (i64 (w + v)) 0) as [E0|E0]; injection E as <- <- <-.
    + unfold hash_map_remove. destruct (HASH_FIND (set_value _ _ _) h) eqn:Ef'; [|by destruct Hf]. cbn [snd].
      split; [by apply HASH_DEL_unique|]. split; [by apply HASH_DEL_balances|]. left. split; [done|]. split.
      * intros k. rewrite balance_gmap, HASH_DEL_gmap by done. destruct (decide (k = h)) as [->|].
        -- rewrite lookup_delete_eq. by rewrite E0.
        -- rewrite lookup_delete_ne by done. rewrite <- balance_gmap, Hbal. by rewrite decide_False.
      * rewrite total_HASH_DEL, Hbal, decide_True by done. lia.
    + split; [done|]. split; [done|]. left. split; [done|]. split; [done|]. lia.
  - assert (balance state h = 0) as Ew by (unfold balance; by rewrite Ef). rewrite Ew, Z.add_0_l, i64_id by done.
    unfold hash_map_add in E. rewrite Ef in E. destruct (malloc hp) as [[] hp1]; cbn in E; injection E as <- <- <-.
    + split; [by apply HASH_ADD_unique|]. split.
      { unfold HASH_ADD. rewrite fmap_app. apply Forall_app. split; [done|]. by apply Forall_cons_iff. }
      left. split; [done|]. split; [|rewrite total_HASH_ADD; lia].
      intros k. rewrite balance_gmap, HASH_ADD_gmap by done. destruct (decide (k = h)) as [->|].
      * by rewrite lookup_insert_eq.
      * rewrite lookup_insert_ne by done. by rewrite balance_gmap.
    + auto.
Qed.

Lemma balance_add_int64 state patch k : balances_ok state.*2 ->
  balance state k = i64 (balance state k + 0).
Proof. intros. rewrite Z.add_0_r, i64_id; [done|]. by apply balance_int64. Qed.

(** A patch changes every balance by its own. *)
Lemma apply_patch_spec patch : forall hp state ret state' hp', unique state -> balances_ok state.*2 ->
  unique patch -> balances_ok patch.*2 -> state_delta_apply_patch hp state patch = (ret, state', hp') ->
  unique state' /\ balances_ok state'.*2 /\ (ret = RC_OK \/ ret = RC_OOM) /\
  (ret = RC_OK -> (forall k, balance state' k = i64 (balance state k + balance patch k)) /\
    total state' = total state + zsum (map (fun e => i64 (balance state e.1 + e.2) - balance state e.1) patch)).
Proof.
  induction patch as [|[h v] patch IH]; intros hp state ret state' hp' Hu Hb Hup Hbp E; cbn in E.
  { injection E as <- <- <-. split_and!; [done|done|by left|]. intros _. split; [|unfold zsum; cbn; lia].
    intros k. by apply balance_add_int64. }
  apply unique_cons in Hup as [Hn Hup]. cbn in Hbp. apply Forall_cons_iff in Hbp as [Hv Hbp].
  assert (exists ret1 state1 hp1,
    (if negb (v =? 0) then state_delta_add_or_sum hp state h v else (RC_OK, state, hp)) = (ret1, state1, hp1) /\
    state_delta_add_or_sum hp state h v = (ret1, state1, hp1)) as (ret1 & state1 & hp1 & E1 & E2).
  { destruct (Z.eqb_spec v 0) as [->|]; cbn [negb].
    - exists RC_OK, state, hp. done.
    - destruct (state_delta_add_or_sum hp state h v) as [[r s] p]. by exists r, s, p. }
  rewrite E1 in E. apply add_or_sum_spec in E2 as (Hu1 & Hb1 & H); [|done..].
  destruct H as [(-> & Hbal & Htot)|[-> ->]]; cbn in E.
  2: { injection E as <- <- <-. split_and!; [done|done|by right|done]. }
  destruct (IH _ _ _ _ _ Hu1 Hb1 Hup Hbp E) as (Hu2 & Hb2 & Hret & H). split_and!; [done|done|done|]. intros ->.
  destruct (H eq_refl) as [H1 H2]. split.
  - intros k. rewrite H1, Hbal, balance_cons. destruct (decide (k = h)) as [->|Hne].
    + rewrite (balance_not_in patch h), decide_True, Z.add_0_r by done. apply i64_id, i64_range.
    + by rewrite decide_False by congruence.
  - rewrite H2, Htot. cbn [map]. unfold zsum. cbn [foldr fst snd].
    assert (map (fun e => i64 (balance state1 e.1 + e.2) - balance state1 e.1) patch =
            map (fun e => i64 (balance state e.1 + e.2) - balance state e.1) patch) as ->; [|lia].
    apply map_ext_in. intros [k w] Hk. cbn [fst snd]. rewrite Hbal, decide_False; [done|].
    intros ->. apply Hn. apply list_elem_of_In. change h with ((h, w).1). apply (in_map fst patch (h, w) Hk).
Qed.

(** While memory lasts, the loops succeed. *)
Lemma for_each_entry_nil f iter : (forall target h v, exists target', f [] target h v = (RC_OK, target', [])) ->
  forall target, exists target', for_each_entry f [] iter target = (RC_OK, target', []).
Proof.
  intros Hf. induction iter as [|[h v] iter IH]; intros target; cbn [for_each_entry]; [by eexists|].
  destruct (Hf target h v) as [t ->]. cbn. apply IH.
Qed.

Lemma hash_map_add_total (m : state_delta_t) h v : exists m', hash_map_add [] m h v = (RC_OK, m', []).
Proof. rewrite hash_map_add_nil. by eexists. Qed.

Lemma add_or_sum_total state h v : exists state', state_delta_add_or_sum [] state h v = (RC_OK, state', []).
Proof.
  unfold state_delta_add_or_sum. destruct (v =? 0); [by eexists|]. destruct (HASH_FIND state h); [by eexists|].
  destruct (hash_map_add_total state h v) as [s ->]. by eexists.
Qed.

Lemma apply_patch_total patch state : exists state', state_delta_apply_patch [] state patch = (RC_OK, state', []).
Proof.
  apply for_each_entry_nil. intros target h v. destruct (negb (v =? 0)); [apply add_or_sum_total|by eexists].
Qed.

Lemma create_patch_total state delta patch : exists patch', state_delta_create_patch [] state delta patch = (RC_OK, patch', []).
Proof. apply for_each_entry_nil. intros. apply hash_map_add_total. Qed.

(** Replacing: the entries of the patch, and what the state has for the others. *)
Definition merged state patch (k : hash_t) : Z := if HASH_FIND patch k is Some v then v else balance state k.

Lemma hash_map_add_cases hp (m : state_delta_t) h v ret m' hp' : HASH_FIND m h = None -> hash_map_add hp m h v = (ret, m', hp') ->
  (ret = RC_OK /\ m' = HASH_ADD m h v) \/ (ret = RC_OOM /\ m' = m).
Proof.
  intros Ef E. unfold hash_map_add in E. rewrite Ef in E. destruct (malloc hp) as [[] hp1]; cbn in E; injection E as <- <- <-; auto.
Qed.

Lemma add_or_replace_spec hp state h v state' hp' : unique state ->
  state_delta_add_or_replace hp state h v = (RC_OK, state', hp') ->
  unique state' /\ forall k, balance state' k = if decide (k = h) then v else balance state k.
Proof.
  intros Hu E. unfold state_delta_add_or_replace in E. destruct (HASH_FIND state h) as [w|] eqn:Ef.
  - destruct (Z.eqb_spec v 0) as [->|]; injection E as <- <-.
    + unfold hash_map_remove. rewrite Ef. cbn [snd]. split; [by apply HASH_DEL_unique|]. intros k.
      rewrite !balance_gmap, HASH_DEL_gmap by done. destruct (decide (k = h)) as [->|]; [by rewrite lookup_delete_eq|].
      by rewrite lookup_delete_ne.
    + split; [by apply set_value_unique|]. intros k. rewrite !balance_gmap, set_value_gmap by (by rewrite Ef).
      destruct (decide (k = h)) as [->|]; [by rewrite lookup_insert_eq|]. by rewrite lookup_insert_ne.
  - destruct (hash_map_add hp state h v) as [[ret m'] hp1] eqn:Ea. apply hash_map_add_cases in Ea; [|done].
    destruct Ea as [[-> ->]|[-> ->]]; cbn in E; [|done]. injection E as <- <-. split; [by apply HASH_ADD_unique|].
    intros k. rewrite !balance_gmap, HASH_ADD_gmap by done.
    destruct (decide (k = h)) as [->|]; [by rewrite lookup_insert_eq|]. by rewrite lookup_insert_ne.
Qed.

Lemma merge_patch_spec patch : forall hp state state' hp', unique state -> unique patch ->
  state_delta_merge_patch hp state patch = (RC_OK, state', hp') ->
  unique state' /\ forall k, balance state' k = merged state patch k.
Proof.
  induction patch as [|[h v] patch IH]; intros hp state state' hp' Hu Hp E; cbn in E; [by injection E as <- <-|].
  apply unique_cons in Hp as [Hn Hp]. destruct (state_delta_add_or_replace hp state h v) as [[ret s1] hp1] eqn:E1.
  destruct (bool_decide_reflect (ret = RC_OK)) as [->|]; cbn in E; [|congruence].
  apply add_or_replace_spec in E1 as [Hu1 H1]; [|done]. apply IH in E as [Hu2 H2]; [|done..]. split; [done|].
  intros k. rewrite H2. unfold merged. cbn [HASH_FIND]. destruct (decide (h = k)) as [->|Hne].
  - apply HASH_FIND_None in Hn. rewrite Hn, H1. by rewrite decide_True.
  - destruct (HASH_FIND patch k); [done|]. rewrite H1. by rewrite decide_False by congruence.
Qed.

(** ** Patches *)

Definition patched state delta : state_delta_t := map (fun e => (e.1, i64 (balance state e.1 + e.2))) delta.

Lemma create_patch_spec hp state delta ret patch hp' : unique delta ->
  state_delta_create_patch hp state delta [] = (ret, patch, hp') ->
  (ret = RC_OK /\ patch = patched state delta) \/ ret = RC_OOM.
Proof.
  intros Hu. unfold state_delta_create_patch, patched.
  assert (forall pre hp ret patch hp', unique (pre ++ delta) ->
    for_each_entry (fun hp patch hash value =>
      hash_map_add hp patch hash (i64 (default 0 (HASH_FIND state hash) + value))) hp delta
      (map (fun e => (e.1, i64 (balance state e.1 + e.2))) pre) = (ret, patch, hp') ->
    (ret = RC_OK /\ patch = map (fun e => (e.1, i64 (balance state e.1 + e.2))) (pre ++ delta)) \/ ret = RC_OOM) as H;
    [|by apply (H [] hp)].
  clear. induction delta as [|[h v] delta IH]; intros pre hp ret patch hp' Hu E; cbn [for_each_entry] in E.
  - injection E as <- <- <-. left. by rewrite app_nil_r.
  - unfold hash_map_add in E at 1.
    assert (HASH_FIND (map (fun e => (e.1, i64 (balance state e.1 + e.2))) pre) h = None) as Ef.
    { apply HASH_FIND_None. rewrite <- list_fmap_compose. cbn. unfold unique in Hu. rewrite fmap_app in Hu.
      apply list.NoDup_app in Hu as (_ & H & _). intros Hk. apply (H h); [|cbn; left].
      apply list_elem_of_fmap in Hk as ([k w] & -> & Hk). apply list_elem_of_fmap. by exists (k, w). }
    rewrite Ef in E. destruct (malloc hp) as [[] hp1]; cbn in E; [|injection E as <- <- <-; by right].
    replace (pre ++ (h, v) :: delta) with ((pre ++ [(h, v)]) ++ delta) in * by (by rewrite <- app_assoc).
    apply (IH (pre ++ [(h, v)]) hp1 ret patch hp' Hu). rewrite map_app. exact E.
Qed.

Lemma is_consistent_spec delta : let '(r, rest) := state_delta_is_consistent delta in
  (r = true <-> Forall (fun v => 0 <= v) delta.*2) /\
  (r = true -> rest = List.filter (fun e => 0 <? e.2) delta).
Proof.
  induction delta as [|[h v] delta IH]; [cbn; split; [split; [constructor|done]|done]|]. cbn [state_delta_is_consistent].
  destruct (state_delta_is_consistent delta) as [r rest]. destruct IH as [IH1 IH2].
  assert (Forall (fun v => 0 <= v) ((h, v) :: delta).*2 <-> 0 <= v /\ r = true) as Hc.
  { change (((h, v) :: delta).*2) with (v :: delta.*2). by rewrite Forall_cons_iff, IH1. }
  destruct (Z.leb_spec v 0); [destruct (Z.ltb_spec v 0)|]; (split; [rewrite Hc; intuition (lia || done)|]).
  - done.
  - intros E. cbn. replace (0 <? v) with false by lia. auto.
  - intros E. cbn. replace (0 <? v) with true by lia. by rewrite IH2.
Qed.

(** ** Ledger states *)

Record ledger_ok (state : state_delta_t) : Prop := {
  lo_unique : unique state;
  lo_positive : Forall (fun v => 0 <= v) state.*2;
  lo_supply : total state = IOTA_SUPPLY
}.

Lemma zsum_nonneg l : Forall (fun v => 0 <= v) l -> 0 <= zsum l /\ Forall (fun v => v <= zsum l) l.
Proof.
  induction l as [|v l IH]; intros H; [split; [reflexivity|constructor]|]. apply Forall_cons_iff in H as [Hv H].
  destruct (IH H) as [H1 H2]. unfold zsum in *. cbn. split; [lia|]. apply Forall_cons_iff. split; [lia|].
  eapply Forall_impl; [exact H2|]. cbn. lia.
Qed.

Lemma balance_range state : ledger_ok state -> balances_ok state.*2 /\ forall k, 0 <= balance state k <= IOTA_SUPPLY.
Proof.
  intros [Hu Hp Hs]. destruct (zsum_nonneg _ Hp) as [H1 H2]. fold (total state) in *. rewrite Hs in *.
  assert (Forall (fun v => 0 <= v <= IOTA_SUPPLY) state.*2) as Hr.
  { rewrite List.Forall_forall in *. intros v Hv. split; auto. }
  split.
  - eapply Forall_impl; [exact Hr|]. cbn. unfold is_int64, INT64_MIN, INT64_MAX, IOTA_SUPPLY. lia.
  - intros k. clear - Hr. induction state as [|[h v] state IH]; [unfold balance, IOTA_SUPPLY; cbn; lia|]. cbn in Hr. apply Forall_cons_iff in Hr as [Hv Hr].
    rewrite balance_cons. destruct (decide (h = k)); [done|auto].
Qed.

Lemma balance_elem state h v : unique state -> (h, v) ∈ state -> balance state h = v.
Proof. intros Hu Hin. unfold balance. by rewrite (proj2 (HASH_FIND_Some state h v Hu) Hin). Qed.

(** A non-negative wrapped sum of a balance and a change is exact. *)
Lemma add_exact b v : 0 <= b <= IOTA_SUPPLY -> is_int64 v -> 0 <= i64 (b + v) -> i64 (b + v) = b + v.
Proof.
  intros Hb Hv H. destruct (decide (b + v < 2 ^ 63)) as [Hlt|Hge].
  - apply swrap_small; unfold is_int64, INT64_MIN in Hv; lia.
  - exfalso. assert (i64 (b + v) = b + v - 2 ^ 64) as E; [|unfold is_int64, INT64_MAX, IOTA_SUPPLY in *; lia].
    rewrite <- (i64_id (b + v - 2 ^ 64)) by (unfold is_int64, INT64_MIN, INT64_MAX, IOTA_SUPPLY in *; lia).
    apply swrap_eqm. replace (b + v - 2 ^ 64) with (b + v + (-1) * 2 ^ 64) by lia. by rewrite Z_mod_plus_full.
Qed.

(** The changes that a consistent patch describes add up exactly. *)
Lemma consistent_exact state delta : ledger_ok state -> unique delta -> balances_ok delta.*2 ->
  Forall (fun v => 0 <= v) (patched state delta).*2 ->
  forall h v, (h, v) ∈ delta -> i64 (balance state h + v) = balance state h + v /\ 0 <= balance state h + v.
Proof.
  intros Hl Hu Hb Hp h v Hin. destruct (balance_range state Hl) as [_ Hr].
  assert (0 <= i64 (balance state h + v)) as Hpos.
  { rewrite List.Forall_forall in Hp. apply Hp. unfold patched. rewrite <- list_fmap_compose.
    apply list_elem_of_In, list_elem_of_fmap. exists (h, v). by rewrite list_elem_of_In in *. }
  assert (is_int64 v) as Hv.
  { rewrite List.Forall_forall in Hb. apply Hb. apply list_elem_of_In, list_elem_of_fmap. by exists (h, v). }
  rewrite add_exact in * by auto. done.
Qed.

Lemma ledger_step hp state delta state' hp' : ledger_ok state -> unique delta -> balances_ok delta.*2 ->
  Forall (fun v => 0 <= v) (patched state delta).*2 ->
  state_delta_sum delta = 0 -> Z.abs (total delta) < 2 ^ 64 ->
  state_delta_apply_patch hp state delta = (RC_OK, state', hp') ->
  ledger_ok state' /\ forall k, balance state' k = balance state k + balance delta k.
Proof.
  intros Hl Hu Hb Hp Hsum Hsmall E. destruct (balance_range state Hl) as [Hbs Hr].
  pose proof (consistent_exact state delta Hl Hu Hb Hp) as Hex.
  destruct (apply_patch_spec delta _ _ _ _ _ (lo_unique _ Hl) Hbs Hu Hb E) as (Hu' & Hb' & _ & H).
  destruct (H eq_refl) as [Hbal Htot]. clear H.
  assert (forall k, balance state' k = balance state k + balance delta k /\ 0 <= balance state' k) as Hk.
  { intros k. rewrite Hbal. destruct (HASH_FIND delta k) as [v|] eqn:Ef.
    - apply HASH_FIND_Some in Ef; [|done]. rewrite (balance_elem delta k v) by done. destruct (Hex k v Ef) as [-> Hpos]. done.
    - apply HASH_FIND_None in Ef. rewrite (balance_not_in delta k) by done. rewrite Z.add_0_r, i64_id by (by apply balance_int64).
      split; [lia|apply Hr]. }
  split; [|intros k; apply Hk]. split; [done| |].
  - apply List.Forall_forall. intros v Hv. apply list_elem_of_In, list_elem_of_fmap in Hv as ([h w] & -> & Hin). cbn.
    rewrite <- (balance_elem state' h w Hu' Hin). apply Hk.
  - rewrite Htot, (lo_supply _ Hl). rewrite state_delta_sum_total in Hsum.
    assert (total delta = 0) as H0.
    { assert ((total delta) mod 2 ^ 64 = 0) as Hm by (rewrite <- swrap_mod, Hsum by lia; done).
      apply Z.div_exact in Hm; [|lia]. nia. }
    assert (map (fun e => i64 (balance state e.1 + e.2) - balance state e.1) delta = delta.*2) as ->.
    { apply map_ext_in. intros [h v] Hin%list_elem_of_In. cbn. destruct (Hex h v Hin) as [-> _]. lia. }
    fold (total delta). lia.
Qed.

(** ** The binary form *)

Lemma bytes_value_int64 v : is_int64 v -> bytes_int64 (int64_bytes v) = v.
Proof.
  intros Hv. unfold bytes_int64. rewrite <- (i64_id v) at 2 by done. apply swrap_eqm.
  unfold int64_bytes. cbn [map seq bytes_value].
  assert (forall k, u8 (i8 (Z.shiftr v (8 * Z.of_nat k))) = v / 256 ^ Z.of_nat k mod 256) as Hb.
  { intros k. unfold uwrap. rewrite swrap_mod by lia. rewrite Z.shiftr_div_pow2 by lia. rewrite Z.pow_mul_r by lia. done. }
  rewrite !Hb. change (2 ^ 64) with (256 ^ 8).
  assert (forall k, v / 256 ^ Z.of_nat k mod 256 + 256 * (v / 256 ^ Z.of_nat (S k)) = v / 256 ^ Z.of_nat k) as Hs.
  { intros k. rewrite Nat2Z.inj_succ, Z.pow_succ_r by lia. rewrite (Z.mul_comm 256 (256 ^ Z.of_nat k)), <- Z.div_div by (try apply Z.pow_nonzero; lia).
    pose proof (Z_div_mod_eq_full (v / 256 ^ Z.of_nat k) 256). lia. }
  pose proof (Hs 0%nat) as H0. pose proof (Hs 1%nat) as H1. pose proof (Hs 2%nat) as H2. pose proof (Hs 3%nat) as H3.
  pose proof (Hs 4%nat) as H4. pose proof (Hs 5%nat) as H5. pose proof (Hs 6%nat) as H6. pose proof (Hs 7%nat) as H7.
  change (v / 256 ^ Z.of_nat 0) with (v / 1) in *. rewrite Z.div_1_r in *.
  match goal with |- ?x mod _ = _ => replace x with (v + (- (v / 256 ^ Z.of_nat 8)) * 256 ^ 8) end.
  - apply Z_mod_plus_full.
  - change (256 ^ 8) with 18446744073709551616. clear - H0 H1 H2 H3 H4 H5 H6 H7.
    repeat match goal with
    | H : ?d mod 256 + _ = _ |- _ => generalize dependent (d mod 256); intros
    | H : _ + 256 * ?q = _ |- _ => generalize dependent q; intros
    end. lia.
Qed.

Lemma length_int64_bytes v : length (int64_bytes v) = 8%nat.
Proof. done. Qed.

Definition entry_bytes (e : hash_t * Z) : list Z := e.1 ++ int64_bytes e.2.
Definition addresses_ok state : Prop := Forall (fun h => length h = FLEX_TRIT_SIZE_243) state.*1.

Lemma serialize_loop_spec delta : forall pre rest, addresses_ok delta ->
  length rest = (length delta * 251)%nat ->
  serialize_loop delta (pre ++ rest) (length pre) = pre ++ concat (map entry_bytes delta).
Proof.
  induction delta as [|[h v] delta IH]; intros pre rest Ha Hl; cbn [serialize_loop].
  - destruct rest; [done|simpl in Hl; lia].
  - unfold addresses_ok in Ha. cbn in Ha. apply Forall_cons_iff in Ha as [Hh Ha]. rewrite take_ge by lia.
    assert (forall src (p r : list Z), (length src <= length r)%nat ->
      buf_write (length p) src (p ++ r) = (p ++ src) ++ drop (length src) r) as Hw.
    { intros src p r Hle. unfold buf_write. rewrite take_app_length, length_app, take_ge by lia.
      rewrite drop_app_ge by lia. rewrite <- app_assoc. f_equal. f_equal. f_equal. lia. }
    cbn [length] in Hl. unfold FLEX_TRIT_SIZE_243 in *. rewrite Hw by lia. rewrite Hh.
    replace (length pre + 243)%nat with (length (pre ++ h)) by (rewrite length_app; lia).
    rewrite Hw by (rewrite length_drop, length_int64_bytes; lia). rewrite length_int64_bytes.
    replace (length (pre ++ h) + 8)%nat with (length ((pre ++ h) ++ int64_bytes v)) by (rewrite length_app, length_int64_bytes; lia).
    rewrite IH; [|done|rewrite !length_drop; lia]. cbn [map concat]. unfold entry_bytes at 2. cbn [fst snd].
    by rewrite <- !app_assoc.
Qed.

Lemma deserialize_loop_spec delta : forall pre acc, addresses_ok delta -> balances_ok delta.*2 ->
  deserialize_loop (length delta) [] (pre ++ concat (map entry_bytes delta)) (length pre) acc = (RC_OK, acc ++ delta, []).
Proof.
  induction delta as [|[h v] delta IH]; intros pre acc Ha Hb; cbn [length deserialize_loop malloc negb].
  - by rewrite app_nil_r.
  - unfold addresses_ok in Ha. cbn in Ha, Hb. apply Forall_cons_iff in Ha as [Hh Ha]. apply Forall_cons_iff in Hb as [Hv Hb].
    cbn [map concat]. unfold entry_bytes at 1 3 5. cbn [fst snd].
    assert (forall n (p s r : list Z), length s = n -> buf_read (length p) n (p ++ s ++ r) = s) as Hr.
    { intros n p s r Hs. unfold buf_read. by rewrite drop_app_length, take_app_length'. }
    rewrite <- !app_assoc. rewrite (Hr _ pre h) by done.
    replace (length pre + FLEX_TRIT_SIZE_243)%nat with (length (pre ++ h)) by (rewrite length_app; lia).
    rewrite (app_assoc pre h), (Hr 8%nat (pre ++ h) (int64_bytes v)) by done.
    rewrite bytes_value_int64 by done.
    replace (length (pre ++ h) + 8)%nat with (length ((pre ++ h) ++ int64_bytes v)) by (rewrite length_app, length_int64_bytes; lia).
    rewrite (app_assoc (pre ++ h)). rewrite IH by done. unfold HASH_ADD. by rewrite <- app_assoc.
Qed.

(** ** The textual form *)

Lemma dec_loop_value fuel : forall n acc, 0 <= n < 10 ^ Z.of_nat fuel -> dec_value 0 (dec_loop fuel n acc) = dec_value n acc.
Proof.
  induction fuel as [|fuel IH]; intros n acc Hn; cbn [dec_loop].
  - assert (n = 0) as -> by (change (10 ^ Z.of_nat 0) with 1 in Hn; lia). done.
  - rewrite Nat2Z.inj_succ, Z.pow_succ_r in Hn by lia. pose proof (Z.div_mod n 10 ltac:(lia)) as Hdm.
    destruct (Z.ltb_spec n 10).
    + unfold dec_value. cbn [foldl]. f_equal. rewrite Z.mod_small by lia. lia.
    + rewrite IH by (split; [apply Z.div_pos; lia|apply Z.div_lt_upper_bound; lia]).
      unfold dec_value. cbn [foldl]. f_equal. lia.
Qed.

Definition digits (l : list Z) : Prop := Forall (fun c => is_digit c = true) l.

Lemma dec_loop_digits fuel : forall n acc, 0 <= n -> digits acc -> digits (dec_loop fuel n acc).
Proof.
  induction fuel as [|fuel IH]; intros n acc Hn Ha; cbn [dec_loop]; [done|].
  assert (digits (48 + n mod 10 :: acc)) as Hd.
  { apply Forall_cons_iff. split; [|done]. pose proof (Z.mod_pos_bound n 10 ltac:(lia)). unfold is_digit. lia. }
  destruct (n <? 10); [done|]. apply IH; [apply Z.div_pos; lia|done].
Qed.

Lemma dec_loop_nonempty fuel n acc : acc <> [] \/ (0 < fuel)%nat -> dec_loop fuel n acc <> [].
Proof.
  revert n acc. induction fuel as [|fuel IH]; intros n acc H; cbn [dec_loop]; [destruct H; [done|lia]|].
  destruct (n <? 10); [done|]. apply IH. by left.
Qed.

Lemma take_while_all p l rest : Forall (fun c => p c = true) l -> (forall c, head rest = Some c -> p c = false) ->
  take_while p (l ++ rest) = l.
Proof.
  intros Hl Hr. induction l as [|c l IH]; cbn.
  - destruct rest as [|c rest]; [done|]. cbn. by rewrite (Hr c).
  - apply Forall_cons_iff in Hl as [-> Hl]. f_equal. auto.
Qed.

Lemma digit_cases c : is_digit c = true -> is_space c = false /\ c <> 45 /\ c <> 43 /\ c <> 10 /\ c <> 59 /\ c <> 0.
Proof. unfold is_digit, is_space. lia. Qed.

(** Printing then scanning. *)
Lemma sscanf_sprintf v : is_int64 v -> sscanf_d (sprintf_d v) = Some v.
Proof.
  intros Hv. unfold is_int64, INT64_MIN, INT64_MAX in Hv.
  assert (forall n, 0 <= n < 10 ^ Z.of_nat 20 -> exists c ds, dec_loop 20 n [] = c :: ds /\ is_digit c = true /\ digits (c :: ds) /\
    dec_value 0 (c :: ds) = n /\ take_while is_digit (c :: ds) = c :: ds) as H.
  { intros n Hn. pose proof (dec_loop_nonempty 20 n [] ltac:(right; lia)) as Hne.
    pose proof (dec_loop_digits 20 n [] ltac:(lia) ltac:(constructor)) as Hd.
    pose proof (dec_loop_value 20 n [] Hn) as Hval. destruct (dec_loop 20 n []) as [|c ds]; [done|]. exists c, ds.
    split; [done|]. split; [by apply Forall_cons_iff in Hd as [? _]|]. split; [done|]. split; [exact Hval|].
    rewrite <- (app_nil_r (c :: ds)) at 1. by apply take_while_all. }
  change (10 ^ Z.of_nat 20) with 100000000000000000000 in H. unfold sprintf_d. destruct (Z.ltb_spec v 0).
  - destruct (H (- v) ltac:(lia)) as (c & ds & -> & Hc & Hd & Hval & Htw). unfold sscanf_d.
    cbn [skip_while]. change (is_space 45) with false. cbv iota beta. change (45 =? 45) with true. cbv iota beta. rewrite Htw. rewrite Hval. f_equal. unfold INT64_MIN, INT64_MAX. lia.
  - destruct (H v ltac:(lia)) as (c & ds & -> & Hc & Hd & Hval & Htw). destruct (digit_cases c Hc) as (Hs & H45 & H43 & _).
    unfold sscanf_d. cbn [skip_while]. rewrite Hs.
    replace (c =? 45) with false by lia. replace (c =? 43) with false by lia.
    rewrite Htw, Hval. f_equal. unfold INT64_MIN, INT64_MAX. lia.
Qed.

Lemma sprintf_digits v : 0 <= v -> digits (sprintf_d v) /\ sprintf_d v <> [].
Proof.
  intros Hv. unfold sprintf_d. replace (v <? 0) with false by lia. split; [apply dec_loop_digits; [done|constructor]|].
  apply dec_loop_nonempty. right. lia.
Qed.

(** An address and its balance, on a line. *)
Definition line (e : hash_t * Z) : list Z := trits_to_trytes e.1 ++ [59] ++ sprintf_d e.2 ++ [10].

Definition hashes_ok (hs : list hash_t) : Prop := Forall (trits_of NUM_TRITS_ADDRESS) hs.

Lemma address_trytes h : trits_of NUM_TRITS_ADDRESS h ->
  length (trits_to_trytes h) = NUM_TRYTES_ADDRESS /\ trytes_ok (trits_to_trytes h) /\
  trytes_to_trits (trits_to_trytes h) = h.
Proof.
  intros [Hl Ht]. pose proof (trits_to_trytes_ok h Ht) as Hy.
  assert (trytes_to_trits (trits_to_trytes h) = h) as E.
  { rewrite trytes_of_trits_padded by done. apply pad3_exact. by rewrite Hl. }
  split; [|done]. pose proof (length_trytes_to_trits _ Hy) as Hlen. rewrite E, Hl in Hlen.
  unfold NUM_TRITS_ADDRESS, NUM_TRYTES_ADDRESS in *. lia.
Qed.

Lemma serialize_str_spec delta : hashes_ok delta.*1 ->
  state_delta_serialize_str delta = (RC_OK, concat (map line delta) ++ [0]).
Proof.
  unfold state_delta_serialize_str. intros H.
  assert (forall str, serialize_str_loop delta str = (RC_OK, str ++ concat (map line delta) ++ [0])) as Hs; [|apply Hs].
  induction delta as [|[h v] delta IH]; intros str; [done|]. cbn [serialize_str_loop].
  change (hashes_ok (h :: delta.*1)) in H. apply Forall_cons_iff in H as [Hh H].
  destruct (address_trytes h Hh) as (Hl & Hy & _). destruct Hh as [Hhl Hht].
  unfold flex_trits_to_trytes. change (NUM_TRITS_ADDRESS <? NUM_TRITS_ADDRESS)%nat with false.
  change (NUM_TRYTES_ADDRESS * 3 <? NUM_TRITS_ADDRESS)%nat with false. cbn [orb].
  rewrite take_ge by lia. rewrite memset_write_all by (done || apply length_replicate).
  rewrite Nat.eqb_refl. cbn [negb]. rewrite IH by done. cbn [map concat]. unfold line at 2. cbn [fst snd].
  by rewrite <- !app_assoc.
Qed.

(** A token that is followed by its delimiter. *)
Lemma strtok_spec delim s rest : s <> [] -> Forall (fun c => c <> delim) s ->
  strtok delim (s ++ delim :: rest) = Some (s, rest).
Proof.
  intros Hne Hs.
  assert (take_while (fun c => negb (c =? delim)) (s ++ delim :: rest) = s) as Ht.
  { apply take_while_all; [|intros c [= <-]; lia]. eapply Forall_impl; [exact Hs|]. cbn. lia. }
  destruct s as [|c s]; [done|]. apply Forall_cons_iff in Hs as [Hc _]. unfold strtok. cbn [app skip_while] in *.
  replace (delim =? c) with false by lia. rewrite Ht. cbv iota zeta. f_equal. f_equal. cbn [length drop].
  rewrite drop_app_ge by lia. replace (S (length s) - length s)%nat with 1%nat by lia. done.
Qed.

Lemma line_tokens e rest : trits_of NUM_TRITS_ADDRESS e.1 -> 0 <= e.2 ->
  exists digits, strtok 59 (line e ++ rest) = Some (trits_to_trytes e.1, digits ++ 10 :: rest) /\
    strtok 10 (digits ++ 10 :: rest) = Some (digits, rest) /\ digits = sprintf_d e.2.
Proof.
  intros Hh Hv. destruct (address_trytes e.1 Hh) as (Hl & Hy & _). destruct (sprintf_digits e.2 Hv) as [Hd Hne].
  exists (sprintf_d e.2). unfold line. rewrite <- !app_assoc. cbn [app]. split_and!; [| |done].
  - apply strtok_spec; [intros E; rewrite E in Hl; unfold NUM_TRYTES_ADDRESS in Hl; simpl in Hl; lia|].
    eapply Forall_impl; [exact Hy|]. cbn. unfold is_tryte. lia.
  - apply strtok_spec; [done|]. eapply Forall_impl; [exact Hd|]. cbn. intros c Hc. apply digit_cases in Hc. tauto.
Qed.

(** One line. *)
Lemma deserialize_line fuel e rest supply delta : trits_of NUM_TRITS_ADDRESS e.1 -> 0 <= e.2 -> is_int64 e.2 ->
  deserialize_str_loop (S fuel) [] (strtok 59 (line e ++ rest)) supply delta =
  deserialize_str_loop fuel [] (strtok 59 rest) (if e.2 >? 0 then u64 (supply + e.2) else supply)
    (if HASH_FIND delta e.1 is Some _ then delta else HASH_ADD delta e.1 e.2).
Proof.
  intros Hh Hv Hi. destruct (line_tokens e rest Hh Hv) as (ds & E1 & E2 & ->). cbn [deserialize_str_loop].
  rewrite E1. destruct (address_trytes e.1 Hh) as (Hl & Hy & Ht). destruct Hh as [Hhl Hht].
  unfold flex_trits_from_trytes. rewrite Nat.ltb_irrefl. change (NUM_TRITS_ADDRESS <? NUM_TRYTES_ADDRESS * 3)%nat with false.
  cbn [orb]. rewrite take_app_length' by done. rewrite Ht.
  rewrite memset_write_all by (done || apply length_replicate). rewrite Nat.eqb_refl. cbn [negb].
  rewrite E2, sscanf_sprintf by done. replace (e.2 <? 0) with false by lia. rewrite hash_map_add_nil. done.
Qed.

Lemma deserialize_lines delta : forall fuel supply acc, (length delta < fuel)%nat -> hashes_ok delta.*1 ->
  Forall (fun v => 0 <= v) delta.*2 -> unique (acc ++ delta) -> 0 <= supply -> supply + total delta = IOTA_SUPPLY ->
  deserialize_str_loop fuel [] (strtok 59 (concat (map line delta))) supply acc = Some (RC_OK, acc ++ delta, []).
Proof.
  induction delta as [|[h v] delta IH]; intros fuel supply acc Hf Hh Hp Hu H0 Hs; (destruct fuel as [|fuel]; [simpl in Hf; lia|]).
  - cbn. unfold total, zsum in Hs. cbn in Hs. replace (supply =? IOTA_SUPPLY) with true by lia. by rewrite app_nil_r.
  - change (hashes_ok (h :: delta.*1)) in Hh. apply Forall_cons_iff in Hh as [Hh Hhs]. cbn in Hp. apply Forall_cons_iff in Hp as [Hv Hp].
    assert (total ((h, v) :: delta) = v + total delta) as Ht by reflexivity. rewrite Ht in Hs.
    pose proof (zsum_nonneg _ Hp) as [Hz _]. fold (total delta) in Hz. cbn [map concat].
    rewrite deserialize_line; [|done|done|cbn; unfold is_int64, INT64_MIN, INT64_MAX, IOTA_SUPPLY in *; lia]. cbn [fst snd].
    assert (HASH_FIND acc h = None) as ->.
    { apply HASH_FIND_None. unfold unique in Hu. rewrite fmap_app in Hu. apply list.NoDup_app in Hu as (_ & H & _).
      intros Hk. apply (H h Hk). cbn. left. }
    assert ((if v >? 0 then u64 (supply + v) else supply) = supply + v) as ->.
    { destruct (Z.gtb_spec v 0); [|lia]. apply uwrap_small. unfold IOTA_SUPPLY in *. lia. }
    rewrite IH; [unfold HASH_ADD; by rewrite <- app_assoc|simpl in Hf; lia|done|done| |lia|lia].
    unfold HASH_ADD. by rewrite <- app_assoc.
Qed.

Lemma lines_text delta : hashes_ok delta.*1 -> Forall (fun v => 0 <= v) delta.*2 ->
  take_while (fun c => negb (c =? 0)) (concat (map line delta) ++ [0]) = concat (map line delta) /\
  (length delta <= length (concat (map line delta)))%nat.
Proof.
  intros Hh Hp. split.
  - apply take_while_all; [|by intros c [= <-]]. induction delta as [|[h v] delta IH]; [constructor|].
    change (hashes_ok (h :: delta.*1)) in Hh. apply Forall_cons_iff in Hh as [Hh Hhs]. cbn in Hp. apply Forall_cons_iff in Hp as [Hv Hp]. cbn [map concat].
    apply Forall_app. split; [|auto]. destruct (address_trytes h Hh) as (_ & Hy & _). destruct (sprintf_digits v Hv) as [Hd _].
    unfold line. cbn [fst snd]. apply Forall_app. split; [eapply Forall_impl; [exact Hy|]; cbn; unfold is_tryte; lia|].
    apply Forall_cons_iff. split; [done|]. apply Forall_app. split; [|by apply Forall_cons_iff].
    eapply Forall_impl; [exact Hd|]. cbn. intros c Hc. apply digit_cases in Hc. lia.
  - clear. induction delta as [|[h v] delta IH]; [cbn; lia|]. cbn [map concat]. rewrite length_app. unfold line at 1.
    rewrite !length_app. cbn [length fst snd]. lia.
Qed.

(** Reading back the text of a state. *)
Lemma state_text_read state : ledger_ok state -> hashes_ok state.*1 ->
  state_delta_deserialize_str [] (concat (map line state) ++ [0]) [] = Some (RC_OK, state, []).
Proof.
  intros [Hu Hp Hs] Hh. destruct (lines_text state Hh Hp) as [Htw Hlen].
  unfold state_delta_deserialize_str. rewrite Htw.
  destruct state as [|[h v] state]; [done|]. cbn [map concat] in *.
  assert (trits_of NUM_TRITS_ADDRESS h /\ 0 <= v) as [H1 H2].
  { cbn in Hp. apply Forall_cons_iff in Hp as [? _]. by change (hashes_ok (h :: state.*1)) in Hh; apply Forall_cons_iff in Hh as [? _]. }
  destruct (line_tokens (h, v) (concat (map line state)) H1 H2) as (ds & E1 & _). rewrite E1, <- E1.
  apply (deserialize_lines ((h, v) :: state)); [lia|done..|lia].
Qed.

(** A file of two lines for the same address: the map keeps the first. *)
Lemma deserialize_two h v w : trits_of NUM_TRITS_ADDRESS h -> 0 < v -> 0 < w -> v + w = IOTA_SUPPLY ->
  state_delta_deserialize_str [] (line (h, v) ++ line (h, w)) [] = Some (RC_OK, [(h, v)], []).
Proof.
  intros Hh Hv Hw Hs.
  assert (hashes_ok [h; h] /\ Forall (fun v => 0 <= v) [v; w]) as [H1 H2].
  { split; (apply Forall_cons_iff; split; [done || lia|apply Forall_cons_iff; split; [done || lia|constructor]]). }
  destruct (lines_text [(h, v); (h, w)] H1 H2) as [Htw Hlen]. cbn [map concat length] in Htw, Hlen.
  rewrite app_nil_r in Htw, Hlen. unfold state_delta_deserialize_str.
  assert (take_while (fun c => negb (c =? 0)) (line (h, v) ++ line (h, w)) = line (h, v) ++ line (h, w)) as ->.
  { assert (Forall (fun c => negb (c =? 0) = true) (line (h, v) ++ line (h, w))) as Hall.
    { rewrite <- Htw. clear. induction ((line (h, v) ++ line (h, w)) ++ [0]) as [|c l IH]; [constructor|]. cbn.
      destruct (negb (c =? 0)) eqn:E; [|constructor]. by apply Forall_cons_iff. }
    rewrite <- (app_nil_r (line (h, v) ++ line (h, w))) at 1. by apply take_while_all. }
  assert (is_int64 v /\ is_int64 w) as [Hiv Hiw] by (unfold is_int64, INT64_MIN, INT64_MAX, IOTA_SUPPLY in *; lia).
  destruct (line_tokens (h, v) (line (h, w)) Hh ltac:(cbn; lia)) as (ds & E1 & _). rewrite E1, <- E1.
  destruct (length (line (h, v) ++ line (h, w))) as [|[|n]]; [lia|lia|].
  rewrite deserialize_line by (done || (cbn; lia)). cbn [fst snd HASH_FIND].
  rewrite <- (app_nil_r (line (h, w))). rewrite deserialize_line by (done || (cbn; lia)). cbn [fst snd HASH_ADD app HASH_FIND].
  rewrite decide_True by done. cbn [strtok skip_while deserialize_str_loop].
  replace (v >? 0) with true by lia. replace (w >? 0) with true by lia. unfold IOTA_SUPPLY in *.
  rewrite Z.add_0_l, (uwrap_small 64 v), uwrap_small by lia. by replace (v + w =? 2779530283277761) with true by lia.
Qed.

(** * Properties *)

(** C18: a patch that [state_delta_is_consistent] accepts keeps the ledger sound: when
    the state has non-negative balances that add up to the supply, the changes sum
    to zero and the patch of state and changes is consistent, then applying the
    changes adds them to the balances exactly, without overflow, and the new
    balances are again non-negative and add up to the supply. *)
Theorem consistent_patch_keeps_ledger hp hp1 hp2 state delta patch state' : ledger_ok state -> unique delta ->
  balances_ok delta.*2 -> state_delta_create_patch hp state delta [] = (RC_OK, patch, hp1) ->
  (state_delta_is_consistent patch).1 = true -> state_delta_sum delta = 0 -> Z.abs (total delta) < 2 ^ 64 ->
  state_delta_apply_patch hp state delta = (RC_OK, state', hp2) ->
  ledger_ok state' /\ forall k, balance state' k = balance state k + balance delta k.
Proof.
  intros Hl Hu Hb Ec Hc Hsum Hsmall Ea. apply create_patch_spec in Ec as [[_ ->]|]; [|done|done].
  pose proof (is_consistent_spec (patched state delta)) as Hs. destruct (state_delta_is_consistent _) as [r rest].
  cbn [fst] in Hc. destruct Hs as [[Hs _] _]. by apply (ledger_step hp state delta state' hp2 Hl Hu Hb (Hs Hc)).
Qed.

Definition sample_address (t : Z) : hash_t := replicate 243 t.
Definition sample_state : state_delta_t := [(sample_address 0, 2779530283277700); (sample_address 1, 61)].
Definition sample_change : state_delta_t := [(sample_address 1, -61); (sample_address (-1), 61)].

Lemma sample_state_ok : ledger_ok sample_state.
Proof. split; [apply (bool_decide_unpack _); vm_compute; exact I|closed_decide|vm_compute; reflexivity]. Qed.

Lemma consistent_patch_keeps_ledger_witness :
  let state' := [(sample_address 0, 2779530283277700); (sample_address (-1), 61)] in
  ledger_ok state' /\ forall k, balance state' k = balance sample_state k + balance sample_change k.
Proof.
  cbv zeta.
  apply (consistent_patch_keeps_ledger [] [] [] sample_state sample_change (patched sample_state sample_change)).
  - exact sample_state_ok.
  - apply (bool_decide_unpack _). vm_compute. exact I.
  - closed_decide.
  - vm_compute. reflexivity.
  - vm_compute. reflexivity.
  - vm_compute. reflexivity.
  - vm_compute. reflexivity.
  - vm_compute. reflexivity.
Defined.

(** The supply check of [state_delta_deserialize_str] counts every line, but the
    map keeps only the first line of an address: a file with two lines for one
    address that add up to the supply is accepted, and the balances loaded add up
    to less. *)
Theorem snapshot_text_duplicates h v w : trits_of NUM_TRITS_ADDRESS h -> 0 < v -> 0 < w -> v + w = IOTA_SUPPLY ->
  exists state, state_delta_deserialize_str [] (line (h, v) ++ line (h, w)) [] = Some (RC_OK, state, []) /\
    state_delta_sum state = v /\ v < IOTA_SUPPLY.
Proof.
  intros Hh Hv Hw Hs. exists [(h, v)]. split; [by apply deserialize_two|]. split; [|lia].
  unfold state_delta_sum. cbn [foldl snd]. rewrite Z.add_0_l. apply i64_id.
  unfold is_int64, INT64_MIN, INT64_MAX, IOTA_SUPPLY in *. lia.
Qed.

Lemma snapshot_text_duplicates_witness : exists state,
  state_delta_deserialize_str [] (line (sample_address 1, 1) ++ line (sample_address 1, 2779530283277760)) []
    = Some (RC_OK, state, []) /\ state_delta_sum state = 1 /\ 1 < IOTA_SUPPLY.
Proof. apply snapshot_text_duplicates; [closed_decide|reflexivity|reflexivity|reflexivity]. Defined.

(** The binary form of a delta reads back. *)
Theorem state_delta_bytes_roundtrip delta bytes : addresses_ok delta -> balances_ok delta.*2 ->
  Z.of_nat (length bytes) = state_delta_serialized_size (Some delta) ->
  let '(ret, bytes') := state_delta_serialize delta bytes in
  ret = RC_OK /\ length bytes' = length bytes /\
  state_delta_deserialize [] bytes' (length bytes') [] = (RC_OK, delta, []).
Proof.
  intros Ha Hb Hl. unfold state_delta_serialize. unfold state_delta_serialized_size, hash_map_size, FLEX_TRIT_SIZE_243 in Hl.
  pose proof (serialize_loop_spec delta [] bytes Ha ltac:(lia)) as E. cbn [app length] in E. rewrite E.
  assert (length (concat (map entry_bytes delta)) = (length delta * 251)%nat) as Hc.
  { clear - Ha. unfold addresses_ok in Ha. induction delta as [|[h v] delta IH]; [done|]. cbn in Ha.
    apply Forall_cons_iff in Ha as [Hh Ha]. cbn [map concat length]. rewrite length_app. unfold entry_bytes at 1.
    rewrite length_app, length_int64_bytes. cbn [fst]. rewrite Hh. unfold FLEX_TRIT_SIZE_243. specialize (IH Ha). lia. }
  split; [done|]. split; [lia|]. unfold state_delta_deserialize. rewrite Hc.
  change (FLEX_TRIT_SIZE_243 + 8)%nat with 251%nat. rewrite Nat.div_mul by lia.
  apply (deserialize_loop_spec delta [] []); done.
Qed.

Lemma state_delta_bytes_roundtrip_witness :
  let '(ret, bytes') := state_delta_serialize sample_change (replicate 502 7) in
  ret = RC_OK /\ length bytes' = length (replicate 502 7) /\
  state_delta_deserialize [] bytes' (length bytes') [] = (RC_OK, sample_change, []).
Proof. apply state_delta_bytes_roundtrip; [closed_decide|closed_decide|reflexivity]. Defined.

(** The bound on the total is needed: the sum of a delta is computed modulo 2^64, and
    three payments of a third of it pass every check. *)
Lemma overflowing_delta_accepted :
  let third := 6148914691236517205 in
  let delta := [(sample_address 0, third); (sample_address 1, third); (sample_address (-1), third + 1)] in
  exists patch state',
    state_delta_create_patch [] sample_state delta [] = (RC_OK, patch, []) /\ (state_delta_is_consistent patch).1 = true /\
    state_delta_sum delta = 0 /\ state_delta_apply_patch [] sample_state delta = (RC_OK, state', []) /\
    total state' = IOTA_SUPPLY + 2 ^ 64.
Proof. do 2 eexists. split_and!; vm_compute; reflexivity. Qed.
