(* ===== verification/Snapshot.v ===== *)
(** * Snapshots

    [ciri/consensus/snapshot/snapshot.c], [snapshot_metadata.c] and
    [snapshots_provider.c]: a ledger state with its metadata, patches, and the local
    snapshot files.  Files are a map from paths to contents; the outcome of every
    access is an argument.  Locks are not modelled. *)
From stdpp Require Import strings.
From S2P Require Import Prelude Errors Trits TritLong FlexTrit Transaction Containers StateDelta.

(** ** Files: [ciri/utils/files.c] *)

Definition path := list Z.

Inductive file_outcome :=
| FileOk
| OpenFailed
| WriteFailed (written : nat)
| ReadFailed.

Record file_system := mk_fs { fs_files : gmap path (list Z); fs_outcome : path -> file_outcome }.

(** The buffer is a C string; after an error it may be there, and is freed. *)
Definition iota_utils_read_file_into_buffer (fs : file_system) (file_path : path) : retcode_t * option (list Z) :=
  match fs_files fs !! file_path with
  | None => (RC_UTILS_FILE_DOES_NOT_EXITS, None)
  | Some content =>
      match fs_outcome fs file_path with
      | OpenFailed => (RC_UTILS_FAILED_TO_OPEN_FILE, None)
      | ReadFailed => (RC_UTILS_FAILED_READ_FILE, None)
      | _ => (RC_OK, Some (content ++ [0]))
      end
  end.

Definition strlen (s : list Z) : nat := length (take_while (fun c => negb (c =? 0)) s).

Definition iota_utils_overwrite_file (fs : file_system) (file_path : path) (content : list Z) : retcode_t * file_system :=
  let content_size := strlen content in
  let put c := mk_fs (<[file_path := c]> (fs_files fs)) (fs_outcome fs) in
  match fs_outcome fs file_path with
  | OpenFailed => (RC_UTILS_FAILED_TO_OPEN_FILE, fs)
  | WriteFailed n =>
      if (n <? content_size)%nat then (RC_UTILS_FAILED_WRITE_FILE, put (take n content))
      else (RC_OK, put (take content_size content))
  | _ => (RC_OK, put (take content_size content))
  end.

(** ** Metadata *)

Record snapshot_metadata_t := mk_snapshot_metadata {
  sm_hash : list Z; sm_index : Z; sm_timestamp : Z; sm_solid_entry_points : hash_map Z
}.

(** The result of the copy is ignored. *)
Definition iota_snapshot_metadata_init (hp : heap) (hash : list Z) (index timestamp : Z) (solid_entry_points : hash_map Z)
    : retcode_t * snapshot_metadata_t * heap :=
  let '(_, seps, hp) := hash_map_copy hp solid_entry_points [] in
  (RC_OK, mk_snapshot_metadata hash index timestamp seps, hp).

Definition iota_snapshot_metadata_reset (m : snapshot_metadata_t) : snapshot_metadata_t := mk_snapshot_metadata (sm_hash m) 0 0 [].

Definition iota_snapshot_metadata_destroy (m : snapshot_metadata_t) : retcode_t * snapshot_metadata_t :=
  (RC_OK, mk_snapshot_metadata (sm_hash m) (sm_index m) (sm_timestamp m) []).

Definition NUM_TRYTES_HASH : nat := 81.
Definition MAX_CHARS_UINT64 : Z := 20.

Definition iota_snapshot_metadata_serialized_str_size (m : snapshot_metadata_t) : Z :=
  Z.of_nat NUM_TRYTES_HASH + 1 + MAX_CHARS_UINT64 + 1 + MAX_CHARS_UINT64 + 1 +
  hash_map_size (sm_solid_entry_points m) * (MAX_CHARS_UINT64 + 1 + Z.of_nat NUM_TRYTES_HASH + 1).

Fixpoint seps_loop (seps : hash_map Z) (str : list Z) : retcode_t * list Z :=
  match seps with
  | [] => (RC_OK, str ++ [0])
  | (hash, value) :: seps =>
      let '(n, trytes) := flex_trits_to_trytes (replicate NUM_TRYTES_ADDRESS 0) NUM_TRYTES_ADDRESS hash
                            NUM_TRITS_HASH NUM_TRITS_HASH in
      if negb (n =? NUM_TRITS_HASH)%nat then (RC_SNAPSHOT_METADATA_FAILED_SERIALIZING, str) else
      let str := str ++ trytes in
      let str := str ++ [59] in
      let str := str ++ sprintf_d value ++ [10] in
      seps_loop seps str
  end.

Definition iota_snapshot_metadata_serialize_str (m : snapshot_metadata_t) : retcode_t * list Z :=
  let '(n, trytes) := flex_trits_to_trytes (replicate NUM_TRYTES_HASH 0) NUM_TRYTES_HASH (sm_hash m)
                        NUM_TRITS_HASH NUM_TRITS_HASH in
  if negb (n =? NUM_TRITS_HASH)%nat then (RC_SNAPSHOT_METADATA_FAILED_SERIALIZING, []) else
  let str := trytes ++ [10] in
  let str := str ++ sprintf_d (sm_index m) ++ [10] in
  let str := str ++ sprintf_d (sm_timestamp m) ++ [10] in
  let str := str ++ sprintf_d (hash_map_size (sm_solid_entry_points m)) ++ [10] in
  let str := str ++ [48; 10] in
  seps_loop (sm_solid_entry_points m) str.

(** [sscanf("%lu%n")]: the number, and what follows it. *)
Definition sscanf_u (s : list Z) : option (Z * list Z) :=
  let s := skip_while is_space s in
  let '(neg, s) := match s with
                   | c :: s' => if c =? 45 then (true, s') else if c =? 43 then (false, s') else (false, s)
                   | [] => (false, s)
                   end in
  match take_while is_digit s with
  | [] => None
  | ds =>
      let v := Z.min (2 ^ 64 - 1) (dec_value 0 ds) in
      Some (if neg : bool then u64 (- v) else v, drop (length ds) s)
  end.

(** The fuel bounds the number of tokens. *)
Fixpoint seps_read_loop (fuel : nat) (hp : heap) (token : option (list Z * list Z)) (num_solid_entry_points : Z)
    (seps : hash_map Z) : option (retcode_t * hash_map Z * heap) :=
  match fuel with
  | O => None
  | S fuel =>
      match token with
      | None => Some (RC_OK, seps, hp)
      | Some (token, rest) =>
          if negb (num_solid_entry_points >? 0) then Some (RC_OK, seps, hp) else
          let num_solid_entry_points := u64 (num_solid_entry_points - 1) in
          let '(n, curr_hash) := flex_trits_from_trytes (replicate NUM_TRITS_ADDRESS 0) NUM_TRITS_ADDRESS
                                   (token ++ 0 :: rest) NUM_TRYTES_ADDRESS NUM_TRYTES_ADDRESS in
          if negb (n =? NUM_TRYTES_ADDRESS)%nat then Some (RC_SNAPSHOT_METADATA_FAILED_DESERIALIZING, seps, hp) else
          match strtok 10 rest with
          | None => Some (RC_OK, seps, hp)
          | Some (token, rest) =>
              match sscanf_u token with
              | None => Some (RC_SNAPSHOT_METADATA_FAILED_DESERIALIZING, seps, hp)
              | Some (snapshot_index, _) =>
                  let '(ret, seps, hp) := hash_map_add hp seps curr_hash snapshot_index in
                  if negb (bool_decide (ret = RC_OK)) then Some (ret, seps, hp) else
                  seps_read_loop fuel hp (strtok 59 rest) num_solid_entry_points seps
              end
          end
      end
  end.

(** [str] includes its terminator, which the reads may step over. *)
Definition iota_snapshot_metadata_deserialize_str (hp : heap) (str : list Z) (m : snapshot_metadata_t)
    : option (retcode_t * snapshot_metadata_t * heap) :=
  let '(n, hash) := flex_trits_from_trytes (sm_hash m) NUM_TRITS_HASH str NUM_TRYTES_HASH NUM_TRYTES_HASH in
  let m := mk_snapshot_metadata hash (sm_index m) (sm_timestamp m) (sm_solid_entry_points m) in
  if negb (n =? NUM_TRYTES_HASH)%nat then Some (RC_SNAPSHOT_METADATA_FAILED_DESERIALIZING, m, hp) else
  let ptr := drop (NUM_TRYTES_HASH + 1) str in
  match sscanf_u ptr with
  | None => Some (RC_SNAPSHOT_METADATA_FAILED_DESERIALIZING, m, hp)
  | Some (index, ptr) =>
      let m := mk_snapshot_metadata hash index (sm_timestamp m) (sm_solid_entry_points m) in
      match sscanf_u (drop 1 ptr) with
      | None => Some (RC_SNAPSHOT_METADATA_FAILED_DESERIALIZING, m, hp)
      | Some (timestamp, ptr) =>
          let m := mk_snapshot_metadata hash index timestamp (sm_solid_entry_points m) in
          match sscanf_u (drop 1 ptr) with
          | None => Some (RC_SNAPSHOT_METADATA_FAILED_DESERIALIZING, m, hp)
          | Some (num_solid_entry_points, ptr) =>
              match sscanf_u (drop 1 ptr) with
              | None => Some (RC_SNAPSHOT_METADATA_FAILED_DESERIALIZING, m, hp)
              | Some (_, ptr) =>
                  let ptr := take_while (fun c => negb (c =? 0)) (drop 1 ptr) in
                  match seps_read_loop (S (length ptr)) hp (strtok 59 ptr) num_solid_entry_points (sm_solid_entry_points m) with
                  | None => None
                  | Some (ret, seps, hp) => Some (ret, mk_snapshot_metadata hash index timestamp seps, hp)
                  end
              end
          end
      end
  end.

Definition iota_snapshot_metadata_read_from_file (hp : heap) (fs : file_system) (metadata_file : path)
    (m : snapshot_metadata_t) : option (retcode_t * snapshot_metadata_t * heap) :=
  let '(ret, buffer) := iota_utils_read_file_into_buffer fs metadata_file in
  if negb (bool_decide (ret = RC_OK)) then Some (ret, m, hp) else
  match buffer with
  | None => Some (ret, m, hp)
  | Some buffer => iota_snapshot_metadata_deserialize_str hp buffer m
  end.

(** ** Snapshots *)

(** The part of the consensus configuration that snapshots use. *)
Record snapshot_conf := mk_conf {
  genesis_hash : list Z; last_milestone : Z; snapshot_timestamp_sec : Z;
  snapshot_file : path; snapshot_signature_skip_validation : bool;
  local_snapshots_is_enabled : bool; base_dir : path
}.

Record snapshot_t := mk_snapshot { sn_conf : snapshot_conf; sn_state : state_delta_t; sn_metadata : snapshot_metadata_t }.

Definition put_state (state : state_delta_t) (s : snapshot_t) : snapshot_t := mk_snapshot (sn_conf s) state (sn_metadata s).
Definition put_snapshot_metadata (m : snapshot_metadata_t) (s : snapshot_t) : snapshot_t := mk_snapshot (sn_conf s) (sn_state s) m.

(** "mainnet.snapshot.state" and "mainnet.snapshot.meta", in the base directory. *)
Definition ascii_of (s : string) : list Z :=
  map (fun c => Z.of_N (Ascii.N_of_ascii c)) (String.list_ascii_of_string s).
Definition SNAPSHOT_STATE_FILE_NAME : path := ascii_of "mainnet.snapshot.state".
Definition SNAPSHOT_METADATA_FILE_NAME : path := ascii_of "mainnet.snapshot.meta".
Definition IOTA_UTILS_FILE_SEPARATOR : path := ascii_of "/".
Definition state_path (base : path) : path := base ++ IOTA_UTILS_FILE_SEPARATOR ++ SNAPSHOT_STATE_FILE_NAME.
Definition metadata_path (base : path) : path := base ++ IOTA_UTILS_FILE_SEPARATOR ++ SNAPSHOT_METADATA_FILE_NAME.

Definition iota_snapshot_state_read_from_file (hp : heap) (fs : file_system) (snapshot : snapshot_t) (file : path)
    : option (retcode_t * snapshot_t * heap) :=
  let '(ret, buffer) := iota_utils_read_file_into_buffer fs file in
  if negb (bool_decide (ret = RC_OK)) then Some (ret, snapshot, hp) else
  match buffer with
  | None => Some (ret, snapshot, hp)
  | Some buffer =>
      match state_delta_deserialize_str hp buffer (sn_state snapshot) with
      | None => None
      | Some (ret, state, hp) => Some (ret, put_state state snapshot, hp)
      end
  end.

Definition iota_snapshot_write_to_file (alloc : bool) (fs : file_system) (snapshot : snapshot_t) (snapshot_file_base : path)
    : retcode_t * file_system :=
  if negb alloc then (RC_OOM, fs) else
  let '(ret, buffer) := state_delta_serialize_str (sn_state snapshot) in
  if negb (bool_decide (ret = RC_OK)) then (ret, fs) else
  let '(ret, fs) := iota_utils_overwrite_file fs (state_path snapshot_file_base) buffer in
  if negb (bool_decide (ret = RC_OK)) then (ret, fs) else
  let '(ret, buffer) := iota_snapshot_metadata_serialize_str (sn_metadata snapshot) in
  if negb (bool_decide (ret = RC_OK)) then (ret, fs) else
  iota_utils_overwrite_file fs (metadata_path snapshot_file_base) buffer.

Definition iota_snapshot_reset (snapshot : snapshot_t) (conf : snapshot_conf) : retcode_t * snapshot_t :=
  (RC_OK, mk_snapshot conf [] (iota_snapshot_metadata_reset (sn_metadata snapshot))).

Definition iota_snapshot_destroy (snapshot : snapshot_t) : retcode_t * snapshot_t :=
  let snapshot := put_state (hash_map_free (sn_state snapshot)) snapshot in
  let '(ret, m) := iota_snapshot_metadata_destroy (sn_metadata snapshot) in
  (ret, put_snapshot_metadata m snapshot).

(** The validation of the signature of the file is an argument. *)
Definition iota_snapshot_load_built_in_snapshot (signature : retcode_t * bool) (hp : heap) (fs : file_system)
    (snapshot : snapshot_t) (conf : snapshot_conf) : option (retcode_t * snapshot_t * heap) :=
  let '(_, solid_entry_points, hp) := hash_map_add hp [] (genesis_hash conf) (last_milestone conf) in
  let '(_, m, hp) := iota_snapshot_metadata_init hp (genesis_hash conf) (last_milestone conf)
                       (snapshot_timestamp_sec conf) solid_entry_points in
  let snapshot := put_snapshot_metadata m snapshot in
  let checked :=
    if negb (snapshot_signature_skip_validation (sn_conf snapshot)) then
      let '(ret, valid) := signature in
      if negb (bool_decide (ret = RC_OK)) then ret
      else if negb valid then RC_SNAPSHOT_INVALID_SIGNATURE else RC_OK
    else RC_OK in
  if negb (bool_decide (checked = RC_OK)) then Some (checked, snapshot, hp) else
  iota_snapshot_state_read_from_file hp fs snapshot (snapshot_file conf).

(** In [if ((ret = (read(...)) != RC_OK))] the comparison is assigned: a failure to
    read the metadata is reported as 1, which is no error code.  The result is the
    number. *)
Definition iota_snapshot_load_local_snapshot (hp : heap) (fs : file_system) (snapshot : snapshot_t) (conf : snapshot_conf)
    : option (Z * snapshot_t * heap) :=
  match iota_snapshot_metadata_read_from_file hp fs (metadata_path (base_dir conf)) (sn_metadata snapshot) with
  | None => None
  | Some (ret, m, hp) =>
      let snapshot := put_snapshot_metadata m snapshot in
      if negb (bool_decide (ret = RC_OK)) then Some (1, snapshot, hp) else
      match iota_snapshot_state_read_from_file hp fs snapshot (state_path (base_dir conf)) with
      | None => None
      | Some (ret, snapshot, hp) => Some (rc_value ret, snapshot, hp)
      end
  end.

Definition iota_snapshot_init (signature : retcode_t * bool) (hp : heap) (fs : file_system)
    (snapshot : snapshot_t) (conf : snapshot_conf) : option (retcode_t * snapshot_t * heap) :=
  let '(ret, snapshot) := iota_snapshot_reset snapshot conf in
  if negb (bool_decide (ret = RC_OK)) then Some (ret, snapshot, hp) else
  if negb (local_snapshots_is_enabled (sn_conf snapshot))
  then iota_snapshot_load_built_in_snapshot signature hp fs snapshot conf
  else
    match iota_snapshot_load_local_snapshot hp fs snapshot conf with
    | None => None
    | Some (ret, snapshot, hp) =>
        if negb (ret =? rc_value RC_OK) then
          let '(_, snapshot) := iota_snapshot_destroy snapshot in
          iota_snapshot_load_built_in_snapshot signature hp fs snapshot conf
        else Some (RC_OK, snapshot, hp)
    end.

Definition iota_snapshot_get_index (snapshot : snapshot_t) : Z := sm_index (sn_metadata snapshot).

Definition iota_snapshot_get_balance (snapshot : snapshot_t) (hash : hash_t) (balance : Z) : retcode_t * Z :=
  match HASH_FIND (sn_state snapshot) hash with
  | None => (RC_SNAPSHOT_BALANCE_NOT_FOUND, balance)
  | Some value => (RC_OK, value)
  end.

(** The patch is cleared first. *)
Definition iota_snapshot_create_patch (hp : heap) (snapshot : snapshot_t) (delta patch : state_delta_t)
    : retcode_t * state_delta_t * heap :=
  state_delta_create_patch hp (sn_state snapshot) delta [].

Definition iota_snapshot_apply_patch_no_lock (hp : heap) (snapshot : snapshot_t) (patch : state_delta_t) (index : Z)
    : retcode_t * snapshot_t * heap :=
  let m := sn_metadata snapshot in
  let snapshot := put_snapshot_metadata (mk_snapshot_metadata (sm_hash m) index (sm_timestamp m) (sm_solid_entry_points m)) snapshot in
  let '(ret, state, hp) := state_delta_apply_patch hp (sn_state snapshot) patch in
  (ret, put_state state snapshot, hp).

Definition iota_snapshot_apply_patch (hp : heap) (snapshot : snapshot_t) (patch : state_delta_t) (index : Z)
    : retcode_t * snapshot_t * heap :=
  if negb (state_delta_sum patch =? 0) then (RC_SNAPSHOT_INCONSISTENT_PATCH, snapshot, hp)
  else iota_snapshot_apply_patch_no_lock hp snapshot patch index.

(** The result is [RC_OK] whatever happens. *)
Definition iota_snapshot_copy (hp : heap) (src dst : snapshot_t) : retcode_t * snapshot_t * heap :=
  let dst := mk_snapshot (sn_conf src) (sn_state dst) (sn_metadata dst) in
  let '(_, m) := iota_snapshot_metadata_destroy (sn_metadata dst) in
  let dst := put_snapshot_metadata m dst in
  let dst := put_state (hash_map_free (sn_state dst)) dst in
  let '(ret, state, hp) := hash_map_copy hp (sn_state src) (sn_state dst) in
  let dst := put_state state dst in
  if negb (bool_decide (ret = RC_OK)) then (RC_OK, put_state (hash_map_free (sn_state dst)) dst, hp) else
  let m := sn_metadata src in
  let '(_, m, hp) := iota_snapshot_metadata_init hp (sm_hash m) (sm_index m) (sm_timestamp m) (sm_solid_entry_points m) in
  (RC_OK, put_snapshot_metadata m dst, hp).

Definition iota_snapshot_solid_entry_points_set (hp : heap) (snapshot : snapshot_t) (keys : hash243_set) : hash243_set * heap :=
  hash_map_keys hp (sm_solid_entry_points (sn_metadata snapshot)) keys.

Definition iota_snapshot_has_solid_entry_point (snapshot : snapshot_t) (hash : hash_t) : bool :=
  hash_map_contains (sm_solid_entry_points (sn_metadata snapshot)) hash.

(** ** The provider: the initial and the latest snapshot *)

Record snapshots_provider_t := mk_provider { initial_snapshot : snapshot_t; latest_snapshot : snapshot_t }.

Definition iota_snapshots_provider_init (signature : retcode_t * bool) (hp : heap) (fs : file_system)
    (p : snapshots_provider_t) (conf : snapshot_conf) : option (retcode_t * snapshots_provider_t * heap) :=
  let '(ret, initial) := iota_snapshot_reset (initial_snapshot p) conf in
  if negb (bool_decide (ret = RC_OK))
  then Some (ret, mk_provider (iota_snapshot_destroy initial).2 (iota_snapshot_destroy (latest_snapshot p)).2, hp) else
  match iota_snapshot_init signature hp fs initial conf with
  | None => None
  | Some (ret, initial, hp) =>
      if negb (bool_decide (ret = RC_OK))
      then Some (ret, mk_provider (iota_snapshot_destroy initial).2 (iota_snapshot_destroy (latest_snapshot p)).2, hp) else
      let '(ret, latest) := iota_snapshot_reset (latest_snapshot p) conf in
      if negb (bool_decide (ret = RC_OK))
      then Some (ret, mk_provider (iota_snapshot_destroy initial).2 (iota_snapshot_destroy latest).2, hp) else
      let '(ret, latest, hp) := iota_snapshot_copy hp initial latest in
      if negb (bool_decide (ret = RC_OK))
      then Some (ret, mk_provider (iota_snapshot_destroy initial).2 (iota_snapshot_destroy latest).2, hp)
      else Some (RC_OK, mk_provider initial latest, hp)
  end.

Definition iota_snapshots_provider_destroy (p : snapshots_provider_t) : retcode_t * snapshots_provider_t :=
  let '(ret, initial) := iota_snapshot_destroy (initial_snapshot p) in
  if negb (bool_decide (ret = RC_OK)) then (ret, mk_provider initial (latest_snapshot p)) else
  let '(ret, latest) := iota_snapshot_destroy (latest_snapshot p) in
  if negb (bool_decide (ret = RC_OK)) then (ret, mk_provider initial latest) else (RC_OK, mk_provider initial latest).

Definition iota_snapshots_provider_write_snapshot_to_file (alloc : bool) (fs : file_system) (snapshot : snapshot_t)
    (file_path_base : path) : retcode_t * file_system :=
  iota_snapshot_write_to_file alloc fs snapshot file_path_base.

(** * Lemmas *)

Definition is_uint64 (v : Z) : Prop := 0 <= v < 2 ^ 64.

#[global] Instance is_uint64_dec v : Decision (is_uint64 v).
Proof. unfold is_uint64. apply _. Defined.

Lemma sscanf_u_spec v rest : is_uint64 v -> (forall c, head rest = Some c -> is_digit c = false) ->
  sscanf_u (sprintf_d v ++ rest) = Some (v, rest).
Proof.
  intros Hv Hc. unfold is_uint64 in Hv. destruct (sprintf_digits v ltac:(lia)) as [Hd Hne].
  assert (dec_value 0 (sprintf_d v) = v) as Hval.
  { unfold sprintf_d. replace (v <? 0) with false by lia. rewrite dec_loop_value; [done|].
    change (10 ^ Z.of_nat 20) with 100000000000000000000. lia. }
  assert (take_while is_digit (sprintf_d v ++ rest) = sprintf_d v) as Ht by (by apply take_while_all).
  assert (drop (length (sprintf_d v)) (sprintf_d v ++ rest) = rest) as Hdr by apply drop_app_length.
  destruct (sprintf_d v) as [|d ds]; [done|]. apply Forall_cons_iff in Hd as [Hd _].
  destruct (digit_cases d Hd) as (Hsp & H45 & H43 & _). unfold sscanf_u. cbn [app skip_while] in *. rewrite Hsp.
  replace (d =? 45) with false by lia. replace (d =? 43) with false by lia. rewrite Ht. f_equal. f_equal; [|exact Hdr].
  rewrite Hval. lia.
Qed.

(** A key that is not yet there. *)
Lemma unique_fresh {V} (acc : hash_map V) h v rest : unique (acc ++ (h, v) :: rest) -> HASH_FIND acc h = None.
Proof.
  intros Hu. apply HASH_FIND_None. unfold unique in Hu. rewrite fmap_app in Hu. apply list.NoDup_app in Hu as (_ & H & _).
  intros Hk. apply (H h Hk). cbn. left.
Qed.

Lemma seps_loop_spec seps str : hashes_ok seps.*1 -> seps_loop seps str = (RC_OK, str ++ concat (map line seps) ++ [0]).
Proof.
  revert str. induction seps as [|[h v] seps IH]; intros str H; [done|]. cbn [seps_loop].
  change (hashes_ok (h :: seps.*1)) in H. apply Forall_cons_iff in H as [Hh H].
  destruct (address_trytes h Hh) as (Hl & _). destruct Hh as [Hhl _].
  change NUM_TRITS_HASH with 243%nat. unfold flex_trits_to_trytes. rewrite Nat.ltb_irrefl.
  change (NUM_TRYTES_ADDRESS * 3 <? 243)%nat with false. cbn [orb].
  rewrite take_ge by (rewrite Hhl; unfold NUM_TRITS_ADDRESS; lia).
  rewrite memset_write_all by (done || apply length_replicate).
  rewrite Nat.eqb_refl. cbn [negb]. rewrite IH by done. cbn [map concat]. unfold line at 2. cbn [fst snd].
  by rewrite <- !app_assoc.
Qed.

Lemma seps_read_lines seps : forall fuel n acc, (length seps < fuel)%nat -> Z.of_nat (length seps) <= n < 2 ^ 64 ->
  hashes_ok seps.*1 -> Forall is_uint64 seps.*2 -> unique (acc ++ seps) ->
  seps_read_loop fuel [] (strtok 59 (concat (map line seps))) n acc = Some (RC_OK, acc ++ seps, []).
Proof.
  induction seps as [|[h v] seps IH]; intros fuel n acc Hf Hn Hh Hv Hu; (destruct fuel as [|fuel]; [simpl in Hf; lia|]).
  - cbn. by rewrite app_nil_r.
  - change (hashes_ok (h :: seps.*1)) in Hh. apply Forall_cons_iff in Hh as [Hh Hhs]. cbn in Hv.
    apply Forall_cons_iff in Hv as [Hv Hvs]. cbn [length] in Hf, Hn. cbn [map concat seps_read_loop].
    destruct (line_tokens (h, v) (concat (map line seps)) Hh ltac:(cbn; unfold is_uint64 in Hv; lia)) as (ds & E1 & E2 & ->).
    cbn [fst snd] in *. rewrite E1. destruct (address_trytes h Hh) as (Hl & Hy & Ht). destruct Hh as [Hhl Hht].
    replace (n >? 0) with true by lia. cbn [negb].
    unfold flex_trits_from_trytes. rewrite Nat.ltb_irrefl. change (NUM_TRITS_ADDRESS <? NUM_TRYTES_ADDRESS * 3)%nat with false.
    cbn [orb]. rewrite take_app_length' by done. rewrite Ht.
    rewrite memset_write_all by (done || apply length_replicate). rewrite Nat.eqb_refl. cbn [negb]. rewrite E2.
    assert (sscanf_u (sprintf_d v) = Some (v, [])) as -> by (rewrite <- (app_nil_r (sprintf_d v)); by apply sscanf_u_spec).
    rewrite hash_map_add_nil, (unique_fresh acc h v seps) by done. rewrite bool_decide_eq_true_2 by done. cbn [negb]. rewrite (uwrap_small 64 (n - 1)) by lia.
    rewrite IH; [unfold HASH_ADD; by rewrite <- app_assoc|lia|lia|done|done|]. unfold HASH_ADD. by rewrite <- app_assoc.
Qed.

Record metadata_ok (m : snapshot_metadata_t) : Prop := {
  mo_hash : trits_of NUM_TRITS_HASH (sm_hash m);
  mo_index : is_uint64 (sm_index m);
  mo_timestamp : is_uint64 (sm_timestamp m);
  mo_unique : unique (sm_solid_entry_points m);
  mo_keys : hashes_ok (sm_solid_entry_points m).*1;
  mo_values : Forall is_uint64 (sm_solid_entry_points m).*2;
  mo_size : is_uint64 (hash_map_size (sm_solid_entry_points m))
}.

Definition metadata_text (m : snapshot_metadata_t) : list Z :=
  trits_to_trytes (sm_hash m) ++ 10 :: sprintf_d (sm_index m) ++ 10 :: sprintf_d (sm_timestamp m) ++ 10 ::
  sprintf_d (hash_map_size (sm_solid_entry_points m)) ++ 10 :: sprintf_d 0 ++ 10 ::
  concat (map line (sm_solid_entry_points m)).

Lemma metadata_serialize_spec m : metadata_ok m ->
  iota_snapshot_metadata_serialize_str m = (RC_OK, metadata_text m ++ [0]).
Proof.
  intros []. destruct (address_trytes (sm_hash m) mo_hash0) as (Hl & _). destruct mo_hash0 as [Hhl _].
  unfold iota_snapshot_metadata_serialize_str, metadata_text. change NUM_TRITS_HASH with 243%nat in *.
  unfold flex_trits_to_trytes. rewrite Nat.ltb_irrefl. change (NUM_TRYTES_HASH * 3 <? 243)%nat with false. cbn [orb].
  rewrite take_ge by lia. rewrite memset_write_all by (done || apply length_replicate).
  rewrite Nat.eqb_refl. cbn [negb]. rewrite seps_loop_spec by done. change (sprintf_d 0) with [48].
  f_equal. rewrite <- !app_assoc. cbn [app]. repeat (f_equal; rewrite <- ?app_assoc; cbn [app]).
Qed.

Lemma metadata_deserialize_spec m m0 : metadata_ok m -> length (sm_hash m0) = NUM_TRITS_HASH ->
  sm_solid_entry_points m0 = [] ->
  iota_snapshot_metadata_deserialize_str [] (metadata_text m ++ [0]) m0 = Some (RC_OK, m, []).
Proof.
  intros [] Hl0 H0. destruct (address_trytes (sm_hash m) mo_hash0) as (Hl & Hy & Ht). destruct mo_hash0 as [Hhl Hht].
  unfold iota_snapshot_metadata_deserialize_str, metadata_text. change NUM_TRITS_HASH with 243%nat in *.
  unfold flex_trits_from_trytes. rewrite Nat.ltb_irrefl. change (243 <? NUM_TRYTES_HASH * 3)%nat with false. cbn [orb].
  rewrite <- !app_assoc. rewrite take_app_length' by done. rewrite Ht.
  rewrite memset_write_all by done. rewrite Nat.eqb_refl. cbn [negb].
  rewrite drop_app_ge by (rewrite Hl; unfold NUM_TRYTES_ADDRESS, NUM_TRYTES_HASH; lia). rewrite Hl.
  change (NUM_TRYTES_HASH + 1 - NUM_TRYTES_ADDRESS)%nat with 1%nat.
  assert (forall v rest, is_uint64 v -> sscanf_u (drop 1 (10 :: (sprintf_d v ++ 10 :: rest) ++ [0])) =
    Some (v, 10 :: rest ++ [0])) as Hs.
  { intros v rest Hv. cbn [drop skipn]. rewrite <- app_assoc. apply sscanf_u_spec; [done|]. by intros c [= <-]. }
  cbn [app]. rewrite Hs by done. rewrite Hs by done. rewrite Hs by done. rewrite Hs by (unfold is_uint64; lia).
  assert (forall l : list Z, drop 1 (10 :: l) = l) as Hd by done. rewrite Hd.
  assert (Forall (fun v => 0 <= v) (sm_solid_entry_points m).*2) as Hp.
  { eapply Forall_impl; [exact mo_values0|]. cbn. unfold is_uint64. lia. }
  destruct (lines_text (sm_solid_entry_points m) mo_keys0 Hp) as [-> Hlen].
  unfold hash_map_size in *. rewrite H0. rewrite seps_read_lines; [|lia|unfold is_uint64 in *; lia|done..].
  cbn [app]. by destruct m.
Qed.

(** ** Files *)

Lemma overwrite_read fs p text : fs_outcome fs p = FileOk -> Forall (fun c => c <> 0) text ->
  let '(ret, fs') := iota_utils_overwrite_file fs p (text ++ [0]) in
  ret = RC_OK /\ fs_outcome fs' = fs_outcome fs /\ fs_files fs' = <[p := text]> (fs_files fs).
Proof.
  intros Ho Ht. unfold iota_utils_overwrite_file. rewrite Ho. cbn.
  assert (strlen (text ++ [0]) = length text) as ->.
  { unfold strlen. rewrite take_while_all; [done| |by intros c [= <-]]. eapply Forall_impl; [exact Ht|]. cbn. lia. }
  by rewrite take_app_length.
Qed.

Lemma paths_differ base : state_path base <> metadata_path base.
Proof.
  unfold state_path, metadata_path. intros E. apply app_inv_head in E. revert E. apply (bool_decide_unpack _).
  vm_compute. exact I.
Qed.

Lemma line_nonzero e : trits_of NUM_TRITS_ADDRESS e.1 -> 0 <= e.2 -> Forall (fun c => c <> 0) (line e).
Proof.
  intros Hh Hv. destruct (address_trytes e.1 Hh) as (_ & Hy & _). destruct (sprintf_digits e.2 Hv) as [Hd _].
  unfold line. apply Forall_app. split; [eapply Forall_impl; [exact Hy|]; cbn; unfold is_tryte; lia|].
  apply Forall_cons_iff. split; [lia|]. apply Forall_app. split; [|apply Forall_cons_iff; split; [lia|constructor]].
  eapply Forall_impl; [exact Hd|]. cbn. intros c Hc. apply digit_cases in Hc. tauto.
Qed.

Lemma lines_nonzero delta : hashes_ok delta.*1 -> Forall (fun v => 0 <= v) delta.*2 ->
  Forall (fun c => c <> 0) (concat (map line delta)).
Proof.
  intros Hh Hp. induction delta as [|[h v] delta IH]; [constructor|].
  change (hashes_ok (h :: delta.*1)) in Hh. apply Forall_cons_iff in Hh as [Hh Hhs]. cbn in Hp.
  apply Forall_cons_iff in Hp as [Hv Hp]. cbn [map concat]. apply Forall_app. split; [by apply line_nonzero|auto].
Qed.

Lemma metadata_nonzero m : metadata_ok m -> Forall (fun c => c <> 0) (metadata_text m).
Proof.
  intros []. destruct (address_trytes (sm_hash m) mo_hash0) as (_ & Hy & _).
  assert (forall v, is_uint64 v -> Forall (fun c => c <> 0) (sprintf_d v)) as Hs.
  { intros v Hv. unfold is_uint64 in Hv. destruct (sprintf_digits v ltac:(lia)) as [Hd _].
    eapply Forall_impl; [exact Hd|]. cbn. intros c Hc. apply digit_cases in Hc. tauto. }
  unfold metadata_text. apply Forall_app. split; [eapply Forall_impl; [exact Hy|]; cbn; unfold is_tryte; lia|].
  do 3 (apply Forall_cons_iff; split; [lia|]; apply Forall_app; split; [auto|]).
  apply Forall_cons_iff. split; [lia|]. apply Forall_app. split; [apply Hs; unfold is_uint64; lia|].
  apply Forall_cons_iff. split; [lia|]. apply lines_nonzero; [done|]. eapply Forall_impl; [exact mo_values0|].
  cbn. unfold is_uint64. lia.
Qed.

Lemma state_read_spec fs s p state : ledger_ok state -> hashes_ok state.*1 -> sn_state s = [] ->
  fs_files fs !! p = Some (concat (map line state)) -> fs_outcome fs p = FileOk ->
  iota_snapshot_state_read_from_file [] fs s p = Some (RC_OK, put_state state s, []).
Proof.
  intros Hl Hh H0 Hf Ho. unfold iota_snapshot_state_read_from_file, iota_utils_read_file_into_buffer.
  rewrite Hf, Ho, H0. rewrite bool_decide_eq_true_2 by done. cbn [negb]. by rewrite state_text_read.
Qed.

(** Copying a snapshot while memory lasts. *)
Lemma snapshot_copy_nil src dst : unique (sn_state src) -> unique (sm_solid_entry_points (sn_metadata src)) ->
  iota_snapshot_copy [] src dst = (RC_OK, src, []).
Proof.
  destruct src as [conf state [hash index timestamp seps]]. cbn [sn_state sn_metadata sm_solid_entry_points]. intros H1 H2.
  unfold iota_snapshot_copy, hash_map_free. cbn. rewrite hash_map_copy_nil by done. rewrite bool_decide_eq_true_2 by done.
  cbn. unfold iota_snapshot_metadata_init. rewrite hash_map_copy_nil by done. done.
Qed.

(** * Properties *)


Definition sample_conf : snapshot_conf :=
  mk_conf (sample_address 0) 0 1546300800 [102] true true [46].
Definition sample_metadata : snapshot_metadata_t :=
  mk_snapshot_metadata (sample_address 1) 1050000 1556000000 [(sample_address 0, 0); (sample_address (-1), 1049999)].
Definition sample_snapshot : snapshot_t := mk_snapshot sample_conf sample_state sample_metadata.

Lemma sample_metadata_ok : metadata_ok sample_metadata.
Proof.
  split; [closed_decide|closed_decide|closed_decide|apply (bool_decide_unpack _); vm_compute; exact I|closed_decide..].
Qed.

