(* ===== verification/Statements.v ===== *)
(** * SQL statements

    The prepared statements of [ciri/storage/sql/statements.c] over the tables of
    [sqlite3/tangle-schema.sql] and [spent-addresses-schema.sql]: the rows that each
    query selects, and what each other statement does to the tables.  [LIKE] is a
    parameter. *)
From S2P Require Import Prelude Containers.

(** ** Values and statements *)

Inductive sql_value := SqlInt (z : Z) | SqlBlob (b : list Z) | SqlNull.

#[global] Instance sql_value_eq_dec : EqDecision sql_value.
Proof. solve_decision. Defined.

Inductive column :=
| SIG_OR_MSG | ADDRESS | VALUE | OBSOLETE_TAG | TIMESTAMP | CURRENT_INDEX | LAST_INDEX | BUNDLE | TRUNK | BRANCH | TAG
| ATTACHMENT_TIMESTAMP | ATTACHMENT_TIMESTAMP_LOWER | ATTACHMENT_TIMESTAMP_UPPER | NONCE | HASH | SNAPSHOT_INDEX | SOLID
| VALIDITY | ARRIVAL_TIME.

#[global] Instance column_eq_dec : EqDecision column.
Proof. solve_decision. Defined.

(** The prepared statements; the one of [storage_transaction_find] carries the
    numbers of its parameters. *)
Inductive statement :=
| transaction_insert | transaction_select_by_hash | transaction_select_hashes_by_address
| transaction_select_hashes_of_approvers | transaction_select_hashes_of_approvers_before_date
| transaction_select_hashes_of_milestone_candidates | transaction_update_snapshot_index | transaction_update_solidity
| transaction_update_validity | transaction_exist | transaction_exist_by_hash | transaction_approvers_count
| transaction_count | transaction_find (bundles addresses tags approvees : nat) | transaction_metadata_clear
| transaction_delete | transaction_select_essence_metadata | transaction_select_essence_attachment_metadata
| transaction_select_essence_consensus | transaction_select_metadata | milestone_clear | milestone_insert
| milestone_select_by_hash | milestone_select_last | milestone_select_first | milestone_select_by_index
| milestone_select_next | milestone_exist | milestone_exist_by_hash | milestone_delete_by_hash | state_delta_store
| state_delta_load | spent_address_insert | spent_address_exist.

(** ** Tables *)

(** A row of [iota_transaction], and the positions of its columns in the schema. *)
Definition tx_row := list sql_value.

Definition column_index (c : column) : nat :=
  match c with
  | SIG_OR_MSG => 0 | ADDRESS => 1 | VALUE => 2 | OBSOLETE_TAG => 3 | TIMESTAMP => 4 | CURRENT_INDEX => 5 | LAST_INDEX => 6
  | BUNDLE => 7 | TRUNK => 8 | BRANCH => 9 | TAG => 10 | ATTACHMENT_TIMESTAMP => 11 | ATTACHMENT_TIMESTAMP_LOWER => 12
  | ATTACHMENT_TIMESTAMP_UPPER => 13 | NONCE => 14 | HASH => 15 | SNAPSHOT_INDEX => 16 | SOLID => 17 | VALIDITY => 18
  | ARRIVAL_TIME => 19
  end%nat.

Definition get_column (c : column) (row : tx_row) : sql_value := default SqlNull (row !! column_index c).
Definition set_column (c : column) (v : sql_value) (row : tx_row) : tx_row := <[column_index c := v]> row.

Record ms_row := mk_ms_row { ms_id : Z; ms_hash_column : list Z; ms_delta : sql_value }.

Record tables := mk_tables {
  iota_transaction_table : list tx_row; iota_milestone_table : list ms_row; iota_spent_address_table : list (list Z)
}.

(** The values of the columns that are not inserted. *)
Definition default_row : tx_row := replicate 16 SqlNull ++ [SqlInt 0; SqlInt 0; SqlInt 0; SqlNull].

(** The columns in the order of the insertion. *)
Definition insert_columns : list column :=
  [SIG_OR_MSG; ADDRESS; VALUE; OBSOLETE_TAG; TIMESTAMP; CURRENT_INDEX; LAST_INDEX; BUNDLE; TRUNK; BRANCH; TAG;
   ATTACHMENT_TIMESTAMP; ATTACHMENT_TIMESTAMP_UPPER; ATTACHMENT_TIMESTAMP_LOWER; NONCE; HASH; ARRIVAL_TIME].

Definition row_of_values (values : list sql_value) : tx_row :=
  foldl (fun row cv => set_column cv.1 cv.2 row) default_row (combine insert_columns values).

Definition essence_columns : list column := [ADDRESS; VALUE; OBSOLETE_TAG; TIMESTAMP; CURRENT_INDEX; LAST_INDEX; BUNDLE].
Definition attachment_columns : list column :=
  [TRUNK; BRANCH; ATTACHMENT_TIMESTAMP; ATTACHMENT_TIMESTAMP_LOWER; ATTACHMENT_TIMESTAMP_UPPER; NONCE; TAG].
Definition metadata_columns : list column := [SNAPSHOT_INDEX; SOLID; VALIDITY; ARRIVAL_TIME].

(** ** Queries *)

Section Queries.
Context (like : sql_value -> sql_value -> bool).
Implicit Types (t : tables) (st : statement) (values : list sql_value).

Definition value_at values (n : nat) : sql_value := default SqlNull (values !! n).

(** Comparisons with [NULL] are not true. *)
Definition sql_eq (v w : sql_value) : bool := bool_decide (v = w) && bool_decide (v <> SqlNull).
Definition sql_lt (v w : sql_value) : bool := match v, w with SqlInt a, SqlInt b => a <? b | _, _ => false end.
Definition sql_in (v : sql_value) (l : list sql_value) : bool := existsb (sql_eq v) l.
Definition sql_true (v : sql_value) : bool := match v with SqlInt z => negb (z =? 0) | _ => false end.

Definition select_columns (columns : list column) (where_ : tx_row -> bool) t : list (list sql_value) :=
  map (fun row => map (fun c => get_column c row) columns) (List.filter where_ (iota_transaction_table t)).

Definition where_column (c : column) (v : sql_value) (row : tx_row) : bool := sql_eq (get_column c row) v.
Definition approves (v w : sql_value) (row : tx_row) : bool := where_column BRANCH v row || where_column TRUNK w row.

Definition ms_columns (m : ms_row) : list sql_value := [SqlInt (ms_id m); SqlBlob (ms_hash_column m)].
Definition select_milestones (where_ : ms_row -> bool) t : list (list sql_value) :=
  map ms_columns (List.filter where_ (iota_milestone_table t)).
Definition greatest t (m : ms_row) : bool := forallb (fun m' => ms_id m' <=? ms_id m) (iota_milestone_table t).
Definition least t (m : ms_row) : bool := forallb (fun m' => ms_id m <=? ms_id m') (iota_milestone_table t).

Definition exists_row {A} (rows : list A) : list (list sql_value) := [[SqlInt (match rows with [] => 0 | _ => 1 end)]].
Definition count_row {A} (rows : list A) : list (list sql_value) := [[SqlInt (Z.of_nat (length rows))]].

(** The parameters of [transaction_find], in order: a flag and a list of values,
    four times, the last list twice. *)
Definition find_where (bundles addresses tags approvees : nat) values (row : tx_row) : bool :=
  let v n := value_at values n in
  let list_at from n := take n (drop from values) in
  let a := (1 + bundles)%nat in
  let t := (a + 1 + addresses)%nat in
  let p := (t + 1 + tags)%nat in
  (sql_true (v 0%nat) || sql_in (get_column BUNDLE row) (list_at 1%nat bundles)) &&
  (sql_true (v a) || sql_in (get_column ADDRESS row) (list_at (a + 1)%nat addresses)) &&
  (sql_true (v t) || sql_in (get_column TAG row) (list_at (t + 1)%nat tags)) &&
  (sql_true (v p) || sql_in (get_column BRANCH row) (list_at (p + 1)%nat approvees)
                  || sql_in (get_column TRUNK row) (list_at (p + 1 + approvees)%nat approvees)).

(** The rows that a query selects, in some order. *)
Definition query t st values : list (list sql_value) :=
  let v n := value_at values n in
  match st with
  | transaction_select_by_hash =>
      select_columns (essence_columns ++ attachment_columns ++ [HASH; SIG_OR_MSG]) (where_column HASH (v 0%nat)) t
  | transaction_select_hashes_by_address => select_columns [HASH] (where_column ADDRESS (v 0%nat)) t
  | transaction_select_hashes_of_approvers => select_columns [HASH] (approves (v 0%nat) (v 1%nat)) t
  | transaction_select_hashes_of_approvers_before_date =>
      select_columns [HASH] (fun row => approves (v 0%nat) (v 1%nat) row && sql_lt (get_column ARRIVAL_TIME row) (v 2%nat)) t
  | transaction_select_hashes_of_milestone_candidates =>
      select_columns [HASH] (fun row => like (get_column ADDRESS row) (v 0%nat) && sql_eq (get_column CURRENT_INDEX row) (SqlInt 0) &&
        negb (existsb (fun m => sql_eq (get_column HASH row) (SqlBlob (ms_hash_column m))) (iota_milestone_table t))) t
  | transaction_exist => exists_row (iota_transaction_table t)
  | transaction_exist_by_hash => exists_row (List.filter (where_column HASH (v 0%nat)) (iota_transaction_table t))
  | transaction_approvers_count => count_row (List.filter (approves (v 0%nat) (v 1%nat)) (iota_transaction_table t))
  | transaction_count => count_row (iota_transaction_table t)
  | transaction_find b a g p => select_columns [HASH] (find_where b a g p values) t
  | transaction_select_essence_metadata => select_columns (essence_columns ++ metadata_columns) (where_column HASH (v 0%nat)) t
  | transaction_select_essence_attachment_metadata =>
      select_columns (essence_columns ++ attachment_columns ++ metadata_columns) (where_column HASH (v 0%nat)) t
  | transaction_select_essence_consensus => select_columns (essence_columns ++ [HASH]) (where_column HASH (v 0%nat)) t
  | transaction_select_metadata => select_columns metadata_columns (where_column HASH (v 0%nat)) t
  | milestone_select_by_hash => select_milestones (fun m => sql_eq (SqlBlob (ms_hash_column m)) (v 0%nat)) t
  | milestone_select_last => select_milestones (greatest t) t
  | milestone_select_first => select_milestones (least t) t
  | milestone_select_by_index => select_milestones (fun m => sql_eq (SqlInt (ms_id m)) (v 0%nat)) t
  | milestone_select_next => select_milestones (fun m => sql_lt (v 0%nat) (SqlInt (ms_id m))) t
  | milestone_exist => exists_row (iota_milestone_table t)
  | milestone_exist_by_hash =>
      exists_row (List.filter (fun m => sql_eq (SqlBlob (ms_hash_column m)) (v 0%nat)) (iota_milestone_table t))
  | state_delta_load =>
      map (fun m => [ms_delta m]) (List.filter (fun m => sql_eq (SqlInt (ms_id m)) (v 0%nat)) (iota_milestone_table t))
  | spent_address_exist => exists_row (List.filter (fun h => sql_eq (SqlBlob h) (v 0%nat)) (iota_spent_address_table t))
  | _ => []
  end.

(** [LIMIT]; without [ORDER BY] it keeps any of the rows. *)
Definition limit st : option nat :=
  match st with milestone_select_last | milestone_select_first | milestone_select_next => Some 1%nat | _ => None end.

(** [rows] is a result of the query. *)
Definition selects t st values (rows : list (list sql_value)) : Prop :=
  exists all, all ≡ₚ query t st values /\ rows = (if limit st is Some n then take n all else all).
End Queries.

(** ** Other statements *)

Section Updates.
Implicit Types (t : tables) (st : statement) (values : list sql_value).

Definition with_transactions t (rows : list tx_row) : tables := mk_tables rows (iota_milestone_table t) (iota_spent_address_table t).
Definition with_milestones t (rows : list ms_row) : tables := mk_tables (iota_transaction_table t) rows (iota_spent_address_table t).

Definition set_where (where_ : tx_row -> bool) (assign : tx_row -> tx_row) t : tables :=
  with_transactions t (map (fun row => if where_ row then assign row else row) (iota_transaction_table t)).

(** The column that [UPDATE ... SET c=? WHERE hash=?] sets. *)
Definition updated_column st : option column :=
  match st with
  | transaction_update_snapshot_index => Some SNAPSHOT_INDEX
  | transaction_update_solidity => Some SOLID
  | transaction_update_validity => Some VALIDITY
  | _ => None
  end.

Definition blob_of (v : sql_value) : option (list Z) := match v with SqlBlob b => Some b | _ => None end.

(** [None] when a constraint is violated. *)
Definition update t st values : option tables :=
  let v n := value_at values n in
  match st with
  | transaction_insert =>
      let row := row_of_values values in
      if existsb (where_column HASH (get_column HASH row)) (iota_transaction_table t) then None
      else Some (with_transactions t (iota_transaction_table t ++ [row]))
  | transaction_update_snapshot_index => Some (set_where (where_column HASH (v 1%nat)) (set_column SNAPSHOT_INDEX (v 0%nat)) t)
  | transaction_update_solidity => Some (set_where (where_column HASH (v 1%nat)) (set_column SOLID (v 0%nat)) t)
  | transaction_update_validity => Some (set_where (where_column HASH (v 1%nat)) (set_column VALIDITY (v 0%nat)) t)
  | transaction_metadata_clear =>
      Some (set_where (fun _ => true)
        (fun row => set_column VALIDITY (SqlInt 0) (set_column SOLID (SqlInt 0) (set_column SNAPSHOT_INDEX (SqlInt 0) row))) t)
  | transaction_delete =>
      Some (with_transactions t (List.filter (fun row => negb (where_column HASH (v 0%nat) row)) (iota_transaction_table t)))
  | milestone_clear => Some (with_milestones t [])
  | milestone_insert =>
      match v 0%nat, v 1%nat with
      | SqlInt id, SqlBlob hash =>
          if existsb (fun m => (ms_id m =? id) || bool_decide (ms_hash_column m = hash)) (iota_milestone_table t) then None
          else Some (with_milestones t (iota_milestone_table t ++ [mk_ms_row id hash SqlNull]))
      | _, _ => None
      end
  | milestone_delete_by_hash =>
      Some (with_milestones t (List.filter (fun m => negb (sql_eq (SqlBlob (ms_hash_column m)) (v 0%nat))) (iota_milestone_table t)))
  | state_delta_store =>
      Some (with_milestones t (map (fun m => if sql_eq (SqlInt (ms_id m)) (v 1%nat)
                                             then mk_ms_row (ms_id m) (ms_hash_column m) (v 0%nat) else m) (iota_milestone_table t)))
  | spent_address_insert =>
      match v 0%nat with
      | SqlBlob h =>
          Some (if bool_decide (h ∈ iota_spent_address_table t) then t
                else mk_tables (iota_transaction_table t) (iota_milestone_table t) (iota_spent_address_table t ++ [h]))
      | _ => None
      end
  | _ => Some t
  end.
End Updates.
