(* ===== verification/Sqlite.v ===== *)
(** * Storage over SQLite

    [ciri/storage/pack.c] and [ciri/storage/sql/sqlite3]: packs of loaded models, the
    compression of columns, and every operation of [storage.h] in terms of the
    prepared statements.  SQLite itself is a parameter, the class [Sqlite]: what a
    statement returns for the values bound to it, and what it changes. *)
From S2P Require Import Prelude Errors Trits TritLong FlexTrit Transaction Bundle Containers StateDelta Statements.

(** ** Packs *)

Record iota_stor_pack_t (A : Type) := mk_pack {
  models : list A; capacity : nat; num_loaded : nat; insufficient_capacity : bool
}.
#[global] Arguments mk_pack {A}.
#[global] Arguments models {A}.
#[global] Arguments capacity {A}.
#[global] Arguments num_loaded {A}.
#[global] Arguments insufficient_capacity {A}.

Definition DECLARE_PACK_SINGLE {A} (model : A) : iota_stor_pack_t A := mk_pack [model] 1 0 false.

(** [size] buffers; the memory of each is given, and the allocations stop at the
    first that fails. *)
Definition hash_pack_init (hp : heap) (size : nat) (mem : hash_t) : retcode_t * iota_stor_pack_t hash_t * heap :=
  let '(ok, hp) := malloc hp in
  if negb ok then (RC_OOM, mk_pack [] size 0 false, hp) else
  (fix go (n : nat) (ms : list hash_t) (hp : heap) : retcode_t * iota_stor_pack_t hash_t * heap :=
    match n with
    | O => (RC_OK, mk_pack ms size 0 false, hp)
    | S n => let '(ok, hp) := malloc hp in
             if negb ok then (RC_OOM, mk_pack ms size 0 false, hp) else go n (ms ++ [mem]) hp
    end) size [] hp.

Definition hash_pack_resize (hp : heap) (pack : iota_stor_pack_t hash_t) (resize_factor : nat) (mem : hash_t)
    : retcode_t * iota_stor_pack_t hash_t * heap :=
  if (resize_factor <? 1)%nat then (RC_OK, pack, hp) else
  let capacity := (capacity pack * resize_factor)%nat in
  let '(ok, hp) := malloc hp in
  if negb ok then (RC_OOM, mk_pack [] capacity (num_loaded pack) false, hp) else
  (fix go (n : nat) (ms : list hash_t) (hp : heap) : retcode_t * iota_stor_pack_t hash_t * heap :=
    match n with
    | O => (RC_OK, mk_pack ms capacity (num_loaded pack) false, hp)
    | S n => let '(ok, hp) := malloc hp in
             if negb ok then (RC_OOM, mk_pack ms capacity (num_loaded pack) false, hp) else go n (ms ++ [mem]) hp
    end) capacity [] hp.

Definition hash_pack_reset {A} (pack : iota_stor_pack_t A) : iota_stor_pack_t A := mk_pack (models pack) (capacity pack) 0 false.

(** ** The engine *)

(** SQLite.  [sqlite3_rows]: the rows that stepping a query returns, and whether
    stepping ends with [SQLITE_DONE] after them; [sqlite3_run]: stepping a statement
    that returns none, and whether the result is [SQLITE_DONE]. *)
Class Sqlite (DB : Type) := {
  sqlite3_bind : DB -> statement -> nat -> sql_value -> bool;
  sqlite3_rows : DB -> statement -> list sql_value -> list (list sql_value) * bool;
  sqlite3_run : DB -> statement -> list sql_value -> bool * DB;
  sqlite3_begin : DB -> bool * DB;
  sqlite3_end : DB -> bool * DB;
  sqlite3_rollback : DB -> bool * DB
}.

(** What SQLite documents: a query returns the rows it selects, up to the row where
    an error stops it; a statement either takes effect or leaves the tables, and an
    error may roll back the whole transaction.  [saved] is the state to roll back
    to, inside a transaction. *)
Class SqliteLaws (DB : Type) {SQ : Sqlite DB} := {
  like : sql_value -> sql_value -> bool;
  tables_of : DB -> tables;
  saved : DB -> option tables;
  rows_law db st values rows ended : sqlite3_rows db st values = (rows, ended) ->
    exists all, selects like (tables_of db) st values all /\ rows `prefix_of` all /\ (ended = true -> rows = all);
  run_law db st values db' : sqlite3_run db st values = (true, db') ->
    update (tables_of db) st values = Some (tables_of db') /\ saved db' = saved db;
  run_fail_law db st values db' : sqlite3_run db st values = (false, db') ->
    (tables_of db' = tables_of db /\ saved db' = saved db) \/ (saved db = Some (tables_of db') /\ saved db' = None);
  begin_law db ok db' : sqlite3_begin db = (ok, db') ->
    tables_of db' = tables_of db /\
    (if ok then saved db = None /\ saved db' = Some (tables_of db) else saved db' = saved db);
  end_law db ok db' : sqlite3_end db = (ok, db') ->
    tables_of db' = tables_of db /\ saved db' = (if ok then None else saved db);
  rollback_law db ok db' : sqlite3_rollback db = (ok, db') ->
    saved db' = None /\ (if ok then saved db = Some (tables_of db') else saved db = None /\ tables_of db' = tables_of db)
}.

(** No binding and no read fails. *)
Class SqliteReliable (DB : Type) {SQ : Sqlite DB} := {
  bind_succeeds db st index value : sqlite3_bind db st index value = true;
  rows_end db st values : (sqlite3_rows db st values).2 = true
}.

(** A database in memory, that keeps the rows in the order of insertion. *)
Record memory_db := mk_memory_db { memory_tables : tables; memory_saved : option tables }.

Definition memory_rows (db : memory_db) (st : statement) (values : list sql_value) : list (list sql_value) :=
  let all := query (fun v w => bool_decide (v = w)) (memory_tables db) st values in
  if limit st is Some n then take n all else all.

#[export] Instance memory_sqlite : Sqlite memory_db := {
  sqlite3_bind _ _ _ _ := true;
  sqlite3_rows db st values := (memory_rows db st values, true);
  sqlite3_run db st values :=
    match update (memory_tables db) st values with
    | Some t => (true, mk_memory_db t (memory_saved db))
    | None => (false, db)
    end;
  sqlite3_begin db :=
    match memory_saved db with
    | None => (true, mk_memory_db (memory_tables db) (Some (memory_tables db)))
    | Some _ => (false, db)
    end;
  sqlite3_end db := (true, mk_memory_db (memory_tables db) None);
  sqlite3_rollback db :=
    match memory_saved db with
    | Some t => (true, mk_memory_db t None)
    | None => (false, db)
    end
}.

(** ** Columns: [wrappers.c] *)

(** Trailing null flex trits are not stored. *)
Fixpoint strip_zeros (l : list Z) : list Z :=
  match l with
  | [] => []
  | x :: l =>
      match strip_zeros l with
      | [] => if x =? FLEX_TRIT_NULL_VALUE then [] else [x]
      | l' => x :: l'
      end
  end.

Definition column_compress (flex_trits : list Z) (num_bytes : nat) : sql_value :=
  SqlBlob (strip_zeros (take num_bytes flex_trits)).

Definition column_blob (row : list sql_value) (index : nat) : list Z :=
  match row !! index with Some (SqlBlob b) => b | _ => [] end.

Definition column_int64 (row : list sql_value) (index : nat) : Z :=
  match row !! index with Some (SqlInt z) => i64 z | _ => 0 end.

Definition column_decompress_load (row : list sql_value) (index num_bytes : nat) : list Z :=
  let buffer := column_blob row index in
  buffer ++ replicate (num_bytes - length buffer) FLEX_TRIT_NULL_VALUE.

(** ** Rows to models *)

Definition select_transactions_populate_essence (row : list sql_value) (tx : iota_transaction_t) (index : nat)
    : iota_transaction_t * nat :=
  let tx := transaction_set_address tx (column_decompress_load row index 243) in
  let tx := transaction_set_value tx (column_int64 row (index + 1)) in
  let tx := transaction_set_obsolete_tag tx (column_decompress_load row (index + 2) 81) in
  let tx := transaction_set_timestamp tx (u64 (column_int64 row (index + 3))) in
  let tx := transaction_set_current_index tx (u64 (column_int64 row (index + 4))) in
  let tx := transaction_set_last_index tx (u64 (column_int64 row (index + 5))) in
  let tx := transaction_set_bundle tx (column_decompress_load row (index + 6) 243) in
  (tx, (index + 7)%nat).

Definition select_transactions_populate_attachment (row : list sql_value) (tx : iota_transaction_t) (index : nat)
    : iota_transaction_t * nat :=
  let tx := transaction_set_trunk tx (column_decompress_load row index 243) in
  let tx := transaction_set_branch tx (column_decompress_load row (index + 1) 243) in
  let tx := transaction_set_attachment_timestamp tx (u64 (column_int64 row (index + 2))) in
  let tx := transaction_set_attachment_timestamp_lower tx (u64 (column_int64 row (index + 3))) in
  let tx := transaction_set_attachment_timestamp_upper tx (u64 (column_int64 row (index + 4))) in
  let tx := transaction_set_nonce tx (column_decompress_load row (index + 5) 81) in
  let tx := transaction_set_tag tx (column_decompress_load row (index + 6) 81) in
  (tx, (index + 7)%nat).

Definition select_transactions_populate_consensus (row : list sql_value) (tx : iota_transaction_t) (index : nat)
    : iota_transaction_t * nat :=
  (transaction_set_hash tx (column_decompress_load row index 243), (index + 1)%nat).

Definition select_transactions_populate_data (row : list sql_value) (tx : iota_transaction_t) (index : nat)
    : iota_transaction_t * nat :=
  (transaction_set_signature tx (column_decompress_load row index NUM_TRITS_SIGNATURE), (index + 1)%nat).

Definition select_transactions_populate_metadata (row : list sql_value) (tx : iota_transaction_t) (index : nat)
    : iota_transaction_t * nat :=
  let tx := transaction_set_snapshot_index tx (u64 (column_int64 row index)) in
  let tx := transaction_set_solid tx (negb (i32 (column_int64 row (index + 1)) =? 0)) in
  let tx := transaction_set_validity tx (u8 (i32 (column_int64 row (index + 2)))) in
  let tx := transaction_set_arrival_timestamp tx (u64 (column_int64 row (index + 3))) in
  (tx, (index + 4)%nat).

Record iota_milestone_t := mk_milestone { ms_index : Z; ms_hash : list Z }.

Definition select_milestones_populate_from_row (row : list sql_value) (milestone : iota_milestone_t) : iota_milestone_t :=
  mk_milestone (u64 (column_int64 row 0)) (column_decompress_load row 1 243).

Inductive storage_load_model_t :=
| MODEL_TRANSACTION | MODEL_TRANSACTION_ESSENCE_METADATA | MODEL_TRANSACTION_ESSENCE_ATTACHMENT_METADATA
| MODEL_TRANSACTION_ESSENCE_CONSENSUS | MODEL_TRANSACTION_METADATA.

(** The branches of the loop below for transactions. *)
Definition populate_transaction (model : storage_load_model_t) (row : list sql_value) (tx : iota_transaction_t)
    : iota_transaction_t :=
  let tx := transaction_reset tx in
  match model with
  | MODEL_TRANSACTION =>
      let '(tx, index) := select_transactions_populate_essence row tx 0 in
      let '(tx, index) := select_transactions_populate_attachment row tx index in
      let '(tx, index) := select_transactions_populate_consensus row tx index in
      (select_transactions_populate_data row tx index).1
  | MODEL_TRANSACTION_ESSENCE_METADATA =>
      let '(tx, index) := select_transactions_populate_essence row tx 0 in
      (select_transactions_populate_metadata row tx index).1
  | MODEL_TRANSACTION_ESSENCE_ATTACHMENT_METADATA =>
      let '(tx, index) := select_transactions_populate_essence row tx 0 in
      let '(tx, index) := select_transactions_populate_attachment row tx index in
      (select_transactions_populate_metadata row tx index).1
  | MODEL_TRANSACTION_ESSENCE_CONSENSUS =>
      let '(tx, index) := select_transactions_populate_essence row tx 0 in
      (select_transactions_populate_consensus row tx index).1
  | MODEL_TRANSACTION_METADATA => (select_transactions_populate_metadata row tx 0).1
  end.

(** The loop ends with the rows, whether or not [sqlite3_step] reports an error. *)
Fixpoint execute_statement_load_gen {A} (rows : list (list sql_value)) (pack : iota_stor_pack_t A) (max_records : nat)
    (populate : list sql_value -> A -> A) : iota_stor_pack_t A :=
  match rows with
  | [] => pack
  | row :: rows =>
      let n := num_loaded pack in
      if (n =? capacity pack)%nat || (n =? max_records)%nat
      then mk_pack (models pack) (capacity pack) n (n =? capacity pack)%nat
      else
        let pack := mk_pack (alter (populate row) n (models pack)) (capacity pack) (S n) (insufficient_capacity pack) in
        execute_statement_load_gen rows pack max_records populate
  end.

Definition load_gen {A} (rows : list (list sql_value)) (pack : iota_stor_pack_t A) (max_records : nat)
    (populate : list sql_value -> A -> A) : retcode_t * iota_stor_pack_t A :=
  let pack := mk_pack (models pack) (capacity pack) (num_loaded pack) false in
  (RC_OK, execute_statement_load_gen rows pack max_records populate).

Definition load_hash (row : list sql_value) (hash : hash_t) : hash_t := column_decompress_load row 0 243.

(** ** Operations *)

Section Operations.
Context {DB : Type} {SQ : Sqlite DB}.
Implicit Types (db : DB) (st : statement).

(** The binds of a statement, in order, until one fails. *)
Definition bind_all db st (values : list sql_value) : bool :=
  forallb (fun iv => sqlite3_bind db st iv.1 iv.2) (combine (seq 1 (length values)) values).

Definition execute_statement db st (values : list sql_value) : retcode_t * DB :=
  let '(ok, db) := sqlite3_run db st values in
  (if ok then RC_OK else RC_STORAGE_FAILED_STEP, db).

(** Bind everything, then step. *)
Definition bind_execute db st (values : list sql_value) : retcode_t * DB :=
  if negb (bind_all db st values) then (RC_STORAGE_FAILED_BINDING, db) else execute_statement db st values.

Definition bind_load {A} db st (values : list sql_value) (pack : iota_stor_pack_t A) (max_records : nat)
    (populate : list sql_value -> A -> A) : retcode_t * iota_stor_pack_t A :=
  if negb (bind_all db st values) then (RC_STORAGE_FAILED_BINDING, pack)
  else load_gen (sqlite3_rows db st values).1 pack max_records populate.

Definition execute_statement_exist db st (values : list sql_value) (exist : bool) : retcode_t * bool :=
  match sqlite3_rows db st values with
  | ([], _) => (RC_STORAGE_FAILED_STEP, exist)
  | (row :: _, _) => (RC_OK, negb (i32 (column_int64 row 0) =? 0))
  end.

Definition begin_transaction db : retcode_t * DB :=
  let '(ok, db) := sqlite3_begin db in (if ok then RC_OK else RC_STORAGE_FAILED_BEGIN, db).
Definition end_transaction db : retcode_t * DB :=
  let '(ok, db) := sqlite3_end db in (if ok then RC_OK else RC_STORAGE_FAILED_END, db).
Definition rollback_transaction db : retcode_t * DB :=
  let '(ok, db) := sqlite3_rollback db in (if ok then RC_OK else RC_STORAGE_FAILED_ROLLBACK, db).

(** [bound] is what else is bound, and the index of the hash follows it. *)
Definition bind_execute_hash_do_func st (bound : list sql_value) db (hash : hash_t) : retcode_t * DB :=
  if negb (sqlite3_bind db st (S (length bound)) (column_compress hash 243)) then (RC_STORAGE_FAILED_BINDING, db)
  else execute_statement db st (bound ++ [column_compress hash 243]).

(** What follows the label [done] of the operations in a transaction. *)
Definition finish_transaction (ret : retcode_t) db : retcode_t * DB :=
  if negb (bool_decide (ret = RC_OK)) then
    let '(ret_rollback, db) := rollback_transaction db in
    if negb (bool_decide (ret_rollback = RC_OK)) then (ret_rollback, db) else (ret, db)
  else end_transaction db.

Definition update_transactions db (hashes : hash243_set) (value : sql_value) st : retcode_t * DB :=
  let '(ret, db) := begin_transaction db in
  if negb (bool_decide (ret = RC_OK)) then (ret, db) else
  let '(ret, db) :=
    if negb (sqlite3_bind db st 1 value) then (RC_STORAGE_FAILED_BINDING, db)
    else hash243_set_for_each hashes (bind_execute_hash_do_func st [value]) db in
  finish_transaction ret db.

Definition bool_value (b : bool) : sql_value := SqlInt (if b then 1 else 0).
Definition int64_value (v : Z) : sql_value := SqlInt (i64 v).
(** [sqlite3_bind_int] takes an [int]. *)
Definition int_value (v : Z) : sql_value := SqlInt (i32 v).

Definition storage_transaction_count db (count : Z) : retcode_t * Z :=
  match sqlite3_rows db transaction_count [] with
  | (row :: _, _) => (RC_OK, u64 (column_int64 row 0))
  | ([], ended) => (if ended then RC_OK else RC_STORAGE_FAILED_STEP, count)
  end.

(** What [storage_transaction_store] binds; [time] is the current time. *)
Definition store_values (time : Z) (tx : iota_transaction_t) : list sql_value :=
  [column_compress (d_signature_or_message (data tx)) NUM_TRITS_SIGNATURE; column_compress (e_address (essence tx)) 243;
   int64_value (e_value (essence tx)); column_compress (e_obsolete_tag (essence tx)) 81;
   int64_value (e_timestamp (essence tx)); int64_value (e_current_index (essence tx));
   int64_value (e_last_index (essence tx)); column_compress (e_bundle (essence tx)) 243;
   column_compress (a_trunk (attachment tx)) 243; column_compress (a_branch (attachment tx)) 243;
   column_compress (a_tag (attachment tx)) 81; int64_value (a_attachment_timestamp (attachment tx));
   int64_value (a_attachment_timestamp_upper (attachment tx)); int64_value (a_attachment_timestamp_lower (attachment tx));
   column_compress (a_nonce (attachment tx)) 81; column_compress (c_hash (consensus tx)) 243; int64_value time].

Definition storage_transaction_store (time : Z) db (tx : iota_transaction_t) : retcode_t * DB :=
  bind_execute db transaction_insert (store_values time tx).

Inductive storage_transaction_field_t := TRANSACTION_FIELD_NONE | TRANSACTION_FIELD_HASH | TRANSACTION_FIELD_ADDRESS.

Abbreviation tx_pack := (iota_stor_pack_t iota_transaction_t).
Abbreviation hash_pack := (iota_stor_pack_t hash_t).
Abbreviation milestone_pack := (iota_stor_pack_t iota_milestone_t).

Definition storage_transaction_load db (field : storage_transaction_field_t) (key : hash_t) (pack : tx_pack) : retcode_t * tx_pack :=
  match field with
  | TRANSACTION_FIELD_HASH =>
      bind_load db transaction_select_by_hash [column_compress key 243] pack (capacity pack) (populate_transaction MODEL_TRANSACTION)
  | _ => (RC_STORAGE_FAILED_NOT_IMPLEMENTED, pack)
  end.

Definition storage_transaction_load_essence_metadata db (hash : hash_t) (pack : tx_pack) : retcode_t * tx_pack :=
  bind_load db transaction_select_essence_metadata [column_compress hash 243] pack (capacity pack)
    (populate_transaction MODEL_TRANSACTION_ESSENCE_METADATA).

Definition storage_transaction_load_essence_attachment_metadata db (hash : hash_t) (pack : tx_pack) : retcode_t * tx_pack :=
  bind_load db transaction_select_essence_attachment_metadata [column_compress hash 243] pack (capacity pack)
    (populate_transaction MODEL_TRANSACTION_ESSENCE_ATTACHMENT_METADATA).

Definition storage_transaction_load_essence_consensus db (hash : hash_t) (pack : tx_pack) : retcode_t * tx_pack :=
  bind_load db transaction_select_essence_consensus [column_compress hash 243] pack (capacity pack)
    (populate_transaction MODEL_TRANSACTION_ESSENCE_CONSENSUS).

Definition storage_transaction_load_metadata db (hash : hash_t) (pack : tx_pack) : retcode_t * tx_pack :=
  bind_load db transaction_select_metadata [column_compress hash 243] pack (capacity pack)
    (populate_transaction MODEL_TRANSACTION_METADATA).

Definition storage_transaction_load_hashes db (field : storage_transaction_field_t) (key : hash_t) (pack : hash_pack)
    : retcode_t * hash_pack :=
  match field with
  | TRANSACTION_FIELD_ADDRESS =>
      bind_load db transaction_select_hashes_by_address [column_compress key 243] pack (capacity pack) load_hash
  | _ => (RC_STORAGE_FAILED_NOT_IMPLEMENTED, pack)
  end.

Definition storage_transaction_load_hashes_of_approvers db (approvee_hash : hash_t) (pack : hash_pack) (before_timestamp : Z)
    : retcode_t * hash_pack :=
  let key := column_compress approvee_hash 243 in
  if negb (before_timestamp =? 0)
  then bind_load db transaction_select_hashes_of_approvers_before_date [key; key; int64_value before_timestamp] pack
         (capacity pack) load_hash
  else bind_load db transaction_select_hashes_of_approvers [key; key] pack (capacity pack) load_hash.

Definition storage_transaction_load_hashes_of_milestone_candidates db (coordinator : hash_t) (pack : hash_pack)
    : retcode_t * hash_pack :=
  bind_load db transaction_select_hashes_of_milestone_candidates [column_compress coordinator 243] pack (capacity pack) load_hash.

Definition storage_transaction_update_solidity db (hash : hash_t) (is_solid : bool) : retcode_t * DB :=
  bind_execute db transaction_update_solidity [bool_value is_solid; column_compress hash 243].

Definition storage_transactions_update_solidity db (hashes : hash243_set) (is_solid : bool) : retcode_t * DB :=
  update_transactions db hashes (bool_value is_solid) transaction_update_solidity.

Definition storage_transactions_update_snapshot_index db (hashes : hash243_set) (snapshot_index : Z) : retcode_t * DB :=
  update_transactions db hashes (int64_value snapshot_index) transaction_update_snapshot_index.

Definition storage_transaction_update_snapshot_index db (hash : hash_t) (snapshot_index : Z) : retcode_t * DB :=
  bind_execute db transaction_update_snapshot_index [int64_value snapshot_index; column_compress hash 243].

(** The position of the enumerator. *)
Definition status_value (s : bundle_status_t) : Z :=
  match s with
  | BUNDLE_NOT_INITIALIZED => 0 | BUNDLE_VALID => 1 | BUNDLE_EMPTY => 2 | BUNDLE_INCOMPLETE => 3 | BUNDLE_INVALID_TX => 4
  | BUNDLE_INVALID_INPUT_ADDRESS => 5 | BUNDLE_INVALID_VALUE => 6 | BUNDLE_INVALID_HASH => 7 | BUNDLE_INVALID_SIGNATURE => 8
  end.

Definition storage_transaction_update_validity db (hash : hash_t) (validity : bundle_status_t) : retcode_t * DB :=
  bind_execute db transaction_update_validity [int64_value (status_value validity); column_compress hash 243].

(** Without a key the statement keeps the value it was [last] bound to. *)
Definition storage_transaction_exist db (field : storage_transaction_field_t) (key : option hash_t) (last : sql_value)
    (exist : bool) : retcode_t * bool :=
  match field with
  | TRANSACTION_FIELD_NONE => execute_statement_exist db transaction_exist [] exist
  | TRANSACTION_FIELD_HASH =>
      match key with
      | None => execute_statement_exist db transaction_exist_by_hash [last] exist
      | Some key =>
          if negb (sqlite3_bind db transaction_exist_by_hash 1 (column_compress key 243)) then (RC_STORAGE_FAILED_BINDING, exist)
          else execute_statement_exist db transaction_exist_by_hash [column_compress key 243] exist
      end
  | _ => (RC_STORAGE_FAILED_NOT_IMPLEMENTED, exist)
  end.

Definition storage_transaction_approvers_count db (hash : hash_t) (count : Z) : retcode_t * Z :=
  let key := column_compress hash 243 in
  if negb (bind_all db transaction_approvers_count [key; key]) then (RC_STORAGE_FAILED_BINDING, count) else
  match sqlite3_rows db transaction_approvers_count [key; key] with
  | (row :: _, _) => (RC_OK, u64 (column_int64 row 0))
  | ([], ended) => (if ended then RC_OK else RC_STORAGE_FAILED_STEP, count)
  end.

(** The statement is [prepared] here; the approvees are bound twice, for the branch
    and for the trunk. *)
Definition storage_transaction_find (prepared : bool) db (bundles addresses tags approvees : list hash_t) (pack : hash_pack) : retcode_t * hash_pack :=
  let keys n := map (fun h => column_compress h n) in
  let flag (l : list hash_t) := bool_value (match l with [] => true | _ => false end) in
  if negb prepared then (RC_STORAGE_FAILED_PREPARED_STATEMENT, pack) else
  bind_load db (transaction_find (length bundles) (length addresses) (length tags) (length approvees))
    ([flag bundles] ++ keys 243%nat bundles ++ [flag addresses] ++ keys 243%nat addresses ++ [flag tags] ++ keys 81%nat tags ++
     [flag approvees] ++ keys 243%nat approvees ++ keys 243%nat approvees) pack (capacity pack) load_hash.

Definition storage_transaction_delete db (hash : hash_t) : retcode_t * DB :=
  bind_execute db transaction_delete [column_compress hash 243].

Definition storage_transactions_metadata_clear db : retcode_t * DB := execute_statement db transaction_metadata_clear [].

Definition storage_transactions_delete db (hashes : hash243_set) : retcode_t * DB :=
  let '(ret, db) := begin_transaction db in
  if negb (bool_decide (ret = RC_OK)) then (ret, db) else
  let '(ret, db) := hash243_set_for_each hashes (bind_execute_hash_do_func transaction_delete []) db in
  finish_transaction ret db.

Definition storage_bundle_update_validity db (bundle : bundle_transactions_t) (status : bundle_status_t) : retcode_t * DB :=
  let value := int_value (status_value status) in
  let '(ret, db) := begin_transaction db in
  if negb (bool_decide (ret = RC_OK)) then (ret, db) else
  let '(ret, db) :=
    if negb (sqlite3_bind db transaction_update_validity 1 value) then (RC_STORAGE_FAILED_BINDING, db)
    else hash243_set_for_each (map transaction_hash bundle) (bind_execute_hash_do_func transaction_update_validity [value]) db in
  finish_transaction ret db.

(** ** Milestones *)

Definition storage_milestone_clear db : retcode_t * DB := execute_statement db milestone_clear [].

Definition storage_milestone_store db (milestone : iota_milestone_t) : retcode_t * DB :=
  bind_execute db milestone_insert [int64_value (ms_index milestone); column_compress (ms_hash milestone) 243].

Definition storage_milestone_load db (hash : hash_t) (pack : milestone_pack) : retcode_t * milestone_pack :=
  bind_load db milestone_select_by_hash [column_compress hash 243] pack (capacity pack) select_milestones_populate_from_row.

Definition storage_milestone_load_last db (pack : milestone_pack) : retcode_t * milestone_pack :=
  bind_load db milestone_select_last [] pack 1 select_milestones_populate_from_row.

Definition storage_milestone_load_first db (pack : milestone_pack) : retcode_t * milestone_pack :=
  bind_load db milestone_select_first [] pack 1 select_milestones_populate_from_row.

Definition storage_milestone_load_by_index db (index : Z) (pack : milestone_pack) : retcode_t * milestone_pack :=
  bind_load db milestone_select_by_index [int_value index] pack 1 select_milestones_populate_from_row.

Definition storage_milestone_load_next db (index : Z) (pack : milestone_pack) : retcode_t * milestone_pack :=
  bind_load db milestone_select_next [int_value index] pack 1 select_milestones_populate_from_row.

Definition storage_milestone_exist db (hash : option hash_t) (exist : bool) : retcode_t * bool :=
  match hash with
  | Some hash =>
      if negb (sqlite3_bind db milestone_exist_by_hash 1 (column_compress hash 243)) then (RC_STORAGE_FAILED_BINDING, exist)
      else execute_statement_exist db milestone_exist_by_hash [column_compress hash 243] exist
  | None => execute_statement_exist db milestone_exist [] exist
  end.

Definition storage_milestone_delete db (hash : hash_t) : retcode_t * DB :=
  bind_execute db milestone_delete_by_hash [column_compress hash 243].

(** ** State deltas *)

Definition storage_state_delta_store (hp : heap) db (index : Z) (delta : state_delta_t) : retcode_t * DB * heap :=
  let size := state_delta_serialized_size (Some delta) in
  let '(ok, hp) := malloc hp in
  if negb ok then (RC_OOM, db, hp) else
  let '(ret, bytes) := state_delta_serialize delta (replicate (Z.to_nat size) 0) in
  if negb (bool_decide (ret = RC_OK)) then (ret, db, hp) else
  let '(ret, db) := bind_execute db state_delta_store [SqlBlob bytes; int_value index] in
  (ret, db, hp).

Definition storage_state_delta_load (hp : heap) db (index : Z) (delta : state_delta_t) : retcode_t * state_delta_t * heap :=
  if negb (bind_all db state_delta_load [int_value index]) then (RC_STORAGE_FAILED_BINDING, [], hp) else
  match sqlite3_rows db state_delta_load [int_value index] with
  | (row :: _, _) => let bytes := column_blob row 0 in state_delta_deserialize hp bytes (length bytes) []
  | ([], ended) => (if ended then RC_OK else RC_STORAGE_FAILED_STEP, [], hp)
  end.

(** ** Spent addresses *)

Definition storage_spent_address_store db (address : hash_t) : retcode_t * DB :=
  bind_execute db spent_address_insert [column_compress address 243].

Definition storage_spent_addresses_store db (addresses : hash243_set) : retcode_t * DB :=
  let '(ret, db) := begin_transaction db in
  if negb (bool_decide (ret = RC_OK)) then (ret, db) else
  let '(ret, db) := hash243_set_for_each addresses (bind_execute_hash_do_func spent_address_insert []) db in
  finish_transaction ret db.

Definition storage_spent_address_exist db (address : hash_t) (exist : bool) : retcode_t * bool :=
  if negb (sqlite3_bind db spent_address_exist 1 (column_compress address 243)) then (RC_STORAGE_FAILED_BINDING, exist)
  else execute_statement_exist db spent_address_exist [column_compress address 243] exist.
End Operations.

(** * Lemmas *)

#[export, program] Instance memory_laws : SqliteLaws memory_db := {
  like v w := bool_decide (v = w); tables_of := memory_tables; saved := memory_saved
}.
Next Obligation.
  cbn. intros db st values rows ended E. injection E as <- <-. exists (memory_rows db st values). split_and!; [|done|done].
  eexists. split; [reflexivity|]. done.
Qed.
Next Obligation. cbn. intros db st values db' E. by destruct (update _ _ _); simplify_eq/=. Qed.
Next Obligation. cbn. intros db st values db' E. destruct (update _ _ _); simplify_eq/=. auto. Qed.
Next Obligation. cbn. intros db ok db' E. by destruct (memory_saved db) eqn:?; simplify_eq/=. Qed.
Next Obligation. cbn. intros db ok db' E. by simplify_eq/=. Qed.
Next Obligation. cbn. intros db ok db' E. by destruct (memory_saved db) eqn:?; simplify_eq/=. Qed.

#[export, program] Instance memory_reliable : SqliteReliable memory_db.
Solve Obligations with done.

(** ** Columns *)

Lemma strip_zeros_split l : exists n, l = strip_zeros l ++ replicate n FLEX_TRIT_NULL_VALUE.
Proof.
  induction l as [|x l [n IH]]; [by exists 0%nat|]. cbn. destruct (strip_zeros l) as [|y s].
  - destruct (Z.eqb_spec x FLEX_TRIT_NULL_VALUE) as [->|]; [exists (S n); cbn in *; by rewrite <- IH|exists n; cbn in *; by rewrite <- IH].
  - exists n. cbn in *. by rewrite IH at 1.
Qed.

Lemma strip_zeros_pad l : strip_zeros l ++ replicate (length l - length (strip_zeros l)) FLEX_TRIT_NULL_VALUE = l.
Proof.
  destruct (strip_zeros_split l) as [n E]. rewrite E at 4. f_equal. f_equal.
  rewrite E at 1. rewrite length_app, length_replicate. lia.
Qed.

(** What is bound can be read back. *)
Lemma decompress_compress row i n l : length l = n -> row !! i = Some (column_compress l n) ->
  column_decompress_load row i n = l.
Proof.
  intros <- Hi. unfold column_decompress_load, column_blob. rewrite Hi. unfold column_compress.
  rewrite firstn_all. apply strip_zeros_pad.
Qed.

Lemma column_compress_inj l l' n : length l = n -> length l' = n -> column_compress l n = column_compress l' n -> l = l'.
Proof.
  intros Hl Hl' E. rewrite <- (decompress_compress [column_compress l n] 0 n l Hl eq_refl). rewrite E.
  by apply decompress_compress.
Qed.

(** ** Transactions of the database *)

Section Transactions.
Context {DB : Type} {SQ : Sqlite DB} {L : SqliteLaws DB}.
Implicit Types (db : DB) (t : tables).

(** The statement for every hash, after the values that are bound once. *)
Definition update_each (st : statement) (bound : list sql_value) (hashes : list hash_t) t : option tables :=
  foldl (fun (ot : option tables) h => ot ≫= fun t => update t st (bound ++ [column_compress h 243])) (Some t) hashes.

Lemma update_each_None st bound hashes : foldl (fun (ot : option tables) h => ot ≫= fun t => update t st (bound ++ [column_compress h 243])) None hashes = None.
Proof. by induction hashes. Qed.

(** The state inside a transaction that started at [t0]: running, or rolled back by
    an error. *)
Lemma for_each_spec st bound hashes db ret db' t0 : saved db = Some t0 ->
  hash243_set_for_each hashes (bind_execute_hash_do_func st bound) db = (ret, db') ->
  (ret = RC_OK -> update_each st bound hashes (tables_of db) = Some (tables_of db') /\ saved db' = Some t0) /\
  (ret <> RC_OK -> (ret = RC_STORAGE_FAILED_STEP \/ ret = RC_STORAGE_FAILED_BINDING) /\
    (saved db' = Some t0 \/ (saved db' = None /\ tables_of db' = t0))).
Proof.
  revert db. induction hashes as [|h hashes IH]; intros db Hs E; cbn in E.
  { injection E as <- <-. split; [done|congruence]. }
  unfold bind_execute_hash_do_func at 1 in E. destruct (sqlite3_bind db st _ _); cbn in E.
  2: { injection E as <- <-. split; [discriminate|auto]. }
  unfold execute_statement at 1 in E. destruct (sqlite3_run db st _) as [[] db1] eqn:Er; cbn in E.
  - apply run_law in Er as [Eu Es]. apply IH in E; [|congruence]. unfold update_each. cbn. by rewrite Eu.
  - injection E as <- <-. split; [discriminate|]. intros _. split; [auto|].
    apply run_fail_law in Er as [[_ ->]|[H1 H2]]; [auto|]. rewrite Hs in H1. injection H1 as <-. auto.
Qed.

(** The outcomes of the operations that work in a transaction of their own: the
    whole change, nothing, or the whole change in a transaction that could not be
    ended. *)
Definition all_or_nothing db (whole : option tables) (r : retcode_t * DB) : Prop :=
  (r.1 = RC_OK /\ whole = Some (tables_of r.2) /\ saved r.2 = None) \/
  (r.1 = RC_STORAGE_FAILED_END /\ whole = Some (tables_of r.2) /\ saved r.2 = Some (tables_of db)) \/
  (r.1 <> RC_OK /\ r.1 <> RC_STORAGE_FAILED_END /\ tables_of r.2 = tables_of db /\ saved r.2 = None).

(** What a body has to do between [begin_transaction] and [done]. *)
Lemma finish_spec db0 db whole ret : 
  (ret = RC_OK -> whole = Some (tables_of db) /\ saved db = Some (tables_of db0)) ->
  (ret <> RC_OK -> ret <> RC_STORAGE_FAILED_END /\
    (saved db = Some (tables_of db0) \/ (saved db = None /\ tables_of db = tables_of db0))) ->
  all_or_nothing db0 whole (finish_transaction ret db).
Proof.
  intros Hok Hno. unfold finish_transaction, rollback_transaction, end_transaction, all_or_nothing.
  destruct (bool_decide_reflect (ret = RC_OK)) as [->|Hne]; cbn.
  - destruct (Hok eq_refl) as [-> Hs]. destruct (sqlite3_end db) as [ok db1] eqn:Ee. apply end_law in Ee as [Et Es].
    destruct ok; cbn; rewrite Et, Es, ?Hs; auto.
  - destruct (Hno Hne) as [Hf H]. destruct (sqlite3_rollback db) as [ok db1] eqn:Er. apply rollback_law in Er as [Es E].
    right; right. destruct ok; cbn.
    + rewrite bool_decide_eq_true_2 by done. cbn. destruct H as [H|[H _]]; rewrite H in E; [|done].
      injection E as E. by rewrite E.
    + rewrite bool_decide_eq_false_2 by done. cbn. destruct E as [En Et]. split_and!; [done|done| |done]. rewrite Et. destruct H as [H|[_ H]]; [congruence|done].
Qed.

Lemma in_transaction db st bound hashes : saved db = None ->
  all_or_nothing db (update_each st bound hashes (tables_of db))
    (let '(ret, db) := begin_transaction db in
     if negb (bool_decide (ret = RC_OK)) then (ret, db) else
     let '(ret, db) := hash243_set_for_each hashes (bind_execute_hash_do_func st bound) db in
     finish_transaction ret db).
Proof.
  intros Hs. unfold begin_transaction. destruct (sqlite3_begin db) as [ok db1] eqn:Eb. apply begin_law in Eb as [Et Eb].
  destruct ok; cbn.
  - destruct Eb as [_ Eb]. destruct (hash243_set_for_each _ _ _) as [ret db2] eqn:Ef. rewrite <- Et.
    destruct (for_each_spec _ _ _ _ _ _ _ Eb Ef) as [H1 H2]. apply finish_spec; [done|].
    intros Hne. destruct (H2 Hne) as [[->| ->] H]; (split; [done|exact H]).
  - right; right. rewrite bool_decide_eq_false_2 by done. cbn. rewrite Et, Eb. done.
Qed.

Lemma in_transaction_bound db st value hashes : saved db = None ->
  all_or_nothing db (update_each st [value] hashes (tables_of db))
    (let '(ret, db) := begin_transaction db in
     if negb (bool_decide (ret = RC_OK)) then (ret, db) else
     let '(ret, db) :=
       if negb (sqlite3_bind db st 1 value) then (RC_STORAGE_FAILED_BINDING, db)
       else hash243_set_for_each hashes (bind_execute_hash_do_func st [value]) db in
     finish_transaction ret db).
Proof.
  intros Hs. pose proof (in_transaction db st [value] hashes Hs) as H. unfold begin_transaction in *.
  destruct (sqlite3_begin db) as [ok db1] eqn:Eb. apply begin_law in Eb as [Et Eb]. destruct ok; cbn in *; [|exact H].
  destruct (sqlite3_bind db1 st 1 value); cbn; [exact H|]. apply finish_spec; [done|]. intros _. split; [done|]. left. apply Eb.
Qed.

(** The whole of an update: the column is set in every row whose hash is in the
    set, and nothing else changes. *)
Definition updated (c : column) (value : sql_value) (hashes : list hash_t) t : tables :=
  set_where (fun row => existsb (fun h => where_column HASH (column_compress h 243) row) hashes) (set_column c value) t.

Lemma get_set_hash c value row : c <> HASH -> get_column HASH (set_column c value row) = get_column HASH row.
Proof. intros Hc. unfold get_column, set_column. apply (f_equal (default SqlNull)). apply list_lookup_insert_ne. by destruct c. Qed.

Lemma exists_set_hash c value row (hashes : list hash_t) : c <> HASH ->
  existsb (fun h => where_column HASH (column_compress h 243) (set_column c value row)) hashes =
  existsb (fun h => where_column HASH (column_compress h 243) row) hashes.
Proof.
  intros Hc. induction hashes as [|h hashes IH]; cbn; [done|]. rewrite IH. f_equal. unfold where_column.
  by rewrite get_set_hash.
Qed.

Lemma set_column_twice c value row : set_column c value (set_column c value row) = set_column c value row.
Proof. apply list_insert_insert_eq. Qed.

Lemma update_each_column st c value hashes t : updated_column st = Some c ->
  update_each st [value] hashes t = Some (updated c value hashes t).
Proof.
  intros Hc. assert (c <> HASH) as Hh by (by destruct st; cbn in Hc; simplify_eq).
  unfold update_each. revert t. induction hashes as [|h hashes IH]; intros t; cbn.
  - f_equal. unfold updated, set_where, with_transactions. cbn. rewrite map_id. by destruct t.
  - assert (update t st [value; column_compress h 243] =
      Some (set_where (where_column HASH (column_compress h 243)) (set_column c value) t)) as ->.
    { destruct st; cbn in Hc; simplify_eq; reflexivity. }
    rewrite IH. f_equal. unfold updated, set_where, with_transactions. cbn. f_equal. rewrite map_map.
    apply map_ext. intros row. destruct (where_column HASH (column_compress h 243) row); cbn; [|done].
    rewrite exists_set_hash by done. case_match; [apply set_column_twice|done].
Qed.
(** What the other batches come to. *)
Definition deleted (hashes : list hash_t) t : tables :=
  with_transactions t (List.filter (fun row => negb (existsb (fun h => where_column HASH (column_compress h 243) row) hashes))
    (iota_transaction_table t)).

Lemma filter_twice {A} (f g : A -> bool) l : List.filter f (List.filter g l) = List.filter (fun x => g x && f x) l.
Proof. induction l as [|x l IH]; cbn; [done|]. destruct (g x); cbn; [|done]. destruct (f x); congruence. Qed.

Lemma update_each_delete hashes t : update_each transaction_delete [] hashes t = Some (deleted hashes t).
Proof.
  unfold update_each. revert t. induction hashes as [|h hashes IH]; intros t.
  - cbn. f_equal. unfold deleted, with_transactions. destruct t as [rows ms sp]. cbn. f_equal.
    induction rows as [|r rows IH]; cbn; congruence.
  - cbn [foldl]. change (Some t ≫= _) with
      (Some (with_transactions t (List.filter (fun row => negb (where_column HASH (column_compress h 243) row)) (iota_transaction_table t)))).
    rewrite IH. f_equal. unfold deleted, with_transactions. f_equal. cbn [iota_transaction_table]. rewrite filter_twice.
    apply filter_ext. intros r. cbn [existsb]. by rewrite negb_orb.
Qed.

Definition spent (addresses : list hash_t) (t t' : tables) : Prop :=
  iota_transaction_table t' = iota_transaction_table t /\
  (iota_milestone_table t' = iota_milestone_table t) /\
  forall a, (a ∈ iota_spent_address_table t') <->
    ((a ∈ iota_spent_address_table t) \/ exists h, (h ∈ addresses) /\ a = strip_zeros (take 243 h)).

Lemma update_each_spent addresses t : exists t', update_each spent_address_insert [] addresses t = Some t' /\ spent addresses t t'.
Proof.
  unfold update_each. revert t. induction addresses as [|h addresses IH]; intros t; cbn -[take].
  - exists t. split; [done|]. split_and!; [done|done|]. intros a. split; [auto|]. intros [H|(h & H & _)]; [done|].
    by apply not_elem_of_nil in H.
  - destruct (IH (if bool_decide (strip_zeros (take 243 h) ∈ iota_spent_address_table t) then t else
      mk_tables (iota_transaction_table t) (iota_milestone_table t)
        (iota_spent_address_table t ++ [strip_zeros (take 243 h)]))) as (t' & E & Ht & Hm & Hs).
    exists t'. split; [exact E|]. split_and!; [by rewrite Ht; case_match|by rewrite Hm; case_match|].
    intros a. rewrite Hs. setoid_rewrite list.elem_of_cons.
    destruct (bool_decide_reflect (strip_zeros (take 243 h) ∈ iota_spent_address_table t)) as [Hin|Hin]; cbn -[take].
    + split; [intros [H|(h' & H & ->)]; eauto 6|]. intros [H|(h' & [->|H] & ->)]; eauto 6.
    + rewrite list.elem_of_app, list_elem_of_singleton.
      split; [intros [[H| ->]|(h' & H & ->)]; eauto 7|]. intros [H|(h' & [->|H] & ->)]; eauto 6.
Qed.

End Transactions.

Definition sample_row (h : hash_t) : tx_row := set_column HASH (column_compress h 243) default_row.
Definition sample_hash (n : Z) : hash_t := replicate 242 n ++ [0].


(** ** Storing and loading *)

Section Reliable.
Context {DB : Type} {SQ : Sqlite DB} {L : SqliteLaws DB} {R : SqliteReliable DB}.
Implicit Types (db : DB) (t : tables).

Lemma bind_all_reliable db st values : bind_all db st values = true.
Proof. apply forallb_forall. intros x _. apply bind_succeeds. Qed.

Lemma rows_reliable db st values : selects like (tables_of db) st values (sqlite3_rows db st values).1.
Proof.
  pose proof (rows_end db st values) as H. destruct (sqlite3_rows db st values) as [rows ended] eqn:E. cbn in *.
  apply rows_law in E as (all & Hs & _ & He). by rewrite He.
Qed.

(** A query with one row returns it. *)
Lemma selects_one t st values rows row : limit st = None -> query like t st values = [row] -> selects like t st values rows ->
  rows = [row].
Proof.
  intros Hl Hq (all & Hp & ->). rewrite Hl. rewrite Hq in Hp. by apply Permutation_singleton_r in Hp.
Qed.

Lemma selects_none t st values rows : query like t st values = [] -> selects like t st values rows -> rows = [].
Proof.
  intros Hq (all & Hp & ->). rewrite Hq in Hp. apply Permutation_nil_r in Hp as ->. destruct (limit st); [apply firstn_nil|done].
Qed.

Lemma bind_load_one {A} db st values (mem : A) populate row : limit st = None -> query like (tables_of db) st values = [row] ->
  bind_load db st values (DECLARE_PACK_SINGLE mem) 1 populate = (RC_OK, mk_pack [populate row mem] 1 1 false).
Proof.
  intros Hl Hq. unfold bind_load. rewrite bind_all_reliable. cbn.
  by rewrite (selects_one _ _ _ _ _ Hl Hq (rows_reliable db st values)).
Qed.

Lemma bind_load_none {A} db st values (mem : A) populate : query like (tables_of db) st values = [] ->
  bind_load db st values (DECLARE_PACK_SINGLE mem) 1 populate = (RC_OK, mk_pack [mem] 1 0 false).
Proof.
  intros Hq. unfold bind_load. rewrite bind_all_reliable. cbn.
  by rewrite (selects_none _ _ _ _ Hq (rows_reliable db st values)).
Qed.

(** The row of a hash, while no other row has it. *)
Lemma inserted_row t values t' key : update t transaction_insert values = Some t' ->
  get_column HASH (row_of_values values) = SqlBlob key ->
  List.filter (where_column HASH (SqlBlob key)) (iota_transaction_table t') = [row_of_values values].
Proof.
  cbn. intros H Hk. rewrite Hk in H. destruct (existsb _ _) eqn:Ee; [done|]. apply Some_inj in H as <-. cbn.
  rewrite List.filter_app. replace (List.filter _ (iota_transaction_table t)) with (@nil tx_row).
  - cbn. unfold where_column, sql_eq. rewrite Hk, !bool_decide_eq_true_2 by done. done.
  - symmetry. induction (iota_transaction_table t) as [|r l IH]; cbn in *; [done|]. apply orb_false_iff in Ee as [-> Ee]. auto.
Qed.
End Reliable.

(** What the columns can hold. *)
Record storable (tx : iota_transaction_t) : Prop := {
  st_sized : tx_sized tx;
  st_value : is_int64 (e_value (essence tx));
  st_numbers : Forall (fun v => 0 <= v < 2 ^ 64)
    [e_timestamp (essence tx); e_current_index (essence tx); e_last_index (essence tx);
     a_attachment_timestamp (attachment tx); a_attachment_timestamp_lower (attachment tx);
     a_attachment_timestamp_upper (attachment tx); m_snapshot_index (metadata tx); m_arrival_timestamp (metadata tx)];
  st_validity : 0 <= m_validity (metadata tx) < 256
}.

Lemma row_of_values_eq v0 v1 v2 v3 v4 v5 v6 v7 v8 v9 v10 v11 v12 v13 v14 v15 v16 :
  row_of_values [v0; v1; v2; v3; v4; v5; v6; v7; v8; v9; v10; v11; v12; v13; v14; v15; v16] =
  [v0; v1; v2; v3; v4; v5; v6; v7; v8; v9; v10; v11; v13; v12; v14; v15; SqlInt 0; SqlInt 0; SqlInt 0; v16].
Proof. reflexivity. Qed.

Lemma copy_into_full dst l : length dst = length l -> copy_into dst l = l.
Proof. intros H. unfold copy_into. rewrite H, firstn_all. rewrite buf_write_0 by lia. by rewrite <- H, drop_all, app_nil_r. Qed.

Lemma decompress_at row i n l : row !! i = Some (column_compress l n) -> length l = n -> column_decompress_load row i n = l.
Proof. intros. by apply decompress_compress. Qed.

Lemma int64_at row i v : row !! i = Some (int64_value v) -> column_int64 row i = i64 v.
Proof. intros H. unfold column_int64. rewrite H. by apply swrap_swrap. Qed.

Lemma u64_i64 v : 0 <= v < 2 ^ 64 -> u64 (i64 v) = v.
Proof. intros Hv. unfold uwrap. rewrite swrap_mod by lia. apply Z.mod_small. lia. Qed.

Lemma bool_at row i b : row !! i = Some (bool_value b) -> column_int64 row i = if b then 1 else 0.
Proof. intros H. unfold column_int64. rewrite H. by destruct b. Qed.

Lemma int_at row i v : row !! i = Some (int_value v) -> column_int64 row i = i32 v.
Proof.
  intros H. unfold column_int64. rewrite H. pose proof (swrap_range 32 v ltac:(lia)). apply swrap_small; lia.
Qed.

Local Ltac columns :=
  repeat match goal with
  | |- context [column_decompress_load ?row ?i ?n] => erewrite (decompress_at row i n); [|reflexivity|eassumption]
  | |- context [column_int64 ?row ?i] => first [rewrite (int64_at row i _ eq_refl) | rewrite (bool_at row i _ eq_refl)
      | rewrite (int_at row i _ eq_refl)]
  end.

Local Ltac populate :=
  cbv beta iota zeta delta [populate_transaction select_transactions_populate_essence select_transactions_populate_attachment
    select_transactions_populate_consensus select_transactions_populate_data select_transactions_populate_metadata fst Nat.add
    transaction_set_address transaction_set_value transaction_set_obsolete_tag transaction_set_timestamp
    transaction_set_current_index transaction_set_last_index transaction_set_bundle transaction_set_trunk transaction_set_branch
    transaction_set_attachment_timestamp transaction_set_attachment_timestamp_lower transaction_set_attachment_timestamp_upper
    transaction_set_nonce transaction_set_tag transaction_set_hash transaction_set_signature transaction_set_snapshot_index
    transaction_set_solid transaction_set_validity transaction_set_arrival_timestamp transaction_reset
    or_essence or_attachment or_consensus or_data or_metadata set_essence set_attachment set_consensus set_data set_metadata
    essence attachment consensus data metadata loaded_columns_mask e_address e_value e_obsolete_tag e_timestamp e_current_index
    e_last_index e_bundle a_trunk a_branch a_attachment_timestamp a_attachment_timestamp_lower a_attachment_timestamp_upper
    a_nonce a_tag c_hash d_signature_or_message m_snapshot_index m_solid m_validity m_arrival_timestamp
    k_essence k_attachment k_consensus k_data k_metadata].

(** The row of a transaction, and the columns and fields of each way to load it. *)
Definition row_of (tx : iota_transaction_t) : tx_row :=
  take 16 (row_of_values (store_values 0 tx)) ++
  [int64_value (m_snapshot_index (metadata tx)); bool_value (m_solid (metadata tx)); int_value (m_validity (metadata tx));
   int64_value (m_arrival_timestamp (metadata tx))].

Definition model_columns (model : storage_load_model_t) : list column :=
  match model with
  | MODEL_TRANSACTION => essence_columns ++ attachment_columns ++ [HASH; SIG_OR_MSG]
  | MODEL_TRANSACTION_ESSENCE_METADATA => essence_columns ++ metadata_columns
  | MODEL_TRANSACTION_ESSENCE_ATTACHMENT_METADATA => essence_columns ++ attachment_columns ++ metadata_columns
  | MODEL_TRANSACTION_ESSENCE_CONSENSUS => essence_columns ++ [HASH]
  | MODEL_TRANSACTION_METADATA => metadata_columns
  end.

Definition loaded (model : storage_load_model_t) (tx : iota_transaction_t) : iota_transaction_t :=
  let r := transaction_reset tx in
  let E := MASK_ESSENCE_ALL in let A := MASK_ATTACHMENT_ALL in let M := MASK_METADATA_ALL in
  match model with
  | MODEL_TRANSACTION =>
      mk_tx (essence tx) (attachment tx) (consensus tx) (data tx) (metadata r) (mk_mask E A MASK_CONSENSUS_ALL MASK_DATA_ALL 0)
  | MODEL_TRANSACTION_ESSENCE_METADATA =>
      mk_tx (essence tx) (attachment r) (consensus r) (data r) (metadata tx) (mk_mask E 0 0 0 M)
  | MODEL_TRANSACTION_ESSENCE_ATTACHMENT_METADATA =>
      mk_tx (essence tx) (attachment tx) (consensus r) (data r) (metadata tx) (mk_mask E A 0 0 M)
  | MODEL_TRANSACTION_ESSENCE_CONSENSUS =>
      mk_tx (essence tx) (attachment r) (consensus tx) (data r) (metadata r) (mk_mask E 0 MASK_CONSENSUS_ALL 0 0)
  | MODEL_TRANSACTION_METADATA =>
      mk_tx (essence r) (attachment r) (consensus r) (data r) (metadata tx) (mk_mask 0 0 0 0 M)
  end.

Lemma solid_at b : negb (i32 (if b : bool then 1 else 0) =? 0) = b.
Proof. by destruct b. Qed.

Lemma validity_at v : 0 <= v < 256 -> u8 (i32 (i32 v)) = v.
Proof.
  intros Hv. rewrite !(swrap_small 32 v) by lia. unfold uwrap. apply Z.mod_small. lia.
Qed.

Lemma populate_loaded model tx mem : storable tx ->
  populate_transaction model (map (fun c => get_column c (row_of tx)) (model_columns model)) mem = loaded model tx.
Proof.
  intros [(H1 & H2 & H3 & H4 & H5 & H6 & H7 & H8 & H9) Hv Hn Hval].
  rewrite !Forall_cons_iff in Hn. destruct Hn as (N1 & N2 & N3 & N4 & N5 & N6 & N7 & N8 & _).
  destruct tx as [[address value obsolete_tag timestamp current_index last_index bundle]
    [trunk branch ats lower upper nonce tag] [hash] [sig] [snapshot solid validity arrival] mask].
  cbn [essence attachment consensus data metadata e_address e_value e_obsolete_tag e_timestamp e_current_index
    e_last_index e_bundle a_trunk a_branch a_attachment_timestamp a_attachment_timestamp_lower a_attachment_timestamp_upper
    a_nonce a_tag c_hash d_signature_or_message m_snapshot_index m_solid m_validity m_arrival_timestamp] in *.
  match goal with |- context [row_of ?tx] => change (row_of tx) with
    [column_compress sig NUM_TRITS_SIGNATURE; column_compress address 243; int64_value value; column_compress obsolete_tag 81;
     int64_value timestamp; int64_value current_index; int64_value last_index; column_compress bundle 243;
     column_compress trunk 243; column_compress branch 243; column_compress tag 81; int64_value ats; int64_value lower;
     int64_value upper; column_compress nonce 81; column_compress hash 243; int64_value snapshot; bool_value solid;
     int_value validity; int64_value arrival] end.
  destruct model;
    cbn [model_columns essence_columns attachment_columns metadata_columns map app get_column column_index lookup list_lookup default];
    populate; columns; rewrite ?u64_i64, ?i64_id, ?solid_at, ?validity_at by assumption;
    rewrite ?copy_into_full by (rewrite length_replicate; congruence); reflexivity.
Qed.

(** ** The storage as a map from hashes to transactions *)

Section Holds.
Context {DB : Type} {SQ : Sqlite DB} {L : SqliteLaws DB} {R : SqliteReliable DB}.
Implicit Types (db : DB) (t : tables) (tx : iota_transaction_t) (h : hash_t).

Definition rows_at t h : list tx_row := List.filter (where_column HASH (column_compress h 243)) (iota_transaction_table t).

(** [tx] is the transaction of its hash. *)
Definition holds db tx : Prop := rows_at (tables_of db) (transaction_hash tx) = [row_of tx].
Definition absent db h : Prop := rows_at (tables_of db) h = [].

Definition model_select (model : storage_load_model_t) : statement :=
  match model with
  | MODEL_TRANSACTION => transaction_select_by_hash
  | MODEL_TRANSACTION_ESSENCE_METADATA => transaction_select_essence_metadata
  | MODEL_TRANSACTION_ESSENCE_ATTACHMENT_METADATA => transaction_select_essence_attachment_metadata
  | MODEL_TRANSACTION_ESSENCE_CONSENSUS => transaction_select_essence_consensus
  | MODEL_TRANSACTION_METADATA => transaction_select_metadata
  end.

Definition load_model (model : storage_load_model_t) db h (pack : iota_stor_pack_t iota_transaction_t) :=
  bind_load db (model_select model) [column_compress h 243] pack (capacity pack) (populate_transaction model).

Lemma query_model model t h :
  query like t (model_select model) [column_compress h 243] =
  map (fun row => map (fun c => get_column c row) (model_columns model)) (rows_at t h).
Proof. by destruct model. Qed.

Lemma load_held model db tx mem : storable tx -> holds db tx ->
  load_model model db (transaction_hash tx) (DECLARE_PACK_SINGLE mem) = (RC_OK, mk_pack [loaded model tx] 1 1 false).
Proof.
  intros Hs Hh. unfold load_model. erewrite bind_load_one; [|by destruct model|].
  2: { rewrite query_model, Hh. reflexivity. }
  by rewrite populate_loaded.
Qed.

Lemma load_absent model db h mem : absent db h ->
  load_model model db h (DECLARE_PACK_SINGLE mem) = (RC_OK, mk_pack [mem] 1 0 false).
Proof. intros Ha. unfold load_model. apply bind_load_none. by rewrite query_model, Ha. Qed.

Lemma exist_rows db h last exist :
  storage_transaction_exist db TRANSACTION_FIELD_HASH (Some h) last exist =
  (RC_OK, match rows_at (tables_of db) h with [] => false | _ => true end).
Proof.
  unfold storage_transaction_exist. rewrite bind_succeeds. cbn. unfold execute_statement_exist.
  pose proof (rows_reliable db transaction_exist_by_hash [column_compress h 243]) as H.
  eapply selects_one in H; [|done|reflexivity]. destruct (sqlite3_rows _ _ _) as [rows e]. cbn in H. subst rows.
  f_equal. unfold rows_at. change (value_at [?v] 0) with v. by destruct (List.filter _ _).
Qed.

Lemma hash_column tx : get_column HASH (row_of tx) = column_compress (transaction_hash tx) 243.
Proof. reflexivity. Qed.

Definition with_metadata (m : iota_transaction_fields_metadata_t) tx : iota_transaction_t := set_metadata m tx.

Lemma where_other h h' row : get_column HASH row = column_compress h 243 -> column_compress h 243 <> column_compress h' 243 ->
  where_column HASH (column_compress h' 243) row = false.
Proof. intros Hr Hne. unfold where_column, sql_eq. rewrite Hr. by rewrite bool_decide_eq_false_2. Qed.

Lemma store_holds time db tx db' : storage_transaction_store time db tx = (RC_OK, db') ->
  holds db' (set_metadata (mk_metadata 0 false 0 time) tx) /\
  (forall tx', column_compress (transaction_hash tx') 243 <> column_compress (transaction_hash tx) 243 -> holds db tx' -> holds db' tx').
Proof.
  intros E. unfold storage_transaction_store, bind_execute, execute_statement in E. rewrite bind_all_reliable in E. cbn [negb] in E.
  destruct (sqlite3_run _ _ _) as [[] db1] eqn:Er; [|done]. injection E as <-. apply run_law in Er as [Eu _]. split.
  - unfold holds, rows_at. change (transaction_hash (set_metadata _ tx)) with (transaction_hash tx).
    change (row_of _) with (row_of_values (store_values time tx)). eapply inserted_row; [exact Eu|reflexivity].
  - intros tx' Hne Hh. unfold holds, rows_at in *. cbn in Eu. destruct (existsb _ _); [done|]. apply Some_inj in Eu as <-.
    cbn. rewrite List.filter_app, Hh. cbn. erewrite where_other; [done| |by apply not_eq_sym]. reflexivity.
Qed.
End Holds.

Lemma rows_set_where t c v h h' : c <> HASH ->
  rows_at (set_where (where_column HASH (column_compress h 243)) (set_column c v) t) h' =
  if bool_decide (column_compress h 243 = column_compress h' 243) then map (set_column c v) (rows_at t h') else rows_at t h'.
Proof.
  intros Hc. unfold rows_at, set_where, with_transactions. cbn [iota_transaction_table].
  assert (forall v' r, where_column HASH v' (set_column c v r) = where_column HASH v' r) as Hw.
  { intros. unfold where_column. by rewrite get_set_hash. }
  induction (iota_transaction_table t) as [|r l IH]; [by case_match|]. cbn [map List.filter]. rewrite IH.
  case_bool_decide as Eh.
  - rewrite <- Eh. destruct (where_column HASH (column_compress h 243) r) eqn:E1; rewrite ?Hw, E1; reflexivity.
  - destruct (where_column HASH (column_compress h 243) r) eqn:E1; rewrite ?Hw; [|reflexivity].
    replace (where_column HASH (column_compress h' 243) r) with false; [reflexivity|]. symmetry.
    unfold where_column, sql_eq in *. apply andb_true_iff in E1 as [->%bool_decide_eq_true_1 _]. by rewrite bool_decide_eq_false_2.
Qed.

(** The transaction whose column has been updated. *)
Definition put_metadata (c : column) (snapshot_index : Z) (solid : bool) (validity : Z) (tx : iota_transaction_t) : iota_transaction_t :=
  let m := metadata tx in
  set_metadata
    match c with
    | SNAPSHOT_INDEX => mk_metadata snapshot_index (m_solid m) (m_validity m) (m_arrival_timestamp m)
    | SOLID => mk_metadata (m_snapshot_index m) solid (m_validity m) (m_arrival_timestamp m)
    | VALIDITY => mk_metadata (m_snapshot_index m) (m_solid m) validity (m_arrival_timestamp m)
    | _ => m
    end tx.

Section Updates.
Context {DB : Type} {SQ : Sqlite DB} {L : SqliteLaws DB} {R : SqliteReliable DB}.
Implicit Types (db : DB) (tx : iota_transaction_t) (h : hash_t).

Lemma update_holds db st c v snapshot solid validity h db' tx : updated_column st = Some c -> c <> HASH ->
  bind_execute db st [v; column_compress h 243] = (RC_OK, db') ->
  (forall tx, set_column c v (row_of tx) = row_of (put_metadata c snapshot solid validity tx)) -> holds db tx ->
  holds db' (if bool_decide (column_compress h 243 = column_compress (transaction_hash tx) 243)
             then put_metadata c snapshot solid validity tx else tx).
Proof.
  intros Hc Hne E Hput Hh. unfold bind_execute, execute_statement in E. rewrite bind_all_reliable in E. cbn [negb] in E.
  destruct (sqlite3_run _ _ _) as [[] db1] eqn:Er; [|done]. injection E as <-. apply run_law in Er as [Eu _].
  assert (tables_of db1 = set_where (where_column HASH (column_compress h 243)) (set_column c v) (tables_of db)) as Et.
  { destruct st; cbn in Hc; simplify_eq; by apply Some_inj in Eu as <-. }
  unfold holds in *. rewrite Et. case_bool_decide as Eh.
  - change (transaction_hash (put_metadata _ _ _ _ tx)) with (transaction_hash tx). rewrite rows_set_where by done.
    rewrite bool_decide_eq_true_2 by done. by rewrite Hh, <- Hput.
  - rewrite rows_set_where by done. by rewrite bool_decide_eq_false_2.
Qed.

Lemma set_solid_row b tx : set_column SOLID (bool_value b) (row_of tx) = row_of (put_metadata SOLID 0 b 0 tx).
Proof. reflexivity. Qed.
Lemma set_snapshot_row i tx : set_column SNAPSHOT_INDEX (int64_value i) (row_of tx) = row_of (put_metadata SNAPSHOT_INDEX i false 0 tx).
Proof. reflexivity. Qed.

(** C14: storing a transaction in the SQLite storage and loading it by its hash gives
    back every field: the whole transaction, or the part and the metadata that a
    partial load selects, with the masks of what was loaded; the transaction exists
    and cannot be stored twice; marking it solid changes that flag and nothing else. *)
Theorem stored_transaction_loads time db tx db' : storable tx -> 0 <= time < 2 ^ 64 ->
  storage_transaction_store time db tx = (RC_OK, db') ->
  let hash := transaction_hash tx in
  let stored solid := set_metadata (mk_metadata 0 solid 0 time) tx in
  (forall mem,
    storage_transaction_load db' TRANSACTION_FIELD_HASH hash (DECLARE_PACK_SINGLE mem) =
      (RC_OK, mk_pack [loaded MODEL_TRANSACTION tx] 1 1 false) /\
    storage_transaction_load_essence_attachment_metadata db' hash (DECLARE_PACK_SINGLE mem) =
      (RC_OK, mk_pack [loaded MODEL_TRANSACTION_ESSENCE_ATTACHMENT_METADATA (stored false)] 1 1 false)) /\
  (forall last exist, storage_transaction_exist db' TRANSACTION_FIELD_HASH (Some hash) last exist = (RC_OK, true)) /\
  (exists db'', storage_transaction_store time db' tx = (RC_STORAGE_FAILED_STEP, db'')) /\
  (forall db'' mem, storage_transaction_update_solidity db' hash true = (RC_OK, db'') ->
    storage_transaction_load_metadata db'' hash (DECLARE_PACK_SINGLE mem) =
      (RC_OK, mk_pack [loaded MODEL_TRANSACTION_METADATA (stored true)] 1 1 false)).
Proof.
  intros Hs Ht E hash stored. apply store_holds in E as [Hh _].
  assert (rows_at (tables_of db') hash = [row_of (stored false)]) as Hr by exact Hh.
  assert (forall solid, storable (stored solid)) as Hst.
  { intros solid. destruct Hs as [H1 H2 H3 H4]. split; [done|done| |cbn; lia]. cbn. rewrite !Forall_cons_iff in *.
    split_and!; try apply H3; lia. }
  split_and!.
  - intros mem. split; [apply (load_held MODEL_TRANSACTION db' (stored false) mem)|
      apply (load_held MODEL_TRANSACTION_ESSENCE_ATTACHMENT_METADATA db' (stored false) mem)]; auto.
  - intros last exist. rewrite exist_rows. by rewrite Hr.
  - unfold storage_transaction_store, bind_execute, execute_statement. rewrite bind_all_reliable. cbn [negb].
    destruct (sqlite3_run _ _ _) as [[] db1] eqn:Er; [|by eexists]. apply run_law in Er as [Eu _]. exfalso.
    cbn in Eu. destruct (existsb _ _) eqn:Ex; [done|].
    assert (row_of (stored false) ∈ List.filter (where_column HASH (column_compress hash 243)) (iota_transaction_table (tables_of db'))) as Hin.
    { unfold rows_at in Hr. rewrite Hr. left. }
    rewrite list_elem_of_In in Hin. apply filter_In in Hin as [Hin Hw]. apply not_true_iff_false in Ex. apply Ex, existsb_exists. eauto.
  - intros db'' mem E. apply (load_held MODEL_TRANSACTION_METADATA db'' (stored true) mem); [done|].
    pose proof (update_holds db' transaction_update_solidity SOLID (bool_value true) 0 true 0 hash db'' _ eq_refl ltac:(done) E
      (set_solid_row true) Hh) as H. rewrite bool_decide_eq_true_2 in H by done. exact H.
Qed.
End Updates.

Definition empty_db : memory_db := mk_memory_db (mk_tables [] [] []) None.
Definition sample_db (time : Z) : memory_db := (storage_transaction_store time empty_db sample_tx).2.

Lemma sample_tx_storable : storable sample_tx.
Proof. split; [apply sample_tx_sized|closed_decide|closed_decide|closed_decide]. Qed.

Lemma stored_transaction_loads_witness :
  storage_transaction_store 7 empty_db sample_tx = (RC_OK, sample_db 7) /\
  storage_transaction_exist (sample_db 7) TRANSACTION_FIELD_HASH (Some (transaction_hash sample_tx)) SqlNull false = (RC_OK, true).
Proof.
  assert (storage_transaction_store 7 empty_db sample_tx = (RC_OK, sample_db 7)) as E by reflexivity. split; [exact E|].
  exact (proj1 (proj2 (stored_transaction_loads 7 empty_db sample_tx (sample_db 7) sample_tx_storable ltac:(lia) E)) SqlNull false).
Defined.
