(* ===== verification/Tangle.v ===== *)
(** * The tangle

    [ciri/consensus/tangle/tangle.c]: the operations of the storage under the names
    the consensus uses, the loads of hashes that grow their pack until everything
    fits, the load of a bundle and the search for the tail of a transaction. *)
From S2P Require Import Prelude Errors FlexTrit Transaction Bundle Containers StateDelta Statements Sqlite.

Section Tangle.
Context {DB : Type} {SQ : Sqlite DB}.
Implicit Types (db : DB) (hp : heap) (hash : hash_t).

Abbreviation tx_pack := (iota_stor_pack_t iota_transaction_t).
Abbreviation hash_pack := (iota_stor_pack_t hash_t).

(** ** Transactions *)

Definition iota_tangle_transaction_count db (count : Z) := storage_transaction_count db count.
Definition iota_tangle_transaction_store (time : Z) db (tx : iota_transaction_t) := storage_transaction_store time db tx.
Definition iota_tangle_transaction_load db (field : storage_transaction_field_t) (key : hash_t) (tx : tx_pack) :=
  storage_transaction_load db field key tx.
Definition iota_tangle_transaction_update_solidity db hash (state : bool) := storage_transaction_update_solidity db hash state.
Definition iota_tangle_transactions_update_solidity db (hashes : hash243_set) (is_solid : bool) :=
  storage_transactions_update_solidity db hashes is_solid.
Definition iota_tangle_transaction_update_snapshot_index db hash (snapshot_index : Z) :=
  storage_transaction_update_snapshot_index db hash snapshot_index.
Definition iota_tangle_transactions_update_snapshot_index db (hashes : hash243_set) (snapshot_index : Z) :=
  storage_transactions_update_snapshot_index db hashes snapshot_index.
Definition iota_tangle_transaction_exist db (field : storage_transaction_field_t) (key : option hash_t) (last : sql_value)
    (exist : bool) := storage_transaction_exist db field key last exist.
Definition iota_tangle_transaction_approvers_count db hash (count : Z) := storage_transaction_approvers_count db hash count.
Definition iota_tangle_transaction_find (prepared : bool) db (bundles addresses tags approvees : list hash_t) (pack : hash_pack) :=
  storage_transaction_find prepared db bundles addresses tags approvees pack.
Definition iota_tangle_transactions_metadata_clear db := storage_transactions_metadata_clear db.
Definition iota_tangle_transactions_delete db (hashes : hash243_set) := storage_transactions_delete db hashes.
Definition iota_tangle_bundle_update_validity db (bundle : bundle_transactions_t) (status : bundle_status_t) :=
  storage_bundle_update_validity db bundle status.

Inductive partial_transaction_model_e :=
| PARTIAL_TX_MODEL_METADATA | PARTIAL_TX_MODEL_ESSENCE_METADATA | PARTIAL_TX_MODEL_ESSENCE_ATTACHMENT_METADATA
| PARTIAL_TX_MODEL_ESSENCE_CONSENSUS.

Definition iota_tangle_transaction_load_partial db hash (pack : tx_pack) (models_mask : partial_transaction_model_e)
    : retcode_t * tx_pack :=
  match models_mask with
  | PARTIAL_TX_MODEL_METADATA => storage_transaction_load_metadata db hash pack
  | PARTIAL_TX_MODEL_ESSENCE_METADATA => storage_transaction_load_essence_metadata db hash pack
  | PARTIAL_TX_MODEL_ESSENCE_ATTACHMENT_METADATA => storage_transaction_load_essence_attachment_metadata db hash pack
  | PARTIAL_TX_MODEL_ESSENCE_CONSENSUS => storage_transaction_load_essence_consensus db hash pack
  end.

(** The loop of the loads of hashes: double the pack and load again.  [mem] is what
    the new buffers hold; [None] when the fuel runs out. *)
Fixpoint load_resizing (fuel : nat) (mem : hash_t) (load : hash_pack -> retcode_t * hash_pack) hp (res : retcode_t)
    (pack : hash_pack) : option (retcode_t * hash_pack * heap) :=
  match fuel with
  | O => None
  | S fuel =>
      if bool_decide (res = RC_OK) && insufficient_capacity pack then
        let '(res, pack, hp) := hash_pack_resize hp pack 2 mem in
        if bool_decide (res = RC_OK) then
          let pack := mk_pack (models pack) (capacity pack) 0 (insufficient_capacity pack) in
          let '(res, pack) := load pack in
          load_resizing fuel mem load hp res pack
        else load_resizing fuel mem load hp res pack
      else Some (res, pack, hp)
  end.

Definition load_all (fuel : nat) (mem : hash_t) (load : hash_pack -> retcode_t * hash_pack) hp (pack : hash_pack)
    : option (retcode_t * hash_pack * heap) :=
  let '(res, pack) := load pack in load_resizing fuel mem load hp res pack.

Definition iota_tangle_transaction_load_hashes_by_address (fuel : nat) (mem : hash_t) hp db (address : hash_t) (pack : hash_pack) :=
  load_all fuel mem (storage_transaction_load_hashes db TRANSACTION_FIELD_ADDRESS address) hp pack.

Definition iota_tangle_transaction_load_hashes_of_approvers (fuel : nat) (mem : hash_t) hp db (approvee_hash : hash_t)
    (pack : hash_pack) (before_timestamp : Z) :=
  load_all fuel mem (fun pack => storage_transaction_load_hashes_of_approvers db approvee_hash pack before_timestamp) hp pack.

Definition iota_tangle_transaction_load_hashes_of_milestone_candidates (fuel : nat) (mem : hash_t) hp db (coordinator : hash_t)
    (pack : hash_pack) :=
  load_all fuel mem (storage_transaction_load_hashes_of_milestone_candidates db coordinator) hp pack.

(** ** Bundles *)

Definition single_tx (pack : tx_pack) (mem : iota_transaction_t) : iota_transaction_t := nth 0 (models pack) mem.

(** [bundle_hash] points into [curr_tx], so that the [memcmp] of the loop compares
    the bundle of [curr_tx] with itself.  [None]: out of fuel. *)
Fixpoint bundle_load_loop (fuel : nat) db (last_index curr_index : Z) (pack : tx_pack) (mem : iota_transaction_t)
    (bundle : bundle_transactions_t) : option (retcode_t * bundle_transactions_t) :=
  match fuel with
  | O => None
  | S fuel =>
      let curr_tx := single_tx pack mem in
      let bundle_hash := transaction_bundle curr_tx in
      if negb (num_loaded pack =? 0)%nat && (curr_index <=? last_index) &&
         memeq FLEX_TRIT_SIZE_243 bundle_hash (transaction_bundle curr_tx) then
        let bundle := bundle_transactions_add bundle curr_tx in
        let curr_trunk := transaction_trunk curr_tx in
        let pack := hash_pack_reset pack in
        let '(res, pack) := iota_tangle_transaction_load db TRANSACTION_FIELD_HASH curr_trunk pack in
        if negb (bool_decide (res = RC_OK)) then Some (res, bundle)
        else bundle_load_loop fuel db last_index (u64 (curr_index + 1)) pack mem bundle
      else Some (RC_OK, bundle)
  end.

Definition iota_tangle_bundle_load db (tail_hash : hash_t) (mem : iota_transaction_t) (bundle : bundle_transactions_t)
    : option (retcode_t * bundle_transactions_t) :=
  let '(res, pack) := iota_tangle_transaction_load db TRANSACTION_FIELD_HASH tail_hash (DECLARE_PACK_SINGLE mem) in
  if negb (bool_decide (res = RC_OK)) then Some (res, bundle) else
  if (num_loaded pack =? 0)%nat then Some (RC_TANGLE_TAIL_NOT_FOUND, bundle) else
  let curr_tx := single_tx pack mem in
  let curr_index := transaction_current_index curr_tx in
  if negb (curr_index =? 0) then Some (RC_TANGLE_NOT_A_TAIL, bundle) else
  let last_index := transaction_last_index curr_tx in
  bundle_load_loop (S (S (Z.to_nat last_index))) db last_index curr_index pack mem bundle.

(** ** Milestones and state deltas *)

Definition iota_tangle_milestone_clear db := storage_milestone_clear db.
Definition iota_tangle_milestone_store db (data_in : iota_milestone_t) := storage_milestone_store db data_in.
Definition iota_tangle_milestone_load db hash (pack : iota_stor_pack_t iota_milestone_t) := storage_milestone_load db hash pack.
Definition iota_tangle_milestone_load_last db (pack : iota_stor_pack_t iota_milestone_t) := storage_milestone_load_last db pack.
Definition iota_tangle_milestone_load_first db (pack : iota_stor_pack_t iota_milestone_t) := storage_milestone_load_first db pack.
Definition iota_tangle_milestone_load_by_index db (index : Z) (pack : iota_stor_pack_t iota_milestone_t) :=
  storage_milestone_load_by_index db index pack.
Definition iota_tangle_milestone_load_next db (index : Z) (pack : iota_stor_pack_t iota_milestone_t) :=
  storage_milestone_load_next db index pack.
Definition iota_tangle_milestone_exist db (hash : option hash_t) (exist : bool) := storage_milestone_exist db hash exist.
Definition iota_tangle_milestone_delete db hash := storage_milestone_delete db hash.
Definition iota_tangle_state_delta_store hp db (index : Z) (delta : state_delta_t) := storage_state_delta_store hp db index delta.
Definition iota_tangle_state_delta_load hp db (index : Z) (delta : state_delta_t) := storage_state_delta_load hp db index delta.

(** ** The tail of a transaction *)

(** The two buffers of [iota_tangle_find_tail], and whether the pointer [curr_tx]
    has been set to [next_tx]. *)
Record tail_state := mk_tail { curr_tx_s : iota_transaction_t; next_tx_s : iota_transaction_t; curr_is_next : bool }.

Definition curr_tx (s : tail_state) : iota_transaction_t := if curr_is_next s then next_tx_s s else curr_tx_s s.

(** The loop over the approvers; the result says whether one was found. *)
Fixpoint approvers_loop db (index : Z) (approvers : list hash_t) (res : retcode_t) (s : tail_state)
    : retcode_t * tail_state * bool :=
  match approvers with
  | [] => (res, s, false)
  | approver_hash :: approvers =>
      let '(res, pack) := iota_tangle_transaction_load_partial db approver_hash (DECLARE_PACK_SINGLE (next_tx_s s))
                            PARTIAL_TX_MODEL_ESSENCE_CONSENSUS in
      let s := mk_tail (curr_tx_s s) (single_tx pack (next_tx_s s)) (curr_is_next s) in
      if negb (bool_decide (res = RC_OK)) || (num_loaded pack =? 0)%nat then (res, s, false) else
      if (transaction_current_index (next_tx_s s) =? index) &&
         memeq FLEX_TRIT_SIZE_243 (transaction_bundle (next_tx_s s)) (transaction_bundle (curr_tx s))
      then (res, mk_tail (curr_tx_s s) (next_tx_s s) true, true)
      else approvers_loop db index approvers res s
  end.

(** The loop over the indexes. *)
Fixpoint find_tail_loop (fuel : nat) (mem : hash_t) (index : nat) db hp (pack : hash_pack) (s : tail_state)
    : option (retcode_t * tail_state * heap) :=
  match index with
  | O => Some (RC_OK, s, hp)
  | S index =>
      match iota_tangle_transaction_load_hashes_of_approvers fuel mem hp db (transaction_hash (curr_tx s)) (hash_pack_reset pack) 0 with
      | None => None
      | Some (res, pack, hp) =>
          if negb (bool_decide (res = RC_OK)) then Some (res, s, hp) else
          let '(res, s, found_approver) := approvers_loop db (Z.of_nat index) (take (num_loaded pack) (models pack)) res s in
          if found_approver then find_tail_loop fuel mem index db hp pack s else Some (res, s, hp)
      end
  end.

Definition iota_tangle_find_tail (fuel : nat) (mem : hash_t) (curr next : iota_transaction_t) hp db (tx_hash tail : hash_t)
    : option (retcode_t * hash_t * bool * heap) :=
  let '(res, pack) := iota_tangle_transaction_load_partial db tx_hash (DECLARE_PACK_SINGLE curr) PARTIAL_TX_MODEL_ESSENCE_CONSENSUS in
  if negb (bool_decide (res = RC_OK)) || (num_loaded pack =? 0)%nat then Some (res, tail, false, hp) else
  let s := mk_tail (single_tx pack curr) next false in
  let '(res, pack, hp) := hash_pack_init hp 8 mem in
  if negb (bool_decide (res = RC_OK)) then Some (res, tail, false, hp) else
  match find_tail_loop fuel mem (Z.to_nat (u32 (transaction_current_index (curr_tx s)))) db hp pack s with
  | None => None
  | Some (res, s, hp) =>
      if transaction_current_index (curr_tx s) =? 0
      then Some (res, transaction_hash (curr_tx s), true, hp) else Some (res, tail, false, hp)
  end.
End Tangle.

(** * Lemmas *)

(** ** What the consensus sees of the storage

    The transactions of the table, by hash; the theorems about the consensus only
    use this view. *)

Definition same_hash (h : hash_t) (tx : iota_transaction_t) : bool :=
  bool_decide (column_compress (transaction_hash tx) 243 = column_compress h 243).

Definition view_of (txs : list iota_transaction_t) (h : hash_t) : option iota_transaction_t := List.find (same_hash h) txs.

Definition found_pack (model : storage_load_model_t) (found : option iota_transaction_t) (mem : iota_transaction_t)
    : iota_stor_pack_t iota_transaction_t :=
  match found with
  | Some tx => mk_pack [loaded model tx] 1 1 false
  | None => mk_pack [mem] 1 0 false
  end.

Class TangleView (DB : Type) {SQ : Sqlite DB} (db : DB) (view : hash_t -> option iota_transaction_t) : Prop := {
  load_view model h mem : load_model model db h (DECLARE_PACK_SINGLE mem) = (RC_OK, found_pack model (view h) mem)
}.

Record contents {DB} {SQ : Sqlite DB} {L : SqliteLaws DB} (db : DB) (txs : list iota_transaction_t) : Prop := {
  c_rows : iota_transaction_table (tables_of db) = map row_of txs;
  c_storable : Forall storable txs;
  c_hashes : NoDup (map (fun tx => column_compress (transaction_hash tx) 243) txs)
}.

Section View.
Context {DB : Type} {SQ : Sqlite DB} {L : SqliteLaws DB}.
Implicit Types (db : DB) (h : hash_t).

Lemma where_same_hash h tx : where_column HASH (column_compress h 243) (row_of tx) = same_hash h tx.
Proof.
  unfold where_column, sql_eq, same_hash. rewrite hash_column. rewrite (bool_decide_eq_true_2 (_ <> SqlNull)) by done.
  apply andb_true_r.
Qed.

Lemma rows_of_contents db txs h : contents db txs -> rows_at (tables_of db) h = map row_of (List.filter (same_hash h) txs).
Proof.
  intros [Hr _ _]. unfold rows_at. rewrite Hr. clear Hr. induction txs as [|tx txs IH]; [done|]. cbn [map List.filter].
  rewrite where_same_hash. destruct (same_hash h tx); cbn [map]; congruence.
Qed.

Lemma filter_view txs h : NoDup (map (fun tx => column_compress (transaction_hash tx) 243) txs) ->
  List.filter (same_hash h) txs = match view_of txs h with Some tx => [tx] | None => [] end.
Proof.
  unfold view_of. induction txs as [|tx txs IH]; [done|]. cbn [map List.filter List.find].
  rewrite list.NoDup_cons. intros [Hn Hd]. specialize (IH Hd). destruct (same_hash h tx) eqn:E; [|exact IH].
  f_equal. rewrite IH. destruct (List.find (same_hash h) txs) as [tx'|] eqn:Ef; [|done]. exfalso. apply Hn.
  apply find_some in Ef as [Hin E']. unfold same_hash in *. apply bool_decide_eq_true_1 in E, E'. rewrite E, <- E'.
  apply list_elem_of_In. apply in_map_iff. by exists tx'.
Qed.

Lemma view_storable txs h tx : Forall storable txs -> view_of txs h = Some tx -> storable tx.
Proof. intros Hs E. apply find_some in E as [Hin _]. rewrite Forall_forall in Hs. apply Hs. by apply list_elem_of_In. Qed.

Context {R : SqliteReliable DB}.

#[export] Instance view_contents db txs : contents db txs -> TangleView DB db (view_of txs).
Proof.
  intros Hc. constructor. intros model h mem. pose proof (rows_of_contents db txs h Hc) as Hr.
  rewrite (filter_view txs h (c_hashes _ _ Hc)) in Hr. destruct (view_of txs h) as [tx|] eqn:Ev; cbn [map found_pack] in Hr |- *.
  - unfold load_model. erewrite bind_load_one; [|by destruct model|rewrite query_model, Hr; reflexivity].
    cbv beta. rewrite populate_loaded; [done|]. eapply view_storable; [|exact Ev]. apply (c_storable _ _ Hc).
  - by apply load_absent.
Qed.
End View.

(** ** Loading approvers *)

Definition approves_tx (h : hash_t) (tx : iota_transaction_t) : bool :=
  bool_decide (transaction_branch tx = h) || bool_decide (transaction_trunk tx = h).

Definition approvers_of (txs : list iota_transaction_t) (h : hash_t) : list hash_t :=
  map transaction_hash (List.filter (approves_tx h) txs).

Definition loaded_hashes (pack : iota_stor_pack_t hash_t) : list hash_t := take (num_loaded pack) (models pack).

(** A pack of hashes with all of its buffers. *)
Definition full_pack (pack : iota_stor_pack_t hash_t) : Prop :=
  length (models pack) = capacity pack /\ (1 <= capacity pack)%nat.

Definition decoded (rows : list (list sql_value)) : list hash_t := map (fun row => load_hash row []) rows.

Lemma execute_load_hashes rows : forall pack, insufficient_capacity pack = false -> full_pack pack -> (num_loaded pack <= capacity pack)%nat ->
  let pack' := execute_statement_load_gen rows pack (capacity pack) load_hash in
  full_pack pack' /\ capacity pack' = capacity pack /\
  insufficient_capacity pack' = bool_decide (capacity pack < num_loaded pack + length rows)%nat /\
  (insufficient_capacity pack' = false -> loaded_hashes pack' = loaded_hashes pack ++ decoded rows).
Proof.
  induction rows as [|row rows IH]; intros [ms cap n ins] Hi [Hf Hc] Hn; cbn in Hi, Hf, Hc, Hn; subst ins; cbn [execute_statement_load_gen].
  { cbn -[decoded]. rewrite bool_decide_eq_false_2 by lia. split_and!; [by split|done|done|]. intros _. by rewrite app_nil_r. }
  cbn [num_loaded capacity models insufficient_capacity]. destruct (Nat.eqb_spec n cap) as [->|Hne]; cbn [orb].
  { cbn -[decoded]. rewrite bool_decide_eq_true_2 by lia. split_and!; [by split|done|done|discriminate]. }
  specialize (IH (mk_pack (alter (load_hash row) n ms) cap (S n) false) eq_refl). cbn [num_loaded capacity models] in IH.
  destruct IH as (H1 & H2 & H3 & H4); [by split; cbn; rewrite ?length_alter|lia|].
  split_and!; [done|done| |].
  - rewrite H3. apply bool_decide_ext. cbn. lia.
  - intros Hi. rewrite (H4 Hi). unfold loaded_hashes, decoded. cbn [num_loaded models map].
    assert (exists x, ms !! n = Some x) as [x Hx] by (apply lookup_lt_is_Some; lia).
    rewrite (take_S_r _ n (load_hash row x)) by (by rewrite list_lookup_alter_eq, Hx). rewrite take_alter.
    rewrite decide_False by lia. by rewrite <- app_assoc.
Qed.

Lemma hash_pack_buffers (mem : hash_t) (mk : list hash_t -> iota_stor_pack_t hash_t) n : forall ms,
  (fix go (n : nat) (ms : list hash_t) (hp : heap) : retcode_t * iota_stor_pack_t hash_t * heap :=
     match n with
     | O => (RC_OK, mk ms, hp)
     | S n => let '(ok, hp) := malloc hp in if negb ok then (RC_OOM, mk ms, hp) else go n (ms ++ [mem]) hp
     end) n ms [] = (RC_OK, mk (ms ++ replicate n mem), []).
Proof.
  induction n as [|n IH]; intros ms; [by rewrite app_nil_r|]. cbn [malloc negb]. rewrite IH. by rewrite <- app_assoc.
Qed.

Lemma hash_pack_init_nil n mem : hash_pack_init [] n mem = (RC_OK, mk_pack (replicate n mem) n 0 false, []).
Proof. unfold hash_pack_init. cbn [malloc negb]. apply (hash_pack_buffers mem (fun ms => mk_pack ms n 0 false)). Qed.

Lemma hash_pack_resize_nil pack mem :
  hash_pack_resize [] pack 2 mem =
  (RC_OK, mk_pack (replicate (capacity pack * 2) mem) (capacity pack * 2) (num_loaded pack) false, []).
Proof.
  unfold hash_pack_resize. cbn [malloc negb Nat.ltb Nat.leb].
  apply (hash_pack_buffers mem (fun ms => mk_pack ms (capacity pack * 2) (num_loaded pack) false)).
Qed.

Section LoadApprovers.
Context {DB : Type} {SQ : Sqlite DB} {L : SqliteLaws DB} {R : SqliteReliable DB}.
Implicit Types (db : DB) (h : hash_t) (txs : list iota_transaction_t).

Lemma approves_row h tx : storable tx -> length h = 243%nat ->
  approves (column_compress h 243) (column_compress h 243) (row_of tx) = approves_tx h tx.
Proof.
  intros [(_ & _ & _ & _ & Ht & Hb & _) _] Hh. unfold approves, approves_tx, where_column, sql_eq.
  change (get_column BRANCH (row_of tx)) with (column_compress (transaction_branch tx) 243).
  change (get_column TRUNK (row_of tx)) with (column_compress (transaction_trunk tx) 243).
  rewrite !(bool_decide_eq_true_2 (_ <> SqlNull)), !andb_true_r by done.
  f_equal; apply bool_decide_ext; split; [|congruence| |congruence]; intros E; by eapply column_compress_inj.
Qed.

Lemma approvers_rows db txs h : contents db txs -> length h = 243%nat ->
  query like (tables_of db) transaction_select_hashes_of_approvers [column_compress h 243; column_compress h 243] =
  map (fun a => [column_compress a 243]) (approvers_of txs h).
Proof.
  intros [Hr Hs _] Hh. cbn [query]. unfold select_columns, approvers_of. rewrite Hr. clear Hr.
  change (value_at [column_compress h 243; column_compress h 243] _) with (column_compress h 243).
  induction txs as [|tx txs IH]; [done|]. apply Forall_cons_iff in Hs as [Hx Hs]. cbn [map List.filter].
  rewrite approves_row by done. specialize (IH Hs).
  destruct (approves_tx h tx); cbn [map]; [f_equal|]; exact IH.
Qed.

Lemma approvers_sized txs h : Forall storable txs -> Forall (fun a => length a = 243%nat) (approvers_of txs h).
Proof.
  intros Hs. apply Forall_forall. intros a (tx & <- & Hin)%list_elem_of_In%in_map_iff. apply filter_In in Hin as [Hin _].
  apply list_elem_of_In in Hin. rewrite Forall_forall in Hs. by destruct (Hs _ Hin) as [(_ & _ & _ & _ & _ & _ & _ & _ & H) _].
Qed.

Lemma decoded_hashes l : Forall (fun a => length a = 243%nat) l -> decoded (map (fun a => [column_compress a 243]) l) = l.
Proof.
  induction 1 as [|a l Ha _ IH]; [done|]. cbn [map decoded]. f_equal; [|exact IH]. by apply decompress_compress.
Qed.

(** A load of the hashes [l]: it fills what the pack has room for. *)
Definition loads (load : iota_stor_pack_t hash_t -> retcode_t * iota_stor_pack_t hash_t) (l : list hash_t) : Prop :=
  forall pack, full_pack pack -> num_loaded pack = 0%nat ->
    exists pack', load pack = (RC_OK, pack') /\ full_pack pack' /\ capacity pack' = capacity pack /\
      insufficient_capacity pack' = bool_decide (capacity pack < length l)%nat /\
      (insufficient_capacity pack' = false -> loaded_hashes pack' = l).

Lemma load_resizing_spec load l mem : loads load l -> forall fuel pack, full_pack pack ->
  insufficient_capacity pack = bool_decide (capacity pack < length l)%nat ->
  (insufficient_capacity pack = false -> loaded_hashes pack = l) -> (length l < capacity pack + fuel)%nat ->
  exists pack', load_resizing (S fuel) mem load [] RC_OK pack = Some (RC_OK, pack', []) /\ full_pack pack' /\ loaded_hashes pack' = l.
Proof.
  intros Hload. induction fuel as [|fuel IH]; intros pack Hf Hi Hd Hfu; cbn [load_resizing].
  - rewrite bool_decide_eq_false_2 in Hi by lia. rewrite Hi, andb_false_r. eexists. split_and!; [done|done|auto].
  - rewrite (bool_decide_eq_true_2 (RC_OK = RC_OK)) by done. cbn [andb]. destruct (insufficient_capacity pack) eqn:Hins.
    + rewrite hash_pack_resize_nil. rewrite (bool_decide_eq_true_2 (RC_OK = RC_OK)) by done. cbv beta zeta.
      cbn [models capacity insufficient_capacity]. destruct Hf as [Hf1 Hf2].
      destruct (Hload (mk_pack (replicate (capacity pack * 2) mem) (capacity pack * 2) 0 false)) as (pack' & -> & F & Cc & Ii & D);
        [split; cbn; rewrite ?length_replicate; lia|done|].
      apply IH; [done|by rewrite Cc|done|]. rewrite Cc. cbn [capacity]. lia.
    + eexists. split_and!; [done|done|auto].
Qed.

Lemma loads_approvers db txs h : contents db txs -> length h = 243%nat ->
  exists l, l ≡ₚ approvers_of txs h /\ loads (fun pack => storage_transaction_load_hashes_of_approvers db h pack 0) l.
Proof.
  intros Hc Hh. destruct (rows_reliable db transaction_select_hashes_of_approvers [column_compress h 243; column_compress h 243])
    as (rows & Hp & Hrows). cbn [limit] in Hrows. rewrite (approvers_rows _ _ _ Hc Hh) in Hp. exists (decoded rows). split.
  - unfold decoded. rewrite Hp. fold (decoded (map (fun a => [column_compress a 243]) (approvers_of txs h))).
    rewrite decoded_hashes; [done|]. apply approvers_sized, (c_storable _ _ Hc).
  - intros pack Hf Hn. unfold storage_transaction_load_hashes_of_approvers. cbn [Z.eqb negb].
    unfold bind_load. rewrite bind_all_reliable. cbn [negb]. unfold load_gen. rewrite Hrows, Hn. eexists. split; [reflexivity|].
    replace (length (decoded rows)) with (length rows) by (unfold decoded; by rewrite length_map).
    exact (execute_load_hashes rows (mk_pack (models pack) (capacity pack) 0 false) eq_refl Hf ltac:(cbn; lia)).
Qed.

(** While memory lasts, the load returns the hashes of the transactions that approve
    [h], whatever their number. *)
Lemma load_approvers_spec resize mem db txs h pack : contents db txs -> length h = 243%nat -> full_pack pack ->
  num_loaded pack = 0%nat -> (length (approvers_of txs h) < resize)%nat ->
  exists pack', iota_tangle_transaction_load_hashes_of_approvers resize mem [] db h pack 0 = Some (RC_OK, pack', []) /\
    full_pack pack' /\ loaded_hashes pack' ≡ₚ approvers_of txs h.
Proof.
  intros Hc Hh Hf Hn Hr. destruct (loads_approvers db txs h Hc Hh) as (l & Hl & Hload).
  unfold iota_tangle_transaction_load_hashes_of_approvers, load_all.
  destruct (Hload pack Hf Hn) as (pack1 & -> & F & Cc & Ii & D). rewrite <- Hl in Hr. destruct resize as [|resize]; [lia|].
  destruct (load_resizing_spec _ l mem Hload resize pack1 F) as (pack2 & E & F2 & D2); [by rewrite Cc|done|destruct F; lia|].
  exists pack2. split_and!; [exact E|done|by rewrite D2].
Qed.
End LoadApprovers.

(** ** Loading a bundle *)

(** The transactions from [h] on along the trunk, [n] at most. *)
Fixpoint trunk_chain (view : hash_t -> option iota_transaction_t) (n : nat) (h : hash_t) : list iota_transaction_t :=
  match n with
  | O => []
  | S n =>
      match view h with
      | None => []
      | Some tx => loaded MODEL_TRANSACTION tx :: trunk_chain view n (transaction_trunk tx)
      end
  end.

Section BundleLoad.
Context {DB : Type} {SQ : Sqlite DB} (db : DB) (view : hash_t -> option iota_transaction_t) {V : TangleView DB db view}.

Lemma load_transaction_view h mem :
  iota_tangle_transaction_load db TRANSACTION_FIELD_HASH h (DECLARE_PACK_SINGLE mem) =
  (RC_OK, found_pack MODEL_TRANSACTION (view h) mem).
Proof. exact (load_view MODEL_TRANSACTION h mem). Qed.

Lemma bundle_load_loop_spec last_index mem : 0 <= last_index < 2 ^ 64 - 1 -> forall fuel curr_index h mem' bundle,
  0 <= curr_index <= last_index + 1 -> (Z.to_nat (last_index + 1 - curr_index) < fuel)%nat ->
  bundle_load_loop fuel db last_index curr_index (found_pack MODEL_TRANSACTION (view h) mem') mem bundle =
  Some (RC_OK, bundle ++ trunk_chain view (Z.to_nat (last_index + 1 - curr_index)) h).
Proof.
  intros Hl. induction fuel as [|fuel IH]; intros curr_index h mem' bundle Hc Hf; [lia|]. cbn [bundle_load_loop].
  destruct (Z.leb_spec curr_index last_index) as [Hle|Hgt].
  - replace (Z.to_nat (last_index + 1 - curr_index)) with (S (Z.to_nat (last_index + 1 - (curr_index + 1)))) by lia.
    cbn [trunk_chain]. destruct (view h) as [tx|]; cbn [found_pack num_loaded].
    + unfold memeq. rewrite bool_decide_eq_true_2 by done. cbn [andb negb Nat.eqb].
      change (hash_pack_reset _) with (DECLARE_PACK_SINGLE (loaded MODEL_TRANSACTION tx)). rewrite load_transaction_view.
      cbn [negb bool_decide]. rewrite bool_decide_eq_true_2 by done. cbn [negb].
      change (transaction_trunk (single_tx _ _)) with (transaction_trunk tx).
      unfold uwrap. rewrite Z.mod_small by lia. rewrite IH by lia. unfold bundle_transactions_add. by rewrite <- app_assoc.
    + cbn. by rewrite app_nil_r.
  - rewrite andb_false_r. cbn [andb]. replace (Z.to_nat (last_index + 1 - curr_index)) with 0%nat by lia. cbn. by rewrite app_nil_r.
Qed.

(** Loading a bundle returns the transactions that follow the tail along the
    trunk, as many as its last index asks for or as there are; it does not stop where
    another bundle begins.  Without the tail, or with another index than 0 in it, the
    bundle is untouched and the error says which. *)
Theorem bundle_load_follows_trunk tail_hash mem :
  match view tail_hash with
  | None => iota_tangle_bundle_load db tail_hash mem [] = Some (RC_TANGLE_TAIL_NOT_FOUND, [])
  | Some tx =>
      (transaction_current_index tx <> 0 -> iota_tangle_bundle_load db tail_hash mem [] = Some (RC_TANGLE_NOT_A_TAIL, [])) /\
      (transaction_current_index tx = 0 -> 0 <= transaction_last_index tx < 2 ^ 64 - 1 ->
       iota_tangle_bundle_load db tail_hash mem [] =
       Some (RC_OK, trunk_chain view (Z.to_nat (transaction_last_index tx + 1)) tail_hash))
  end.
Proof.
  unfold iota_tangle_bundle_load. rewrite load_transaction_view. rewrite bool_decide_eq_true_2 by done. cbn [negb].
  destruct (view tail_hash) as [tx|] eqn:Hv; [|done]. cbn [found_pack num_loaded Nat.eqb].
  change (single_tx _ _) with (loaded MODEL_TRANSACTION tx). change (transaction_current_index (loaded _ _)) with (transaction_current_index tx).
  change (transaction_last_index (loaded _ _)) with (transaction_last_index tx). split.
  - intros Hc%Z.eqb_neq. by rewrite Hc.
  - intros Hc Hl. rewrite Hc. cbn [negb Z.eqb].
    pose proof (bundle_load_loop_spec (transaction_last_index tx) mem Hl (S (S (Z.to_nat (transaction_last_index tx)))) 0 tail_hash mem []) as H.
    rewrite Hv, Z.sub_0_r in H. apply H; lia.
Qed.
End BundleLoad.

(** ** Examples *)

Definition letter (n : Z) : hash_t := replicate 242 (if Z.even n then 1 else -1) ++ [if n <? 2 then 1 else -1].

Definition link (hash trunk : hash_t) (index last : Z) (bundle : list Z) : iota_transaction_t :=
  mk_tx (mk_essence (replicate 243 1) 0 (replicate 81 0) 1546300800 index last bundle)
    (mk_attachment trunk trunk 1546300801 0 3812798742493 (replicate 81 1) (replicate 81 0))
    (mk_consensus hash) (mk_data (replicate NUM_TRITS_SIGNATURE 0)) (mk_metadata 0 false 0 7) (mk_mask 0 0 0 0 0).

Definition stored_links (txs : list iota_transaction_t) : memory_db :=
  foldl (fun db tx => (storage_transaction_store 7 db tx).2) empty_db txs.

(** Three transactions, each approving the next one by its trunk; the first belongs
    to another bundle. *)
Definition sample_links : list iota_transaction_t :=
  [link (letter 0) (letter 1) 0 0 (letter 3); link (letter 1) (letter 2) 1 2 (letter 0);
   link (letter 2) (letter 3) 2 2 (letter 0)].

Lemma link_storable hash trunk index last bundle : length hash = 243%nat -> length trunk = 243%nat -> length bundle = 243%nat ->
  0 <= index < 2 ^ 64 -> 0 <= last < 2 ^ 64 -> storable (link hash trunk index last bundle).
Proof.
  intros H1 H2 H3 Hi Hl. split.
  - unfold tx_sized. cbn [essence attachment consensus data link e_address e_obsolete_tag e_bundle a_trunk a_branch a_tag a_nonce
      c_hash d_signature_or_message]. rewrite !length_replicate. by split_and!.
  - closed_decide.
  - cbn. repeat constructor; lia.
  - cbn. lia.
Qed.

Lemma stored_links_contents : contents (stored_links sample_links) sample_links.
Proof.
  split.
  - vm_compute. reflexivity.
  - do 3 (constructor; [apply link_storable; try reflexivity; lia|]). constructor.
  - apply (bool_decide_unpack _). vm_compute. exact I.
Qed.

Lemma bundle_load_follows_trunk_witness :
  iota_tangle_bundle_load (stored_links sample_links) (letter 0) sample_tx [] =
  Some (RC_OK, [loaded MODEL_TRANSACTION (link (letter 0) (letter 1) 0 0 (letter 3))]).
Proof.
  pose proof (view_contents _ _ stored_links_contents) as V.
  assert (view_of sample_links (letter 0) = Some (link (letter 0) (letter 1) 0 0 (letter 3))) as E by (vm_compute; reflexivity).
  pose proof (bundle_load_follows_trunk _ _ (letter 0) sample_tx) as H. rewrite E in H.
  rewrite (proj2 H eq_refl ltac:(cbn; lia)). cbn [transaction_last_index essence link e_last_index].
  change (Z.to_nat (0 + 1)) with 1%nat. cbn [trunk_chain]. rewrite E. reflexivity.
Defined.

(** The search for a tail can end in another bundle.  From the second step on the
    bundle of the approver is compared with itself, since [curr_tx] points to the
    buffer that the approver was loaded into: here the true tail is missing and the
    tail of another bundle that approves the same transaction is returned. *)
Theorem find_tail_leaves_bundle :
  let db := stored_links sample_links in let tx := link (letter 2) (letter 3) 2 2 (letter 0) in
  contents db sample_links /\
  iota_tangle_find_tail 2 (letter 0) tx tx [] db (transaction_hash tx) (letter 3) = Some (RC_OK, letter 0, true, []) /\
  match view_of sample_links (letter 0) with
  | Some tail => transaction_current_index tail = 0 /\ transaction_bundle tail <> transaction_bundle tx
  | None => False
  end.
Proof.
  intros db tx. split; [exact stored_links_contents|]. split; [vm_compute; reflexivity|].
  vm_compute. split; [reflexivity|]. intros E. discriminate E.
Qed.
