(* ===== verification/Traversal.v ===== *)
(** * Traversals

    [ciri/consensus/tangle/traversal.c]: the depth-first traversals of the tangle, to
    the past along branch and trunk, and to the future along the approvers.  The
    functor acts on the database and on a state of its own, and sets the two flags. *)
From S2P Require Import Prelude Errors Transaction Bundle Containers Statements Sqlite Tangle.

Section Traversal.
Context {DB : Type} {SQ : Sqlite DB} {C : Type}.
Implicit Types (db : DB) (hp : heap) (hash : hash_t) (tx : iota_transaction_t).

Record functor_result := mk_result {
  f_ret : retcode_t; f_db : DB; f_heap : heap; f_data : C; should_branch : bool; should_stop : bool
}.

(** Database, allocations, the hash, its pack, the data and the two flags; [None] when
    a loop of the functor does not end. *)
Definition tangle_traversal_functor :=
  DB -> heap -> hash_t -> iota_stor_pack_t iota_transaction_t -> C -> bool -> bool -> option functor_result.

(** What a traversal leaves behind: with the analyzed hashes. *)
Record traversal_result := mk_traversal {
  t_ret : retcode_t; t_db : DB; t_heap : heap; t_analyzed : hash243_set; t_data : C
}.

(** The loop of [tangle_traversal_dfs_to_past]; [None]: out of fuel. *)
Fixpoint past_loop (fuel : nat) (func : tangle_traversal_functor) db hp (non_analyzed_hashes : hash243_stack)
    (analyzed_hashes : hash243_set) tx (data : C) (branch stop : bool) : option traversal_result :=
  match fuel with
  | O => None
  | S fuel =>
      match hash243_stack_peek non_analyzed_hashes with
      | None => Some (mk_traversal RC_OK db hp analyzed_hashes data)
      | Some hash =>
          let non_analyzed_hashes := hash243_stack_pop non_analyzed_hashes in
          if negb (hash243_set_contains analyzed_hashes hash) then
            let '(ret, pack) := iota_tangle_transaction_load_partial db hash (DECLARE_PACK_SINGLE tx)
                                  PARTIAL_TX_MODEL_ESSENCE_ATTACHMENT_METADATA in
            if negb (bool_decide (ret = RC_OK)) then Some (mk_traversal ret db hp analyzed_hashes data) else
            let tx := single_tx pack tx in
            match func db hp hash pack data branch stop with
            | None => None
            | Some r =>
              if negb (bool_decide (f_ret r = RC_OK))
              then Some (mk_traversal (f_ret r) (f_db r) (f_heap r) analyzed_hashes (f_data r)) else
              if should_stop r then Some (mk_traversal RC_OK (f_db r) (f_heap r) analyzed_hashes (f_data r)) else
              let '(ret, non_analyzed_hashes, hp) :=
                if should_branch r then
                  let '(ret, stack, hp) := hash243_stack_push (f_heap r) non_analyzed_hashes (transaction_branch tx) in
                  if negb (bool_decide (ret = RC_OK)) then (ret, stack, hp)
                  else hash243_stack_push hp stack (transaction_trunk tx)
                else (RC_OK, non_analyzed_hashes, f_heap r) in
              if negb (bool_decide (ret = RC_OK)) then Some (mk_traversal ret (f_db r) hp analyzed_hashes (f_data r)) else
              let '(ret, analyzed_hashes, hp) := hash243_set_add hp analyzed_hashes hash in
              if negb (bool_decide (ret = RC_OK)) then Some (mk_traversal ret (f_db r) hp analyzed_hashes (f_data r)) else
              past_loop fuel func (f_db r) hp non_analyzed_hashes analyzed_hashes tx (f_data r) (should_branch r) (should_stop r)
            end
          else past_loop fuel func db hp non_analyzed_hashes analyzed_hashes tx data branch stop
      end
  end.

Definition tangle_traversal_dfs_to_past (fuel : nat) (mem : iota_transaction_t) db hp (func : tangle_traversal_functor)
    (entry_point genesis_hash : hash_t) (analyzed_hashes : hash243_set) (data : C) : option traversal_result :=
  let '(ret, stack, hp) := hash243_stack_push hp [] entry_point in
  if negb (bool_decide (ret = RC_OK)) then Some (mk_traversal ret db hp analyzed_hashes data) else
  let '(ret, analyzed_hashes, hp) := hash243_set_add hp analyzed_hashes genesis_hash in
  if negb (bool_decide (ret = RC_OK)) then Some (mk_traversal ret db hp analyzed_hashes data) else
  past_loop fuel func db hp stack analyzed_hashes mem data true false.

(** [while (hashes_pack.num_loaded > 0)]: the last hash of the pack first. *)
Fixpoint push_all hp (stack : hash243_stack) (hashes : list hash_t) : retcode_t * hash243_stack * heap :=
  match hashes with
  | [] => (RC_OK, stack, hp)
  | hash :: hashes =>
      let '(ret, stack, hp) := hash243_stack_push hp stack hash in
      if negb (bool_decide (ret = RC_OK)) then (ret, stack, hp) else push_all hp stack hashes
  end.

(** The loop of [tangle_traversal_dfs_to_future]; [resize] is the fuel of the load of
    the approvers, [mem] what new buffers hold. *)
Fixpoint future_loop (fuel resize : nat) (mem : hash_t) (func : tangle_traversal_functor) db hp
    (non_analyzed_hashes : hash243_stack) (analyzed_hashes : hash243_set) (hashes_pack : iota_stor_pack_t hash_t) tx (data : C)
    (branch stop : bool) : option traversal_result :=
  match fuel with
  | O => None
  | S fuel =>
      match hash243_stack_peek non_analyzed_hashes with
      | None => Some (mk_traversal RC_OK db hp analyzed_hashes data)
      | Some hash =>
          if negb (hash243_set_contains analyzed_hashes hash) then
            let '(ret, pack) := iota_tangle_transaction_load_partial db hash (DECLARE_PACK_SINGLE tx)
                                  PARTIAL_TX_MODEL_ESSENCE_ATTACHMENT_METADATA in
            if negb (bool_decide (ret = RC_OK)) then Some (mk_traversal ret db hp analyzed_hashes data) else
            let tx := single_tx pack tx in
            match func db hp hash pack data branch stop with
            | None => None
            | Some r =>
              if negb (bool_decide (f_ret r = RC_OK))
              then Some (mk_traversal (f_ret r) (f_db r) (f_heap r) analyzed_hashes (f_data r)) else
              let '(ret, analyzed_hashes, hp) := hash243_set_add (f_heap r) analyzed_hashes hash in
              if negb (bool_decide (ret = RC_OK)) then Some (mk_traversal ret (f_db r) hp analyzed_hashes (f_data r)) else
              if should_stop r then Some (mk_traversal RC_OK (f_db r) hp analyzed_hashes (f_data r)) else
              if should_branch r then
                let non_analyzed_hashes := hash243_stack_pop non_analyzed_hashes in
                match iota_tangle_transaction_load_hashes_of_approvers resize mem hp (f_db r) hash (hash_pack_reset hashes_pack) 0 with
                | None => None
                | Some (ret, hashes_pack, hp) =>
                    if negb (bool_decide (ret = RC_OK)) then Some (mk_traversal ret (f_db r) hp analyzed_hashes (f_data r)) else
                    let approvers := rev (take (num_loaded hashes_pack) (models hashes_pack)) in
                    let '(ret, non_analyzed_hashes, hp) := push_all hp non_analyzed_hashes approvers in
                    if negb (bool_decide (ret = RC_OK)) then Some (mk_traversal ret (f_db r) hp analyzed_hashes (f_data r)) else
                    future_loop fuel resize mem func (f_db r) hp non_analyzed_hashes analyzed_hashes (hash_pack_reset hashes_pack) tx
                      (f_data r) (should_branch r) (should_stop r)
                end
              else
                future_loop fuel resize mem func (f_db r) hp (hash243_stack_pop non_analyzed_hashes) analyzed_hashes hashes_pack tx
                  (f_data r) (should_branch r) (should_stop r)
            end
          else
            future_loop fuel resize mem func db hp (hash243_stack_pop non_analyzed_hashes) analyzed_hashes hashes_pack tx data
              branch stop
      end
  end.

Definition tangle_traversal_dfs_to_future (fuel resize : nat) (mem_hash : hash_t) (mem : iota_transaction_t) db hp
    (func : tangle_traversal_functor) (entry_point : hash_t) (analyzed_hashes : hash243_set) (data : C)
    : option traversal_result :=
  let '(ret, stack, hp) := hash243_stack_push hp [] entry_point in
  if negb (bool_decide (ret = RC_OK)) then Some (mk_traversal ret db hp analyzed_hashes data) else
  let '(ret, hashes_pack, hp) := hash_pack_init hp 8 mem_hash in
  if negb (bool_decide (ret = RC_OK)) then Some (mk_traversal ret db hp analyzed_hashes data) else
  future_loop fuel resize mem_hash func db hp stack analyzed_hashes hashes_pack mem data true false.
End Traversal.
#[global] Arguments tangle_traversal_functor : clear implicits.
#[global] Arguments functor_result : clear implicits.
#[global] Arguments traversal_result : clear implicits.

(** * Lemmas *)

(** ** Links

    The links of the tangle do not change while it is traversed; what a functor does
    to the database keeps them. *)

Definition links_of (view : hash_t -> option iota_transaction_t) (h : hash_t) : option (hash_t * hash_t) :=
  match view h with
  | Some tx => Some (transaction_branch tx, transaction_trunk tx)
  | None => None
  end.

Section Past.
Context {DB : Type} {SQ : Sqlite DB} {C : Type} (links : hash_t -> option (hash_t * hash_t)).
Context (func : tangle_traversal_functor DB C).
Implicit Types (db : DB) (hash : hash_t) (tx : iota_transaction_t) (s : hash243_stack) (analyzed : hash243_set).

Definition linked db : Prop := exists view, TangleView DB db view /\ forall h, links_of view h = links h.

(** The functor keeps the links, and does not run out of memory. *)
Definition keeps_links : Prop := forall db hash pack data branch stop, linked db ->
  exists r, func db [] hash pack data branch stop = Some r /\ linked (f_db r) /\ f_heap r = [].

(** The pack and the transaction after loading [hash] over [tx]. *)
Definition load_of db hash tx : iota_stor_pack_t iota_transaction_t :=
  (iota_tangle_transaction_load_partial db hash (DECLARE_PACK_SINGLE tx) PARTIAL_TX_MODEL_ESSENCE_ATTACHMENT_METADATA).2.

Lemma load_linked db hash tx : linked db ->
  iota_tangle_transaction_load_partial db hash (DECLARE_PACK_SINGLE tx) PARTIAL_TX_MODEL_ESSENCE_ATTACHMENT_METADATA =
    (RC_OK, load_of db hash tx) /\
  match links hash with
  | Some (b, t) => num_loaded (load_of db hash tx) = 1%nat /\
      transaction_branch (single_tx (load_of db hash tx) tx) = b /\ transaction_trunk (single_tx (load_of db hash tx) tx) = t
  | None => num_loaded (load_of db hash tx) = 0%nat /\ single_tx (load_of db hash tx) tx = tx
  end.
Proof.
  intros (view & V & Hl). unfold load_of. pose proof (load_view MODEL_TRANSACTION_ESSENCE_ATTACHMENT_METADATA hash tx) as E.
  change (iota_tangle_transaction_load_partial _ _ _ _) with
    (load_model MODEL_TRANSACTION_ESSENCE_ATTACHMENT_METADATA db hash (DECLARE_PACK_SINGLE tx)).
  rewrite E. split; [done|]. rewrite <- Hl. unfold links_of. by destruct (view hash).
Qed.

Lemma set_add_nil analyzed hash : hash ∉ analyzed -> hash243_set_add [] analyzed hash = (RC_OK, analyzed ++ [hash], []).
Proof. intros Hn. unfold hash243_set_add, hash243_set_contains. by rewrite bool_decide_eq_false_2. Qed.

(** One turn of the loop, while memory lasts. *)
Lemma past_turn fuel db hash s analyzed tx data branch stop r : linked db -> hash ∉ analyzed ->
  func db [] hash (load_of db hash tx) data branch stop = Some r -> f_heap r = [] ->
  let tx' := single_tx (load_of db hash tx) tx in
  past_loop (S fuel) func db [] (hash :: s) analyzed tx data branch stop =
  if negb (bool_decide (f_ret r = RC_OK)) then Some (mk_traversal (f_ret r) (f_db r) [] analyzed (f_data r)) else
  if should_stop r then Some (mk_traversal RC_OK (f_db r) [] analyzed (f_data r)) else
  past_loop fuel func (f_db r) []
    (if should_branch r then transaction_trunk tx' :: transaction_branch tx' :: s else s) (analyzed ++ [hash]) tx' (f_data r)
    (should_branch r) (should_stop r).
Proof.
  intros Hl Hn Hr Hh tx'. cbn [past_loop hash243_stack_peek hash243_stack_pop head tail].
  unfold hash243_set_contains at 1. rewrite bool_decide_eq_false_2 by done. cbn [negb].
  rewrite (proj1 (load_linked db hash tx Hl)). rewrite bool_decide_eq_true_2 by done. cbn [negb]. fold tx'. rewrite Hr, Hh.
  destruct (bool_decide (f_ret r = RC_OK)); cbn [negb]; [|done]. destruct (should_stop r) eqn:Es; [done|].
  destruct (should_branch r) eqn:Eb; cbn [hash243_stack_push malloc negb];
    rewrite ?(bool_decide_eq_true_2 (RC_OK = RC_OK)) by done; cbn [negb hash243_stack_push malloc];
    rewrite ?(bool_decide_eq_true_2 (RC_OK = RC_OK)) by done; cbn [negb];
    rewrite set_add_nil by done; rewrite (bool_decide_eq_true_2 (RC_OK = RC_OK)) by done; done.
Qed.

Lemma past_skip fuel db hash s analyzed tx data branch stop : hash ∈ analyzed ->
  past_loop (S fuel) func db [] (hash :: s) analyzed tx data branch stop = past_loop fuel func db [] s analyzed tx data branch stop.
Proof.
  intros Hin. cbn [past_loop hash243_stack_peek hash243_stack_pop head tail].
  unfold hash243_set_contains. by rewrite bool_decide_eq_true_2.
Qed.
(** ** Termination *)

(** The hashes of [U] that are still to be analyzed. *)
Definition fresh (U : list hash_t) analyzed : nat := length (List.filter (fun h => negb (bool_decide (h ∈ analyzed))) U).

Lemma fresh_cons h U analyzed :
  fresh (h :: U) analyzed = ((if bool_decide (h ∈ analyzed) then 0 else 1) + fresh U analyzed)%nat.
Proof. unfold fresh. cbn. by destruct (bool_decide (h ∈ analyzed)). Qed.

Lemma fresh_le U analyzed hash : (fresh U (analyzed ++ [hash]) <= fresh U analyzed)%nat.
Proof.
  induction U as [|h U IH]; [done|]. rewrite !fresh_cons. repeat case_bool_decide; try lia. exfalso.
  set_solver.
Qed.

Lemma fresh_add U analyzed hash : hash ∈ U -> hash ∉ analyzed -> (fresh U (analyzed ++ [hash]) < fresh U analyzed)%nat.
Proof.
  induction U as [|h U IH]; [by intros ?%not_elem_of_nil|]. rewrite list.elem_of_cons, !fresh_cons. intros Hin Hn.
  pose proof (fresh_le U analyzed hash) as Hle. repeat case_bool_decide; destruct Hin as [->|Hin]; try specialize (IH Hin Hn);
    try lia; exfalso; set_solver.
Qed.

Lemma past_loop_terminates U : keeps_links -> (forall h b t, h ∈ U -> links h = Some (b, t) -> b ∈ U /\ t ∈ U) ->
  forall fuel db s analyzed tx data branch stop, linked db -> Forall (fun h => h ∈ U) s ->
  transaction_branch tx ∈ U -> transaction_trunk tx ∈ U -> (length s + 2 * fresh U analyzed < fuel)%nat ->
  exists r, past_loop fuel func db [] s analyzed tx data branch stop = Some r.
Proof.
  intros Hk Hc. induction fuel as [|fuel IH]; intros db s analyzed tx data branch stop Hl Hs Hb Ht Hf; [lia|].
  destruct s as [|hash s]; [by eexists|]. apply Forall_cons_iff in Hs as [Hh Hs]. cbn [length] in Hf.
  destruct (decide (hash ∈ analyzed)) as [Hin|Hin]; [rewrite past_skip by done; apply IH; auto; lia|].
  destruct (Hk db hash (load_of db hash tx) data branch stop Hl) as (r & Er & Hl' & Hh').
  rewrite (past_turn _ _ _ _ _ _ _ _ _ _ Hl Hin Er Hh'). cbv zeta.
  destruct (negb _); [by eexists|]. destruct (should_stop _); [by eexists|].
  pose proof (fresh_add U analyzed hash Hh Hin) as Hlt.
  assert (transaction_branch (single_tx (load_of db hash tx) tx) ∈ U /\ transaction_trunk (single_tx (load_of db hash tx) tx) ∈ U) as [Hb' Ht'].
  { destruct (load_linked db hash tx Hl) as [_ H]. destruct (links hash) as [[b t]|] eqn:El.
    - destruct H as (_ & -> & ->). by apply (Hc hash).
    - by destruct H as [_ ->]. }
  destruct (should_branch _); apply IH; auto; cbn [length]; lia.
Qed.

(** What the functor keeps of its data, whatever the database answers. *)
Lemma past_loop_keeps (P : C -> Prop) :
  (forall db hp hash pack data branch stop r, P data -> func db hp hash pack data branch stop = Some r -> P (f_data r)) ->
  forall fuel db hp s analyzed tx data branch stop r, P data ->
  past_loop fuel func db hp s analyzed tx data branch stop = Some r -> P (t_data r).
Proof.
  intros Hf. induction fuel as [|fuel IH]; intros db hp s analyzed tx data branch stop r Hp E; [done|]. cbn [past_loop] in E.
  destruct (hash243_stack_peek s); [|by injection E as <-]. destruct (negb (hash243_set_contains _ _)); [|by eapply IH in E].
  destruct (iota_tangle_transaction_load_partial _ _ _ _) as [ret pack].
  destruct (negb _); [by injection E as <-|]. destruct (func _ _ _ _ _ _ _) as [r1|] eqn:Er; [|done].
  apply Hf in Er; [|done]. destruct (negb _); [by injection E as <-|]. destruct (should_stop r1); [by injection E as <-|].
  destruct (if should_branch r1 then _ else _) as [[ret1 s1] hp1]. destruct (negb _); [by injection E as <-|].
  destruct (hash243_set_add _ _ _) as [[ret2 an2] hp2]. destruct (negb _); [by injection E as <-|]. by eapply IH in E.
Qed.

(** ** What a traversal visits *)

(** The hashes that a traversal from [entry] reaches through transactions that
    [branches] lets it leave, without entering [init]. *)
Inductive reach (branches : hash_t -> bool) (entry : hash_t) (init : hash243_set) : hash_t -> Prop :=
| reach_entry : entry ∉ init -> reach branches entry init entry
| reach_step h b t x : reach branches entry init h -> branches h = true -> links h = Some (b, t) -> x = b \/ x = t ->
    x ∉ init -> reach branches entry init x.

(** A functor that never fails, and decides by the hash where to branch. *)
Definition visits (branches : hash_t -> bool) (step : C -> hash_t -> C) : Prop :=
  forall db hash tx data branch stop, linked db -> links hash <> None ->
  exists r, func db [] hash (load_of db hash tx) data branch stop = Some r /\
  f_ret r = RC_OK /\ should_stop r = false /\ should_branch r = branches hash /\ f_data r = step data hash.

Lemma past_loop_visits branches step entry init : keeps_links -> visits branches step ->
  (forall h, reach branches entry init h -> links h <> None) ->
  forall fuel db s v tx data branch stop r, linked db -> NoDup v -> (forall h, h ∈ v -> reach branches entry init h) ->
  (forall h, h ∈ s -> h ∈ init \/ reach branches entry init h) ->
  (forall h b t, h ∈ v -> branches h = true -> links h = Some (b, t) -> forall x, x = b \/ x = t -> x ∈ init ++ v ++ s) ->
  entry ∈ init ++ v ++ s ->
  past_loop fuel func db [] s (init ++ v) tx data branch stop = Some r ->
  t_ret r = RC_OK /\ linked (t_db r) /\ exists v', NoDup (v ++ v') /\ t_analyzed r = init ++ v ++ v' /\
    t_data r = foldl step data v' /\ (forall h, h ∈ v ++ v' <-> reach branches entry init h).
Proof.
  intros Hk Hf Hr. induction fuel as [|fuel IH]; intros db s v tx data branch stop r Hl Hd Hv Hs Hc He E; [done|].
  destruct s as [|hash s].
  - cbn in E. injection E as <-. cbn. split_and!; [done|done|]. exists []. rewrite !app_nil_r in *. split_and!; [done|done|done|].
    assert (forall x, x ∈ init ++ v -> x ∉ init -> x ∈ v) as Hx.
    { intros x Hx Hn. rewrite list.elem_of_app in Hx. tauto. }
    intros h. split; [apply Hv|]. induction 1 as [Hn|h b t x _ IHh Hb El Hxb Hn]; [by apply Hx|].
    apply Hx; [|done]. by apply (Hc h b t).
  - destruct (decide (hash ∈ init ++ v)) as [Hin|Hin].
    + rewrite past_skip in E by done. eapply IH in E; [exact E|done|done|done| | |].
      * intros h Hh. apply Hs. rewrite list.elem_of_cons. by right.
      * intros h b t Hh Hb El x Hx. specialize (Hc h b t Hh Hb El x Hx). rewrite !list.elem_of_app, list.elem_of_cons in *.
        destruct Hc as [?|[?|[->|?]]]; tauto.
      * rewrite !list.elem_of_app, list.elem_of_cons in *. destruct He as [?|[?|[->|?]]]; tauto.
    + assert (reach branches entry init hash) as Hreach.
      { destruct (Hs hash) as [H|H]; [left| |done]. exfalso. apply Hin. rewrite list.elem_of_app. by left. }
      destruct (Hf db hash tx data branch stop Hl (Hr _ Hreach)) as (r1 & Er & Hok & Hstop & Hbr & Hdata).
      destruct (Hk db hash (load_of db hash tx) data branch stop Hl) as (r2 & Er2 & Hl' & Hh').
      rewrite Er in Er2. injection Er2 as <-. rewrite (past_turn _ _ _ _ _ _ _ _ _ _ Hl Hin Er Hh') in E. cbv zeta in E.
      rewrite Hok, Hstop, Hbr, Hdata in E. rewrite bool_decide_eq_true_2 in E by done. cbn [negb] in E.
      rewrite <- app_assoc in E. destruct (load_linked db hash tx Hl) as [_ Hload].
      destruct (links hash) as [[b t]|] eqn:El; [|by apply Hr in Hreach]. destruct Hload as (_ & Eb & Et). rewrite Eb, Et in E.
      eapply IH in E.
      * destruct E as (H1 & H2 & v' & H3 & H4 & H5 & H6). split_and!; [done|done|]. exists (hash :: v').
        rewrite <- !app_assoc in *. by split_and!.
      * done.
      * apply list.NoDup_app. split; [done|]. split; [|apply list.NoDup_singleton].
        intros x Hx ->%list_elem_of_singleton. apply Hin. rewrite list.elem_of_app. by right.
      * intros h. rewrite list.elem_of_app, list_elem_of_singleton. intros [Hh| ->]; [by apply Hv|done].
      * intros h Hh. destruct (decide (h ∈ init)) as [|Hn]; [by left|]. right.
        destruct (branches hash) eqn:Eb'.
        -- rewrite !list.elem_of_cons in Hh. destruct Hh as [->|[->|Hh]];
             [eapply reach_step; eauto|eapply reach_step; eauto|]. destruct (Hs h) as [?|?]; [rewrite list.elem_of_cons; by right|done|done].
        -- destruct (Hs h) as [?|?]; [rewrite list.elem_of_cons; by right|done|done].
      * intros h b' t' Hh Hb El' x Hx. rewrite list.elem_of_app, list_elem_of_singleton in Hh.
        rewrite !list.elem_of_app, list_elem_of_singleton. destruct Hh as [Hh| ->].
        -- specialize (Hc h b' t' Hh Hb El' x Hx). rewrite !list.elem_of_app, list.elem_of_cons in Hc.
           destruct Hc as [?|[?|[->|?]]]; [tauto|tauto|tauto|]. right. right. destruct (branches hash); [|done].
           rewrite !list.elem_of_cons. tauto.
        -- rewrite El in El'. injection El' as <- <-. rewrite Hb. rewrite !list.elem_of_cons. tauto.
      * rewrite !list.elem_of_app, list_elem_of_singleton in *. rewrite list.elem_of_cons in He. destruct He as [?|[?|[->|?]]]; [tauto|tauto|tauto|].
        right. right. destruct (branches hash); [|done]. rewrite !list.elem_of_cons. tauto.
Qed.
End Past.

(** The hashes that are not entered: what the caller has analyzed, and the genesis. *)
Definition with_genesis (analyzed : hash243_set) (genesis_hash : hash_t) : hash243_set :=
  if bool_decide (genesis_hash ∈ analyzed) then analyzed else analyzed ++ [genesis_hash].

Section Theorems.
Context {DB : Type} {SQ : Sqlite DB} {C : Type} (links : hash_t -> option (hash_t * hash_t)).
Context (func : tangle_traversal_functor DB C) (K : keeps_links links func).

Lemma dfs_to_past_loop fuel mem db entry genesis init data :
  tangle_traversal_dfs_to_past fuel mem db [] func entry genesis init data =
  past_loop fuel func db [] [entry] (with_genesis init genesis) mem data true false.
Proof.
  unfold tangle_traversal_dfs_to_past, with_genesis, hash243_set_add, hash243_set_contains. cbn [hash243_stack_push malloc negb].
  rewrite bool_decide_eq_true_2 by done. cbn [negb]. destruct (bool_decide (genesis ∈ init)); cbn [negb malloc];
    by rewrite bool_decide_eq_true_2.
Qed.

Lemma dfs_to_past_keeps (P : C -> Prop) fuel mem db hp entry genesis init data r :
  (forall db hp hash pack data branch stop r, P data -> func db hp hash pack data branch stop = Some r -> P (f_data r)) ->
  P data -> tangle_traversal_dfs_to_past fuel mem db hp func entry genesis init data = Some r -> P (t_data r).
Proof.
  intros Hf Hp E. unfold tangle_traversal_dfs_to_past in E. destruct (hash243_stack_push _ _ _) as [[ret s] hp1].
  destruct (negb _); [by injection E as <-|]. destruct (hash243_set_add _ _ _) as [[ret2 an] hp2].
  destruct (negb _); [by injection E as <-|]. by eapply past_loop_keeps in E.
Qed.

(** Over any set of hashes that the links do not leave, the traversal ends, whatever
    the functor does. *)
Lemma dfs_to_past_ends U fuel mem db entry genesis init data : linked links db ->
  (forall h b t, h ∈ U -> links h = Some (b, t) -> b ∈ U /\ t ∈ U) -> entry ∈ U ->
  transaction_branch mem ∈ U -> transaction_trunk mem ∈ U -> (1 + 2 * length U < fuel)%nat ->
  exists r, tangle_traversal_dfs_to_past fuel mem db [] func entry genesis init data = Some r.
Proof.
  intros Hl Hc He Hb Ht Hf. rewrite dfs_to_past_loop. apply (past_loop_terminates links func U); auto.
  assert (fresh U (with_genesis init genesis) <= length U)%nat; [|cbn [length]; lia]. unfold fresh. apply filter_length_le.
Qed.

(** When the functor never fails, it is called once for every transaction that can be
    reached, and for no other. *)
Lemma dfs_to_past_visits branches step fuel mem db entry genesis init data r : linked links db ->
  visits links func branches step -> (forall h, reach links branches entry (with_genesis init genesis) h -> links h <> None) ->
  tangle_traversal_dfs_to_past fuel mem db [] func entry genesis init data = Some r ->
  t_ret r = RC_OK /\ linked links (t_db r) /\ exists visited, NoDup visited /\
    t_analyzed r = with_genesis init genesis ++ visited /\ t_data r = foldl step data visited /\
    (forall h, h ∈ visited <-> reach links branches entry (with_genesis init genesis) h).
Proof.
  intros Hl Hf Hr E. rewrite dfs_to_past_loop in E. rewrite <- (app_nil_r (with_genesis init genesis)) in E.
  apply (past_loop_visits links func branches step entry) in E; try done; [constructor| | | |].
  - by intros h ?%not_elem_of_nil.
  - intros h ->%list_elem_of_singleton. destruct (decide (entry ∈ with_genesis init genesis)); [by left|right]. by constructor.
  - by intros h b t ?%not_elem_of_nil.
  - rewrite app_nil_l, list.elem_of_app, list_elem_of_singleton. by right.
Qed.

(** C10: a depth-first traversal to the past ends, and calls its functor exactly once
    for each transaction that can be reached from the entry point along branch and
    trunk, through transactions the functor branches at, without entering the genesis
    or what was analyzed before; these hashes are added to the analyzed ones. *)
Theorem dfs_to_past_exact U branches step fuel mem db entry genesis init data : linked links db ->
  (forall h b t, h ∈ U -> links h = Some (b, t) -> b ∈ U /\ t ∈ U) -> entry ∈ U ->
  transaction_branch mem ∈ U -> transaction_trunk mem ∈ U -> (1 + 2 * length U < fuel)%nat ->
  visits links func branches step -> (forall h, reach links branches entry (with_genesis init genesis) h -> links h <> None) ->
  exists r visited, tangle_traversal_dfs_to_past fuel mem db [] func entry genesis init data = Some r /\
    t_ret r = RC_OK /\ NoDup visited /\ t_analyzed r = with_genesis init genesis ++ visited /\
    t_data r = foldl step data visited /\
    (forall h, h ∈ visited <-> reach links branches entry (with_genesis init genesis) h).
Proof.
  intros Hl Hc He Hb Ht Hf Hv Hr. destruct (dfs_to_past_ends U fuel mem db entry genesis init data) as [r E]; auto.
  destruct (dfs_to_past_visits branches step fuel mem db entry genesis init data r) as (H1 & _ & v & H2); auto.
  exists r, v. tauto.
Qed.
End Theorems.

(** ** An example *)

Definition collect : tangle_traversal_functor memory_db (list hash_t) :=
  fun db hp hash pack data _ _ => Some (mk_result RC_OK db hp (data ++ [hash]) true false).

Definition sample_edges : hash_t -> option (hash_t * hash_t) := links_of (view_of sample_links).

Lemma sample_linked : linked sample_edges (stored_links sample_links).
Proof. exists (view_of sample_links). split; [exact (view_contents _ _ stored_links_contents)|done]. Qed.

Lemma sample_edges_eq :
  sample_edges (letter 0) = Some (letter 1, letter 1) /\ sample_edges (letter 1) = Some (letter 2, letter 2) /\
  sample_edges (letter 2) = Some (letter 3, letter 3) /\ sample_edges (letter 3) = None.
Proof. split_and!; vm_compute; reflexivity. Qed.

(** The links of a hash in the list of the sample. *)
Lemma sample_step h b t : h ∈ [letter 0; letter 1; letter 2; letter 3] -> sample_edges h = Some (b, t) ->
  b = t /\ t ∈ [letter 1; letter 2; letter 3].
Proof.
  destruct sample_edges_eq as (E0 & E1 & E2 & E3). generalize (letter 0) (letter 1) (letter 2) (letter 3) E0 E1 E2 E3.
  clear E0 E1 E2 E3. intros l0 l1 l2 l3 E0 E1 E2 E3. rewrite !list.elem_of_cons.
  intros [->|[->|[->|[->|?%not_elem_of_nil]]]] E; [| | | |done]; rewrite ?E0, ?E1, ?E2, ?E3 in E; simplify_eq; auto.
Qed.

Lemma sample_reach h : reach sample_edges (fun _ => true) (letter 0) (with_genesis [] (letter 3)) h ->
  h ∈ [letter 0; letter 1; letter 2].
Proof.
  induction 1 as [|h b t x _ IH _ El Hx Hn]; [left|].
  assert (x ∈ [letter 1; letter 2; letter 3]) as Hx'.
  { apply sample_step in El as [-> H]; [by destruct Hx as [->| ->]|]. rewrite !list.elem_of_cons in *. tauto. }
  rewrite !list.elem_of_cons in *. destruct Hx' as [->|[->|[->|?%not_elem_of_nil]]]; [auto|auto| |done].
  exfalso. apply Hn. left.
Qed.

Lemma dfs_to_past_exact_witness :
  exists r visited,
    tangle_traversal_dfs_to_past 11 (link (letter 0) (letter 1) 0 0 (letter 3)) (stored_links sample_links) [] collect (letter 0)
      (letter 3) [] [] = Some r /\ t_ret r = RC_OK /\ NoDup visited /\ t_analyzed r = [letter 3] ++ visited /\
    t_data r = foldl (fun data h => data ++ [h]) [] visited /\
    (forall h, h ∈ visited <-> reach sample_edges (fun _ => true) (letter 0) (with_genesis [] (letter 3)) h).
Proof.
  apply (dfs_to_past_exact sample_edges collect) with (U := [letter 0; letter 1; letter 2; letter 3]).
  - intros db hash pack data branch stop H. by eexists.
  - exact sample_linked.
  - intros h b t Hh El. apply sample_step in El as [-> H]; [|done]. rewrite !list.elem_of_cons in *. tauto.
  - left.
  - right. left.
  - right. left.
  - cbn. lia.
  - intros. by eexists.
  - intros h Hh%sample_reach. rewrite !list.elem_of_cons in Hh.
    destruct sample_edges_eq as (E0 & E1 & E2 & _).
    destruct Hh as [->|[->|[->|?%not_elem_of_nil]]]; [rewrite E0; discriminate|rewrite E1; discriminate|rewrite E2; discriminate|done].
Defined.
