(* ===== verification/Ledger.v ===== *)
(** * Bundle and ledger validation

    [ciri/consensus/bundle_validator] and [ciri/consensus/ledger_validator]: the
    status of the bundle of a tail, the balances that the transactions behind a tip
    move, and what a milestone does to the latest snapshot and to the database. *)
From S2P Require Import Prelude Errors TritLong Sponge Sign Transaction Bundle Containers StateDelta Snapshot Statements Sqlite Tangle Traversal.

Section Ledger.
Context {DB : Type} {SQ : Sqlite DB} {St : Type} {Sp : Sponge St} {SI : SpongeInit St}.
Implicit Types (db : DB) (hp : heap) (hash : hash_t).

(** ** Bundle validation *)

(** The enumerator of a stored value; [None]: not an enumerator. *)
Definition status_of (v : Z) : option bundle_status_t :=
  List.find (fun s => status_value s =? v)
    [BUNDLE_NOT_INITIALIZED; BUNDLE_VALID; BUNDLE_EMPTY; BUNDLE_INCOMPLETE; BUNDLE_INVALID_TX; BUNDLE_INVALID_INPUT_ADDRESS;
     BUNDLE_INVALID_VALUE; BUNDLE_INVALID_HASH; BUNDLE_INVALID_SIGNATURE].

(** [mem] is the uninitialised transaction; the result is the code, the database, the
    bundle and [*status]. *)
Definition iota_consensus_bundle_validator_validate (stack : validate_stack) (mem : iota_transaction_t) db (tail_hash : hash_t)
    (bundle : bundle_transactions_t) : option (retcode_t * DB * bundle_transactions_t * bundle_status_t) :=
  match iota_tangle_bundle_load db tail_hash mem bundle with
  | None => None
  | Some (res, bundle) =>
      if negb (bool_decide (res = RC_OK)) then Some (res, db, bundle, BUNDLE_NOT_INITIALIZED) else
      if (length bundle =? 0)%nat then Some (RC_OK, db, bundle, BUNDLE_EMPTY) else
      let '(res, pack) := iota_tangle_transaction_load_partial db tail_hash (DECLARE_PACK_SINGLE mem) PARTIAL_TX_MODEL_METADATA in
      if negb (bool_decide (res = RC_OK)) then Some (res, db, bundle, BUNDLE_NOT_INITIALIZED) else
      match status_of (transaction_validity (single_tx pack mem)) with
      | None => None
      | Some BUNDLE_NOT_INITIALIZED =>
          match bundle_validate stack (Some bundle) BUNDLE_NOT_INITIALIZED with
          | None => None
          | Some (res, status) =>
              if negb (bool_decide (res = RC_OK)) then Some (res, db, bundle, status) else
              if negb (bool_decide (status = BUNDLE_INCOMPLETE)) then
                let '(res, db) := iota_tangle_bundle_update_validity db bundle status in
                Some (res, db, bundle, status)
              else Some (res, db, bundle, status)
          end
      | Some status => Some (RC_OK, db, bundle, status)
      end
  end.

(** ** The balances moved by what a tip approves *)

Record get_latest_delta_params := mk_params { valid_delta : bool; latest_snapshot_index : Z; delta_state : state_delta_t }.

(** [while (tx_bundle != NULL)] *)
Fixpoint sum_bundle hp (state : state_delta_t) (bundle : bundle_transactions_t) : retcode_t * state_delta_t * heap :=
  match bundle with
  | [] => (RC_OK, state, hp)
  | tx :: bundle =>
      let '(ret, state, hp) := state_delta_add_or_sum hp state (transaction_address tx) (transaction_value tx) in
      if negb (bool_decide (ret = RC_OK)) then (ret, state, hp) else sum_bundle hp state bundle
  end.

(** The pack is read whether or not a transaction was loaded. *)
Definition get_latest_delta_do_func (stack : validate_stack) (mem : iota_transaction_t) : tangle_traversal_functor DB get_latest_delta_params :=
  fun db hp hash pack params _ _ =>
  let tx := single_tx pack mem in
  let latest := latest_snapshot_index params in
  let failed ret db hp state := Some (mk_result ret db hp (mk_params false latest state) true true) in
  if (transaction_snapshot_index tx =? 0) || (latest <? transaction_snapshot_index tx) then
    if transaction_current_index tx =? 0 then
      match iota_consensus_bundle_validator_validate stack mem db hash [] with
      | None => None
      | Some (ret, db, bundle, bundle_status) =>
          if negb (bool_decide (ret = RC_OK)) then failed ret db hp (delta_state params) else
          if negb (bool_decide (bundle_status = BUNDLE_VALID)) || (length bundle =? 0)%nat
          then failed RC_OK db hp (delta_state params) else
          let '(ret, state, hp) := sum_bundle hp (delta_state params) bundle in
          if negb (bool_decide (ret = RC_OK)) then failed ret db hp state
          else Some (mk_result RC_OK db hp (mk_params (valid_delta params) latest state) true false)
      end
    else Some (mk_result RC_OK db hp params true false)
  else Some (mk_result RC_OK db hp params false false).

(** The ledger validator with the part of the milestone tracker it uses. *)
Record ledger_validator_t := mk_lv {
  genesis_hash : hash_t;
  snapshots_provider : snapshots_provider_t;
  latest_solid_milestone_index : Z;
  latest_solid_milestone : hash_t
}.

Definition lv_latest (lv : ledger_validator_t) : snapshot_t := latest_snapshot (snapshots_provider lv).

Definition put_latest (s : snapshot_t) (lv : ledger_validator_t) : ledger_validator_t :=
  mk_lv (genesis_hash lv) (mk_provider (initial_snapshot (snapshots_provider lv)) s) (latest_solid_milestone_index lv)
    (latest_solid_milestone lv).

(** What a run on the stack is given: the fuel of the traversals, the buffers of the
    bundle validation, and an uninitialised transaction. *)
Record run_env := mk_env { env_fuel : nat; env_stack : validate_stack; env_tx : iota_transaction_t }.

(** The code, database, allocations, analyzed hashes, state and [*valid_delta]. *)
Definition get_latest_delta (env : run_env) (lv : ledger_validator_t) db hp (analyzed_hashes : hash243_set) (state : state_delta_t)
    (tip : hash_t) (latest_index : Z) : option (retcode_t * DB * heap * hash243_set * state_delta_t * bool) :=
  let '(analyzed_hashes, hp) := iota_snapshot_solid_entry_points_set hp (initial_snapshot (snapshots_provider lv)) analyzed_hashes in
  match tangle_traversal_dfs_to_past (env_fuel env) (env_tx env) db hp (get_latest_delta_do_func (env_stack env) (env_tx env)) tip
          (genesis_hash lv) analyzed_hashes (mk_params true latest_index state) with
  | None => None
  | Some r => Some (t_ret r, t_db r, t_heap r, t_analyzed r, delta_state (t_data r), valid_delta (t_data r))
  end.

(** ** Milestones *)

Definition update_snapshot_milestone_do_func (mem : iota_transaction_t) : tangle_traversal_functor DB hash243_set :=
  fun db hp hash pack hashes _ stop =>
  if (num_loaded pack =? 0)%nat then Some (mk_result RC_LEDGER_VALIDATOR_COULD_NOT_LOAD_MILESTONE db hp hashes true true) else
  let transaction := single_tx pack mem in
  if transaction_snapshot_index transaction =? 0 then
    let '(ret, hashes, hp) := hash243_set_add hp hashes hash in
    if negb (bool_decide (ret = RC_OK)) then Some (mk_result ret db hp hashes true true)
    else Some (mk_result RC_OK db hp hashes true stop)
  else Some (mk_result RC_OK db hp hashes false stop).

Definition update_snapshot_milestone (env : run_env) (lv : ledger_validator_t) db hp hash (index : Z)
    : option (retcode_t * DB * heap) :=
  let '(analyzed_hashes, hp) := iota_snapshot_solid_entry_points_set hp (initial_snapshot (snapshots_provider lv)) [] in
  match tangle_traversal_dfs_to_past (env_fuel env) (env_tx env) db hp (update_snapshot_milestone_do_func (env_tx env)) hash
          (genesis_hash lv) analyzed_hashes [] with
  | None => None
  | Some r =>
      if negb (bool_decide (t_ret r = RC_OK)) then Some (t_ret r, t_db r, t_heap r) else
      let '(ret, db) := iota_tangle_transactions_update_snapshot_index (t_db r) (t_data r) index in
      Some (ret, db, t_heap r)
  end.

(** The loop over the milestones; the result carries the ledger validator, whose
    tracker is told the last consistent milestone. *)
Fixpoint build_snapshot_loop (fuel : nat) db hp (lv : ledger_validator_t) (pack : iota_stor_pack_t iota_milestone_t)
    (mem : iota_milestone_t) : option (retcode_t * ledger_validator_t * heap) :=
  match fuel with
  | O => None
  | S fuel =>
      if (num_loaded pack =? 0)%nat then Some (RC_OK, lv, hp) else
      let milestone := nth 0 (models pack) mem in
      let '(ret, delta, hp) := iota_tangle_state_delta_load hp db (ms_index milestone) [] in
      if negb (bool_decide (ret = RC_OK)) then Some (ret, lv, hp) else
      let '(ret, lv, hp) :=
        if negb (state_delta_empty delta) then
          let '(ret, patch, hp) := iota_snapshot_create_patch hp (lv_latest lv) delta [] in
          if negb (bool_decide (ret = RC_OK)) then (ret, lv, hp) else
          if (state_delta_is_consistent patch).1 then
            let '(ret, latest, hp) := iota_snapshot_apply_patch hp (lv_latest lv) delta (ms_index milestone) in
            let lv := put_latest latest lv in
            if negb (bool_decide (ret = RC_OK)) then (ret, lv, hp)
            else (RC_OK, mk_lv (genesis_hash lv) (snapshots_provider lv) (ms_index milestone) (ms_hash milestone), hp)
          else (RC_LEDGER_VALIDATOR_INCONSISTENT_DELTA, lv, hp)
        else (RC_OK, lv, hp) in
      if negb (bool_decide (ret = RC_OK)) then Some (ret, lv, hp) else
      let '(ret, pack) := iota_tangle_milestone_load_by_index db (u64 (ms_index milestone + 1)) (hash_pack_reset pack) in
      if negb (bool_decide (ret = RC_OK)) then Some (ret, lv, hp) else build_snapshot_loop fuel db hp lv pack mem
  end.

Definition build_snapshot (fuel : nat) (mem : iota_milestone_t) db hp (lv : ledger_validator_t)
    : option (retcode_t * ledger_validator_t * heap) :=
  let index := sm_index (sn_metadata (initial_snapshot (snapshots_provider lv))) in
  let '(ret, pack) := iota_tangle_milestone_load_by_index db (u64 (index + 1)) (DECLARE_PACK_SINGLE mem) in
  if negb (bool_decide (ret = RC_OK)) then Some (ret, lv, hp) else build_snapshot_loop fuel db hp lv pack mem.

Definition iota_consensus_ledger_validator_init := build_snapshot.

(** The code, ledger validator, database, allocations and [*has_snapshot]. *)
Definition iota_consensus_ledger_validator_update_snapshot (env : run_env) (lv : ledger_validator_t) db hp
    (milestone : iota_milestone_t) : option (retcode_t * ledger_validator_t * DB * heap * bool) :=
  let '(ret, pack) := iota_tangle_transaction_load_partial db (ms_hash milestone) (DECLARE_PACK_SINGLE (env_tx env)) PARTIAL_TX_MODEL_METADATA in
  if negb (bool_decide (ret = RC_OK)) then Some (ret, lv, db, hp, false) else
  if (num_loaded pack =? 0)%nat then Some (RC_LEDGER_VALIDATOR_INVALID_TRANSACTION, lv, db, hp, false) else
  let tx := single_tx pack (env_tx env) in
  if negb (transaction_solid tx) then Some (RC_LEDGER_VALIDATOR_TRANSACTION_NOT_SOLID, lv, db, hp, false) else
  if negb (transaction_snapshot_index tx =? 0) then Some (RC_OK, lv, db, hp, true) else
  match get_latest_delta env lv db hp [] [] (ms_hash milestone) (iota_snapshot_get_index (lv_latest lv)) with
  | None => None
  | Some (ret, db, hp, _, delta, valid) =>
      if negb (bool_decide (ret = RC_OK)) then Some (ret, lv, db, hp, false) else
      if negb valid then Some (RC_OK, lv, db, hp, false) else
      let '(ret, patch, hp) := iota_snapshot_create_patch hp (lv_latest lv) delta [] in
      if negb (bool_decide (ret = RC_OK)) then Some (ret, lv, db, hp, false) else
      if (state_delta_is_consistent patch).1 then
        match update_snapshot_milestone env lv db hp (ms_hash milestone) (ms_index milestone) with
        | None => None
        | Some (ret, db, hp) =>
            if negb (bool_decide (ret = RC_OK)) then Some (ret, lv, db, hp, true) else
            let '(ret, db, hp) :=
              if negb (state_delta_empty delta) then iota_tangle_state_delta_store hp db (ms_index milestone) delta
              else (RC_OK, db, hp) in
            if negb (bool_decide (ret = RC_OK)) then Some (ret, lv, db, hp, true) else
            let '(ret, latest, hp) := iota_snapshot_apply_patch hp (lv_latest lv) delta (ms_index milestone) in
            Some (ret, put_latest latest lv, db, hp, true)
        end
      else Some (RC_OK, lv, db, hp, false)
  end.

(** ** Tips *)

(** The code, database, allocations, analyzed hashes, delta and [*is_consistent].
    Whether a transaction was loaded is not asked. *)
Definition iota_consensus_ledger_validator_update_delta (env : run_env) (lv : ledger_validator_t) db hp
    (analyzed_hashes : hash243_set) (delta : state_delta_t) (tip : hash_t)
    : option (retcode_t * DB * heap * hash243_set * state_delta_t * bool) :=
  let '(ret, pack) := iota_tangle_transaction_load_partial db tip (DECLARE_PACK_SINGLE (env_tx env)) PARTIAL_TX_MODEL_METADATA in
  if negb (bool_decide (ret = RC_OK)) then Some (ret, db, hp, analyzed_hashes, delta, false) else
  if negb (transaction_solid (single_tx pack (env_tx env)))
  then Some (RC_LEDGER_VALIDATOR_TRANSACTION_NOT_SOLID, db, hp, analyzed_hashes, delta, false) else
  if hash243_set_contains analyzed_hashes tip then Some (RC_OK, db, hp, analyzed_hashes, delta, true) else
  let '(ret, visited_hashes, hp) := hash243_set_append hp analyzed_hashes [] in
  if negb (bool_decide (ret = RC_OK)) then Some (ret, db, hp, analyzed_hashes, delta, false) else
  match get_latest_delta env lv db hp visited_hashes [] tip (iota_snapshot_get_index (lv_latest lv)) with
  | None => None
  | Some (ret, db, hp, visited_hashes, tip_state, valid) =>
      if negb (bool_decide (ret = RC_OK)) then Some (ret, db, hp, analyzed_hashes, delta, false) else
      if negb valid then Some (RC_OK, db, hp, analyzed_hashes, delta, false) else
      let '(ret, tip_state, hp) := state_delta_apply_patch hp tip_state delta in
      if negb (bool_decide (ret = RC_OK)) then Some (ret, db, hp, analyzed_hashes, delta, false) else
      let '(ret, patch, hp) := iota_snapshot_create_patch hp (lv_latest lv) tip_state [] in
      if negb (bool_decide (ret = RC_OK)) then Some (ret, db, hp, analyzed_hashes, delta, false) else
      if (state_delta_is_consistent patch).1 then
        let '(ret, delta, hp) := state_delta_merge_patch hp delta tip_state in
        if negb (bool_decide (ret = RC_OK)) then Some (ret, db, hp, analyzed_hashes, delta, false) else
        let '(ret, analyzed_hashes, hp) := hash243_set_append hp visited_hashes analyzed_hashes in
        if negb (bool_decide (ret = RC_OK)) then Some (ret, db, hp, analyzed_hashes, delta, false)
        else Some (RC_OK, db, hp, analyzed_hashes, delta, true)
      else Some (RC_OK, db, hp, analyzed_hashes, delta, false)
  end.

(** [LL_FOREACH] over the hashes. *)
Fixpoint check_loop (env : run_env) (lv : ledger_validator_t) db hp (analyzed_hashes : hash243_set) (delta : state_delta_t)
    (hashes : hash243_stack) : option (retcode_t * DB * heap * bool) :=
  match hashes with
  | [] => Some (RC_OK, db, hp, true)
  | hash :: hashes =>
      match iota_consensus_ledger_validator_update_delta env lv db hp analyzed_hashes delta hash with
      | None => None
      | Some (ret, db, hp, analyzed_hashes, delta, is_consistent) =>
          if negb (bool_decide (ret = RC_OK)) then Some (ret, db, hp, false) else
          if negb is_consistent then Some (RC_OK, db, hp, false) else check_loop env lv db hp analyzed_hashes delta hashes
      end
  end.

Definition iota_consensus_ledger_validator_check_consistency (env : run_env) (lv : ledger_validator_t) db hp
    (hashes : hash243_stack) : option (retcode_t * DB * heap * bool) := check_loop env lv db hp [] [] hashes.
End Ledger.

(** * Lemmas *)

(** ** The values that a traversal adds up *)

Section Values.
Context {DB : Type} {SQ : Sqlite DB} {St : Type} {Sp : Sponge St} {SI : SpongeInit St}.
Implicit Types (db : DB) (hp : heap) (hash : hash_t).

Definition values_ok (bundle : bundle_transactions_t) : Prop := Forall (fun tx => is_int64 (transaction_value tx)) bundle.

Lemma column_int64_range row i : is_int64 (column_int64 row i).
Proof. unfold column_int64. destruct (row !! i) as [[z| |]|]; try done. apply i64_range. Qed.

Lemma load_gen_single {A} rows (mem : A) max populate :
  exists x n ins, execute_statement_load_gen rows (DECLARE_PACK_SINGLE mem) max populate = mk_pack [x] 1 n ins /\
    (n <> 0%nat -> exists row, x = populate row mem).
Proof.
  destruct rows as [|row rows]; cbn; [exists mem, 0%nat, false; by split|].
  destruct max as [|max]; cbn; [exists mem, 0%nat, false; by split|].
  destruct rows as [|row' rows]; cbn; [exists (populate row mem), 1%nat, false|exists (populate row mem), 1%nat, true]; eauto.
Qed.

(** A transaction that was loaded has a 64-bit value, whatever the database holds. *)
Lemma load_value db hash mem :
  exists ret x n ins, iota_tangle_transaction_load db TRANSACTION_FIELD_HASH hash (DECLARE_PACK_SINGLE mem) = (ret, mk_pack [x] 1 n ins) /\
    (n <> 0%nat -> is_int64 (transaction_value x)).
Proof.
  unfold iota_tangle_transaction_load, storage_transaction_load, bind_load.
  destruct (bind_all _ _ _); cbn [negb]; [|exists RC_STORAGE_FAILED_BINDING, mem, 0%nat, false; by split].
  cbn [capacity DECLARE_PACK_SINGLE]. unfold load_gen. cbn [models capacity num_loaded].
  destruct (load_gen_single (sqlite3_rows db transaction_select_by_hash [column_compress hash 243]).1 mem 1
    (populate_transaction MODEL_TRANSACTION)) as (x & n & ins & E & Hx).
  exists RC_OK, x, n, ins. split; [by rewrite <- E|]. intros Hn. destruct (Hx Hn) as [row ->].
  exact (column_int64_range row 1).
Qed.

Lemma bundle_load_values db hash mem bundle ret bundle' : values_ok bundle ->
  iota_tangle_bundle_load db hash mem bundle = Some (ret, bundle') -> values_ok bundle'.
Proof.
  assert (forall fuel last_index curr_index x n ins bundle ret bundle', (n <> 0%nat -> is_int64 (transaction_value x)) -> values_ok bundle ->
    bundle_load_loop fuel db last_index curr_index (mk_pack [x] 1 n ins) mem bundle = Some (ret, bundle') -> values_ok bundle') as Hloop.
  { induction fuel as [|fuel IH]; intros last_index curr_index x n ins b r b' Hx Hb E; [done|]. cbn [bundle_load_loop] in E.
    destruct (negb (num_loaded _ =? 0)%nat) eqn:En; cbn [andb] in E; [|by injection E as <- <-].
    apply negb_true_iff, Nat.eqb_neq in En. cbn in En.
    destruct (_ && _); [|by injection E as <- <-].
    assert (values_ok (bundle_transactions_add b (single_tx (mk_pack [x] 1 n ins) mem))) as Hb'.
    { apply Forall_app. split; [done|]. apply Forall_cons_iff. split; [by apply Hx|constructor]. }
    change (hash_pack_reset _) with (DECLARE_PACK_SINGLE x) in E.
    destruct (load_value db (transaction_trunk (single_tx (mk_pack [x] 1 n ins) mem)) x) as (r1 & x1 & n1 & i1 & E1 & H1).
    rewrite E1 in E. destruct (negb _); [by injection E as <- <-|]. by eapply IH in E. }
  intros Hb E. unfold iota_tangle_bundle_load in E. destruct (load_value db hash mem) as (r1 & x1 & n1 & i1 & E1 & H1).
  rewrite E1 in E. destruct (negb _); [by injection E as <- <-|]. destruct (num_loaded _ =? 0)%nat; [by injection E as <- <-|].
  destruct (negb _); [by injection E as <- <-|]. by eapply Hloop in E.
Qed.

Lemma validate_values stack mem db hash ret db' bundle status :
  iota_consensus_bundle_validator_validate stack mem db hash [] = Some (ret, db', bundle, status) -> values_ok bundle.
Proof.
  intros E. unfold iota_consensus_bundle_validator_validate in E.
  destruct (iota_tangle_bundle_load db hash mem []) as [[res b]|] eqn:El; [|done].
  apply bundle_load_values in El; [|constructor]. repeat (case_match; simplify_eq/=); done.
Qed.

(** ** Deltas *)

Definition delta_ok (state : state_delta_t) : Prop := unique state /\ Forall is_int64 state.*2.

Lemma delta_ok_nil : delta_ok [].
Proof. split; constructor. Qed.

Lemma sum_bundle_ok bundle : forall hp state ret state' hp', values_ok bundle -> delta_ok state ->
  sum_bundle hp state bundle = (ret, state', hp') -> delta_ok state'.
Proof.
  induction bundle as [|tx bundle IH]; intros hp state ret state' hp' Hv [Hu Hb] E; cbn [sum_bundle] in E; [by injection E as <- <- <-|].
  apply Forall_cons_iff in Hv as [Hx Hv]. destruct (state_delta_add_or_sum _ _ _ _) as [[r s] h] eqn:E1.
  apply add_or_sum_spec in E1 as (Hu1 & Hb1 & _); [|done..]. destruct (negb _); [by injection E as <- <- <-|].
  by eapply IH in E.
Qed.

Lemma get_latest_delta_ok env lv db hp analyzed state tip latest r : delta_ok state ->
  get_latest_delta env lv db hp analyzed state tip latest = Some r -> delta_ok r.1.2.
Proof.
  intros Hs E. unfold get_latest_delta in E. destruct (iota_snapshot_solid_entry_points_set _ _ _) as [an hp1].
  destruct (tangle_traversal_dfs_to_past _ _ _ _ _ _ _ _ _) as [t|] eqn:Et; [|done]. injection E as <-. cbn [fst snd].
  eapply (dfs_to_past_keeps _ (fun p => delta_ok (delta_state p))) in Et; [done| |done]. clear.
  intros db hp hash pack data branch stop r Hd E. unfold get_latest_delta_do_func in E.
  destruct (_ || _); [|by injection E as <-]. destruct (transaction_current_index _ =? 0); [|by injection E as <-].
  destruct (iota_consensus_bundle_validator_validate _ _ _ _ _) as [[[[ret db1] bundle] status]|] eqn:Ev; [|done].
  apply validate_values in Ev. destruct (negb (bool_decide (ret = RC_OK))); [by injection E as <-|].
  destruct (_ || _); [by injection E as <-|]. destruct (sum_bundle _ _ _) as [[r1 s1] h1] eqn:Es.
  apply sum_bundle_ok in Es; [|done..]. destruct (negb _); by injection E as <-.
Qed.
End Values.

(** ** Milestones and the ledger *)

Section LedgerTheorems.
Context {DB : Type} {SQ : Sqlite DB} {St : Type} {Sp : Sponge St} {SI : SpongeInit St}.
Implicit Types (db : DB) (hp : heap) (hash : hash_t).

Definition lv_state (lv : ledger_validator_t) : state_delta_t := sn_state (lv_latest lv).
Definition lv_index (lv : ledger_validator_t) : Z := iota_snapshot_get_index (lv_latest lv).

Lemma put_latest_same lv : put_latest (lv_latest lv) lv = lv.
Proof. by destruct lv as [g [i l] x y]. Qed.

(** The consistency check on a fresh patch. *)
Lemma consistent_patched hp (s : snapshot_t) delta ret patch hp' : unique delta ->
  iota_snapshot_create_patch hp s delta [] = (ret, patch, hp') -> ret = RC_OK -> (state_delta_is_consistent patch).1 = true ->
  Forall (fun v => 0 <= v) (patched (sn_state s) delta).*2.
Proof.
  intros Hu E -> Hc. apply create_patch_spec in E; [|done]. destruct E as [[_ ->]|E]; [|done].
  pose proof (is_consistent_spec (patched (sn_state s) delta)) as H. destruct (state_delta_is_consistent _) as [b rest]. cbn in Hc.
  by apply H.
Qed.

(** What applying a consistent delta does to the latest snapshot. *)
Lemma apply_consistent hp (s : snapshot_t) delta index ret s' hp' : ledger_ok (sn_state s) -> delta_ok delta ->
  Forall (fun v => 0 <= v) (patched (sn_state s) delta).*2 -> Z.abs (total delta) < 2 ^ 64 ->
  iota_snapshot_apply_patch hp s delta index = (ret, s', hp') -> ret <> RC_OOM ->
  ledger_ok (sn_state s') /\
  (s' = s /\ ret = RC_SNAPSHOT_INCONSISTENT_PATCH \/
   ret = RC_OK /\ (forall k, balance (sn_state s') k = balance (sn_state s) k + balance delta k) /\
   iota_snapshot_get_index s' = index).
Proof.
  intros Hl [Hu Hb] Hp Ht E Hr. unfold iota_snapshot_apply_patch in E. destruct (Z.eqb_spec (state_delta_sum delta) 0) as [H0|]; cbn [negb] in E.
  2: { injection E as <- <- <-. auto. }
  unfold iota_snapshot_apply_patch_no_lock in E. cbn [put_snapshot_metadata sn_state] in E.
  destruct (state_delta_apply_patch _ _ _) as [[r state] hp1] eqn:Ea. injection E as <- <- <-.
  pose proof (apply_patch_spec _ _ _ _ _ _ (lo_unique _ Hl) (proj1 (balance_range _ Hl)) Hu Hb Ea) as (_ & _ & [->|Hr'] & _); [|done].
  destruct (ledger_step _ _ _ _ _ Hl Hu Hb Hp H0 Ht Ea) as [H1 H2]. cbn. auto.
Qed.

(** What a milestone does to the latest snapshot. *)
Lemma update_snapshot_ledger env lv db hp milestone ret lv' db' hp' has :
  ledger_ok (lv_state lv) ->
  (forall db1 hp1 an delta,
    get_latest_delta env lv db hp [] [] (ms_hash milestone) (lv_index lv) = Some (RC_OK, db1, hp1, an, delta, true) ->
    Z.abs (total delta) < 2 ^ 64) ->
  iota_consensus_ledger_validator_update_snapshot env lv db hp milestone = Some (ret, lv', db', hp', has) -> ret <> RC_OOM ->
  ledger_ok (lv_state lv') /\
  (lv' = lv \/
   exists db1 hp1 an delta,
     get_latest_delta env lv db hp [] [] (ms_hash milestone) (lv_index lv) = Some (RC_OK, db1, hp1, an, delta, true) /\
     ret = RC_OK /\ has = true /\ lv_index lv' = ms_index milestone /\
     (forall k, balance (lv_state lv') k = balance (lv_state lv) k + balance delta k)).
Proof.
  intros Hl Ht E Hr. unfold iota_consensus_ledger_validator_update_snapshot in E.
  destruct (iota_tangle_transaction_load_partial _ _ _ _) as [r0 pack]. destruct (negb _); [by simplify_eq; auto|].
  destruct (num_loaded pack =? 0)%nat; [by simplify_eq; auto|]. destruct (negb _); [by simplify_eq; auto|].
  destruct (negb _); [by simplify_eq; auto|]. fold (lv_index lv) in E.
  destruct (get_latest_delta _ _ _ _ _ _ _ _) as [[[[[[r1 db1] hp1] an] delta] valid]|] eqn:Eg; [|done].
  pose proof (get_latest_delta_ok _ _ _ _ _ _ _ _ _ delta_ok_nil Eg) as Hd. cbn [fst snd] in Hd.
  destruct (bool_decide_reflect (r1 = RC_OK)) as [->|]; cbn [negb] in E; [|by simplify_eq; auto].
  destruct valid; cbn [negb] in E; [|by simplify_eq; auto].
  destruct (iota_snapshot_create_patch _ _ _ _) as [[r2 patch] hp2] eqn:Ec.
  destruct (bool_decide_reflect (r2 = RC_OK)) as [->|]; cbn [negb] in E; [|by simplify_eq; auto].
  destruct (state_delta_is_consistent patch).1 eqn:Eb; [|by simplify_eq; auto].
  destruct (update_snapshot_milestone _ _ _ _ _ _) as [[[r3 db3] hp3]|]; [|done].
  destruct (negb _); [by simplify_eq; auto|].
  destruct (if negb (state_delta_empty delta) then _ else _) as [[r4 db4] hp4]. destruct (negb _); [by simplify_eq; auto|].
  destruct (iota_snapshot_apply_patch _ _ _ _) as [[r5 s5] hp5] eqn:Ea. apply Some_inj in E. simplify_eq.
  destruct (apply_consistent _ _ _ _ _ _ _ Hl Hd (consistent_patched _ _ _ _ _ _ (proj1 Hd) Ec eq_refl Eb) (Ht _ _ _ _ eq_refl) Ea Hr)
    as [H1 [[-> _]|(-> & H2 & H3)]]; (split; [exact H1|]).
  - left. apply put_latest_same.
  - right. exists db1, hp1, an, delta. by split_and!.
Qed.

Lemma update_snapshot_solid env lv db hp milestone ret lv' db' hp' has :
  iota_consensus_ledger_validator_update_snapshot env lv db hp milestone = Some (ret, lv', db', hp', has) ->
  latest_solid_milestone_index lv' = latest_solid_milestone_index lv.
Proof.
  intros E. unfold iota_consensus_ledger_validator_update_snapshot in E.
  destruct (iota_tangle_transaction_load_partial _ _ _ _) as [r0 pack]. destruct (negb _); [by simplify_eq|].
  destruct (num_loaded pack =? 0)%nat; [by simplify_eq|]. do 2 (destruct (negb _); [by simplify_eq|]).
  destruct (get_latest_delta _ _ _ _ _ _ _ _) as [[[[[[r1 db1] hp1] an] delta] valid]|]; [|done].
  do 2 (destruct (negb _); [by simplify_eq|]). destruct (iota_snapshot_create_patch _ _ _ _) as [[r2 patch] hp2].
  destruct (negb _); [by simplify_eq|]. destruct (state_delta_is_consistent patch).1; [|by simplify_eq].
  destruct (update_snapshot_milestone _ _ _ _ _ _) as [[[r3 db3] hp3]|]; [|done]. destruct (negb _); [by simplify_eq|].
  destruct (if negb (state_delta_empty delta) then _ else _) as [[r4 db4] hp4]. destruct (negb _); [by simplify_eq|].
  destruct (iota_snapshot_apply_patch _ _ _ _) as [[r5 s5] hp5]. by simplify_eq.
Qed.

End LedgerTheorems.

(** ** Tips *)

Section Tips.
Context {DB : Type} {SQ : Sqlite DB} {St : Type} {Sp : Sponge St} {SI : SpongeInit St}.
Implicit Types (db : DB) (hp : heap) (hash : hash_t).

(** C13: what accepting a new tip means.  The balances that the tip moves on top of the
    accepted ones leave no address of theirs negative in the latest snapshot, and the
    accepted balances become: for an address that this sum has an entry for, the sum;
    for every other address, what they were. *)
Theorem update_delta_accepts env lv db hp analyzed delta tip db' hp' analyzed' delta' : delta_ok delta ->
  tip ∉ analyzed ->
  iota_consensus_ledger_validator_update_delta env lv db hp analyzed delta tip = Some (RC_OK, db', hp', analyzed', delta', true) ->
  exists hp0 visited db1 hp1 an moved sum,
    get_latest_delta env lv db hp0 visited [] tip (lv_index lv) = Some (RC_OK, db1, hp1, an, moved, true) /\
    (forall k, balance sum k = i64 (balance moved k + balance delta k)) /\
    Forall (fun v => 0 <= v) (patched (lv_state lv) sum).*2 /\
    (forall k, balance delta' k = merged delta sum k).
Proof.
  intros [Hu Hb] Hn E. unfold iota_consensus_ledger_validator_update_delta in E.
  destruct (iota_tangle_transaction_load_partial _ _ _ _) as [r0 pack]. destruct (negb _); [by simplify_eq|].
  destruct (negb _); [by simplify_eq|]. unfold hash243_set_contains in E. rewrite bool_decide_eq_false_2 in E by done.
  destruct (hash243_set_append _ _ _) as [[r1 visited] hp1]. destruct (negb _) in E; [by simplify_eq|]. fold (lv_index lv) in E.
  destruct (get_latest_delta _ _ _ _ _ _ _ _) as [[[[[[r2 db2] hp2] an] moved] valid]|] eqn:Eg; [|done].
  pose proof (get_latest_delta_ok _ _ _ _ _ _ _ _ _ delta_ok_nil Eg) as [Hum Hbm]. cbn [fst snd] in Hum, Hbm.
  destruct (bool_decide_reflect (r2 = RC_OK)) as [->|]; cbn [negb] in E; [|by simplify_eq].
  destruct valid; cbn [negb] in E; [|by simplify_eq].
  destruct (state_delta_apply_patch _ _ _) as [[r3 sum] hp3] eqn:Ea.
  destruct (bool_decide_reflect (r3 = RC_OK)) as [->|]; cbn [negb] in E; [|by simplify_eq].
  apply apply_patch_spec in Ea as (Hus & Hbs & _ & H); [|done..]. destruct (H eq_refl) as [Hsum _].
  destruct (iota_snapshot_create_patch _ _ _ _) as [[r4 patch] hp4] eqn:Ec.
  destruct (bool_decide_reflect (r4 = RC_OK)) as [->|]; cbn [negb] in E; [|by simplify_eq].
  destruct (state_delta_is_consistent patch).1 eqn:Ei; [|by simplify_eq].
  destruct (state_delta_merge_patch _ _ _) as [[r5 delta5] hp5] eqn:Em.
  destruct (bool_decide_reflect (r5 = RC_OK)) as [->|]; cbn [negb] in E; [|by simplify_eq].
  destruct (hash243_set_append _ _ _) as [[r6 an6] hp6]. destruct (negb _); [by simplify_eq|]. apply Some_inj in E. simplify_eq.
  exists hp1, visited, db', hp2, an, moved, sum. split_and!; [done|done| |].
  - exact (consistent_patched _ _ _ _ _ _ Hus Ec eq_refl Ei).
  - by apply merge_patch_spec in Em as [_ Hm].
Qed.
End Tips.

(** ** Three tips *)

Module Sample.
Definition numbered (n : Z) : hash_t := replicate 240 1 ++ [n mod 3 - 1; n / 3 mod 3 - 1; n / 9 mod 3 - 1].

Definition genesis : hash_t := numbered 0.
Definition address_a : hash_t := numbered 1.
Definition address_b : hash_t := numbered 2.
Definition address_c : hash_t := numbered 3.
Definition address_d : hash_t := numbered 4.

Definition part (hash trunk : hash_t) (index : Z) (address : hash_t) (value : Z) : iota_transaction_t :=
  mk_tx (mk_essence address value (replicate 81 0) 1546300800 index 1 (numbered 20))
    (mk_attachment trunk genesis 1546300801 0 3812798742493 (replicate 81 1) (replicate 81 0))
    (mk_consensus hash) (mk_data (replicate NUM_TRITS_SIGNATURE 0)) (mk_metadata 0 true (status_value BUNDLE_VALID) 7)
    (mk_mask 0 0 0 0 0).

(** A bundle that moves ten from one address to another, already found valid. *)
Definition transfer (n : Z) (from to : hash_t) : list iota_transaction_t :=
  [part (numbered n) (numbered (n + 1)) 0 to 10; part (numbered (n + 1)) genesis 1 from (-10)].

(** [a] pays [b]; [b] pays [c]; [b] pays [d] as well. *)
Definition transfers : list iota_transaction_t :=
  transfer 10 address_a address_b ++ transfer 12 address_b address_c ++ transfer 14 address_b address_d.

Definition db : memory_db := mk_memory_db (mk_tables (map row_of transfers) [] []) None.

Definition ledger : state_delta_t := [(address_a, 10); (numbered 21, 2779530283277751)].

Definition snapshot : snapshot_t := mk_snapshot sample_conf ledger (mk_snapshot_metadata genesis 5 1556000000 []).

Definition lv : ledger_validator_t := mk_lv genesis (mk_provider snapshot snapshot) 5 genesis.

Definition env : run_env := mk_env 20 Bundle.Sample.stack sample_tx.

Lemma ledger_holds : ledger_ok (lv_state lv).
Proof. split; [apply (bool_decide_unpack _); vm_compute; exact I|closed_decide|vm_compute; reflexivity]. Qed.
End Sample.


(** The first tip on its own. *)
Lemma update_delta_accepts_witness :
  let tip := Sample.numbered 10 in
  exists db' hp' analyzed' delta',
    iota_consensus_ledger_validator_update_delta (Sp := Iss.ToySponge.sponge) Sample.env Sample.lv Sample.db [] [] [] tip =
      Some (RC_OK, db', hp', analyzed', delta', true) /\
    exists sum, Forall (fun v => 0 <= v) (patched (lv_state Sample.lv) sum).*2 /\ forall k, balance delta' k = merged [] sum k.
Proof.
  intros tip.
  assert (exists db' hp' analyzed' delta',
    iota_consensus_ledger_validator_update_delta (Sp := Iss.ToySponge.sponge) Sample.env Sample.lv Sample.db [] [] [] tip =
      Some (RC_OK, db', hp', analyzed', delta', true)) as (db' & hp' & analyzed' & delta' & E).
  { do 4 eexists. vm_compute. reflexivity. }
  exists db', hp', analyzed', delta'. split; [exact E|].
  destruct (update_delta_accepts _ _ _ _ _ _ _ _ _ _ _ delta_ok_nil (not_elem_of_nil tip) E)
    as (_ & _ & _ & _ & _ & _ & sum & _ & _ & H1 & H2). exists sum. by split.
Defined.

(** The first transfer as a milestone. *)
Definition sample_milestone : iota_milestone_t := mk_milestone 6 (Sample.numbered 10).
Definition unconfirmed_db : memory_db := mk_memory_db (mk_tables (map row_of (Sample.transfer 10 Sample.address_a Sample.address_b)) [] []) None.

Lemma sample_delta :
  match get_latest_delta (Sp := Iss.ToySponge.sponge) Sample.env Sample.lv unconfirmed_db [] [] [] (ms_hash sample_milestone) (lv_index Sample.lv) with
  | Some (_, _, _, _, delta, _) => Z.abs (total delta) < 2 ^ 64
  | None => False
  end.
Proof. vm_compute. reflexivity. Qed.

