(* ===== verification/SpentAddresses.v ===== *)
(** * Spent addresses

    [ciri/consensus/spent_addresses]: the database of the addresses that were spent from,
    its import from text files, and the decision whether an address was spent from. *)
From S2P Require Import Prelude Errors Trits TritLong FlexTrit Sponge Sign Transaction Bundle Containers StateDelta Snapshot Statements Sqlite Tangle Ledger.

(** ** The provider

    The database of spent addresses is one of its own. *)
Section Provider.
Context {SDB : Type} {SQS : Sqlite SDB}.
Implicit Types (sap : SDB).

Definition iota_spent_addresses_provider_store sap (address : hash_t) := storage_spent_address_store sap address.
Definition iota_spent_addresses_provider_batch_store sap (addresses : hash243_set) := storage_spent_addresses_store sap addresses.
Definition iota_spent_addresses_provider_exist sap (address : hash_t) (exist : bool) := storage_spent_address_exist sap address exist.

(** [getline]: the bytes up to the end of the line, with the newline when there is one,
    and a zero; the buffer grows and keeps what it held.  The length that is read, the
    buffer and the rest of the file; [None] at the end of the file. *)
Definition getline (line fp : list Z) : option (nat * list Z * list Z) :=
  match fp with
  | [] => None
  | _ =>
      let text := take_while (fun c => negb (c =? 10)) fp in
      let rest := drop (length text) fp in
      let text := text ++ take 1 rest in
      Some (length text, text ++ [0] ++ drop (S (length text)) line, drop 1 rest)
  end.

Definition is_trytes (s : list Z) : bool := forallb (fun c => bool_decide (is_tryte c)) s.

(** The table of the trytes is indexed with every character of the line: [None] when one
    is no tryte, or was never written.  One turn for each byte at most. *)
Fixpoint import_loop (fuel : nat) sap (line fp : list Z) (address : hash_t) : option (retcode_t * SDB) :=
  match fuel with
  | O => None
  | S fuel =>
      match getline line fp with
      | None => Some (RC_OK, sap)
      | Some (rd, line, fp) =>
          let line := <[(rd - 1)%nat := 0]> line in
          if (length line <? NUM_TRYTES_ADDRESS)%nat || negb (is_trytes (take NUM_TRYTES_ADDRESS line)) then None else
          let address := (flex_trits_from_trytes address 243 line NUM_TRYTES_ADDRESS NUM_TRYTES_ADDRESS).2 in
          let '(ret, sap) := iota_spent_addresses_provider_store sap address in
          if negb (bool_decide (ret = RC_OK)) then Some (ret, sap) else import_loop fuel sap line fp address
      end
  end.

(** [mem] is the array that is not initialised. *)
Definition iota_spent_addresses_provider_import (fs : file_system) (mem : hash_t) sap (file : path) : option (retcode_t * SDB) :=
  match fs_files fs !! file with
  | None => Some (RC_UTILS_FAILED_TO_OPEN_FILE, sap)
  | Some content =>
      match fs_outcome fs file with
      | OpenFailed => Some (RC_UTILS_FAILED_TO_OPEN_FILE, sap)
      | ReadFailed => Some (RC_OK, sap)
      | _ => import_loop (S (length content)) sap [] content mem
      end
  end.

(** ** The files of the configuration *)

(** [strsep] with the delimiter [" "]: every field, the empty ones too. *)
Fixpoint strsep_all (s token : list Z) : list path :=
  match s with
  | [] => [token]
  | c :: s => if c =? 32 then token :: strsep_all s [] else strsep_all s (token ++ [c])
  end.

(** What an import returns is overwritten by what closing the connection returns. *)
Fixpoint import_files (fs : file_system) (mem : hash_t) sap (files : list path) : option SDB :=
  match files with
  | [] => Some sap
  | file :: files =>
      match iota_spent_addresses_provider_import fs mem sap file with
      | None => None
      | Some (_, sap) => import_files fs mem sap files
      end
  end.

(** [opened] and [closed]: the results of the connection. *)
Definition iota_spent_addresses_service_read_files (opened closed : retcode_t) (hp : heap) (fs : file_system) (mem : hash_t) sap
    (spent_addresses_files : option (list Z)) : option (retcode_t * SDB * heap) :=
  match spent_addresses_files with
  | None => Some (RC_OK, sap, hp)
  | Some files =>
      if negb (bool_decide (opened = RC_OK)) then Some (opened, sap, hp) else
      let '(ok, hp) := malloc hp in
      if negb ok then Some (closed, sap, hp) else
      match import_files fs mem sap (strsep_all files []) with
      | None => None
      | Some sap => Some (closed, sap, hp)
      end
  end.
End Provider.

(** ** The service *)

Record spent_addresses_conf := mk_spent_conf { sas_genesis_hash : hash_t; sas_coordinator_address : hash_t }.

(** Fuel of the loads, buffers that are not initialised, the stack of the validation. *)
Record spent_env := mk_spent_env {
  se_fuel : nat; se_hash : hash_t; se_tx : iota_transaction_t; se_stack : validate_stack
}.

Section Service.
Context {DB : Type} {SQ : Sqlite DB} {SDB : Type} {SQS : Sqlite SDB} {St : Type} {Sp : Sponge St} {SI : SpongeInit St}.
Implicit Types (env : spent_env) (db : DB) (sap : SDB) (hp : heap).

(** [*spent] is written on the way: it comes with its last value. *)
Definition iota_spent_addresses_service_was_tx_spent_from env db hp (tx : iota_transaction_t) (hash : hash_t) (spent : bool)
    : option (retcode_t * bool * DB * heap) :=
  if transaction_value tx <? 0 then
    if negb (transaction_snapshot_index tx =? 0) then Some (RC_OK, true, db, hp) else
    match iota_tangle_find_tail (se_fuel env) (se_hash env) (se_tx env) (se_tx env) hp db hash (se_hash env) with
    | None => None
    | Some (ret, tail, spent, hp) =>
        if negb (bool_decide (ret = RC_OK)) then Some (ret, spent, db, hp) else
        if spent then
          match iota_consensus_bundle_validator_validate (se_stack env) (se_tx env) db tail [] with
          | None => None
          | Some (ret, db, _, status) => Some (ret, bool_decide (status = BUNDLE_VALID), db, hp)
          end
        else Some (ret, spent, db, hp)
    end
  else Some (RC_OK, false, db, hp).

(** The pack of the transaction is declared before the loop and never reset. *)
Fixpoint spent_loop env db hp (pack : iota_stor_pack_t iota_transaction_t) (hashes : list hash_t) (spent : bool)
    : option (retcode_t * bool * DB * heap) :=
  match hashes with
  | [] => Some (RC_OK, spent, db, hp)
  | hash :: hashes =>
      let '(ret, pack) := iota_tangle_transaction_load_partial db hash pack PARTIAL_TX_MODEL_ESSENCE_METADATA in
      if negb (bool_decide (ret = RC_OK)) then Some (ret, spent, db, hp) else
      match iota_spent_addresses_service_was_tx_spent_from env db hp (single_tx pack (se_tx env)) hash spent with
      | None => None
      | Some (ret, spent, db, hp) =>
          if negb (bool_decide (ret = RC_OK)) then Some (ret, spent, db, hp) else
          if spent then Some (ret, spent, db, hp) else spent_loop env db hp pack hashes spent
      end
  end.

(** The result of [hash_pack_init] is not looked at: [None] when its buffers are missing. *)
Definition iota_spent_addresses_service_was_address_spent_from env (conf : spent_addresses_conf) sap db hp (address : hash_t)
    : option (retcode_t * bool * DB * heap) :=
  if memeq FLEX_TRIT_SIZE_243 address (sas_genesis_hash conf) || memeq FLEX_TRIT_SIZE_243 address (sas_coordinator_address conf)
  then Some (RC_OK, false, db, hp) else
  let '(ret, spent) := iota_spent_addresses_provider_exist sap address false in
  if negb (bool_decide (ret = RC_OK)) then Some (ret, spent, db, hp) else
  if spent then Some (RC_OK, true, db, hp) else
  let '(ret, pack, hp) := hash_pack_init hp 8 (se_hash env) in
  if negb (bool_decide (ret = RC_OK)) then None else
  match iota_tangle_transaction_load_hashes_by_address (se_fuel env) (se_hash env) hp db address pack with
  | None => None
  | Some (ret, pack, hp) =>
      if negb (bool_decide (ret = RC_OK)) then Some (ret, spent, db, hp)
      else spent_loop env db hp (DECLARE_PACK_SINGLE (se_tx env)) (take (num_loaded pack) (models pack)) spent
  end.
End Service.

(** * Lemmas *)

(** ** The database of spent addresses *)

Section ProviderLemmas.
Context {SDB : Type} {SQS : Sqlite SDB} {L : SqliteLaws SDB} {R : SqliteReliable SDB}.
Implicit Types (sap : SDB) (address : hash_t).

Lemma exists_blob (b : list Z) (l : list (list Z)) :
  match List.filter (fun h => sql_eq (SqlBlob h) (SqlBlob b)) l with [] => 0 | _ => 1 end = if bool_decide (b ∈ l) then 1 else 0.
Proof.
  assert (forall h, sql_eq (SqlBlob h) (SqlBlob b) = bool_decide (h = b)) as Heq.
  { intros h. unfold sql_eq. rewrite (bool_decide_eq_true_2 (SqlBlob h <> SqlNull)), andb_true_r by done.
    apply bool_decide_ext. split; [by intros [= ->]|by intros ->]. }
  rewrite (filter_ext _ _ Heq). clear Heq. induction l as [|h l IH]; [done|]. cbn [List.filter].
  destruct (bool_decide_reflect (h = b)) as [->|Hne].
  - symmetry. rewrite bool_decide_eq_true_2; [done|]. by left.
  - rewrite IH. rewrite (bool_decide_ext (b ∈ h :: l) (b ∈ l)); [done|]. rewrite list.elem_of_cons.
    split; [by intros [->|]|by right].
Qed.

Definition recorded sap address : Prop := strip_zeros (take 243 address) ∈ iota_spent_address_table (tables_of sap).

#[export] Instance recorded_dec sap address : Decision (recorded sap address).
Proof. unfold recorded. apply _. Defined.

Lemma provider_exist_iff sap address exist :
  iota_spent_addresses_provider_exist sap address exist = (RC_OK, bool_decide (recorded sap address)).
Proof.
  unfold iota_spent_addresses_provider_exist, storage_spent_address_exist. rewrite bind_succeeds. cbn [negb].
  unfold execute_statement_exist. pose proof (rows_reliable sap spent_address_exist [column_compress address 243]) as H.
  eapply selects_one in H; [|done|reflexivity]. destruct (sqlite3_rows _ _ _) as [rows e]. cbn in H. subst rows.
  change (value_at [?v] 0) with v. unfold column_compress. rewrite exists_blob. f_equal. unfold recorded.
  by destruct (bool_decide_reflect (strip_zeros (take 243 address) ∈ iota_spent_address_table (tables_of sap))) as [H|H];
    [rewrite bool_decide_eq_true_2|rewrite bool_decide_eq_false_2].
Qed.

Lemma spent_nil t : spent [] t t.
Proof.
  split_and!; [done|done|]. intros a. split; [by left|]. intros [H|(h & H & _)]; [done|]. by apply not_elem_of_nil in H.
Qed.

Lemma spent_app l1 l2 t t1 t2 : spent l1 t t1 -> spent l2 t1 t2 -> spent (l1 ++ l2) t t2.
Proof.
  intros (T1 & M1 & S1) (T2 & M2 & S2). split_and!; [by rewrite T2|by rewrite M2|]. intros a. rewrite S2, S1.
  setoid_rewrite list.elem_of_app. split.
  - intros [[H|(h & H & ->)]|(h & H & ->)]; eauto 6.
  - intros [H|(h & [H|H] & ->)]; eauto 6.
Qed.

Lemma provider_store_spent sap address sap' : iota_spent_addresses_provider_store sap address = (RC_OK, sap') ->
  spent [address] (tables_of sap) (tables_of sap').
Proof.
  intros E. unfold iota_spent_addresses_provider_store, storage_spent_address_store, bind_execute, execute_statement in E.
  rewrite bind_all_reliable in E. cbn [negb] in E. destruct (sqlite3_run _ _ _) as [[] db1] eqn:Er; [|done]. injection E as <-.
  apply run_law in Er as [Eu _]. destruct (update_each_spent [address] (tables_of sap)) as (t' & E & Hs).
  unfold update_each in E. cbn [foldl app mbind option_bind] in E. rewrite Eu in E. apply Some_inj in E as ->. exact Hs.
Qed.

Lemma spent_recorded l sap sap' address : spent l (tables_of sap) (tables_of sap') -> Forall (fun h => length h = 243%nat) l ->
  length address = 243%nat -> recorded sap' address <-> recorded sap address \/ address ∈ l.
Proof.
  intros (_ & _ & Hs) Hl Ha. unfold recorded. rewrite Hs. apply or_iff_compat_l. split; [|eauto].
  intros (h & Hin & E). rewrite Forall_forall in Hl. specialize (Hl _ Hin).
  rewrite (column_compress_inj address h 243 Ha Hl); [done|]. unfold column_compress. by rewrite E.
Qed.

(** ** Files of addresses *)

Definition address_line (address : hash_t) : list Z := trits_to_trytes address ++ [10].

Lemma getline_line text line rest : Forall (fun c => c <> 10) text ->
  getline line (text ++ 10 :: rest) = Some (S (length text), (text ++ [10]) ++ [0] ++ drop (S (S (length text))) line, rest).
Proof.
  intros Ht. unfold getline. destruct (text ++ 10 :: rest) as [|c s] eqn:Es; [by destruct text|]. rewrite <- Es. clear c s Es.
  rewrite (take_while_all _ text (10 :: rest)).
  - rewrite drop_app_length. cbn [take drop]. rewrite length_app. cbn [length]. by rewrite Nat.add_1_r.
  - eapply Forall_impl; [exact Ht|]. cbn. lia.
  - intros c [= <-]. done.
Qed.

Lemma trytes_no_newline s : trytes_ok s -> Forall (fun c => c <> 10) s.
Proof. intros H. eapply Forall_impl; [exact H|]. cbn. unfold is_tryte. lia. Qed.

Lemma is_trytes_ok s : trytes_ok s -> is_trytes s = true.
Proof. induction 1 as [|c s Hc _ IH]; [done|]. unfold is_trytes in *. cbn [forallb]. by rewrite bool_decide_eq_true_2, IH. Qed.

Lemma import_line address line rest fuel sap mem : trits_of NUM_TRITS_ADDRESS address -> length mem = 243%nat ->
  exists line', import_loop (S fuel) sap line (address_line address ++ rest) mem =
    (let '(ret, sap) := iota_spent_addresses_provider_store sap address in
     if negb (bool_decide (ret = RC_OK)) then Some (ret, sap) else import_loop fuel sap line' rest address).
Proof.
  intros Ha Hm. destruct (address_trytes address Ha) as (Hl & Hy & Ht). unfold address_line. rewrite <- app_assoc. cbn [app].
  cbn [import_loop]. rewrite getline_line by (by apply trytes_no_newline).
  rewrite Nat.sub_succ, Nat.sub_0_r, <- app_assoc. rewrite <- (Nat.add_0_r (length (trits_to_trytes address))).
  rewrite insert_app_r. cbn [app insert list_insert]. rewrite take_app_length' by done. rewrite is_trytes_ok by done.
  replace (length _ <? NUM_TRYTES_ADDRESS)%nat with false by (symmetry; apply Nat.ltb_ge; rewrite length_app, Hl; lia).
  cbn [orb negb]. eexists.
  replace (flex_trits_from_trytes mem 243 _ NUM_TRYTES_ADDRESS NUM_TRYTES_ADDRESS).2 with address; [reflexivity|].
  unfold flex_trits_from_trytes. rewrite Nat.ltb_irrefl. change (243 <? NUM_TRYTES_ADDRESS * 3)%nat with false. cbn [orb snd].
  rewrite take_app_length' by done. rewrite Ht. symmetry. destruct Ha as [Ha _]. by apply memset_write_all.
Qed.

Lemma import_lines addresses : hashes_ok addresses -> forall fuel sap line mem, length mem = 243%nat ->
  (length addresses < fuel)%nat ->
  exists ret sap', import_loop fuel sap line (concat (map address_line addresses)) mem = Some (ret, sap') /\
    (ret = RC_OK -> spent addresses (tables_of sap) (tables_of sap')).
Proof.
  induction 1 as [|a l Ha _ IH]; intros [|fuel] sap line mem Hm Hf; cbn [length] in Hf; try lia.
  { exists RC_OK, sap. split; [done|]. intros _. apply spent_nil. }
  cbn [map concat]. destruct (import_line a line (concat (map address_line l)) fuel sap mem Ha Hm) as [line' ->].
  destruct (iota_spent_addresses_provider_store sap a) as [ret sap1] eqn:Es.
  destruct (bool_decide_reflect (ret = RC_OK)) as [->|Hne]; cbn [negb].
  - destruct (IH fuel sap1 line' a) as (ret & sap' & E & Hs); [by destruct Ha|lia|]. exists ret, sap'. split; [done|].
    intros Hr. apply (spent_app [a] l _ _ _ (provider_store_spent _ _ _ Es)). auto.
  - by exists ret, sap1.
Qed.
End ProviderLemmas.

(** ** The transactions of an address *)

Definition at_address (address : hash_t) (tx : iota_transaction_t) : bool := bool_decide (transaction_address tx = address).

Definition address_hashes (txs : list iota_transaction_t) (address : hash_t) : list hash_t :=
  map transaction_hash (List.filter (at_address address) txs).

Section AddressLemmas.
Context {DB : Type} {SQ : Sqlite DB} {L : SqliteLaws DB} {R : SqliteReliable DB}.
Implicit Types (db : DB) (h address : hash_t) (txs : list iota_transaction_t).

Lemma address_rows db txs address : contents db txs -> length address = 243%nat ->
  query like (tables_of db) transaction_select_hashes_by_address [column_compress address 243] =
  map (fun a => [column_compress a 243]) (address_hashes txs address).
Proof.
  intros [Hr Hs _] Ha. cbn [query]. unfold select_columns, address_hashes. rewrite Hr. clear Hr.
  change (value_at [column_compress address 243] 0) with (column_compress address 243).
  induction txs as [|tx txs IH]; [done|]. apply Forall_cons_iff in Hs as [Hx Hs]. specialize (IH Hs). cbn [map List.filter].
  replace (where_column ADDRESS (column_compress address 243) (row_of tx)) with (at_address address tx).
  { destruct (at_address address tx); cbn [map]; [f_equal|]; exact IH. }
  unfold where_column, sql_eq, at_address. change (get_column ADDRESS (row_of tx)) with (column_compress (transaction_address tx) 243).
  rewrite (bool_decide_eq_true_2 (_ <> SqlNull)), andb_true_r by done. apply bool_decide_ext. split; [by intros ->|].
  intros E. eapply column_compress_inj; [|exact Ha|exact E]. destruct Hx as [Hx _]. unfold tx_sized in Hx. tauto.
Qed.

Lemma address_hashes_sized txs address : Forall storable txs -> Forall (fun a => length a = 243%nat) (address_hashes txs address).
Proof.
  intros Hs. apply Forall_forall. intros a (tx & <- & Hin)%list_elem_of_In%in_map_iff. apply filter_In in Hin as [Hin _].
  apply list_elem_of_In in Hin. rewrite Forall_forall in Hs. by destruct (Hs _ Hin) as [(_ & _ & _ & _ & _ & _ & _ & _ & H) _].
Qed.

(** While memory lasts, the hashes of the transactions of the address are loaded, in some order. *)
Lemma load_by_address_spec fuel mem db txs address pack : contents db txs -> length address = 243%nat -> full_pack pack ->
  num_loaded pack = 0%nat -> (length (address_hashes txs address) < fuel)%nat ->
  exists pack', iota_tangle_transaction_load_hashes_by_address fuel mem [] db address pack = Some (RC_OK, pack', []) /\
    loaded_hashes pack' ≡ₚ address_hashes txs address.
Proof.
  intros Hc Ha Hf Hn Hfu. destruct (rows_reliable db transaction_select_hashes_by_address [column_compress address 243])
    as (rows & Hp & Hrows). cbn [limit] in Hrows. rewrite (address_rows _ _ _ Hc Ha) in Hp.
  assert (decoded rows ≡ₚ address_hashes txs address) as Hl.
  { unfold decoded. rewrite Hp. fold (decoded (map (fun a => [column_compress a 243]) (address_hashes txs address))).
    rewrite decoded_hashes; [done|]. apply address_hashes_sized, (c_storable _ _ Hc). }
  assert (loads (storage_transaction_load_hashes db TRANSACTION_FIELD_ADDRESS address) (decoded rows)) as Hload.
  { intros p Hpf Hpn. unfold storage_transaction_load_hashes, bind_load. rewrite bind_all_reliable. cbn [negb].
    unfold load_gen. rewrite Hrows, Hpn. eexists. split; [reflexivity|].
    replace (length (decoded rows)) with (length rows) by (unfold decoded; by rewrite length_map).
    exact (execute_load_hashes rows (mk_pack (models p) (capacity p) 0 false) eq_refl Hpf ltac:(cbn; lia)). }
  unfold iota_tangle_transaction_load_hashes_by_address, load_all.
  destruct (Hload pack Hf Hn) as (p1 & -> & F & Cc & Ii & D). rewrite <- Hl in Hfu. destruct fuel as [|fuel]; [lia|].
  destruct (load_resizing_spec _ _ mem Hload fuel p1 F) as (p2 & E & F2 & D2); [by rewrite Cc|done|destruct F; lia|].
  exists p2. split; [exact E|by rewrite D2].
Qed.

(** A pack that was filled and not reset takes nothing more. *)
Lemma load_into_full db h tx ins : exists ins',
  iota_tangle_transaction_load_partial db h (mk_pack [tx] 1 1 ins) PARTIAL_TX_MODEL_ESSENCE_METADATA = (RC_OK, mk_pack [tx] 1 1 ins').
Proof.
  unfold iota_tangle_transaction_load_partial, storage_transaction_load_essence_metadata, bind_load. rewrite bind_all_reliable.
  cbn [negb]. unfold load_gen. cbn [models capacity num_loaded].
  destruct (sqlite3_rows _ _ _).1 as [|row rows]; cbn; eauto.
Qed.

Context {SDB : Type} {SQS : Sqlite SDB} {St : Type} {Sp : Sponge St} {SI : SpongeInit St}.

Lemma deposit_not_spent env db hp tx h spent : 0 <= transaction_value tx ->
  iota_spent_addresses_service_was_tx_spent_from env db hp tx h spent = Some (RC_OK, false, db, hp).
Proof. intros H. unfold iota_spent_addresses_service_was_tx_spent_from. by replace (transaction_value tx <? 0) with false by lia. Qed.

Lemma confirmed_spent env db hp tx h spent : transaction_value tx < 0 -> transaction_snapshot_index tx <> 0 ->
  iota_spent_addresses_service_was_tx_spent_from env db hp tx h spent = Some (RC_OK, true, db, hp).
Proof.
  intros H1 H2. unfold iota_spent_addresses_service_was_tx_spent_from. replace (transaction_value tx <? 0) with true by lia.
  by replace (transaction_snapshot_index tx =? 0) with false by lia.
Qed.

(** Once a deposit fills the pack, nothing else is looked at. *)
Lemma spent_loop_stuck env db tx hashes : 0 <= transaction_value tx -> forall ins spent, spent = false ->
  spent_loop env db [] (mk_pack [tx] 1 1 ins) hashes spent = Some (RC_OK, false, db, []).
Proof.
  intros Hv. induction hashes as [|h hashes IH]; intros ins spent ->; [done|]. cbn [spent_loop].
  destruct (load_into_full db h tx ins) as [ins' ->]. rewrite (bool_decide_eq_true_2 (RC_OK = RC_OK)) by done. cbn [negb].
  change (single_tx (mk_pack [tx] 1 1 ins') (se_tx env)) with tx.
  rewrite deposit_not_spent by done. rewrite (bool_decide_eq_true_2 (RC_OK = RC_OK)) by done. cbn [negb]. by apply IH.
Qed.
End AddressLemmas.

(** * Theorems *)

(** An address of the database is spent; of the others exactly one transaction decides,
    whichever is loaded first. *)
Section Judged.
Context {DB : Type} {SQ : Sqlite DB} {L : SqliteLaws DB} {R : SqliteReliable DB}.
Context {SDB : Type} {SQS : Sqlite SDB} {LS : SqliteLaws SDB} {RS : SqliteReliable SDB}.
Context {St : Type} {Sp : Sponge St} {SI : SpongeInit St}.

(** The node judges an address by a single transaction.  An address that is neither the
    genesis nor the coordinator's is spent when the database of spent addresses has it.
    Otherwise the first of its transactions that is loaded decides: if it spends and is
    confirmed, the address is spent; if it is a deposit, the address is reported unspent,
    whatever the other transactions of the address spend. *)
Theorem address_judged_by_first env conf (sap : SDB) (db : DB) txs address : contents db txs -> length address = 243%nat ->
  memeq FLEX_TRIT_SIZE_243 address (sas_genesis_hash conf) = false ->
  memeq FLEX_TRIT_SIZE_243 address (sas_coordinator_address conf) = false ->
  (length (address_hashes txs address) < se_fuel env)%nat ->
  let result := iota_spent_addresses_service_was_address_spent_from env conf sap db [] address in
  (recorded sap address -> result = Some (RC_OK, true, db, [])) /\
  (~ recorded sap address -> exists hashes, hashes ≡ₚ address_hashes txs address /\
    match hashes with
    | [] => result = Some (RC_OK, false, db, [])
    | first :: _ => exists tx, view_of txs first = Some tx /\
        (0 <= transaction_value tx -> result = Some (RC_OK, false, db, [])) /\
        (transaction_value tx < 0 -> transaction_snapshot_index tx <> 0 -> result = Some (RC_OK, true, db, []))
    end).
Proof.
  intros Hc Ha Hg Hco Hf result. subst result. unfold iota_spent_addresses_service_was_address_spent_from. rewrite Hg, Hco.
  cbn [orb]. rewrite provider_exist_iff. rewrite (bool_decide_eq_true_2 (RC_OK = RC_OK)) by done. cbn [negb]. split.
  { intros Hr. by rewrite bool_decide_eq_true_2. }
  intros Hr. rewrite bool_decide_eq_false_2 by done. rewrite hash_pack_init_nil.
  rewrite (bool_decide_eq_true_2 (RC_OK = RC_OK)) by done. cbn [negb].
  destruct (load_by_address_spec (se_fuel env) (se_hash env) db txs address (mk_pack (replicate 8 (se_hash env)) 8 0 false) Hc Ha)
    as (pack & -> & Hp); [by split; cbn; lia|done|done|].
  rewrite (bool_decide_eq_true_2 (RC_OK = RC_OK)) by done. cbn [negb]. fold (loaded_hashes pack). exists (loaded_hashes pack).
  split; [done|]. destruct (loaded_hashes pack) as [|first hashes]; [done|].
  assert (first ∈ address_hashes txs address) as Hin by (rewrite <- Hp; by left).
  assert (is_Some (view_of txs first)) as [tx Hv].
  { apply list_elem_of_In, in_map_iff in Hin as (tx & Hh & Hin). apply filter_In in Hin as [Hin _].
    destruct (view_of txs first) eqn:E; [eauto|]. exfalso. apply (find_none _ _ E) in Hin. unfold same_hash in Hin.
    rewrite Hh in Hin. by rewrite bool_decide_eq_true_2 in Hin. }
  exists tx. split; [done|]. cbn [spent_loop].
  pose proof (view_contents db txs Hc) as V. pose proof (load_view MODEL_TRANSACTION_ESSENCE_METADATA first (se_tx env)) as Hl.
  change (iota_tangle_transaction_load_partial db first ?p PARTIAL_TX_MODEL_ESSENCE_METADATA)
    with (load_model MODEL_TRANSACTION_ESSENCE_METADATA db first p).
  rewrite Hl, Hv. cbn [found_pack]. rewrite (bool_decide_eq_true_2 (RC_OK = RC_OK)) by done. cbn [negb].
  change (single_tx _ _) with (loaded MODEL_TRANSACTION_ESSENCE_METADATA tx). split.
  - intros H0. rewrite deposit_not_spent by exact H0. rewrite (bool_decide_eq_true_2 (RC_OK = RC_OK)) by done. cbn [negb].
    by apply spent_loop_stuck.
  - intros H0 H1. rewrite confirmed_spent by done. by rewrite (bool_decide_eq_true_2 (RC_OK = RC_OK)) by done.
Qed.
End Judged.

(** Importing a file with an address on each line, when the database takes them,
    makes exactly the addresses that were recorded and those of the file exist. *)
Theorem imported_addresses_exist {SDB : Type} {SQS : Sqlite SDB} {LS : SqliteLaws SDB} {RS : SqliteReliable SDB}
    fs mem (sap : SDB) file addresses : hashes_ok addresses -> length mem = 243%nat ->
  fs_files fs !! file = Some (concat (map address_line addresses)) -> fs_outcome fs file = FileOk ->
  exists ret sap', iota_spent_addresses_provider_import fs mem sap file = Some (ret, sap') /\
    (ret = RC_OK -> forall address exist, length address = 243%nat ->
      iota_spent_addresses_provider_exist sap' address exist =
      (RC_OK, bool_decide (recorded sap address \/ address ∈ addresses))).
Proof.
  intros Ha Hm Hfile Ho. unfold iota_spent_addresses_provider_import. rewrite Hfile, Ho.
  destruct (import_lines addresses Ha (S (length (concat (map address_line addresses)))) sap [] mem Hm) as (ret & sap' & E & Hs).
  { apply le_n_S. clear. induction addresses as [|a l IH]; [done|]. cbn [map concat length]. unfold address_line at 1.
    rewrite !length_app. cbn [length]. lia. }
  exists ret, sap'. split; [done|]. intros Hr address exist Hl. rewrite provider_exist_iff. f_equal. apply bool_decide_ext.
  apply spent_recorded; [auto| |done]. eapply Forall_impl; [exact Ha|]. by intros h [].
Qed.

(** ** Examples *)

Module SpentSample.
Definition tx (hash address : hash_t) (value snapshot_index : Z) : iota_transaction_t :=
  mk_tx (mk_essence address value (replicate 81 0) 1546300800 0 1 (Ledger.Sample.numbered 20))
    (mk_attachment Ledger.Sample.genesis Ledger.Sample.genesis 1546300801 0 3812798742493 (replicate 81 1) (replicate 81 0))
    (mk_consensus hash) (mk_data (replicate NUM_TRITS_SIGNATURE 0))
    (mk_metadata snapshot_index true (status_value BUNDLE_VALID) 7) (mk_mask 0 0 0 0 0).

(** Ten arrive at an address and are spent later; both transactions are confirmed. *)
Definition txs : list iota_transaction_t :=
  [tx (Ledger.Sample.numbered 1) Ledger.Sample.address_a 10 5; tx (Ledger.Sample.numbered 2) Ledger.Sample.address_a (-10) 6].

Definition db : memory_db := mk_memory_db (mk_tables (map row_of txs) [] []) None.
Definition sap : memory_db := empty_db.
Definition conf : spent_addresses_conf := mk_spent_conf Ledger.Sample.genesis Ledger.Sample.address_d.
Definition env : spent_env := mk_spent_env 10 Ledger.Sample.genesis sample_tx Bundle.Sample.stack.

Lemma tx_storable hash address value snapshot_index : length hash = 243%nat -> length address = 243%nat -> is_int64 value ->
  0 <= snapshot_index < 2 ^ 64 -> storable (tx hash address value snapshot_index).
Proof.
  intros H1 H2 Hv Hs. split.
  - unfold tx_sized. cbn [essence attachment consensus data tx e_address e_obsolete_tag e_bundle a_trunk a_branch a_tag a_nonce
      c_hash d_signature_or_message]. rewrite !length_replicate. by split_and!.
  - exact Hv.
  - cbn. repeat constructor; lia.
  - cbn. lia.
Qed.

Lemma db_contents : contents db txs.
Proof.
  split; [vm_compute; reflexivity| |apply (bool_decide_unpack _); vm_compute; exact I].
  repeat (apply Forall_cons_iff; split; [apply tx_storable; first [reflexivity|closed_decide|lia]|]). constructor.
Qed.

Definition fs : file_system :=
  mk_fs {[ [97] := concat (map address_line [Ledger.Sample.address_a; Ledger.Sample.address_b]) ]} (fun _ => FileOk).
End SpentSample.

(** An address that received and spent is unspent for the node. *)
Example deposit_hides_spend :
  iota_spent_addresses_service_was_address_spent_from (Sp := Iss.ToySponge.sponge) SpentSample.env SpentSample.conf SpentSample.sap
    SpentSample.db [] Ledger.Sample.address_a = Some (RC_OK, false, SpentSample.db, []) /\
  exists spend, spend ∈ SpentSample.txs /\ transaction_address spend = Ledger.Sample.address_a /\
    transaction_value spend < 0 /\ transaction_snapshot_index spend <> 0.
Proof.
  split; [vm_compute; reflexivity|]. exists (SpentSample.tx (Ledger.Sample.numbered 2) Ledger.Sample.address_a (-10) 6).
  split_and!; [right; left|..]; done.
Qed.

Lemma address_judged_by_first_witness :
  exists hashes, hashes ≡ₚ address_hashes SpentSample.txs Ledger.Sample.address_a /\
    match hashes with
    | [] => False
    | first :: _ => exists tx, view_of SpentSample.txs first = Some tx /\
        (0 <= transaction_value tx ->
         iota_spent_addresses_service_was_address_spent_from (Sp := Iss.ToySponge.sponge) SpentSample.env SpentSample.conf
           SpentSample.sap SpentSample.db [] Ledger.Sample.address_a = Some (RC_OK, false, SpentSample.db, []))
    end.
Proof.
  destruct (address_judged_by_first (Sp := Iss.ToySponge.sponge) SpentSample.env SpentSample.conf SpentSample.sap SpentSample.db
    SpentSample.txs Ledger.Sample.address_a SpentSample.db_contents) as [_ H].
  - reflexivity.
  - vm_compute. reflexivity.
  - vm_compute. reflexivity.
  - cbn [se_fuel SpentSample.env]. apply (bool_decide_unpack _). vm_compute. exact I.
  - destruct H as (hashes & Hp & H); [apply not_elem_of_nil|]. exists hashes. split; [exact Hp|].
    destruct hashes as [|first hashes].
    + apply Permutation_length in Hp. vm_compute in Hp. discriminate Hp.
    + destruct H as (tx & Hv & H1 & _). exists tx. split; [exact Hv|exact H1].
Defined.

Lemma imported_addresses_exist_witness :
  exists ret sap', iota_spent_addresses_provider_import SpentSample.fs Ledger.Sample.genesis SpentSample.sap [97] = Some (ret, sap') /\
    ret = RC_OK /\ iota_spent_addresses_provider_exist sap' Ledger.Sample.address_b false = (RC_OK, true) /\
    iota_spent_addresses_provider_exist sap' Ledger.Sample.address_c false = (RC_OK, false).
Proof.
  assert (hashes_ok [Ledger.Sample.address_a; Ledger.Sample.address_b]) as Ha by closed_decide.
  destruct (imported_addresses_exist SpentSample.fs Ledger.Sample.genesis SpentSample.sap [97] _ Ha) as (ret & sap' & E & H);
    [reflexivity|reflexivity|reflexivity|].
  exists ret, sap'. split; [exact E|]. assert (ret = RC_OK) as Hr.
  { transitivity (default (RC_ERROR, SpentSample.sap)
      (iota_spent_addresses_provider_import SpentSample.fs Ledger.Sample.genesis SpentSample.sap [97])).1; [by rewrite E|].
    vm_compute. reflexivity. }
  split; [exact Hr|]. split; (eapply eq_trans; [apply (H Hr); reflexivity|]); apply (f_equal (pair RC_OK)).
  - apply bool_decide_eq_true_2. right. right. left.
  - apply bool_decide_eq_false_2. intros [Hin|Hin]; [by apply not_elem_of_nil in Hin|].
    revert Hin. closed_decide.
Defined.

(** A last line that no newline ends loses its last tryte to the zero, which is no index
    of the table. *)
Example unterminated_file_undefined :
  let content := trits_to_trytes Ledger.Sample.address_a in
  iota_spent_addresses_provider_import (mk_fs {[ [97] := content ]} (fun _ => FileOk)) Ledger.Sample.genesis SpentSample.sap [97] = None.
Proof. vm_compute. reflexivity. Qed.
