(* ===== verification/SignedFiles.v ===== *)
(** * Signed files

    [ciri/utils/signed_files.c]: the built-in snapshot and the lists of spent addresses come
    with a file of signatures, four lines of trytes: three fragments of a signature of the
    hash of the file, and the siblings of a Merkle tree whose root is known. *)
From S2P Require Import Prelude Errors Trits FlexTrit Sponge Normalize Iss Sign Transaction Bundle Containers StateDelta Snapshot.
From S2P Require Import SpentAddresses Merkle.

Section Files.
Context {StC : Type} {SpC : Sponge StC} {SIC : SpongeInit StC} {StK : Type} {SpK : Sponge StK} {SIK : SpongeInit StK}.

(** What the arrays that are not initialised hold. *)
Record sig_stack := mk_sig_stack { ss_hash : list Z; ss_normalized : list Z; ss_public_key : list Z; ss_digest : hash_t }.

(** [fopen]: what is read, nothing when reading fails. *)
Definition fopen (fs : file_system) (file : path) : option (list Z) :=
  match fs_files fs !! file with
  | None => None
  | Some content => match fs_outcome fs file with OpenFailed => None | ReadFailed => Some [] | _ => Some content end
  end.

(** [getline] and [line[--read] = 0]: the length without the last character, the text, the
    buffer and the rest. *)
Definition get_text (line fp : list Z) : option (nat * list Z * list Z * list Z) :=
  match getline line fp with
  | None => None
  | Some (read, line, fp) =>
      let read := (read - 1)%nat in
      let line := <[read := 0]> line in Some (read, take read line, line, fp)
  end.

(** ** The hash of a file *)

(** A block that exists and is resized to nothing is freed, and the result is null. *)
Definition realloc (hp : heap) (allocated : bool) (size : nat) : bool * heap :=
  if allocated && (size =? 0)%nat then (false, hp) else malloc hp.

(** The characters that [ascii_to_trytes] finds in its table. *)
Definition is_ascii (c : Z) : bool := (1 <=? c) && (c <=? 127).

Fixpoint digest_loop (fuel : nat) (hp : heap) (allocated : bool) (kerl : StK) (line fp : list Z) : option (retcode_t * StK * heap) :=
  match fuel with
  | O => None
  | S fuel =>
      match get_text line fp with
      | None => Some (RC_OK, kerl, hp)
      | Some (read, text, line, fp) =>
          let '(ok, hp) := realloc hp allocated (read * 2) in
          if negb ok then Some (RC_OOM, kerl, hp) else
          if negb (forallb is_ascii text) then None else
          let trytes := ascii_to_trytes text in
          let size := (HASH_LENGTH_TRIT * (read * 6 / HASH_LENGTH_TRIT + 1))%nat in
          let '(ok, hp) := malloc hp in
          if negb ok then Some (RC_OOM, kerl, hp) else
          let trits := buf_write 0 (trytes_to_trits trytes) (replicate size 0) in
          digest_loop fuel hp true (absorb kerl trits) line fp
      end
  end.

(** One turn for each byte at most. *)
Definition digest_file (hp : heap) (fs : file_system) (filename : path) (digest : hash_t) : option (retcode_t * hash_t * heap) :=
  match fopen fs filename with
  | None => Some (RC_UTILS_FAILED_TO_OPEN_FILE, digest, hp)
  | Some content =>
      match digest_loop (S (length content)) hp false (init_state : StK) [] content with
      | None => None
      | Some (ret, kerl, hp) =>
          if negb (bool_decide (ret = RC_OK)) then Some (ret, digest, hp) else
          let digest_trits := (squeeze kerl HASH_LENGTH_TRIT).1 in
          Some (RC_OK, (flex_trits_from_trits digest 243 digest_trits 243 243).2, hp)
      end
  end.

(** ** The signature *)

(** The loop over the fragments from fragment [i] on, [n] of them at most: what is
    returned, the number of turns, the digests, the state of the hash and of the file. *)
Fixpoint fragments_loop (n i : nat) (normalized_digest : list Z) (curl : StC) (sig_digests line fp : list Z)
    : option (retcode_t * nat * list Z * StC * list Z * list Z) :=
  match n with
  | O => Some (RC_OK, i, sig_digests, curl, line, fp)
  | S n =>
      match get_text line fp with
      | None => Some (RC_OK, i, sig_digests, curl, line, fp)
      | Some (read, text, line, fp) =>
          if negb (read =? NORMALIZED_FRAGMENT_LENGTH * HASH_LENGTH_TRYTE)%nat
          then Some (RC_UTILS_INVALID_SIG_FILE, i, sig_digests, curl, line, fp) else
          if negb (is_trytes text) then None else
          let '(digest, _, curl) :=
            iss_sig_digest curl (drop (i * NORMALIZED_FRAGMENT_LENGTH * 3) normalized_digest) (trytes_to_trits text) in
          fragments_loop n (S i) normalized_digest curl (sig_digests ++ digest) line fp
      end
  end.

Definition validate_signature (fs : file_system) (stack : sig_stack) (signature_filename : path) (public_key : hash_t)
    (depth index : nat) (digest : hash_t) (valid : bool) : option (retcode_t * bool) :=
  match fopen fs signature_filename with
  | None => Some (RC_UTILS_FAILED_TO_OPEN_FILE, valid)
  | Some content =>
      let normalized_digest := normalize_flex_hash_to_trits (ss_hash stack) digest (ss_normalized stack) in
      match fragments_loop 3 0 normalized_digest (init_state : StC) [] [] content with
      | None => None
      | Some (ret, i, sig_digests, curl, line, fp) =>
          if negb (bool_decide (ret = RC_OK)) then Some (ret, valid) else
          if negb (i =? 3)%nat then Some (RC_UTILS_INVALID_SIG_FILE, valid) else
          let '(root, curl) := iss_address curl sig_digests in
          let compare root :=
            let public_key_trits := (flex_trits_to_trits (ss_public_key stack) 243 public_key 243 243).2 in
            Some (RC_OK, memeq HASH_LENGTH_TRIT public_key_trits root) in
          match get_text line fp with
          | None => compare root
          | Some (read, text, _, _) =>
              if negb (read =? depth * HASH_LENGTH_TRYTE)%nat then Some (RC_UTILS_INVALID_SIG_FILE, valid) else
              if negb (is_trytes text) then None else
              compare (merkle_root curl root (trytes_to_trits text) depth index).1
          end
      end
  end.

Definition iota_file_signature_validate (hp : heap) (fs : file_system) (stack : sig_stack) (filename signature_filename : path)
    (public_key : hash_t) (depth index : nat) (valid : bool) : option (retcode_t * bool * heap) :=
  match digest_file hp fs filename (ss_digest stack) with
  | None => None
  | Some (ret, digest, hp) =>
      if negb (bool_decide (ret = RC_OK)) then Some (ret, valid, hp) else
      match validate_signature fs stack signature_filename public_key depth index digest valid with
      | None => None
      | Some (ret, valid) => Some (ret, valid, hp)
      end
  end.
End Files.

(** * Lemmas *)

Lemma insert_after {A} (l r : list A) x y : <[length l := x]> (l ++ y :: r) = l ++ x :: r.
Proof. rewrite <- (Nat.add_0_r (length l)), insert_app_r. done. Qed.

Lemma get_text_line text line rest : Forall (fun c => c <> 10) text ->
  exists line', get_text line (text ++ 10 :: rest) = Some (length text, text, line', rest).
Proof.
  intros Ht. unfold get_text. rewrite getline_line by done. rewrite Nat.sub_succ, Nat.sub_0_r, <- app_assoc.
  cbn [app]. rewrite insert_after, take_app_length. by eexists.
Qed.

(** Of a line without its end, the last character is taken for it. *)
Lemma get_text_last text c line : Forall (fun c => c <> 10) text ->
  exists line', get_text line (text ++ [c]) = Some (length text, text, line', []).
Proof.
  intros Ht. destruct (Z.eq_dec c 10) as [->|Hc]; [by apply get_text_line|]. unfold get_text, getline.
  assert (Forall (fun c => negb (c =? 10) = true) (text ++ [c])) as Ha.
  { apply Forall_app. split; [eapply Forall_impl; [exact Ht|]; cbn; lia|]. constructor; [lia|constructor]. }
  destruct (text ++ [c]) as [|c0 s] eqn:Es; [by destruct text|]. rewrite <- Es in *. clear c0 s Es.
  pose proof (take_while_all (fun c => negb (c =? 10)) (text ++ [c]) [] Ha) as Htw. rewrite app_nil_r in Htw. rewrite Htw by done.
  rewrite drop_ge by done. cbn [take drop]. rewrite !app_nil_r, length_app. cbn [length]. rewrite Nat.add_sub, <- !app_assoc.
  cbn [app]. rewrite insert_after, take_app_length. by eexists.
Qed.

Section Text.
Context {StK : Type} {SpK : Sponge StK}.

(** A file ends with lines that have their ends and one more, whatever ends it. *)
Definition file_text (lines : list (list Z)) (last : list Z) (c : Z) : list Z :=
  concat (map (fun l => l ++ [10]) lines) ++ last ++ [c].

Lemma digest_loop_last c1 c2 lines last : Forall (Forall (fun c => c <> 10)) lines -> Forall (fun c => c <> 10) last ->
  forall fuel1 fuel2 hp allocated (kerl : StK) line1 line2, (length lines + 2 <= fuel1)%nat -> (length lines + 2 <= fuel2)%nat ->
  digest_loop fuel1 hp allocated kerl line1 (file_text lines last c1) = digest_loop fuel2 hp allocated kerl line2 (file_text lines last c2).
Proof.
  intros Hl Hlast. unfold file_text. induction Hl as [|l lines Hl _ IH]; intros [|fuel1] [|fuel2] hp allocated kerl line1 line2 H1 H2;
    cbn [length] in *; try lia; cbn [digest_loop map concat app].
  - destruct (get_text_last last c1 line1 Hlast) as [line1' ->], (get_text_last last c2 line2 Hlast) as [line2' ->].
    destruct (realloc _ _ _) as [[] hp1]; cbn [negb]; [|done]. destruct (negb (forallb _ _)); [done|].
    destruct (malloc hp1) as [[] hp2]; cbn [negb]; [|done]. destruct fuel1, fuel2; [lia..|]. done.
  - rewrite <- !app_assoc. cbn [app].
    destruct (get_text_line l line1 (concat (map (fun l => l ++ [10]) lines) ++ last ++ [c1]) Hl) as [line1' ->].
    destruct (get_text_line l line2 (concat (map (fun l => l ++ [10]) lines) ++ last ++ [c2]) Hl) as [line2' ->].
    destruct (realloc _ _ _) as [[] hp1]; cbn [negb]; [|done]. destruct (negb (forallb _ _)); [done|].
    destruct (malloc hp1) as [[] hp2]; cbn [negb]; [|done]. apply IH; lia.
Qed.

Lemma lines_fuel lines last c : (length lines + 2 <= S (length (file_text lines last c)))%nat.
Proof.
  unfold file_text. rewrite length_app, length_app. cbn [length].
  induction lines as [|l lines IH]; cbn [map concat length]; [lia|]. rewrite !length_app. cbn [length]. lia.
Qed.

End Text.

Section Signed.
Context {StC : Type} {SpC : Sponge StC} {LC : SpongeLaws StC} {SIC : SpongeInit StC}.

(** A line of trytes. *)
Definition sig_line (ts : list Z) : list Z := trits_to_trytes ts ++ [10].

Lemma get_sig_line ts line rest : trits_ok ts -> (length ts mod 3 = 0)%nat ->
  exists text line', get_text line (sig_line ts ++ rest) = Some (length ts / 3, text, line', rest)%nat /\
    is_trytes text = true /\ trytes_to_trits text = ts.
Proof.
  intros Ht H3. pose proof (trits_to_trytes_ok ts Ht) as Hy. pose proof (trytes_of_trits_padded ts Ht) as Hp.
  rewrite pad3_exact in Hp by done. unfold sig_line. rewrite <- app_assoc. cbn [app].
  destruct (get_text_line (trits_to_trytes ts) line rest (trytes_no_newline _ Hy)) as [line' ->].
  exists (trits_to_trytes ts), line'. split_and!; [|by apply is_trytes_ok|done].
  pose proof (length_trytes_to_trits _ Hy) as Hl. rewrite Hp in Hl. rewrite Hl, Nat.mul_comm, Nat.div_mul by done. done.
Qed.

Lemma fragments_loop_signed signed key rest : trits_ok signed -> trits_ok key -> length key = (3 * ISS_KEY_LENGTH)%nat ->
  let sig := (iss_signature init_state signed key).1 in
  forall n i line digests, (i + n = 3)%nat -> exists line',
  fragments_loop n i signed (init_state : StC) digests line (concat (map (fun f => sig_line (frag f sig)) (seq i n)) ++ rest) =
    Some (RC_OK, 3%nat, digests ++ concat (map (fun f => hash_of init_state (frag f (chained init_state (key_blocks_num 3) key))) (seq i n)),
      init_state, line', rest).
Proof.
  intros Hsg Hk Hl sig. pose proof (reset_init init_state) as Hr.
  assert (length key = (key_blocks_num 3 * HASH_LENGTH_TRIT)%nat) as Hl' by (by rewrite Hl, key_len).
  assert (sig = concat (map (fun j => chain_of init_state (sign_rounds signed j) (Iss.block j key)) (seq 0 (key_blocks_num 3)))) as Es.
  { unfold sig. by rewrite (signature_eq init_state signed key (key_blocks_num 3) init_ok Hr Hk Hl'). }
  assert (trits_ok sig /\ length sig = (3 * ISS_KEY_LENGTH)%nat) as [Hst Hsl].
  { assert (forall j, (j < key_blocks_num 3)%nat -> trits_ok (chain_of init_state (sign_rounds signed j) (Iss.block j key)) /\
      length (chain_of init_state (sign_rounds signed j) (Iss.block j key)) = HASH_LENGTH_TRIT) as Hj.
    { intros j Hj. destruct (block_ok j (key_blocks_num 3) key Hk Hl' Hj). apply chain_of_ok; [apply init_ok|done..]. }
    rewrite Es, key_len. split; [|apply length_concat_blocks; intros; apply Hj; lia].
    apply Forall_concat, List.Forall_map, List.Forall_forall. intros j Hin. apply in_seq in Hin. apply Hj. lia. }
  induction n as [|n IH]; intros i line digests Hi; cbn [seq map concat app fragments_loop].
  - exists line. rewrite app_nil_r. by replace i with 3%nat by lia.
  - assert (length (frag i sig) = ISS_KEY_LENGTH) as Hfl.
    { unfold frag. apply length_buf_read. rewrite Hsl. unfold ISS_KEY_LENGTH, HASH_LENGTH_TRIT, ISS_FRAGMENTS. lia. }
    rewrite <- app_assoc. destruct (get_sig_line (frag i sig) line (concat (map (fun f => sig_line (frag f sig)) (seq (S i) n)) ++ rest))
      as (text & line' & -> & -> & ->); [unfold frag, buf_read; by apply Forall_take, Forall_drop|by rewrite Hfl|].
    rewrite Hfl. change (ISS_KEY_LENGTH / 3 =? NORMALIZED_FRAGMENT_LENGTH * HASH_LENGTH_TRYTE)%nat with true. cbn [negb].
    rewrite Es. change NORMALIZED_FRAGMENT_LENGTH with ISS_FRAGMENTS.
    rewrite (sig_digest_fragment init_state signed key 3 i init_ok Hr Hsg Hk Hl) by lia. rewrite <- Es.
    destruct (IH (S i) line' (digests ++ hash_of init_state (frag i (chained init_state (key_blocks_num 3) key)))) as [line'' E]; [lia|].
    exists line''. rewrite E. by rewrite <- app_assoc.
Qed.
End Signed.

(** * Properties *)

(** C40: a signed file is found valid.  When the lines of the signature file are the three
    fragments of a signature of the hash of the file and the siblings of a leaf, and the
    public key is the root that the key and these siblings lead to, the file is valid. *)
Theorem signed_file_valid {StC : Type} {SpC : Sponge StC} {LC : SpongeLaws StC} {SIC : SpongeInit StC}
    {StK : Type} {SpK : Sponge StK} {SIK : SpongeInit StK} hp hp' fs stack file sig_file public_key depth index valid digest key digests siblings :
  digest_file (StK := StK) hp fs file (ss_digest stack) = Some (RC_OK, digest, hp') -> trits_of 243 digest ->
  length (ss_hash stack) = 243%nat -> length (ss_normalized stack) = 243%nat -> length (ss_public_key stack) = 243%nat ->
  trits_ok key -> length key = (3 * ISS_KEY_LENGTH)%nat -> trits_ok siblings -> length siblings = (depth * HASH_LENGTH_TRIT)%nat ->
  let sig := (iss_signature (init_state : StC) (normalize_hash_to_trits digest (ss_normalized stack)) key).1 in
  fopen fs sig_file = Some (concat (map (fun f => sig_line (frag f sig)) [0; 1; 2]%nat) ++ sig_line siblings) ->
  iss_key_digest (init_state : StC) key 0 (length key) = Some (digests, init_state) ->
  public_key = (merkle_root (init_state : StC) (iss_address (init_state : StC) (take (3 * HASH_LENGTH_TRIT) digests)).1 siblings depth index).1 ->
  length public_key = 243%nat ->
  iota_file_signature_validate (StC := StC) (StK := StK) hp fs stack file sig_file public_key depth index valid = Some (RC_OK, true, hp').
Proof.
  intros Hd [Hdl Hdt] H1 H2 H3 Hk Hl Hst Hsl sig Hf Hkd Hp Hpl. pose proof (reset_init (init_state : StC)) as Hr.
  unfold iota_file_signature_validate. rewrite Hd, bool_decide_eq_true_2 by done. cbn [negb]. unfold validate_signature.
  rewrite Hf, normalize_flex_hash_to_trits_eq by done.
  destruct (normalize_hash_to_trits_spec digest (ss_normalized stack) Hdt H2) as (_ & Hsg & _).
  destruct (fragments_loop_signed _ key (sig_line siblings) Hsg Hk Hl 3 0 [] [] eq_refl) as [line' E].
  cbn [seq] in E. fold sig in E. rewrite E.
  rewrite bool_decide_eq_true_2 by done. cbn [negb Nat.eqb]. unfold iss_address in *. rewrite hash_step_eq in Hp |- * by done.
  destruct (key_digest_in_place (init_state : StC) 3 key init_ok Hr Hk Hl) as (mem & Em & _ & Ht). rewrite Hkd in Em. injection Em as <-.
  cbn [fst] in Hp. rewrite Ht in Hp. cbn [app]. cbn [seq] in Hp.
  rewrite <- (app_nil_r (sig_line siblings)).
  destruct (get_sig_line siblings line' [] Hst) as (text & line'' & -> & -> & ->); [rewrite Hsl; change HASH_LENGTH_TRIT with (81 * 3)%nat; rewrite Nat.mul_assoc; apply Nat.Div0.mod_mul|].
  rewrite Hsl. replace (depth * HASH_LENGTH_TRIT / 3)%nat with (depth * HASH_LENGTH_TRYTE)%nat
    by (change HASH_LENGTH_TRIT with (HASH_LENGTH_TRYTE * 3)%nat; by rewrite Nat.mul_assoc, Nat.div_mul).
  rewrite Nat.eqb_refl. cbn [negb]. unfold merkle_root, HASH_LENGTH_TRIT in *. rewrite <- Hp.
  rewrite (flex_trits_to_trits_ok (ss_public_key stack) 243 public_key H3 Hpl) by lia. unfold memeq. by rewrite bool_decide_eq_true_2.
Qed.

(** The last character of a file is not signed, unless it ends a line: two files that
    differ in nothing but their last character have the same signatures. *)
Theorem last_character_not_signed {StC : Type} {SpC : Sponge StC} {SIC : SpongeInit StC}
    {StK : Type} {SpK : Sponge StK} {SIK : SpongeInit StK} hp fs stack file1 file2 lines last c1 c2 :
  Forall (Forall (fun c => c <> 10)) lines -> Forall (fun c => c <> 10) last ->
  fopen fs file1 = Some (file_text lines last c1) -> fopen fs file2 = Some (file_text lines last c2) ->
  forall sig_file public_key depth index valid,
    iota_file_signature_validate (StC := StC) (StK := StK) hp fs stack file1 sig_file public_key depth index valid =
    iota_file_signature_validate (StC := StC) (StK := StK) hp fs stack file2 sig_file public_key depth index valid.
Proof.
  intros Hl Hlast H1 H2 sig_file public_key depth index valid. unfold iota_file_signature_validate, digest_file. rewrite H1, H2.
  rewrite (digest_loop_last c1 c2 lines last Hl Hlast _ (S (length (file_text lines last c2))) hp false init_state [] [])
    by apply lines_fuel. done.
Qed.

Module FileSample.
Definition stack : sig_stack := mk_sig_stack (replicate 243 7) (replicate 243 7) (replicate 243 7) (replicate 243 7).
Definition key : list Z := replicate (3 * ISS_KEY_LENGTH) 1.
Definition siblings : list Z := replicate HASH_LENGTH_TRIT (-1).

(** Two lines: [IOTA] and [9]. *)
Definition text : list Z := [73; 79; 84; 65; 10; 57; 10].
Definition fs (content : list Z) : file_system := mk_fs {[ [1] := text; [2] := content ]} (fun _ => FileOk).

Definition digest : hash_t :=
  match digest_file (SpK := ToySponge.sponge) [] (fs []) [1] (replicate 243 7) with Some (_, digest, _) => digest | None => [] end.
End FileSample.

Lemma signed_file_valid_witness :
  exists content public_key,
    iota_file_signature_validate (SpC := ToySponge.sponge) (SpK := ToySponge.sponge) [] (FileSample.fs content) FileSample.stack [1] [2] public_key
      1 0 false = Some (RC_OK, true, []).
Proof.
  assert (@sponge_ok _ ToySponge.sponge ToySponge.zero) as Hz by (split; [reflexivity|closed_decide]).
  assert (trits_ok FileSample.key) as Hk by closed_decide.
  assert (length FileSample.key = (3 * ISS_KEY_LENGTH)%nat) as Hl by apply length_replicate.
  destruct (key_digest_in_place (ToySponge.zero) 3 FileSample.key Hz eq_refl Hk Hl) as (digests & E & Hdl & Hdt).
  set (sig := (iss_signature (Sp := ToySponge.sponge) ToySponge.zero
    (normalize_hash_to_trits FileSample.digest (ss_normalized FileSample.stack)) FileSample.key).1).
  eexists (concat (map (fun f => sig_line (frag f sig)) [0; 1; 2]%nat) ++ sig_line FileSample.siblings), _.
  apply (signed_file_valid (SpC := ToySponge.sponge) (SpK := ToySponge.sponge) [] [] _ FileSample.stack [1] [2] _ 1 0 false
    FileSample.digest FileSample.key digests FileSample.siblings).
  - vm_compute. reflexivity.
  - split; [vm_compute; reflexivity|apply (bool_decide_unpack _); vm_compute; exact I].
  - reflexivity.
  - reflexivity.
  - reflexivity.
  - exact Hk.
  - exact Hl.
  - closed_decide.
  - reflexivity.
  - unfold fopen, FileSample.fs. cbn [fs_files fs_outcome]. rewrite lookup_insert_ne by discriminate. rewrite lookup_singleton_eq. reflexivity.
  - exact E.
  - reflexivity.
  - unfold merkle_root. rewrite merkle_root_loop_eq by reflexivity. cbn [fst seq map root_of Nat.testbit Nat.odd].
    apply squeeze_length_1. apply absorb_ok; [apply absorb_ok; [exact Hz|]|].
    + unfold iss_address. rewrite hash_step_eq by reflexivity. apply hash_of_ok; [exact Hz|]. rewrite Hdt.
      apply Forall_concat, List.Forall_map, List.Forall_forall. intros f _. apply hash_of_ok; [exact Hz|].
      apply Forall_take, Forall_drop. apply (chained_ok ToySponge.zero); [exact Hz|exact Hk|by rewrite Hl, key_len].
    + apply Forall_take, Forall_drop. closed_decide.
Defined.

(** Of [AB] and [AC]. *)
Lemma last_character_not_signed_witness :
  let fs := mk_fs {[ [1] := [65; 66]; [2] := [65; 67] ]} (fun _ => FileOk) in
  iota_file_signature_validate (SpC := ToySponge.sponge) (SpK := ToySponge.sponge) [] fs FileSample.stack [1] [3] (replicate 243 0) 1 0 false =
  iota_file_signature_validate (SpC := ToySponge.sponge) (SpK := ToySponge.sponge) [] fs FileSample.stack [2] [3] (replicate 243 0) 1 0 false.
Proof.
  intros fs. apply (last_character_not_signed (SpC := ToySponge.sponge) (SpK := ToySponge.sponge) [] fs FileSample.stack [1] [2] [] [65] 66 67).
  - constructor.
  - closed_decide.
  - reflexivity.
  - reflexivity.
Defined.

(** A file with an empty line after the first line is out of memory: the block of the trytes
    is resized to nothing. *)
Example empty_line_refused :
  digest_file (SpK := ToySponge.sponge) [] (mk_fs {[ [1] := [65; 10; 10; 66; 10] ]} (fun _ => FileOk)) [1] [] = Some (RC_OOM, [], []).
Proof. vm_compute. reflexivity. Qed.
