(* ===== verification/Caches.v ===== *)
(** * Caches of the node

    [ciri/node/tips_cache.c], [recent_seen_bytes_cache.c] and
    [pipeline/transaction_requester.c]: bounded sets and maps of hashes from which
    the oldest entry is evicted.  Each operation runs under the lock of the set it
    works on; the locks are not modelled, and the parameters are not null. *)
From S2P Require Import Prelude Errors FlexTrit Transaction Containers Statements Sqlite Tangle.

(** [hash243_set_remove_entry(set, *set)]: the head of a uthash is its oldest entry. *)
Definition remove_oldest {A} (set : list A) : retcode_t * list A := (RC_OK, tail set).

Definition null_hash : hash_t := replicate 243 FLEX_TRIT_NULL_VALUE.

(** ** The tips cache *)

Record tips_cache_t := mk_tips_cache { tips : hash243_set; solid_tips : hash243_set; tc_capacity : Z }.

Definition tips_cache_fifo_add (hp : heap) (set : hash243_set) (capacity : Z) (tip : hash_t) : retcode_t * hash243_set * heap :=
  let '(ret, set) := if capacity <=? hash243_set_size set then remove_oldest set else (RC_OK, set) in
  if negb (bool_decide (ret = RC_OK)) then (ret, set, hp) else hash243_set_add hp set tip.

(** [index] is the random number. *)
Definition tips_cache_random_tip_from_set (index : nat) (set : hash243_set) (tip : hash_t) : retcode_t * hash_t :=
  if hash243_set_size set =? 0 then (RC_OK, memset FLEX_TRIT_NULL_VALUE 243 tip) else hash243_set_random_hash index set tip.

Definition tips_cache_init (capacity : Z) : tips_cache_t := mk_tips_cache [] [] capacity.

Definition tips_cache_destroy (cache : tips_cache_t) : tips_cache_t :=
  mk_tips_cache (hash243_set_free (tips cache)) (hash243_set_free (solid_tips cache)) (tc_capacity cache).

(** [HASH_SET_ITER] with a push of every hash. *)
Fixpoint push_set (hp : heap) (set : hash243_set) (stack : hash243_stack) : retcode_t * hash243_stack * heap :=
  match set with
  | [] => (RC_OK, stack, hp)
  | hash :: set =>
      let '(ret, stack, hp) := hash243_stack_push hp stack hash in
      if negb (bool_decide (ret = RC_OK)) then (ret, stack, hp) else push_set hp set stack
  end.

Definition tips_cache_get_tips (hp : heap) (cache : tips_cache_t) (stack : hash243_stack) : retcode_t * hash243_stack * heap :=
  let '(ret, stack, hp) := push_set hp (tips cache) stack in
  if negb (bool_decide (ret = RC_OK)) then (ret, stack, hp) else push_set hp (solid_tips cache) stack.

Definition tips_cache_add (hp : heap) (cache : tips_cache_t) (tip : hash_t) : retcode_t * tips_cache_t * heap :=
  let '(ret, set, hp) := tips_cache_fifo_add hp (tips cache) (tc_capacity cache) tip in
  (ret, mk_tips_cache set (solid_tips cache) (tc_capacity cache), hp).

Definition tips_cache_remove (cache : tips_cache_t) (tip : hash_t) : retcode_t * tips_cache_t :=
  let '(ret, set) := hash243_set_remove (tips cache) tip in
  let cache := mk_tips_cache set (solid_tips cache) (tc_capacity cache) in
  if negb (bool_decide (ret = RC_OK)) then (ret, cache) else
  let '(ret, set) := hash243_set_remove (solid_tips cache) tip in
  (ret, mk_tips_cache (tips cache) set (tc_capacity cache)).

Definition tips_cache_set_solid (hp : heap) (cache : tips_cache_t) (tip : hash_t) : retcode_t * tips_cache_t * heap :=
  let solidify := hash243_set_contains (tips cache) tip in
  let '(ret, set) := if solidify then hash243_set_remove (tips cache) tip else (RC_OK, tips cache) in
  let cache := mk_tips_cache set (solid_tips cache) (tc_capacity cache) in
  if negb (bool_decide (ret = RC_OK)) then (ret, cache, hp) else
  if solidify then
    let '(ret, set, hp) := tips_cache_fifo_add hp (solid_tips cache) (tc_capacity cache) tip in
    (ret, mk_tips_cache (tips cache) set (tc_capacity cache), hp)
  else (ret, cache, hp).

Definition tips_cache_non_solid_size (cache : tips_cache_t) : Z := hash243_set_size (tips cache).
Definition tips_cache_solid_size (cache : tips_cache_t) : Z := hash243_set_size (solid_tips cache).
Definition tips_cache_size (cache : tips_cache_t) : Z :=
  u64 (hash243_set_size (tips cache) + hash243_set_size (solid_tips cache)).

Definition tips_cache_random_tip (index : nat) (cache : tips_cache_t) (tip : hash_t) : retcode_t * hash_t :=
  tips_cache_random_tip_from_set index (tips cache) tip.
Definition tips_cache_random_solid_tip (index : nat) (cache : tips_cache_t) (tip : hash_t) : retcode_t * hash_t :=
  tips_cache_random_tip_from_set index (solid_tips cache) tip.

(** ** The cache of recently seen bytes

    A map from 64-bit digests to hashes, over uthash like the maps of hashes. *)

Record recent_seen_bytes_cache_t := mk_rsb { rsb_map : list (Z * hash_t); rsb_capacity : Z; rsb_miss : Z; rsb_hit : Z }.

Fixpoint find_digest (map : list (Z * hash_t)) (digest : Z) : option hash_t :=
  match map with
  | [] => None
  | (k, v) :: map => if k =? digest then Some v else find_digest map digest
  end.

Definition recent_seen_bytes_cache_init (capacity : Z) : recent_seen_bytes_cache_t := mk_rsb [] capacity 0 0.

Definition recent_seen_bytes_cache_get (cache : recent_seen_bytes_cache_t) (digest : Z) (hash : hash_t)
    : retcode_t * recent_seen_bytes_cache_t * hash_t * bool :=
  match find_digest (rsb_map cache) digest with
  | Some value => (RC_OK, mk_rsb (rsb_map cache) (rsb_capacity cache) (rsb_miss cache) (u64 (rsb_hit cache + 1)), value, true)
  | None => (RC_OK, mk_rsb (rsb_map cache) (rsb_capacity cache) (u64 (rsb_miss cache + 1)) (rsb_hit cache), hash, false)
  end.

Definition recent_seen_bytes_cache_put (hp : heap) (cache : recent_seen_bytes_cache_t) (digest : Z) (hash : hash_t)
    : retcode_t * recent_seen_bytes_cache_t * heap :=
  let put map := mk_rsb map (rsb_capacity cache) (rsb_miss cache) (rsb_hit cache) in
  match find_digest (rsb_map cache) digest with
  | Some _ => (RC_OK, cache, hp)
  | None =>
      let '(ret, map) :=
        if rsb_capacity cache <=? Z.of_nat (length (rsb_map cache)) then remove_oldest (rsb_map cache) else (RC_OK, rsb_map cache) in
      if negb (bool_decide (ret = RC_OK)) then (ret, put map, hp) else
      let '(ok, hp) := malloc hp in
      if negb ok then (RC_OOM, put map, hp) else (RC_OK, put (map ++ [(digest, hash)]), hp)
  end.

Definition recent_seen_bytes_cache_size (cache : recent_seen_bytes_cache_t) : Z := Z.of_nat (length (rsb_map cache)).

(** ** The transaction requester *)

(** [requester_queue_size] is in the configuration of the node. *)
Record transaction_requester_t := mk_requester {
  requester_running : bool; hashes : hash243_set; requested_hashes : hash243_set; requester_queue_size : Z
}.

Definition requester_init (queue_size : Z) : transaction_requester_t := mk_requester false [] [] queue_size.

Definition requester_destroy (r : transaction_requester_t) : retcode_t * transaction_requester_t :=
  if requester_running r then (RC_STILL_RUNNING, r)
  else (RC_OK, mk_requester false (hash243_set_free (hashes r)) (requested_hashes r) (requester_queue_size r)).

Definition requester_get_requested_transactions (hp : heap) (r : transaction_requester_t) (stack : hash243_stack)
    : retcode_t * hash243_stack * heap :=
  let '(ret, stack, hp) := push_set hp (hashes r) stack in
  if negb (bool_decide (ret = RC_OK)) then push_set hp (requested_hashes r) stack else (ret, stack, hp).

Definition requester_size (r : transaction_requester_t) : Z :=
  u64 (hash243_set_size (hashes r) + hash243_set_size (requested_hashes r)).

Definition requester_is_full (r : transaction_requester_t) : bool := requester_queue_size r <=? hash243_set_size (hashes r).

Definition requester_clear_request (r : transaction_requester_t) (hash : hash_t) : retcode_t * transaction_requester_t :=
  let '(_, hs) := hash243_set_remove (hashes r) hash in
  let '(_, rs) := hash243_set_remove (requested_hashes r) hash in
  (RC_OK, mk_requester (requester_running r) hs rs (requester_queue_size r)).

Definition requester_was_requested (r : transaction_requester_t) (hash : hash_t) : retcode_t * bool :=
  (RC_OK, hash243_set_contains (requested_hashes r) hash).

Definition put_hashes (hs : hash243_set) (r : transaction_requester_t) : transaction_requester_t :=
  mk_requester (requester_running r) hs (requested_hashes r) (requester_queue_size r).

Definition request_transaction {DB} {SQ : Sqlite DB} (hp : heap) (r : transaction_requester_t) (db : DB) (hash : hash_t)
    : retcode_t * transaction_requester_t * heap :=
  if flex_trits_are_null hash 243 then (RC_OK, r, hp) else
  let '(ret, exists_) := iota_tangle_transaction_exist db TRANSACTION_FIELD_HASH (Some hash) SqlNull false in
  if negb (bool_decide (ret = RC_OK)) then (ret, r, hp) else
  if exists_ then (RC_OK, r, hp) else
  let '(ret, hs) := if requester_queue_size r <=? hash243_set_size (hashes r) then remove_oldest (hashes r) else (RC_OK, hashes r) in
  if negb (bool_decide (ret = RC_OK)) then (ret, put_hashes hs r, hp) else
  let '(ret, hs, hp) := hash243_set_add hp hs hash in
  (ret, put_hashes hs r, hp).

Definition get_transaction_to_request (hp : heap) (r : transaction_requester_t) (hash : hash_t)
    : retcode_t * transaction_requester_t * hash_t * heap :=
  match hashes r with
  | first :: _ =>
      let '(_, hs) := remove_oldest (hashes r) in
      let '(_, rs, hp) := hash243_set_add hp (requested_hashes r) first in
      (RC_OK, mk_requester (requester_running r) hs rs (requester_queue_size r), first, hp)
  | [] => (RC_OK, r, memset FLEX_TRIT_NULL_VALUE 243 hash, hp)
  end.

(** * Lemmas *)

Lemma set_add_plain set h : hash243_set_add [] set h = (RC_OK, if bool_decide (h ∈ set) then set else set ++ [h], []).
Proof. unfold hash243_set_add, hash243_set_contains. by destruct (bool_decide (h ∈ set)). Qed.

Lemma set_add_cases hp set h ret set' hp' : hash243_set_add hp set h = (ret, set', hp') ->
  set' = set \/ ((h ∉ set) /\ set' = set ++ [h]).
Proof.
  unfold hash243_set_add, hash243_set_contains. destruct (bool_decide_reflect (h ∈ set)); cbn [negb]; [intros [= <- <- <-]; auto|].
  destruct (malloc hp) as [[] hp1]; cbn [negb]; intros [= <- <- <-]; auto.
Qed.

Lemma set_add_ok hp set h set' hp' : hash243_set_add hp set h = (RC_OK, set', hp') ->
  set' = if bool_decide (h ∈ set) then set else set ++ [h].
Proof.
  unfold hash243_set_add, hash243_set_contains. destruct (bool_decide (h ∈ set)); cbn [negb]; [congruence|].
  destruct (malloc hp) as [[] hp1]; cbn [negb]; congruence.
Qed.

Lemma set_add_NoDup hp set h ret set' hp' : NoDup set -> hash243_set_add hp set h = (ret, set', hp') -> NoDup set'.
Proof.
  intros Hd [->|[Hn ->]]%set_add_cases; [done|]. apply list.NoDup_app. split; [done|]. split; [|apply list.NoDup_singleton].
  intros x Hx. rewrite list_elem_of_singleton. by intros ->.
Qed.

Lemma NoDup_tail {A} (l : list A) : NoDup l -> NoDup (tail l).
Proof. destruct l; [done|]. by intros [_ H]%list.NoDup_cons. Qed.

Lemma elem_of_tail {A} (x : A) l : x ∈ tail l -> x ∈ l.
Proof. destruct l; [done|]. rewrite list.elem_of_cons. auto. Qed.

Lemma elem_of_set_del set h x : NoDup set -> ((x ∈ set_del set h) <-> (x ∈ set) /\ x <> h).
Proof.
  induction set as [|k set IH]; cbn [set_del]; [intros _; split; [by intros ?%not_elem_of_nil|by intros [?%not_elem_of_nil _]]|].
  intros [Hk Hd]%list.NoDup_cons. destruct (decide (k = h)) as [->|Hne]; rewrite !list.elem_of_cons.
  - split; [intros Hx; split; [auto|]; by intros ->|]. intros [[->|Hx] Hn]; [done|done].
  - rewrite IH by done. split; [intros [->|[H1 H2]]; auto|]. intros [[->|H1] H2]; auto.
Qed.

Lemma set_del_sub set h : set_del set h `sublist_of` set.
Proof.
  induction set as [|k set IH]; cbn [set_del]; [done|]. destruct (decide (k = h)); [by apply sublist_cons|by apply sublist_skip].
Qed.

Lemma sublist_keeps (s l : hash243_set) : s `sublist_of` l ->
  (NoDup l -> NoDup s) /\ (length s <= length l)%nat /\ (forall x, x ∈ s -> x ∈ l).
Proof.
  intros H. split_and!; [intros; by eapply sublist_NoDup|by apply sublist_length|].
  intros x Hx. by eapply elem_of_submseteq, sublist_submseteq.
Qed.

(** ** The tips cache *)

(** A set of the cache: no duplicates, no more than the capacity (one at least). *)
Record fifo_ok (cap : Z) (set : hash243_set) : Prop := {
  fo_unique : NoDup set;
  fo_size : Z.of_nat (length set) <= Z.max 1 cap
}.

Lemma fifo_ok_sublist cap s l : s `sublist_of` l -> fifo_ok cap l -> fifo_ok cap s.
Proof. intros (H1 & H2 & _)%sublist_keeps [H3 H4]. split; [auto|lia]. Qed.

Lemma fifo_add_ok hp set cap tip ret set' hp' : 0 <= cap < 2 ^ 32 -> fifo_ok cap set ->
  tips_cache_fifo_add hp set cap tip = (ret, set', hp') ->
  fifo_ok cap set' /\ forall x, x ∈ set' -> x ∈ set \/ x = tip.
Proof.
  intros Hc [Hd Hs] E. unfold tips_cache_fifo_add, hash243_set_size, uwrap, remove_oldest in E.
  rewrite Z.mod_small in E by lia.
  assert (forall s, s `sublist_of` set -> Z.of_nat (length s) < Z.max 1 cap -> hash243_set_add hp s tip = (ret, set', hp') ->
    fifo_ok cap set' /\ forall x, x ∈ set' -> x ∈ set \/ x = tip) as H.
  { intros s (H1 & H2 & H3)%sublist_keeps Hl Ea. split.
    - split; [by eapply set_add_NoDup; [apply H1, Hd|exact Ea]|].
      apply set_add_cases in Ea as [->|[_ ->]]; [lia|]. rewrite length_app. cbn [length]. lia.
    - apply set_add_cases in Ea as [->|[_ ->]]; intros x; [auto|]. rewrite list.elem_of_app, list_elem_of_singleton. naive_solver. }
  destruct (Z.leb_spec cap (Z.of_nat (length set))); cbn [negb] in E; rewrite bool_decide_eq_true_2 in E by done; cbn [negb] in E.
  - eapply H; [|..|exact E].
    + destruct set; [done|]. by apply sublist_cons.
    + destruct set; cbn [tail length] in *; lia.
  - eapply H; [done|lia|exact E].
Qed.

Inductive tips_cache_op := OpAdd (tip : hash_t) | OpRemove (tip : hash_t) | OpSetSolid (tip : hash_t).

(** One operation, whatever it returns. *)
Definition tips_cache_do (hp : heap) (cache : tips_cache_t) (op : tips_cache_op) : tips_cache_t * heap :=
  match op with
  | OpAdd tip => let '(_, cache, hp) := tips_cache_add hp cache tip in (cache, hp)
  | OpRemove tip => let '(_, cache) := tips_cache_remove cache tip in (cache, hp)
  | OpSetSolid tip => let '(_, cache, hp) := tips_cache_set_solid hp cache tip in (cache, hp)
  end.

Fixpoint tips_cache_run (hp : heap) (cache : tips_cache_t) (ops : list tips_cache_op) : tips_cache_t :=
  match ops with
  | [] => cache
  | op :: ops => let '(cache, hp) := tips_cache_do hp cache op in tips_cache_run hp cache ops
  end.

(** What a history [past] allows in a cache. *)
Record cache_ok (cap : Z) (past : list tips_cache_op) (cache : tips_cache_t) : Prop := {
  co_capacity : tc_capacity cache = cap;
  co_tips : fifo_ok cap (tips cache);
  co_solid : fifo_ok cap (solid_tips cache);
  co_added : forall t, t ∈ tips cache -> OpAdd t ∈ past;
  co_solidified : forall t, t ∈ solid_tips cache -> (OpAdd t ∈ past) /\ (OpSetSolid t ∈ past)
}.

Lemma cache_do_ok hp cap past cache op cache' hp' : 0 <= cap < 2 ^ 32 -> cache_ok cap past cache ->
  tips_cache_do hp cache op = (cache', hp') -> cache_ok cap (past ++ [op]) cache'.
Proof.
  intros Hc [Hcap Ht Hs Ha Hb] E. destruct op as [tip|tip|tip]; cbn [tips_cache_do] in E.
  - unfold tips_cache_add in E. destruct (tips_cache_fifo_add _ _ _ _) as [[ret set] hp1] eqn:Ef. injection E as <- <-.
    rewrite Hcap in Ef. apply fifo_add_ok in Ef as [H1 H2]; [|done..].
    split; cbn [tc_capacity tips solid_tips]; try done; intros t; rewrite !list.elem_of_app, ?list_elem_of_singleton; naive_solver.
  - unfold tips_cache_remove, hash243_set_remove in E. rewrite bool_decide_eq_true_2 in E by done. cbn [negb] in E.
    injection E as <- <-. pose proof (set_del_sub (tips cache) tip) as H1. pose proof (set_del_sub (solid_tips cache) tip) as H2.
    split; cbn [tc_capacity tips solid_tips]; [done|by eapply fifo_ok_sublist|by eapply fifo_ok_sublist|..]; intros t;
      rewrite !list.elem_of_app; intros Hx; [apply sublist_keeps in H1|apply sublist_keeps in H2]; naive_solver.
  - unfold tips_cache_set_solid, hash243_set_contains, hash243_set_remove in E.
    destruct (bool_decide_reflect (tip ∈ tips cache)) as [Hin|]; cbn [tips solid_tips tc_capacity] in E;
      rewrite bool_decide_eq_true_2 in E by done; cbn [negb] in E.
    + destruct (tips_cache_fifo_add _ _ _ _) as [[ret set] hp1] eqn:Ef. injection E as <- <-. rewrite Hcap in Ef.
      apply fifo_add_ok in Ef as [H1 H2]; [|done..]. pose proof (set_del_sub (tips cache) tip) as H3.
      split; cbn [tc_capacity tips solid_tips]; [done|by eapply fifo_ok_sublist|done|..]; intros t;
        rewrite !list.elem_of_app, ?list_elem_of_singleton; [apply sublist_keeps in H3|]; naive_solver.
    + injection E as <- <-. split; cbn [tc_capacity tips solid_tips]; try done; intros t; rewrite !list.elem_of_app; naive_solver.
Qed.

Lemma cache_run_ok cap ops : 0 <= cap < 2 ^ 32 -> forall hp past cache, cache_ok cap past cache ->
  cache_ok cap (past ++ ops) (tips_cache_run hp cache ops).
Proof.
  intros Hc. induction ops as [|op ops IH]; intros hp past cache Hok; cbn [tips_cache_run]; [by rewrite app_nil_r|].
  destruct (tips_cache_do hp cache op) as [cache' hp'] eqn:E. apply (cache_do_ok _ _ _ _ _ _ _ Hc Hok) in E.
  apply (IH hp') in E. by rewrite <- app_assoc in E.
Qed.

(** Whatever the sequence of operations and whichever allocations fail, the two
    sets of a tips cache have no duplicates and at most the capacity of entries; a
    cached tip has been added, and a solid one has been set solid too. *)
Theorem tips_cache_bounded cap ops hp : 0 <= cap < 2 ^ 32 ->
  let cache := tips_cache_run hp (tips_cache_init cap) ops in
  NoDup (tips cache) /\ NoDup (solid_tips cache) /\
  tips_cache_non_solid_size cache <= Z.max 1 cap /\ tips_cache_solid_size cache <= Z.max 1 cap /\
  (forall t, t ∈ tips cache -> OpAdd t ∈ ops) /\
  (forall t, t ∈ solid_tips cache -> (OpAdd t ∈ ops) /\ (OpSetSolid t ∈ ops)).
Proof.
  intros Hc cache. assert (cache_ok cap ([] ++ ops) cache) as [_ [H1 H2] [H3 H4] H5 H6].
  { assert (fifo_ok cap []) as H0 by (split; [constructor|cbn; lia]).
    apply cache_run_ok; [done|]. split; [done|exact H0|exact H0|..]; intros t Ht; by apply not_elem_of_nil in Ht. }
  split_and!; [done|done| | |exact H5|exact H6]; unfold tips_cache_non_solid_size, tips_cache_solid_size, hash243_set_size, uwrap;
    rewrite Z.mod_small by lia; lia.
Qed.

Lemma tips_cache_bounded_witness :
  let h n := [n] in
  let cache := tips_cache_run [true; false] (tips_cache_init 2) [OpAdd (h 1); OpAdd (h 2); OpAdd (h 3); OpSetSolid (h 3); OpAdd (h 4)] in
  tips_cache_non_solid_size cache <= 2 /\ tips_cache_solid_size cache <= 2.
Proof.
  destruct (tips_cache_bounded 2 [OpAdd [1]; OpAdd [2]; OpAdd [3]; OpSetSolid [3]; OpAdd [4]] [true; false] ltac:(lia))
    as (_ & _ & H1 & H2 & _).
  split; [exact H1|exact H2].
Defined.

(** The last [cap] entries. *)
Definition newest (cap : nat) (l : list hash_t) : list hash_t := drop (length l - cap) l.

Lemma newest_snoc cap l x : (1 <= cap)%nat ->
  newest cap (l ++ [x]) = (if (cap <=? length (newest cap l))%nat then tail (newest cap l) else newest cap l) ++ [x].
Proof.
  intros Hc. unfold newest. rewrite length_app, length_drop. cbn [length].
  destruct (Nat.leb_spec cap (length l - (length l - cap))).
  - rewrite drop_app_le by lia. f_equal. replace (length l + 1 - cap)%nat with (S (length l - cap)) by lia.
    clear. generalize (length l - cap)%nat as n. induction l as [|y l IH]; intros [|n]; try done. cbn [drop tail].
    rewrite <- IH. by destruct n.
  - replace (length l + 1 - cap)%nat with 0%nat by lia. by replace (length l - cap)%nat with 0%nat by lia.
Qed.

Lemma length_newest cap l : (length (newest cap l) <= cap)%nat.
Proof. unfold newest. rewrite length_drop. lia. Qed.

Lemma elem_of_newest cap l x : x ∈ newest cap l -> x ∈ l.
Proof. unfold newest. intros H. rewrite <- (take_drop (length l - cap) l), list.elem_of_app. auto. Qed.

(** A tips cache is first in, first out: after adding different tips one after the
    other, every call has succeeded and the cache holds the last ones, in order, as
    many as its capacity. *)
Theorem tips_cache_keeps_newest (cap : nat) (l : list hash_t) : (1 <= cap)%nat -> Z.of_nat cap < 2 ^ 32 -> NoDup l ->
  let cache := tips_cache_run [] (tips_cache_init (Z.of_nat cap)) (map OpAdd l) in
  tips cache = newest cap l /\
  forall tip, tip ∉ l -> tips_cache_add [] cache tip = (RC_OK, mk_tips_cache (newest cap (l ++ [tip])) [] (Z.of_nat cap), []).
Proof.
  intros H1 Hc. cbv zeta.
  assert (forall past tip, tip ∉ past ->
    tips_cache_add [] (mk_tips_cache (newest cap past) [] (Z.of_nat cap)) tip =
    (RC_OK, mk_tips_cache (newest cap (past ++ [tip])) [] (Z.of_nat cap), [])) as Hadd.
  { intros past tip Hn. pose proof (length_newest cap past). unfold tips_cache_add. cbn [tips solid_tips tc_capacity].
    unfold tips_cache_fifo_add, hash243_set_size, uwrap, remove_oldest. rewrite Z.mod_small by lia.
    rewrite newest_snoc by done.
    replace (Z.of_nat cap <=? Z.of_nat (length (newest cap past))) with (cap <=? length (newest cap past))%nat
      by (destruct (Nat.leb_spec cap (length (newest cap past))); symmetry; [apply Z.leb_le|apply Z.leb_gt]; lia).
    destruct (cap <=? _)%nat; rewrite bool_decide_eq_true_2 by done; cbn [negb]; rewrite set_add_plain, bool_decide_eq_false_2; try done.
    - intros Hx%elem_of_tail%elem_of_newest. done.
    - by intros Hx%elem_of_newest. }
  assert (forall past, NoDup (past ++ l) ->
    tips_cache_run [] (mk_tips_cache (newest cap past) [] (Z.of_nat cap)) (map OpAdd l) =
    mk_tips_cache (newest cap (past ++ l)) [] (Z.of_nat cap)) as Hrun.
  { induction l as [|x l IH]; intros past Hd; cbn [map tips_cache_run]; [by rewrite app_nil_r|]. cbn [tips_cache_do].
    rewrite Hadd; [|apply list.NoDup_app in Hd as (_ & Hd & _); intros Hx; apply (Hd x Hx); left].
    rewrite IH; by rewrite <- app_assoc. }
  intros Hd. rewrite (Hrun [] Hd : tips_cache_run [] (tips_cache_init (Z.of_nat cap)) (map OpAdd l) = _). cbn [app tips].
  split; [done|]. intros tip Hn. by rewrite Hadd.
Qed.

Lemma tips_cache_keeps_newest_witness :
  tips (tips_cache_run [] (tips_cache_init 2) (map OpAdd [[1]; [2]; [3]])) = [[2]; [3]].
Proof.
  refine (proj1 (tips_cache_keeps_newest 2 [[1]; [2]; [3]] _ _ _)); [lia|lia|]. apply (bool_decide_unpack _). vm_compute. exact I.
Defined.

(** A tip that is already cached evicts the oldest one when the cache is full. *)
Lemma known_tip_evicts :
  let cache := mk_tips_cache [[1]; [2]] [] 2 in tips_cache_add [] cache [2] = (RC_OK, mk_tips_cache [[2]] [] 2, []).
Proof. reflexivity. Qed.

(** ** The transaction requester *)

Inductive requester_event := Requested (hash : hash_t) | Served (hash : hash_t) | Cleared (hash : hash_t).

(** What the threads of the node do to the requester, while memory lasts; [r] has no
    event when the call changes nothing. *)
Inductive requester_step {DB} {SQ : Sqlite DB} : transaction_requester_t -> list requester_event -> transaction_requester_t -> Prop :=
| step_request (db : DB) hash ret r r' hp : request_transaction [] r db hash = (ret, r', hp) -> requester_step r [Requested hash] r'
| step_serve out ret r r' hash hp : hashes r <> [] -> get_transaction_to_request [] r out = (ret, r', hash, hp) ->
    requester_step r [Served hash] r'
| step_idle out ret r r' hash hp : hashes r = [] -> get_transaction_to_request [] r out = (ret, r', hash, hp) ->
    requester_step r [] r'
| step_clear hash ret r r' : requester_clear_request r hash = (ret, r') -> requester_step r [Cleared hash] r'.

Inductive requester_steps {DB} {SQ : Sqlite DB} (r : transaction_requester_t) : list requester_event -> transaction_requester_t -> Prop :=
| steps_nil : requester_steps r [] r
| steps_snoc tr r1 e r2 : requester_steps r tr r1 -> requester_step (DB := DB) r1 e r2 -> requester_steps r (tr ++ e) r2.

(** Served, and not cleared since. *)
Definition outstanding (tr : list requester_event) (hash : hash_t) : Prop :=
  exists before after, tr = before ++ Served hash :: after /\ Cleared hash ∉ after.

Lemma outstanding_snoc tr e hash : outstanding (tr ++ [e]) hash <-> e = Served hash \/ (outstanding tr hash /\ e <> Cleared hash).
Proof.
  split.
  - intros (before & after & E & Hc). destruct after as [|e' after' _] using rev_ind.
    + apply app_inj_tail in E as [_ ->]. auto.
    + rewrite app_comm_cons, app_assoc in E. apply app_inj_tail in E as [-> ->]. right.
      rewrite list.elem_of_app, list_elem_of_singleton in Hc. split; [exists before, after'; tauto|]. intros ->. tauto.
  - intros [->|((before & after & -> & Hc) & Hne)].
    + exists tr, []. split; [done|apply not_elem_of_nil].
    + exists before, (after ++ [e]). split; [by rewrite <- app_assoc|]. rewrite list.elem_of_app, list_elem_of_singleton.
      intros [H|H]; [done|by subst].
Qed.

(** The state of the requester after the events [tr]. *)
Record requester_ok (size : Z) (tr : list requester_event) (r : transaction_requester_t) : Prop := {
  rq_size : requester_queue_size r = size;
  rq_waiting : fifo_ok size (hashes r);
  rq_unique : NoDup (requested_hashes r);
  rq_outstanding : forall h, (h ∈ requested_hashes r) <-> outstanding tr h;
  rq_requested : forall h, h ∈ hashes r -> (Requested h ∈ tr) /\ flex_trits_are_null h 243 = false;
  rq_served : forall before h after, tr = before ++ Served h :: after ->
    (Requested h ∈ before) /\ flex_trits_are_null h 243 = false
}.

Lemma served_snoc tr e (P : hash_t -> Prop) :
  (forall before h after, tr = before ++ Served h :: after -> (Requested h ∈ before) /\ P h) ->
  (forall h, e = Served h -> (Requested h ∈ tr) /\ P h) ->
  forall before h after, tr ++ [e] = before ++ Served h :: after -> (Requested h ∈ before) /\ P h.
Proof.
  intros H1 H2 before h after E. destruct after as [|e' after' _] using rev_ind.
  - apply app_inj_tail in E as [-> ->]. by apply H2.
  - rewrite app_comm_cons, app_assoc in E. apply app_inj_tail in E as [-> ->]. by eapply H1.
Qed.

(** Of the events only a service or a clearance changes what is outstanding. *)
Lemma outstanding_request tr h h' : outstanding (tr ++ [Requested h']) h <-> outstanding tr h.
Proof. rewrite outstanding_snoc. naive_solver. Qed.

Section Requester.
Context {DB : Type} {SQ : Sqlite DB}.

Lemma request_ok size tr r (db : DB) hash ret r' hp : 0 <= size < 2 ^ 32 -> requester_ok size tr r ->
  request_transaction [] r db hash = (ret, r', hp) -> requester_ok size (tr ++ [Requested hash]) r'.
Proof.
  intros Hsz [Hs Hw Hu Ho Hr Hv] E.
  assert (forall hs, fifo_ok size hs -> (forall h, h ∈ hs -> h ∈ hashes r \/ (h = hash /\ flex_trits_are_null hash 243 = false)) ->
    requester_ok size (tr ++ [Requested hash]) (put_hashes hs r)) as Hk.
  { intros hs Hf Hh. split; cbn [put_hashes requester_queue_size hashes requested_hashes]; try done.
    - intros h. by rewrite outstanding_request.
    - intros h [H|[-> H]]%Hh; rewrite list.elem_of_app, list_elem_of_singleton; [apply Hr in H|]; tauto.
    - by apply served_snoc. }
  assert (put_hashes (hashes r) r = r) as Hsame by (by destruct r).
  assert (requester_ok size (tr ++ [Requested hash]) r) as Hid by (rewrite <- Hsame; apply Hk; auto).
  unfold request_transaction in E. destruct (flex_trits_are_null hash 243) eqn:En; [by injection E as <- <- <-|].
  destruct (iota_tangle_transaction_exist _ _ _ _ _) as [r1 ex]. destruct (negb _); [by injection E as <- <- <-|].
  destruct ex; [by injection E as <- <- <-|]. rewrite Hs in E.
  destruct (tips_cache_fifo_add [] (hashes r) size hash) as [[r2 hs] hp2] eqn:Ef.
  assert (r' = put_hashes hs r) as ->.
  { unfold tips_cache_fifo_add in Ef. destruct (size <=? _); unfold remove_oldest in *;
      rewrite bool_decide_eq_true_2 in E, Ef by done; cbn [negb] in E, Ef; rewrite Ef in E; by injection E as <- <- <-. }
  apply fifo_add_ok in Ef as [H1 H2]; [|done..]. apply Hk; [done|]. intros h [H|H]%H2; auto.
Qed.

Lemma serve_ok size tr r out ret r' hash hp : requester_ok size tr r -> hashes r <> [] ->
  get_transaction_to_request [] r out = (ret, r', hash, hp) -> requester_ok size (tr ++ [Served hash]) r'.
Proof.
  intros [Hs Hw Hu Ho Hr Hv] Hne E. unfold get_transaction_to_request in E. destruct (hashes r) as [|first rest]; [done|].
  unfold remove_oldest in E. rewrite set_add_plain in E. injection E as <- <- <- <-. cbn [tail].
  assert (rest `sublist_of` first :: rest) as Hsub by (by apply sublist_cons).
  split; cbn [requester_queue_size hashes requested_hashes]; try done.
  - by eapply fifo_ok_sublist.
  - eapply set_add_NoDup; [exact Hu|apply (set_add_plain _ first)].
  - intros h. rewrite outstanding_snoc, <- Ho. destruct (bool_decide_reflect (first ∈ requested_hashes r)).
    + naive_solver.
    + rewrite list.elem_of_app, list_elem_of_singleton. naive_solver.
  - intros h Hh. rewrite list.elem_of_app. destruct (Hr h); [by right|]. auto.
  - apply served_snoc; [done|]. intros h [= <-]. apply Hr. left.
Qed.

Lemma clear_ok size tr r hash ret r' : requester_ok size tr r -> requester_clear_request r hash = (ret, r') ->
  requester_ok size (tr ++ [Cleared hash]) r'.
Proof.
  intros [Hs Hw Hu Ho Hr Hv] E. unfold requester_clear_request, hash243_set_remove in E. injection E as <- <-.
  pose proof (set_del_sub (hashes r) hash) as H1. pose proof (set_del_sub (requested_hashes r) hash) as H2.
  split; cbn [requester_queue_size hashes requested_hashes]; [done|by eapply fifo_ok_sublist| | | |].
  - by apply (sublist_keeps _ _ H2).
  - intros h. rewrite elem_of_set_del, Ho, outstanding_snoc by done. naive_solver.
  - intros h Hh. rewrite list.elem_of_app. destruct (Hr h); [by apply (sublist_keeps _ _ H1)|]. auto.
  - by apply served_snoc.
Qed.

End Requester.


(** The list of the requested transactions leaves out those that have been handed out. *)
Lemma requested_transactions_incomplete :
  requester_get_requested_transactions [] (mk_requester true [[1]] [[2]] 10) [] = (RC_OK, [[1]], []).
Proof. reflexivity. Qed.
