(* ===== verification/Pruning.v ===== *)
(** * Pruning

    [ciri/consensus/snapshot/local_snapshots/pruning_service.c]: the transactions behind
    the milestones that the last local snapshot covers are collected, the addresses they
    spent from are recorded, and they are deleted. *)
From S2P Require Import Prelude Errors TritLong Sponge Sign Transaction Bundle Containers.
From S2P Require Import StateDelta Snapshot Statements Sqlite Tangle Traversal Ledger SpentAddresses Caches.

(** The flag [running] and the handles of the thread are left out; the lock guards one field. *)
Record pruning_service_t := mk_ps {
  ps_genesis_hash : hash_t; last_pruned_snapshot_index : Z; last_snapshot_index_to_prune : Z;
  ps_solid_entry_points : hash243_set; ps_tips_cache : tips_cache_t
}.

Definition put_pruned (index : Z) (ps : pruning_service_t) : pruning_service_t :=
  mk_ps (ps_genesis_hash ps) index (last_snapshot_index_to_prune ps) (ps_solid_entry_points ps) (ps_tips_cache ps).
Definition put_tips (cache : tips_cache_t) (ps : pruning_service_t) : pruning_service_t :=
  mk_ps (ps_genesis_hash ps) (last_pruned_snapshot_index ps) (last_snapshot_index_to_prune ps) (ps_solid_entry_points ps) cache.

Definition iota_local_snapshots_pruning_service_init (genesis_hash : hash_t) (initial_snapshot : snapshot_t) (tips_cache : tips_cache_t)
    : pruning_service_t :=
  let index := sm_index (sn_metadata initial_snapshot) in mk_ps genesis_hash index index [] tips_cache.

Definition iota_local_snapshots_pruning_service_update_current_snapshot hp (ps : pruning_service_t) (snapshot : snapshot_t)
    : pruning_service_t * heap :=
  let '(keys, hp) := iota_snapshot_solid_entry_points_set hp snapshot [] in
  (mk_ps (ps_genesis_hash ps) (last_pruned_snapshot_index ps) (sm_index (sn_metadata snapshot)) keys (ps_tips_cache ps), hp).

Definition get_last_snapshot_to_prune_index (ps : pruning_service_t) : Z := last_snapshot_index_to_prune ps.

(** Fuel of the traversals, and what the other calls need. *)
Record prune_env := mk_prune_env { pe_fuel : nat; pe_spent : spent_env; pe_milestone : iota_milestone_t }.

Section Pruning.
Context {DB : Type} {SQ : Sqlite DB} {SDB : Type} {SQS : Sqlite SDB} {St : Type} {Sp : Sponge St} {SI : SpongeInit St}.
Implicit Types (env : prune_env) (ps : pruning_service_t) (db : DB) (sap : SDB) (hp : heap) (hash : hash_t).

Definition collect_unconfirmed_future_transactions_for_pruning_do_func env : tangle_traversal_functor DB unit :=
  fun db hp hash pack data _ _ =>
    if (num_loaded pack =? 0)%nat then Some (mk_result RC_OK db hp data false false) else
    Some (mk_result RC_OK db hp data (transaction_snapshot_index (single_tx pack (se_tx (pe_spent env))) =? 0) false).

(** The data is [transactions_to_prune], which is the set of the analyzed hashes of both
    traversals. *)
Definition collect_transactions_for_pruning_do_func env (current_snapshot_index : Z) : tangle_traversal_functor DB hash243_set :=
  fun db hp hash pack transactions_to_prune _ _ =>
    if (num_loaded pack =? 0)%nat then Some (mk_result RC_OK db hp transactions_to_prune false false) else
    if current_snapshot_index <=? transaction_snapshot_index (single_tx pack (se_tx (pe_spent env))) then
      match tangle_traversal_dfs_to_future (pe_fuel env) (se_fuel (pe_spent env)) (se_hash (pe_spent env)) (se_tx (pe_spent env)) db hp
              (collect_unconfirmed_future_transactions_for_pruning_do_func env) hash transactions_to_prune tt with
      | None => None
      | Some r => Some (mk_result (t_ret r) (t_db r) (t_heap r) (t_analyzed r) true (negb (bool_decide (t_ret r = RC_OK))))
      end
    else Some (mk_result RC_OK db hp transactions_to_prune false false).

(** [tangle_traversal_dfs_to_past] when the functor works on the set of analyzed hashes: the
    data of the functor is that set. *)
Fixpoint shared_past_loop (fuel : nat) (func : tangle_traversal_functor DB hash243_set) db hp (non_analyzed_hashes : hash243_stack)
    (analyzed_hashes : hash243_set) (tx : iota_transaction_t) (branch stop : bool) : option (retcode_t * DB * hash243_set * heap) :=
  match fuel with
  | O => None
  | S fuel =>
      match hash243_stack_peek non_analyzed_hashes with
      | None => Some (RC_OK, db, analyzed_hashes, hp)
      | Some hash =>
          let non_analyzed_hashes := hash243_stack_pop non_analyzed_hashes in
          if negb (hash243_set_contains analyzed_hashes hash) then
            let '(ret, pack) := iota_tangle_transaction_load_partial db hash (DECLARE_PACK_SINGLE tx)
                                  PARTIAL_TX_MODEL_ESSENCE_ATTACHMENT_METADATA in
            if negb (bool_decide (ret = RC_OK)) then Some (ret, db, analyzed_hashes, hp) else
            let tx := single_tx pack tx in
            match func db hp hash pack analyzed_hashes branch stop with
            | None => None
            | Some r =>
              let analyzed_hashes := f_data r in
              if negb (bool_decide (f_ret r = RC_OK)) then Some (f_ret r, f_db r, analyzed_hashes, f_heap r) else
              if should_stop r then Some (RC_OK, f_db r, analyzed_hashes, f_heap r) else
              let '(ret, non_analyzed_hashes, hp) :=
                if should_branch r then
                  let '(ret, stack, hp) := hash243_stack_push (f_heap r) non_analyzed_hashes (transaction_branch tx) in
                  if negb (bool_decide (ret = RC_OK)) then (ret, stack, hp)
                  else hash243_stack_push hp stack (transaction_trunk tx)
                else (RC_OK, non_analyzed_hashes, f_heap r) in
              if negb (bool_decide (ret = RC_OK)) then Some (ret, f_db r, analyzed_hashes, hp) else
              let '(ret, analyzed_hashes, hp) := hash243_set_add hp analyzed_hashes hash in
              if negb (bool_decide (ret = RC_OK)) then Some (ret, f_db r, analyzed_hashes, hp) else
              shared_past_loop fuel func (f_db r) hp non_analyzed_hashes analyzed_hashes tx (should_branch r) (should_stop r)
            end
          else shared_past_loop fuel func db hp non_analyzed_hashes analyzed_hashes tx branch stop
      end
  end.

Definition shared_dfs_to_past (fuel : nat) (mem : iota_transaction_t) db hp (func : tangle_traversal_functor DB hash243_set)
    (entry_point genesis_hash : hash_t) (analyzed_hashes : hash243_set) : option (retcode_t * DB * hash243_set * heap) :=
  let '(ret, stack, hp) := hash243_stack_push hp [] entry_point in
  if negb (bool_decide (ret = RC_OK)) then Some (ret, db, analyzed_hashes, hp) else
  let '(ret, analyzed_hashes, hp) := hash243_set_add hp analyzed_hashes genesis_hash in
  if negb (bool_decide (ret = RC_OK)) then Some (ret, db, analyzed_hashes, hp) else
  shared_past_loop fuel func db hp stack analyzed_hashes mem true false.

(** The second [HASH_ITER]; [tx] is the transaction of the pack, [spent] its last value. *)
Fixpoint record_spent env db sap hp (cache : tips_cache_t) (hashes : list hash_t) (tx : iota_transaction_t) (spent : bool)
    : option (retcode_t * DB * SDB * tips_cache_t * heap) :=
  match hashes with
  | [] => Some (RC_OK, db, sap, cache, hp)
  | hash :: hashes =>
      let '(err, pack) := iota_tangle_transaction_load_partial db hash (DECLARE_PACK_SINGLE tx) PARTIAL_TX_MODEL_ESSENCE_METADATA in
      if negb (bool_decide (err = RC_OK)) then Some (err, db, sap, cache, hp) else
      let tx := single_tx pack tx in
      let '(err, cache) := tips_cache_remove cache hash in
      if negb (bool_decide (err = RC_OK)) then Some (err, db, sap, cache, hp) else
      if (0 <? num_loaded pack)%nat then
        match iota_spent_addresses_service_was_tx_spent_from (pe_spent env) db hp tx hash spent with
        | None => None
        | Some (err, spent, db, hp) =>
            if negb (bool_decide (err = RC_OK)) then Some (err, db, sap, cache, hp) else
            if spent then
              let '(err, sap) := iota_spent_addresses_provider_store sap (transaction_address tx) in
              if negb (bool_decide (err = RC_OK)) then Some (err, db, sap, cache, hp)
              else record_spent env db sap hp cache hashes tx spent
            else record_spent env db sap hp cache hashes tx spent
        end
      else record_spent env db sap hp cache hashes tx spent
  end.

(** What [collect_transactions_to_prune] leaves behind; its result is [RC_OK] whatever
    happens. *)
Record collected := mk_collected {
  co_db : DB; co_sap : SDB; co_cache : tips_cache_t; co_heap : heap; transactions_to_prune : hash243_set; has_solid_entry_points : bool
}.

Definition collect_transactions_to_prune env ps db sap hp (entry_point_hash : hash_t) : option collected :=
  let cache := ps_tips_cache ps in
  match shared_dfs_to_past (pe_fuel env) (se_tx (pe_spent env)) db hp
          (collect_transactions_for_pruning_do_func env (u64 (last_pruned_snapshot_index ps + 1))) entry_point_hash (ps_genesis_hash ps) [] with
  | None => None
  | Some (err, db, set, hp) =>
      if negb (bool_decide (err = RC_OK)) then Some (mk_collected db sap cache hp (hash243_set_free set) false) else
      let '(err, set) := hash243_set_remove set (ps_genesis_hash ps) in
      if negb (bool_decide (err = RC_OK)) then Some (mk_collected db sap cache hp (hash243_set_free set) false) else
      let has := existsb (hash243_set_contains (ps_solid_entry_points ps)) set in
      if has then Some (mk_collected db sap cache hp (hash243_set_free set) true) else
      match record_spent env db sap hp cache set (se_tx (pe_spent env)) false with
      | None => None
      | Some (err, db, sap, cache, hp) =>
          if negb (bool_decide (err = RC_OK)) then Some (mk_collected db sap cache hp (hash243_set_free set) false)
          else Some (mk_collected db sap cache hp set false)
      end
  end.

(** The service, the databases, the heap and [*should_wait_for_next_snapshot]; the result is
    [RC_OK] whatever happens. *)
Definition prune_transactions env ps db sap hp : option (pruning_service_t * DB * SDB * heap * bool) :=
  let '(err, pack) := iota_tangle_milestone_load_by_index db (u64 (last_pruned_snapshot_index ps + 1)) (DECLARE_PACK_SINGLE (pe_milestone env)) in
  if negb (bool_decide (err = RC_OK)) then Some (ps, db, sap, hp, false) else
  let hash := ms_hash (nth 0 (models pack) (pe_milestone env)) in
  match collect_transactions_to_prune env ps db sap hp hash with
  | None => None
  | Some c =>
      let ps := put_tips (co_cache c) ps in let db := co_db c in let sap := co_sap c in let hp := co_heap c in
      if has_solid_entry_points c then Some (ps, db, sap, hp, true) else
      let '(_, set) := hash243_set_remove (transactions_to_prune c) hash in
      let '(err, db) := iota_tangle_transactions_delete db set in
      if negb (bool_decide (err = RC_OK)) then Some (ps, db, sap, hp, false) else
      let '(_, set, hp) := hash243_set_add hp (hash243_set_free set) hash in
      let '(err, db) := iota_tangle_transactions_delete db set in
      if negb (bool_decide (err = RC_OK)) then Some (ps, db, sap, hp, false) else
      let '(err, db) := iota_tangle_milestone_delete db hash in
      if negb (bool_decide (err = RC_OK)) then Some (ps, db, sap, hp, false)
      else Some (put_pruned (u64 (last_pruned_snapshot_index ps + 1)) ps, db, sap, hp, false)
  end.

(** ** The thread *)

(** What it does before its loop, with the first milestone of the database. *)
Definition pruning_start env ps db : pruning_service_t :=
  let '(_, pack) := iota_tangle_milestone_load_first db (DECLARE_PACK_SINGLE (pe_milestone env)) in
  if (0 <? num_loaded pack)%nat then
    let index := i64 (ms_index (nth 0 (models pack) (pe_milestone env))) in
    put_pruned (u64 (Z.min (Z.max 0 (i64 (index - 1))) (i64 (last_pruned_snapshot_index ps)))) ps
  else ps.

(** The inner loop, after a signal; [None]: it has not ended. *)
Fixpoint pruning_loop (fuel : nat) env ps db sap hp : option (pruning_service_t * DB * SDB * heap) :=
  match fuel with
  | O => None
  | S fuel =>
      if last_pruned_snapshot_index ps <? get_last_snapshot_to_prune_index ps then
        match prune_transactions env ps db sap hp with
        | None => None
        | Some (ps, db, sap, hp, wait) => if wait then Some (ps, db, sap, hp) else pruning_loop fuel env ps db sap hp
        end
      else Some (ps, db, sap, hp)
  end.
End Pruning.
#[global] Arguments collected : clear implicits.

(** * Lemmas *)

Section Collect.
Context {DB : Type} {SQ : Sqlite DB} {L : SqliteLaws DB} {R : SqliteReliable DB}.
Context {SDB : Type} {SQS : Sqlite SDB} {St : Type} {Sp : Sponge St} {SI : SpongeInit St}.
Context (env : prune_env) (db : DB) (txs : list iota_transaction_t) (Hdb : contents db txs).
Implicit Types (hash : hash_t) (set : hash243_set) (tx : iota_transaction_t).

Abbreviation view := (view_of txs).

Lemma load_attachment hash tx :
  iota_tangle_transaction_load_partial db hash (DECLARE_PACK_SINGLE tx) PARTIAL_TX_MODEL_ESSENCE_ATTACHMENT_METADATA =
  (RC_OK, found_pack MODEL_TRANSACTION_ESSENCE_ATTACHMENT_METADATA (view hash) tx).
Proof.
  pose proof (view_contents db txs Hdb) as V. exact (load_view MODEL_TRANSACTION_ESSENCE_ATTACHMENT_METADATA hash tx).
Qed.

Lemma load_essence hash tx :
  iota_tangle_transaction_load_partial db hash (DECLARE_PACK_SINGLE tx) PARTIAL_TX_MODEL_ESSENCE_METADATA =
  (RC_OK, found_pack MODEL_TRANSACTION_ESSENCE_METADATA (view hash) tx).
Proof.
  pose proof (view_contents db txs Hdb) as V. exact (load_view MODEL_TRANSACTION_ESSENCE_METADATA hash tx).
Qed.

(** The traversal to the future of a confirmed transaction stops at once: the transactions
    that are not confirmed are never reached. *)
Lemma future_stops hash tx set : view hash = Some tx -> transaction_snapshot_index tx <> 0 -> hash ∉ set -> (2 <= pe_fuel env)%nat ->
  tangle_traversal_dfs_to_future (pe_fuel env) (se_fuel (pe_spent env)) (se_hash (pe_spent env)) (se_tx (pe_spent env)) db []
    (collect_unconfirmed_future_transactions_for_pruning_do_func env) hash set tt = Some (mk_traversal RC_OK db [] (set ++ [hash]) tt).
Proof.
  intros Hv Hi Hn Hf. destruct (pe_fuel env) as [|[|fuel]]; [lia|lia|]. unfold tangle_traversal_dfs_to_future.
  cbn [hash243_stack_push malloc negb]. rewrite (bool_decide_eq_true_2 (RC_OK = RC_OK)) by done. cbn [negb].
  rewrite hash_pack_init_nil. rewrite (bool_decide_eq_true_2 (RC_OK = RC_OK)) by done. cbn [negb].
  cbn [future_loop hash243_stack_peek head]. unfold hash243_set_contains at 1. rewrite bool_decide_eq_false_2 by done. cbn [negb].
  rewrite load_attachment, Hv. rewrite (bool_decide_eq_true_2 (RC_OK = RC_OK)) by done. cbn [negb found_pack].
  unfold collect_unconfirmed_future_transactions_for_pruning_do_func at 1. cbn [num_loaded Nat.eqb f_ret f_db f_heap f_data should_stop should_branch].
  rewrite (bool_decide_eq_true_2 (RC_OK = RC_OK)) by done. cbn [negb]. rewrite set_add_nil by done.
  rewrite (bool_decide_eq_true_2 (RC_OK = RC_OK)) by done. cbn [negb].
  match goal with |- context [?i =? 0] => change i with (transaction_snapshot_index tx) end.
  by replace (transaction_snapshot_index tx =? 0) with false by lia.
Qed.

Context (index : Z) (Hindex : 0 < index).

(** The traversal leaves the transactions that this milestone or a later one confirmed. *)
Definition confirmed_from hash : bool := match view hash with Some tx => index <=? transaction_snapshot_index tx | None => false end.

Lemma collect_do hash tx set b s : hash ∉ set -> (2 <= pe_fuel env)%nat -> exists r,
  collect_transactions_for_pruning_do_func env index db [] hash
    (found_pack MODEL_TRANSACTION_ESSENCE_ATTACHMENT_METADATA (view hash) tx) set b s = Some r /\
  f_ret r = RC_OK /\ f_db r = db /\ f_heap r = [] /\ should_branch r = confirmed_from hash /\ should_stop r = false /\
  (f_data r = set \/ f_data r = set ++ [hash]).
Proof.
  intros Hn Hf. unfold collect_transactions_for_pruning_do_func, confirmed_from.
  destruct (view hash) as [tx'|] eqn:Hv; cbn [found_pack num_loaded Nat.eqb]; [|eexists; split; [reflexivity|]; by split_and!; auto].
  match goal with |- context [index <=? ?i] => change i with (transaction_snapshot_index tx') end.
  destruct (Z.leb_spec index (transaction_snapshot_index tx')); [|eexists; split; [reflexivity|]; by split_and!; auto].
  rewrite (future_stops hash tx') by (done || lia). eexists. split; [reflexivity|]. split_and!; auto.
Qed.

Context (entry genesis : hash_t).

Definition visited : hash_t -> Prop := reach (links_of view) confirmed_from entry [genesis].

Definition closed_by (set s : list hash_t) : Prop := forall h b t, h ∈ set -> h <> genesis -> confirmed_from h = true -> links_of view h = Some (b, t) ->
  forall x, x = b \/ x = t -> x ∈ set \/ x ∈ s.

(** The loop ends, with exactly what it visits. *)
Lemma shared_loop_spec U fuel : (forall h b t, h ∈ U -> links_of view h = Some (b, t) -> b ∈ U /\ t ∈ U) -> (2 <= pe_fuel env)%nat ->
  forall (s : list hash_t) set tx b st, genesis ∈ set -> (forall h, h ∈ set -> h = genesis \/ visited h) ->
  (forall h, h ∈ s -> h ∈ U /\ (h = genesis \/ visited h)) -> closed_by set s -> entry ∈ set \/ entry ∈ s ->
  NoDup set -> (length s + 2 * fresh U set < fuel)%nat ->
  exists set', shared_past_loop fuel (collect_transactions_for_pruning_do_func env index) db [] s set tx b st =
    Some (RC_OK, db, set', []) /\ NoDup set' /\ forall h, h ∈ set' <-> h = genesis \/ visited h.
Proof.
  intros HU Hpf. induction fuel as [|fuel IH]; intros s set tx b st Hg Hset Hs Hc He Hd Hf; [lia|].
  cbn [shared_past_loop]. destruct s as [|hash s]; cbn [hash243_stack_peek hash243_stack_pop head tail].
  { exists set. split; [done|]. split; [done|]. intros h. split; [apply Hset|]. intros [->|Hv]; [done|].
    destruct He as [He|He]; [|by apply not_elem_of_nil in He].
    induction Hv as [Hn|h b' t x Hh IHh Hb El Hx Hn]; [done|].
    assert (h <> genesis) as Hne.
    { destruct Hh as [Hh|? ? ? ? ? ? ? ? Hh]; intros ->; apply Hh; by left. }
    destruct (Hc h b' t IHh Hne Hb El x Hx) as [|H]; [done|by apply not_elem_of_nil in H]. }
  cbn [length] in Hf. destruct (Hs hash) as [HhU Hhv]; [by left|].
  unfold hash243_set_contains at 1. destruct (bool_decide_reflect (hash ∈ set)) as [Hin|Hin]; cbn [negb].
  { apply IH; try done.
    - intros h Hh. apply Hs. by right.
    - intros h b' t Hh Hne Hb El x Hx. destruct (Hc h b' t Hh Hne Hb El x Hx) as [|[->|]%list.elem_of_cons]; auto.
    - destruct He as [|[->|]%list.elem_of_cons]; auto.
    - lia. }
  rewrite load_attachment. rewrite (bool_decide_eq_true_2 (RC_OK = RC_OK)) by done. cbn [negb].
  destruct (collect_do hash tx set b st Hin Hpf) as (r & -> & -> & -> & -> & -> & -> & Hdata).
  rewrite (bool_decide_eq_true_2 (RC_OK = RC_OK)) by done. cbn [negb].
  set (tx' := single_tx _ tx).
  assert (exists s', (let '(ret, non_analyzed_hashes, hp) :=
      if confirmed_from hash then
        let '(ret, stack, hp) := hash243_stack_push [] s (transaction_branch tx') in
        if negb (bool_decide (ret = RC_OK)) then (ret, stack, hp) else hash243_stack_push hp stack (transaction_trunk tx')
      else (RC_OK, s, []) in (ret, non_analyzed_hashes, hp)) = (RC_OK, s', []) /\
    s' = if confirmed_from hash then transaction_trunk tx' :: transaction_branch tx' :: s else s) as (s' & Es & Hs').
  { destruct (confirmed_from hash); cbn [hash243_stack_push malloc negb]; rewrite ?(bool_decide_eq_true_2 (RC_OK = RC_OK)) by done;
      cbn [negb hash243_stack_push malloc]; eauto. }
  destruct (if confirmed_from hash then _ else _) as [[ret s1] hp1]. injection Es as -> -> ->.
  rewrite (bool_decide_eq_true_2 (RC_OK = RC_OK)) by done. cbn [negb].
  assert (hash243_set_add [] (f_data r) hash = (RC_OK, set ++ [hash], [])) as ->.
  { destruct Hdata as [->| ->]; [by apply set_add_nil|]. unfold hash243_set_add, hash243_set_contains.
    rewrite bool_decide_eq_true_2 by (rewrite list.elem_of_app, list_elem_of_singleton; by right). done. }
  rewrite (bool_decide_eq_true_2 (RC_OK = RC_OK)) by done. cbn [negb].
  assert (hash <> genesis /\ visited hash) as [Hng Hv] by (destruct Hhv as [->|]; [done|split; [by intros ->|done]]).
  assert (forall x, x ∈ s' -> x ∈ s \/ exists b' t, links_of view hash = Some (b', t) /\ confirmed_from hash = true /\ (x = b' \/ x = t)) as Hnew.
  { intros x Hx. rewrite Hs' in Hx. destruct (confirmed_from hash) eqn:Eb; [|by left]. unfold confirmed_from in Eb. unfold links_of.
    subst tx'. destruct (view hash) as [tx'|]; [|done]. rewrite !list.elem_of_cons in Hx. destruct Hx as [->|[->|Hx]]; [right|right|by left].
    all: do 2 eexists; split_and!; [reflexivity|done|]; auto. }
  apply IH.
  - rewrite list.elem_of_app. by left.
  - intros h. rewrite list.elem_of_app, list_elem_of_singleton. intros [Hh| ->]; auto.
  - intros x Hx. destruct (Hnew x Hx) as [Hold|(b' & t & El & Eb & Hxb)]; [apply Hs; by right|]. split.
    + destruct (HU hash b' t HhU El). by destruct Hxb as [->| ->].
    + destruct (decide (x = genesis)) as [->|Hne]; [by left|]. right. eapply reach_step; [exact Hv|exact Eb|exact El|exact Hxb|].
      by rewrite list_elem_of_singleton.
  - intros h b' t Hh Hne Hb El x Hx. rewrite list.elem_of_app, list_elem_of_singleton in Hh |- *.
    assert (forall x, x ∈ s -> x ∈ s') as Hsub.
    { intros y Hy. rewrite Hs'. destruct (confirmed_from hash); [by right; right|done]. }
    destruct Hh as [Hh| ->].
    + destruct (Hc h b' t Hh Hne Hb El x Hx) as [|[->|]%list.elem_of_cons]; auto.
    + right. rewrite Hs', Hb. unfold links_of in El. subst tx'. destruct (view hash) as [tx'|]; [|done]. injection El as <- <-.
      rewrite !list.elem_of_cons. destruct Hx as [->| ->]; [right; by left|by left].
  - rewrite list.elem_of_app, list_elem_of_singleton. destruct He as [He|[->|He]%list.elem_of_cons]; [by left; left|by left; right|].
    right. rewrite Hs'. destruct (confirmed_from hash); [by right; right|done].
  - apply list.NoDup_app. split_and!; [done| |apply list.NoDup_singleton]. intros x Hx ->%list_elem_of_singleton. done.
  - pose proof (fresh_add (links_of view) U set hash HhU Hin). rewrite Hs'. destruct (confirmed_from hash); cbn [length]; lia.
Qed.
End Collect.

Section Record.
Context {DB : Type} {SQ : Sqlite DB} {L : SqliteLaws DB} {R : SqliteReliable DB}.
Context {SDB : Type} {SQS : Sqlite SDB} {LS : SqliteLaws SDB} {RS : SqliteReliable SDB}.
Context {St : Type} {Sp : Sponge St} {SI : SpongeInit St}.
Context (env : prune_env) (db : DB) (txs : list iota_transaction_t) (Hdb : contents db txs).
Implicit Types (sap : SDB) (cache : tips_cache_t).

Lemma tips_cache_remove_ok cache hash : exists cache', tips_cache_remove cache hash = (RC_OK, cache').
Proof. unfold tips_cache_remove, hash243_set_remove. rewrite bool_decide_eq_true_2 by done. eauto. Qed.

Lemma store_recorded sap address sap' : iota_spent_addresses_provider_store sap address = (RC_OK, sap') ->
  recorded sap' address /\ forall a, recorded sap a -> recorded sap' a.
Proof.
  intros (_ & _ & Hs)%provider_store_spent. unfold recorded. split; [|intros a; rewrite Hs; by left].
  rewrite Hs. right. exists address. split; [by left|done].
Qed.

(** No transaction is judged by its bundle. *)
Definition decided (hash : hash_t) : Prop := forall tx, view_of txs hash = Some tx ->
  0 <= transaction_value tx \/ transaction_snapshot_index tx <> 0.

(** The engine has refused an address. *)
Definition refused : Prop := exists sap address, (iota_spent_addresses_provider_store sap address).1 <> RC_OK.

Lemma record_spent_spec hashes : Forall decided hashes -> forall sap cache tx spent, exists err sap' cache',
  record_spent env db sap [] cache hashes tx spent = Some (err, db, sap', cache', []) /\
  (err = RC_OK -> (forall a, recorded sap a -> recorded sap' a) /\
    forall h tx, h ∈ hashes -> view_of txs h = Some tx -> transaction_value tx < 0 -> recorded sap' (transaction_address tx)) /\
  (err <> RC_OK -> refused).
Proof.
  induction 1 as [|hash hashes Hd _ IH]; intros sap cache tx spent.
  { exists RC_OK, sap, cache. split; [done|]. split; [|done]. intros _. split; [done|]. by intros h tx' ?%not_elem_of_nil. }
  cbn [record_spent]. rewrite (load_essence db txs Hdb). rewrite (bool_decide_eq_true_2 (RC_OK = RC_OK)) by done. cbn [negb].
  destruct (tips_cache_remove_ok cache hash) as [cache1 ->]. rewrite (bool_decide_eq_true_2 (RC_OK = RC_OK)) by done. cbn [negb].
  assert (forall sap1 tx1 spent1, (forall a, recorded sap a -> recorded sap1 a) ->
    (forall tx, view_of txs hash = Some tx -> transaction_value tx < 0 -> recorded sap1 (transaction_address tx)) ->
    exists err sap' cache', record_spent env db sap1 [] cache1 hashes tx1 spent1 = Some (err, db, sap', cache', []) /\
    (err = RC_OK -> (forall a, recorded sap a -> recorded sap' a) /\
      forall h tx, h ∈ hash :: hashes -> view_of txs h = Some tx -> transaction_value tx < 0 -> recorded sap' (transaction_address tx)) /\
    (err <> RC_OK -> refused)) as Hnext.
  { intros sap1 tx1 spent1 Hm Hh. destruct (IH sap1 cache1 tx1 spent1) as (err & sap' & cache' & E & H).
    exists err, sap', cache'. split; [done|]. destruct H as [H Hr]. split; [|done]. intros He. destruct (H He) as [H1 H2]. split; [auto|].
    intros h tx2 [->|Hin]%list.elem_of_cons Hv Hneg; eauto. }
  destruct (view_of txs hash) as [tx'|] eqn:Hv; cbn [found_pack num_loaded Nat.ltb Nat.leb].
  2: { apply Hnext; [done|congruence]. }
  change (single_tx _ tx) with (loaded MODEL_TRANSACTION_ESSENCE_METADATA tx').
  destruct (Z.lt_ge_cases (transaction_value tx') 0) as [Hneg|Hpos].
  - destruct (Hd tx' Hv) as [H0|Hi]; [lia|]. rewrite confirmed_spent by done.
    rewrite (bool_decide_eq_true_2 (RC_OK = RC_OK)) by done. cbn [negb].
    change (transaction_address (loaded _ tx')) with (transaction_address tx').
    destruct (iota_spent_addresses_provider_store sap _) as [err sap1] eqn:Es.
    destruct (bool_decide_reflect (err = RC_OK)) as [->|Hne]; cbn [negb].
    + destruct (store_recorded _ _ _ Es) as [H1 H2]. apply Hnext; [done|]. intros tx2 [= <-] _. exact H1.
    + exists err, sap1, cache1. split; [done|]. split; [by intros ->|]. intros _. exists sap, (transaction_address tx'). by rewrite Es.
  - rewrite deposit_not_spent by exact Hpos. rewrite (bool_decide_eq_true_2 (RC_OK = RC_OK)) by done. cbn [negb].
    apply Hnext; [done|]. intros tx2 [= <-] Hn. lia.
Qed.
End Record.

(** ** Deleting *)

Section Delete.
Context {DB : Type} {SQ : Sqlite DB} {L : SqliteLaws DB} {R : SqliteReliable DB}.
Implicit Types (db : DB) (hashes : list hash_t) (t : tables).

(** Whatever the engine does, all rows are deleted or none; no transaction stays open after
    a success. *)
Lemma delete_cases db hashes err db' : iota_tangle_transactions_delete db hashes = (err, db') ->
  (tables_of db' = tables_of db \/ tables_of db' = deleted hashes (tables_of db)) /\
  (err = RC_OK -> tables_of db' = deleted hashes (tables_of db) /\ saved db' = None).
Proof.
  intros E. destruct (saved db) as [t|] eqn:Es.
  - unfold iota_tangle_transactions_delete, storage_transactions_delete, begin_transaction in E.
    destruct (sqlite3_begin db) as [[] db1] eqn:Eb; apply begin_law in Eb as [Et Eb]; [by destruct Eb as [Eb _]; rewrite Es in Eb|].
    rewrite bool_decide_eq_false_2 in E by done. cbn [negb] in E. injection E as <- <-. split; [by left|done].
  - pose proof (in_transaction db transaction_delete [] hashes Es) as H. rewrite update_each_delete in H.
    change (all_or_nothing db (Some (deleted hashes (tables_of db))) (iota_tangle_transactions_delete db hashes)) in H.
    rewrite E in H. destruct H as [(H1 & H2 & H3)|[(H1 & H2 & H3)|(H1 & H2 & H3 & H4)]]; cbn [fst snd] in *.
    + injection H2 as H2. split; [by right|done].
    + injection H2 as H2. split; [by right|]. by rewrite H1.
    + split; [by left|done].
Qed.

Lemma filter_none {A} (f g : A -> bool) l : (forall x, f x = true -> g x = false) -> List.filter f (List.filter g l) = [].
Proof.
  intros H. rewrite filter_twice. induction l as [|x l IH]; [done|]. cbn [List.filter]. destruct (g x) eqn:Eg, (f x) eqn:Ef; cbn [andb];
    try exact IH. by rewrite H in Eg.
Qed.

Lemma rows_deleted hashes t h : Forall (fun k => length k = 243%nat) hashes -> length h = 243%nat ->
  rows_at (deleted hashes t) h = if bool_decide (h ∈ hashes) then [] else rows_at t h.
Proof.
  intros Hs Hh. unfold rows_at, deleted, with_transactions. cbn [iota_transaction_table].
  assert (forall row, where_column HASH (column_compress h 243) row = true ->
    existsb (fun k => where_column HASH (column_compress k 243) row) hashes = bool_decide (h ∈ hashes)) as Hrow.
  { intros row Hr. unfold where_column, sql_eq in *. apply andb_true_iff in Hr as [Hr%bool_decide_eq_true_1 _]. rewrite Hr.
    clear Hr. induction Hs as [|k hashes Hk _ IH]; [done|]. cbn [existsb]. rewrite IH.
    rewrite (bool_decide_eq_true_2 (column_compress h 243 <> SqlNull)), andb_true_r by done.
    apply eq_true_iff_eq. rewrite orb_true_iff, !bool_decide_eq_true, list.elem_of_cons. split; [|by intros [->|]; auto].
    intros [E|Hin]; [|by right]. left. by eapply column_compress_inj. }
  destruct (bool_decide (h ∈ hashes)) eqn:Eb.
  - apply filter_none. intros row Hr. by rewrite Hrow.
  - rewrite filter_twice. apply filter_ext_in. intros row _. destruct (where_column HASH (column_compress h 243) row) eqn:Hr;
      [|by rewrite andb_false_r]. by rewrite Hrow.
Qed.

Lemma milestone_delete_cases db hash err db' : saved db = None -> iota_tangle_milestone_delete db hash = (err, db') ->
  iota_transaction_table (tables_of db') = iota_transaction_table (tables_of db).
Proof.
  intros Hs E. unfold iota_tangle_milestone_delete, storage_milestone_delete, bind_execute, execute_statement in E.
  rewrite bind_all_reliable in E. cbn [negb] in E. destruct (sqlite3_run _ _ _) as [ok db1] eqn:Er. injection E as _ <-. destruct ok.
  - apply run_law in Er as [Eu _]. cbn [update] in Eu. injection Eu as <-. done.
  - apply run_fail_law in Er as [[-> _]|[H _]]; [done|congruence].
Qed.
End Delete.

Section Prune.
Context {DB : Type} {SQ : Sqlite DB} {L : SqliteLaws DB} {R : SqliteReliable DB}.
Context {SDB : Type} {SQS : Sqlite SDB} {LS : SqliteLaws SDB} {RS : SqliteReliable SDB}.
Context {St : Type} {Sp : Sponge St} {SI : SpongeInit St}.
Context (env : prune_env) (ps : pruning_service_t) (db : DB) (txs : list iota_transaction_t) (Hdb : contents db txs).
Context (Hlast : 0 <= last_pruned_snapshot_index ps < 2 ^ 64 - 1) (Hfuel : (4 * length txs + 4 < pe_fuel env)%nat).
Context (m : hash_t) (Hm : length m = 243%nat).

(** What the milestone with hash [m] has behind it, up to what earlier milestones confirmed. *)
Definition behind : hash_t -> Prop := visited txs (last_pruned_snapshot_index ps + 1) m (ps_genesis_hash ps).

Context (Hdecided : forall h, behind h -> decided txs h).

Lemma view_in h tx : view_of txs h = Some tx -> tx ∈ txs /\ same_hash h tx = true.
Proof. intros E. apply find_some in E as [Hin Hs]. split; [by apply list_elem_of_In|done]. Qed.

Lemma behind_sized h : behind h -> length h = 243%nat.
Proof.
  induction 1 as [|h b t x _ _ _ El Hx _]; [done|]. unfold links_of in El. destruct (view_of txs h) as [tx|] eqn:Hv; [|done].
  injection El as <- <-. pose proof (view_storable txs h tx (c_storable _ _ Hdb) Hv) as [(_ & _ & _ & _ & Ht & Hb & _) _].
  by destruct Hx as [->| ->].
Qed.

Lemma behind_not_genesis h : behind h -> h <> ps_genesis_hash ps.
Proof. intros [Hh|? ? ? ? ? ? ? ? Hh] ->; apply Hh; by left. Qed.

Definition universe : list hash_t := m :: concat (map (fun tx => [transaction_branch tx; transaction_trunk tx]) txs).

Lemma universe_closed h b t : h ∈ universe -> links_of (view_of txs) h = Some (b, t) -> b ∈ universe /\ t ∈ universe.
Proof.
  intros _ El. unfold links_of in El. destruct (view_of txs h) as [tx|] eqn:Hv; [|done]. injection El as <- <-.
  apply view_in in Hv as [Hin _]. assert (forall x, x ∈ [transaction_branch tx; transaction_trunk tx] -> x ∈ universe) as H.
  { intros x Hx. right. apply list_elem_of_In, in_concat. exists [transaction_branch tx; transaction_trunk tx].
    split; [apply in_map_iff; exists tx; split; [done|by apply list_elem_of_In]|by apply list_elem_of_In]. }
  split; apply H; [by left|right; by left].
Qed.

Lemma universe_length : length universe = S (2 * length txs).
Proof. unfold universe. cbn [length]. f_equal. clear. induction txs as [|tx l IH]; [done|]. cbn [map concat length app]. lia. Qed.

Lemma fresh_length (U an : list hash_t) : (fresh U an <= length U)%nat.
Proof. apply filter_length_le. Qed.

(** What can come out of the collection. *)
Definition collected_well (sap : SDB) (c : collected DB SDB) : Prop :=
  (has_solid_entry_points c = true /\ co_sap c = sap /\ exists h, behind h /\ h ∈ ps_solid_entry_points ps) \/
  (has_solid_entry_points c = false /\ transactions_to_prune c = [] /\ refused (SDB := SDB)) \/
  (has_solid_entry_points c = false /\ NoDup (transactions_to_prune c) /\ (forall h, h ∈ transactions_to_prune c <-> behind h) /\
   (forall h, behind h -> h ∉ ps_solid_entry_points ps) /\
   forall h tx, behind h -> view_of txs h = Some tx -> transaction_value tx < 0 -> recorded (co_sap c) (transaction_address tx)).

Lemma collect_spec sap : exists c, collect_transactions_to_prune env ps db sap [] m = Some c /\
  co_db c = db /\ co_heap c = [] /\ collected_well sap c.
Proof.
  set (index := last_pruned_snapshot_index ps + 1). set (genesis := ps_genesis_hash ps).
  assert (exists set', shared_dfs_to_past (pe_fuel env) (se_tx (pe_spent env)) db []
    (collect_transactions_for_pruning_do_func env index) m genesis [] = Some (RC_OK, db, set', []) /\ NoDup set' /\
    forall h, h ∈ set' <-> h = genesis \/ behind h) as (set' & E & Hd & Hset).
  { unfold shared_dfs_to_past. cbn [hash243_stack_push malloc negb]. rewrite (bool_decide_eq_true_2 (RC_OK = RC_OK)) by done.
    cbn [negb]. rewrite set_add_nil by apply not_elem_of_nil. rewrite (bool_decide_eq_true_2 (RC_OK = RC_OK)) by done. cbn [negb app].
    apply (shared_loop_spec env db txs Hdb index ltac:(lia) m genesis universe (pe_fuel env) universe_closed ltac:(lia)).
    - by left.
    - intros h ->%list_elem_of_singleton. by left.
    - intros h ->%list_elem_of_singleton. split; [by left|]. destruct (decide (m = genesis)); [by left|]. right.
      apply reach_entry. by rewrite list_elem_of_singleton.
    - intros h b t ->%list_elem_of_singleton. done.
    - right. by left.
    - apply list.NoDup_singleton.
    - pose proof (fresh_length universe [genesis]) as H. rewrite universe_length in H. cbn [length]. lia. }
  unfold collect_transactions_to_prune. rewrite (uwrap_small 64 (last_pruned_snapshot_index ps + 1)) by lia.
  fold index genesis. rewrite E. rewrite (bool_decide_eq_true_2 (RC_OK = RC_OK)) by done. cbn [negb]. unfold hash243_set_remove.
  rewrite (bool_decide_eq_true_2 (RC_OK = RC_OK)) by done. cbn [negb].
  assert (forall h, h ∈ set_del set' genesis <-> behind h) as Hdel.
  { intros h. rewrite elem_of_set_del by done. rewrite Hset. split; [by intros [[->|] ?]|]. intros Hb. split; [by right|].
    by apply behind_not_genesis. }
  destruct (existsb _ _) eqn:Ex.
  { eexists. split; [reflexivity|]. split_and!; [done|done|]. left. split_and!; [done|done|].
    apply existsb_exists in Ex as (h & Hin & Hc). exists h. split; [apply Hdel; by apply list_elem_of_In|].
    unfold hash243_set_contains in Hc. by apply bool_decide_eq_true in Hc. }
  assert (forall h, behind h -> h ∉ ps_solid_entry_points ps) as Hsep.
  { intros h Hb Hin. apply not_true_iff_false in Ex. apply Ex, existsb_exists. exists h.
    split; [apply list_elem_of_In; by apply Hdel|]. unfold hash243_set_contains. by apply bool_decide_eq_true. }
  destruct (record_spent_spec env db txs Hdb (set_del set' genesis)) with (sap := sap) (cache := ps_tips_cache ps)
    (tx := se_tx (pe_spent env)) (spent := false) as (err & sap' & cache' & -> & Hok & Hno).
  { apply Forall_forall. intros h Hh. by apply Hdecided, Hdel. }
  destruct (bool_decide_reflect (err = RC_OK)) as [->|Hne]; cbn [negb].
  - eexists. split; [reflexivity|]. split_and!; [done|done|]. right; right. split_and!; [done| |done|done|].
    + by apply (sublist_NoDup _ set'); [|apply set_del_sub].
    + intros h tx Hb. apply (proj2 (Hok eq_refl)). by apply Hdel.
  - eexists. split; [reflexivity|]. split_and!; [done|done|]. right; left. split_and!; [done|done|auto].
Qed.

(** What the two batches and the deletion of the milestone leave, whatever the engine does. *)
Lemma prune_deletes (set : hash243_set) : Forall (fun h => length h = 243%nat) set ->
  exists ps' db', (
    let '(_, set1) := hash243_set_remove set m in
    let '(err, db1) := iota_tangle_transactions_delete db set1 in
    if negb (bool_decide (err = RC_OK)) then (ps, db1) else
    let '(_, set2, _) := hash243_set_add [] (hash243_set_free set1) m in
    let '(err, db2) := iota_tangle_transactions_delete db1 set2 in
    if negb (bool_decide (err = RC_OK)) then (ps, db2) else
    let '(err, db3) := iota_tangle_milestone_delete db2 m in
    if negb (bool_decide (err = RC_OK)) then (ps, db3) else (put_pruned (u64 (last_pruned_snapshot_index ps + 1)) ps, db3)) = (ps', db') /\
    (forall h, length h = 243%nat -> rows_at (tables_of db') h <> rows_at (tables_of db) h -> h = m \/ h ∈ set) /\
    (last_pruned_snapshot_index ps' <> last_pruned_snapshot_index ps ->
      last_pruned_snapshot_index ps' = last_pruned_snapshot_index ps + 1 /\
      forall h, length h = 243%nat -> (h = m \/ h ∈ set_del set m) -> rows_at (tables_of db') h = []).
Proof.
  clear Hdecided Hfuel Hdb env txs. intros Hs. unfold hash243_set_remove, hash243_set_free.
  assert (Forall (fun h => length h = 243%nat) (set_del set m)) as Hs1.
  { apply Forall_forall. intros h Hh. rewrite Forall_forall in Hs. apply Hs.
    apply (elem_of_sublist _ _ _ Hh), set_del_sub. }
  assert (forall h, h ∈ set_del set m -> h ∈ set) as Hsub by (intros h Hh; apply (elem_of_sublist _ _ _ Hh), set_del_sub).
  destruct (iota_tangle_transactions_delete db (set_del set m)) as [e1 db1] eqn:E1. apply delete_cases in E1 as [C1 O1].
  assert (forall h, length h = 243%nat -> rows_at (tables_of db1) h <> rows_at (tables_of db) h -> h ∈ set_del set m) as D1.
  { intros h Hh Hne. destruct C1 as [C|C]; rewrite C in Hne; [done|]. rewrite rows_deleted in Hne by done.
    by case_bool_decide. }
  destruct (bool_decide_reflect (e1 = RC_OK)) as [->|Hn1]; cbn [negb].
  2: { exists ps, db1. split; [done|]. split; [|done]. intros h Hh Hne. right. auto. }
  destruct (O1 eq_refl) as [T1 S1]. rewrite set_add_nil by apply not_elem_of_nil. cbn [app].
  destruct (iota_tangle_transactions_delete db1 [m]) as [e2 db2] eqn:E2. apply delete_cases in E2 as [C2 O2].
  assert (forall h, length h = 243%nat -> rows_at (tables_of db2) h <> rows_at (tables_of db) h -> h = m \/ h ∈ set) as D2.
  { intros h Hh Hne. destruct (decide (h = m)) as [|Hnm]; [by left|]. right. apply Hsub, D1; [done|].
    destruct C2 as [C|C]; rewrite C in Hne; [done|]. rewrite rows_deleted in Hne by (done || by constructor).
    by rewrite bool_decide_eq_false_2 in Hne by (by rewrite list_elem_of_singleton). }
  destruct (bool_decide_reflect (e2 = RC_OK)) as [->|Hn2]; cbn [negb]; [|by exists ps, db2].
  destruct (O2 eq_refl) as [T2 S2]. destruct (iota_tangle_milestone_delete db2 m) as [e3 db3] eqn:E3.
  apply milestone_delete_cases in E3; [|done].
  assert (forall h, rows_at (tables_of db3) h = rows_at (tables_of db2) h) as D3 by (intros h; unfold rows_at; by rewrite E3).
  destruct (bool_decide_reflect (e3 = RC_OK)) as [->|Hn3]; cbn [negb].
  2: { exists ps, db3. split; [done|]. split; [|done]. intros h Hh. rewrite D3. auto. }
  eexists _, db3. split; [reflexivity|]. split; [intros h Hh; rewrite D3; auto|]. intros _.
  cbn [put_pruned last_pruned_snapshot_index]. split; [apply uwrap_small; lia|]. intros h Hh Hin. rewrite D3, T2.
  rewrite rows_deleted by (done || by constructor). case_bool_decide as Hb; [done|]. rewrite T1, rows_deleted by done.
  rewrite bool_decide_eq_true_2; [done|]. destruct Hin as [->|]; [|done]. exfalso. apply Hb. by left.
Qed.
End Prune.

Section Members.
Context {DB : Type} {SQ : Sqlite DB} {L : SqliteLaws DB}.

Lemma member_view (db : DB) txs tx : contents db txs -> tx ∈ txs -> view_of txs (transaction_hash tx) = Some tx.
Proof.
  intros Hc Hin. assert (tx ∈ List.filter (same_hash (transaction_hash tx)) txs) as H.
  { apply list_elem_of_In, filter_In. split; [by apply list_elem_of_In|]. unfold same_hash. by apply bool_decide_eq_true. }
  rewrite (filter_view txs _ (c_hashes _ _ Hc)) in H. destruct (view_of _ _) as [tx'|]; [|by apply not_elem_of_nil in H].
  by apply list_elem_of_singleton in H as ->.
Qed.

Lemma contents_hold (db : DB) txs tx : contents db txs -> tx ∈ txs -> holds db tx.
Proof.
  intros Hc Hin. unfold holds. rewrite (rows_of_contents db txs _ Hc). rewrite (filter_view txs _ (c_hashes _ _ Hc)).
  by rewrite (member_view db txs tx Hc Hin).
Qed.
End Members.

(** * Theorems *)

Section Theorems.
Context {DB : Type} {SQ : Sqlite DB} {L : SqliteLaws DB} {R : SqliteReliable DB}.
Context {SDB : Type} {SQS : Sqlite SDB} {LS : SqliteLaws SDB} {RS : SqliteReliable SDB}.
Context {St : Type} {Sp : Sponge St} {SI : SpongeInit St}.

End Theorems.

(** ** Examples *)

Module PruneSample.
Definition tx (hash trunk address : hash_t) (value snapshot_index : Z) : iota_transaction_t :=
  mk_tx (mk_essence address value (replicate 81 0) 1546300800 0 1 (Ledger.Sample.numbered 20))
    (mk_attachment trunk Ledger.Sample.genesis 1546300801 0 3812798742493 (replicate 81 1) (replicate 81 0))
    (mk_consensus hash) (mk_data (replicate NUM_TRITS_SIGNATURE 0))
    (mk_metadata snapshot_index true (status_value BUNDLE_VALID) 7) (mk_mask 0 0 0 0 0).

Definition milestone_hash : hash_t := Ledger.Sample.numbered 10.
Definition spend_hash : hash_t := Ledger.Sample.numbered 11.

(** Milestone six confirms itself and a transaction that spends from [a]. *)
Definition txs : list iota_transaction_t :=
  [tx milestone_hash spend_hash Ledger.Sample.address_d 0 6; tx spend_hash Ledger.Sample.genesis Ledger.Sample.address_a (-10) 6].

Definition milestone_row : ms_row := mk_ms_row 6 (strip_zeros (take 243 milestone_hash)) SqlNull.
Definition db : memory_db := mk_memory_db (mk_tables (map row_of txs) [milestone_row] []) None.

Definition ps : pruning_service_t := mk_ps Ledger.Sample.genesis 5 6 [Ledger.Sample.numbered 12] (tips_cache_init 5).

Definition no_milestone : iota_milestone_t := mk_milestone 0 (replicate 243 0).
Definition env : prune_env := mk_prune_env 20 SpentSample.env no_milestone.

Lemma prune_tx_storable hash trunk address value snapshot_index : length hash = 243%nat -> length trunk = 243%nat ->
  length address = 243%nat -> is_int64 value -> 0 <= snapshot_index < 2 ^ 64 -> storable (tx hash trunk address value snapshot_index).
Proof.
  intros H1 H2 H3 Hv Hs. split.
  - unfold tx_sized. cbn [essence attachment consensus data tx e_address e_obsolete_tag e_bundle a_trunk a_branch a_tag a_nonce
      c_hash d_signature_or_message]. rewrite !length_replicate. by split_and!.
  - exact Hv.
  - cbn. repeat constructor; lia.
  - cbn. lia.
Qed.

Lemma prune_db_contents : contents db txs.
Proof.
  split; [vm_compute; reflexivity| |apply (bool_decide_unpack _); vm_compute; exact I].
  repeat (apply Forall_cons_iff; split; [apply prune_tx_storable; first [reflexivity|closed_decide|lia]|]). constructor.
Qed.

Lemma all_decided h : decided txs h.
Proof.
  intros tx0 Hv. apply view_in in Hv as [Hin _]. unfold txs in Hin. rewrite !list.elem_of_cons in Hin.
  destruct Hin as [->|[->|Hin]]; [right; discriminate|right; discriminate|by apply not_elem_of_nil in Hin].
Qed.

(** The address is recorded already. *)
Definition sap : memory_db := mk_memory_db (mk_tables [] [] [strip_zeros (take 243 Ledger.Sample.address_a)]) None.

(** A database of spent addresses that is full, and a tangle that cannot be written. *)
Definition full : Sqlite memory_db := {|
  sqlite3_bind _ _ _ _ := true; sqlite3_rows db st values := (memory_rows db st values, true);
  sqlite3_run db _ _ := (false, db); sqlite3_begin db := (false, db); sqlite3_end db := (false, db); sqlite3_rollback db := (false, db) |}.
End PruneSample.

(** When an address cannot be recorded, the error is forgotten: the milestone is deleted and
    passed, and what lies behind it stays for good. *)
Example refused_address_skips_milestone :
  exists db', prune_transactions (SQ := memory_sqlite) (SQS := PruneSample.full) (Sp := Iss.ToySponge.sponge)
    PruneSample.env PruneSample.ps PruneSample.db empty_db [] = Some (put_pruned 6 PruneSample.ps, db', empty_db, [], false) /\
  (iota_milestone_table (tables_of db') = []) /\
  rows_at (tables_of db') PruneSample.milestone_hash = [] /\ rows_at (tables_of db') PruneSample.spend_hash <> [].
Proof. eexists. split; [vm_compute; reflexivity|]. vm_compute. split_and!; [reflexivity|reflexivity|discriminate]. Qed.

(** When the tangle cannot be written, the same milestone is tried over and over again. *)
Theorem unwritable_tangle_spins fuel :
  pruning_loop (SQ := PruneSample.full) (SQS := memory_sqlite) (Sp := Iss.ToySponge.sponge) fuel PruneSample.env PruneSample.ps
    PruneSample.db PruneSample.sap [] = None.
Proof.
  induction fuel as [|fuel IH]; [reflexivity|]. cbn [pruning_loop].
  replace (prune_transactions _ _ _ _ _) with
    (Some (PruneSample.ps, PruneSample.db, PruneSample.sap, [] : heap, false)).
  - exact IH.
  - vm_compute. reflexivity.
Qed.

