(* ===== verification/Gossip.v ===== *)
(** * The gossip protocol

    [ciri/node/protocol] and the parts of [ciri/node/network] that put packets on
    the wire and take them off it: the header, the handshake, the gossip packet, the
    queue of packets to write to a neighbor, and the reassembly of the packets from
    the chunks that TCP delivers.  A [byte_t] is a C [int8_t]; libuv is not modelled:
    what it reports and delivers is an argument. *)
From S2P Require Import Prelude Errors Trits TritByte FlexTrit Transaction Containers.

(** ** Sizes *)

Definition HEADER_BYTES_LENGTH : nat := 3.
Definition GOSSIP_NON_SIG_BYTES_LENGTH : nat := 292.
Definition GOSSIP_SIG_MAX_BYTES_LENGTH : nat := 1312.
Definition GOSSIP_TX_BYTES_LENGTH : nat := GOSSIP_NON_SIG_BYTES_LENGTH + GOSSIP_SIG_MAX_BYTES_LENGTH.
Definition GOSSIP_REQUESTED_TX_HASH_BYTES_LENGTH : nat := 49.
Definition GOSSIP_MIN_BYTES_LENGTH : nat := GOSSIP_NON_SIG_BYTES_LENGTH + GOSSIP_REQUESTED_TX_HASH_BYTES_LENGTH.
Definition GOSSIP_MAX_BYTES_LENGTH : nat := GOSSIP_TX_BYTES_LENGTH + GOSSIP_REQUESTED_TX_HASH_BYTES_LENGTH.
Definition PACKET_TYPES_NUM : Z := 3.
Definition PACKET_MAX_BYTES_LENGTH : nat := HEADER_BYTES_LENGTH + GOSSIP_MAX_BYTES_LENGTH.
Definition HANDSHAKE_COORDINATOR_ADDRESS_BYTES_LENGTH : nat := 49.
Definition HANDSHAKE_MIN_BYTES_LENGTH : nat := 2 + 8 + HANDSHAKE_COORDINATOR_ADDRESS_BYTES_LENGTH + 1 + 1.
Definition HANDSHAKE_MAX_BYTES_LENGTH : nat := 2 + 8 + HANDSHAKE_COORDINATOR_ADDRESS_BYTES_LENGTH + 1 + 32.
Definition HASH_LENGTH_TRIT : nat := 243.

(** ** Packets *)

Inductive protocol_packet_type_t := PROTOCOL_HEADER | PROTOCOL_HANDSHAKE | PROTOCOL_GOSSIP.

Definition packet_type_value (t : protocol_packet_type_t) : Z :=
  match t with PROTOCOL_HEADER => 0 | PROTOCOL_HANDSHAKE => 1 | PROTOCOL_GOSSIP => 2 end.

(** [htons] and [htonll] on a little-endian machine: the bytes, most significant first. *)
Fixpoint to_network (n : nat) (v : Z) : list Z :=
  match n with
  | O => []
  | S n => i8 (v / 2 ^ (8 * Z.of_nat n)) :: to_network n v
  end.

Definition from_network (bytes : list Z) : Z := foldl (fun v b => v * 256 + u8 b) 0 bytes.

(** [protocol_header_t], as it lies in memory. *)
Definition header_bytes (type : protocol_packet_type_t) (length : Z) : list Z :=
  i8 (packet_type_value type) :: to_network 2 (uwrap 16 length).

Definition header_type (buffer : list Z) : Z := u8 (nth 0 buffer 0).
Definition header_length (buffer : list Z) : nat := Z.to_nat (from_network (buf_read 1 2 buffer)).

Record endpoint_t := mk_endpoint { ep_domain : list Z; ep_ip : list Z; ep_port : Z; ep_stream : bool }.

Record protocol_gossip_t := mk_gossip { content : list Z; source_ip : list Z; source_port : Z }.

Definition put_content (c : list Z) (packet : protocol_gossip_t) : protocol_gossip_t :=
  mk_gossip c (source_ip packet) (source_port packet).

Definition protocol_gossip_set_transaction (packet : protocol_gossip_t) (transaction : list Z) : retcode_t * protocol_gossip_t :=
  let '(n, bytes) := flex_trits_to_bytes (content packet) NUM_TRITS_SERIALIZED_TRANSACTION transaction NUM_TRITS_SERIALIZED_TRANSACTION NUM_TRITS_SERIALIZED_TRANSACTION in
  (if negb (n =? NUM_TRITS_SERIALIZED_TRANSACTION)%nat then RC_NODE_SET_PACKET_TRANSACTION_FAILED else RC_OK, put_content bytes packet).

Definition protocol_gossip_set_request (packet : protocol_gossip_t) (request : list Z) (request_size : nat)
    : retcode_t * protocol_gossip_t :=
  let '(n, bytes) := flex_trits_to_bytes (drop GOSSIP_TX_BYTES_LENGTH (content packet)) request_size request HASH_LENGTH_TRIT request_size in
  (if negb (n =? request_size)%nat then RC_NODE_SET_PACKET_REQUEST_FAILED else RC_OK,
   put_content (take GOSSIP_TX_BYTES_LENGTH (content packet) ++ bytes) packet).

(** [ip] is the pointer, [None] when null. *)
Definition protocol_gossip_set_endpoint (packet : protocol_gossip_t) (ip : option (list Z)) (port : Z) : protocol_gossip_t :=
  mk_gossip (content packet) (default (source_ip packet) ip) port.

(** *** Queues over utlist *)

Definition queue_push {A} (hp : heap) (queue : list A) (x : A) : retcode_t * list A * heap :=
  let '(ok, hp) := malloc hp in
  if negb ok then (RC_OOM, queue, hp) else (RC_OK, queue ++ [x], hp).

Definition queue_pop {A} (queue : list A) : option A * list A := (head queue, tail queue).

Abbreviation protocol_gossip_queue_t := (list protocol_gossip_t).
Definition protocol_gossip_queue_empty (queue : protocol_gossip_queue_t) : bool := match queue with [] => true | _ => false end.
Definition protocol_gossip_queue_count (queue : protocol_gossip_queue_t) : Z := Z.of_nat (length queue).
Definition protocol_gossip_queue_push (hp : heap) (queue : protocol_gossip_queue_t) (packet : protocol_gossip_t) := queue_push hp queue packet.
Definition protocol_gossip_queue_pop (queue : protocol_gossip_queue_t) := queue_pop queue.

(** ** Neighbors *)

Inductive neighbor_state_t := NEIGHBOR_DISCONNECTED | NEIGHBOR_HANDSHAKING | NEIGHBOR_READY_FOR_MESSAGES | NEIGHBOR_MARKED_FOR_DISCONNECT.

Record neighbor_t := mk_neighbor {
  nb_buffer : list Z; nb_buffer_size : nat; nb_write_queue : list (list Z); nb_endpoint : endpoint_t; nb_state : neighbor_state_t;
  nb_protocol_version : Z; nbr_all_txs : Z; nbr_invalid_txs : Z; nbr_stale_txs : Z; nbr_random_tx_reqs : Z; nbr_sent_txs : Z;
  nbr_new_txs : Z; nbr_dropped_send : Z
}.

Definition neighbor_init : neighbor_t :=
  mk_neighbor (replicate PACKET_MAX_BYTES_LENGTH 0) 0 [] (mk_endpoint [] [] 0 false) NEIGHBOR_DISCONNECTED 0 0 0 0 0 0 0 0.

Definition put_buffer (buffer : list Z) (size : nat) (n : neighbor_t) : neighbor_t :=
  mk_neighbor buffer size (nb_write_queue n) (nb_endpoint n) (nb_state n) (nb_protocol_version n) (nbr_all_txs n) (nbr_invalid_txs n)
    (nbr_stale_txs n) (nbr_random_tx_reqs n) (nbr_sent_txs n) (nbr_new_txs n) (nbr_dropped_send n).

Definition put_write_queue (q : list (list Z)) (n : neighbor_t) : neighbor_t :=
  mk_neighbor (nb_buffer n) (nb_buffer_size n) q (nb_endpoint n) (nb_state n) (nb_protocol_version n) (nbr_all_txs n)
    (nbr_invalid_txs n) (nbr_stale_txs n) (nbr_random_tx_reqs n) (nbr_sent_txs n) (nbr_new_txs n) (nbr_dropped_send n).

Definition put_protocol_version (v : Z) (n : neighbor_t) : neighbor_t :=
  mk_neighbor (nb_buffer n) (nb_buffer_size n) (nb_write_queue n) (nb_endpoint n) (nb_state n) v (nbr_all_txs n) (nbr_invalid_txs n)
    (nbr_stale_txs n) (nbr_random_tx_reqs n) (nbr_sent_txs n) (nbr_new_txs n) (nbr_dropped_send n).

Definition neighbor_write_queue_push (hp : heap) (n : neighbor_t) (buffer : list Z) : retcode_t * neighbor_t * heap :=
  let '(ret, q, hp) := queue_push hp (nb_write_queue n) buffer in (ret, put_write_queue q n, hp).

Definition neighbor_write_queue_pop (n : neighbor_t) : option (list Z) * neighbor_t :=
  let '(front, q) := queue_pop (nb_write_queue n) in (front, put_write_queue q n).

(** [for (i = GOSSIP_SIG_MAX_BYTES_LENGTH - 1; i >= 0 && content[i] == 0; i--)] *)
Fixpoint content_length (i : nat) (content : list Z) : nat :=
  match i with
  | O => O
  | S i => if nth i content 0 =? 0 then content_length i content else S i
  end.

Definition packet_buffer (packet : protocol_gossip_t) : list Z :=
  let length := content_length GOSSIP_SIG_MAX_BYTES_LENGTH (content packet) in
  let buffer_size := (length + GOSSIP_NON_SIG_BYTES_LENGTH + GOSSIP_REQUESTED_TX_HASH_BYTES_LENGTH)%nat in
  header_bytes PROTOCOL_GOSSIP (Z.of_nat buffer_size) ++ take length (content packet) ++
  buf_read GOSSIP_SIG_MAX_BYTES_LENGTH (GOSSIP_NON_SIG_BYTES_LENGTH + GOSSIP_REQUESTED_TX_HASH_BYTES_LENGTH) (content packet).

(** [sent] is what [uv_async_send] returns. *)
Definition neighbor_send_packet (sent : Z) (hp : heap) (n : neighbor_t) (packet : protocol_gossip_t) : retcode_t * neighbor_t * heap :=
  if negb (ep_stream (nb_endpoint n)) then (RC_NULL_PARAM, n, hp) else
  let '(ok, hp) := malloc hp in
  if negb ok then (RC_OOM, n, hp) else
  let '(_, n, hp) := neighbor_write_queue_push hp n (packet_buffer packet) in
  if negb (sent =? 0) then (RC_ASYNC_CALL_FAILED, n, hp) else (RC_OK, n, hp).

(** ** Reading *)

(** A chunk appended to the buffer of the neighbor. *)
Definition append_chunk (n : neighbor_t) (chunk : list Z) : neighbor_t :=
  put_buffer (buf_write (nb_buffer_size n) chunk (nb_buffer n)) (nb_buffer_size n + length chunk) n.

(** The payload of a gossip packet of [len] bytes at [ptr]. *)
Definition read_gossip (n : neighbor_t) (ptr : list Z) (len : nat) : protocol_gossip_t :=
  let variable_size := (len - GOSSIP_NON_SIG_BYTES_LENGTH - GOSSIP_REQUESTED_TX_HASH_BYTES_LENGTH)%nat in
  let c := take variable_size ptr ++ replicate (GOSSIP_SIG_MAX_BYTES_LENGTH - variable_size) 0 ++
           buf_read variable_size GOSSIP_NON_SIG_BYTES_LENGTH ptr ++
           buf_read (variable_size + GOSSIP_NON_SIG_BYTES_LENGTH) GOSSIP_REQUESTED_TX_HASH_BYTES_LENGTH ptr in
  protocol_gossip_set_endpoint (mk_gossip c [] 0) (Some (ep_ip (nb_endpoint n))) (ep_port (nb_endpoint n)).

(** [memmove] of what follows the packet to the front. *)
Definition consume (len : nat) (n : neighbor_t) : neighbor_t :=
  put_buffer (buf_write 0 (drop (HEADER_BYTES_LENGTH + len) (nb_buffer n)) (nb_buffer n))
    (nb_buffer_size n - (HEADER_BYTES_LENGTH + len)) n.

(** [queue] is the queue of the processor stage; [None]: out of fuel. *)
Fixpoint router_read (fuel : nat) (hp : heap) (n : neighbor_t) (queue : protocol_gossip_queue_t) (buffer : list Z)
    : option (retcode_t * neighbor_t * protocol_gossip_queue_t * heap) :=
  match fuel with
  | O => None
  | S fuel =>
      if (length buffer =? 0)%nat then Some (RC_OK, n, queue, hp) else
      let chunk_size := Nat.min (PACKET_MAX_BYTES_LENGTH - nb_buffer_size n) (length buffer) in
      let n := append_chunk n (take chunk_size buffer) in
      if (nb_buffer_size n <=? HEADER_BYTES_LENGTH)%nat then Some (RC_OK, n, queue, hp) else
      let len := header_length (nb_buffer n) in
      if (nb_buffer_size n - HEADER_BYTES_LENGTH <? len)%nat then Some (RC_OK, n, queue, hp) else
      let type := header_type (nb_buffer n) in
      let next queue hp := router_read fuel hp (consume len n) queue (drop chunk_size buffer) in
      if type <? PACKET_TYPES_NUM then
        if type =? packet_type_value PROTOCOL_HANDSHAKE then next queue hp else
        if type =? packet_type_value PROTOCOL_GOSSIP then
          if (len <? GOSSIP_MIN_BYTES_LENGTH)%nat || (GOSSIP_MAX_BYTES_LENGTH <? len)%nat
          then Some (RC_INVALID_PACKET, n, queue, hp) else
          let '(_, queue, hp) := protocol_gossip_queue_push hp queue (read_gossip n (drop HEADER_BYTES_LENGTH (nb_buffer n)) len) in
          next queue hp
        else Some (RC_INVALID_PACKET_TYPE, n, queue, hp)
      else Some (RC_INVALID_PACKET_TYPE, n, queue, hp)
  end.

(** ** The handshake *)

(** [protocol_handshake_t]: the port and the timestamp as they lie in memory. *)
Record protocol_handshake_t := mk_handshake {
  hs_port : list Z; hs_timestamp : list Z; hs_coordinator_address : list Z; hs_mwm : Z; hs_supported_versions : list Z
}.

Definition handshake_bytes (h : protocol_handshake_t) : list Z :=
  hs_port h ++ hs_timestamp h ++ hs_coordinator_address h ++ [i8 (hs_mwm h)] ++ map i8 (hs_supported_versions h).

Definition handshake_of (bytes : list Z) : protocol_handshake_t :=
  mk_handshake (buf_read 0 2 bytes) (buf_read 2 8 bytes) (buf_read 10 49 bytes) (u8 (nth 59 bytes 0)) (map u8 (buf_read 60 32 bytes)).

Definition own_supported_versions : list Z := [1].

(** [now] is the time in milliseconds. *)
Definition handshake_init (now port : Z) (coordinator_address : list Z) (mwm : Z) : protocol_handshake_t * nat :=
  (mk_handshake (to_network 2 port) (to_network 8 now) (take HANDSHAKE_COORDINATOR_ADDRESS_BYTES_LENGTH coordinator_address) mwm
     (own_supported_versions ++ replicate (32 - length own_supported_versions) 0),
   (HANDSHAKE_MIN_BYTES_LENGTH + length own_supported_versions - 1)%nat).

(** The highest bit set of the eight low ones, counted from one. *)
Definition highest_bit (v : Z) : Z :=
  foldl (fun highest j => if Z.land (Z.shiftr v j) 1 =? 1 then j + 1 else highest) 0 [0; 1; 2; 3; 4; 5; 6; 7].

Fixpoint versions_loop (fuel i : nat) (supported_versions own : list Z) (highest : Z) : Z :=
  match fuel with
  | O => highest
  | S fuel =>
      let supported := Z.land (nth i supported_versions 0) (nth i own 0) in
      versions_loop fuel (S i) supported_versions own
        (if supported =? 0 then highest else highest_bit supported + Z.of_nat i * 8)
  end.

Definition handshake_supported_version (supported_versions : list Z) (supported_versions_length : nat) : Z :=
  let highest :=
    versions_loop (Nat.min (length own_supported_versions) supported_versions_length) 0 supported_versions own_supported_versions 0 in
  if highest =? 0 then
    let last_versions_byte := nth (supported_versions_length - 1) supported_versions 0 in
    - (highest_bit last_versions_byte + Z.of_nat (supported_versions_length - 1) * 8)
  else highest.

Record router_conf := mk_router_conf { rc_coordinator_address : list Z; rc_mwm : Z }.

(** [find] is the search of the array of neighbors for an address and a port: the
    position of the neighbor.  The result is the code, the position and the neighbors. *)
Definition router_read_handshake (conf : router_conf) (neighbors : list neighbor_t) (find : list Z -> Z -> option nat) (ip : list Z)
    (buf : list Z) (nread : nat) : retcode_t * option nat * list neighbor_t :=
  let failed ret pos := (ret, pos, neighbors) in
  if (nread <? HEADER_BYTES_LENGTH)%nat then failed RC_INVALID_PACKET None else
  if negb (header_type buf =? packet_type_value PROTOCOL_HANDSHAKE) then failed RC_INVALID_PACKET_TYPE None else
  let len := header_length buf in
  if negb (nread =? HEADER_BYTES_LENGTH + len)%nat || (len <? HANDSHAKE_MIN_BYTES_LENGTH)%nat || (HANDSHAKE_MAX_BYTES_LENGTH <? len)%nat
  then failed RC_INVALID_PACKET None else
  let handshake := handshake_of (drop HEADER_BYTES_LENGTH buf) in
  if negb (bool_decide (take HANDSHAKE_COORDINATOR_ADDRESS_BYTES_LENGTH (rc_coordinator_address conf) = hs_coordinator_address handshake))
  then failed RC_FAILED_HANDSHAKE None else
  if negb (rc_mwm conf =? hs_mwm handshake) then failed RC_FAILED_HANDSHAKE None else
  let protocol_version := handshake_supported_version (hs_supported_versions handshake) (len - HANDSHAKE_MIN_BYTES_LENGTH + 1) in
  if protocol_version <? 0 then failed RC_FAILED_HANDSHAKE None else
  match find ip (from_network (hs_port handshake)) with
  | None => failed RC_FAILED_HANDSHAKE None
  | Some pos =>
      match neighbors !! pos with
      | None => failed RC_FAILED_HANDSHAKE None
      | Some n =>
          if ep_stream (nb_endpoint n) then failed RC_FAILED_HANDSHAKE (Some pos)
          else (RC_OK, Some pos, <[pos := put_protocol_version (u8 protocol_version) n]> neighbors)
      end
  end.

(** The bytes given to [uv_write], and what it returns.  The first allocation is
    checked; the second one, of the bytes, is not: [None] when it fails. *)
Definition router_write (status : Z) (hp : heap) (type : protocol_packet_type_t) (buffer : list Z) (buffer_size : nat)
    : option (retcode_t * list Z * heap) :=
  let '(ok, hp) := malloc hp in
  if negb ok then Some (RC_OOM, [], hp) else
  let '(ok, hp) := malloc hp in
  if negb ok then None else
  Some (if negb (status =? 0) then RC_WRITE_TCP_FAILED else RC_OK,
        header_bytes type (Z.of_nat buffer_size) ++ take buffer_size buffer, hp).

(** * Lemmas *)

Lemma length_to_network n v : length (to_network n v) = n.
Proof. induction n; cbn; congruence. Qed.

Lemma u8_i8 z : u8 (i8 z) = z mod 256.
Proof. unfold uwrap. rewrite (swrap_mod 8) by lia. done. Qed.

Lemma foldl_network bytes v : foldl (fun v b => v * 256 + u8 b) v bytes = v * 256 ^ Z.of_nat (length bytes) + from_network bytes.
Proof.
  unfold from_network. revert v. induction bytes as [|b bytes IH]; intros v; cbn [foldl length]; [lia|].
  rewrite IH, (IH (0 * 256 + u8 b)), Nat2Z.inj_succ, Z.pow_succ_r by lia. ring.
Qed.

Lemma from_to_network n v : from_network (to_network n v) = v mod 256 ^ Z.of_nat n.
Proof.
  induction n as [|n IH]; [by rewrite Z.mod_1_r|]. cbn [to_network]. unfold from_network. cbn [foldl].
  rewrite foldl_network, IH, length_to_network, u8_i8, Nat2Z.inj_succ, Z.pow_succ_r by lia.
  change 256 with (2 ^ 8) at 3 4 5. rewrite <- Z.pow_mul_r by lia. pose proof (Z.pow_pos_nonneg 2 (8 * Z.of_nat n)).
  rewrite (Z.mul_comm (2 ^ 8)), (Z.rem_mul_r v _ (2 ^ 8)) by lia. replace (0 * 256) with 0 by lia.
  replace (2 ^ (8 * Z.of_nat n)) with (256 ^ Z.of_nat n) by (change 256 with (2 ^ 8); by rewrite <- Z.pow_mul_r by lia).
  change (2 ^ 8) with 256. lia.
Qed.

Lemma header_length_take l l' : take 3 l = take 3 l' -> header_length l = header_length l' /\ header_type l = header_type l'.
Proof.
  intros E. unfold header_length, header_type, buf_read.
  assert (take 2 (drop 1 l) = take 2 (drop 1 l')) as ->.
  { rewrite !firstn_skipn_comm. change (1 + 2)%nat with 3%nat. by rewrite E. }
  assert (nth 0 l 0 = nth 0 l' 0) as ->; [|done]. destruct l, l'; cbn in E |- *; congruence.
Qed.

Lemma header_bytes_read type len rest : Z.of_nat len < 2 ^ 16 ->
  header_length (header_bytes type (Z.of_nat len) ++ rest) = len /\ header_type (header_bytes type (Z.of_nat len) ++ rest) = packet_type_value type.
Proof.
  intros Hl. assert (0 <= Z.of_nat len < 2 ^ 16) as Hz by lia. split.
  - unfold header_length, header_bytes, buf_read. cbn [app drop].
    rewrite drop_0, take_app_length' by (by rewrite length_to_network). rewrite from_to_network, uwrap_small by lia.
    change (256 ^ Z.of_nat 2) with (2 ^ 16). rewrite Z.mod_small; lia.
  - unfold header_type, header_bytes. cbn [app nth]. rewrite u8_i8. by destruct type.
Qed.

Lemma content_length_spec i c : (content_length i c <= i)%nat /\
  forall k, (content_length i c <= k < i)%nat -> nth k c 0 = 0.
Proof.
  induction i as [|i [IH1 IH2]]; cbn [content_length]; [split; lia|]. destruct (Z.eqb_spec (nth i c 0) 0).
  - split; [lia|]. intros k Hk. destruct (decide (k = i)) as [->|]; [done|]. apply IH2. lia.
  - split; lia.
Qed.

(** ** One packet *)

Definition packet_ok (packet : protocol_gossip_t) : Prop := length (content packet) = GOSSIP_MAX_BYTES_LENGTH.

Definition payload_length (packet : protocol_gossip_t) : nat :=
  (content_length GOSSIP_SIG_MAX_BYTES_LENGTH (content packet) + GOSSIP_MIN_BYTES_LENGTH)%nat.

Lemma payload_bounds packet : (GOSSIP_MIN_BYTES_LENGTH <= payload_length packet <= GOSSIP_MAX_BYTES_LENGTH)%nat.
Proof.
  pose proof (proj1 (content_length_spec GOSSIP_SIG_MAX_BYTES_LENGTH (content packet))) as H.
  unfold payload_length, GOSSIP_MIN_BYTES_LENGTH, GOSSIP_MAX_BYTES_LENGTH, GOSSIP_TX_BYTES_LENGTH, GOSSIP_NON_SIG_BYTES_LENGTH,
    GOSSIP_SIG_MAX_BYTES_LENGTH, GOSSIP_REQUESTED_TX_HASH_BYTES_LENGTH in *. lia.
Qed.

Lemma packet_header packet rest :
  header_length (packet_buffer packet ++ rest) = payload_length packet /\
  header_type (packet_buffer packet ++ rest) = packet_type_value PROTOCOL_GOSSIP.
Proof.
  unfold packet_buffer. rewrite <- app_assoc, <- Nat.add_assoc.
  change (GOSSIP_NON_SIG_BYTES_LENGTH + GOSSIP_REQUESTED_TX_HASH_BYTES_LENGTH)%nat with GOSSIP_MIN_BYTES_LENGTH.
  apply header_bytes_read. pose proof (payload_bounds packet) as H. unfold payload_length in H.
  assert (Z.of_nat GOSSIP_MAX_BYTES_LENGTH < 2 ^ 16) by (vm_compute; reflexivity). lia.
Qed.

Lemma length_packet packet : packet_ok packet -> length (packet_buffer packet) = (HEADER_BYTES_LENGTH + payload_length packet)%nat.
Proof.
  intros Hp. unfold packet_ok in Hp. pose proof (proj1 (content_length_spec GOSSIP_SIG_MAX_BYTES_LENGTH (content packet))) as H.
  unfold packet_buffer, payload_length. rewrite !length_app, length_take, length_buf_read.
  - unfold header_bytes. cbn [length]. rewrite length_to_network. rewrite Hp.
    unfold GOSSIP_MIN_BYTES_LENGTH, GOSSIP_MAX_BYTES_LENGTH, GOSSIP_TX_BYTES_LENGTH, GOSSIP_NON_SIG_BYTES_LENGTH,
      GOSSIP_SIG_MAX_BYTES_LENGTH, GOSSIP_REQUESTED_TX_HASH_BYTES_LENGTH, HEADER_BYTES_LENGTH in *. lia.
  - rewrite Hp. apply Nat.leb_le. vm_compute. reflexivity.
Qed.

Lemma read_gossip_packet n packet rest : packet_ok packet ->
  content (read_gossip n (drop HEADER_BYTES_LENGTH (packet_buffer packet ++ rest)) (payload_length packet)) = content packet.
Proof.
  intros Hp. unfold packet_ok in Hp.
  assert (drop HEADER_BYTES_LENGTH (packet_buffer packet ++ rest) =
    take (content_length GOSSIP_SIG_MAX_BYTES_LENGTH (content packet)) (content packet) ++
    buf_read GOSSIP_SIG_MAX_BYTES_LENGTH (GOSSIP_NON_SIG_BYTES_LENGTH + GOSSIP_REQUESTED_TX_HASH_BYTES_LENGTH) (content packet) ++ rest) as ->.
  { unfold packet_buffer. rewrite <- !app_assoc. apply drop_app_length'. unfold header_bytes. cbn [length]. by rewrite length_to_network. }
  destruct (content_length_spec GOSSIP_SIG_MAX_BYTES_LENGTH (content packet)) as [Hl Hz].
  unfold read_gossip, payload_length, GOSSIP_MIN_BYTES_LENGTH. cbn [protocol_gossip_set_endpoint content].
  set (c := content packet) in *. clearbody c. set (l := content_length _ c) in *. clearbody l. clear packet.
  unfold GOSSIP_MAX_BYTES_LENGTH, GOSSIP_TX_BYTES_LENGTH in Hp.
  set (sig := GOSSIP_SIG_MAX_BYTES_LENGTH) in *. set (non := GOSSIP_NON_SIG_BYTES_LENGTH) in *.
  set (req := GOSSIP_REQUESTED_TX_HASH_BYTES_LENGTH) in *. clearbody sig non req.
  replace (l + (non + req) - non - req)%nat with l by lia.
  assert (length (take l c) = l) as Hlen by (rewrite length_take; lia).
  assert (buf_read sig (non + req) c = drop sig c) as -> by (unfold buf_read; apply take_ge; rewrite length_drop; lia).
  set (r := drop sig c). assert (length r = non + req)%nat as Hr by (unfold r; rewrite length_drop; lia).
  unfold buf_read. rewrite take_app_length', <- (drop_drop _ non l), (drop_app_length' (take l c)) by done.
  rewrite take_app_le, (drop_app_le r), (take_app_le _ _ req) by (rewrite ?length_drop; lia).
  rewrite (take_ge (drop non r)) by (rewrite length_drop; lia). rewrite (take_drop non). unfold r.
  rewrite app_assoc. assert (take l c ++ replicate (sig - l) 0 = take sig c) as ->; [|apply take_drop].
  replace sig with (l + (sig - l))%nat at 2 by lia. rewrite <- take_take_drop. f_equal.
  apply replicate_as_Forall. split; [rewrite length_take, length_drop; lia|].
  apply Forall_lookup. intros i x Hx. apply lookup_take_Some in Hx as [Hx Hi]. rewrite lookup_drop in Hx.
  apply nth_lookup_Some with (d := 0) in Hx. rewrite <- Hx. symmetry. apply Hz. lia.
Qed.

(** ** The stream of a connection *)

(** The bytes received and not yet consumed. *)
Definition pending (n : neighbor_t) : list Z := take (nb_buffer_size n) (nb_buffer n).

Record reading (n : neighbor_t) : Prop := {
  rd_buffer : length (nb_buffer n) = PACKET_MAX_BYTES_LENGTH;
  rd_size : (nb_buffer_size n <= PACKET_MAX_BYTES_LENGTH)%nat
}.

Lemma length_pending n : reading n -> length (pending n) = nb_buffer_size n.
Proof. intros []. unfold pending. rewrite length_take. lia. Qed.

Lemma append_chunk_reading n chunk : reading n -> (nb_buffer_size n + length chunk <= PACKET_MAX_BYTES_LENGTH)%nat ->
  reading (append_chunk n chunk) /\ pending (append_chunk n chunk) = pending n ++ chunk.
Proof.
  intros [Hb Hs] Hl. unfold append_chunk. split.
  - split; cbn [put_buffer nb_buffer nb_buffer_size]; [rewrite length_buf_write; lia|lia].
  - unfold pending. cbn [put_buffer nb_buffer nb_buffer_size]. unfold buf_write.
    rewrite (take_ge chunk) by lia. rewrite app_assoc. rewrite take_app_length'; [done|]. rewrite length_app, length_take. lia.
Qed.

Lemma consume_reading n len front back : reading n -> pending n = front ++ back -> length front = (HEADER_BYTES_LENGTH + len)%nat ->
  reading (consume len n) /\ pending (consume len n) = back.
Proof.
  intros Hr Hp Hl. pose proof (length_pending n Hr) as Hn. rewrite Hp, length_app in Hn. destruct Hr as [Hb Hs]. unfold consume.
  set (k := (HEADER_BYTES_LENGTH + len)%nat) in *. clearbody k. split.
  - split; cbn [put_buffer nb_buffer nb_buffer_size]; [rewrite length_buf_write; lia|lia].
  - unfold pending in *. cbn [put_buffer nb_buffer nb_buffer_size]. unfold buf_write. rewrite take_0, app_nil_l, Nat.sub_0_r.
    rewrite (take_ge (drop k (nb_buffer n))) by (rewrite length_drop; lia).
    rewrite take_app_le by (rewrite length_drop; lia). rewrite take_drop_commute. replace (k + (nb_buffer_size n - k))%nat with (nb_buffer_size n) by lia.
    rewrite Hp. apply drop_app_length'. lia.
Qed.

Lemma nb_buffer_pending n : nb_buffer n = pending n ++ drop (nb_buffer_size n) (nb_buffer n).
Proof. symmetry. apply take_drop. Qed.

(** What the buffer holds when a packet begins at its front. *)
Lemma packet_in_buffer n p more tail : reading n -> packet_ok p -> pending n ++ more = packet_buffer p ++ tail ->
  (HEADER_BYTES_LENGTH < nb_buffer_size n)%nat ->
  header_length (nb_buffer n) = payload_length p /\ header_type (nb_buffer n) = packet_type_value PROTOCOL_GOSSIP /\
  ((payload_length p <= nb_buffer_size n - HEADER_BYTES_LENGTH)%nat ->
   content (read_gossip n (drop HEADER_BYTES_LENGTH (nb_buffer n)) (payload_length p)) = content p /\
   reading (consume (payload_length p) n) /\ packet_buffer p ++ pending (consume (payload_length p) n) = pending n /\
   pending (consume (payload_length p) n) ++ more = tail).
Proof.
  intros Hr Hp E Hbig. pose proof (length_pending n Hr) as Hl. pose proof (length_packet p Hp) as Hlen.
  assert (take 3 (nb_buffer n) = take 3 (packet_buffer p ++ tail)) as Ht.
  { rewrite <- E, nb_buffer_pending. unfold HEADER_BYTES_LENGTH in Hbig. rewrite !take_app_le by lia. done. }
  apply header_length_take in Ht as [-> ->]. destruct (packet_header p tail) as [-> ->]. split_and!; [done..|]. intros Hfull.
  assert (exists back, pending n = packet_buffer p ++ back) as [back Hback].
  { exists (drop (length (packet_buffer p)) (pending n)).
    rewrite <- (take_drop (length (packet_buffer p)) (pending n)) at 1. f_equal.
    apply (f_equal (take (length (packet_buffer p)))) in E. rewrite take_app_le in E by lia. rewrite E. by apply take_app_length. }
  destruct (consume_reading n (payload_length p) _ _ Hr Hback Hlen) as [Hr2 Hp2]. split_and!; [|done|by rewrite Hp2|].
  - rewrite nb_buffer_pending, Hback, <- app_assoc. by apply read_gossip_packet.
  - rewrite Hback, <- app_assoc in E. apply app_inv_head in E. by rewrite Hp2.
Qed.

(** One call of [router_read] on a chunk of a stream of packets. *)
Lemma router_read_spec fuel : forall n queue buffer rest ps, reading n -> Forall packet_ok ps ->
  pending n ++ buffer ++ rest = concat (map packet_buffer ps) -> (length buffer + nb_buffer_size n < fuel)%nat ->
  exists n' queue' k,
    router_read fuel [] n queue buffer = Some (RC_OK, n', queue ++ queue', []) /\
    reading n' /\ nb_endpoint n' = nb_endpoint n /\
    map content queue' = map content (take k ps) /\
    concat (map packet_buffer (take k ps)) ++ pending n' = pending n ++ buffer.
Proof.
  induction fuel as [|fuel IH]; intros n queue buffer rest ps Hr Hps E Hf; [lia|]. cbn [router_read].
  destruct (Nat.eqb_spec (length buffer) 0) as [H0|H0].
  { apply nil_length_inv in H0 as ->. exists n, [], 0%nat. rewrite !app_nil_r. by split_and!. }
  set (chunk := Nat.min _ _). assert (chunk <= length buffer)%nat as Hc1 by (unfold chunk; lia). pose proof (rd_size n Hr) as Hsz.
  destruct (append_chunk_reading n (take chunk buffer) Hr) as [Hr1 Hp1]; [rewrite length_take; unfold chunk; lia|].
  assert (nb_buffer_size (append_chunk n (take chunk buffer)) = nb_buffer_size n + chunk)%nat as Hs1.
  { cbn [append_chunk put_buffer nb_buffer_size]. rewrite length_take. lia. }
  set (n1 := append_chunk n (take chunk buffer)) in *. assert (nb_endpoint n1 = nb_endpoint n) as He1 by done.
  assert (pending n1 ++ drop chunk buffer ++ rest = concat (map packet_buffer ps)) as E1.
  { rewrite Hp1, <- E, <- app_assoc. f_equal. by rewrite app_assoc, take_drop. }
  assert ((nb_buffer_size n1 < PACKET_MAX_BYTES_LENGTH)%nat -> exists n' queue' k,
    Some (RC_OK, n1, queue, []) = Some (RC_OK, n', queue ++ queue', @nil bool) /\ reading n' /\ nb_endpoint n' = nb_endpoint n /\
    map content queue' = map content (take k ps) /\ concat (map packet_buffer (take k ps)) ++ pending n' = pending n ++ buffer) as Hwait.
  { intros H. exists n1, [], 0%nat. rewrite app_nil_r. split_and!; try done.
    change (pending n1 = pending n ++ buffer). rewrite Hp1, take_ge; [done|]. unfold chunk in *. lia. }
  clearbody n1. pose proof (length_pending n1 Hr1) as Hlp1.
  destruct (Nat.leb_spec (nb_buffer_size n1) HEADER_BYTES_LENGTH) as [Hsmall|Hbig].
  { apply Hwait. assert (HEADER_BYTES_LENGTH < PACKET_MAX_BYTES_LENGTH)%nat by (apply Nat.ltb_lt; vm_compute; reflexivity). lia. }
  destruct ps as [|p ps]; [apply (f_equal length) in E1; rewrite length_app in E1; cbn in E1; lia|].
  cbn [map concat] in E1. apply Forall_cons_iff in Hps as [Hp Hps]. pose proof (payload_bounds p) as Hbounds.
  destruct (packet_in_buffer n1 p _ _ Hr1 Hp E1 Hbig) as (-> & -> & Hcomplete).
  destruct (Nat.ltb_spec (nb_buffer_size n1 - HEADER_BYTES_LENGTH) (payload_length p)) as [Hpart|Hfull].
  { apply Hwait. unfold PACKET_MAX_BYTES_LENGTH. lia. }
  destruct (Hcomplete Hfull) as (Hg & Hr2 & Hp2 & E2). cbn [packet_type_value]. change (2 <? PACKET_TYPES_NUM) with true. cbn [Z.eqb Pos.eqb].
  rewrite (proj2 (Nat.ltb_ge _ _) (proj1 Hbounds)), (proj2 (Nat.ltb_ge _ _) (proj2 Hbounds)). cbn [orb].
  unfold protocol_gossip_queue_push, queue_push. cbn [malloc negb].
  destruct (IH (consume (payload_length p) n1) (queue ++ [read_gossip n1 (drop HEADER_BYTES_LENGTH (nb_buffer n1)) (payload_length p)])
    (drop chunk buffer) rest ps Hr2 Hps E2) as (n' & queue' & k & Hrun & Hrd & Hep & Hq & Hcat).
  { rewrite length_drop. cbn [consume put_buffer nb_buffer_size]. unfold HEADER_BYTES_LENGTH in *. lia. }
  eexists n', (_ :: queue'), (S k). split_and!; [rewrite Hrun; by rewrite <- app_assoc|done|by rewrite Hep, <- He1| |].
  - cbn [take map]. by rewrite Hg, Hq.
  - cbn [take map concat]. rewrite <- app_assoc, Hcat, app_assoc, Hp2, Hp1, <- app_assoc. f_equal. apply take_drop.
Qed.

(** The chunks of a connection, one after the other; an error is only logged. *)
Fixpoint router_reads (fuel : nat) (hp : heap) (n : neighbor_t) (queue : protocol_gossip_queue_t) (chunks : list (list Z))
    : option (list retcode_t * neighbor_t * protocol_gossip_queue_t * heap) :=
  match chunks with
  | [] => Some ([], n, queue, hp)
  | chunk :: chunks =>
      match router_read fuel hp n queue chunk with
      | None => None
      | Some (ret, n, queue, hp) =>
          match router_reads fuel hp n queue chunks with
          | None => None
          | Some (rets, n, queue, hp) => Some (ret :: rets, n, queue, hp)
          end
      end
  end.

(** C11: however TCP splits the stream of a neighbor, every read succeeds, and what is
    handed to the processor stage are the first packets of the stream, unaltered and in
    order, the rest of the bytes being kept in the buffer: nothing is lost. *)
Theorem router_reads_stream fuel : forall n queue chunks rest ps, reading n -> Forall packet_ok ps ->
  pending n ++ concat chunks ++ rest = concat (map packet_buffer ps) ->
  Forall (fun c => length c + PACKET_MAX_BYTES_LENGTH < fuel)%nat chunks ->
  exists n' queue' k,
    router_reads fuel [] n queue chunks = Some (map (fun _ => RC_OK) chunks, n', queue ++ queue', []) /\
    map content queue' = map content (take k ps) /\
    concat (map packet_buffer (take k ps)) ++ pending n' = pending n ++ concat chunks.
Proof.
  intros n queue chunks. revert n queue. induction chunks as [|c chunks IH]; intros n queue rest ps Hr Hps E Hf; cbn [router_reads map concat].
  { exists n, [], 0%nat. by rewrite !app_nil_r. }
  apply Forall_cons_iff in Hf as [Hc Hf]. cbn [concat] in E. rewrite <- app_assoc in E. pose proof (rd_size n Hr) as Hsz.
  destruct (router_read_spec fuel n queue c (concat chunks ++ rest) ps Hr Hps E) as (n1 & q1 & k1 & -> & Hr1 & _ & Hq1 & Hc1); [lia|].
  destruct (IH n1 (queue ++ q1) rest (drop k1 ps) Hr1) as (n2 & q2 & k2 & -> & Hq2 & Hc2); [by apply Forall_drop| |done|].
  { apply (app_inv_head (concat (map packet_buffer (take k1 ps)))). rewrite <- concat_app, <- map_app, take_drop, <- E, app_assoc, Hc1.
    by rewrite <- app_assoc. }
  exists n2, (q1 ++ q2), (k1 + k2)%nat. rewrite <- take_take_drop, !map_app, concat_app, Hq1, Hq2. split_and!; [by rewrite <- app_assoc|done|].
  by rewrite <- app_assoc, Hc2, !app_assoc, Hc1.
Qed.

(** A packet at the front of what fits in the empty buffer: it is delivered, and what
    follows it stays in the buffer. *)
Lemma router_read_one fuel n queue p more : reading n -> packet_ok p -> nb_buffer_size n = 0%nat ->
  (length (packet_buffer p ++ more) <= PACKET_MAX_BYTES_LENGTH)%nat -> (2 <= fuel)%nat ->
  exists n' g, router_read fuel [] n queue (packet_buffer p ++ more) = Some (RC_OK, n', queue ++ [g], []) /\
    content g = content p /\ source_ip g = ep_ip (nb_endpoint n) /\ source_port g = ep_port (nb_endpoint n) /\
    reading n' /\ pending n' = more.
Proof.
  intros Hr Hp H0 Hfit Hf. destruct fuel as [|[|fuel]]; [lia|lia|]. cbn [router_read].
  pose proof (length_packet p Hp) as Hlen. pose proof (payload_bounds p) as Hbounds.
  assert (length (packet_buffer p ++ more) <> 0)%nat as Hne by (rewrite length_app, Hlen; unfold HEADER_BYTES_LENGTH; lia).
  rewrite (proj2 (Nat.eqb_neq _ _) Hne), H0, Nat.sub_0_r, Nat.min_r, take_ge, drop_ge by lia. cbn [length Nat.eqb].
  destruct (append_chunk_reading n (packet_buffer p ++ more) Hr) as [Hr1 Hp1]; [by rewrite H0|].
  assert (nb_buffer_size (append_chunk n (packet_buffer p ++ more)) = length (packet_buffer p ++ more)) as Hs1
    by (cbn [append_chunk put_buffer nb_buffer_size]; by rewrite H0).
  set (n1 := append_chunk n _) in *. assert (nb_endpoint n1 = nb_endpoint n) as He1 by done. clearbody n1.
  unfold pending at 2 in Hp1. rewrite H0, take_0, app_nil_l in Hp1. rewrite length_app, Hlen in Hs1.
  unfold HEADER_BYTES_LENGTH in Hs1.
  assert (HEADER_BYTES_LENGTH < nb_buffer_size n1)%nat as Hbig.
  { unfold HEADER_BYTES_LENGTH, GOSSIP_MIN_BYTES_LENGTH, GOSSIP_NON_SIG_BYTES_LENGTH in *. lia. }
  rewrite (proj2 (Nat.leb_gt _ _) Hbig).
  destruct (packet_in_buffer n1 p [] more Hr1 Hp) as (-> & -> & Hcomplete); [by rewrite app_nil_r|done|].
  assert (payload_length p <= nb_buffer_size n1 - HEADER_BYTES_LENGTH)%nat as Hfull by (unfold HEADER_BYTES_LENGTH; lia).
  rewrite (proj2 (Nat.ltb_ge _ _) Hfull). destruct (Hcomplete Hfull) as (Hg & Hr2 & _ & E2). rewrite app_nil_r in E2.
  cbn [packet_type_value]. change (2 <? PACKET_TYPES_NUM) with true. cbn [Z.eqb Pos.eqb].
  rewrite (proj2 (Nat.ltb_ge _ _) (proj1 Hbounds)), (proj2 (Nat.ltb_ge _ _) (proj2 Hbounds)). cbn [orb].
  unfold protocol_gossip_queue_push, queue_push. cbn [malloc negb].
  eexists _, _. split_and!; [reflexivity|done|by rewrite <- He1|by rewrite <- He1|done|done].
Qed.

(** A packet that arrives in the same read as the one before it is not handed to
    the processor stage: it waits in the buffer until the neighbor sends more. *)
Theorem second_packet_waits fuel n queue p q : reading n -> packet_ok p -> packet_ok q -> nb_buffer_size n = 0%nat ->
  (length (packet_buffer p ++ packet_buffer q) <= PACKET_MAX_BYTES_LENGTH)%nat -> (2 <= fuel)%nat ->
  exists n' g, router_read fuel [] n queue (packet_buffer p ++ packet_buffer q) = Some (RC_OK, n', queue ++ [g], []) /\
    content g = content p /\ pending n' = packet_buffer q /\ router_read fuel [] n' (queue ++ [g]) [] = Some (RC_OK, n', queue ++ [g], []).
Proof.
  intros Hr Hp Hq H0 Hfit Hf. destruct (router_read_one fuel n queue p (packet_buffer q) Hr Hp H0 Hfit Hf) as (n' & g & E & Hg & _ & _ & _ & Hn).
  exists n', g. split_and!; try done. by destruct fuel; [lia|].
Qed.

(** *** Packets that are refused *)

(** A header that [router_read] refuses, or whose packet cannot fit in the buffer. *)
Definition invalid_header (type : Z) (len : nat) : Prop :=
  type = packet_type_value PROTOCOL_HEADER \/ PACKET_TYPES_NUM <= type \/
  (type = packet_type_value PROTOCOL_GOSSIP /\ (len < GOSSIP_MIN_BYTES_LENGTH)%nat) \/ (GOSSIP_MAX_BYTES_LENGTH < len)%nat.

Record blocked (n : neighbor_t) : Prop := {
  bl_reading : reading n;
  bl_header : (HEADER_BYTES_LENGTH < nb_buffer_size n)%nat;
  bl_invalid : invalid_header (header_type (nb_buffer n)) (header_length (nb_buffer n))
}.

Lemma blocked_read fuel hp n queue chunk : blocked n -> exists ret n', router_read (S fuel) hp n queue chunk = Some (ret, n', queue, hp) /\ blocked n'.
Proof.
  intros Hb. cbn [router_read]. destruct (length chunk =? 0)%nat; [by exists RC_OK, n|]. destruct Hb as [Hr Hh Hi].
  set (k := Nat.min _ _). pose proof (rd_size n Hr) as Hsz.
  destruct (append_chunk_reading n (take k chunk) Hr) as [Hr1 Hp1]; [rewrite length_take; unfold k; lia|].
  assert (take 3 (nb_buffer n) = take 3 (nb_buffer (append_chunk n (take k chunk)))) as Ht.
  { rewrite (nb_buffer_pending n), (nb_buffer_pending (append_chunk n (take k chunk))), Hp1. pose proof (length_pending n Hr). unfold HEADER_BYTES_LENGTH in Hh.
    rewrite <- app_assoc, !take_app_le by lia. done. }
  apply header_length_take in Ht as [HL HT]. rewrite HL, HT in Hi.
  assert (HEADER_BYTES_LENGTH < nb_buffer_size (append_chunk n (take k chunk)))%nat as Hh1
    by (cbn [append_chunk put_buffer nb_buffer_size]; lia).
  assert (blocked (append_chunk n (take k chunk))) as Hb1 by done.
  set (n1 := append_chunk n _) in *. clearbody n1. clear HL HT. rewrite (proj2 (Nat.leb_gt _ _) Hh1).
  destruct (Nat.ltb_spec (nb_buffer_size n1 - HEADER_BYTES_LENGTH) (header_length (nb_buffer n1))) as [|Hfull]; [by exists RC_OK, n1|].
  pose proof (rd_size n1 Hr1) as Hsz1. unfold PACKET_MAX_BYTES_LENGTH in Hsz1.
  destruct (Z.ltb_spec (header_type (nb_buffer n1)) PACKET_TYPES_NUM) as [Hlt|]; [|by exists RC_INVALID_PACKET_TYPE, n1].
  destruct Hi as [E|[E|[[E Hl]|E]]]; [|lia| |lia]; rewrite E; cbn [packet_type_value Z.eqb Pos.eqb].
  - by exists RC_INVALID_PACKET_TYPE, n1.
  - rewrite (proj2 (Nat.ltb_lt _ _) Hl). cbn [orb]. by exists RC_INVALID_PACKET, n1.
Qed.

(** One invalid header blocks a connection for good.  It is never removed from the
    buffer, so that whatever the neighbor sends afterwards nothing is handed to the
    processor stage any more. *)
Theorem invalid_packet_blocks fuel hp n queue chunks : blocked n ->
  exists rets n', router_reads (S fuel) hp n queue chunks = Some (rets, n', queue, hp) /\ blocked n'.
Proof.
  revert n. induction chunks as [|c chunks IH]; intros n Hb; cbn [router_reads]; [by exists [], n|].
  destruct (blocked_read fuel hp n queue c Hb) as (ret & n1 & -> & Hb1). destruct (IH n1 Hb1) as (rets & n2 & -> & Hb2).
  by exists (ret :: rets), n2.
Qed.

(** *** From trits to trits *)

Lemma length_trits_to_bytes ts : length (trits_to_bytes ts) = MIN_BYTES (length ts).
Proof.
  revert ts. apply (chunk_ind 5 (fun ts => length (trits_to_bytes ts) = MIN_BYTES (length ts))); [lia|done|].
  intros ts Hne IH. rewrite trits_to_bytes_unfold by done. cbn [length]. rewrite IH, length_drop. unfold MIN_BYTES.
  assert (length ts <> 0)%nat by (by intros ?%nil_length_inv).
  destruct (decide (length ts <= 5)%nat).
  - replace (length ts - 5)%nat with 0%nat by lia. rewrite (Nat.div_small (0 + 5 - 1)) by lia.
    apply (Nat.div_unique _ 5 1 (length ts - 1)); lia.
  - replace (length ts + 5 - 1)%nat with ((length ts - 5 + 5 - 1) + 1 * 5)%nat by lia. rewrite Nat.div_add by lia. lia.
Qed.

Lemma buf_write_front {A} (src buf : list A) : (length src <= length buf)%nat -> buf_write 0 src buf = src ++ drop (length src) buf.
Proof. intros. unfold buf_write. rewrite take_0, app_nil_l, Nat.sub_0_r, take_ge by lia. done. Qed.

Lemma flex_trits_to_bytes_ok bytes flex n : (n <= length flex)%nat -> (MIN_BYTES n <= length bytes)%nat ->
  flex_trits_to_bytes bytes n flex (length flex) n = (n, trits_to_bytes (take n flex) ++ drop (MIN_BYTES n) bytes).
Proof.
  intros Hn Hb. unfold flex_trits_to_bytes. guards. f_equal.
  assert (length (trits_to_bytes (take n flex)) = MIN_BYTES n) as Hl by (rewrite length_trits_to_bytes, length_take; f_equal; lia).
  rewrite buf_write_front by (rewrite length_memset; lia). rewrite Hl. f_equal. unfold memset.
  rewrite buf_write_front by (rewrite length_replicate; lia). rewrite length_replicate.
  apply drop_app_length'. by rewrite length_replicate.
Qed.

Lemma flex_trits_from_bytes_ok out bytes ts tail n : trits_ok ts -> length ts = n -> (n <= length out)%nat ->
  bytes = trits_to_bytes ts ++ tail ->
  flex_trits_from_bytes out (length out) bytes n n = (n, ts ++ replicate (length out - n) 0).
Proof.
  intros Ht Hn Ho ->. unfold flex_trits_from_bytes. guards. f_equal.
  rewrite take_app_length' by (rewrite length_trits_to_bytes; by subst). subst n. rewrite bytes_trits_id by done.
  rewrite memset_write; done || lia.
Qed.

Lemma set_transaction_ok packet tx : packet_ok packet -> length tx = NUM_TRITS_SERIALIZED_TRANSACTION ->
  protocol_gossip_set_transaction packet tx =
  (RC_OK, put_content (trits_to_bytes tx ++ drop GOSSIP_TX_BYTES_LENGTH (content packet)) packet).
Proof.
  intros Hp Hl. unfold packet_ok in Hp. unfold protocol_gossip_set_transaction. rewrite <- Hl.
  assert (MIN_BYTES (length tx) = GOSSIP_TX_BYTES_LENGTH) as Hmin by (rewrite Hl; vm_compute; reflexivity).
  rewrite flex_trits_to_bytes_ok; [|done|rewrite Hmin, Hp; unfold GOSSIP_MAX_BYTES_LENGTH; lia].
  rewrite Nat.eqb_refl, Hmin. by rewrite take_ge by lia.
Qed.

Lemma set_request_ok packet request m : packet_ok packet -> length request = HASH_LENGTH_TRIT -> (m <= HASH_LENGTH_TRIT)%nat ->
  exists tail, protocol_gossip_set_request packet request m =
    (RC_OK, put_content (take GOSSIP_TX_BYTES_LENGTH (content packet) ++ trits_to_bytes (take m request) ++ tail) packet) /\
    packet_ok (put_content (take GOSSIP_TX_BYTES_LENGTH (content packet) ++ trits_to_bytes (take m request) ++ tail) packet).
Proof.
  intros Hp Hl Hm. unfold packet_ok in *. unfold protocol_gossip_set_request. rewrite <- Hl in *.
  assert (MIN_BYTES m <= GOSSIP_REQUESTED_TX_HASH_BYTES_LENGTH)%nat as Hmr.
  { transitivity (MIN_BYTES HASH_LENGTH_TRIT); [|by apply Nat.leb_le]. unfold MIN_BYTES. apply Nat.Div0.div_le_mono. lia. }
  assert (length (drop GOSSIP_TX_BYTES_LENGTH (content packet)) = GOSSIP_REQUESTED_TX_HASH_BYTES_LENGTH) as Hld
    by (rewrite length_drop, Hp; unfold GOSSIP_MAX_BYTES_LENGTH; lia).
  rewrite flex_trits_to_bytes_ok by lia. rewrite Nat.eqb_refl. eexists. split; [reflexivity|]. cbn [put_content content].
  rewrite !length_app, length_trits_to_bytes, !length_take, length_drop, Hld, Hp.
  replace (Nat.min m (length request)) with m by lia. unfold GOSSIP_MAX_BYTES_LENGTH. lia.
Qed.

(** C16: what a node sends is what its neighbor reads.  A packet made of the trits of a
    transaction and of a request, put on the wire without the zero bytes at the end of
    the signature, is rebuilt by the reader, and its bytes convert back to the same
    transaction and to the requested hash without its last trits, as many as the minimum
    weight magnitude. *)
Theorem gossip_roundtrip packet tx request mwm n queue fuel out out' :
  packet_ok packet -> length tx = NUM_TRITS_SERIALIZED_TRANSACTION -> trits_ok tx ->
  length request = HASH_LENGTH_TRIT -> trits_ok request -> (mwm <= HASH_LENGTH_TRIT)%nat ->
  reading n -> nb_buffer_size n = 0%nat -> (2 <= fuel)%nat ->
  length out = NUM_TRITS_SERIALIZED_TRANSACTION -> length out' = HASH_LENGTH_TRIT ->
  exists packet1 packet2 n' g,
    protocol_gossip_set_transaction packet tx = (RC_OK, packet1) /\
    protocol_gossip_set_request packet1 request (HASH_LENGTH_TRIT - mwm) = (RC_OK, packet2) /\
    router_read fuel [] n queue (packet_buffer packet2) = Some (RC_OK, n', queue ++ [g], []) /\ pending n' = [] /\
    source_ip g = ep_ip (nb_endpoint n) /\ source_port g = ep_port (nb_endpoint n) /\
    flex_trits_from_bytes out NUM_TRITS_SERIALIZED_TRANSACTION (content g) NUM_TRITS_SERIALIZED_TRANSACTION NUM_TRITS_SERIALIZED_TRANSACTION =
      (NUM_TRITS_SERIALIZED_TRANSACTION, tx) /\
    flex_trits_from_bytes out' HASH_LENGTH_TRIT (drop GOSSIP_TX_BYTES_LENGTH (content g)) (HASH_LENGTH_TRIT - mwm) (HASH_LENGTH_TRIT - mwm) =
      ((HASH_LENGTH_TRIT - mwm)%nat, take (HASH_LENGTH_TRIT - mwm) request ++ replicate mwm 0).
Proof.
  intros Hp Hl Ht Hlr Htr Hm Hr H0 Hf Ho Ho'. rewrite (set_transaction_ok _ _ Hp Hl). eexists. destruct (set_request_ok
    (put_content (trits_to_bytes tx ++ drop GOSSIP_TX_BYTES_LENGTH (content packet)) packet) request (HASH_LENGTH_TRIT - mwm))
    as (tail & E2 & Hp2); [|done|lia|].
  { unfold packet_ok in *. cbn [put_content content]. rewrite length_app, length_trits_to_bytes, length_drop, Hl, Hp.
    change (MIN_BYTES NUM_TRITS_SERIALIZED_TRANSACTION) with GOSSIP_TX_BYTES_LENGTH. unfold GOSSIP_MAX_BYTES_LENGTH. lia. }
  assert (length (trits_to_bytes tx) = GOSSIP_TX_BYTES_LENGTH) as Hlt by (rewrite length_trits_to_bytes, Hl; vm_compute; reflexivity).
  cbn [put_content content] in E2, Hp2. rewrite take_app_length' in E2, Hp2 by done.
  set (m := (HASH_LENGTH_TRIT - mwm)%nat) in *. set (packet2 := put_content _ (put_content _ _)) in *.
  destruct (router_read_one fuel n queue packet2 [] Hr Hp2 H0) as (n' & g & Hrun & Hg & Hi & Hpo & _ & Hn'); [|done|].
  { rewrite app_nil_r, length_packet by done. pose proof (payload_bounds packet2). unfold PACKET_MAX_BYTES_LENGTH. lia. }
  rewrite app_nil_r in Hrun. exists packet2, n', g. split_and!; [reflexivity|exact E2|exact Hrun|exact Hn'|exact Hi|exact Hpo| |];
    rewrite Hg; cbn [packet2 put_content content].
  - rewrite <- Ho at 1. rewrite (flex_trits_from_bytes_ok out _ tx (trits_to_bytes (take m request) ++ tail)) by (done || lia).
    by rewrite Ho, Nat.sub_diag, app_nil_r.
  - rewrite drop_app_length' by done. rewrite <- Ho' at 1.
    rewrite (flex_trits_from_bytes_ok out' _ (take m request) tail) by (by apply Forall_take || rewrite ?length_take; done || lia).
    do 3 f_equal. lia.
Qed.

(** *** The handshake *)

Lemma buf_read_middle {A} (a b c : list A) off n : length a = off -> length b = n -> buf_read off n (a ++ b ++ c) = b.
Proof. intros <- <-. unfold buf_read. by rewrite drop_app_length, take_app_length. Qed.

(** The handshake that a peer with one byte [v] of versions sends. *)
Definition one_version (v : Z) (h : protocol_handshake_t) : protocol_handshake_t :=
  mk_handshake (hs_port h) (hs_timestamp h) (hs_coordinator_address h) (hs_mwm h) (v :: replicate 31 0).

Lemma handshake_read now port address mwm v : 0 <= port < 2 ^ 16 -> 0 <= mwm < 2 ^ 8 -> 0 <= v < 2 ^ 8 ->
  length address = HANDSHAKE_COORDINATOR_ADDRESS_BYTES_LENGTH ->
  let h := one_version v (handshake_init now port address mwm).1 in
  let r := handshake_of (take HANDSHAKE_MIN_BYTES_LENGTH (handshake_bytes h)) in
  from_network (hs_port r) = port /\ hs_coordinator_address r = address /\ hs_mwm r = mwm /\ hs_supported_versions r = [v].
Proof.
  intros Hp Hm Hv Ha. cbv zeta. unfold handshake_bytes. cbn [one_version handshake_init fst hs_port hs_timestamp hs_coordinator_address hs_mwm hs_supported_versions map].
  rewrite (take_ge address) by (by rewrite Ha). unfold HANDSHAKE_COORDINATOR_ADDRESS_BYTES_LENGTH in Ha.
  assert (take HANDSHAKE_MIN_BYTES_LENGTH (to_network 2 port ++ to_network 8 now ++ address ++ [i8 mwm] ++ i8 v :: map i8 (replicate 31 0)) =
    to_network 2 port ++ to_network 8 now ++ address ++ [i8 mwm] ++ [i8 v]) as ->.
  { rewrite (cons_middle (i8 v) _ (map i8 (replicate 31 0))), !app_assoc. apply take_app_length'. rewrite !length_app, !length_to_network, Ha. reflexivity. }
  assert (forall x, 0 <= x < 2 ^ 8 -> u8 (i8 x) = x) as Hu by (intros x Hx; rewrite u8_i8; by apply Z.mod_small).
  unfold handshake_of. cbn [hs_port hs_coordinator_address hs_mwm hs_supported_versions]. split_and!.
  - erewrite (buf_read_middle [] (to_network 2 port) _ 0 2 eq_refl (length_to_network _ _) : buf_read 0 2 (to_network 2 port ++ _) = _).
    rewrite from_to_network. by apply Z.mod_small.
  - rewrite app_assoc. apply buf_read_middle; [by rewrite length_app, !length_to_network|done].
  - rewrite !app_assoc, <- app_assoc. rewrite app_nth2; rewrite !length_app, !length_to_network, Ha; [|lia]. cbn. by apply Hu.
  - rewrite (app_assoc _ [i8 mwm]), !app_assoc. unfold buf_read.
    rewrite drop_app_length' by (rewrite !length_app, !length_to_network, Ha; reflexivity). cbn. by rewrite Hu.
Qed.

(** What is read back of the bytes of such a handshake. *)
Lemma read_handshake_one_version conf neighbors find ip now port address mwm v : 0 <= port < 2 ^ 16 -> 0 <= mwm < 2 ^ 8 ->
  0 <= v < 2 ^ 8 -> length address = HANDSHAKE_COORDINATOR_ADDRESS_BYTES_LENGTH ->
  let h := one_version v (handshake_init now port address mwm).1 in
  let buf := header_bytes PROTOCOL_HANDSHAKE (Z.of_nat HANDSHAKE_MIN_BYTES_LENGTH) ++ take HANDSHAKE_MIN_BYTES_LENGTH (handshake_bytes h) in
  router_read_handshake conf neighbors find ip buf (length buf) =
  (if negb (bool_decide (take HANDSHAKE_COORDINATOR_ADDRESS_BYTES_LENGTH (rc_coordinator_address conf) = address)) ||
      negb (rc_mwm conf =? mwm) || (handshake_supported_version [v] 1 <? 0)
   then (RC_FAILED_HANDSHAKE, None, neighbors) else
   match find ip port with
   | None => (RC_FAILED_HANDSHAKE, None, neighbors)
   | Some pos =>
       match neighbors !! pos with
       | None => (RC_FAILED_HANDSHAKE, None, neighbors)
       | Some n => if ep_stream (nb_endpoint n) then (RC_FAILED_HANDSHAKE, Some pos, neighbors)
                   else (RC_OK, Some pos, <[pos := put_protocol_version (u8 (handshake_supported_version [v] 1)) n]> neighbors)
       end
   end).
Proof.
  intros Hp Hm Hv Ha. cbv zeta. set (h := one_version _ _). set (payload := take _ (handshake_bytes h)).
  destruct (handshake_read now port address mwm v Hp Hm Hv Ha) as (E1 & E2 & E3 & E4). fold h in E1, E2, E3, E4. fold payload in E1, E2, E3, E4.
  assert (length payload = HANDSHAKE_MIN_BYTES_LENGTH) as Hl.
  { unfold payload. rewrite length_take. unfold h, handshake_bytes. cbn [one_version handshake_init fst hs_port hs_timestamp hs_coordinator_address hs_mwm hs_supported_versions].
    rewrite !length_app, !length_to_network, length_take, Ha. reflexivity. }
  destruct (header_bytes_read PROTOCOL_HANDSHAKE HANDSHAKE_MIN_BYTES_LENGTH payload) as [H1 H2]; [vm_compute; reflexivity|].
  assert (drop HEADER_BYTES_LENGTH (header_bytes PROTOCOL_HANDSHAKE (Z.of_nat HANDSHAKE_MIN_BYTES_LENGTH) ++ payload) = payload) as H3
    by (apply drop_app_length'; unfold header_bytes; cbn [length]; by rewrite length_to_network).
  assert (length (header_bytes PROTOCOL_HANDSHAKE (Z.of_nat HANDSHAKE_MIN_BYTES_LENGTH) ++ payload) = HEADER_BYTES_LENGTH + HANDSHAKE_MIN_BYTES_LENGTH)%nat as H4
    by (rewrite length_app, Hl; unfold header_bytes; cbn [length]; by rewrite length_to_network).
  unfold router_read_handshake. rewrite H1, H2, H3, H4, E1, E2, E3, E4, Z.eqb_refl, Nat.eqb_refl. clearbody payload. clear.
  change (HEADER_BYTES_LENGTH + HANDSHAKE_MIN_BYTES_LENGTH <? HEADER_BYTES_LENGTH)%nat with false.
  rewrite Nat.ltb_irrefl. change (HANDSHAKE_MAX_BYTES_LENGTH <? HANDSHAKE_MIN_BYTES_LENGTH)%nat with false.
  change (HANDSHAKE_MIN_BYTES_LENGTH - HANDSHAKE_MIN_BYTES_LENGTH + 1)%nat with 1%nat. cbn [negb orb].
  destruct (bool_decide _); cbn [negb orb]; [|done]. destruct (rc_mwm conf =? mwm); cbn [negb orb]; [|done].
  by destruct (handshake_supported_version [v] 1 <? 0).
Qed.

(** The handshake of a node of the same network is accepted, with version 1 of the
    protocol, when it comes from a known neighbor that is not connected; a handshake of
    another coordinator or another minimum weight magnitude is refused, and so is one
    from a peer that is not a neighbor or is already connected. *)
Theorem handshake_accepted_iff conf neighbors find ip now port address mwm : 0 <= port < 2 ^ 16 -> 0 <= mwm < 2 ^ 8 ->
  length address = HANDSHAKE_COORDINATOR_ADDRESS_BYTES_LENGTH ->
  let '(h, size) := handshake_init now port address mwm in
  exists buf, router_write 0 [] PROTOCOL_HANDSHAKE (handshake_bytes h) size = Some (RC_OK, buf, []) /\
  let r := router_read_handshake conf neighbors find ip buf (length buf) in
  (r.1.1 = RC_OK <->
   take HANDSHAKE_COORDINATOR_ADDRESS_BYTES_LENGTH (rc_coordinator_address conf) = address /\ rc_mwm conf = mwm /\
   exists pos n, find ip port = Some pos /\ neighbors !! pos = Some n /\ ep_stream (nb_endpoint n) = false /\
     r = (RC_OK, Some pos, <[pos := put_protocol_version 1 n]> neighbors)) /\
  (r.1.1 <> RC_OK -> r.2 = neighbors).
Proof.
  intros Hp Hm Ha. pose proof (read_handshake_one_version conf neighbors find ip now port address mwm 1 Hp Hm ltac:(lia) Ha) as E.
  cbv zeta in E. unfold handshake_init in *. cbn [fst] in E. unfold one_version in E.
  cbn [hs_port hs_timestamp hs_coordinator_address hs_mwm hs_supported_versions] in E.
  change (HANDSHAKE_MIN_BYTES_LENGTH + length own_supported_versions - 1)%nat with HANDSHAKE_MIN_BYTES_LENGTH.
  change (own_supported_versions ++ replicate (32 - length own_supported_versions) 0) with (1 :: replicate 31 0).
  set (h := mk_handshake _ _ _ _ _) in *. clearbody h. eexists. split; [reflexivity|]. cbv zeta. rewrite E.
  change (handshake_supported_version [1] 1) with 1. change (1 <? 0) with false. change (u8 1) with 1. rewrite orb_false_r. clear.
  destruct (bool_decide_reflect (take HANDSHAKE_COORDINATOR_ADDRESS_BYTES_LENGTH (rc_coordinator_address conf) = address)) as [Hc|]; cbn [negb orb fst snd].
  2: { split; [split; [done|by intros [? _]]|done]. }
  destruct (Z.eqb_spec (rc_mwm conf) mwm) as [Hw|]; cbn [negb fst snd]; [|split; [split; [done|by intros (_ & ? & _)]|done]].
  destruct (find ip port) as [pos|]; cbn [fst snd]; [|split; [split; [done|by intros (_ & _ & ? & ? & ? & _)]|done]].
  destruct (neighbors !! pos) as [n|] eqn:En; cbn [fst snd].
  2: { split; [split; [done|intros (_ & _ & ? & ? & [= <-] & E & _); congruence]|done]. }
  destruct (ep_stream (nb_endpoint n)) eqn:Es; cbn [fst snd].
  - split; [split; [done|intros (_ & _ & ? & ? & [= <-] & E & Es' & _); congruence]|done].
  - split; [|done]. split; [|done]. intros _. split_and!; [done..|]. by exists pos, n.
Qed.

(** A peer that supports no version of the protocol at all is accepted: the search
    ends with the negative of the highest version of the peer, which is zero when its
    only byte of versions is. *)
Theorem no_version_accepted conf neighbors find ip now port mwm pos n : 0 <= port < 2 ^ 16 -> 0 <= mwm < 2 ^ 8 ->
  length (rc_coordinator_address conf) = HANDSHAKE_COORDINATOR_ADDRESS_BYTES_LENGTH -> rc_mwm conf = mwm ->
  find ip port = Some pos -> neighbors !! pos = Some n -> ep_stream (nb_endpoint n) = false ->
  let h := one_version 0 (handshake_init now port (rc_coordinator_address conf) mwm).1 in
  let buf := header_bytes PROTOCOL_HANDSHAKE (Z.of_nat HANDSHAKE_MIN_BYTES_LENGTH) ++ take HANDSHAKE_MIN_BYTES_LENGTH (handshake_bytes h) in
  router_read_handshake conf neighbors find ip buf (length buf) = (RC_OK, Some pos, <[pos := put_protocol_version 0 n]> neighbors).
Proof.
  intros Hp Hm Ha Hw Hf Hn Hs. cbv zeta. rewrite read_handshake_one_version by (done || lia). rewrite take_ge, bool_decide_eq_true_2 by (done || by rewrite Ha).
  rewrite Hw, Z.eqb_refl, Hf, Hn, Hs. reflexivity.
Qed.

(** ** Examples *)

Definition sample_packet (b : Z) : protocol_gossip_t := mk_gossip (replicate 20 b ++ replicate 1300 0 ++ replicate 333 b) [] 0.

Lemma neighbor_init_reading : reading neighbor_init.
Proof. split; cbn [neighbor_init nb_buffer nb_buffer_size]; [by rewrite length_replicate|lia]. Qed.

Lemma sample_packet_ok b : packet_ok (sample_packet b).
Proof. unfold packet_ok. cbn [sample_packet content]. by rewrite !length_app, !length_replicate. Qed.

(** Two packets in chunks of 200, 500 and 22 bytes. *)
Lemma router_reads_stream_witness :
  let stream := packet_buffer (sample_packet 1) ++ packet_buffer (sample_packet 2) in
  exists n' queue' k,
    router_reads (Z.to_nat 2400) [] neighbor_init [] [take 200 stream; buf_read 200 500 stream; drop 700 stream] =
      Some ([RC_OK; RC_OK; RC_OK], n', queue', []) /\
    map content queue' = map content (take k [sample_packet 1; sample_packet 2]).
Proof.
  intros stream.
  destruct (router_reads_stream (Z.to_nat 2400) neighbor_init [] [take 200 stream; buf_read 200 500 stream; drop 700 stream] []
    [sample_packet 1; sample_packet 2] neighbor_init_reading) as (n' & queue' & k & H1 & H2 & _).
  - repeat (apply Forall_cons_iff; split); [apply sample_packet_ok..|apply Forall_nil; exact I].
  - vm_compute. reflexivity.
  - repeat (apply Forall_cons_iff; split); [apply Nat.ltb_lt; vm_compute; reflexivity..|apply Forall_nil; exact I].
  - exists n', queue', k. split; [exact H1|exact H2].
Defined.

Lemma second_packet_waits_witness :
  exists n' g, router_read 2 [] neighbor_init [] (packet_buffer (sample_packet 1) ++ packet_buffer (sample_packet 2)) =
      Some (RC_OK, n', [g], []) /\ pending n' = packet_buffer (sample_packet 2).
Proof.
  destruct (second_packet_waits 2 neighbor_init [] (sample_packet 1) (sample_packet 2) neighbor_init_reading
    (sample_packet_ok 1) (sample_packet_ok 2) eq_refl) as (n' & g & H1 & _ & H2 & _).
  - apply Nat.leb_le. vm_compute. reflexivity.
  - lia.
  - exists n', g. split; [exact H1|exact H2].
Defined.

(** A connection whose buffer starts with a header of type 7. *)
Definition blocked_neighbor : neighbor_t := append_chunk neighbor_init [7; 0; 1; 5].

Lemma invalid_packet_blocks_witness :
  exists rets n', router_reads 1 [] blocked_neighbor [] [packet_buffer (sample_packet 1); packet_buffer (sample_packet 2)] =
    Some (rets, n', [], []).
Proof.
  assert (blocked blocked_neighbor) as Hb.
  { split.
    - apply append_chunk_reading; [exact neighbor_init_reading|]. cbn [neighbor_init nb_buffer_size length]. apply Nat.leb_le. vm_compute. reflexivity.
    - apply Nat.ltb_lt. vm_compute. reflexivity.
    - right. left. vm_compute. discriminate. }
  destruct (invalid_packet_blocks 0 [] blocked_neighbor [] [packet_buffer (sample_packet 1); packet_buffer (sample_packet 2)] Hb)
    as (rets & n' & H & _). exists rets, n'. exact H.
Defined.

Lemma gossip_roundtrip_witness :
  let N := NUM_TRITS_SERIALIZED_TRANSACTION in let packet := mk_gossip (replicate 1653 0) [] 0 in
  exists packet1 packet2 n' g,
    protocol_gossip_set_transaction packet (replicate N 1) = (RC_OK, packet1) /\
    protocol_gossip_set_request packet1 (replicate 243 1) 229 = (RC_OK, packet2) /\
    router_read 2 [] neighbor_init [] (packet_buffer packet2) = Some (RC_OK, n', [g], []) /\
    flex_trits_from_bytes (replicate N 0) N (content g) N N = (N, replicate N 1).
Proof.
  intros N packet.
  assert (packet_ok packet) as H1 by closed_decide. assert (length (replicate N 1) = N) as H2 by apply length_replicate.
  assert (trits_ok (replicate N 1)) as H3 by (apply Forall_replicate; unfold is_trit; lia).
  assert (trits_ok (replicate 243 1)) as H4 by (apply Forall_replicate; unfold is_trit; lia).
  assert (length (replicate N 0) = N) as H5 by apply length_replicate.
  destruct (gossip_roundtrip packet (replicate N 1) (replicate 243 1) 14 neighbor_init [] 2 (replicate N 0) (replicate 243 0)
    H1 H2 H3 eq_refl H4 ltac:(unfold HASH_LENGTH_TRIT; lia) neighbor_init_reading eq_refl ltac:(lia) H5 eq_refl)
    as (p1 & p2 & n' & g & E1 & E2 & E3 & _ & _ & _ & E4 & _).
  exists p1, p2, n', g. split; [exact E1|]. split; [exact E2|]. split; [exact E3|exact E4].
Defined.

Definition sample_peer : neighbor_t :=
  mk_neighbor (nb_buffer neighbor_init) 0 [] (mk_endpoint [] [49] 15600 false) NEIGHBOR_HANDSHAKING 0 0 0 0 0 0 0 0.

Definition sample_find (ip : list Z) (port : Z) : option nat := if bool_decide (ip = [49]) && (port =? 15600) then Some 0%nat else None.

Lemma handshake_accepted_iff_witness :
  exists buf, router_write 0 [] PROTOCOL_HANDSHAKE (handshake_bytes (handshake_init 1560000000000 15600 (replicate 49 5) 14).1) 61 = Some (RC_OK, buf, []) /\
  (router_read_handshake (mk_router_conf (replicate 49 5) 14) [sample_peer] sample_find [49] buf (length buf)).1.1 = RC_OK.
Proof.
  pose proof (handshake_accepted_iff (mk_router_conf (replicate 49 5) 14) [sample_peer] sample_find [49] 1560000000000 15600
    (replicate 49 5) 14 ltac:(lia) ltac:(lia) eq_refl) as H.
  unfold handshake_init in *. destruct H as (buf & H1 & H2 & _). exists buf. split; [exact H1|]. apply H2.
  split; [reflexivity|]. split; [reflexivity|]. exists 0%nat, sample_peer. split_and!; [reflexivity..|].
  assert ((router_write 0 [] PROTOCOL_HANDSHAKE (handshake_bytes (handshake_init 1560000000000 15600 (replicate 49 5) 14).1) 61) = Some (RC_OK, buf, [])) as E by exact H1.
  vm_compute in E. injection E as <-. vm_compute. reflexivity.
Defined.
