(* ===== verification/Solidifier.v ===== *)
(** * Transaction solidifier

    [ciri/consensus/transaction_solidifier/transaction_solidifier.c]: which
    transactions are solid, that is have their whole past in the database.  The lock
    and the condition variable are not modelled; the thread is [propagate_loop].  The
    requester and the tips cache are shared with the node and kept in the record. *)
From S2P Require Import Prelude Errors Transaction Bundle Containers StateDelta Snapshot Statements Sqlite Tangle Traversal Caches.

Section Solidifier.
Context {DB : Type} {SQ : Sqlite DB}.
Implicit Types (db : DB) (hp : heap) (hash : hash_t).

(** [None] is the null pointer. *)
Record transaction_solidifier_t := mk_ts {
  ts_genesis_hash : hash_t; ts_requester : option transaction_requester_t; ts_provider : snapshots_provider_t;
  ts_running : bool; newly_set_solid_transactions : hash243_set; ts_tips : tips_cache_t
}.

Definition ts_initial (ts : transaction_solidifier_t) : snapshot_t := initial_snapshot (ts_provider ts).

Definition put_requester (r : option transaction_requester_t) (ts : transaction_solidifier_t) : transaction_solidifier_t :=
  mk_ts (ts_genesis_hash ts) r (ts_provider ts) (ts_running ts) (newly_set_solid_transactions ts) (ts_tips ts).
Definition put_newly (s : hash243_set) (ts : transaction_solidifier_t) : transaction_solidifier_t :=
  mk_ts (ts_genesis_hash ts) (ts_requester ts) (ts_provider ts) (ts_running ts) s (ts_tips ts).
Definition put_tips (t : tips_cache_t) (ts : transaction_solidifier_t) : transaction_solidifier_t :=
  mk_ts (ts_genesis_hash ts) (ts_requester ts) (ts_provider ts) (ts_running ts) (newly_set_solid_transactions ts) t.

Definition iota_consensus_transaction_solidifier_init (genesis : hash_t) (r : transaction_requester_t) (p : snapshots_provider_t)
    (t : tips_cache_t) : transaction_solidifier_t := mk_ts genesis (Some r) p false [] t.

Definition put_ts_running (b : bool) (ts : transaction_solidifier_t) : transaction_solidifier_t :=
  mk_ts (ts_genesis_hash ts) (ts_requester ts) (ts_provider ts) b (newly_set_solid_transactions ts) (ts_tips ts).

(** [created] and [joined]: what the creation and the join of the thread return. *)
Definition iota_consensus_transaction_solidifier_start (created : Z) (ts : transaction_solidifier_t) : retcode_t * transaction_solidifier_t :=
  (if negb (created =? 0) then RC_THREAD_CREATE else RC_OK, put_ts_running true ts).

Definition iota_consensus_transaction_solidifier_stop (joined : Z) (ts : transaction_solidifier_t) : retcode_t * transaction_solidifier_t :=
  if negb (ts_running ts) then (RC_OK, ts) else (if negb (joined =? 0) then RC_THREAD_JOIN else RC_OK, put_ts_running false ts).

Definition iota_consensus_transaction_solidifier_destroy (ts : transaction_solidifier_t) : retcode_t * transaction_solidifier_t :=
  if ts_running ts then (RC_STILL_RUNNING, ts) else (RC_OK, put_requester None (put_newly [] ts)).

(** ** Checking the past of a transaction *)

Record solidity_params := mk_solidity { p_ts : transaction_solidifier_t; p_is_solid : bool; p_candidates : hash243_set; p_max_analyzed : Z }.

Definition check_solidity_do_func (mem : iota_transaction_t) (solid_entry_points : hash243_set) : tangle_traversal_functor DB solidity_params :=
  fun db hp hash pack params _ _ =>
  if p_max_analyzed params =? 0
  then Some (mk_result RC_OK db hp (mk_solidity (p_ts params) false (p_candidates params) 0) false true) else
  let max := i32 (p_max_analyzed params - 1) in
  if (num_loaded pack =? 1)%nat && negb (transaction_solid (single_tx pack mem)) then
    let '(ret, candidates, hp) := hash243_set_add hp (p_candidates params) hash in
    Some (mk_result ret db hp (mk_solidity (p_ts params) (p_is_solid params) candidates max) true false)
  else if (num_loaded pack =? 0)%nat && negb (hash243_set_contains solid_entry_points hash) then
    let '(ret, r, hp) :=
      match ts_requester (p_ts params) with
      | None => (RC_NULL_PARAM, None, hp)
      | Some r => let '(ret, r, hp) := request_transaction hp r db hash in (ret, Some r, hp)
      end in
    Some (mk_result ret db hp (mk_solidity (put_requester r (p_ts params)) false (p_candidates params) max) false false)
  else Some (mk_result RC_OK db hp (mk_solidity (p_ts params) (p_is_solid params) (p_candidates params) max) false false).

(** The code, the solidifier, the database, the allocations and [*is_solid]; whether
    the transaction was loaded is not asked. *)
Definition iota_consensus_transaction_solidifier_check_solidity (fuel : nat) (mem : iota_transaction_t) (ts : transaction_solidifier_t)
    db hp hash (max_analyzed : Z) (is_solid : bool) : option (retcode_t * transaction_solidifier_t * DB * heap * bool) :=
  let '(ret, pack) := iota_tangle_transaction_load_partial db hash (DECLARE_PACK_SINGLE mem) PARTIAL_TX_MODEL_ESSENCE_ATTACHMENT_METADATA in
  if negb (bool_decide (ret = RC_OK)) then Some (ret, ts, db, hp, is_solid) else
  if transaction_solid (single_tx pack mem) then Some (RC_OK, ts, db, hp, true) else
  let '(analyzed_hashes, hp) := iota_snapshot_solid_entry_points_set hp (ts_initial ts) [] in
  let '(_, entry_points, hp) := hash243_set_append hp analyzed_hashes [] in
  let max := i32 (max_analyzed + hash243_set_size entry_points) in
  match tangle_traversal_dfs_to_past fuel mem db hp (check_solidity_do_func mem entry_points) hash (ts_genesis_hash ts)
          analyzed_hashes (mk_solidity ts true [] max) with
  | None => None
  | Some r =>
      let ts := p_ts (t_data r) in
      if negb (bool_decide (t_ret r = RC_OK)) then Some (t_ret r, ts, t_db r, t_heap r, false) else
      if p_is_solid (t_data r) then
        let '(ret, db) := iota_tangle_transactions_update_solidity (t_db r) (p_candidates (t_data r)) true in
        let '(_, newly, hp) := hash243_set_append (t_heap r) (p_candidates (t_data r)) (newly_set_solid_transactions ts) in
        Some (ret, put_newly newly ts, db, hp, true)
      else Some (RC_OK, ts, t_db r, t_heap r, is_solid)
  end.

(** ** Checking the approvees of a transaction *)

Definition check_approvee_solid_state (mem : iota_transaction_t) (ts : transaction_solidifier_t) db (approvee : hash_t) : retcode_t * bool :=
  if iota_snapshot_has_solid_entry_point (ts_initial ts) approvee then (RC_OK, true) else
  let '(ret, pack) := iota_tangle_transaction_load_partial db approvee (DECLARE_PACK_SINGLE mem) PARTIAL_TX_MODEL_METADATA in
  if negb (bool_decide (ret = RC_OK)) then (ret, false) else
  if (num_loaded pack =? 0)%nat then (ret, false) else
  if memeq 243 approvee (ts_genesis_hash ts) then (ret, true) else
  (ret, transaction_solid (single_tx pack mem)).

(** The code, the database and [*is_new_solid]. *)
Definition check_transaction_and_update_solid_state (mem : iota_transaction_t) (ts : transaction_solidifier_t) db hash
    : retcode_t * DB * bool :=
  if iota_snapshot_has_solid_entry_point (ts_initial ts) hash then (RC_OK, db, false) else
  let '(ret, pack) := iota_tangle_transaction_load_partial db hash (DECLARE_PACK_SINGLE mem) PARTIAL_TX_MODEL_ESSENCE_ATTACHMENT_METADATA in
  if negb (bool_decide (ret = RC_OK)) || (num_loaded pack =? 0)%nat then (ret, db, false) else
  let tx := single_tx pack mem in
  if negb (transaction_solid tx) then
    let '(ret, is_trunk_solid) := check_approvee_solid_state mem ts db (transaction_trunk tx) in
    if negb (bool_decide (ret = RC_OK)) then (ret, db, false) else
    let '(ret, is_branch_solid) := check_approvee_solid_state mem ts db (transaction_branch tx) in
    if negb (bool_decide (ret = RC_OK)) then (ret, db, false) else
    let is_new_solid := is_trunk_solid && is_branch_solid in
    if is_new_solid then
      let '(ret, db) := iota_tangle_transaction_update_solidity db hash true in (ret, db, is_new_solid)
    else (ret, db, is_new_solid)
  else (ret, db, false).

Definition add_new_solid_transaction hp (ts : transaction_solidifier_t) hash : retcode_t * transaction_solidifier_t * heap :=
  let '(ret, newly, hp) := hash243_set_add hp (newly_set_solid_transactions ts) hash in
  let ts := put_newly newly ts in
  if negb (bool_decide (ret = RC_OK)) then (ret, ts, hp) else
  let '(ret, tips, hp) := tips_cache_set_solid hp (ts_tips ts) hash in
  (ret, put_tips tips ts, hp).

Definition iota_consensus_transaction_solidifier_check_and_update_solid_state (mem : iota_transaction_t) hp (ts : transaction_solidifier_t)
    db hash : retcode_t * transaction_solidifier_t * DB * heap :=
  match ts_requester ts with
  | None => (RC_OK, ts, db, hp)
  | Some _ =>
      let '(ret, db, is_new_solid) := check_transaction_and_update_solid_state mem ts db hash in
      if negb (bool_decide (ret = RC_OK)) then (ret, ts, db, hp) else
      if is_new_solid then
        let '(ret, ts, hp) := add_new_solid_transaction hp ts hash in (ret, ts, db, hp)
      else (ret, ts, db, hp)
  end.

Definition iota_consensus_transaction_solidifier_update_status (mem : iota_transaction_t) hp (ts : transaction_solidifier_t) db
    (tx : iota_transaction_t) : retcode_t * transaction_solidifier_t * DB * heap :=
  match ts_requester ts with
  | None => (RC_NULL_PARAM, ts, db, hp)
  | Some r =>
      let '(ret, r) := requester_clear_request r (transaction_hash tx) in
      let ts := put_requester (Some r) ts in
      if negb (bool_decide (ret = RC_OK)) then (ret, ts, db, hp) else
      let '(ret, approvers_count) := iota_tangle_transaction_approvers_count db (transaction_hash tx) 0 in
      if negb (bool_decide (ret = RC_OK)) then (ret, ts, db, hp) else
      let '(ret, tips, hp) :=
        if approvers_count =? 0 then tips_cache_add hp (ts_tips ts) (transaction_hash tx) else (RC_OK, ts_tips ts, hp) in
      let ts := put_tips tips ts in
      if negb (bool_decide (ret = RC_OK)) then (ret, ts, db, hp) else
      let '(ret, tips) := tips_cache_remove (ts_tips ts) (transaction_trunk tx) in
      let ts := put_tips tips ts in
      if negb (bool_decide (ret = RC_OK)) then (ret, ts, db, hp) else
      let '(ret, tips) := tips_cache_remove (ts_tips ts) (transaction_branch tx) in
      let ts := put_tips tips ts in
      if negb (bool_decide (ret = RC_OK)) then (ret, ts, db, hp) else
      iota_consensus_transaction_solidifier_check_and_update_solid_state mem hp ts db (transaction_hash tx)
  end.

(** ** Propagation *)

(** The approvers of one transaction. *)
Fixpoint update_approvers (mem : iota_transaction_t) hp (ts : transaction_solidifier_t) db (to_propagate : hash243_set)
    (approvers : list hash_t) : retcode_t * transaction_solidifier_t * DB * heap :=
  match approvers with
  | [] => (RC_OK, ts, db, hp)
  | approver_hash :: approvers =>
      if hash243_set_contains to_propagate approver_hash then update_approvers mem hp ts db to_propagate approvers else
      let '(ret, ts, db, hp) := iota_consensus_transaction_solidifier_check_and_update_solid_state mem hp ts db approver_hash in
      if negb (bool_decide (ret = RC_OK)) then (ret, ts, db, hp) else update_approvers mem hp ts db to_propagate approvers
  end.

(** [HASH_ITER] over the transactions; [resize] is the fuel of the loads of approvers
    and [fresh_hash] what new buffers hold. *)
Fixpoint propagate_each (resize : nat) (fresh_hash : hash_t) (mem : iota_transaction_t) hp (ts : transaction_solidifier_t) db
    (to_propagate todo : hash243_set) (pack : iota_stor_pack_t hash_t) : option (retcode_t * transaction_solidifier_t * DB * heap) :=
  match todo with
  | [] => Some (RC_OK, ts, db, hp)
  | hash :: todo =>
      if negb (ts_running ts) then Some (RC_OK, ts, db, hp) else
      match iota_tangle_transaction_load_hashes_of_approvers resize fresh_hash hp db hash (hash_pack_reset pack) 0 with
      | None => None
      | Some (ret, pack, hp) =>
          if negb (bool_decide (ret = RC_OK)) then Some (ret, ts, db, hp) else
          let '(ret, ts, db, hp) := update_approvers mem hp ts db to_propagate (take (num_loaded pack) (models pack)) in
          if negb (bool_decide (ret = RC_OK)) then Some (ret, ts, db, hp)
          else propagate_each resize fresh_hash mem hp ts db to_propagate todo pack
      end
  end.

Definition propagate_solid_transactions (resize : nat) (fresh_hash : hash_t) (mem : iota_transaction_t) hp (ts : transaction_solidifier_t) db
    : option (retcode_t * transaction_solidifier_t * DB * heap) :=
  let to_propagate := newly_set_solid_transactions ts in
  let ts := put_newly [] ts in
  let '(ret, pack, hp) := hash_pack_init hp 32 fresh_hash in
  if negb (bool_decide (ret = RC_OK)) then Some (ret, ts, db, hp)
  else propagate_each resize fresh_hash mem hp ts db to_propagate to_propagate pack.

(** The inner loop of the thread; an error is only logged.  [None]: out of fuel. *)
Fixpoint propagate_loop (fuel resize : nat) (fresh_hash : hash_t) (mem : iota_transaction_t) hp (ts : transaction_solidifier_t) db
    : option (transaction_solidifier_t * DB * heap) :=
  if hash243_set_size (newly_set_solid_transactions ts) =? 0 then Some (ts, db, hp) else
  match fuel with
  | O => None
  | S fuel =>
      match propagate_solid_transactions resize fresh_hash mem hp ts db with
      | None => None
      | Some (_, ts, db, hp) => propagate_loop fuel resize fresh_hash mem hp ts db
      end
  end.
End Solidifier.

(** * Lemmas *)

(** ** The contents of the database after an update *)

Definition mark (hashes : list hash_t) (tx : iota_transaction_t) : iota_transaction_t :=
  if existsb (fun h => same_hash h tx) hashes then put_metadata SOLID 0 true 0 tx else tx.

Lemma mark_hash hashes tx : transaction_hash (mark hashes tx) = transaction_hash tx.
Proof. unfold mark. by case_match. Qed.

Lemma same_hash_mark hashes h tx : same_hash h (mark hashes tx) = same_hash h tx.
Proof. unfold same_hash. by rewrite mark_hash. Qed.

Lemma view_of_mark hashes txs h : view_of (map (mark hashes) txs) h = option_map (mark hashes) (view_of txs h).
Proof. unfold view_of. induction txs as [|tx txs IH]; [done|]. cbn. rewrite same_hash_mark. by destruct (same_hash h tx). Qed.

Lemma view_of_same txs h tx : view_of txs h = Some tx -> (tx ∈ txs) /\ same_hash h tx = true.
Proof. intros E. apply find_some in E as [H1 H2]. split; [by apply list_elem_of_In|done]. Qed.

Lemma mark_storable hashes tx : storable tx -> storable (mark hashes tx).
Proof. intros [H1 H2 H3 H4]. unfold mark. case_match; split; try done. Qed.

(** What no update of the solidifier changes: everything but the metadata. *)
Definition content_of (tx : iota_transaction_t) : list Z * iota_transaction_fields_essence_t * iota_transaction_fields_attachment_t * list Z :=
  (transaction_hash tx, essence tx, attachment tx, transaction_signature tx).

Definition same_contents (txs txs' : list iota_transaction_t) : Prop := map content_of txs' = map content_of txs.

Lemma mark_contents hashes txs : same_contents txs (map (mark hashes) txs).
Proof. unfold same_contents. rewrite map_map. apply map_ext. intros tx. unfold mark. by case_match. Qed.

Section Contents.
Context {DB : Type} {SQ : Sqlite DB} {L : SqliteLaws DB} {R : SqliteReliable DB}.
Implicit Types (db : DB) (txs : list iota_transaction_t).

Lemma contents_marked db db' txs hashes : contents db txs ->
  tables_of db' = updated SOLID (bool_value true) hashes (tables_of db) -> contents db' (map (mark hashes) txs).
Proof.
  intros [Hr Hs Hd] E. split.
  - rewrite E. unfold updated, set_where, with_transactions. cbn [iota_transaction_table]. rewrite Hr, !map_map. apply map_ext. intros tx.
    assert (existsb (fun h => where_column HASH (column_compress h 243) (row_of tx)) hashes = existsb (fun h => same_hash h tx) hashes) as ->.
    { clear. induction hashes as [|h hashes IH]; [done|]. cbn [existsb]. by rewrite where_same_hash, IH. }
    unfold mark. case_match; [by rewrite set_solid_row|done].
  - clear - Hs. induction Hs as [|tx txs H _ IH]; [constructor|]. constructor; [by apply mark_storable|done].
  - rewrite map_map. erewrite map_ext; [exact Hd|]. intros tx. cbn. by rewrite mark_hash.
Qed.

Lemma contents_same db db' txs : contents db txs -> tables_of db' = tables_of db -> contents db' txs.
Proof. intros [H1 H2 H3] E. split; [by rewrite E|done|done]. Qed.

(** The two updates of the solid flag, whatever they return. *)
Lemma update_solidity_batch db hashes txs : contents db txs -> saved db = None ->
  let r := storage_transactions_update_solidity db hashes true in
  (contents r.2 (map (mark hashes) txs) /\ (saved r.2 = None \/ r.1 = RC_STORAGE_FAILED_END)) \/
  (contents r.2 txs /\ saved r.2 = None /\ r.1 <> RC_OK).
Proof.
  intros Hc Hs r. pose proof (in_transaction_bound db transaction_update_solidity (bool_value true) hashes Hs) as H.
  change (all_or_nothing db (update_each transaction_update_solidity [bool_value true] hashes (tables_of db)) r) in H.
  rewrite (update_each_column transaction_update_solidity SOLID) in H by done. unfold all_or_nothing in H.
  destruct H as [(H1 & H2 & H3)|[(H1 & H2 & _)|(H1 & _ & H2 & H3)]].
  - left. injection H2 as H2. split; [by eapply contents_marked|auto].
  - left. injection H2 as H2. split; [by eapply contents_marked|auto].
  - right. split; [by eapply contents_same|auto].
Qed.

Lemma update_solidity_one db hash txs : contents db txs -> saved db = None ->
  let r := storage_transaction_update_solidity db hash true in
  saved r.2 = None /\ ((contents r.2 (map (mark [hash]) txs) /\ r.1 = RC_OK) \/ (contents r.2 txs /\ r.1 <> RC_OK)).
Proof.
  intros Hc Hs. unfold storage_transaction_update_solidity, bind_execute, execute_statement. rewrite bind_all_reliable. cbn [negb].
  destruct (sqlite3_run db _ _) as [[] db1] eqn:E; cbn.
  - apply run_law in E as [Eu Es]. split; [congruence|]. left. split; [|done]. eapply contents_marked; [exact Hc|].
    apply (f_equal Some) in Eu. change (update (tables_of db) transaction_update_solidity [bool_value true; column_compress hash 243]) with
      (update_each transaction_update_solidity [bool_value true] [hash] (tables_of db)) in Eu.
    rewrite (update_each_column transaction_update_solidity SOLID) in Eu by done. congruence.
  - apply run_fail_law in E as [[Et Es]|[Es _]]; [|congruence]. split; [congruence|]. right. split; [by eapply contents_same|done].
Qed.
End Contents.

(** ** The invariant of solidity *)

(** An approvee that a solid transaction may have: a solid entry point or the genesis,
    in [roots], or a solid transaction of the database. *)
Definition approvee_ok (roots : list hash_t) (txs : list iota_transaction_t) (x : hash_t) : Prop :=
  (x ∈ roots) \/ exists tx, view_of txs x = Some tx /\ m_solid (metadata tx) = true.

Definition solid_closed (roots : list hash_t) (txs : list iota_transaction_t) : Prop :=
  forall tx, tx ∈ txs -> m_solid (metadata tx) = true ->
    approvee_ok roots txs (transaction_trunk tx) /\ approvee_ok roots txs (transaction_branch tx).

Lemma mark_solid hashes tx : m_solid (metadata (mark hashes tx)) = m_solid (metadata tx) || existsb (fun h => same_hash h tx) hashes.
Proof. unfold mark. case_match; cbn; [by rewrite orb_true_r|by rewrite orb_false_r]. Qed.

Lemma approvee_ok_mark hashes roots txs x : approvee_ok roots txs x -> approvee_ok roots (map (mark hashes) txs) x.
Proof.
  intros [H|(tx & Hv & Hs)]; [by left|]. right. exists (mark hashes tx). rewrite view_of_mark, Hv. split; [done|].
  by rewrite mark_solid, Hs.
Qed.

Lemma approvee_marked hashes roots txs x tx : x ∈ hashes -> view_of txs x = Some tx -> approvee_ok roots (map (mark hashes) txs) x.
Proof.
  intros Hx Hv. right. exists (mark hashes tx). rewrite view_of_mark, Hv. split; [done|]. rewrite mark_solid.
  apply orb_true_iff. right. apply existsb_exists. exists x. split; [by apply list_elem_of_In|]. by apply view_of_same in Hv as [_ Hv].
Qed.

(** Marking keeps the invariant when the approvees of everything marked are, or become, good. *)
Lemma mark_closed hashes roots txs : NoDup (map (fun tx => column_compress (transaction_hash tx) 243) txs) -> solid_closed roots txs ->
  (forall h, h ∈ hashes -> exists tx, view_of txs h = Some tx /\
    approvee_ok roots (map (mark hashes) txs) (transaction_trunk tx) /\ approvee_ok roots (map (mark hashes) txs) (transaction_branch tx)) ->
  solid_closed roots (map (mark hashes) txs).
Proof.
  intros Hd Hc Hm tx' Hin Hs. apply list_elem_of_fmap in Hin as (tx & -> & Hin). rewrite mark_solid in Hs.
  assert (transaction_trunk (mark hashes tx) = transaction_trunk tx /\ transaction_branch (mark hashes tx) = transaction_branch tx) as [-> ->].
  { unfold mark. by case_match. }
  apply orb_true_iff in Hs as [Hs|Hs].
  - destruct (Hc tx Hin Hs). split; by apply approvee_ok_mark.
  - apply existsb_exists in Hs as (h & Hh%list_elem_of_In & Hsame). destruct (Hm h Hh) as (tx1 & Hv & H1).
    assert (tx1 = tx) as ->; [|done]. clear - Hd Hin Hsame Hv. revert Hv. unfold view_of. induction txs as [|t txs IH]; [by intros|].
    cbn [map List.find] in *. apply list.NoDup_cons in Hd as [Hn Hd]. apply list.elem_of_cons in Hin. destruct (same_hash h t) eqn:E.
    + intros [= ->]. destruct Hin as [->|Hin]; [done|]. exfalso. apply Hn. unfold same_hash in *.
      apply bool_decide_eq_true_1 in E, Hsame. rewrite E, <- Hsame. apply list_elem_of_fmap. by exists tx.
    + destruct Hin as [->|Hin]; [congruence|]. by apply IH.
Qed.

(** ** The traversal *)

Section Walk.
Context {DB : Type} {SQ : Sqlite DB} (db : DB) (txs : list iota_transaction_t) {V : TangleView DB db (view_of txs)}.
Context (mem : iota_transaction_t) (entry_points init : hash243_set) (entry : hash_t).
Hypothesis entry_points_init : forall h, h ∈ entry_points -> h ∈ init.

(** What holds between two turns of the loop, while [p_is_solid] has not been reset. *)
Record walk_ok (s : hash243_stack) (analyzed : hash243_set) (p : solidity_params) : Prop := {
  wk_init : forall h, h ∈ init -> h ∈ analyzed;
  wk_entry : entry ∈ analyzed ++ s;
  wk_analyzed : p_is_solid p = true -> forall h, h ∈ analyzed -> h ∈ init \/ h ∈ p_candidates p \/ approvee_ok [] txs h;
  wk_candidates : forall h, h ∈ p_candidates p -> exists tx, view_of txs h = Some tx /\ m_solid (metadata tx) = false /\
    (transaction_trunk tx ∈ analyzed ++ s) /\ (transaction_branch tx ∈ analyzed ++ s)
}.

Lemma walk_ok_pop h s analyzed p : h ∈ analyzed -> walk_ok (h :: s) analyzed p -> walk_ok s analyzed p.
Proof.
  intros Hin [H1 H2 H3 H4].
  assert (forall x, x ∈ analyzed ++ h :: s -> x ∈ analyzed ++ s) as Hx.
  { intros x. rewrite !list.elem_of_app, list.elem_of_cons. intros [?|[->|?]]; auto. }
  split; auto. intros x Hc. destruct (H4 x Hc) as (tx & ? & ? & ? & ?). exists tx. auto.
Qed.

(** One call of the functor that does not stop the traversal. *)
Lemma functor_walk hp hash s analyzed p pack tx branch stop r : hash ∉ analyzed -> walk_ok (hash :: s) analyzed p ->
  iota_tangle_transaction_load_partial db hash (DECLARE_PACK_SINGLE tx) PARTIAL_TX_MODEL_ESSENCE_ATTACHMENT_METADATA = (RC_OK, pack) ->
  check_solidity_do_func mem entry_points db hp hash pack p branch stop = Some r ->
  f_db r = db /\
  (should_stop r = true -> p_is_solid (f_data r) = false) /\
  (f_ret r = RC_OK -> should_stop r = false ->
   walk_ok (if should_branch r then transaction_trunk (single_tx pack tx) :: transaction_branch (single_tx pack tx) :: s else s)
     (analyzed ++ [hash]) (f_data r)).
Proof.
  intros Hn [H1 H2 H3 H4] El E. pose proof (load_view MODEL_TRANSACTION_ESSENCE_ATTACHMENT_METADATA hash tx) as Ev.
  change (load_model _ _ _ _) with
    (iota_tangle_transaction_load_partial db hash (DECLARE_PACK_SINGLE tx) PARTIAL_TX_MODEL_ESSENCE_ATTACHMENT_METADATA) in Ev.
  rewrite El in Ev. apply (f_equal snd) in Ev. cbn [snd] in Ev. subst pack.
  assert (forall x s', x ∈ analyzed ++ hash :: s -> x ∈ (analyzed ++ [hash]) ++ s' ++ s) as Hmove.
  { intros x s'. rewrite !list.elem_of_app, list.elem_of_cons, list_elem_of_singleton. tauto. }
  assert (forall h : hash_t, h ∈ init -> h ∈ analyzed ++ [hash]) as Hinit by (intros h Hh; rewrite list.elem_of_app; auto).
  assert (forall s' p', p_candidates p' = p_candidates p ->
    (p_is_solid p' = true -> p_is_solid p = true /\ (hash ∈ init \/ hash ∈ p_candidates p' \/ approvee_ok [] txs hash)) ->
    walk_ok (s' ++ s) (analyzed ++ [hash]) p') as Hsame.
  { intros s' p' Ec Hs. split; [done|by apply Hmove| |].
    - intros [Hp Hh]%Hs h. rewrite list.elem_of_app, list_elem_of_singleton, Ec. intros [Hin| ->]; [by apply H3|by rewrite <- Ec].
    - intros h. rewrite Ec. intros (tx0 & ? & ? & ? & ?)%H4. exists tx0. auto. }
  unfold check_solidity_do_func in E. destruct (p_max_analyzed p =? 0); [by injection E as <-|].
  destruct (view_of txs hash) as [tx0|] eqn:Hv; cbn [found_pack num_loaded Nat.eqb andb] in E.
  - change (transaction_solid (single_tx _ _)) with (m_solid (metadata tx0)) in E. destruct (m_solid (metadata tx0)) eqn:Hs; cbn [negb] in E.
    + injection E as <-. split; [done|]. split; [done|]. intros _ _. apply (Hsame []); [done|]. intros Hp. split; [done|].
      right. right. right. by exists tx0.
    + destruct (hash243_set_add hp (p_candidates p) hash) as [[ret cands] hp1] eqn:Ea. injection E as <-. split; [done|]. split; [done|].
      cbn [f_ret should_stop should_branch f_data]. intros -> _.
      assert (forall x, x ∈ cands <-> (x ∈ p_candidates p) \/ x = hash) as Hcands.
      { apply set_add_ok in Ea as ->. intros x. case_bool_decide as Hin.
        - split; [by left|]. by intros [?| ->].
        - by rewrite list.elem_of_app, list_elem_of_singleton. }
      split; cbn [p_is_solid p_candidates]; [done|by apply (Hmove _ [_; _])| |].
      * intros Hp h. rewrite list.elem_of_app, list_elem_of_singleton, Hcands. intros [Hin| ->]; [|auto].
        destruct (H3 Hp h Hin) as [|[|]]; auto.
      * intros h. rewrite Hcands. intros [(tx1 & ? & ? & ? & ?)%H4| ->].
        -- exists tx1. split_and!; [done|done|by apply (Hmove _ [_; _])|by apply (Hmove _ [_; _])].
        -- exists tx0. split_and!; [done|done|..]; rewrite list.elem_of_app; right; [left|right; left].
  - destruct (negb (hash243_set_contains entry_points hash)) eqn:Hc.
    + destruct (match ts_requester (p_ts p) with None => _ | Some _ => _ end) as [[ret rq] hp1]. injection E as <-. split; [done|].
      split; [done|]. intros _ _. by apply (Hsame []).
    + injection E as <-. exfalso. apply Hn, H1, entry_points_init. unfold hash243_set_contains in Hc.
      by apply negb_false_iff, bool_decide_eq_true_1 in Hc.
Qed.

Lemma past_loop_walk fuel : forall hp s analyzed tx p branch stop r, walk_ok s analyzed p ->
  past_loop fuel (check_solidity_do_func mem entry_points) db hp s analyzed tx p branch stop = Some r ->
  t_db r = db /\ (t_ret r = RC_OK -> p_is_solid (t_data r) = true -> exists analyzed', walk_ok [] analyzed' (t_data r)).
Proof.
  induction fuel as [|fuel IH]; intros hp s analyzed tx p branch stop r Hw E; [done|]. cbn [past_loop] in E.
  destruct s as [|hash s]; cbn [hash243_stack_peek head] in E; [injection E as <-; split; [done|]; intros; by exists analyzed|].
  unfold hash243_set_contains at 1 in E. destruct (bool_decide_reflect (hash ∈ analyzed)) as [Hin|Hn]; cbn [negb] in E.
  { eapply IH; [by eapply walk_ok_pop|exact E]. }
  destruct (iota_tangle_transaction_load_partial _ _ _ _) as [ret pack] eqn:El.
  destruct (bool_decide_reflect (ret = RC_OK)) as [->|]; cbn [negb] in E; [|by injection E as <-].
  destruct (check_solidity_do_func _ _ _ _ _ _ _ _ _) as [r1|] eqn:Er; [|done].
  destruct (functor_walk _ _ _ _ _ _ _ _ _ _ Hn Hw El Er) as (Hdb & Hstop & Hwalk). rewrite Hdb in E.
  destruct (bool_decide_reflect (f_ret r1 = RC_OK)) as [Hok|]; cbn [negb] in E; [|by injection E as <-].
  destruct (should_stop r1) eqn:Es; [injection E as <-; split; [done|]; cbn; intros _; by rewrite Hstop|].
  specialize (Hwalk Hok eq_refl).
  destruct (should_branch r1) eqn:Eb.
  - unfold hash243_stack_push, hash243_stack_pop in E. cbn [tail] in E. destruct (malloc (f_heap r1)) as [[] hp1]; cbn [negb] in E; [|by injection E as <-].
    rewrite (bool_decide_eq_true_2 (RC_OK = RC_OK)) in E by done. cbn [negb] in E.
    destruct (malloc hp1) as [[] hp2]; cbn [negb] in E; [|by injection E as <-].
    rewrite (bool_decide_eq_true_2 (RC_OK = RC_OK)) in E by done. cbn [negb] in E.
    destruct (hash243_set_add _ _ _) as [[ret2 an2] hp3] eqn:Ea.
    destruct (bool_decide_reflect (ret2 = RC_OK)) as [->|]; cbn [negb] in E; [|by injection E as <-].
    apply set_add_ok in Ea as ->. rewrite bool_decide_eq_false_2 in E by done.
    by eapply IH in E.
  - rewrite (bool_decide_eq_true_2 (RC_OK = RC_OK)) in E by done. cbn [negb hash243_stack_pop tail] in E.
    destruct (hash243_set_add _ _ _) as [[ret2 an2] hp3] eqn:Ea.
    destruct (bool_decide_reflect (ret2 = RC_OK)) as [->|]; cbn [negb] in E; [|by injection E as <-].
    apply set_add_ok in Ea as ->. rewrite bool_decide_eq_false_2 in E by done.
    by eapply IH in E.
Qed.
End Walk.

Lemma hash_map_keys_sub {A} (m : hash_map A) : forall hp set h, h ∈ (hash_map_keys hp m set).1 -> (h ∈ m.*1) \/ h ∈ set.
Proof.
  induction m as [|[k v] m IH]; intros hp set h; cbn [hash_map_keys]; [auto|].
  destruct (hash243_set_add hp set k) as [[ret set1] hp1] eqn:E. intros H%IH. cbn. rewrite list.elem_of_cons.
  destruct H as [H|H]; [auto|]. apply set_add_cases in E as [->|[_ ->]]; [auto|].
  rewrite list.elem_of_app, list_elem_of_singleton in H. tauto.
Qed.

Lemma set_append_sub set1 : forall hp set2 h, h ∈ (hash243_set_append hp set1 set2).1.2 -> (h ∈ set1) \/ h ∈ set2.
Proof.
  induction set1 as [|k set1 IH]; intros hp set2 h; cbn [hash243_set_append]; [auto|].
  destruct (hash243_set_add hp set2 k) as [[ret set3] hp1] eqn:E. rewrite list.elem_of_cons.
  assert (forall h, h ∈ set3 -> h = k \/ h ∈ set2) as Hs.
  { intros x Hx. apply set_add_cases in E as [->|[_ ->]]; [auto|]. rewrite list.elem_of_app, list_elem_of_singleton in Hx. tauto. }
  destruct (negb _); cbn [fst snd]; [intros [->|H]%Hs; auto|]. intros [H|[->|H]%Hs]%IH; auto.
Qed.

(** ** The operations keep the invariant *)

Definition roots {DB} {SQ : Sqlite DB} (ts : transaction_solidifier_t) : list hash_t :=
  (sm_solid_entry_points (sn_metadata (ts_initial ts))).*1 ++ [ts_genesis_hash ts].

(** A database outside of any transaction, in which solidity is closed. *)
Record solid_db {DB} {SQ : Sqlite DB} {L : SqliteLaws DB} (rs : list hash_t) (db : DB) (txs : list iota_transaction_t) : Prop := {
  sd_saved : saved db = None;
  sd_contents : contents db txs;
  sd_closed : solid_closed rs txs
}.

Section Keeps.
Context {DB : Type} {SQ : Sqlite DB} {L : SqliteLaws DB} {R : SqliteReliable DB}.
Implicit Types (db : DB) (ts : transaction_solidifier_t) (hash : hash_t).

Lemma has_entry_point ts hash : iota_snapshot_has_solid_entry_point (ts_initial ts) hash = true -> hash ∈ roots ts.
Proof.
  unfold iota_snapshot_has_solid_entry_point, hash_map_contains, roots. intros H%bool_decide_eq_true_1.
  rewrite list.elem_of_app. left. by apply HASH_FIND_keys.
Qed.

Lemma approvee_ok_roots rs txs x : approvee_ok [] txs x -> approvee_ok rs txs x.
Proof. intros [H%not_elem_of_nil|H]; [done|by right]. Qed.

(** A walk from [hash] that stopped by itself. *)
Lemma dfs_walk fuel mem ts db txs hp hash max r : contents db txs ->
  let '(an, hp1) := iota_snapshot_solid_entry_points_set hp (ts_initial ts) [] in
  let '(_, eps, hp2) := hash243_set_append hp1 an [] in
  tangle_traversal_dfs_to_past fuel mem db hp2 (check_solidity_do_func mem eps) hash (ts_genesis_hash ts) an (mk_solidity ts true [] max) = Some r ->
  t_db r = db /\ (t_ret r = RC_OK -> p_is_solid (t_data r) = true -> exists init analyzed,
    (forall h, h ∈ init -> h ∈ roots ts) /\ walk_ok txs init hash [] analyzed (t_data r)).
Proof.
  intros Hc. pose proof (view_contents db txs Hc) as V.
  destruct (iota_snapshot_solid_entry_points_set hp (ts_initial ts) []) as [an hp1] eqn:Ean.
  destruct (hash243_set_append hp1 an []) as [[r0 eps] hp2] eqn:Eeps. intros Et.
  unfold tangle_traversal_dfs_to_past in Et. destruct (hash243_stack_push _ _ _) as [[ret1 st] hp3] eqn:Ep.
  destruct (bool_decide_reflect (ret1 = RC_OK)) as [->|]; cbn [negb] in Et; [|by injection Et as <-].
  destruct (hash243_set_add _ _ _) as [[ret2 an2] hp4] eqn:Ea.
  destruct (bool_decide_reflect (ret2 = RC_OK)) as [->|]; cbn [negb] in Et; [|by injection Et as <-].
  assert (st = [hash]) as -> by (unfold hash243_stack_push in Ep; destruct (malloc hp2) as [[] ?]; cbn in Ep; congruence).
  apply set_add_ok in Ea.
  assert (forall h, h ∈ an -> h ∈ an2) as Hsub by (intros h Hh; subst an2; case_bool_decide; [done|]; rewrite list.elem_of_app; auto).
  eapply (past_loop_walk db txs mem eps an2 hash) in Et as [H1 H2].
  - split; [done|]. intros H3 H4. destruct (H2 H3 H4) as [an' Hw]. exists an2, an'. split; [|done].
    intros h Hh. assert ((h ∈ an) \/ h = ts_genesis_hash ts) as [Hin| ->].
    { subst an2. case_bool_decide; [auto|]. rewrite list.elem_of_app, list_elem_of_singleton in Hh. done. }
    + pose proof (hash_map_keys_sub (sm_solid_entry_points (sn_metadata (ts_initial ts))) hp [] h) as H.
      change (hash_map_keys hp _ []) with (iota_snapshot_solid_entry_points_set hp (ts_initial ts) []) in H. rewrite Ean in H.
      destruct (H Hin) as [?|?%not_elem_of_nil]; [|done]. unfold roots. rewrite list.elem_of_app. auto.
    + unfold roots. rewrite list.elem_of_app. right. left.
  - intros h Hh. apply Hsub. pose proof (set_append_sub an hp1 [] h) as H. rewrite Eeps in H.
    destruct (H Hh) as [?|?%not_elem_of_nil]; done.
  - split; cbn [p_is_solid p_candidates]; [done|rewrite list.elem_of_app; right; left| |by intros h ?%not_elem_of_nil].
    intros _ h Hh. by left.
Qed.

(** What a finished walk allows to mark. *)
Lemma walk_marks ts txs init hash analyzed p : NoDup (map (fun tx => column_compress (transaction_hash tx) 243) txs) ->
  solid_closed (roots ts) txs -> (forall h, h ∈ init -> h ∈ roots ts) -> p_is_solid p = true -> walk_ok txs init hash [] analyzed p ->
  solid_closed (roots ts) (map (mark (p_candidates p)) txs) /\ approvee_ok (roots ts) (map (mark (p_candidates p)) txs) hash.
Proof.
  intros Hd Hcl Hinit Hp [_ Hen Han Hca]. rewrite app_nil_r in Hen.
  assert (forall x, x ∈ analyzed -> approvee_ok (roots ts) (map (mark (p_candidates p)) txs) x) as Hok.
  { intros x Hx. destruct (Han Hp x Hx) as [H|[H|H]]; [left; by apply Hinit| |].
    - destruct (Hca x H) as (tx & Hv & _). by eapply approvee_marked.
    - by apply approvee_ok_mark, approvee_ok_roots. }
  split; [|by apply Hok]. apply mark_closed; [done|done|]. intros h Hh. destruct (Hca h Hh) as (tx & Hv & _ & Ht & Hb).
  rewrite app_nil_r in Ht, Hb. exists tx. split_and!; [done|by apply Hok|by apply Hok].
Qed.

(** The contents after an operation, and that a transaction is left open only when it could not be ended. *)
Definition keeps (rs : list hash_t) (ret : retcode_t) db txs : Prop :=
  contents db txs /\ solid_closed rs txs /\ (saved db = None \/ ret = RC_STORAGE_FAILED_END).

(** The whole past of a transaction that is found solid. *)
Lemma check_solidity_keeps fuel mem ts db hp hash max b txs ret ts' db' hp' solid : solid_db (roots ts) db txs ->
  iota_consensus_transaction_solidifier_check_solidity fuel mem ts db hp hash max b = Some (ret, ts', db', hp', solid) ->
  exists txs', keeps (roots ts) ret db' txs' /\
    (ret = RC_OK -> solid = true -> b = true \/ (view_of txs hash = None /\ m_solid (metadata mem) = true) \/ approvee_ok (roots ts) txs' hash).
Proof.
  intros [Hs Hc Hcl] E. pose proof (view_contents db txs Hc) as V. unfold iota_consensus_transaction_solidifier_check_solidity in E.
  pose proof (load_view MODEL_TRANSACTION_ESSENCE_ATTACHMENT_METADATA hash mem) as El.
  change (load_model _ _ _ _) with
    (iota_tangle_transaction_load_partial db hash (DECLARE_PACK_SINGLE mem) PARTIAL_TX_MODEL_ESSENCE_ATTACHMENT_METADATA) in El.
  rewrite El, bool_decide_eq_true_2 in E by done. cbn [negb] in E.
  assert (keeps (roots ts) RC_OK db txs) as Hk by (split_and!; auto).
  destruct (transaction_solid _) eqn:Esol.
  { apply Some_inj in E. injection E as <- <- <- <- <-. exists txs. split; [done|]. intros _ _. right.
    destruct (view_of txs hash) as [tx|] eqn:Ev; [|by left]. right. right. by exists tx. }
  pose proof (dfs_walk fuel mem ts db txs hp hash) as Hw.
  destruct (iota_snapshot_solid_entry_points_set hp (ts_initial ts) []) as [an hp1].
  destruct (hash243_set_append hp1 an []) as [[r0 eps] hp2].
  destruct (tangle_traversal_dfs_to_past _ _ _ _ _ _ _ _ _) as [r|] eqn:Et; [|done].
  destruct (Hw _ _ Hc Et) as [Hdb Hw']. clear Hw. rewrite Hdb in E. destruct (bool_decide_reflect (t_ret r = RC_OK)) as [Hok|Hok]; cbn [negb] in E.
  2: { apply Some_inj in E. injection E as <- <- <- <- <-. exists txs. split; [split_and!; auto|done]. }
  destruct (p_is_solid (t_data r)) eqn:Eis.
  2: { apply Some_inj in E. injection E as <- <- <- <- <-. exists txs. split; [done|auto]. }
  destruct (Hw' Hok eq_refl) as (init & an' & Hinit & Hwalk).
  destruct (walk_marks ts txs init hash an' _ (c_hashes _ _ Hc) Hcl Hinit Eis Hwalk) as [Hcl' Hhash].
  pose proof (update_solidity_batch db (p_candidates (t_data r)) txs Hc Hs) as Hu. cbv zeta in Hu.
  change (storage_transactions_update_solidity db (p_candidates (t_data r)) true) with
    (iota_tangle_transactions_update_solidity db (p_candidates (t_data r)) true) in Hu.
  destruct (iota_tangle_transactions_update_solidity _ _ _) as [ret3 db3]. cbn [fst snd] in Hu.
  destruct (hash243_set_append _ _ (newly_set_solid_transactions _)) as [[r4 newly] hp5].
  apply Some_inj in E. injection E as <- <- <- <- <-. destruct Hu as [(Hc' & Hr)|(Hc' & Hs' & Hr)].
  - eexists. split; [split_and!; [exact Hc'|done|done]|auto].
  - exists txs. split; [split_and!; auto|done].
Qed.
(** A solidifier over the same snapshot and genesis. *)
Definition same_roots ts ts' : Prop := ts_provider ts' = ts_provider ts /\ ts_genesis_hash ts' = ts_genesis_hash ts.

Lemma same_roots_roots ts ts' : same_roots ts ts' -> roots ts' = roots ts.
Proof. intros [H1 H2]. unfold roots, ts_initial. by rewrite H1, H2. Qed.

(** What the functor keeps of its data, a traversal keeps. *)
Lemma past_loop_data {C} (func : tangle_traversal_functor DB C) (P : C -> Prop) :
  (forall db hp hash pack d b s r, P d -> func db hp hash pack d b s = Some r -> P (f_data r)) ->
  forall fuel db hp s analyzed tx d b st r, P d -> past_loop fuel func db hp s analyzed tx d b st = Some r -> P (t_data r).
Proof.
  intros HP. induction fuel as [|fuel IH]; intros db hp s analyzed tx d b st r Hd E; [done|]. cbn [past_loop] in E.
  destruct (hash243_stack_peek s) as [hash|]; [|by injection E as <-].
  destruct (negb _); [|by eapply IH]. destruct (iota_tangle_transaction_load_partial _ _ _ _) as [ret pack].
  destruct (negb _); [by injection E as <-|]. destruct (func _ _ _ _ _ _ _) as [r1|] eqn:Er; [|done].
  apply HP in Er; [|done]. destruct (negb _); [by injection E as <-|]. destruct (should_stop r1); [by injection E as <-|].
  destruct (if should_branch r1 then _ else _) as [[ret2 st2] hp2]. destruct (negb _); [by injection E as <-|].
  destruct (hash243_set_add _ _ _) as [[ret3 an3] hp3]. destruct (negb _); [by injection E as <-|]. by eapply IH.
Qed.

Lemma check_solidity_roots fuel mem ts db hp hash max b ret ts' db' hp' solid :
  iota_consensus_transaction_solidifier_check_solidity fuel mem ts db hp hash max b = Some (ret, ts', db', hp', solid) -> same_roots ts ts'.
Proof.
  unfold iota_consensus_transaction_solidifier_check_solidity. intros E.
  destruct (iota_tangle_transaction_load_partial _ _ _ _) as [ret0 pack]. destruct (negb _); [by simplify_eq|].
  destruct (transaction_solid _); [by simplify_eq|]. destruct (iota_snapshot_solid_entry_points_set _ _ _) as [an hp1].
  destruct (hash243_set_append _ _ _) as [[r0 eps] hp2].
  destruct (tangle_traversal_dfs_to_past _ _ _ _ _ _ _ _ _) as [r|] eqn:Et; [|done].
  assert (same_roots ts (p_ts (t_data r))) as Hr.
  { unfold tangle_traversal_dfs_to_past in Et. destruct (hash243_stack_push _ _ _) as [[ret1 st] hp3].
    destruct (negb _); [by injection Et as <-|]. destruct (hash243_set_add _ _ _) as [[ret2 an2] hp4].
    destruct (negb _); [by injection Et as <-|]. eapply (past_loop_data _ (fun p => same_roots ts (p_ts p))) in Et; [exact Et| |done].
    clear. intros db hp hash pack d b s r Hd E. unfold check_solidity_do_func in E. destruct (_ =? 0); [by injection E as <-|].
    destruct (_ && _); [destruct (hash243_set_add _ _ _) as [[? ?] ?]; by injection E as <-|].
    destruct (_ && _); [|by injection E as <-]. destruct (match ts_requester _ with None => _ | Some _ => _ end) as [[? ?] ?].
    by injection E as <-. }
  destruct (negb _); [by simplify_eq|]. destruct (p_is_solid _); [|by simplify_eq].
  destruct (iota_tangle_transactions_update_solidity _ _ _) as [ret3 db3]. destruct (hash243_set_append _ _ _) as [[r4 newly] hp5].
  by simplify_eq.
Qed.

(** *** The operations that look at the approvees only *)

Lemma approvee_checked mem ts db txs x : contents db txs -> length x = 243%nat -> length (ts_genesis_hash ts) = 243%nat ->
  check_approvee_solid_state mem ts db x = (RC_OK, true) -> approvee_ok (roots ts) txs x.
Proof.
  intros Hc Hx Hg E. pose proof (view_contents db txs Hc) as V. unfold check_approvee_solid_state in E.
  destruct (iota_snapshot_has_solid_entry_point _ _) eqn:He; [left; by apply has_entry_point|].
  change (iota_tangle_transaction_load_partial _ _ _ _) with (load_model MODEL_TRANSACTION_METADATA db x (DECLARE_PACK_SINGLE mem)) in E.
  rewrite (load_view MODEL_TRANSACTION_METADATA x mem) in E. rewrite bool_decide_eq_true_2 in E by done. cbn [negb] in E.
  destruct (view_of txs x) as [tx|] eqn:Ev; cbn [found_pack num_loaded Nat.eqb] in E; [|done].
  unfold memeq in E. rewrite !firstn_all2 in E by lia. destruct (bool_decide_reflect (x = ts_genesis_hash ts)) as [->|].
  - left. unfold roots. rewrite list.elem_of_app. right. left.
  - right. exists tx. split; [done|]. by injection E.
Qed.

Lemma view_links txs h tx : Forall storable txs -> view_of txs h = Some tx ->
  length (transaction_trunk tx) = 243%nat /\ length (transaction_branch tx) = 243%nat.
Proof. intros Hs E. destruct (view_storable _ _ _ Hs E) as [Ht _ _ _]. unfold tx_sized in Ht. by destruct_and! Ht. Qed.

Lemma check_transaction_keeps mem ts db txs hash : length (ts_genesis_hash ts) = 243%nat -> solid_db (roots ts) db txs ->
  exists txs', solid_db (roots ts) (check_transaction_and_update_solid_state mem ts db hash).1.2 txs' /\ same_contents txs txs'.
Proof.
  intros Hg Hd. pose proof Hd as [Hs Hc Hcl]. pose proof (view_contents db txs Hc) as V. unfold check_transaction_and_update_solid_state.
  destruct (iota_snapshot_has_solid_entry_point _ _); [by exists txs|].
  change (iota_tangle_transaction_load_partial _ _ _ _) with
    (load_model MODEL_TRANSACTION_ESSENCE_ATTACHMENT_METADATA db hash (DECLARE_PACK_SINGLE mem)).
  rewrite (load_view MODEL_TRANSACTION_ESSENCE_ATTACHMENT_METADATA hash mem). rewrite bool_decide_eq_true_2 by done. cbn [negb orb].
  destruct (view_of txs hash) as [tx|] eqn:Ev; cbn [found_pack num_loaded Nat.eqb]; [|by exists txs].
  destruct (negb _); [|by exists txs]. change (transaction_trunk (single_tx _ _)) with (transaction_trunk tx).
  change (transaction_branch (single_tx _ _)) with (transaction_branch tx).
  destruct (check_approvee_solid_state mem ts db (transaction_trunk tx)) as [ret1 b1] eqn:E1.
  destruct (bool_decide_reflect (ret1 = RC_OK)) as [->|]; cbn [negb]; [|by exists txs].
  destruct (check_approvee_solid_state mem ts db (transaction_branch tx)) as [ret2 b2] eqn:E2.
  destruct (bool_decide_reflect (ret2 = RC_OK)) as [->|]; cbn [negb]; [|by exists txs].
  destruct b1, b2; cbn [andb]; try by exists txs.
  destruct (view_links _ _ _ (c_storable _ _ Hc) Ev) as [Ht Hb].
  pose proof (update_solidity_one db hash txs Hc Hs) as [Hs' Hu]. cbv zeta in Hs', Hu.
  change (iota_tangle_transaction_update_solidity db hash true) with (storage_transaction_update_solidity db hash true).
  destruct (storage_transaction_update_solidity db hash true) as [ret db']. cbn [fst snd] in *.
  destruct Hu as [[Hc' _]|[Hc' _]]; [|by exists txs]. eexists. split; [|apply mark_contents]. split; [done|exact Hc'|]. apply mark_closed; [apply Hc|done|].
  intros h ->%list_elem_of_singleton. exists tx. split_and!; [done|apply approvee_ok_mark; by eapply approvee_checked..].
Qed.

(** One operation keeps the invariant, the roots and the contents of the transactions. *)
Definition good_step ts txs (r : retcode_t * transaction_solidifier_t * DB * heap) : Prop :=
  let '(_, ts', db', _) := r in same_roots ts ts' /\ exists txs', solid_db (roots ts) db' txs' /\ same_contents txs txs'.

Lemma good_step_trans ts ts' txs txs' r : same_roots ts ts' -> same_contents txs txs' -> good_step ts' txs' r -> good_step ts txs r.
Proof.
  destruct r as [[[ret ts1] db1] hp1]. unfold good_step, same_contents. intros Hr Hs. rewrite (same_roots_roots _ _ Hr).
  intros [H1 (txs2 & H2 & H3)]. split; [unfold same_roots in *; intuition congruence|]. exists txs2. split; congruence.
Qed.

Lemma check_and_update_keeps mem hp ts db txs hash : length (ts_genesis_hash ts) = 243%nat -> solid_db (roots ts) db txs ->
  good_step ts txs (iota_consensus_transaction_solidifier_check_and_update_solid_state mem hp ts db hash).
Proof.
  intros Hg Hd. unfold iota_consensus_transaction_solidifier_check_and_update_solid_state.
  destruct (ts_requester ts); [|by split; [|exists txs]].
  pose proof (check_transaction_keeps mem ts db txs hash Hg Hd) as (txs' & Hd' & Hco).
  destruct (check_transaction_and_update_solid_state mem ts db hash) as [[ret db1] new]. cbn [fst snd] in Hd'.
  destruct (negb _); [by split; [|exists txs']|]. destruct new; [|by split; [|exists txs']].
  unfold add_new_solid_transaction. destruct (hash243_set_add _ _ _) as [[ret1 newly] hp1].
  destruct (negb _); [by split; [|exists txs']|]. destruct (tips_cache_set_solid _ _ _) as [[ret2 tips] hp2]. by split; [|exists txs'].
Qed.

Lemma update_status_keeps mem hp ts db txs tx : length (ts_genesis_hash ts) = 243%nat -> solid_db (roots ts) db txs ->
  good_step ts txs (iota_consensus_transaction_solidifier_update_status mem hp ts db tx).
Proof.
  intros Hg Hd. unfold iota_consensus_transaction_solidifier_update_status.
  destruct (ts_requester ts); [|by split; [|exists txs]]. destruct (requester_clear_request _ _) as [ret r].
  destruct (negb _); [by split; [|exists txs]|]. destruct (iota_tangle_transaction_approvers_count _ _ _) as [ret1 n].
  destruct (negb _); [by split; [|exists txs]|]. destruct (if n =? 0 then _ else _) as [[ret2 tips] hp2].
  destruct (negb _); [by split; [|exists txs]|]. destruct (tips_cache_remove _ _) as [ret3 tips3].
  destruct (negb _); [by split; [|exists txs]|]. destruct (tips_cache_remove _ _) as [ret4 tips4].
  destruct (negb _); [by split; [|exists txs]|]. eapply (good_step_trans _ _ txs txs), check_and_update_keeps; done.
Qed.

Lemma update_approvers_keeps mem to approvers : forall hp ts db txs, length (ts_genesis_hash ts) = 243%nat -> solid_db (roots ts) db txs ->
  good_step ts txs (update_approvers mem hp ts db to approvers).
Proof.
  induction approvers as [|h approvers IH]; intros hp ts db txs Hg Hd; cbn [update_approvers]; [by split; [|exists txs]|].
  destruct (hash243_set_contains to h); [by eapply IH|].
  pose proof (check_and_update_keeps mem hp ts db txs h Hg Hd) as Hk.
  destruct (iota_consensus_transaction_solidifier_check_and_update_solid_state mem hp ts db h) as [[[ret ts1] db1] hp1].
  destruct Hk as [Hr (txs1 & Hd1 & Hco)]. destruct (negb _); [by split; [|exists txs1]|].
  rewrite <- (same_roots_roots _ _ Hr) in Hd1. eapply good_step_trans, IH; [done|done|destruct Hr; congruence|done].
Qed.

Lemma propagate_each_keeps resize fresh mem to todo : forall hp ts db txs pack r, length (ts_genesis_hash ts) = 243%nat ->
  solid_db (roots ts) db txs -> propagate_each resize fresh mem hp ts db to todo pack = Some r -> good_step ts txs r.
Proof.
  induction todo as [|h todo IH]; intros hp ts db txs pack r Hg Hd E; cbn [propagate_each] in E; [injection E as <-; by split; [|exists txs]|].
  destruct (negb (ts_running ts)); [injection E as <-; by split; [|exists txs]|].
  destruct (iota_tangle_transaction_load_hashes_of_approvers _ _ _ _ _ _ _) as [[[ret pack1] hp1]|]; [|done].
  destruct (negb _); [injection E as <-; by split; [|exists txs]|].
  pose proof (update_approvers_keeps mem to (take (num_loaded pack1) (models pack1)) hp1 ts db txs Hg Hd) as Hk.
  destruct (update_approvers _ _ _ _ _ _) as [[[ret1 ts1] db1] hp2]. destruct Hk as [Hr (txs1 & Hd1 & Hco)].
  destruct (negb _); [injection E as <-; by split; [|exists txs1]|].
  rewrite <- (same_roots_roots _ _ Hr) in Hd1. eapply good_step_trans, IH; [done|done|destruct Hr; congruence|done|done].
Qed.

Lemma propagate_keeps resize fresh mem hp ts db txs r : length (ts_genesis_hash ts) = 243%nat -> solid_db (roots ts) db txs ->
  propagate_solid_transactions resize fresh mem hp ts db = Some r -> good_step ts txs r.
Proof.
  intros Hg Hd. unfold propagate_solid_transactions. destruct (hash_pack_init _ _ _) as [[ret pack] hp1].
  destruct (negb _); [intros [= <-]; by split; [|exists txs]|]. intros E.
  eapply (good_step_trans ts (put_newly [] ts) txs txs); [done|done|]. by eapply propagate_each_keeps in E.
Qed.
(** *** Runs *)

Lemma store_keeps rs time db txs tx ret db' : storable tx -> 0 <= time < 2 ^ 64 -> solid_db rs db txs ->
  iota_tangle_transaction_store time db tx = (ret, db') ->
  exists txs', solid_db rs db' txs' /\ (txs' = txs \/ exists new, txs' = txs ++ [new] /\ content_of new = content_of tx).
Proof.
  intros Ht Htime [Hs Hc Hcl] E. unfold iota_tangle_transaction_store, storage_transaction_store, bind_execute, execute_statement in E.
  rewrite bind_all_reliable in E. cbn [negb] in E. destruct (sqlite3_run _ _ _) as [[] db1] eqn:Er; injection E as _ <-.
  - apply run_law in Er as [Eu Es]. cbn in Eu. destruct (existsb _ _) eqn:Ex; [done|]. apply Some_inj in Eu.
    set (new := set_metadata (mk_metadata 0 false 0 time) tx).
    assert (~ exists tx', tx' ∈ txs /\ column_compress (transaction_hash tx') 243 = column_compress (transaction_hash tx) 243) as Hn.
    { intros (tx' & Hin & Heq). apply not_true_iff_false in Ex. apply Ex, existsb_exists. exists (row_of tx'). split.
      - rewrite (c_rows _ _ Hc). apply list_elem_of_In, list_elem_of_fmap. by exists tx'.
      - rewrite <- (bool_decide_eq_true_2 _ Heq). exact (where_same_hash (transaction_hash tx) tx'). }
    exists (txs ++ [new]). split; [|right; by exists new]. split; [congruence| |].
    + split.
      * rewrite <- Eu. cbn [iota_transaction_table]. by rewrite (c_rows _ _ Hc), map_app.
      * apply Forall_app. split; [apply Hc|]. apply Forall_singleton. destruct Ht as [H1 H2 H3 H4]. split; [done|done| |cbn; lia].
        cbn. rewrite !Forall_cons_iff in *. split_and!; try apply H3; lia.
      * rewrite map_app. apply NoDup_app. split; [apply Hc|]. split; [|apply list.NoDup_singleton].
        intros x Hx ->%list_elem_of_singleton. apply list_elem_of_fmap in Hx as (tx' & Heq & Hin). apply Hn. by exists tx'.
    + intros tx' [Hin|Hin%list_elem_of_singleton]%list.elem_of_app Hsol; [|by subst tx'].
      destruct (Hcl tx' Hin Hsol) as [H1 H2].
      assert (forall x, approvee_ok rs txs x -> approvee_ok rs (txs ++ [new]) x) as Happ; [|split; by apply Happ].
      intros x [H|(tx1 & Hv & H)]; [by left|]. right. exists tx1. split; [|done]. clear - Hv. unfold view_of in *.
      induction txs as [|t txs IH]; [done|]. cbn in *. destruct (same_hash x t); auto.
  - apply run_fail_law in Er as [[Et Es]|[Es _]]; [|congruence]. exists txs. split; [|by left]. split; [congruence|by eapply contents_same|done].
Qed.

(** What the node does to the solidifier and the tangle: a received transaction is
    stored and its status updated, a milestone's past is checked, and the thread
    propagates.  After a transaction that could not be ended the run is over. *)
Inductive solidifier_step : transaction_solidifier_t * DB -> transaction_solidifier_t * DB -> Prop :=
| step_store ts db time tx ret db' : storable tx -> 0 <= time < 2 ^ 64 ->
    iota_tangle_transaction_store time db tx = (ret, db') -> solidifier_step (ts, db) (ts, db')
| step_update_status mem hp ts db tx ret ts' db' hp' :
    iota_consensus_transaction_solidifier_update_status mem hp ts db tx = (ret, ts', db', hp') -> solidifier_step (ts, db) (ts', db')
| step_check_solidity fuel mem hp ts db hash max ret ts' db' hp' solid : ret <> RC_STORAGE_FAILED_END ->
    iota_consensus_transaction_solidifier_check_solidity fuel mem ts db hp hash max false = Some (ret, ts', db', hp', solid) ->
    solidifier_step (ts, db) (ts', db')
| step_propagate resize fresh mem hp ts db ret ts' db' hp' :
    propagate_solid_transactions resize fresh mem hp ts db = Some (ret, ts', db', hp') -> solidifier_step (ts, db) (ts', db').

Lemma step_keeps ts db ts' db' txs : solidifier_step (ts, db) (ts', db') -> length (ts_genesis_hash ts) = 243%nat ->
  solid_db (roots ts) db txs -> same_roots ts ts' /\ exists txs', solid_db (roots ts) db' txs'.
Proof.
  intros Hst Hg Hd. inversion Hst; subst.
  - split; [done|]. edestruct store_keeps as (txs' & Hd' & _); eauto.
  - match goal with E : _ = (_, ts', db', _) |- _ => rename E into E1 end.
    pose proof (update_status_keeps mem hp ts db txs tx Hg Hd) as Hk. rewrite E1 in Hk.
    destruct Hk as [Hr (txs' & Hd' & _)]. eauto.
  - match goal with E : _ = Some (_, ts', db', _, _) |- _ => rename E into E1 end. split; [by eapply check_solidity_roots|].
    apply (check_solidity_keeps _ _ _ _ _ _ _ _ txs) in E1 as (txs1 & (K1 & K2 & K3) & _); [|done]. exists txs1.
    split; [by destruct K3|done|done].
  - match goal with E : _ = Some (_, ts', db', _) |- _ => rename E into E1 end.
    destruct (propagate_keeps _ _ _ _ _ _ _ _ Hg Hd E1) as [Hr (txs' & Hd' & _)]. eauto.
Qed.

(** C5: in every run of the node over a database in which solidity is closed (a solid
    transaction has as trunk and branch a solid entry point, the genesis or another
    solid transaction), it stays closed, whatever fails, in stores, status updates,
    propagations and checks of the past of a milestone; a check that succeeds and says
    that a transaction which is in the database is solid has made it so. *)
Theorem solidifier_keeps_solidity ts db ts' db' txs : length (ts_genesis_hash ts) = 243%nat -> solid_db (roots ts) db txs ->
  rtc solidifier_step (ts, db) (ts', db') ->
  exists txs', solid_db (roots ts) db' txs' /\
    forall fuel mem hp hash max ts'' db'' hp'' , view_of txs' hash <> None ->
      iota_consensus_transaction_solidifier_check_solidity fuel mem ts' db' hp hash max false = Some (RC_OK, ts'', db'', hp'', true) ->
      exists txs'', contents db'' txs'' /\ solid_closed (roots ts) txs'' /\ approvee_ok (roots ts) txs'' hash.
Proof.
  intros Hg Hd Hrun. assert (same_roots ts ts' /\ exists txs', solid_db (roots ts) db' txs') as [Hr [txs' Hd']].
  { remember (ts, db) as s. remember (ts', db') as s'. revert ts db txs Heqs Hg Hd. induction Hrun as [s|s [ts1 db1] s' Hst _ IH].
    - intros ts db txs -> Hg Hd. injection Heqs' as -> ->. split; [done|by exists txs].
    - intros ts db txs -> Hg Hd. destruct (step_keeps _ _ _ _ _ Hst Hg Hd) as [[H1 H2] [txs1 Hd1]].
      rewrite <- (same_roots_roots ts ts1) in Hd1 by done. destruct (IH Heqs' ts1 db1 txs1 eq_refl) as [H3 H4]; [congruence|done|].
      rewrite (same_roots_roots ts ts1) in H4 by done. split; [|done]. unfold same_roots in *. intuition congruence. }
  exists txs'. split; [done|]. rewrite <- (same_roots_roots _ _ Hr) in *. intros fuel mem hp hash max ts'' db'' hp'' Hv E.
  apply (check_solidity_keeps _ _ _ _ _ _ _ _ txs') in E as (txs'' & (H1 & H2 & _) & H3); [|done]. exists txs''. split_and!; [done|done|].
  destruct (H3 eq_refl eq_refl) as [|[[? _]|]]; done.
Qed.
End Keeps.

(** ** An example: the last of three linked transactions gets its status, then the
    past of the first one is checked. *)

Definition sample_solidifier : transaction_solidifier_t :=
  let s := mk_snapshot sample_conf [] (mk_snapshot_metadata (letter 3) 5 1556000000 [(letter 3, 5)]) in
  iota_consensus_transaction_solidifier_init (letter 3) (requester_init 10) (mk_provider s s) (tips_cache_init 10).

Lemma sample_solid_db : solid_db (roots sample_solidifier) (stored_links sample_links) sample_links.
Proof.
  split; [reflexivity|exact stored_links_contents|]. intros tx Hin Hs. exfalso. revert Hs.
  repeat (apply list.elem_of_cons in Hin as [->|Hin]; [by vm_compute|]). by apply not_elem_of_nil in Hin.
Qed.

Lemma solidifier_keeps_solidity_witness :
  exists ts' db' txs', solid_db (roots sample_solidifier) db' txs' /\
    exists ts'' db'' hp'' txs'',
      iota_consensus_transaction_solidifier_check_solidity 9 sample_tx ts' db' [] (letter 0) 50 false =
        Some (RC_OK, ts'', db'', hp'', true) /\
      contents db'' txs'' /\ approvee_ok (roots sample_solidifier) txs'' (letter 0).
Proof.
  set (run := iota_consensus_transaction_solidifier_update_status sample_tx [] sample_solidifier (stored_links sample_links)
    (link (letter 2) (letter 3) 2 2 (letter 0))).
  assert (rtc solidifier_step (sample_solidifier, stored_links sample_links) (run.1.1.2, run.1.2)) as Hrun.
  { apply rtc_once. apply (step_update_status sample_tx [] _ _ (link (letter 2) (letter 3) 2 2 (letter 0)) run.1.1.1 _ _ run.2).
    subst run. by destruct (iota_consensus_transaction_solidifier_update_status _ _ _ _ _) as [[[? ?] ?] ?]. }
  destruct (solidifier_keeps_solidity sample_solidifier _ _ _ _ eq_refl sample_solid_db Hrun) as (txs' & Hd & H).
  exists run.1.1.2, run.1.2, txs'. split; [exact Hd|].
  assert (exists ts'' db'' hp'', iota_consensus_transaction_solidifier_check_solidity 9 sample_tx run.1.1.2 run.1.2 [] (letter 0) 50 false =
    Some (RC_OK, ts'', db'', hp'', true)) as (ts'' & db'' & hp'' & E) by (do 3 eexists; vm_compute; reflexivity).
  exists ts'', db'', hp''.
  assert (view_of txs' (letter 0) <> None) as Hv.
  { intros Hv. pose proof (view_contents _ _ (sd_contents _ _ _ Hd)) as V.
    pose proof (load_view MODEL_TRANSACTION_METADATA (letter 0) sample_tx) as Hl. rewrite Hv in Hl.
    apply (f_equal (fun r => num_loaded r.2)) in Hl. vm_compute in Hl. discriminate. }
  destruct (H _ _ _ _ _ _ _ _ Hv E) as (txs'' & H1 & _ & H2). exists txs''. by split_and!.
Defined.
