(* ===== verification/TransactionValidator.v ===== *)
(** * Transaction validator

    [ciri/consensus/transaction_validator/transaction_validator.c]: the checks that
    a transaction passes before it is stored.  The clock is an argument.  [None] is
    the read beyond an all-zero hash of [transaction_weight_magnitude]. *)
From S2P Require Import Prelude Errors TritLong FlexTrit Transaction Bundle Containers StateDelta Snapshot Statements Sqlite Caches.

Definition MAX_TIMESTAMP_FUTURE_MS : Z := 2 * 60 * 60 * 1000.

Record transaction_validator_t := mk_tv {
  tv_mwm : Z; tv_genesis_hash : hash_t; tv_snapshots_provider : snapshots_provider_t; tv_requester : transaction_requester_t
}.

Definition has_invalid_timestamp (now : Z) (tv : transaction_validator_t) (tx : iota_transaction_t) : bool :=
  let timestamp_ms :=
    if transaction_attachment_timestamp tx =? 0 then u64 (transaction_timestamp tx * 1000) else transaction_attachment_timestamp tx in
  let initial := initial_snapshot (tv_snapshots_provider tv) in
  let is_too_futuristic := u64 (now + MAX_TIMESTAMP_FUTURE_MS) <? timestamp_ms in
  let is_below_snapshot :=
    (timestamp_ms <? u64 (sm_timestamp (sn_metadata initial) * 1000)) &&
    negb (iota_snapshot_has_solid_entry_point initial (transaction_hash tx)) in
  let '(_, was_requested) := requester_was_requested (tv_requester tv) (transaction_hash tx) in
  if was_requested then false else
  if is_too_futuristic then true else
  if is_below_snapshot then negb (memeq 243 (transaction_hash tx) (tv_genesis_hash tv)) else false.

Definition iota_consensus_transaction_validate (now : Z) (tv : transaction_validator_t) (tx : iota_transaction_t) : option bool :=
  match transaction_weight_magnitude tx with
  | None => None
  | Some wm =>
      Some (
        if wm <? tv_mwm tv then false else
        if has_invalid_timestamp now tv tx then false else
        if llabs (transaction_value tx) >? IOTA_SUPPLY then false else
        if negb (transaction_value tx =? 0) && negb (flex_trits_at (transaction_address tx) 243 242 =? 0) then false else true)
  end.

(** * Properties *)

(** The time of a transaction in milliseconds, as the signed number that the trits hold. *)
Definition tx_time (tx : iota_transaction_t) : Z :=
  if i64 (transaction_attachment_timestamp tx) =? 0 then i64 (transaction_timestamp tx) * 1000
  else i64 (transaction_attachment_timestamp tx).

(** A transaction that the validator accepts. *)
Record acceptable (now : Z) (tv : transaction_validator_t) (tx : iota_transaction_t) (wm : Z) : Prop := {
  ac_weight : tv_mwm tv <= wm;
  ac_time :
    (transaction_hash tx ∈ requested_hashes (tv_requester tv)) \/
    (0 <= tx_time tx <= now + MAX_TIMESTAMP_FUTURE_MS /\
     (sm_timestamp (sn_metadata (initial_snapshot (tv_snapshots_provider tv))) * 1000 <= tx_time tx \/
      is_Some (HASH_FIND (sm_solid_entry_points (sn_metadata (initial_snapshot (tv_snapshots_provider tv)))) (transaction_hash tx)) \/
      take 243 (transaction_hash tx) = take 243 (tv_genesis_hash tv)));
  ac_value : Z.abs (transaction_value tx) <= IOTA_SUPPLY;
  ac_address : transaction_value tx = 0 \/ nth 242 (transaction_address tx) 0 = 0
}.

(** The unsigned milliseconds: the time itself, or a number past every date. *)
Lemma timestamp_ms_cases tx : fits27 (transaction_timestamp tx) -> fits27 (transaction_attachment_timestamp tx) ->
  let ms := if transaction_attachment_timestamp tx =? 0 then u64 (transaction_timestamp tx * 1000)
            else transaction_attachment_timestamp tx in
  (0 <= tx_time tx /\ ms = tx_time tx) \/ (tx_time tx < 0 /\ ms = tx_time tx + 2 ^ 64 /\ - 2 ^ 52 < tx_time tx).
Proof.
  unfold fits27, tx_time. change (rep_max 27) with 3812798742493. set (a := transaction_attachment_timestamp tx).
  set (t := transaction_timestamp tx). clearbody a t. intros [Ht1 Ht2] [Ha1 Ha2]. cbv zeta.
  assert (forall v, 0 <= v < 2 ^ 64 -> i64 v = if v <? 2 ^ 63 then v else v - 2 ^ 64) as Hi.
  { intros v Hv. unfold swrap. change (64 - 1) with 63. destruct (Z.ltb_spec v (2 ^ 63)).
    - rewrite Z.mod_small by lia. lia.
    - replace (v + 2 ^ 63) with ((v - 2 ^ 63) + 1 * 2 ^ 64) by lia. rewrite Z.mod_add, Z.mod_small by lia. lia. }
  rewrite !Hi in * by done. assert ((if a <? 2 ^ 63 then a else a - 2 ^ 64) =? 0 = (a =? 0)) as ->.
  { destruct (Z.ltb_spec a (2 ^ 63)); [done|]. destruct (Z.eqb_spec a 0), (Z.eqb_spec (a - 2 ^ 64) 0); lia. }
  destruct (Z.eqb_spec a 0) as [->|Hne].
  - destruct (Z.ltb_spec t (2 ^ 63)); unfold uwrap.
    + left. rewrite Z.mod_small by lia. lia.
    + right. replace (t * 1000) with (((t - 2 ^ 64) * 1000 + 2 ^ 64) + 999 * 2 ^ 64) by lia.
      rewrite Z.mod_add, Z.mod_small by lia. lia.
  - destruct (Z.ltb_spec a (2 ^ 63)); lia.
Qed.

Lemma has_invalid_timestamp_spec now tv tx : fits27 (transaction_timestamp tx) -> fits27 (transaction_attachment_timestamp tx) ->
  0 <= now < 2 ^ 62 -> 0 <= sm_timestamp (sn_metadata (initial_snapshot (tv_snapshots_provider tv))) < 2 ^ 52 ->
  has_invalid_timestamp now tv tx = false <->
  ((transaction_hash tx ∈ requested_hashes (tv_requester tv)) \/
  (0 <= tx_time tx <= now + MAX_TIMESTAMP_FUTURE_MS /\
     (sm_timestamp (sn_metadata (initial_snapshot (tv_snapshots_provider tv))) * 1000 <= tx_time tx \/
      is_Some (HASH_FIND (sm_solid_entry_points (sn_metadata (initial_snapshot (tv_snapshots_provider tv)))) (transaction_hash tx)) \/
      take 243 (transaction_hash tx) = take 243 (tv_genesis_hash tv)))).
Proof.
  intros Ht Ha Hn Hs. pose proof (timestamp_ms_cases tx Ht Ha) as Hc. cbv zeta in Hc. unfold has_invalid_timestamp.
  set (ms := if _ =? 0 then _ else _) in *. clearbody ms. set (snap := sm_timestamp _) in *. clearbody snap.
  unfold requester_was_requested, hash243_set_contains, iota_snapshot_has_solid_entry_point, hash_map_contains, memeq.
  unfold MAX_TIMESTAMP_FUTURE_MS. unfold uwrap. rewrite !Z.mod_small by lia.
  case_bool_decide as Er.
  { split; [intros _; by left|reflexivity]. }
  destruct (Z.ltb_spec (now + 2 * 60 * 60 * 1000) ms).
  { split; [done|]. intros [|[H1 _]]; [done|]. lia. }
  case_bool_decide as Hi; cbn [negb].
  { rewrite andb_false_r. split; [|done]. intros _. right. split; [lia|auto]. }
  rewrite andb_true_r. destruct (Z.ltb_spec ms (snap * 1000)).
  - rewrite negb_false_iff, bool_decide_eq_true. split; [intros E; right; split; [lia|auto]|].
    intros [|[_ [|[|E]]]]; [done|lia|done|done].
  - split; [|done]. intros _. right. split; [lia|left; lia].
Qed.


Definition sample_tv : transaction_validator_t :=
  mk_tv 14 (replicate 243 0)
    (mk_provider (mk_snapshot sample_conf [] (mk_snapshot_metadata (replicate 243 0) 5 1540000000 []))
       (mk_snapshot sample_conf [] (mk_snapshot_metadata (replicate 243 0) 5 1540000000 []))) (requester_init 10).

Definition sample_mined : iota_transaction_t :=
  mk_tx (mk_essence (replicate 242 1 ++ [0]) 10 (replicate 81 (-1)) 1546300800 1 2 (replicate 243 (-1))) (attachment sample_tx)
    (mk_consensus (replicate 229 1 ++ replicate 14 0)) (data sample_tx) (metadata sample_tx) (mk_mask 0 0 0 0 0).

