(* ===== verification/Milestone.v ===== *)
(** * Milestones

    [ciri/consensus/milestone/milestone_tracker.c] and [milestone_service.c]: which
    transactions are milestones of the coordinator, and how far the ledger has followed
    them.  The two threads are functions on one turn of their loops; locks, condition
    variables and logs are not modelled.  The last solid milestone is kept in the
    ledger validator's record, since the code gives it a pointer to the tracker. *)
From S2P Require Import Prelude Errors Trits FlexTrit TritLong Sponge Normalize Iss Transaction Sign Bundle Containers StateDelta Snapshot Statements.
From S2P Require Import Sqlite Tangle Traversal Ledger Caches Solidifier.

Definition MILESTONE_VALIDATION_TRANSACTIONS_LIMIT : Z := 10.
Definition MILESTONE_SOLIDIFICATION_TRANSACTIONS_LIMIT : Z := 50000.

Inductive milestone_status_t := MILESTONE_VALID | MILESTONE_INVALID | MILESTONE_EXISTS | MILESTONE_INCOMPLETE.

#[export] Instance milestone_status_eq_dec : EqDecision milestone_status_t.
Proof. solve_decision. Defined.

(** The fields of the configuration that are used; [coordinator_signature_type] is the
    second sponge of the section. *)
Record coordinator_conf := mk_coordinator {
  coordinator_address : hash_t; coordinator_depth : nat; coordinator_max_milestone_index : Z;
  coordinator_security_level : nat; conf_last_milestone : Z
}.

Record milestone_tracker_t := mk_mt {
  mt_running : bool; mt_conf : coordinator_conf; milestone_start_index : Z; latest_milestone_index : Z;
  latest_milestone : hash_t; mt_lv : ledger_validator_t; mt_ts : transaction_solidifier_t; candidates : hash243_queue
}.

Definition put_candidates (c : hash243_queue) (mt : milestone_tracker_t) : milestone_tracker_t :=
  mk_mt (mt_running mt) (mt_conf mt) (milestone_start_index mt) (latest_milestone_index mt) (latest_milestone mt) (mt_lv mt) (mt_ts mt) c.
Definition put_latest_milestone (index : Z) (hash : hash_t) (mt : milestone_tracker_t) : milestone_tracker_t :=
  mk_mt (mt_running mt) (mt_conf mt) (milestone_start_index mt) index hash (mt_lv mt) (mt_ts mt) (candidates mt).
Definition put_running (b : bool) (mt : milestone_tracker_t) : milestone_tracker_t :=
  mk_mt b (mt_conf mt) (milestone_start_index mt) (latest_milestone_index mt) (latest_milestone mt) (mt_lv mt) (mt_ts mt) (candidates mt).
Definition put_ts (ts : transaction_solidifier_t) (mt : milestone_tracker_t) : milestone_tracker_t :=
  mk_mt (mt_running mt) (mt_conf mt) (milestone_start_index mt) (latest_milestone_index mt) (latest_milestone mt) (mt_lv mt) ts (candidates mt).

(** The snapshots are shared with the solidifier. *)
Definition put_lv (lv : ledger_validator_t) (mt : milestone_tracker_t) : milestone_tracker_t :=
  let ts := mt_ts mt in
  mk_mt (mt_running mt) (mt_conf mt) (milestone_start_index mt) (latest_milestone_index mt) (latest_milestone mt) lv
    (mk_ts (ts_genesis_hash ts) (ts_requester ts) (snapshots_provider lv) (ts_running ts) (newly_set_solid_transactions ts) (ts_tips ts))
    (candidates mt).

Definition solid_index (mt : milestone_tracker_t) : Z := latest_solid_milestone_index (mt_lv mt).

Definition put_solid (m : iota_milestone_t) (lv : ledger_validator_t) : ledger_validator_t :=
  mk_lv (genesis_hash lv) (snapshots_provider lv) (ms_index m) (ms_hash m).

Definition iota_milestone_tracker_init (conf : coordinator_conf) (lv : ledger_validator_t) (ts : transaction_solidifier_t)
    : milestone_tracker_t :=
  let index := Z.max (conf_last_milestone conf) (sm_index (sn_metadata (initial_snapshot (snapshots_provider lv)))) in
  mk_mt false conf (conf_last_milestone conf) (conf_last_milestone conf) (replicate 243 0)
    (mk_lv (genesis_hash lv) (snapshots_provider lv) index (replicate 243 0)) ts [].

(** [validator] and [solidifier]: what the joins of the two threads return. *)
Definition iota_milestone_tracker_stop (validator solidifier : Z) (mt : milestone_tracker_t) : retcode_t * milestone_tracker_t :=
  if negb (mt_running mt) then (RC_OK, mt)
  else (if negb (validator =? 0) || negb (solidifier =? 0) then RC_THREAD_JOIN else RC_OK, put_running false mt).

Definition iota_milestone_tracker_add_candidate hp (mt : milestone_tracker_t) (hash : hash_t) : retcode_t * milestone_tracker_t * heap :=
  let '(ret, queue, hp) := hash243_queue_push hp (candidates mt) hash in
  let mt := put_candidates queue mt in
  if negb (bool_decide (ret = RC_OK)) then (RC_OOM, mt, hp) else (RC_OK, mt, hp).

(** ** Validating a candidate *)

Fixpoint branches_loop (txs : bundle_transactions_t) (head : iota_transaction_t) : bool :=
  match txs with
  | [] => true
  | tx :: txs => if negb (memeq FLEX_TRIT_SIZE_243 (transaction_branch tx) (transaction_trunk head)) then false else branches_loop txs head
  end.

Definition is_milestone_bundle_structure_valid (bundle : bundle_transactions_t) (candidate : iota_milestone_t) (security_level : nat) : bool :=
  match bundle !! 0%nat with
  | None => false
  | Some tx =>
      if negb (memeq FLEX_TRIT_SIZE_243 (transaction_hash tx) (ms_hash candidate)) then false else
      match bundle !! security_level with
      | None => false
      | Some head => branches_loop (take security_level bundle) head
      end
  end.

(** What the buffers of [validate_coordinator] hold. *)
Record coordinator_stack := mk_coo_stack {
  cs_siblings : list Z; cs_trits : list Z; cs_signed : list Z; cs_signature : list Z; cs_coo : list Z
}.

Section Coordinator.
Context {StC : Type} {SpC : Sponge StC} {SIC : SpongeInit StC}.

(** The digests of the fragments, one behind the other. *)
Fixpoint digests_loop (stack : coordinator_stack) (s : StC) (signed_hash : list Z) (i : nat) (txs : bundle_transactions_t) : list Z * StC :=
  match txs with
  | [] => ([], s)
  | tx :: txs =>
      let '(_, signature_trits) := flex_trits_to_trits (cs_signature stack) NUM_TRITS_SIGNATURE (transaction_signature tx)
                                     NUM_TRITS_SIGNATURE NUM_TRITS_SIGNATURE in
      let '(digest, _, s) := iss_sig_digest s (drop (i * ISS_FRAGMENTS * 3) signed_hash) signature_trits in
      let '(digests, s) := digests_loop stack s signed_hash (S i) txs in (digest ++ digests, s)
  end.

(** [*valid]; [None] when the bundle has no transaction at the security level. *)
Definition validate_coordinator (stack : coordinator_stack) (conf : coordinator_conf) (candidate : iota_milestone_t)
    (bundle : bundle_transactions_t) : option bool :=
  match bundle !! coordinator_security_level conf with
  | None => None
  | Some tx =>
      let '(_, siblings_trits) := flex_trits_to_trits (cs_siblings stack) NUM_TRITS_SIGNATURE (transaction_signature tx)
                                    NUM_TRITS_SIGNATURE NUM_TRITS_SIGNATURE in
      let signed_hash := normalize_flex_hash_to_trits (cs_trits stack) (transaction_hash tx) (cs_signed stack) in
      let '(digest, s) := digests_loop stack init_state signed_hash 0 (take (coordinator_security_level conf) bundle) in
      let '(root, s) := iss_address s digest in
      let '(root, s) := iss_merkle_root s root siblings_trits (coordinator_depth conf) (Z.to_nat (ms_index candidate)) in
      let '(_, coo) := flex_trits_from_trits (cs_coo stack) HASH_LENGTH_TRIT root HASH_LENGTH_TRIT HASH_LENGTH_TRIT in
      Some (memeq FLEX_TRIT_SIZE_243 coo (coordinator_address conf))
  end.

Context {DB : Type} {SQ : Sqlite DB} {St : Type} {Sp : Sponge St} {SI : SpongeInit St}.
Implicit Types (db : DB) (hp : heap) (hash : hash_t) (mt : milestone_tracker_t).

(** The code, the database and [*milestone_status]. *)
Definition iota_milestone_tracker_validate_milestone (stack : coordinator_stack) (env : run_env) mt db (candidate : iota_milestone_t)
    : option (retcode_t * DB * milestone_status_t) :=
  if coordinator_max_milestone_index (mt_conf mt) <=? ms_index candidate then Some (RC_OK, db, MILESTONE_INVALID) else
  if ((ms_index candidate <=? solid_index mt) && negb (solid_index mt =? 0)) ||
     ((ms_index candidate =? latest_milestone_index mt) && negb (latest_milestone_index mt =? 0)) then Some (RC_OK, db, MILESTONE_EXISTS) else
  let '(ret, exists_) := iota_tangle_milestone_exist db (Some (ms_hash candidate)) false in
  if negb (bool_decide (ret = RC_OK)) then Some (ret, db, MILESTONE_INVALID) else
  if exists_ then Some (RC_OK, db, MILESTONE_EXISTS) else
  match iota_consensus_bundle_validator_validate (env_stack env) (env_tx env) db (ms_hash candidate) [] with
  | None => None
  | Some (ret, db, bundle, bundle_status) =>
      if negb (bool_decide (ret = RC_OK)) then Some (ret, db, MILESTONE_INVALID) else
      match bundle_status with
      | BUNDLE_INCOMPLETE => Some (RC_OK, db, MILESTONE_INCOMPLETE)
      | BUNDLE_VALID =>
          if negb (is_milestone_bundle_structure_valid bundle candidate (coordinator_security_level (mt_conf mt)))
          then Some (RC_OK, db, MILESTONE_INVALID) else
          match validate_coordinator stack (mt_conf mt) candidate bundle with
          | None => None
          | Some valid => Some (RC_OK, db, if valid then MILESTONE_VALID else MILESTONE_INVALID)
          end
      | _ => Some (RC_OK, db, MILESTONE_INVALID)
      end
  end.

(** [buffer] is the stack buffer. *)
Definition iota_milestone_tracker_get_milestone_index (buffer : list Z) (tx : iota_transaction_t) : Z :=
  u64 (trits_to_long (take NUM_TRITS_VALUE (flex_trits_to_trits buffer 81 (transaction_obsolete_tag tx) 81 81).2)).

(** One turn of [milestone_validator]; an empty queue waits. *)
Definition milestone_validator (stack : coordinator_stack) (buffer : list Z) (env : run_env) mt db hp : option (milestone_tracker_t * DB * heap) :=
  let '(entry, queue) := hash243_queue_pop (candidates mt) in
  let mt := put_candidates queue mt in
  match entry with
  | None => Some (mt, db, hp)
  | Some hash =>
      let '(ret, pack) := iota_tangle_transaction_load_partial db hash (DECLARE_PACK_SINGLE (env_tx env)) PARTIAL_TX_MODEL_ESSENCE_CONSENSUS in
      if negb (bool_decide (ret = RC_OK)) || (num_loaded pack =? 0)%nat then Some (mt, db, hp) else
      let candidate := mk_milestone (iota_milestone_tracker_get_milestone_index buffer (single_tx pack (env_tx env))) hash in
      match iota_milestone_tracker_validate_milestone stack env mt db candidate with
      | None => None
      | Some (ret, db, status) =>
          if negb (bool_decide (ret = RC_OK)) then Some (mt, db, hp) else
          match status with
          | MILESTONE_VALID =>
              let '(_, db) := iota_tangle_milestone_store db candidate in
              if latest_milestone_index mt <? ms_index candidate
              then Some (put_latest_milestone (ms_index candidate) (ms_hash candidate) mt, db, hp) else Some (mt, db, hp)
          | MILESTONE_INCOMPLETE =>
              match iota_consensus_transaction_solidifier_check_solidity (env_fuel env) (env_tx env) (mt_ts mt) db hp (ms_hash candidate)
                      MILESTONE_VALIDATION_TRANSACTIONS_LIMIT false with
              | None => None
              | Some (_, ts, db, hp, _) =>
                  let '(_, mt, hp) := iota_milestone_tracker_add_candidate hp (put_ts ts mt) (ms_hash candidate) in Some (mt, db, hp)
              end
          | _ => Some (mt, db, hp)
          end
      end
  end.

(** ** Following the milestones *)

(** [while (pack.num_loaded != 0 && ...)]; [None] when the fuel runs out. *)
Fixpoint solid_loop (fuel : nat) (env : run_env) mt db hp (pack : iota_stor_pack_t iota_milestone_t) (mem : iota_milestone_t)
    : option (retcode_t * milestone_tracker_t * DB * heap) :=
  match fuel with
  | O => None
  | S fuel =>
      let milestone := nth 0 (models pack) mem in
      if negb (num_loaded pack =? 0)%nat && (ms_index milestone <=? latest_milestone_index mt) && mt_running mt then
        match iota_consensus_transaction_solidifier_check_solidity (env_fuel env) (env_tx env) (mt_ts mt) db hp (ms_hash milestone)
                MILESTONE_SOLIDIFICATION_TRANSACTIONS_LIMIT false with
        | None => None
        | Some (ret, ts, db, hp, is_solid) =>
            let mt := put_ts ts mt in
            if negb (bool_decide (ret = RC_OK)) then Some (ret, mt, db, hp) else
            if negb is_solid then Some (RC_OK, mt, db, hp) else
            let reload mt db hp :=
              let '(ret, pack) := iota_tangle_milestone_load_next db (solid_index mt) (hash_pack_reset pack) in
              if negb (bool_decide (ret = RC_OK)) then Some (ret, mt, db, hp) else solid_loop fuel env mt db hp pack mem in
            if ms_index milestone =? u64 (solid_index mt + 1) then
              match iota_consensus_ledger_validator_update_snapshot env (mt_lv mt) db hp milestone with
              | None => None
              | Some (ret, lv, db, hp, has_snapshot) =>
                  let mt := put_lv lv mt in
                  if negb (bool_decide (ret = RC_OK)) then Some (ret, mt, db, hp) else
                  if has_snapshot then reload (put_lv (put_solid milestone lv) mt) db hp else Some (RC_OK, mt, db, hp)
              end
            else reload mt db hp
        end
      else Some (RC_OK, mt, db, hp)
  end.

Definition update_latest_solid_milestone (fuel : nat) (env : run_env) (mem : iota_milestone_t) mt db hp
    : option (retcode_t * milestone_tracker_t * DB * heap) :=
  let '(ret, pack) := iota_tangle_milestone_load_next db (solid_index mt) (DECLARE_PACK_SINGLE mem) in
  if negb (bool_decide (ret = RC_OK)) then Some (ret, mt, db, hp) else solid_loop fuel env mt db hp pack mem.

(** One turn of [milestone_solidifier]; the code is only logged. *)
Definition milestone_solidifier (fuel : nat) (env : run_env) (mem : iota_milestone_t) mt db hp : option (milestone_tracker_t * DB * heap) :=
  if solid_index mt <? latest_milestone_index mt then
    match update_latest_solid_milestone fuel env mem mt db hp with
    | None => None
    | Some (_, mt, db, hp) => Some (mt, db, hp)
    end
  else Some (mt, db, hp).

(** ** Starting *)

Fixpoint add_candidates hp mt (solid_entry_points : hash243_set) (hashes : list hash_t) : milestone_tracker_t * heap :=
  match hashes with
  | [] => (mt, hp)
  | hash :: hashes =>
      if hash243_set_contains solid_entry_points hash then add_candidates hp mt solid_entry_points hashes else
      let '(_, mt, hp) := iota_milestone_tracker_add_candidate hp mt hash in add_candidates hp mt solid_entry_points hashes
  end.

(** Up to the creation of the threads; a failing load of the candidates is logged. *)
Definition iota_milestone_tracker_start (resize : nat) (fresh_hash : hash_t) (mem : iota_milestone_t) mt db hp
    : option (retcode_t * milestone_tracker_t * heap) :=
  let '(solid_entry_points, hp) := iota_snapshot_solid_entry_points_set hp (initial_snapshot (snapshots_provider (mt_lv mt))) [] in
  let mt := put_running true mt in
  let '(ret, pack) := iota_tangle_milestone_load_last db (DECLARE_PACK_SINGLE mem) in
  if negb (bool_decide (ret = RC_OK)) then Some (ret, mt, hp) else
  let mt :=
    if negb (num_loaded pack =? 0)%nat then
      let m := nth 0 (models pack) mem in
      put_latest_milestone (Z.max (ms_index m) (sm_index (sn_metadata (lv_latest (mt_lv mt))))) (ms_hash m) mt
    else mt in
  let '(_, hash_pack, hp) := hash_pack_init hp 512 fresh_hash in
  match iota_tangle_transaction_load_hashes_of_milestone_candidates resize fresh_hash hp db (coordinator_address (mt_conf mt)) hash_pack with
  | None => None
  | Some (_, hash_pack, hp) =>
      let '(mt, hp) := add_candidates hp mt solid_entry_points (take (num_loaded hash_pack) (models hash_pack)) in
      Some (RC_OK, mt, hp)
  end.

Definition iota_milestone_tracker_destroy mt : retcode_t * milestone_tracker_t :=
  if mt_running mt then (RC_STILL_RUNNING, mt) else (RC_OK, put_candidates [] mt).

(** ** The milestone service *)

(** [last_applied_milestone] points to the buffer [current_milestone]: [Some] that it
    is set.  [n] counts the indexes from [index] to the target. *)
Fixpoint replay_loop (n : nat) db hp (index : Z) (pack : iota_stor_pack_t iota_milestone_t) (mem : iota_milestone_t)
    (merged : state_delta_t) (applied : bool) : retcode_t * state_delta_t * iota_stor_pack_t iota_milestone_t * bool * heap :=
  match n with
  | O => (RC_OK, merged, pack, applied, hp)
  | S n =>
      let '(ret, pack) := iota_tangle_milestone_load_by_index db (u64 (index + 1)) (hash_pack_reset pack) in
      if negb (bool_decide (ret = RC_OK)) then (ret, merged, pack, applied, hp) else
      if (num_loaded pack =? 0)%nat then (RC_OK, merged, pack, applied, hp) else
      let '(ret, current_delta, hp) := iota_tangle_state_delta_load hp db (ms_index (nth 0 (models pack) mem)) [] in
      if negb (bool_decide (ret = RC_OK)) then (ret, merged, pack, applied, hp) else
      if state_delta_empty current_delta then replay_loop n db hp (u64 (index + 1)) pack mem merged applied else
      let '(ret, merged, hp) := state_delta_apply_patch hp merged current_delta in
      if negb (bool_decide (ret = RC_OK)) then (ret, merged, pack, applied, hp)
      else replay_loop n db hp (u64 (index + 1)) pack mem merged true
  end.

Definition iota_milestone_service_replay_milestones (mem : iota_milestone_t) db hp (snapshot : snapshot_t) (index : Z)
    : retcode_t * snapshot_t * heap :=
  let start := sm_index (sn_metadata snapshot) in
  let '(ret, merged, pack, applied, hp) := replay_loop (Z.to_nat (index - start)) db hp start (DECLARE_PACK_SINGLE mem) mem [] false in
  if negb (bool_decide (ret = RC_OK)) then (ret, snapshot, hp) else
  if applied then iota_snapshot_apply_patch_no_lock hp snapshot merged (ms_index (nth 0 (models pack) mem)) else (RC_OK, snapshot, hp).
End Coordinator.

(** * Lemmas *)

(** ** Loading the next milestone *)

Definition milestone_of (row : ms_row) : iota_milestone_t :=
  select_milestones_populate_from_row (ms_columns row) (mk_milestone 0 []).

Section Next.
Context {DB : Type} {SQ : Sqlite DB} {L : SqliteLaws DB} {R : SqliteReliable DB}.
Implicit Types (db : DB) (row : ms_row).

(** Without an order any later milestone may come. *)
Lemma load_next_spec db index mem : 0 <= index < 2 ^ 31 ->
  let rows := iota_milestone_table (tables_of db) in
  (iota_tangle_milestone_load_next db index (DECLARE_PACK_SINGLE mem) = (RC_OK, DECLARE_PACK_SINGLE mem) /\
    forall row, row ∈ rows -> ms_id row <= index) \/
  exists row, (row ∈ rows) /\ index < ms_id row /\
    iota_tangle_milestone_load_next db index (DECLARE_PACK_SINGLE mem) = (RC_OK, mk_pack [milestone_of row] 1 1 false).
Proof.
  intros Hi rows. unfold iota_tangle_milestone_load_next, storage_milestone_load_next, bind_load. rewrite bind_all_reliable. cbn [negb].
  pose proof (rows_reliable db milestone_select_next [int_value index]) as (all & Hp & Hr). rewrite Hr. clear Hr. cbn [limit].
  unfold query, int_value in Hp. cbn [value_at lookup list_lookup default] in Hp.
  replace (i32 index) with index in Hp by (symmetry; apply swrap_small; lia).
  destruct all as [|r all]; cbn [take].
  - left. split; [done|]. intros row Hin. apply Permutation_nil_l in Hp. unfold select_milestones in Hp. symmetry in Hp.
    apply map_eq_nil in Hp. destruct (Z.le_gt_cases (ms_id row) index) as [|Hgt]; [done|]. exfalso.
    assert (row ∈ List.filter (fun m => sql_lt (SqlInt index) (SqlInt (ms_id m))) rows) as Hf.
    { apply list_elem_of_In, filter_In. split; [by apply list_elem_of_In|]. cbn. by apply Z.ltb_lt. }
    unfold rows in Hf. cbn in Hp, Hf. rewrite Hp in Hf. by apply not_elem_of_nil in Hf.
  - right. assert (r ∈ r :: all) as Hin by left. rewrite Hp in Hin. unfold select_milestones in Hin.
    apply list_elem_of_fmap in Hin as (row & -> & Hin). apply list_elem_of_In, filter_In in Hin as [Hin Hlt].
    exists row. split; [by apply list_elem_of_In|]. split; [by apply Z.ltb_lt|]. rewrite firstn_O. reflexivity.
Qed.
End Next.

(** ** Following the milestones *)

Section Follow.
Context {DB : Type} {SQ : Sqlite DB} {St : Type} {Sp : Sponge St} {SI : SpongeInit St}.
Implicit Types (db : DB) (hp : heap) (mt : milestone_tracker_t).

(** A transaction that is solid already is found solid at once. *)
Lemma check_solidity_solid fuel mem ts db (view : hash_t -> option iota_transaction_t) hp hash tx max b : TangleView DB db view ->
  view hash = Some tx -> m_solid (metadata tx) = true ->
  iota_consensus_transaction_solidifier_check_solidity fuel mem ts db hp hash max b = Some (RC_OK, ts, db, hp, true).
Proof.
  intros V Hv Hs. unfold iota_consensus_transaction_solidifier_check_solidity.
  pose proof (load_view MODEL_TRANSACTION_ESSENCE_ATTACHMENT_METADATA hash mem) as El.
  change (load_model _ _ _ _) with
    (iota_tangle_transaction_load_partial db hash (DECLARE_PACK_SINGLE mem) PARTIAL_TX_MODEL_ESSENCE_ATTACHMENT_METADATA) in El.
  rewrite El, Hv, bool_decide_eq_true_2 by done. cbn [negb found_pack].
  change (transaction_solid (single_tx _ _)) with (m_solid (metadata tx)). by rewrite Hs.
Qed.

Lemma put_ts_same mt : put_ts (mt_ts mt) mt = mt.
Proof. by destruct mt. Qed.

(** What a milestone would move. *)
Definition milestone_delta (env : run_env) (lv : ledger_validator_t) db hp (m : iota_milestone_t) : list state_delta_t :=
  match get_latest_delta env lv db hp [] [] (ms_hash m) (lv_index lv) with
  | Some (ret, _, _, _, delta, true) => if bool_decide (ret = RC_OK) then [delta] else []
  | _ => []
  end.

(** The deltas that the milestones of a run move, in their order: a ghost of [solid_loop]. *)
Fixpoint moved (fuel : nat) (env : run_env) mt db hp (pack : iota_stor_pack_t iota_milestone_t) (mem : iota_milestone_t) : list state_delta_t :=
  match fuel with
  | O => []
  | S fuel =>
      let milestone := nth 0 (models pack) mem in
      if negb (num_loaded pack =? 0)%nat && (ms_index milestone <=? latest_milestone_index mt) && mt_running mt then
        match iota_consensus_transaction_solidifier_check_solidity (env_fuel env) (env_tx env) (mt_ts mt) db hp (ms_hash milestone)
                MILESTONE_SOLIDIFICATION_TRANSACTIONS_LIMIT false with
        | Some (ret, ts, db, hp, true) =>
            if negb (bool_decide (ret = RC_OK)) then [] else
            let mt := put_ts ts mt in
            let reload mt db hp := moved fuel env mt db hp (iota_tangle_milestone_load_next db (solid_index mt) (hash_pack_reset pack)).2 mem in
            if ms_index milestone =? u64 (solid_index mt + 1) then
              milestone_delta env (mt_lv mt) db hp milestone ++
              match iota_consensus_ledger_validator_update_snapshot env (mt_lv mt) db hp milestone with
              | Some (ret, lv, db, hp, true) =>
                  if bool_decide (ret = RC_OK) then reload (put_lv (put_solid milestone lv) (put_lv lv mt)) db hp else []
              | _ => []
              end
            else reload mt db hp
        | _ => []
        end
      else []
  end.

Definition all_moved (fuel : nat) (env : run_env) mt db hp (mem : iota_milestone_t) : list state_delta_t :=
  moved fuel env mt db hp (iota_tangle_milestone_load_next db (solid_index mt) (DECLARE_PACK_SINGLE mem)).2 mem.

(** What a run does to the tracker. *)
Record followed mt mt' (deltas : list state_delta_t) : Prop := {
  fw_ledger : ledger_ok (lv_state (mt_lv mt'));
  fw_solid : solid_index mt <= solid_index mt' <= Z.max (solid_index mt) (latest_milestone_index mt);
  fw_latest : latest_milestone_index mt' = latest_milestone_index mt;
  fw_balances : exists applied, sublist applied deltas /\
    forall k, balance (lv_state (mt_lv mt')) k = balance (lv_state (mt_lv mt)) k + zsum (map (fun d => balance d k) applied)
}.

Lemma followed_refl mt mt' deltas : ledger_ok (lv_state (mt_lv mt)) -> lv_state (mt_lv mt') = lv_state (mt_lv mt) ->
  solid_index mt' = solid_index mt -> latest_milestone_index mt' = latest_milestone_index mt -> followed mt mt' deltas.
Proof.
  intros Hl H1 H2 H3. split; [by rewrite H1|lia|done|]. exists []. split; [apply sublist_nil_l|]. intros k. rewrite H1. cbn. lia.
Qed.

Lemma followed_trans mt1 mt2 mt3 d1 d2 : followed mt1 mt2 d1 -> followed mt2 mt3 d2 -> followed mt1 mt3 (d1 ++ d2).
Proof.
  intros [A1 A2 A3 (a & A4 & A5)] [B1 B2 B3 (b & B4 & B5)]. split; [done|lia|congruence|].
  exists (a ++ b). split; [by apply sublist_app|]. intros k. rewrite B5, A5, map_app, zsum_app. lia.
Qed.

(** A milestone on top of the last solid one. *)
Lemma confirm_followed env mt db hp m ret lv db' hp' has : ledger_ok (lv_state (mt_lv mt)) ->
  Forall (fun delta => Z.abs (total delta) < 2 ^ 64) (milestone_delta env (mt_lv mt) db hp m) ->
  iota_consensus_ledger_validator_update_snapshot env (mt_lv mt) db hp m = Some (ret, lv, db', hp', has) -> ret <> RC_OOM ->
  followed mt (put_lv lv mt) (milestone_delta env (mt_lv mt) db hp m).
Proof.
  intros Hl Hd E Hr. pose proof (update_snapshot_solid _ _ _ _ _ _ _ _ _ _ E) as Hs.
  assert (forall db1 hp1 an delta, get_latest_delta env (mt_lv mt) db hp [] [] (ms_hash m) (lv_index (mt_lv mt)) =
    Some (RC_OK, db1, hp1, an, delta, true) -> milestone_delta env (mt_lv mt) db hp m = [delta]) as Hm.
  { intros db1 hp1 an delta Eg. unfold milestone_delta. rewrite Eg. by rewrite bool_decide_eq_true_2. }
  destruct (update_snapshot_ledger env (mt_lv mt) db hp m ret lv db' hp' has Hl) as [H1 H2]; [|done|done|].
  { intros db1 hp1 an delta Eg. rewrite (Hm _ _ _ _ Eg) in Hd. by inversion Hd. }
  destruct H2 as [->|(db1 & hp1 & an & delta & Eg & _ & _ & _ & Hb)]; [by apply followed_refl|].
  rewrite (Hm _ _ _ _ Eg). split; [done|cbn; unfold solid_index in *; cbn; lia|done|].
  exists [delta]. split; [done|]. intros k. change (mt_lv (put_lv lv mt)) with lv. rewrite Hb. cbn. lia.
Qed.

Lemma put_solid_followed mt m : ledger_ok (lv_state (mt_lv mt)) -> 0 <= solid_index mt < 2 ^ 64 - 1 ->
  ms_index m = u64 (solid_index mt + 1) -> ms_index m <= latest_milestone_index mt ->
  followed mt (put_lv (put_solid m (mt_lv mt)) mt) [].
Proof.
  intros Hl Hs Hm Hle. unfold uwrap in Hm. rewrite Z.mod_small in Hm by lia. split; [done| |done|].
  - change (solid_index (put_lv _ _)) with (ms_index m). lia.
  - exists []. split; [done|]. intros k. change (lv_state (mt_lv (put_lv _ _))) with (lv_state (mt_lv mt)). cbn. lia.
Qed.

Lemma solid_loop_followed env mem fuel : forall mt db hp pack ret mt' db' hp', ledger_ok (lv_state (mt_lv mt)) ->
  0 <= solid_index mt < 2 ^ 64 - 1 -> latest_milestone_index mt < 2 ^ 64 - 1 ->
  Forall (fun delta => Z.abs (total delta) < 2 ^ 64) (moved fuel env mt db hp pack mem) ->
  solid_loop fuel env mt db hp pack mem = Some (ret, mt', db', hp') -> ret <> RC_OOM ->
  followed mt mt' (moved fuel env mt db hp pack mem).
Proof.
  induction fuel as [|fuel IH]; intros mt db hp pack ret mt' db' hp' Hl Hs Hlat Hd E Hr; [done|]. cbn [solid_loop moved] in *.
  destruct (_ && _ && _) eqn:Econd; [|simplify_eq; by apply followed_refl].
  destruct (iota_consensus_transaction_solidifier_check_solidity _ _ _ _ _ _ _ _) as [[[[[ret1 ts] db1] hp1] solid]|]; [|done].
  destruct (bool_decide_reflect (ret1 = RC_OK)) as [->|]; cbn [negb] in E, Hd |- *; [|simplify_eq; by apply followed_refl].
  destruct solid; cbn [negb] in E; [|simplify_eq; by apply followed_refl].
  set (m := nth 0 (models pack) mem) in *. set (mt1 := put_ts ts mt) in *.
  assert (followed mt mt1 []) as H1 by by apply followed_refl.
  apply andb_true_iff in Econd as [[_ Hle%Z.leb_le]%andb_true_iff _].
  assert (forall mt2 db2 hp2 d, followed mt1 mt2 d ->
    let r := iota_tangle_milestone_load_next db2 (solid_index mt2) (hash_pack_reset pack) in
    Forall (fun delta => Z.abs (total delta) < 2 ^ 64) (moved fuel env mt2 db2 hp2 r.2 mem) ->
    (if negb (bool_decide (r.1 = RC_OK)) then Some (r.1, mt2, db2, hp2) else solid_loop fuel env mt2 db2 hp2 r.2 mem) = Some (ret, mt', db', hp') ->
    followed mt mt' (d ++ moved fuel env mt2 db2 hp2 r.2 mem)) as Hreload.
  { intros mt2 db2 hp2 d H2 r Hd2 E2. apply (followed_trans _ _ _ [] _ H1). destruct H2 as [A1 A2 A3 A4]. eapply followed_trans; [by split|].
    destruct (bool_decide (r.1 = RC_OK)) eqn:Eok; cbn [negb] in E2; [|injection E2 as _ <- _ _; by apply followed_refl]. change (solid_index mt1) with (solid_index mt) in A2.
    change (latest_milestone_index mt1) with (latest_milestone_index mt) in A2, A3.
    eapply IH; [done|lia|lia|exact Hd2|exact E2|done]. }
  destruct (Z.eqb_spec (ms_index m) (u64 (solid_index mt1 + 1))) as [Hm|].
  - apply Forall_app in Hd as [Hd1 Hd2].
    destruct (iota_consensus_ledger_validator_update_snapshot _ _ _ _ _) as [[[[[ret2 lv] db2] hp2] has]|] eqn:Eu; [|done].
    pose proof (fun Hr' => confirm_followed _ mt1 _ _ _ _ _ _ _ _ Hl Hd1 Eu Hr') as Hc. cbv zeta in Hc.
    destruct (bool_decide_reflect (ret2 = RC_OK)) as [->|Hne]; cbn [negb] in E.
    2: { apply Some_inj in E. injection E as -> <- <- <-. apply (followed_trans _ _ _ [] _ H1). replace (milestone_delta _ _ _ _ _ ++ _) with (milestone_delta env (mt_lv mt1) db1 hp1 m) by (destruct has; symmetry; apply app_nil_r). by apply Hc. }
    specialize (Hc ltac:(done)). destruct has.
    2: { simplify_eq. apply (followed_trans _ _ _ [] _ H1). replace (milestone_delta _ _ _ _ _ ++ _) with (milestone_delta env (mt_lv mt1) db1 hp1 m) by (symmetry; apply app_nil_r). exact Hc. }
    apply (Hreload (put_lv (put_solid m lv) (put_lv lv mt1)) db2 hp2); [|exact Hd2|].
    + rewrite <- (app_nil_r (milestone_delta _ _ _ _ _)).
      eapply followed_trans; [exact Hc|]. pose proof (update_snapshot_solid _ _ _ _ _ _ _ _ _ _ Eu) as Hsi.
      apply (put_solid_followed (put_lv lv mt1) m); [apply Hc| | |done]; change (solid_index (put_lv lv mt1)) with (latest_solid_milestone_index lv);
        rewrite Hsi; [exact Hs|exact Hm].
    + by destruct (iota_tangle_milestone_load_next _ _ _).
  - apply (Hreload mt1 db1 hp1 []); [by apply followed_refl|exact Hd|]. by destruct (iota_tangle_milestone_load_next _ _ _).
Qed.
End Follow.

(** ** The signature of the coordinator *)

Section Signature.
Context {StC : Type} {SpC : Sponge StC} {LC : SpongeLaws StC} {SIC : SpongeInit StC}.

Definition leaf_digests (n : nat) (key : list Z) : list Z :=
  concat (map (fun f => hash_of init_state (frag f (chained init_state (key_blocks_num n) key))) (seq 0 n)).

Lemma digests_loop_signed stack signed key n : length (cs_signature stack) = NUM_TRITS_SIGNATURE -> trits_ok signed -> trits_ok key ->
  length key = (n * ISS_KEY_LENGTH)%nat -> forall txs i, (i + length txs <= n)%nat ->
  (forall k tx, txs !! k = Some tx -> transaction_signature tx = frag (i + k) (iss_signature init_state signed key).1) ->
  digests_loop stack init_state signed i txs =
    (concat (map (fun f => hash_of init_state (frag f (chained init_state (key_blocks_num n) key))) (seq i (length txs))), init_state).
Proof.
  intros Hst Hsg Hk Hl. pose proof (reset_init init_state) as Hr. induction txs as [|tx txs IH]; intros i Hn Hsig; [done|].
  cbn [digests_loop length seq map concat] in *. pose proof (Hsig 0%nat tx eq_refl) as Htx. rewrite Nat.add_0_r in Htx.
  assert (length key = (key_blocks_num n * HASH_LENGTH_TRIT)%nat) as Hl' by (by rewrite Hl, key_len).
  rewrite (signature_eq init_state signed key (key_blocks_num n)) in Htx by (done || apply init_ok).
  assert (length (transaction_signature tx) = NUM_TRITS_SIGNATURE) as Hlen.
  { rewrite Htx. unfold frag, buf_read. rewrite length_take, length_drop. cbn [fst].
    rewrite (length_concat_blocks _ HASH_LENGTH_TRIT).
    - rewrite <- Hl', Hl. unfold ISS_KEY_LENGTH, NUM_TRITS_SIGNATURE, HASH_LENGTH_TRIT, ISS_FRAGMENTS in *. nia.
    - intros j Hj. destruct (block_ok j (key_blocks_num n) key); [done|done|lia|]. apply chain_of_ok; [apply init_ok|done..]. }
  rewrite flex_trits_to_trits_ok by (done || (unfold NUM_TRITS_SIGNATURE; lia)). rewrite Htx. cbn [fst].
  rewrite (sig_digest_fragment init_state signed key n i init_ok Hr Hsg Hk Hl) by lia.
  rewrite IH; [done|lia|]. intros k tx' Hk'. rewrite (Hsig (S k) tx' Hk'). f_equal. lia.
Qed.

Lemma root_of_ok (s : StC) leaf siblings : sponge_ok s -> Forall trits_ok siblings -> forall i hash, trits_ok hash -> length hash = HASH_LENGTH_TRIT ->
  length (root_of s i leaf siblings hash) = HASH_LENGTH_TRIT.
Proof.
  intros Hs. induction 1 as [|sib siblings Hsib _ IH]; intros i hash Hh Hl; [done|]. cbn [root_of].
  assert (sponge_ok (if Nat.testbit leaf i then absorb (absorb s sib) hash else absorb (absorb s hash) sib)) as Ho
    by (case_match; auto using absorb_ok).
  apply IH; [by apply squeeze_trits|by apply squeeze_length_1].
Qed.
End Signature.

(** * Properties *)


(** C23: a missing milestone makes the loop run for ever.  When the milestone after the
    last solid one is not in the database, and all the later ones are there up to the
    latest milestone, known as solid, the loop asks for the next milestone with the same
    index again and again: it has no result, with any fuel, as long as nobody stores the
    missing milestone or stops the tracker. *)
Theorem milestone_gap_spins {DB : Type} {SQ : Sqlite DB} {L : SqliteLaws DB} {R : SqliteReliable DB}
    {St : Type} {Sp : Sponge St} {SI : SpongeInit St} env mem mt (db : DB) hp txs : contents db txs ->
  mt_running mt = true -> 0 <= solid_index mt < 2 ^ 31 -> latest_milestone_index mt < 2 ^ 63 ->
  (exists row, row ∈ iota_milestone_table (tables_of db) /\ solid_index mt < ms_id row) ->
  (forall row, row ∈ iota_milestone_table (tables_of db) -> solid_index mt < ms_id row ->
    solid_index mt + 1 < ms_id row <= latest_milestone_index mt /\
    exists tx, view_of txs (ms_hash (milestone_of row)) = Some tx /\ m_solid (metadata tx) = true) ->
  forall fuel, update_latest_solid_milestone fuel env mem mt db hp = None.
Proof.
  intros Hc Hrun Hs Hlat (row0 & Hin0 & Hlt0) Hrows fuel. pose proof (view_contents db txs Hc) as V.
  assert (forall mem', exists row, (row ∈ iota_milestone_table (tables_of db)) /\ solid_index mt < ms_id row /\
    iota_tangle_milestone_load_next db (solid_index mt) (DECLARE_PACK_SINGLE mem') = (RC_OK, mk_pack [milestone_of row] 1 1 false)) as Hnext.
  { intros mem'. destruct (load_next_spec db (solid_index mt) mem' Hs) as [[_ H]|H]; [|exact H]. apply H in Hin0. lia. }
  unfold update_latest_solid_milestone. destruct (Hnext mem) as (row & Hin & Hlt & ->). rewrite bool_decide_eq_true_2 by done. cbn [negb].
  clear Hin0 Hlt0. revert row Hin Hlt. induction fuel as [|fuel IH]; intros row Hin Hlt; [done|]. cbn [solid_loop num_loaded models nth].
  destruct (Hrows row Hin Hlt) as ([Hgap Hle] & tx & Hv & Hsol).
  assert (ms_index (milestone_of row) = ms_id row) as Hid.
  { unfold milestone_of. cbn. unfold column_int64. cbn. unfold uwrap. rewrite swrap_small, Z.mod_small; lia. }
  rewrite Hid, Hrun. replace (ms_id row <=? latest_milestone_index mt) with true by (symmetry; by apply Z.leb_le). cbn [Nat.eqb negb andb].
  rewrite (check_solidity_solid _ _ _ _ _ _ _ tx _ _ V Hv Hsol). rewrite bool_decide_eq_true_2 by done. cbn [negb]. rewrite put_ts_same.
  unfold uwrap. rewrite Z.mod_small by lia. replace (ms_id row =? solid_index mt + 1) with false by (symmetry; apply Z.eqb_neq; lia).
  change (hash_pack_reset (mk_pack [milestone_of row] 1 1 false)) with (DECLARE_PACK_SINGLE (milestone_of row)).
  destruct (Hnext (milestone_of row)) as (row' & Hin' & Hlt' & ->). rewrite bool_decide_eq_true_2 by done. cbn [negb]. by apply IH.
Qed.

(** C12: a milestone that the coordinator signed is valid.  The transactions before the
    one at the security level carry the fragments of a signature of its hash with a key,
    and that transaction the siblings of a Merkle tree in which the digests of the key are
    the leaf at the milestone's index; the address of the coordinator is the root. *)
Theorem coordinator_signature_valid {StC : Type} {SpC : Sponge StC} {LC : SpongeLaws StC} {SIC : SpongeInit StC}
    stack conf candidate bundle head key digests : let n := coordinator_security_level conf in
  length (cs_signature stack) = NUM_TRITS_SIGNATURE -> length (cs_siblings stack) = NUM_TRITS_SIGNATURE ->
  length (cs_trits stack) = 243%nat -> length (cs_signed stack) = 243%nat -> length (cs_coo stack) = 243%nat ->
  bundle !! n = Some head -> tx_sized head -> trits_of 243 (transaction_hash head) -> trits_ok (transaction_signature head) ->
  trits_ok key -> length key = (n * ISS_KEY_LENGTH)%nat ->
  let signed := normalize_hash_to_trits (transaction_hash head) (cs_signed stack) in
  (forall i tx, (i < n)%nat -> bundle !! i = Some tx ->
    transaction_signature tx = buf_read (i * ISS_KEY_LENGTH) ISS_KEY_LENGTH (iss_signature init_state signed key).1) ->
  iss_key_digest init_state key 0 (length key) = Some (digests, init_state) ->
  coordinator_address conf =
    (iss_merkle_root init_state (iss_address init_state (take (n * 243) digests)).1 (transaction_signature head)
       (coordinator_depth conf) (Z.to_nat (ms_index candidate))).1 ->
  validate_coordinator stack conf candidate bundle = Some true.
Proof.
  intros n H1 H2 H3 H4 H5 Hh Hsz [Hhl Hht] Hst Hk Hl signed Hsig Hd Hroot. pose proof (reset_init init_state) as Hr. unfold validate_coordinator.
  fold n. rewrite Hh. assert (length (transaction_signature head) = NUM_TRITS_SIGNATURE) as Hs by (unfold tx_sized in Hsz; by destruct_and! Hsz).
  rewrite flex_trits_to_trits_ok by (done || (unfold NUM_TRITS_SIGNATURE; lia)).
  assert (normalize_flex_hash_to_trits (cs_trits stack) (transaction_hash head) (cs_signed stack) = signed) as ->.
  { unfold normalize_flex_hash_to_trits, normalize_flex_hash, signed, normalize_hash_to_trits.
    rewrite (flex_trits_to_trits_ok (cs_trits stack) 243 (transaction_hash head) H3 Hhl) by lia. cbn [snd]. reflexivity. }
  destruct (normalize_hash_to_trits_spec (transaction_hash head) (cs_signed stack) Hht H4) as (_ & Hsg & _).
  assert (length (take n bundle) = n) as Hln by (rewrite length_take; apply lookup_lt_Some in Hh; lia).
  rewrite (digests_loop_signed stack signed key n H1 Hsg Hk Hl (take n bundle) 0); [|by rewrite Hln|].
  2: { intros k tx Hkt. apply lookup_take_Some in Hkt as [Hkt Hlt]. by apply Hsig. }
  rewrite Hln. destruct (key_digest_in_place init_state n key init_ok Hr Hk Hl) as (mem & E & _ & Ht).
  rewrite Hd in E. injection E as <-. assert (trits_ok (take (n * HASH_LENGTH_TRIT) digests)) as Hdt.
  { rewrite Ht. apply Forall_concat, List.Forall_map, List.Forall_forall. intros f _. apply hash_of_ok; [apply init_ok|].
    apply Forall_take, Forall_drop. apply (chained_ok init_state); [apply init_ok|done|by rewrite Hl, key_len]. }
  rewrite <- Ht. change HASH_LENGTH_TRIT with 243%nat in *.
  assert (forall d, iss_address init_state d = (hash_of init_state d, init_state)) as Ha by (intros d; by apply hash_step_eq).
  rewrite Ha in Hroot |- *. cbn [fst] in Hroot. unfold iss_merkle_root in *. rewrite merkle_root_loop_eq in Hroot |- * by done. cbn [fst] in Hroot.
  set (root := root_of _ _ _ _ _) in *. assert (length root = 243%nat) as Hrl.
  { apply (root_of_ok init_state); [apply init_ok| |by apply hash_of_ok; [apply init_ok|]|by apply length_hash_of; [apply init_ok|]].
    apply List.Forall_map, List.Forall_forall. intros j _. unfold block, buf_read. by apply Forall_take, Forall_drop. }
  rewrite Hroot. clearbody root. rewrite (flex_trits_from_trits_ok (cs_coo stack) 243 root H5 Hrl) by lia.
  unfold memeq. by rewrite bool_decide_eq_true_2.
Qed.

(** ** Examples: the first transfer of the ledger's example as a milestone *)


Definition sample_transfer : list iota_transaction_t := Ledger.Sample.transfer 10 Ledger.Sample.address_a Ledger.Sample.address_b.

Definition sample_milestones (index : Z) : memory_db :=
  (storage_milestone_store (mk_memory_db (mk_tables (map row_of sample_transfer) [] []) None)
     (mk_milestone index (Ledger.Sample.numbered 10))).2.

Definition sample_tracker (latest : Z) : milestone_tracker_t :=
  mk_mt true (mk_coordinator (Ledger.Sample.numbered 30) 20 1000 2 4) 4 latest (Ledger.Sample.numbered 10) Ledger.Sample.lv
    (iota_consensus_transaction_solidifier_init Ledger.Sample.genesis (requester_init 10) (snapshots_provider Ledger.Sample.lv) (tips_cache_init 10))
    [].

Definition no_milestone : iota_milestone_t := mk_milestone 0 (replicate 243 0).

Lemma sample_moved : Forall (fun delta => Z.abs (total delta) < 2 ^ 64)
  (all_moved (Sp := Iss.ToySponge.sponge) 3 Ledger.Sample.env (sample_tracker 6) (sample_milestones 6) [] no_milestone).
Proof. closed_decide. Qed.


(** Milestone 7 without milestone 6. *)
Definition solid_link : iota_transaction_t := link (letter 1) (letter 3) 0 0 (letter 0).
Definition gap_links : list iota_transaction_t := [put_metadata SOLID 0 true 0 solid_link].
Definition gap_db : memory_db :=
  (storage_milestone_store (mk_memory_db (mk_tables (map row_of gap_links) [] []) None) (mk_milestone 7 (letter 1))).2.

Lemma gap_contents : contents gap_db gap_links.
Proof.
  split.
  - vm_compute. reflexivity.
  - constructor; [|constructor]. pose proof (link_storable (letter 1) (letter 3) 0 0 (letter 0) eq_refl eq_refl eq_refl
      ltac:(lia) ltac:(lia)) as [H1 H2 H3 H4]. split; [done|done| |done]. cbn. rewrite !Forall_cons_iff in *. split_and!; try apply H3; lia.
  - apply (bool_decide_unpack _). vm_compute. exact I.
Qed.

Lemma milestone_gap_spins_witness :
  update_latest_solid_milestone (Sp := Iss.ToySponge.sponge) 1000 Ledger.Sample.env no_milestone (sample_tracker 7) gap_db [] = None.
Proof.
  refine (milestone_gap_spins Ledger.Sample.env no_milestone (sample_tracker 7) gap_db [] gap_links gap_contents eq_refl
    ltac:(cbn; lia) ltac:(cbn; lia) _ _ 1000).
  - exists (mk_ms_row 7 (letter 1) SqlNull). split; [left|cbn; lia].
  - intros row Hin _. apply list.elem_of_cons in Hin as [->|Hin]; [|by apply not_elem_of_nil in Hin]. split; [split; [reflexivity|vm_compute; discriminate]|].
    exists (put_metadata SOLID 0 true 0 solid_link). split; [vm_compute; reflexivity|reflexivity].
Defined.

(** A milestone at security level 1, on a tree of depth 2. *)
Definition coo_key : list Z := replicate ISS_KEY_LENGTH 1.
Definition coo_stack : coordinator_stack :=
  let trits := replicate NUM_TRITS_SIGNATURE 7 in mk_coo_stack trits (replicate 243 7) (replicate 243 7) trits (replicate 243 7).
Definition coo_head : iota_transaction_t := Bundle.Sample.tx_of (replicate 243 1) (replicate NUM_TRITS_SIGNATURE (-1)) 0 1 1.
Definition coo_signed : list Z := normalize_hash_to_trits (transaction_hash coo_head) (cs_signed coo_stack).
Definition coo_tx : iota_transaction_t :=
  Bundle.Sample.tx_of (replicate 243 1) (iss_signature (Sp := ToySponge.sponge) ToySponge.zero coo_signed coo_key).1 0 0 1.
Definition coo_digests : list Z :=
  match iss_key_digest (Sp := ToySponge.sponge) ToySponge.zero coo_key 0 (length coo_key) with Some (digests, _) => digests | None => [] end.
Definition coo_conf : coordinator_conf :=
  mk_coordinator
    (iss_merkle_root (Sp := ToySponge.sponge) ToySponge.zero
       (iss_address (Sp := ToySponge.sponge) ToySponge.zero (take (1 * 243) coo_digests)).1 (transaction_signature coo_head) 2 6).1
    2 1000 1 4.

Lemma coordinator_signature_valid_witness :
  validate_coordinator (SpC := ToySponge.sponge) coo_stack coo_conf (mk_milestone 6 (replicate 243 0)) [coo_tx; coo_head] = Some true.
Proof.
  apply (coordinator_signature_valid coo_stack coo_conf (mk_milestone 6 (replicate 243 0)) [coo_tx; coo_head] coo_head coo_key coo_digests);
    try (vm_compute; reflexivity); try closed_decide.
  - intros i tx Hi. assert (i = 0%nat) as -> by (cbn in Hi; lia). intros [= <-]. vm_compute. reflexivity.
Defined.
