(* ===== verification/LocalSnapshots.v ===== *)
(** * Local snapshots

    [ciri/consensus/snapshot/snapshots_service.c] and
    [local_snapshots/local_snapshots_manager.c]: the initial snapshot is moved forward to a
    milestone by replaying the deltas of the milestones, the solid entry points of the new
    snapshot are collected, it is written to files and the pruning is told. *)
From S2P Require Import Prelude Errors TritLong Sponge Sign Transaction Bundle Containers StateDelta Snapshot.
From S2P Require Import Statements Sqlite Tangle Traversal Ledger SpentAddresses Caches Pruning Solidifier Milestone.

Definition SNAPSHOT_SERVICE_SOLID_ENTRY_POINT_MAX_DEPTH : Z := 500.
Definition SNAPSHOT_SERVICE_MAX_NUM_MILESTONES_TO_CALC : Z := 500.

(** The part of the configuration that is used besides that of the snapshots. *)
Record local_snapshots_conf := mk_ls_conf {
  ls_conf : snapshot_conf; pruning_is_enabled : bool; transactions_growth_threshold : Z; min_depth : Z
}.

(** Fuel of the loops and what the uninitialised buffers hold. *)
Record snap_env := mk_snap_env {
  sv_fuel : nat; sv_resize : nat; sv_hash : hash_t; sv_tx : iota_transaction_t; sv_milestone : iota_milestone_t
}.

Section Service.
Context {DB : Type} {SQ : Sqlite DB}.
Implicit Types (db : DB) (hp : heap) (hash : hash_t) (env : snap_env) (seps : hash_map Z).

Definition latest_index (p : snapshots_provider_t) : Z := sm_index (sn_metadata (latest_snapshot p)).
Definition initial_index (p : snapshots_provider_t) : Z := sm_index (sn_metadata (initial_snapshot p)).

Definition iota_snapshots_service_determine_new_entry_point (conf : local_snapshots_conf) (p : snapshots_provider_t) db
    (entry_point : iota_stor_pack_t iota_milestone_t) : retcode_t * iota_stor_pack_t iota_milestone_t :=
  if latest_index p <=? min_depth conf then (RC_SNAPSHOT_SERVICE_NOT_ENOUGH_DEPTH, entry_point) else
  let index := u64 (latest_index p - min_depth conf) in
  if index <=? initial_index p then (RC_SNAPSHOT_SERVICE_MILESTONE_TOO_OLD, entry_point) else
  let index := if SNAPSHOT_SERVICE_MAX_NUM_MILESTONES_TO_CALC <? u64 (index - initial_index p)
               then u64 (initial_index p + SNAPSHOT_SERVICE_MAX_NUM_MILESTONES_TO_CALC) else index in
  let '(err, entry_point) := iota_tangle_milestone_load_by_index db (u64 (index - 1)) entry_point in
  if negb (bool_decide (err = RC_OK)) then (err, entry_point) else
  if (num_loaded entry_point =? 0)%nat then (RC_SNAPSHOT_SERVICE_MILESTONE_NOT_LOADED, entry_point) else (RC_OK, entry_point).

Definition iota_snapshots_service_generate_snapshot env (p : snapshots_provider_t) db hp (target_milestone : iota_milestone_t)
    (snapshot : snapshot_t) : retcode_t * snapshot_t * heap :=
  let '(ret, snapshot, hp) :=
    if ms_index target_milestone <=? initial_index p then (RC_SNAPSHOT_SERVICE_MILESTONE_TOO_OLD, snapshot, hp)
    else iota_snapshot_copy hp (initial_snapshot p) snapshot in
  if negb (bool_decide (ret = RC_OK)) then (ret, snapshot, hp) else
  iota_milestone_service_replay_milestones (sv_milestone env) db hp snapshot (ms_index target_milestone).

(** ** Solid entry points *)

(** The data is [is_orphan]; the map does not change during the traversal. *)
Definition check_transaction_is_not_orphan_do_func env (target_milestone_timestamp : Z) seps : tangle_traversal_functor DB bool :=
  fun db hp hash pack is_orphan _ _ =>
    let tx := single_tx pack (sv_tx env) in
    if (num_loaded pack =? 0)%nat || negb (transaction_snapshot_index tx =? 0) then Some (mk_result RC_OK db hp is_orphan false false) else
    if hash_map_contains seps hash then Some (mk_result RC_OK db hp false true true) else
    if (u64 (target_milestone_timestamp * 1000) <? transaction_attachment_timestamp tx) ||
       (target_milestone_timestamp <? transaction_timestamp tx)
    then Some (mk_result RC_OK db hp false true true) else Some (mk_result RC_OK db hp is_orphan true false).

(** The loop over the approvers, the last one first.  Whatever goes wrong ends it. *)
Fixpoint orphan_loop env db hp (target_milestone_timestamp : Z) hash (min_snapshot_index : Z) (approvers : list hash_t)
    (is_orphan : bool) seps : option (hash_map Z * heap) :=
  match approvers with
  | [] => Some (seps, hp)
  | approver :: approvers =>
      match tangle_traversal_dfs_to_future (sv_fuel env) (sv_resize env) (sv_hash env) (sv_tx env) db hp
              (check_transaction_is_not_orphan_do_func env target_milestone_timestamp seps) approver [] is_orphan with
      | None => None
      | Some r =>
          if negb (bool_decide (t_ret r = RC_OK)) then Some (seps, t_heap r) else
          let '(ret, seps, hp) := if negb (t_data r) then hash_map_add (t_heap r) seps hash min_snapshot_index
                                  else (RC_OK, seps, t_heap r) in
          if negb (bool_decide (ret = RC_OK)) then Some (seps, hp)
          else orphan_loop env db hp target_milestone_timestamp hash min_snapshot_index approvers (t_data r) seps
      end
  end.

Definition iota_snapshots_service_add_entry_point_if_not_orphan env db hp (target_milestone_timestamp : Z) hash
    (min_snapshot_index : Z) seps : option (retcode_t * hash_map Z * heap) :=
  let '(ret, pack, hp) := hash_pack_init hp 8 (sv_hash env) in
  if negb (bool_decide (ret = RC_OK)) then Some (ret, seps, hp) else
  match iota_tangle_transaction_load_hashes_of_approvers (sv_resize env) (sv_hash env) hp db hash pack 0 with
  | None => None
  | Some (ret, pack, hp) =>
      if negb (bool_decide (ret = RC_OK)) then Some (RC_OK, seps, hp) else
      match orphan_loop env db hp target_milestone_timestamp hash min_snapshot_index (rev (take (num_loaded pack) (models pack))) true seps with
      | None => None
      | Some (seps, hp) => Some (RC_OK, seps, hp)
      end
  end.

(** The data is the map of solid entry points. *)
Definition find_solid_entry_points_and_update_do_func env (target_milestone_index target_milestone_timestamp min_snapshot_index : Z)
    : tangle_traversal_functor DB (hash_map Z) :=
  fun db hp hash pack seps _ _ =>
    if (num_loaded pack =? 0)%nat then Some (mk_result RC_OK db hp seps false false) else
    let current_snapshot_index := transaction_snapshot_index (single_tx pack (sv_tx env)) in
    let '(ret, seps, hp) := if target_milestone_index <? current_snapshot_index then hash_map_add hp seps hash current_snapshot_index
                            else (RC_OK, seps, hp) in
    if negb (bool_decide (ret = RC_OK)) then Some (mk_result ret db hp seps false false) else
    if min_snapshot_index <=? current_snapshot_index then
      match iota_snapshots_service_add_entry_point_if_not_orphan env db hp target_milestone_timestamp hash min_snapshot_index seps with
      | None => None
      | Some (ret, seps, hp) => Some (mk_result ret db hp seps true (negb (bool_decide (ret = RC_OK))))
      end
    else Some (mk_result RC_OK db hp seps false false).

Definition iota_snapshots_service_find_solid_entry_points_and_update env (genesis_hash : hash_t) db hp
    (target_milestone_index target_milestone_timestamp : Z) hash (min_snapshot_index : Z) seps
    : option (retcode_t * hash_map Z * heap) :=
  match tangle_traversal_dfs_to_past (sv_fuel env) (sv_tx env) db hp
          (find_solid_entry_points_and_update_do_func env target_milestone_index target_milestone_timestamp min_snapshot_index)
          hash genesis_hash [] seps with
  | None => None
  | Some r => Some (t_ret r, t_data r, t_heap r)
  end.

(** [HASH_ITER] over the copy of the entry points of the initial snapshot. *)
Fixpoint old_entry_points_loop env (genesis_hash : hash_t) db hp (target_index target_timestamp : Z) (old : hash_map Z) seps
    : option (retcode_t * hash_map Z * heap) :=
  match old with
  | [] => Some (RC_OK, seps, hp)
  | (hash, value) :: old =>
      if negb (memeq FLEX_TRIT_SIZE_243 hash genesis_hash) && (u64 (target_index - value) <? SNAPSHOT_SERVICE_SOLID_ENTRY_POINT_MAX_DEPTH) then
        match iota_snapshots_service_add_entry_point_if_not_orphan env db hp target_timestamp hash value seps with
        | None => None
        | Some (ret, seps, hp) =>
            if negb (bool_decide (ret = RC_OK)) then Some (ret, seps, hp)
            else old_entry_points_loop env genesis_hash db hp target_index target_timestamp old seps
        end
      else old_entry_points_loop env genesis_hash db hp target_index target_timestamp old seps
  end.

(** The result of the copy is ignored. *)
Definition iota_snapshots_service_update_old_solid_entry_points env (genesis_hash : hash_t) db hp (snapshot : snapshot_t)
    (target_milestone : iota_milestone_t) seps : option (retcode_t * hash_map Z * heap) :=
  let '(_, old, hp) := hash_map_copy hp (sm_solid_entry_points (sn_metadata snapshot)) [] in
  let '(ret, pack) := iota_tangle_transaction_load db TRANSACTION_FIELD_HASH (ms_hash target_milestone) (DECLARE_PACK_SINGLE (sv_tx env)) in
  if (num_loaded pack =? 0)%nat then Some (RC_SNAPSHOT_MISSING_MILESTONE_TRANSACTION, seps, hp) else
  old_entry_points_loop env genesis_hash db hp (ms_index target_milestone) (transaction_timestamp (single_tx pack (sv_tx env))) old seps.

(** The loop of [collect_new_solid_entry_points] from [prev_milestone] on, whose index is
    [index] from the start; [None]: out of fuel. *)
Fixpoint new_entry_points_loop (fuel : nat) env (genesis_hash : hash_t) (initial : Z) db hp (target_index target_timestamp : Z)
    (prev_milestone : iota_milestone_t) (index : Z) seps : option (retcode_t * hash_map Z * heap) :=
  match fuel with
  | O => None
  | S fuel =>
      if (initial <? index) && (1 <? index) then
        match iota_snapshots_service_find_solid_entry_points_and_update env genesis_hash db hp target_index target_timestamp
                (ms_hash prev_milestone) (ms_index prev_milestone) seps with
        | None => None
        | Some (ret, seps, hp) =>
            if negb (bool_decide (ret = RC_OK)) then Some (ret, seps, hp) else
            let '(ret, seps, hp) := hash_map_add hp seps (ms_hash prev_milestone) (ms_index prev_milestone) in
            if negb (bool_decide (ret = RC_OK)) then Some (ret, seps, hp) else
            let '(ret, pack) := iota_tangle_milestone_load_by_index db (u64 (index - 1)) (DECLARE_PACK_SINGLE prev_milestone) in
            if negb (bool_decide (ret = RC_OK)) then Some (ret, seps, hp) else
            let prev_milestone := nth 0 (models pack) prev_milestone in
            if (num_loaded pack =? 0)%nat && (initial <? u64 (index - 1))
            then Some (RC_SNAPSHOT_MISSING_MILESTONE_TRANSACTION, seps, hp)
            else new_entry_points_loop fuel env genesis_hash initial db hp target_index target_timestamp prev_milestone
                   (ms_index prev_milestone) seps
        end
      else Some (RC_OK, seps, hp)
  end.

Definition iota_snapshots_service_collect_new_solid_entry_points env (genesis_hash : hash_t) db hp (initial_snapshot : snapshot_t)
    (target_milestone : iota_milestone_t) seps : option (retcode_t * hash_map Z * heap) :=
  let '(_, pack) := iota_tangle_transaction_load db TRANSACTION_FIELD_HASH (ms_hash target_milestone) (DECLARE_PACK_SINGLE (sv_tx env)) in
  if (num_loaded pack =? 0)%nat then Some (RC_SNAPSHOT_MISSING_MILESTONE_TRANSACTION, seps, hp) else
  new_entry_points_loop (sv_fuel env) env genesis_hash (sm_index (sn_metadata initial_snapshot)) db hp (ms_index target_milestone)
    (transaction_timestamp (single_tx pack (sv_tx env))) target_milestone (ms_index target_milestone) seps.

Definition put_entry_points seps (s : snapshot_t) : snapshot_t :=
  let m := sn_metadata s in put_snapshot_metadata (mk_snapshot_metadata (sm_hash m) (sm_index m) (sm_timestamp m) seps) s.

(** What follows [cleanup] is done after an error as well. *)
Definition iota_snapshots_service_update_solid_entry_points env (genesis_hash : hash_t) db hp (p : snapshots_provider_t)
    (snapshot : snapshot_t) (target_milestone : iota_milestone_t) : option (retcode_t * snapshot_t * heap) :=
  let cleanup (r : retcode_t * hash_map Z * heap) :=
    let '(ret, seps, hp) := r in
    let '(_, copy, hp) := hash_map_copy hp seps [] in
    Some (ret, put_entry_points copy snapshot, hp) in
  let '(ret, seps, hp) := hash_map_add hp [] genesis_hash (ms_index target_milestone) in
  if negb (bool_decide (ret = RC_OK)) then cleanup (ret, seps, hp) else
  match iota_snapshots_service_update_old_solid_entry_points env genesis_hash db hp (initial_snapshot p) target_milestone seps with
  | None => None
  | Some (ret, seps, hp) =>
      if negb (bool_decide (ret = RC_OK)) then cleanup (ret, seps, hp) else
      match iota_snapshots_service_collect_new_solid_entry_points env genesis_hash db hp (initial_snapshot p) target_milestone seps with
      | None => None
      | Some r => cleanup r
      end
  end.

Definition iota_snapshots_service_generate_snapshot_metadata env (genesis_hash : hash_t) db hp (p : snapshots_provider_t)
    (target_milestone : iota_milestone_t) (snapshot : snapshot_t) : option (retcode_t * snapshot_t * heap) :=
  let m := sn_metadata snapshot in
  let snapshot := put_snapshot_metadata (mk_snapshot_metadata (ms_hash target_milestone) (ms_index target_milestone) (sm_timestamp m)
                    (sm_solid_entry_points m)) snapshot in
  let '(ret, pack) := iota_tangle_transaction_load db TRANSACTION_FIELD_HASH (ms_hash target_milestone) (DECLARE_PACK_SINGLE (sv_tx env)) in
  if negb (bool_decide (ret = RC_OK)) then Some (ret, snapshot, hp) else
  let m := sn_metadata snapshot in
  let snapshot := put_snapshot_metadata (mk_snapshot_metadata (sm_hash m) (sm_index m) (transaction_timestamp (single_tx pack (sv_tx env)))
                    (sm_solid_entry_points m)) snapshot in
  if u64 (latest_index p - ms_index target_milestone) <=? SNAPSHOT_SERVICE_SOLID_ENTRY_POINT_MAX_DEPTH
  then iota_snapshots_service_update_solid_entry_points env genesis_hash db hp p snapshot target_milestone
  else Some (RC_OK, snapshot, hp).

Definition iota_snapshots_service_persist_snapshot (alloc : bool) (conf : local_snapshots_conf) hp (fs : file_system)
    (p : snapshots_provider_t) (snapshot : snapshot_t) : retcode_t * snapshots_provider_t * file_system * heap :=
  let '(ret, fs) := iota_snapshots_provider_write_snapshot_to_file alloc fs snapshot (base_dir (ls_conf conf)) in
  if negb (bool_decide (ret = RC_OK)) then (ret, p, fs, hp) else
  let '(ret, initial, hp) := iota_snapshot_copy hp snapshot (initial_snapshot p) in
  (ret, mk_provider initial (latest_snapshot p), fs, hp).

(** [next] is the snapshot that is not initialised. *)
Definition iota_snapshots_service_take_snapshot env (alloc : bool) (conf : local_snapshots_conf) db hp (fs : file_system)
    (p : snapshots_provider_t) (ps : pruning_service_t) (next : snapshot_t)
    : option (retcode_t * snapshots_provider_t * pruning_service_t * file_system * heap) :=
  let '(ret, pack) := iota_snapshots_service_determine_new_entry_point conf p db (DECLARE_PACK_SINGLE (sv_milestone env)) in
  if negb (bool_decide (ret = RC_OK)) then Some (ret, p, ps, fs, hp) else
  let milestone := nth 0 (models pack) (sv_milestone env) in
  let '(ret, next) := iota_snapshot_reset next (ls_conf conf) in
  if negb (bool_decide (ret = RC_OK)) then Some (ret, p, ps, fs, hp) else
  let '(ret, next, hp) := iota_snapshots_service_generate_snapshot env p db hp milestone next in
  if negb (bool_decide (ret = RC_OK)) then Some (ret, p, ps, fs, hp) else
  if initial_index p <? sm_index (sn_metadata next) then
    match iota_snapshots_service_generate_snapshot_metadata env (Snapshot.genesis_hash (ls_conf conf)) db hp p milestone next with
    | None => None
    | Some (ret, next, hp) =>
        if negb (bool_decide (ret = RC_OK)) then Some (ret, p, ps, fs, hp) else
        let '(ps, hp) := if pruning_is_enabled conf then iota_local_snapshots_pruning_service_update_current_snapshot hp ps next
                         else (ps, hp) in
        let '(ret, p, fs, hp) := iota_snapshots_service_persist_snapshot alloc conf hp fs p next in
        Some (ret, p, ps, fs, hp)
    end
  else Some (RC_OK, p, ps, fs, hp).

(** ** The manager *)

(** [last] is [last_snapshot_transactions_count], [count] the uninitialised counter. *)
Definition iota_local_snapshots_manager_should_take_snapshot (conf : local_snapshots_conf) db (p : snapshots_provider_t)
    (last count : Z) : bool :=
  let '(ret, new_transactions_count) := iota_tangle_transaction_count db count in
  if negb (bool_decide (ret = RC_OK)) then false else
  let latest_to_initial_gap := u64 (latest_index p - initial_index p) in
  (SNAPSHOT_SERVICE_MAX_NUM_MILESTONES_TO_CALC <? latest_to_initial_gap) ||
  ((transactions_growth_threshold conf <=? u64 (new_transactions_count - last)) &&
   (u64 (2 * min_depth conf) <? latest_to_initial_gap)).

(** What the thread remembers from turn to turn. *)
Record manager_state := mk_manager {
  ma_provider : snapshots_provider_t; ma_ps : pruning_service_t; ma_fs : file_system;
  last_snapshot_transactions_count : Z; exponential_delay_factor : Z; skip_check : bool
}.

(** How a turn of the loop ends: at once, after a number of waits of so many milliseconds,
    or by leaving the loop. *)
Inductive manager_pause := Wait (delays : list Z) | Leave.

Definition LOCAL_SNAPSHOTS_RESCAN_INTERVAL_MS : Z := 10000.

(** A turn of [while (lsm->running)]; the delay is a 64-bit number. *)
Definition manager_turn env (alloc : bool) (conf : local_snapshots_conf) db hp (next : snapshot_t) (count : Z) (s : manager_state)
    : option (manager_state * manager_pause * heap) :=
  let finish (s : manager_state) (delays : list Z) hp :=
    if negb (iota_local_snapshots_manager_should_take_snapshot conf db (ma_provider s) (last_snapshot_transactions_count s) count)
    then Some (mk_manager (ma_provider s) (ma_ps s) (ma_fs s) (last_snapshot_transactions_count s) (exponential_delay_factor s) false,
               Wait (delays ++ [LOCAL_SNAPSHOTS_RESCAN_INTERVAL_MS]), hp)
    else Some (mk_manager (ma_provider s) (ma_ps s) (ma_fs s) (last_snapshot_transactions_count s) (exponential_delay_factor s) true,
               Wait delays, hp) in
  if skip_check s ||
     iota_local_snapshots_manager_should_take_snapshot conf db (ma_provider s) (last_snapshot_transactions_count s) count then
    match iota_snapshots_service_take_snapshot env alloc conf db hp (ma_fs s) (ma_provider s) (ma_ps s) next with
    | None => None
    | Some (err, p, ps, fs, hp) =>
        if bool_decide (err = RC_OK) then
          let '(ret, last) := iota_tangle_transaction_count db (last_snapshot_transactions_count s) in
          let s := mk_manager p ps fs last 1 (skip_check s) in
          if negb (bool_decide (ret = RC_OK)) then Some (s, Leave, hp) else finish s [] hp
        else
          let factor := u64 (exponential_delay_factor s * 2) in
          finish (mk_manager p ps fs (last_snapshot_transactions_count s) factor (skip_check s))
            [u64 (factor * LOCAL_SNAPSHOTS_RESCAN_INTERVAL_MS)] hp
    end
  else finish s [] hp.
End Service.

(** * Lemmas *)

(** ** Totals as sums of balances *)

Lemma zsum_perm l1 l2 : l1 ≡ₚ l2 -> zsum l1 = zsum l2.
Proof. unfold zsum. induction 1; cbn; lia. Qed.

Lemma zsum_map_add {A} (f g : A -> Z) l : zsum (map (fun x => f x + g x) l) = zsum (map f l) + zsum (map g l).
Proof. unfold zsum. induction l as [|x l IH]; [done|]. cbn. lia. Qed.

Lemma total_over_keys state keys : unique state -> NoDup keys -> state.*1 ⊆ keys -> total state = zsum (map (balance state) keys).
Proof.
  intros Hu Hk Hs. assert (exists rest, (keys ≡ₚ state.*1 ++ rest) /\ forall k, k ∈ rest -> k ∉ state.*1) as (rest & Hp & Hr).
  { pose proof (NoDup_submseteq state.*1 keys Hu Hs) as [rest Hp]%submseteq_Permutation. exists rest. split; [done|].
    intros k Hin Hk'. rewrite Hp in Hk. apply list.NoDup_app in Hk as (_ & H & _). by apply (H k). }
  pose proof (Permutation_map (balance state) Hp) as Hm. rewrite (zsum_perm _ _ Hm), map_app, zsum_app.
  assert (map (balance state) rest = map (fun _ => 0) rest) as ->.
  { apply map_ext_in. intros k Hin%list_elem_of_In. apply balance_not_in. auto. }
  assert (zsum (map (fun _ => 0) rest) = 0) as -> by (clear; unfold zsum; induction rest; cbn in *; lia).
  assert (map (balance state) state.*1 = state.*2) as ->; [|unfold total; lia].
  unfold unique in Hu. clear keys Hk Hs rest Hp Hr Hm. rewrite <- list_fmap_compose.
  apply map_ext_in. intros [k v] Hin%list_elem_of_In. cbn. by apply balance_elem.
Qed.

(** The sum of the balances that deltas move. *)
Definition sum_moved (ds : list state_delta_t) (k : hash_t) : Z := zsum (map (fun d => balance d k) ds).

Lemma sum_moved_cons d ds k : sum_moved (d :: ds) k = balance d k + sum_moved ds k.
Proof. done. Qed.

Lemma total_moved ds keys : NoDup keys -> Forall (fun d => unique d /\ d.*1 ⊆ keys /\ total d = 0) ds ->
  zsum (map (sum_moved ds) keys) = 0.
Proof.
  intros Hk. induction 1 as [|d ds (Hu & Hs & Ht) _ IH].
  - unfold sum_moved, zsum. clear. induction keys; cbn in *; lia.
  - change (sum_moved (d :: ds)) with (fun k => balance d k + sum_moved ds k). rewrite zsum_map_add, IH.
    rewrite <- (total_over_keys d keys) by done. lia.
Qed.

(** A ledger after deltas that add up to nothing and leave no balance negative. *)
Lemma ledger_after state ds state' : ledger_ok state -> unique state' -> balances_ok state'.*2 ->
  Forall (fun d => unique d /\ total d = 0) ds -> (forall k, 0 <= balance state k + sum_moved ds k) ->
  (forall k, balance state' k = i64 (balance state k + sum_moved ds k)) ->
  ledger_ok state' /\ forall k, balance state' k = balance state k + sum_moved ds k.
Proof.
  intros Hl Hu Hb Hds Hpos Hbal. set (keys := remove_dups (state.*1 ++ state'.*1 ++ concat (map (fun d : state_delta_t => d.*1) ds))).
  assert (NoDup keys) as Hk by apply NoDup_remove_dups.
  assert (forall l, l ⊆ state.*1 ++ state'.*1 ++ concat (map (fun d : state_delta_t => d.*1) ds) -> l ⊆ keys) as Hsub.
  { intros l H x Hx. unfold keys. rewrite elem_of_remove_dups. by apply H. }
  assert (zsum (map (fun k => balance state k + sum_moved ds k) keys) = IOTA_SUPPLY) as Hsum.
  { rewrite zsum_map_add. rewrite <- (total_over_keys state keys) by (apply Hl || done || (apply Hsub; set_solver)).
    rewrite total_moved; [rewrite (lo_supply _ Hl); lia|done|]. apply Forall_forall. intros d Hd. rewrite Forall_forall in Hds.
    destruct (Hds d Hd) as [H1 H2]. split_and!; [done| |done]. apply Hsub. intros x Hx. rewrite !list.elem_of_app. right; right.
    apply list_elem_of_In, in_concat. exists (d.*1). split; [|by apply list_elem_of_In].
    apply in_map_iff. exists d. split; [done|by apply list_elem_of_In]. }
  assert (forall k, balance state' k = balance state k + sum_moved ds k) as Hex.
  { intros k. rewrite Hbal. destruct (decide (k ∈ keys)) as [Hin|Hn].
    - apply i64_id. destruct (zsum_nonneg (map (fun k => balance state k + sum_moved ds k) keys)) as [_ Hle].
      { apply Forall_forall. intros v (x & -> & _)%list_elem_of_fmap. apply Hpos. }
      rewrite Hsum, Forall_forall in Hle. specialize (Hle (balance state k + sum_moved ds k)).
      specialize (Hpos k). unfold is_int64, INT64_MIN, INT64_MAX, IOTA_SUPPLY in *.
      assert (balance state k + sum_moved ds k <= 2779530283277761); [|lia]. apply Hle. apply list_elem_of_fmap. eauto.
    - assert (forall l, l ⊆ keys -> k ∉ l) as Hnk by (intros l H Hk'; apply Hn; by apply H).
      rewrite (balance_not_in state k) by (apply Hnk, Hsub; set_solver).
      assert (sum_moved ds k = 0) as ->; [|done].
      assert (Forall (fun d : state_delta_t => k ∉ d.*1) ds) as Hd.
      { apply Forall_forall. intros d Hd. apply Hnk, Hsub. intros x Hx. rewrite !list.elem_of_app. right; right.
        apply list_elem_of_In, in_concat. exists (d.*1). split; [|by apply list_elem_of_In].
        apply in_map_iff. exists d. split; [done|by apply list_elem_of_In]. }
      clear - Hd. induction Hd as [|d ds Hk _ IH]; [done|]. rewrite sum_moved_cons, IH, balance_not_in by done. lia. }
  split; [|done]. split; [done| |].
  - apply Forall_forall. intros v ([k w] & -> & Hin)%list_elem_of_fmap. cbn. rewrite <- (balance_elem state' k w) by done.
    rewrite Hex. apply Hpos.
  - rewrite (total_over_keys state' keys) by (done || (apply Hsub; set_solver)). rewrite <- Hsum. f_equal. by apply map_ext.
Qed.

(** ** Memory that lasts *)

Lemma set_add_lasts (set : hash243_set) hash : (hash243_set_add [] set hash).2 = [].
Proof. unfold hash243_set_add. by destruct (hash243_set_contains set hash). Qed.

Lemma hash_map_add_lasts {V} (m : hash_map V) h v ret m' hp' : hash_map_add [] m h v = (ret, m', hp') ->
  ret = RC_OK /\ hp' = [] /\ (unique m -> unique m').
Proof.
  rewrite hash_map_add_nil. intros [= <- <- <-]. split_and!; [done|done|]. intros Hu. destruct (HASH_FIND m h) eqn:E; [done|].
  by apply HASH_ADD_unique.
Qed.

Lemma push_all_lasts hashes : forall stack ret stack' hp', push_all [] stack hashes = (ret, stack', hp') -> hp' = [].
Proof.
  induction hashes as [|h hashes IH]; intros stack ret stack' hp' E; cbn [push_all] in E; [by injection E as <- <- <-|].
  cbn [hash243_stack_push malloc negb] in E. rewrite bool_decide_eq_true_2 in E by done. eapply IH, E.
Qed.

Lemma load_resizing_lasts fuel mem load : forall res pack r p hp,
  load_resizing fuel mem load [] res pack = Some (r, p, hp) -> hp = [].
Proof.
  induction fuel as [|fuel IH]; intros res pack r p hp E; [done|]. cbn [load_resizing] in E.
  destruct (_ && _); [|by injection E as <- <- <-]. rewrite hash_pack_resize_nil in E.
  rewrite (bool_decide_eq_true_2 (RC_OK = RC_OK)) in E by done. destruct (load _) as [res1 pack1]. eapply IH, E.
Qed.

Lemma load_all_lasts fuel mem load pack r p hp : load_all fuel mem load [] pack = Some (r, p, hp) -> hp = [].
Proof. unfold load_all. destruct (load pack). apply load_resizing_lasts. Qed.

Section Lasts.
Context {DB : Type} {SQ : Sqlite DB} {C : Type} (func : tangle_traversal_functor DB C).
Context (Hfunc : forall db hash pack data branch stop r, func db [] hash pack data branch stop = Some r -> f_heap r = []).

Lemma past_loop_lasts fuel : forall db stack set tx data branch stop r,
  past_loop fuel func db [] stack set tx data branch stop = Some r -> t_heap r = [].
Proof.
  induction fuel as [|fuel IH]; intros db stack set tx data branch stop r E; [done|]. cbn [past_loop] in E.
  destruct (hash243_stack_peek stack); [|by injection E as <-]. destruct (negb (hash243_set_contains _ _)); [|eapply IH, E].
  destruct (iota_tangle_transaction_load_partial _ _ _ _) as [ret pack]. destruct (negb _); [by injection E as <-|].
  destruct (func _ _ _ _ _ _ _) as [r1|] eqn:Er; [|done]. apply Hfunc in Er. destruct (negb _); [by injection E as <-|].
  destruct (should_stop r1); [by injection E as <-|].
  assert (exists s', (if should_branch r1 then
      let '(ret, stack, hp) := hash243_stack_push (f_heap r1) (hash243_stack_pop stack) (transaction_branch (single_tx pack tx)) in
      if negb (bool_decide (ret = RC_OK)) then (ret, stack, hp) else hash243_stack_push hp stack (transaction_trunk (single_tx pack tx))
    else (RC_OK, hash243_stack_pop stack, f_heap r1)) = (RC_OK, s', [])) as [s' Hs'].
  { rewrite Er. destruct (should_branch r1); [|by eexists]. cbn [hash243_stack_push malloc negb].
    rewrite (bool_decide_eq_true_2 (RC_OK = RC_OK)) by done. cbn [negb hash243_stack_push malloc]. by eexists. }
  rewrite Hs' in E. rewrite (bool_decide_eq_true_2 (RC_OK = RC_OK)) in E by done. cbn [negb] in E.
  pose proof (set_add_lasts set h) as Ha. destruct (hash243_set_add [] set h) as [[ret2 an2] hp2]. cbn [snd] in Ha. subst hp2.
  destruct (negb _); [by injection E as <-|]. eapply IH, E.
Qed.

Lemma dfs_to_past_lasts fuel mem db entry genesis init data r :
  tangle_traversal_dfs_to_past fuel mem db [] func entry genesis init data = Some r -> t_heap r = [].
Proof.
  unfold tangle_traversal_dfs_to_past. cbn [hash243_stack_push malloc negb]. rewrite (bool_decide_eq_true_2 (RC_OK = RC_OK)) by done.
  cbn [negb]. pose proof (set_add_lasts init genesis) as Ha. destruct (hash243_set_add [] init genesis) as [[ret2 an2] hp2].
  cbn [snd] in Ha. subst hp2. destruct (negb _); [by intros [= <-]|]. apply past_loop_lasts.
Qed.

Lemma future_loop_lasts fuel resize mem : forall db stack set pack tx data branch stop r,
  future_loop fuel resize mem func db [] stack set pack tx data branch stop = Some r -> t_heap r = [].
Proof.
  induction fuel as [|fuel IH]; intros db stack set pack tx data branch stop r E; [done|]. cbn [future_loop] in E.
  destruct (hash243_stack_peek stack); [|by injection E as <-]. destruct (negb (hash243_set_contains _ _)); [|eapply IH, E].
  destruct (iota_tangle_transaction_load_partial _ _ _ _) as [ret p]. destruct (negb _); [by injection E as <-|].
  destruct (func _ _ _ _ _ _ _) as [r1|] eqn:Er; [|done]. apply Hfunc in Er. destruct (negb _); [by injection E as <-|].
  rewrite Er in E. pose proof (set_add_lasts set h) as Ha. destruct (hash243_set_add [] set h) as [[ret2 an2] hp2]. cbn [snd] in Ha.
  subst hp2. destruct (negb _); [by injection E as <-|]. destruct (should_stop r1); [by injection E as <-|].
  destruct (should_branch r1); [|eapply IH, E].
  destruct (iota_tangle_transaction_load_hashes_of_approvers _ _ _ _ _ _ _) as [[[ret3 pack3] hp3]|] eqn:El; [|done].
  unfold iota_tangle_transaction_load_hashes_of_approvers in El. apply load_all_lasts in El. subst hp3. destruct (negb _); [by injection E as <-|].
  destruct (push_all _ _ _) as [[ret4 stack4] hp4] eqn:Ep. apply push_all_lasts in Ep. subst hp4.
  destruct (negb _); [by injection E as <-|]. eapply IH, E.
Qed.

Lemma dfs_to_future_lasts fuel resize mem tx db entry init data r :
  tangle_traversal_dfs_to_future fuel resize mem tx db [] func entry init data = Some r -> t_heap r = [].
Proof.
  unfold tangle_traversal_dfs_to_future. cbn [hash243_stack_push malloc negb]. rewrite (bool_decide_eq_true_2 (RC_OK = RC_OK)) by done.
  cbn [negb]. rewrite hash_pack_init_nil. rewrite (bool_decide_eq_true_2 (RC_OK = RC_OK)) by done. cbn [negb]. apply future_loop_lasts.
Qed.
End Lasts.

(** ** What the collection of entry points keeps

    The keys of the map stay unique, and memory lasts. *)

Lemma hash_map_add_unique {V} hp (m : hash_map V) h v ret m' hp' : unique m -> hash_map_add hp m h v = (ret, m', hp') -> unique m'.
Proof.
  unfold hash_map_add. intros Hu E. destruct (HASH_FIND m h) eqn:Ef; [by injection E as <- <- <-|].
  destruct (malloc hp) as [[] hp1]; cbn in E; injection E as <- <- <-; [by apply HASH_ADD_unique|done].
Qed.

Section EntryPoints.
Context {DB : Type} {SQ : Sqlite DB}.
Implicit Types (db : DB) (env : snap_env) (seps : hash_map Z).

(** A result with a map and a heap, after [seps] and [hp]. *)
Definition kept seps (hp : heap) (r : hash_map Z * heap) : Prop := (unique seps -> unique r.1) /\ (hp = [] -> r.2 = []).

Lemma kept_trans seps hp r1 r2 : kept seps hp r1 -> kept r1.1 r1.2 r2 -> kept seps hp r2.
Proof. unfold kept. tauto. Qed.

Lemma hash_map_add_kept hp seps h v ret seps' hp' : hash_map_add hp seps h v = (ret, seps', hp') -> kept seps hp (seps', hp').
Proof.
  intros E. split; cbn [fst snd]; [intros Hu; by eapply hash_map_add_unique|]. intros ->. by apply hash_map_add_lasts in E as (_ & ? & _).
Qed.

Lemma check_orphan_lasts env timestamp seps db hash pack data branch stop r :
  check_transaction_is_not_orphan_do_func env timestamp seps db [] hash pack data branch stop = Some r -> f_heap r = [].
Proof. unfold check_transaction_is_not_orphan_do_func. intros E. by repeat (case_match; simplify_eq/=). Qed.

Lemma orphan_loop_kept env db timestamp hash index approvers : forall hp is_orphan seps r,
  orphan_loop env db hp timestamp hash index approvers is_orphan seps = Some r -> kept seps hp r.
Proof.
  induction approvers as [|a approvers IH]; intros hp is_orphan seps r E; cbn [orphan_loop] in E; [by injection E as <-|].
  destruct (tangle_traversal_dfs_to_future _ _ _ _ _ _ _ _ _ _) as [t|] eqn:Et; [|done].
  assert (hp = [] -> t_heap t = []) as Hh.
  { intros ->. eapply dfs_to_future_lasts; [|exact Et]. intros *. apply check_orphan_lasts. }
  destruct (negb _); [injection E as <-; by split|].
  destruct (if negb (t_data t) then _ else _) as [[ret seps1] hp1] eqn:Ea.
  assert (kept seps hp (seps1, hp1)) as H1.
  { destruct (negb (t_data t)); [|injection Ea as _ <- <-; by split].
    apply hash_map_add_kept in Ea as [A1 A2]. split; [done|]. intros Hn. apply A2. auto. }
  clear Ea. destruct (negb _); [by injection E as <-|]. eapply kept_trans; [exact H1|]. eapply IH, E.
Qed.

Lemma add_entry_point_kept env db hp timestamp hash index seps ret seps' hp' :
  iota_snapshots_service_add_entry_point_if_not_orphan env db hp timestamp hash index seps = Some (ret, seps', hp') -> kept seps hp (seps', hp').
Proof.
  unfold iota_snapshots_service_add_entry_point_if_not_orphan. intros E.
  destruct (hash_pack_init hp 8 (sv_hash env)) as [[ret1 pack] hp1] eqn:Ei.
  assert (hp = [] -> hp1 = []) as H1 by (intros ->; rewrite hash_pack_init_nil in Ei; by injection Ei as _ _ <-).
  destruct (negb _); [injection E as _ <- <-; by split|].
  destruct (iota_tangle_transaction_load_hashes_of_approvers _ _ _ _ _ _ _) as [[[ret2 pack2] hp2]|] eqn:El; [|done].
  assert (hp = [] -> hp2 = []) as H2.
  { intros Hn. rewrite (H1 Hn) in El. unfold iota_tangle_transaction_load_hashes_of_approvers in El. by apply load_all_lasts in El. }
  destruct (negb _); [injection E as _ <- <-; by split|].
  destruct (orphan_loop _ _ _ _ _ _ _ _ _) as [[seps3 hp3]|] eqn:Eo; [|done]. injection E as _ <- <-.
  apply orphan_loop_kept in Eo as [A1 A2]. split; [done|]. cbn in *. auto.
Qed.

Lemma find_do_kept env index timestamp min db hp hash pack seps branch stop r :
  find_solid_entry_points_and_update_do_func env index timestamp min db hp hash pack seps branch stop = Some r ->
  kept seps hp (f_data r, f_heap r).
Proof.
  unfold find_solid_entry_points_and_update_do_func. intros E. destruct (num_loaded pack =? 0)%nat; [by injection E as <-|].
  destruct (if index <? _ then _ else _) as [[ret seps1] hp1] eqn:Ea.
  assert (kept seps hp (seps1, hp1)) as H1.
  { destruct (index <? _); [by apply hash_map_add_kept in Ea|injection Ea as _ <- <-; by split]. }
  destruct (negb _); [by injection E as <-|]. destruct (min <=? _); [|by injection E as <-].
  destruct (iota_snapshots_service_add_entry_point_if_not_orphan _ _ _ _ _ _ _) as [[[ret2 seps2] hp2]|] eqn:Eo; [|done].
  injection E as <-. eapply kept_trans; [exact H1|]. by eapply add_entry_point_kept.
Qed.

Lemma find_solid_kept env genesis db hp index timestamp hash min seps ret seps' hp' :
  iota_snapshots_service_find_solid_entry_points_and_update env genesis db hp index timestamp hash min seps = Some (ret, seps', hp') ->
  kept seps hp (seps', hp').
Proof.
  unfold iota_snapshots_service_find_solid_entry_points_and_update. intros E.
  destruct (tangle_traversal_dfs_to_past _ _ _ _ _ _ _ _ _) as [r|] eqn:Et; [|done]. injection E as _ <- <-. split; cbn [fst snd].
  - intros Hu. eapply (dfs_to_past_keeps _ (fun seps => unique seps)); [|exact Hu|exact Et].
    intros * Hp Er. by apply find_do_kept in Er as [H _]; apply H.
  - intros ->. eapply dfs_to_past_lasts; [|exact Et]. intros * Er. by apply find_do_kept in Er as [_ H]; apply H.
Qed.

Lemma old_entry_points_kept env genesis db index timestamp old : forall hp seps ret seps' hp',
  old_entry_points_loop env genesis db hp index timestamp old seps = Some (ret, seps', hp') -> kept seps hp (seps', hp').
Proof.
  induction old as [|[h v] old IH]; intros hp seps ret seps' hp' E; cbn [old_entry_points_loop] in E; [by injection E as _ <- <-|].
  destruct (_ && _); [|eapply IH, E].
  destruct (iota_snapshots_service_add_entry_point_if_not_orphan _ _ _ _ _ _ _) as [[[ret1 seps1] hp1]|] eqn:Ea; [|done].
  apply add_entry_point_kept in Ea. destruct (negb _); [by injection E as _ <- <-|]. eapply kept_trans; [exact Ea|]. eapply IH, E.
Qed.

Lemma new_entry_points_kept env genesis initial db index timestamp fuel : forall hp prev i seps ret seps' hp',
  new_entry_points_loop fuel env genesis initial db hp index timestamp prev i seps = Some (ret, seps', hp') -> kept seps hp (seps', hp').
Proof.
  induction fuel as [|fuel IH]; intros hp prev i seps ret seps' hp' E; [done|]. cbn [new_entry_points_loop] in E.
  destruct (_ && _); [|by injection E as _ <- <-].
  destruct (iota_snapshots_service_find_solid_entry_points_and_update _ _ _ _ _ _ _ _ _) as [[[ret1 seps1] hp1]|] eqn:Ef; [|done].
  apply find_solid_kept in Ef. destruct (negb _); [by injection E as _ <- <-|].
  destruct (hash_map_add hp1 seps1 _ _) as [[ret2 seps2] hp2] eqn:Ea. apply hash_map_add_kept in Ea.
  pose proof (kept_trans _ _ _ _ Ef Ea) as H2. destruct (negb _); [by injection E as _ <- <-|].
  destruct (iota_tangle_milestone_load_by_index _ _ _) as [ret3 pack]. destruct (negb _); [by injection E as _ <- <-|].
  destruct (_ && _); [by injection E as _ <- <-|]. eapply kept_trans; [exact H2|]. eapply IH, E.
Qed.

Lemma hash_map_copy_kept hp seps ret seps' hp' : unique seps -> hash_map_copy hp seps [] = (ret, seps', hp') ->
  unique seps' /\ (hp = [] -> hp' = []).
Proof.
  intros Hu E. split.
  - apply hash_map_copy_spec in E; [|done]. destruct E as [[_ ->]|[_ [n ->]]]; [done|]. cbn [app].
    unfold unique in *. rewrite fmap_take. by eapply sublist_NoDup; [|apply sublist_take].
  - intros ->. rewrite hash_map_copy_nil in E by done. by injection E as _ _ <-.
Qed.
End EntryPoints.

(** ** Milestones and their deltas *)

Section Replay.
Context {DB : Type} {SQ : Sqlite DB} {L : SqliteLaws DB} {R : SqliteReliable DB}.
Implicit Types (db : DB) (ds : list state_delta_t).

Definition rows_of_index db (index : Z) : list ms_row :=
  List.filter (fun m => sql_eq (SqlInt (ms_id m)) (SqlInt index)) (iota_milestone_table (tables_of db)).

(** The milestone of [index] with its hash and what it moves; without a delta it moves nothing. *)
Definition milestone_stored db (index : Z) (hash : hash_t) (delta : state_delta_t) : Prop :=
  length hash = 243%nat /\ unique delta /\ balances_ok delta.*2 /\ addresses_ok delta /\ exists row, rows_of_index db index = [row] /\
  ms_id row = index /\ ms_hash_column row = strip_zeros hash /\
  ms_delta row = match delta with [] => SqlNull | _ => SqlBlob (concat (map entry_bytes delta)) end.

Lemma load_index_spec db index hash delta mem : 0 <= index < 2 ^ 31 -> milestone_stored db index hash delta ->
  iota_tangle_milestone_load_by_index db index (DECLARE_PACK_SINGLE mem) = (RC_OK, mk_pack [mk_milestone index hash] 1 1 false).
Proof.
  intros Hi (Hl & _ & _ & _ & row & Hr & Hid & Hh & _).
  assert (int_value index = SqlInt index) as Ev by (unfold int_value; by rewrite swrap_small by lia).
  unfold iota_tangle_milestone_load_by_index, storage_milestone_load_by_index. rewrite Ev.
  rewrite (bind_load_one db milestone_select_by_index [SqlInt index] mem select_milestones_populate_from_row (ms_columns row) eq_refl).
  - unfold select_milestones_populate_from_row, ms_columns. f_equal. f_equal. f_equal. f_equal.
    + unfold column_int64. cbn [lookup list_lookup]. rewrite Hid. rewrite i64_id by (unfold is_int64, INT64_MIN, INT64_MAX; lia).
      apply uwrap_small. lia.
    + apply decompress_compress; [done|]. cbn [lookup list_lookup]. unfold column_compress. by rewrite Hh, take_ge by lia.
  - cbn [query]. unfold select_milestones. change (value_at [SqlInt index] 0) with (SqlInt index). fold (rows_of_index db index). by rewrite Hr.
Qed.

Lemma load_index_none db index mem : 0 <= index < 2 ^ 31 -> rows_of_index db index = [] ->
  iota_tangle_milestone_load_by_index db index (DECLARE_PACK_SINGLE mem) = (RC_OK, DECLARE_PACK_SINGLE mem).
Proof.
  intros Hi Hr. assert (int_value index = SqlInt index) as Ev by (unfold int_value; by rewrite swrap_small by lia).
  unfold iota_tangle_milestone_load_by_index, storage_milestone_load_by_index. rewrite Ev.
  apply (bind_load_none db milestone_select_by_index [SqlInt index] mem).
  cbn [query]. unfold select_milestones. change (value_at [SqlInt index] 0) with (SqlInt index). fold (rows_of_index db index). by rewrite Hr.
Qed.

Lemma load_delta_spec db index hash delta : 0 <= index < 2 ^ 31 -> milestone_stored db index hash delta ->
  iota_tangle_state_delta_load [] db index [] = (RC_OK, delta, []).
Proof.
  intros Hi (Hl & Hu & Hb & Ha & row & Hr & Hid & Hh & Hd).
  assert (int_value index = SqlInt index) as Ev by (unfold int_value; by rewrite swrap_small by lia).
  unfold iota_tangle_state_delta_load, storage_state_delta_load. rewrite Ev, bind_all_reliable. cbn [negb].
  pose proof (rows_reliable db state_delta_load [SqlInt index]) as H. eapply selects_one in H; [|done|].
  2: { cbn [query]. change (value_at [SqlInt index] 0) with (SqlInt index). fold (rows_of_index db index). rewrite Hr. reflexivity. }
  destruct (sqlite3_rows _ _ _) as [rows e]. cbn in H. subst rows. unfold column_blob. cbn [lookup list_lookup]. rewrite Hd.
  destruct delta as [|e0 delta]; [done|]. set (d := e0 :: delta) in *.
  assert (length (concat (map entry_bytes d)) = (length d * 251)%nat) as Hc.
  { clear - Ha. unfold addresses_ok in Ha. induction d as [|[h v] d IH]; [done|]. cbn in Ha.
    apply Forall_cons_iff in Ha as [Hh Ha]. cbn [map concat length]. rewrite length_app. unfold entry_bytes at 1.
    rewrite length_app, length_int64_bytes. cbn [fst]. rewrite Hh. unfold FLEX_TRIT_SIZE_243. specialize (IH Ha). lia. }
  unfold state_delta_deserialize. rewrite Hc. change (FLEX_TRIT_SIZE_243 + 8)%nat with 251%nat. rewrite Nat.div_mul by lia.
  apply (deserialize_loop_spec d [] []); done.
Qed.

Lemma i64_sum a b c : i64 (i64 (a + b) + c) = i64 (a + (b + c)).
Proof. rewrite swrap_add_l by lia. f_equal. lia. Qed.

(** The deltas of the milestones after [start], all of which are there. *)
Definition milestones_stored db (start : Z) ds : Prop :=
  forall i delta, ds !! i = Some delta -> exists hash, milestone_stored db (start + 1 + Z.of_nat i) hash delta.

Lemma milestones_stored_cons db start delta ds : milestones_stored db start (delta :: ds) ->
  (exists hash, milestone_stored db (start + 1) hash delta) /\ milestones_stored db (start + 1) ds.
Proof.
  intros H. split; [destruct (H 0%nat delta eq_refl) as [hash Hm]; exists hash; by rewrite Z.add_0_r in Hm|].
  intros i d Hi. destruct (H (S i) d Hi) as [hash Hm]. exists hash. by replace (start + 1 + 1 + Z.of_nat i) with (start + 1 + Z.of_nat (S i)) by lia.
Qed.

Definition moves (delta : state_delta_t) : bool := negb (state_delta_empty delta).

Lemma replay_loop_spec db ds : forall start n ins mem x merged applied, milestones_stored db start ds -> 0 <= start ->
  start + Z.of_nat (length ds) < 2 ^ 31 -> unique merged -> balances_ok merged.*2 ->
  exists merged' x' n' ins',
    replay_loop (length ds) db [] start (mk_pack [x] 1 n ins) mem merged applied =
      (RC_OK, merged', mk_pack [x'] 1 n' ins', applied || existsb moves ds, []) /\
    unique merged' /\ balances_ok merged'.*2 /\ (forall k, balance merged' k = i64 (balance merged k + sum_moved ds k)) /\
    (ds <> [] -> ms_index x' = start + Z.of_nat (length ds)).
Proof.
  induction ds as [|d ds IH]; intros start n ins mem x merged applied Hs H0 Hl Hu Hb; cbn [length replay_loop].
  { exists merged, x, n, ins. rewrite orb_false_r. split_and!; [done|done|done| |done]. intros k. unfold sum_moved, zsum. cbn.
    by apply balance_add_int64. }
  cbn [length] in Hl. apply milestones_stored_cons in Hs as [[hash Hm] Hs].
  rewrite (uwrap_small 64 (start + 1)) by lia. change (hash_pack_reset (mk_pack [x] 1 n ins)) with (DECLARE_PACK_SINGLE x).
  rewrite (load_index_spec db (start + 1) hash d) by (done || lia). rewrite (bool_decide_eq_true_2 (RC_OK = RC_OK)) by done.
  cbn [negb num_loaded Nat.eqb models nth ms_index]. rewrite (load_delta_spec db (start + 1) hash d) by (done || lia).
  rewrite (bool_decide_eq_true_2 (RC_OK = RC_OK)) by done. cbn [negb]. destruct Hm as (_ & Hud & Hbd & _).
  assert (forall merged1 applied1, unique merged1 -> balances_ok merged1.*2 ->
    (forall k, balance merged1 k = i64 (balance merged k + balance d k)) -> applied1 || existsb moves ds = applied || existsb moves (d :: ds) ->
    exists merged' x' n' ins',
      replay_loop (length ds) db [] (start + 1) (mk_pack [mk_milestone (start + 1) hash] 1 1 false) mem merged1 applied1 =
        (RC_OK, merged', mk_pack [x'] 1 n' ins', applied || existsb moves (d :: ds), []) /\
      unique merged' /\ balances_ok merged'.*2 /\ (forall k, balance merged' k = i64 (balance merged k + sum_moved (d :: ds) k)) /\
      (d :: ds <> [] -> ms_index x' = start + Z.of_nat (S (length ds)))) as Hnext.
  { intros merged1 applied1 Hu1 Hb1 Hbal1 Ha1.
    destruct (IH (start + 1) 1%nat false mem (mk_milestone (start + 1) hash) merged1 applied1) as (m' & x' & n' & i' & E & U & B & Bal & Hix);
      [done|lia|lia|done|done|].
    rewrite Ha1 in E. exists m', x', n', i'. split; [exact E|]. split_and!; [done|done| |].
    - intros k. rewrite Bal, Hbal1, sum_moved_cons. apply i64_sum.
    - intros _. destruct ds as [|d' ds]; [|rewrite Hix by done; cbn [length]; lia]. cbn in E. injection E as _ <- _ _ _. cbn. lia. }
  destruct (state_delta_empty d) eqn:Ee.
  - apply Hnext; [done|done| |].
    + intros k. unfold state_delta_empty, hash_map_size in Ee. destruct d as [|e d]; [|cbn [length] in Ee; apply Z.eqb_eq in Ee; lia].
      by apply balance_add_int64.
    + cbn [existsb]. unfold moves at 2. by rewrite Ee.
  - destruct (apply_patch_total d merged) as [merged1 E1]. rewrite E1. rewrite (bool_decide_eq_true_2 (RC_OK = RC_OK)) by done. cbn [negb].
    destruct (apply_patch_spec d [] merged RC_OK merged1 [] Hu Hb Hud Hbd E1) as (Hu1 & Hb1 & _ & Hok).
    apply Hnext; [done|done|apply (Hok eq_refl)|]. cbn [existsb]. unfold moves at 2. rewrite Ee. cbn [negb]. by rewrite !orb_true_r || by rewrite orb_true_r.
Qed.

(** Generating a snapshot for a milestone [length ds] after the initial one. *)
Lemma generate_snapshot_spec env (p : snapshots_provider_t) db hash ds next : ds <> [] ->
  milestones_stored db (initial_index p) ds -> 0 <= initial_index p -> initial_index p + Z.of_nat (length ds) < 2 ^ 31 ->
  ledger_ok (sn_state (initial_snapshot p)) -> unique (sm_solid_entry_points (sn_metadata (initial_snapshot p))) ->
  Forall (fun d => total d = 0) ds -> (forall k, 0 <= balance (sn_state (initial_snapshot p)) k + sum_moved ds k) ->
  exists snapshot, iota_snapshots_service_generate_snapshot env p db []
      (mk_milestone (initial_index p + Z.of_nat (length ds)) hash) next = (RC_OK, snapshot, []) /\
    ledger_ok (sn_state snapshot) /\
    (forall k, balance (sn_state snapshot) k = balance (sn_state (initial_snapshot p)) k + sum_moved ds k) /\
    sm_index (sn_metadata snapshot) = (if existsb moves ds then initial_index p + Z.of_nat (length ds) else initial_index p).
Proof.
  intros Hne Hs H0 Hl Hok Hseps Ht Hpos. unfold iota_snapshots_service_generate_snapshot. cbn [ms_index].
  assert (0 < Z.of_nat (length ds)) as Hlen by (destruct ds; [done|cbn [length]; lia]).
  replace (initial_index p + Z.of_nat (length ds) <=? initial_index p) with false by lia.
  rewrite snapshot_copy_nil by (done || apply Hok). rewrite (bool_decide_eq_true_2 (RC_OK = RC_OK)) by done. cbn [negb].
  unfold iota_milestone_service_replay_milestones. fold (initial_index p).
  replace (Z.to_nat (initial_index p + Z.of_nat (length ds) - initial_index p)) with (length ds) by lia.
  destruct (replay_loop_spec db ds (initial_index p) 0%nat false (sv_milestone env) (sv_milestone env) [] false Hs H0 Hl)
    as (merged & x & n & ins & E & Hu & Hb & Hbal & Hix); [constructor|constructor|].
  change (DECLARE_PACK_SINGLE (sv_milestone env)) with (mk_pack [sv_milestone env] 1 0 false). rewrite E.
  rewrite (bool_decide_eq_true_2 (RC_OK = RC_OK)) by done. cbn [negb orb].
  set (s0 := sn_state (initial_snapshot p)) in *. pose proof (balance_range s0 Hok) as [Hbs _].
  assert (forall state', unique state' -> balances_ok state'.*2 -> (forall k, balance state' k = i64 (balance s0 k + sum_moved ds k)) ->
    ledger_ok state' /\ forall k, balance state' k = balance s0 k + sum_moved ds k) as Hafter.
  { intros state' H1 H2 H3. apply ledger_after; try done. apply Forall_forall. intros d Hd. rewrite Forall_forall in Ht.
    split; [|auto]. apply list_elem_of_lookup in Hd as [i Hi]. by destruct (Hs i d Hi) as [h (_ & ? & _)]. }
  destruct (existsb moves ds) eqn:Em.
  - unfold iota_snapshot_apply_patch_no_lock. cbn [put_snapshot_metadata sn_state]. fold s0.
    destruct (apply_patch_total merged s0) as [state' E']. rewrite E'. eexists. split; [reflexivity|].
    destruct (apply_patch_spec merged [] s0 RC_OK state' [] (lo_unique _ Hok) Hbs Hu Hb E') as (Hu' & Hb' & _ & Hspec).
    destruct (Hafter state' Hu' Hb') as [A1 A2].
    { intros k. rewrite (proj1 (Hspec eq_refl)), Hbal. change (balance [] k) with 0.
      rewrite Z.add_0_l, Z.add_comm, swrap_add_l by lia. f_equal. lia. }
    split_and!; [exact A1|exact A2|]. cbn. by apply Hix.
  - exists (initial_snapshot p). split; [done|]. fold s0. assert (forall k, sum_moved ds k = 0) as Hz.
    { intros k. unfold sum_moved. clear - Em. induction ds as [|d ds IH]; [done|]. cbn [existsb] in Em. apply orb_false_iff in Em as [E1 E2].
      cbn [map]. change (zsum (?a :: ?l)) with (a + zsum l). rewrite IH by done. unfold moves, state_delta_empty, hash_map_size in E1.
      destruct d; [done|]. cbn [length] in E1. apply negb_false_iff, Z.eqb_eq in E1. lia. }
    split_and!; [done| |done]. intros k. rewrite Hz. lia.
Qed.
End Replay.

(** ** Taking a snapshot *)

Section Take.
Context {DB : Type} {SQ : Sqlite DB} {L : SqliteLaws DB} {R : SqliteReliable DB}.
Implicit Types (db : DB) (env : snap_env) (p : snapshots_provider_t) (ds : list state_delta_t).

(** The initial snapshot, and the deltas of all milestones after it up to the latest one. *)
Record replayable db p ds : Prop := {
  rp_ledger : ledger_ok (sn_state (initial_snapshot p));
  rp_entry_points : unique (sm_solid_entry_points (sn_metadata (initial_snapshot p)));
  rp_stored : milestones_stored db (initial_index p) ds;
  rp_range : 0 <= initial_index p /\ initial_index p + Z.of_nat (length ds) < 2 ^ 31;
  rp_latest : latest_index p <= initial_index p + Z.of_nat (length ds);
  rp_totals : Forall (fun d => total d = 0) ds;
  rp_positive n k : 0 <= balance (sn_state (initial_snapshot p)) k + sum_moved (take n ds) k
}.

Lemma load_index_any db index mem : 0 <= index < 2 ^ 31 -> exists x n ins,
  iota_tangle_milestone_load_by_index db index (DECLARE_PACK_SINGLE mem) = (RC_OK, mk_pack [x] 1 n ins) /\
  (n <> 0%nat -> ms_index x = index).
Proof.
  intros Hi. assert (int_value index = SqlInt index) as Ev by (unfold int_value; by rewrite swrap_small by lia).
  unfold iota_tangle_milestone_load_by_index, storage_milestone_load_by_index, bind_load. rewrite Ev, bind_all_reliable. cbn [negb].
  pose proof (rows_reliable db milestone_select_by_index [SqlInt index]) as (all & Hp & Hr). cbn [limit] in Hr.
  unfold load_gen. cbn [models capacity num_loaded DECLARE_PACK_SINGLE]. rewrite Hr.
  destruct (load_gen_single all mem 1 select_milestones_populate_from_row) as (x & n & ins & E & _).
  exists x, n, ins. unfold DECLARE_PACK_SINGLE in E. rewrite E. split; [done|]. intros Hn.
  destruct all as [|row all]; cbn in E; [by injection E as _ <- _|].
  assert (x = select_milestones_populate_from_row row mem) as ->.
  { destruct all; cbn in E; by injection E as <- _ _. }
  assert (row ∈ row :: all) as Hin by left. rewrite Hp in Hin. cbn [query] in Hin. unfold select_milestones in Hin.
  apply list_elem_of_fmap in Hin as (m & -> & Hin). apply list_elem_of_In, filter_In in Hin as [_ Hm].
  change (value_at [SqlInt index] 0) with (SqlInt index) in Hm. unfold sql_eq in Hm. apply andb_true_iff in Hm as [Hm%bool_decide_eq_true_1 _].
  injection Hm as Hm. cbn. unfold column_int64. cbn [lookup list_lookup]. rewrite Hm.
  rewrite i64_id by (unfold is_int64, INT64_MIN, INT64_MAX; lia). apply uwrap_small. lia.
Qed.

Lemma stored_prefix db start ds n : milestones_stored db start ds -> milestones_stored db start (take n ds).
Proof. intros H i d Hi. apply lookup_take_Some in Hi as [Hi _]. by apply H. Qed.

Lemma determine_spec conf db p ds mem ret pack : replayable db p ds -> 0 <= min_depth conf ->
  iota_snapshots_service_determine_new_entry_point conf p db (DECLARE_PACK_SINGLE mem) = (ret, pack) -> ret = RC_OK ->
  let m := nth 0 (models pack) mem in
  ms_index m = initial_index p \/
  exists n hash, m = mk_milestone (initial_index p + Z.of_nat n) hash /\ (0 < n <= length ds)%nat /\
    initial_index p + Z.of_nat n < latest_index p.
Proof.
  intros [_ _ Hs [H0 Hl] Hlat _ _] Hd E ->. unfold iota_snapshots_service_determine_new_entry_point, SNAPSHOT_SERVICE_MAX_NUM_MILESTONES_TO_CALC in E.
  destruct (Z.leb_spec (latest_index p) (min_depth conf)); [done|].
  rewrite (uwrap_small 64 (latest_index p - min_depth conf)) in E by lia.
  destruct (Z.leb_spec (latest_index p - min_depth conf) (initial_index p)); [done|].
  rewrite (uwrap_small 64 (latest_index p - min_depth conf - initial_index p)) in E by lia.
  rewrite (uwrap_small 64 (initial_index p + 500)) in E by lia.
  set (index := if 500 <? _ then _ else _) in E.
  assert (initial_index p < index <= latest_index p) as Hi by (subst index; destruct (Z.ltb_spec 500 (latest_index p - min_depth conf - initial_index p)); lia).
  rewrite (uwrap_small 64 (index - 1)) in E by lia. set (n := Z.to_nat (index - 1 - initial_index p)).
  assert (index - 1 = initial_index p + Z.of_nat n) as En by lia. rewrite En in E.
  destruct (decide (n = 0%nat)) as [Hz|Hz].
  - left. destruct (load_index_any db (initial_index p + Z.of_nat n) mem) as (x & c & ins & El & Hx); [lia|]. rewrite El in E.
    rewrite bool_decide_eq_true_2 in E by done. cbn [negb num_loaded] in E. destruct (Nat.eqb_spec c 0); [done|]. injection E as <-. cbn [models nth]. rewrite Hx by done. lia.
  - right. assert (is_Some (ds !! (n - 1)%nat)) as [d Hd'] by (apply lookup_lt_is_Some; lia).
    destruct (Hs _ _ Hd') as [hash Hm]. replace (initial_index p + 1 + Z.of_nat (n - 1)) with (initial_index p + Z.of_nat n) in Hm by lia.
    rewrite (load_index_spec db _ hash d) in E by (done || lia). rewrite bool_decide_eq_true_2 in E by done. cbn [negb num_loaded Nat.eqb] in E.
    injection E as <-. exists n, hash. split_and!; [done|lia|lia|lia].
Qed.

Lemma update_entry_points_kept env genesis db p snapshot target ret s' hp' :
  unique (sm_solid_entry_points (sn_metadata (initial_snapshot p))) ->
  iota_snapshots_service_update_solid_entry_points env genesis db [] p snapshot target = Some (ret, s', hp') ->
  hp' = [] /\ exists seps, unique seps /\ s' = put_entry_points seps snapshot.
Proof.
  intros Hp E. unfold iota_snapshots_service_update_solid_entry_points in E.
  assert (forall r seps hp, unique seps -> hp = [] ->
    (let '(ret, seps, hp) := (r, seps, hp) in let '(_, copy, hp) := hash_map_copy hp seps [] in
     Some (ret, put_entry_points copy snapshot, hp)) = Some (ret, s', hp') ->
    hp' = [] /\ exists seps, unique seps /\ s' = put_entry_points seps snapshot) as Hclean.
  { intros r seps hp Hu -> Ec. rewrite hash_map_copy_nil in Ec by done. injection Ec as _ <- <-. eauto. }
  destruct (hash_map_add [] [] genesis (ms_index target)) as [[ret1 seps1] hp1] eqn:Ea. apply hash_map_add_kept in Ea as [U1 N1].
  cbn [fst snd] in U1, N1. specialize (U1 ltac:(constructor)). specialize (N1 eq_refl). subst hp1.
  destruct (negb _); [by eapply Hclean|].
  destruct (iota_snapshots_service_update_old_solid_entry_points _ _ _ _ _ _ _) as [[[ret2 seps2] hp2]|] eqn:Eo; [|done].
  assert (unique seps2 /\ hp2 = []) as [U2 ->].
  { unfold iota_snapshots_service_update_old_solid_entry_points in Eo. rewrite hash_map_copy_nil in Eo by done.
    destruct (iota_tangle_transaction_load _ _ _ _) as [r pk]. destruct (num_loaded pk =? 0)%nat; [by injection Eo as _ <- <-|].
    apply old_entry_points_kept in Eo as [A1 A2]. cbn in A1, A2. auto. }
  destruct (negb _); [by eapply Hclean|].
  destruct (iota_snapshots_service_collect_new_solid_entry_points _ _ _ _ _ _ _) as [[[ret3 seps3] hp3]|] eqn:Ec; [|done].
  assert (unique seps3 /\ hp3 = []) as [U3 ->].
  { unfold iota_snapshots_service_collect_new_solid_entry_points in Ec.
    destruct (iota_tangle_transaction_load _ _ _ _) as [r pk]. destruct (num_loaded pk =? 0)%nat; [by injection Ec as _ <- <-|].
    apply new_entry_points_kept in Ec as [A1 A2]. cbn in A1, A2. auto. }
  by eapply Hclean.
Qed.

Lemma generate_metadata_kept env genesis db p target snapshot ret s' hp' :
  unique (sm_solid_entry_points (sn_metadata (initial_snapshot p))) -> unique (sm_solid_entry_points (sn_metadata snapshot)) ->
  iota_snapshots_service_generate_snapshot_metadata env genesis db [] p target snapshot = Some (ret, s', hp') ->
  hp' = [] /\ sn_state s' = sn_state snapshot /\ sm_index (sn_metadata s') = ms_index target /\
  unique (sm_solid_entry_points (sn_metadata s')).
Proof.
  intros Hp Hs E. unfold iota_snapshots_service_generate_snapshot_metadata in E.
  destruct (iota_tangle_transaction_load _ _ _ _) as [r pk]. destruct (negb _); [by injection E as _ <- <-|].
  destruct (_ <=? _); [|by injection E as _ <- <-].
  apply update_entry_points_kept in E as (-> & seps & Hu & ->); [|done]. done.
Qed.
End Take.

(** * Theorems *)

Lemma hash_map_keys_lasts {V} (m : hash_map V) : forall keys keys' hp', hash_map_keys [] m keys = (keys', hp') -> hp' = [].
Proof.
  induction m as [|[k v] m IH]; intros keys keys' hp' E; cbn [hash_map_keys] in E; [by injection E as _ <-|].
  pose proof (set_add_lasts keys k) as Ha. destruct (hash243_set_add [] keys k) as [[ret s] hp]. cbn [snd] in Ha. subst hp. eapply IH, E.
Qed.

Section Theorems.
Context {DB : Type} {SQ : Sqlite DB} {L : SqliteLaws DB} {R : SqliteReliable DB}.

(** C36: a local snapshot is the ledger of its milestone.  Whatever happens while it is
    taken, as long as memory lasts, the initial snapshot stays a ledger: its index only
    moves forward, never past the latest snapshot, and each of its balances is what it was,
    changed by what the milestones up to that index move.  When it has moved, the pruning
    has been told the same index. *)
Theorem take_snapshot_keeps_ledger env alloc conf (db : DB) fs p ps next ds ret p' ps' fs' hp' : replayable db p ds ->
  0 <= min_depth conf ->
  iota_snapshots_service_take_snapshot env alloc conf db [] fs p ps next = Some (ret, p', ps', fs', hp') ->
  ledger_ok (sn_state (initial_snapshot p')) /\ latest_snapshot p' = latest_snapshot p /\
  initial_index p <= initial_index p' <= Z.max (initial_index p) (latest_index p) /\
  (forall k, balance (sn_state (initial_snapshot p')) k =
    balance (sn_state (initial_snapshot p)) k + sum_moved (take (Z.to_nat (initial_index p' - initial_index p)) ds) k) /\
  (initial_index p' <> initial_index p -> ret = RC_OK /\
    (pruning_is_enabled conf = true -> last_snapshot_index_to_prune ps' = initial_index p')).
Proof.
  intros Hr Hd E. assert (forall r ps1 fs1 hp1, Some (r, p, ps1, fs1, hp1) = Some (ret, p', ps', fs', hp') ->
    ledger_ok (sn_state (initial_snapshot p')) /\ latest_snapshot p' = latest_snapshot p /\
    initial_index p <= initial_index p' <= Z.max (initial_index p) (latest_index p) /\
    (forall k, balance (sn_state (initial_snapshot p')) k =
      balance (sn_state (initial_snapshot p)) k + sum_moved (take (Z.to_nat (initial_index p' - initial_index p)) ds) k) /\
    (initial_index p' <> initial_index p -> ret = RC_OK /\
      (pruning_is_enabled conf = true -> last_snapshot_index_to_prune ps' = initial_index p'))) as Hsame.
  { intros r ps1 fs1 hp1 Es. injection Es as _ <- _ _ _. split_and!; [apply Hr|done|lia|lia| |done].
    intros k. rewrite Z.sub_diag. match goal with |- ?a = ?a + ?b => enough (b = 0) as -> by lia end. done. }
  unfold iota_snapshots_service_take_snapshot in E.
  destruct (iota_snapshots_service_determine_new_entry_point conf p db _) as [r0 pack] eqn:Ed.
  destruct (bool_decide_reflect (r0 = RC_OK)) as [->|]; cbn [negb] in E; [|eapply Hsame, E].
  unfold iota_snapshot_reset in E. rewrite (bool_decide_eq_true_2 (RC_OK = RC_OK)) in E by done. cbn [negb] in E.
  set (next1 := mk_snapshot _ _ _) in E. apply (determine_spec conf db p ds) in Ed; [|done..].
  set (m := nth 0 (models pack) (sv_milestone env)) in *.
  destruct Ed as [Em|(n & hash & Em & Hn & Hlt)].
  { unfold iota_snapshots_service_generate_snapshot in E. rewrite Em in E. rewrite Z.leb_refl in E.
    rewrite (bool_decide_eq_false_2 (RC_SNAPSHOT_SERVICE_MILESTONE_TOO_OLD = RC_OK)) in E by done. cbn [negb] in E.
    rewrite (bool_decide_eq_false_2 (RC_SNAPSHOT_SERVICE_MILESTONE_TOO_OLD = RC_OK)) in E by done. eapply Hsame, E. }
  pose proof Hr as [Hl Hu Hs [H0 Hlen] Hlat Ht Hp]. assert (length (take n ds) = n) as Htake by (rewrite length_take; lia).
  destruct (generate_snapshot_spec env p db hash (take n ds) next1) as (snapshot & Eg & Hok & Hbal & Hix);
    [intros En; rewrite En in Htake; cbn in Htake; lia|by apply stored_prefix|lia|lia|done|done|by apply Forall_take|apply Hp|].
  rewrite Htake in Eg, Hix. rewrite Em in E. rewrite Eg in E. rewrite (bool_decide_eq_true_2 (RC_OK = RC_OK)) in E by done. cbn [negb] in E.
  destruct (Z.ltb_spec (initial_index p) (sm_index (sn_metadata snapshot))) as [Hmoved|]; [|eapply Hsame, E].
  assert (unique (sm_solid_entry_points (sn_metadata snapshot))) as Hseps.
  { clear E. unfold iota_snapshots_service_generate_snapshot in Eg. destruct (_ <=? _); [done|]. rewrite snapshot_copy_nil in Eg by (done || apply Hl).
    rewrite (bool_decide_eq_true_2 (RC_OK = RC_OK)) in Eg by done. cbn [negb] in Eg. unfold iota_milestone_service_replay_milestones in Eg.
    destruct (replay_loop _ _ _ _ _ _ _ _) as [[[[r1 mg] pk] ap] h1]. destruct (negb _); [by injection Eg as _ <- _|].
    destruct ap; [|by injection Eg as <- _]. unfold iota_snapshot_apply_patch_no_lock in Eg.
    destruct (state_delta_apply_patch _ _ _) as [[r2 st] h2]. by injection Eg as _ <- _. }
  destruct (iota_snapshots_service_generate_snapshot_metadata _ _ _ _ _ _ _) as [[[r2 s2] hp2]|] eqn:Eg2; [|done].
  apply generate_metadata_kept in Eg2 as (-> & Hst & Hix2 & Hu2); [|done..]. cbn [ms_index] in Hix2.
  destruct (negb (bool_decide (r2 = RC_OK))); [eapply Hsame, E|].
  assert (exists ps2 : pruning_service_t, (if pruning_is_enabled conf then iota_local_snapshots_pruning_service_update_current_snapshot [] ps s2 else (ps, [] : heap)) =
    (ps2, [] : heap) /\ (pruning_is_enabled conf = true -> last_snapshot_index_to_prune ps2 = sm_index (sn_metadata s2))) as (ps2 & Eps & Hps).
  { destruct (pruning_is_enabled conf); [|by eexists]. unfold iota_local_snapshots_pruning_service_update_current_snapshot, iota_snapshot_solid_entry_points_set.
    destruct (hash_map_keys [] _ []) as [keys h] eqn:Ek. apply hash_map_keys_lasts in Ek as ->. by eexists. }
  rewrite Eps in E. unfold iota_snapshots_service_persist_snapshot in E.
  destruct (iota_snapshots_provider_write_snapshot_to_file _ _ _ _) as [r3 fs3].
  destruct (bool_decide_reflect (r3 = RC_OK)) as [->|]; cbn [negb] in E; [|eapply Hsame, E].
  rewrite snapshot_copy_nil in E by (done || (rewrite Hst; apply Hok)). injection E as <- <- <- _ _.
  unfold initial_index at 2 3 5 6. cbn [initial_snapshot latest_snapshot]. rewrite Hst, Hix2.
  split_and!; [done|done|lia|lia| |].
  - intros k. fold (initial_index p). replace (Z.to_nat (initial_index p + Z.of_nat n - initial_index p)) with n by lia. apply Hbal.
  - intros _. split; [done|]. intros He. unfold initial_index at 1. cbn [initial_snapshot]. rewrite Hix2. by rewrite Hps, Hix2.
Qed.

(** Collecting the new entry points goes back to the milestone of the initial snapshot and
    expects it in the database. *)
Lemma new_entry_points_need_initial env genesis (db : DB) initial index timestamp : 1 <= initial -> rows_of_index db initial = [] ->
  forall fuel hp prev i seps ret seps' hp', ms_index prev = i -> initial < i < 2 ^ 31 ->
  new_entry_points_loop fuel env genesis initial db hp index timestamp prev i seps = Some (ret, seps', hp') -> ret <> RC_OK.
Proof.
  intros Hi Hrow. induction fuel as [|fuel IH]; intros hp prev i seps ret seps' hp' Hp Hr E; [done|]. cbn [new_entry_points_loop] in E.
  replace ((initial <? i) && (1 <? i)) with true in E by lia.
  destruct (iota_snapshots_service_find_solid_entry_points_and_update _ _ _ _ _ _ _ _ _) as [[[r1 s1] h1]|]; [|done].
  destruct (bool_decide_reflect (r1 = RC_OK)) as [->|]; cbn [negb] in E; [|by injection E as <- _ _].
  destruct (hash_map_add h1 s1 _ _) as [[r2 s2] h2].
  destruct (bool_decide_reflect (r2 = RC_OK)) as [->|]; cbn [negb] in E; [|by injection E as <- _ _].
  rewrite (uwrap_small 64 (i - 1)) in E by lia. destruct (decide (i - 1 = initial)) as [Heq|Hne].
  - rewrite load_index_none in E by (lia || by rewrite Heq). rewrite (bool_decide_eq_true_2 (RC_OK = RC_OK)) in E by done.
    cbn [negb num_loaded Nat.eqb DECLARE_PACK_SINGLE models nth] in E. replace (initial <? i - 1) with false in E by lia. cbn [andb] in E.
    rewrite Hp in E. eapply IH; [exact Hp|exact Hr|exact E].
  - destruct (load_index_any db (i - 1) prev) as (x & n & ins & El & Hx); [lia|]. rewrite El in E.
    rewrite (bool_decide_eq_true_2 (RC_OK = RC_OK)) in E by done. cbn [negb num_loaded models nth] in E.
    replace (initial <? i - 1) with true in E by lia. rewrite andb_true_r in E. destruct (Nat.eqb_spec n 0); [by injection E as <- _ _|].
    eapply IH; [reflexivity| |exact E]. rewrite Hx by done. lia.
Qed.

(** C37: no local snapshot near the latest milestone can be taken while the database lacks the
    milestone of the initial snapshot, as it does when the node has just started from the
    built-in one: the loop that collects entry points reloads the first milestone after it
    for ever, and no amount of fuel ends it with a success. *)
Theorem snapshot_needs_initial_milestone env genesis (db : DB) hp p snapshot target : 1 <= initial_index p ->
  rows_of_index db (initial_index p) = [] -> initial_index p < ms_index target < 2 ^ 31 ->
  u64 (latest_index p - ms_index target) <= SNAPSHOT_SERVICE_SOLID_ENTRY_POINT_MAX_DEPTH ->
  forall fuel snapshot' hp',
    iota_snapshots_service_generate_snapshot_metadata (mk_snap_env fuel (sv_resize env) (sv_hash env) (sv_tx env) (sv_milestone env))
      genesis db hp p target snapshot <> Some (RC_OK, snapshot', hp').
Proof.
  intros Hi Hrow Ht Hdepth fuel snapshot' hp' E0.
  assert (exists ret, ret = RC_OK /\ iota_snapshots_service_generate_snapshot_metadata
    (mk_snap_env fuel (sv_resize env) (sv_hash env) (sv_tx env) (sv_milestone env)) genesis db hp p target snapshot =
    Some (ret, snapshot', hp')) as (ret & Hret & E) by eauto. clear E0. revert Hret. change (ret <> RC_OK). unfold iota_snapshots_service_generate_snapshot_metadata in E.
  destruct (iota_tangle_transaction_load _ _ _ _) as [r pk].
  destruct (bool_decide_reflect (r = RC_OK)) as [->|]; cbn [negb] in E; [|by injection E as <- _ _].
  replace (u64 (latest_index p - ms_index target) <=? SNAPSHOT_SERVICE_SOLID_ENTRY_POINT_MAX_DEPTH) with true in E by lia.
  unfold iota_snapshots_service_update_solid_entry_points in E.
  destruct (hash_map_add hp [] genesis (ms_index target)) as [[r1 s1] h1].
  destruct (bool_decide_reflect (r1 = RC_OK)) as [->|]; cbn [negb] in E.
  2: { destruct (hash_map_copy h1 s1 []) as [[? ?] ?]. by injection E as <- _ _. }
  destruct (iota_snapshots_service_update_old_solid_entry_points _ _ _ _ _ _ _) as [[[r2 s2] h2]|]; [|done].
  destruct (bool_decide_reflect (r2 = RC_OK)) as [->|]; cbn [negb] in E.
  2: { destruct (hash_map_copy h2 s2 []) as [[? ?] ?]. by injection E as <- _ _. }
  destruct (iota_snapshots_service_collect_new_solid_entry_points _ _ _ _ _ _ _) as [[[r3 s3] h3]|] eqn:Ec; [|done].
  assert (r3 <> RC_OK) as Hr3; [|destruct (hash_map_copy h3 s3 []) as [[? ?] ?]; by injection E as <- _ _].
  unfold iota_snapshots_service_collect_new_solid_entry_points in Ec.
  destruct (iota_tangle_transaction_load _ _ _ _) as [r4 pk4]. destruct (num_loaded pk4 =? 0)%nat; [by injection Ec as <- _ _|].
  eapply new_entry_points_need_initial in Ec; [exact Ec|exact Hi|exact Hrow|reflexivity|exact Ht].
Qed.
End Theorems.

(** ** Examples *)

Module SnapSample.
Definition milestone_hash (index : Z) : hash_t := Ledger.Sample.numbered index.

(** Six moves ten from [a] to [b], seven nothing, eight moves ten from [b] to [c]. *)
Definition ds : list state_delta_t :=
  [[(Ledger.Sample.address_a, -10); (Ledger.Sample.address_b, 10)]; [];
   [(Ledger.Sample.address_b, -10); (Ledger.Sample.address_c, 10)]].

(** The milestones after the first, each of which is the trunk of the next. *)
Definition milestone_tx (index : Z) : iota_transaction_t :=
  PruneSample.tx (milestone_hash index) (milestone_hash (index - 1)) Ledger.Sample.address_d 0 index.
Definition delta_value (delta : state_delta_t) : sql_value :=
  match delta with [] => SqlNull | _ => SqlBlob (concat (map entry_bytes delta)) end.
Definition row (index : Z) (delta : state_delta_t) : ms_row :=
  mk_ms_row index (strip_zeros (take 243 (milestone_hash index))) (delta_value delta).

(** With or without the milestone of the initial snapshot. *)
Definition db (initial : bool) : memory_db :=
  mk_memory_db (mk_tables (map (fun i => row_of (milestone_tx i)) [5; 6; 7; 8])
    ((if initial then [row 5 []] else []) ++ [row 6 (nth 0 ds []); row 7 (nth 1 ds []); row 8 (nth 2 ds [])]) []) None.

Definition p : snapshots_provider_t := mk_provider Ledger.Sample.snapshot
  (mk_snapshot sample_conf Ledger.Sample.ledger (mk_snapshot_metadata (milestone_hash 8) 8 1556000000 [])).
Definition conf : local_snapshots_conf := mk_ls_conf sample_conf true 0 0.
Definition env : snap_env := mk_snap_env 40 10 (replicate 243 0) sample_tx (mk_milestone 0 (replicate 243 0)).
Definition fs (outcome : file_outcome) : file_system := mk_fs ∅ (fun _ => outcome).
Definition ps : pruning_service_t := mk_ps Ledger.Sample.genesis 4 5 [] (tips_cache_init 5).
Definition next : snapshot_t := mk_snapshot sample_conf [] (mk_snapshot_metadata [] 0 0 []).
End SnapSample.

Module SnapSampleFacts.
Import SnapSample.

Lemma deltas_stored initial : milestones_stored (db initial) 5 ds.
Proof.
  intros i delta Hi. exists (milestone_hash (6 + Z.of_nat i)).
  destruct i as [|[|[|i]]]; cbn in Hi; [injection Hi as <-..|done];
    (split_and!; [reflexivity|closed_decide|apply (bool_decide_unpack _); vm_compute; exact I|
      apply (bool_decide_unpack _); vm_compute; exact I|]);
    destruct initial; eexists; (split; [vm_compute; reflexivity|split_and!; reflexivity]).
Qed.

Definition moved_keys : list hash_t := [Ledger.Sample.address_a; Ledger.Sample.address_b; Ledger.Sample.address_c].

(** No balance ever goes below zero. *)
Lemma never_negative n k : 0 <= balance Ledger.Sample.ledger k + sum_moved (take n ds) k.
Proof.
  assert (0 <= balance Ledger.Sample.ledger k) as H0.
  { apply balance_range. exact Ledger.Sample.ledger_holds. }
  destruct (decide (k ∈ moved_keys)) as [Hk|Hk].
  - unfold moved_keys in Hk. rewrite !list.elem_of_cons in Hk.
    destruct Hk as [->|[->|[->|Hk]]]; [..|by apply not_elem_of_nil in Hk];
      (destruct n as [|[|[|n]]]; [..|rewrite take_ge by (cbn; lia)]; vm_compute; discriminate).
  - assert (Forall (fun d : state_delta_t => k ∉ d.*1) ds) as Hd.
    { unfold moved_keys in Hk. rewrite !list.not_elem_of_cons in Hk. destruct Hk as (Ha & Hb & Hc & _).
      repeat constructor; cbn; rewrite ?list.not_elem_of_cons; repeat split; auto; apply not_elem_of_nil. }
    replace (sum_moved (take n ds) k) with 0; [lia|]. symmetry. pose proof (Forall_take _ n _ Hd) as Hd'. clear Hd.
    induction Hd' as [|d l Hk' _ IH]; [reflexivity|]. rewrite sum_moved_cons, IH, balance_not_in by exact Hk'. reflexivity.
Qed.

Lemma sample_replayable : replayable (db true) p ds.
Proof.
  split.
  - exact Ledger.Sample.ledger_holds.
  - constructor.
  - exact (deltas_stored true).
  - cbn. lia.
  - vm_compute. discriminate.
  - repeat constructor.
  - exact never_negative.
Qed.

(** The snapshot moves to milestone seven. *)
Lemma sample_taken : exists p' ps' fs',
  iota_snapshots_service_take_snapshot env true conf (db true) [] (fs FileOk) p ps next = Some (RC_OK, p', ps', fs', []) /\
  initial_index p' = 7.
Proof. eexists _, _, _. split; vm_compute; reflexivity. Qed.
End SnapSampleFacts.

(** When the snapshot cannot be written, the initial snapshot stays, but the pruning has been
    told the new index: it is free to delete milestones that the initial snapshot on the disk
    still needs. *)
Example failed_write_prunes_ahead :
  exists ps' fs', iota_snapshots_service_take_snapshot SnapSample.env true SnapSample.conf (SnapSample.db true) []
    (SnapSample.fs OpenFailed) SnapSample.p SnapSample.ps SnapSample.next =
      Some (RC_UTILS_FAILED_TO_OPEN_FILE, SnapSample.p, ps', fs', []) /\
  last_snapshot_index_to_prune ps' = 7 /\ initial_index SnapSample.p = 5.
Proof. eexists _, _. split; [vm_compute; reflexivity|split; vm_compute; reflexivity]. Qed.

(** The sample: [b] owns what six moved, and what eight moves has not been taken in. *)
Lemma take_snapshot_keeps_ledger_witness :
  exists p' ps' fs',
    iota_snapshots_service_take_snapshot SnapSample.env true SnapSample.conf (SnapSample.db true) [] (SnapSample.fs FileOk)
      SnapSample.p SnapSample.ps SnapSample.next = Some (RC_OK, p', ps', fs', []) /\
    ledger_ok (sn_state (initial_snapshot p')) /\ balance (sn_state (initial_snapshot p')) Ledger.Sample.address_b = 10 /\
    balance (sn_state (initial_snapshot p')) Ledger.Sample.address_c = 0 /\ last_snapshot_index_to_prune ps' = 7.
Proof.
  destruct SnapSampleFacts.sample_taken as (p' & ps' & fs' & E & Hi). exists p', ps', fs'. split; [exact E|].
  destruct (take_snapshot_keeps_ledger SnapSample.env true SnapSample.conf (SnapSample.db true) (SnapSample.fs FileOk) SnapSample.p
    SnapSample.ps SnapSample.next SnapSample.ds RC_OK p' ps' fs' [] SnapSampleFacts.sample_replayable ltac:(cbn; lia) E)
    as (Hok & _ & _ & Hb & Hp).
  split; [exact Hok|]. rewrite !Hb, Hi in *. split_and!; [vm_compute; reflexivity..|].
  apply Hp; [vm_compute; discriminate|reflexivity].
Defined.

(** Without the row of milestone five, no fuel is enough for the snapshot of seven. *)
Lemma snapshot_needs_initial_milestone_witness :
  rows_of_index (SnapSample.db false) (initial_index SnapSample.p) = [] /\ forall fuel snapshot hp,
  iota_snapshots_service_generate_snapshot_metadata (mk_snap_env fuel 10 (replicate 243 0) sample_tx (mk_milestone 0 (replicate 243 0)))
    Ledger.Sample.genesis (SnapSample.db false) [] SnapSample.p (mk_milestone 7 (SnapSample.milestone_hash 7)) SnapSample.next <>
  Some (RC_OK, snapshot, hp).
Proof.
  split; [vm_compute; reflexivity|]. intros fuel snapshot hp. apply (snapshot_needs_initial_milestone SnapSample.env Ledger.Sample.genesis (SnapSample.db false) [] SnapSample.p SnapSample.next
    (mk_milestone 7 (SnapSample.milestone_hash 7))).
  - vm_compute. discriminate.
  - vm_compute. reflexivity.
  - cbn. lia.
  - vm_compute. discriminate.
Defined.
