(* ===== verification/Rating.v ===== *)
(** * Cumulative weights

    [utils/containers/bitset.c], [utils/hash_indexed_map.c] and the rating of
    transactions in [ciri/consensus/tip_selection/cw_rating_calculator]: the weight of a
    transaction is the number of transactions that approve it, directly or not, with
    itself.  The calculator first loads the approvers of everything behind the entry
    point, then counts behind each transaction. *)
From S2P Require Import Prelude Errors TritLong Transaction Bundle Containers StateDelta Statements Sqlite Tangle Traversal.

(** ** Bit sets *)

(** The indexes are scratch fields of the C structure, which has 24 bytes. *)
Record bitset_t := mk_bitset {
  raw_bits : list Z; bitset_integer_index : Z; bitset_relative_index : Z; bitset_size : Z
}.
Definition sizeof_bitset : Z := 24.

(** [1ULL << n]: undefined from 64 on. *)
Definition shl_one (n : Z) : option Z := if n <? 64 then Some (Z.shiftl 1 n) else None.

Definition bistset_required_size (num_elements : Z) : Z := num_elements / 64 + 1.

Definition bitset_reset (bitset : bitset_t) : bitset_t :=
  if bitset_size bitset =? 0 then bitset else
  mk_bitset (replicate (Z.to_nat (bitset_size bitset)) 0 ++ drop (Z.to_nat (bitset_size bitset)) (raw_bits bitset))
    (bitset_integer_index bitset) (bitset_relative_index bitset) (bitset_size bitset).

(** [None]: undefined behaviour, the shift or an access outside of the array. *)
Definition bitset_is_set (bitset : bitset_t) (pos : Z) : option (bool * bitset_t) :=
  let integer_index := u32 (pos / (sizeof_bitset * 8)) in
  let relative_index := u32 (pos mod (sizeof_bitset * 8)) in
  match raw_bits bitset !! Z.to_nat integer_index, shl_one relative_index with
  | Some word, Some bit =>
      Some (negb (Z.land word bit =? 0), mk_bitset (raw_bits bitset) integer_index relative_index (bitset_size bitset))
  | _, _ => None
  end.

Definition bitset_set_true (bitset : bitset_t) (pos : Z) : option bitset_t :=
  let integer_index := u32 (pos / (sizeof_bitset * 8)) in
  match raw_bits bitset !! Z.to_nat integer_index, shl_one pos with
  | Some word, Some bit =>
      Some (mk_bitset (<[Z.to_nat integer_index := Z.lor word bit]> (raw_bits bitset)) integer_index
              (bitset_relative_index bitset) (bitset_size bitset))
  | _, _ => None
  end.

(** ** Maps from hashes to their approvers *)

Record indexed_hash_set := mk_indexed { ihs_idx : Z; ihs_approvers : hash243_set }.
Abbreviation hash_to_indexed_hash_set_map_t := (hash_map indexed_hash_set).

Definition hash_to_indexed_hash_set_map_contains (map : hash_to_indexed_hash_set_map_t) (hash : hash_t) : bool :=
  bool_decide (is_Some (HASH_FIND map hash)).

Definition hash_to_indexed_hash_set_map_find (map : hash_to_indexed_hash_set_map_t) (hash : hash_t) : option indexed_hash_set :=
  HASH_FIND map hash.

Definition hash_to_indexed_hash_set_map_add_new_set (hp : heap) (map : hash_to_indexed_hash_set_map_t) (hash : hash_t) (index : Z)
    : retcode_t * hash_to_indexed_hash_set_map_t * heap :=
  let '(ok, hp) := malloc hp in
  if negb ok then (RC_OOM, map, hp) else (RC_OK, HASH_ADD map hash (mk_indexed index []), hp).

Definition hash_to_indexed_hash_set_map_free (map : hash_to_indexed_hash_set_map_t) : hash_to_indexed_hash_set_map_t := [].

(** A search ends, runs out of fuel, or runs into undefined behaviour. *)
Inductive outcome (A : Type) := Done (result : A) | OutOfFuel | Undefined.
Arguments Done {A}.
Arguments OutOfFuel {A}.
Arguments Undefined {A}.

Record cw_calc_result := mk_cw { cw_ratings : hash_map Z; tx_to_approvers : hash_to_indexed_hash_set_map_t }.

Section Rating.
Context {DB : Type} {SQ : Sqlite DB}.
Implicit Types (db : DB) (hp : heap) (stack : hash243_stack) (map : hash_to_indexed_hash_set_map_t).

(** [while (approvers_pack.num_loaded > 0)], for the entry of [hash]: [hashes] are the
    loaded ones from the last to the first. *)
Fixpoint push_approvers hp stack map (hash : hash_t) (hashes : list hash_t) : retcode_t * hash243_stack * hash_to_indexed_hash_set_map_t * heap :=
  match hashes with
  | [] => (RC_OK, stack, map, hp)
  | approver :: hashes =>
      let '(ret, stack, hp) := hash243_stack_push hp stack approver in
      if negb (bool_decide (ret = RC_OK)) then (ret, stack, map, hp) else
      match HASH_FIND map hash with
      | None => (ret, stack, map, hp)
      | Some curr_tx =>
          let '(ret, approvers, hp) := hash243_set_add hp (ihs_approvers curr_tx) approver in
          let map := set_value map hash (mk_indexed (ihs_idx curr_tx) approvers) in
          if negb (bool_decide (ret = RC_OK)) then (ret, stack, map, hp) else push_approvers hp stack map hash hashes
      end
  end.

(** The code, the map, [*subtangle_size] and the allocations; [resize] is the fuel of
    the loads, [fresh_hash] what new buffers hold. *)
Fixpoint dfs_from_db_loop (fuel resize : nat) (fresh_hash : hash_t) db hp stack map (subtangle_size : Z) (pack : iota_stor_pack_t hash_t)
    (subtangle_before_timestamp : Z) : option (retcode_t * hash_to_indexed_hash_set_map_t * Z * heap) :=
  match fuel with
  | O => None
  | S fuel =>
      match hash243_stack_peek stack with
      | None => Some (RC_OK, map, subtangle_size, hp)
      | Some curr_tx_hash =>
          if negb (hash_to_indexed_hash_set_map_contains map curr_tx_hash) then
            match iota_tangle_transaction_load_hashes_of_approvers resize fresh_hash hp db curr_tx_hash (hash_pack_reset pack)
                    subtangle_before_timestamp with
            | None => None
            | Some (ret, pack, hp) =>
                if negb (bool_decide (ret = RC_OK)) then Some (ret, map, subtangle_size, hp) else
                let '(ret, map, hp) := hash_to_indexed_hash_set_map_add_new_set hp map curr_tx_hash subtangle_size in
                let subtangle_size := u64 (subtangle_size + 1) in
                if negb (bool_decide (ret = RC_OK)) then Some (ret, map, subtangle_size, hp) else
                let '(ret, stack, map, hp) :=
                  push_approvers hp (hash243_stack_pop stack) map curr_tx_hash (rev (take (num_loaded pack) (models pack))) in
                if negb (bool_decide (ret = RC_OK)) then Some (ret, map, subtangle_size, hp) else
                dfs_from_db_loop fuel resize fresh_hash db hp stack map subtangle_size
                  (mk_pack (models pack) (capacity pack) 0 (insufficient_capacity pack)) subtangle_before_timestamp
            end
          else dfs_from_db_loop fuel resize fresh_hash db hp (hash243_stack_pop stack) map subtangle_size pack subtangle_before_timestamp
      end
  end.

Definition cw_rating_dfs_do_dfs_from_db (fuel resize : nat) (fresh_hash : hash_t) db hp (entry_point : hash_t) map
    (subtangle_before_timestamp : Z) : option (retcode_t * hash_to_indexed_hash_set_map_t * Z * heap) :=
  let '(ret, pack, hp) := hash_pack_init hp 10 fresh_hash in
  if negb (bool_decide (ret = RC_OK)) then Some (ret, map, 0, hp) else
  let '(ret, stack, hp) := hash243_stack_push hp [] entry_point in
  if negb (bool_decide (ret = RC_OK)) then Some (ret, map, 0, hp) else
  dfs_from_db_loop fuel resize fresh_hash db hp stack map 0 pack subtangle_before_timestamp.

Fixpoint dfs_light_loop (fuel : nat) hp map stack (visited_bitset : bitset_t) (subtangle_size : Z) : outcome (retcode_t * bitset_t * Z * heap) :=
  match fuel with
  | O => OutOfFuel
  | S fuel =>
      match hash243_stack_peek stack with
      | None => Done (RC_OK, visited_bitset, subtangle_size, hp)
      | Some curr_hash =>
          let stack := hash243_stack_pop stack in
          match HASH_FIND map curr_hash with
          | None => dfs_light_loop fuel hp map stack visited_bitset subtangle_size
          | Some curr_tx_entry =>
              match bitset_is_set visited_bitset (ihs_idx curr_tx_entry) with
              | None => Undefined
              | Some (true, visited_bitset) => dfs_light_loop fuel hp map stack visited_bitset subtangle_size
              | Some (false, visited_bitset) =>
                  let subtangle_size := u64 (subtangle_size + 1) in
                  match bitset_set_true visited_bitset (ihs_idx curr_tx_entry) with
                  | None => Undefined
                  | Some visited_bitset =>
                      let '(ret, stack, hp) := push_all hp stack (ihs_approvers curr_tx_entry) in
                      if negb (bool_decide (ret = RC_OK)) then Done (ret, visited_bitset, subtangle_size, hp)
                      else dfs_light_loop fuel hp map stack visited_bitset subtangle_size
                  end
              end
          end
      end
  end.

Definition cw_rating_dfs_do_dfs_light (fuel : nat) hp map (ep : hash_t) (visited_bitset : bitset_t) : outcome (retcode_t * bitset_t * Z * heap) :=
  let '(ret, stack, hp) := hash243_stack_push hp [] ep in
  if negb (bool_decide (ret = RC_OK)) then Done (ret, visited_bitset, 0, hp) else dfs_light_loop fuel hp map stack visited_bitset 0.

(** [HASH_ITER]; the result is the code and the ratings. *)
Fixpoint ratings_loop (fuel : nat) hp map (entries : hash_to_indexed_hash_set_map_t) (visited : bitset_t) (ratings : hash_map Z)
    : outcome (retcode_t * hash_map Z * heap) :=
  match entries with
  | [] => Done (RC_OK, ratings, hp)
  | (curr_hash, entry) :: entries =>
      if ihs_idx entry =? 0 then ratings_loop fuel hp map entries visited ratings else
      match cw_rating_dfs_do_dfs_light fuel hp map curr_hash (bitset_reset visited) with
      | OutOfFuel => OutOfFuel
      | Undefined => Undefined
      | Done (ret, visited, sub_tangle_size, hp) =>
          if negb (bool_decide (ret = RC_OK)) then Done (RC_CW_FAILED_IN_LIGHT_DFS, ratings, hp) else
          let '(ret, ratings, hp) := hash_map_add hp ratings curr_hash (i64 sub_tangle_size) in
          if negb (bool_decide (ret = RC_OK)) then Done (ret, ratings, hp) else ratings_loop fuel hp map entries visited ratings
      end
  end.

(** [raw] is what the array on the stack holds. *)
Definition cw_rating_calculate_dfs (fuel resize : nat) (fresh_hash : hash_t) (raw : Z -> list Z) db hp (entry_point : hash_t)
    : outcome (retcode_t * cw_calc_result * heap) :=
  match cw_rating_dfs_do_dfs_from_db fuel resize fresh_hash db hp entry_point [] 0 with
  | None => OutOfFuel
  | Some (ret, map, max_subtangle_size, hp) =>
      if negb (bool_decide (ret = RC_OK)) then Done (RC_CW_FAILED_IN_DFS_FROM_DB, mk_cw [] map, hp) else
      let '(ret, ratings, hp) := hash_map_add hp [] entry_point (i64 max_subtangle_size) in
      if negb (bool_decide (ret = RC_OK)) then Done (ret, mk_cw ratings map, hp) else
      if max_subtangle_size <=? 1 then Done (RC_OK, mk_cw ratings map, hp) else
      let bitset_size := bistset_required_size max_subtangle_size in
      match ratings_loop fuel hp map map (mk_bitset (raw bitset_size) 0 0 bitset_size) ratings with
      | OutOfFuel => OutOfFuel
      | Undefined => Undefined
      | Done (ret, ratings, hp) => Done (ret, mk_cw ratings map, hp)
      end
  end.

Definition cw_calc_result_destroy (calc_result : cw_calc_result) : cw_calc_result := mk_cw [] [].
End Rating.

(** * Lemmas *)

(** ** Bit sets *)

(** [word] is the first word; the others are not touched. *)
Definition holds_word (bitset : bitset_t) (word : Z) : Prop :=
  raw_bits bitset = word :: replicate (pred (Z.to_nat (bitset_size bitset))) 0 /\ 0 < bitset_size bitset.

Lemma word_index pos : 0 <= pos < 2 ^ 32 -> u32 (pos / (sizeof_bitset * 8)) = pos / 192.
Proof. intros Hp. change (sizeof_bitset * 8) with 192. unfold uwrap. apply Z.mod_small. split; [apply Z.div_pos|apply Z.div_lt_upper_bound]; lia. Qed.

Lemma bit_index pos : u32 (pos mod (sizeof_bitset * 8)) = pos mod 192.
Proof. change (sizeof_bitset * 8) with 192. unfold uwrap. apply Z.mod_small. pose proof (Z.mod_pos_bound pos 192). lia. Qed.

Lemma land_bit word pos : 0 <= pos -> negb (Z.land word (Z.shiftl 1 pos) =? 0) = Z.testbit word pos.
Proof.
  intros Hp. rewrite Z.shiftl_1_l. assert (Z.land word (2 ^ pos) = if Z.testbit word pos then 2 ^ pos else 0) as ->.
  { apply Z.bits_inj'. intros i Hi. rewrite Z.land_spec, Z.pow2_bits_eqb by lia. destruct (Z.eqb_spec pos i) as [<-|Hne].
    - destruct (Z.testbit word pos); cbn [andb]; [by rewrite Z.pow2_bits_true by lia|by rewrite Z.bits_0].
    - rewrite andb_false_r. destruct (Z.testbit word pos); [by rewrite Z.pow2_bits_false by lia|by rewrite Z.bits_0]. }
  destruct (Z.testbit word pos); [|done]. by destruct (Z.eqb_spec (2 ^ pos) 0) as [E|]; [lia|].
Qed.

Lemma lor_bit word pos i : 0 <= pos -> Z.testbit (Z.lor word (Z.shiftl 1 pos)) i = Z.testbit word i || (pos =? i).
Proof. intros Hp. by rewrite Z.lor_spec, Z.shiftl_1_l, Z.pow2_bits_eqb. Qed.

(** Below 64 the bit set is one. *)
Lemma bitset_low bitset word pos : holds_word bitset word -> 0 <= pos < 64 ->
  exists bitset', bitset_is_set bitset pos = Some (Z.testbit word pos, bitset') /\ holds_word bitset' word /\
  exists bitset'', bitset_set_true bitset' pos = Some bitset'' /\ holds_word bitset'' (Z.lor word (Z.shiftl 1 pos)).
Proof.
  intros [Hr Hs] Hp. unfold bitset_is_set, bitset_set_true. rewrite word_index, bit_index by lia. rewrite Z.div_small, Z.mod_small by lia.
  rewrite Hr. change ((_ :: _) !! Z.to_nat 0) with (Some word). unfold shl_one. destruct (Z.ltb_spec pos 64) as [_|]; [|lia].
  rewrite land_bit by lia. eexists. split; [reflexivity|]. split; [by split|]. cbn [raw_bits bitset_relative_index bitset_size].
  eexists. split; [reflexivity|]. by split.
Qed.

(** From 64 on, the first use of a position is undefined. *)
Lemma bitset_high bitset word pos : holds_word bitset word -> 64 <= pos < 2 ^ 32 ->
  bitset_is_set bitset pos = None \/
  exists bitset', bitset_is_set bitset pos = Some (false, bitset') /\ bitset_set_true bitset' pos = None.
Proof.
  intros [Hr Hs] Hp. unfold bitset_is_set, bitset_set_true. rewrite word_index, bit_index by lia. rewrite Hr.
  assert (shl_one pos = None) as -> by (unfold shl_one; by destruct (Z.ltb_spec pos 64); [lia|]).
  destruct (shl_one (pos mod 192)) as [bit|] eqn:Es; [|left; by case_match].
  assert (pos mod 192 < 64) as Hm by (unfold shl_one in Es; by destruct (Z.ltb_spec (pos mod 192) 64)).
  assert (1 <= pos / 192) as H1.
  { destruct (Z.ltb_spec pos 192); [rewrite Z.mod_small in Hm; lia|]. apply Z.div_le_lower_bound; lia. }
  destruct (Z.to_nat (pos / 192)) as [|i] eqn:Ei; [lia|]. cbn [lookup list_lookup].
  destruct (replicate _ 0 !! i) as [w|] eqn:Ew; [|by left]. apply lookup_replicate in Ew as [-> _].
  right. rewrite ?Z.land_0_l. cbn [negb Z.eqb]. eexists. split; [reflexivity|]. by case_match.
Qed.

Lemma bitset_reset_word bitset : length (raw_bits bitset) = Z.to_nat (bitset_size bitset) -> 0 < bitset_size bitset ->
  holds_word (bitset_reset bitset) 0.
Proof.
  intros Hl Hs. unfold bitset_reset. destruct (Z.eqb_spec (bitset_size bitset) 0); [lia|]. split; [|done].
  cbn [raw_bits bitset_size]. rewrite drop_ge, app_nil_r by lia. by destruct (Z.to_nat (bitset_size bitset)) eqn:E; [lia|].
Qed.

(** ** Searches

    A work list and the visited nodes. *)

Section Search.
Context (edge : hash_t -> hash_t -> Prop).
Implicit Types (x y : hash_t) (todo visited : list hash_t).

Record searched (start : hash_t) todo visited : Prop := {
  s_start : (visited = [] /\ todo = [start]) \/ head visited = Some start;
  s_todo y : y ∈ todo -> rtc edge start y;
  s_visited y : y ∈ visited -> rtc edge start y;
  s_closed x y : x ∈ visited -> edge x y -> (y ∈ todo) \/ (y ∈ visited);
  s_once : NoDup visited
}.

Lemma searched_init start : searched start [start] [].
Proof.
  split.
  - by left.
  - intros y ->%list_elem_of_singleton. constructor.
  - intros y H. by apply not_elem_of_nil in H.
  - intros x y H. by apply not_elem_of_nil in H.
  - constructor.
Qed.

Lemma searched_skip start x todo visited : x ∈ visited -> searched start (x :: todo) visited -> searched start todo visited.
Proof.
  intros Hx [H1 H2 H3 H4 H5]. split; [|intros; apply H2; by apply list.elem_of_cons; right|done| |done].
  - destruct H1 as [[-> _]|]; [by apply not_elem_of_nil in Hx|auto].
  - intros a b Ha Hab. destruct (H4 a b Ha Hab) as [[->|H]%list.elem_of_cons|]; auto.
Qed.

Lemma searched_visit start x todo visited next : x ∉ visited -> (forall y, (y ∈ next) <-> edge x y) ->
  searched start (x :: todo) visited -> searched start (next ++ todo) (visited ++ [x]).
Proof.
  intros Hx Hn [H1 H2 H3 H4 H5].
  assert (rtc edge start x) as Hr by (apply H2; by apply list.elem_of_cons; left). split.
  - right. destruct H1 as [[-> [= -> ->]]|H]; [done|]. by destruct visited.
  - intros y [H|H]%list.elem_of_app; [|apply H2; by apply list.elem_of_cons; right]. eapply rtc_r; [exact Hr|]. by apply Hn.
  - intros y [H| ->%list_elem_of_singleton]%list.elem_of_app; auto.
  - intros a b Ha Hab. rewrite !list.elem_of_app, list_elem_of_singleton. apply list.elem_of_app in Ha as [Ha| ->%list_elem_of_singleton].
    + destruct (H4 a b Ha Hab) as [[->|H]%list.elem_of_cons|]; auto.
    + left; left. by apply Hn.
  - apply list.NoDup_app. split_and!; [done| |apply list.NoDup_singleton]. intros y Hy ->%list_elem_of_singleton. done.
Qed.

Lemma searched_end start visited : searched start [] visited -> forall y, (y ∈ visited) <-> rtc edge start y.
Proof.
  intros [H1 H2 H3 H4 H5] y. split; [auto|].
  assert (forall x z, rtc edge x z -> x ∈ visited -> z ∈ visited) as Hc.
  { induction 1 as [|x1 x2 x3 H12 _ IH]; [done|]. intros Hx. apply IH. by destruct (H4 _ _ Hx H12) as [H%not_elem_of_nil|]. }
  intros Hr. apply (Hc start); [done|]. destruct H1 as [[_ H]|H]; [done|]. destruct visited as [|v vs]; [done|]. injection H as ->. left.
Qed.
End Search.

(** ** The approvals *)

Section Ratings.
Context (txs : list iota_transaction_t).
Implicit Types (x y h : hash_t) (stack visited : list hash_t) (map m : hash_to_indexed_hash_set_map_t).

Definition approved x y : Prop := y ∈ approvers_of txs x.

(** The links to what is not visited. *)
Definition unseen_link visited h : nat := if decide (h ∈ visited) then 0 else 1.
Definition unseen visited : nat :=
  sum_list_with (fun tx => unseen_link visited (transaction_branch tx) + unseen_link visited (transaction_trunk tx))%nat txs.

Lemma unseen_init : (unseen [] <= 2 * length txs)%nat.
Proof.
  unfold unseen, unseen_link. induction txs as [|tx l IH]; cbn [sum_list_with length]; [lia|].
  repeat case_decide; lia.
Qed.

Lemma unseen_link_visit visited x h : x ∉ visited ->
  unseen_link visited h = (unseen_link (visited ++ [x]) h + if decide (h = x) then 1 else 0)%nat.
Proof.
  intros Hx. unfold unseen_link. destruct (decide (h = x)) as [->|Hne].
  - rewrite decide_False by done. rewrite decide_True; [done|]. apply list.elem_of_app. right. by apply list_elem_of_singleton.
  - destruct (decide (h ∈ visited)) as [Hh|Hh].
    + rewrite decide_True; [done|]. apply list.elem_of_app. by left.
    + rewrite decide_False; [done|]. by intros [H| ->%list_elem_of_singleton]%list.elem_of_app.
Qed.

Lemma approves_tx_spec x tx : if approves_tx x tx then transaction_branch tx = x \/ transaction_trunk tx = x
  else transaction_branch tx <> x /\ transaction_trunk tx <> x.
Proof. unfold approves_tx. repeat (case_bool_decide; cbn [orb]; auto). Qed.

Lemma unseen_visit visited x : x ∉ visited -> (length (approvers_of txs x) + unseen (visited ++ [x]) <= unseen visited)%nat.
Proof.
  intros Hx. unfold unseen, approvers_of. rewrite length_map. induction txs as [|tx l IH]; cbn [sum_list_with List.filter length]; [lia|].
  rewrite !(unseen_link_visit visited x) by done.
  pose proof (approves_tx_spec x tx) as Ha. destruct (approves_tx x tx); cbn [length]; repeat case_decide; try lia; tauto.
Qed.

Lemma approvers_bound x : (length (approvers_of txs x) <= length txs)%nat.
Proof. unfold approvers_of. rewrite length_map. apply filter_length_le. Qed.

Lemma searched_bound start todo visited : searched approved start todo visited -> (length visited <= S (length txs))%nat.
Proof.
  intros Hs. transitivity (length (start :: List.map transaction_hash txs)); [|cbn; by rewrite length_map].
  apply NoDup_incl_length; [apply NoDup_ListNoDup, (s_once _ _ _ _ Hs)|].
  intros y Hy%list_elem_of_In. apply (s_visited _ _ _ _ Hs) in Hy. apply rtc_inv_r in Hy as [->|(x & _ & Hx)]; [by left|right].
  unfold approved, approvers_of in Hx. apply list_elem_of_In, in_map_iff in Hx as (tx & <- & Hin). apply in_map. exact (proj1 (proj1 (filter_In _ _ _) Hin)).
Qed.

(** ** The search in the database *)

(** The entry of [h] at position [i]. *)
Definition entry_ok (i : nat) (h : hash_t) (e : indexed_hash_set) : Prop :=
  ihs_idx e = Z.of_nat i /\ (forall y, (y ∈ ihs_approvers e) <-> approved h y) /\
  (length (ihs_approvers e) <= length (approvers_of txs h))%nat.
Definition indexed map : Prop := forall i h e, map !! i = Some (h, e) -> entry_ok i h e.

Lemma HASH_FIND_last m x v : x ∉ m.*1 -> HASH_FIND (m ++ [(x, v)]) x = Some v.
Proof.
  induction m as [|[k w] m IH]; cbn; intros Hx; [by rewrite decide_True|]. apply not_elem_of_cons in Hx as [Hk Hx].
  rewrite decide_False by congruence. auto.
Qed.

Lemma set_value_last m x v v' : x ∉ m.*1 -> set_value (m ++ [(x, v)]) x v' = m ++ [(x, v')].
Proof.
  induction m as [|[k w] m IH]; cbn; intros Hx; [by rewrite decide_True|]. apply not_elem_of_cons in Hx as [Hk Hx].
  rewrite decide_False by congruence. f_equal. auto.
Qed.

Lemma push_approvers_spec m x i hashes : x ∉ m.*1 -> forall stack approvers,
  exists approvers', push_approvers [] stack (m ++ [(x, mk_indexed i approvers)]) x hashes =
      (RC_OK, rev hashes ++ stack, m ++ [(x, mk_indexed i approvers')], []) /\
    (forall y, (y ∈ approvers') <-> (y ∈ approvers) \/ (y ∈ hashes)) /\
    (length approvers' <= length approvers + length hashes)%nat.
Proof.
  intros Hx. induction hashes as [|a hashes IH]; intros stack approvers; cbn [push_approvers].
  { exists approvers. split_and!; [done| |cbn; lia]. intros y. rewrite list.elem_of_nil. tauto. }
  cbn [hash243_stack_push malloc negb]. rewrite (bool_decide_eq_true_2 (RC_OK = RC_OK)) by done. cbn [negb].
  rewrite HASH_FIND_last by done. cbn [ihs_approvers ihs_idx]. unfold hash243_set_add, hash243_set_contains.
  destruct (bool_decide_reflect (a ∈ approvers)) as [Ha|Ha]; cbn [malloc negb]; rewrite (bool_decide_eq_true_2 (RC_OK = RC_OK)) by done;
    cbn [negb]; rewrite set_value_last by done.
  - destruct (IH (a :: stack) approvers) as (ap & E & Hm & Hl). exists ap. split_and!; [|intros y|cbn [length]; lia].
    + rewrite E. cbn [rev]. by rewrite <- app_assoc.
    + rewrite Hm, list.elem_of_cons. split; [tauto|]. intros [H|[->|H]]; tauto.
  - destruct (IH (a :: stack) (approvers ++ [a])) as (ap & E & Hm & Hl). exists ap. split_and!; [|intros y|].
    + rewrite E. cbn [rev]. by rewrite <- app_assoc.
    + rewrite Hm, list.elem_of_app, list_elem_of_singleton, list.elem_of_cons. tauto.
    + rewrite length_app in Hl. cbn [length] in *. lia.
Qed.

Lemma indexed_add m x approvers : indexed m -> (forall y, (y ∈ approvers) <-> approved x y) ->
  (length approvers <= length (approvers_of txs x))%nat -> indexed (m ++ [(x, mk_indexed (Z.of_nat (length m)) approvers)]).
Proof.
  intros Hi Ha Hl i h e Hl'. apply lookup_app_Some in Hl' as [H|[Hge H]]; [by apply Hi|].
  apply list_lookup_singleton_Some in H as [H0 [= <- <-]]. split_and!; cbn; [lia|done|done].
Qed.

Section FromDb.
Context {DB : Type} {SQ : Sqlite DB} {L : SqliteLaws DB} {R : SqliteReliable DB}.
Context (db : DB) (Hdb : contents db txs) (resize : nat) (Hresize : (length txs < resize)%nat) (fresh_hash : hash_t).
Context (Hsize : Z.of_nat (length txs) < 2 ^ 32 - 1).

(** What the loop keeps. *)
Record from_db_state (entry_point : hash_t) stack map : Prop := {
  fd_searched : searched approved entry_point stack map.*1;
  fd_indexed : indexed map;
  fd_sized : Forall (fun h => length h = 243%nat) stack
}.

Lemma from_db_visit entry_point x stack map pack : from_db_state entry_point (x :: stack) map -> x ∉ map.*1 -> full_pack pack ->
  num_loaded pack = 0%nat -> exists pack' approvers,
  let map' := map ++ [(x, mk_indexed (Z.of_nat (length map)) approvers)] in
  iota_tangle_transaction_load_hashes_of_approvers resize fresh_hash [] db x pack 0 = Some (RC_OK, pack', []) /\ full_pack pack' /\
  push_approvers [] stack (map ++ [(x, mk_indexed (Z.of_nat (length map)) [])]) x (rev (loaded_hashes pack')) =
    (RC_OK, loaded_hashes pack' ++ stack, map', []) /\
  length (loaded_hashes pack') = length (approvers_of txs x) /\ from_db_state entry_point (loaded_hashes pack' ++ stack) map'.
Proof.
  intros [Hs Hi Hz] Hx Hf Hn. apply Forall_cons_iff in Hz as [Hxl Hz]. pose proof (approvers_bound x) as Hb.
  destruct (load_approvers_spec resize fresh_hash db txs x pack Hdb Hxl Hf Hn ltac:(lia)) as (pack' & E & F & P).
  destruct (push_approvers_spec map x (Z.of_nat (length map)) (rev (loaded_hashes pack')) Hx stack []) as (ap & Ep & Hm & Hl).
  exists pack', ap. assert (forall y, (y ∈ ap) <-> approved x y) as Hap.
  { intros y. rewrite Hm. unfold approved. rewrite <- P, list.elem_of_nil, !list_elem_of_In, <- in_rev. tauto. }
  split_and!; [done|done| |by rewrite P|].
  - rewrite Ep. by rewrite rev_involutive.
  - split.
    + rewrite fmap_app. apply searched_visit; [done| |done]. intros y. unfold approved. by rewrite P.
    + apply indexed_add; [done|done|]. rewrite length_rev in Hl. rewrite <- P. cbn in Hl. lia.
    + apply Forall_app. split; [|done]. rewrite P. apply approvers_sized, (c_storable _ _ Hdb).
Qed.

Lemma contains_keys map h : hash_to_indexed_hash_set_map_contains map h = bool_decide (h ∈ map.*1).
Proof. unfold hash_to_indexed_hash_set_map_contains. apply bool_decide_ext, HASH_FIND_keys. Qed.

Lemma dfs_from_db_loop_spec entry_point : forall fuel stack map pack, from_db_state entry_point stack map -> full_pack pack ->
  num_loaded pack = 0%nat -> (length stack + unseen map.*1 < fuel)%nat ->
  exists map', dfs_from_db_loop fuel resize fresh_hash db [] stack map (Z.of_nat (length map)) pack 0 =
    Some (RC_OK, map', Z.of_nat (length map'), []) /\ from_db_state entry_point [] map'.
Proof.
  induction fuel as [|fuel IH]; intros stack map pack Hst Hf Hn Hfu; [lia|]. cbn [dfs_from_db_loop].
  destruct stack as [|x stack]; [by exists map|]. cbn [hash243_stack_peek hash243_stack_pop head tail]. rewrite contains_keys.
  destruct (bool_decide_reflect (x ∈ map.*1)) as [Hx|Hx]; cbn [negb].
  - apply IH; [|done|done|cbn [length] in Hfu; lia]. destruct Hst as [H1 H2 H3]. split; [by eapply searched_skip|done|by inversion H3].
  - destruct (from_db_visit entry_point x stack map (hash_pack_reset pack) Hst Hx Hf eq_refl) as (pack' & ap & -> & F & Ep & Hl & Hst').
    rewrite (bool_decide_eq_true_2 (RC_OK = RC_OK)) by done. cbn [negb].
    unfold hash_to_indexed_hash_set_map_add_new_set, HASH_ADD. cbn [malloc negb]. rewrite (bool_decide_eq_true_2 (RC_OK = RC_OK)) by done.
    cbn [negb]. change (take (num_loaded pack') (models pack')) with (loaded_hashes pack'). rewrite Ep.
    rewrite (bool_decide_eq_true_2 (RC_OK = RC_OK)) by done. cbn [negb].
    pose proof (searched_bound _ _ _ (fd_searched _ _ _ Hst)) as Hb. rewrite length_fmap in Hb.
    set (map' := map ++ [(x, mk_indexed (Z.of_nat (length map)) ap)]) in *.
    replace (u64 (Z.of_nat (length map) + 1)) with (Z.of_nat (length map')).
    2: { unfold uwrap, map'. rewrite length_app. cbn [length]. rewrite Z.mod_small; lia. }
    apply IH; [done|exact F|done|]. pose proof (unseen_visit map.*1 x Hx) as Hu.
    unfold map'. rewrite fmap_app, length_app. cbn [fmap list_fmap fst]. cbn [length] in Hfu. lia.
Qed.

(** Loaded from the database: what approves the entry point, each with its approvers. *)
Lemma dfs_from_db_spec fuel entry_point : length entry_point = 243%nat -> (2 * length txs + 1 < fuel)%nat ->
  exists map, cw_rating_dfs_do_dfs_from_db fuel resize fresh_hash db [] entry_point [] 0 =
    Some (RC_OK, map, Z.of_nat (length map), []) /\ from_db_state entry_point [] map.
Proof.
  intros Hl Hf. unfold cw_rating_dfs_do_dfs_from_db. rewrite hash_pack_init_nil. rewrite (bool_decide_eq_true_2 (RC_OK = RC_OK)) by done.
  cbn [negb hash243_stack_push malloc]. rewrite (bool_decide_eq_true_2 (RC_OK = RC_OK)) by done. cbn [negb].
  apply (dfs_from_db_loop_spec entry_point fuel [entry_point] []).
  - split; [apply searched_init|by intros i h e [=]|by repeat constructor].
  - split; [apply length_replicate|cbn; lia].
  - done.
  - pose proof unseen_init. cbn [length fmap list_fmap]. lia.
Qed.
End FromDb.

(** ** The search in the map *)

Section Light.
Context (map : hash_to_indexed_hash_set_map_t) (Hunique : unique map) (Hindexed : indexed map).
Context (Hclosed : forall x y, x ∈ map.*1 -> approved x y -> y ∈ map.*1).
Context (Hmap : (length map <= S (length txs))%nat) (Hsize : Z.of_nat (length txs) < 2 ^ 32 - 1).

Lemma entry_of x : x ∈ map.*1 -> exists i e, map !! i = Some (x, e) /\ HASH_FIND map x = Some e /\ entry_ok i x e.
Proof.
  intros ([k e] & -> & Hin)%list_elem_of_fmap. apply list_elem_of_lookup in Hin as [i Hi]. exists i, e. cbn [fst] in *.
  split_and!; [done| |by apply Hindexed]. apply HASH_FIND_Some; [done|]. by eapply list_elem_of_lookup_2.
Qed.

Lemma reach_in_map x y : x ∈ map.*1 -> rtc approved x y -> y ∈ map.*1.
Proof. intros Hx Hr. revert Hx. induction Hr as [|a b c Hab _ IH]; [done|]. intros Ha. apply IH. by eapply Hclosed. Qed.

(** The word has the bits of the visited entries, which all are below 64. *)
Definition marks (word : Z) visited : Prop :=
  (forall i x e, map !! i = Some (x, e) -> (i < 64)%nat -> Z.testbit word (Z.of_nat i) = bool_decide (x ∈ visited)) /\
  (forall x, x ∈ visited -> exists i e, map !! i = Some (x, e) /\ (i < 64)%nat).

Lemma marks_visit word visited i x e : map !! i = Some (x, e) -> (i < 64)%nat -> marks word visited ->
  marks (Z.lor word (Z.shiftl 1 (Z.of_nat i))) (visited ++ [x]).
Proof.
  intros Hi Hlow [Hb Hv]. split.
  - intros j y e' Hj Hlj. rewrite lor_bit by lia. rewrite (Hb j y e' Hj Hlj). destruct (Z.eqb_spec (Z.of_nat i) (Z.of_nat j)) as [E|Hne].
    + apply Nat2Z.inj in E as <-. rewrite Hi in Hj. injection Hj as <- <-. rewrite orb_true_r. symmetry. apply bool_decide_eq_true_2.
      apply list.elem_of_app. right. by apply list_elem_of_singleton.
    + rewrite orb_false_r. apply bool_decide_ext. rewrite list.elem_of_app, list_elem_of_singleton. split; [auto|]. intros [H| ->]; [done|].
      exfalso. apply Hne. f_equal. apply (NoDup_lookup map.*1 i j x Hunique); rewrite list_lookup_fmap; apply fmap_Some; eauto.
  - intros y [Hy| ->%list_elem_of_singleton]%list.elem_of_app; [auto|by exists i, e].
Qed.

Record light_state (start : hash_t) stack visited (bitset : bitset_t) : Prop := {
  ls_searched : searched approved start stack visited;
  ls_bits : exists word, holds_word bitset word /\ marks word visited
}.

Lemma push_all_end l : forall stack, push_all [] stack l = (RC_OK, rev l ++ stack, []).
Proof.
  induction l as [|h l IH]; intros stack; [done|]. cbn [push_all hash243_stack_push malloc negb].
  rewrite (bool_decide_eq_true_2 (RC_OK = RC_OK)) by done. cbn [negb rev]. by rewrite IH, <- app_assoc.
Qed.

(** The search counts what it reaches, or meets an entry that the bit set cannot hold. *)
Lemma dfs_light_loop_spec start : start ∈ map.*1 -> forall fuel stack visited bitset, light_state start stack visited bitset ->
  (length stack + unseen visited < fuel)%nat ->
  let result := dfs_light_loop fuel [] map stack bitset (Z.of_nat (length visited)) in
  (exists bitset' visited', result = Done (RC_OK, bitset', Z.of_nat (length visited'), []) /\ light_state start [] visited' bitset') \/
  (result = Undefined /\ (64 < length map)%nat).
Proof.
  intros Hstart. induction fuel as [|fuel IH]; intros stack visited bitset [Hs (word & Hw & Hm)] Hfu; [lia|]. cbn [dfs_light_loop].
  destruct stack as [|x stack].
  { left. exists bitset, visited. split; [done|]. split; [done|by exists word]. }
  cbn [hash243_stack_peek hash243_stack_pop head tail].
  destruct (entry_of x) as (i & e & Hi & -> & Hidx & Happ & Hlen).
  { apply (reach_in_map start); [done|]. apply (s_todo _ _ _ _ Hs). left. }
  rewrite Hidx. pose proof (lookup_lt_Some _ _ _ Hi) as Hlt. destruct (decide (i < 64)%nat) as [Hlow|Hhigh].
  2: { right. destruct (bitset_high bitset word (Z.of_nat i) Hw ltac:(lia)) as [->|(bitset' & -> & ->)]; (split; [done|lia]). }
  destruct (bitset_low bitset word (Z.of_nat i) Hw ltac:(lia)) as (bitset' & -> & Hw' & bitset'' & -> & Hw'').
  rewrite (proj1 Hm i x e Hi Hlow). destruct (bool_decide_reflect (x ∈ visited)) as [Hx|Hx].
  - apply IH; [|cbn [length] in Hfu; lia]. split; [by eapply searched_skip|by exists word].
  - rewrite push_all_end. rewrite (bool_decide_eq_true_2 (RC_OK = RC_OK)) by done. cbn [negb].
    pose proof (searched_bound _ _ _ Hs) as Hb. pose proof (unseen_visit visited x Hx) as Hu.
    replace (u64 (Z.of_nat (length visited) + 1)) with (Z.of_nat (length (visited ++ [x]))).
    2: { unfold uwrap. rewrite length_app. cbn [length]. rewrite Z.mod_small; lia. }
    apply IH; [|rewrite length_app, length_rev; cbn [length] in Hfu; lia]. split.
    + apply searched_visit; [done| |done]. intros y. rewrite <- Happ. rewrite !list_elem_of_In, <- in_rev. tauto.
    + eexists. split; [exact Hw''|]. by eapply marks_visit.
Qed.

(** The number of transactions behind [h], with itself. *)
Definition weight h (n : Z) : Prop :=
  exists reached, NoDup reached /\ (forall y, (y ∈ reached) <-> rtc approved h y) /\ n = Z.of_nat (length reached).

Definition sized (bitset : bitset_t) : Prop :=
  length (raw_bits bitset) = Z.to_nat (bitset_size bitset) /\ 0 < bitset_size bitset.

Lemma dfs_light_spec fuel h bitset : h ∈ map.*1 -> sized bitset -> (2 * length txs + 1 < fuel)%nat ->
  let result := cw_rating_dfs_do_dfs_light fuel [] map h (bitset_reset bitset) in
  (exists bitset' n, result = Done (RC_OK, bitset', n, []) /\ weight h (i64 n) /\ sized bitset' /\
     exists i e, map !! i = Some (h, e) /\ (i < 64)%nat) \/
  (result = Undefined /\ (64 < length map)%nat).
Proof.
  intros Hh [Hl Hs] Hf. unfold cw_rating_dfs_do_dfs_light. cbn [hash243_stack_push malloc negb].
  rewrite (bool_decide_eq_true_2 (RC_OK = RC_OK)) by done. cbn [negb].
  destruct (dfs_light_loop_spec h Hh fuel [h] [] (bitset_reset bitset)) as [(bitset' & visited & E & [Hv (word & [Hr Hp] & _ & Hm)])|E].
  - split; [apply searched_init|]. exists 0. split; [by apply bitset_reset_word|]. split.
    + intros i x e _ _. rewrite Z.bits_0. symmetry. apply bool_decide_eq_false_2. apply not_elem_of_nil.
    + intros x Hx%not_elem_of_nil. done.
  - pose proof unseen_init. cbn [length]. lia.
  - left. exists bitset', (Z.of_nat (length visited)). pose proof (searched_bound _ _ _ Hv) as Hb. split_and!; [exact E| | |].
    + rewrite i64_id by (unfold is_int64, INT64_MIN, INT64_MAX; lia). exists visited. split_and!; [by apply (s_once _ _ _ _ Hv)|by apply searched_end|done].
    + split; [|done]. rewrite Hr. cbn [length]. rewrite length_replicate. lia.
    + apply Hm. apply (searched_end _ _ _ Hv). constructor.
  - right. exact E.
Qed.

(** The first [length done] entries are rated. *)
Lemma ratings_loop_spec fuel : (2 * length txs + 1 < fuel)%nat -> forall entries done_ ratings bitset,
  map = done_ ++ entries -> (0 < length done_ <= 64)%nat -> sized bitset ->
  ratings.*1 = done_.*1 -> Forall (fun hn => weight hn.1 hn.2) ratings ->
  let result := ratings_loop fuel [] map entries bitset ratings in
  (exists ratings', result = Done (RC_OK, ratings', []) /\ ratings'.*1 = map.*1 /\ Forall (fun hn => weight hn.1 hn.2) ratings' /\
     (length map <= 64)%nat) \/
  (result = Undefined /\ (64 < length map)%nat).
Proof.
  intros Hf. induction entries as [|[h e] entries IH]; intros done_ ratings bitset E Hd Hs Hk Hw; cbn [ratings_loop].
  { left. rewrite app_nil_r in E. exists ratings. rewrite E. by split_and!; [| | |lia]. }
  assert (map !! length done_ = Some (h, e)) as Hi by (rewrite E; by apply list_lookup_middle).
  assert (h ∈ map.*1) as Hh by (apply list_elem_of_fmap; exists (h, e); split; [done|by eapply list_elem_of_lookup_2]).
  destruct (Hindexed _ _ _ Hi) as (Hidx & _ & _). rewrite Hidx. destruct (Z.eqb_spec (Z.of_nat (length done_)) 0); [lia|].
  destruct (dfs_light_spec fuel h bitset Hh Hs Hf) as [(bitset' & size & -> & Hn & Hs' & i & e' & Hi' & Hlow)|[-> Hlarge]]; [|by right].
  rewrite (bool_decide_eq_true_2 (RC_OK = RC_OK)) by done. cbn [negb]. rewrite hash_map_add_nil.
  assert (i = length done_) as -> by (apply (NoDup_lookup map.*1 i (length done_) h Hunique); rewrite list_lookup_fmap; apply fmap_Some; eauto).
  assert (h ∉ done_.*1) as Hnew.
  { pose proof Hunique as Hu. unfold unique in Hu. rewrite E, fmap_app in Hu. apply list.NoDup_app in Hu as (_ & Hu & _).
    intros Hin. apply (Hu h Hin). left. }
  rewrite (proj2 (HASH_FIND_None ratings h)) by (by rewrite Hk).
  rewrite (bool_decide_eq_true_2 (RC_OK = RC_OK)) by done. cbn [negb]. apply (IH (done_ ++ [(h, e)])).
  - by rewrite <- app_assoc.
  - rewrite length_app. cbn [length]. lia.
  - done.
  - unfold HASH_ADD. rewrite !fmap_app, Hk. done.
  - apply Forall_app. split; [done|]. by repeat constructor.
Qed.
End Light.

(** ** The calculator *)

Section Calculator.
Context {DB : Type} {SQ : Sqlite DB} {L : SqliteLaws DB} {R : SqliteReliable DB}.
Context (db : DB) (Hdb : contents db txs) (resize : nat) (Hresize : (length txs < resize)%nat) (fresh_hash : hash_t).
Context (Hsize : Z.of_nat (length txs) < 2 ^ 32 - 1).
Context (raw : Z -> list Z) (Hraw : forall n, length (raw n) = Z.to_nat n).

Lemma from_db_head entry_point map : from_db_state entry_point [] map ->
  exists e map', map = (entry_point, e) :: map' /\ weight entry_point (Z.of_nat (length map)).
Proof.
  intros [Hs _ _]. destruct (s_start _ _ _ _ Hs) as [[_ H]|H]; [done|]. destruct map as [|[h e] map']; [done|]. injection H as ->.
  exists e, map'. split; [done|]. exists ((entry_point, e) :: map').*1. split_and!; [apply (s_once _ _ _ _ Hs)|by apply searched_end|].
  by rewrite length_fmap.
Qed.

Lemma calculate_outcome fuel (entry_point : hash_t) : length entry_point = 243%nat -> (2 * length txs + 1 < fuel)%nat ->
  let result := cw_rating_calculate_dfs fuel resize fresh_hash raw db [] entry_point in
  exists map, from_db_state entry_point [] map /\
    ((exists ratings, result = Done (RC_OK, mk_cw ratings map, []) /\ ratings.*1 = map.*1 /\
        Forall (fun hn => weight hn.1 hn.2) ratings /\ (length map <= 64)%nat) \/
     (result = Undefined /\ (64 < length map)%nat)).
Proof.
  intros Hl Hf. unfold cw_rating_calculate_dfs.
  destruct (dfs_from_db_spec db Hdb resize Hresize fresh_hash Hsize fuel entry_point Hl Hf) as (map & -> & Hst).
  exists map. split; [done|]. rewrite (bool_decide_eq_true_2 (RC_OK = RC_OK)) by done. cbn [negb]. rewrite hash_map_add_nil.
  cbn [HASH_FIND HASH_ADD app]. rewrite (bool_decide_eq_true_2 (RC_OK = RC_OK)) by done. cbn [negb].
  destruct (from_db_head _ _ Hst) as (e & map' & Emap & Hw). pose proof (searched_bound _ _ _ (fd_searched _ _ _ Hst)) as Hb.
  rewrite length_fmap in Hb. rewrite i64_id by (unfold is_int64, INT64_MIN, INT64_MAX; lia).
  destruct (Z.leb_spec (Z.of_nat (length map)) 1) as [H1|H1].
  { left. eexists. split; [reflexivity|]. rewrite Emap in H1 |- *. destruct map'; [|cbn [length] in H1; lia].
    split_and!; [done| |cbn; lia]. rewrite Emap in Hw. by repeat constructor. }
  assert (0 < bistset_required_size (Z.of_nat (length map))) as Hreq.
  { unfold bistset_required_size. pose proof (Z.div_pos (Z.of_nat (length map)) 64). lia. }
  destruct (fd_indexed _ _ _ Hst 0%nat entry_point e) as (Hidx & _ & _); [by rewrite Emap|].
  assert (forall bitset ratings, ratings_loop fuel [] map map bitset ratings = ratings_loop fuel [] map map' bitset ratings) as Hskip.
  { intros bitset ratings. rewrite Emap at 2. cbn [ratings_loop]. by rewrite Hidx. }
  rewrite Hskip.
  assert (forall x y, x ∈ map.*1 -> approved x y -> y ∈ map.*1) as Hcl.
  { intros x y Hx Hxy. by destruct (s_closed _ _ _ _ (fd_searched _ _ _ Hst) x y Hx Hxy) as [H%not_elem_of_nil|]. }
  set (size := bistset_required_size (Z.of_nat (length map))) in *.
  edestruct (ratings_loop_spec map (s_once _ _ _ _ (fd_searched _ _ _ Hst)) (fd_indexed _ _ _ Hst) Hcl Hb Hsize fuel Hf map'
    [(entry_point, e)] [(entry_point, Z.of_nat (length map))] (mk_bitset (raw size) 0 0 size))
    as [(ratings & -> & Hk & Hr & H64)|[-> H64]].
  - exact Emap.
  - cbn. lia.
  - split; [apply Hraw|done].
  - done.
  - by repeat constructor.
  - left. by exists ratings.
  - by right.
Qed.

(** C8: the ratings are the cumulative weights.  While memory lasts and at most 64
    transactions are behind the entry point, the calculator succeeds; it rates exactly
    what approves the entry point, directly or not, each with the number of
    transactions that approve it, directly or not, with itself. *)
Theorem cw_ratings_exact fuel (entry_point : hash_t) reached : length entry_point = 243%nat -> (2 * length txs + 1 < fuel)%nat ->
  NoDup reached -> (forall h, (h ∈ reached) <-> rtc approved entry_point h) -> (length reached <= 64)%nat ->
  exists calc_result, cw_rating_calculate_dfs fuel resize fresh_hash raw db [] entry_point = Done (RC_OK, calc_result, []) /\
    forall h, match HASH_FIND (cw_ratings calc_result) h with
              | Some n => rtc approved entry_point h /\ weight h n
              | None => ~ rtc approved entry_point h
              end.
Proof.
  intros Hl Hf Hn Hr H64. destruct (calculate_outcome fuel entry_point Hl Hf) as (map & Hst & H).
  pose proof (searched_end _ _ _ (fd_searched _ _ _ Hst)) as Hm. pose proof (s_once _ _ _ _ (fd_searched _ _ _ Hst)) as Hu.
  assert (map.*1 ≡ₚ reached) as Hp by (apply NoDup_Permutation; [done|done|]; intros h; by rewrite Hm, Hr).
  destruct H as [(ratings & -> & Hk & Hw & _)|[_ Hlarge]].
  - eexists. split; [done|]. intros h. cbn [cw_ratings]. destruct (HASH_FIND ratings h) as [n|] eqn:E.
    + rewrite <- Hm, <- Hk. split; [by apply HASH_FIND_keys; rewrite E|]. apply HASH_FIND_Some in E; [|unfold unique; by rewrite Hk].
      rewrite Forall_forall in Hw. apply (Hw _ E).
    + apply HASH_FIND_None in E. by rewrite <- Hm, <- Hk.
  - apply Permutation_length in Hp. rewrite length_fmap in Hp. lia.
Qed.

(** C27: from 65 transactions on the calculator runs into undefined behaviour: the bit
    set takes the size of its structure for the size of a word, and shifts a 64-bit one
    by 64 positions or more. *)
Theorem large_subtangle_undefined fuel (entry_point : hash_t) reached : length entry_point = 243%nat -> (2 * length txs + 1 < fuel)%nat ->
  NoDup reached -> (forall h, (h ∈ reached) <-> rtc approved entry_point h) -> (64 < length reached)%nat ->
  cw_rating_calculate_dfs fuel resize fresh_hash raw db [] entry_point = Undefined.
Proof.
  intros Hl Hf Hn Hr H64. destruct (calculate_outcome fuel entry_point Hl Hf) as (map & Hst & H).
  pose proof (searched_end _ _ _ (fd_searched _ _ _ Hst)) as Hm. pose proof (s_once _ _ _ _ (fd_searched _ _ _ Hst)) as Hu.
  assert (map.*1 ≡ₚ reached) as Hp by (apply NoDup_Permutation; [done|done|]; intros h; by rewrite Hm, Hr).
  destruct H as [(ratings & -> & Hk & Hw & H)|[-> _]]; [|done]. apply Permutation_length in Hp. rewrite length_fmap in Hp. lia.
Qed.
End Calculator.
End Ratings.

(** ** Examples *)

(** A path along the approvals that nothing leaves. *)
Fixpoint path txs (x : hash_t) (l : list hash_t) : Prop :=
  match l with
  | [] => True
  | y :: l => (y ∈ approvers_of txs x) /\ path txs y l
  end.

#[export] Instance path_dec txs l : forall x, Decision (path txs x l).
Proof. induction l as [|y l IH]; intros x; cbn; apply _. Defined.

Lemma path_reaches txs l : forall x y, path txs x l -> y ∈ x :: l -> rtc (approved txs) x y.
Proof.
  induction l as [|z l IH]; intros x y Hp Hy; apply list.elem_of_cons in Hy as [->|Hy]; [constructor|by apply not_elem_of_nil in Hy|constructor|].
  destruct Hp as [Hz Hp]. eapply rtc_l; [exact Hz|]. by apply IH.
Qed.

Lemma path_reached txs x l : path txs x l -> Forall (fun a => Forall (fun b => b ∈ x :: l) (approvers_of txs a)) (x :: l) ->
  forall h, (h ∈ x :: l) <-> rtc (approved txs) x h.
Proof.
  intros Hp Hc h. split; [by apply path_reaches|]. intros Hr. rewrite Forall_forall in Hc.
  assert (forall a b, rtc (approved txs) a b -> a ∈ x :: l -> b ∈ x :: l) as Hg.
  { induction 1 as [|a b c Hab _ IH]; [done|]. intros Ha. apply IH. specialize (Hc a Ha). rewrite Forall_forall in Hc. by apply Hc. }
  apply (Hg x); [done|left].
Qed.

Definition zeros (n : Z) : list Z := replicate (Z.to_nat n) 0.

Lemma zeros_length n : length (zeros n) = Z.to_nat n.
Proof. apply length_replicate. Qed.

Lemma cw_ratings_exact_witness : exists calc_result,
  cw_rating_calculate_dfs 8 4 (letter 0) zeros (stored_links sample_links) [] (letter 3) = Done (RC_OK, calc_result, []) /\
  HASH_FIND (cw_ratings calc_result) (letter 2) = Some 3.
Proof.
  assert (forall h, (h ∈ [letter 3; letter 2; letter 1; letter 0]) <-> rtc (approved sample_links) (letter 3) h) as Hr.
  { apply path_reached; apply (bool_decide_unpack _); vm_compute; exact I. }
  assert (NoDup [letter 3; letter 2; letter 1; letter 0]) as Hn by (apply (bool_decide_unpack _); vm_compute; exact I).
  destruct (cw_ratings_exact sample_links (stored_links sample_links) stored_links_contents 4 ltac:(cbn; lia) (letter 0) ltac:(cbn; lia)
    zeros zeros_length 8 (letter 3) _ eq_refl ltac:(cbn; lia) Hn Hr ltac:(cbn; lia)) as (calc_result & E & _).
  exists calc_result. split; [exact E|]. 
  assert (cw_rating_calculate_dfs 8 4 (letter 0) zeros (stored_links sample_links) [] (letter 3) =
    Done (RC_OK, mk_cw [(letter 3, 4); (letter 2, 3); (letter 1, 2); (letter 0, 1)]
      [(letter 3, mk_indexed 0 [letter 2]); (letter 2, mk_indexed 1 [letter 1]); (letter 1, mk_indexed 2 [letter 0]); (letter 0, mk_indexed 3 [])], []))
    as E' by (vm_compute; reflexivity).
  rewrite E' in E. injection E as <-. vm_compute. reflexivity.
Defined.

(** Sixty-five transactions, each approving the next hash. *)
Definition number (n : Z) : hash_t := map (fun i => if Z.testbit n (Z.of_nat i) then 1 else -1) (seq 0 7) ++ replicate 236 1.
Definition numbered : list iota_transaction_t := map (fun i => link (number (Z.of_nat i)) (number (Z.of_nat i + 1)) 0 0 (number 99)) (seq 0 65).
Definition numbered_db : memory_db := mk_memory_db (mk_tables (map row_of numbered) [] []) None.

Lemma number_length n : length (number n) = 243%nat.
Proof. unfold number. by rewrite length_app, length_map, length_seq, length_replicate. Qed.

Lemma numbered_contents : contents numbered_db numbered.
Proof.
  split.
  - reflexivity.
  - apply Forall_forall. intros tx (i & <- & _)%list_elem_of_In%in_map_iff. apply link_storable; try apply number_length; lia.
  - apply (bool_decide_unpack _). vm_compute. exact I.
Qed.

Definition numbers : list hash_t := map (fun i => number (65 - Z.of_nat i)) (seq 0 66).

Lemma large_subtangle_undefined_witness :
  cw_rating_calculate_dfs 132 66 (number 0) zeros numbered_db [] (number 65) = Undefined.
Proof.
  assert (forall h, (h ∈ number 65 :: tail numbers) <-> rtc (approved numbered) (number 65) h) as Hr.
  { apply path_reached; apply (bool_decide_unpack _); vm_compute; exact I. }
  assert (NoDup (number 65 :: tail numbers)) as Hn by (apply (bool_decide_unpack _); vm_compute; exact I).
  apply (large_subtangle_undefined numbered numbered_db numbered_contents 66 ltac:(cbn; lia) (number 0) ltac:(cbn; lia)
    zeros zeros_length 132 (number 65) _ eq_refl ltac:(cbn; lia) Hn Hr). cbn. lia.
Defined.
