(* ===== verification/TipSelection.v ===== *)
(** * Tip selection

    [ciri/consensus/tip_selection]: the entry point, the validator of the tails that a
    walk visits, the weighted random walk over the approvers and the selection of two
    tips.  Doubles are IEEE binary64 numbers; the generator of random numbers and [exp]
    belong to the C library. *)
From S2P Require Import Prelude Errors Sponge Sign Transaction Bundle Containers StateDelta Snapshot Statements Sqlite Tangle Traversal Ledger Rating.
From Stdlib Require Import Floats.SpecFloat.

(** ** Doubles *)

Definition double := spec_float.
Definition double_of_int (z : Z) : double := binary_normalize 53 1024 z 0 false.
Definition double_add (x y : double) : double := SFadd 53 1024 x y.
Definition double_sub (x y : double) : double := SFsub 53 1024 x y.
Definition double_mul (x y : double) : double := SFmul 53 1024 x y.
Definition double_div (x y : double) : double := SFdiv 53 1024 x y.
Definition double_max (x y : double) : double := if SFltb y x then x else y.

Class CLibrary (Rng : Type) := {
  RAND_MAX : Z;
  rand : Rng -> Z * Rng;
  exp : double -> double
}.

(** What the selection reads of the configuration. *)
Record selection_conf := mk_selection_conf { alpha : double; below_max_depth : Z; conf_genesis_hash : hash_t; max_depth : Z }.

Record exit_prob_transaction_validator_t := mk_epv {
  epv_delta : state_delta_t; epv_analyzed_hashes : hash243_set; max_depth_ok_memoization : hash243_set
}.

Definition iota_consensus_exit_prob_transaction_validator_init : retcode_t * exit_prob_transaction_validator_t := (RC_OK, mk_epv [] [] []).
Definition iota_consensus_exit_prob_transaction_validator_destroy (epv : exit_prob_transaction_validator_t)
    : retcode_t * exit_prob_transaction_validator_t := (RC_OK, mk_epv [] [] []).

Record tips_pair_t := mk_tips { tips_trunk : hash_t; tips_branch : hash_t }.

Section Selection.
Context {DB : Type} {SQ : Sqlite DB} {St : Type} {Sp : Sponge St} {SI : SpongeInit St} {Rng : Type} {C : CLibrary Rng}.
Context (conf : selection_conf) (lv : ledger_validator_t).
Implicit Types (db : DB) (hp : heap) (hash : hash_t) (epv : exit_prob_transaction_validator_t) (rng : Rng).

(** ** The entry point *)

Definition iota_consensus_entry_point_selector_get_entry_point (mem : iota_milestone_t) db (depth : Z) (ep : hash_t) : retcode_t * hash_t :=
  let milestone_index := u64 (Z.max (i64 (i64 (i64 (latest_solid_milestone_index lv) - depth) - 1)) 0) in
  let '(ret, pack) := iota_tangle_milestone_load_by_index db (u64 (milestone_index + 1)) (DECLARE_PACK_SINGLE mem) in
  if negb (bool_decide (ret = RC_OK)) then (ret, ep) else
  if negb (num_loaded pack =? 0)%nat then (RC_OK, ms_hash (nth 0 (models pack) mem)) else (RC_OK, latest_solid_milestone lv).

(** ** The validator *)

(** The code, [*below_max_depth], the memoization and the allocations; the transaction
    keeps what was loaded before when nothing is.  The hash is popped after its
    approvees have been pushed. *)
Fixpoint below_loop (fuel : nat) db hp (memoization : hash243_set) (lowest_allowed_index : Z) (tail_hash : hash_t)
    (non_analyzed_hashes : hash243_stack) (analyzed_hashes : hash243_set) (curr_tx : iota_transaction_t)
    : option (retcode_t * bool * hash243_set * heap) :=
  match fuel with
  | O => None
  | S fuel =>
      match hash243_stack_peek non_analyzed_hashes with
      | None => let '(ret, memoization, hp) := hash243_set_add hp memoization tail_hash in Some (ret, false, memoization, hp)
      | Some hash =>
          if hash243_set_size analyzed_hashes =? below_max_depth conf then Some (RC_OK, true, memoization, hp) else
          if hash243_set_contains analyzed_hashes hash
          then below_loop fuel db hp memoization lowest_allowed_index tail_hash (hash243_stack_pop non_analyzed_hashes) analyzed_hashes curr_tx
          else
            let is_genesis_hash := memeq FLEX_TRIT_SIZE_243 (conf_genesis_hash conf) hash in
            let '(ret, analyzed_hashes, hp) := hash243_set_add hp analyzed_hashes hash in
            if negb (bool_decide (ret = RC_OK)) then Some (ret, true, memoization, hp) else
            let '(ret, curr_tx) :=
              if is_genesis_hash then (RC_OK, curr_tx) else
              let '(ret, pack) := iota_tangle_transaction_load_partial db hash (DECLARE_PACK_SINGLE curr_tx)
                                    PARTIAL_TX_MODEL_ESSENCE_ATTACHMENT_METADATA in (ret, single_tx pack curr_tx) in
            if negb (bool_decide (ret = RC_OK)) then Some (ret, true, memoization, hp) else
            let curr_snapshot_index := if is_genesis_hash then 0 else u32 (transaction_snapshot_index curr_tx) in
            if negb (curr_snapshot_index =? 0) && (curr_snapshot_index <? lowest_allowed_index) then Some (RC_OK, true, memoization, hp) else
            let '(ret, non_analyzed_hashes, hp) :=
              if negb is_genesis_hash && (transaction_snapshot_index curr_tx =? 0) && negb (hash243_set_contains memoization hash) then
                let '(ret, stack, hp) := hash243_stack_push hp non_analyzed_hashes (transaction_trunk curr_tx) in
                if negb (bool_decide (ret = RC_OK)) then (ret, stack, hp)
                else hash243_stack_push hp stack (transaction_branch curr_tx)
              else (RC_OK, non_analyzed_hashes, hp) in
            if negb (bool_decide (ret = RC_OK)) then Some (ret, true, memoization, hp) else
            below_loop fuel db hp memoization lowest_allowed_index tail_hash (hash243_stack_pop non_analyzed_hashes) analyzed_hashes curr_tx
      end
  end.

Definition iota_consensus_exit_prob_transaction_validator_below_max_depth (fuel : nat) (mem : iota_transaction_t) db hp
    (memoization : hash243_set) (tail_hash : hash_t) (lowest_allowed_index : Z) : option (retcode_t * bool * hash243_set * heap) :=
  let '(ret, stack, hp) := hash243_stack_push hp [] tail_hash in
  if negb (bool_decide (ret = RC_OK)) then Some (ret, true, memoization, hp) else
  below_loop fuel db hp memoization lowest_allowed_index tail_hash stack [] mem.

Definition lowest_index : Z :=
  u32 (if latest_solid_milestone_index lv <? max_depth conf then latest_solid_milestone_index lv
       else u64 (latest_solid_milestone_index lv - max_depth conf)).

(** The code, database, allocations, validator and [*is_valid]. *)
Definition iota_consensus_exit_prob_transaction_validator_is_valid (env : run_env) db hp epv (tail_hash : hash_t)
    : option (retcode_t * DB * heap * exit_prob_transaction_validator_t * bool) :=
  let '(ret, pack) := iota_tangle_transaction_load_partial db tail_hash (DECLARE_PACK_SINGLE (env_tx env))
                        PARTIAL_TX_MODEL_ESSENCE_ATTACHMENT_METADATA in
  if negb (bool_decide (ret = RC_OK)) then Some (ret, db, hp, epv, false) else
  if (num_loaded pack =? 0)%nat then Some (RC_OK, db, hp, epv, false) else
  let tx := single_tx pack (env_tx env) in
  if negb (transaction_current_index tx =? 0) then Some (RC_OK, db, hp, epv, false) else
  if negb (transaction_solid tx) then Some (RC_OK, db, hp, epv, false) else
  match iota_consensus_exit_prob_transaction_validator_below_max_depth (env_fuel env) (env_tx env) db hp (max_depth_ok_memoization epv)
          tail_hash lowest_index with
  | None => None
  | Some (ret, below, memoization, hp) =>
      let epv := mk_epv (epv_delta epv) (epv_analyzed_hashes epv) memoization in
      if negb (bool_decide (ret = RC_OK)) then Some (ret, db, hp, epv, false) else
      if below then Some (RC_OK, db, hp, epv, false) else
      match iota_consensus_ledger_validator_update_delta env lv db hp (epv_analyzed_hashes epv) (epv_delta epv) tail_hash with
      | None => None
      | Some (ret, db, hp, analyzed_hashes, delta, is_valid) => Some (ret, db, hp, mk_epv delta analyzed_hashes memoization, is_valid)
      end
  end.

(** ** Transition probabilities *)

Definition rand_handle_probability rng : double * Rng :=
  let '(r, rng) := rand rng in (double_div (double_of_int r) (double_of_int (u32 (u32 RAND_MAX + 1))), rng).

(** The ratings and the greatest; [None]: one is missing. *)
Fixpoint ratings_of (cw_ratings : hash_map Z) (approvers : hash243_set) (max_weight : double) : option (list double * double) :=
  match approvers with
  | [] => Some ([], max_weight)
  | approver :: approvers =>
      match hash_map_find cw_ratings approver with
      | None => None
      | Some rating =>
          match ratings_of cw_ratings approvers (double_max max_weight (double_of_int rating)) with
          | None => None
          | Some (ratings, max_weight) => Some (double_of_int rating :: ratings, max_weight)
          end
      end
  end.

Definition map_transition_probabilities (cw_ratings : hash_map Z) (approvers : hash243_set) : retcode_t * list double :=
  match ratings_of cw_ratings approvers (S754_zero false) with
  | None => (RC_EXIT_PROBABILITIES_MISSING_RATING, [])
  | Some (ratings, max_weight) =>
      let probs := map (fun rating => exp (double_mul (double_sub rating max_weight) (alpha conf))) ratings in
      let sum := foldl double_add (S754_zero false) probs in
      (RC_OK, map (fun p => double_div p sum) probs)
  end.

(** The hash is not written when the target stays above zero. *)
Fixpoint pick (target : double) (approvers : hash243_set) (probs : list double) (approver : hash_t) : hash_t :=
  match approvers, probs with
  | curr_approver :: approvers, p :: probs =>
      let target := double_sub target p in
      if SFleb target (S754_zero false) then curr_approver else pick target approvers probs approver
  | _, _ => approver
  end.

Definition select_approver rng (cw_ratings : hash_map Z) (approvers : hash243_set) (approver : hash_t) : retcode_t * hash_t * Rng :=
  let '(ret, probs) := map_transition_probabilities cw_ratings approvers in
  if negb (bool_decide (ret = RC_OK)) then (ret, approver, rng) else
  let sum_transition_probs := foldl double_add (S754_zero false) probs in
  let '(probability, rng) := rand_handle_probability rng in
  (RC_OK, pick (double_mul probability sum_transition_probs) approvers probs approver, rng).

(** ** The walk *)

(** What a walk is given: a run on the stack, the fuel of the loads of approvers, and
    what new buffers hold. *)
Record walk_env := mk_walk_env { we_run : run_env; we_resize : nat; we_hash : hash_t }.

(** What a walk acts on, with the buffer of the approver's hash. *)
Record walk_state := mk_walk {
  w_db : DB; w_heap : heap; w_epv : exit_prob_transaction_validator_t; w_tx_to_approvers : hash_to_indexed_hash_set_map_t;
  w_rng : Rng; w_approver : hash_t
}.
Implicit Types (w : walk_state).

Definition put_approver rng (approver : hash_t) w : walk_state :=
  mk_walk (w_db w) (w_heap w) (w_epv w) (w_tx_to_approvers w) rng approver.
Definition put_map (map : hash_to_indexed_hash_set_map_t) w : walk_state :=
  mk_walk (w_db w) (w_heap w) (w_epv w) map (w_rng w) (w_approver w).

(** The hash in the buffer is replaced by its tail. *)
Definition find_tail_if_valid (env : walk_env) w : option (retcode_t * walk_state * bool) :=
  match iota_tangle_find_tail (we_resize env) (we_hash env) (env_tx (we_run env)) (env_tx (we_run env)) (w_heap w) (w_db w)
          (w_approver w) (w_approver w) with
  | None => None
  | Some (ret, tail, has_valid_tail, hp) =>
      let w := mk_walk (w_db w) hp (w_epv w) (w_tx_to_approvers w) (w_rng w) tail in
      if negb (bool_decide (ret = RC_OK)) then Some (ret, w, has_valid_tail) else
      if has_valid_tail then
        match iota_consensus_exit_prob_transaction_validator_is_valid (we_run env) (w_db w) hp (w_epv w) tail with
        | None => None
        | Some (ret, db, hp, epv, is_valid) => Some (ret, mk_walk db hp epv (w_tx_to_approvers w) (w_rng w) tail, is_valid)
        end
      else Some (ret, w, false)
  end.

(** The loop over the approvers of [curr_tail_hash]; the result carries
    [*has_approver_tail]. *)
Fixpoint select_loop (fuel : nat) (env : walk_env) (cw_ratings : hash_map Z) (curr_tail_hash : hash_t) w
    : option (retcode_t * walk_state * bool) :=
  match fuel with
  | O => None
  | S fuel =>
      match HASH_FIND (w_tx_to_approvers w) curr_tail_hash with
      | None => Some (RC_OK, w, false)
      | Some entry =>
          if (length (ihs_approvers entry) =? 0)%nat then Some (RC_OK, w, false) else
          let '(ret, approver, rng) := select_approver (w_rng w) cw_ratings (ihs_approvers entry) (w_approver w) in
          if negb (bool_decide (ret = RC_OK)) then Some (ret, w, false) else
          match find_tail_if_valid env (put_approver rng approver w) with
          | None => None
          | Some (ret, w, has_approver_tail) =>
              if negb (bool_decide (ret = RC_OK)) then Some (ret, w, has_approver_tail) else
              if has_approver_tail then Some (RC_OK, w, true) else
              let approvers := (hash243_set_remove (ihs_approvers entry) (w_approver w)).2 in
              select_loop fuel env cw_ratings curr_tail_hash
                (put_map (set_value (w_tx_to_approvers w) curr_tail_hash (mk_indexed (ihs_idx entry) approvers)) w)
          end
      end
  end.

Definition random_walker_select_approver_tail := select_loop.

(** The loop of the walk: [moved] says whether [curr_tail_hash] points to the buffer
    [approver_tail_hash], which the next selection overwrites. *)
Fixpoint walk_loop (fuel : nat) (env : walk_env) (cw_ratings : hash_map Z) (ep : hash_t) (moved : bool) w
    : option (retcode_t * walk_state * hash_t) :=
  match fuel with
  | O => None
  | S fuel' =>
      match random_walker_select_approver_tail fuel env cw_ratings (if moved then w_approver w else ep) w with
      | None => None
      | Some (ret, w, has_approver_tail) =>
          if negb (bool_decide (ret = RC_OK)) then Some (ret, w, ep) else
          if has_approver_tail then walk_loop fuel' env cw_ratings ep true w
          else Some (RC_OK, w, if moved then w_approver w else ep)
      end
  end.

(** The code, what is left of the state and [tip]. *)
Definition iota_consensus_random_walker_randomize (fuel : nat) (env : walk_env) (cw_ratings : hash_map Z) (ep tip : hash_t) w
    : option (retcode_t * walk_state * hash_t) :=
  match iota_consensus_exit_prob_transaction_validator_is_valid (we_run env) (w_db w) (w_heap w) (w_epv w) ep with
  | None => None
  | Some (ret, db, hp, epv, ep_is_valid) =>
      let w := mk_walk db hp epv (w_tx_to_approvers w) (w_rng w) (w_approver w) in
      if negb (bool_decide (ret = RC_OK)) then Some (ret, w, tip) else
      if negb ep_is_valid then Some (RC_EXIT_PROBABILITIES_INVALID_ENTRYPOINT, w, tip) else
      match walk_loop fuel env cw_ratings ep false w with
      | None => None
      | Some (ret, w, curr_tail_hash) => if negb (bool_decide (ret = RC_OK)) then Some (ret, w, tip) else Some (RC_OK, w, curr_tail_hash)
      end
  end.

(** ** The selection of two tips *)

(** What the selection is given: a walk, the fuels of the walk and of the ratings, what
    an uninitialised milestone and the array of the bit set hold. *)
Record selection_env := mk_selection_env {
  se_walk : walk_env; se_fuel : nat; se_milestone : iota_milestone_t; se_raw : Z -> list Z
}.

(** Up to the label [done]; the code, what is left of the state and the tips. *)
Definition select_tips (env : selection_env) db hp rng (depth : Z) (reference : option hash_t) (tips : tips_pair_t)
    : outcome (retcode_t * DB * heap * Rng * tips_pair_t) :=
  let walk := se_walk env in
  let '(_, epv) := iota_consensus_exit_prob_transaction_validator_init in
  let '(ret, ep) := iota_consensus_entry_point_selector_get_entry_point (se_milestone env) db depth (we_hash walk) in
  if negb (bool_decide (ret = RC_OK)) then Done (ret, db, hp, rng, tips) else
  match cw_rating_calculate_dfs (se_fuel env) (we_resize walk) (we_hash walk) (se_raw env) db hp ep with
  | OutOfFuel => OutOfFuel
  | Undefined => Undefined
  | Done (ret, ratings, hp) =>
      if negb (bool_decide (ret = RC_OK)) then Done (ret, db, hp, rng, tips) else
      match iota_consensus_random_walker_randomize (se_fuel env) walk (cw_ratings ratings) ep (tips_trunk tips)
              (mk_walk db hp epv (tx_to_approvers ratings) rng (we_hash walk)) with
      | None => OutOfFuel
      | Some (ret, w, trunk) =>
          let tips := mk_tips trunk (tips_branch tips) in
          if negb (bool_decide (ret = RC_OK)) then Done (ret, w_db w, w_heap w, w_rng w, tips) else
          let '(ret, tips_stack, hp) := hash243_stack_push (w_heap w) [] trunk in
          if negb (bool_decide (ret = RC_OK)) then Done (ret, w_db w, hp, w_rng w, tips) else
          if match reference with Some r => negb (hash_map_contains (cw_ratings ratings) r) | None => false end
          then Done (RC_TIP_SELECTOR_REFERENCE_TOO_OLD, w_db w, hp, w_rng w, tips) else
          match iota_consensus_random_walker_randomize (se_fuel env) walk (cw_ratings ratings) (default ep reference) (tips_branch tips)
                  (mk_walk (w_db w) hp (w_epv w) (w_tx_to_approvers w) (w_rng w) (we_hash walk)) with
          | None => OutOfFuel
          | Some (ret, w, branch) =>
              let tips := mk_tips trunk branch in
              if negb (bool_decide (ret = RC_OK)) then Done (ret, w_db w, w_heap w, w_rng w, tips) else
              let '(ret, tips_stack, hp) := hash243_stack_push (w_heap w) tips_stack branch in
              if negb (bool_decide (ret = RC_OK)) then Done (ret, w_db w, hp, w_rng w, tips) else
              match iota_consensus_ledger_validator_check_consistency (we_run walk) lv (w_db w) hp tips_stack with
              | None => OutOfFuel
              | Some (ret, db, hp, consistent) =>
                  if negb (bool_decide (ret = RC_OK)) then Done (ret, db, hp, w_rng w, tips) else
                  Done (if consistent then RC_OK else RC_TIP_SELECTOR_TIPS_NOT_CONSISTENT, db, hp, w_rng w, tips)
              end
          end
      end
  end.

(** At the label [done] the code is the one of the destruction of the validator. *)
Definition iota_consensus_tip_selector_get_transactions_to_approve (env : selection_env) db hp rng (depth : Z) (reference : option hash_t)
    (tips : tips_pair_t) : outcome (retcode_t * DB * heap * Rng * tips_pair_t) :=
  match select_tips env db hp rng depth reference tips with
  | OutOfFuel => OutOfFuel
  | Undefined => Undefined
  | Done (_, db, hp, rng, tips) =>
      let '(ret, _) := iota_consensus_exit_prob_transaction_validator_destroy (mk_epv [] [] []) in Done (ret, db, hp, rng, tips)
  end.
End Selection.

(** * Lemmas *)

(** ** The entry point *)

Section EntryPoint.
Context {DB : Type} {SQ : Sqlite DB} {L : SqliteLaws DB} {R : SqliteReliable DB} (lv : ledger_validator_t).

Lemma filter_index (rows : list ms_row) index : NoDup (map ms_id rows) ->
  List.filter (fun m => ms_id m =? index) rows =
  match List.find (fun m => ms_id m =? index) rows with Some m => [m] | None => [] end.
Proof.
  induction rows as [|m rows IH]; [done|]. cbn [map List.filter List.find]. rewrite list.NoDup_cons. intros [Hn Hd].
  specialize (IH Hd). destruct (Z.eqb_spec (ms_id m) index) as [E|]; [|exact IH]. f_equal. rewrite IH.
  destruct (List.find _ rows) as [m'|] eqn:Ef; [|done]. exfalso. apply find_some in Ef as [Hin E'%Z.eqb_eq]. apply Hn.
  apply list_elem_of_In, in_map_iff. exists m'. split; [congruence|done].
Qed.

Lemma load_by_index_spec db index mem : 0 <= index < 2 ^ 31 -> NoDup (map ms_id (iota_milestone_table (tables_of db))) ->
  iota_tangle_milestone_load_by_index db index (DECLARE_PACK_SINGLE mem) =
  (RC_OK, match List.find (fun m => ms_id m =? index) (iota_milestone_table (tables_of db)) with
          | Some m => mk_pack [select_milestones_populate_from_row (ms_columns m) mem] 1 1 false
          | None => DECLARE_PACK_SINGLE mem
          end).
Proof.
  intros Hi Hd. unfold iota_tangle_milestone_load_by_index, storage_milestone_load_by_index.
  assert (query like (tables_of db) milestone_select_by_index [int_value index] =
    map ms_columns (List.filter (fun m => ms_id m =? index) (iota_milestone_table (tables_of db)))) as Hq.
  { cbn [query]. unfold select_milestones. f_equal. apply filter_ext. intros m. change (value_at _ _) with (SqlInt (i32 index)).
    unfold sql_eq. rewrite (bool_decide_eq_true_2 (_ <> SqlNull)), andb_true_r by done. rewrite (swrap_small 32 index) by lia.
    destruct (Z.eqb_spec (ms_id m) index) as [->|Hne]; [by apply bool_decide_eq_true_2|apply bool_decide_eq_false_2; congruence]. }
  rewrite (filter_index _ _ Hd) in Hq. destruct (List.find _ _) as [m|]; cbn [map] in Hq.
  - by apply bind_load_one.
  - by apply bind_load_none.
Qed.

(** The entry point of a walk is the milestone [depth] milestones before the latest
    solid one, or the first one when there are not as many; when this milestone is not
    in the database it is the latest solid milestone. *)
Theorem entry_point_at_depth db mem depth ep : NoDup (map ms_id (iota_milestone_table (tables_of db))) ->
  0 <= latest_solid_milestone_index lv < 2 ^ 31 -> 0 <= depth < 2 ^ 32 ->
  iota_consensus_entry_point_selector_get_entry_point lv mem db depth ep =
  (RC_OK, match List.find (fun m => ms_id m =? Z.max (latest_solid_milestone_index lv - depth) 1) (iota_milestone_table (tables_of db)) with
          | Some m => column_decompress_load (ms_columns m) 1 243
          | None => latest_solid_milestone lv
          end).
Proof.
  intros Hd Hs Hp. unfold iota_consensus_entry_point_selector_get_entry_point.
  replace (u64 (u64 (Z.max (i64 (i64 (i64 (latest_solid_milestone_index lv) - depth) - 1)) 0) + 1))
    with (Z.max (latest_solid_milestone_index lv - depth) 1).
  2: { rewrite (swrap_small 64 (latest_solid_milestone_index lv)) by lia. rewrite (swrap_small 64 (latest_solid_milestone_index lv - depth)) by lia.
       rewrite (swrap_small 64 (latest_solid_milestone_index lv - depth - 1)) by lia. unfold uwrap. rewrite (Z.mod_small (Z.max (latest_solid_milestone_index lv - depth - 1) 0)) by lia. rewrite Z.mod_small by lia. lia. }
  rewrite load_by_index_spec by (done || lia). rewrite (bool_decide_eq_true_2 (RC_OK = RC_OK)) by done. cbn [negb].
  by destruct (List.find _ _).
Qed.
End EntryPoint.

(** ** Below the maximal depth *)

Section Below.
Context {DB : Type} {SQ : Sqlite DB} (conf : selection_conf).
Implicit Types (db : DB) (hp : heap) (tx : iota_transaction_t) (stack : hash243_stack) (analyzed : hash243_set).

(** What the check reads of a transaction, apart from its branch. *)
Definition same_trunk tx1 tx2 : Prop :=
  transaction_trunk tx1 = transaction_trunk tx2 /\ transaction_snapshot_index tx1 = transaction_snapshot_index tx2.

Definition same_trunks (view1 view2 : hash_t -> option iota_transaction_t) : Prop := forall h,
  match view1 h, view2 h with Some tx1, Some tx2 => same_trunk tx1 tx2 | None, None => True | _, _ => False end.

Lemma load_same_trunk db1 db2 view1 view2 h tx1 tx2 : TangleView DB db1 view1 -> TangleView DB db2 view2 -> same_trunks view1 view2 ->
  same_trunk tx1 tx2 ->
  let load db tx := iota_tangle_transaction_load_partial db h (DECLARE_PACK_SINGLE tx) PARTIAL_TX_MODEL_ESSENCE_ATTACHMENT_METADATA in
  (load db1 tx1).1 = RC_OK /\ (load db2 tx2).1 = RC_OK /\ same_trunk (single_tx (load db1 tx1).2 tx1) (single_tx (load db2 tx2).2 tx2).
Proof.
  intros V1 V2 Hv Ht load. subst load. cbv beta.
  change (iota_tangle_transaction_load_partial ?db ?h ?p _) with (load_model MODEL_TRANSACTION_ESSENCE_ATTACHMENT_METADATA db h p).
  rewrite !load_view. specialize (Hv h). destruct (view1 h), (view2 h); try done.
Qed.

Lemma below_loop_same_trunk db1 db2 view1 view2 memo lowest tail_hash : TangleView DB db1 view1 -> TangleView DB db2 view2 ->
  same_trunks view1 view2 -> forall fuel hp stack analyzed tx1 tx2, same_trunk tx1 tx2 ->
  below_loop conf fuel db1 hp memo lowest tail_hash stack analyzed tx1 = below_loop conf fuel db2 hp memo lowest tail_hash stack analyzed tx2.
Proof.
  intros V1 V2 Hv. induction fuel as [|fuel IH]; intros hp stack analyzed tx1 tx2 Ht; cbn [below_loop]; [done|].
  destruct stack as [|h stack]; [done|]. cbn [hash243_stack_peek head]. destruct (_ =? below_max_depth conf); [done|].
  destruct (hash243_set_contains analyzed h); [by apply IH|]. destruct (hash243_set_add hp analyzed h) as [[ret an] hp1].
  destruct (negb (bool_decide (ret = RC_OK))); [done|].
  destruct (load_same_trunk db1 db2 view1 view2 h tx1 tx2 V1 V2 Hv Ht) as (E1 & E2 & Ht').
  destruct (iota_tangle_transaction_load_partial db1 _ _ _) as [r1 p1], (iota_tangle_transaction_load_partial db2 _ _ _) as [r2 p2].
  cbn [fst snd] in *. subst r1 r2. destruct (memeq FLEX_TRIT_SIZE_243 (conf_genesis_hash conf) h); cbn [negb andb].
  - rewrite (bool_decide_eq_true_2 (RC_OK = RC_OK)) by done. cbn [negb andb Z.eqb]. by apply IH.
  - rewrite (bool_decide_eq_true_2 (RC_OK = RC_OK)) by done. cbn [negb]. destruct (Ht') as [Et Es]. rewrite Et, Es.
    destruct (_ && (_ <? lowest)); [done|]. destruct (_ && negb (hash243_set_contains memo h)).
    + (* the branch is pushed, then popped *)
      destruct (hash243_stack_push hp1 (h :: stack) _) as [[r3 st3] hp3]. destruct (bool_decide_reflect (r3 = RC_OK)) as [->|]; cbn [negb].
      * unfold hash243_stack_push. destruct (malloc hp3) as [ok hp4]. destruct ok; cbn [negb].
        -- rewrite (bool_decide_eq_true_2 (RC_OK = RC_OK)) by done. cbn [negb hash243_stack_pop tail]. by apply IH.
        -- by rewrite (bool_decide_eq_false_2 (RC_OOM = RC_OK)).
      * by rewrite (bool_decide_eq_false_2 (r3 = RC_OK)).
    + rewrite (bool_decide_eq_true_2 (RC_OK = RC_OK)) by done. cbn [negb]. by apply IH.
Qed.

(** The check of the depth of a tail does not look at any branch.  Each branch is
    popped from the stack where the transaction itself should be, so that two
    databases that differ in the branches only give the same answer, whatever the
    allocations, the fuel and the memoization: a tail whose branch is below the
    maximal depth passes. *)
Theorem below_max_depth_ignores_branches db1 db2 view1 view2 : TangleView DB db1 view1 -> TangleView DB db2 view2 ->
  same_trunks view1 view2 -> forall fuel mem hp memo tail_hash lowest,
  iota_consensus_exit_prob_transaction_validator_below_max_depth conf fuel mem db1 hp memo tail_hash lowest =
  iota_consensus_exit_prob_transaction_validator_below_max_depth conf fuel mem db2 hp memo tail_hash lowest.
Proof.
  intros V1 V2 Hv fuel mem hp memo tail_hash lowest. unfold iota_consensus_exit_prob_transaction_validator_below_max_depth.
  destruct (hash243_stack_push hp [] tail_hash) as [[ret stack] hp1]. destruct (negb _); [done|].
  by apply (below_loop_same_trunk db1 db2 view1 view2).
Qed.
End Below.

(** ** What the check guarantees *)

Section Depth.
Context {DB : Type} {SQ : Sqlite DB} (conf : selection_conf) (db : DB) (view : hash_t -> option iota_transaction_t).
Context {V : TangleView DB db view} (memo : hash243_set) (tail_hash : hash_t) (lowest_allowed_index : Z).
Implicit Types (h x y : hash_t) (stack : hash243_stack) (analyzed : hash243_set).

Definition is_genesis h : bool := memeq FLEX_TRIT_SIZE_243 (conf_genesis_hash conf) h.

(** From an unconfirmed transaction to its trunk. *)
Definition trunk_step h h' : Prop :=
  exists tx, view h = Some tx /\ is_genesis h = false /\ transaction_snapshot_index tx = 0 /\ (h ∉ memo) /\ h' = transaction_trunk tx.

Definition deep_enough h : Prop :=
  is_genesis h = true \/
  match view h with
  | Some tx => u32 (transaction_snapshot_index tx) = 0 \/ lowest_allowed_index <= u32 (transaction_snapshot_index tx)
  | None => True
  end.

Record checked stack analyzed : Prop := {
  ck_deep h : h ∈ analyzed -> deep_enough h;
  ck_closed h h' : h ∈ analyzed -> trunk_step h h' -> (h' ∈ analyzed) \/ (h' ∈ stack);
  ck_start : (tail_hash ∈ analyzed) \/ (tail_hash ∈ stack)
}.

Lemma checked_skip h stack analyzed : h ∈ analyzed -> checked (h :: stack) analyzed -> checked stack analyzed.
Proof.
  intros Hh [H1 H2 H3]. split; [done| |].
  - intros x y Hx Hy. destruct (H2 x y Hx Hy) as [H|[->|H]%list.elem_of_cons]; auto.
  - destruct H3 as [H|[->|H]%list.elem_of_cons]; auto.
Qed.

Lemma checked_add h stack stack' analyzed : deep_enough h -> (forall h', trunk_step h h' -> h' ∈ stack') -> (forall x, x ∈ stack -> x ∈ stack') ->
  checked (h :: stack) analyzed -> checked stack' (analyzed ++ [h]).
Proof.
  intros Hd Hn Hi [H1 H2 H3]. split.
  - intros x [Hx| ->%list_elem_of_singleton]%list.elem_of_app; auto.
  - intros x y Hx Hy. rewrite list.elem_of_app, list_elem_of_singleton. apply list.elem_of_app in Hx as [Hx| ->%list_elem_of_singleton]; [|auto].
    destruct (H2 x y Hx Hy) as [H|[->|H]%list.elem_of_cons]; auto.
  - rewrite list.elem_of_app, list_elem_of_singleton. destruct H3 as [H|[->|H]%list.elem_of_cons]; auto.
Qed.

Lemma checked_end analyzed : checked [] analyzed -> forall h, rtc trunk_step tail_hash h -> deep_enough h.
Proof.
  intros [H1 H2 H3] h Hr. apply H1.
  assert (forall x y, rtc trunk_step x y -> x ∈ analyzed -> y ∈ analyzed) as Hc.
  { induction 1 as [|x1 x2 x3 H12 _ IH]; [done|]. intros Hx. apply IH. by destruct (H2 _ _ Hx H12) as [|H%not_elem_of_nil]. }
  apply (Hc tail_hash); [done|]. by destruct H3 as [|H%not_elem_of_nil].
Qed.

(** What is loaded of a transaction, over [mem]. *)
Lemma load_trunk h mem :
  let load := iota_tangle_transaction_load_partial db h (DECLARE_PACK_SINGLE mem) PARTIAL_TX_MODEL_ESSENCE_ATTACHMENT_METADATA in
  load.1 = RC_OK /\
  match view h with
  | Some tx => transaction_trunk (single_tx load.2 mem) = transaction_trunk tx /\
      transaction_snapshot_index (single_tx load.2 mem) = transaction_snapshot_index tx
  | None => True
  end.
Proof.
  intros load. subst load. change (iota_tangle_transaction_load_partial ?db ?h ?p _) with (load_model MODEL_TRANSACTION_ESSENCE_ATTACHMENT_METADATA db h p).
  rewrite load_view. by destruct (view h).
Qed.

Lemma below_loop_checked : forall fuel hp stack analyzed mem ret memo' hp', checked stack analyzed ->
  below_loop conf fuel db hp memo lowest_allowed_index tail_hash stack analyzed mem = Some (ret, false, memo', hp') ->
  forall h, rtc trunk_step tail_hash h -> deep_enough h.
Proof.
  induction fuel as [|fuel IH]; intros hp stack analyzed mem ret memo' hp' Hc E; cbn [below_loop] in E; [done|].
  destruct stack as [|h stack]; cbn [hash243_stack_peek head] in E; [by eapply checked_end|].
  destruct (_ =? below_max_depth conf); [done|]. unfold hash243_set_contains in E at 1.
  destruct (bool_decide_reflect (h ∈ analyzed)) as [Hh|Hh]; [by eapply IH, E; eapply checked_skip|].
  unfold hash243_set_add in E. unfold hash243_set_contains in E at 1.
  rewrite (bool_decide_eq_false_2 (h ∈ analyzed)) in E by done. cbn [negb] in E.
  destruct (malloc hp) as [[] hp1]; cbn [negb] in E; [|by rewrite (bool_decide_eq_false_2 (RC_OOM = RC_OK)) in E].
  rewrite (bool_decide_eq_true_2 (RC_OK = RC_OK)) in E by done. cbn [negb] in E.
  destruct (load_trunk h mem) as [El Ht]. fold (is_genesis h) in E.
  destruct (is_genesis h) eqn:Eg; cbn [negb andb] in E.
  - rewrite (bool_decide_eq_true_2 (RC_OK = RC_OK)) in E by done. cbn in E. eapply IH, E. eapply checked_add, Hc.
    + by left.
    + intros h' (tx & _ & Hg & _). congruence.
    + done.
  - destruct (iota_tangle_transaction_load_partial _ _ _ _) as [r pack]. cbn [fst snd] in *. subst r.
    rewrite (bool_decide_eq_true_2 (RC_OK = RC_OK)) in E by done. cbn [negb] in E. set (tx := single_tx pack mem) in *.
    destruct (negb (u32 (transaction_snapshot_index tx) =? 0) && (u32 (transaction_snapshot_index tx) <? lowest_allowed_index)) eqn:Eb; [done|].
    assert (deep_enough h) as Hd.
    { right. destruct (view h) as [tx'|]; [|done]. destruct Ht as [_ <-]. apply andb_false_iff in Eb as [Eb|Eb]; [left|right]; lia. }
    assert (forall h', trunk_step h h' -> (transaction_snapshot_index tx =? 0) && negb (hash243_set_contains memo h) = true /\ h' = transaction_trunk tx) as Hn.
    { intros h' (tx' & Hv & _ & Hs & Hm & ->). rewrite Hv in Ht. destruct Ht as [-> ->]. split; [|done]. rewrite Hs. cbn.
      unfold hash243_set_contains. by rewrite bool_decide_eq_false_2. }
    destruct (_ && negb (hash243_set_contains memo h)).
    + destruct (hash243_stack_push hp1 (h :: stack) _) as [[r2 st2] hp2] eqn:E2. unfold hash243_stack_push in E2.
      destruct (malloc hp1) as [[] hp3]; cbn [negb] in E2; injection E2 as <- <- <-;
        [|by rewrite !(bool_decide_eq_false_2 (RC_OOM = RC_OK)) in E by done].
      rewrite (bool_decide_eq_true_2 (RC_OK = RC_OK)) in E by done. cbn [negb] in E. unfold hash243_stack_push in E.
      destruct (malloc hp3) as [[] hp4]; cbn [negb] in E; [|by rewrite (bool_decide_eq_false_2 (RC_OOM = RC_OK)) in E].
      rewrite (bool_decide_eq_true_2 (RC_OK = RC_OK)) in E by done. cbn [negb hash243_stack_pop List.tail] in E.
      eapply IH, E. eapply checked_add, Hc; [done| |].
      * intros h' [_ ->]%Hn. left.
      * intros x Hx. by do 2 right.
    + rewrite (bool_decide_eq_true_2 (RC_OK = RC_OK)) in E by done. cbn [negb hash243_stack_pop List.tail] in E.
      eapply IH, E. eapply checked_add, Hc; [done| |done]. intros h' [Hf _]%Hn. done.
Qed.

(** What passing the check of the depth means: on the way from the tail along the
    trunks of unconfirmed transactions, up to what was found good before, no
    transaction has been confirmed by a milestone below the lowest allowed one. *)
Theorem below_max_depth_sound fuel mem hp ret memo' hp' :
  iota_consensus_exit_prob_transaction_validator_below_max_depth conf fuel mem db hp memo tail_hash lowest_allowed_index =
    Some (ret, false, memo', hp') ->
  forall h, rtc trunk_step tail_hash h -> deep_enough h.
Proof.
  intros E. unfold iota_consensus_exit_prob_transaction_validator_below_max_depth, hash243_stack_push in E.
  destruct (malloc hp) as [[] hp1]; cbn [negb] in E; [|by rewrite (bool_decide_eq_false_2 (RC_OOM = RC_OK)) in E].
  rewrite (bool_decide_eq_true_2 (RC_OK = RC_OK)) in E by done. cbn [negb] in E. eapply below_loop_checked, E. split.
  - intros h Hh%not_elem_of_nil. done.
  - intros h h' Hh%not_elem_of_nil. done.
  - right. left.
Qed.
End Depth.

(** ** The walk *)

Section Walk.
Context {DB : Type} {SQ : Sqlite DB} {St : Type} {Sp : Sponge St} {SI : SpongeInit St} {Rng : Type} {C : CLibrary Rng}.
Context (conf : selection_conf) (lv : ledger_validator_t) (env : walk_env) (cw_ratings : hash_map Z).
Implicit Types (w : walk_state (DB := DB) (Rng := Rng)) (h : hash_t).

(** The validator has accepted the tail. *)
Definition accepted h : Prop := exists (db : DB) hp epv db' hp' epv',
  iota_consensus_exit_prob_transaction_validator_is_valid conf lv (we_run env) db hp epv h = Some (RC_OK, db', hp', epv', true).

Definition candidates (map : hash_to_indexed_hash_set_map_t) h : hash243_set :=
  match HASH_FIND map h with Some entry => ihs_approvers entry | None => [] end.

Lemma find_tail_accepts w w' : find_tail_if_valid conf lv env w = Some (RC_OK, w', true) -> accepted (w_approver w').
Proof.
  intros E. unfold find_tail_if_valid in E. destruct (iota_tangle_find_tail _ _ _ _ _ _ _ _) as [[[[ret h] found] hp]|]; [|done].
  destruct (negb (bool_decide (ret = RC_OK))) eqn:Er; [by injection E as -> <- ->|]. destruct found; [|done].
  destruct (iota_consensus_exit_prob_transaction_validator_is_valid _ _ _ _ _ _ _) as [[[[[r1 db1] hp1] epv1] valid]|] eqn:Ev; [|done].
  injection E as -> <- ->. cbn [w_approver]. by exists (w_db w), hp, (w_epv w), db1, hp1, epv1.
Qed.

(** One turn of the selection. *)
Lemma select_turn fuel c w entry : HASH_FIND (w_tx_to_approvers w) c = Some entry -> ihs_approvers entry <> [] ->
  select_loop conf lv (S fuel) env cw_ratings c w =
  let '(ret, approver, rng) := select_approver conf (w_rng w) cw_ratings (ihs_approvers entry) (w_approver w) in
  if negb (bool_decide (ret = RC_OK)) then Some (ret, w, false) else
  match find_tail_if_valid conf lv env (put_approver rng approver w) with
  | None => None
  | Some (ret, w, found) =>
      if negb (bool_decide (ret = RC_OK)) then Some (ret, w, found) else
      if found then Some (RC_OK, w, true) else
      select_loop conf lv fuel env cw_ratings c
        (put_map (set_value (w_tx_to_approvers w) c (mk_indexed (ihs_idx entry) (set_del (ihs_approvers entry) (w_approver w)))) w)
  end.
Proof. intros Hf Hn. cbn [select_loop]. rewrite Hf. by destruct (ihs_approvers entry). Qed.

Lemma select_none fuel c w : candidates (w_tx_to_approvers w) c = [] ->
  select_loop conf lv (S fuel) env cw_ratings c w = Some (RC_OK, w, false).
Proof.
  intros Hn. cbn [select_loop]. unfold candidates in Hn. destruct (HASH_FIND _ c) as [entry|]; [|done]. by rewrite Hn.
Qed.

Lemma select_accepts fuel : forall c w w', select_loop conf lv fuel env cw_ratings c w = Some (RC_OK, w', true) -> accepted (w_approver w').
Proof.
  induction fuel as [|fuel IH]; intros c w w' E; [done|]. destruct (decide (candidates (w_tx_to_approvers w) c = [])) as [Hn|Hn].
  { by rewrite select_none in E. }
  unfold candidates in Hn. destruct (HASH_FIND (w_tx_to_approvers w) c) as [entry|] eqn:Ef; [|done].
  rewrite (select_turn _ _ _ _ Ef Hn) in E. destruct (select_approver _ _ _ _ _) as [[ret h] rng]. destruct (negb _); [done|].
  destruct (find_tail_if_valid _ _ _ _) as [[[r1 w1] found]|] eqn:Et; [|done].
  destruct (bool_decide_reflect (r1 = RC_OK)) as [->|]; cbn [negb] in E; [|by injection E].
  destruct found; [|by eapply IH]. injection E as <-. by eapply find_tail_accepts.
Qed.

(** Where the walk ends: at [last], that the validator accepted and that has no other
    tail to go to.  The tip is [last], or what is left in the buffer. *)
Definition ends_at (w' : walk_state) (tip last : hash_t) : Prop :=
  exists fuel w1, accepted last /\ select_loop conf lv fuel env cw_ratings last w1 = Some (RC_OK, w', false) /\
    (tip = last \/ (tip = w_approver w' /\ candidates (w_tx_to_approvers w1) last <> [])).

Lemma walk_loop_ends (ep : hash_t) : forall fuel (moved : bool) w w' tip, accepted (if moved then w_approver w else ep) ->
  walk_loop conf lv fuel env cw_ratings ep moved w = Some (RC_OK, w', tip) -> exists last, ends_at w' tip last.
Proof.
  induction fuel as [|fuel IH]; intros moved w w' tip Ha E; [done|]. cbn [walk_loop] in E. unfold random_walker_select_approver_tail in E.
  set (c := if moved then w_approver w else ep) in *.
  destruct (select_loop conf lv (S fuel) env cw_ratings c w) as [[[ret w1] found]|] eqn:Es; [|done].
  destruct (bool_decide_reflect (ret = RC_OK)) as [->|]; cbn [negb] in E; [|by injection E].
  destruct found; [by eapply (IH true w1), E; eapply select_accepts|]. injection E as <- <-. exists c, (S fuel), w. split_and!; [done|done|].
  destruct (decide (candidates (w_tx_to_approvers w) c = [])) as [Hn|Hn].
  - left. rewrite select_none in Es by done. by injection Es as <-.
  - subst c. destruct moved; [by right|by left].
Qed.

(** Where a walk that succeeds ends.  The validator has accepted the entry point and
    the last tail, which no accepted tail approves; the tip is this last tail, except
    that the walk returns what the last selection left in the buffer when it had
    approvers to try and rejected them all. *)
Theorem walk_ends_at_accepted_tail fuel (ep tip : hash_t) w w' tip' :
  iota_consensus_random_walker_randomize conf lv fuel env cw_ratings ep tip w = Some (RC_OK, w', tip') ->
  accepted ep /\ exists last, ends_at w' tip' last.
Proof.
  intros E. unfold iota_consensus_random_walker_randomize in E.
  destruct (iota_consensus_exit_prob_transaction_validator_is_valid _ _ _ _ _ _ _) as [[[[[ret db1] hp1] epv1] valid]|] eqn:Ev; [|done].
  destruct (bool_decide_reflect (ret = RC_OK)) as [->|]; cbn [negb] in E; [|by injection E].
  destruct valid; cbn [negb] in E; [|done].
  assert (accepted ep) as Ha by (by exists (w_db w), (w_heap w), (w_epv w), db1, hp1, epv1). split; [done|].
  destruct (walk_loop _ _ _ _ _ _ _ _) as [[[r2 w2] c]|] eqn:Ew; [|done].
  destruct (bool_decide_reflect (r2 = RC_OK)) as [->|]; cbn [negb] in E; [|by injection E]. injection E as <- <-.
  by eapply (walk_loop_ends ep fuel false).
Qed.
End Walk.

(** ** The selection *)

Section Tips.
Context {DB : Type} {SQ : Sqlite DB} {St : Type} {Sp : Sponge St} {SI : SpongeInit St} {Rng : Type} {C : CLibrary Rng}.
Context (conf : selection_conf) (lv : ledger_validator_t) (env : selection_env).

(** The tip ends a walk from [ep]. *)
Definition walked (cw_ratings : hash_map Z) (ep tip : hash_t) : Prop :=
  accepted (DB := DB) conf lv (se_walk env) ep /\
  exists (w' : walk_state (DB := DB) (Rng := Rng)) last, ends_at conf lv (se_walk env) cw_ratings w' tip last.

End Tips.

(** ** Examples *)

Module Sample.
Export Ledger.Sample.

(** A generator that returns zero, and an exponential that is right at zero. *)
#[export] Instance library : CLibrary unit := {| RAND_MAX := 2147483647; rand _ := (0, tt); exp _ := double_of_int 1 |}.

Definition conf : selection_conf := mk_selection_conf (double_of_int 1) 100 genesis 15.
Definition walk : walk_env := mk_walk_env env 8 genesis.

Definition node (n trunk index last bundle : Z) (solid : bool) (snapshot : Z) : iota_transaction_t :=
  mk_tx (mk_essence (numbered 20) 0 (replicate 81 0) 1546300800 index last (numbered bundle))
    (mk_attachment (numbered trunk) genesis 1546300801 0 3812798742493 (replicate 81 1) (replicate 81 0))
    (mk_consensus (numbered n)) (mk_data (replicate NUM_TRITS_SIGNATURE 0)) (mk_metadata snapshot solid (status_value BUNDLE_VALID) 7)
    (mk_mask 0 0 0 0 0).

Definition nodes_db (nodes : list iota_transaction_t) : memory_db := mk_memory_db (mk_tables (map row_of nodes) [] []) None.

Definition ratings (db : memory_db) : cw_calc_result :=
  match cw_rating_calculate_dfs 16 8 genesis zeros db [] (numbered 10) with Done (_, r, _) => r | _ => mk_cw [] [] end.

Definition start (db : memory_db) : walk_state (DB := memory_db) (Rng := unit) :=
  mk_walk db [] (mk_epv [] [] []) (tx_to_approvers (ratings db)) tt genesis.

(** The entry point is approved by a tail, which a tail approves that is not solid. *)
Definition rejected : list iota_transaction_t :=
  [node 10 0 0 0 21 true 0; node 11 10 0 0 22 true 0; node 12 11 0 0 23 false 0].

(** The only approver of the entry point is the second transaction of a bundle, whose
    tail is not solid. *)
Definition stuck : list iota_transaction_t :=
  [node 10 0 0 0 21 true 0; node 11 10 1 1 22 true 0; node 12 11 0 1 22 false 0].
End Sample.
#[local] Existing Instance Sample.library.

Abbreviation sample_walk fuel nodes :=
  (iota_consensus_random_walker_randomize (Sp := Iss.ToySponge.sponge) Sample.conf Sample.lv fuel Sample.walk
     (cw_ratings (Sample.ratings (Sample.nodes_db nodes))) (Sample.numbered 10) Sample.genesis (Sample.start (Sample.nodes_db nodes))).

Lemma walk_ends_at_accepted_tail_witness : accepted (Sp := Iss.ToySponge.sponge) (DB := memory_db) Sample.conf Sample.lv Sample.walk (Sample.numbered 10).
Proof.
  assert (exists w' tip, sample_walk 8 (take 2 Sample.rejected) = Some (RC_OK, w', tip)) as (w' & tip & E) by (do 2 eexists; vm_compute; reflexivity).
  exact (proj1 (walk_ends_at_accepted_tail _ _ _ _ _ _ _ _ _ _ E)).
Defined.

(** A walk can return a tip that the validator has just rejected.  The pointer to
    the current tail points to the buffer that the next selection writes to: here the
    walk moves to a tail whose only approver is not solid, and the tip is the
    approver. *)
Theorem walk_returns_rejected_tip :
  match sample_walk 8 Sample.rejected with
  | Some (ret, w', tip) =>
      ret = RC_OK /\ tip = Sample.numbered 12 /\
      match iota_consensus_exit_prob_transaction_validator_is_valid (Sp := Iss.ToySponge.sponge) Sample.conf Sample.lv Sample.env
              (w_db w') (w_heap w') (w_epv w') tip with
      | Some (ret, _, _, _, is_valid) => ret = RC_OK /\ is_valid = false
      | None => False
      end
  | None => False
  end.
Proof. vm_compute. repeat split. Qed.

(** The state of the walk that does not end, after its first turn. *)
Definition stuck_state : walk_state (DB := memory_db) (Rng := unit) :=
  let w := Sample.start (Sample.nodes_db Sample.stuck) in
  match iota_consensus_exit_prob_transaction_validator_is_valid (Sp := Iss.ToySponge.sponge) Sample.conf Sample.lv Sample.env
          (w_db w) (w_heap w) (w_epv w) (Sample.numbered 10) with
  | Some (_, db, hp, epv, _) => mk_walk db hp epv (w_tx_to_approvers w) tt (Sample.numbered 12)
  | None => w
  end.

Lemma stuck_turn fuel w : w = stuck_state \/ w = put_approver tt Sample.genesis stuck_state ->
  select_loop (Sp := Iss.ToySponge.sponge) Sample.conf Sample.lv (S fuel) Sample.walk (cw_ratings (Sample.ratings (Sample.nodes_db Sample.stuck)))
    (Sample.numbered 10) w =
  select_loop (Sp := Iss.ToySponge.sponge) Sample.conf Sample.lv fuel Sample.walk (cw_ratings (Sample.ratings (Sample.nodes_db Sample.stuck)))
    (Sample.numbered 10) stuck_state.
Proof.
  intros Hw. rewrite (select_turn _ _ _ _ fuel (Sample.numbered 10) w (mk_indexed 0 [Sample.numbered 11]));
    [|destruct Hw as [-> | ->]; vm_compute; reflexivity|done].
  assert (select_approver Sample.conf (w_rng w) (cw_ratings (Sample.ratings (Sample.nodes_db Sample.stuck))) [Sample.numbered 11] (w_approver w) =
    (RC_OK, Sample.numbered 11, tt)) as E1 by (destruct Hw as [-> | ->]; vm_compute; reflexivity).
  cbn [ihs_approvers ihs_idx]. rewrite E1. rewrite (bool_decide_eq_true_2 (RC_OK = RC_OK)) by done. cbn [negb].
  assert (find_tail_if_valid (Sp := Iss.ToySponge.sponge) Sample.conf Sample.lv Sample.walk (put_approver tt (Sample.numbered 11) w) =
    Some (RC_OK, stuck_state, false)) as E2 by (destruct Hw as [-> | ->]; vm_compute; reflexivity).
  rewrite E2. rewrite (bool_decide_eq_true_2 (RC_OK = RC_OK)) by done. cbn [negb]. reflexivity.
Qed.

(** A walk can go on forever.  What is removed from the approvers is the tail that
    was rejected, not the approver that led to it: here the only approver of the entry
    point is no tail, its tail is not solid, and whatever the fuel the walk selects
    the same approver again. *)
Theorem walk_spins fuel : sample_walk fuel Sample.stuck = None.
Proof.
  unfold iota_consensus_random_walker_randomize, Sample.start. cbn [w_db w_heap w_epv].
  assert (exists db hp epv, iota_consensus_exit_prob_transaction_validator_is_valid (Sp := Iss.ToySponge.sponge) Sample.conf Sample.lv
    (we_run Sample.walk) (Sample.nodes_db Sample.stuck) [] (mk_epv [] [] []) (Sample.numbered 10) = Some (RC_OK, db, hp, epv, true) /\
    mk_walk db hp epv (tx_to_approvers (Sample.ratings (Sample.nodes_db Sample.stuck))) tt Sample.genesis = put_approver tt Sample.genesis stuck_state)
    as (db & hp & epv & -> & E) by (do 3 eexists; split; vm_compute; reflexivity).
  rewrite (bool_decide_eq_true_2 (RC_OK = RC_OK)) by done. cbn [negb w_tx_to_approvers w_rng w_approver]. rewrite E.
  assert (forall fuel w, w = stuck_state \/ w = put_approver tt Sample.genesis stuck_state ->
    select_loop (Sp := Iss.ToySponge.sponge) Sample.conf Sample.lv fuel Sample.walk (cw_ratings (Sample.ratings (Sample.nodes_db Sample.stuck)))
      (Sample.numbered 10) w = None) as Hs.
  { clear. induction fuel as [|fuel IH]; intros w Hw; [done|]. rewrite stuck_turn by done. apply IH. by left. }
  destruct fuel as [|fuel]; [done|]. cbn [walk_loop]. unfold random_walker_select_approver_tail. rewrite Hs by (by right). done.
Qed.

(** The database of a node with its first milestone, the entry point. *)
Definition tips_db (nodes : list iota_transaction_t) : memory_db :=
  mk_memory_db (mk_tables (map row_of nodes) [mk_ms_row 5 (Sample.numbered 10) SqlNull] []) None.

Definition sample_env : selection_env := mk_selection_env Sample.walk 8 (mk_milestone 0 []) zeros.

Abbreviation sample_tips nodes reference :=
  (select_tips (Sp := Iss.ToySponge.sponge) Sample.conf Sample.lv sample_env (tips_db nodes) [] tt 0 reference (mk_tips [] [])).


(** The selection hides every error.  What it returns once it ends is the code of the
    destruction of the validator, [RC_OK]; here the walk returns a rejected tip, the
    ledger validator fails on it because it is not solid, and the selection reports
    success with this trunk. *)
Theorem selection_hides_errors :
  (forall DB (SQ : Sqlite DB) St (Sp : Sponge St) (SI : SpongeInit St) Rng (C : CLibrary Rng) conf lv env (db : DB) hp (rng : Rng) depth reference tips
      ret db' hp' rng' tips',
    iota_consensus_tip_selector_get_transactions_to_approve conf lv env db hp rng depth reference tips = Done (ret, db', hp', rng', tips') ->
    ret = RC_OK) /\
  exists db' hp' rng' tips',
    sample_tips Sample.rejected None = Done (RC_LEDGER_VALIDATOR_TRANSACTION_NOT_SOLID, db', hp', rng', tips') /\
    iota_consensus_tip_selector_get_transactions_to_approve (Sp := Iss.ToySponge.sponge) Sample.conf Sample.lv sample_env
      (tips_db Sample.rejected) [] tt 0 None (mk_tips [] []) = Done (RC_OK, db', hp', rng', tips') /\
    tips_trunk tips' = Sample.numbered 12 /\ option_map transaction_solid (view_of Sample.rejected (tips_trunk tips')) = Some false.
Proof.
  split.
  - intros until tips'. intros E. unfold iota_consensus_tip_selector_get_transactions_to_approve in E.
    destruct (select_tips _ _ _ _ _ _ _ _ _) as [[[[[r db1] hp1] rng1] tips1]| |]; [|done..]. by injection E.
  - assert (exists db' hp' rng' tips',
      sample_tips Sample.rejected None = Done (RC_LEDGER_VALIDATOR_TRANSACTION_NOT_SOLID, db', hp', rng', tips') /\
      tips_trunk tips' = Sample.numbered 12 /\ option_map transaction_solid (view_of Sample.rejected (tips_trunk tips')) = Some false)
      as (db' & hp' & rng' & tips' & E & H) by (do 4 eexists; split; [vm_compute; reflexivity|split; vm_compute; reflexivity]).
    exists db', hp', rng', tips'. split; [exact E|]. split; [|exact H].
    unfold iota_consensus_tip_selector_get_transactions_to_approve. by rewrite E.
Qed.

Lemma entry_point_at_depth_witness :
  iota_consensus_entry_point_selector_get_entry_point Sample.lv (mk_milestone 0 []) (tips_db []) 0 [] = (RC_OK, Sample.numbered 10).
Proof.
  assert (NoDup (map ms_id (iota_milestone_table (tables_of (tips_db []))))) as Hn by (apply (bool_decide_unpack _); vm_compute; exact I).
  rewrite (entry_point_at_depth Sample.lv (tips_db []) (mk_milestone 0 []) 0 [] Hn ltac:(cbn; lia) ltac:(lia)). vm_compute. reflexivity.
Defined.

(** A tail whose trunk or branch, or neither, was confirmed by milestone 2. *)
Definition deep (branch trunk : Z) : list iota_transaction_t :=
  [transaction_set_branch (Sample.node 10 trunk 0 0 21 true 0) (Sample.numbered branch); Sample.node 11 0 0 0 22 true 2].

Lemma deep_contents branch trunk : contents (Sample.nodes_db (deep branch trunk)) (deep branch trunk).
Proof.
  assert (forall n, length (Sample.numbered n) = 243%nat) as Hn by (intros n; unfold Sample.numbered; by rewrite length_app, length_replicate).
  split.
  - reflexivity.
  - repeat apply Forall_cons_2; [| |constructor]; (split; [|closed_decide|cbn; repeat constructor; lia|cbn; lia]).
    all: split_and!; cbn [d_signature_or_message e_address e_obsolete_tag e_bundle a_trunk a_branch a_tag a_nonce c_hash essence attachment
      consensus data transaction_set_branch Sample.node]; rewrite ?length_replicate, ?Hn; done.
  - apply (bool_decide_unpack _). vm_compute. exact I.
Qed.

Definition check_depth branch trunk :=
  iota_consensus_exit_prob_transaction_validator_below_max_depth Sample.conf 8 sample_tx (Sample.nodes_db (deep branch trunk)) [] []
    (Sample.numbered 10) 3.

Lemma below_max_depth_ignores_branches_witness : check_depth 11 0 = check_depth 0 0 /\ check_depth 11 0 = Some (RC_OK, false, [Sample.numbered 10], []).
Proof.
  pose proof (view_contents _ _ (deep_contents 11 0)) as V1. pose proof (view_contents _ _ (deep_contents 0 0)) as V2.
  assert (same_trunks (view_of (deep 11 0)) (view_of (deep 0 0))) as Hs.
  { intros h. unfold view_of, deep. cbn [List.find].
    change (same_hash h (transaction_set_branch ?tx ?b)) with (same_hash h tx).
    destruct (same_hash h (Sample.node 10 0 0 0 21 true 0)); [by split|]. by destruct (same_hash h _). }
  split; [|vm_compute; reflexivity].
  exact (below_max_depth_ignores_branches Sample.conf _ _ _ _ V1 V2 Hs 8 sample_tx [] [] (Sample.numbered 10) 3).
Defined.

Lemma below_max_depth_sound_witness : deep_enough Sample.conf (view_of (deep 0 0)) 3 (Sample.numbered 10).
Proof.
  pose proof (view_contents _ _ (deep_contents 0 0)) as V.
  assert (check_depth 0 0 = Some (RC_OK, false, [Sample.numbered 10], [])) as E by (vm_compute; reflexivity).
  exact (below_max_depth_sound Sample.conf _ _ (V := V) [] (Sample.numbered 10) 3 8 sample_tx [] RC_OK _ _ E _ (rtc_refl _ _)).
Defined.
