(* ===== verification/Troika.v ===== *)
(** * Troika

    [common/crypto/troika/troika.c]: the reference implementation of the hash function
    Troika, on a state of 729 trits (0, 1 or 2) in 27 slices of 3 rows and 9 columns.
    Only the functions that print the state are left out. *)
From S2P Require Import Prelude.

Definition COLUMNS : nat := 9.
Definition ROWS : nat := 3.
Definition SLICES : nat := 27.
Definition SLICESIZE : nat := COLUMNS * ROWS.
Definition STATESIZE : nat := COLUMNS * ROWS * SLICES.
Definition NUM_SBOXES : nat := SLICES * ROWS * COLUMNS / 3.
Definition PADDING : Z := 1.
Definition NUM_ROUNDS : nat := 24.
Definition TROIKA_RATE : nat := 243.

Definition round_constants : list (list Z) := [
  [
    2; 2; 2; 2; 1; 2; 0; 1; 0; 1; 1; 0; 2; 0; 1; 0; 1; 1; 0; 0; 1; 2; 1; 1; 1; 0; 0; 2; 0; 2; 1; 0; 2; 2; 2; 1; 0; 2;
    2; 0; 0; 1; 2; 2; 1; 0; 1; 0; 1; 2; 2; 2; 0; 1; 2; 2; 1; 1; 2; 1; 1; 2; 0; 2; 0; 2; 0; 0; 0; 0; 2; 1; 1; 2; 1; 0;
    1; 0; 2; 1; 1; 0; 0; 2; 2; 2; 2; 0; 1; 1; 2; 1; 2; 2; 0; 1; 2; 2; 2; 0; 1; 0; 2; 2; 0; 2; 1; 1; 2; 1; 2; 1; 0; 0;
    2; 1; 0; 0; 1; 2; 2; 1; 1; 1; 0; 1; 0; 2; 2; 0; 2; 2; 2; 0; 2; 2; 1; 0; 0; 0; 2; 1; 0; 0; 1; 1; 1; 2; 2; 1; 0; 1;
    0; 1; 1; 1; 1; 0; 1; 2; 2; 1; 0; 1; 0; 2; 0; 1; 2; 0; 1; 2; 2; 2; 2; 1; 0; 0; 0; 0; 2; 1; 0; 2; 1; 1; 2; 0; 2; 1;
    0; 0; 0; 1; 0; 2; 1; 2; 0; 1; 2; 1; 0; 2; 0; 2; 1; 0; 0; 1; 2; 0; 2; 2; 2; 0; 1; 0; 2; 0; 1; 0; 2; 1; 2; 1; 2; 2;
    1; 1; 2; 0; 2; 2; 1; 0; 0; 2; 0; 2; 1; 0; 1];
  [
    1; 1; 1; 0; 2; 2; 0; 2; 0; 1; 0; 2; 1; 1; 0; 0; 1; 1; 1; 2; 0; 1; 1; 2; 0; 1; 1; 1; 2; 0; 2; 2; 2; 0; 2; 1; 1; 2;
    1; 0; 2; 1; 0; 2; 1; 0; 0; 2; 0; 0; 0; 0; 0; 0; 1; 1; 0; 0; 1; 0; 0; 0; 1; 1; 0; 2; 0; 0; 0; 2; 1; 1; 0; 1; 2; 0;
    1; 2; 1; 1; 1; 0; 1; 0; 0; 0; 1; 0; 2; 2; 0; 2; 0; 2; 1; 0; 2; 1; 0; 0; 1; 2; 2; 0; 0; 0; 0; 1; 0; 2; 2; 2; 1; 1;
    0; 1; 0; 2; 1; 2; 2; 2; 1; 0; 2; 2; 0; 2; 0; 1; 2; 1; 0; 1; 0; 0; 1; 1; 0; 1; 2; 2; 2; 0; 0; 1; 0; 0; 1; 2; 1; 1;
    1; 2; 0; 0; 0; 2; 1; 0; 2; 1; 2; 2; 1; 2; 1; 0; 0; 0; 2; 0; 0; 0; 2; 2; 1; 2; 2; 0; 0; 1; 2; 2; 1; 0; 0; 2; 1; 2;
    2; 2; 0; 1; 1; 1; 1; 2; 0; 1; 1; 2; 2; 1; 0; 1; 2; 0; 2; 2; 1; 0; 1; 2; 1; 0; 1; 0; 1; 1; 2; 1; 1; 2; 2; 2; 1; 0;
    2; 0; 0; 0; 1; 1; 2; 1; 0; 2; 0; 1; 1; 1; 2];
  [
    0; 2; 0; 2; 1; 2; 1; 1; 2; 1; 1; 2; 2; 2; 2; 0; 0; 0; 0; 0; 1; 1; 0; 1; 1; 1; 0; 0; 1; 1; 0; 0; 0; 1; 2; 2; 0; 1;
    0; 2; 2; 1; 2; 2; 2; 2; 1; 2; 1; 1; 0; 0; 1; 0; 2; 0; 2; 0; 1; 2; 0; 0; 2; 2; 2; 1; 1; 0; 0; 2; 0; 2; 2; 2; 2; 1;
    2; 1; 0; 2; 0; 2; 0; 2; 0; 2; 2; 0; 2; 2; 1; 2; 1; 2; 0; 0; 0; 0; 1; 0; 2; 1; 1; 2; 1; 0; 1; 0; 2; 0; 1; 0; 0; 2;
    2; 2; 2; 2; 1; 1; 0; 1; 2; 2; 0; 0; 2; 2; 1; 0; 1; 2; 2; 1; 0; 2; 1; 1; 2; 1; 2; 0; 1; 0; 0; 1; 0; 0; 1; 1; 0; 1;
    0; 0; 0; 0; 0; 1; 0; 0; 2; 0; 2; 0; 0; 1; 0; 0; 1; 0; 2; 1; 0; 2; 0; 0; 0; 0; 2; 0; 0; 0; 2; 0; 1; 0; 2; 0; 0; 1;
    2; 0; 1; 1; 2; 2; 0; 2; 2; 0; 0; 2; 2; 1; 2; 0; 0; 0; 1; 0; 2; 1; 0; 1; 2; 1; 1; 0; 2; 0; 0; 2; 1; 1; 0; 1; 1; 2;
    0; 0; 1; 1; 1; 0; 0; 2; 2; 2; 2; 1; 1; 2; 2];
  [
    1; 2; 2; 0; 2; 2; 0; 1; 0; 0; 0; 2; 0; 0; 0; 2; 1; 0; 2; 2; 0; 0; 1; 2; 1; 0; 0; 1; 0; 1; 2; 2; 1; 2; 1; 0; 0; 1;
    1; 2; 0; 0; 2; 2; 1; 0; 1; 2; 2; 2; 0; 2; 1; 1; 2; 1; 2; 1; 1; 0; 2; 1; 0; 0; 1; 2; 0; 1; 1; 0; 0; 1; 0; 2; 0; 0;
    2; 0; 2; 0; 0; 2; 2; 0; 0; 0; 2; 1; 0; 0; 2; 0; 1; 1; 2; 1; 0; 1; 1; 0; 1; 2; 2; 0; 2; 2; 0; 0; 0; 1; 2; 2; 0; 0;
    0; 1; 1; 1; 2; 2; 2; 1; 1; 1; 1; 1; 1; 1; 1; 2; 2; 2; 0; 0; 0; 0; 0; 1; 1; 1; 1; 1; 1; 0; 0; 1; 1; 1; 0; 0; 0; 2;
    2; 0; 1; 1; 2; 2; 2; 2; 2; 0; 2; 2; 2; 1; 1; 0; 0; 1; 0; 0; 2; 2; 2; 1; 2; 0; 0; 0; 1; 2; 2; 2; 0; 1; 2; 1; 1; 2;
    2; 1; 1; 2; 0; 1; 0; 0; 1; 0; 2; 0; 2; 0; 1; 0; 0; 0; 2; 2; 2; 1; 1; 1; 0; 2; 2; 2; 2; 2; 2; 2; 2; 1; 1; 2; 0; 0;
    0; 0; 0; 2; 2; 0; 2; 2; 1; 0; 0; 2; 2; 0; 0];
  [
    0; 1; 1; 1; 1; 2; 0; 1; 1; 1; 1; 1; 0; 1; 2; 0; 2; 1; 0; 0; 2; 0; 1; 0; 1; 2; 0; 1; 1; 0; 1; 1; 1; 1; 0; 0; 2; 0;
    0; 0; 1; 0; 2; 2; 1; 0; 0; 1; 1; 0; 2; 1; 1; 1; 1; 0; 1; 0; 1; 0; 1; 2; 0; 2; 0; 2; 1; 2; 1; 1; 0; 1; 1; 2; 2; 2;
    2; 0; 1; 0; 0; 2; 1; 1; 0; 1; 2; 1; 0; 1; 1; 1; 1; 0; 1; 1; 2; 2; 0; 1; 0; 2; 0; 0; 2; 1; 2; 2; 1; 2; 2; 0; 0; 1;
    2; 0; 0; 0; 0; 2; 1; 2; 2; 0; 2; 1; 0; 2; 1; 2; 0; 2; 0; 2; 0; 0; 0; 2; 1; 1; 1; 2; 1; 0; 1; 2; 1; 1; 2; 1; 0; 2;
    2; 1; 1; 0; 0; 0; 2; 0; 1; 1; 2; 1; 2; 2; 2; 0; 1; 2; 2; 0; 1; 0; 1; 1; 2; 0; 2; 2; 2; 1; 1; 0; 2; 2; 1; 0; 2; 2;
    2; 1; 1; 1; 1; 1; 0; 1; 2; 2; 2; 2; 0; 0; 2; 0; 1; 2; 1; 0; 1; 1; 0; 0; 1; 0; 1; 2; 2; 0; 0; 2; 0; 0; 1; 1; 2; 2;
    1; 0; 0; 0; 2; 1; 2; 1; 0; 1; 1; 2; 2; 1; 2];
  [
    2; 2; 2; 0; 2; 1; 0; 0; 0; 1; 0; 1; 0; 2; 0; 1; 2; 1; 0; 1; 2; 2; 2; 1; 0; 1; 2; 2; 1; 2; 1; 2; 1; 2; 1; 2; 0; 0;
    2; 1; 2; 1; 2; 1; 1; 2; 0; 1; 2; 2; 1; 2; 0; 0; 2; 0; 0; 2; 0; 0; 1; 2; 0; 0; 0; 0; 0; 0; 2; 2; 0; 2; 1; 0; 0; 0;
    2; 2; 0; 0; 2; 0; 1; 2; 2; 2; 0; 1; 0; 0; 1; 0; 2; 1; 1; 2; 1; 0; 0; 0; 2; 0; 1; 0; 0; 2; 1; 2; 2; 0; 1; 1; 0; 1;
    1; 2; 0; 2; 2; 2; 0; 0; 0; 2; 2; 1; 0; 2; 1; 1; 1; 2; 2; 1; 1; 0; 0; 1; 2; 1; 1; 0; 2; 1; 2; 0; 2; 1; 0; 1; 1; 0;
    2; 1; 1; 2; 0; 2; 0; 0; 1; 0; 1; 0; 2; 1; 1; 0; 2; 0; 1; 2; 2; 0; 1; 1; 1; 2; 1; 0; 2; 2; 2; 2; 1; 1; 0; 2; 0; 1;
    2; 0; 2; 2; 1; 1; 2; 1; 0; 0; 1; 0; 1; 2; 0; 0; 2; 1; 0; 0; 1; 1; 0; 2; 0; 1; 0; 1; 0; 1; 0; 1; 2; 1; 1; 1; 2; 1;
    2; 1; 1; 1; 0; 2; 1; 0; 1; 2; 0; 2; 2; 1; 0];
  [
    0; 2; 1; 0; 1; 0; 1; 1; 1; 1; 1; 0; 2; 2; 1; 0; 1; 0; 0; 2; 1; 1; 1; 1; 2; 2; 0; 1; 1; 1; 2; 0; 1; 1; 2; 2; 2; 1;
    1; 2; 0; 2; 2; 1; 1; 2; 2; 0; 2; 1; 0; 1; 2; 0; 1; 2; 0; 2; 0; 2; 1; 0; 0; 0; 0; 1; 1; 2; 2; 0; 1; 2; 0; 1; 1; 2;
    1; 2; 2; 0; 0; 0; 2; 2; 0; 1; 0; 2; 1; 1; 2; 2; 0; 2; 1; 2; 0; 1; 0; 1; 2; 0; 2; 2; 1; 0; 1; 1; 1; 0; 1; 0; 1; 1;
    2; 0; 1; 2; 0; 2; 1; 0; 2; 2; 0; 0; 0; 1; 2; 0; 0; 1; 0; 1; 1; 1; 2; 0; 2; 2; 0; 1; 0; 1; 1; 2; 1; 0; 0; 2; 1; 1;
    0; 2; 0; 2; 1; 1; 1; 1; 1; 1; 2; 2; 2; 1; 2; 0; 0; 0; 1; 1; 1; 2; 0; 1; 2; 1; 1; 1; 1; 1; 2; 0; 0; 1; 0; 2; 0; 0;
    1; 2; 2; 2; 0; 2; 2; 0; 2; 2; 2; 1; 1; 0; 0; 0; 0; 0; 2; 2; 2; 1; 2; 2; 0; 0; 2; 2; 2; 2; 0; 0; 2; 1; 0; 2; 2; 0;
    1; 1; 0; 1; 0; 0; 1; 0; 2; 2; 0; 0; 2; 0; 0];
  [
    0; 2; 1; 0; 1; 0; 0; 0; 1; 2; 1; 0; 2; 2; 0; 2; 1; 2; 1; 2; 0; 1; 0; 0; 2; 2; 2; 1; 1; 0; 1; 0; 1; 2; 2; 2; 2; 1;
    0; 2; 1; 1; 2; 1; 0; 2; 1; 0; 0; 1; 0; 0; 2; 0; 0; 0; 1; 0; 0; 0; 1; 0; 0; 1; 1; 0; 0; 2; 1; 0; 0; 0; 1; 0; 2; 1;
    1; 0; 1; 2; 1; 0; 2; 0; 1; 1; 0; 1; 1; 2; 0; 2; 1; 2; 0; 0; 0; 2; 2; 1; 2; 2; 1; 2; 1; 2; 2; 1; 0; 0; 0; 0; 2; 1;
    0; 0; 1; 1; 2; 0; 2; 1; 0; 1; 0; 1; 2; 2; 1; 2; 0; 2; 2; 1; 1; 2; 0; 0; 1; 1; 0; 1; 2; 0; 2; 2; 2; 1; 0; 0; 1; 0;
    1; 0; 2; 2; 1; 1; 0; 0; 1; 2; 2; 1; 1; 2; 1; 2; 0; 2; 2; 0; 2; 0; 0; 1; 1; 1; 0; 0; 0; 1; 0; 2; 1; 1; 2; 2; 2; 1;
    0; 2; 0; 1; 0; 1; 1; 2; 1; 0; 2; 1; 1; 1; 0; 2; 0; 2; 0; 0; 1; 2; 2; 1; 2; 2; 1; 0; 2; 2; 2; 0; 0; 0; 0; 1; 0; 1;
    2; 1; 1; 1; 0; 1; 0; 1; 1; 1; 0; 2; 2; 0; 2];
  [
    1; 0; 1; 2; 1; 1; 0; 0; 2; 0; 2; 1; 1; 0; 1; 2; 1; 0; 2; 2; 1; 1; 0; 1; 1; 2; 0; 1; 1; 2; 1; 0; 0; 2; 2; 0; 2; 2;
    0; 2; 1; 1; 2; 0; 0; 0; 0; 0; 2; 1; 0; 2; 2; 1; 0; 0; 2; 1; 0; 0; 1; 1; 1; 1; 1; 1; 0; 1; 0; 1; 1; 0; 0; 0; 2; 0;
    2; 1; 0; 0; 2; 2; 2; 0; 2; 2; 0; 1; 1; 2; 2; 1; 0; 0; 0; 2; 2; 2; 1; 0; 1; 1; 2; 2; 2; 2; 2; 1; 2; 0; 2; 1; 1; 0;
    0; 2; 0; 1; 1; 2; 1; 1; 2; 1; 0; 1; 2; 2; 0; 0; 0; 0; 2; 2; 1; 2; 2; 1; 1; 0; 2; 2; 1; 0; 0; 0; 2; 1; 1; 1; 1; 1;
    1; 2; 2; 1; 1; 2; 0; 0; 0; 1; 1; 0; 2; 0; 2; 2; 1; 1; 1; 0; 1; 2; 2; 0; 1; 2; 2; 2; 0; 1; 2; 2; 2; 0; 2; 1; 1; 2;
    0; 2; 1; 1; 0; 2; 1; 0; 2; 1; 2; 1; 1; 1; 0; 0; 0; 0; 2; 2; 0; 2; 2; 2; 2; 0; 2; 2; 0; 0; 0; 2; 0; 1; 0; 0; 0; 1;
    1; 2; 0; 1; 1; 0; 2; 1; 1; 2; 2; 0; 2; 0; 1];
  [
    0; 1; 0; 1; 2; 0; 1; 1; 1; 1; 2; 1; 1; 0; 0; 2; 1; 0; 1; 0; 0; 1; 2; 1; 1; 0; 2; 2; 0; 0; 2; 1; 0; 1; 1; 1; 0; 1;
    0; 1; 0; 2; 0; 1; 2; 0; 2; 1; 2; 2; 2; 1; 0; 0; 1; 2; 2; 0; 1; 2; 1; 1; 0; 2; 2; 2; 2; 0; 1; 0; 1; 1; 1; 2; 0; 1;
    2; 1; 1; 0; 1; 1; 2; 0; 0; 1; 0; 1; 0; 0; 2; 2; 2; 2; 0; 1; 2; 0; 1; 2; 2; 0; 1; 2; 0; 0; 0; 0; 2; 2; 2; 0; 0; 2;
    1; 0; 2; 2; 2; 1; 1; 0; 1; 0; 0; 1; 2; 2; 2; 1; 0; 2; 0; 0; 2; 2; 1; 2; 1; 0; 2; 0; 0; 2; 1; 0; 2; 2; 0; 2; 0; 0;
    1; 0; 0; 1; 0; 0; 1; 0; 2; 0; 0; 0; 0; 0; 0; 0; 2; 2; 0; 1; 0; 0; 0; 0; 2; 2; 0; 2; 1; 0; 2; 0; 2; 2; 0; 0; 2; 0;
    0; 2; 2; 0; 0; 1; 0; 0; 0; 0; 2; 0; 1; 2; 0; 0; 2; 0; 2; 0; 1; 0; 0; 2; 0; 0; 2; 1; 1; 1; 0; 1; 0; 0; 0; 1; 1; 2;
    2; 0; 2; 0; 2; 1; 1; 2; 1; 2; 0; 1; 2; 2; 1];
  [
    0; 0; 1; 1; 0; 0; 2; 0; 1; 1; 0; 1; 0; 2; 1; 0; 1; 2; 0; 0; 2; 2; 0; 0; 2; 1; 0; 2; 0; 2; 0; 1; 0; 1; 0; 0; 2; 2;
    1; 1; 1; 1; 2; 0; 1; 2; 1; 2; 2; 0; 1; 2; 0; 0; 1; 1; 0; 2; 2; 0; 0; 2; 2; 1; 0; 1; 1; 0; 1; 0; 2; 1; 1; 2; 0; 0;
    0; 2; 2; 0; 1; 0; 2; 2; 1; 2; 2; 0; 2; 1; 2; 1; 1; 0; 0; 2; 0; 2; 2; 2; 0; 1; 2; 1; 0; 2; 0; 2; 1; 2; 0; 1; 2; 0;
    2; 2; 2; 2; 1; 0; 0; 0; 1; 0; 2; 0; 2; 1; 1; 2; 1; 0; 2; 2; 2; 2; 1; 0; 0; 2; 0; 1; 2; 0; 2; 1; 1; 1; 0; 1; 0; 0;
    1; 2; 1; 2; 2; 0; 2; 0; 0; 2; 1; 1; 0; 2; 0; 1; 0; 0; 1; 1; 1; 1; 2; 1; 1; 0; 0; 1; 1; 0; 1; 0; 0; 1; 2; 0; 1; 0;
    0; 2; 0; 0; 2; 0; 0; 1; 0; 1; 0; 0; 0; 0; 0; 2; 0; 1; 2; 0; 2; 0; 0; 2; 0; 1; 0; 0; 1; 1; 0; 0; 0; 1; 1; 0; 0; 1;
    0; 2; 2; 1; 1; 0; 2; 0; 0; 2; 1; 1; 2; 1; 1];
  [
    2; 0; 0; 1; 1; 0; 0; 0; 0; 2; 2; 2; 1; 0; 2; 2; 0; 2; 2; 2; 2; 1; 0; 1; 0; 0; 0; 2; 0; 2; 1; 2; 2; 0; 2; 2; 0; 2;
    2; 2; 0; 2; 0; 0; 0; 0; 0; 2; 1; 0; 1; 0; 1; 0; 0; 2; 1; 0; 2; 2; 1; 2; 0; 1; 1; 0; 0; 1; 1; 0; 1; 0; 2; 0; 2; 0;
    1; 0; 0; 2; 2; 2; 2; 1; 1; 1; 0; 1; 2; 2; 0; 2; 2; 2; 2; 0; 1; 2; 2; 0; 0; 2; 0; 1; 2; 0; 2; 2; 1; 0; 0; 1; 0; 0;
    1; 0; 1; 1; 1; 0; 0; 0; 0; 0; 1; 0; 1; 2; 2; 2; 0; 0; 1; 0; 1; 1; 2; 1; 1; 1; 2; 0; 1; 0; 2; 0; 0; 2; 1; 2; 0; 1;
    2; 2; 0; 0; 1; 2; 1; 0; 0; 2; 2; 1; 2; 2; 1; 2; 1; 1; 2; 1; 0; 0; 0; 0; 2; 0; 0; 0; 2; 1; 2; 0; 2; 0; 0; 1; 2; 1;
    2; 1; 1; 1; 0; 2; 2; 1; 1; 2; 0; 2; 2; 1; 1; 1; 2; 0; 2; 1; 0; 1; 2; 2; 1; 2; 1; 2; 0; 2; 1; 2; 0; 0; 2; 1; 1; 1;
    2; 2; 1; 2; 0; 1; 1; 2; 1; 1; 0; 0; 1; 0; 2];
  [
    2; 0; 0; 1; 2; 0; 0; 2; 1; 0; 1; 2; 2; 0; 2; 0; 1; 0; 2; 1; 2; 2; 0; 1; 1; 1; 2; 0; 2; 0; 2; 2; 2; 1; 1; 2; 1; 1;
    2; 0; 2; 2; 2; 0; 0; 0; 0; 2; 1; 0; 2; 1; 1; 1; 0; 2; 1; 0; 0; 0; 1; 2; 2; 1; 0; 0; 1; 2; 1; 2; 2; 0; 1; 1; 0; 2;
    1; 1; 0; 2; 2; 2; 0; 1; 0; 1; 1; 1; 1; 2; 1; 2; 1; 1; 0; 1; 0; 1; 0; 1; 2; 0; 1; 0; 2; 1; 2; 1; 1; 0; 0; 1; 2; 0;
    2; 2; 0; 1; 2; 0; 2; 0; 1; 0; 0; 2; 0; 0; 1; 1; 1; 1; 0; 1; 0; 0; 2; 1; 1; 0; 2; 0; 2; 0; 1; 1; 1; 1; 1; 2; 2; 1;
    1; 2; 1; 0; 0; 1; 1; 0; 2; 0; 0; 2; 1; 0; 1; 0; 1; 2; 0; 0; 1; 0; 2; 2; 1; 1; 0; 2; 2; 0; 2; 1; 1; 2; 1; 1; 1; 0;
    0; 2; 1; 0; 0; 0; 2; 2; 2; 1; 1; 0; 1; 2; 2; 2; 2; 2; 2; 1; 0; 1; 2; 1; 0; 0; 0; 2; 1; 2; 1; 1; 2; 1; 2; 2; 1; 2;
    2; 0; 0; 0; 1; 0; 0; 0; 0; 2; 1; 1; 1; 0; 0];
  [
    2; 0; 2; 1; 1; 2; 2; 2; 1; 0; 2; 2; 1; 0; 1; 1; 2; 1; 0; 1; 1; 1; 2; 0; 2; 0; 2; 2; 0; 1; 1; 2; 1; 1; 2; 0; 0; 2;
    2; 2; 0; 0; 0; 2; 2; 0; 2; 2; 1; 1; 1; 2; 2; 0; 0; 0; 1; 2; 2; 1; 1; 2; 1; 1; 1; 2; 2; 0; 2; 0; 0; 0; 2; 1; 1; 2;
    0; 1; 0; 1; 2; 1; 1; 0; 2; 0; 1; 1; 1; 1; 0; 1; 1; 2; 1; 2; 1; 0; 2; 0; 0; 2; 0; 1; 2; 2; 0; 2; 0; 0; 0; 1; 0; 2;
    2; 0; 1; 0; 1; 1; 0; 2; 1; 0; 2; 1; 1; 0; 0; 1; 0; 0; 0; 0; 1; 1; 2; 0; 0; 0; 2; 0; 1; 1; 2; 2; 2; 1; 2; 0; 1; 2;
    2; 1; 1; 2; 0; 1; 0; 0; 2; 0; 2; 0; 2; 0; 1; 0; 1; 0; 2; 1; 2; 1; 1; 1; 1; 2; 2; 0; 2; 2; 0; 2; 0; 1; 1; 2; 0; 0;
    0; 0; 1; 1; 2; 2; 2; 2; 1; 0; 1; 1; 2; 1; 1; 0; 2; 1; 2; 0; 2; 0; 0; 1; 1; 0; 2; 1; 1; 1; 0; 2; 1; 0; 1; 0; 1; 2;
    2; 1; 0; 0; 2; 2; 1; 1; 2; 0; 1; 1; 1; 2; 1];
  [
    2; 0; 2; 0; 2; 1; 1; 0; 1; 1; 1; 1; 2; 2; 1; 1; 0; 0; 1; 0; 1; 1; 0; 2; 1; 2; 0; 0; 1; 0; 0; 1; 0; 2; 1; 2; 2; 0;
    0; 0; 0; 2; 0; 2; 0; 2; 1; 1; 0; 2; 0; 2; 1; 2; 2; 1; 1; 1; 2; 2; 2; 2; 0; 0; 2; 2; 1; 1; 1; 0; 1; 1; 0; 2; 1; 2;
    2; 2; 0; 0; 0; 1; 0; 2; 0; 1; 1; 1; 1; 1; 0; 2; 2; 1; 2; 1; 0; 0; 2; 1; 1; 1; 0; 2; 2; 1; 1; 1; 1; 2; 2; 1; 1; 1;
    2; 2; 0; 1; 1; 0; 2; 2; 1; 1; 2; 2; 2; 0; 1; 1; 1; 2; 0; 1; 1; 1; 2; 2; 1; 1; 2; 0; 2; 1; 1; 1; 0; 2; 0; 2; 1; 2;
    1; 2; 2; 1; 2; 2; 2; 2; 2; 1; 0; 0; 0; 0; 1; 0; 0; 2; 1; 1; 2; 0; 1; 0; 0; 1; 1; 1; 0; 2; 0; 1; 0; 0; 1; 1; 2; 1;
    2; 1; 1; 0; 0; 1; 2; 0; 1; 2; 0; 1; 2; 0; 2; 0; 0; 0; 0; 0; 0; 0; 1; 1; 0; 1; 0; 0; 0; 0; 1; 1; 0; 0; 2; 0; 2; 0;
    1; 1; 0; 2; 1; 0; 2; 1; 1; 2; 0; 1; 0; 0; 0];
  [
    0; 1; 0; 2; 0; 1; 0; 2; 0; 1; 0; 2; 2; 1; 1; 2; 2; 1; 1; 2; 1; 1; 2; 0; 1; 0; 2; 0; 0; 0; 0; 2; 0; 1; 2; 2; 0; 1;
    0; 2; 0; 1; 0; 2; 2; 2; 1; 2; 2; 1; 1; 2; 1; 2; 2; 0; 0; 0; 2; 0; 0; 1; 0; 2; 1; 1; 2; 0; 0; 2; 0; 2; 0; 1; 0; 2;
    2; 0; 0; 2; 1; 1; 1; 2; 1; 0; 1; 0; 1; 1; 2; 1; 0; 2; 2; 2; 1; 0; 2; 0; 2; 0; 1; 2; 2; 1; 0; 2; 2; 1; 1; 0; 2; 0;
    1; 0; 1; 1; 2; 1; 1; 2; 1; 1; 1; 0; 2; 0; 0; 0; 0; 0; 2; 2; 1; 2; 0; 1; 0; 0; 2; 2; 1; 0; 1; 0; 1; 0; 1; 2; 1; 1;
    2; 2; 1; 2; 1; 1; 1; 0; 0; 1; 0; 0; 2; 0; 2; 2; 2; 0; 0; 0; 1; 0; 2; 0; 2; 1; 1; 1; 1; 0; 2; 2; 2; 2; 1; 2; 0; 2;
    1; 1; 2; 0; 2; 0; 1; 1; 2; 1; 0; 2; 1; 1; 1; 2; 2; 0; 2; 0; 0; 1; 2; 1; 1; 2; 0; 1; 0; 2; 2; 1; 0; 0; 2; 0; 1; 2;
    1; 1; 1; 1; 1; 0; 1; 0; 1; 0; 2; 0; 0; 2; 0];
  [
    2; 1; 2; 2; 2; 0; 0; 0; 2; 2; 2; 0; 1; 1; 1; 1; 2; 2; 2; 1; 2; 2; 1; 0; 1; 1; 1; 2; 0; 0; 0; 1; 2; 0; 1; 1; 2; 2;
    1; 1; 2; 0; 0; 2; 2; 1; 0; 2; 0; 2; 2; 0; 2; 1; 1; 0; 2; 2; 0; 0; 0; 2; 1; 1; 1; 1; 0; 1; 1; 2; 1; 1; 2; 0; 2; 0;
    0; 2; 0; 0; 0; 2; 1; 1; 0; 0; 0; 0; 1; 2; 1; 1; 1; 2; 2; 0; 1; 2; 1; 0; 2; 1; 1; 2; 2; 0; 1; 2; 0; 0; 1; 0; 1; 2;
    2; 0; 0; 2; 2; 0; 1; 1; 2; 2; 1; 0; 2; 0; 2; 2; 2; 1; 0; 1; 0; 2; 2; 0; 2; 2; 1; 2; 2; 2; 1; 0; 0; 0; 1; 0; 0; 1;
    2; 1; 1; 2; 1; 0; 0; 0; 2; 1; 0; 0; 0; 2; 1; 2; 2; 1; 0; 1; 2; 2; 1; 2; 0; 0; 1; 2; 1; 2; 0; 0; 1; 2; 2; 2; 1; 1;
    1; 2; 2; 2; 2; 1; 2; 2; 2; 1; 1; 1; 0; 2; 0; 0; 1; 2; 2; 2; 2; 1; 2; 0; 2; 2; 2; 1; 0; 2; 0; 1; 1; 0; 2; 2; 1; 0;
    2; 1; 2; 0; 1; 1; 1; 1; 0; 0; 2; 1; 0; 2; 1];
  [
    0; 2; 2; 1; 1; 0; 0; 0; 0; 0; 1; 1; 2; 1; 2; 2; 0; 0; 1; 1; 2; 0; 1; 0; 2; 1; 2; 1; 2; 2; 0; 1; 2; 0; 2; 2; 1; 0;
    2; 2; 0; 0; 1; 0; 1; 1; 0; 1; 0; 1; 2; 0; 1; 0; 0; 0; 2; 1; 1; 0; 0; 1; 0; 2; 2; 1; 1; 1; 2; 0; 0; 2; 1; 1; 2; 2;
    1; 2; 2; 0; 1; 1; 0; 1; 0; 0; 0; 2; 2; 2; 0; 0; 2; 0; 2; 2; 2; 2; 1; 1; 0; 0; 2; 0; 2; 0; 2; 2; 1; 2; 1; 0; 2; 1;
    2; 0; 1; 0; 2; 2; 0; 0; 2; 1; 0; 1; 2; 1; 0; 1; 0; 1; 0; 2; 1; 1; 2; 2; 2; 1; 2; 2; 0; 1; 0; 1; 1; 2; 0; 0; 2; 2;
    1; 1; 0; 2; 2; 2; 0; 2; 1; 2; 1; 1; 1; 2; 1; 0; 2; 2; 2; 0; 2; 1; 0; 2; 0; 1; 2; 1; 0; 2; 0; 0; 2; 1; 0; 1; 2; 0;
    2; 0; 0; 1; 0; 2; 1; 0; 1; 1; 0; 2; 0; 2; 0; 0; 2; 0; 0; 1; 2; 2; 1; 0; 0; 0; 0; 2; 2; 2; 0; 1; 1; 2; 0; 2; 2; 2;
    1; 2; 2; 2; 2; 1; 0; 2; 2; 0; 0; 1; 0; 2; 1];
  [
    0; 1; 0; 1; 2; 0; 2; 0; 0; 2; 2; 1; 1; 0; 1; 1; 0; 0; 2; 1; 2; 1; 0; 0; 0; 2; 1; 1; 2; 2; 2; 1; 2; 2; 1; 1; 0; 1;
    1; 2; 0; 0; 0; 2; 1; 0; 0; 2; 2; 2; 1; 2; 1; 0; 1; 1; 2; 2; 2; 0; 2; 2; 2; 0; 2; 1; 1; 1; 0; 0; 2; 1; 0; 2; 1; 2;
    2; 2; 1; 1; 0; 0; 0; 2; 0; 1; 2; 2; 1; 2; 2; 2; 0; 1; 0; 2; 0; 0; 0; 1; 1; 2; 1; 2; 2; 0; 1; 1; 1; 2; 0; 1; 0; 2;
    2; 2; 1; 1; 2; 0; 1; 2; 1; 2; 2; 2; 0; 2; 0; 0; 1; 1; 0; 1; 1; 0; 1; 0; 2; 1; 0; 0; 0; 0; 0; 2; 2; 0; 0; 1; 2; 0;
    0; 2; 2; 0; 1; 2; 2; 0; 2; 0; 2; 0; 2; 0; 2; 2; 0; 1; 2; 1; 2; 1; 2; 0; 0; 2; 0; 1; 1; 2; 1; 1; 2; 0; 0; 1; 2; 2;
    0; 0; 0; 2; 2; 2; 2; 2; 2; 1; 1; 2; 2; 2; 0; 0; 0; 2; 2; 0; 1; 1; 1; 1; 1; 2; 2; 0; 2; 2; 1; 0; 0; 1; 1; 2; 0; 0;
    1; 1; 1; 0; 1; 2; 2; 2; 2; 1; 1; 2; 0; 1; 2];
  [
    1; 0; 2; 2; 0; 2; 0; 0; 1; 2; 0; 1; 0; 0; 1; 0; 2; 2; 0; 0; 1; 0; 0; 0; 2; 1; 0; 1; 2; 0; 0; 2; 2; 1; 0; 2; 1; 0;
    2; 0; 2; 1; 1; 0; 0; 0; 0; 2; 2; 2; 1; 1; 2; 2; 0; 2; 2; 2; 2; 2; 0; 1; 2; 0; 0; 2; 0; 0; 1; 2; 0; 0; 2; 0; 0; 0;
    2; 2; 0; 2; 0; 0; 0; 1; 2; 2; 0; 0; 1; 0; 1; 1; 2; 2; 2; 1; 2; 0; 1; 0; 2; 1; 1; 2; 0; 1; 0; 1; 2; 0; 1; 0; 2; 0;
    1; 1; 1; 0; 0; 1; 2; 2; 1; 2; 1; 2; 2; 0; 2; 2; 0; 0; 2; 1; 0; 2; 0; 0; 0; 1; 0; 1; 0; 0; 2; 0; 1; 1; 0; 1; 2; 0;
    1; 0; 1; 2; 0; 0; 1; 0; 0; 1; 1; 1; 0; 2; 2; 0; 0; 0; 1; 1; 2; 1; 1; 0; 1; 1; 1; 1; 2; 0; 0; 1; 0; 0; 1; 0; 1; 2;
    2; 2; 0; 0; 0; 0; 1; 1; 2; 1; 1; 1; 1; 0; 1; 1; 2; 0; 0; 2; 0; 2; 0; 0; 2; 2; 2; 0; 0; 2; 1; 0; 0; 2; 2; 1; 1; 0;
    1; 0; 1; 1; 2; 1; 2; 1; 0; 2; 1; 0; 2; 0; 1];
  [
    2; 2; 0; 0; 0; 0; 2; 1; 0; 2; 2; 1; 1; 0; 2; 1; 0; 0; 1; 1; 2; 1; 1; 0; 0; 1; 0; 1; 2; 0; 0; 1; 2; 0; 0; 1; 1; 0;
    2; 2; 2; 0; 2; 2; 1; 0; 1; 1; 2; 1; 0; 0; 1; 1; 2; 0; 2; 0; 2; 1; 0; 1; 2; 2; 1; 1; 2; 2; 0; 2; 1; 2; 0; 2; 0; 1;
    2; 0; 2; 2; 1; 1; 1; 1; 0; 0; 1; 0; 1; 2; 2; 0; 2; 2; 0; 0; 1; 1; 2; 2; 0; 0; 0; 1; 2; 1; 2; 1; 2; 1; 1; 1; 2; 1;
    1; 2; 1; 2; 0; 2; 1; 0; 0; 0; 0; 1; 1; 1; 2; 0; 1; 2; 0; 1; 1; 1; 1; 2; 0; 0; 0; 0; 2; 1; 0; 1; 2; 2; 1; 0; 2; 1;
    0; 2; 1; 2; 0; 1; 0; 0; 0; 0; 0; 2; 1; 0; 1; 0; 2; 0; 0; 2; 1; 0; 2; 2; 2; 2; 0; 0; 1; 0; 0; 1; 2; 0; 1; 1; 2; 0;
    0; 0; 2; 0; 0; 2; 2; 2; 2; 1; 2; 0; 0; 0; 2; 2; 0; 2; 0; 1; 2; 1; 2; 2; 0; 0; 1; 1; 0; 1; 1; 0; 2; 1; 2; 1; 0; 0;
    0; 0; 1; 0; 2; 2; 2; 1; 2; 0; 1; 0; 2; 1; 2];
  [
    2; 0; 1; 0; 1; 2; 0; 2; 0; 2; 2; 1; 1; 1; 0; 1; 1; 2; 0; 1; 2; 2; 2; 0; 0; 2; 2; 0; 0; 2; 1; 1; 1; 0; 2; 0; 1; 0;
    1; 1; 2; 2; 1; 2; 1; 1; 1; 0; 2; 1; 0; 0; 2; 0; 2; 2; 1; 0; 0; 1; 1; 0; 2; 0; 1; 1; 1; 0; 1; 0; 1; 2; 1; 2; 1; 2;
    0; 2; 1; 1; 1; 1; 2; 1; 1; 1; 2; 1; 2; 0; 1; 0; 0; 2; 1; 0; 1; 1; 0; 1; 0; 1; 1; 0; 2; 0; 0; 0; 2; 1; 0; 0; 1; 2;
    0; 1; 2; 1; 0; 1; 0; 2; 0; 0; 0; 1; 2; 2; 2; 2; 2; 0; 1; 1; 2; 2; 1; 0; 0; 1; 2; 2; 2; 1; 0; 1; 1; 0; 2; 2; 1; 2;
    1; 2; 0; 0; 1; 1; 1; 0; 2; 1; 1; 2; 2; 1; 1; 2; 1; 0; 1; 0; 1; 0; 2; 0; 0; 2; 2; 2; 1; 2; 2; 2; 0; 0; 2; 2; 2; 0;
    0; 1; 1; 1; 0; 2; 2; 1; 1; 2; 1; 1; 2; 1; 1; 1; 2; 0; 0; 0; 0; 0; 0; 2; 1; 2; 2; 1; 0; 0; 0; 2; 1; 2; 0; 0; 1; 1;
    2; 2; 1; 2; 1; 2; 2; 1; 2; 1; 0; 0; 2; 1; 0];
  [
    0; 0; 2; 2; 1; 1; 1; 0; 1; 2; 2; 2; 1; 2; 2; 2; 0; 1; 2; 1; 2; 0; 0; 1; 1; 2; 0; 1; 1; 1; 2; 2; 1; 2; 2; 0; 2; 1;
    1; 1; 0; 0; 0; 2; 0; 2; 1; 2; 2; 2; 2; 2; 0; 2; 2; 2; 0; 1; 0; 0; 1; 0; 0; 2; 1; 2; 1; 0; 0; 0; 0; 1; 1; 2; 2; 2;
    1; 2; 0; 1; 1; 2; 1; 1; 2; 0; 1; 0; 2; 2; 0; 0; 0; 2; 0; 1; 2; 1; 0; 1; 1; 2; 0; 1; 0; 1; 2; 2; 0; 2; 2; 0; 1; 1;
    1; 2; 2; 0; 0; 0; 2; 2; 1; 1; 1; 2; 1; 1; 2; 2; 1; 2; 2; 1; 0; 0; 0; 1; 0; 0; 0; 0; 1; 1; 2; 1; 0; 0; 2; 0; 1; 1;
    2; 0; 2; 1; 1; 0; 1; 2; 2; 2; 1; 2; 1; 1; 0; 1; 2; 1; 2; 0; 2; 0; 1; 0; 1; 1; 1; 1; 1; 1; 1; 1; 1; 0; 1; 0; 0; 0;
    0; 0; 0; 2; 0; 2; 0; 2; 0; 0; 0; 2; 0; 2; 1; 2; 1; 0; 1; 2; 0; 2; 2; 2; 2; 2; 2; 1; 0; 1; 0; 2; 0; 0; 0; 2; 1; 2;
    2; 2; 2; 0; 1; 2; 1; 2; 0; 1; 0; 1; 2; 0; 1];
  [
    1; 1; 0; 1; 1; 1; 0; 0; 2; 1; 2; 0; 0; 1; 2; 2; 1; 1; 2; 1; 2; 2; 2; 2; 0; 2; 0; 0; 1; 0; 1; 0; 1; 0; 1; 0; 2; 0;
    1; 2; 1; 2; 1; 2; 2; 2; 1; 0; 1; 1; 2; 1; 0; 1; 2; 1; 2; 0; 2; 0; 2; 2; 1; 1; 1; 1; 1; 1; 2; 0; 1; 2; 2; 0; 0; 0;
    1; 2; 0; 0; 2; 2; 1; 1; 1; 2; 0; 2; 0; 2; 1; 2; 2; 1; 2; 1; 1; 2; 2; 2; 0; 0; 0; 2; 0; 0; 1; 1; 1; 1; 1; 2; 0; 0;
    2; 1; 1; 0; 0; 1; 2; 2; 0; 1; 1; 1; 2; 0; 2; 2; 2; 2; 2; 1; 1; 2; 1; 0; 2; 0; 0; 2; 2; 0; 0; 2; 0; 2; 0; 0; 2; 0;
    1; 0; 0; 2; 1; 0; 0; 0; 1; 1; 0; 1; 1; 0; 1; 2; 1; 1; 0; 0; 0; 0; 0; 1; 1; 0; 1; 2; 2; 0; 0; 1; 1; 0; 0; 1; 2; 2;
    1; 2; 1; 0; 2; 0; 2; 2; 0; 0; 2; 2; 0; 2; 2; 0; 0; 1; 0; 2; 0; 0; 0; 0; 1; 2; 0; 2; 2; 0; 1; 0; 1; 2; 0; 1; 0; 0;
    2; 1; 1; 1; 0; 0; 1; 0; 1; 1; 1; 2; 2; 2; 0]].

Definition sbox_lookup : list Z :=
  [6; 25; 17; 5; 15; 10; 4; 20; 24; 0; 1; 2; 9; 22; 26; 18; 16; 14; 3; 13; 23; 7; 11; 12; 8; 21; 19].
Definition shift_rows_param : list nat := [0; 1; 2]%nat.
Definition shift_lanes_param : list nat :=
  [19; 13; 21; 10; 24; 15; 2; 9; 3; 14; 0; 6; 5; 1; 25; 22; 23; 20; 7; 17; 26; 12; 8; 18; 16; 11; 4]%nat.

(** ** The loops over the state

    [cells] is the order of the triple loop over slices, rows and columns,
    [slice_columns] that of the double loop over slices and columns.  An array that a
    loop fills is [replicate _ 0] before it: the loop writes every entry. *)
Definition cells : list (nat * nat * nat) :=
  flat_map (fun slice => flat_map (fun row => map (fun col => (slice, row, col)) (seq 0 COLUMNS))
    (seq 0 ROWS)) (seq 0 SLICES).
Definition slice_columns : list (nat * nat) :=
  flat_map (fun slice => map (fun col => (slice, col)) (seq 0 COLUMNS)) (seq 0 SLICES).

Definition cell_idx (slice row col : nat) : nat := SLICESIZE * slice + COLUMNS * row + col.

(** A loop of assignments [a[idx k] = val k]. *)
Definition assign {K} (idx : K -> nat) (val : K -> Z) (ks : list K) (a : list Z) : list Z :=
  foldl (fun a k => <[idx k := val k]> a) a ks.

(** ** The rounds *)
Definition sub_tryte (state : list Z) (sbox_idx : nat) : list Z :=
  let sbox_input := 9 * nth (3 * sbox_idx) state 0 + 3 * nth (3 * sbox_idx + 1) state 0
                    + nth (3 * sbox_idx + 2) state 0 in
  let sbox_output := nth (Z.to_nat sbox_input) sbox_lookup 0 in
  let state := <[(3 * sbox_idx + 2)%nat := Z.rem sbox_output 3]> state in
  let sbox_output := Z.quot sbox_output 3 in
  let state := <[(3 * sbox_idx + 1)%nat := Z.rem sbox_output 3]> state in
  let sbox_output := Z.quot sbox_output 3 in
  <[(3 * sbox_idx)%nat := Z.rem sbox_output 3]> state.

Definition sub_trytes (state : list Z) : list Z := foldl sub_tryte state (seq 0 NUM_SBOXES).

Definition shift_rows (state : list Z) : list Z :=
  assign
    (fun '(slice, row, col) =>
       cell_idx slice row ((col + 3 * nth row shift_rows_param O) mod COLUMNS))
    (fun '(slice, row, col) => nth (cell_idx slice row col) state 0)
    cells (replicate STATESIZE 0).

Definition shift_lanes (state : list Z) : list Z :=
  assign
    (fun '(slice, row, col) =>
       let new_slice := ((slice + nth (col + COLUMNS * row) shift_lanes_param O) mod SLICES)%nat in
       cell_idx new_slice row col)
    (fun '(slice, row, col) => nth (cell_idx slice row col) state 0)
    cells (replicate STATESIZE 0).

(** [parity[COLUMNS * slice + col]] *)
Definition column_parity (state : list Z) (slice col : nat) : Z :=
  let col_sum := foldl (fun col_sum row => col_sum + nth (cell_idx slice row col) state 0) 0
                   (seq 0 ROWS) in
  Z.rem col_sum 3.

Definition add_column_parity (state : list Z) : list Z :=
  let parity := assign (fun '(slice, col) => (COLUMNS * slice + col)%nat)
                  (fun '(slice, col) => column_parity state slice col)
                  slice_columns (replicate (SLICES * COLUMNS) 0) in
  foldl (fun state '(slice, row, col) =>
    let idx := cell_idx slice row col in
    let sum_to_add := nth ((col + 9 - 1) mod 9 + COLUMNS * slice) parity 0 +
                      nth ((col + 1) mod 9 + COLUMNS * ((slice + 1) mod SLICES)) parity 0 in
    <[idx := Z.rem (nth idx state 0 + sum_to_add) 3]> state) state cells.

Definition add_round_constant (state : list Z) (round : nat) : list Z :=
  foldl (fun state '(slice, col) =>
    let idx := (SLICESIZE * slice + col)%nat in
    let c := nth (slice * COLUMNS + col) (nth round round_constants []) 0 in
    <[idx := Z.rem (nth idx state 0 + c) 3]> state) state slice_columns.

Definition troika_round (state : list Z) (round : nat) : list Z :=
  let state := sub_trytes state in
  let state := shift_rows state in
  let state := shift_lanes state in
  let state := add_column_parity state in
  add_round_constant state round.

(** The code asserts that [num_rounds] is at most [NUM_ROUNDS]. *)
Definition troika_permutation (state : list Z) (num_rounds : nat) : list Z :=
  foldl troika_round state (seq 0 num_rounds).

(** ** The hash function

    A message is its buffer, of [message_length] trits.  Every turn of the loop of
    [troika_absorb] takes [rate] trits off the message: the length of the message is
    enough fuel when the rate is not zero. *)
Fixpoint absorb_blocks {S} (block : S -> list Z -> S) (rate fuel : nat) (state : S)
    (message : list Z) : S * list Z :=
  match fuel with
  | O => (state, message)
  | S fuel =>
      if (rate <=? length message)%nat
      then absorb_blocks block rate fuel (block state (take rate message)) (drop rate message)
      else (state, message)
  end.

(** The incomplete block, padded. *)
Definition pad_block (rate : nat) (message : list Z) : list Z :=
  <[length message := PADDING]> (message ++ replicate (rate - length message) 0).

Definition troika_absorb (state : list Z) (rate : nat) (message : list Z) (num_rounds : nat) : list Z :=
  let '(state, message) :=
    absorb_blocks (fun state block => troika_permutation (buf_write 0 block state) num_rounds)
      rate (length message) state message in
  let last_block := pad_block rate message in
  buf_write 0 last_block state.

(** The hash of [hash_length] trits, and the state after. *)
Fixpoint squeeze_blocks {S} (permute : S -> S) (read : nat -> S -> list Z) (rate fuel : nat)
    (hash_length : nat) (state : S) : list Z * nat * S :=
  match fuel with
  | O => ([], hash_length, state)
  | S fuel =>
      if (rate <=? hash_length)%nat
      then let state := permute state in
           let '(hash, rest, state') :=
             squeeze_blocks permute read rate fuel (hash_length - rate) state in
           (read rate state ++ hash, rest, state')
      else ([], hash_length, state)
  end.

Definition troika_squeeze (hash_length rate : nat) (state : list Z) (num_rounds : nat)
    : list Z * list Z :=
  let permute state := troika_permutation state num_rounds in
  let '(hash, hash_length, state) :=
    squeeze_blocks permute (buf_read 0) rate hash_length hash_length state in
  if (hash_length mod rate =? 0)%nat then (hash, state)
  else
    let state := permute state in
    (hash ++ buf_read 0 hash_length state, state).

Definition troika_var_rounds (outlen : nat) (input : list Z) (num_rounds : nat) : list Z :=
  let state := replicate STATESIZE 0 in
  let state := troika_absorb state TROIKA_RATE input num_rounds in
  (troika_squeeze outlen TROIKA_RATE state num_rounds).1.

Definition troika (outlen : nat) (input : list Z) : list Z :=
  troika_var_rounds outlen input NUM_ROUNDS.

(** ** What the loops leave in the array *)
Lemma length_assign {K} (idx : K -> nat) val ks a : length (assign idx val ks a) = length a.
Proof. unfold assign. revert a. induction ks; intros; cbn [foldl]; [done|]. by rewrite IHks, length_insert. Qed.

Lemma nth_insert_eq {A} (l : list A) i x d : (i < length l)%nat -> nth i (<[i := x]> l) d = x.
Proof.
  intros. rewrite (nth_lookup_Some _ _ _ x); [done|]. by apply list_lookup_insert_eq.
Qed.

Lemma nth_insert_ne {A} (l : list A) i j x d : i <> j -> nth i (<[j := x]> l) d = nth i l d.
Proof. intros. rewrite !nth_lookup, list_lookup_insert_ne by done. done. Qed.

Ltac nth_inserts :=
  repeat first [ rewrite nth_insert_ne by lia
               | rewrite nth_insert_eq by (rewrite ?length_insert; lia) ].

Lemma nth_replicate_same {A} k i (x : A) : nth i (replicate k x) x = x.
Proof. rewrite nth_lookup. destruct (replicate k x !! i) eqn:E; [|done]. by apply lookup_replicate in E as [-> _]. Qed.

(** An entry that some assignment of the loop writes, all of them with the same value. *)
Lemma nth_assign {K} (idx : K -> nat) val ks a i v :
  (i < length a)%nat -> (exists k, In k ks /\ idx k = i) ->
  (forall k, In k ks -> idx k = i -> val k = v) -> nth i (assign idx val ks a) 0 = v.
Proof.
  intros Hi (k & Hk & Ek) Hv. unfold assign. revert Hk Hv. induction ks as [|k' ks IH] using rev_ind; [done|].
  intros Hk Hv. rewrite foldl_app. cbn [foldl].
  change (foldl _ a ks) with (assign idx val ks a) in *.
  assert (length (assign idx val ks a) = length a) as Hl by apply length_assign.
  destruct (decide (idx k' = i)) as [<-|Hne].
  - rewrite nth_insert_eq by lia. apply Hv; [|done]. apply in_or_app. right. by left.
  - rewrite nth_insert_ne by done. apply IH.
    + apply in_app_or in Hk as [Hk|[<-|[]]]; [done|]. by rewrite Ek in Hne.
    + intros k0 Hk0. apply Hv. apply in_or_app. by left.
Qed.

(** A loop that updates the entries [idx k] one after the other, each from its own value. *)
Lemma nth_foldl_update {A K} (d : A) (idx : K -> nat) (f : K -> A -> A) ks a i :
  NoDup (map idx ks) -> (forall k, In k ks -> (idx k < length a)%nat) ->
  nth i (foldl (fun a k => <[idx k := f k (nth (idx k) a d)]> a) a ks) d =
  match List.find (fun k => idx k =? i)%nat ks with
  | Some k => f k (nth i a d)
  | None => nth i a d
  end.
Proof.
  revert a. induction ks as [|k ks IH]; intros a Hnd Hb; cbn [foldl List.find map]; [done|].
  cbn in Hnd. apply list.NoDup_cons in Hnd as [Hnin Hnd].
  rewrite IH; [|done|intros; rewrite length_insert; apply Hb; by right].
  destruct (Nat.eqb_spec (idx k) i) as [<-|Hne].
  - replace (List.find _ ks) with (@None K).
    + rewrite nth_insert_eq by (apply Hb; by left). done.
    + symmetry. destruct (List.find _ ks) as [k'|] eqn:E; [|done].
      apply List.find_some in E as [Hin E]. apply Nat.eqb_eq in E.
      destruct Hnin. rewrite <- E. apply list_elem_of_In. by apply in_map.
  - rewrite !nth_insert_ne by done. done.
Qed.

Lemma in_cells slice row col :
  In (slice, row, col) cells <-> (slice < SLICES)%nat /\ (row < ROWS)%nat /\ (col < COLUMNS)%nat.
Proof.
  unfold cells. rewrite in_flat_map. setoid_rewrite in_flat_map. setoid_rewrite in_map_iff.
  setoid_rewrite in_seq. split.
  - intros (? & ? & ? & ? & ? & [= <- <- <-] & ?). lia.
  - intros (?&?&?). exists slice. split; [lia|]. exists row. split; [lia|]. exists col. split; [done|lia].
Qed.

Lemma in_slice_columns slice col :
  In (slice, col) slice_columns <-> (slice < SLICES)%nat /\ (col < COLUMNS)%nat.
Proof.
  unfold slice_columns. rewrite in_flat_map. setoid_rewrite in_map_iff. setoid_rewrite in_seq.
  split.
  - intros (? & ? & ? & [= <- <-] & ?). lia.
  - intros (?&?). exists slice. split; [lia|]. exists col. split; [done|lia].
Qed.

(** ** What each step of a round does to the trits *)
Abbreviation cell state slice rc := (nth (SLICESIZE * slice + rc) state 0).

Definition sbox (x y z : Z) : Z := nth (Z.to_nat (9 * z + 3 * y + x)) sbox_lookup 0.

Lemma length_foldl {A K} (f : list A -> K -> list A) ks a : (forall a k, length (f a k) = length a) ->
  length (foldl f a ks) = length a.
Proof. intros Hf. revert a. induction ks as [|k ks IH]; intros; cbn [foldl]; [done|]. by rewrite IH, Hf. Qed.

(** A loop whose turn [k] only reads and writes the entries [3 k] to [3 k + 2]. *)
Section Triples.
Context {A : Type} (d : A) (step : list A -> nat -> list A).
Context (step_length : forall l k, length (step l k) = length l)
  (step_other : forall l k i, (i / 3 <> k)%nat -> nth i (step l k) d = nth i l d)
  (step_local : forall l l' k, length l = length l' ->
     (forall i, (i / 3 = k)%nat -> nth i l d = nth i l' d) ->
     forall i, (i / 3 = k)%nat -> nth i (step l k) d = nth i (step l' k) d).

Lemma nth_foldl_triples m l k i : (k < m)%nat -> (i / 3 = k)%nat ->
  nth i (foldl step l (seq 0 m)) d = nth i (step l k) d.
Proof.
  intros Hk Hi. replace m with (k + S (m - S k))%nat by lia.
  rewrite seq_app, foldl_app, Nat.add_0_l. cbn [seq foldl].
  assert (forall ks l, (forall x, In x ks -> x <> k) -> forall i, (i / 3 = k)%nat ->
    nth i (foldl step l ks) d = nth i l d) as Hskip.
  { induction ks as [|x ks IH]; intros l' Hx i' Ei; cbn [foldl]; [done|].
    rewrite IH; [|intros; apply Hx; by right|done]. apply step_other.
    rewrite Ei. intros ->. by destruct (Hx x (or_introl eq_refl)). }
  rewrite Hskip; [|intros x Hx; apply in_seq in Hx; lia|done].
  apply step_local; [by apply length_foldl| |done].
  intros i' Ei. apply Hskip; [|done]. intros x Hx. apply in_seq in Hx. lia.
Qed.
End Triples.

Lemma div3 k j : (j < 3)%nat -> ((3 * k + j) / 3 = k)%nat.
Proof. intros. symmetry. by apply (Nat.div_unique _ _ _ j). Qed.

Lemma div3_lt k i j : (i / 3 = k)%nat -> (j < 3)%nat -> ((3 * k + j) / 3 = i / 3)%nat.
Proof. intros <- ?. by apply div3. Qed.

Lemma div3_cases i : exists j, (j < 3)%nat /\ i = (3 * (i / 3) + j)%nat.
Proof.
  exists (i mod 3)%nat. split; [by apply Nat.mod_upper_bound|apply Nat.div_mod_eq].
Qed.

Lemma length_sub_tryte state k : length (sub_tryte state k) = length state.
Proof. unfold sub_tryte. by rewrite !length_insert. Qed.

Lemma length_sub_trytes state : length (sub_trytes state) = length state.
Proof. apply length_foldl, length_sub_tryte. Qed.

Lemma nth_sub_trytes_at state k (j : nat) : (k < NUM_SBOXES)%nat -> (j < 3)%nat ->
  nth (3 * k + j) (sub_trytes state) 0 = nth (3 * k + j) (sub_tryte state k) 0.
Proof.
  intros Hk Hj. apply nth_foldl_triples; [apply length_sub_tryte| | |done|by apply div3].
  - intros l k' i Hi. unfold sub_tryte. destruct (div3_cases i) as (j' & ? & ?).
    by nth_inserts.
  - intros l l' k' Hl He i Hi. unfold sub_tryte.
    rewrite (He (3 * k' + 2)%nat), (He (3 * k' + 1)%nat), (He (3 * k')%nat);
      [|rewrite <- (Nat.add_0_r (3 * k'))| |]; [|apply div3; lia..].
    destruct (decide (i < length l)%nat); [|by rewrite !nth_overflow by (rewrite ?length_insert; lia)].
    destruct (div3_cases i) as ([|[|[|]]] & ? & E); [..|lia]; rewrite Hi in E;
      rewrite E, ?Nat.add_0_r; nth_inserts; done.
Qed.

Lemma sub_trytes_cells state slice c : length state = STATESIZE -> (slice < SLICES)%nat -> (c < COLUMNS)%nat ->
  let v := sbox (cell state slice (3 * c + 2)) (cell state slice (3 * c + 1)) (cell state slice (3 * c)) in
  cell (sub_trytes state) slice (3 * c + 2) = Z.rem v 3 /\
  cell (sub_trytes state) slice (3 * c + 1) = Z.rem (Z.quot v 3) 3 /\
  cell (sub_trytes state) slice (3 * c) = Z.rem (Z.quot (Z.quot v 3) 3) 3.
Proof.
  intros Hl Hs Hc. unfold SLICESIZE, COLUMNS, ROWS in *. set (k := (9 * slice + c)%nat).
  assert (k < NUM_SBOXES)%nat as Hk
    by (change NUM_SBOXES with (9 * 27)%nat; unfold k, SLICES in *; lia).
  replace (9 * 3 * slice + (3 * c + 2))%nat with (3 * k + 2)%nat by (unfold k; lia).
  replace (9 * 3 * slice + (3 * c + 1))%nat with (3 * k + 1)%nat by (unfold k; lia).
  replace (9 * 3 * slice + 3 * c)%nat with (3 * k + 0)%nat by (unfold k; lia).
  rewrite !nth_sub_trytes_at by lia. unfold sub_tryte, sbox. cbv zeta. 
  assert (3 * k + 2 < STATESIZE)%nat by (change STATESIZE with (3 * NUM_SBOXES)%nat; lia).
  rewrite ?Nat.add_0_r.
  repeat split; nth_inserts; done.
Qed.

Lemma length_shift_rows state : length (shift_rows state) = STATESIZE.
Proof. unfold shift_rows. rewrite length_assign. apply length_replicate. Qed.

Lemma shift_rows_cells state slice row col :
  (slice < SLICES)%nat -> (row < ROWS)%nat -> (col < COLUMNS)%nat ->
  cell (shift_rows state) slice (COLUMNS * row + (col + 3 * row) mod COLUMNS) =
  cell state slice (COLUMNS * row + col).
Proof.
  intros Hs Hr Hc. unfold shift_rows.
  assert (forall r, (r < ROWS)%nat -> nth r shift_rows_param O = r) as Ep
    by (intros [|[|[|]]]; unfold ROWS; lia || done).
  pose proof (Nat.mod_upper_bound (col + 3 * row) COLUMNS).
  apply nth_assign.
  - rewrite length_replicate. unfold SLICESIZE, STATESIZE, COLUMNS, ROWS, SLICES in *. lia.
  - exists (slice, row, col). rewrite in_cells. split; [done|]. rewrite Ep by done.
    unfold cell_idx. lia.
  - intros [[s r] c] (Hs'&Hr'&Hc')%in_cells. rewrite Ep by done. unfold cell_idx.
    pose proof (Nat.mod_upper_bound (c + 3 * r) COLUMNS).
    unfold SLICESIZE, COLUMNS, ROWS, SLICES in *. intros E.
    assert (s = slice) as -> by lia. assert (r = row) as -> by lia.
    f_equal. pose proof (Nat.div_mod_eq (c + 3 * row) 9). pose proof (Nat.div_mod_eq (col + 3 * row) 9). lia.
Qed.

Lemma length_shift_lanes state : length (shift_lanes state) = STATESIZE.
Proof. unfold shift_lanes. rewrite length_assign. apply length_replicate. Qed.

Lemma shift_lanes_cells state slice rc : (slice < SLICES)%nat -> (rc < SLICESIZE)%nat ->
  cell (shift_lanes state) ((slice + nth rc shift_lanes_param O) mod SLICES) rc = cell state slice rc.
Proof.
  intros Hs Hrc. unfold shift_lanes.
  assert (exists row col, (row < ROWS)%nat /\ (col < COLUMNS)%nat /\ rc = (COLUMNS * row + col)%nat)
    as (row & col & Hr & Hc & ->).
  { exists (rc / COLUMNS)%nat, (rc mod COLUMNS)%nat. unfold SLICESIZE, COLUMNS, ROWS in *.
    pose proof (Nat.div_mod_eq rc 9). pose proof (Nat.mod_upper_bound rc 9). lia. }
  pose proof (Nat.mod_upper_bound (slice + nth (COLUMNS * row + col) shift_lanes_param O) SLICES).
  apply nth_assign.
  - rewrite length_replicate. unfold SLICESIZE, STATESIZE, COLUMNS, ROWS, SLICES in *. lia.
  - exists (slice, row, col). rewrite in_cells. split; [done|]. cbv zeta. unfold cell_idx.
    rewrite (Nat.add_comm col). lia.
  - intros [[s r] c] (Hs'&Hr'&Hc')%in_cells. cbv zeta. unfold cell_idx.
    pose proof (Nat.mod_upper_bound (s + nth (c + COLUMNS * r) shift_lanes_param O) SLICES).
    unfold SLICESIZE, COLUMNS, ROWS in *. intros E.
    assert (r = row) as -> by lia. assert (c = col) as -> by lia.
    rewrite (Nat.add_comm col) in E. f_equal.
    set (k := nth (9 * row + col) shift_lanes_param O) in *. unfold SLICES in *.
    pose proof (Nat.div_mod_eq (s + k) 27). pose proof (Nat.div_mod_eq (slice + k) 27). lia.
Qed.

Lemma foldl_fext {A S} (f g : S -> A -> S) s l : (forall s x, f s x = g s x) -> foldl f s l = foldl g s l.
Proof. intros H. revert s. induction l as [|x l IH]; intros; cbn [foldl]; [done|]. by rewrite H, IH. Qed.

Lemma NoDup_map_inj {A B} (f : A -> B) l x y : NoDup (map f l) -> In x l -> In y l -> f x = f y -> x = y.
Proof.
  induction l as [|z l IH]; cbn [map]; [done|]. intros [Hz Hnd]%list.NoDup_cons.
  assert (forall w, In w l -> f z <> f w) as Hw.
  { intros w Hw E. destruct Hz. rewrite E. by apply list_elem_of_In, in_map. }
  intros [->|Hx] [->|Hy] E; [done| | |by apply IH].
  - by destruct (Hw _ Hy).
  - by destruct (Hw _ Hx).
Qed.

Lemma nth_foldl_update_at {A K} (d : A) (idx : K -> nat) (f : K -> A -> A) ks a k :
  NoDup (map idx ks) -> (forall k, In k ks -> (idx k < length a)%nat) -> In k ks ->
  nth (idx k) (foldl (fun a k => <[idx k := f k (nth (idx k) a d)]> a) a ks) d = f k (nth (idx k) a d).
Proof.
  intros Hnd Hb Hk. rewrite nth_foldl_update by done.
  destruct (List.find (fun k' => idx k' =? idx k)%nat ks) as [k'|] eqn:E.
  - apply List.find_some in E as [Hk' E]. apply Nat.eqb_eq in E.
    assert (k' = k) as ->; [|done].
    by apply (NoDup_map_inj idx ks).
  - eapply List.find_none in E; [|exact Hk]. cbn in E. by rewrite Nat.eqb_refl in E.
Qed.

Lemma nth_foldl_update_out {A K} (d : A) (idx : K -> nat) (f : K -> A -> A) ks a i :
  NoDup (map idx ks) -> (forall k, In k ks -> (idx k < length a)%nat) ->
  (forall k, In k ks -> idx k <> i) ->
  nth i (foldl (fun a k => <[idx k := f k (nth (idx k) a d)]> a) a ks) d = nth i a d.
Proof.
  intros Hnd Hb Hk. rewrite nth_foldl_update by done.
  destruct (List.find (fun k' => idx k' =? i)%nat ks) as [k'|] eqn:E; [|done].
  apply List.find_some in E as [Hk' E]. apply Nat.eqb_eq in E. by destruct (Hk k').
Qed.

Lemma NoDup_cells : NoDup (map (fun '(slice, row, col) => cell_idx slice row col) cells).
Proof.
  replace (map _ cells) with (seq 0 STATESIZE) by (vm_compute; reflexivity). apply NoDup_seq.
Qed.

Lemma NoDup_slice_columns :
  NoDup (map (fun '(slice, col) => SLICESIZE * slice + col)%nat slice_columns).
Proof.
  assert (map (fun '(slice, col) => SLICESIZE * slice + col)%nat slice_columns =
    List.filter (fun i => i mod SLICESIZE <? COLUMNS)%nat (seq 0 STATESIZE)) as -> by (vm_compute; reflexivity).
  apply NoDup_ListNoDup, List.NoDup_filter, NoDup_ListNoDup, NoDup_seq.
Qed.

Lemma column_parity_cells state slice col :
  column_parity state slice col =
  Z.rem (cell state slice col + cell state slice (COLUMNS + col) + cell state slice (COLUMNS * 2 + col)) 3.
Proof.
  unfold column_parity. cbn [seq ROWS foldl]. unfold cell_idx.
  rewrite !Nat.add_assoc, Nat.mul_0_r, Nat.mul_1_r, Nat.add_0_r. done.
Qed.

Lemma length_add_column_parity state : length (add_column_parity state) = length state.
Proof.
  unfold add_column_parity. cbv zeta. apply length_foldl. intros ? [[??]?]. apply length_insert.
Qed.

Lemma cell_idx_lt slice row col : (slice < SLICES)%nat -> (row < ROWS)%nat -> (col < COLUMNS)%nat ->
  (cell_idx slice row col < STATESIZE)%nat.
Proof. unfold cell_idx, STATESIZE, SLICESIZE, COLUMNS, ROWS, SLICES. lia. Qed.

Lemma add_column_parity_cells state slice row col : length state = STATESIZE ->
  (slice < SLICES)%nat -> (row < ROWS)%nat -> (col < COLUMNS)%nat ->
  cell (add_column_parity state) slice (COLUMNS * row + col) =
  Z.rem (cell state slice (COLUMNS * row + col) +
         (column_parity state slice ((col + 9 - 1) mod 9) +
          column_parity state ((slice + 1) mod SLICES) ((col + 1) mod 9))) 3.
Proof.
  intros Hl Hs Hr Hc. unfold add_column_parity. cbv zeta.
  set (parity := assign _ _ _ _).
  assert (forall s c, (s < SLICES)%nat -> (c < COLUMNS)%nat ->
    nth (c + COLUMNS * s) parity 0 = column_parity state s c) as Ep.
  { intros s c Hs' Hc'. unfold parity. apply nth_assign.
    - rewrite length_replicate. unfold COLUMNS, SLICES in *. lia.
    - exists (s, c). rewrite in_slice_columns. split; [done|lia].
    - intros [s' c'] [??]%in_slice_columns E. unfold COLUMNS in *. f_equal; lia. }
  set (idx := fun k : nat * nat * nat => let '(slice, row, col) := k in cell_idx slice row col).
  set (f := fun (k : nat * nat * nat) v => let '(slice, row, col) := k in
    Z.rem (v + (nth ((col + 9 - 1) mod 9 + COLUMNS * slice) parity 0 +
      nth ((col + 1) mod 9 + COLUMNS * ((slice + 1) mod SLICES)) parity 0)) 3).
  rewrite (foldl_fext _ (fun a k => <[idx k := f k (nth (idx k) a 0)]> a))
    by (intros ? [[??]?]; reflexivity).
  replace (SLICESIZE * slice + (COLUMNS * row + col))%nat with (idx (slice, row, col))
    by (unfold idx, cell_idx; lia).
  rewrite nth_foldl_update_at.
  - unfold f. rewrite !Ep; first [done|by apply Nat.mod_upper_bound].
  - apply NoDup_cells.
  - intros [[??]?] (?&?&?)%in_cells. rewrite Hl. by apply cell_idx_lt.
  - by apply in_cells.
Qed.

Lemma length_add_round_constant state r : length (add_round_constant state r) = length state.
Proof.
  unfold add_round_constant. apply length_foldl. intros ? [??]. apply length_insert.
Qed.

Lemma add_round_constant_cells state round slice rc : length state = STATESIZE ->
  (slice < SLICES)%nat -> (rc < SLICESIZE)%nat ->
  cell (add_round_constant state round) slice rc =
  if (rc <? COLUMNS)%nat
  then Z.rem (cell state slice rc + nth (slice * COLUMNS + rc) (nth round round_constants []) 0) 3
  else cell state slice rc.
Proof.
  intros Hl Hs Hrc. unfold add_round_constant.
  set (idx := fun k : nat * nat => let '(slice, col) := k in (SLICESIZE * slice + col)%nat).
  set (f := fun (k : nat * nat) v => let '(slice, col) := k in
    Z.rem (v + nth (slice * COLUMNS + col) (nth round round_constants []) 0) 3).
  rewrite (foldl_fext _ (fun a k => <[idx k := f k (nth (idx k) a 0)]> a))
    by (intros ? [??]; reflexivity).
  assert (forall k, In k slice_columns -> (idx k < length state)%nat) as Hb.
  { intros [??] [??]%in_slice_columns. rewrite Hl. unfold idx, STATESIZE, SLICESIZE, COLUMNS, ROWS, SLICES in *. lia. }
  destruct (Nat.ltb_spec rc COLUMNS).
  - change (SLICESIZE * slice + rc)%nat with (idx (slice, rc)).
    rewrite (nth_foldl_update_at 0 idx f slice_columns state (slice, rc)); [done|apply NoDup_slice_columns|done|].
    by apply in_slice_columns.
  - rewrite nth_foldl_update_out; [done|apply NoDup_slice_columns|done|].
    intros [s c] [??]%in_slice_columns. unfold idx, SLICESIZE, COLUMNS, ROWS in *. lia.
Qed.
