(* ===== verification/Ftroika.v ===== *)
(** * Bit-sliced Troika

    [common/crypto/ftroika/t27.h] and [ftroika.c], and the two transformations of
    [mam/troika/troika.c].  A [t27_t] holds 27 trits in two 32-bit words, so that the
    state is an array of 27 of them, one for every row and column; slice number [i] is in
    the bits [i].  The permutation, the hash function and the transformation for MAM are
    proved equal to those of [Troika]. *)
From S2P Require Import Prelude Troika.

(** ** [t27.h] *)
Record t27_t := mk_t27 { p : Z; n : Z }.

Definition NOT32 (x : Z) : Z := u32 (Z.lnot x).
Definition SHL32 (x k : Z) : Z := u32 (Z.shiftl x k).
Definition T27_MASK : Z := 0x07ffffff.

(** The masks [_0], [_1] and [_2] of [general.h]. *)
Definition _1 (a : t27_t) : Z := p a.
Definition _2 (a : t27_t) : Z := n a.
Definition _0 (a : t27_t) : Z := Z.land (NOT32 (p a)) (NOT32 (n a)).

Definition t27_init (a b : Z) : t27_t := mk_t27 a b.

Definition t27_eq (a b : t27_t) : bool := (p a =? p b) && (n a =? n b).

Definition t27_clean (a : t27_t) : t27_t := mk_t27 (Z.land (p a) T27_MASK) (Z.land (n a) T27_MASK).

#[local] Infix "'&" := Z.land (at level 42, left associativity) : Z_scope.
#[local] Infix "'|" := Z.lor (at level 43, left associativity) : Z_scope.

Definition t27_sum (a b : t27_t) : t27_t :=
  mk_t27 ((_1 a '& _0 b) '| (_0 a '& _1 b) '| (_2 a '& _2 b))
         ((_2 a '& _0 b) '| (_0 a '& _2 b) '| (_1 a '& _1 b)).

Definition t27_roll (a : t27_t) (k : Z) : t27_t :=
  mk_t27 ((SHL32 (p a) k '| Z.shiftr (p a) (27 - k)) '& T27_MASK)
         ((SHL32 (n a) k '| Z.shiftr (n a) (27 - k)) '& T27_MASK).

Definition t27_get (a : t27_t) (pos : nat) : Z :=
  let mask := SHL32 1 (Z.of_nat pos) in
  if negb ((p a '& mask) =? 0) then 1
  else if negb ((n a '& mask) =? 0) then 2
  else 0.

(** The value is a [uint8_t]: a negative trit changes nothing. *)
Definition t27_set (a : t27_t) (pos : nat) (val : Z) : t27_t :=
  let val := u8 val in
  if 2 <? val then a
  else
    let mask := SHL32 1 (Z.of_nat pos) in
    let unmask := NOT32 mask in
    let a := mk_t27 (p a '& unmask) (n a '& unmask) in
    if val =? 1 then mk_t27 (p a '| mask) (n a)
    else if val =? 2 then mk_t27 (p a) (n a '| mask)
    else a.

Abbreviation t27_zero := (mk_t27 0 0).
Abbreviation get_t27 state i := (nth i state t27_zero).

Definition ft_get (state : list t27_t) (rowcol slice : nat) : Z :=
  t27_get (get_t27 state rowcol) slice.

Definition ft_set (state : list t27_t) (rowcol slice : nat) (val : Z) : list t27_t :=
  <[rowcol := t27_set (get_t27 state rowcol) slice val]> state.

Definition state_to_fstate (state : list Z) (fstate : list t27_t) : list t27_t :=
  foldl (fun fstate '(slice, row, colum) =>
    let t := nth (cell_idx slice row colum) state 0 in
    ft_set fstate (COLUMNS * row + colum) slice t) fstate cells.

Definition fstate_to_state (fstate : list t27_t) (state : list Z) : list Z :=
  assign (fun '(slice, row, colum) => cell_idx slice row colum)
    (fun '(slice, row, colum) => ft_get fstate (COLUMNS * row + colum) slice) cells state.

(** ** [ftroika.c] *)
Definition fround_constants : list (list t27_t) := [
  [mk_t27 119734530 1610953; mk_t27 5749794 34095441; mk_t27 8585540 55080601; mk_t27 37884008 77409799;
   mk_t27 54010117 84576; mk_t27 1516630 113295913; mk_t27 67149892 28728632; mk_t27 18946819 46269656;
   mk_t27 71707578 53494784];
  [mk_t27 16777439 103161856; mk_t27 106015553 10769436; mk_t27 21266449 11549090; mk_t27 25182214 106707976;
   mk_t27 3511622 21651481; mk_t27 99250704 98573; mk_t27 86049024 8946816; mk_t27 115430790 18522649;
   mk_t27 34802142 90448384];
  [mk_t27 52954114 4518880; mk_t27 42049594 69225857; mk_t27 64652 119014242; mk_t27 2361764 79725587;
   mk_t27 11788385 71306002; mk_t27 104925460 18936387; mk_t27 126091277 7368848; mk_t27 50448421 76157720;
   mk_t27 8389632 69472985];
  [mk_t27 5267465 119801412; mk_t27 219376 96215813; mk_t27 69452824 31209699; mk_t27 2458688 26900536;
   mk_t27 9216196 23217449; mk_t27 9479304 84560389; mk_t27 14721540 118622586; mk_t27 18134123 33751056;
   mk_t27 17839280 8454144];
  [mk_t27 50535754 83100304; mk_t27 77465099 56709376; mk_t27 3229283 54835588; mk_t27 111780009 4473088;
   mk_t27 78153311 1384832; mk_t27 2200712 85617187; mk_t27 3410924 71341072; mk_t27 75661345 34434134;
   mk_t27 56763059 69011456];
  [mk_t27 111543554 1650793; mk_t27 16908812 37251073; mk_t27 104910882 1517085; mk_t27 26041368 103842404;
   mk_t27 48022528 2229055; mk_t27 54104125 71320960; mk_t27 35722818 93087928; mk_t27 84559900 3190850;
   mk_t27 27582482 37816716];
  [mk_t27 68786250 54928432; mk_t27 3686682 63278693; mk_t27 70045 100557312; mk_t27 38150276 94408058;
   mk_t27 46798629 2394242; mk_t27 1202190 8988112; mk_t27 34308201 94384916; mk_t27 17518227 3145772;
   mk_t27 973329 136];
  [mk_t27 56633740 8765490; mk_t27 68419770 749061; mk_t27 100942913 23267584; mk_t27 79923980 51667986;
   mk_t27 41853745 25172098; mk_t27 39327896 75776000; mk_t27 44671808 68175902; mk_t27 2245138 13929772;
   mk_t27 33650945 79037966];
  [mk_t27 270473 90363412; mk_t27 72887432 25346582; mk_t27 100829319 16593224; mk_t27 40087630 68684337;
   mk_t27 6369457 110496512; mk_t27 4784407 25472000; mk_t27 33891012 79219770; mk_t27 53838530 8936492;
   mk_t27 68643936 525057];
  [mk_t27 102302534 16841864; mk_t27 50364433 75530210; mk_t27 84025378 41014464; mk_t27 25225495 102827176;
   mk_t27 4194888 1050917; mk_t27 84026756 39440496; mk_t27 2102125 76284930; mk_t27 219 101056512;
   mk_t27 100738441 5820436];
  [mk_t27 10228162 67365944; mk_t27 5235808 8393488; mk_t27 51989651 2228780; mk_t27 16847505 76433508;
   mk_t27 67651608 33591874; mk_t27 69017778 35784448; mk_t27 33587208 76568885; mk_t27 117440518 4257472;
   mk_t27 96273297 154690];
  [mk_t27 124317824 1508111; mk_t27 34873472 98616918; mk_t27 111182400 1330494; mk_t27 69374511 54871056;
   mk_t27 27626369 38929480; mk_t27 37879972 26052698; mk_t27 71587392 44040194; mk_t27 14000288 2101064;
   mk_t27 35672064 97980170];
  [mk_t27 81296 47317509; mk_t27 38469910 25472072; mk_t27 29738560 36700214; mk_t27 3267745 117973262;
   mk_t27 97993472 528537; mk_t27 84567940 13731898; mk_t27 77335148 21041296; mk_t27 51463726 6724033;
   mk_t27 1116193 23601996];
  [mk_t27 80396928 18153737; mk_t27 117581700 10059826; mk_t27 21505356 101124275; mk_t27 23679023 42993616;
   mk_t27 103681057 4268108; mk_t27 72885098 18914433; mk_t27 97846858 2627621; mk_t27 8422144 104538235;
   mk_t27 83948099 40176916];
  [mk_t27 6928902 67256433; mk_t27 67184746 41588096; mk_t27 69355878 38529; mk_t27 41473220 67313922;
   mk_t27 50647688 4336995; mk_t27 92288643 248148; mk_t27 12134919 37884008; mk_t27 35146408 2601044;
   mk_t27 9423489 17835048];
  [mk_t27 68231686 6477024; mk_t27 57284529 8398852; mk_t27 69316740 34996770; mk_t27 33696260 24642995;
   mk_t27 46333986 85212492; mk_t27 54665779 12422144; mk_t27 47791116 311458; mk_t27 44671584 72368411;
   mk_t27 2773762 29428924];
  [mk_t27 70976736 62972703; mk_t27 123864709 10004498; mk_t27 4202128 11157861; mk_t27 4859922 61129797;
   mk_t27 43331726 69782577; mk_t27 83935362 49559848; mk_t27 18875398 1355904; mk_t27 34433676 78808178;
   mk_t27 106038508 27888147];
  [mk_t27 4627260 33570944; mk_t27 4538630 121155721; mk_t27 9245346 117613917; mk_t27 33571009 29853970;
   mk_t27 2392559 43652096; mk_t27 93343744 37793194; mk_t27 17309712 36148998; mk_t27 3276900 118312456;
   mk_t27 101315856 5638796];
  [mk_t27 1587272 132514822; mk_t27 4229205 77297034; mk_t27 5767570 84216428; mk_t27 110247047 21528952;
   mk_t27 125878920 7743841; mk_t27 42033186 73801480; mk_t27 8388866 2699881; mk_t27 127159080 2240724;
   mk_t27 17324188 112468544];
  [mk_t27 34341913 91345154; mk_t27 105251840 2623560; mk_t27 4798982 10634481; mk_t27 39389184 84174433;
   mk_t27 88113152 8667000; mk_t27 34284722 329; mk_t27 39360568 67200132; mk_t27 6844996 58720546;
   mk_t27 104799233 29368426];
  [mk_t27 51429916 80362691; mk_t27 88855204 262411; mk_t27 8655522 71558228; mk_t27 17838342 11076784;
   mk_t27 92751916 1577424; mk_t27 33559104 8931338; mk_t27 1055746 99418513; mk_t27 85018341 39885072;
   mk_t27 63800 120587968];
  [mk_t27 5517104 84070467; mk_t27 118067364 5522242; mk_t27 39922643 68435980; mk_t27 73796250 35144996;
   mk_t27 2528811 37838868; mk_t27 37880008 17144593; mk_t27 21317458 112754688; mk_t27 113268098 20677181;
   mk_t27 2597136 47730886];
  [mk_t27 68438280 50397942; mk_t27 59853500 68030786; mk_t27 1475096 41965991; mk_t27 85852370 37775145;
   mk_t27 1071361 44113962; mk_t27 68040205 62931234; mk_t27 5847109 78005290; mk_t27 34465024 12720668;
   mk_t27 71860611 44513824];
  [mk_t27 109057155 3197812; mk_t27 2396909 16843778; mk_t27 67383952 31605828; mk_t27 70387369 37875732;
   mk_t27 119275955 28228; mk_t27 34079753 73679286; mk_t27 50603056 71422530; mk_t27 10385546 86017108;
   mk_t27 227426 12060561]].

(** The masks of the 27 values of a tryte, [ZERO] and [A] to [Z]. *)
Section SubTryte.
Context (a b c : t27_t).

Definition ZERO := _0 a '& _0 b '& _0 c.
Definition MA := _1 a '& _0 b '& _0 c.
Definition MB := _2 a '& _0 b '& _0 c.
Definition MC := _0 a '& _1 b '& _0 c.
Definition MD := _1 a '& _1 b '& _0 c.
Definition ME := _2 a '& _1 b '& _0 c.
Definition MF := _0 a '& _2 b '& _0 c.
Definition MG := _1 a '& _2 b '& _0 c.
Definition MH := _2 a '& _2 b '& _0 c.
Definition MI := _0 a '& _0 b '& _1 c.
Definition MJ := _1 a '& _0 b '& _1 c.
Definition MK := _2 a '& _0 b '& _1 c.
Definition ML := _0 a '& _1 b '& _1 c.
Definition MM := _1 a '& _1 b '& _1 c.
Definition MN := _2 a '& _1 b '& _1 c.
Definition MO := _0 a '& _2 b '& _1 c.
Definition MP := _1 a '& _2 b '& _1 c.
Definition MQ := _2 a '& _2 b '& _1 c.
Definition MR := _0 a '& _0 b '& _2 c.
Definition MS := _1 a '& _0 b '& _2 c.
Definition MT := _2 a '& _0 b '& _2 c.
Definition MU := _0 a '& _1 b '& _2 c.
Definition MV := _1 a '& _1 b '& _2 c.
Definition MW := _2 a '& _1 b '& _2 c.
Definition MX := _0 a '& _2 b '& _2 c.
Definition MY := _1 a '& _2 b '& _2 c.
Definition MZ := _2 a '& _2 b '& _2 c.

Definition ftroika_sub_tryte : t27_t * t27_t * t27_t :=
  let x0 := mk_t27 (MA '| ME '| MF '| MJ '| MM '| MP '| MS '| MU '| MZ)
                   (MB '| MC '| MG '| MK '| MN '| MQ '| MT '| MV '| MX) in
  let x1 := mk_t27 (MC '| MF '| MM '| MQ '| MR '| MS '| MT '| MW '| MY)
                   (ZERO '| MA '| MB '| MD '| MH '| MN '| MP '| MU '| MX) in
  let x2 := mk_t27 (MB '| MD '| ME '| ML '| MP '| MQ '| MS '| MV '| MW)
                   (MA '| MG '| MH '| MM '| MN '| MO '| MT '| MY '| MZ) in
  (t27_clean x0, t27_clean x1, t27_clean x2).
End SubTryte.

Definition ftroika_sub_column (state : list t27_t) (col : nat) : list t27_t :=
  let '(a, b, c) := ftroika_sub_tryte (get_t27 state (ROWS * col + 2))
                      (get_t27 state (ROWS * col + 1)) (get_t27 state (ROWS * col)) in
  <[(ROWS * col)%nat := c]> (<[(ROWS * col + 1)%nat := b]> (<[(ROWS * col + 2)%nat := a]> state)).

Definition ftroika_sub_trytes (state : list t27_t) : list t27_t :=
  foldl ftroika_sub_column state (seq 0 COLUMNS).

Definition shifts : list nat :=
  [0; 1; 2; 3; 4; 5; 6; 7; 8; 12; 13; 14; 15; 16; 17; 9; 10; 11; 24; 25; 26; 18; 19; 20; 21; 22; 23]%nat.

(** The first nine entries of [new_state] are not initialised, and not copied. *)
Definition ftroika_shift_rows (state : list t27_t) : list t27_t :=
  let new_state := foldl (fun new_state i => <[nth i shifts O := get_t27 state i]> new_state)
                     (replicate SLICESIZE t27_zero) (seq 9 (SLICESIZE - 9)) in
  buf_write 9 (drop 9 new_state) state.

Definition ftroika_shift_lanes (state : list t27_t) : list t27_t :=
  map (fun rowcol =>
    let shift := Z.of_nat (nth rowcol shift_lanes_param O) in
    t27_roll (get_t27 state rowcol) shift) (seq 0 SLICESIZE).

Definition ftroika_add_column_parity (state : list t27_t) : list t27_t :=
  let parity := map (fun col =>
    foldl (fun col_sum row => t27_sum col_sum (get_t27 state (COLUMNS * row + col)))
      (t27_init 0 0) (seq 0 ROWS)) (seq 0 COLUMNS) in
  foldl (fun state '(row, col) =>
    let idx := (COLUMNS * row + col)%nat in
    let t1 := get_t27 parity (if (col =? 0)%nat then COLUMNS - 1 else col - 1)%nat in
    let t2 := t27_roll (get_t27 parity (if (col =? COLUMNS - 1)%nat then 0 else col + 1)%nat)
                (Z.of_nat SLICES - 1) in
    let sum_to_add := t27_sum t1 t2 in
    <[idx := t27_sum (get_t27 state idx) sum_to_add]> state) state
    (flat_map (fun row => map (fun col => (row, col)) (seq 0 COLUMNS)) (seq 0 ROWS)).

Definition ftroika_add_round_constant (state : list t27_t) (round : nat) : list t27_t :=
  foldl (fun state col =>
    <[col := t27_sum (get_t27 state col) (get_t27 (nth round fround_constants []) col)]> state)
    state (seq 0 COLUMNS).

Definition ftroika_round (state : list t27_t) (round : nat) : list t27_t :=
  let state := ftroika_sub_trytes state in
  let state := ftroika_shift_rows state in
  let state := ftroika_shift_lanes state in
  let state := ftroika_add_column_parity state in
  ftroika_add_round_constant state round.

Definition ftroika_permutation (state : list t27_t) (num_rounds : nat) : list t27_t :=
  foldl ftroika_round state (seq 0 num_rounds).

Definition nullify (mask : Z) (state : list t27_t) : list t27_t :=
  map (fun a => mk_t27 (p a '& mask) (n a '& mask)) state.

Definition ftroika_nullify_state : list t27_t -> list t27_t := nullify 0.
Definition ftroika_nullify_rate : list t27_t -> list t27_t := nullify 0x07fffe00.
Definition ftroika_nullify_capacity : list t27_t -> list t27_t := nullify 0x000001ff.

Definition ftroika_compare_states (state other : list t27_t) : bool :=
  forallb (fun i => t27_eq (get_t27 state i) (get_t27 other i)) (seq 0 SLICES).

(** The loops that walk over the rows and columns, then the slices. *)
Fixpoint set_trits (state : list t27_t) (rowcol slice : nat) (trits : list Z) : list t27_t :=
  match trits with
  | [] => state
  | t :: trits =>
      let '(rowcol, slice) :=
        if (rowcol =? SLICESIZE)%nat then (O, S slice) else (rowcol, slice) in
      set_trits (ft_set state rowcol slice t) (S rowcol) slice trits
  end.

Fixpoint get_trits (state : list t27_t) (rowcol slice : nat) (len : nat) : list Z :=
  match len with
  | O => []
  | S len =>
      let '(rowcol, slice) :=
        if (rowcol =? SLICESIZE)%nat then (O, S slice) else (rowcol, slice) in
      ft_get state rowcol slice :: get_trits state (S rowcol) slice len
  end.

Definition ftroika_trits_to_rate (state : list t27_t) (trits : list Z) : list t27_t :=
  set_trits state 0 0 trits.

Definition ftroika_rate_to_trits (state : list t27_t) (len : nat) : list Z :=
  get_trits state 0 0 len.

(** Counts up in base three.  It has one turn for every trit of the state: with one more
    it would leave the array, which it does when every trit is a two. *)
Fixpoint ftroika_increase (fuel : nat) (state : list t27_t) (rowcol slice : nat)
    : option (list t27_t) :=
  match fuel with
  | O => None
  | S fuel =>
      let val := ft_get state rowcol slice in
      if val <? 2 then Some (ft_set state rowcol slice (val + 1))
      else
        let state := ft_set state rowcol slice 0 in
        let rowcol := S rowcol in
        if (rowcol =? SLICESIZE)%nat then ftroika_increase fuel state 0 (S slice)
        else ftroika_increase fuel state rowcol slice
  end.
Definition ftroika_increase_state (state : list t27_t) : option (list t27_t) :=
  ftroika_increase STATESIZE state 0 0.

Definition ftroika_absorb (state : list t27_t) (rate : nat) (message : list Z) (num_rounds : nat)
    : list t27_t :=
  let '(state, message) :=
    absorb_blocks (fun state block => ftroika_permutation (set_trits state 0 0 block) num_rounds)
      rate (length message) state message in
  let last_block := map u8 (pad_block rate message) in
  set_trits state 0 0 last_block.

Definition ftroika_squeeze (hash_length rate : nat) (state : list t27_t) (num_rounds : nat)
    : list Z * list t27_t :=
  let permute state := ftroika_permutation state num_rounds in
  let '(hash, hash_length, state) :=
    squeeze_blocks permute (fun len state => get_trits state 0 0 len) rate hash_length
      hash_length state in
  if (0 <? hash_length)%nat then
    let state := permute state in
    (hash ++ get_trits state 0 0 hash_length, state)
  else (hash, state).

Definition ftroika_var_rounds (outlen : nat) (input : list Z) (num_rounds : nat) : list Z :=
  let state := replicate SLICESIZE t27_zero in
  let state := ftroika_absorb state TROIKA_RATE input num_rounds in
  (ftroika_squeeze outlen TROIKA_RATE state num_rounds).1.

Definition ftroika (outlen : nat) (input : list Z) : list Z :=
  ftroika_var_rounds outlen input NUM_ROUNDS.

Definition repeat_step (state : list t27_t) : list t27_t :=
  let state := ftroika_nullify_capacity state in
  let state := ftroika_permutation state 24 in
  let state := ftroika_nullify_rate state in
  let state := ft_set state 0 0 PADDING in
  ftroika_permutation state 24.

Definition ftroika243_repeated (state : list t27_t) (input : list Z) (repeat : nat) : list Z :=
  let state := ftroika_nullify_state state in
  let state := ftroika_trits_to_rate state (take 243 input) in
  let state := Nat.iter repeat repeat_step state in
  ftroika_rate_to_trits state 243.

(** ** [mam/troika/troika.c]

    [fstate] is the array on the stack, which is not initialised. *)
Definition MAM_TROIKA_NUM_ROUNDS : nat := 24.

Definition mam_ftroika_transform (fstate : list t27_t) (state : list Z) : list Z :=
  let state := map (fun t => t + 1) state in
  let fstate := state_to_fstate state fstate in
  let fstate := ftroika_permutation fstate MAM_TROIKA_NUM_ROUNDS in
  let state := fstate_to_state fstate state in
  map (fun t => t - 1) state.

Definition mam_troika_transform (state : list Z) : list Z :=
  let state := map (fun t => t + 1) state in
  let state := troika_permutation state MAM_TROIKA_NUM_ROUNDS in
  map (fun t => t - 1) state.

(** ** One trit of a [t27_t]

    [holds a i v]: the trit number [i] of [a] is [v]. *)
Definition holds (a : t27_t) (i : nat) (v : Z) : Prop :=
  Z.testbit (p a) (Z.of_nat i) = (v =? 1) /\ Z.testbit (n a) (Z.of_nat i) = (v =? 2) /\ 0 <= v < 3.

(** No bit is set past the 27 trits. *)
Definition clean (a : t27_t) : Prop :=
  forall i, 27 <= i -> Z.testbit (p a) i = false /\ Z.testbit (n a) i = false.

Lemma testbit_u32 x i : 0 <= i < 32 -> Z.testbit (u32 x) i = Z.testbit x i.
Proof. intros. unfold uwrap. apply Z.mod_pow2_bits_low. lia. Qed.

Lemma testbit_NOT32 x i : 0 <= i < 32 -> Z.testbit (NOT32 x) i = negb (Z.testbit x i).
Proof. intros. unfold NOT32. rewrite testbit_u32 by done. apply Z.lnot_spec. lia. Qed.

Lemma testbit_SHL32 x k i : 0 <= i < 32 -> Z.testbit (SHL32 x k) i = Z.testbit x (i - k).
Proof. intros. unfold SHL32. rewrite testbit_u32 by done. apply Z.shiftl_spec. lia. Qed.

Lemma testbit_one i : Z.testbit 1 i = (i =? 0).
Proof. by destruct i as [|[i|i|]|i]. Qed.

Lemma testbit_mask27 i : 0 <= i -> Z.testbit T27_MASK i = (i <? 27).
Proof. intros. change T27_MASK with (Z.ones 27). rewrite Z.testbit_ones by lia. lia. Qed.

Lemma land_mask_eqb x k : (k < 27)%nat ->
  (Z.land x (SHL32 1 (Z.of_nat k)) =? 0) = negb (Z.testbit x (Z.of_nat k)).
Proof.
  intros Hk. unfold SHL32. rewrite Z.shiftl_1_l.
  rewrite uwrap_small by (split; [lia|apply Z.pow_lt_mono_r; lia]).
  destruct (Z.testbit x (Z.of_nat k)) eqn:E; cbn [negb].
  - apply Z.eqb_neq. intros H. assert (Z.testbit (Z.land x (2 ^ Z.of_nat k)) (Z.of_nat k) = false) as H'
      by (rewrite H; apply Z.bits_0).
    rewrite Z.land_spec, E, Z.pow2_bits_true in H' by lia. done.
  - apply Z.eqb_eq, Z.bits_inj'. intros i Hi. rewrite Z.land_spec, Z.bits_0.
    destruct (Z.eq_dec i (Z.of_nat k)) as [->|]; [by rewrite E|].
    rewrite Z.pow2_bits_false by lia. apply andb_false_r.
Qed.

Create Rewrite HintDb bits.
#[local] Hint Rewrite Z.land_spec Z.lor_spec Z.bits_0 : bits.
#[local] Hint Rewrite testbit_NOT32 testbit_SHL32 using lia : bits.

(** The trits 0, 1 and 2, and the bits that stand for them. *)
Lemma tern_cases v : 0 <= v < 3 -> v = 0 \/ v = 1 \/ v = 2.
Proof. lia. Qed.

Ltac tern_cases :=
  repeat match goal with
  | H : holds _ _ ?v |- _ =>
      let Hp := fresh "Hp" in let Hn := fresh "Hn" in
      destruct H as (Hp & Hn & [->|[->| ->]]%tern_cases);
      simpl Z.eqb in Hp, Hn
  end.

Lemma holds_range a i v : holds a i v -> 0 <= v < 3.
Proof. by intros (?&?&?). Qed.

Lemma holds_zero i : holds t27_zero i 0.
Proof. split; [|split]; cbn; [apply Z.bits_0|apply Z.bits_0|lia]. Qed.

Lemma t27_get_holds a i v : (i < 27)%nat -> holds a i v -> t27_get a i = v.
Proof.
  intros Hi H. unfold t27_get. rewrite !land_mask_eqb by done. tern_cases; by rewrite Hp, Hn.
Qed.

Lemma t27_set_same a i v : (i < 27)%nat -> 0 <= v < 3 -> holds (t27_set a i v) i v.
Proof.
  intros Hi Hv. unfold t27_set. rewrite uwrap_small by lia. 
  assert (Z.testbit 1 (Z.of_nat i - Z.of_nat i) = true) as E by (by rewrite Z.sub_diag).
  destruct (tern_cases v Hv) as [->|[->| ->]]; cbn -[Z.testbit SHL32 NOT32 Z.land Z.lor];
    (split; [|split]; [..|lia]); cbn [p n]; autorewrite with bits; rewrite ?E;
    rewrite ?andb_false_r; done.
Qed.

Lemma t27_set_other a i j v w : (i < 27)%nat -> (j < 27)%nat -> i <> j ->
  holds a j w -> holds (t27_set a i v) j w.
Proof.
  intros Hi Hj Hne (Hp & Hn & Hw). unfold t27_set.
  assert (Z.testbit 1 (Z.of_nat j - Z.of_nat i) = false) as E
    by (rewrite testbit_one; lia).
  destruct (2 <? u8 v); [done|].
  destruct (u8 v =? 1); [|destruct (u8 v =? 2)];
    (split; [|split]; [..|done]); cbn [p n]; autorewrite with bits; rewrite ?E, ?Hp, ?Hn;
    cbn; rewrite ?andb_true_r, ?orb_false_r; done.
Qed.

Lemma holds_sum a b i x y : (i < 27)%nat -> holds a i x -> holds b i y ->
  holds (t27_sum a b) i ((x + y) mod 3).
Proof.
  intros Hi Ha Hb. unfold t27_sum, _0, _1, _2.
  tern_cases; (split; [|split]; [..|closed_decide]); cbn [p n]; autorewrite with bits;
    rewrite ?Hp, ?Hn, ?Hp0, ?Hn0; reflexivity.
Qed.

Lemma clean_zero : clean t27_zero.
Proof. intros i _. by rewrite !Z.bits_0. Qed.

Lemma clean_sum a b : clean a -> clean b -> clean (t27_sum a b).
Proof.
  intros Ha Hb i Hi. destruct (Ha i Hi) as [Hap Han], (Hb i Hi) as [Hbp Hbn].
  unfold t27_sum, _1, _2. cbn [p n]. rewrite !Z.lor_spec, !Z.land_spec, Hap, Han, Hbp, Hbn.
  by rewrite !andb_false_r.
Qed.

Lemma clean_mask x y : clean (mk_t27 (Z.land x T27_MASK) (Z.land y T27_MASK)).
Proof.
  intros i Hi. cbn [p n]. rewrite !Z.land_spec, testbit_mask27 by lia.
  replace (i <? 27) with false by lia. by rewrite !andb_false_r.
Qed.

Lemma holds_roll a k i v : (k <= 27)%nat -> (i < 27)%nat -> clean a -> holds a i v ->
  holds (t27_roll a (Z.of_nat k)) ((i + k) mod 27) v.
Proof.
  intros Hk Hi Hc (Hp & Hn & Hv).
  assert ((i + k) mod 27 = i + k \/ (i + k) mod 27 = i + k - 27 /\ 27 <= i + k)%nat as E.
  { destruct (decide (i + k < 27)%nat); [left; by apply Nat.mod_small|right].
    split; [|lia]. symmetry. apply (Nat.mod_unique _ _ 1); lia. }
  assert (forall x, (forall j, 27 <= j -> Z.testbit x j = false) ->
    Z.testbit (Z.land (Z.lor (SHL32 x (Z.of_nat k)) (Z.shiftr x (27 - Z.of_nat k))) T27_MASK)
      (Z.of_nat ((i + k) mod 27)) = Z.testbit x (Z.of_nat i)) as Hx.
  { intros x Hx. pose proof (Nat.mod_upper_bound (i + k) 27).
    rewrite Z.land_spec, Z.lor_spec, testbit_mask27, testbit_SHL32, Z.shiftr_spec by lia.
    replace (_ <? 27) with true by lia. rewrite andb_true_r.
    destruct E as [->|[-> Hge]].
    - rewrite (Hx (_ + _)) by lia. rewrite orb_false_r. f_equal. lia.
    - rewrite (Z.testbit_neg_r x (_ - _)) by lia. cbn [orb]. f_equal. lia. }
  unfold t27_roll. split; [|split]; [..|done]; cbn [p n]; rewrite Hx; try done.
  - intros j Hj. by apply Hc.
  - intros j Hj. by apply Hc.
Qed.

(** The substitution of a tryte, on the trits of one slice. *)

Lemma testbit_clean x i : (i < 27)%nat ->
  Z.testbit (Z.land x T27_MASK) (Z.of_nat i) = Z.testbit x (Z.of_nat i).
Proof.
  intros. rewrite Z.land_spec, testbit_mask27 by lia. 
  replace (_ <? 27) with true by lia. apply andb_true_r.
Qed.

Lemma holds_sub_tryte a b c i x y z : (i < 27)%nat -> holds a i x -> holds b i y -> holds c i z ->
  let '(a', b', c') := ftroika_sub_tryte a b c in
  let v := sbox x y z in
  holds a' i (Z.rem v 3) /\ holds b' i (Z.rem (Z.quot v 3) 3) /\
  holds c' i (Z.rem (Z.quot (Z.quot v 3) 3) 3).
Proof.
  intros Hi Ha Hb Hc. unfold ftroika_sub_tryte. cbv zeta. unfold t27_clean. cbn [p n].
  unfold holds. cbn [p n]. rewrite !testbit_clean by done.
  unfold ZERO, MA, MB, MC, MD, ME, MF, MG, MH, MI, MJ, MK, ML, MM, MN, MO, MP, MQ, MR, MS, MT, MU,
    MV, MW, MX, MY, MZ, _0, _1, _2.
  rewrite !Z.lor_spec, !Z.land_spec, !testbit_NOT32 by lia.
  tern_cases; rewrite Hp, Hn, Hp0, Hn0, Hp1, Hn1; vm_compute; done.
Qed.

(** ** The simulation

    The two states hold the same trits. *)
Record sim (state : list Z) (fstate : list t27_t) : Prop := {
  sim_length : length state = STATESIZE;
  sim_flength : length fstate = SLICESIZE;
  sim_cells : forall slice rc, (slice < SLICES)%nat -> (rc < SLICESIZE)%nat ->
    holds (get_t27 fstate rc) slice (cell state slice rc)
}.

Definition all_clean (fstate : list t27_t) : Prop :=
  forall rc, (rc < SLICESIZE)%nat -> clean (get_t27 fstate rc).

Lemma length_ftroika_sub_column fstate k : length (ftroika_sub_column fstate k) = length fstate.
Proof. unfold ftroika_sub_column. destruct (ftroika_sub_tryte _ _ _) as [[??]?]. by rewrite !length_insert. Qed.

Lemma ftroika_sub_trytes_at fstate k : length fstate = SLICESIZE -> (k < COLUMNS)%nat ->
  (get_t27 (ftroika_sub_trytes fstate) (3 * k + 2),
   get_t27 (ftroika_sub_trytes fstate) (3 * k + 1),
   get_t27 (ftroika_sub_trytes fstate) (3 * k + 0)) =
  ftroika_sub_tryte (get_t27 fstate (3 * k + 2)) (get_t27 fstate (3 * k + 1))
    (get_t27 fstate (3 * k + 0)).
Proof.
  intros Hl Hk.
  assert (forall i, (i / 3 = k)%nat -> get_t27 (ftroika_sub_trytes fstate) i =
    get_t27 (ftroika_sub_column fstate k) i) as E.
  { intros i Hi. apply (nth_foldl_triples t27_zero ftroika_sub_column); [| | |done|done].
    - intros. apply length_ftroika_sub_column.
    - intros l k' i' Hi'. unfold ftroika_sub_column. destruct (ftroika_sub_tryte _ _ _) as [[??]?].
      destruct (div3_cases i') as (j & ? & ?). unfold ROWS. by nth_inserts.
    - intros l l' k' Hll He i' Hi'. unfold ftroika_sub_column, ROWS.
      rewrite (He (3 * k' + 2)%nat), (He (3 * k' + 1)%nat), (He (3 * k')%nat);
        [|rewrite <- (Nat.add_0_r (3 * k'))| |]; [|apply div3; lia..].
      destruct (ftroika_sub_tryte _ _ _) as [[??]?].
      destruct (decide (i' < length l)%nat); [|by rewrite !nth_overflow by (rewrite ?length_insert; lia)].
      destruct (div3_cases i') as ([|[|[|]]] & ? & E); [..|lia]; rewrite Hi' in E;
        rewrite E, ?Nat.add_0_r; by nth_inserts. }
  rewrite !E by (apply div3; lia). unfold ftroika_sub_column, ROWS. rewrite !Nat.add_0_r.
  unfold SLICESIZE, COLUMNS, ROWS in *. destruct (ftroika_sub_tryte _ _ _) as [[??]?]. by nth_inserts.
Qed.

Lemma rc_triples rc : (rc < SLICESIZE)%nat -> exists k j, (k < COLUMNS)%nat /\ (j < 3)%nat /\ rc = (3 * k + j)%nat.
Proof.
  intros. destruct (div3_cases rc) as (j & ? & E). exists (rc / 3)%nat, j.
  unfold SLICESIZE, COLUMNS, ROWS in *. lia.
Qed.

Lemma rc_rows rc : (rc < SLICESIZE)%nat ->
  exists row col, (row < ROWS)%nat /\ (col < COLUMNS)%nat /\ rc = (COLUMNS * row + col)%nat.
Proof.
  intros. exists (rc / COLUMNS)%nat, (rc mod COLUMNS)%nat. unfold SLICESIZE, COLUMNS, ROWS in *.
  pose proof (Nat.div_mod_eq rc 9). pose proof (Nat.mod_upper_bound rc 9). lia.
Qed.

Lemma sub_tryte_clean a b c : let '(x, y, z) := ftroika_sub_tryte a b c in clean x /\ clean y /\ clean z.
Proof. repeat split; apply clean_mask; done. Qed.

Lemma sim_sub_trytes state fstate : sim state fstate ->
  sim (sub_trytes state) (ftroika_sub_trytes fstate) /\ all_clean (ftroika_sub_trytes fstate).
Proof.
  intros [Hl Hfl Hc]. split; [split|].
  - by rewrite length_sub_trytes.
  - unfold ftroika_sub_trytes. rewrite length_foldl; [done|]. intros. apply length_ftroika_sub_column.
  - intros slice rc Hs (k & j & Hk & Hj & ->)%rc_triples.
    pose proof (ftroika_sub_trytes_at fstate k Hfl Hk) as E.
    destruct (sub_trytes_cells state slice k Hl Hs Hk) as (E2 & E1 & E0).
    assert (forall j, (j < 3)%nat -> (3 * k + j < SLICESIZE)%nat) as Hb
      by (intros; unfold SLICESIZE, COLUMNS, ROWS in *; lia).
    rewrite <- (Nat.add_0_r (3 * k)) in E0, E1, E2 at 1.
    pose proof (holds_sub_tryte _ _ _ slice _ _ _ Hs (Hc slice (3 * k + 2)%nat Hs (Hb 2%nat ltac:(lia)))
      (Hc slice (3 * k + 1)%nat Hs (Hb 1%nat ltac:(lia))) (Hc slice (3 * k + 0)%nat Hs (Hb 0%nat ltac:(lia)))) as H.
    rewrite <- E in H. destruct H as (H2 & H1 & H0). rewrite Nat.add_0_r in *.
    destruct j as [|[|[|]]]; [..|lia]; rewrite ?Nat.add_0_r.
    + by rewrite E0.
    + by rewrite E1.
    + by rewrite E2.
  - intros rc (k & j & Hk & Hj & ->)%rc_triples.
    pose proof (ftroika_sub_trytes_at fstate k Hfl Hk) as E.
    pose proof (sub_tryte_clean (get_t27 fstate (3 * k + 2)) (get_t27 fstate (3 * k + 1))
      (get_t27 fstate (3 * k + 0))) as H. rewrite <- E in H.
    destruct j as [|[|[|]]]; [..|lia]; apply H.
Qed.

(** Rows, and the entry of a row after a shift. *)
Lemma shifted_rc row col : (row < ROWS)%nat -> (col < COLUMNS)%nat ->
  exists col', (col' < COLUMNS)%nat /\ ((col' + 3 * row) mod COLUMNS = col)%nat.
Proof.
  intros Hr Hc. exists ((col + 9 - 3 * row) mod COLUMNS)%nat. unfold ROWS, COLUMNS in *.
  split; [by apply Nat.mod_upper_bound|].
  rewrite Nat.Div0.add_mod_idemp_l. symmetry. apply (Nat.mod_unique _ _ 1); lia.
Qed.

Lemma ftroika_shift_rows_at fstate row col : length fstate = SLICESIZE -> (row < ROWS)%nat ->
  (col < COLUMNS)%nat ->
  get_t27 (ftroika_shift_rows fstate) (COLUMNS * row + (col + 3 * row) mod COLUMNS) =
  get_t27 fstate (COLUMNS * row + col).
Proof.
  intros Hl Hr Hc. unfold SLICESIZE, COLUMNS, ROWS in *.
  do 27 (destruct fstate as [|? fstate]; [discriminate Hl|]). destruct fstate; [|discriminate Hl].
  destruct row as [|[|[|]]]; [..|lia];
    (do 9 (destruct col as [|col]; [reflexivity|])); lia.
Qed.

Lemma length_ftroika_shift_rows fstate : length fstate = SLICESIZE ->
  length (ftroika_shift_rows fstate) = SLICESIZE.
Proof.
  intros Hl. unfold ftroika_shift_rows. rewrite length_buf_write; [done|].
  rewrite Hl. unfold SLICESIZE, COLUMNS, ROWS. lia.
Qed.

Lemma sim_shift_rows state fstate : sim state fstate -> all_clean fstate ->
  sim (shift_rows state) (ftroika_shift_rows fstate) /\ all_clean (ftroika_shift_rows fstate).
Proof.
  intros [Hl Hfl Hc] Hcl. split; [split|].
  - apply length_shift_rows.
  - by apply length_ftroika_shift_rows.
  - intros slice rc Hs (row & col & Hr & Hcol & ->)%rc_rows.
    destruct (shifted_rc row col Hr Hcol) as (col' & Hc' & <-).
    rewrite shift_rows_cells, ftroika_shift_rows_at by done. apply Hc; [done|].
    unfold SLICESIZE, COLUMNS, ROWS in *. lia.
  - intros rc (row & col & Hr & Hcol & ->)%rc_rows.
    destruct (shifted_rc row col Hr Hcol) as (col' & Hc' & <-).
    rewrite ftroika_shift_rows_at by done. apply Hcl.
    unfold SLICESIZE, COLUMNS, ROWS in *. lia.
Qed.

Lemma shift_lanes_param_le rc : (nth rc shift_lanes_param O <= 27)%nat.
Proof. do 27 (destruct rc as [|rc]; [cbn; lia|]). destruct rc; cbn; lia. Qed.

Lemma sim_shift_lanes state fstate : sim state fstate -> all_clean fstate ->
  sim (shift_lanes state) (ftroika_shift_lanes fstate) /\ all_clean (ftroika_shift_lanes fstate).
Proof.
  intros [Hl Hfl Hc] Hcl.
  assert (forall rc, (rc < SLICESIZE)%nat -> get_t27 (ftroika_shift_lanes fstate) rc =
    t27_roll (get_t27 fstate rc) (Z.of_nat (nth rc shift_lanes_param O))) as E.
  { intros rc Hrc. unfold ftroika_shift_lanes. by rewrite nth_map_seq. }
  split; [split|].
  - apply length_shift_lanes.
  - unfold ftroika_shift_lanes. by rewrite length_map, length_seq.
  - intros slice rc Hs Hrc. rewrite E by done. pose proof (shift_lanes_param_le rc) as Hk.
    set (k := nth rc shift_lanes_param O) in *.
    assert (exists slice', (slice' < SLICES)%nat /\ ((slice' + k) mod SLICES = slice)%nat)
      as (slice' & Hs' & <-).
    { exists ((slice + 27 - k) mod SLICES)%nat. unfold SLICES in *.
      split; [by apply Nat.mod_upper_bound|].
      rewrite Nat.Div0.add_mod_idemp_l. symmetry. apply (Nat.mod_unique _ _ 1); lia. }
    unfold k at 3. rewrite shift_lanes_cells by done. apply holds_roll; [done|done|by apply Hcl|by apply Hc].
  - intros rc Hrc. rewrite E by done. apply clean_mask.
Qed.

Lemma rem3 x : 0 <= x -> Z.rem x 3 = x mod 3.
Proof. intros. by rewrite Z.rem_mod_nonneg by lia. Qed.

Lemma NoDup_rows_columns : NoDup (map (fun '(row, col) => COLUMNS * row + col)%nat
  (flat_map (fun row => map (fun col => (row, col)) (seq 0 COLUMNS)) (seq 0 ROWS))).
Proof. replace (map _ _) with (seq 0 SLICESIZE) by (vm_compute; reflexivity). apply NoDup_seq. Qed.

(** The parity of column [col], in the bits of every slice. *)
Definition t27_parity (fstate : list t27_t) (col : nat) : t27_t :=
  foldl (fun col_sum row => t27_sum col_sum (get_t27 fstate (COLUMNS * row + col)))
    (t27_init 0 0) (seq 0 ROWS).

Lemma holds_parity state fstate slice col : sim state fstate -> (slice < SLICES)%nat -> (col < COLUMNS)%nat ->
  holds (t27_parity fstate col) slice (column_parity state slice col).
Proof.
  intros [Hl Hfl Hc] Hs Hcol. unfold t27_parity. cbn [seq ROWS foldl].
  rewrite column_parity_cells. rewrite Nat.mul_0_r, Nat.mul_1_r, Nat.add_0_l.
  assert (col < SLICESIZE /\ COLUMNS + col < SLICESIZE /\ COLUMNS * 2 + col < SLICESIZE)%nat as (H0 & H1 & H2)
    by (unfold SLICESIZE, COLUMNS, ROWS in *; lia).
  pose proof (Hc slice _ Hs H0) as C0. pose proof (Hc slice _ Hs H1) as C1. pose proof (Hc slice _ Hs H2) as C2.
  rewrite rem3 by (apply holds_range in C0, C1, C2; lia).
  replace ((cell state slice col + cell state slice (COLUMNS + col) + cell state slice (COLUMNS * 2 + col)) mod 3)
    with ((((0 + cell state slice col) mod 3 + cell state slice (COLUMNS + col)) mod 3
           + cell state slice (COLUMNS * 2 + col)) mod 3)
    by (rewrite Zplus_mod_idemp_l, <- Z.add_assoc, Zplus_mod_idemp_l; f_equal; lia).
  repeat apply holds_sum; try done. apply holds_zero.
Qed.

Lemma clean_parity fstate col : (col < COLUMNS)%nat -> all_clean fstate -> clean (t27_parity fstate col).
Proof.
  intros Hcol Hcl. unfold t27_parity. cbn [seq ROWS foldl].
  repeat apply clean_sum; try apply clean_zero; apply Hcl; unfold SLICESIZE, COLUMNS, ROWS in *; lia.
Qed.

Lemma ftroika_add_column_parity_at fstate row col : length fstate = SLICESIZE ->
  (row < ROWS)%nat -> (col < COLUMNS)%nat ->
  get_t27 (ftroika_add_column_parity fstate) (COLUMNS * row + col) =
  t27_sum (get_t27 fstate (COLUMNS * row + col))
    (t27_sum (t27_parity fstate ((col + 9 - 1) mod 9))
       (t27_roll (t27_parity fstate ((col + 1) mod 9)) (Z.of_nat 26))).
Proof.
  intros Hl Hr Hc. unfold ftroika_add_column_parity. cbv zeta.
  set (parity := map (fun col => foldl (fun col_sum row =>
    t27_sum col_sum (get_t27 fstate (COLUMNS * row + col))) (t27_init 0 0) (seq 0 ROWS)) (seq 0 COLUMNS)).
  set (ks := flat_map _ _).
  set (idx := fun k : nat * nat => let '(row, col) := k in (COLUMNS * row + col)%nat).
  set (f := fun (k : nat * nat) v => let '(row, col) := k in
    t27_sum v (t27_sum (get_t27 parity (if (col =? 0)%nat then COLUMNS - 1 else col - 1)%nat)
       (t27_roll (get_t27 parity (if (col =? COLUMNS - 1)%nat then 0 else col + 1)%nat)
          (Z.of_nat SLICES - 1)))).
  rewrite (foldl_fext _ (fun a k => <[idx k := f k (nth (idx k) a t27_zero)]> a))
    by (intros ? [??]; reflexivity).
  assert (forall k, In k ks -> (idx k < length fstate)%nat) as Hb.
  { intros [r c] Hin. unfold ks in Hin. apply in_flat_map in Hin as (r' & [_ Hr']%in_seq & Hin).
    apply in_map_iff in Hin as (c' & [= -> ->] & [_ Hc']%in_seq).
    rewrite Hl. unfold idx, SLICESIZE, COLUMNS, ROWS in *. lia. }
  change (COLUMNS * row + col)%nat with (idx (row, col)).
  rewrite nth_foldl_update_at; [|apply NoDup_rows_columns|done|].
  - unfold f. f_equal. unfold COLUMNS in *. cbn [Nat.sub].
    do 9 (destruct col as [|col]; [reflexivity|]). lia.
  - unfold ks. apply in_flat_map. exists row. split; [apply in_seq; lia|].
    apply in_map_iff. exists col. split; [done|apply in_seq; lia].
Qed.

Lemma sim_add_column_parity state fstate : sim state fstate -> all_clean fstate ->
  sim (add_column_parity state) (ftroika_add_column_parity fstate) /\
  all_clean (ftroika_add_column_parity fstate).
Proof.
  intros Hsim Hcl. destruct Hsim as [Hl Hfl Hc] eqn:Es. clear Es.
  assert (forall k, (k mod 9 < COLUMNS)%nat) as Hm by (intros; by apply Nat.mod_upper_bound).
  split; [split|].
  - by rewrite length_add_column_parity.
  - unfold ftroika_add_column_parity. rewrite length_foldl; [done|]. intros ? [??]. apply length_insert.
  - intros slice rc Hs (row & col & Hr & Hcol & ->)%rc_rows.
    rewrite add_column_parity_cells, ftroika_add_column_parity_at by done.
    assert (((slice + 1) mod SLICES < SLICES)%nat) as Hs' by (by apply Nat.mod_upper_bound).
    assert (COLUMNS * row + col < SLICESIZE)%nat as Hrc by (unfold SLICESIZE, COLUMNS, ROWS in *; lia).
    pose proof (Hc slice _ Hs Hrc) as C0.
    pose proof (holds_parity state fstate slice _ Hsim Hs (Hm (col + 9 - 1)%nat)) as C1.
    pose proof (holds_parity state fstate _ _ Hsim Hs' (Hm (col + 1)%nat)) as C2.
    rewrite rem3 by (apply holds_range in C0, C1, C2; lia).
    rewrite <- Zplus_mod_idemp_r. apply holds_sum; [done|done|]. apply holds_sum; [done|done|].
    replace slice with (((slice + 1) mod SLICES + 26) mod 27)%nat at 1.
    + apply holds_roll; [lia|done|by apply clean_parity|done].
    + change SLICES with 27%nat in *. rewrite Nat.Div0.add_mod_idemp_l. symmetry.
      apply (Nat.mod_unique _ _ 1); lia.
  - intros rc (row & col & Hr & Hcol & ->)%rc_rows. rewrite ftroika_add_column_parity_at by done.
    apply clean_sum; [apply Hcl; unfold SLICESIZE, COLUMNS, ROWS in *; lia|].
    apply clean_sum; [by apply clean_parity|apply clean_mask].
Qed.

(** The two tables of constants are the same. *)
Definition holdsb (a : t27_t) (i : nat) (v : Z) : bool :=
  eqb (Z.testbit (p a) (Z.of_nat i)) (v =? 1) && eqb (Z.testbit (n a) (Z.of_nat i)) (v =? 2)
  && (0 <=? v) && (v <? 3).
Definition cleanb (a : t27_t) : bool :=
  (Z.land (p a) T27_MASK =? p a) && (Z.land (n a) T27_MASK =? n a).

Lemma holdsb_holds a i v : holdsb a i v = true -> holds a i v.
Proof.
  unfold holdsb. rewrite !andb_true_iff, !eqb_true_iff, Z.leb_le, Z.ltb_lt.
  intros [[[? ?] ?] ?]. by split; [|split].
Qed.

Lemma cleanb_clean a : cleanb a = true -> clean a.
Proof.
  unfold cleanb. rewrite andb_true_iff, !Z.eqb_eq. destruct a as [x y]. cbn [p n].
  intros [Ex Ey]. rewrite <- Ex, <- Ey. apply clean_mask.
Qed.

Lemma constants_agree round slice col :
  (round < NUM_ROUNDS)%nat -> (slice < SLICES)%nat -> (col < COLUMNS)%nat ->
  let c := get_t27 (nth round fround_constants []) col in
  holds c slice (nth (slice * COLUMNS + col) (nth round round_constants []) 0) /\ clean c.
Proof.
  intros Hr Hs Hc. cbv zeta.
  assert (forallb (fun round =>
    let fc := nth round fround_constants [] in let rc := nth round round_constants [] in
    forallb (fun col => cleanb (get_t27 fc col) && forallb (fun slice =>
      holdsb (get_t27 fc col) slice (nth (slice * COLUMNS + col) rc 0)) (seq 0 SLICES))
    (seq 0 COLUMNS)) (seq 0 NUM_ROUNDS) = true) as H by (vm_compute; reflexivity).
  rewrite forallb_forall in H. specialize (H round ltac:(apply in_seq; lia)). cbv zeta in H.
  rewrite forallb_forall in H. specialize (H col ltac:(apply in_seq; lia)).
  apply andb_true_iff in H as [H1 H2].
  rewrite forallb_forall in H2. specialize (H2 slice ltac:(apply in_seq; lia)).
  split; [by apply holdsb_holds|by apply cleanb_clean].
Qed.

Lemma sim_add_round_constant state fstate round : (round < NUM_ROUNDS)%nat ->
  sim state fstate -> all_clean fstate ->
  sim (add_round_constant state round) (ftroika_add_round_constant fstate round) /\
  all_clean (ftroika_add_round_constant fstate round).
Proof.
  intros Hround [Hl Hfl Hc] Hcl. unfold ftroika_add_round_constant.
  set (fc := nth round fround_constants []).
  set (f := fun col v => t27_sum v (get_t27 fc col)).
  set (fstate' := foldl _ _ _).
  assert (forall rc, (rc < SLICESIZE)%nat -> get_t27 fstate' rc =
    if (rc <? COLUMNS)%nat then t27_sum (get_t27 fstate rc) (get_t27 fc rc) else get_t27 fstate rc) as E.
  { intros rc Hrc.
    assert (NoDup (map id (seq 0 COLUMNS))) as Hnd by (rewrite map_id; apply NoDup_seq).
    assert (forall k, In k (seq 0 COLUMNS) -> (id k < length fstate)%nat) as Hb.
    { intros k Hk%in_seq. rewrite Hfl. unfold id, SLICESIZE, COLUMNS, ROWS in *. lia. }
    destruct (Nat.ltb_spec rc COLUMNS).
    - apply (nth_foldl_update_at t27_zero id f (seq 0 COLUMNS) fstate rc Hnd Hb). apply in_seq. lia.
    - apply (nth_foldl_update_out t27_zero id f (seq 0 COLUMNS) fstate rc Hnd Hb).
      intros k Hk%in_seq. unfold id. lia. }
  split; [split|].
  - by rewrite length_add_round_constant.
  - unfold fstate'. rewrite length_foldl; [done|]. intros. apply length_insert.
  - intros slice rc Hs Hrc. rewrite add_round_constant_cells, E by done.
    pose proof (Hc slice rc Hs Hrc) as C0. destruct (Nat.ltb_spec rc COLUMNS) as [Hlt|]; [|done].
    destruct (constants_agree round slice rc Hround Hs Hlt) as [C1 _].
    rewrite rem3 by (apply holds_range in C0, C1; lia). by apply holds_sum.
  - intros rc Hrc. rewrite E by done. destruct (Nat.ltb_spec rc COLUMNS) as [Hlt|]; [|by apply Hcl].
    apply clean_sum; [by apply Hcl|].
    apply (constants_agree round 0 rc Hround ltac:(unfold SLICES; lia) Hlt).
Qed.

Lemma sim_round state fstate round : (round < NUM_ROUNDS)%nat -> sim state fstate ->
  sim (troika_round state round) (ftroika_round fstate round).
Proof.
  intros Hr Hsim. unfold troika_round, ftroika_round. cbv zeta.
  destruct (sim_sub_trytes _ _ Hsim) as [H1 C1].
  destruct (sim_shift_rows _ _ H1 C1) as [H2 C2].
  destruct (sim_shift_lanes _ _ H2 C2) as [H3 C3].
  destruct (sim_add_column_parity _ _ H3 C3) as [H4 C4].
  by apply sim_add_round_constant.
Qed.

Lemma sim_rounds rounds : Forall (fun r => r < NUM_ROUNDS)%nat rounds -> forall state fstate,
  sim state fstate -> sim (foldl troika_round state rounds) (foldl ftroika_round fstate rounds).
Proof.
  induction 1 as [|r rounds Hr _ IH]; intros state fstate Hsim; cbn [foldl]; [done|].
  by apply IH, sim_round.
Qed.

Lemma sim_permutation state fstate num_rounds : (num_rounds <= NUM_ROUNDS)%nat -> sim state fstate ->
  sim (troika_permutation state num_rounds) (ftroika_permutation fstate num_rounds).
Proof.
  intros Hn. apply sim_rounds. apply List.Forall_forall. intros r Hr%in_seq. lia.
Qed.

(** ** Reading and writing the state *)
Abbreviation tern := (fun v : Z => 0 <= v < 3).

Lemma holds_inj a i v w : holds a i v -> holds a i w -> v = w.
Proof. intros H1 H2. tern_cases; congruence. Qed.

Lemma pos_cell i : (i < STATESIZE)%nat -> exists slice rc,
  (slice < SLICES)%nat /\ (rc < SLICESIZE)%nat /\ i = (SLICESIZE * slice + rc)%nat.
Proof.
  intros. exists (i / 27)%nat, (i mod 27)%nat.
  unfold STATESIZE, SLICESIZE, SLICES, COLUMNS, ROWS in *.
  pose proof (Nat.div_mod_eq i 27). pose proof (Nat.mod_upper_bound i 27). lia.
Qed.

Lemma cell_lt slice rc : (slice < SLICES)%nat -> (rc < SLICESIZE)%nat ->
  (SLICESIZE * slice + rc < STATESIZE)%nat.
Proof. unfold STATESIZE, SLICESIZE, SLICES, COLUMNS, ROWS. lia. Qed.

Lemma state_ext (s1 s2 : list Z) : length s1 = STATESIZE -> length s2 = STATESIZE ->
  (forall slice rc, (slice < SLICES)%nat -> (rc < SLICESIZE)%nat -> cell s1 slice rc = cell s2 slice rc) ->
  s1 = s2.
Proof.
  intros H1 H2 H. apply (nth_ext _ _ 0 0); [congruence|]. intros i Hi. rewrite H1 in Hi.
  apply pos_cell in Hi as (slice & rc & ? & ? & ->). by apply H.
Qed.

(** The trits of a state are determined by its bits, and are in range. *)
Lemma sim_inj s1 s2 f : sim s1 f -> sim s2 f -> s1 = s2.
Proof.
  intros [L1 _ C1] [L2 _ C2]. apply state_ext; [done|done|]. intros slice rc Hs Hrc.
  eapply holds_inj; eauto.
Qed.

Lemma sim_tern s f : sim s f -> Forall tern s.
Proof.
  intros [L _ C]. apply List.Forall_forall. intros x Hx. apply (In_nth _ _ 0) in Hx as (i & Hi & <-).
  rewrite L in Hi. apply pos_cell in Hi as (slice & rc & ? & ? & ->). eapply holds_range; eauto.
Qed.

Lemma tern_nth s i : Forall tern s -> tern (nth i s 0).
Proof.
  intros Hs. destruct (decide (i < length s)%nat).
  - rewrite List.Forall_forall in Hs. apply Hs, nth_In. lia.
  - rewrite nth_overflow by lia. lia.
Qed.

Lemma holds_ft_set f rowcol slice t rc s v : length f = SLICESIZE -> (rowcol < SLICESIZE)%nat ->
  (slice < SLICES)%nat -> (s < SLICES)%nat -> tern t ->
  (if decide (rowcol = rc /\ slice = s) then t = v else holds (get_t27 f rc) s v) ->
  holds (get_t27 (ft_set f rowcol slice t) rc) s v.
Proof.
  intros Hl Hr Hs Hs' Ht Hv. unfold ft_set. destruct (decide (rowcol = rc)) as [->|].
  - rewrite nth_insert_eq by lia. case_decide as E.
    + destruct E as [_ ->]. subst t. by apply t27_set_same.
    + apply t27_set_other; [done|done| |done]. intros ->. tauto.
  - rewrite nth_insert_ne by done. case_decide as E; [tauto|done].
Qed.

(** [state_to_fstate] does not depend on what is on the stack. *)
Lemma sim_state_to_fstate state fstate : length state = STATESIZE -> Forall tern state ->
  length fstate = SLICESIZE -> sim state (state_to_fstate state fstate).
Proof.
  intros Hl Ht Hf.
  assert (forall ks f, length f = SLICESIZE -> (forall k, In k ks -> In k cells) ->
    let f' := foldl (fun fstate '(slice, row, colum) =>
      ft_set fstate (COLUMNS * row + colum) slice (nth (cell_idx slice row colum) state 0)) f ks in
    length f' = SLICESIZE /\ forall slice row col, In (slice, row, col) cells ->
      In (slice, row, col) ks \/
      holds (get_t27 f (COLUMNS * row + col)) slice (nth (cell_idx slice row col) state 0) ->
      holds (get_t27 f' (COLUMNS * row + col)) slice (nth (cell_idx slice row col) state 0)) as H.
  { induction ks as [|[[s r] c] ks IH]; intros f Hlf Hin; cbn [foldl].
    - split; [done|]. intros ??? _ [[]|]; done.
    - destruct (IH (ft_set f (COLUMNS * r + c) s (nth (cell_idx s r c) state 0))) as [IHl IHc];
        [unfold ft_set; by rewrite length_insert|intros; apply Hin; by right|].
      split; [done|]. intros slice row col Hk Hor. apply IHc; [done|].
      pose proof (Hin _ (or_introl eq_refl)) as (Hs & Hr & Hc)%in_cells.
      apply in_cells in Hk as (Hs' & Hr' & Hc').
      assert (COLUMNS * r + c < SLICESIZE)%nat as Hrc by (unfold SLICESIZE, COLUMNS, ROWS in *; lia).
      destruct Hor as [[[= <- <- <-]|Hin']|Hold]; [right|by left|right].
      + apply holds_ft_set; try done; [by apply tern_nth|]. by rewrite decide_True.
      + apply holds_ft_set; try done; [by apply tern_nth|]. case_decide as E; [|done].
        f_equal. unfold cell_idx, SLICESIZE, COLUMNS, ROWS in *. lia. }
  destruct (H cells fstate Hf ltac:(done)) as [H1 H2]. split; [done|done|].
  intros slice rc Hs (row & col & Hr & Hcol & ->)%rc_rows.
  rewrite Nat.add_assoc. apply H2; [by apply in_cells|left; by apply in_cells].
Qed.

Lemma fstate_to_state_sim state fstate buffer : sim state fstate -> length buffer = STATESIZE ->
  fstate_to_state fstate buffer = state.
Proof.
  intros [Hl Hf Hc] Hb. unfold fstate_to_state.
  apply state_ext; [by rewrite length_assign|done|]. intros slice rc Hs Hrc.
  apply nth_assign.
  - rewrite Hb. by apply cell_lt.
  - apply rc_rows in Hrc as (row & col & Hr & Hcol & ->). exists (slice, row, col).
    rewrite in_cells. split; [done|]. unfold cell_idx. lia.
  - intros [[s r] c] (Hs' & Hr & Hc')%in_cells E.
    assert (COLUMNS * r + c < SLICESIZE)%nat as Hrc' by (unfold SLICESIZE, COLUMNS, ROWS in *; lia).
    replace (SLICESIZE * slice + rc)%nat with (SLICESIZE * s + (COLUMNS * r + c))%nat
      by (rewrite <- E; unfold cell_idx; lia).
    apply t27_get_holds; [done|]. by apply Hc.
Qed.

Lemma sim_ft_set state fstate rowcol slice t : sim state fstate -> (rowcol < SLICESIZE)%nat ->
  (slice < SLICES)%nat -> tern t ->
  sim (<[(SLICESIZE * slice + rowcol)%nat := t]> state) (ft_set fstate rowcol slice t).
Proof.
  intros [Hl Hf Hc] Hr Hs Ht. pose proof (cell_lt slice rowcol Hs Hr). split.
  - by rewrite length_insert.
  - unfold ft_set. by rewrite length_insert.
  - intros s rc Hs' Hrc. apply holds_ft_set; try done. case_decide as E.
    + destruct E as [-> ->]. rewrite nth_insert_eq by lia. done.
    + rewrite nth_insert_ne; [by apply Hc|]. intros E'. apply E.
      unfold SLICESIZE, COLUMNS, ROWS in *. lia.
Qed.

Lemma buf_write_cons {A} pos (x : A) l b : (pos < length b)%nat ->
  buf_write pos (x :: l) b = buf_write (S pos) l (<[pos := x]> b).
Proof.
  intros Hp. unfold buf_write. rewrite length_insert, insert_take_drop by done.
  rewrite take_app_ge by (rewrite length_take; lia). rewrite length_take, Nat.min_l by lia.
  replace (S pos - pos)%nat with 1%nat by lia. cbn [take].
  rewrite <- app_assoc. f_equal. cbn [app length].
  destruct (length b - pos)%nat as [|m] eqn:E; [lia|]. cbn [take].
  replace (length b - S pos)%nat with m by lia. f_equal. f_equal.
  rewrite drop_app_ge by (rewrite length_take; lia). rewrite length_take, Nat.min_l by lia.
  replace (S pos + length l - pos)%nat with (S (length l)) by lia. cbn [drop].
  rewrite drop_drop, take_0. cbn [app]. do 3 f_equal. lia.
Qed.

Lemma sim_set_trits trits : forall state fstate rowcol slice, sim state fstate ->
  (rowcol <= SLICESIZE)%nat -> (SLICESIZE * slice + rowcol + length trits <= STATESIZE)%nat ->
  Forall tern trits ->
  sim (buf_write (SLICESIZE * slice + rowcol) trits state) (set_trits fstate rowcol slice trits).
Proof.
  induction trits as [|t trits IH]; intros state fstate rowcol slice Hsim Hr Hb Ht; cbn [set_trits].
  - unfold buf_write. cbn [length take app]. rewrite Nat.add_0_r, firstn_nil. cbn [app]. by rewrite take_drop.
  - apply Forall_cons_iff in Ht as [Ht Hts]. cbn [length] in Hb.
    rewrite buf_write_cons by (rewrite (sim_length _ _ Hsim); lia).
    destruct (Nat.eqb_spec rowcol SLICESIZE) as [->|Hne].
    + replace (SLICESIZE * slice + SLICESIZE)%nat with (SLICESIZE * S slice + 0)%nat by lia.
      rewrite <- Nat.add_succ_r. apply IH; [|unfold SLICESIZE, COLUMNS, ROWS; lia|lia|done].
      apply sim_ft_set; [done|unfold SLICESIZE, COLUMNS, ROWS; lia| |done].
      unfold STATESIZE, SLICES, SLICESIZE, COLUMNS, ROWS in *. lia.
    + rewrite <- Nat.add_succ_r. apply IH; [|lia|lia|done].
      apply sim_ft_set; [done|lia| |done].
      unfold STATESIZE, SLICES, SLICESIZE, COLUMNS, ROWS in *. lia.
Qed.

Lemma buf_read_S {A} pos len (b : list A) d : (pos < length b)%nat ->
  buf_read pos (S len) b = nth pos b d :: buf_read (S pos) len b.
Proof.
  intros Hp. unfold buf_read. rewrite (drop_S b (nth pos b d)); [done|].
  rewrite nth_lookup. destruct (b !! pos) eqn:E; [done|]. apply lookup_ge_None in E. lia.
Qed.

Lemma get_trits_sim len : forall state fstate rowcol slice, sim state fstate ->
  (rowcol <= SLICESIZE)%nat -> (SLICESIZE * slice + rowcol + len <= STATESIZE)%nat ->
  get_trits fstate rowcol slice len = buf_read (SLICESIZE * slice + rowcol) len state.
Proof.
  induction len as [|len IH]; intros state fstate rowcol slice Hsim Hr Hb; cbn [get_trits]; [done|].
  rewrite (buf_read_S _ _ _ 0) by (rewrite (sim_length _ _ Hsim); lia).
  assert (forall rc s, (rc < SLICESIZE)%nat -> (s < SLICES)%nat -> ft_get fstate rc s = cell state s rc) as E.
  { intros. apply t27_get_holds; [done|]. by apply sim_cells. }
  destruct (Nat.eqb_spec rowcol SLICESIZE) as [->|Hne].
  - replace (SLICESIZE * slice + SLICESIZE)%nat with (SLICESIZE * S slice + 0)%nat in * by lia.
    rewrite <- Nat.add_succ_r, (IH state) by (done || unfold SLICESIZE, COLUMNS, ROWS in *; lia).
    rewrite E; [done|unfold SLICESIZE, COLUMNS, ROWS; lia|].
    unfold STATESIZE, SLICES, SLICESIZE, COLUMNS, ROWS in *. lia.
  - rewrite <- Nat.add_succ_r, (IH state) by (done || lia).
    rewrite E; [done|lia|]. unfold STATESIZE, SLICES, SLICESIZE, COLUMNS, ROWS in *. lia.
Qed.

(** ** The hash function *)
Lemma sim_zero : sim (replicate STATESIZE 0) (replicate SLICESIZE t27_zero).
Proof.
  split; [apply length_replicate|apply length_replicate|]. intros slice rc _ _.
  rewrite !nth_replicate_same. apply holds_zero.
Qed.

Lemma sim_write state fstate block : sim state fstate -> Forall tern block ->
  (length block <= STATESIZE)%nat -> sim (buf_write 0 block state) (set_trits fstate 0 0 block).
Proof.
  intros. apply (sim_set_trits block state fstate 0 0); [done|unfold SLICESIZE, COLUMNS, ROWS; lia|lia|done].
Qed.

Lemma sim_read state fstate len : sim state fstate -> (len <= STATESIZE)%nat ->
  get_trits fstate 0 0 len = buf_read 0 len state.
Proof.
  intros. apply (get_trits_sim len state fstate 0 0); [done|unfold SLICESIZE, COLUMNS, ROWS; lia|lia].
Qed.

Section Rounds.
Context (rate num_rounds : nat).
Context (Hrate : (0 < rate <= STATESIZE)%nat) (Hrounds : (num_rounds <= NUM_ROUNDS)%nat).

Lemma sim_absorb_blocks fuel : forall state fstate message, sim state fstate -> Forall tern message ->
  (length message <= fuel)%nat ->
  let '(state', rest) := absorb_blocks
    (fun state block => troika_permutation (buf_write 0 block state) num_rounds) rate fuel state message in
  let '(fstate', frest) := absorb_blocks
    (fun state block => ftroika_permutation (set_trits state 0 0 block) num_rounds) rate fuel fstate message in
  sim state' fstate' /\ frest = rest /\ (length rest < rate)%nat /\ Forall tern rest.
Proof.
  induction fuel as [|fuel IH]; intros state fstate message Hsim Ht Hf; cbn [absorb_blocks].
  - split_and!; [done|done|lia|done].
  - destruct (Nat.leb_spec rate (length message)); [|split_and!; [done|done|lia|done]].
    apply IH; [|by apply Forall_drop|rewrite length_drop; lia].
    apply sim_permutation; [done|]. apply sim_write; [done|by apply Forall_take|].
    rewrite length_take. lia.
Qed.

Lemma tern_pad_block rest : (length rest < rate)%nat -> Forall tern rest ->
  Forall tern (pad_block rate rest) /\ length (pad_block rate rest) = rate.
Proof.
  intros Hl Ht. unfold pad_block. rewrite length_insert, length_app, length_replicate. split; [|lia].
  apply Forall_insert; [|unfold PADDING; lia]. apply Forall_app. split; [done|].
  apply Forall_replicate. lia.
Qed.

Lemma map_u8_tern l : Forall tern l -> map u8 l = l.
Proof. induction 1 as [|x l Hx _ IH]; cbn [map]; [done|]. rewrite IH, uwrap_small by lia. done. Qed.

Lemma sim_absorb state fstate message : sim state fstate -> Forall tern message ->
  sim (troika_absorb state rate message num_rounds) (ftroika_absorb fstate rate message num_rounds).
Proof.
  intros Hsim Ht. unfold troika_absorb, ftroika_absorb.
  pose proof (sim_absorb_blocks (length message) state fstate message Hsim Ht ltac:(done)) as H.
  destruct (absorb_blocks _ rate _ state message) as [state' rest].
  destruct (absorb_blocks _ rate _ fstate message) as [fstate' frest].
  destruct H as (Hsim' & -> & Hl & Ht'). cbv zeta.
  destruct (tern_pad_block rest Hl Ht') as [Hp Hpl].
  rewrite map_u8_tern by done. apply sim_write; [done|done|lia].
Qed.

Lemma sim_squeeze_blocks fuel : forall len state fstate, sim state fstate -> (len <= fuel)%nat ->
  let '(hash, rest, state') :=
    squeeze_blocks (fun state => troika_permutation state num_rounds) (buf_read 0) rate fuel len state in
  let '(fhash, frest, fstate') :=
    squeeze_blocks (fun state => ftroika_permutation state num_rounds)
      (fun len state => get_trits state 0 0 len) rate fuel len fstate in
  fhash = hash /\ frest = rest /\ sim state' fstate' /\ (rest < rate)%nat.
Proof.
  induction fuel as [|fuel IH]; intros len state fstate Hsim Hf; cbn [squeeze_blocks].
  - split_and!; [done|done|done|lia].
  - destruct (Nat.leb_spec rate len); [|split_and!; [done|done|done|lia]].
    pose proof (sim_permutation _ _ num_rounds Hrounds Hsim) as Hsim'.
    specialize (IH (len - rate)%nat _ _ Hsim' ltac:(lia)).
    destruct (squeeze_blocks _ (buf_read 0) _ _ _ _) as [[hash rest] state'].
    destruct (squeeze_blocks _ _ _ _ _ _) as [[fhash frest] fstate'].
    destruct IH as (-> & -> & ? & ?). split_and!; [|done..].
    f_equal. apply sim_read; [done|lia].
Qed.

Lemma sim_squeeze len state fstate : sim state fstate ->
  (ftroika_squeeze len rate fstate num_rounds).1 = (troika_squeeze len rate state num_rounds).1 /\
  sim (troika_squeeze len rate state num_rounds).2 (ftroika_squeeze len rate fstate num_rounds).2.
Proof.
  intros Hsim. unfold troika_squeeze, ftroika_squeeze. cbv zeta.
  pose proof (sim_squeeze_blocks len len state fstate Hsim ltac:(done)) as H.
  destruct (squeeze_blocks _ (buf_read 0) _ _ _ _) as [[hash rest] state'].
  destruct (squeeze_blocks _ _ _ _ _ _) as [[fhash frest] fstate'].
  destruct H as (-> & -> & Hsim' & Hr). rewrite Nat.mod_small by done.
  destruct (Nat.eqb_spec rest 0) as [->|]; [done|].
  replace (0 <? rest)%nat with true by (symmetry; apply Nat.ltb_lt; lia).
  pose proof (sim_permutation _ _ num_rounds Hrounds Hsim') as Hsim''.
  cbn [fst snd]. split; [|done]. f_equal. apply sim_read; [done|lia].
Qed.
End Rounds.

Lemma tern_shift state : trits_ok state -> Forall tern (map (fun t => t + 1) state).
Proof. unfold is_trit. induction 1; cbn [map]; constructor; [lia|done]. Qed.

Lemma trits_unshift state : Forall tern state -> trits_ok (map (fun t => t - 1) state).
Proof. unfold is_trit. induction 1; cbn [map]; constructor; [lia|done]. Qed.

(** C28: the bit-sliced hash function is Troika, for every message, every length of the hash
    and every number of rounds. *)
Theorem ftroika_var_rounds_correct (outlen : nat) (input : list Z) (num_rounds : nat)
    (Hrounds : (num_rounds <= NUM_ROUNDS)%nat) (Htrits : Forall (fun v => 0 <= v < 3) input) :
  ftroika_var_rounds outlen input num_rounds = troika_var_rounds outlen input num_rounds.
Proof.
  unfold ftroika_var_rounds, troika_var_rounds. cbv zeta.
  assert (0 < TROIKA_RATE <= STATESIZE)%nat as Hrate
    by (unfold TROIKA_RATE, STATESIZE, SLICES, ROWS, COLUMNS; lia).
  apply sim_squeeze; [done|done|]. apply sim_absorb; [done|done|apply sim_zero|done].
Qed.

Lemma ftroika_var_rounds_correct_witness : exists outlen input num_rounds,
  ftroika_var_rounds outlen input num_rounds = troika_var_rounds outlen input num_rounds.
Proof.
  exists 300%nat, [1; 2; 0; 1], 24%nat.
  apply ftroika_var_rounds_correct; [unfold NUM_ROUNDS; lia|repeat constructor; lia].
Defined.

(** The transformation that MAM uses is the reference permutation of Troika on balanced
    trits, whatever is on the stack of the function. *)
Theorem mam_ftroika_transform_correct (fstate : list t27_t) (state : list Z)
    (Hstack : length fstate = SLICESIZE) (Hlen : length state = STATESIZE) (Htrits : trits_ok state) :
  mam_ftroika_transform fstate state = mam_troika_transform state.
Proof.
  unfold mam_ftroika_transform, mam_troika_transform. cbv zeta. f_equal.
  apply fstate_to_state_sim; [|by rewrite length_map].
  apply sim_permutation; [done|]. apply sim_state_to_fstate; [by rewrite length_map| |done].
  by apply tern_shift.
Qed.

Lemma mam_ftroika_transform_correct_witness : exists fstate state,
  mam_ftroika_transform fstate state = mam_troika_transform state.
Proof.
  exists (replicate SLICESIZE (mk_t27 (2 ^ 32 - 1) 5)), (replicate STATESIZE (-1)).
  apply mam_ftroika_transform_correct; [apply length_replicate|apply length_replicate|].
  apply Forall_replicate. unfold is_trit. lia.
Defined.

(** The transformation keeps states of balanced trits. *)
Lemma mam_ftroika_transform_ok fstate state : length fstate = SLICESIZE -> length state = STATESIZE ->
  trits_ok state ->
  trits_ok (mam_ftroika_transform fstate state) /\ length (mam_ftroika_transform fstate state) = STATESIZE.
Proof.
  intros Hf Hl Ht. unfold mam_ftroika_transform. cbv zeta.
  assert (sim (map (fun t => t + 1) state) (state_to_fstate (map (fun t => t + 1) state) fstate)) as Hsim.
  { apply sim_state_to_fstate; [by rewrite length_map| |done].
    by apply tern_shift. }
  pose proof (sim_permutation _ _ MAM_TROIKA_NUM_ROUNDS ltac:(done) Hsim) as Hsim'.
  rewrite (fstate_to_state_sim _ _ _ Hsim') by (by rewrite length_map). split.
  - apply trits_unshift, (sim_tern _ _ Hsim').
  - rewrite length_map. apply (sim_length _ _ Hsim').
Qed.

(** ** Repeated hashing *)
Lemma sim_nullify mask (keep : nat -> bool) state fstate : sim state fstate ->
  (forall slice, (slice < SLICES)%nat -> Z.testbit mask (Z.of_nat slice) = keep slice) ->
  forall state', length state' = STATESIZE ->
  (forall slice rc, (slice < SLICES)%nat -> (rc < SLICESIZE)%nat ->
     cell state' slice rc = if keep slice then cell state slice rc else 0) ->
  sim state' (nullify mask fstate).
Proof.
  intros [Hl Hf Hc] Hm state' Hl' Hc'. split; [done|by unfold nullify; rewrite length_map|].
  intros slice rc Hs Hrc. rewrite Hc' by done.
  assert (get_t27 (nullify mask fstate) rc =
    mk_t27 (Z.land (p (get_t27 fstate rc)) mask) (Z.land (n (get_t27 fstate rc)) mask)) as ->.
  { unfold nullify. rewrite (nth_indep _ _ (mk_t27 (Z.land (p t27_zero) mask) (Z.land (n t27_zero) mask)))
      by (rewrite length_map; lia).
    by rewrite (map_nth (fun a => mk_t27 (Z.land (p a) mask) (Z.land (n a) mask))). }
  destruct (Hc slice rc Hs Hrc) as (Hp & Hn & Hv). unfold holds. cbn [p n].
  rewrite !Z.land_spec, !Hm, Hp, Hn by done. destruct (keep slice); rewrite ?andb_true_r, ?andb_false_r; done.
Qed.

Lemma cell_app_l (l1 l2 : list Z) slice rc : length l1 = 243%nat -> (slice < 9)%nat -> (rc < SLICESIZE)%nat ->
  cell (l1 ++ l2) slice rc = cell l1 slice rc.
Proof. intros. apply app_nth1. unfold SLICESIZE, COLUMNS, ROWS in *. lia. Qed.

Lemma cell_app_r (l1 l2 : list Z) slice rc : length l1 = 243%nat -> (9 <= slice)%nat ->
  cell (l1 ++ l2) slice rc = nth (SLICESIZE * slice + rc - 243) l2 0.
Proof. intros H ?. rewrite app_nth2; rewrite H; [done|]. unfold SLICESIZE, COLUMNS, ROWS in *. lia. Qed.

Lemma sim_nullify_capacity rate capacity fstate : length rate = 243%nat -> sim (rate ++ capacity) fstate ->
  sim (rate ++ replicate 486 0) (ftroika_nullify_capacity fstate).
Proof.
  intros Hr Hsim. apply (sim_nullify 0x1ff (fun slice => slice <? 9)%nat _ _ Hsim).
  - intros slice _. change 0x1ff with (Z.ones 9). rewrite Z.testbit_ones by lia. 
    destruct (Nat.ltb_spec slice 9); lia.
  - rewrite length_app, length_replicate, Hr. done.
  - intros slice rc Hs Hrc. destruct (Nat.ltb_spec slice 9).
    + by rewrite !cell_app_l.
    + rewrite cell_app_r by done. apply nth_replicate_same.
Qed.

Lemma sim_nullify_rate rate capacity fstate : length rate = 243%nat -> sim (rate ++ capacity) fstate ->
  sim (replicate 243 0 ++ capacity) (ftroika_nullify_rate fstate).
Proof.
  intros Hr Hsim. apply (sim_nullify 0x07fffe00 (fun slice => negb (slice <? 9))%nat _ _ Hsim).
  - intros slice Hs. unfold SLICES in Hs. do 27 (destruct slice as [|slice]; [reflexivity|]). lia.
  - rewrite length_app, length_replicate. pose proof (sim_length _ _ Hsim) as Hl.
    rewrite length_app, Hr in Hl. done.
  - intros slice rc Hs Hrc. destruct (Nat.ltb_spec slice 9); cbn [negb].
    + rewrite cell_app_l by (done || apply length_replicate). apply nth_replicate_same.
    + by rewrite !cell_app_r by (done || apply length_replicate).
Qed.

Lemma nullify_state_zero fstate :
  ftroika_nullify_state fstate = replicate (length fstate) t27_zero.
Proof.
  unfold ftroika_nullify_state, nullify.
  induction fstate as [|a fstate IH]; cbn [map length replicate]; [done|]. by rewrite !Z.land_0_r, IH.
Qed.

(** The block of the padding alone. *)
Definition padding_block : list Z := PADDING :: replicate 242 0.

Lemma write_over_front (block rate capacity : list Z) : length block = length rate ->
  buf_write 0 block (rate ++ capacity) = block ++ capacity.
Proof.
  intros Hl. unfold buf_write. rewrite take_0, Nat.sub_0_r, Nat.add_0_l. cbn [app].
  rewrite take_ge by (rewrite length_app; lia). by rewrite Hl, drop_app_length.
Qed.

Lemma state_split (state : list Z) : length state = STATESIZE ->
  state = take 243 state ++ drop 243 state /\ length (take 243 state) = 243%nat.
Proof. intros Hl. rewrite take_drop, length_take, Hl. done. Qed.

(** Troika of exactly one block. *)
Definition block_state (block : list Z) : list Z :=
  let state := troika_permutation (block ++ replicate 486 0) NUM_ROUNDS in
  troika_permutation (padding_block ++ drop 243 state) NUM_ROUNDS.

Lemma length_troika_permutation state num_rounds : length state = STATESIZE ->
  length (troika_permutation state num_rounds) = STATESIZE.
Proof.
  intros Hl. unfold troika_permutation. generalize (seq 0 num_rounds) as rounds. intros rounds.
  revert state Hl. induction rounds as [|r rounds IH]; intros state Hl; cbn [foldl]; [done|].
  apply IH. unfold troika_round. cbv zeta.
  by rewrite length_add_round_constant, length_add_column_parity, length_shift_lanes.
Qed.

Lemma absorb_one {St} (block : St -> list Z -> St) rate fuel state message : (0 < rate)%nat ->
  (0 < fuel)%nat -> length message = rate ->
  absorb_blocks block rate fuel state message = (block state message, []).
Proof.
  intros Hr Hf <-. destruct fuel as [|fuel]; [lia|]. cbn [absorb_blocks].
  rewrite Nat.leb_refl, take_ge, drop_ge by lia. destruct fuel; cbn [absorb_blocks]; [done|].
  by destruct (Nat.leb_spec (length message) (@length Z [])) as [H|]; [cbn in H; lia|].
Qed.

Lemma squeeze_one {St} (permute : St -> St) read rate fuel state : (0 < rate)%nat -> (0 < fuel)%nat ->
  squeeze_blocks permute read rate fuel rate state =
  (read rate (permute state), 0%nat, permute state).
Proof.
  intros Hr Hf. destruct fuel as [|fuel]; [lia|]. cbn [squeeze_blocks].
  rewrite Nat.leb_refl, Nat.sub_diag. destruct fuel; cbn [squeeze_blocks]; [by rewrite app_nil_r|].
  destruct (Nat.leb_spec rate 0); [lia|]. by rewrite app_nil_r.
Qed.

Lemma troika_one_block block : length block = 243%nat ->
  troika 243 block = take 243 (block_state block).
Proof.
  intros Hl. unfold troika, troika_var_rounds, troika_absorb, troika_squeeze. cbv zeta.
  change TROIKA_RATE with 243%nat. rewrite absorb_one by (rewrite ?Hl; lia).
  rewrite squeeze_one by lia. rewrite Nat.Div0.mod_0_l. cbn [Nat.eqb fst].
  unfold buf_read, block_state. rewrite drop_0. cbv zeta.
  change (pad_block 243 []) with padding_block.
  change (replicate STATESIZE 0) with (replicate 243 0 ++ replicate 486 0).
  rewrite write_over_front by (rewrite Hl, length_replicate; reflexivity).
  assert (length (troika_permutation (block ++ replicate 486 0) NUM_ROUNDS) = STATESIZE) as Hs
    by (apply length_troika_permutation; rewrite length_app, length_replicate, Hl; reflexivity).
  revert Hs. generalize (troika_permutation (block ++ replicate 486 0) NUM_ROUNDS) as state. intros state Hs.
  destruct (state_split state Hs) as [E Ht].
  rewrite E at 1. rewrite write_over_front by (rewrite Ht; reflexivity). reflexivity.
Qed.

Lemma sim_repeat_step block capacity fstate : length block = 243%nat -> sim (block ++ capacity) fstate ->
  sim (block_state block) (repeat_step fstate).
Proof.
  intros Hl Hsim. unfold block_state, repeat_step. cbv zeta. change 24%nat with NUM_ROUNDS.
  apply sim_permutation; [done|].
  pose proof (sim_permutation _ _ NUM_ROUNDS ltac:(done)
    (sim_nullify_capacity _ _ _ Hl Hsim)) as H1.
  set (state := troika_permutation _ _) in *.
  destruct (state_split state (sim_length _ _ H1)) as [E Ht]. rewrite E in H1.
  pose proof (sim_nullify_rate _ _ _ Ht H1) as H2.
  assert (tern PADDING) as Hpad by (unfold PADDING; lia).
  pose proof (sim_ft_set _ _ 0 0 PADDING H2 ltac:(unfold SLICESIZE, COLUMNS, ROWS; lia)
    ltac:(unfold SLICES; lia) Hpad) as H3.
  exact H3.
Qed.

Lemma sim_tern_front block capacity fstate : sim (block ++ capacity) fstate -> Forall tern block.
Proof. intros H%sim_tern. by apply Forall_app in H as [? _]. Qed.

(** Hashing a block of 243 trits again and again inside the bit-sliced state gives what
    repeated calls of Troika give. *)
Theorem ftroika243_repeated_correct (state : list t27_t) (input : list Z) (repeat : nat)
    (Hstack : length state = SLICESIZE) (Hlen : length input = 243%nat)
    (Htrits : Forall (fun v => 0 <= v < 3) input) :
  ftroika243_repeated state input repeat = Nat.iter repeat (troika 243) input.
Proof.
  unfold ftroika243_repeated. cbv zeta. rewrite nullify_state_zero, Hstack, take_ge by lia.
  assert (exists capacity, sim (Nat.iter repeat (troika 243) input ++ capacity)
    (Nat.iter repeat repeat_step (ftroika_trits_to_rate (replicate SLICESIZE t27_zero) input)) /\
    length (Nat.iter repeat (troika 243) input) = 243%nat) as (capacity & Hsim & Hl).
  { induction repeat as [|repeat (capacity & Hsim & Hl)].
    - exists (replicate 486 0). split; [|done]. cbn [Nat.iter nat_rect].
      rewrite <- (write_over_front input (replicate 243 0)) by (by rewrite length_replicate).
      change (replicate 243 0 ++ replicate 486 0) with (replicate STATESIZE 0).
      apply sim_write; [apply sim_zero|done|]. rewrite Hlen. unfold STATESIZE, SLICES, COLUMNS, ROWS. lia.
    - pose proof (sim_repeat_step _ _ _ Hl Hsim) as H1.
      destruct (state_split _ (sim_length _ _ H1)) as [E Ht].
      exists (drop 243 (block_state (Nat.iter repeat (troika 243) input))).
      cbn [Nat.iter nat_rect]. fold (Nat.iter repeat (troika 243) input).
      rewrite troika_one_block by exact Hl. rewrite take_drop. split; [exact H1|exact Ht]. }
  unfold ftroika_rate_to_trits. rewrite (sim_read _ _ 243 Hsim) by (unfold STATESIZE, SLICES, COLUMNS, ROWS; lia).
  unfold buf_read. rewrite drop_0. by rewrite take_app_length'.
Qed.

Lemma ftroika243_repeated_correct_witness : exists state input repeat,
  ftroika243_repeated state input repeat = Nat.iter repeat (troika 243) input.
Proof.
  exists (replicate SLICESIZE (mk_t27 7 9)), (replicate 243 2), 1000%nat.
  apply ftroika243_repeated_correct; [apply length_replicate|apply length_replicate|].
  apply Forall_replicate. lia.
Defined.

Lemma length_mam_ftroika_transform fstate state :
  length (mam_ftroika_transform fstate state) = length state.
Proof.
  unfold mam_ftroika_transform. cbv zeta. unfold fstate_to_state.
  by rewrite length_map, length_assign, length_map.
Qed.
