(* ===== verification/MamTrits.v ===== *)
(** * The trits of MAM

    [mam/trits/trits.c], [trits.h] and [buffers.c]: views of trits in memory, the
    integers and strings in them, and lists of views that are read as one.

    A [trits_t] is a window of the memory that it points to; [t_p] is that memory.  A
    function that writes through a view returns the memory after; two views that are
    arguments of one function point to distinct memory, except where the code has a
    function of its own for one view ([trits_swap_add] and [trits_swap_sub]).  The code
    asserts that windows are large enough and that integers are in range: the theorems
    have these assertions as hypotheses. *)
From S2P Require Import Prelude Errors TritLong.

Record trits_t := mk_trits { t_n : nat; t_d : nat; t_p : list Z }.

(** The view with other contents of its memory. *)
Definition with_p (x : trits_t) (mem : list Z) : trits_t := mk_trits (t_n x) (t_d x) mem.

Definition MODS (t M m : Z) : Z := Z.rem (t + Z.quot (M - 1) 2) m - Z.quot (m - 1) 2.
Definition DIVS (t M m : Z) : Z := Z.quot (t + Z.quot (M - 1) 2) m - Z.quot (Z.quot M m - 1) 2.

(** ** Windows *)
Definition trits_is_empty (x : trits_t) : bool := (t_n x =? t_d x)%nat.
Definition trits_size (x : trits_t) : nat := (t_n x - t_d x)%nat.
Definition trits_size_min (x : trits_t) (s : nat) : nat := Nat.min (trits_size x) s.
Definition trits_from_rep (n : nat) (t : list Z) : trits_t := mk_trits n 0 t.
Definition trits_take (x : trits_t) (n : nat) : trits_t := mk_trits (t_d x + n) (t_d x) (t_p x).
Definition trits_take_min (x : trits_t) (n : nat) : trits_t :=
  mk_trits (Nat.min (t_n x) (t_d x + n)) (t_d x) (t_p x).
Definition trits_drop (x : trits_t) (n : nat) : trits_t := mk_trits (t_n x) (t_d x + n) (t_p x).
Definition trits_drop_min (x : trits_t) (n : nat) : trits_t :=
  mk_trits (t_n x) (Nat.min (t_n x) (t_d x + n)) (t_p x).
Definition trits_pickup (x : trits_t) (n : nat) : trits_t := mk_trits (t_n x) (t_d x - n) (t_p x).
Definition trits_pickup_all (x : trits_t) : trits_t := mk_trits (t_n x) 0 (t_p x).
Definition trits_dropped_all (x : trits_t) : trits_t :=
  trits_pickup_all (mk_trits (t_d x) (t_d x) (t_p x)).

(** The part that is taken, and the view after. *)
Definition trits_advance (b : trits_t) (n : nat) : trits_t * trits_t := (trits_take b n, trits_drop b n).

(** From [begin] to [end], two views of the same memory. *)
Definition trits_diff (begin end_ : trits_t) : trits_t := mk_trits (t_d end_) (t_d begin) (t_p end_).

(** ** Copies *)
Definition trits_get (x : trits_t) : list Z := buf_read (t_d x) (trits_size x) (t_p x).
Definition trits_put (x : trits_t) (t : list Z) : list Z :=
  buf_write (t_d x) (take (trits_size x) t) (t_p x).
Definition trits_set1 (x : trits_t) (t : Z) : list Z := trits_put x (replicate (trits_size x) t).
Definition trits_set_zero (x : trits_t) : list Z := trits_set1 x 0.
Definition trits_copy (x y : trits_t) : list Z := trits_put y (trits_get x).
Definition trits_copy_min (x y : trits_t) : nat * list Z :=
  let n := Nat.min (trits_size x) (trits_size y) in
  (n, trits_copy (trits_take x n) (trits_take y n)).

(** ** Integers *)
Definition trits_get1 (x : trits_t) : Z := nth (t_d x) (t_p x) 0.
Definition trits_put1 (x : trits_t) (t : Z) : list Z := <[t_d x := t]> (t_p x).

Definition trits_get3 (x : trits_t) : Z :=
  let t0 := trits_get1 x in
  let t1 := trits_get1 (trits_drop x 1) in
  let t2 := trits_get1 (trits_drop x 2) in
  t0 + 3 * t1 + 9 * t2.

Definition trits_put3 (x : trits_t) (t : Z) : list Z :=
  let t0 := MODS t (3 * 3 * 3) 3 in
  let t := DIVS t (3 * 3 * 3) 3 in
  let t1 := MODS t (3 * 3) 3 in
  let t := DIVS t (3 * 3) 3 in
  let t2 := t in
  let x := with_p x (trits_put1 x t0) in
  let x := with_p x (trits_put1 (trits_drop x 1) t1) in
  trits_put1 (trits_drop x 2) t2.

Definition trits_get6 (x : trits_t) : Z :=
  trits_get3 x + 27 * trits_get3 (trits_drop x 3).

Definition trits_put6 (x : trits_t) (t : Z) : list Z :=
  let t0 := MODS t (27 * 27) 27 in
  let t := DIVS t (27 * 27) 27 in
  let t1 := t in
  let x := with_p x (trits_put3 x t0) in
  trits_put3 (trits_drop x 3) t1.

Definition trits_get9 (x : trits_t) : Z :=
  trits_get3 x + 27 * trits_get3 (trits_drop x 3) + 729 * trits_get3 (trits_drop x 6).

Definition trits_put9 (x : trits_t) (t : Z) : list Z :=
  let t0 := MODS t (27 * 27 * 27) 27 in
  let t := DIVS t (27 * 27 * 27) 27 in
  let t1 := MODS t (27 * 27) 27 in
  let t := DIVS t (27 * 27) 27 in
  let t2 := t in
  let x := with_p x (trits_put3 x t0) in
  let x := with_p x (trits_put3 (trits_drop x 3) t1) in
  trits_put3 (trits_drop x 6) t2.

Definition trits_get18 (x : trits_t) : Z :=
  trits_get9 x + 19683 * trits_get9 (trits_drop x 9).

Definition trits_put18 (x : trits_t) (t : Z) : list Z :=
  let t0 := MODS t (19683 * 19683) 19683 in
  let t := DIVS t (19683 * 19683) 19683 in
  let t1 := t in
  let x := with_p x (trits_put9 x t0) in
  trits_put9 (trits_drop x 9) t1.

(** ** Sizes *)
Definition TRYTE_SPACE_SIZE : Z := 27.
Definition NUMBER_OF_TRITS_IN_A_TRYTE : nat := 3.
Definition MAM_TRITS_SIZE_MAX : Z := 2026277576509488133.
Definition MAM_TRITS_MAX_SIZE_T_TRYTES : nat := (5 * 8 + 2) / 3.

Fixpoint size_t_trytes_loop (fuel d : nat) (m n : Z) : nat :=
  match fuel with
  | O => d
  | S fuel =>
      if n >? (m - 1) / 2 then size_t_trytes_loop fuel (S d) (u64 (m * TRYTE_SPACE_SIZE)) n else d
  end.

(** The loop ends when [d] is [max_d]. *)
Definition trits_size_t_trytes (n : Z) : nat :=
  let max_d := MAM_TRITS_MAX_SIZE_T_TRYTES in
  size_t_trytes_loop max_d 0 1 n.

Definition trits_sizeof_size_t (n : Z) : nat :=
  let d := trits_size_t_trytes n in
  (3 * (d + 1))%nat.

Definition trits_encode_size_t (n : Z) (buffer : trits_t) : trits_t :=
  let buffer := with_p buffer (trits_set_zero buffer) in
  let d := trits_size_t_trytes n in
  let '(part, buffer) := trits_advance buffer 3 in
  let buffer := with_p buffer (trits_put3 part (Z.of_nat d)) in
  if n >? 0 then
    let buffer := with_p buffer (at_pos (t_d buffer) (fun trits => (long_to_trits n trits).2) (t_p buffer)) in
    (trits_advance buffer (d * NUMBER_OF_TRITS_IN_A_TRYTE)).2
  else buffer.

(** The size is not written when the decoding fails. *)
Definition trits_decode_size_t (buffer : trits_t) : retcode_t * option Z * trits_t :=
  if (trits_size buffer <? NUMBER_OF_TRITS_IN_A_TRYTE)%nat then (RC_MAM_PB3_EOF, None, buffer) else
  let d := trits_get3 buffer in
  let buffer := trits_drop buffer NUMBER_OF_TRITS_IN_A_TRYTE in
  if (d <? 0) || (d >? 13) then (RC_MAM_INVALID_VALUE, None, buffer) else
  let d := Z.to_nat d in
  if (trits_size buffer <? NUMBER_OF_TRITS_IN_A_TRYTE * d)%nat then (RC_MAM_PB3_EOF, None, buffer) else
  let size := u64 (trits_to_long (buf_read (t_d buffer) (d * NUMBER_OF_TRITS_IN_A_TRYTE) (t_p buffer))) in
  if negb (size =? u64 size) then (RC_MAM_TRITS_SIZE_T_NOT_SUPPORTED, None, buffer) else
  (RC_OK, Some size, (trits_advance buffer (d * NUMBER_OF_TRITS_IN_A_TRYTE)).2).

(** ** Strings

    A character is its code; a string is a list of characters. *)
Definition trinary_alphabet : list Z :=
  [78; 79; 80; 81; 82; 83; 84; 85; 86; 87; 88; 89; 90; 57;
   65; 66; 67; 68; 69; 70; 71; 72; 73; 74; 75; 76; 77].

Definition tryte_from_char (c : Z) : option Z :=
  if (78 <=? c) && (c <=? 90) then Some (c - 78 - 13)
  else if (65 <=? c) && (c <=? 77) then Some (c - 65 + 1)
  else if 57 =? c then Some 0
  else None.

Definition tryte_to_char (t : Z) : Z := nth (Z.to_nat (t + 13)) trinary_alphabet 0.

Definition trits_get_char (x : trits_t) : Z :=
  let ts := buf_write 0 (trits_get (trits_take_min x 3)) [0; 0; 0] in
  let i := 0 + 1 * nth 0 ts 0 + 3 * nth 1 ts 0 + 9 * nth 2 ts 0 in
  tryte_to_char i.

Definition trits_put_char (x : trits_t) (c : Z) : bool * list Z :=
  match tryte_from_char c with
  | None => (false, t_p x)
  | Some i =>
      let t0 := MODS i (3 * 3 * 3) 3 in
      let i := DIVS i (3 * 3 * 3) 3 in
      let t1 := MODS i (3 * 3) 3 in
      let i := DIVS i (3 * 3) 3 in
      let t2 := MODS i 3 3 in
      let ts := [t0; t1; t2] in
      let k := trits_size_min x 3 in
      if existsb (fun t => negb (0 =? t)) (drop k ts) then (false, t_p x)
      else (true, trits_put (trits_take_min x 3) ts)
  end.

(** The loops take up to three trits per turn: the size of the view is enough fuel. *)
Fixpoint to_str_loop (fuel : nat) (x : trits_t) : list Z :=
  match fuel with
  | O => []
  | S fuel =>
      if trits_is_empty x then [] else trits_get_char x :: to_str_loop fuel (trits_drop_min x 3)
  end.
Definition trits_to_str (x : trits_t) : list Z := to_str_loop (trits_size x) x.

Fixpoint from_str_loop (fuel : nat) (x : trits_t) (s : list Z) : bool * list Z :=
  match fuel with
  | O => (true, t_p x)
  | S fuel =>
      if trits_is_empty x then (true, t_p x) else
      let '(r, mem) := trits_put_char x (hd 0 s) in
      let x := trits_drop_min (with_p x mem) 3 in
      if r then from_str_loop fuel x (tl s) else (false, mem)
  end.
Definition trits_from_str (x : trits_t) (s : list Z) : bool * list Z :=
  from_str_loop (trits_size x) x s.

Fixpoint cmp_eq_str_loop (fuel : nat) (x : trits_t) (y : list Z) : bool :=
  match fuel with
  | O => true
  | S fuel =>
      if trits_is_empty x then true else
      if trits_get_char x =? hd 0 y then cmp_eq_str_loop fuel (trits_drop_min x 3) (tl y) else false
  end.
Definition trits_cmp_eq_str (x : trits_t) (y : list Z) : bool := cmp_eq_str_loop (trits_size x) x y.

(** ** Padding *)
Definition trits_padc0 (c0 : Z) (y : trits_t) : list Z :=
  let y := with_p y (trits_put1 y c0) in
  trits_set_zero (trits_drop y 1).

Definition trits_padc (c0 : Z) (y : trits_t) : list Z :=
  if negb (trits_is_empty y) then trits_padc0 c0 y else t_p y.

(** ** Addition of trits modulo three *)
Definition MAM_TRIT_NORM (t : Z) : Z := if t =? 2 then -1 else if t =? -2 then 1 else t.
Definition trit_add (x s : Z) : Z := MAM_TRIT_NORM (x + s).
Definition trit_sub (y s : Z) : Z := MAM_TRIT_NORM (y - s).

(** [trit_swap_add] and [trit_swap_sub]: the first and the second trit after. *)
Definition trit_swap_add (x s : Z) : Z * Z := (MAM_TRIT_NORM (x + s), x).
Definition trit_swap_sub (y s : Z) : Z * Z := let x := MAM_TRIT_NORM (y - s) in (x, x).

(** The memory of [s] and of [y] after; the size of [x] is the fuel. *)
Fixpoint copy_add_loop (fuel : nat) (x s y : trits_t) : list Z * list Z :=
  match fuel with
  | O => (t_p s, t_p y)
  | S fuel =>
      if trits_is_empty x then (t_p s, t_p y) else
      let tx := trits_get1 x in
      let ts := trits_get1 s in
      let ty := trit_add tx ts in
      let s := with_p s (trits_put1 s tx) in
      let y := with_p y (trits_put1 y ty) in
      copy_add_loop fuel (trits_drop x 1) (trits_drop s 1) (trits_drop y 1)
  end.
Definition trits_copy_add (x s y : trits_t) : list Z * list Z := copy_add_loop (trits_size x) x s y.

Fixpoint copy_sub_loop (fuel : nat) (y s x : trits_t) : list Z * list Z :=
  match fuel with
  | O => (t_p s, t_p x)
  | S fuel =>
      if trits_is_empty x then (t_p s, t_p x) else
      let ty := trits_get1 y in
      let ts := trits_get1 s in
      let tx := trit_sub ty ts in
      let s := with_p s (trits_put1 s tx) in
      let x := with_p x (trits_put1 x tx) in
      copy_sub_loop fuel (trits_drop y 1) (trits_drop s 1) (trits_drop x 1)
  end.
Definition trits_copy_sub (y s x : trits_t) : list Z * list Z := copy_sub_loop (trits_size x) y s x.

(** The memory of both views after. *)
Fixpoint swap_loop (swap : Z -> Z -> Z * Z) (fuel : nat) (x s : trits_t) : list Z * list Z :=
  match fuel with
  | O => (t_p x, t_p s)
  | S fuel =>
      if trits_is_empty x then (t_p x, t_p s) else
      let '(tx, ts) := swap (trits_get1 x) (trits_get1 s) in
      let x := with_p x (trits_put1 x tx) in
      let s := with_p s (trits_put1 s ts) in
      swap_loop swap fuel (trits_drop x 1) (trits_drop s 1)
  end.
Definition trits_swap_add (x s : trits_t) : list Z * list Z := swap_loop trit_swap_add (trits_size x) x s.
Definition trits_swap_sub (y s : trits_t) : list Z * list Z := swap_loop trit_swap_sub (trits_size y) y s.

Definition trits_copy_add_min (x s y : trits_t) : nat * list Z * list Z :=
  let n := Nat.min (trits_size x) (trits_size s) in
  let '(ms, my) := trits_copy_add (trits_take x n) (trits_take s n) (trits_take y n) in
  (n, ms, my).
Definition trits_copy_sub_min (x s y : trits_t) : nat * list Z * list Z :=
  let n := Nat.min (trits_size x) (trits_size s) in
  let '(ms, my) := trits_copy_sub (trits_take x n) (trits_take s n) (trits_take y n) in
  (n, ms, my).
Definition trits_swap_add_min (x s : trits_t) : nat * list Z * list Z :=
  let n := Nat.min (trits_size x) (trits_size s) in
  let '(mx, ms) := trits_swap_add (trits_take x n) (trits_take s n) in
  (n, mx, ms).
Definition trits_swap_sub_min (x s : trits_t) : nat * list Z * list Z :=
  let n := Nat.min (trits_size x) (trits_size s) in
  let '(mx, ms) := trits_swap_sub (trits_take x n) (trits_take s n) in
  (n, mx, ms).

(** ** Comparison and increment *)
Fixpoint cmp_loop (fuel : nat) (d : Z) (x y : trits_t) : Z :=
  match fuel with
  | O => d
  | S fuel =>
      if trits_is_empty x then d else
      let d := trits_get1 x - trits_get1 y in
      if 0 =? d then cmp_loop fuel d (trits_drop x 1) (trits_drop y 1) else d
  end.

Definition trits_cmp_grlex (x y : trits_t) : Z :=
  if (trits_size x <? trits_size y)%nat then -3
  else if (trits_size y <? trits_size x)%nat then 3
  else cmp_loop (trits_size x) 0 x y.

Definition trits_cmp_eq (x y : trits_t) : bool := 0 =? trits_cmp_grlex x y.

Fixpoint inc_loop (fuel : nat) (x : trits_t) : bool * list Z :=
  match fuel with
  | O => (false, t_p x)
  | S fuel =>
      if trits_is_empty x then (false, t_p x) else
      let t := trit_add (trits_get1 x) 1 in
      let x := with_p x (trits_put1 x t) in
      if negb (0 =? t) then (true, t_p x) else inc_loop fuel (trits_drop x 1)
  end.
Definition trits_inc (x : trits_t) : bool * list Z := inc_loop (trits_size x) x.

(** ** [buffers.c] *)
Record buffers_t := mk_buffers { head_ : trits_t; tail_ : list trits_t }.

Definition trits_null : trits_t := trits_from_rep 0 [].
Definition buffers_init (trits : list trits_t) : buffers_t := mk_buffers trits_null trits.
Definition buffers_is_empty (b : buffers_t) : bool :=
  trits_is_empty (head_ b) && (length (tail_ b) =? 0)%nat.

(** One turn per view, and one for the head. *)
Fixpoint buffers_size_loop (fuel m : nat) (b : buffers_t) : nat :=
  match fuel with
  | O => m
  | S fuel =>
      if buffers_is_empty b then m else
      let m := (m + trits_size (head_ b))%nat in
      match tail_ b with
      | [] => buffers_size_loop fuel m (mk_buffers trits_null [])
      | x :: tail => buffers_size_loop fuel m (mk_buffers x tail)
      end
  end.
Definition buffers_size (b : buffers_t) : nat := buffers_size_loop (S (S (length (tail_ b)))) 0 b.

(** Every turn copies trits or takes the next view. *)
Fixpoint buffers_copy_loop (fuel m : nat) (b : buffers_t) (trits : trits_t) : nat * buffers_t * list Z :=
  match fuel with
  | O => (m, b, t_p trits)
  | S fuel =>
      if trits_is_empty trits || buffers_is_empty b then (m, b, t_p trits) else
      let '(k, mem) := trits_copy_min (head_ b) trits in
      let head := trits_drop (head_ b) k in
      let trits := trits_drop (with_p trits mem) k in
      let m := (m + k)%nat in
      match tail_ b with
      | x :: tail =>
          if trits_is_empty head then buffers_copy_loop fuel m (mk_buffers x tail) trits
          else buffers_copy_loop fuel m (mk_buffers head (x :: tail)) trits
      | [] => buffers_copy_loop fuel m (mk_buffers head []) trits
      end
  end.
Definition buffers_copy_to (b : buffers_t) (trits : trits_t) : nat * buffers_t * list Z :=
  buffers_copy_loop (S (length (tail_ b)) + trits_size trits) 0 b trits.

(** ** Views by their parts

    [view pre cs post] is the window of [cs] in a memory that has [pre] before it and
    [post] after it. *)
Definition view (pre cs post : list Z) : trits_t :=
  mk_trits (length pre + length cs) (length pre) (pre ++ cs ++ post).

Definition valid (x : trits_t) : Prop := (t_d x <= t_n x <= length (t_p x))%nat.

Lemma valid_view x : valid x ->
  x = view (take (t_d x) (t_p x)) (trits_get x) (drop (t_n x) (t_p x)).
Proof.
  intros H. destruct x as [n d mem]. unfold valid, view, trits_get, trits_size, buf_read in *. cbn in *.
  rewrite !length_take, length_drop, !Nat.min_l by lia. f_equal; [lia|].
  rewrite <- (take_drop d mem) at 1. f_equal. rewrite <- (take_drop (n - d) (drop d mem)) at 1.
  rewrite drop_drop. do 3 f_equal. lia.
Qed.

Lemma view_valid pre cs post : valid (view pre cs post).
Proof. unfold valid, view. cbn. rewrite !length_app. lia. Qed.

Lemma size_view pre cs post : trits_size (view pre cs post) = length cs.
Proof. unfold trits_size, view. cbn. lia. Qed.

Lemma empty_view pre cs post : trits_is_empty (view pre cs post) = (length cs =? 0)%nat.
Proof.
  unfold trits_is_empty, view. cbn.
  destruct (Nat.eqb_spec (length pre + length cs) (length pre)), (Nat.eqb_spec (length cs) 0); lia || done.
Qed.

Lemma get_view pre cs post : trits_get (view pre cs post) = cs.
Proof.
  unfold trits_get. rewrite size_view. unfold view, buf_read. cbn [t_d t_p].
  by rewrite drop_app_length, take_app_length.
Qed.

Lemma put_view pre cs post t : length t = length cs ->
  trits_put (view pre cs post) t = pre ++ t ++ post.
Proof.
  intros Hl. unfold trits_put. rewrite size_view, take_ge by lia. unfold view, buf_write. cbn [t_d t_p].
  rewrite take_app_length, take_ge by (rewrite !length_app; lia).
  by rewrite Hl, (app_assoc pre cs post), drop_app_length' by (by rewrite length_app).
Qed.

Lemma with_view pre cs post cs' post' : length cs' = length cs ->
  with_p (view pre cs post) (pre ++ cs' ++ post') = view pre cs' post'.
Proof. intros Hl. unfold with_p, view. cbn. by rewrite Hl. Qed.

Lemma with_view_at pre cs post pre' cs' post' : length pre' = length pre -> length cs' = length cs ->
  with_p (view pre cs post) (pre' ++ cs' ++ post') = view pre' cs' post'.
Proof. intros Hp Hl. unfold with_p, view. cbn. by rewrite Hp, Hl. Qed.

Lemma mem_view pre cs post : t_p (view pre cs post) = pre ++ cs ++ post.
Proof. done. Qed.

Lemma drop_view pre c1 c2 post n : length c1 = n ->
  trits_drop (view pre (c1 ++ c2) post) n = view (pre ++ c1) c2 post.
Proof.
  intros <-. unfold trits_drop, view. cbn. rewrite !length_app, <- !app_assoc. f_equal. lia.
Qed.

Lemma take_view pre c1 c2 post n : length c1 = n ->
  trits_take (view pre (c1 ++ c2) post) n = view pre c1 (c2 ++ post).
Proof. intros <-. unfold trits_take, view. cbn. by rewrite <- app_assoc. Qed.

Lemma take_all_view pre cs post : trits_take (view pre cs post) (length cs) = view pre cs post.
Proof. unfold trits_take, view. cbn. done. Qed.

Lemma set_zero_view pre cs post : trits_set_zero (view pre cs post) = pre ++ replicate (length cs) 0 ++ post.
Proof. unfold trits_set_zero, trits_set1. rewrite put_view; by rewrite size_view, ?length_replicate. Qed.

Lemma copy_view pre cs post pre' cs' post' : length cs = length cs' ->
  trits_copy (view pre cs post) (view pre' cs' post') = pre' ++ cs ++ post'.
Proof. intros. unfold trits_copy. by rewrite get_view, put_view. Qed.

Lemma get1_view pre t cs post : trits_get1 (view pre (t :: cs) post) = t.
Proof. unfold trits_get1, view. cbn [t_d t_p]. rewrite app_nth2, Nat.sub_diag by lia. done. Qed.

Lemma put1_view pre t cs post t' : trits_put1 (view pre (t :: cs) post) t' = pre ++ (t' :: cs) ++ post.
Proof.
  unfold trits_put1, view. cbn [t_d t_p]. rewrite insert_app_r_alt by lia. by rewrite Nat.sub_diag.
Qed.

Lemma drop1_view pre t cs post : trits_drop (view pre (t :: cs) post) 1 = view (pre ++ [t]) cs post.
Proof. by apply (drop_view pre [t] cs post). Qed.

Lemma drop2_view pre a b cs post : trits_drop (view pre (a :: b :: cs) post) 2 = view (pre ++ [a; b]) cs post.
Proof. by apply (drop_view pre [a; b] cs post). Qed.

Lemma padc_view pre cs post :
  trits_padc 1 (view pre cs post) = pre ++ (match cs with [] => [] | _ :: cs' => 1 :: replicate (length cs') 0 end) ++ post.
Proof.
  unfold trits_padc. rewrite empty_view. destruct cs as [|t cs]; cbn [length Nat.eqb negb]; [done|].
  unfold trits_padc0. rewrite put1_view, with_view by done. rewrite drop1_view, set_zero_view.
  by rewrite <- app_assoc.
Qed.

Lemma with_put x cs : valid x -> length cs = trits_size x ->
  with_p x (trits_put x cs) = view (take (t_d x) (t_p x)) cs (drop (t_n x) (t_p x)).
Proof.
  intros Hx Hl. pose proof (valid_view x Hx) as E.
  set (pre := take _ _) in *. set (post := drop _ _) in *. set (old := trits_get x) in *.
  rewrite E in Hl |- *. rewrite size_view in Hl. by rewrite put_view, with_view.
Qed.

(** ** Integers in views *)
Lemma MODS_range t M m : 0 < m -> 0 <= t + Z.quot (M - 1) 2 -> Z.odd m = true ->
  - ((m - 1) / 2) <= MODS t M m <= (m - 1) / 2.
Proof.
  intros Hm H0 Ho. unfold MODS. rewrite Z.rem_mod_nonneg, (Z.quot_div_nonneg (m - 1)) by lia.
  apply Z.odd_spec in Ho as [k ->]. replace (2 * k + 1 - 1) with (k * 2) by lia. rewrite Z.div_mul by lia.
  pose proof (Z.mod_pos_bound (t + Z.quot (M - 1) 2) (2 * k + 1)). lia.
Qed.

(** The digit and the quotient of a number that has [m] times [k] values. *)
Lemma MODS_DIVS t m k : 0 <= m -> 0 <= k ->
  let M := (2 * k + 1) * (2 * m + 1) in
  - Z.quot (M - 1) 2 <= t <= Z.quot (M - 1) 2 ->
  t = MODS t M (2 * m + 1) + (2 * m + 1) * DIVS t M (2 * m + 1) /\
  - m <= MODS t M (2 * m + 1) <= m /\ - k <= DIVS t M (2 * m + 1) <= k.
Proof.
  intros Hm Hk M Ht. unfold MODS, DIVS.
  replace (2 * m + 1 - 1) with (m * 2) by lia. rewrite (Z.quot_mul m) by lia.
  assert (Z.quot M (2 * m + 1) = 2 * k + 1) as -> by (unfold M; rewrite Z.quot_mul; lia).
  replace (2 * k + 1 - 1) with (k * 2) by lia. rewrite (Z.quot_mul k) by lia.
  assert (Z.quot (M - 1) 2 = k * (2 * m + 1) + m) as E.
  { unfold M. replace ((2 * k + 1) * (2 * m + 1) - 1) with ((k * (2 * m + 1) + m) * 2) by lia.
    by rewrite Z.quot_mul. }
  rewrite E in *. rewrite Z.rem_mod_nonneg, Z.quot_div_nonneg by lia.
  set (u := t + (k * (2 * m + 1) + m)) in *.
  pose proof (Z.div_mod u (2 * m + 1)). pose proof (Z.mod_pos_bound u (2 * m + 1)).
  assert (0 <= u / (2 * m + 1) < 2 * k + 1) by (split; [apply Z.div_pos; lia|apply Z.div_lt_upper_bound; lia]).
  lia.
Qed.

(** Digits: [n] trits that denote [t] are written at the front of the view. *)
Definition puts (put : trits_t -> Z -> list Z) (n : nat) (bound : Z) : Prop :=
  forall t, - bound <= t <= bound -> exists ts, length ts = n /\ trits_ok ts /\ bal ts = t /\
    forall pre cs rest post, length cs = n -> put (view pre (cs ++ rest) post) t = pre ++ (ts ++ rest) ++ post.
Definition gets (get : trits_t -> Z) (n : nat) : Prop :=
  forall pre cs rest post, length cs = n -> get (view pre (cs ++ rest) post) = bal cs.

(** A number of two parts, the second one above [3 ^ n1]. *)
Lemma puts_two put1 put2 n1 n2 m k (put : trits_t -> Z -> list Z) :
  0 <= m -> 0 <= k -> 2 * m + 1 = 3 ^ Z.of_nat n1 ->
  puts put1 n1 m -> puts put2 n2 k ->
  (forall x t, put x t = let M := (2 * k + 1) * (2 * m + 1) in
     let x := with_p x (put1 x (MODS t M (2 * m + 1))) in
     put2 (trits_drop x n1) (DIVS t M (2 * m + 1))) ->
  puts put (n1 + n2) (Z.quot ((2 * k + 1) * (2 * m + 1) - 1) 2).
Proof.
  intros Hm Hk Ep H1 H2 Hput t Ht.
  destruct (MODS_DIVS t m k Hm Hk Ht) as (Et & Hr1 & Hr2).
  destruct (H1 _ Hr1) as (ts1 & L1 & O1 & B1 & W1). destruct (H2 _ Hr2) as (ts2 & L2 & O2 & B2 & W2).
  exists (ts1 ++ ts2). rewrite length_app, bal_app, L1, B1, B2, <- Ep.
  split; [lia|]. split; [by apply Forall_app|]. split; [lia|].
  intros pre cs rest post Hl. rewrite Hput. cbv zeta.
  rewrite <- (take_drop n1 cs). rewrite <- app_assoc.
  assert (length (take n1 cs) = n1) as Lt by (rewrite length_take; lia).
  rewrite W1, with_view by (rewrite ?length_app; lia || done).
  rewrite drop_view by done. rewrite W2 by (rewrite length_drop; lia).
  by rewrite <- !app_assoc.
Qed.

Lemma gets_two get1 get2 n1 n2 (get : trits_t -> Z) :
  gets get1 n1 -> gets get2 n2 ->
  (forall x, get x = get1 x + 3 ^ Z.of_nat n1 * get2 (trits_drop x n1)) -> gets get (n1 + n2).
Proof.
  intros H1 H2 Hget pre cs rest post Hl. rewrite Hget.
  rewrite <- (take_drop n1 cs), <- app_assoc.
  assert (length (take n1 cs) = n1) as Lt by (rewrite length_take; lia).
  rewrite H1, drop_view, H2 by (rewrite ?length_drop; lia || done).
  by rewrite bal_app, Lt.
Qed.

Lemma puts3 : puts trits_put3 3 13.
Proof.
  intros t Ht. destruct (MODS_DIVS t 1 4 ltac:(lia) ltac:(lia)) as (E1 & R1 & R2);
    [change (Z.quot ((2 * 4 + 1) * (2 * 1 + 1) - 1) 2) with 13; lia|].
  set (u := DIVS t ((2 * 4 + 1) * (2 * 1 + 1)) (2 * 1 + 1)) in *.
  destruct (MODS_DIVS u 1 1 ltac:(lia) ltac:(lia)) as (E2 & R3 & R4);
    [change (Z.quot ((2 * 1 + 1) * (2 * 1 + 1) - 1) 2) with 4; lia|].
  exists [MODS t (3 * 3 * 3) 3; MODS u (3 * 3) 3; DIVS u (3 * 3) 3].
  change ((2 * 1 + 1) * (2 * 1 + 1)) with (3 * 3) in *. change (2 * 1 + 1) with 3 in *.
  change ((2 * 4 + 1) * 3) with (3 * 3 * 3) in *.
  split; [done|]. split; [unfold is_trit; repeat constructor; lia|]. split; [cbn [bal]; lia|].
  intros pre cs rest post Hl. destruct cs as [|a [|b [|c [|]]]]; try done.
  unfold trits_put3. cbv zeta. fold u. cbn [app].
  rewrite put1_view, with_view by done. rewrite drop1_view, put1_view.
  rewrite <- app_assoc, (app_assoc [_]), with_view by done. cbn [app].
  rewrite drop2_view, put1_view.
  by rewrite <- app_assoc.
Qed.

Lemma gets3 : gets trits_get3 3.
Proof.
  intros pre cs rest post Hl. destruct cs as [|a [|b [|c [|]]]]; try done.
  unfold trits_get3. cbn [app bal]. rewrite get1_view, drop1_view, get1_view.
  rewrite drop2_view, get1_view. lia.
Qed.

Lemma puts6 : puts trits_put6 6 364.
Proof. by apply (puts_two trits_put3 trits_put3 3 3 13 13 _ ltac:(lia) ltac:(lia) eq_refl puts3 puts3). Qed.

Lemma gets6 : gets trits_get6 6.
Proof. by apply (gets_two trits_get3 trits_get3 3 3 _ gets3 gets3). Qed.

Lemma puts9 : puts trits_put9 9 9841.
Proof.
  apply (puts_two trits_put3 trits_put6 3 6 13 364 _ ltac:(lia) ltac:(lia) eq_refl puts3 puts6).
  intros x t. unfold trits_put9, trits_put6, trits_drop, with_p. cbn [t_n t_d t_p].
  rewrite <- Nat.add_assoc. reflexivity.
Qed.

Lemma gets9 : gets trits_get9 9.
Proof.
  apply (gets_two trits_get3 trits_get6 3 6 _ gets3 gets6).
  intros x. unfold trits_get9, trits_get6, trits_drop. cbn [t_n t_d t_p]. rewrite <- Nat.add_assoc.
  change (3 ^ Z.of_nat 3) with 27. change (3 + 3)%nat with 6%nat. lia.
Qed.

Lemma puts18 : puts trits_put18 18 193710244.
Proof. by apply (puts_two trits_put9 trits_put9 9 9 9841 9841 _ ltac:(lia) ltac:(lia) eq_refl puts9 puts9). Qed.

Lemma gets18 : gets trits_get18 18.
Proof. by apply (gets_two trits_get9 trits_get9 9 9 _ gets9 gets9). Qed.

(** ** Sizes in views *)
Lemma size_t_trytes_loop_spec fuel : forall d m n, (d + fuel = 14)%nat -> m = 27 ^ Z.of_nat d ->
  0 <= n <= MAM_TRITS_SIZE_MAX ->
  (d = O \/ (27 ^ Z.of_nat (d - 1) - 1) / 2 < n) ->
  let r := size_t_trytes_loop fuel d m n in
  (r <= 13)%nat /\ n <= (27 ^ Z.of_nat r - 1) / 2 /\ (r = O -> n = 0).
Proof.
  induction fuel as [|fuel IH]; intros d m n Hd -> Hn Hlow; cbn [size_t_trytes_loop].
  - exfalso. assert (d = 14%nat) as -> by lia. destruct Hlow as [|Hlow]; [lia|].
    change ((27 ^ Z.of_nat (14 - 1) - 1) / 2) with MAM_TRITS_SIZE_MAX in Hlow. lia.
  - destruct (Z.gtb_spec n ((27 ^ Z.of_nat d - 1) / 2)) as [Hgt|Hle].
    + destruct (decide (d = 13)%nat) as [->|].
      { change ((27 ^ Z.of_nat 13 - 1) / 2) with MAM_TRITS_SIZE_MAX in Hgt. lia. }
      apply IH; [lia| |done|].
      * unfold TRYTE_SPACE_SIZE. rewrite Nat2Z.inj_succ, Z.pow_succ_r, (Z.mul_comm 27) by lia.
        apply uwrap_small. split; [apply Z.mul_nonneg_nonneg; [apply Z.pow_nonneg; lia|lia]|].
        assert (27 ^ Z.of_nat d <= 27 ^ 12) by (apply Z.pow_le_mono_r; lia).
        change (27 ^ 12) with 150094635296999121 in *. lia.
      * right. cbn [Nat.sub]. rewrite Nat.sub_0_r. lia.
    + split; [destruct (decide (d <= 13)%nat); [done|exfalso]|].
      * assert (d = 14%nat) as -> by lia. lia.
      * split; [done|]. intros ->. change ((27 ^ Z.of_nat 0 - 1) / 2) with 0 in Hle. lia.
Qed.

Lemma size_t_trytes_spec n : 0 <= n <= MAM_TRITS_SIZE_MAX ->
  let d := trits_size_t_trytes n in
  (d <= 13)%nat /\ n <= rep_max (3 * d) /\ (d = O -> n = 0).
Proof.
  intros Hn. destruct (size_t_trytes_loop_spec 14 0 1 n ltac:(done) eq_refl Hn (or_introl eq_refl)) as (H1 & H2 & H3).
  split; [done|]. split; [|done]. unfold rep_max. rewrite Nat2Z.inj_mul, Z.pow_mul_r by lia. exact H2.
Qed.

Lemma long_to_trits_view n k m (post : list Z) : is_int64 n -> (3 <= k)%nat -> (min_trits n <= k)%nat ->
  exists ds, length ds = k /\ trits_ok ds /\ bal ds = n /\
    (long_to_trits n ((replicate k 0 ++ replicate m 0) ++ post)).2 = ds ++ replicate m 0 ++ post.
Proof.
  intros Hn Hk Hm.
  destruct (long_to_trits_spec n ((replicate k 0 ++ replicate m 0) ++ post) Hn) as (ts & E & L & O & B);
    [rewrite !length_app, !length_replicate; lia..|].
  exists (ts ++ replicate (k - min_trits n) 0). rewrite length_app, length_replicate, L.
  split; [lia|]. split; [apply Forall_app; split; [done|apply Forall_replicate; unfold is_trit; lia]|].
  split; [rewrite bal_app, bal_replicate_0; lia|].
  rewrite E. cbn [snd].
  assert (buf_write 0 [0; 0; 0] ((replicate k 0 ++ replicate m 0) ++ post) =
    (replicate k 0 ++ replicate m 0) ++ post) as ->.
  { destruct k as [|[|[|k]]]; [lia..|]. unfold buf_write.
    rewrite (take_ge [0; 0; 0]) by (cbn; lia). reflexivity. }
  rewrite <- !app_assoc. f_equal. rewrite drop_app_le by (by rewrite length_replicate).
  by rewrite drop_replicate.
Qed.

(** The trits of a size: the number of its trytes, and their value. *)
Lemma encode_size_t_view n pre cs post : 0 <= n <= MAM_TRITS_SIZE_MAX ->
  (trits_sizeof_size_t n <= length cs)%nat ->
  exists ts ds, length ts = 3%nat /\ trits_ok ts /\ bal ts = Z.of_nat (trits_size_t_trytes n) /\
    length ds = (trits_size_t_trytes n * 3)%nat /\ trits_ok ds /\ bal ds = n /\
    trits_encode_size_t n (view pre cs post) =
      view (pre ++ ts ++ ds) (replicate (length cs - trits_sizeof_size_t n) 0) post.
Proof.
  intros Hn Hl. unfold trits_sizeof_size_t in *.
  destruct (size_t_trytes_spec n Hn) as (Hd & Hmax & H0).
  set (d := trits_size_t_trytes n) in *.
  destruct (puts3 (Z.of_nat d) ltac:(lia)) as (ts & Lt & Ot & Bt & Wt).
  set (m := (length cs - 3 * (d + 1))%nat).
  assert (replicate (length cs) 0 = replicate 3 0 ++ replicate (d * 3) 0 ++ replicate m 0) as Er.
  { rewrite <- !replicate_add. f_equal. unfold m. lia. }
  unfold trits_encode_size_t. fold d. rewrite set_zero_view, with_view by apply length_replicate.
  rewrite Er. set (z := replicate (d * 3) 0 ++ replicate m 0).
  unfold trits_advance at 1. rewrite (take_view pre (replicate 3 0)), (drop_view pre (replicate 3 0)) by done.
  pose proof (Wt pre (replicate 3 0) [] (z ++ post) eq_refl) as Wt'. rewrite !app_nil_r in Wt'.
  rewrite Wt'.
  rewrite (app_assoc pre ts).
  rewrite with_view_at; [|rewrite !length_app, Lt, length_replicate; done|done].
  replace (3 * (d + 1))%nat with (3 + d * 3)%nat in * by lia.
  fold m. destruct (Z.gtb_spec n 0) as [Hpos|Hz].
  - assert (is_int64 n) as Hi.
    { unfold is_int64, INT64_MIN, INT64_MAX, MAM_TRITS_SIZE_MAX in *. lia. }
    assert (min_trits n <= d * 3)%nat as Hmin.
    { destruct (min_trits_spec n Hi) as (_ & _ & _ & [->|Hlow]).
      - destruct d; [specialize (H0 eq_refl); lia|lia].
      - destruct (decide (min_trits n <= d * 3)%nat); [done|].
        pose proof (rep_max_mono (3 * d) (min_trits n - 1) ltac:(lia)). lia. }
    destruct (long_to_trits_view n (d * 3) m post Hi ltac:(destruct d; [specialize (H0 eq_refl); lia|lia]) Hmin)
      as (ds & Ld & Od & Bd & Wd).
    exists ts, ds. split_and!; try done.
    unfold view at 2 3. cbn [t_d t_p]. rewrite at_pos_app by done. fold z in Wd. rewrite Wd.
    rewrite (app_assoc ds).
    rewrite with_view by (unfold z; rewrite !length_app, !length_replicate; lia).
    unfold trits_advance. cbn [snd]. unfold NUMBER_OF_TRITS_IN_A_TRYTE.
    rewrite drop_view by done. by rewrite <- app_assoc.
  - assert (d = O) as Ed by (unfold d; assert (n = 0) as -> by lia; reflexivity).
    subst z m. clearbody d. subst d.
    exists ts, []. split_and!; try done; [cbn [bal]; lia|].
    rewrite app_nil_r. done.
Qed.

Lemma u64_u64 z : u64 (u64 z) = u64 z.
Proof. unfold uwrap. by rewrite Z.mod_mod. Qed.

Lemma decode_size_t_view pre ts ds rest post d : length ts = 3%nat -> bal ts = Z.of_nat d -> (d <= 13)%nat ->
  length ds = (d * 3)%nat -> trits_ok ds ->
  trits_decode_size_t (view pre (ts ++ ds ++ rest) post) = (RC_OK, Some (u64 (bal ds)), view (pre ++ ts ++ ds) rest post).
Proof.
  intros Lt Bt Hd Ld Od. unfold trits_decode_size_t, NUMBER_OF_TRITS_IN_A_TRYTE.
  rewrite size_view, !length_app, Lt, Ld. destruct (Nat.ltb_spec (3 + (d * 3 + length rest)) 3); [lia|].
  cbv zeta. rewrite !gets3, !Bt by done.
  destruct (Z.ltb_spec (Z.of_nat d) 0); [lia|]. destruct (Z.gtb_spec (Z.of_nat d) 13); [lia|]. cbn [orb].
  rewrite !Nat2Z.id, !(drop_view pre ts) by done. rewrite size_view, length_app, Ld.
  destruct (Nat.ltb_spec (d * 3 + length rest) (3 * d)); [lia|].
  assert (buf_read (t_d (view (pre ++ ts) (ds ++ rest) post)) (d * 3) (t_p (view (pre ++ ts) (ds ++ rest) post)) = ds) as ->.
  { unfold view, buf_read. cbn [t_d t_p]. rewrite drop_app_length, <- app_assoc. by apply take_app_length'. }
  rewrite trits_to_long_exact by (done || lia). rewrite u64_u64, Z.eqb_refl. cbn [negb].
  unfold trits_advance. cbn [snd]. rewrite drop_view by done. by rewrite <- app_assoc.
Qed.

(** What is written for a size is read back as that size, and both leave the view behind
    the size.  The room that is needed is [trits_sizeof_size_t]. *)
Theorem size_t_roundtrip (n : Z) (buffer : trits_t)
    (Hn : 0 <= n <= MAM_TRITS_SIZE_MAX) (Hvalid : valid buffer)
    (Hroom : (trits_sizeof_size_t n <= trits_size buffer)%nat) :
  let buffer' := trits_encode_size_t n buffer in
  trits_decode_size_t (with_p buffer (t_p buffer')) = (RC_OK, Some n, buffer') /\
  trits_size buffer' = (trits_size buffer - trits_sizeof_size_t n)%nat.
Proof.
  cbv zeta. rewrite (valid_view _ Hvalid) in Hroom |- *.
  set (pre := take _ _) in *. set (cs := trits_get buffer) in *. set (post := drop _ _) in *.
  rewrite size_view in *.
  destruct (encode_size_t_view n pre cs post Hn Hroom) as (ts & ds & Lt & Ot & Bt & Ld & Od & Bd & ->).
  rewrite size_view, length_replicate. split; [|done].
  rewrite mem_view, <- !app_assoc, (app_assoc ds), (app_assoc ts), with_view.
  - rewrite (decode_size_t_view _ _ _ _ _ _ Lt Bt), Bd, uwrap_small; try done;
      [unfold MAM_TRITS_SIZE_MAX in Hn; lia|]. by apply size_t_trytes_spec.
  - rewrite !length_app, length_replicate, Lt, Ld. unfold trits_sizeof_size_t in *. lia.
Qed.

Lemma size_t_roundtrip_witness : exists n buffer,
  trits_decode_size_t (with_p buffer (t_p (trits_encode_size_t n buffer))) =
    (RC_OK, Some n, trits_encode_size_t n buffer) /\
  trits_size (trits_encode_size_t n buffer) = 21%nat.
Proof.
  exists 1000000, (mk_trits 40 1 (replicate 41 1)).
  apply (size_t_roundtrip 1000000 (mk_trits 40 1 (replicate 41 1)));
    [unfold MAM_TRITS_SIZE_MAX; lia|unfold valid; cbn; lia|vm_compute; lia].
Defined.

(** A negative number is read as a size: the check of the range compares a 64-bit number
    with itself. *)
Theorem negative_size_accepted :
  trits_decode_size_t (trits_from_rep 6 [1; 0; 0; -1; 0; 0]) =
  (RC_OK, Some (2 ^ 64 - 1), mk_trits 6 6 [1; 0; 0; -1; 0; 0]).
Proof. vm_compute. reflexivity. Qed.

(** ** Sums of trits *)
Lemma trit_add_ok x s : is_trit x -> is_trit s -> is_trit (trit_add x s).
Proof. intros. trit_cases; closed_decide. Qed.

Lemma trit_sub_ok x s : is_trit x -> is_trit s -> is_trit (trit_sub x s).
Proof. intros. trit_cases; closed_decide. Qed.

Lemma trit_sub_add x s : is_trit x -> is_trit s -> trit_sub (trit_add x s) s = x.
Proof. intros. trit_cases; done. Qed.

Lemma trit_add_sub x s : is_trit x -> is_trit s -> trit_add (trit_sub x s) s = x.
Proof. intros. trit_cases; done. Qed.

Abbreviation add_trits3 := (zip_with trit_add).
Abbreviation sub_trits3 := (zip_with trit_sub).

Lemma length_add3 xs ss : length ss = length xs -> length (add_trits3 xs ss) = length xs.
Proof. intros. rewrite length_zip_with. lia. Qed.

Lemma length_sub3 xs ss : length ss = length xs -> length (sub_trits3 xs ss) = length xs.
Proof. intros. rewrite length_zip_with. lia. Qed.

Lemma add3_ok xs : forall ss, trits_ok xs -> trits_ok ss -> trits_ok (add_trits3 xs ss).
Proof.
  induction xs as [|x xs IH]; intros [|s ss] Hx Hs; cbn; try constructor; inv_trits.
  - by apply trit_add_ok.
  - by apply IH.
Qed.

Lemma sub3_ok xs : forall ss, trits_ok xs -> trits_ok ss -> trits_ok (sub_trits3 xs ss).
Proof.
  induction xs as [|x xs IH]; intros [|s ss] Hx Hs; cbn; try constructor; inv_trits.
  - by apply trit_sub_ok.
  - by apply IH.
Qed.

Lemma sub3_add3 xs : forall ss, trits_ok xs -> trits_ok ss -> length ss = length xs ->
  sub_trits3 (add_trits3 xs ss) ss = xs.
Proof.
  induction xs as [|x xs IH]; intros [|s ss] Hx Hs Hl; try done. cbn in *. inv_trits.
  by rewrite trit_sub_add, IH by (done || lia).
Qed.

(** One turn of the loops over views. *)
Ltac view_turn :=
  rewrite ?get1_view, ?put1_view, ?with_view by done; rewrite ?drop1_view.

Lemma copy_add_view xs : forall ss ys p1 q1 p2 q2 p3 q3, length ss = length xs -> length ys = length xs ->
  trits_copy_add (view p1 xs q1) (view p2 ss q2) (view p3 ys q3) =
  (p2 ++ xs ++ q2, p3 ++ add_trits3 xs ss ++ q3).
Proof.
  unfold trits_copy_add. intros ss ys p1 q1 p2 q2 p3 q3. rewrite size_view. revert ss ys p1 p2 p3.
  induction xs as [|x xs IH]; intros [|s ss] [|y ys] p1 p2 p3 H1 H2; try done.
  cbn [length copy_add_loop]. rewrite empty_view. cbn [length Nat.eqb]. cbv zeta. view_turn.
  rewrite IH by (cbn in *; lia). by rewrite <- !app_assoc.
Qed.

Lemma copy_sub_view ys : forall ss xs p1 q1 p2 q2 p3 q3, length ss = length ys -> length xs = length ys ->
  trits_copy_sub (view p1 ys q1) (view p2 ss q2) (view p3 xs q3) =
  (p2 ++ sub_trits3 ys ss ++ q2, p3 ++ sub_trits3 ys ss ++ q3).
Proof.
  unfold trits_copy_sub. intros ss xs p1 q1 p2 q2 p3 q3. rewrite size_view. revert ss xs p1 p2 p3.
  induction ys as [|y ys IH]; intros [|s ss] [|x xs] p1 p2 p3 H1 H2; try done.
  cbn [length copy_sub_loop]. rewrite empty_view. cbn [length Nat.eqb]. cbv zeta. view_turn.
  rewrite IH by (cbn in *; lia). by rewrite <- !app_assoc.
Qed.

Lemma swap_loop_view swap xs : forall ss p1 q1 p2 q2, length ss = length xs ->
  swap_loop swap (length xs) (view p1 xs q1) (view p2 ss q2) =
  (p1 ++ zip_with (fun x s => (swap x s).1) xs ss ++ q1, p2 ++ zip_with (fun x s => (swap x s).2) xs ss ++ q2).
Proof.
  induction xs as [|x xs IH]; intros [|s ss] p1 q1 p2 q2 H1; try done.
  cbn [length swap_loop]. rewrite empty_view. cbn [length Nat.eqb]. rewrite !get1_view.
  destruct (swap x s) as [tx ts] eqn:E. view_turn.
  rewrite IH by (cbn in *; lia). cbn [zip_with]. rewrite E. by rewrite <- !app_assoc.
Qed.

Lemma zip_fst (xs : list Z) : forall ss : list Z, length ss = length xs -> zip_with (fun x _ => x) xs ss = xs.
Proof. induction xs as [|x xs IH]; intros [|s ss] H; try done. cbn. f_equal. apply IH. cbn in H. lia. Qed.

Lemma swap_add_view xs ss p1 q1 p2 q2 : length ss = length xs ->
  trits_swap_add (view p1 xs q1) (view p2 ss q2) = (p1 ++ add_trits3 xs ss ++ q1, p2 ++ xs ++ q2).
Proof.
  intros H. unfold trits_swap_add. rewrite size_view, swap_loop_view by done. cbn [trit_swap_add fst snd].
  by rewrite zip_fst.
Qed.

Lemma swap_sub_view ys ss p1 q1 p2 q2 : length ss = length ys ->
  trits_swap_sub (view p1 ys q1) (view p2 ss q2) = (p1 ++ sub_trits3 ys ss ++ q1, p2 ++ sub_trits3 ys ss ++ q2).
Proof. intros H. unfold trits_swap_sub. by rewrite size_view, swap_loop_view by done. Qed.

(** ** Comparison *)
Lemma cmp_loop_view xs : forall ys d p1 q1 p2 q2, length ys = length xs ->
  cmp_loop (length xs) d (view p1 xs q1) (view p2 ys q2) = 0 <-> xs = ys /\ (xs = [] -> d = 0).
Proof.
  induction xs as [|x xs IH]; intros [|y ys] d p1 q1 p2 q2 H; try done.
  - cbn. split; [|by intros [_ ?]; auto]. done.
  - cbn [length cmp_loop]. rewrite empty_view. cbn [length Nat.eqb]. cbv zeta. rewrite !get1_view.
    destruct (Z.eqb_spec 0 (x - y)) as [E|E].
    + rewrite !drop1_view, IH by (cbn in *; lia). split.
      * intros [-> _]. split; [f_equal; lia|done].
      * intros [[= -> ->] _]. split; [done|lia].
    + split; [lia|]. intros [[= -> ->] _]. lia.
Qed.

Lemma cmp_eq_view xs ys p1 q1 p2 q2 :
  trits_cmp_eq (view p1 xs q1) (view p2 ys q2) = true <-> xs = ys.
Proof.
  unfold trits_cmp_eq, trits_cmp_grlex. rewrite !size_view, Z.eqb_eq.
  destruct (Nat.ltb_spec (length xs) (length ys)).
  { split; [done|]. intros ->. lia. }
  destruct (Nat.ltb_spec (length ys) (length xs)).
  { split; [done|]. intros ->. lia. }
  rewrite (Z.eq_sym_iff 0), cmp_loop_view by lia. split; [by intros [-> _]|by intros ->].
Qed.

(** ** Increment *)

(** The number that trits count to when 0, 1 and -1 are the digits zero, one and two. *)
Fixpoint count (ts : list Z) : Z :=
  match ts with
  | [] => 0
  | t :: ts => t mod 3 + 3 * count ts
  end.

(** [trits_inc] adds one in that notation, and tells when it starts again from zero.  In
    balanced ternary it does not add one: from -1 the carry goes on, from 1 it stops. *)
Theorem trits_inc_counts (x : trits_t) (Hvalid : valid x) (Htrits : trits_ok (trits_get x)) :
  let '(r, mem) := trits_inc x in
  trits_ok (trits_get (with_p x mem)) /\
  count (trits_get (with_p x mem)) = count (trits_get x) + 1 - (if r then 0 else 3 ^ Z.of_nat (trits_size x)).
Proof.
  rewrite (valid_view _ Hvalid). set (pre := take _ _). set (cs := trits_get x) in *.
  set (post := drop _ _). rewrite get_view, size_view. unfold trits_inc. rewrite size_view.
  assert (exists r cs', inc_loop (length cs) (view pre cs post) = (r, pre ++ cs' ++ post) /\
    length cs' = length cs /\ trits_ok cs' /\
    count cs' = count cs + 1 - (if r then 0 else 3 ^ Z.of_nat (length cs))) as (r & cs' & -> & Hl & Ho & Hb).
  { clearbody pre. clear Hvalid. revert pre Htrits. generalize cs. clear cs. intros cs.
    induction cs as [|c cs IH]; intros pre Ht; cbn [length inc_loop].
    - exists false, []. split_and!; done || cbn; lia.
    - rewrite empty_view. cbn [length Nat.eqb]. rewrite get1_view, put1_view, with_view by done.
      inv_trits. destruct (Z.eqb_spec 0 (trit_add c 1)) as [E|E]; cbn [negb].
      + rewrite drop1_view. destruct (IH (pre ++ [trit_add c 1])) as (r & cs' & -> & Hl & Ho & Hb); [done|].
        exists r, (trit_add c 1 :: cs'). rewrite <- app_assoc. cbn [length count]. split_and!; [done|lia| |].
        * constructor; [by apply trit_add_ok|done].
        * rewrite Hb, <- E, pow3_S. trit_cases; try done. destruct r; change (0 mod 3) with 0; change (-1 mod 3) with 2; lia.
      + exists true, (trit_add c 1 :: cs). cbn [length count]. split_and!; [done|done| |].
        * constructor; [by apply trit_add_ok|done].
        * trit_cases; try done.
          -- change (trit_add 0 1 mod 3) with 1. change (0 mod 3) with 0. lia.
          -- change (trit_add 1 1 mod 3) with 2. change (1 mod 3) with 1. lia. }
  rewrite with_view by done. by rewrite get_view.
Qed.

Lemma trits_inc_counts_witness : exists x, let '(r, mem) := trits_inc x in
  trits_ok (trits_get (with_p x mem)) /\
  count (trits_get (with_p x mem)) = count (trits_get x) + 1 - (if r then 0 else 3 ^ Z.of_nat (trits_size x)).
Proof.
  exists (mk_trits 4 1 [0; 1; 1; -1; 0]).
  apply (trits_inc_counts (mk_trits 4 1 [0; 1; 1; -1; 0])); [unfold valid; cbn; lia|].
  cbn. unfold is_trit. repeat constructor; lia.
Defined.

(** ** Lists of views *)
Definition contents (b : buffers_t) : list Z := trits_get (head_ b) ++ concat (map trits_get (tail_ b)).
Definition buffers_valid (b : buffers_t) : Prop := valid (head_ b) /\ Forall valid (tail_ b).

Lemma valid_length x : valid x -> length (trits_get x) = trits_size x.
Proof. intros H. rewrite (valid_view x H) at 2. by rewrite size_view. Qed.

Lemma valid_empty x : valid x -> trits_is_empty x = (length (trits_get x) =? 0)%nat.
Proof. intros H. rewrite (valid_view x H) at 1. by rewrite empty_view. Qed.

Lemma empty_get x : valid x -> trits_is_empty x = true -> trits_get x = [].
Proof. intros H. rewrite valid_empty by done. rewrite Nat.eqb_eq. apply nil_length_inv. Qed.

Lemma buffers_size_loop_spec tail : forall m head, valid head -> Forall valid tail ->
  buffers_size_loop (S (S (length tail))) m (mk_buffers head tail) =
  (m + length (contents (mk_buffers head tail)))%nat.
Proof.
  induction tail as [|x tail IH]; intros m head Hh Ht.
  - unfold contents. cbn [map concat head_ tail_]. rewrite app_nil_r, valid_length by done.
    cbn -[Nat.add trits_size]. unfold buffers_is_empty. cbn [head_ tail_ length Nat.eqb].
    rewrite andb_true_r. destruct (trits_is_empty head) eqn:E; [|done].
    apply empty_get in E; [|done]. rewrite <- valid_length, E by done. cbn. lia.
  - apply Forall_cons_iff in Ht as [Hx Ht]. 
    change (buffers_size_loop (S (S (length (x :: tail)))) m (mk_buffers head (x :: tail)))
      with (if trits_is_empty head && false then m
            else buffers_size_loop (S (S (length tail))) (m + trits_size head) (mk_buffers x tail)).
    rewrite andb_false_r, IH by done. unfold contents. cbn [map concat head_ tail_].
    rewrite !length_app, (valid_length head) by done. lia.
Qed.

Lemma buffers_size_spec blocks : Forall valid blocks ->
  buffers_size (buffers_init blocks) = length (concat (map trits_get blocks)).
Proof.
  intros H. unfold buffers_size, buffers_init. cbn [tail_].
  rewrite buffers_size_loop_spec; [done|unfold valid; cbn; lia|done].
Qed.

Lemma buffers_copy_loop_spec fuel : forall m b p ys q, buffers_valid b ->
  (length ys <= length (contents b))%nat -> (length (tail_ b) + length ys < fuel)%nat ->
  exists b', buffers_copy_loop fuel m b (view p ys q) =
    ((m + length ys)%nat, b', p ++ take (length ys) (contents b) ++ q) /\
    buffers_valid b' /\ contents b' = drop (length ys) (contents b).
Proof.
  induction fuel as [|fuel IH]; intros m b p ys q Hb Hl Hf; [lia|]. cbn [buffers_copy_loop].
  rewrite empty_view. destruct (Nat.eqb_spec (length ys) 0) as [E|Hne]; cbn [orb].
  { exists b. rewrite E. split; [|done]. apply nil_length_inv in E as ->. by rewrite Nat.add_0_r. }
  destruct Hb as [Hh Ht]. destruct b as [head tail]. cbn [head_ tail_] in *.
  destruct (buffers_is_empty (mk_buffers head tail)) eqn:Ee.
  { exfalso. unfold buffers_is_empty in Ee. cbn [head_ tail_] in Ee. apply andb_true_iff in Ee as [E1 E2].
    apply empty_get in E1; [|done]. apply Nat.eqb_eq, nil_length_inv in E2 as ->.
    unfold contents in Hl. cbn in Hl. rewrite E1 in Hl. cbn in Hl. lia. }
  pose proof (valid_view head Hh) as Eh.
  set (hp := take (t_d head) (t_p head)) in *. set (hs := trits_get head) in *. set (hq := drop (t_n head) (t_p head)) in *.
  rewrite Eh. clearbody hp hq. 
  set (k := Nat.min (length hs) (length ys)).
  assert (exists h1 h2 y1 y2, hs = h1 ++ h2 /\ ys = y1 ++ y2 /\ length h1 = k /\ length y1 = k)
    as (h1 & h2 & y1 & y2 & E1 & E2 & L1 & L2).
  { exists (take k hs), (drop k hs), (take k ys), (drop k ys). rewrite !take_drop, !length_take. 
    split_and!; try done; unfold k; lia. }
  unfold trits_copy_min. rewrite !size_view. fold k. rewrite E1, E2. rewrite !take_view by done.
  rewrite copy_view by congruence. rewrite (app_assoc h1 y2 q), with_view by (rewrite !length_app; lia).
  rewrite !drop_view by done.
  assert (contents (mk_buffers (view hp (h1 ++ h2) hq) tail) = h1 ++ h2 ++ concat (map trits_get tail)) as Ec.
  { unfold contents. cbn [head_ tail_]. by rewrite get_view, <- app_assoc. }
  rewrite Ec. rewrite Eh, E1, Ec in Hl. rewrite E2 in Hl, Hf, Hne. rewrite !length_app in *. 
  assert (length y2 = 0 \/ length h2 = 0)%nat as Hor.
  { unfold k in L1, L2. apply (f_equal length) in E1. apply (f_equal length) in E2.
    rewrite !length_app in E1, E2. lia. }
  assert (forall b', buffers_valid b' -> contents b' = h2 ++ concat (map trits_get tail) ->
    (length (tail_ b') + length y2 < fuel)%nat ->
    exists b0, buffers_copy_loop fuel (m + k) b' (view (p ++ h1) y2 q) =
      ((m + (length y1 + length y2))%nat, b0,
       p ++ take (length y1 + length y2) (h1 ++ h2 ++ concat (map trits_get tail)) ++ q) /\
      buffers_valid b0 /\
      contents b0 = drop (length y1 + length y2) (h1 ++ h2 ++ concat (map trits_get tail))) as Hnext.
  { intros b' Hv Hc Hf'. destruct (IH (m + k)%nat b' (p ++ h1) y2 q Hv) as (b0 & -> & Hv0 & Hc0);
      [rewrite Hc, length_app; lia|done|].
    exists b0. rewrite Hc in Hc0 |- *. split; [|split; [done|]].
    - rewrite <- L2, Nat.add_assoc, take_app_add' by congruence. by rewrite <- !app_assoc.
    - rewrite Hc0, L2, <- L1. by rewrite drop_app_add. }
  destruct tail as [|x tail].
  - apply Hnext; [split; [apply view_valid|done]|unfold contents; cbn [head_ tail_]; by rewrite get_view|].
    unfold buffers_is_empty in Ee. cbn [head_ tail_ length Nat.eqb] in Ee.
    rewrite andb_true_r, valid_empty in Ee by done. apply Nat.eqb_neq in Ee. fold hs in Ee.
    cbn [tail_ length] in *. unfold k in L2. apply (f_equal length) in E2. rewrite length_app in E2. lia.
  - apply Forall_cons_iff in Ht as [Hx Ht]. rewrite empty_view.
    destruct (Nat.eqb_spec (length h2) 0) as [Eh2|Hh2].
    + apply Hnext; [by split| |cbn [tail_ length] in *; lia].
      apply nil_length_inv in Eh2 as ->. done.
    + apply Hnext; [split; [apply view_valid|by constructor]| |].
      * unfold contents. cbn [head_ tail_]. by rewrite get_view.
      * cbn [tail_ length] in *. lia.
Qed.

Lemma buffers_copy_to_spec b p ys q : buffers_valid b -> (length ys <= length (contents b))%nat ->
  exists b', buffers_copy_to b (view p ys q) = (length ys, b', p ++ take (length ys) (contents b) ++ q) /\
    buffers_valid b' /\ contents b' = drop (length ys) (contents b).
Proof.
  intros Hb Hl. unfold buffers_copy_to. rewrite size_view.
  apply (buffers_copy_loop_spec _ 0 b p ys q Hb Hl). lia.
Qed.
