(* ===== verification/MamSponge.v ===== *)
(** * The sponges of MAM

    [mam/sponge/sponge.c], [mam/sponge/spongos.c] and [mam/prng/prng.c], over the
    transformation of [mam/troika].  A sponge is its state of 729 trits: an outer part of 486, six control
    trits and an inner part.  A spongos keeps the position in the outer part too.

    The transformation does not depend on the memory of its stack
    ([mam_ftroika_transform_correct]): here the stack is zero. *)
From S2P Require Import Prelude Errors Troika Ftroika MamTrits.

(** ** [sponge.c] *)
Definition MAM_SPONGE_RATE : nat := 486.
Definition MAM_SPONGE_CONTROL : nat := 6.
Definition MAM_SPONGE_CAPACITY : nat := 237.
Definition MAM_SPONGE_WIDTH : nat := MAM_SPONGE_RATE + MAM_SPONGE_CONTROL + MAM_SPONGE_CAPACITY.
Definition MAM_SPONGE_KEY_SIZE : nat := 243.
Definition MAM_SPONGE_HASH_SIZE : nat := 243.
Definition MAM_SPONGE_MAC_SIZE : nat := 243.
Definition MAM_SPONGE_CTL_DATA : Z := 0.
Definition MAM_SPONGE_CTL_HASH : Z := 0.
Definition MAM_SPONGE_CTL_KEY : Z := 1.
Definition MAM_SPONGE_CTL_PRN : Z := 1.

Abbreviation mam_sponge_t := (list Z).

Definition sponge_state_trits (sponge : mam_sponge_t) : trits_t :=
  trits_from_rep MAM_SPONGE_WIDTH sponge.

Definition sponge_control_trits (sponge : mam_sponge_t) : trits_t :=
  trits_take (trits_drop (sponge_state_trits sponge) MAM_SPONGE_RATE) MAM_SPONGE_CONTROL.

(** [trits_drop] returns the shorter view, and the code does not use it: the three trits
    are written to the same place. *)
Definition sponge_set_control012 (sponge : mam_sponge_t) (c0 c1 c2 : Z) : mam_sponge_t :=
  let t := trits_take (sponge_control_trits sponge) NUMBER_OF_TRITS_IN_A_TRYTE in
  let t := with_p t (trits_put1 t c0) in
  let t := with_p t (trits_put1 t c1) in
  trits_put1 t c2.

Definition sponge_set_control345 (sponge : mam_sponge_t) (c3 c4 c5 : Z) : mam_sponge_t :=
  let t := trits_drop (sponge_control_trits sponge) NUMBER_OF_TRITS_IN_A_TRYTE in
  let t := with_p t (trits_put1 t c3) in
  let t := with_p t (trits_put1 t c4) in
  trits_put1 t c5.

Definition sponge_get_control1 (sponge : mam_sponge_t) : Z :=
  trits_get1 (trits_drop (sponge_control_trits sponge) 1).

Definition mam_sponge_outer_trits (sponge : mam_sponge_t) : trits_t :=
  trits_take (sponge_state_trits sponge) MAM_SPONGE_RATE.

Definition mam_sponge_init (sponge : mam_sponge_t) : mam_sponge_t :=
  trits_set_zero (sponge_state_trits sponge).

Definition mam_sponge_transform (sponge : mam_sponge_t) : mam_sponge_t :=
  mam_ftroika_transform (replicate SLICESIZE t27_zero) sponge.

Definition mam_sponge_fork (sponge fork : mam_sponge_t) : mam_sponge_t :=
  trits_copy (sponge_state_trits sponge) (sponge_state_trits fork).

(** Every turn but the last takes [MAM_SPONGE_RATE] trits: the size of the data and one
    more is enough fuel for these loops. *)
Fixpoint sponge_absorb_loop (fuel : nat) (sponge : mam_sponge_t) (c2 : Z) (data : trits_t) : mam_sponge_t :=
  match fuel with
  | O => sponge
  | S fuel =>
      let curr_data_part := trits_take_min data MAM_SPONGE_RATE in
      let ni := trits_size curr_data_part in
      let data := trits_drop data ni in
      let c0 := if (ni <? MAM_SPONGE_RATE)%nat then 0 else 1 in
      let c1 := if trits_is_empty data then -1 else 1 in
      let sponge :=
        if negb (sponge_get_control1 sponge =? 0)
        then mam_sponge_transform (sponge_set_control345 sponge c0 c1 c2)
        else sponge in
      let sponge := trits_copy curr_data_part (trits_take (mam_sponge_outer_trits sponge) ni) in
      let sponge := trits_padc 1 (trits_drop (mam_sponge_outer_trits sponge) ni) in
      let sponge := sponge_set_control012 sponge c0 c1 c2 in
      if negb (trits_is_empty data) then sponge_absorb_loop fuel sponge c2 data else sponge
  end.
Definition mam_sponge_absorb (sponge : mam_sponge_t) (c2 : Z) (data : trits_t) : mam_sponge_t :=
  sponge_absorb_loop (S (trits_size data)) sponge c2 data.

(** [m] trits are left in the buffers. *)
Fixpoint sponge_absorbn_loop (fuel : nat) (sponge : mam_sponge_t) (c2 : Z) (buffers : buffers_t) (m : nat)
    : mam_sponge_t :=
  match fuel with
  | O => sponge
  | S fuel =>
      let ni := if (m <? MAM_SPONGE_RATE)%nat then m else MAM_SPONGE_RATE in
      let m := (m - ni)%nat in
      let c0 := if (ni <? MAM_SPONGE_RATE)%nat then 0 else 1 in
      let c1 := if (0 =? m)%nat then -1 else 1 in
      let sponge :=
        if negb (sponge_get_control1 sponge =? 0)
        then mam_sponge_transform (sponge_set_control345 sponge c0 c1 c2)
        else sponge in
      let '(_, buffers, sponge) := buffers_copy_to buffers (trits_take (mam_sponge_outer_trits sponge) ni) in
      let sponge := trits_padc 1 (trits_drop (mam_sponge_outer_trits sponge) ni) in
      let sponge := sponge_set_control012 sponge c0 c1 c2 in
      if (0 <? m)%nat then sponge_absorbn_loop fuel sponge c2 buffers m else sponge
  end.
Definition mam_sponge_absorbn (sponge : mam_sponge_t) (c2 : Z) (data_blocks : list trits_t) : mam_sponge_t :=
  let buffers := buffers_init data_blocks in
  let m := buffers_size buffers in
  sponge_absorbn_loop (S m) sponge c2 buffers m.

(** The sponge and the memory of the output after. *)
Fixpoint sponge_squeeze_loop (fuel : nat) (sponge : mam_sponge_t) (c2 : Z) (squeezed : trits_t)
    : mam_sponge_t * list Z :=
  match fuel with
  | O => (sponge, t_p squeezed)
  | S fuel =>
      let c0 := -1 in
      let curr_squeezed := trits_take_min squeezed MAM_SPONGE_RATE in
      let ni := trits_size curr_squeezed in
      let squeezed := trits_drop squeezed ni in
      let c1 := if trits_is_empty squeezed then -1 else 1 in
      let sponge := mam_sponge_transform (sponge_set_control345 sponge c0 c1 c2) in
      let squeezed := with_p squeezed (trits_copy (trits_take (mam_sponge_outer_trits sponge) ni) curr_squeezed) in
      let sponge := trits_set_zero (trits_take (mam_sponge_outer_trits sponge) ni) in
      let sponge := trits_padc 1 (trits_drop (mam_sponge_outer_trits sponge) ni) in
      let sponge := sponge_set_control012 sponge c0 c1 c2 in
      if negb (trits_is_empty squeezed) then sponge_squeeze_loop fuel sponge c2 squeezed
      else (sponge, t_p squeezed)
  end.
Definition mam_sponge_squeeze (sponge : mam_sponge_t) (c2 : Z) (squeezed : trits_t) : mam_sponge_t * list Z :=
  sponge_squeeze_loop (S (trits_size squeezed)) sponge c2 squeezed.

(** What encryption and decryption do with one block: [into] is the view for the result
    when it is not the same as the argument ([trits_is_same]).  The memory of the outer
    part and of the result after. *)
Definition crypt_block (copy : trits_t -> trits_t -> trits_t -> list Z * list Z)
    (swap : trits_t -> trits_t -> list Z * list Z) (x outer : trits_t) (into : option trits_t) : list Z * list Z :=
  match into with
  | None => let '(mx, ms) := swap x outer in (ms, mx)
  | Some y => copy x outer y
  end.

Fixpoint sponge_crypt_loop copy swap (fuel : nat) (sponge : mam_sponge_t) (text : trits_t) (into : option trits_t)
    : mam_sponge_t * list Z :=
  match fuel with
  | O => (sponge, t_p (default text into))
  | S fuel =>
      let c2 := -1 in
      let curr_text_part := trits_take_min text MAM_SPONGE_RATE in
      let curr_into_part := (fun x => trits_take_min x MAM_SPONGE_RATE) <$> into in
      let ni := trits_size curr_text_part in
      let text := trits_drop text ni in
      let into := (fun x => trits_drop x ni) <$> into in
      let c0 := if (ni <? MAM_SPONGE_RATE)%nat then 0 else 1 in
      let c1 := if trits_is_empty text then -1 else 1 in
      let sponge := mam_sponge_transform (sponge_set_control345 sponge c0 c1 c2) in
      let '(sponge, mem) := crypt_block copy swap curr_text_part
        (trits_take (mam_sponge_outer_trits sponge) ni) curr_into_part in
      let sponge := trits_padc 1 (trits_drop (mam_sponge_outer_trits sponge) ni) in
      let sponge := sponge_set_control012 sponge c0 c1 c2 in
      match into with
      | None =>
          let text := with_p text mem in
          if negb (trits_is_empty text) then sponge_crypt_loop copy swap fuel sponge text None
          else (sponge, mem)
      | Some y =>
          let y := with_p y mem in
          if negb (trits_is_empty text) then sponge_crypt_loop copy swap fuel sponge text (Some y)
          else (sponge, mem)
      end
  end.

(** [None] for the ciphertext, or the plaintext: the same view. *)
Definition mam_sponge_encr (sponge : mam_sponge_t) (plaintext : trits_t) (ciphertext : option trits_t) :=
  sponge_crypt_loop trits_copy_add trits_swap_add (S (trits_size plaintext)) sponge plaintext ciphertext.
Definition mam_sponge_decr (sponge : mam_sponge_t) (ciphertext : trits_t) (plaintext : option trits_t) :=
  sponge_crypt_loop trits_copy_sub trits_swap_sub (S (trits_size ciphertext)) sponge ciphertext plaintext.

Definition mam_sponge_hash (sponge : mam_sponge_t) (plaintext digest : trits_t) : mam_sponge_t * list Z :=
  let sponge := mam_sponge_init sponge in
  let sponge := mam_sponge_absorb sponge MAM_SPONGE_CTL_DATA plaintext in
  mam_sponge_squeeze sponge MAM_SPONGE_CTL_HASH digest.

Definition mam_sponge_hashn (sponge : mam_sponge_t) (plaintext_blocks : list trits_t) (digest : trits_t)
    : mam_sponge_t * list Z :=
  let sponge := mam_sponge_init sponge in
  let sponge := mam_sponge_absorbn sponge MAM_SPONGE_CTL_DATA plaintext_blocks in
  mam_sponge_squeeze sponge MAM_SPONGE_CTL_HASH digest.

(** ** [spongos.c] *)
Record mam_spongos_t := mk_spongos { sponge : mam_sponge_t; pos : nat }.

Definition spongos_outer_trits (s : mam_spongos_t) : trits_t :=
  trits_drop (mam_sponge_outer_trits (sponge s)) (pos s).

Definition mam_spongos_commit (s : mam_spongos_t) : mam_spongos_t :=
  if negb (pos s =? 0)%nat then mk_spongos (mam_sponge_transform (sponge s)) 0 else s.

Definition spongos_update (s : mam_spongos_t) (n : nat) : mam_spongos_t :=
  let s := mk_spongos (sponge s) (pos s + n) in
  if (pos s =? MAM_SPONGE_RATE)%nat then mam_spongos_commit s else s.

Definition mam_spongos_init (s : mam_spongos_t) : mam_spongos_t := mk_spongos (mam_sponge_init (sponge s)) 0.

Definition mam_mam_spongos_fork (s fork : mam_spongos_t) : mam_spongos_t :=
  mk_spongos (mam_sponge_fork (sponge s) (sponge fork)) (pos s).

(** Every turn takes a trit at least: the size of the view is enough fuel. *)
Fixpoint spongos_absorb_loop (fuel : nat) (s : mam_spongos_t) (input : trits_t) : mam_spongos_t :=
  match fuel with
  | O => s
  | S fuel =>
      if trits_is_empty input then s else
      let '(n, mem) := trits_copy_min input (spongos_outer_trits s) in
      let s := spongos_update (mk_spongos mem (pos s)) n in
      spongos_absorb_loop fuel s (trits_drop input n)
  end.
Definition mam_spongos_absorb (s : mam_spongos_t) (input : trits_t) : mam_spongos_t :=
  spongos_absorb_loop (trits_size input) s input.

Definition mam_spongos_absorbn (s : mam_spongos_t) (inputs : list trits_t) : mam_spongos_t :=
  foldl mam_spongos_absorb s inputs.

Fixpoint spongos_squeeze_loop (fuel : nat) (s : mam_spongos_t) (output : trits_t) : mam_spongos_t * list Z :=
  match fuel with
  | O => (s, t_p output)
  | S fuel =>
      if trits_is_empty output then (s, t_p output) else
      let '(n, mem) := trits_copy_min (spongos_outer_trits s) output in
      let s := mk_spongos (trits_set_zero (trits_take (spongos_outer_trits s) n)) (pos s) in
      let s := spongos_update s n in
      spongos_squeeze_loop fuel s (trits_drop (with_p output mem) n)
  end.
Definition mam_spongos_squeeze (s : mam_spongos_t) (output : trits_t) : mam_spongos_t * list Z :=
  spongos_squeeze_loop (trits_size output) s output.

Fixpoint spongos_squeeze_eq_loop (fuel : nat) (s : mam_spongos_t) (r : bool) (expected_output : trits_t)
    : mam_spongos_t * bool :=
  match fuel with
  | O => (s, r)
  | S fuel =>
      if trits_is_empty expected_output then (s, r) else
      let y := trits_take_min (spongos_outer_trits s) (trits_size expected_output) in
      let n := trits_size y in
      let r := trits_cmp_eq y (trits_take expected_output n) && r in
      let s := mk_spongos (trits_set_zero (trits_take (spongos_outer_trits s) n)) (pos s) in
      let s := spongos_update s n in
      spongos_squeeze_eq_loop fuel s r (trits_drop expected_output n)
  end.
Definition mam_spongos_squeeze_eq (s : mam_spongos_t) (expected_output : trits_t) : mam_spongos_t * bool :=
  spongos_squeeze_eq_loop (trits_size expected_output) s true expected_output.

Definition mam_spongos_hash (s : mam_spongos_t) (input output : trits_t) : mam_spongos_t * list Z :=
  let s := mam_spongos_init s in
  let s := mam_spongos_absorb s input in
  let s := mam_spongos_commit s in
  mam_spongos_squeeze s output.

Definition mam_spongos_hashn (s : mam_spongos_t) (inputs : list trits_t) (output : trits_t)
    : mam_spongos_t * list Z :=
  let s := mam_spongos_init s in
  let s := mam_spongos_absorbn s inputs in
  let s := mam_spongos_commit s in
  mam_spongos_squeeze s output.

(** One turn of encryption or decryption: the number of trits, the memory of the outer part
    and of the result. *)
Definition crypt_min (copy_min : trits_t -> trits_t -> trits_t -> nat * list Z * list Z)
    (swap_min : trits_t -> trits_t -> nat * list Z * list Z) (x outer : trits_t) (into : option trits_t)
    : nat * list Z * list Z :=
  match into with
  | None => let '(n, mx, ms) := swap_min x outer in (n, ms, mx)
  | Some y => copy_min x outer y
  end.

Fixpoint spongos_crypt_loop copy_min swap_min (fuel : nat) (s : mam_spongos_t) (text : trits_t)
    (into : option trits_t) : mam_spongos_t * list Z :=
  let result := default text into in
  match fuel with
  | O => (s, t_p result)
  | S fuel =>
      if trits_is_empty result then (s, t_p result) else
      let '(n, ms, mem) := crypt_min copy_min swap_min text (spongos_outer_trits s) into in
      let s := spongos_update (mk_spongos ms (pos s)) n in
      match into with
      | None => spongos_crypt_loop copy_min swap_min fuel s (trits_drop (with_p text mem) n) None
      | Some y =>
          spongos_crypt_loop copy_min swap_min fuel s (trits_drop text n)
            (Some (trits_drop (with_p y mem) n))
      end
  end.

(** [None]: the ciphertext is the view of the plaintext. *)
Definition mam_spongos_encr (s : mam_spongos_t) (plaintext : trits_t) (ciphertext : option trits_t) :=
  spongos_crypt_loop trits_copy_add_min trits_swap_add_min (trits_size plaintext) s plaintext ciphertext.
Definition mam_spongos_decr (s : mam_spongos_t) (ciphertext : trits_t) (plaintext : option trits_t) :=
  spongos_crypt_loop trits_copy_sub_min trits_swap_sub_min (trits_size ciphertext) s ciphertext plaintext.

#[local] Opaque mam_ftroika_transform.

(** ** The spongos as a machine on trits

    [f t x] is what happens to the trit [t] of the outer part and the input [x]: the output
    and the trit that [t] becomes. *)
Definition spongos_step (f : Z -> Z -> Z * Z) (s : mam_spongos_t) (x : Z) : Z * mam_spongos_t :=
  let '(o, t) := f (nth (pos s) (sponge s) 0) x in
  (o, spongos_update (mk_spongos (<[pos s := t]> (sponge s)) (pos s)) 1).

Fixpoint spongos_map (f : Z -> Z -> Z * Z) (s : mam_spongos_t) (xs : list Z) : list Z * mam_spongos_t :=
  match xs with
  | [] => ([], s)
  | x :: xs =>
      let '(o, s) := spongos_step f s x in
      let '(os, s) := spongos_map f s xs in
      (o :: os, s)
  end.

Definition absorb_trit (t x : Z) : Z * Z := (x, x).
Definition squeeze_trit (t x : Z) : Z * Z := (t, 0).
Definition encr_trit (t x : Z) : Z * Z := (trit_add x t, x).
Definition decr_trit (t y : Z) : Z * Z := (trit_sub y t, trit_sub y t).

Record spongos_ok (s : mam_spongos_t) : Prop := {
  ok_length : length (sponge s) = STATESIZE;
  ok_pos : (pos s < MAM_SPONGE_RATE)%nat;
  ok_trits : trits_ok (sponge s)
}.

Definition keeps_trits (f : Z -> Z -> Z * Z) : Prop :=
  forall t x, is_trit t -> is_trit x -> is_trit (f t x).1 /\ is_trit (f t x).2.

Lemma absorb_keeps : keeps_trits absorb_trit.
Proof. done. Qed.
Lemma squeeze_keeps : keeps_trits squeeze_trit.
Proof. intros t x Ht _. by split; [|unfold is_trit; cbn; lia]. Qed.
Lemma encr_keeps : keeps_trits encr_trit.
Proof. intros t x Ht Hx. by split; [apply trit_add_ok|]. Qed.
Lemma decr_keeps : keeps_trits decr_trit.
Proof. intros t x Ht Hx. by split; apply trit_sub_ok. Qed.

Lemma mam_sponge_transform_ok st : length st = STATESIZE -> trits_ok st ->
  trits_ok (mam_sponge_transform st) /\ length (mam_sponge_transform st) = STATESIZE.
Proof. intros. by apply mam_ftroika_transform_ok. Qed.

Lemma mam_spongos_commit_ok st p : length st = STATESIZE -> trits_ok st ->
  spongos_ok (mam_spongos_commit (mk_spongos st p)) /\ pos (mam_spongos_commit (mk_spongos st p)) = O.
Proof.
  intros Hl Ht. unfold mam_spongos_commit. cbn [pos sponge].
  destruct (Nat.eqb_spec p 0) as [->|]; cbn [negb pos].
  - split; [|done]. split; cbn; [done|unfold MAM_SPONGE_RATE; lia|done].
  - destruct (mam_sponge_transform_ok st Hl Ht). split; [|done].
    split; cbn; [done|unfold MAM_SPONGE_RATE; lia|done].
Qed.

Lemma spongos_update_ok st p n : length st = STATESIZE -> trits_ok st -> (p + n <= MAM_SPONGE_RATE)%nat ->
  spongos_ok (spongos_update (mk_spongos st p) n).
Proof.
  intros Hl Ht Hp. unfold spongos_update. cbn [pos sponge].
  destruct (Nat.eqb_spec (p + n) MAM_SPONGE_RATE); [by apply mam_spongos_commit_ok|].
  split; cbn; [done|lia|done].
Qed.

Lemma spongos_step_ok f s x : keeps_trits f -> spongos_ok s -> is_trit x ->
  is_trit (spongos_step f s x).1 /\ spongos_ok (spongos_step f s x).2.
Proof.
  intros Hf [Hl Hp Ht] Hx. unfold spongos_step.
  pose proof (Hf (nth (pos s) (sponge s) 0) x (nth_trit _ _ Ht) Hx) as [H1 H2].
  destruct (f (nth (pos s) (sponge s) 0) x) as [o t]. split; [done|]. cbn [snd].
  apply spongos_update_ok; [by rewrite length_insert|by apply Forall_insert|lia].
Qed.

Lemma spongos_map_ok f xs : keeps_trits f -> trits_ok xs -> forall s, spongos_ok s ->
  trits_ok (spongos_map f s xs).1 /\ spongos_ok (spongos_map f s xs).2.
Proof.
  intros Hf Hx. induction Hx as [|x xs Hx _ IH]; intros s Hs; cbn [spongos_map]; [by split|].
  destruct (spongos_step_ok f s x Hf Hs Hx) as [Ho Hs'].
  destruct (spongos_step f s x) as [o s']. cbn [fst snd] in *. specialize (IH s' Hs').
  destruct (spongos_map f s' xs) as [os s'']. cbn [fst snd] in *. destruct IH. split; [by constructor|done].
Qed.

Lemma length_spongos_map f xs : forall s, length (spongos_map f s xs).1 = length xs.
Proof.
  induction xs as [|x xs IH]; intros s; cbn [spongos_map]; [done|].
  destruct (spongos_step f s x) as [o s']. specialize (IH s').
  destruct (spongos_map f s' xs) as [os s'']. cbn in *. lia.
Qed.

Lemma spongos_map_app f xs ys : forall s,
  spongos_map f s (xs ++ ys) =
  let '(os, s) := spongos_map f s xs in let '(os', s) := spongos_map f s ys in (os ++ os', s).
Proof.
  induction xs as [|x xs IH]; intros s; cbn [app spongos_map].
  - by destruct (spongos_map f s ys).
  - destruct (spongos_step f s x) as [o s']. rewrite IH.
    destruct (spongos_map f s' xs) as [os s'']. by destruct (spongos_map f s'' ys).
Qed.

(** Trits that fit in the outer part are treated at once. *)
Lemma spongos_map_chunk f xs : forall a ts c, xs <> [] -> length ts = length xs ->
  (length a + length xs <= MAM_SPONGE_RATE)%nat ->
  spongos_map f (mk_spongos (a ++ ts ++ c) (length a)) xs =
  (zip_with (fun t x => (f t x).1) ts xs,
   spongos_update (mk_spongos (a ++ zip_with (fun t x => (f t x).2) ts xs ++ c) (length a)) (length xs)).
Proof.
  induction xs as [|x xs IH]; intros a [|t ts] c Hne Hl Hb; try done. cbn [spongos_map].
  unfold spongos_step. cbn [pos sponge zip_with].
  rewrite app_nth2, Nat.sub_diag by lia. cbn [app nth].
  destruct (f t x) as [o t'] eqn:E. cbn [fst snd].
  rewrite insert_app_r_alt, Nat.sub_diag by lia. change (<[0%nat:=t']> (t :: ts ++ c)) with (t' :: ts ++ c).
  destruct xs as [|x' xs].
  - destruct ts; [|done]. done.
  - cbn [length] in *. unfold spongos_update at 1. cbn [pos sponge].
    destruct (Nat.eqb_spec (length a + 1) MAM_SPONGE_RATE); [lia|].
    change (a ++ t' :: ts ++ c) with (a ++ [t'] ++ ts ++ c). rewrite app_assoc.
    replace (length a + 1)%nat with (length (a ++ [t'])) by (by rewrite length_app).
    rewrite IH; [|done|cbn in *; lia|rewrite length_app; cbn; lia]. f_equal.
    rewrite <- app_assoc. unfold spongos_update. cbn [pos sponge length app].
    rewrite length_app. cbn [length].
    replace (length a + 1 + S (length xs))%nat with (length a + S (S (length xs)))%nat by lia. done.
Qed.

(** How the input and the state are cut in one turn of the loops. *)
Lemma spongos_turn s (xs : list Z) : spongos_ok s -> xs <> [] ->
  exists x1 x2 a ts c1 c2, xs = x1 ++ x2 /\ x1 <> [] /\ length ts = length x1 /\
    s = mk_spongos (a ++ ts ++ c1 ++ c2) (length a) /\
    (length a + length x1 + length c1 = MAM_SPONGE_RATE)%nat /\
    Nat.min (length xs) (length (ts ++ c1)) = length x1.
Proof.
  intros [Hl Hp Ht] Hx. destruct s as [st p]. cbn [sponge pos] in *.
  assert (MAM_SPONGE_RATE < STATESIZE)%nat as Hrate
    by (unfold MAM_SPONGE_RATE, STATESIZE, COLUMNS, ROWS, SLICES; lia).
  set (k := Nat.min (length xs) (MAM_SPONGE_RATE - p)).
  assert (0 < k)%nat by (unfold k; destruct xs; [done|cbn [length]; lia]).
  exists (take k xs), (drop k xs), (take p st), (take k (drop p st)),
    (take (MAM_SPONGE_RATE - p - k) (drop (p + k) st)), (drop MAM_SPONGE_RATE st).
  rewrite take_drop, length_app, !length_take, !length_drop, Hl.
  split; [done|]. split; [destruct xs; [done|by destruct k; [lia|]]|]. split; [lia|].
  split; [|split; lia]. rewrite Nat.min_l by lia. f_equal.
  rewrite <- (take_drop p st) at 1. f_equal. rewrite <- (take_drop k (drop p st)) at 1. f_equal.
  rewrite drop_drop. rewrite <- (take_drop (MAM_SPONGE_RATE - p - k) (drop (p + k) st)) at 1. f_equal.
  rewrite drop_drop. f_equal. lia.
Qed.

Lemma outer_view (a o c : list Z) : (length a + length o = MAM_SPONGE_RATE)%nat ->
  spongos_outer_trits (mk_spongos (a ++ o ++ c) (length a)) = view a o c.
Proof.
  intros Hl. unfold spongos_outer_trits, mam_sponge_outer_trits, sponge_state_trits, trits_take,
    trits_drop, trits_from_rep, view. cbn [t_n t_d t_p pos sponge]. f_equal. lia.
Qed.

(** ** The loops are the machine *)
Lemma copy_min_views p1 x1 x2 q1 p2 ts c1 c2 n : n = length x1 -> length ts = n ->
  Nat.min (length (x1 ++ x2)) (length (ts ++ c1)) = n ->
  trits_copy_min (view p1 (x1 ++ x2) q1) (view p2 (ts ++ c1) c2) = (n, p2 ++ x1 ++ c1 ++ c2).
Proof.
  intros -> Ht Hm. unfold trits_copy_min. rewrite !size_view, Hm, !take_view by done.
  by rewrite copy_view.
Qed.

Lemma zip_const {A B C} (g : B -> C) (ts : list A) (xs : list B) : length ts = length xs ->
  zip_with (fun _ x => g x) ts xs = map g xs.
Proof.
  revert ts. induction xs as [|x xs IH]; intros [|t ts] H; try done. cbn. f_equal. apply IH. cbn in H. lia.
Qed.

Lemma zip_state {A B C} (g : A -> C) (ts : list A) (xs : list B) : length ts = length xs ->
  zip_with (fun t _ => g t) ts xs = map g ts.
Proof.
  revert ts. induction xs as [|x xs IH]; intros [|t ts] H; try done. cbn. f_equal. apply IH. cbn in H. lia.
Qed.

(** The state after a chunk, for any machine. *)
Lemma spongos_map_turn f s x1 x2 a ts c1 c2 :
  keeps_trits f -> spongos_ok s -> trits_ok (x1 ++ x2) -> s = mk_spongos (a ++ ts ++ c1 ++ c2) (length a) ->
  x1 <> [] -> length ts = length x1 -> (length a + length x1 + length c1 = MAM_SPONGE_RATE)%nat ->
  let os := zip_with (fun t x => (f t x).1) ts x1 in
  let s' := spongos_update
    (mk_spongos (a ++ zip_with (fun t x => (f t x).2) ts x1 ++ c1 ++ c2) (length a)) (length x1) in
  spongos_ok s' /\ spongos_map f s (x1 ++ x2) = let '(os', s'') := spongos_map f s' x2 in (os ++ os', s'').
Proof.
  intros Hf Hok Hx -> Hne Hl Hr. cbv zeta. apply Forall_app in Hx as [Hx1 _].
  assert (length a + length x1 <= MAM_SPONGE_RATE)%nat as Hb by lia.
  pose proof (spongos_map_chunk f x1 a ts (c1 ++ c2) Hne Hl Hb) as E.
  destruct (spongos_map_ok f x1 Hf Hx1 _ Hok) as [_ Hok']. rewrite E in Hok'. split; [exact Hok'|].
  by rewrite spongos_map_app, E.
Qed.

Lemma absorb_loop_spec fuel : forall s p xs q, spongos_ok s -> trits_ok xs -> (length xs <= fuel)%nat ->
  spongos_absorb_loop fuel s (view p xs q) = (spongos_map absorb_trit s xs).2.
Proof.
  induction fuel as [|fuel IH]; intros s p xs q Hs Hx Hf.
  - by destruct xs; [|cbn in Hf; lia].
  - cbn [spongos_absorb_loop]. rewrite empty_view. destruct (decide (xs = [])) as [->|Hne]; [done|].
    destruct (Nat.eqb_spec (length xs) 0); [by destruct xs|].
    destruct (spongos_turn s xs Hs Hne) as (x1 & x2 & a & ts & c1 & c2 & -> & H1 & H2 & Es & H3 & H4).
    destruct (spongos_map_turn _ s x1 x2 a ts c1 c2 absorb_keeps Hs Hx Es H1 H2 H3) as [Hok ->].
    rewrite Es at 1. rewrite (app_assoc ts), outer_view by (rewrite length_app; lia).
    rewrite (copy_min_views _ _ _ _ _ _ _ _ (length x1)) by done.
    rewrite drop_view, Es by done. cbn [pos].
    unfold absorb_trit in Hok |- *. cbn [snd] in Hok |- *. rewrite zip_const, map_id in Hok |- * by done.
    rewrite length_app in Hf. apply Forall_app in Hx as [_ Hx2].
    rewrite IH; [|done|done|destruct x1; [done|cbn in *; lia]].
    by destruct (spongos_map _ _ x2).
Qed.

Lemma squeeze_loop_spec fuel : forall s p xs q, spongos_ok s -> trits_ok xs -> (length xs <= fuel)%nat ->
  spongos_squeeze_loop fuel s (view p xs q) =
  let '(os, s') := spongos_map squeeze_trit s xs in (s', p ++ os ++ q).
Proof.
  induction fuel as [|fuel IH]; intros s p xs q Hs Hx Hf.
  - by destruct xs; [|cbn in Hf; lia].
  - cbn [spongos_squeeze_loop]. rewrite empty_view. destruct (decide (xs = [])) as [->|Hne]; [done|].
    destruct (Nat.eqb_spec (length xs) 0); [by destruct xs|].
    destruct (spongos_turn s xs Hs Hne) as (x1 & x2 & a & ts & c1 & c2 & -> & H1 & H2 & Es & H3 & H4).
    destruct (spongos_map_turn _ s x1 x2 a ts c1 c2 squeeze_keeps Hs Hx Es H1 H2 H3) as [Hok ->].
    rewrite Es. rewrite (app_assoc ts), !outer_view by (rewrite length_app; lia).
    rewrite (copy_min_views _ _ _ _ _ _ _ _ (length x1)) by (done || lia).
    rewrite take_view, set_zero_view by done.
    rewrite (app_assoc ts x2 q), with_view by (rewrite !length_app; lia). rewrite drop_view by done. cbn [pos].
    unfold squeeze_trit in Hok |- *. cbn [fst snd] in Hok |- *.
    rewrite (zip_state (fun _ => 0)) in Hok |- * by done. rewrite (zip_state (fun t => t)), map_id by done.
    assert (map (fun _ => 0) ts = replicate (length ts) 0) as Ez.
    { clear. induction ts; cbn; [done|]. by f_equal. }
    rewrite Ez in Hok |- *. rewrite length_app in Hf. apply Forall_app in Hx as [_ Hx2].
    rewrite IH; [|done|done|destruct x1; [done|cbn in *; lia]].
    destruct (spongos_map _ _ x2) as [os s']. by rewrite <- !app_assoc.
Qed.

(** What the two operations on a block do, for encryption and for decryption. *)
Definition crypts (f : Z -> Z -> Z * Z) (copy : trits_t -> trits_t -> trits_t -> list Z * list Z)
    (swap : trits_t -> trits_t -> list Z * list Z) : Prop :=
  (forall xs ts ys p1 q1 p2 q2 p3 q3, length ts = length xs -> length ys = length xs ->
     copy (view p1 xs q1) (view p2 ts q2) (view p3 ys q3) =
     (p2 ++ zip_with (fun t x => (f t x).2) ts xs ++ q2, p3 ++ zip_with (fun t x => (f t x).1) ts xs ++ q3)) /\
  (forall xs ts p1 q1 p2 q2, length ts = length xs ->
     swap (view p1 xs q1) (view p2 ts q2) =
     (p1 ++ zip_with (fun t x => (f t x).1) ts xs ++ q1, p2 ++ zip_with (fun t x => (f t x).2) ts xs ++ q2)).

Lemma zip_flip {A B C} (f : A -> B -> C) ts xs : zip_with (fun t x => f t x) ts xs = zip_with (fun x t => f t x) xs ts.
Proof. revert xs. induction ts as [|t ts IH]; intros [|x xs]; cbn; [done..|]. by rewrite IH. Qed.

Lemma encr_crypts : crypts encr_trit trits_copy_add trits_swap_add.
Proof.
  split; intros; rewrite ?copy_add_view, ?swap_add_view by done; unfold encr_trit; cbn [fst snd];
    rewrite (zip_const (fun x => x)), map_id by done; by rewrite (zip_flip (fun t x => trit_add x t)).
Qed.

Lemma decr_crypts : crypts decr_trit trits_copy_sub trits_swap_sub.
Proof.
  split; intros; rewrite ?copy_sub_view, ?swap_sub_view by done; unfold decr_trit; cbn [fst snd];
    by rewrite (zip_flip (fun t x => trit_sub x t)).
Qed.

Definition copy_min_of (copy : trits_t -> trits_t -> trits_t -> list Z * list Z) (x s y : trits_t)
    : nat * list Z * list Z :=
  let n := Nat.min (trits_size x) (trits_size s) in
  let '(ms, my) := copy (trits_take x n) (trits_take s n) (trits_take y n) in
  (n, ms, my).
Definition swap_min_of (swap : trits_t -> trits_t -> list Z * list Z) (x s : trits_t)
    : nat * list Z * list Z :=
  let n := Nat.min (trits_size x) (trits_size s) in
  let '(mx, ms) := swap (trits_take x n) (trits_take s n) in
  (n, mx, ms).

Section Crypt.
Context (f : Z -> Z -> Z * Z) (copy : trits_t -> trits_t -> trits_t -> list Z * list Z)
  (swap : trits_t -> trits_t -> list Z * list Z).
Context (Hkeeps : keeps_trits f) (Hcrypts : crypts f copy swap).

Lemma length_zip_f (g : Z -> Z -> Z) ts (xs : list Z) : length ts = length xs ->
  length (zip_with g ts xs) = length xs.
Proof. intros. rewrite length_zip_with_r_eq; congruence. Qed.

(** In place. *)
Lemma crypt_loop_same fuel : forall s p xs q, spongos_ok s -> trits_ok xs -> (length xs <= fuel)%nat ->
  spongos_crypt_loop (copy_min_of copy) (swap_min_of swap) fuel s (view p xs q) None =
  let '(os, s') := spongos_map f s xs in (s', p ++ os ++ q).
Proof.
  induction fuel as [|fuel IH]; intros s p xs q Hs Hx Hf.
  - by destruct xs; [|cbn in Hf; lia].
  - cbn [spongos_crypt_loop]. change (default (view p xs q) None) with (view p xs q).
    rewrite empty_view. destruct (decide (xs = [])) as [->|Hne]; [done|].
    destruct (Nat.eqb_spec (length xs) 0); [by destruct xs|].
    destruct (spongos_turn s xs Hs Hne) as (x1 & x2 & a & ts & c1 & c2 & -> & H1 & H2 & Es & H3 & H4).
    destruct (spongos_map_turn _ s x1 x2 a ts c1 c2 Hkeeps Hs Hx Es H1 H2 H3) as [Hok ->].
    rewrite Es. rewrite (app_assoc ts), !outer_view by (rewrite length_app; lia).
    unfold crypt_min, swap_min_of. rewrite !size_view, H4, !take_view by done.
    rewrite (proj2 Hcrypts) by done. cbn [pos].
    rewrite (app_assoc _ x2 q), with_view by (by rewrite !length_app, length_zip_f).
    rewrite drop_view by (by apply length_zip_f).
    rewrite length_app in Hf. apply Forall_app in Hx as [_ Hx2].
    rewrite IH; [|exact Hok|done|destruct x1; [done|cbn in *; lia]].
    destruct (spongos_map _ _ x2) as [os s']. by rewrite <- !app_assoc.
Qed.

(** Into another view. *)
Lemma crypt_loop_into fuel : forall s p xs q p' ys q', spongos_ok s -> trits_ok xs ->
  length ys = length xs -> (length xs <= fuel)%nat ->
  spongos_crypt_loop (copy_min_of copy) (swap_min_of swap) fuel s (view p xs q) (Some (view p' ys q')) =
  let '(os, s') := spongos_map f s xs in (s', p' ++ os ++ q').
Proof.
  induction fuel as [|fuel IH]; intros s p xs q p' ys q' Hs Hx Hy Hf.
  - destruct xs; [|cbn in Hf; lia]. by destruct ys.
  - cbn [spongos_crypt_loop]. change (default (view p xs q) (Some (view p' ys q'))) with (view p' ys q').
    rewrite empty_view. destruct (decide (xs = [])) as [->|Hne]; [by destruct ys|].
    destruct (Nat.eqb_spec (length ys) 0); [by destruct xs, ys|].
    destruct (spongos_turn s xs Hs Hne) as (x1 & x2 & a & ts & c1 & c2 & -> & H1 & H2 & Es & H3 & H4).
    destruct (spongos_map_turn _ s x1 x2 a ts c1 c2 Hkeeps Hs Hx Es H1 H2 H3) as [Hok ->].
    rewrite Es. rewrite (app_assoc ts), !outer_view by (rewrite length_app; lia).
    rewrite length_app in Hy, Hf.
    assert (exists y1 y2, ys = y1 ++ y2 /\ length y1 = length x1 /\ length y2 = length x2) as (y1 & y2 & -> & Hy1 & Hy2).
    { exists (take (length x1) ys), (drop (length x1) ys). rewrite take_drop, length_take, length_drop. split; [done|lia]. }
    unfold crypt_min, copy_min_of. rewrite !size_view, H4, !take_view by done.
    rewrite (proj1 Hcrypts) by done. cbn [pos].
    rewrite (app_assoc _ y2 q'), with_view by (rewrite !length_app, length_zip_f; lia).
    rewrite !drop_view by (done || (by apply length_zip_f)).
    apply Forall_app in Hx as [_ Hx2].
    rewrite IH; [|exact Hok|done|done|destruct x1; [done|cbn in *; lia]].
    destruct (spongos_map _ _ x2) as [os s']. by rewrite <- !app_assoc.
Qed.
End Crypt.

(** ** The operations of the spongos on views *)
Lemma mam_spongos_absorb_view s p xs q : spongos_ok s -> trits_ok xs ->
  mam_spongos_absorb s (view p xs q) = (spongos_map absorb_trit s xs).2.
Proof. intros. unfold mam_spongos_absorb. rewrite size_view. by apply absorb_loop_spec. Qed.

Lemma mam_spongos_squeeze_view s p xs q : spongos_ok s -> trits_ok xs ->
  mam_spongos_squeeze s (view p xs q) = let '(os, s') := spongos_map squeeze_trit s xs in (s', p ++ os ++ q).
Proof. intros. unfold mam_spongos_squeeze. rewrite size_view. by apply squeeze_loop_spec. Qed.

Lemma mam_spongos_encr_same s p xs q : spongos_ok s -> trits_ok xs ->
  mam_spongos_encr s (view p xs q) None = let '(os, s') := spongos_map encr_trit s xs in (s', p ++ os ++ q).
Proof.
  intros. unfold mam_spongos_encr. rewrite size_view.
  by apply (crypt_loop_same encr_trit trits_copy_add trits_swap_add encr_keeps encr_crypts).
Qed.

Lemma mam_spongos_encr_into s p xs q p' ys q' : spongos_ok s -> trits_ok xs -> length ys = length xs ->
  mam_spongos_encr s (view p xs q) (Some (view p' ys q')) =
  let '(os, s') := spongos_map encr_trit s xs in (s', p' ++ os ++ q').
Proof.
  intros. unfold mam_spongos_encr. rewrite size_view.
  by apply (crypt_loop_into encr_trit trits_copy_add trits_swap_add encr_keeps encr_crypts).
Qed.

Lemma mam_spongos_decr_same s p xs q : spongos_ok s -> trits_ok xs ->
  mam_spongos_decr s (view p xs q) None = let '(os, s') := spongos_map decr_trit s xs in (s', p ++ os ++ q).
Proof.
  intros. unfold mam_spongos_decr. rewrite size_view.
  by apply (crypt_loop_same decr_trit trits_copy_sub trits_swap_sub decr_keeps decr_crypts).
Qed.

Lemma mam_spongos_decr_into s p xs q p' ys q' : spongos_ok s -> trits_ok xs -> length ys = length xs ->
  mam_spongos_decr s (view p xs q) (Some (view p' ys q')) =
  let '(os, s') := spongos_map decr_trit s xs in (s', p' ++ os ++ q').
Proof.
  intros. unfold mam_spongos_decr. rewrite size_view.
  by apply (crypt_loop_into decr_trit trits_copy_sub trits_swap_sub decr_keeps decr_crypts).
Qed.

(** Decryption undoes encryption, and leaves the spongos in the same state. *)
Lemma spongos_map_cons f s x xs : spongos_map f s (x :: xs) =
  (let r := spongos_step f s x in let r' := spongos_map f r.2 xs in (r.1 :: r'.1, r'.2)).
Proof. cbn [spongos_map]. destruct (spongos_step f s x) as [o s']. cbn. by destruct (spongos_map f s' xs). Qed.

Lemma decr_encr xs : trits_ok xs -> forall s, spongos_ok s ->
  spongos_map decr_trit s (spongos_map encr_trit s xs).1 = (xs, (spongos_map encr_trit s xs).2).
Proof.
  induction 1 as [|x xs Hx _ IH]; intros s Hs; [done|].
  destruct (spongos_step_ok encr_trit s x encr_keeps Hs Hx) as [_ Hok].
  rewrite (spongos_map_cons encr_trit). cbn [fst snd]. rewrite spongos_map_cons. cbv zeta.
  assert (spongos_step decr_trit s (spongos_step encr_trit s x).1 = (x, (spongos_step encr_trit s x).2)) as ->.
  { unfold spongos_step, encr_trit, decr_trit. cbn [fst snd].
    by rewrite trit_sub_add by (done || apply nth_trit, Hs). }
  cbn [fst snd]. by rewrite IH.
Qed.

Lemma squeeze_outputs xs : forall ys s, length ys = length xs ->
  spongos_map squeeze_trit s ys = spongos_map squeeze_trit s xs.
Proof.
  induction xs as [|x xs IH]; intros [|y ys] s Hl; try done. rewrite !spongos_map_cons. cbv zeta.
  change (spongos_step squeeze_trit s y) with (spongos_step squeeze_trit s x).
  by rewrite (IH ys) by (cbn in Hl; lia).
Qed.

Lemma squeeze_eq_loop_spec fuel : forall s r p xs q, spongos_ok s -> trits_ok xs -> (length xs <= fuel)%nat ->
  let '(os, s') := spongos_map squeeze_trit s xs in
  exists r', spongos_squeeze_eq_loop fuel s r (view p xs q) = (s', r') /\
    (r' = true <-> os = xs /\ r = true).
Proof.
  induction fuel as [|fuel IH]; intros s r p xs q Hs Hx Hf.
  - destruct xs; [|cbn in Hf; lia]. exists r. split; [done|]. by split; [|intros [_ ?]].
  - cbn [spongos_squeeze_eq_loop]. rewrite empty_view. destruct (decide (xs = [])) as [->|Hne].
    { exists r. split; [done|]. by split; [|intros [_ ?]]. }
    destruct (Nat.eqb_spec (length xs) 0); [by destruct xs|]. rewrite size_view.
    destruct (spongos_turn s xs Hs Hne) as (x1 & x2 & a & ts & c1 & c2 & -> & H1 & H2 & Es & H3 & H4).
    destruct (spongos_map_turn _ s x1 x2 a ts c1 c2 squeeze_keeps Hs Hx Es H1 H2 H3) as [Hok ->].
    rewrite Es. rewrite (app_assoc ts), !outer_view by (rewrite length_app; lia).
    assert (trits_take_min (view a (ts ++ c1) c2) (length (x1 ++ x2)) = view a ts (c1 ++ c2)) as ->.
    { rewrite <- (take_view a ts c1 c2 (length x1)) by done. unfold trits_take_min, trits_take, view.
      cbn [t_n t_d t_p]. f_equal. lia. }
    rewrite size_view, H2, !take_view by done.
    rewrite set_zero_view, drop_view by done. cbn [pos].
    unfold squeeze_trit in Hok |- *. cbn [fst snd] in Hok |- *.
    rewrite (zip_state (fun _ => 0)) in Hok |- * by done. rewrite (zip_state (fun t => t)), map_id by done.
    assert (map (fun _ => 0) ts = replicate (length ts) 0) as Ez.
    { clear. induction ts; cbn; [done|]. by f_equal. }
    rewrite Ez in Hok |- *. rewrite length_app in Hf. apply Forall_app in Hx as [_ Hx2].
    specialize (IH _ (trits_cmp_eq (view a ts (c1 ++ c2)) (view p x1 (x2 ++ q)) && r) (p ++ x1) x2 q Hok Hx2
      ltac:(destruct x1; [done|cbn in *; lia])).
    destruct (spongos_map _ _ x2) as [os s']. destruct IH as (r' & E & Hr). exists r'. split; [exact E|].
    rewrite Hr, andb_true_iff, cmp_eq_view. split.
    + by intros (-> & -> & ->).
    + intros [E' ->]. by apply app_inj_1 in E' as [-> ->].
Qed.

Lemma mam_spongos_squeeze_eq_view s p xs q : spongos_ok s -> trits_ok xs ->
  let '(os, s') := spongos_map squeeze_trit s xs in
  exists r, mam_spongos_squeeze_eq s (view p xs q) = (s', r) /\ (r = true <-> os = xs).
Proof.
  intros Hs Hx. unfold mam_spongos_squeeze_eq. rewrite size_view.
  pose proof (squeeze_eq_loop_spec (length xs) s true p xs q Hs Hx ltac:(done)) as H.
  destruct (spongos_map squeeze_trit s xs) as [os s']. destruct H as (r & -> & Hr). exists r.
  split; [done|]. rewrite Hr. by split; [intros [? _]|].
Qed.

Lemma mam_spongos_init_ok s : length (sponge s) = STATESIZE ->
  mam_spongos_init s = mk_spongos (replicate STATESIZE 0) 0 /\ spongos_ok (mam_spongos_init s).
Proof.
  intros Hl. assert (mam_spongos_init s = mk_spongos (replicate STATESIZE 0) 0) as E.
  { unfold mam_spongos_init, mam_sponge_init. f_equal.
    change (sponge_state_trits (sponge s)) with (trits_from_rep STATESIZE (sponge s)).
    assert (trits_from_rep STATESIZE (sponge s) = view [] (sponge s) []) as ->
      by (unfold trits_from_rep, view; cbn; by rewrite app_nil_r, Hl).
    rewrite set_zero_view, Hl. cbn [app]. by rewrite app_nil_r. }
  rewrite E. split; [done|]. split; cbn [sponge pos]; [apply length_replicate|unfold MAM_SPONGE_RATE; lia|].
  apply Forall_replicate. unfold is_trit. lia.
Qed.

(** What is squeezed does not depend on what is in the place it goes to. *)
Lemma squeeze_loop_any fuel : forall s p xs ys q, spongos_ok s -> length xs = length ys ->
  spongos_squeeze_loop fuel s (view p xs q) = spongos_squeeze_loop fuel s (view p ys q) \/ (fuel < length xs)%nat.
Proof.
  induction fuel as [|fuel IH]; intros s p xs ys q Hs Hl.
  - destruct xs; [left; by destruct ys|right; cbn; lia].
  - cbn [spongos_squeeze_loop]. rewrite !empty_view, <- Hl. destruct (decide (xs = [])) as [->|Hne];
      [left; by destruct ys|]. destruct (Nat.eqb_spec (length xs) 0); [by destruct xs|].
    destruct (spongos_turn s xs Hs Hne) as (x1 & x2 & a & ts & c1 & c2 & -> & H1 & H2 & Es & H3 & H4).
    rewrite <- (take_drop (length x1) ys). set (y1 := take (length x1) ys). set (y2 := drop (length x1) ys).
    rewrite length_app in Hl. assert (length y1 = length x1) as L1 by (unfold y1; rewrite length_take; lia).
    assert (length y2 = length x2) as L2 by (unfold y2; rewrite length_drop; lia).
    rewrite Es. rewrite (app_assoc ts), !outer_view by (rewrite length_app; lia).
    rewrite !(copy_min_views _ _ _ _ _ _ _ _ (length x1)) by (done || (rewrite ?length_app in *; lia)).
    rewrite take_view, set_zero_view by done.
    rewrite !(app_assoc ts _ q), !with_view by (rewrite !length_app; lia). rewrite !drop_view by done. cbn [pos].
    assert (spongos_ok (spongos_update (mk_spongos (a ++ replicate (length ts) 0 ++ c1 ++ c2) (length a)) (length x1))) as Hok.
    { destruct Hs as [Hls _ Hts]. rewrite Es in Hls, Hts. cbn [sponge] in Hls, Hts.
      apply spongos_update_ok; [|rewrite !Forall_app in *; destruct Hts as (? & ? & ? & ?); split_and!; try done|lia].
      - rewrite !length_app, length_replicate in *. lia.
      - apply Forall_replicate. unfold is_trit. lia. }
    destruct (IH _ (p ++ ts) x2 y2 q Hok (eq_sym L2)) as [E|E]; [left|right; rewrite length_app; destruct x1; [done|cbn; lia]].
    exact E.
Qed.

Lemma mam_spongos_squeeze_any s p xs q : spongos_ok s ->
  mam_spongos_squeeze s (view p xs q) =
  let '(os, s') := spongos_map squeeze_trit s (replicate (length xs) 0) in (s', p ++ os ++ q).
Proof.
  intros Hs. assert (trits_ok (replicate (length xs) 0)) as Hz by (apply Forall_replicate; unfold is_trit; lia).
  rewrite <- (mam_spongos_squeeze_view s p (replicate (length xs) 0) q Hs Hz).
  unfold mam_spongos_squeeze. rewrite !size_view, length_replicate.
  destruct (squeeze_loop_any (length xs) s p xs (replicate (length xs) 0) q Hs) as [E|E];
    [by rewrite length_replicate|exact E|lia].
Qed.

(** C29: what a spongos encrypts, a spongos in the same state decrypts, into another view or in
    place, and both are in the same state after; encryption in place gives the same
    ciphertext. *)
Theorem spongos_decr_encr (s : mam_spongos_t) (plaintext ciphertext : trits_t)
    (Hs : spongos_ok s) (Hp : valid plaintext) (Hc : valid ciphertext)
    (Hsize : trits_size ciphertext = trits_size plaintext) (Htrits : trits_ok (trits_get plaintext)) :
  let '(s', mem) := mam_spongos_encr s plaintext (Some ciphertext) in
  let ciphertext := with_p ciphertext mem in
  mam_spongos_decr s ciphertext (Some plaintext) = (s', t_p plaintext) /\
  mam_spongos_decr s ciphertext None = (s', trits_put ciphertext (trits_get plaintext)) /\
  mam_spongos_encr s plaintext None = (s', trits_put plaintext (trits_get ciphertext)).
Proof.
  rewrite (valid_view _ Hp), (valid_view _ Hc) in *. rewrite !get_view, !size_view in *.
  rewrite mam_spongos_encr_into, mam_spongos_encr_same by done.
  set (xs := trits_get plaintext) in *. pose proof (decr_encr xs Htrits s Hs) as E.
  pose proof (length_spongos_map encr_trit xs s) as Hl.
  destruct (spongos_map_ok encr_trit xs encr_keeps Htrits s Hs) as [Ho _].
  destruct (spongos_map encr_trit s xs) as [os s']. cbn [fst snd] in *. cbv zeta.
  rewrite with_view by congruence. rewrite get_view, !put_view by congruence.
  rewrite mam_spongos_decr_into, mam_spongos_decr_same by (done || congruence). by rewrite E.
Qed.

Lemma spongos_decr_encr_witness : exists s plaintext ciphertext,
  let '(s', mem) := mam_spongos_encr s plaintext (Some ciphertext) in
  let ciphertext := with_p ciphertext mem in
  mam_spongos_decr s ciphertext (Some plaintext) = (s', t_p plaintext) /\
  mam_spongos_decr s ciphertext None = (s', trits_put ciphertext (trits_get plaintext)) /\
  mam_spongos_encr s plaintext None = (s', trits_put plaintext (trits_get ciphertext)).
Proof.
  exists (mk_spongos (replicate STATESIZE (-1)) 7), (mk_trits 1000 0 (replicate 1000 1)),
    (mk_trits 1001 1 (replicate 1001 0)).
  apply (spongos_decr_encr (mk_spongos (replicate STATESIZE (-1)) 7) (mk_trits 1000 0 (replicate 1000 1))
    (mk_trits 1001 1 (replicate 1001 0))).
  - split; [apply length_replicate|apply Nat.ltb_lt; reflexivity|].
    apply Forall_replicate. unfold is_trit. lia.
  - unfold valid. cbn [t_n t_d t_p]. rewrite length_replicate. lia.
  - unfold valid. cbn [t_n t_d t_p]. rewrite length_replicate. lia.
  - reflexivity.
  - unfold trits_get, buf_read. cbn [t_n t_d t_p]. apply Forall_take, Forall_drop, Forall_replicate.
    unfold is_trit. lia.
Defined.

(** ** Absorption into a sponge *)
Lemma length_transform st : length (mam_sponge_transform st) = length st.
Proof. apply length_mam_ftroika_transform. Qed.

Lemma control012 s c0 c1 c2 : sponge_set_control012 s c0 c1 c2 = <[486%nat := c2]> s.
Proof.
  change (sponge_set_control012 s c0 c1 c2) with (<[486%nat := c2]> (<[486%nat := c1]> (<[486%nat := c0]> s))).
  by rewrite !list_insert_insert_eq.
Qed.

Lemma control345 s c3 c4 c5 : sponge_set_control345 s c3 c4 c5 = <[489%nat := c5]> s.
Proof.
  change (sponge_set_control345 s c3 c4 c5) with (<[489%nat := c5]> (<[489%nat := c4]> (<[489%nat := c3]> s))).
  by rewrite !list_insert_insert_eq.
Qed.

Lemma control1 s : sponge_get_control1 s = nth 487 s 0.
Proof. reflexivity. Qed.

(** The outer part after a block. *)
Definition pad_rate (block : list Z) : list Z :=
  block ++ match (MAM_SPONGE_RATE - length block)%nat with O => [] | S m => 1 :: replicate m 0 end.

Lemma length_pad_rate block : (length block <= MAM_SPONGE_RATE)%nat -> length (pad_rate block) = MAM_SPONGE_RATE.
Proof.
  intros H. unfold pad_rate. rewrite length_app. destruct (MAM_SPONGE_RATE - length block)%nat eqn:E; cbn [length].
  - lia.
  - rewrite length_replicate. lia.
Qed.

Lemma sponge_outer_view o c : length o = MAM_SPONGE_RATE -> mam_sponge_outer_trits (o ++ c) = view [] o c.
Proof.
  intros H. unfold mam_sponge_outer_trits, sponge_state_trits, trits_take, trits_from_rep, view.
  cbn [t_n t_d t_p app length]. by rewrite H.
Qed.

Lemma split_outer (s : mam_sponge_t) k : length s = STATESIZE -> (k <= MAM_SPONGE_RATE)%nat ->
  exists o1 o2, s = (o1 ++ o2) ++ drop MAM_SPONGE_RATE s /\ length o1 = k /\
    (length o1 + length o2 = MAM_SPONGE_RATE)%nat.
Proof.
  intros Hl Hk. exists (take k s), (take (MAM_SPONGE_RATE - k) (drop k s)).
  assert (MAM_SPONGE_RATE < STATESIZE)%nat by (apply Nat.ltb_lt; reflexivity).
  rewrite !length_take, length_drop, Hl. split; [|lia].
  rewrite <- app_assoc. rewrite <- (take_drop k s) at 1. f_equal.
  rewrite <- (take_drop (MAM_SPONGE_RATE - k) (drop k s)) at 1. rewrite drop_drop. do 2 f_equal. lia.
Qed.

(** The padding behind [k] trits of the outer part that are there already. *)
Lemma pad_outer (b o2 c : list Z) : (length b + length o2 = MAM_SPONGE_RATE)%nat ->
  trits_padc 1 (trits_drop (mam_sponge_outer_trits ((b ++ o2) ++ c)) (length b)) = pad_rate b ++ c.
Proof.
  intros H. rewrite sponge_outer_view by (by rewrite length_app). rewrite drop_view, padc_view by done.
  unfold pad_rate. replace (MAM_SPONGE_RATE - length b)%nat with (length o2) by lia. cbn [app].
  destruct o2 as [|o o2]; cbn [length app]; rewrite <- ?app_assoc; done.
Qed.

Lemma copy_outer p xs q s : length s = STATESIZE -> (length xs <= MAM_SPONGE_RATE)%nat ->
  exists o2, trits_copy (view p xs q) (trits_take (mam_sponge_outer_trits s) (length xs)) =
    (xs ++ o2) ++ drop MAM_SPONGE_RATE s /\ (length xs + length o2 = MAM_SPONGE_RATE)%nat.
Proof.
  intros Hl Hx. destruct (split_outer s (length xs) Hl Hx) as (o1 & o2 & E & H1 & H2).
  exists o2. split; [|lia]. rewrite E at 1. rewrite sponge_outer_view by (rewrite length_app; lia).
  rewrite take_view, copy_view by (done || congruence). cbn [app]. by rewrite app_assoc.
Qed.

(** Absorption of a list of trits. *)
Definition absorb_turn (s : mam_sponge_t) (c2 : Z) (block : list Z) : mam_sponge_t :=
  let s := if nth 487 s 0 =? 0 then s else mam_sponge_transform (<[489%nat := c2]> s) in
  <[486%nat := c2]> (pad_rate block ++ drop MAM_SPONGE_RATE s).

Fixpoint absorb_list (fuel : nat) (s : mam_sponge_t) (c2 : Z) (xs : list Z) : mam_sponge_t :=
  match fuel with
  | O => s
  | S fuel =>
      let s := absorb_turn s c2 (take MAM_SPONGE_RATE xs) in
      match drop MAM_SPONGE_RATE xs with [] => s | rest => absorb_list fuel s c2 rest end
  end.

Lemma length_absorb_turn s c2 block : length s = STATESIZE -> (length block <= MAM_SPONGE_RATE)%nat ->
  length (absorb_turn s c2 block) = STATESIZE.
Proof.
  intros Hl Hb. unfold absorb_turn. cbv zeta.
  rewrite length_insert, length_app, length_pad_rate, length_drop by done.
  assert (MAM_SPONGE_RATE <= STATESIZE)%nat by (apply Nat.leb_le; reflexivity).
  destruct (_ =? _); rewrite ?length_transform, ?length_insert, Hl; lia.
Qed.

Lemma take_min_view p xs q n : exists q',
  trits_take_min (view p xs q) n = view p (take n xs) q' /\
  trits_drop (view p xs q) (length (take n xs)) = view (p ++ take n xs) (drop n xs) q.
Proof.
  exists (drop n xs ++ q). split.
  - unfold trits_take_min, view. cbn [t_n t_d t_p]. rewrite (app_assoc (take n xs)), take_drop.
    f_equal. rewrite length_take. lia.
  - rewrite <- (drop_view p (take n xs) (drop n xs) q (length (take n xs))) by done. by rewrite take_drop.
Qed.

Lemma view_rest (p : list Z) xs q : trits_is_empty (view p xs q) = match xs with [] => true | _ => false end.
Proof. rewrite empty_view. by destruct xs. Qed.

Lemma sponge_absorb_loop_list fuel : forall s c2 p xs q, length s = STATESIZE ->
  sponge_absorb_loop fuel s c2 (view p xs q) = absorb_list fuel s c2 xs.
Proof.
  induction fuel as [|fuel IH]; intros s c2 p xs q Hl; cbn [sponge_absorb_loop absorb_list]; [done|].
  destruct (take_min_view p xs q MAM_SPONGE_RATE) as (q' & E1 & E2).
  rewrite E1, size_view, E2, view_rest. rewrite control345, control1. cbv zeta.
  set (block := take MAM_SPONGE_RATE xs).
  assert (length block <= MAM_SPONGE_RATE)%nat as Hb by (unfold block; rewrite length_take; lia).
  unfold absorb_turn.
  set (s1 := if negb (nth 487 s 0 =? 0) then mam_sponge_transform (<[489%nat := c2]> s) else s).
  assert (s1 = if nth 487 s 0 =? 0 then s else mam_sponge_transform (<[489%nat := c2]> s)) as Es
    by (unfold s1; by destruct (nth 487 s 0 =? 0)).
  assert (length s1 = STATESIZE) as Hl1
    by (rewrite Es; destruct (nth 487 s 0 =? 0); [exact Hl|by rewrite length_transform, length_insert]).
  cbv zeta. rewrite <- Es.
  destruct (copy_outer p block q' s1 Hl1 Hb) as (o2 & -> & Ho2).
  rewrite pad_outer, control012 by done.
  destruct (drop MAM_SPONGE_RATE xs) as [|r rest] eqn:Er; cbn [negb]; [done|].
  apply IH. rewrite length_insert, length_app, length_pad_rate, length_drop, Hl1 by done.
  assert (MAM_SPONGE_RATE <= STATESIZE)%nat by (apply Nat.leb_le; reflexivity). lia.
Qed.

Lemma sponge_absorbn_loop_list fuel : forall s c2 b, length s = STATESIZE -> buffers_valid b ->
  sponge_absorbn_loop fuel s c2 b (length (contents b)) = absorb_list fuel s c2 (contents b).
Proof.
  induction fuel as [|fuel IH]; intros s c2 b Hl Hb; cbn [sponge_absorbn_loop absorb_list]; [done|].
  cbv zeta. rewrite control345, control1.
  set (xs := contents b).
  assert ((if (length xs <? MAM_SPONGE_RATE)%nat then length xs else MAM_SPONGE_RATE) =
    length (take MAM_SPONGE_RATE xs)) as ->.
  { rewrite length_take. destruct (Nat.ltb_spec (length xs) MAM_SPONGE_RATE); lia. }
  set (block := take MAM_SPONGE_RATE xs).
  assert (length block <= MAM_SPONGE_RATE)%nat as Hbl by (unfold block; rewrite length_take; lia).
  unfold absorb_turn.
  set (s1 := if negb (nth 487 s 0 =? 0) then mam_sponge_transform (<[489%nat := c2]> s) else s).
  assert (s1 = if nth 487 s 0 =? 0 then s else mam_sponge_transform (<[489%nat := c2]> s)) as Es
    by (unfold s1; by destruct (nth 487 s 0 =? 0)).
  assert (length s1 = STATESIZE) as Hl1
    by (rewrite Es; destruct (nth 487 s 0 =? 0); [exact Hl|by rewrite length_transform, length_insert]).
  cbv zeta. rewrite <- Es. clearbody s1. clear Es.
  destruct (split_outer s1 (length block) Hl1 Hbl) as (o1 & o2 & E & H1 & H2).
  rewrite E. set (c := drop MAM_SPONGE_RATE s1) in *.
  rewrite sponge_outer_view by (by rewrite length_app). rewrite take_view by done.
  destruct (buffers_copy_to_spec b [] o1 (o2 ++ c) Hb) as (b' & -> & Hb' & Hc').
  { rewrite H1. unfold block, xs. rewrite length_take. lia. }
  assert (take (length o1) (contents b) = block) as Et.
  { rewrite H1. unfold block, xs. rewrite length_take. 
    destruct (Nat.le_gt_cases (length (contents b)) MAM_SPONGE_RATE).
    - rewrite Nat.min_r by lia. rewrite !take_ge by lia. done.
    - by rewrite Nat.min_l by lia. }
  rewrite Et. cbn [app]. rewrite app_assoc, pad_outer, control012 by lia.
  rewrite drop_app_length' by (rewrite length_app; lia).
  assert (contents b' = drop MAM_SPONGE_RATE xs) as Hrest.
  { rewrite Hc', H1. unfold block, xs. rewrite length_take.
    destruct (Nat.le_gt_cases (length (contents b)) MAM_SPONGE_RATE).
    - rewrite Nat.min_r by lia. rewrite !drop_ge by lia. done.
    - by rewrite Nat.min_l by lia. }
  assert (length xs - length block = length (contents b'))%nat as ->.
  { rewrite Hrest, length_drop. unfold block. rewrite length_take. lia. }
  rewrite <- Hrest. destruct (contents b') as [|r rest] eqn:Er; [done|].
  change (0 <? length (r :: rest))%nat with true. cbv iota. rewrite <- Er. apply IH; [|done].
  unfold c. rewrite length_insert, length_app, length_pad_rate, length_drop, Hl1 by done.
  assert (MAM_SPONGE_RATE <= STATESIZE)%nat by (apply Nat.leb_le; reflexivity). lia.
Qed.

(** Absorbing a list of views is absorbing their concatenation. *)
Theorem sponge_absorbn_concat (s : mam_sponge_t) (c2 : Z) (blocks : list trits_t) (data : trits_t)
    (Hs : length s = STATESIZE) (Hblocks : Forall valid blocks) (Hdata : valid data)
    (Hsame : trits_get data = concat (map trits_get blocks)) :
  mam_sponge_absorbn s c2 blocks = mam_sponge_absorb s c2 data.
Proof.
  unfold mam_sponge_absorbn, mam_sponge_absorb. cbv zeta.
  rewrite buffers_size_spec by done. rewrite <- (valid_length data Hdata), <- Hsame.
  rewrite (valid_view _ Hdata), get_view, sponge_absorb_loop_list by done.
  assert (contents (buffers_init blocks) = trits_get data) as E by done.
  rewrite <- E. apply sponge_absorbn_loop_list; [done|]. split; [unfold valid; cbn; lia|done].
Qed.

(** ** What is left of a message

    The last block: everything when there is one block only. *)
Definition last_block (xs : list Z) : list Z :=
  drop (MAM_SPONGE_RATE * ((length xs - 1) / MAM_SPONGE_RATE)) xs.

Lemma last_block_short xs : (length xs <= MAM_SPONGE_RATE)%nat -> last_block xs = xs.
Proof.
  intros H. unfold last_block. rewrite Nat.div_small; [by rewrite Nat.mul_0_r|].
  unfold MAM_SPONGE_RATE in *. lia.
Qed.

Lemma last_block_drop xs : (MAM_SPONGE_RATE < length xs)%nat ->
  last_block xs = last_block (drop MAM_SPONGE_RATE xs).
Proof.
  intros H. unfold last_block. rewrite length_drop, drop_drop. f_equal.
  replace (length xs - 1)%nat with (1 * MAM_SPONGE_RATE + (length xs - MAM_SPONGE_RATE - 1))%nat by lia.
  rewrite Nat.div_add_l by (unfold MAM_SPONGE_RATE; lia). lia.
Qed.

Lemma absorb_turn_zero s c2 block : nth 487 s 0 = 0 ->
  absorb_turn s c2 block = <[486%nat := c2]> (pad_rate block ++ drop MAM_SPONGE_RATE s).
Proof. intros H. unfold absorb_turn. by rewrite H. Qed.

(** A state whose second control trit is zero forgets its outer part at every block. *)
Lemma absorb_list_zero fuel : forall s c2 xs, length s = STATESIZE -> nth 487 s 0 = 0 ->
  (length xs < fuel)%nat ->
  absorb_list fuel s c2 xs = <[486%nat := c2]> (pad_rate (last_block xs) ++ drop MAM_SPONGE_RATE s).
Proof.
  induction fuel as [|fuel IH]; intros s c2 xs Hl H0 Hf; [lia|]. cbn [absorb_list].
  rewrite absorb_turn_zero by done.
  assert (length (take MAM_SPONGE_RATE xs) <= MAM_SPONGE_RATE)%nat as Hb by (rewrite length_take; lia).
  set (s' := <[486%nat := c2]> _).
  assert (length s' = STATESIZE) as Hl'.
  { unfold s'. rewrite length_insert, length_app, length_pad_rate, length_drop, Hl by done.
    assert (MAM_SPONGE_RATE <= STATESIZE)%nat by (apply Nat.leb_le; reflexivity). lia. }
  destruct (drop MAM_SPONGE_RATE xs) as [|r rest] eqn:Er.
  - assert (length xs <= MAM_SPONGE_RATE)%nat as Hshort.
    { apply (f_equal length) in Er. rewrite length_drop in Er. cbn in Er. lia. }
    unfold s'. by rewrite last_block_short, take_ge by done.
  - assert (MAM_SPONGE_RATE < length xs)%nat as Hlong.
    { apply (f_equal length) in Er. rewrite length_drop in Er. cbn in Er. lia. }
    rewrite <- Er, IH.
    + rewrite <- last_block_drop by done. unfold s'.
      assert (length (pad_rate (take MAM_SPONGE_RATE xs)) = MAM_SPONGE_RATE) as Hp by by apply length_pad_rate.
      rewrite (insert_app_r_alt (pad_rate (take MAM_SPONGE_RATE xs))) by (rewrite Hp; done). rewrite drop_app_length' by done. rewrite Hp.
      set (o := pad_rate (last_block xs)).
      assert (length o = MAM_SPONGE_RATE) as Ho.
      { apply length_pad_rate. unfold last_block. rewrite length_drop.
        pose proof (Nat.div_mod_eq (length xs - 1) MAM_SPONGE_RATE).
        pose proof (Nat.mod_upper_bound (length xs - 1) MAM_SPONGE_RATE). unfold MAM_SPONGE_RATE in *. lia. }
      rewrite !(insert_app_r_alt o) by (rewrite Ho; done). rewrite Ho.
      by rewrite list_insert_insert_eq.
    + done.
    + unfold s'. rewrite nth_insert_ne by lia. pose proof (length_pad_rate _ Hb) as Hp.
      rewrite app_nth2; rewrite Hp; [|unfold MAM_SPONGE_RATE; lia].
      rewrite nth_lookup, lookup_drop. replace (MAM_SPONGE_RATE + (487 - MAM_SPONGE_RATE))%nat with 487%nat
        by (unfold MAM_SPONGE_RATE; lia). by rewrite <- nth_lookup.
    + rewrite length_drop. unfold MAM_SPONGE_RATE in *. lia.
Qed.

Lemma mam_sponge_init_zero s : length s = STATESIZE -> mam_sponge_init s = replicate STATESIZE 0.
Proof.
  intros Hl. destruct (mam_spongos_init_ok (mk_spongos s 0) Hl) as [E _].
  by apply (f_equal sponge) in E.
Qed.

Lemma absorb_from_zero c2 x : valid x ->
  mam_sponge_absorb (replicate STATESIZE 0) c2 x =
  <[486%nat := c2]> (pad_rate (last_block (trits_get x)) ++ replicate (STATESIZE - MAM_SPONGE_RATE) 0).
Proof.
  intros Hx. unfold mam_sponge_absorb. rewrite <- (valid_length x Hx).
  rewrite (valid_view _ Hx), get_view, sponge_absorb_loop_list by apply length_replicate.
  rewrite absorb_list_zero; [by rewrite drop_replicate|apply length_replicate|apply nth_replicate_same|lia].
Qed.

(** A hash depends on the last block of the message only.  The control trits that should
    mark an absorbed block are all written to the first place, so that no block but the last
    is ever transformed. *)
Theorem mam_sponge_hash_last_block (s1 s2 : mam_sponge_t) (x y digest : trits_t)
    (H1 : length s1 = STATESIZE) (H2 : length s2 = STATESIZE) (Hx : valid x) (Hy : valid y)
    (Hlast : last_block (trits_get x) = last_block (trits_get y)) :
  mam_sponge_hash s1 x digest = mam_sponge_hash s2 y digest.
Proof.
  unfold mam_sponge_hash. cbv zeta. rewrite !mam_sponge_init_zero by done.
  by rewrite !absorb_from_zero, Hlast by done.
Qed.

(** Two messages that differ in each of their first 486 trits. *)
Lemma mam_sponge_hash_last_block_witness : exists s x y digest,
  nth 0 (t_p x) 0 <> nth 0 (t_p y) 0 /\ mam_sponge_hash s x digest = mam_sponge_hash s y digest.
Proof.
  exists (replicate STATESIZE 0), (trits_from_rep 500 (replicate 486 1 ++ replicate 14 (-1))),
    (trits_from_rep 500 (replicate 486 0 ++ replicate 14 (-1))), (trits_from_rep 243 (replicate 243 0)).
  split; [cbn; lia|].
  apply mam_sponge_hash_last_block; [apply length_replicate|apply length_replicate| | |vm_compute; reflexivity].
  - unfold valid. cbn [t_n t_d t_p trits_from_rep]. rewrite length_app, !length_replicate. lia.
  - unfold valid. cbn [t_n t_d t_p trits_from_rep]. rewrite length_app, !length_replicate. lia.
Defined.

(** ** [prng.c]

    A generator is its secret key. *)
Definition MAM_PRNG_SECRET_KEY_SIZE : nat := 243.
Definition MAM_PRNG_DST_SEC_KEY : Z := 0.
Definition MAM_PRNG_DST_WOTS_KEY : Z := 1.
Definition MAM_PRNG_DST_NTRU_KEY : Z := 2.

Definition mam_prng_init (prng : list Z) (secret_key : trits_t) : retcode_t * list Z :=
  if negb (trits_size secret_key =? MAM_PRNG_SECRET_KEY_SIZE)%nat then (RC_INVALID_PARAM, prng)
  else (RC_OK, buf_write 0 (buf_read (t_d secret_key) MAM_PRNG_SECRET_KEY_SIZE (t_p secret_key)) prng).

Definition mam_prng_reset (prng : list Z) : retcode_t * list Z :=
  (RC_OK, replicate MAM_PRNG_SECRET_KEY_SIZE 0).

(** [sponge] and [dest] are on the stack. *)
Definition mam_prng_gen5 (sponge : mam_sponge_t) (dest : list Z) (prng : list Z) (destination : Z)
    (nonce1 nonce2 nonce3 nonce4 nonce5 output : trits_t) : retcode_t * list Z :=
  let input0 := trits_from_rep MAM_PRNG_SECRET_KEY_SIZE prng in
  let input1 := trits_from_rep 3 dest in
  let input1 := with_p input1 (trits_put3 input1 destination) in
  let inputs := [input0; input1; nonce1; nonce2; nonce3; nonce4; nonce5] in
  let sponge := mam_sponge_init sponge in
  let sponge := mam_sponge_absorbn sponge MAM_SPONGE_CTL_KEY inputs in
  let '(_, output) := mam_sponge_squeeze sponge MAM_SPONGE_CTL_PRN output in
  (RC_OK, output).

Definition mam_prng_gen3 (sponge dest prng : list Z) (destination : Z) (nonce1 nonce2 nonce3 output : trits_t)
    : retcode_t * list Z :=
  mam_prng_gen5 sponge dest prng destination nonce1 nonce2 nonce3 trits_null trits_null output.

Definition mam_prng_gen2 (sponge dest prng : list Z) (destination : Z) (nonce1 nonce2 output : trits_t)
    : retcode_t * list Z :=
  mam_prng_gen5 sponge dest prng destination nonce1 nonce2 trits_null trits_null trits_null output.

Definition mam_prng_gen (sponge dest prng : list Z) (destination : Z) (nonce output : trits_t)
    : retcode_t * list Z :=
  mam_prng_gen5 sponge dest prng destination nonce trits_null trits_null trits_null trits_null output.

Lemma put3_rep dest t : length dest = 3%nat -> -13 <= t <= 13 ->
  length (trits_put3 (trits_from_rep 3 dest) t) = 3%nat.
Proof.
  intros Hd Ht. destruct (puts3 t Ht) as (ts & Hl & _ & _ & Hw).
  assert (trits_from_rep 3 dest = view [] (dest ++ []) []) as ->
    by (unfold trits_from_rep, view; cbn; by rewrite !app_nil_r, Hd).
  rewrite Hw by done. by rewrite !app_nil_r.
Qed.

(** With more than 240 trits of nonces what is generated does not depend on the secret key. *)
Theorem prng_forgets_key (sponge1 sponge2 dest key1 key2 : list Z) (destination : Z)
    (nonce1 nonce2 nonce3 nonce4 nonce5 output : trits_t)
    (H1 : length sponge1 = STATESIZE) (H2 : length sponge2 = STATESIZE) (Hd : length dest = 3%nat)
    (Hk1 : length key1 = MAM_PRNG_SECRET_KEY_SIZE) (Hk2 : length key2 = MAM_PRNG_SECRET_KEY_SIZE)
    (Hdst : 0 <= destination <= 2) (Hv : Forall valid [nonce1; nonce2; nonce3; nonce4; nonce5])
    (Hlong : (240 < length (concat (map trits_get [nonce1; nonce2; nonce3; nonce4; nonce5])))%nat) :
  mam_prng_gen5 sponge1 dest key1 destination nonce1 nonce2 nonce3 nonce4 nonce5 output =
  mam_prng_gen5 sponge2 dest key2 destination nonce1 nonce2 nonce3 nonce4 nonce5 output.
Proof.
  unfold mam_prng_gen5. cbv zeta. rewrite !mam_sponge_init_zero by done.
  set (nonces := [nonce1; nonce2; nonce3; nonce4; nonce5]) in *.
  set (d := with_p (trits_from_rep 3 dest) (trits_put3 (trits_from_rep 3 dest) destination)).
  assert (valid d) as Hdv.
  { unfold d, valid, with_p, trits_from_rep. cbn [t_n t_d t_p].
    change (mk_trits 3 0 dest) with (trits_from_rep 3 dest). rewrite put3_rep by (done || lia). lia. }
  assert (length (trits_get d) = 3%nat) as Hdl by (by rewrite valid_length).
  assert (forall key, length key = MAM_PRNG_SECRET_KEY_SIZE ->
    mam_sponge_absorbn (replicate STATESIZE 0) MAM_SPONGE_CTL_KEY
      (trits_from_rep MAM_PRNG_SECRET_KEY_SIZE key :: d :: nonces) =
    <[486%nat := MAM_SPONGE_CTL_KEY]>
      (pad_rate (last_block (drop MAM_SPONGE_RATE (key ++ trits_get d ++ concat (map trits_get nonces))))
        ++ replicate (STATESIZE - MAM_SPONGE_RATE) 0)) as E.
  { intros key Hk.
    assert (trits_from_rep MAM_PRNG_SECRET_KEY_SIZE key = view [] key []) as ->
      by (unfold trits_from_rep, view; cbn; by rewrite app_nil_r, Hk).
    set (data := key ++ trits_get d ++ concat (map trits_get nonces)).
    assert (MAM_SPONGE_RATE < length data)%nat as Hld.
    { unfold data. rewrite !length_app, Hk, Hdl. unfold MAM_SPONGE_RATE, MAM_PRNG_SECRET_KEY_SIZE. lia. }
    unfold mam_sponge_absorbn. cbv zeta.
    assert (Forall valid (view [] key [] :: d :: nonces)) as Hall
      by (constructor; [apply view_valid|by constructor]).
    rewrite buffers_size_spec by done. cbn [map concat]. rewrite get_view. fold data.
    assert (contents (buffers_init (view [] key [] :: d :: nonces)) = data) as Ec.
    { unfold contents, buffers_init. cbn [head_ tail_ map concat]. by rewrite get_view. }
    rewrite <- Ec at 1 2. rewrite sponge_absorbn_loop_list;
      [|apply length_replicate|split; [unfold valid; cbn; lia|done]].
    rewrite Ec, absorb_list_zero; [|apply length_replicate|apply nth_replicate_same|lia].
    by rewrite last_block_drop, drop_replicate by done. }
  change [trits_from_rep MAM_PRNG_SECRET_KEY_SIZE key1; d; nonce1; nonce2; nonce3; nonce4; nonce5]
    with (trits_from_rep MAM_PRNG_SECRET_KEY_SIZE key1 :: d :: nonces).
  change [trits_from_rep MAM_PRNG_SECRET_KEY_SIZE key2; d; nonce1; nonce2; nonce3; nonce4; nonce5]
    with (trits_from_rep MAM_PRNG_SECRET_KEY_SIZE key2 :: d :: nonces).
  assert (MAM_PRNG_SECRET_KEY_SIZE <= MAM_SPONGE_RATE)%nat as Hle by (apply Nat.leb_le; reflexivity).
  rewrite !E by done. rewrite (drop_app_ge key1), (drop_app_ge key2) by (rewrite ?Hk1, ?Hk2; done).
  by rewrite Hk1, Hk2.
Qed.

(** ** What is squeezed from a sponge

    It does not depend on what is in the place it goes to. *)
Definition sponge_trits (s : mam_sponge_t) : Prop := length s = STATESIZE /\ trits_ok s.

Lemma rate_le_state : (MAM_SPONGE_RATE <= STATESIZE)%nat.
Proof. apply Nat.leb_le. reflexivity. Qed.

Lemma transform_trits s : sponge_trits s -> sponge_trits (mam_sponge_transform s).
Proof. intros [Hl Ht]. destruct (mam_sponge_transform_ok s Hl Ht). by split. Qed.

Lemma insert_trits i c s : is_trit c -> sponge_trits s -> sponge_trits (<[i := c]> s).
Proof. intros Hc [Hl Ht]. split; [by rewrite length_insert|by apply Forall_insert]. Qed.

Lemma pad_rate_trits block s : trits_ok block -> (length block <= MAM_SPONGE_RATE)%nat -> sponge_trits s ->
  sponge_trits (pad_rate block ++ drop MAM_SPONGE_RATE s).
Proof.
  intros Hb Hl [Hls Hts]. split.
  - rewrite length_app, length_pad_rate, length_drop, Hls by done. pose proof rate_le_state. lia.
  - apply Forall_app. split; [|by apply Forall_drop]. unfold pad_rate. apply Forall_app. split; [done|].
    destruct (MAM_SPONGE_RATE - length block)%nat; [done|]. constructor; [unfold is_trit; lia|].
    apply Forall_replicate. unfold is_trit. lia.
Qed.

Lemma absorb_list_trits fuel : forall s c2 xs, is_trit c2 -> sponge_trits s -> trits_ok xs ->
  sponge_trits (absorb_list fuel s c2 xs).
Proof.
  induction fuel as [|fuel IH]; intros s c2 xs Hc Hs Hx; cbn [absorb_list]; [done|].
  assert (sponge_trits (absorb_turn s c2 (take MAM_SPONGE_RATE xs))) as Ha.
  { unfold absorb_turn. cbv zeta. apply insert_trits; [done|].
    apply pad_rate_trits; [by apply Forall_take|rewrite length_take; lia|].
    destruct (_ =? _); [done|]. by apply transform_trits, insert_trits. }
  destruct (drop MAM_SPONGE_RATE xs) as [|r rest] eqn:E; [done|]. apply IH; [done..|].
  rewrite <- E. by apply Forall_drop.
Qed.

Lemma squeeze_loop_trits fuel : forall n s c2, (n < fuel)%nat -> is_trit c2 -> sponge_trits s ->
  exists s' os, length os = n /\ trits_ok os /\ forall p ys q, length ys = n ->
    sponge_squeeze_loop fuel s c2 (view p ys q) = (s', p ++ os ++ q).
Proof.
  induction fuel as [|fuel IH]; intros n s c2 Hn Hc Hs; [lia|].
  set (k := Nat.min n MAM_SPONGE_RATE). set (s1 := mam_sponge_transform (<[489%nat := c2]> s)).
  assert (sponge_trits s1) as Hs1 by (by apply transform_trits, insert_trits).
  pose proof Hs1 as [Hl1 Ht1].
  destruct (split_outer s1 k Hl1 ltac:(unfold k; lia)) as (o1 & o2 & E & H1 & H2).
  set (c := drop MAM_SPONGE_RATE s1) in *. set (z := replicate k 0).
  assert (length z = k) as Hz by apply length_replicate.
  set (s2 := <[486%nat := c2]> (pad_rate z ++ c)).
  assert (sponge_trits s2) as Hs2.
  { apply insert_trits; [done|]. apply pad_rate_trits; [|unfold k in Hz; lia|done].
    apply Forall_replicate. unfold is_trit. lia. }
  assert (trits_ok o1) as Ho1 by (rewrite E in Ht1; apply Forall_app in Ht1 as [Ht1 _]; apply Forall_app in Ht1 as [Ht1 _]; exact Ht1).
  assert (forall p y1 y2 q, length y1 = k -> (length y1 + length y2 = n)%nat ->
    sponge_squeeze_loop (S fuel) s c2 (view p (y1 ++ y2) q) =
    match y2 with [] => (s2, p ++ o1 ++ y2 ++ q) | _ => sponge_squeeze_loop fuel s2 c2 (view (p ++ o1) y2 q) end) as Hturn.
  { intros p y1 y2 q Hy1 Hy2. cbn [sponge_squeeze_loop]. cbv zeta.
    assert (trits_take_min (view p (y1 ++ y2) q) MAM_SPONGE_RATE = view p y1 (y2 ++ q)) as ->.
    { unfold trits_take_min, view. cbn [t_n t_d t_p]. rewrite <- app_assoc, length_app. f_equal.
      unfold k in Hy1. lia. }
    rewrite size_view, drop_view, control345 by done. fold s1. rewrite E, sponge_outer_view by (rewrite length_app; lia).
    rewrite take_view, copy_view by congruence. cbn [app].
    rewrite (app_assoc p o1), with_view_at; [|rewrite !length_app; congruence|done].
    rewrite set_zero_view, H1. fold z. cbn [app].
    rewrite (app_assoc z), Hy1, <- Hz, pad_outer, control012 by lia. fold s2.
    rewrite !view_rest. by destruct y2 as [|y y2]. }
  destruct (decide (n <= MAM_SPONGE_RATE)%nat) as [Hsmall|Hbig].
  - exists s2, o1. split; [unfold k in H1; lia|]. split; [done|]. intros p ys q Hy.
    specialize (Hturn p ys [] q ltac:(unfold k; lia) ltac:(cbn; lia)). rewrite app_nil_r in Hturn. exact Hturn.
  - destruct (IH (n - k)%nat s2 c2 ltac:(unfold k, MAM_SPONGE_RATE in *; lia) Hc Hs2) as (s' & os & Hlo & Hto & Hos).
    exists s', (o1 ++ os). split; [rewrite length_app; unfold k in *; lia|]. split; [by apply Forall_app|].
    intros p ys q Hy. rewrite <- (take_drop k ys).
    rewrite Hturn by (rewrite ?length_drop, length_take; unfold k; lia).
    assert (length (drop k ys) = n - k)%nat as Hld by (rewrite length_drop; lia).
    destruct (drop k ys) eqn:Ed; [exfalso; cbn in Hld; unfold k in Hld; lia|]. rewrite <- Ed in *.
    rewrite Hos by done. by rewrite <- !app_assoc.
Qed.

Lemma mam_sponge_squeeze_trits n s c2 : is_trit c2 -> sponge_trits s ->
  exists s' os, length os = n /\ trits_ok os /\ forall p ys q, length ys = n ->
    mam_sponge_squeeze s c2 (view p ys q) = (s', p ++ os ++ q).
Proof.
  intros Hc Hs. destruct (squeeze_loop_trits (S n) n s c2 ltac:(lia) Hc Hs) as (s' & os & Hl & Ht & H).
  exists s', os. split_and!; [done..|]. intros p ys q Hy. unfold mam_sponge_squeeze. rewrite size_view, Hy. by apply H.
Qed.

(** What is generated is a function of the key, the destination and the nonces: neither the
    stack nor what is in the place of the output matters. *)
Lemma mam_prng_gen5_trits n prng destination nonces : length prng = MAM_PRNG_SECRET_KEY_SIZE -> trits_ok prng ->
  -13 <= destination <= 13 -> Forall valid nonces -> Forall (fun x => trits_ok (trits_get x)) nonces ->
  match nonces with
  | [n1; n2; n3; n4; n5] =>
      exists os, length os = n /\ trits_ok os /\ forall sponge dest p ys q, length sponge = STATESIZE ->
        length dest = 3%nat -> length ys = n ->
        mam_prng_gen5 sponge dest prng destination n1 n2 n3 n4 n5 (view p ys q) = (RC_OK, p ++ os ++ q)
  | _ => True
  end.
Proof.
  intros Hl Ht Hd Hv Hn. destruct nonces as [|n1 [|n2 [|n3 [|n4 [|n5 [|]]]]]]; try done.
  destruct (puts3 destination Hd) as (ts & Hts & Htso & _ & Hput).
  set (blocks := [view [] prng []; view [] ts []; n1; n2; n3; n4; n5]).
  assert (Forall valid blocks) as Hb by (constructor; [apply view_valid|constructor; [apply view_valid|exact Hv]]).
  set (s := mam_sponge_absorbn (replicate STATESIZE 0) MAM_SPONGE_CTL_KEY blocks).
  assert (sponge_trits (replicate STATESIZE 0)) as Hz.
  { split; [apply length_replicate|]. apply Forall_replicate. unfold is_trit. lia. }
  assert (contents (buffers_init blocks) = concat (map trits_get blocks)) as Ec by done.
  assert (sponge_trits s) as Hs.
  { unfold s, mam_sponge_absorbn. cbv zeta. rewrite buffers_size_spec by done. rewrite <- Ec at 1 2.
    rewrite sponge_absorbn_loop_list; [|apply length_replicate|split; [unfold valid; cbn; lia|done]].
    apply absorb_list_trits; [split; intro; discriminate|done|]. rewrite Ec. apply Forall_concat, List.Forall_map.
    unfold blocks. do 2 (constructor; [rewrite get_view; done|]). exact Hn. }
  destruct (mam_sponge_squeeze_trits n s MAM_SPONGE_CTL_PRN ltac:(split; intro; discriminate) Hs) as (s' & os & Hlo & Hto & Hos).
  exists os. split_and!; [done..|]. intros sponge dest p ys q Hsp Hdest Hy.
  unfold mam_prng_gen5. cbv zeta. rewrite mam_sponge_init_zero by done.
  assert (trits_from_rep MAM_PRNG_SECRET_KEY_SIZE prng = view [] prng []) as ->
    by (unfold trits_from_rep, view; cbn [app length]; by rewrite app_nil_r, Hl).
  assert (trits_from_rep 3 dest = view [] (dest ++ []) []) as ->
    by (unfold trits_from_rep, view; cbn [app length]; by rewrite !app_nil_r, Hdest).
  rewrite Hput by done. rewrite with_view by (rewrite !length_app; lia). cbn [app]. rewrite app_nil_r.
  fold blocks. fold s. by rewrite Hos.
Qed.
