(* ===== verification/Wots.v ===== *)
(** * Winternitz signatures of MAM

    [mam/wots/wots.c] and [wots.h], over the spongos and the generator of [MamSponge].  A
    signer is its private key; a [mam_spongos_t] on the stack is an argument, and so are the
    arrays there that are not initialised. *)
From S2P Require Import Prelude Errors Troika Ftroika MamTrits MamSponge.

Definition MAM_WOTS_PUBLIC_KEY_SIZE : nat := 243.
Definition MAM_WOTS_PRIVATE_KEY_PART_SIZE : nat := 162.
Definition MAM_WOTS_PRIVATE_KEY_PART_COUNT : nat := 81.
Definition MAM_WOTS_PRIVATE_KEY_SIZE : nat := MAM_WOTS_PRIVATE_KEY_PART_SIZE * MAM_WOTS_PRIVATE_KEY_PART_COUNT.
Definition MAM_WOTS_HASH_SIZE : nat := 234.
Definition MAM_WOTS_SIGNATURE_SIZE : nat := MAM_WOTS_PRIVATE_KEY_SIZE.

Inductive wots_hash_operation_t := WOTS_HASH_SIGN | WOTS_HASH_RECOVER.

(** [for (j = -13; j < h; ++j)], on the memory of [part]. *)
Definition hash_times (h : Z) (part : trits_t) (spongos : mam_spongos_t) (mem : list Z)
    : mam_spongos_t * list Z :=
  Nat.iter (Z.to_nat (h + 13))
    (fun '(spongos, mem) => mam_spongos_hash spongos (with_p part mem) (with_p part mem)) (spongos, mem).

(** One turn: the spongos, and the signature behind its first part. *)
Definition hash_part (spongos : mam_spongos_t) (signature : trits_t) (operation : wots_hash_operation_t) (h : Z)
    : mam_spongos_t * trits_t :=
  let signature_part := trits_take signature MAM_WOTS_PRIVATE_KEY_PART_SIZE in
  let signature := trits_drop signature MAM_WOTS_PRIVATE_KEY_PART_SIZE in
  let h := match operation with WOTS_HASH_SIGN => h | WOTS_HASH_RECOVER => - h end in
  let '(spongos, mem) := hash_times h signature_part spongos (t_p signature) in
  (spongos, with_p signature mem).

Fixpoint hash_loop (n i : nat) (spongos : mam_spongos_t) (hash signature : trits_t)
    (operation : wots_hash_operation_t) (t : Z) : mam_spongos_t * trits_t * Z :=
  match n with
  | O => (spongos, signature, t)
  | S n =>
      let h := trits_get3 (trits_drop hash (i * 3)) in
      let t := t + h in
      let '(spongos, signature) := hash_part spongos signature operation h in
      hash_loop n (S i) spongos hash signature operation t
  end.

Fixpoint checksum_loop (n : nat) (spongos : mam_spongos_t) (signature : trits_t)
    (operation : wots_hash_operation_t) (t : Z) : mam_spongos_t * trits_t :=
  match n with
  | O => (spongos, signature)
  | S n =>
      let h := MODS t 19683 27 in
      let t := DIVS t 19683 27 in
      let '(spongos, signature) := hash_part spongos signature operation h in
      checksum_loop n spongos signature operation t
  end.

(** The spongos, and the memory of the signature after. *)
Definition wots_hash_sign_or_recover (spongos : mam_spongos_t) (hash signature : trits_t)
    (operation : wots_hash_operation_t) : mam_spongos_t * list Z :=
  let '(spongos, signature, t) :=
    hash_loop (MAM_WOTS_PRIVATE_KEY_PART_COUNT - 3) 0 spongos hash signature operation 0 in
  let t := - t in
  let '(spongos, signature) := checksum_loop 3 spongos signature operation t in
  (spongos, t_p signature).

(** One part of the private key, hashed 26 times. *)
Definition gen_pk_part (wots : list Z) (i : nat) (spongos spongos_part : mam_spongos_t)
    : mam_spongos_t * mam_spongos_t :=
  let private_key_part := buf_read (MAM_WOTS_PRIVATE_KEY_PART_SIZE * i) MAM_WOTS_PRIVATE_KEY_PART_SIZE wots in
  let '(spongos, private_key_part) :=
    Nat.iter 26 (fun '(spongos, part) =>
      mam_spongos_hash spongos (trits_from_rep MAM_WOTS_PRIVATE_KEY_PART_SIZE part)
        (trits_from_rep MAM_WOTS_PRIVATE_KEY_PART_SIZE part)) (spongos, private_key_part) in
  (spongos, mam_spongos_absorb spongos_part (trits_from_rep MAM_WOTS_PRIVATE_KEY_PART_SIZE private_key_part)).

Definition mam_wots_gen_pk (spongos spongos_part : mam_spongos_t) (wots : list Z) (public_key : trits_t)
    : retcode_t * list Z :=
  if negb (trits_size public_key =? MAM_WOTS_PUBLIC_KEY_SIZE)%nat then (RC_INVALID_PARAM, t_p public_key) else
  let spongos_part := mam_spongos_init spongos_part in
  let '(_, spongos_part) :=
    foldl (fun '(spongos, spongos_part) i => gen_pk_part wots i spongos spongos_part) (spongos, spongos_part)
      (seq 0 MAM_WOTS_PRIVATE_KEY_PART_COUNT) in
  let spongos_part := mam_spongos_commit spongos_part in
  (RC_OK, (mam_spongos_squeeze spongos_part public_key).2).

Definition mam_wots_sign (spongos : mam_spongos_t) (wots : list Z) (hash signature : trits_t)
    : retcode_t * list Z :=
  if negb (trits_size hash =? MAM_WOTS_HASH_SIZE)%nat || negb (trits_size signature =? MAM_WOTS_SIGNATURE_SIZE)%nat
  then (RC_INVALID_PARAM, t_p signature) else
  let signature := with_p signature
    (buf_write (t_d signature) (take MAM_WOTS_PRIVATE_KEY_SIZE wots) (t_p signature)) in
  (RC_OK, (wots_hash_sign_or_recover spongos hash signature WOTS_HASH_SIGN).2).

Definition mam_wots_recover (spongos : mam_spongos_t) (hash signature public_key : trits_t)
    : retcode_t * list Z :=
  if negb (trits_size hash =? MAM_WOTS_HASH_SIZE)%nat || negb (trits_size signature =? MAM_WOTS_SIGNATURE_SIZE)%nat
     || negb (trits_size public_key =? MAM_WOTS_PUBLIC_KEY_SIZE)%nat
  then (RC_INVALID_PARAM, t_p public_key) else
  let sig_pks := buf_read (t_d signature) MAM_WOTS_SIGNATURE_SIZE (t_p signature) in
  let '(spongos, sig_pks) :=
    wots_hash_sign_or_recover spongos hash (trits_from_rep MAM_WOTS_PRIVATE_KEY_SIZE sig_pks)
      WOTS_HASH_RECOVER in
  let '(_, public_key) := mam_spongos_hash spongos (trits_from_rep MAM_WOTS_PRIVATE_KEY_SIZE sig_pks) public_key in
  (RC_OK, public_key).

Definition mam_wots_reset (wots : list Z) : retcode_t * list Z := (RC_OK, replicate MAM_WOTS_PRIVATE_KEY_SIZE 0).

Definition mam_wots_gen_sk5 (sponge dest : list Z) (wots prng : list Z)
    (nonce1 nonce2 nonce3 nonce4 nonce5 : trits_t) : retcode_t * list Z :=
  mam_prng_gen5 sponge dest prng MAM_PRNG_DST_WOTS_KEY nonce1 nonce2 nonce3 nonce4 nonce5
    (trits_from_rep MAM_WOTS_PRIVATE_KEY_SIZE wots).

Definition mam_wots_gen_sk (sponge dest wots prng : list Z) (nonce : trits_t) : retcode_t * list Z :=
  mam_wots_gen_sk5 sponge dest wots prng nonce trits_null trits_null trits_null trits_null.

#[local] Opaque mam_sponge_transform.

(** ** The hash of a view *)
Definition zero_spongos : mam_spongos_t := mk_spongos (replicate STATESIZE 0) 0.

(** [n] trits of hash. *)
Definition digest (n : nat) (xs : list Z) : list Z :=
  (spongos_map squeeze_trit (mam_spongos_commit (spongos_map absorb_trit zero_spongos xs).2) (replicate n 0)).1.

Lemma zero_spongos_ok : spongos_ok zero_spongos.
Proof.
  split; cbn [sponge pos zero_spongos]; [apply length_replicate|apply Nat.ltb_lt; reflexivity|].
  apply Forall_replicate. unfold is_trit. lia.
Qed.

Lemma commit_ok s : spongos_ok s -> spongos_ok (mam_spongos_commit s).
Proof. intros [Hl Hp Ht]. destruct s as [st p]. apply mam_spongos_commit_ok; done. Qed.

Lemma init_zero s : length (sponge s) = STATESIZE -> mam_spongos_init s = zero_spongos.
Proof. intros H. by destruct (mam_spongos_init_ok s H). Qed.

Lemma zeros_ok n : trits_ok (replicate n 0).
Proof. apply Forall_replicate. unfold is_trit. lia. Qed.

Lemma hash_view sp p xs q p' ys q' : length (sponge sp) = STATESIZE -> trits_ok xs ->
  exists sp', mam_spongos_hash sp (view p xs q) (view p' ys q') = (sp', p' ++ digest (length ys) xs ++ q') /\
    length (sponge sp') = STATESIZE.
Proof.
  intros Hl Hx. unfold mam_spongos_hash. cbv zeta. rewrite init_zero by done.
  rewrite mam_spongos_absorb_view by (apply zero_spongos_ok || done).
  destruct (spongos_map_ok absorb_trit xs absorb_keeps Hx _ zero_spongos_ok) as [_ Hok].
  apply commit_ok in Hok. rewrite mam_spongos_squeeze_any by done.
  destruct (spongos_map_ok squeeze_trit _ squeeze_keeps (zeros_ok (length ys)) _ Hok) as [_ Hok'].
  unfold digest. destruct (spongos_map squeeze_trit _ (replicate (length ys) 0)) as [os s']. cbn [fst snd] in *.
  exists s'. split; [done|apply Hok'].
Qed.

Lemma length_digest n xs : length (digest n xs) = n.
Proof. unfold digest. by rewrite length_spongos_map, length_replicate. Qed.

Lemma digest_ok n xs : trits_ok xs -> trits_ok (digest n xs).
Proof.
  intros Hx. apply spongos_map_ok; [apply squeeze_keeps|apply zeros_ok|].
  apply commit_ok, spongos_map_ok; [apply absorb_keeps|done|apply zero_spongos_ok].
Qed.

(** ** Hash chains *)
Definition chain (k : nat) (xs : list Z) : list Z := Nat.iter k (fun xs => digest (length xs) xs) xs.

Lemma length_chain k xs : length (chain k xs) = length xs.
Proof. unfold chain. induction k as [|k IH]; [done|]. rewrite Nat.iter_succ. by rewrite length_digest. Qed.

Lemma chain_ok k xs : trits_ok xs -> trits_ok (chain k xs).
Proof. intros. unfold chain. induction k as [|k IH]; [done|]. rewrite Nat.iter_succ. by apply digest_ok. Qed.

Lemma chain_chain k l xs : chain k (chain l xs) = chain (k + l) xs.
Proof. unfold chain. by rewrite Nat.iter_add. Qed.

Lemma iter_hash k : forall sp p xs q, length (sponge sp) = STATESIZE -> trits_ok xs ->
  exists sp', Nat.iter k (fun '(sp, mem) => mam_spongos_hash sp (with_p (view p xs q) mem) (with_p (view p xs q) mem))
      (sp, p ++ xs ++ q) = (sp', p ++ chain k xs ++ q) /\ length (sponge sp') = STATESIZE.
Proof.
  induction k as [|k IH]; intros sp p xs q Hl Hx; [by exists sp|]. rewrite Nat.iter_succ.
  destruct (IH sp p xs q Hl Hx) as (sp1 & E & Hl1). rewrite E.
  rewrite with_view by apply length_chain.
  destruct (hash_view sp1 p (chain k xs) q p (chain k xs) q Hl1 (chain_ok k xs Hx))
    as (sp2 & -> & Hl2). by exists sp2.
Qed.

(** The number of hashes for the digit [h]. *)
Definition steps (operation : wots_hash_operation_t) (h : Z) : nat :=
  Z.to_nat (match operation with WOTS_HASH_SIGN => h | WOTS_HASH_RECOVER => - h end + 13).

Lemma hash_part_view sp p xs rest q operation h : length (sponge sp) = STATESIZE -> trits_ok xs ->
  length xs = MAM_WOTS_PRIVATE_KEY_PART_SIZE ->
  exists sp', hash_part sp (view p (xs ++ rest) q) operation h =
      (sp', view (p ++ chain (steps operation h) xs) rest q) /\ length (sponge sp') = STATESIZE.
Proof.
  intros Hl Hx Hlen. unfold hash_part, hash_times. rewrite take_view, drop_view by done.
  destruct (iter_hash (steps operation h) sp p xs (rest ++ q) Hl Hx) as (sp' & E & Hl').
  exists sp'. rewrite mem_view, <- app_assoc. unfold steps in E. rewrite E. split; [|done].
  rewrite app_assoc, with_view_at; [done| |done]. by rewrite !length_app, length_chain.
Qed.

Definition parts_ok (parts : list (list Z)) : Prop :=
  Forall (fun part => length part = MAM_WOTS_PRIVATE_KEY_PART_SIZE /\ trits_ok part) parts.

Definition chains (operation : wots_hash_operation_t) (hs : list Z) (parts : list (list Z)) : list (list Z) :=
  zip_with (fun h part => chain (steps operation h) part) hs parts.

(** The digits of a hash: its trytes, from [i] on. *)
Definition hash_digits (hash : trits_t) (i n : nat) : list Z :=
  map (fun j => trits_get3 (trits_drop hash (j * 3))) (seq i n).

Lemma hash_loop_view n : forall i sp hash p parts rest q operation t, length (sponge sp) = STATESIZE ->
  parts_ok parts -> length parts = n ->
  exists sp', hash_loop n i sp hash (view p (concat parts ++ rest) q) operation t =
    (sp', view (p ++ concat (chains operation (hash_digits hash i n) parts)) rest q,
     t + zsum (hash_digits hash i n)) /\ length (sponge sp') = STATESIZE.
Proof.
  induction n as [|n IH]; intros i sp hash p parts rest q operation t Hl Hp Hn.
  - destruct parts; [|done]. exists sp. cbn. rewrite app_nil_r, Z.add_0_r. done.
  - destruct parts as [|part parts]; [done|]. apply Forall_cons_iff in Hp as [[Hlen Hok] Hp].
    cbn [hash_loop concat]. rewrite <- app_assoc. cbv zeta.
    set (h := trits_get3 (trits_drop hash (i * 3))).
    destruct (hash_part_view sp p part (concat parts ++ rest) q operation h Hl Hok Hlen) as (sp1 & -> & Hl1).
    destruct (IH (S i) sp1 hash (p ++ chain (steps operation h) part) parts rest q operation (t + h) Hl1 Hp)
      as (sp2 & -> & Hl2); [cbn in Hn; lia|].
    exists sp2. split; [|done]. unfold hash_digits. cbn [seq map zsum foldr chains zip_with concat].
    fold h. rewrite <- app_assoc. unfold chains, zsum. f_equal. lia.
Qed.

Fixpoint checksum_digits (n : nat) (t : Z) : list Z :=
  match n with
  | O => []
  | S n => MODS t 19683 27 :: checksum_digits n (DIVS t 19683 27)
  end.

Lemma checksum_loop_view n : forall sp p parts rest q operation t, length (sponge sp) = STATESIZE ->
  parts_ok parts -> length parts = n ->
  exists sp', checksum_loop n sp (view p (concat parts ++ rest) q) operation t =
    (sp', view (p ++ concat (chains operation (checksum_digits n t) parts)) rest q) /\
    length (sponge sp') = STATESIZE.
Proof.
  induction n as [|n IH]; intros sp p parts rest q operation t Hl Hp Hn.
  - destruct parts; [|done]. exists sp. cbn. by rewrite app_nil_r.
  - destruct parts as [|part parts]; [done|]. apply Forall_cons_iff in Hp as [[Hlen Hok] Hp].
    cbn [checksum_loop concat]. rewrite <- app_assoc. cbv zeta.
    set (h := MODS t 19683 27).
    destruct (hash_part_view sp p part (concat parts ++ rest) q operation h Hl Hok Hlen) as (sp1 & -> & Hl1).
    destruct (IH sp1 (p ++ chain (steps operation h) part) parts rest q operation (DIVS t 19683 27) Hl1 Hp)
      as (sp2 & -> & Hl2); [cbn in Hn; lia|].
    exists sp2. split; [|done]. cbn [checksum_digits chains zip_with concat]. fold h. by rewrite <- app_assoc.
Qed.

(** All digits of a hash, with those of the checksum. *)
Definition wots_digits (hash : trits_t) : list Z :=
  let hs := hash_digits hash 0 (MAM_WOTS_PRIVATE_KEY_PART_COUNT - 3) in
  hs ++ checksum_digits 3 (- zsum hs).

Lemma sign_or_recover_view sp hash p parts q operation : length (sponge sp) = STATESIZE ->
  parts_ok parts -> length parts = MAM_WOTS_PRIVATE_KEY_PART_COUNT ->
  exists sp', wots_hash_sign_or_recover sp hash (view p (concat parts) q) operation =
    (sp', p ++ concat (chains operation (wots_digits hash) parts) ++ q) /\ length (sponge sp') = STATESIZE.
Proof.
  intros Hl Hp Hn. unfold wots_hash_sign_or_recover, wots_digits.
  set (hs := hash_digits hash 0 _). set (n := (MAM_WOTS_PRIVATE_KEY_PART_COUNT - 3)%nat) in *.
  rewrite <- (take_drop n parts) in Hp |- *. apply Forall_app in Hp as [Hp1 Hp2].
  set (l1 := take n parts) in *. set (l2 := drop n parts) in *.
  assert (length l1 = n) as L1 by (unfold l1; rewrite length_take, Hn; reflexivity).
  assert (length l2 = 3%nat) as L2 by (unfold l2; rewrite length_drop, Hn; reflexivity).
  rewrite concat_app.
  destruct (hash_loop_view n 0 sp hash p l1 (concat l2) q operation 0 Hl Hp1 L1) as (sp1 & -> & Hl1).
  rewrite Z.add_0_l. cbv zeta. fold hs.
  destruct (checksum_loop_view 3 sp1 (p ++ concat (chains operation hs l1)) l2 [] q operation (- zsum hs) Hl1 Hp2 L2)
    as (sp2 & E & Hl2). rewrite app_nil_r in E. rewrite E. exists sp2. split; [|done].
  rewrite mem_view. cbn [app]. unfold chains. rewrite zip_with_app by (unfold hs, hash_digits; by rewrite length_map, length_seq, L1).
  by rewrite concat_app, <- !app_assoc.
Qed.

(** ** Keys *)
Definition part_of (wots : list Z) (i : nat) : list Z :=
  buf_read (MAM_WOTS_PRIVATE_KEY_PART_SIZE * i) MAM_WOTS_PRIVATE_KEY_PART_SIZE wots.
Definition parts_of (wots : list Z) : list (list Z) :=
  map (part_of wots) (seq 0 MAM_WOTS_PRIVATE_KEY_PART_COUNT).

Lemma concat_reads n k (l : list Z) : (n * k <= length l)%nat ->
  concat (map (fun i => buf_read (n * i) n l) (seq 0 k)) = take (n * k) l.
Proof.
  induction k as [|k IH]; intros Hl; [by rewrite Nat.mul_0_r|].
  rewrite seq_S, map_app, concat_app, IH by lia. cbn [map concat]. rewrite app_nil_r.
  unfold buf_read. rewrite Nat.mul_succ_r. rewrite <- (take_drop (n * k) (take (n * k + n) l)).
  rewrite take_take, Nat.min_l by lia. f_equal. rewrite skipn_firstn_comm. f_equal. lia.
Qed.

Lemma parts_of_spec wots : length wots = MAM_WOTS_PRIVATE_KEY_SIZE -> trits_ok wots ->
  concat (parts_of wots) = wots /\ parts_ok (parts_of wots) /\
  length (parts_of wots) = MAM_WOTS_PRIVATE_KEY_PART_COUNT.
Proof.
  intros Hl Ht. split; [|split].
  - unfold parts_of, part_of. rewrite concat_reads; [|rewrite Hl; done].
    apply take_ge. rewrite Hl. done.
  - unfold parts_ok, parts_of. apply List.Forall_map, List.Forall_forall. intros i Hi%in_seq. split.
    + apply length_buf_read. rewrite Hl. unfold MAM_WOTS_PRIVATE_KEY_SIZE.
      assert (i + 1 <= MAM_WOTS_PRIVATE_KEY_PART_COUNT)%nat by lia. nia.
    + unfold part_of, buf_read. by apply Forall_take, Forall_drop.
  - unfold parts_of. by rewrite length_map, length_seq.
Qed.

Lemma rep_view (xs : list Z) n : length xs = n -> trits_from_rep n xs = view [] xs [].
Proof. intros <-. unfold trits_from_rep, view. cbn. by rewrite app_nil_r. Qed.

Lemma iter_hash_rep k n : forall sp xs, length (sponge sp) = STATESIZE -> trits_ok xs -> length xs = n ->
  exists sp', Nat.iter k (fun '(sp, part) => mam_spongos_hash sp (trits_from_rep n part) (trits_from_rep n part))
      (sp, xs) = (sp', chain k xs) /\ length (sponge sp') = STATESIZE.
Proof.
  induction k as [|k IH]; intros sp xs Hl Hx Hn; [by exists sp|]. rewrite Nat.iter_succ.
  destruct (IH sp xs Hl Hx Hn) as (sp1 & -> & Hl1).
  rewrite rep_view by (by rewrite length_chain).
  destruct (hash_view sp1 [] (chain k xs) [] [] (chain k xs) [] Hl1 (chain_ok k xs Hx))
    as (sp2 & -> & Hl2). exists sp2. cbn [app]. by rewrite app_nil_r.
Qed.

Lemma gen_pk_loop wots idxs : length wots = MAM_WOTS_PRIVATE_KEY_SIZE -> trits_ok wots ->
  Forall (fun i => i < MAM_WOTS_PRIVATE_KEY_PART_COUNT)%nat idxs -> forall sp spp,
  length (sponge sp) = STATESIZE -> spongos_ok spp ->
  exists sp', foldl (fun '(spongos, spongos_part) i => gen_pk_part wots i spongos spongos_part) (sp, spp) idxs =
    (sp', (spongos_map absorb_trit spp (concat (map (fun i => chain 26 (part_of wots i)) idxs))).2).
Proof.
  intros Hw Ht Hidx. induction Hidx as [|i idxs Hi _ IH]; intros sp spp Hl Hs; [by exists sp|].
  cbn [foldl map concat].
  assert (length (part_of wots i) = MAM_WOTS_PRIVATE_KEY_PART_SIZE) as Hlen.
  { apply length_buf_read. rewrite Hw. unfold MAM_WOTS_PRIVATE_KEY_SIZE. nia. }
  assert (trits_ok (part_of wots i)) as Hok by (by apply Forall_take, Forall_drop).
  pose proof (chain_ok 26 _ Hok) as Hcok.
  destruct (iter_hash_rep 26 _ sp (part_of wots i) Hl Hok Hlen) as (sp1 & E & Hl1).
  assert (gen_pk_part wots i sp spp =
    (sp1, (spongos_map absorb_trit spp (chain 26 (part_of wots i))).2)) as ->.
  { unfold gen_pk_part. fold (part_of wots i). rewrite E.
    rewrite rep_view by (by rewrite length_chain). by rewrite mam_spongos_absorb_view. }
  destruct (spongos_map_ok absorb_trit _ absorb_keeps Hcok spp Hs) as [_ Hs'].
  destruct (IH sp1 _ Hl1 Hs') as (sp2 & ->). exists sp2. rewrite spongos_map_app.
  destruct (spongos_map absorb_trit spp _) as [os s']. cbn [snd].
  by destruct (spongos_map absorb_trit s' _).
Qed.

Lemma gen_pk_view sp spp wots pre cs post : length (sponge sp) = STATESIZE -> length (sponge spp) = STATESIZE ->
  length wots = MAM_WOTS_PRIVATE_KEY_SIZE -> trits_ok wots -> length cs = MAM_WOTS_PUBLIC_KEY_SIZE ->
  mam_wots_gen_pk sp spp wots (view pre cs post) =
  (RC_OK, pre ++ digest MAM_WOTS_PUBLIC_KEY_SIZE (concat (map (chain 26) (parts_of wots))) ++ post).
Proof.
  intros Hl Hlp Hw Ht Hcs. unfold mam_wots_gen_pk. rewrite size_view, Hcs, Nat.eqb_refl. cbn [negb]. cbv zeta.
  rewrite init_zero by done.
  destruct (gen_pk_loop wots (seq 0 MAM_WOTS_PRIVATE_KEY_PART_COUNT) Hw Ht
    ltac:(apply List.Forall_forall; intros i Hi%in_seq; lia) sp zero_spongos Hl zero_spongos_ok) as (sp' & ->).
  unfold parts_of. rewrite map_map. set (xs := concat (map _ _)).
  assert (trits_ok xs) as Hx.
  { unfold xs. apply Forall_concat, List.Forall_map, List.Forall_forall. intros i _.
    by apply chain_ok, Forall_take, Forall_drop. }
  destruct (spongos_map_ok absorb_trit xs absorb_keeps Hx _ zero_spongos_ok) as [_ Hok].
  rewrite mam_spongos_squeeze_any by (by apply commit_ok). rewrite Hcs.
  unfold digest. by destruct (spongos_map squeeze_trit _ _).
Qed.

(** ** Signatures *)
Lemma checksum_digits_spec t : -9841 <= t <= 9841 ->
  exists a b c, checksum_digits 3 t = [a; b; c] /\ -13 <= a <= 13 /\ -13 <= b <= 13 /\ -13 <= c <= 13 /\
    t = a + 27 * b + 729 * c.
Proof.
  intros Ht. cbn [checksum_digits].
  assert (forall u, -9841 <= u <= 9841 -> u = MODS u 19683 27 + 27 * DIVS u 19683 27 /\
    -13 <= MODS u 19683 27 <= 13 /\ -364 <= DIVS u 19683 27 <= 364) as H.
  { intros u Hu. apply (MODS_DIVS u 13 364); [lia|lia|].
    change (Z.quot ((2 * 364 + 1) * (2 * 13 + 1) - 1) 2) with 9841. lia. }
  set (u := DIVS t 19683 27). set (v := DIVS u 19683 27).
  destruct (H t Ht) as (E1 & R1 & Q1). fold u in E1, Q1.
  destruct (H u ltac:(lia)) as (E2 & R2 & Q2). fold v in E2, Q2.
  destruct (H v ltac:(lia)) as (E3 & R3 & Q3).
  do 3 eexists. split; [reflexivity|]. lia.
Qed.

Lemma zsum_range hs : Forall (fun h => -13 <= h <= 13) hs ->
  - 13 * Z.of_nat (length hs) <= zsum hs <= 13 * Z.of_nat (length hs).
Proof. unfold zsum. induction 1; cbn [foldr length]; lia. Qed.

Section Digits.
Context (hash : trits_t) (Hv : valid hash) (Hs : trits_size hash = MAM_WOTS_HASH_SIZE)
  (Ht : trits_ok (trits_get hash)).

Lemma hash_digit j : (j < 78)%nat ->
  trits_get3 (trits_drop hash (j * 3)) = bal (buf_read (j * 3) 3 (trits_get hash)) /\
  -13 <= trits_get3 (trits_drop hash (j * 3)) <= 13.
Proof.
  intros Hj. rewrite (valid_view _ Hv), get_view.
  pose proof (valid_length hash Hv) as Hl. rewrite Hs in Hl. unfold MAM_WOTS_HASH_SIZE in Hl.
  set (cs := trits_get hash) in *.
  assert (length (buf_read (j * 3) 3 cs) = 3%nat) as Hl3 by (apply length_buf_read; lia).
  assert (forall p q, trits_get3 (trits_drop (view p cs q) (j * 3)) = bal (buf_read (j * 3) 3 cs)) as E.
  { intros p q. rewrite <- (take_drop (j * 3) cs) at 1. rewrite drop_view by (rewrite length_take; lia).
    rewrite <- (take_drop 3 (drop (j * 3) cs)). by rewrite gets3. }
  rewrite !E. split; [done|]. pose proof (bal_bound (buf_read (j * 3) 3 cs)) as Hb. rewrite Hl3 in Hb.
  change (3 ^ Z.of_nat 3) with 27 in Hb. specialize (Hb ltac:(by apply Forall_take, Forall_drop)). lia.
Qed.

Lemma hash_digits_range : Forall (fun h => -13 <= h <= 13) (hash_digits hash 0 78).
Proof.
  unfold hash_digits. apply List.Forall_map, List.Forall_forall. intros j Hj%in_seq.
  apply hash_digit. lia.
Qed.

Lemma checksum_range : -9841 <= - zsum (hash_digits hash 0 78) <= 9841.
Proof.
  pose proof (zsum_range _ hash_digits_range) as H.
  assert (length (hash_digits hash 0 78) = 78%nat) as E by (unfold hash_digits; by rewrite length_map, length_seq).
  rewrite E in H. lia.
Qed.

Lemma wots_digits_range : Forall (fun h => -13 <= h <= 13) (wots_digits hash).
Proof.
  unfold wots_digits. cbv zeta. change (MAM_WOTS_PRIVATE_KEY_PART_COUNT - 3)%nat with 78%nat.
  apply Forall_app. split; [apply hash_digits_range|].
  destruct (checksum_digits_spec _ checksum_range) as (a & b & c & -> & ? & ? & ? & _).
  by do 3 (constructor; [lia|]).
Qed.

Lemma length_wots_digits : length (wots_digits hash) = MAM_WOTS_PRIVATE_KEY_PART_COUNT.
Proof.
  unfold wots_digits. cbv zeta. change (MAM_WOTS_PRIVATE_KEY_PART_COUNT - 3)%nat with 78%nat.
  rewrite length_app. unfold hash_digits. by rewrite length_map, length_seq.
Qed.
End Digits.

Lemma chains_cancel hs parts : Forall (fun h => -13 <= h <= 13) hs -> length parts = length hs ->
  chains WOTS_HASH_RECOVER hs (chains WOTS_HASH_SIGN hs parts) = map (chain 26) parts.
Proof.
  intros Hh. revert parts. induction Hh as [|h hs Hh _ IH]; intros [|part parts] Hl; try done.
  cbn [chains zip_with map]. f_equal; [|apply IH; cbn in Hl; lia].
  rewrite chain_chain. f_equal. unfold steps. lia.
Qed.

Lemma chains_ok operation hs parts : parts_ok parts -> parts_ok (chains operation hs parts).
Proof.
  intros Hp. revert hs. unfold parts_ok in *. induction Hp as [|part parts [Hl Ho] _ IH]; intros [|h hs]; cbn; constructor.
  - split; [by rewrite length_chain|by apply chain_ok].
  - apply IH.
Qed.

Lemma concat_parts parts : parts_ok parts ->
  trits_ok (concat parts) /\ length (concat parts) = (MAM_WOTS_PRIVATE_KEY_PART_SIZE * length parts)%nat.
Proof.
  induction 1 as [|part parts [Hl Ho] _ [IH1 IH2]]; [done|]. cbn [concat length]. split.
  - by apply Forall_app.
  - rewrite length_app, IH2, Hl. lia.
Qed.

Lemma put_valid x cs : valid x -> length cs = trits_size x ->
  trits_put x cs = take (t_d x) (t_p x) ++ cs ++ drop (t_n x) (t_p x).
Proof. intros Hx Hl. exact (f_equal t_p (with_put x cs Hx Hl)). Qed.

Lemma chains_length operation hs parts : length hs = MAM_WOTS_PRIVATE_KEY_PART_COUNT ->
  length parts = MAM_WOTS_PRIVATE_KEY_PART_COUNT -> parts_ok parts ->
  parts_ok (chains operation hs parts) /\
  length (chains operation hs parts) = MAM_WOTS_PRIVATE_KEY_PART_COUNT /\
  length (concat (chains operation hs parts)) = MAM_WOTS_SIGNATURE_SIZE.
Proof.
  intros Hh Hn Hp. pose proof (chains_ok operation hs parts Hp) as Hc.
  assert (length (chains operation hs parts) = MAM_WOTS_PRIVATE_KEY_PART_COUNT) as Hl
    by (unfold chains; by rewrite length_zip_with_l_eq by congruence).
  split; [exact Hc|split; [exact Hl|]]. destruct (concat_parts _ Hc) as [_ E]. rewrite E, Hl. exact eq_refl.
Qed.

(** The public key of some parts of a private key. *)
Definition public_key_of (parts : list (list Z)) : list Z :=
  digest MAM_WOTS_PUBLIC_KEY_SIZE (concat (map (chain 26) parts)).

Lemma wots_sign_spec sp wots hash signature : length (sponge sp) = STATESIZE ->
  length wots = MAM_WOTS_PRIVATE_KEY_SIZE -> trits_ok wots ->
  trits_size hash = MAM_WOTS_HASH_SIZE -> valid signature -> trits_size signature = MAM_WOTS_SIGNATURE_SIZE ->
  length (wots_digits hash) = MAM_WOTS_PRIVATE_KEY_PART_COUNT ->
  mam_wots_sign sp wots hash signature =
  (RC_OK, trits_put signature (concat (chains WOTS_HASH_SIGN (wots_digits hash) (parts_of wots)))).
Proof.
  intros Hsp Hwl Hwt Hhs Hs Hss Hd. destruct (parts_of_spec wots Hwl Hwt) as (Ec & Hparts & Hn).
  destruct (chains_length WOTS_HASH_SIGN _ _ Hd Hn Hparts) as (_ & _ & Hcl).
  unfold mam_wots_sign. rewrite Hhs, Hss, !Nat.eqb_refl. cbn [negb orb].
  assert (buf_write (t_d signature) (take MAM_WOTS_PRIVATE_KEY_SIZE wots) (t_p signature) =
    trits_put signature wots) as -> by (unfold trits_put; rewrite Hss; exact eq_refl).
  rewrite (with_put signature wots Hs (eq_trans Hwl (eq_sym Hss))).
  rewrite (put_valid signature _ Hs (eq_trans Hcl (eq_sym Hss))). rewrite <- Ec at 1.
  destruct (sign_or_recover_view sp hash (take (t_d signature) (t_p signature)) (parts_of wots)
    (drop (t_n signature) (t_p signature)) WOTS_HASH_SIGN Hsp Hparts Hn) as (sp' & -> & _). exact eq_refl.
Qed.

Lemma wots_recover_spec sp hash signature public_key parts : length (sponge sp) = STATESIZE ->
  trits_size hash = MAM_WOTS_HASH_SIZE -> trits_size signature = MAM_WOTS_SIGNATURE_SIZE ->
  trits_get signature = concat parts -> parts_ok parts -> length parts = MAM_WOTS_PRIVATE_KEY_PART_COUNT ->
  length (wots_digits hash) = MAM_WOTS_PRIVATE_KEY_PART_COUNT ->
  valid public_key -> trits_size public_key = MAM_WOTS_PUBLIC_KEY_SIZE ->
  mam_wots_recover sp hash signature public_key =
  (RC_OK, trits_put public_key
     (digest MAM_WOTS_PUBLIC_KEY_SIZE (concat (chains WOTS_HASH_RECOVER (wots_digits hash) parts)))).
Proof.
  intros Hsp Hhs Hss Hg Hparts Hn Hd Hp Hps.
  destruct (chains_length WOTS_HASH_RECOVER _ _ Hd Hn Hparts) as (Hco & _ & Hcl).
  destruct (concat_parts _ Hco) as [Hct _]. destruct (concat_parts _ Hparts) as [_ Hl]. rewrite Hn in Hl.
  unfold mam_wots_recover. rewrite Hhs, Hps, Hss, !Nat.eqb_refl. cbn [negb orb].
  assert (buf_read (t_d signature) MAM_WOTS_SIGNATURE_SIZE (t_p signature) = concat parts) as ->
    by (rewrite <- Hg; unfold trits_get; rewrite Hss; exact eq_refl).
  rewrite rep_view by exact Hl.
  destruct (sign_or_recover_view sp hash [] parts [] WOTS_HASH_RECOVER Hsp Hparts Hn) as (sp' & -> & Hsp').
  cbn [app]. rewrite app_nil_r. rewrite rep_view by exact Hcl. rewrite (valid_view public_key Hp) at 1.
  destruct (hash_view sp' [] _ [] (take (t_d public_key) (t_p public_key)) (trits_get public_key)
    (drop (t_n public_key) (t_p public_key)) Hsp' Hct) as (sp'' & -> & _).
  rewrite (valid_length _ Hp), Hps. rewrite put_valid; [exact eq_refl|exact Hp|].
  rewrite Hps. apply length_digest.
Qed.

Lemma wots_gen_pk_spec sp spp wots public_key : length (sponge sp) = STATESIZE -> length (sponge spp) = STATESIZE ->
  length wots = MAM_WOTS_PRIVATE_KEY_SIZE -> trits_ok wots ->
  valid public_key -> trits_size public_key = MAM_WOTS_PUBLIC_KEY_SIZE ->
  mam_wots_gen_pk sp spp wots public_key = (RC_OK, trits_put public_key (public_key_of (parts_of wots))).
Proof.
  intros Hl Hlp Hw Ht Hp Hps. rewrite (valid_view public_key Hp) at 1.
  rewrite (gen_pk_view sp spp wots _ _ _ Hl Hlp Hw Ht (eq_trans (valid_length _ Hp) Hps)).
  unfold public_key_of. rewrite put_valid; [exact eq_refl|exact Hp|].
  rewrite length_digest. symmetry. exact Hps.
Qed.

Lemma valid_rep n (c : Z) : valid (trits_from_rep n (replicate n c)).
Proof. unfold valid, trits_from_rep. cbn [t_d t_n t_p]. rewrite length_replicate. lia. Qed.

Lemma size_rep n (t : list Z) : trits_size (trits_from_rep n t) = n.
Proof. unfold trits_size, trits_from_rep. cbn [t_d t_n]. lia. Qed.

Lemma get_rep_ok n (c : Z) : -1 <= c <= 1 -> trits_ok (trits_get (trits_from_rep n (replicate n c))).
Proof. intros Hc. apply Forall_take, Forall_drop. apply Forall_replicate. exact Hc. Qed.

(** C30: the signature of a hash leads back to the public key of the private key that made it,
    for every key, every hash and every state of the stack. *)
Theorem wots_recover_sign (sp1 sp2 sp3 sp4 : mam_spongos_t) (wots : list Z)
    (hash signature public_key : trits_t)
    (Hsp : Forall (fun sp => length (sponge sp) = STATESIZE) [sp1; sp2; sp3; sp4])
    (Hwl : length wots = MAM_WOTS_PRIVATE_KEY_SIZE) (Hwt : trits_ok wots)
    (Hh : valid hash) (Hhs : trits_size hash = MAM_WOTS_HASH_SIZE) (Hht : trits_ok (trits_get hash))
    (Hs : valid signature) (Hss : trits_size signature = MAM_WOTS_SIGNATURE_SIZE)
    (Hp : valid public_key) (Hps : trits_size public_key = MAM_WOTS_PUBLIC_KEY_SIZE) :
  exists mem pk,
    mam_wots_sign sp1 wots hash signature = (RC_OK, mem) /\
    mam_wots_gen_pk sp3 sp4 wots public_key = (RC_OK, pk) /\
    mam_wots_recover sp2 hash (with_p signature mem) public_key = (RC_OK, pk).
Proof.
  rewrite !Forall_cons_iff in Hsp. destruct Hsp as (Hl1 & Hl2 & Hl3 & Hl4 & _).
  destruct (parts_of_spec wots Hwl Hwt) as (_ & Hparts & Hn).
  pose proof (length_wots_digits hash) as Hd.
  destruct (chains_length WOTS_HASH_SIGN _ _ Hd Hn Hparts) as (Hco & Hcn & Hcl).
  eexists _, _. split; [apply wots_sign_spec; assumption|].
  split; [apply wots_gen_pk_spec; assumption|].
  rewrite (with_put signature _ Hs (eq_trans Hcl (eq_sym Hss))).
  rewrite (wots_recover_spec sp2 hash _ public_key (chains WOTS_HASH_SIGN (wots_digits hash) (parts_of wots))
    Hl2 Hhs (eq_trans (size_view _ _ _) Hcl) (get_view _ _ _) Hco Hcn Hd Hp Hps).
  rewrite chains_cancel; [exact eq_refl|by apply wots_digits_range|congruence].
Qed.

(** A private key and a hash of ones, on an empty stack. *)
Lemma wots_recover_sign_witness :
  let sp := zero_spongos in
  let signature := trits_from_rep MAM_WOTS_SIGNATURE_SIZE (replicate MAM_WOTS_SIGNATURE_SIZE 0) in
  let hash := trits_from_rep MAM_WOTS_HASH_SIZE (replicate MAM_WOTS_HASH_SIZE 1) in
  let public_key := trits_from_rep MAM_WOTS_PUBLIC_KEY_SIZE (replicate MAM_WOTS_PUBLIC_KEY_SIZE 0) in
  let wots := replicate MAM_WOTS_PRIVATE_KEY_SIZE 1 in
  exists mem pk,
    mam_wots_sign sp wots hash signature = (RC_OK, mem) /\
    mam_wots_gen_pk sp sp wots public_key = (RC_OK, pk) /\
    mam_wots_recover sp hash (with_p signature mem) public_key = (RC_OK, pk).
Proof.
  intros sp signature hash public_key wots. apply wots_recover_sign.
  - repeat constructor; apply length_replicate.
  - apply length_replicate.
  - apply Forall_replicate. split; intro; discriminate.
  - apply valid_rep.
  - apply size_rep.
  - apply get_rep_ok. split; intro; discriminate.
  - apply valid_rep.
  - apply size_rep.
  - apply valid_rep.
  - apply size_rep.
Defined.
