(* ===== verification/Pb3.v ===== *)
(** * The codec of MAM

    [mam/pb3/pb3.c], and what is serialized with it in [mam/sponge/spongos_types.c] and
    [mam/prng/prng.h].  A buffer is a view that every operation advances; what is written is in
    the memory of the view that is returned.  What a decoder does not write when it fails is
    [None].

    The operations come in pairs, [wrap] and [unwrap]: the class [Codec] states that what is
    wrapped is unwrapped as the same value, in the same state and at the same place of the
    buffer, whatever follows; the class [ExactCodec] that nothing else is accepted.  Messages
    are sequences of such operations, and inherit both. *)
From S2P Require Import Prelude Errors Trits Troika Ftroika MamTrits MamSponge.

(** ** Primitive types *)
Definition pb3_trits_take (buffer : trits_t) (n : nat) : trits_t * trits_t := trits_advance buffer n.

Definition pb3_sizeof_tryte : nat := NUMBER_OF_TRITS_IN_A_TRYTE.

Definition pb3_encode_tryte (tryte : Z) (buffer : trits_t) : trits_t :=
  let '(part, buffer) := pb3_trits_take buffer NUMBER_OF_TRITS_IN_A_TRYTE in
  with_p buffer (trits_put3 part tryte).

Definition pb3_decode_tryte (buffer : trits_t) : retcode_t * option Z * trits_t :=
  if (trits_size buffer <? pb3_sizeof_tryte)%nat then (RC_MAM_PB3_EOF, None, buffer) else
  let '(part, buffer) := pb3_trits_take buffer NUMBER_OF_TRITS_IN_A_TRYTE in
  (RC_OK, Some (trits_get3 part), buffer).

Definition pb3_sizeof_trint : nat := 9.

Definition pb3_encode_trint (trint : Z) (buffer : trits_t) : trits_t :=
  let '(part, buffer) := pb3_trits_take buffer 9 in
  with_p buffer (trits_put9 part trint).

Definition pb3_decode_trint (buffer : trits_t) : retcode_t * option Z * trits_t :=
  if (trits_size buffer <? pb3_sizeof_trint)%nat then (RC_MAM_PB3_EOF, None, buffer) else
  let '(part, buffer) := pb3_trits_take buffer 9 in
  (RC_OK, Some (trits_get9 part), buffer).

Definition pb3_sizeof_longtrint : nat := 18.

Definition pb3_encode_longtrint (trint : Z) (buffer : trits_t) : trits_t :=
  let '(part, buffer) := pb3_trits_take buffer 18 in
  with_p buffer (trits_put18 part trint).

Definition pb3_decode_longtrint (buffer : trits_t) : retcode_t * option Z * trits_t :=
  if (trits_size buffer <? pb3_sizeof_longtrint)%nat then (RC_MAM_PB3_EOF, None, buffer) else
  let '(part, buffer) := pb3_trits_take buffer 18 in
  (RC_OK, Some (trits_get18 part), buffer).

Definition pb3_sizeof_size_t (n : Z) : nat := trits_sizeof_size_t n.
Definition pb3_encode_size_t (size : Z) (buffer : trits_t) : trits_t := trits_encode_size_t size buffer.
Definition pb3_decode_size_t (buffer : trits_t) : retcode_t * option Z * trits_t := trits_decode_size_t buffer.

Definition pb3_sizeof_ntrytes (n : nat) : nat := NUMBER_OF_TRITS_IN_A_TRYTE * n.

Definition pb3_encode_ntrytes (ntrytes buffer : trits_t) : trits_t :=
  let n := trits_size ntrytes in
  let '(part, buffer) := pb3_trits_take buffer n in
  with_p buffer (trits_copy ntrytes part).

(** The memory of the trytes is returned. *)
Definition pb3_decode_ntrytes (ntrytes buffer : trits_t) : retcode_t * list Z * trits_t :=
  let n := trits_size ntrytes in
  if (trits_size buffer <? n)%nat then (RC_MAM_PB3_EOF, t_p ntrytes, buffer) else
  let '(part, buffer) := pb3_trits_take buffer n in
  (RC_OK, trits_copy part ntrytes, buffer).

(** ** With a spongos *)
Definition pb3_wrap_absorb_tryte (spongos : mam_spongos_t) (buffer : trits_t) (tryte : Z) : mam_spongos_t * trits_t :=
  let b0 := buffer in
  let buffer := pb3_encode_tryte tryte buffer in
  (mam_spongos_absorb spongos (trits_diff b0 buffer), buffer).

Definition pb3_unwrap_absorb_tryte (spongos : mam_spongos_t) (buffer : trits_t)
    : retcode_t * option Z * mam_spongos_t * trits_t :=
  let b0 := buffer in
  match pb3_decode_tryte buffer with
  | (RC_OK, tryte, buffer) => (RC_OK, tryte, mam_spongos_absorb spongos (trits_diff b0 buffer), buffer)
  | (ret, tryte, buffer) => (ret, tryte, spongos, buffer)
  end.

Definition pb3_wrap_absorb_trint (spongos : mam_spongos_t) (buffer : trits_t) (trint : Z) : mam_spongos_t * trits_t :=
  let b0 := buffer in
  let buffer := pb3_encode_trint trint buffer in
  (mam_spongos_absorb spongos (trits_diff b0 buffer), buffer).

Definition pb3_unwrap_absorb_trint (spongos : mam_spongos_t) (buffer : trits_t)
    : retcode_t * option Z * mam_spongos_t * trits_t :=
  let b0 := buffer in
  match pb3_decode_trint buffer with
  | (RC_OK, trint, buffer) => (RC_OK, trint, mam_spongos_absorb spongos (trits_diff b0 buffer), buffer)
  | (ret, trint, buffer) => (ret, trint, spongos, buffer)
  end.

Definition pb3_wrap_absorb_size_t (spongos : mam_spongos_t) (buffer : trits_t) (size : Z) : mam_spongos_t * trits_t :=
  let b0 := buffer in
  let buffer := pb3_encode_size_t size buffer in
  (mam_spongos_absorb spongos (trits_diff b0 buffer), buffer).

Definition pb3_unwrap_absorb_size_t (spongos : mam_spongos_t) (buffer : trits_t)
    : retcode_t * option Z * mam_spongos_t * trits_t :=
  let b0 := buffer in
  match pb3_decode_size_t buffer with
  | (RC_OK, size, buffer) => (RC_OK, size, mam_spongos_absorb spongos (trits_diff b0 buffer), buffer)
  | (ret, size, buffer) => (ret, size, spongos, buffer)
  end.

Definition pb3_wrap_absorb_ntrytes (spongos : mam_spongos_t) (buffer trits : trits_t) : mam_spongos_t * trits_t :=
  let b0 := buffer in
  let buffer := pb3_encode_ntrytes trits buffer in
  (mam_spongos_absorb spongos (trits_diff b0 buffer), buffer).

Definition pb3_unwrap_absorb_ntrytes (spongos : mam_spongos_t) (buffer trits : trits_t)
    : retcode_t * list Z * mam_spongos_t * trits_t :=
  let b0 := buffer in
  match pb3_decode_ntrytes trits buffer with
  | (RC_OK, mem, buffer) => (RC_OK, mem, mam_spongos_absorb spongos (trits_diff b0 buffer), buffer)
  | (ret, mem, buffer) => (ret, mem, spongos, buffer)
  end.

Definition pb3_wrap_crypt_ntrytes (spongos : mam_spongos_t) (buffer trits : trits_t) : mam_spongos_t * trits_t :=
  let n := trits_size trits in
  let '(part, buffer) := pb3_trits_take buffer n in
  let '(spongos, mem) := mam_spongos_encr spongos trits (Some part) in
  (spongos, with_p buffer mem).

Definition pb3_unwrap_crypt_ntrytes (spongos : mam_spongos_t) (buffer trits : trits_t)
    : retcode_t * list Z * mam_spongos_t * trits_t :=
  let n := trits_size trits in
  if (trits_size buffer <? n)%nat then (RC_MAM_PB3_EOF, t_p trits, spongos, buffer) else
  let '(part, buffer) := pb3_trits_take buffer n in
  let '(spongos, mem) := mam_spongos_decr spongos part (Some trits) in
  (RC_OK, mem, spongos, buffer).

Definition pb3_wrap_squeeze_ntrytes (spongos : mam_spongos_t) (buffer : trits_t) (n : nat) : mam_spongos_t * trits_t :=
  let '(part, buffer) := pb3_trits_take buffer (pb3_sizeof_ntrytes n) in
  let '(spongos, mem) := mam_spongos_squeeze spongos part in
  (spongos, with_p buffer mem).

Definition pb3_unwrap_squeeze_ntrytes (spongos : mam_spongos_t) (buffer : trits_t) (n : nat)
    : retcode_t * mam_spongos_t * trits_t :=
  if (trits_size buffer <? pb3_sizeof_ntrytes n)%nat then (RC_MAM_PB3_EOF, spongos, buffer) else
  let '(part, buffer) := pb3_trits_take buffer (pb3_sizeof_ntrytes n) in
  let '(spongos, equal) := mam_spongos_squeeze_eq spongos part in
  if negb equal then (RC_MAM_PB3_BAD_MAC, spongos, buffer) else (RC_OK, spongos, buffer).

Definition pb3_absorb_external_ntrytes (spongos : mam_spongos_t) (trits : trits_t) : mam_spongos_t :=
  mam_spongos_absorb spongos trits.
Definition pb3_squeeze_external_ntrytes (spongos : mam_spongos_t) (trits : trits_t) : mam_spongos_t * list Z :=
  mam_spongos_squeeze spongos trits.

(** ** Serialization of a spongos and of a generator *)
Definition mam_spongos_serialized_size (spongos : mam_spongos_t) : nat :=
  pb3_sizeof_size_t (Z.of_nat (pos spongos)) + MAM_SPONGE_WIDTH.

Definition mam_spongos_serialize (spongos : mam_spongos_t) (trits : trits_t) : trits_t :=
  let trits := pb3_encode_size_t (Z.of_nat (pos spongos)) trits in
  pb3_encode_ntrytes (trits_from_rep MAM_SPONGE_WIDTH (sponge spongos)) trits.

Definition mam_spongos_deserialize (trits : trits_t) (spongos : mam_spongos_t) : retcode_t * mam_spongos_t * trits_t :=
  match pb3_decode_size_t trits with
  | (RC_OK, size, trits) =>
      let spongos := mk_spongos (sponge spongos) (default (pos spongos) (Z.to_nat <$> size)) in
      let '(err, mem, trits) := pb3_decode_ntrytes (trits_from_rep MAM_SPONGE_WIDTH (sponge spongos)) trits in
      (err, mk_spongos mem (pos spongos), trits)
  | (err, _, trits) => (err, spongos, trits)
  end.

Definition mam_prng_serialized_size : nat := MAM_PRNG_SECRET_KEY_SIZE.
Definition mam_prng_serialize (prng : list Z) (buffer : trits_t) : trits_t :=
  pb3_encode_ntrytes (trits_from_rep MAM_PRNG_SECRET_KEY_SIZE prng) buffer.
Definition mam_prng_deserialize (buffer : trits_t) (prng : list Z) : retcode_t * list Z * trits_t :=
  pb3_decode_ntrytes (trits_from_rep MAM_PRNG_SECRET_KEY_SIZE prng) buffer.

(** ** Codecs

    [ts] is what is written for [a]; the rest of the buffer may change. *)
Section Codecs.
Context {A : Type} (P : A -> Prop) (size : A -> nat).
Context (wrap : mam_spongos_t -> trits_t -> A -> mam_spongos_t * trits_t).
Context (unwrap : mam_spongos_t -> trits_t -> retcode_t * option A * mam_spongos_t * trits_t).

Definition wraps_as (s : mam_spongos_t) (a : A) (s' : mam_spongos_t) (ts : list Z) : Prop :=
  forall pre cs rest post, length cs = length ts -> trits_ok cs -> trits_ok rest ->
  exists rest', length rest' = length rest /\ trits_ok rest' /\
    wrap s (view pre (cs ++ rest) post) a = (s', view (pre ++ ts) rest' post).

Definition unwraps_as (s : mam_spongos_t) (a : A) (s' : mam_spongos_t) (ts : list Z) : Prop :=
  forall pre rest post,
    unwrap s (view pre (ts ++ rest) post) = (RC_OK, Some a, s', view (pre ++ ts) rest post).

Class Codec : Prop := codec_law : forall s a, spongos_ok s -> P a ->
  exists ts s', length ts = size a /\ trits_ok ts /\ spongos_ok s' /\ wraps_as s a s' ts /\ unwraps_as s a s' ts.

(** What is accepted is what would have been written: writing it again changes nothing. *)
Class ExactCodec : Prop := exact_law : forall s pre cs post oa s' b, spongos_ok s -> trits_ok cs ->
  unwrap s (view pre cs post) = (RC_OK, oa, s', b) ->
  exists a ts rest, oa = Some a /\ P a /\ cs = ts ++ rest /\ length ts = size a /\
    b = view (pre ++ ts) rest post /\ spongos_ok s' /\ wrap s (view pre cs post) a = (s', b).
End Codecs.

(** The same for the types that are absorbed once they are encoded. *)
Section Absorbed.
Context {A : Type} (P : A -> Prop) (size : A -> nat).
Context (enc : A -> trits_t -> trits_t) (dec : trits_t -> retcode_t * option A * trits_t).

Definition wrap_absorb (s : mam_spongos_t) (b : trits_t) (a : A) : mam_spongos_t * trits_t :=
  let b' := enc a b in (mam_spongos_absorb s (trits_diff b b'), b').
Definition unwrap_absorb (s : mam_spongos_t) (b : trits_t) : retcode_t * option A * mam_spongos_t * trits_t :=
  match dec b with
  | (RC_OK, a, b') => (RC_OK, a, mam_spongos_absorb s (trits_diff b b'), b')
  | (ret, a, b') => (ret, a, s, b')
  end.

Definition encodes_as (a : A) (ts : list Z) : Prop :=
  forall pre cs rest post, length cs = length ts -> trits_ok cs -> trits_ok rest ->
  exists rest', length rest' = length rest /\ trits_ok rest' /\
    enc a (view pre (cs ++ rest) post) = view (pre ++ ts) rest' post.
Definition decodes_as (a : A) (ts : list Z) : Prop :=
  forall pre rest post, dec (view pre (ts ++ rest) post) = (RC_OK, Some a, view (pre ++ ts) rest post).

Definition plain_codec : Prop := forall a, P a ->
  exists ts, length ts = size a /\ trits_ok ts /\ encodes_as a ts /\ decodes_as a ts.
Definition plain_exact : Prop := forall pre cs post oa b, trits_ok cs ->
  dec (view pre cs post) = (RC_OK, oa, b) ->
  exists a ts rest, oa = Some a /\ P a /\ cs = ts ++ rest /\ length ts = size a /\
    b = view (pre ++ ts) rest post /\ enc a (view pre cs post) = b.

Lemma diff_view pre cs ts rest rest' post : length cs = length ts -> length rest' = length rest ->
  trits_diff (view pre (cs ++ rest) post) (view (pre ++ ts) rest' post) = view pre ts (rest' ++ post).
Proof.
  intros. unfold trits_diff, view. cbn [t_d t_n t_p]. rewrite length_app. f_equal. by rewrite <- app_assoc.
Qed.

Lemma absorbed_ok s ts : spongos_ok s -> trits_ok ts -> spongos_ok (spongos_map absorb_trit s ts).2.
Proof. intros Hs Ht. by apply (spongos_map_ok absorb_trit ts absorb_keeps Ht s Hs). Qed.

Lemma wrap_absorbs s a ts : spongos_ok s -> trits_ok ts -> encodes_as a ts ->
  wraps_as wrap_absorb s a (spongos_map absorb_trit s ts).2 ts.
Proof.
  intros Hs Ht He pre cs rest post Hl Hc Hr. destruct (He pre cs rest post Hl Hc Hr) as (rest' & Hl' & Hr' & E).
  exists rest'. split_and!; [done..|]. unfold wrap_absorb. rewrite E, diff_view by done.
  by rewrite mam_spongos_absorb_view.
Qed.

Lemma absorbed_codec : plain_codec -> Codec P size wrap_absorb unwrap_absorb.
Proof.
  intros H s a Hs Ha. destruct (H a Ha) as (ts & Hl & Ht & He & Hd).
  exists ts, (spongos_map absorb_trit s ts).2. split_and!; [done..|by apply absorbed_ok|by apply wrap_absorbs|].
  intros pre rest post. unfold unwrap_absorb. rewrite Hd, diff_view by done. by rewrite mam_spongos_absorb_view.
Qed.

Lemma absorbed_exact : plain_exact -> ExactCodec P size wrap_absorb unwrap_absorb.
Proof.
  intros H s pre cs post oa s' b Hs Hc. unfold unwrap_absorb.
  destruct (dec (view pre cs post)) as [[ret oa'] b'] eqn:E. intros Hu.
  assert (ret = RC_OK) as -> by (destruct ret; congruence). injection Hu as <- <- <-.
  destruct (H pre cs post oa' b' Hc E) as (a & ts & rest & -> & Ha & -> & Hl & -> & He).
  apply Forall_app in Hc as [Ht Hr]. exists a, ts, rest. unfold wrap_absorb. rewrite He.
  rewrite diff_view, mam_spongos_absorb_view by done. split_and!; [done..|by apply absorbed_ok|done].
Qed.
End Absorbed.

(** *** The instances *)
Lemma put_codec (put : trits_t -> Z -> list Z) (get : trits_t -> Z) n bound :
  puts put n bound -> gets get n -> 2 * bound + 1 = 3 ^ Z.of_nat n ->
  let enc a b := let '(part, b) := trits_advance b n in with_p b (put part a) in
  let dec b := if (trits_size b <? n)%nat then (RC_MAM_PB3_EOF, None, b) else
    let '(part, b) := trits_advance b n in (RC_OK, Some (get part), b) in
  plain_codec (fun a => - bound <= a <= bound) (fun _ => n) enc dec /\
  plain_exact (fun a => - bound <= a <= bound) (fun _ => n) enc dec.
Proof.
  intros Hp Hg Hb enc dec.
  assert (forall ts a, length ts = n -> trits_ok ts -> bal ts = a -> - bound <= a <= bound ->
    forall pre cs rest post, length cs = length ts ->
      enc a (view pre (cs ++ rest) post) = view (pre ++ ts) rest post) as He.
  { intros ts a Hl Ht Ha Hr pre cs rest post Hc.
    destruct (Hp a Hr) as (ts' & Hl' & Ht' & Ha' & Hw).
    assert (ts' = ts) as -> by (apply bal_inj; congruence).
    unfold enc, trits_advance. rewrite take_view, drop_view by congruence.
    specialize (Hw pre cs [] (rest ++ post)). rewrite !app_nil_r in Hw. rewrite Hw by congruence.
    rewrite (app_assoc pre ts), with_view_at; [done|rewrite !length_app; congruence|done]. }
  assert (forall pre ts rest post, length ts = n ->
    dec (view pre (ts ++ rest) post) = (RC_OK, Some (bal ts), view (pre ++ ts) rest post)) as Hd.
  { intros pre ts rest post Hl. unfold dec. rewrite size_view, length_app.
    destruct (Nat.ltb_spec (length ts + length rest) n); [lia|].
    unfold trits_advance. rewrite take_view, drop_view by done.
    specialize (Hg pre ts [] (rest ++ post) Hl). rewrite app_nil_r in Hg. by rewrite Hg. }
  split.
  - intros a Ha. destruct (Hp a Ha) as (ts & Hl & Ht & Hbal & _). exists ts. split_and!; [done..| |].
    + intros pre cs rest post Hc _ Hr. exists rest. split_and!; [done..|]. by apply He.
    + intros pre rest post. rewrite Hd by done. by rewrite Hbal.
  - intros pre cs post oa b Hc E. assert (n <= length cs)%nat as Hn.
    { revert E. unfold dec. rewrite size_view. destruct (Nat.ltb_spec (length cs) n); [discriminate|done]. }
    rewrite <- (take_drop n cs) in E. assert (length (take n cs) = n) as Hl by (rewrite length_take; lia).
    rewrite Hd in E by done. injection E as <- <-.
    assert (trits_ok (take n cs)) as Ht by by apply Forall_take.
    pose proof (bal_bound _ Ht) as Hbd. rewrite Hl, <- Hb in Hbd.
    exists (bal (take n cs)), (take n cs), (drop n cs). rewrite take_drop.
    split_and!; try done; [lia|lia|]. rewrite <- (take_drop n cs) at 2. apply He; [done..|lia|done].
Qed.

#[export] Instance tryte_codec :
  Codec (fun a => -13 <= a <= 13) (fun _ => 3%nat) pb3_wrap_absorb_tryte pb3_unwrap_absorb_tryte.
Proof. exact (absorbed_codec _ _ _ _ (proj1 (put_codec _ _ _ _ puts3 gets3 eq_refl))). Qed.
#[export] Instance tryte_exact :
  ExactCodec (fun a => -13 <= a <= 13) (fun _ => 3%nat) pb3_wrap_absorb_tryte pb3_unwrap_absorb_tryte.
Proof. exact (absorbed_exact _ _ _ _ (proj2 (put_codec _ _ _ _ puts3 gets3 eq_refl))). Qed.

#[export] Instance trint_codec :
  Codec (fun a => -9841 <= a <= 9841) (fun _ => 9%nat) pb3_wrap_absorb_trint pb3_unwrap_absorb_trint.
Proof. exact (absorbed_codec _ _ _ _ (proj1 (put_codec _ _ _ _ puts9 gets9 eq_refl))). Qed.
#[export] Instance trint_exact :
  ExactCodec (fun a => -9841 <= a <= 9841) (fun _ => 9%nat) pb3_wrap_absorb_trint pb3_unwrap_absorb_trint.
Proof. exact (absorbed_exact _ _ _ _ (proj2 (put_codec _ _ _ _ puts9 gets9 eq_refl))). Qed.

Lemma longtrint_codec :
  plain_codec (fun a => -193710244 <= a <= 193710244) (fun _ => 18%nat) pb3_encode_longtrint pb3_decode_longtrint /\
  plain_exact (fun a => -193710244 <= a <= 193710244) (fun _ => 18%nat) pb3_encode_longtrint pb3_decode_longtrint.
Proof. exact (put_codec _ _ _ _ puts18 gets18 eq_refl). Qed.

(** A size has one encoding that is written and many that are read: this codec is not exact. *)
Lemma size_t_codec : plain_codec (fun n => 0 <= n <= MAM_TRITS_SIZE_MAX) trits_sizeof_size_t
  pb3_encode_size_t pb3_decode_size_t.
Proof.
  intros n Hn. destruct (size_t_trytes_spec n Hn) as (Hd & _ & _).
  destruct (encode_size_t_view n [] (replicate (trits_sizeof_size_t n) 0) [] Hn
    ltac:(by rewrite length_replicate)) as (ts & ds & Lt & Ot & Bt & Ld & Od & Bd & _).
  assert (length (ts ++ ds) = trits_sizeof_size_t n) as Hl
    by (rewrite length_app, Lt, Ld; unfold trits_sizeof_size_t; lia).
  exists (ts ++ ds). split; [exact Hl|]. split; [by apply Forall_app|]. split.
  - intros pre cs rest post Hc _ _. exists (replicate (length rest) 0).
    split; [apply length_replicate|]. split; [apply Forall_replicate; unfold is_trit; lia|].
    destruct (encode_size_t_view n pre (cs ++ rest) post Hn ltac:(rewrite length_app; lia))
      as (ts' & ds' & Lt' & Ot' & Bt' & Ld' & Od' & Bd' & E).
    assert (ts' = ts) as -> by (apply bal_inj; congruence). assert (ds' = ds) as -> by (apply bal_inj; congruence).
    unfold pb3_encode_size_t. rewrite E. f_equal. f_equal. rewrite length_app. lia.
  - intros pre rest post. unfold pb3_decode_size_t. rewrite <- app_assoc.
    rewrite (decode_size_t_view _ _ _ _ _ _ Lt Bt), Bd, uwrap_small; try done.
    unfold MAM_TRITS_SIZE_MAX in Hn. lia.
Qed.

#[export] Instance absorb_size_t_codec :
  Codec (fun n => 0 <= n <= MAM_TRITS_SIZE_MAX) trits_sizeof_size_t pb3_wrap_absorb_size_t pb3_unwrap_absorb_size_t.
Proof. exact (absorbed_codec _ _ _ _ size_t_codec). Qed.

(** Trits in memory of their own. *)
Definition memory (n : nat) : trits_t := trits_from_rep n (replicate n 0).
Definition success {A} (ret : retcode_t) (a : A) : option A := match ret with RC_OK => Some a | _ => None end.

Definition trits_of (n : nat) (xs : list Z) : Prop := length xs = n /\ trits_ok xs.

Lemma from_rep_view (xs : list Z) n : length xs = n -> trits_from_rep n xs = view [] xs [].
Proof. intros <-. unfold trits_from_rep, view. cbn. by rewrite app_nil_r. Qed.

Lemma memory_view n : memory n = view [] (replicate n 0) [].
Proof. apply from_rep_view, length_replicate. Qed.

(** Trytes that are read into any view. *)
Lemma decode_ntrytes_view pre ts rest post p ys q : length ys = length ts ->
  pb3_decode_ntrytes (view p ys q) (view pre (ts ++ rest) post) = (RC_OK, p ++ ts ++ q, view (pre ++ ts) rest post).
Proof.
  intros Hl. unfold pb3_decode_ntrytes. rewrite !size_view, length_app.
  destruct (Nat.ltb_spec (length ts + length rest) (length ys)); [lia|].
  unfold pb3_trits_take, trits_advance. rewrite take_view, drop_view by congruence. by rewrite copy_view.
Qed.

Lemma encode_ntrytes_view p ts q pre cs rest post : length cs = length ts ->
  pb3_encode_ntrytes (view p ts q) (view pre (cs ++ rest) post) = view (pre ++ ts) rest post.
Proof.
  intros Hl. unfold pb3_encode_ntrytes. rewrite size_view. unfold pb3_trits_take, trits_advance.
  rewrite take_view, drop_view by done. rewrite copy_view by done.
  rewrite (app_assoc pre ts), with_view_at; [done|rewrite !length_app; congruence|done].
Qed.

Lemma ntrytes_codec n :
  let enc xs b := pb3_encode_ntrytes (trits_from_rep n xs) b in
  let dec b := let '(ret, mem, b) := pb3_decode_ntrytes (memory n) b in (ret, success ret mem, b) in
  plain_codec (trits_of n) (fun _ => n) enc dec /\ plain_exact (trits_of n) (fun _ => n) enc dec.
Proof.
  intros enc dec.
  assert (forall ts, length ts = n -> forall pre cs rest post, length cs = length ts ->
    enc ts (view pre (cs ++ rest) post) = view (pre ++ ts) rest post) as He.
  { intros ts Hl pre cs rest post Hc. unfold enc. rewrite from_rep_view by done. by apply encode_ntrytes_view. }
  assert (forall ts, length ts = n -> decodes_as dec ts ts) as Hd.
  { intros ts Hl pre rest post. unfold dec. rewrite memory_view, decode_ntrytes_view by (by rewrite length_replicate).
    cbn [success app]. by rewrite app_nil_r. }
  split.
  - intros ts [Hl Ht]. exists ts. split_and!; [done..| |by apply Hd].
    intros pre cs rest post Hc _ Hr. exists rest. split_and!; [done..|]. by apply He.
  - intros pre cs post oa b Hc E. assert (n <= length cs)%nat as Hn.
    { revert E. unfold dec, pb3_decode_ntrytes. rewrite memory_view, !size_view, length_replicate.
      destruct (Nat.ltb_spec (length cs) n); [discriminate|done]. }
    assert (length (take n cs) = n) as Hl by (rewrite length_take; lia).
    rewrite <- (take_drop n cs) in E. rewrite (Hd _ Hl pre (drop n cs) post) in E. injection E as <- <-.
    exists (take n cs), (take n cs), (drop n cs). rewrite take_drop.
    split_and!; try done; [by split; [|apply Forall_take]|].
    rewrite <- (take_drop n cs) at 2. by apply He.
Qed.

Section Ntrytes.
Variable n : nat.
Definition wrap_absorb_ntrytes (s : mam_spongos_t) (b : trits_t) (xs : list Z) : mam_spongos_t * trits_t :=
  pb3_wrap_absorb_ntrytes s b (trits_from_rep n xs).
Definition unwrap_absorb_ntrytes (s : mam_spongos_t) (b : trits_t)
    : retcode_t * option (list Z) * mam_spongos_t * trits_t :=
  let '(ret, mem, s, b) := pb3_unwrap_absorb_ntrytes s b (memory n) in (ret, success ret mem, s, b).
Definition wrap_crypt_ntrytes (s : mam_spongos_t) (b : trits_t) (xs : list Z) : mam_spongos_t * trits_t :=
  pb3_wrap_crypt_ntrytes s b (trits_from_rep n xs).
Definition unwrap_crypt_ntrytes (s : mam_spongos_t) (b : trits_t)
    : retcode_t * option (list Z) * mam_spongos_t * trits_t :=
  let '(ret, mem, s, b) := pb3_unwrap_crypt_ntrytes s b (memory n) in (ret, success ret mem, s, b).
Definition wrap_squeeze_ntrytes (s : mam_spongos_t) (b : trits_t) (_ : unit) : mam_spongos_t * trits_t :=
  pb3_wrap_squeeze_ntrytes s b n.
Definition unwrap_squeeze_ntrytes (s : mam_spongos_t) (b : trits_t)
    : retcode_t * option unit * mam_spongos_t * trits_t :=
  let '(ret, s, b) := pb3_unwrap_squeeze_ntrytes s b n in (ret, success ret (), s, b).
End Ntrytes.

Lemma unwrap_absorb_ntrytes_eq n s b : unwrap_absorb_ntrytes n s b =
  unwrap_absorb (fun b => let '(ret, mem, b) := pb3_decode_ntrytes (memory n) b in (ret, success ret mem, b)) s b.
Proof.
  unfold unwrap_absorb_ntrytes, pb3_unwrap_absorb_ntrytes, unwrap_absorb.
  destruct (pb3_decode_ntrytes (memory n) b) as [[ret mem] b']. by destruct ret.
Qed.

#[export] Instance absorb_ntrytes_codec n :
  Codec (trits_of n) (fun _ => n) (wrap_absorb_ntrytes n) (unwrap_absorb_ntrytes n).
Proof.
  intros s xs Hs Hx. destruct (absorbed_codec _ _ _ _ (proj1 (ntrytes_codec n)) s xs Hs Hx)
    as (ts & s' & Hl & Ht & Hs' & Hw & Hu).
  exists ts, s'. split_and!; [done..|exact Hw|]. intros pre rest post. rewrite unwrap_absorb_ntrytes_eq. apply Hu.
Qed.

#[export] Instance absorb_ntrytes_exact n :
  ExactCodec (trits_of n) (fun _ => n) (wrap_absorb_ntrytes n) (unwrap_absorb_ntrytes n).
Proof.
  intros s pre cs post oa s' b Hs Hc. rewrite unwrap_absorb_ntrytes_eq.
  apply (absorbed_exact _ _ _ _ (proj2 (ntrytes_codec n))); done.
Qed.

#[export] Instance crypt_ntrytes_codec n :
  Codec (trits_of n) (fun _ => n) (wrap_crypt_ntrytes n) (unwrap_crypt_ntrytes n).
Proof.
  intros s xs Hs [Hl Hx]. pose proof (decr_encr xs Hx s Hs) as E.
  pose proof (length_spongos_map encr_trit xs s) as Ho. destruct (spongos_map_ok encr_trit xs encr_keeps Hx s Hs) as [Hot Hs'].
  destruct (spongos_map encr_trit s xs) as [os s'] eqn:Em. cbn [fst snd] in *. exists os, s'.
  split_and!; [congruence|done..| |].
  - intros pre cs rest post Hc _ Hr. exists rest. split_and!; [done..|].
    unfold wrap_crypt_ntrytes, pb3_wrap_crypt_ntrytes. rewrite from_rep_view, size_view by done.
    unfold pb3_trits_take, trits_advance. rewrite take_view, drop_view by congruence.
    rewrite mam_spongos_encr_into, Em by (done || congruence).
    rewrite (app_assoc pre os), with_view_at; [done|rewrite !length_app; congruence|done].
  - intros pre rest post. unfold unwrap_crypt_ntrytes, pb3_unwrap_crypt_ntrytes.
    rewrite memory_view, !size_view, length_app, length_replicate.
    destruct (Nat.ltb_spec (length os + length rest) n); [lia|].
    unfold pb3_trits_take, trits_advance. rewrite take_view, drop_view by congruence.
    rewrite mam_spongos_decr_into, E by (done || (rewrite length_replicate; congruence)).
    cbn [success app]. by rewrite app_nil_r.
Qed.

(** Encryption undoes decryption. *)
Lemma encr_decr ys : trits_ok ys -> forall s, spongos_ok s ->
  spongos_map encr_trit s (spongos_map decr_trit s ys).1 = (ys, (spongos_map decr_trit s ys).2).
Proof.
  induction 1 as [|y ys Hy _ IH]; intros s Hs; [done|].
  destruct (spongos_step_ok decr_trit s y decr_keeps Hs Hy) as [_ Hok].
  rewrite (spongos_map_cons decr_trit). cbn [fst snd]. rewrite spongos_map_cons. cbv zeta.
  assert (spongos_step encr_trit s (spongos_step decr_trit s y).1 = (y, (spongos_step decr_trit s y).2)) as ->.
  { unfold spongos_step, encr_trit, decr_trit. cbn [fst snd].
    destruct Hs as [_ _ Ht]. pose proof (nth_trit (pos s) _ Ht) as Hn.
    by rewrite trit_add_sub. }
  cbn [fst snd]. by rewrite IH.
Qed.

#[export] Instance crypt_ntrytes_exact n :
  ExactCodec (trits_of n) (fun _ => n) (wrap_crypt_ntrytes n) (unwrap_crypt_ntrytes n).
Proof.
  intros s pre cs post oa s' b Hs Hc E. assert (n <= length cs)%nat as Hn.
  { revert E. unfold unwrap_crypt_ntrytes, pb3_unwrap_crypt_ntrytes.
    rewrite memory_view, !size_view, length_replicate. destruct (Nat.ltb_spec (length cs) n); [discriminate|done]. }
  rewrite <- (take_drop n cs) in E. set (os := take n cs) in *. set (rest := drop n cs) in *.
  assert (length os = n) as Hl by (unfold os; rewrite length_take; lia).
  assert (trits_ok os) as Ht by by apply Forall_take.
  unfold unwrap_crypt_ntrytes, pb3_unwrap_crypt_ntrytes in E.
  rewrite memory_view, !size_view, length_app, length_replicate in E.
  destruct (Nat.ltb_spec (length os + length rest) n); [lia|].
  unfold pb3_trits_take, trits_advance in E. rewrite take_view, drop_view in E by congruence.
  rewrite mam_spongos_decr_into in E by (done || (rewrite length_replicate; congruence)).
  pose proof (length_spongos_map decr_trit os s) as Ho. destruct (spongos_map_ok decr_trit os decr_keeps Ht s Hs) as [Hot Hs'].
  pose proof (encr_decr os Ht s Hs) as Ed. destruct (spongos_map decr_trit s os) as [xs s''].
  cbn [fst snd success app] in *. rewrite app_nil_r in E. injection E as <- <- <-.
  exists xs, os, rest. unfold os at 1, rest at 1. rewrite take_drop.
  assert (length xs = n) as Hlx by congruence. split_and!; try done.
  rewrite <- (take_drop n cs). fold os rest.
  unfold wrap_crypt_ntrytes, pb3_wrap_crypt_ntrytes. rewrite from_rep_view, size_view by done.
  unfold pb3_trits_take, trits_advance. rewrite take_view, drop_view by congruence.
  rewrite mam_spongos_encr_into, Ed by (done || congruence).
  rewrite (app_assoc pre os), with_view_at; [done|rewrite !length_app; congruence|done].
Qed.

(** What is squeezed, for any trits in the place it goes to. *)
Lemma squeezed s n : spongos_ok s -> exists os s', length os = n /\ trits_ok os /\ spongos_ok s' /\
  (forall xs, length xs = n -> spongos_map squeeze_trit s xs = (os, s')).
Proof.
  intros Hs. destruct (spongos_map squeeze_trit s (replicate n 0)) as [os s'] eqn:E.
  assert (trits_ok (replicate n 0)) as Hz by (apply Forall_replicate; unfold is_trit; lia).
  destruct (spongos_map_ok squeeze_trit _ squeeze_keeps Hz s Hs) as [Ho Hs'].
  pose proof (length_spongos_map squeeze_trit (replicate n 0) s) as Hl.
  rewrite E, length_replicate in *. cbn [fst snd] in *. exists os, s'. split_and!; [done..|].
  intros xs Hx. rewrite <- E. apply squeeze_outputs. by rewrite length_replicate.
Qed.

Lemma wrap_squeeze_as s n os s' : spongos_ok s -> length os = (3 * n)%nat ->
  (forall xs, length xs = (3 * n)%nat -> spongos_map squeeze_trit s xs = (os, s')) ->
  forall pre cs rest post, length cs = length os -> trits_ok cs ->
  wrap_squeeze_ntrytes n s (view pre (cs ++ rest) post) () = (s', view (pre ++ os) rest post).
Proof.
  intros Hs Hl Hm pre cs rest post Hc Hct.
  unfold wrap_squeeze_ntrytes, pb3_wrap_squeeze_ntrytes, pb3_sizeof_ntrytes, NUMBER_OF_TRITS_IN_A_TRYTE,
    pb3_trits_take, trits_advance.
  rewrite take_view, drop_view by congruence. rewrite mam_spongos_squeeze_view, Hm by (done || congruence).
  rewrite (app_assoc pre os), with_view_at; [done|rewrite !length_app; congruence|done].
Qed.

Lemma unwrap_squeeze_view s n pre ts rest post : spongos_ok s -> trits_ok ts -> length ts = (3 * n)%nat ->
  pb3_unwrap_squeeze_ntrytes s (view pre (ts ++ rest) post) n =
  (let '(os, s') := spongos_map squeeze_trit s ts in
   (if bool_decide (os = ts) then RC_OK else RC_MAM_PB3_BAD_MAC, s', view (pre ++ ts) rest post)).
Proof.
  intros Hs Ht Hl. unfold pb3_unwrap_squeeze_ntrytes, pb3_sizeof_ntrytes, NUMBER_OF_TRITS_IN_A_TRYTE.
  rewrite size_view, length_app. destruct (Nat.ltb_spec (length ts + length rest) (3 * n)); [lia|].
  unfold pb3_trits_take, trits_advance. rewrite take_view, drop_view by done.
  pose proof (mam_spongos_squeeze_eq_view s pre ts (rest ++ post) Hs Ht) as H'.
  destruct (spongos_map squeeze_trit s ts) as [os s']. destruct H' as (r & -> & Hr).
  case_bool_decide as Hd; destruct r; try done; [by apply Hr in Hd|by destruct Hd; apply Hr].
Qed.

#[export] Instance squeeze_ntrytes_codec n :
  Codec (fun _ => True) (fun _ => (3 * n)%nat) (wrap_squeeze_ntrytes n) (unwrap_squeeze_ntrytes n).
Proof.
  intros s [] Hs _. destruct (squeezed s (3 * n) Hs) as (os & s' & Hl & Ht & Hs' & Hm).
  exists os, s'. split_and!; [done..| |].
  { intros pre cs rest post Hc Hct Hr. exists rest. split_and!; [done..|]. by apply wrap_squeeze_as. }
  intros pre rest post.
  unfold unwrap_squeeze_ntrytes. rewrite unwrap_squeeze_view, Hm by done. by rewrite bool_decide_true.
Qed.

#[export] Instance squeeze_ntrytes_exact n :
  ExactCodec (fun _ => True) (fun _ => (3 * n)%nat) (wrap_squeeze_ntrytes n) (unwrap_squeeze_ntrytes n).
Proof.
  intros s pre cs post oa s' b Hs Hc E. assert (3 * n <= length cs)%nat as Hn.
  { revert E. unfold unwrap_squeeze_ntrytes, pb3_unwrap_squeeze_ntrytes, pb3_sizeof_ntrytes, NUMBER_OF_TRITS_IN_A_TRYTE.
    rewrite size_view. destruct (Nat.ltb_spec (length cs) (3 * n)); [discriminate|done]. }
  rewrite <- (take_drop (3 * n) cs) in E. set (ts := take _ cs) in *. set (rest := drop _ cs) in *.
  assert (length ts = (3 * n)%nat) as Hl by (unfold ts; rewrite length_take; lia).
  assert (trits_ok ts) as Ht by by apply Forall_take.
  unfold unwrap_squeeze_ntrytes in E. rewrite unwrap_squeeze_view in E by done.
  destruct (squeezed s (3 * n) Hs) as (os & s2 & Hlo & Hto & Hs2 & Hm). rewrite Hm in E by done.
  case_bool_decide as Hd; [|discriminate]. subst os. cbn [success] in E. injection E as <- <- <-.
  exists (), ts, rest. unfold ts at 1, rest at 1. rewrite take_drop.
  split_and!; try done. rewrite <- (take_drop (3 * n) cs). by apply wrap_squeeze_as.
Qed.

(** ** Messages

    A field of a message, with what is needed to read it: [shape].  The external fields are
    known to both sides and are not in the buffer. *)
Inductive field :=
  | FTryte (tryte : Z)
  | FTrint (trint : Z)
  | FSize (size : Z)
  | FAbsorb (xs : list Z)
  | FCrypt (xs : list Z)
  | FSqueeze (n : nat)
  | FExternal (xs : list Z)
  | FCommit.

Inductive shape :=
  | STryte | STrint | SSize | SAbsorb (n : nat) | SCrypt (n : nat) | SSqueeze (n : nat)
  | SExternal (xs : list Z) | SCommit.

Definition shape_of (f : field) : shape :=
  match f with
  | FTryte _ => STryte | FTrint _ => STrint | FSize _ => SSize
  | FAbsorb xs => SAbsorb (length xs) | FCrypt xs => SCrypt (length xs) | FSqueeze n => SSqueeze n
  | FExternal xs => SExternal xs | FCommit => SCommit
  end.

Definition field_ok (f : field) : Prop :=
  match f with
  | FTryte a => -13 <= a <= 13
  | FTrint a => -9841 <= a <= 9841
  | FSize a => 0 <= a <= MAM_TRITS_SIZE_MAX
  | FAbsorb xs | FCrypt xs | FExternal xs => trits_ok xs
  | FSqueeze _ | FCommit => True
  end.

Definition field_size (f : field) : nat :=
  match f with
  | FTryte _ => 3 | FTrint _ => 9 | FSize a => trits_sizeof_size_t a
  | FAbsorb xs | FCrypt xs => length xs
  | FSqueeze n => 3 * n
  | FExternal _ | FCommit => 0
  end.

Definition wrap_field (s : mam_spongos_t) (b : trits_t) (f : field) : mam_spongos_t * trits_t :=
  match f with
  | FTryte a => pb3_wrap_absorb_tryte s b a
  | FTrint a => pb3_wrap_absorb_trint s b a
  | FSize a => pb3_wrap_absorb_size_t s b a
  | FAbsorb xs => pb3_wrap_absorb_ntrytes s b (trits_from_rep (length xs) xs)
  | FCrypt xs => pb3_wrap_crypt_ntrytes s b (trits_from_rep (length xs) xs)
  | FSqueeze n => pb3_wrap_squeeze_ntrytes s b n
  | FExternal xs => (pb3_absorb_external_ntrytes s (trits_from_rep (length xs) xs), b)
  | FCommit => (mam_spongos_commit s, b)
  end.

Definition read {A} (g : A -> field) (r : retcode_t * option A * mam_spongos_t * trits_t)
    : retcode_t * option field * mam_spongos_t * trits_t :=
  let '(ret, a, s, b) := r in (ret, g <$> a, s, b).

Definition unwrap_field (s : mam_spongos_t) (b : trits_t) (sh : shape)
    : retcode_t * option field * mam_spongos_t * trits_t :=
  match sh with
  | STryte => read FTryte (pb3_unwrap_absorb_tryte s b)
  | STrint => read FTrint (pb3_unwrap_absorb_trint s b)
  | SSize => read FSize (pb3_unwrap_absorb_size_t s b)
  | SAbsorb n => read FAbsorb (unwrap_absorb_ntrytes n s b)
  | SCrypt n => read FCrypt (unwrap_crypt_ntrytes n s b)
  | SSqueeze n => read (fun _ => FSqueeze n) (unwrap_squeeze_ntrytes n s b)
  | SExternal xs => (RC_OK, Some (FExternal xs), pb3_absorb_external_ntrytes s (trits_from_rep (length xs) xs), b)
  | SCommit => (RC_OK, Some FCommit, mam_spongos_commit s, b)
  end.

Fixpoint wrap_fields (s : mam_spongos_t) (b : trits_t) (fs : list field) : mam_spongos_t * trits_t :=
  match fs with
  | [] => (s, b)
  | f :: fs => let '(s, b) := wrap_field s b f in wrap_fields s b fs
  end.

Fixpoint unwrap_fields (s : mam_spongos_t) (b : trits_t) (shs : list shape)
    : retcode_t * option (list field) * mam_spongos_t * trits_t :=
  match shs with
  | [] => (RC_OK, Some [], s, b)
  | sh :: shs =>
      match unwrap_field s b sh with
      | (RC_OK, f, s, b) =>
          let '(ret, fs, s, b) := unwrap_fields s b shs in (ret, f ← f; fs ← fs; Some (f :: fs), s, b)
      | (ret, _, s, b) => (ret, None, s, b)
      end
  end.

Lemma codec_map {A} (P : A -> Prop) size wrap unwrap (g : A -> field) a s :
  Codec P size wrap unwrap -> spongos_ok s -> P a ->
  exists ts s', length ts = size a /\ trits_ok ts /\ spongos_ok s' /\ wraps_as wrap s a s' ts /\
    forall pre rest post,
      read g (unwrap s (view pre (ts ++ rest) post)) = (RC_OK, Some (g a), s', view (pre ++ ts) rest post).
Proof.
  intros H Hs Ha. destruct (H s a Hs Ha) as (ts & s' & Hl & Ht & Hs' & Hw & Hu).
  exists ts, s'. split_and!; [done..|]. intros pre rest post. by rewrite Hu.
Qed.

Lemma no_trits pre cs rest post : length cs = length (@nil Z) -> view pre (cs ++ rest) post = view (pre ++ []) rest post.
Proof. intros Hl. destruct cs; [|discriminate]. by rewrite app_nil_r. Qed.

Lemma absorb_external_rep s xs : spongos_ok s -> trits_ok xs ->
  pb3_absorb_external_ntrytes s (trits_from_rep (length xs) xs) = (spongos_map absorb_trit s xs).2.
Proof. intros. unfold pb3_absorb_external_ntrytes. rewrite from_rep_view by done. by apply mam_spongos_absorb_view. Qed.

Lemma commit_keeps_ok s : spongos_ok s -> spongos_ok (mam_spongos_commit s).
Proof. intros [Hl _ Ht]. destruct s as [st p]. by apply mam_spongos_commit_ok. Qed.

Lemma field_codec s f : spongos_ok s -> field_ok f ->
  exists ts s', length ts = field_size f /\ trits_ok ts /\ spongos_ok s' /\ wraps_as wrap_field s f s' ts /\
    forall pre rest post, unwrap_field s (view pre (ts ++ rest) post) (shape_of f) =
      (RC_OK, Some f, s', view (pre ++ ts) rest post).
Proof.
  intros Hs Hf. destruct f as [a|a|a|xs|xs|n|xs|]; cbn [field_ok field_size shape_of unwrap_field] in *.
  - exact (codec_map _ _ _ _ FTryte a s tryte_codec Hs Hf).
  - exact (codec_map _ _ _ _ FTrint a s trint_codec Hs Hf).
  - exact (codec_map _ _ _ _ FSize a s absorb_size_t_codec Hs Hf).
  - exact (codec_map _ _ _ _ FAbsorb xs s (absorb_ntrytes_codec (length xs)) Hs (conj eq_refl Hf)).
  - exact (codec_map _ _ _ _ FCrypt xs s (crypt_ntrytes_codec (length xs)) Hs (conj eq_refl Hf)).
  - exact (codec_map _ _ _ _ (fun _ => FSqueeze n) () s (squeeze_ntrytes_codec n) Hs I).
  - exists [], (spongos_map absorb_trit s xs).2. split_and!; [done|done|by apply absorbed_ok| |].
    + intros pre cs rest post Hl _ Hr. exists rest. split_and!; [done..|]. cbn [wrap_field].
      by rewrite absorb_external_rep, (no_trits pre cs rest post Hl) by done.
    + intros pre rest post. rewrite absorb_external_rep by done. by rewrite (no_trits pre [] rest post).
  - exists [], (mam_spongos_commit s). split_and!; [done|done|by apply commit_keeps_ok| |].
    + intros pre cs rest post Hl _ Hr. exists rest. split_and!; [done..|]. cbn [wrap_field].
      by rewrite (no_trits pre cs rest post Hl).
    + intros pre rest post. by rewrite (no_trits pre [] rest post).
Qed.

Definition fields_size (fs : list field) : nat := sum_list_with field_size fs.

Lemma fields_codec fs : Forall field_ok fs -> forall s, spongos_ok s ->
  exists ts s', length ts = fields_size fs /\ trits_ok ts /\ spongos_ok s' /\ wraps_as wrap_fields s fs s' ts /\
    forall pre rest post, unwrap_fields s (view pre (ts ++ rest) post) (map shape_of fs) =
      (RC_OK, Some fs, s', view (pre ++ ts) rest post).
Proof.
  induction 1 as [|f fs Hf _ IH]; intros s Hs.
  { exists [], s. split_and!; [done..| |].
    - intros pre cs rest post Hl _ Hr. exists rest. split_and!; [done..|]. by rewrite (no_trits pre cs rest post Hl).
    - intros pre rest post. by rewrite (no_trits pre [] rest post). }
  destruct (field_codec s f Hs Hf) as (ts1 & s1 & L1 & T1 & S1 & W1 & U1).
  destruct (IH s1 S1) as (ts2 & s2 & L2 & T2 & S2 & W2 & U2).
  exists (ts1 ++ ts2), s2. rewrite length_app. cbn [fields_size sum_list_with map] in *.
  split_and!; [unfold fields_size in *; cbn [sum_list_with]; lia|by apply Forall_app|done| |].
  - intros pre cs rest post Hl Hc Hr. rewrite length_app in Hl. rewrite <- (take_drop (length ts1) cs), <- app_assoc.
    assert (length (take (length ts1) cs) = length ts1) as Lc by (rewrite length_take; lia).
    destruct (W1 pre (take (length ts1) cs) (drop (length ts1) cs ++ rest) post Lc) as (r1 & Lr1 & Tr1 & E1);
      [by apply Forall_take|apply Forall_app; split; [by apply Forall_drop|done]|].
    rewrite length_app, length_drop in Lr1. rewrite <- (take_drop (length ts2) r1) in E1.
    destruct (W2 (pre ++ ts1) (take (length ts2) r1) (drop (length ts2) r1) post) as (r2 & Lr2 & Tr2 & E2);
      [rewrite length_take; lia|by apply Forall_take|by apply Forall_drop|].
    exists r2. split; [rewrite Lr2, length_drop; lia|]. split; [done|].
    cbn [wrap_fields]. rewrite E1, E2. by rewrite <- app_assoc.
  - intros pre rest post. cbn [unwrap_fields]. rewrite <- app_assoc, U1, U2. cbn. by rewrite <- app_assoc.
Qed.


(** The fields that have one encoding only. *)
Definition exact_shape (sh : shape) : Prop := match sh with SSize => False | SExternal xs => trits_ok xs | _ => True end.

Lemma exact_map {A} (P : A -> Prop) size wrap unwrap (g : A -> field) :
  ExactCodec P size wrap unwrap -> forall s pre cs post fo s' b, spongos_ok s -> trits_ok cs ->
  read g (unwrap s (view pre cs post)) = (RC_OK, fo, s', b) ->
  exists a ts rest, fo = Some (g a) /\ P a /\ cs = ts ++ rest /\ length ts = size a /\
    b = view (pre ++ ts) rest post /\ spongos_ok s' /\ wrap s (view pre cs post) a = (s', b).
Proof.
  intros H s pre cs post fo s' b Hs Hc E.
  destruct (unwrap s (view pre cs post)) as [[[ret oa] s2] b2] eqn:Eu. cbn in E. injection E as -> <- <- <-.
  destruct (H s pre cs post oa s2 b2 Hs Hc Eu) as (a & ts & rest & -> & H'). by exists a, ts, rest.
Qed.

Lemma field_exact s sh pre cs post fo s' b : spongos_ok s -> trits_ok cs -> exact_shape sh ->
  unwrap_field s (view pre cs post) sh = (RC_OK, fo, s', b) ->
  exists f ts rest, fo = Some f /\ field_ok f /\ shape_of f = sh /\ cs = ts ++ rest /\
    b = view (pre ++ ts) rest post /\ spongos_ok s' /\ wrap_field s (view pre cs post) f = (s', b).
Proof.
  intros Hs Hc Hsh E. destruct sh as [| | |n|n|n|xs|]; cbn [unwrap_field exact_shape] in *; try done.
  - destruct (exact_map _ _ _ _ FTryte tryte_exact _ _ _ _ _ _ _ Hs Hc E)
      as (a & ts & rest & -> & Ha & -> & _ & -> & ? & ?). by exists (FTryte a), ts, rest.
  - destruct (exact_map _ _ _ _ FTrint trint_exact _ _ _ _ _ _ _ Hs Hc E)
      as (a & ts & rest & -> & Ha & -> & _ & -> & ? & ?). by exists (FTrint a), ts, rest.
  - destruct (exact_map _ _ _ _ FAbsorb (absorb_ntrytes_exact n) _ _ _ _ _ _ _ Hs Hc E)
      as (a & ts & rest & -> & [<- Ha] & -> & _ & -> & ? & ?). by exists (FAbsorb a), ts, rest.
  - destruct (exact_map _ _ _ _ FCrypt (crypt_ntrytes_exact n) _ _ _ _ _ _ _ Hs Hc E)
      as (a & ts & rest & -> & [<- Ha] & -> & _ & -> & ? & ?). by exists (FCrypt a), ts, rest.
  - destruct (exact_map _ _ _ _ (fun _ => FSqueeze n) (squeeze_ntrytes_exact n) _ _ _ _ _ _ _ Hs Hc E)
      as (a & ts & rest & -> & Ha & -> & _ & -> & ? & Hw). destruct a. by exists (FSqueeze n), ts, rest.
  - injection E as <- <- <-. exists (FExternal xs), [], cs. rewrite app_nil_r.
    split_and!; try done. rewrite absorb_external_rep by done. by apply absorbed_ok.
  - injection E as <- <- <-. exists FCommit, [], cs. rewrite app_nil_r.
    split_and!; try done. by apply commit_keeps_ok.
Qed.

Lemma fields_exact shs : Forall exact_shape shs -> forall s pre cs post ofs s' b, spongos_ok s -> trits_ok cs ->
  unwrap_fields s (view pre cs post) shs = (RC_OK, ofs, s', b) ->
  exists fs, ofs = Some fs /\ Forall field_ok fs /\ map shape_of fs = shs /\
    wrap_fields s (view pre cs post) fs = (s', b).
Proof.
  induction 1 as [|sh shs Hsh _ IH]; intros s pre cs post ofs s' b Hs Hc E.
  { cbn in E. injection E as <- <- <-. by exists []. }
  cbn [unwrap_fields] in E. destruct (unwrap_field s (view pre cs post) sh) as [[[ret fo] s1] b1] eqn:E1.
  assert (ret = RC_OK) as -> by (destruct ret; congruence).
  destruct (field_exact s sh pre cs post fo s1 b1 Hs Hc Hsh E1) as (f & ts & rest & -> & Hf & <- & -> & -> & Hs1 & Hw).
  destruct (unwrap_fields s1 (view (pre ++ ts) rest post) shs) as [[[ret2 ofs2] s2] b2] eqn:E2.
  injection E as -> <- <- <-. apply Forall_app in Hc as [_ Hr].
  destruct (IH s1 (pre ++ ts) rest post ofs2 s2 b2 Hs1 Hr E2) as (fs & -> & Hfs & <- & Hw2).
  exists (f :: fs). split_and!; [done|by constructor|done|]. cbn [wrap_fields]. by rewrite Hw.
Qed.

(** Nothing else is accepted.  When a message without sizes is read, writing the fields
    that were read over the buffer changes nothing: the same trits, the same state and the
    same place.  In particular every checksum in it is the one that the writer would have
    squeezed. *)
Theorem message_exact (s : mam_spongos_t) (buffer : trits_t) (shs : list shape) ofs s' buffer'
    (Hs : spongos_ok s) (Hb : valid buffer) (Ht : trits_ok (trits_get buffer)) (Hshs : Forall exact_shape shs)
    (Hread : unwrap_fields s buffer shs = (RC_OK, ofs, s', buffer')) :
  exists fs, ofs = Some fs /\ map shape_of fs = shs /\ Forall field_ok fs /\
    wrap_fields s buffer fs = (s', buffer').
Proof.
  rewrite (valid_view _ Hb) in Hread |- *.
  destruct (fields_exact shs Hshs _ _ _ _ _ _ _ Hs Ht Hread) as (fs & -> & Hok & <- & Hw). by exists fs.
Qed.

Lemma zero_spongos_is_ok : spongos_ok (mk_spongos (replicate STATESIZE 0) 0).
Proof.
  split; [apply length_replicate|apply Nat.ltb_lt; reflexivity|]. apply Forall_replicate. unfold is_trit. lia.
Qed.


Lemma message_exact_witness : exists s buffer fs s' buffer',
  unwrap_fields s buffer [STryte; SAbsorb 3] = (RC_OK, Some fs, s', buffer') /\
  wrap_fields s buffer fs = (s', buffer').
Proof.
  set (s := mk_spongos (replicate STATESIZE 0) 0). set (buffer := trits_from_rep 6 [1; 0; 0; 1; 1; -1]).
  destruct (unwrap_fields s buffer [STryte; SAbsorb 3]) as [[[ret ofs] s'] buffer'] eqn:E.
  assert ((unwrap_fields s buffer [STryte; SAbsorb 3]).1.1.1 = RC_OK) as Hret by reflexivity.
  rewrite E in Hret. cbn in Hret. subst ret.
  destruct (message_exact s buffer [STryte; SAbsorb 3] ofs s' buffer') as (fs & -> & _ & _ & Hw).
  - exact zero_spongos_is_ok.
  - unfold valid; cbn; lia.
  - unfold buffer. cbn. unfold is_trit. repeat constructor; lia.
  - repeat constructor.
  - exact E.
  - by exists s, buffer, fs, s', buffer'.
Defined.

(** A size can be written with more trytes than it needs: the encodings of sizes are not exact. *)
Theorem size_t_two_encodings : exists ts1 ts2, ts1 <> ts2 /\ length ts1 = length ts2 /\
  (pb3_decode_size_t (trits_from_rep 9 ts1)).1 = (RC_OK, Some 1) /\
  (pb3_decode_size_t (trits_from_rep 9 ts2)).1 = (RC_OK, Some 1).
Proof. by exists [1; 0; 0; 1; 0; 0; 0; 0; 0], [-1; 1; 0; 1; 0; 0; 0; 0; 0]. Qed.

(** ** What is serialized is restored *)
Theorem spongos_serialize_roundtrip (s s0 : mam_spongos_t) (buffer : trits_t)
    (Hs : spongos_ok s) (H0 : length (sponge s0) = STATESIZE) (Hb : valid buffer)
    (Hroom : (mam_spongos_serialized_size s <= trits_size buffer)%nat) :
  let buffer' := mam_spongos_serialize s buffer in
  mam_spongos_deserialize (with_p buffer (t_p buffer')) s0 = (RC_OK, s, buffer') /\
  trits_size buffer' = (trits_size buffer - mam_spongos_serialized_size s)%nat.
Proof.
  destruct s as [st p]. destruct Hs as [Hl Hp Ht]. cbn [sponge pos] in *.
  assert (0 <= Z.of_nat p <= MAM_TRITS_SIZE_MAX) as Hn.
  { split; [lia|]. apply Z.le_trans with 486; [unfold MAM_SPONGE_RATE in Hp; lia|unfold MAM_TRITS_SIZE_MAX; lia]. }
  assert (trits_from_rep MAM_SPONGE_WIDTH st = view [] st []) as Est by (apply from_rep_view; exact Hl).
  assert (trits_from_rep MAM_SPONGE_WIDTH (sponge s0) = view [] (sponge s0) []) as Es0
    by (apply from_rep_view; exact H0).
  rewrite (valid_view _ Hb) in Hroom |- *. set (cs := trits_get buffer) in *.
  set (pre := take _ _) in *. set (post := drop _ _) in *. rewrite size_view in *.
  unfold mam_spongos_serialized_size, pb3_sizeof_size_t in *. cbn [pos] in *.
  change MAM_SPONGE_WIDTH with STATESIZE in Hroom. rewrite <- Hl in Hroom.
  destruct (encode_size_t_view (Z.of_nat p) pre cs post Hn ltac:(lia)) as (ts & ds & Lt & Ot & Bt & Ld & Od & Bd & E).
  cbv zeta. unfold mam_spongos_serialize. cbn [pos sponge]. unfold pb3_encode_size_t. rewrite E, Est.
  set (m := (length cs - trits_sizeof_size_t (Z.of_nat p))%nat).
  assert (replicate m 0 = replicate (length st) 0 ++ replicate (m - length st) 0) as ->
    by (rewrite <- replicate_add; f_equal; unfold m; lia).
  rewrite encode_ntrytes_view by apply length_replicate. split.
  - rewrite mem_view, <- !app_assoc, (app_assoc st), (app_assoc ds), (app_assoc ts).
    rewrite with_view by (rewrite !length_app, length_replicate, Lt, Ld; unfold m, trits_sizeof_size_t in *; lia).
    unfold mam_spongos_deserialize, pb3_decode_size_t.
    rewrite (decode_size_t_view _ _ _ _ _ _ Lt Bt), Bd, uwrap_small; try done;
      [|unfold MAM_TRITS_SIZE_MAX in Hn; clear - Hn; lia|exact (proj1 (size_t_trytes_spec _ Hn))].
    cbn [sponge pos fmap option_fmap option_map default]. rewrite Es0, Nat2Z.id.
    rewrite decode_ntrytes_view by (rewrite H0, Hl; exact eq_refl). cbn [app]. rewrite app_nil_r.
    by rewrite <- !app_assoc.
  - rewrite size_view, length_replicate. change MAM_SPONGE_WIDTH with STATESIZE. rewrite <- Hl. unfold m. lia.
Qed.

(** The position that is read is not checked: a spongos can be restored with its position
    behind its outer part. *)
Theorem restored_position_unchecked (s0 : mam_spongos_t) (st rest : list Z) (p : Z)
    (H0 : length (sponge s0) = STATESIZE) (Hst : length st = STATESIZE) (Hp : 0 <= p <= MAM_TRITS_SIZE_MAX) :
  exists ts, forall pre post,
    (mam_spongos_deserialize (view pre (ts ++ st ++ rest) post) s0).1 = (RC_OK, mk_spongos st (Z.to_nat p)).
Proof.
  destruct (size_t_codec p Hp) as (ts & _ & _ & _ & Hd). exists ts. intros pre post.
  unfold mam_spongos_deserialize. rewrite Hd. cbn [sponge pos fmap option_fmap option_map default].
  assert (trits_from_rep MAM_SPONGE_WIDTH (sponge s0) = view [] (sponge s0) []) as ->
    by (apply from_rep_view; exact H0).
  rewrite decode_ntrytes_view by congruence. cbn [app]. by rewrite app_nil_r.
Qed.
