(* ===== verification/Mss.v ===== *)
(** * Merkle signatures of MAM

    [mam/mss/mss_common.c]: keys of one-time signatures, numbered by the leaves of a Merkle
    tree whose root is the public key.  How the tree is kept is the business of
    [mss_classic.c] (all of it) or of [mss_traversal.c] (the current path and what is needed
    for the next ones): the class [MssTree] has the operations that the common part calls, and
    [MssPaths] states what it needs of them.  [MssClassic] and [MssTraversal] implement both.

    A hash is its 243 trits and an array of hashes is the list of them: every offset into the
    arrays is a multiple of [MAM_MSS_MT_HASH_SIZE].  The sponges of the stack are initialised
    by every operation that uses them: here they are zero. *)
From S2P Require Import Prelude Errors Trits Troika Ftroika MamTrits MamSponge Pb3 Wots.

(** ** Sizes *)
Definition MAM_MSS_PK_SIZE : nat := 243.
Definition MAM_MSS_SKN_TREE_DEPTH_SIZE : nat := 4.
Definition MAM_MSS_SKN_KEY_NUMBER_SIZE : nat := 14.
Definition MAM_MSS_SKN_SIZE : nat := MAM_MSS_SKN_TREE_DEPTH_SIZE + MAM_MSS_SKN_KEY_NUMBER_SIZE.
Definition MAM_MSS_APATH_SIZE (d : nat) : nat := MAM_WOTS_PUBLIC_KEY_SIZE * d.
Definition MAM_MSS_SIG_SIZE (d : nat) : nat := MAM_MSS_SKN_SIZE + MAM_WOTS_SIGNATURE_SIZE + MAM_MSS_APATH_SIZE d.
Definition MAM_MSS_MAX_D : nat := 20.
Definition MAM_MSS_MT_HASH_SIZE : nat := MAM_WOTS_PUBLIC_KEY_SIZE.
Definition MAM_MSS_MAX_SKN (d : nat) : Z := 2 ^ Z.of_nat d - 1.

(** What the two implementations have in common. *)
Record mss_keys := mk_keys {
  height : nat; skn : Z; prng : list Z;
  nonce1 : trits_t; nonce2 : trits_t; nonce3 : trits_t; nonce4 : trits_t;
  root : list Z
}.
Definition with_skn (k : mss_keys) (n : Z) : mss_keys :=
  mk_keys (height k) n (prng k) (nonce1 k) (nonce2 k) (nonce3 k) (nonce4 k) (root k).
Definition with_root (k : mss_keys) (r : list Z) : mss_keys :=
  mk_keys (height k) (skn k) (prng k) (nonce1 k) (nonce2 k) (nonce3 k) (nonce4 k) r.

Class MssTree (M : Type) := {
  keys : M -> mss_keys;
  mam_mss_auth_path : M -> Z -> trits_t -> list Z;
  mam_mss_next : M -> bool * M;
  mss_mt_serialized_size : M -> nat;
  mss_mt_serialize : M -> trits_t -> trits_t
}.

(** ** Hashes and leaves *)
Definition mss_hash2 (s : mam_spongos_t) (hashes0 hashes1 parent_hash : trits_t) : list Z :=
  (mam_spongos_hashn s [hashes0; hashes1] parent_hash).2.

Definition mss_gen_sk (k : mss_keys) (i : Z) : list Z :=
  let nonce_i := memory MAM_MSS_SKN_SIZE in
  let wots := (mam_wots_reset []).2 in
  let nonce_i := with_p nonce_i (trits_put18 nonce_i i) in
  (mam_wots_gen_sk5 (replicate STATESIZE 0) (replicate 3 0) wots (prng k)
     (nonce1 k) (nonce2 k) (nonce3 k) (nonce4 k) nonce_i).2.

Definition mss_mt_gen_leaf (k : mss_keys) (i : Z) (pk : trits_t) : list Z :=
  (mam_wots_gen_pk zero_spongos zero_spongos (mss_gen_sk k i) pk).2.

(** ** Signatures *)
Definition mam_mss_remaining_sks (k : mss_keys) : Z :=
  if skn k >? MAM_MSS_MAX_SKN (height k) then 0 else MAM_MSS_MAX_SKN (height k) - skn k + 1.

(** The memory of [skn_] is returned. *)
Definition mam_mss_skn (k : mss_keys) (skn_ : trits_t) : list Z :=
  let trits := memory MAM_MSS_SKN_SIZE in
  let trits := with_p trits (trits_put6 trits (Z.of_nat (height k))) in
  let skn_ := with_p skn_ (trits_copy (trits_take trits MAM_MSS_SKN_TREE_DEPTH_SIZE)
    (trits_take skn_ MAM_MSS_SKN_TREE_DEPTH_SIZE)) in
  let trits := with_p trits (trits_put18 trits (skn k)) in
  trits_copy (trits_take trits MAM_MSS_SKN_KEY_NUMBER_SIZE) (trits_drop skn_ MAM_MSS_SKN_TREE_DEPTH_SIZE).

(** The height is a [uint8_t] and the number of the key a [uint32_t]. *)
Definition mss_parse_skn (trits : trits_t) : option (nat * Z) :=
  let ts := memory MAM_MSS_SKN_SIZE in
  let ts := with_p ts (trits_copy (trits_take trits MAM_MSS_SKN_TREE_DEPTH_SIZE)
    (trits_take ts MAM_MSS_SKN_TREE_DEPTH_SIZE)) in
  let height := Z.to_nat (trits_get6 ts mod 2 ^ 8) in
  let ts := with_p ts (trits_copy (trits_drop trits MAM_MSS_SKN_TREE_DEPTH_SIZE)
    (trits_take ts MAM_MSS_SKN_KEY_NUMBER_SIZE)) in
  let skn := trits_get18 ts mod 2 ^ 32 in
  if (MAM_MSS_MAX_D <? height)%nat || (skn >? MAM_MSS_MAX_SKN height) then None else Some (height, skn).

(** Every turn drops a hash: the size of the path is enough fuel. *)
Fixpoint fold_auth_path_loop (fuel : nat) (spongos : mam_spongos_t) (skn : Z) (auth_path : trits_t) (pk : list Z)
    : list Z :=
  match fuel with
  | O => pk
  | S fuel =>
      if trits_is_empty auth_path then pk else
      let part := trits_take auth_path MAM_MSS_MT_HASH_SIZE in
      let pk_ := trits_from_rep MAM_MSS_MT_HASH_SIZE pk in
      let '(hashes0, hashes1) := if skn mod 2 =? 0 then (pk_, part) else (part, pk_) in
      let pk := mss_hash2 spongos hashes0 hashes1 pk_ in
      fold_auth_path_loop fuel spongos (skn / 2) (trits_drop auth_path MAM_MSS_MT_HASH_SIZE) pk
  end.
Definition mss_fold_auth_path (spongos : mam_spongos_t) (skn : Z) (auth_path : trits_t) (pk : list Z) : list Z :=
  fold_auth_path_loop (trits_size auth_path) spongos skn auth_path pk.

Definition mam_mss_verify (mt_spongos : mam_spongos_t) (hash sig pk : trits_t) : bool :=
  let calculated_pk := memory MAM_MSS_MT_HASH_SIZE in
  if (trits_size sig <? MAM_MSS_SIG_SIZE 0)%nat then false else
  match mss_parse_skn (trits_take sig MAM_MSS_SKN_SIZE) with
  | None => false
  | Some (height, skn) =>
      let sig := trits_drop sig MAM_MSS_SKN_SIZE in
      if negb (trits_size sig =? MAM_MSS_SIG_SIZE height - MAM_MSS_SKN_SIZE)%nat then false else
      let calculated_pk :=
        (mam_wots_recover zero_spongos hash (trits_take sig MAM_WOTS_SIGNATURE_SIZE) calculated_pk).2 in
      let sig := trits_drop sig MAM_WOTS_SIGNATURE_SIZE in
      let calculated_pk := mss_fold_auth_path mt_spongos skn sig calculated_pk in
      trits_cmp_eq (trits_from_rep MAM_MSS_MT_HASH_SIZE calculated_pk) pk
  end.

Section Signing.
Context {M : Type} `{MssTree M}.

(** The code and the memory of the signature. *)
Definition mam_mss_sign (mss : M) (hash sig : trits_t) : retcode_t * list Z :=
  if mam_mss_remaining_sks (keys mss) =? 0 then (RC_MAM_MSS_EXHAUSTED, t_p sig) else
  let sig := with_p sig (mam_mss_skn (keys mss) (trits_take sig MAM_MSS_SKN_SIZE)) in
  let sig := trits_drop sig MAM_MSS_SKN_SIZE in
  let wots := mss_gen_sk (keys mss) (skn (keys mss)) in
  let sig := with_p sig (mam_wots_sign zero_spongos wots hash (trits_take sig MAM_WOTS_SIGNATURE_SIZE)).2 in
  let sig := trits_drop sig MAM_WOTS_SIGNATURE_SIZE in
  (RC_OK, mam_mss_auth_path mss (skn (keys mss)) sig).

Definition mam_mss_sign_and_next (mss : M) (hash sig : trits_t) : retcode_t * M * list Z :=
  match mam_mss_sign mss hash sig with
  | (RC_OK, mem) => (RC_OK, (mam_mss_next mss).2, mem)
  | (ret, mem) => (ret, mss, mem)
  end.

Definition mam_mss_serialized_size (mss : M) : nat :=
  MAM_MSS_SKN_TREE_DEPTH_SIZE + MAM_MSS_SKN_KEY_NUMBER_SIZE + mss_mt_serialized_size mss + MAM_MSS_PK_SIZE.

Definition mam_mss_serialize (mss : M) (buffer : trits_t) : trits_t :=
  let buffer := with_p buffer (mam_mss_skn (keys mss) (trits_take buffer MAM_MSS_SKN_SIZE)) in
  let buffer := (trits_advance buffer MAM_MSS_SKN_SIZE).2 in
  let buffer := mss_mt_serialize mss buffer in
  pb3_encode_ntrytes (trits_from_rep MAM_MSS_PK_SIZE (root (keys mss))) buffer.
End Signing.

#[local] Opaque mam_sponge_transform.

Lemma hash2_view s p1 l q1 p2 r q2 p ys q : length (sponge s) = STATESIZE -> trits_ok l -> trits_ok r ->
  mss_hash2 s (view p1 l q1) (view p2 r q2) (view p ys q) = p ++ digest (length ys) (l ++ r) ++ q.
Proof.
  intros Hs Hl Hr. unfold mss_hash2, mam_spongos_hashn, mam_spongos_absorbn. cbv zeta. cbn [foldl].
  rewrite init_zero by done.
  destruct (spongos_map_ok absorb_trit l absorb_keeps Hl _ zero_spongos_ok) as [_ Hok].
  rewrite (mam_spongos_absorb_view zero_spongos p1 l q1 zero_spongos_ok Hl), (mam_spongos_absorb_view _ p2 r q2 Hok Hr).
  assert ((spongos_map absorb_trit (spongos_map absorb_trit zero_spongos l).2 r).2 =
    (spongos_map absorb_trit zero_spongos (l ++ r)).2) as ->.
  { rewrite spongos_map_app. destruct (spongos_map absorb_trit zero_spongos l) as [o1 s1].
    cbn [snd]. by destruct (spongos_map absorb_trit s1 r). }
  assert (trits_ok (l ++ r)) as Hlr by by apply Forall_app.
  destruct (spongos_map_ok absorb_trit (l ++ r) absorb_keeps Hlr _ zero_spongos_ok) as [_ Hok'].
  apply commit_ok in Hok'. rewrite mam_spongos_squeeze_any by done.
  unfold digest. by destruct (spongos_map squeeze_trit _ (replicate (length ys) 0)).
Qed.

#[local] Opaque digest chain.

(** ** The tree *)
Record mss_keys_ok (k : mss_keys) : Prop := {
  ok_height : (height k <= MAM_MSS_MAX_D)%nat;
  ok_prng : length (prng k) = MAM_PRNG_SECRET_KEY_SIZE /\ trits_ok (prng k);
  ok_nonces : Forall valid [nonce1 k; nonce2 k; nonce3 k; nonce4 k];
  ok_nonces_trits : Forall (fun x => trits_ok (trits_get x)) [nonce1 k; nonce2 k; nonce3 k; nonce4 k]
}.

Definition mss_leaf (k : mss_keys) (i : Z) : list Z := public_key_of (parts_of (mss_gen_sk k i)).

(** The node number [i] of the level [h]; the leaves have the level 0. *)
Fixpoint mss_node (k : mss_keys) (h : nat) (i : Z) : list Z :=
  match h with
  | O => mss_leaf k i
  | S h => digest MAM_MSS_MT_HASH_SIZE (mss_node k h (2 * i) ++ mss_node k h (2 * i + 1))
  end.

Definition sibling (i : Z) : Z := if i mod 2 =? 0 then i + 1 else i - 1.

(** The path that goes with the key number [i]. *)
Definition auth_path_of (k : mss_keys) (i : Z) : list (list Z) :=
  map (fun h => mss_node k h (sibling (i / 2 ^ Z.of_nat h))) (seq 0 (height k)).

(** Everything but the number of the current key and the root. *)
Definition same_seed (k k' : mss_keys) : Prop :=
  height k = height k' /\ prng k = prng k' /\ nonce1 k = nonce1 k' /\ nonce2 k = nonce2 k' /\
  nonce3 k = nonce3 k' /\ nonce4 k = nonce4 k'.

Lemma gen_sk_seed k k' i : same_seed k k' -> mss_gen_sk k i = mss_gen_sk k' i.
Proof. intros (_ & E1 & E2 & E3 & E4 & E5). unfold mss_gen_sk. by rewrite E1, E2, E3, E4, E5. Qed.

Lemma node_seed k k' h : same_seed k k' -> forall i, mss_node k h i = mss_node k' h i.
Proof.
  intros E. induction h as [|h IH]; intros i; cbn [mss_node].
  - unfold mss_leaf. by rewrite (gen_sk_seed k k').
  - by rewrite !IH.
Qed.

Lemma auth_path_seed k k' i : same_seed k k' -> auth_path_of k i = auth_path_of k' i.
Proof.
  intros E. unfold auth_path_of. replace (height k') with (height k) by (by destruct E).
  apply map_ext. intros h. by apply node_seed.
Qed.

Lemma keys_ok_seed k k' : same_seed k k' -> mss_keys_ok k -> mss_keys_ok k'.
Proof.
  intros (E0 & E1 & E2 & E3 & E4 & E5) [? ? ? ?]. split; rewrite <- ?E0, <- ?E1, <- ?E2, <- ?E3, <- ?E4, <- ?E5; done.
Qed.

Definition skn_bound : Z := 2 ^ 20.

Lemma max_skn_bound d : (d <= MAM_MSS_MAX_D)%nat -> MAM_MSS_MAX_SKN d < skn_bound.
Proof.
  intros H. unfold MAM_MSS_MAX_SKN, skn_bound. pose proof (Z.pow_le_mono_r 2 (Z.of_nat d) 20).
  unfold MAM_MSS_MAX_D in H. lia.
Qed.

(** *** Leaves *)
Lemma gen_sk_ok k i : mss_keys_ok k -> 0 <= i < skn_bound ->
  length (mss_gen_sk k i) = MAM_WOTS_PRIVATE_KEY_SIZE /\ trits_ok (mss_gen_sk k i).
Proof.
  intros [_ [Hl Ht] Hv Hn] Hi. destruct (puts18 i ltac:(unfold skn_bound in Hi; lia)) as (ts & Hts & Hto & _ & Hput).
  pose proof (mam_prng_gen5_trits MAM_WOTS_PRIVATE_KEY_SIZE (prng k) MAM_PRNG_DST_WOTS_KEY
    [nonce1 k; nonce2 k; nonce3 k; nonce4 k; view [] ts []] Hl Ht ltac:(unfold MAM_PRNG_DST_WOTS_KEY; lia)) as H.
  rewrite !Forall_cons_iff in Hv, Hn. destruct Hv as (V1 & V2 & V3 & V4 & _), Hn as (T1 & T2 & T3 & T4 & _).
  destruct H as (os & Hlo & Hoo & Hos).
  { rewrite !Forall_cons_iff. split_and!; try assumption; [apply view_valid|constructor]. }
  { rewrite !Forall_cons_iff, get_view. split_and!; try assumption. constructor. }
  assert (mss_gen_sk k i = os) as ->; [|by split].
  unfold mss_gen_sk, mam_wots_reset. cbv zeta. cbn [snd].
  assert (with_p (memory MAM_MSS_SKN_SIZE) (trits_put18 (memory MAM_MSS_SKN_SIZE) i) = view [] ts []) as ->.
  { rewrite memory_view. rewrite <- (app_nil_r (replicate MAM_MSS_SKN_SIZE 0)) at 2. rewrite Hput by apply length_replicate.
    rewrite app_nil_r. apply (with_view [] (replicate MAM_MSS_SKN_SIZE 0) [] ts []).
    rewrite length_replicate. exact Hts. }
  unfold mam_wots_gen_sk5. rewrite from_rep_view by apply length_replicate.
  rewrite Hos by apply length_replicate. cbn [snd app]. apply app_nil_r.
Qed.

Lemma leaf_ok k i : mss_keys_ok k -> 0 <= i < skn_bound ->
  length (mss_leaf k i) = MAM_MSS_MT_HASH_SIZE /\ trits_ok (mss_leaf k i).
Proof.
  intros Hk Hi. destruct (gen_sk_ok k i Hk Hi) as [Hl Ht]. unfold mss_leaf, public_key_of.
  split; [rewrite length_digest; exact eq_refl|]. apply digest_ok. destruct (parts_of_spec _ Hl Ht) as (_ & Hp & _).
  apply Forall_concat, List.Forall_map. eapply List.Forall_impl; [|exact Hp]. intros part [? ?]. by apply chain_ok.
Qed.

Lemma gen_leaf_view k i p ys q : mss_keys_ok k -> 0 <= i < skn_bound -> length ys = MAM_MSS_MT_HASH_SIZE ->
  mss_mt_gen_leaf k i (view p ys q) = p ++ mss_leaf k i ++ q.
Proof.
  intros Hk Hi Hy. destruct (gen_sk_ok k i Hk Hi) as [Hl Ht]. unfold mss_mt_gen_leaf.
  rewrite wots_gen_pk_spec; [|apply length_replicate|apply length_replicate|exact Hl|exact Ht|apply view_valid|
    rewrite size_view; exact Hy].
  unfold public_key_of. cbn [snd]. rewrite put_view; [exact eq_refl|].
  rewrite length_digest. symmetry. exact Hy.
Qed.

(** *** Nodes *)
Lemma node_ok k h : mss_keys_ok k -> forall i, 0 <= i -> i * 2 ^ Z.of_nat h + 2 ^ Z.of_nat h <= skn_bound ->
  length (mss_node k h i) = MAM_MSS_MT_HASH_SIZE /\ trits_ok (mss_node k h i).
Proof.
  intros Hk. induction h as [|h IH]; intros i Hi Hb; cbn [mss_node].
  - apply leaf_ok; [done|]. change (2 ^ Z.of_nat 0) with 1 in Hb. lia.
  - rewrite Nat2Z.inj_succ, Z.pow_succ_r in Hb by lia. assert (0 < 2 ^ Z.of_nat h) by (apply Z.pow_pos_nonneg; lia).
    destruct (IH (2 * i)) as [_ T1]; [lia|nia|]. destruct (IH (2 * i + 1)) as [_ T2]; [lia|nia|].
    split; [rewrite length_digest; exact eq_refl|]. apply digest_ok. by apply Forall_app.
Qed.

(** ** The number of the key in a signature *)
Lemma bal_fits (ts : list Z) n : trits_ok ts -> (n <= length ts)%nat -> 2 * Z.abs (bal ts) < 3 ^ Z.of_nat n ->
  ts = take n ts ++ replicate (length ts - n) 0.
Proof.
  intros Ht Hn Hb. rewrite <- (take_drop n ts) at 1. f_equal.
  assert (trits_ok (take n ts)) as H1 by by apply Forall_take.
  assert (trits_ok (drop n ts)) as H2 by by apply Forall_drop.
  pose proof (bal_bound _ H1) as B1. rewrite length_take, Nat.min_l in B1 by done.
  rewrite <- (take_drop n ts), bal_app, length_take, Nat.min_l in Hb by done.
  apply bal_inj; [done|apply Forall_replicate; unfold is_trit; lia|by rewrite length_drop, length_replicate|].
  rewrite bal_replicate_0. assert (0 < 3 ^ Z.of_nat n) by (apply Z.pow_pos_nonneg; lia). nia.
Qed.

(** [t] in [n] trits. *)
Lemma put_fits put m bound n t : puts put m bound -> (n <= m)%nat -> - bound <= t <= bound ->
  2 * Z.abs t < 3 ^ Z.of_nat n ->
  exists ts, length ts = n /\ trits_ok ts /\ bal ts = t /\
    forall cs rest, length cs = m -> put (view [] (cs ++ rest) []) t = ts ++ replicate (m - n) 0 ++ rest.
Proof.
  intros Hp Hn Ht Hb. destruct (Hp t Ht) as (ts & Hl & Ho & E & Hw). rewrite <- E in Hb.
  pose proof (bal_fits ts n Ho ltac:(lia) Hb) as Ets. rewrite Hl in Ets.
  exists (take n ts). split; [rewrite length_take; lia|]. split; [by apply Forall_take|]. split.
  - rewrite <- E. rewrite Ets at 2. by rewrite bal_app, bal_replicate_0, Z.mul_0_r, Z.add_0_r.
  - intros cs rest Hc. rewrite Hw by done. cbn [app]. rewrite app_nil_r, app_assoc. by rewrite <- Ets.
Qed.

Definition skn_trits_of (height : nat) (skn : Z) (ts : list Z) : Prop :=
  exists hs ns, ts = hs ++ ns /\ length hs = MAM_MSS_SKN_TREE_DEPTH_SIZE /\ length ns = MAM_MSS_SKN_KEY_NUMBER_SIZE /\
    trits_ok hs /\ trits_ok ns /\ bal hs = Z.of_nat height /\ bal ns = skn.

Lemma skn_view k : (height k <= MAM_MSS_MAX_D)%nat -> 0 <= skn k <= skn_bound ->
  exists ts, skn_trits_of (height k) (skn k) ts /\ length ts = MAM_MSS_SKN_SIZE /\
    forall p ys q, length ys = MAM_MSS_SKN_SIZE -> mam_mss_skn k (view p ys q) = p ++ ts ++ q.
Proof.
  intros Hh Hs. unfold MAM_MSS_MAX_D, skn_bound in *.
  destruct (put_fits trits_put6 6 364 4 (Z.of_nat (height k)) puts6 ltac:(lia) ltac:(lia) ltac:(cbn; lia))
    as (hs & Lh & Oh & Bh & Wh).
  destruct (put_fits trits_put18 18 193710244 14 (skn k) puts18 ltac:(lia) ltac:(lia) ltac:(cbn; lia))
    as (ns & Ln & On & Bn & Wn).
  exists (hs ++ ns). split; [by exists hs, ns|]. split; [by rewrite length_app, Lh, Ln|].
  intros p ys q Hy. rewrite <- (take_drop 4 ys).
  assert (length (take 4 ys) = 4%nat) as L4 by (rewrite length_take, Hy; done).
  assert (length (drop 4 ys) = 14%nat) as L14 by (rewrite length_drop, Hy; done).
  set (y4 := take 4 ys) in *. set (y14 := drop 4 ys) in *.
  unfold mam_mss_skn. cbv zeta. rewrite memory_view.
  change (replicate MAM_MSS_SKN_SIZE 0) with (replicate 6 0 ++ replicate 12 0). rewrite Wh by apply length_replicate.
  assert (with_p (view [] (replicate 6 0 ++ replicate 12 0) []) (hs ++ replicate (6 - 4) 0 ++ replicate 12 0) =
    view [] (hs ++ replicate 14 0) []) as E1.
  { rewrite <- (app_nil_r (hs ++ _)). rewrite <- (with_view [] (replicate 6 0 ++ replicate 12 0) [] (hs ++ replicate 14 0) []);
      [done|]. rewrite !length_app, Lh. done. }
  rewrite !E1. unfold MAM_MSS_SKN_TREE_DEPTH_SIZE, MAM_MSS_SKN_KEY_NUMBER_SIZE.
  rewrite !(take_view [] hs), !(take_view p y4) by done. rewrite copy_view by congruence.
  rewrite (app_assoc hs y14 q), (with_view p (y4 ++ y14) q (hs ++ y14)) by (rewrite !length_app; congruence).
  rewrite (drop_view p hs) by done. rewrite <- (app_nil_r (hs ++ replicate 14 0)).
  rewrite Wn by (rewrite length_app, length_replicate, Lh; done). rewrite app_nil_r.
  assert (with_p (view [] (hs ++ replicate 14 0) []) (ns ++ replicate (18 - 14) 0 ++ []) =
    view [] (ns ++ replicate 4 0) []) as ->.
  { rewrite app_assoc. apply (with_view [] (hs ++ replicate 14 0) [] (ns ++ replicate 4 0) []).
    rewrite !length_app, Lh, Ln. done. }
  rewrite (take_view [] ns), copy_view by congruence. by rewrite <- !app_assoc.
Qed.

Lemma parse_skn_view d n ts p q : (d <= MAM_MSS_MAX_D)%nat -> 0 <= n <= skn_bound -> skn_trits_of d n ts ->
  mss_parse_skn (view p ts q) = if n >? MAM_MSS_MAX_SKN d then None else Some (d, n).
Proof.
  intros Hd Hn (hs & ns & -> & Lh & Ln & Oh & On & Bh & Bn). unfold MAM_MSS_SKN_TREE_DEPTH_SIZE, MAM_MSS_SKN_KEY_NUMBER_SIZE in *.
  unfold mss_parse_skn, MAM_MSS_SKN_TREE_DEPTH_SIZE, MAM_MSS_SKN_KEY_NUMBER_SIZE. cbv zeta. rewrite memory_view.
  rewrite (take_view p hs), (drop_view p hs) by done.
  change (replicate MAM_MSS_SKN_SIZE 0) with (replicate 4 0 ++ replicate 14 0).
  rewrite (take_view [] (replicate 4 0)) by apply length_replicate. rewrite copy_view by (by rewrite length_replicate).
  assert (with_p (view [] (replicate 4 0 ++ replicate 14 0) []) ([] ++ hs ++ replicate 14 0 ++ []) =
    view [] ((hs ++ replicate 2 0) ++ replicate 12 0) []) as ->.
  { rewrite (app_assoc hs). rewrite (with_view [] _ [] (hs ++ replicate 14 0) []); [by rewrite <- app_assoc|].
    rewrite !length_app, Lh. done. }
  assert (trits_get6 (view [] ((hs ++ replicate 2 0) ++ replicate 12 0) []) = Z.of_nat d) as ->
    by (rewrite gets6 by (rewrite length_app, Lh; done); rewrite bal_app, bal_replicate_0, Bh; lia).
  rewrite (Z.mod_small (Z.of_nat d)) by (unfold MAM_MSS_MAX_D in Hd; lia). rewrite Nat2Z.id.
  destruct (Nat.ltb_spec MAM_MSS_MAX_D d) as [|_]; [lia|]. cbn [orb].
  assert ((hs ++ replicate 2 0) ++ replicate 12 0 = (hs ++ replicate 10 0) ++ replicate 4 0) as E
    by (by rewrite <- !app_assoc). rewrite E.
  assert (length (hs ++ replicate 10 0) = 14%nat) as L14 by (rewrite length_app, Lh; done).
  rewrite (take_view [] (hs ++ replicate 10 0)) by done. rewrite copy_view by congruence.
  assert (with_p (view [] ((hs ++ replicate 10 0) ++ replicate 4 0) []) ([] ++ ns ++ replicate 4 0 ++ []) =
    view [] ((ns ++ replicate 4 0) ++ []) []) as ->.
  { rewrite (app_assoc ns). rewrite (with_view [] _ [] (ns ++ replicate 4 0) []); [by rewrite app_nil_r|].
    rewrite !length_app, !length_replicate, Lh, Ln. done. }
  assert (trits_get18 (view [] ((ns ++ replicate 4 0) ++ []) []) = n) as ->
    by (rewrite gets18 by (rewrite length_app, Ln; done); rewrite bal_app, bal_replicate_0, Bn; lia).
  by rewrite (Z.mod_small n) by (unfold skn_bound in Hn; lia).
Qed.

(** ** Folding a path *)
Lemma sibling_pair i : 0 <= i ->
  (i mod 2 = 0 /\ sibling i = i + 1 /\ i = 2 * (i / 2)) \/ (i mod 2 = 1 /\ sibling i = i - 1 /\ i = 2 * (i / 2) + 1).
Proof.
  intros Hi. unfold sibling. pose proof (Z.mod_pos_bound i 2 ltac:(lia)). pose proof (Z.div_mod i 2 ltac:(lia)).
  destruct (Z.eqb_spec (i mod 2) 0); [left|right]; lia.
Qed.

Lemma pow2_pos h : 0 < 2 ^ Z.of_nat h.
Proof. apply Z.pow_pos_nonneg; lia. Qed.

Lemma pow2_S h : 2 ^ Z.of_nat (S h) = 2 * 2 ^ Z.of_nat h.
Proof. rewrite Nat2Z.inj_succ, Z.pow_succ_r; lia. Qed.

Lemma div_pow2_S i h : 0 <= i -> i / 2 ^ Z.of_nat (S h) = i / 2 ^ Z.of_nat h / 2.
Proof. intros. pose proof (pow2_pos h). rewrite pow2_S, Z.mul_comm, Z.div_div by lia. done. Qed.

Lemma fold_path_view k s n : mss_keys_ok k -> length (sponge s) = STATESIZE ->
  forall h i fuel p q, 0 <= i -> (h + n <= height k)%nat -> i < 2 ^ Z.of_nat (height k - h) ->
  (n <= fuel)%nat ->
  fold_auth_path_loop fuel s i
    (view p (concat (map (fun j => mss_node k j (sibling (i / 2 ^ Z.of_nat (j - h)))) (seq h n))) q) (mss_node k h i) =
  mss_node k (h + n) (i / 2 ^ Z.of_nat n).
Proof.
  intros Hk Hs. pose proof (ok_height k Hk) as Hh20. induction n as [|n IH]; intros h i fuel p q Hi Hh Hb Hf.
  - change (2 ^ Z.of_nat 0) with 1. rewrite Z.div_1_r, Nat.add_0_r. destruct fuel; [done|].
    cbn [seq map concat fold_auth_path_loop]. rewrite empty_view. done.
  - destruct fuel; [lia|]. cbn [seq map concat fold_auth_path_loop]. rewrite Nat.sub_diag.
    change (2 ^ Z.of_nat 0) with 1. rewrite Z.div_1_r.
    set (rest := concat _).
    assert (2 ^ Z.of_nat (height k - h) = 2 * 2 ^ Z.of_nat (height k - S h)) as Epow.
    { rewrite <- pow2_S. do 2 f_equal. lia. }
    assert (2 ^ Z.of_nat (height k - h) * 2 ^ Z.of_nat h = 2 ^ Z.of_nat (height k)) as Esum.
    { rewrite <- Z.pow_add_r by lia. f_equal. lia. }
    assert (2 ^ Z.of_nat (height k) <= skn_bound) as Hmax.
    { pose proof (max_skn_bound _ Hh20). unfold MAM_MSS_MAX_SKN in *. lia. }
    pose proof (pow2_pos h) as Hp. pose proof (pow2_pos (height k - S h)) as Hp'.
    assert (forall j, 0 <= j < 2 ^ Z.of_nat (height k - h) ->
      length (mss_node k h j) = MAM_MSS_MT_HASH_SIZE /\ trits_ok (mss_node k h j)) as Hnode.
    { intros j Hj. apply node_ok; [done|lia|nia]. }
    assert (0 <= sibling i < 2 ^ Z.of_nat (height k - h)) as Hsib.
    { rewrite Epow in *. destruct (sibling_pair i Hi) as [(_ & -> & E)|(_ & -> & E)]; lia. }
    destruct (Hnode i ltac:(lia)) as [Li Oi]. destruct (Hnode _ Hsib) as [Ls Os].
    rewrite empty_view, length_app, Ls. destruct (Nat.eqb_spec (MAM_MSS_MT_HASH_SIZE + length rest) 0) as [E|_];
      [exfalso; unfold MAM_MSS_MT_HASH_SIZE, MAM_WOTS_PUBLIC_KEY_SIZE in E; lia|].
    rewrite take_view, drop_view by done. rewrite (from_rep_view _ _ Li).
    assert ((let '(hashes0, hashes1) :=
        if i mod 2 =? 0 then (view [] (mss_node k h i) [], view p (mss_node k h (sibling i)) (rest ++ q))
        else (view p (mss_node k h (sibling i)) (rest ++ q), view [] (mss_node k h i) []) in
      mss_hash2 s hashes0 hashes1 (view [] (mss_node k h i) [])) = mss_node k (S h) (i / 2)) as E.
    { destruct (sibling_pair i Hi) as [(E & Es & E2)|(E & Es & E2)]; rewrite E; cbn [Z.eqb];
        rewrite hash2_view by assumption; cbn [app]; rewrite app_nil_r, Li, Es; cbn [mss_node].
      - replace (2 * (i / 2)) with i by lia. exact eq_refl.
      - replace (2 * (i / 2) + 1) with i by lia. replace (2 * (i / 2)) with (i - 1) by lia. exact eq_refl. }
    destruct (if i mod 2 =? 0 then _ else _) as [h0 h1]. cbv zeta in E |- *. rewrite E.
    assert (rest = concat (map (fun j => mss_node k j (sibling (i / 2 / 2 ^ Z.of_nat (j - S h)))) (seq (S h) n))) as ->.
    { unfold rest. f_equal. apply List.map_ext_in. intros j Hj%in_seq. do 2 f_equal.
      replace (j - h)%nat with (S (j - S h)) by lia. rewrite pow2_S, Z.div_div; [done|lia|apply pow2_pos]. }
    rewrite IH; [|apply Z.div_pos; lia|lia|apply Z.div_lt_upper_bound; lia|lia].
    replace (S h + n)%nat with (h + S n)%nat by lia. f_equal. rewrite pow2_S, Z.div_div; [done|lia|apply pow2_pos].
Qed.

(** ** The interface *)
Class MssPaths (M : Type) `{MssTree M} (inv : M -> Prop) : Prop := {
  paths_keys : forall mss, inv mss -> mss_keys_ok (keys mss) /\ 0 <= skn (keys mss) <= MAM_MSS_MAX_SKN (height (keys mss)) + 1;
  paths_root : forall mss, inv mss -> root (keys mss) = mss_node (keys mss) (height (keys mss)) 0;
  paths_auth : forall mss p ys q, inv mss -> skn (keys mss) <= MAM_MSS_MAX_SKN (height (keys mss)) ->
    length ys = MAM_MSS_APATH_SIZE (height (keys mss)) ->
    mam_mss_auth_path mss (skn (keys mss)) (view p ys q) = p ++ concat (auth_path_of (keys mss) (skn (keys mss))) ++ q;
  paths_next : forall mss, inv mss ->
    inv (mam_mss_next mss).2 /\
    keys (mam_mss_next mss).2 =
      (if skn (keys mss) <=? MAM_MSS_MAX_SKN (height (keys mss)) then with_skn (keys mss) (skn (keys mss) + 1) else keys mss) /\
    (mam_mss_next mss).1 = (skn (keys mss) <=? MAM_MSS_MAX_SKN (height (keys mss)))
}.

Lemma remaining_sks_spec k : 0 <= skn k <= MAM_MSS_MAX_SKN (height k) + 1 ->
  mam_mss_remaining_sks k = MAM_MSS_MAX_SKN (height k) + 1 - skn k.
Proof. intros H. unfold mam_mss_remaining_sks. destruct (Z.gtb_spec (skn k) (MAM_MSS_MAX_SKN (height k))); lia. Qed.

Lemma path_levels_ok k i : mss_keys_ok k -> 0 <= i <= MAM_MSS_MAX_SKN (height k) ->
  Forall (fun x => length x = MAM_MSS_MT_HASH_SIZE /\ trits_ok x) (auth_path_of k i).
Proof.
  intros Hk Hi. apply List.Forall_map, List.Forall_forall. intros h Hh%in_seq.
  pose proof (max_skn_bound _ (ok_height k Hk)) as Hmax. unfold MAM_MSS_MAX_SKN in *.
  pose proof (pow2_pos h) as Hp. pose proof (pow2_pos (height k - S h)) as Hp'.
  assert (2 ^ Z.of_nat (height k) = 2 * 2 ^ Z.of_nat (height k - S h) * 2 ^ Z.of_nat h) as E.
  { rewrite <- Z.mul_assoc, <- Z.pow_add_r, <- Z.pow_succ_r by lia. f_equal. lia. }
  assert (0 <= i / 2 ^ Z.of_nat h) as Hq by (apply Z.div_pos; lia).
  assert (i / 2 ^ Z.of_nat h < 2 * 2 ^ Z.of_nat (height k - S h)) as Hq' by (apply Z.div_lt_upper_bound; lia).
  assert (0 <= sibling (i / 2 ^ Z.of_nat h) < 2 * 2 ^ Z.of_nat (height k - S h)) as Hs
    by (destruct (sibling_pair _ Hq) as [(_ & -> & ?)|(_ & -> & ?)]; lia).
  apply node_ok; [done|lia|nia].
Qed.

Lemma concat_hashes (xs : list (list Z)) n : Forall (fun x => length x = n /\ trits_ok x) xs ->
  length (concat xs) = (n * length xs)%nat /\ trits_ok (concat xs).
Proof.
  induction 1 as [|x xs [Hl Ht] _ [IH1 IH2]]; cbn [concat length]; [split; [lia|constructor]|].
  rewrite length_app, Hl, IH1. split; [lia|by apply Forall_app].
Qed.

Lemma length_auth_path k i : length (auth_path_of k i) = height k.
Proof. unfold auth_path_of. by rewrite length_map, length_seq. Qed.

(** What a signature consists of. *)
Lemma sign_parts {M} `{MssPaths M inv} (mss : M) hash sig : inv mss ->
  skn (keys mss) <= MAM_MSS_MAX_SKN (height (keys mss)) ->
  trits_size hash = MAM_WOTS_HASH_SIZE -> valid hash -> trits_ok (trits_get hash) ->
  valid sig -> trits_size sig = MAM_MSS_SIG_SIZE (height (keys mss)) ->
  exists ts, skn_trits_of (height (keys mss)) (skn (keys mss)) ts /\ length ts = MAM_MSS_SKN_SIZE /\
    let ws := concat (chains WOTS_HASH_SIGN (wots_digits hash) (parts_of (mss_gen_sk (keys mss) (skn (keys mss))))) in
    length ws = MAM_WOTS_SIGNATURE_SIZE /\
    mam_mss_sign mss hash sig =
    (RC_OK, take (t_d sig) (t_p sig) ++ (ts ++ ws ++ concat (auth_path_of (keys mss) (skn (keys mss)))) ++ drop (t_n sig) (t_p sig)).
Proof.
  intros Hinv Hskn Hhs Hhv Hht Hv Hsz. destruct (paths_keys mss Hinv) as [Hk Hr]. set (k := keys mss) in *.
  pose proof (max_skn_bound _ (ok_height k Hk)) as Hmax.
  destruct (gen_sk_ok k (skn k) Hk ltac:(lia)) as [Hwl Hwt].
  destruct (parts_of_spec _ Hwl Hwt) as (_ & Hparts & Hn).
  pose proof (length_wots_digits hash) as Hd.
  destruct (chains_length WOTS_HASH_SIGN _ _ Hd Hn Hparts) as (_ & _ & Hcl).
  set (ws := concat (chains _ _ _)) in *.
  destruct (skn_view k (ok_height k Hk) ltac:(lia)) as (ts & Hts & Hlts & Hput).
  exists ts. split; [done|]. split; [done|]. cbv zeta. split; [done|].
  unfold mam_mss_sign. fold k. rewrite remaining_sks_spec by lia.
  destruct (Z.eqb_spec (MAM_MSS_MAX_SKN (height k) + 1 - skn k) 0); [lia|].
  set (pre := take (t_d sig) (t_p sig)). set (post := drop (t_n sig) (t_p sig)).
  pose proof (valid_length sig Hv) as Hlen. rewrite (valid_view sig Hv). fold pre post.
  rewrite Hsz in Hlen. set (cs := trits_get sig) in *. unfold MAM_MSS_SIG_SIZE in Hlen.
  assert (exists c1 c2 c3, cs = c1 ++ c2 ++ c3 /\ length c1 = MAM_MSS_SKN_SIZE /\
    length c2 = MAM_WOTS_SIGNATURE_SIZE /\ length c3 = MAM_MSS_APATH_SIZE (height k)) as (c1 & c2 & c3 & -> & L1 & L2 & L3).
  { exists (take MAM_MSS_SKN_SIZE cs), (take MAM_WOTS_SIGNATURE_SIZE (drop MAM_MSS_SKN_SIZE cs)),
      (drop MAM_WOTS_SIGNATURE_SIZE (drop MAM_MSS_SKN_SIZE cs)).
    rewrite !take_drop, !length_take, !length_drop, Hlen. split; [exact eq_refl|]. clear. lia. }
  cbv zeta. rewrite (take_view pre c1) by exact L1. rewrite Hput by exact L1.
  assert (with_p (view pre (c1 ++ c2 ++ c3) post) (pre ++ ts ++ (c2 ++ c3) ++ post) = view pre (ts ++ c2 ++ c3) post) as ->.
  { rewrite (app_assoc ts). apply with_view. rewrite !length_app. congruence. }
  rewrite (drop_view pre ts) by exact Hlts. rewrite (take_view (pre ++ ts) c2) by exact L2.
  rewrite wots_sign_spec; [|apply length_replicate|exact Hwl|exact Hwt|exact Hhs|apply view_valid|rewrite size_view; exact L2|exact Hd].
  fold ws. cbn [snd]. rewrite put_view by congruence.
  assert (with_p (view (pre ++ ts) (c2 ++ c3) post) ((pre ++ ts) ++ ws ++ c3 ++ post) = view (pre ++ ts) (ws ++ c3) post) as ->.
  { rewrite (app_assoc ws). apply with_view. rewrite !length_app. congruence. }
  rewrite (drop_view (pre ++ ts) ws) by exact Hcl. unfold k in L3 |- *.
  rewrite (paths_auth mss) by assumption.
  by rewrite <- !app_assoc.
Qed.

Lemma recovered_leaf k i hash p ws q : mss_keys_ok k -> 0 <= i < skn_bound ->
  trits_size hash = MAM_WOTS_HASH_SIZE -> trits_ok (trits_get hash) -> valid hash ->
  ws = concat (chains WOTS_HASH_SIGN (wots_digits hash) (parts_of (mss_gen_sk k i))) ->
  length ws = MAM_WOTS_SIGNATURE_SIZE ->
  (mam_wots_recover zero_spongos hash (view p ws q) (memory MAM_MSS_MT_HASH_SIZE)).2 = mss_leaf k i.
Proof.
  intros Hk Hi Hhs Hht Hhv Hws Hlws. destruct (gen_sk_ok k i Hk Hi) as [Hwl Hwt].
  destruct (parts_of_spec _ Hwl Hwt) as (_ & Hparts & Hn).
  pose proof (length_wots_digits hash) as Hd.
  destruct (chains_length WOTS_HASH_SIGN _ _ Hd Hn Hparts) as (Hco & Hcn & _).
  rewrite (wots_recover_spec zero_spongos hash _ (memory MAM_MSS_MT_HASH_SIZE)
    (chains WOTS_HASH_SIGN (wots_digits hash) (parts_of (mss_gen_sk k i)))); [|apply length_replicate|exact Hhs|
    rewrite size_view; exact Hlws|rewrite get_view; exact Hws|exact Hco|exact Hcn|exact Hd|
    rewrite memory_view; apply view_valid|rewrite memory_view, size_view; apply length_replicate].
  rewrite chains_cancel; [|by apply wots_digits_range|congruence]. cbn [snd]. rewrite memory_view.
  rewrite put_view by (rewrite length_digest, length_replicate; exact eq_refl). rewrite app_nil_l, app_nil_r.
  unfold mss_leaf, public_key_of. exact eq_refl.
Qed.

(** Verification of what [sign_parts] describes. *)
Lemma verify_parts k i pre ts ws post hash s pk : mss_keys_ok k -> 0 <= i <= MAM_MSS_MAX_SKN (height k) ->
  length (sponge s) = STATESIZE -> skn_trits_of (height k) i ts -> length ts = MAM_MSS_SKN_SIZE ->
  trits_size hash = MAM_WOTS_HASH_SIZE -> trits_ok (trits_get hash) -> valid hash ->
  ws = concat (chains WOTS_HASH_SIGN (wots_digits hash) (parts_of (mss_gen_sk k i))) ->
  length ws = MAM_WOTS_SIGNATURE_SIZE -> valid pk -> trits_get pk = mss_node k (height k) 0 ->
  mam_mss_verify s hash (view pre (ts ++ ws ++ concat (auth_path_of k i)) post) pk = true.
Proof.
  intros Hk Hi Hs Hts Hlts Hhs Hht Hhv Hws Hlws Hpkv Hpk. pose proof (max_skn_bound _ (ok_height k Hk)) as Hmax.
  destruct (concat_hashes _ _ (path_levels_ok k i Hk Hi)) as [Hlp Htp]. rewrite length_auth_path in Hlp.
  set (path := concat (auth_path_of k i)) in *.
  unfold mam_mss_verify. cbv zeta. rewrite size_view, !length_app, Hlts, Hlws, Hlp.
  destruct (Nat.ltb_spec (MAM_MSS_SKN_SIZE + (MAM_WOTS_SIGNATURE_SIZE + MAM_MSS_MT_HASH_SIZE * height k))
    (MAM_MSS_SIG_SIZE 0)) as [Hlt|_];
    [exfalso; unfold MAM_MSS_SIG_SIZE, MAM_MSS_APATH_SIZE in Hlt; rewrite Nat.mul_0_r in Hlt; clear - Hlt; lia|].
  rewrite (take_view pre ts), (drop_view pre ts) by exact Hlts.
  rewrite (parse_skn_view (height k) i) by (first [apply ok_height, Hk|lia|exact Hts]).
  destruct (Z.gtb_spec i (MAM_MSS_MAX_SKN (height k))); [lia|].
  rewrite size_view, length_app, Hlws, Hlp.
  assert ((MAM_WOTS_SIGNATURE_SIZE + MAM_MSS_MT_HASH_SIZE * height k =? MAM_MSS_SIG_SIZE (height k) - MAM_MSS_SKN_SIZE)%nat = true) as ->.
  { apply Nat.eqb_eq. unfold MAM_MSS_SIG_SIZE, MAM_MSS_APATH_SIZE, MAM_MSS_MT_HASH_SIZE. clear. lia. }
  cbn [negb]. rewrite (take_view (pre ++ ts) ws), (drop_view (pre ++ ts) ws) by exact Hlws.
  rewrite (recovered_leaf k i hash _ _ _ Hk ltac:(lia) Hhs Hht Hhv Hws Hlws).
  change (mss_leaf k i) with (mss_node k 0 i). unfold mss_fold_auth_path. rewrite size_view, Hlp.
  assert (path = concat (map (fun j => mss_node k j (sibling (i / 2 ^ Z.of_nat (j - 0)))) (seq 0 (height k)))) as Ep.
  { unfold path, auth_path_of. f_equal. apply List.map_ext. intros j. by rewrite Nat.sub_0_r. }
  rewrite Ep, (fold_path_view k s (height k) Hk Hs 0 i);
    [|lia|lia|unfold MAM_MSS_MAX_SKN in Hi; rewrite Nat.sub_0_r; lia|unfold MAM_MSS_MT_HASH_SIZE, MAM_WOTS_PUBLIC_KEY_SIZE; lia].
  rewrite Nat.add_0_l, Z.div_small by (unfold MAM_MSS_MAX_SKN in Hi; lia).
  destruct (node_ok k (height k) Hk 0) as [Hln _]; [lia|unfold MAM_MSS_MAX_SKN in Hmax; lia|].
  rewrite (from_rep_view _ _ Hln), (valid_view pk Hpkv), Hpk. by apply cmp_eq_view.
Qed.

Section Lifetime.
Context {M : Type} {inv : M -> Prop} `{MssPaths M inv}.

(** A hash to sign. *)
Definition signable (hash : trits_t) : Prop :=
  valid hash /\ trits_size hash = MAM_WOTS_HASH_SIZE /\ trits_ok (trits_get hash).

Lemma sign_verifies (mss : M) (hash sig pk : trits_t) (s : mam_spongos_t) : inv mss ->
  skn (keys mss) <= MAM_MSS_MAX_SKN (height (keys mss)) -> signable hash -> valid sig ->
  trits_size sig = MAM_MSS_SIG_SIZE (height (keys mss)) -> length (sponge s) = STATESIZE -> valid pk ->
  trits_get pk = root (keys mss) ->
  exists mem, mam_mss_sign mss hash sig = (RC_OK, mem) /\ mam_mss_verify s hash (with_p sig mem) pk = true.
Proof.
  intros Hinv Hskn (Hhv & Hhs & Hht) Hv Hsz Hs Hpkv Hpk. destruct (paths_keys mss Hinv) as [Hk Hr].
  destruct (sign_parts mss hash sig Hinv Hskn Hhs Hhv Hht Hv Hsz) as (ts & Hts & Hlts & Hlws & E).
  eexists. split; [exact E|]. set (ws := concat (chains _ _ _)) in *.
  set (path := concat (auth_path_of _ _)).
  assert (length path = MAM_MSS_APATH_SIZE (height (keys mss))) as Hlp.
  { destruct (concat_hashes _ _ (path_levels_ok (keys mss) (skn (keys mss)) Hk (conj (proj1 Hr) Hskn))) as [E' _].
    rewrite length_auth_path in E'. exact E'. }
  assert (with_p sig (take (t_d sig) (t_p sig) ++ (ts ++ ws ++ path) ++ drop (t_n sig) (t_p sig)) =
    view (take (t_d sig) (t_p sig)) (ts ++ ws ++ path) (drop (t_n sig) (t_p sig))) as ->.
  { rewrite (valid_view sig Hv) at 1. apply with_view. rewrite (valid_length sig Hv), Hsz, !length_app, Hlts, Hlws, Hlp.
    unfold MAM_MSS_SIG_SIZE. clear. lia. }
  apply verify_parts; try assumption; [lia|exact eq_refl|]. rewrite Hpk. by apply paths_root.
Qed.

(** Signing one hash after the other. *)
Fixpoint sign_all (mss : M) (requests : list (trits_t * trits_t)) : M * list (retcode_t * list Z) :=
  match requests with
  | [] => (mss, [])
  | (hash, sig) :: requests =>
      let '(ret, mss, mem) := mam_mss_sign_and_next mss hash sig in
      let '(mss, rs) := sign_all mss requests in
      (mss, (ret, mem) :: rs)
  end.

Definition genuine (d : nat) (pk : trits_t) (request : trits_t * trits_t) (r : retcode_t * list Z) : Prop :=
  exists mem, r = (RC_OK, mem) /\
    forall s, length (sponge s) = STATESIZE -> mam_mss_verify s request.1 (with_p request.2 mem) pk = true.

Lemma sign_all_next (mss : M) hash sig requests : inv mss ->
  skn (keys mss) <= MAM_MSS_MAX_SKN (height (keys mss)) -> signable hash -> valid sig ->
  trits_size sig = MAM_MSS_SIG_SIZE (height (keys mss)) ->
  exists mss' mem, inv mss' /\ keys mss' = with_skn (keys mss) (skn (keys mss) + 1) /\
    mam_mss_sign mss hash sig = (RC_OK, mem) /\
    sign_all mss ((hash, sig) :: requests) =
      let '(m, rs) := sign_all mss' requests in (m, (RC_OK, mem) :: rs).
Proof.
  intros Hinv Hskn (Hhv & Hhs & Hht) Hv Hsz.
  destruct (sign_parts mss hash sig Hinv Hskn Hhs Hhv Hht Hv Hsz) as (ts & _ & _ & _ & E).
  destruct (paths_next mss Hinv) as (Hinv' & Hk' & _).
  rewrite (proj2 (Z.leb_le _ _) Hskn) in Hk'. eexists _, _. split; [exact Hinv'|]. split; [exact Hk'|].
  split; [exact E|]. cbn [sign_all]. unfold mam_mss_sign_and_next. by rewrite E.
Qed.

Lemma sign_all_exhausted (mss : M) requests : inv mss -> skn (keys mss) = MAM_MSS_MAX_SKN (height (keys mss)) + 1 ->
  sign_all mss requests = (mss, map (fun r => (RC_MAM_MSS_EXHAUSTED, t_p r.2)) requests).
Proof.
  intros Hinv Hskn. induction requests as [|[hash sig] requests IH]; [done|]. cbn [sign_all map].
  unfold mam_mss_sign_and_next, mam_mss_sign. destruct (paths_keys mss Hinv) as [_ Hr].
  rewrite remaining_sks_spec, Hskn by lia. rewrite Z.sub_diag. cbn [Z.eqb]. rewrite IH. exact eq_refl.
Qed.

Lemma sign_all_genuine (pk : trits_t) requests : forall mss : M, inv mss -> valid pk ->
  trits_get pk = mss_node (keys mss) (height (keys mss)) 0 ->
  Forall (fun r => signable r.1 /\ valid r.2 /\ trits_size r.2 = MAM_MSS_SIG_SIZE (height (keys mss))) requests ->
  let n := Z.to_nat (MAM_MSS_MAX_SKN (height (keys mss)) + 1 - skn (keys mss)) in
  Forall2 (genuine (height (keys mss)) pk) (take n requests) (take n (sign_all mss requests).2) /\
  drop n (sign_all mss requests).2 = map (fun r => (RC_MAM_MSS_EXHAUSTED, t_p r.2)) (drop n requests).
Proof.
  induction requests as [|[hash sig] requests IH]; intros mss Hinv Hpkv Hpk Hreq n.
  { rewrite !take_nil. cbn [sign_all snd]. rewrite !drop_nil, take_nil. by split. }
  destruct (paths_keys mss Hinv) as [Hk Hr].
  apply Forall_cons_iff in Hreq as [(Hh & Hv & Hsz) Hreq]. cbn [fst snd] in *.
  destruct (decide (skn (keys mss) <= MAM_MSS_MAX_SKN (height (keys mss)))) as [Hle|Hgt].
  - destruct (sign_all_next mss hash sig requests Hinv Hle Hh Hv Hsz) as (mss' & mem & Hinv' & Hk' & Es & ->).
    assert (same_seed (keys mss) (keys mss')) as Hseed by (by rewrite Hk').
    specialize (IH mss' Hinv' Hpkv). cbv zeta in IH.
    rewrite <- (node_seed _ _ _ Hseed) in IH. rewrite Hk' in IH. cbn [height skn with_skn] in IH.
    specialize (IH Hpk Hreq). destruct (sign_all mss' requests) as [m rs]. cbn [snd] in *.
    assert (n = S (Z.to_nat (MAM_MSS_MAX_SKN (height (keys mss)) + 1 - (skn (keys mss) + 1)))) as -> by (unfold n; lia).
    destruct IH as [IH1 IH2]. cbn [take drop]. split; [|exact IH2]. constructor; [|exact IH1].
    exists mem. split; [done|]. intros s Hs. cbn [fst snd].
    destruct (sign_verifies mss hash sig pk s Hinv Hle Hh Hv Hsz Hs Hpkv) as (mem' & E' & Hver).
    { rewrite Hpk. symmetry. by apply paths_root. }
    rewrite Es in E'. by injection E' as <-.
  - assert (n = O) as -> by (unfold n; lia). rewrite sign_all_exhausted by (done || lia).
    cbn [snd]. rewrite !drop_0. by split.
Qed.
End Lifetime.

(** The number of a key has one encoding. *)
Lemma skn_trits_inj d n ts ts' : skn_trits_of d n ts -> skn_trits_of d n ts' -> ts = ts'.
Proof.
  intros (hs & ns & -> & L1 & L2 & O1 & O2 & B1 & B2) (hs' & ns' & -> & L1' & L2' & O1' & O2' & B1' & B2').
  rewrite (bal_inj hs hs' O1 O1' (eq_trans L1 (eq_sym L1')) (eq_trans B1 (eq_sym B1'))).
  by rewrite (bal_inj ns ns' O2 O2' (eq_trans L2 (eq_sym L2')) (eq_trans B2 (eq_sym B2'))).
Qed.

(** Requests that fit the height of the tree. *)
Definition fitting (d : nat) (requests : list (trits_t * trits_t)) : Prop :=
  Forall (fun r => signable r.1 /\ valid r.2 /\ trits_size r.2 = MAM_MSS_SIG_SIZE d) requests.

(** Two implementations of the interface sign alike. *)
Lemma sign_all_agree {M1 M2 inv1 inv2} `{MssPaths M1 inv1} `{MssPaths M2 inv2} requests : forall (m1 : M1) (m2 : M2),
  inv1 m1 -> inv2 m2 -> same_seed (keys m1) (keys m2) -> skn (keys m1) = skn (keys m2) ->
  fitting (height (keys m1)) requests ->
  (sign_all m1 requests).2 = (sign_all m2 requests).2.
Proof.
  induction requests as [|[hash sig] requests IH]; intros m1 m2 I1 I2 E Es Hreq; [done|].
  pose proof Hreq as [(Hh & Hv & Hsz) Hreq']%Forall_cons_iff. cbn [fst snd] in *.
  destruct (paths_keys m1 I1) as [_ Hr]. pose proof (proj1 E) as Eh.
  destruct (decide (skn (keys m1) <= MAM_MSS_MAX_SKN (height (keys m1)))) as [Hle|Hgt].
  - destruct (sign_all_next m1 hash sig requests I1 Hle Hh Hv Hsz) as (m1' & mem1 & I1' & K1 & S1 & ->).
    rewrite Eh in Hsz. assert (skn (keys m2) <= MAM_MSS_MAX_SKN (height (keys m2))) as Hle2 by (rewrite <- Es, <- Eh; exact Hle).
    destruct (sign_all_next m2 hash sig requests I2 Hle2 Hh Hv Hsz) as (m2' & mem2 & I2' & K2 & S2 & ->).
    assert (same_seed (keys m1') (keys m2')) as E' by (rewrite K1, K2; exact E).
    specialize (IH m1' m2' I1' I2' E'). rewrite K1, K2 in IH. cbn [skn height with_skn] in IH.
    specialize (IH ltac:(lia) Hreq'). destruct (sign_all m1' requests) as [n1 r1], (sign_all m2' requests) as [n2 r2].
    cbn [snd] in *. rewrite IH. do 2 f_equal. destruct Hh as (V & Sz & T).
    destruct (sign_parts m2 hash sig I2 Hle2 Sz V T Hv Hsz) as (ts2 & T2 & _ & _ & E2).
    rewrite <- Eh in Hsz. destruct (sign_parts m1 hash sig I1 Hle Sz V T Hv Hsz) as (ts1 & T1 & _ & _ & E1).
    pose proof (f_equal snd (eq_trans (eq_sym S1) E1)) as F1. pose proof (f_equal snd (eq_trans (eq_sym S2) E2)) as F2.
    cbn [snd] in F1, F2. rewrite F1, F2. clear S1 S2 E1 E2 F1 F2. rewrite <- Eh, <- Es in T2. rewrite (skn_trits_inj _ _ _ _ T1 T2), Es, (gen_sk_seed _ _ _ E), (auth_path_seed _ _ _ E).
    exact eq_refl.
  - rewrite !sign_all_exhausted; [exact eq_refl|assumption|rewrite <- Es, <- Eh; lia|assumption|lia].
Qed.

(** The tree after some signatures. *)
Lemma sign_all_state {M inv} `{MssPaths M inv} requests : forall m : M, inv m -> fitting (height (keys m)) requests ->
  let m' := (sign_all m requests).1 in
  inv m' /\ same_seed (keys m) (keys m') /\
  skn (keys m') = Z.min (skn (keys m) + Z.of_nat (length requests)) (MAM_MSS_MAX_SKN (height (keys m)) + 1).
Proof.
  induction requests as [|[hash sig] requests IH]; intros m Hi Hreq.
  - cbn [sign_all fst length]. destruct (paths_keys m Hi) as [_ Hr]. split; [exact Hi|]. split; [done|lia].
  - pose proof Hreq as [(Hh & Hv & Hsz) Hreq']%Forall_cons_iff. cbn [fst snd] in *. destruct (paths_keys m Hi) as [_ Hr].
    destruct (decide (skn (keys m) <= MAM_MSS_MAX_SKN (height (keys m)))) as [Hle|Hgt].
    + destruct (sign_all_next m hash sig requests Hi Hle Hh Hv Hsz) as (m1 & mem & I1 & K1 & _ & ->).
      specialize (IH m1 I1). rewrite K1 in IH. specialize (IH Hreq'). destruct (sign_all m1 requests) as [m2 rs]. cbn [fst] in *.
      destruct IH as (I2 & E2 & S2). split; [exact I2|]. split; [exact E2|]. rewrite S2. cbn [skn height with_skn length]. lia.
    + rewrite sign_all_exhausted by (assumption || lia). cbn [fst length]. split; [exact Hi|]. split; [done|lia].
Qed.
