(* ===== verification/MssClassic.v ===== *)
(** * Merkle signatures with the whole tree in memory

    [mam/mss/mss_classic.c].  The tree is an array of hashes in the order of a heap; the root
    has the level 0 here and the leaves the level [height]. *)
From S2P Require Import Prelude Errors Trits Troika Ftroika MamTrits MamSponge Pb3 Wots Mss.

Record mam_mss_t := mk_mss { common : mss_keys; mt : list (list Z) }.

Definition mt_idx (height : nat) (i : Z) : nat := Z.to_nat (2 ^ Z.of_nat height + i - 1).
Definition mss_mt_node_t_trits (mt : list (list Z)) (height : nat) (i : Z) : trits_t :=
  trits_from_rep MAM_MSS_MT_HASH_SIZE (nth (mt_idx height i) mt []).
Definition set_node (mt : list (list Z)) (height : nat) (i : Z) (hash : list Z) : list (list Z) :=
  <[mt_idx height i := hash]> mt.

Definition mam_mss_init (mss : mam_mss_t) (prng : list Z) (height : nat) (nonce1 nonce2 nonce3 nonce4 : trits_t)
    : mam_mss_t :=
  mk_mss (mk_keys height 0 prng nonce1 nonce2 nonce3 nonce4 (root (common mss))) (mt mss).

Definition gen_leaves (k : mss_keys) (mt : list (list Z)) : list (list Z) :=
  foldl (fun mt i =>
    let wpk := mss_mt_node_t_trits mt (height k) i in
    set_node mt (height k) i (mss_mt_gen_leaf k i wpk)) mt (seqZ 0 (2 ^ Z.of_nat (height k))).

Definition gen_level (mt : list (list Z)) (height : nat) : list (list Z) :=
  foldl (fun mt i =>
    let h0 := mss_mt_node_t_trits mt (height + 1) (2 * i + 0) in
    let h1 := mss_mt_node_t_trits mt (height + 1) (2 * i + 1) in
    let h01 := mss_mt_node_t_trits mt height i in
    set_node mt height i (mss_hash2 zero_spongos h0 h1 h01)) mt (seqZ 0 (2 ^ Z.of_nat height)).

Definition mam_mss_gen (mss : mam_mss_t) : mam_mss_t :=
  let k := common mss in
  let root_trits := trits_from_rep MAM_MSS_PK_SIZE (root k) in
  let mt := gen_leaves k (mt mss) in
  let mt := foldl gen_level mt (rev (seq 0 (height k))) in
  let root := trits_copy (mss_mt_node_t_trits mt 0 0) root_trits in
  mk_mss (with_root k root) mt.

Fixpoint auth_path_loop (mt : list (list Z)) (height : nat) (skn : Z) (path : trits_t) : list Z :=
  match height with
  | O => t_p path
  | S height' =>
      let path_part_out := trits_take path MAM_MSS_MT_HASH_SIZE in
      let curr_auth_path_part := mss_mt_node_t_trits mt height (if 0 =? skn mod 2 then skn + 1 else skn - 1) in
      let path := with_p path (trits_copy curr_auth_path_part path_part_out) in
      auth_path_loop mt height' (skn / 2) (trits_drop path MAM_MSS_MT_HASH_SIZE)
  end.
Definition mam_mss_auth_path (mss : mam_mss_t) (skn : Z) (path : trits_t) : list Z :=
  auth_path_loop (mt mss) (height (common mss)) skn path.

Definition mam_mss_next (mss : mam_mss_t) : bool * mam_mss_t :=
  if mam_mss_remaining_sks (common mss) =? 0 then (false, mss)
  else (true, mk_mss (with_skn (common mss) (skn (common mss) + 1)) (mt mss)).

(** [malloc]: the memory for a number of hashes, if there is any. *)
Definition mam_mss_create (malloc : nat -> option (list (list Z))) (height : nat) : retcode_t * mam_mss_t :=
  let mss := mk_mss (mk_keys 0 0 [] trits_null trits_null trits_null trits_null (replicate MAM_MSS_PK_SIZE 0)) [] in
  if (MAM_MSS_MAX_D <? height)%nat then (RC_MAM_INVALID_ARGUMENT, mss) else
  match malloc (2 * 2 ^ height - 1)%nat with
  | None => (RC_OOM, mss)
  | Some mt => (RC_OK, mk_mss (common mss) mt)
  end.

Definition mam_mss_destroy (mss : mam_mss_t) : mam_mss_t := mk_mss (common mss) [].

Definition mss_mt_serialized_size (mss : mam_mss_t) : nat :=
  (2 ^ (height (common mss) + 1) - 1) * MAM_MSS_MT_HASH_SIZE.

(** The nodes of a level, for [height] and the levels below it. *)
Definition serialize_level (mt : list (list Z)) (buffer : trits_t) (height : nat) : trits_t :=
  foldl (fun buffer i =>
    let buffer := with_p buffer
      (trits_copy (mss_mt_node_t_trits mt height i) (trits_take buffer MAM_MSS_MT_HASH_SIZE)) in
    trits_drop buffer MAM_MSS_MT_HASH_SIZE) buffer (seqZ 0 (2 ^ Z.of_nat height)).
Definition mss_mt_serialize (mss : mam_mss_t) (buffer : trits_t) : trits_t :=
  foldl (serialize_level (mt mss)) buffer (rev (seq 0 (S (height (common mss))))).

Definition deserialize_level (st : list (list Z) * trits_t) (height : nat) : list (list Z) * trits_t :=
  foldl (fun '(mt, buffer) i =>
    let mt := set_node mt height i
      (trits_copy (trits_take buffer MAM_MSS_MT_HASH_SIZE) (mss_mt_node_t_trits mt height i)) in
    (mt, trits_drop buffer MAM_MSS_MT_HASH_SIZE)) st (seqZ 0 (2 ^ Z.of_nat height)).
Definition mss_mt_deserialize (buffer : trits_t) (mss : mam_mss_t) : mam_mss_t :=
  mk_mss (common mss) (foldl deserialize_level (mt mss, buffer) (rev (seq 0 (S (height (common mss)))))).1.

Definition mam_mss_deserialize (buffer : trits_t) (mss : mam_mss_t) : retcode_t * mam_mss_t * trits_t :=
  if (trits_size buffer <? MAM_MSS_SKN_TREE_DEPTH_SIZE + MAM_MSS_SKN_KEY_NUMBER_SIZE)%nat
  then (RC_MAM_BUFFER_TOO_SMALL, mss, buffer) else
  let '(part, buffer) := trits_advance buffer (MAM_MSS_SKN_TREE_DEPTH_SIZE + MAM_MSS_SKN_KEY_NUMBER_SIZE) in
  match mss_parse_skn part with
  | None => (RC_MAM_INVALID_VALUE, mss, buffer)
  | Some (h, n) =>
      if negb (h =? height (common mss))%nat then (RC_MAM_INVALID_VALUE, mss, buffer) else
      let mss := mk_mss (with_skn (common mss) n) (mt mss) in
      if (trits_size buffer <? mss_mt_serialized_size mss)%nat then (RC_MAM_BUFFER_TOO_SMALL, mss, buffer) else
      let '(part, buffer) := trits_advance buffer (mss_mt_serialized_size mss) in
      let mss := mss_mt_deserialize part mss in
      let '(ret, mem, buffer) := pb3_decode_ntrytes (trits_from_rep MAM_MSS_PK_SIZE (root (common mss))) buffer in
      (ret, mk_mss (with_root (common mss) mem) (mt mss), buffer)
  end.

#[export] Instance classic_tree : MssTree mam_mss_t := {|
  keys := common;
  Mss.mam_mss_auth_path := mam_mss_auth_path;
  Mss.mam_mss_next := mam_mss_next;
  Mss.mss_mt_serialized_size := mss_mt_serialized_size;
  Mss.mss_mt_serialize := mss_mt_serialize
|}.

#[local] Opaque mam_sponge_transform digest chain.

(** ** The order of the heap *)
Lemma mt_idx_range l i : 0 <= i < 2 ^ Z.of_nat l -> Z.of_nat (mt_idx l i) = 2 ^ Z.of_nat l + i - 1.
Proof. intros H. unfold mt_idx. pose proof (pow2_pos l). lia. Qed.

Lemma mt_idx_level l i l' j : 0 <= i < 2 ^ Z.of_nat l -> 0 <= j < 2 ^ Z.of_nat l' -> (l < l')%nat -> (mt_idx l i < mt_idx l' j)%nat.
Proof.
  intros Hi Hj Hl. apply Nat2Z.inj_lt. rewrite !mt_idx_range by done.
  assert (2 ^ Z.of_nat (S l) <= 2 ^ Z.of_nat l') by (apply Z.pow_le_mono_r; lia). rewrite pow2_S in *. lia.
Qed.

Lemma mt_idx_inj l i l' j : 0 <= i < 2 ^ Z.of_nat l -> 0 <= j < 2 ^ Z.of_nat l' ->
  mt_idx l i = mt_idx l' j -> l = l' /\ i = j.
Proof.
  intros Hi Hj E. destruct (Nat.lt_trichotomy l l') as [H|[->|H]].
  - pose proof (mt_idx_level l i l' j Hi Hj H). lia.
  - split; [done|]. apply (f_equal Z.of_nat) in E. rewrite !mt_idx_range in E by done. lia.
  - pose proof (mt_idx_level l' j l i Hj Hi H). lia.
Qed.

Lemma foldl_seqZ {A} (P : Z -> A -> Prop) f n a : 0 <= n -> P 0 a ->
  (forall i a, 0 <= i < n -> P i a -> P (i + 1) (f a i)) -> P n (foldl f a (seqZ 0 n)).
Proof.
  intros Hn H0 Hstep. revert n Hn Hstep. apply (natlike_ind (fun n => (forall i a, 0 <= i < n -> P i a -> P (i + 1) (f a i)) ->
    P n (foldl f a (seqZ 0 n)))); [done|]. intros n Hn IH Hstep.
  unfold Z.succ. rewrite seqZ_app, foldl_app by lia. change (seqZ (0 + n) 1) with [0 + n]. cbn [foldl].
  rewrite Z.add_0_l. apply Hstep; [lia|]. apply IH. intros i b Hi. apply Hstep. lia.
Qed.

Section Built.
Context (k : mss_keys) (Hk : mss_keys_ok k).
Let H := height k.

(** The levels from [lo] on are built. *)
Record shaped (mt : list (list Z)) : Prop := {
  shaped_length : length mt = (2 ^ (H + 1) - 1)%nat;
  shaped_hashes : Forall (fun x => length x = MAM_MSS_MT_HASH_SIZE) mt
}.
Definition built_node (mt : list (list Z)) (l : nat) (i : Z) : Prop :=
  nth (mt_idx l i) mt [] = mss_node k (H - l) i.
Definition built (lo : nat) (mt : list (list Z)) : Prop :=
  shaped mt /\ forall l i, (lo <= l <= H)%nat -> 0 <= i < 2 ^ Z.of_nat l -> built_node mt l i.

Lemma idx_in_tree l i mt : shaped mt -> (l <= H)%nat -> 0 <= i < 2 ^ Z.of_nat l -> (mt_idx l i < length mt)%nat.
Proof.
  intros [-> _] Hl Hi. apply Nat2Z.inj_lt. rewrite mt_idx_range by done.
  rewrite Nat2Z.inj_sub by (pose proof (Nat.pow_nonzero 2 (H + 1)); lia). rewrite Nat2Z.inj_pow.
  assert (2 ^ Z.of_nat (S l) <= 2 ^ Z.of_nat (H + 1)) by (apply Z.pow_le_mono_r; lia). rewrite pow2_S in *.
  change (Z.of_nat 2) with 2. change (Z.of_nat 1) with 1. lia.
Qed.

Lemma node_view l i mt : shaped mt -> (l <= H)%nat -> 0 <= i < 2 ^ Z.of_nat l ->
  exists ys, nth (mt_idx l i) mt [] = ys /\ length ys = MAM_MSS_MT_HASH_SIZE /\
    mss_mt_node_t_trits mt l i = view [] ys [].
Proof.
  intros Hs Hl Hi. exists (nth (mt_idx l i) mt []). split; [done|].
  assert (length (nth (mt_idx l i) mt []) = MAM_MSS_MT_HASH_SIZE) as E.
  { apply (proj1 (List.Forall_forall _ _) (shaped_hashes mt Hs)), nth_In. by apply idx_in_tree. }
  split; [exact E|]. by apply from_rep_view.
Qed.

Lemma set_shaped l i hash mt : shaped mt -> length hash = MAM_MSS_MT_HASH_SIZE -> shaped (set_node mt l i hash).
Proof.
  intros [Hl Hh] Hhash. unfold set_node. split; [by rewrite length_insert|by apply Forall_insert].
Qed.

Lemma nth_set_same l i hash mt : shaped mt -> (l <= H)%nat -> 0 <= i < 2 ^ Z.of_nat l ->
  nth (mt_idx l i) (set_node mt l i hash) [] = hash.
Proof.
  intros Hs Hl Hi. unfold set_node. rewrite nth_lookup, list_lookup_insert_eq by (by apply idx_in_tree). done.
Qed.

Lemma nth_set_other l i l' j hash mt : 0 <= i < 2 ^ Z.of_nat l -> 0 <= j < 2 ^ Z.of_nat l' -> (l, i) <> (l', j) ->
  nth (mt_idx l' j) (set_node mt l i hash) [] = nth (mt_idx l' j) mt [].
Proof.
  intros Hi Hj Hne. unfold set_node. rewrite !nth_lookup, list_lookup_insert_ne; [done|].
  intros E. apply mt_idx_inj in E as [-> ->]; done.
Qed.

Lemma height_bound : (H <= MAM_MSS_MAX_D)%nat.
Proof. apply ok_height, Hk. Qed.

Lemma level_fits l i : (l <= H)%nat -> 0 <= i < 2 ^ Z.of_nat l ->
  i * 2 ^ Z.of_nat (H - l) + 2 ^ Z.of_nat (H - l) <= 2 ^ Z.of_nat H.
Proof.
  intros Hl Hi. replace (Z.of_nat H) with (Z.of_nat l + Z.of_nat (H - l)) by lia.
  rewrite Z.pow_add_r by lia. pose proof (pow2_pos (H - l)). nia.
Qed.

Lemma tree_node_ok l i : (l <= H)%nat -> 0 <= i < 2 ^ Z.of_nat l ->
  length (mss_node k (H - l) i) = MAM_MSS_MT_HASH_SIZE /\ trits_ok (mss_node k (H - l) i).
Proof.
  intros Hl Hi. apply node_ok; [done|lia|]. pose proof (level_fits l i Hl Hi).
  pose proof (max_skn_bound _ height_bound). unfold MAM_MSS_MAX_SKN in *. lia.
Qed.

Lemma gen_leaves_built mt : shaped mt -> built H (gen_leaves k mt).
Proof.
  intros Hs.
  assert (shaped (gen_leaves k mt) /\ forall i, 0 <= i < 2 ^ Z.of_nat H -> built_node (gen_leaves k mt) H i) as [Hs' Hb].
  { unfold gen_leaves. fold H.
    apply (foldl_seqZ (fun n mt => shaped mt /\ forall i, 0 <= i < n -> built_node mt H i)); [lia|split; [done|lia]|].
    clear Hs mt. intros i mt Hi [Hs Hb].
    destruct (node_view H i mt Hs ltac:(done) Hi) as (ys & _ & Hly & ->).
    pose proof (max_skn_bound _ height_bound) as Hmax. unfold MAM_MSS_MAX_SKN in Hmax.
    rewrite gen_leaf_view by (done || lia). rewrite app_nil_l, app_nil_r.
    destruct (leaf_ok k i Hk ltac:(lia)) as [Hll _]. split; [by apply set_shaped|].
    intros j Hj. unfold built_node. rewrite Nat.sub_diag. cbn [mss_node]. destruct (decide (j = i)) as [->|Hne].
    - by apply nth_set_same.
    - rewrite nth_set_other by (first [lia|congruence]). specialize (Hb j ltac:(lia)).
      unfold built_node in Hb. by rewrite Nat.sub_diag in Hb. }
  split; [done|]. intros l i Hl Hi. assert (l = H) as -> by lia. by apply Hb.
Qed.

Lemma gen_level_built l mt : (l < H)%nat -> built (S l) mt -> built l (gen_level mt l).
Proof.
  intros Hl Hb0.
  assert (built (S l) (gen_level mt l) /\ forall i, 0 <= i < 2 ^ Z.of_nat l -> built_node (gen_level mt l) l i) as [[Hs' Hb] Hn].
  { unfold gen_level.
    apply (foldl_seqZ (fun n mt => built (S l) mt /\ forall i, 0 <= i < n -> built_node mt l i)); [lia|split; [done|lia]|].
    clear Hb0 mt. intros i mt Hi [[Hs Hb] Hn]. rewrite Nat.add_1_r, Z.add_0_r.
    pose proof (pow2_S l) as E2. pose proof (pow2_pos l).
    destruct (node_view (S l) (2 * i) mt Hs ltac:(lia) ltac:(lia)) as (h0 & E0 & L0 & ->).
    destruct (node_view (S l) (2 * i + 1) mt Hs ltac:(lia) ltac:(lia)) as (h1 & E1 & L1 & ->).
    destruct (node_view l i mt Hs ltac:(lia) Hi) as (ys & _ & Ly & ->).
    rewrite (Hb (S l) (2 * i)) in E0 by lia. rewrite (Hb (S l) (2 * i + 1)) in E1 by lia.
    assert (mss_hash2 zero_spongos (view [] h0 []) (view [] h1 []) (view [] ys []) = mss_node k (H - l) i) as ->.
    { rewrite hash2_view; [|apply length_replicate| |].
      - rewrite app_nil_l, app_nil_r, Ly, <- E0, <- E1. replace (H - l)%nat with (S (H - S l)) by lia. exact eq_refl.
      - rewrite <- E0. apply tree_node_ok; lia.
      - rewrite <- E1. apply tree_node_ok; lia. }
    destruct (tree_node_ok l i ltac:(lia) Hi) as [Lp _].
    split; [split; [by apply set_shaped|]|].
    - intros l' j Hl' Hj. unfold built_node. rewrite nth_set_other; [by apply Hb|done|done|].
      intros [=]. lia.
    - intros j Hj. unfold built_node. destruct (decide (j = i)) as [->|Hne]; [apply nth_set_same; [done|lia|done]|].
      rewrite nth_set_other; [apply Hn; lia|done|lia|congruence]. }
  split; [done|]. intros l' i Hl' Hi. destruct (decide (l' = l)) as [->|]; [by apply Hn|]. apply Hb; [lia|done].
Qed.

Lemma gen_levels_built n mt : (n <= H)%nat -> built n mt -> built 0 (foldl gen_level mt (rev (seq 0 n))).
Proof.
  revert mt. induction n as [|n IH]; intros mt Hn Hb; [done|].
  rewrite seq_S, rev_app_distr. cbn [rev app foldl]. apply IH; [lia|]. by apply gen_level_built; [lia|].
Qed.
End Built.

(** ** The interface *)
Record generated (mss : mam_mss_t) : Prop := {
  gen_keys : mss_keys_ok (common mss);
  gen_skn : 0 <= skn (common mss) <= MAM_MSS_MAX_SKN (height (common mss)) + 1;
  gen_built : built (common mss) 0 (mt mss);
  gen_root : root (common mss) = mss_node (common mss) (height (common mss)) 0
}.

Lemma built_seed k k' lo mt : same_seed k k' -> built k lo mt -> built k' lo mt.
Proof.
  intros E [[Hl Hh] Hb]. pose proof (proj1 E) as Eh. split; [split; [by rewrite <- Eh|done]|].
  intros l i Hl' Hi. unfold built_node. rewrite <- (node_seed k k') by done. rewrite <- Eh in *. by apply Hb.
Qed.

(** What [mam_mss_gen] does to a tree that was created and initialised. *)
Lemma gen_generated mss : mss_keys_ok (common mss) -> skn (common mss) = 0 -> shaped (common mss) (mt mss) ->
  length (root (common mss)) = MAM_MSS_PK_SIZE ->
  generated (mam_mss_gen mss) /\ same_seed (common mss) (common (mam_mss_gen mss)) /\ skn (common (mam_mss_gen mss)) = 0.
Proof.
  intros Hk H0 Hs Hr. set (k := common mss) in *.
  pose proof (gen_levels_built k Hk (height k) _ (le_n _) (gen_leaves_built k Hk _ Hs)) as Hb.
  unfold mam_mss_gen. fold k. cbv zeta. set (mt' := foldl gen_level _ _) in *.
  assert (forall r, same_seed k (with_root k r)) as Hseed by done.
  split; [|split; [by split_and!|exact H0]].
  pose proof (max_skn_bound _ (ok_height k Hk)) as Hmax. pose proof (pow2_pos (height k)).
  split; cbn [common mt].
  - exact (keys_ok_seed _ _ (Hseed _) Hk).
  - cbn [with_root skn height]. rewrite H0. unfold MAM_MSS_MAX_SKN. lia.
  - exact (built_seed _ _ _ _ (Hseed _) Hb).
  - cbn [with_root root height]. rewrite <- (node_seed k _ _ (Hseed _)).
    destruct (node_view k 0 0 mt' (proj1 Hb) ltac:(lia) ltac:(cbn; lia)) as (ys & E & Ly & ->).
    rewrite (proj2 Hb 0%nat 0) in E by (cbn; lia). rewrite Nat.sub_0_r in E.
    rewrite (from_rep_view _ _ Hr), copy_view by (rewrite Hr; exact Ly). by rewrite app_nil_l, app_nil_r.
Qed.

Lemma classic_path_view k mt s n : mss_keys_ok k -> built k 0 mt -> length (sponge s) = STATESIZE ->
  forall i p ys q, (n <= height k)%nat -> 0 <= i < 2 ^ Z.of_nat n -> length ys = (MAM_MSS_MT_HASH_SIZE * n)%nat ->
  auth_path_loop mt n i (view p ys q) =
  p ++ concat (map (fun h => mss_node k h (sibling (i / 2 ^ Z.of_nat (h - (height k - n))))) (seq (height k - n) n)) ++ q.
Proof.
  intros Hk [Hs Hb] _. induction n as [|n IH]; intros i p ys q Hn Hi Hy.
  - cbn [auth_path_loop seq map concat]. rewrite Nat.mul_0_r in Hy. destruct ys; [|discriminate]. apply mem_view.
  - cbn [auth_path_loop seq map concat]. rewrite Nat.sub_diag. change (2 ^ Z.of_nat 0) with 1. rewrite Z.div_1_r.
    pose proof (pow2_S n) as E2. rewrite <- (take_drop MAM_MSS_MT_HASH_SIZE ys).
    assert (length (take MAM_MSS_MT_HASH_SIZE ys) = MAM_MSS_MT_HASH_SIZE) as L1 by (rewrite length_take; lia).
    assert (length (drop MAM_MSS_MT_HASH_SIZE ys) = (MAM_MSS_MT_HASH_SIZE * n)%nat) as L2 by (rewrite length_drop; lia).
    set (y1 := take _ ys) in *. set (y2 := drop _ ys) in *.
    assert ((if 0 =? i mod 2 then i + 1 else i - 1) = sibling i) as -> by (unfold sibling; by rewrite Z.eqb_sym).
    assert (0 <= sibling i < 2 ^ Z.of_nat (S n)) as Hsib
      by (destruct (sibling_pair i ltac:(lia)) as [(_ & -> & ?)|(_ & -> & ?)]; lia).
    destruct (node_view k (S n) (sibling i) mt Hs Hn Hsib) as (h & E & Lh & ->).
    rewrite (Hb (S n) (sibling i)) in E by lia.
    rewrite (take_view p y1) by exact L1. rewrite copy_view by congruence.
    assert (with_p (view p (y1 ++ y2) q) (p ++ h ++ y2 ++ q) = view p (h ++ y2) q) as ->.
    { rewrite (app_assoc h). apply with_view. rewrite !length_app. congruence. }
    rewrite (drop_view p h) by exact Lh. rewrite IH; [|lia|split; [apply Z.div_pos; lia|apply Z.div_lt_upper_bound; lia]|done].
    rewrite <- E, <- !app_assoc. do 2 f_equal.
    replace (S (height k - S n)) with (height k - n)%nat by lia. f_equal. f_equal.
    apply List.map_ext_in. intros j Hj%in_seq. do 2 f_equal.
    replace (j - (height k - S n))%nat with (S (j - (height k - n))) by lia.
    rewrite pow2_S, Z.div_div; [done|lia|apply pow2_pos].
Qed.

#[export] Instance classic_paths : MssPaths mam_mss_t generated.
Proof.
  split.
  - intros mss [Hk Hr _ _]. by split.
  - intros mss [_ _ _ Hr]. exact Hr.
  - intros mss p ys q [Hk Hr Hb _] Hs Hy. cbn [keys Mss.mam_mss_auth_path classic_tree]. unfold mam_mss_auth_path.
    unfold MAM_MSS_MAX_SKN in Hs. cbn [keys classic_tree] in Hs.
    rewrite (classic_path_view (common mss) (mt mss) zero_spongos _ Hk Hb); [|apply length_replicate|lia|lia|exact Hy].
    rewrite Nat.sub_diag. unfold auth_path_of. do 3 f_equal. apply List.map_ext. intros h. by rewrite Nat.sub_0_r.
  - intros mss [Hk Hr Hb Hroot]. cbn [keys Mss.mam_mss_next classic_tree]. unfold mam_mss_next.
    rewrite remaining_sks_spec by done. destruct (Z.leb_spec (skn (common mss)) (MAM_MSS_MAX_SKN (height (common mss)))) as [Hle|Hgt].
    + destruct (Z.eqb_spec (MAM_MSS_MAX_SKN (height (common mss)) + 1 - skn (common mss)) 0); [lia|]. cbn [fst snd].
      split; [|done]. assert (same_seed (common mss) (with_skn (common mss) (skn (common mss) + 1))) as Hseed by done.
      split; cbn [common mt with_skn skn height root].
      * exact (keys_ok_seed _ _ Hseed Hk).
      * lia.
      * exact (built_seed _ _ _ _ Hseed Hb).
      * by rewrite <- (node_seed _ _ _ Hseed).
    + destruct (Z.eqb_spec (MAM_MSS_MAX_SKN (height (common mss)) + 1 - skn (common mss)) 0); [|lia]. by split.
Qed.
