(* ===== verification/MssTraversal.v ===== *)
(** * Merkle signatures by tree traversal

    [mam/mss/mss_traversal.c], the implementation that is built by default.  In memory are the
    path of the current key and, for every level, a stack on which the node that the path will
    need next is computed a little with every signature.  The stack of the level [d] has room
    for [d + 1] nodes, from [MAM_MSS_MT_NODES d] on in the arrays of nodes and hashes.

    Levels count from the leaves.  Numbers of keys are below 2^21 and do not wrap. *)
From S2P Require Import Prelude Errors Trits Troika Ftroika MamTrits MamSponge Pb3 Wots Mss.

Record mss_mt_node_t := mk_node { n_height : nat; n_level_idx : Z }.
Record mss_mt_stack_t := mk_stack { s_height : nat; s_level_idx : Z; s_size : nat }.
Record mam_mss_t := mk_mss {
  common : mss_keys;
  auth_path : list (list Z);
  nodes_hashes : list (list Z);
  nodes : list mss_mt_node_t;
  stacks : list mss_mt_stack_t
}.

Definition MAM_MSS_MT_NODES (d : nat) : nat := d * (d + 1) / 2.

Definition no_node : mss_mt_node_t := mk_node 0 0.
Definition no_stack : mss_mt_stack_t := mk_stack 0 0 0.
Definition node_at (mss : mam_mss_t) (i : nat) : mss_mt_node_t := nth i (nodes mss) no_node.
Definition stack_at (mss : mam_mss_t) (height : nat) : mss_mt_stack_t := nth height (stacks mss) no_stack.

Definition mss_hash_idx (p : list (list Z)) (i : nat) : trits_t := trits_from_rep MAM_MSS_MT_HASH_SIZE (nth i p []).
Definition mss_mt_auth_path_trits (mss : mam_mss_t) (height : nat) : trits_t := mss_hash_idx (auth_path mss) height.
Definition mss_mt_node_hash_trits (mss : mam_mss_t) (height i : nat) : trits_t :=
  mss_hash_idx (nodes_hashes mss) (MAM_MSS_MT_NODES height + i).

Definition with_common (m : mam_mss_t) (k : mss_keys) : mam_mss_t :=
  mk_mss k (auth_path m) (nodes_hashes m) (nodes m) (stacks m).
Definition set_auth (m : mam_mss_t) (height : nat) (hash : list Z) : mam_mss_t :=
  mk_mss (common m) (<[height := hash]> (auth_path m)) (nodes_hashes m) (nodes m) (stacks m).
Definition set_hash (m : mam_mss_t) (i : nat) (hash : list Z) : mam_mss_t :=
  mk_mss (common m) (auth_path m) (<[i := hash]> (nodes_hashes m)) (nodes m) (stacks m).
Definition set_mt_node (m : mam_mss_t) (i : nat) (node : mss_mt_node_t) : mam_mss_t :=
  mk_mss (common m) (auth_path m) (nodes_hashes m) (<[i := node]> (nodes m)) (stacks m).
Definition set_stack (m : mam_mss_t) (height : nat) (stack : mss_mt_stack_t) : mam_mss_t :=
  mk_mss (common m) (auth_path m) (nodes_hashes m) (nodes m) (<[height := stack]> (stacks m)).

Definition mss_mt_init (mss : mam_mss_t) : mam_mss_t :=
  foldl (fun m height => set_stack m height (mk_stack height 0 0)) mss (seq 0 (height (common mss))).

(** ** Stacks *)
Definition mss_mt_update (mss : mam_mss_t) (height_ : nat) : mam_mss_t :=
  let stack := stack_at mss height_ in
  let base := MAM_MSS_MT_NODES height_ in
  let node i := node_at mss (base + i) in
  let size := s_size stack in
  if negb (size =? 0)%nat && (s_height stack <=? n_height (node (size - 1)%nat))%nat then mss
  else if (1 <? size)%nat && (n_height (node (size - 2)%nat) =? n_height (node (size - 1)%nat))%nat then
    let hashes1 := mss_hash_idx (nodes_hashes mss) (base + (size - 1)) in
    let size := (size - 2)%nat in
    let hashes0 := mss_hash_idx (nodes_hashes mss) (base + size) in
    let into := if negb (n_height (node size) + 1 =? height (common mss))%nat then (base + size)%nat else (base + (size + 1))%nat in
    let mss := set_hash mss into (mss_hash2 zero_spongos hashes0 hashes1 (mss_hash_idx (nodes_hashes mss) into)) in
    let mss := set_mt_node mss (base + size) (mk_node (n_height (node size) + 1) (n_level_idx (node size) / 2)) in
    set_stack mss height_ (mk_stack (s_height stack) (s_level_idx stack) (size + 1))
  else if s_level_idx stack <=? MAM_MSS_MAX_SKN (height (common mss)) then
    let wots_pk := mss_hash_idx (nodes_hashes mss) (base + size) in
    let mss := set_hash mss (base + size) (mss_mt_gen_leaf (common mss) (s_level_idx stack) wots_pk) in
    let mss := set_mt_node mss (base + size) (mk_node 0 (s_level_idx stack)) in
    set_stack mss height_ (mk_stack (s_height stack) (s_level_idx stack + 1) (size + 1))
  else mss.

(** The same without the hashes. *)
Definition mss_mt_load_update (mss : mam_mss_t) (height_ : nat) : mam_mss_t :=
  let stack := stack_at mss height_ in
  let base := MAM_MSS_MT_NODES height_ in
  let node i := node_at mss (base + i) in
  let size := s_size stack in
  if negb (size =? 0)%nat && (s_height stack <=? n_height (node (size - 1)%nat))%nat then mss
  else if (1 <? size)%nat && (n_height (node (size - 2)%nat) =? n_height (node (size - 1)%nat))%nat then
    let size := (size - 2)%nat in
    let mss := set_mt_node mss (base + size) (mk_node (n_height (node size) + 1) (n_level_idx (node size) / 2)) in
    set_stack mss height_ (mk_stack (s_height stack) (s_level_idx stack) (size + 1))
  else if s_level_idx stack <=? MAM_MSS_MAX_SKN (height (common mss)) then
    let mss := set_mt_node mss (base + size) (mk_node 0 (s_level_idx stack)) in
    set_stack mss height_ (mk_stack (s_height stack) (s_level_idx stack + 1) (size + 1))
  else mss.

(** The levels are visited until the first one whose node is still needed. *)
Fixpoint refresh_loop (mss : mam_mss_t) (heights : list nat) : mam_mss_t :=
  match heights with
  | [] => mss
  | height :: heights =>
      let dd := 2 ^ Z.of_nat height in
      if negb ((skn (common mss) + 1) mod dd =? 0) then mss else
      let stack := stack_at mss height in
      let mss := set_auth mss height
        (trits_copy (mss_mt_node_hash_trits mss height (s_size stack - 1)) (mss_mt_auth_path_trits mss height)) in
      let mss := set_stack mss height (mk_stack height (Z.lxor (skn (common mss) + 1 + dd) dd) 0) in
      refresh_loop mss heights
  end.
Definition mss_mt_refresh (mss : mam_mss_t) : mam_mss_t := refresh_loop mss (seq 0 (height (common mss))).

Fixpoint load_refresh_loop (mss : mam_mss_t) (heights : list nat) : mam_mss_t :=
  match heights with
  | [] => mss
  | height :: heights =>
      let dd := 2 ^ Z.of_nat height in
      if negb ((skn (common mss) + 1) mod dd =? 0) then mss else
      let mss := set_stack mss height (mk_stack height (Z.lxor (skn (common mss) + 1 + dd) dd) 0) in
      load_refresh_loop mss heights
  end.
Definition mss_mt_load_refresh (mss : mam_mss_t) : mam_mss_t := load_refresh_loop mss (seq 0 (height (common mss))).

Definition mss_mt_build_stacks (mss : mam_mss_t) : mam_mss_t :=
  foldl (fun m height => mss_mt_update (mss_mt_update m height) height) mss (seq 0 (height (common mss))).
Definition mss_mt_load_build_stacks (mss : mam_mss_t) : mam_mss_t :=
  foldl (fun m height => mss_mt_load_update (mss_mt_load_update m height) height) mss (seq 0 (height (common mss))).

Definition bump_skn (mss : mam_mss_t) : mam_mss_t := with_common mss (with_skn (common mss) (skn (common mss) + 1)).

Definition mss_mt_rewind (mss : mam_mss_t) (skn_ : Z) : mam_mss_t :=
  let H := height (common mss) in
  let mss := foldl (fun m height =>
    let m := set_stack m height (mk_stack height 0 1) in
    set_mt_node m (MAM_MSS_MT_NODES height) (mk_node height 0)) mss (seq 0 H) in
  let mss :=
    if (0 <? H)%nat then
      let i := MAM_MSS_MT_NODES (H - 1) in
      set_mt_node mss i (mk_node (n_height (node_at mss i) + 1) (n_level_idx (node_at mss i)))
    else mss in
  let mss := with_common mss (with_skn (common mss) 0) in
  foldl (fun m _ => bump_skn (mss_mt_load_build_stacks (mss_mt_load_refresh m))) mss (seqZ 0 skn_).

(** ** Keys *)
Definition mam_mss_init (mss : mam_mss_t) (prng : list Z) (height : nat) (nonce1 nonce2 nonce3 nonce4 : trits_t)
    : mam_mss_t :=
  mss_mt_init (with_common mss (mk_keys height 0 prng nonce1 nonce2 nonce3 nonce4 (root (common mss)))).

(** What is done with the node on top of the stack while the tree is built. *)
Definition keep_node (mss : mam_mss_t) (height_ : nat) : mam_mss_t :=
  let stack := stack_at mss height_ in
  let top := (MAM_MSS_MT_NODES height_ + (s_size stack - 1))%nat in
  let node := node_at mss top in
  let hash := mss_hash_idx (nodes_hashes mss) top in
  if n_level_idx node =? 1 then
    set_auth mss (n_height node) (trits_copy hash (mss_mt_auth_path_trits mss (n_height node)))
  else if (n_level_idx node =? 0) && negb (n_height node + 1 =? height (common mss))%nat then
    let current := stack_at mss (n_height node) in
    let mss := set_hash mss (MAM_MSS_MT_NODES (n_height node))
      (trits_copy hash (mss_mt_node_hash_trits mss (n_height node) 0)) in
    let mss := set_mt_node mss (MAM_MSS_MT_NODES (n_height node)) node in
    set_stack mss (n_height node) (mk_stack (s_height current) (s_level_idx current) (s_size current + 1))
  else mss.

(** A tree of [2 ^ H] leaves takes [2 ^ (H + 1) - 1] updates. *)
Fixpoint gen_loop (fuel : nat) (mss : mam_mss_t) (height_ : nat) : option mam_mss_t :=
  match fuel with
  | O => None
  | S fuel =>
      let mss := mss_mt_update mss height_ in
      let stack := stack_at mss height_ in
      let node := node_at mss (MAM_MSS_MT_NODES height_ + (s_size stack - 1)) in
      if (n_height node =? height (common mss))%nat then
        let hash := mss_hash_idx (nodes_hashes mss) (MAM_MSS_MT_NODES height_ + s_size stack) in
        let root := trits_copy hash (trits_from_rep MAM_MSS_PK_SIZE (root (common mss))) in
        Some (set_stack (with_common mss (with_root (common mss) root)) height_
          (mk_stack (height (common mss) - 1) 0 1))
      else gen_loop fuel (keep_node mss height_) height_
  end.

Definition mam_mss_gen (mss : mam_mss_t) : option mam_mss_t :=
  let k := common mss in
  if (0 =? height k)%nat
  then Some (with_common mss (with_root k (mss_mt_gen_leaf k 0 (trits_from_rep MAM_MSS_PK_SIZE (root k)))))
  else
    let height_ := (height k - 1)%nat in
    let mss := set_stack mss height_ (mk_stack (height k) 0 0) in
    gen_loop (2 ^ (height k + 1)) mss height_.

Fixpoint auth_path_loop (mss : mam_mss_t) (heights : list nat) (path : trits_t) : list Z :=
  match heights with
  | [] => t_p path
  | height :: heights =>
      let path_part_out := trits_take path MAM_MSS_MT_HASH_SIZE in
      let path := with_p path (trits_copy (mss_hash_idx (auth_path mss) height) path_part_out) in
      auth_path_loop mss heights (trits_drop path MAM_MSS_MT_HASH_SIZE)
  end.
Definition mam_mss_auth_path (mss : mam_mss_t) (skn : Z) (path : trits_t) : list Z :=
  auth_path_loop mss (seq 0 (height (common mss))) path.

Definition mam_mss_next (mss : mam_mss_t) : bool * mam_mss_t :=
  let sks := mam_mss_remaining_sks (common mss) in
  if sks =? 0 then (false, mss) else
  let mss := if negb (sks =? 1) then mss_mt_build_stacks (mss_mt_refresh mss) else mss in
  (true, bump_skn mss).

(** Four allocations: hashes, hashes, nodes and stacks.  The last check is made on the nodes
    again, so that stacks that could not be allocated are not noticed. *)
Definition mam_mss_create (malloc_path malloc_hashes : nat -> option (list (list Z)))
    (malloc_nodes : nat -> option (list mss_mt_node_t)) (malloc_stacks : nat -> option (list mss_mt_stack_t))
    (height : nat) : retcode_t * mam_mss_t :=
  let k := mk_keys 0 0 [] trits_null trits_null trits_null trits_null (replicate MAM_MSS_PK_SIZE 0) in
  if (MAM_MSS_MAX_D <? height)%nat then (RC_MAM_INVALID_ARGUMENT, mk_mss k [] [] [] []) else
  match malloc_path height with
  | None => (RC_OOM, mk_mss k [] [] [] [])
  | Some path =>
      match malloc_hashes (MAM_MSS_MT_NODES height + 1)%nat with
      | None => (RC_OOM, mk_mss k path [] [] [])
      | Some hashes =>
          match malloc_nodes (MAM_MSS_MT_NODES height + 1)%nat with
          | None => (RC_OOM, mk_mss k path hashes [] [])
          | Some ns => (RC_OK, mk_mss k path hashes ns (default [] (malloc_stacks height)))
          end
      end
  end.

Definition mam_mss_destroy (mss : mam_mss_t) : mam_mss_t := mk_mss (common mss) [] [] [] [].

(** ** Serialization *)
Definition mss_mt_serialized_size (mss : mam_mss_t) : nat :=
  foldl (fun size height => size + s_size (stack_at mss height) * MAM_MSS_MT_HASH_SIZE)%nat
    (height (common mss) * MAM_MSS_MT_HASH_SIZE)%nat (seq 0 (height (common mss))).

Definition put_hash (hash : trits_t) (buffer : trits_t) : trits_t :=
  let buffer := with_p buffer (trits_copy hash (trits_take buffer MAM_MSS_MT_HASH_SIZE)) in
  trits_drop buffer MAM_MSS_MT_HASH_SIZE.
Definition serialize_stack (mss : mam_mss_t) (buffer : trits_t) (height : nat) : trits_t :=
  foldl (fun buffer i => put_hash (mss_mt_node_hash_trits mss height i) buffer) buffer
    (seq 0 (s_size (stack_at mss height))).
Definition mss_mt_serialize (mss : mam_mss_t) (buffer : trits_t) : trits_t :=
  let heights := seq 0 (height (common mss)) in
  let buffer := foldl (fun buffer height => put_hash (mss_mt_auth_path_trits mss height) buffer) buffer heights in
  foldl (serialize_stack mss) buffer heights.

Definition load_auth (st : mam_mss_t * trits_t) (height : nat) : mam_mss_t * trits_t :=
  let '(mss, buffer) := st in
  (set_auth mss height (trits_copy (trits_take buffer MAM_MSS_MT_HASH_SIZE) (mss_mt_auth_path_trits mss height)),
   trits_drop buffer MAM_MSS_MT_HASH_SIZE).
Definition load_stack (st : mam_mss_t * trits_t) (height : nat) : mam_mss_t * trits_t :=
  foldl (fun '(mss, buffer) i =>
    (set_hash mss (MAM_MSS_MT_NODES height + i)
       (trits_copy (trits_take buffer MAM_MSS_MT_HASH_SIZE) (mss_mt_node_hash_trits mss height i)),
     trits_drop buffer MAM_MSS_MT_HASH_SIZE)) st (seq 0 (s_size (stack_at st.1 height))).
Definition mss_mt_deserialize (buffer : trits_t) (mss : mam_mss_t) : mam_mss_t :=
  let heights := seq 0 (height (common mss)) in
  (foldl load_stack (foldl load_auth (mss, buffer) heights) heights).1.

Definition mam_mss_deserialize (buffer : trits_t) (mss : mam_mss_t) : retcode_t * mam_mss_t * trits_t :=
  if (trits_size buffer <? MAM_MSS_SKN_TREE_DEPTH_SIZE + MAM_MSS_SKN_KEY_NUMBER_SIZE)%nat
  then (RC_MAM_BUFFER_TOO_SMALL, mss, buffer) else
  let '(part, buffer) := trits_advance buffer (MAM_MSS_SKN_TREE_DEPTH_SIZE + MAM_MSS_SKN_KEY_NUMBER_SIZE) in
  match mss_parse_skn part with
  | None => (RC_MAM_INVALID_VALUE, mss, buffer)
  | Some (h, n) =>
      if negb (h =? height (common mss))%nat then (RC_MAM_INVALID_VALUE, mss, buffer) else
      let mss := mss_mt_rewind mss n in
      if (trits_size buffer <? mss_mt_serialized_size mss)%nat then (RC_MAM_BUFFER_TOO_SMALL, mss, buffer) else
      let '(part, buffer) := trits_advance buffer (mss_mt_serialized_size mss) in
      let mss := mss_mt_deserialize part mss in
      let '(ret, mem, buffer) := pb3_decode_ntrytes (trits_from_rep MAM_MSS_PK_SIZE (root (common mss))) buffer in
      (ret, with_common mss (with_root (common mss) mem), buffer)
  end.

#[export] Instance traversal_tree : MssTree mam_mss_t := {|
  keys := common;
  Mss.mam_mss_auth_path := mam_mss_auth_path;
  Mss.mam_mss_next := mam_mss_next;
  Mss.mss_mt_serialized_size := mss_mt_serialized_size;
  Mss.mss_mt_serialize := mss_mt_serialize
|}.

#[local] Opaque mam_sponge_transform digest chain.

(** ** Stacks of nodes

    The top first: a node is its level and its number.  The leaves below the nodes are those
    from [L] on, up to [b]. *)
Abbreviation stack_t := (list (nat * Z)).

Fixpoint covers (L : Z) (st : stack_t) (b : Z) : Prop :=
  match st with
  | [] => b = L
  | (h, i) :: st => b = (i + 1) * 2 ^ Z.of_nat h /\ covers L st (i * 2 ^ Z.of_nat h)
  end.

(** Levels grow from the top down, by one at least. *)
Fixpoint rising (lo : nat) (st : stack_t) : Prop :=
  match st with
  | [] => True
  | (h, _) :: st => (lo <= h)%nat /\ rising (S h) st
  end.

(** The two nodes on top may have the same level. *)
Definition stack_wf (st : stack_t) : Prop :=
  match st with
  | (h, _) :: st => rising h st
  | [] => True
  end.

Definition below (t : nat) (st : stack_t) : Prop := Forall (fun x => (x.1 < t)%nat) st.

Lemma rising_weaken lo lo' st : (lo' <= lo)%nat -> rising lo st -> rising lo' st.
Proof. destruct st as [|[h i] st]; [done|]. cbn. intros ? [? ?]. split; [lia|done]. Qed.

Lemma rising_size n lo st L b : (lo <= n)%nat -> rising lo st -> below n st -> covers L st b ->
  L <= b <= L + 2 ^ Z.of_nat n - 2 ^ Z.of_nat lo.
Proof.
  intros Hn. revert lo b Hn. induction st as [|[h i] st IH]; intros lo b Hn Hr Hb Hc.
  - cbn in Hc. subst b. assert (2 ^ Z.of_nat lo <= 2 ^ Z.of_nat n) by (apply Z.pow_le_mono_r; lia). lia.
  - cbn in Hr, Hc. destruct Hr as [Hlo Hr], Hc as [-> Hc]. apply Forall_cons_iff in Hb as [Hh Hb]. cbn [fst] in Hh.
    specialize (IH (S h) _ ltac:(lia) Hr Hb Hc). rewrite pow2_S in IH.
    assert (2 ^ Z.of_nat lo <= 2 ^ Z.of_nat h) by (apply Z.pow_le_mono_r; lia). pose proof (pow2_pos h). lia.
Qed.

Lemma rising_length n lo st : (lo <= n)%nat -> rising lo st -> below n st -> (length st <= n - lo)%nat.
Proof.
  intros Hn. revert lo Hn. induction st as [|[h i] st IH]; intros lo Hn Hr Hb; cbn [length]; [lia|].
  destruct Hr as [Hlo Hr]. apply Forall_cons_iff in Hb as [Hh Hb]. cbn [fst] in Hh.
  specialize (IH (S h) ltac:(lia) Hr Hb). lia.
Qed.

(** The end of the leaves below nodes of high levels is aligned. *)
Lemma covers_aligned h L st b : rising h st -> covers L st b -> (exists q, L = q * 2 ^ Z.of_nat h) ->
  exists q, b = q * 2 ^ Z.of_nat h.
Proof.
  intros Hr Hc HL. destruct st as [|[h' i] st]; cbn in Hr, Hc; [by subst|].
  destruct Hr as [Hle _], Hc as [-> _]. exists ((i + 1) * 2 ^ Z.of_nat (h' - h)).
  rewrite <- Z.mul_assoc, <- Z.pow_add_r by lia. do 2 f_equal. lia.
Qed.

Lemma aligned_down h t L : (h <= t)%nat -> (exists q, L = q * 2 ^ Z.of_nat t) -> exists q, L = q * 2 ^ Z.of_nat h.
Proof.
  intros Hh [q ->]. exists (q * 2 ^ Z.of_nat (t - h)). rewrite <- Z.mul_assoc, <- Z.pow_add_r by lia. do 2 f_equal. lia.
Qed.

(** A stack on its way to the node of the level [t] above the leaves from [L] on. *)
Record building (t : nat) (L : Z) (st : stack_t) (b : Z) : Prop := {
  bu_covers : covers L st b;
  bu_wf : stack_wf st;
  bu_below : below t st;
  bu_end : b <= L + 2 ^ Z.of_nat t;
  bu_aligned : exists q, L = q * 2 ^ Z.of_nat t
}.

(** The steps that were made. *)
Definition progress (L : Z) (st : stack_t) (b : Z) : Z := 2 * (b - L) - Z.of_nat (length st).

Lemma building_nil t L : (exists q, L = q * 2 ^ Z.of_nat t) -> building t L [] L.
Proof. intros HL. pose proof (pow2_pos t). split; [done|done|by constructor|lia|done]. Qed.

(** Two nodes of the same level on top: the left one has an even number, and the right one
    the next. *)
Lemma building_pair t L h i j st b : building t L ((h, i) :: (h, j) :: st) b ->
  i = j + 1 /\ j = 2 * (j / 2) /\ b = (j + 2) * 2 ^ Z.of_nat h /\ rising (S h) st /\ covers L st (j * 2 ^ Z.of_nat h) /\ (h < t)%nat.
Proof.
  intros [Hc Hw Hb _ HL]. cbn in Hc, Hw. destruct Hc as [-> [E Hc]], Hw as [_ Hr].
  apply Forall_cons_iff in Hb as [Hh Hb]. cbn [fst] in Hh.
  pose proof (pow2_pos h) as Hp. assert (i = j + 1) as -> by nia. split; [done|].
  destruct (covers_aligned (S h) L st _ Hr Hc (aligned_down (S h) t L ltac:(lia) HL)) as [q Hq].
  rewrite pow2_S in Hq. assert (j = 2 * q) as -> by nia.
  split; [rewrite Z.mul_comm, Z.div_mul by lia; lia|]. split; [lia|done].
Qed.

Lemma building_merge t L h i j st b : building t L ((h, i) :: (h, j) :: st) b -> (S h < t)%nat ->
  building t L ((S h, j / 2) :: st) b.
Proof.
  intros Hbu Ht. destruct (building_pair _ _ _ _ _ _ _ Hbu) as (-> & Ej & -> & Hr & Hc & _). destruct Hbu as [_ _ Hb Hend HL].
  apply Forall_cons_iff in Hb as [_ Hb]. apply Forall_cons_iff in Hb as [_ Hb].
  split; [|exact Hr|by constructor|exact Hend|exact HL].
  cbn. rewrite pow2_S. split; [rewrite Ej at 1; lia|]. rewrite Ej in Hc at 1.
  by replace (j / 2 * (2 * 2 ^ Z.of_nat h)) with (2 * (j / 2) * 2 ^ Z.of_nat h) by lia.
Qed.

(** The last merge: the stack is the node that was asked for. *)
Lemma building_merge_last t L h i j st b : building t L ((h, i) :: (h, j) :: st) b -> t = S h ->
  st = [] /\ L = j / 2 * 2 ^ Z.of_nat t /\ b = L + 2 ^ Z.of_nat t.
Proof.
  intros Hbu ->. destruct (building_pair _ _ _ _ _ _ _ Hbu) as (-> & Ej & -> & Hr & Hc & _). destruct Hbu as [_ _ Hb _ HL].
  apply Forall_cons_iff in Hb as [_ Hb]. apply Forall_cons_iff in Hb as [_ Hb].
  assert (st = []) as ->.
  { destruct st as [|[h' i'] st]; [done|]. cbn in Hr. apply Forall_cons_iff in Hb as [Hh _]. cbn in Hh. lia. }
  cbn in Hc. rewrite pow2_S. split; [done|]. rewrite Ej in Hc at 1. split; [lia|]. rewrite Ej at 1. lia.
Qed.

(** Nothing to merge: there is a leaf to come. *)
Definition distinct (st : stack_t) : Prop :=
  match st with (h, _) :: (h', _) :: _ => h <> h' | _ => True end.

#[global] Instance distinct_dec st : Decision (distinct st).
Proof. destruct st as [|[h i] [|[h' j] st]]; apply _. Defined.

Lemma distinct_rising st : stack_wf st -> distinct st -> rising 0 st.
Proof.
  destruct st as [|[h i] [|[h' j] st]]; cbn; [done|by split; [lia|]|]. intros [Hle Hr] Hd.
  split; [lia|]. split; [lia|done].
Qed.

Lemma building_leaf t L st b : building t L st b -> distinct st ->
  (length st <= t)%nat /\ b < L + 2 ^ Z.of_nat t /\ ((0 < t)%nat -> building t L ((0%nat, b) :: st) (b + 1)).
Proof.
  intros Hbu Hd. pose proof Hbu as [Hc Hw Hb Hend HL]. pose proof (distinct_rising st Hw Hd) as Hr.
  pose proof (rising_size t 0 st L b ltac:(lia) Hr Hb Hc) as Hsz. change (2 ^ Z.of_nat 0) with 1 in Hsz.
  pose proof (rising_length t 0 st ltac:(lia) Hr Hb) as Hlen. split; [lia|]. split; [lia|]. intros Ht.
  split; [|exact Hr|by constructor|lia|exact HL]. cbn. change (2 ^ Z.of_nat 0) with 1. split; [lia|].
  by rewrite Z.mul_1_r.
Qed.

Lemma progress_bound t L st b : building t L st b -> (st <> [] \/ b < L + 2 ^ Z.of_nat t) ->
  progress L st b <= 2 * 2 ^ Z.of_nat t - 1.
Proof. intros [_ _ _ Hend _] H. unfold progress. destruct st; cbn [length]; [destruct H; [done|lia]|lia]. Qed.

(** ** The arrays *)
Lemma NODES_S d : MAM_MSS_MT_NODES (S d) = (MAM_MSS_MT_NODES d + S d)%nat.
Proof.
  unfold MAM_MSS_MT_NODES. replace (S d * (S d + 1))%nat with (d * (d + 1) + S d * 2)%nat by lia.
  by rewrite Nat.div_add.
Qed.

Lemma NODES_mono d d' : (d <= d')%nat -> (MAM_MSS_MT_NODES d <= MAM_MSS_MT_NODES d')%nat.
Proof. induction 1 as [|d' _ IH]; [done|]. rewrite NODES_S. lia. Qed.

(** The room of a stack ends where the next one begins. *)
Lemma NODES_region d d' : (d < d')%nat -> (MAM_MSS_MT_NODES d + d < MAM_MSS_MT_NODES d')%nat.
Proof. intros H. pose proof (NODES_mono (S d) d' H). rewrite NODES_S in *. lia. Qed.

Definition all_hashes (l : list (list Z)) : Prop := Forall (fun x => length x = MAM_MSS_MT_HASH_SIZE) l.

Record shaped (m : mam_mss_t) : Prop := {
  sh_auth : length (auth_path m) = height (common m);
  sh_auth_hashes : all_hashes (auth_path m);
  sh_hashes : length (nodes_hashes m) = (MAM_MSS_MT_NODES (height (common m)) + 1)%nat;
  sh_nodes_hashes : all_hashes (nodes_hashes m);
  sh_nodes : length (nodes m) = (MAM_MSS_MT_NODES (height (common m)) + 1)%nat;
  sh_stacks : length (stacks m) = height (common m)
}.

Lemma shaped_set_hash m i hash : shaped m -> length hash = MAM_MSS_MT_HASH_SIZE -> shaped (set_hash m i hash).
Proof. intros [] Hl. split; cbn; rewrite ?length_insert; try done. by apply Forall_insert. Qed.
Lemma shaped_set_auth m i hash : shaped m -> length hash = MAM_MSS_MT_HASH_SIZE -> shaped (set_auth m i hash).
Proof. intros [] Hl. split; cbn; rewrite ?length_insert; try done. by apply Forall_insert. Qed.
Lemma shaped_set_node m i node : shaped m -> shaped (set_mt_node m i node).
Proof. intros []. split; cbn; rewrite ?length_insert; done. Qed.
Lemma shaped_set_stack m i stack : shaped m -> shaped (set_stack m i stack).
Proof. intros []. split; cbn; rewrite ?length_insert; done. Qed.
Lemma shaped_with_common m k : shaped m -> height k = height (common m) -> shaped (with_common m k).
Proof. intros [] E. split; cbn; rewrite ?E; done. Qed.
#[local] Hint Resolve shaped_set_hash shaped_set_auth shaped_set_node shaped_set_stack shaped_with_common : core.

Lemma hash_idx_view l i : all_hashes l -> (i < length l)%nat ->
  length (nth i l []) = MAM_MSS_MT_HASH_SIZE /\ mss_hash_idx l i = view [] (nth i l []) [].
Proof.
  intros Hl Hi. assert (length (nth i l []) = MAM_MSS_MT_HASH_SIZE) as E
    by exact (proj1 (List.Forall_forall _ _) Hl _ (nth_In _ _ Hi)).
  split; [exact E|]. by apply from_rep_view.
Qed.

(** A copy of a hash into an array of hashes. *)
Lemma copy_hash l i l' j : all_hashes l -> (i < length l)%nat -> all_hashes l' -> (j < length l')%nat ->
  trits_copy (mss_hash_idx l i) (mss_hash_idx l' j) = nth i l [].
Proof.
  intros Hl Hi Hl' Hj. destruct (hash_idx_view l i Hl Hi) as [E ->]. destruct (hash_idx_view l' j Hl' Hj) as [E' ->].
  rewrite copy_view by congruence. by rewrite app_nil_l, app_nil_r.
Qed.

(** ** Stacks in the arrays *)
Definition holds (m : mam_mss_t) (pos : nat) (x : nat * Z) : Prop :=
  node_at m pos = mk_node x.1 x.2 /\ nth pos (nodes_hashes m) [] = mss_node (common m) x.1 x.2.

Fixpoint rep (m : mam_mss_t) (base : nat) (st : stack_t) : Prop :=
  match st with
  | [] => True
  | x :: st => holds m (base + length st) x /\ rep m base st
  end.

(** What the operations on the stack of the level [h], of [t + 1] nodes, leave alone. *)
Record frame (h t : nat) (m m' : mam_mss_t) : Prop := {
  fr_common : common m' = common m;
  fr_auth : auth_path m' = auth_path m;
  fr_stacks : forall h', h' <> h -> stack_at m' h' = stack_at m h';
  fr_nodes : forall p, (p < MAM_MSS_MT_NODES h \/ MAM_MSS_MT_NODES h + t < p)%nat -> node_at m' p = node_at m p;
  fr_hashes : forall p, (p < MAM_MSS_MT_NODES h \/ MAM_MSS_MT_NODES h + t < p)%nat ->
    nth p (nodes_hashes m') [] = nth p (nodes_hashes m) []
}.

Lemma frame_refl h t m : frame h t m m.
Proof. by split. Qed.

Lemma frame_trans h t m1 m2 m3 : frame h t m1 m2 -> frame h t m2 m3 -> frame h t m1 m3.
Proof.
  intros [C1 A1 S1 N1 H1] [C2 A2 S2 N2 H2]. split; [congruence|congruence|..].
  - intros h' Hh. by rewrite S2, S1.
  - intros p Hp. by rewrite N2, N1.
  - intros p Hp. by rewrite H2, H1.
Qed.

Lemma rep_frame h t m m' st : frame h t m m' -> forall base,
  (base + length st <= MAM_MSS_MT_NODES h \/ MAM_MSS_MT_NODES h + t < base)%nat -> rep m base st -> rep m' base st.
Proof.
  intros F base. induction st as [|x st IH]; intros Hp Hr; [done|]. cbn [rep length] in *. destruct Hr as [[Hn Hh] Hr].
  split; [|apply IH; [lia|done]]. split; [rewrite (fr_nodes _ _ _ _ F) by lia; done|].
  rewrite (fr_hashes _ _ _ _ F) by lia. by rewrite (fr_common _ _ _ _ F).
Qed.

(** [rep] looks at the positions of its nodes only. *)
Lemma rep_same m m' base st : common m' = common m ->
  (forall p, (base <= p < base + length st)%nat -> node_at m' p = node_at m p /\ nth p (nodes_hashes m') [] = nth p (nodes_hashes m) []) ->
  rep m base st -> rep m' base st.
Proof.
  intros Hc. induction st as [|x st IH]; intros Hp Hr; [done|]. cbn [rep length] in *. destruct Hr as [[Hn Hh] Hr].
  destruct (Hp (base + length st)%nat ltac:(lia)) as [E1 E2].
  split; [|apply IH; [intros p ?; apply Hp; lia|done]]. split; [by rewrite E1|]. by rewrite E2, Hc.
Qed.

(** The stack of the level [h] while it builds a node of the level [t]. *)
Record working (m : mam_mss_t) (h t : nat) (L : Z) (st : stack_t) (b : Z) : Prop := {
  wk_stack : stack_at m h = mk_stack t b (length st);
  wk_building : building t L st b;
  wk_rep : rep m (MAM_MSS_MT_NODES h) st
}.

(** One step of the algorithm on nodes. *)
Definition next_stack (st : stack_t) (b : Z) : stack_t * Z :=
  match st with
  | (h, i) :: (h', j) :: st' => if (h =? h')%nat then ((S h, j / 2) :: st', b) else ((0%nat, b) :: st, b + 1)
  | _ => ((0%nat, b) :: st, b + 1)
  end.

Section Update.
Context (m : mam_mss_t) (Hk : mss_keys_ok (common m)) (Hs : shaped m).
Let depth := height (common m).
Context (h t : nat) (Hh : (h < depth)%nat) (Ht : (MAM_MSS_MT_NODES h + t <= MAM_MSS_MT_NODES depth)%nat).
Context (L b : Z) (st : stack_t) (HL : 0 <= L) (Hend : L + 2 ^ Z.of_nat t <= 2 ^ Z.of_nat depth).
Context (Hw : working m h t L st b).
Let base := MAM_MSS_MT_NODES h.

Lemma end_bound : 2 ^ Z.of_nat depth <= skn_bound.
Proof. pose proof (max_skn_bound _ (ok_height _ Hk)). unfold MAM_MSS_MAX_SKN in *. unfold depth. lia. Qed.

Lemma frame_set_hash i hash : (base <= i <= base + t)%nat -> forall m0, frame h t m0 (set_hash m0 i hash).
Proof. intros Hi m0. split; try done. intros p Hp. apply nth_insert_ne. unfold base in Hi. lia. Qed.
Lemma frame_set_node i node : (base <= i <= base + t)%nat -> forall m0, frame h t m0 (set_mt_node m0 i node).
Proof. intros Hi m0. split; try done. intros p Hp. apply nth_insert_ne. unfold base in Hi. lia. Qed.
Lemma frame_set_stack stack : forall m0, frame h t m0 (set_stack m0 h stack).
Proof. intros m0. split; try done. intros h' Hh'. by apply nth_insert_ne. Qed.

Lemma in_hashes p : (p <= base + t)%nat -> (p < length (nodes_hashes m))%nat.
Proof. intros Hp. rewrite (sh_hashes m Hs). fold depth. unfold base in Hp. lia. Qed.
Lemma in_nodes p : (p <= base + t)%nat -> (p < length (nodes m))%nat.
Proof. intros Hp. rewrite (sh_nodes m Hs). fold depth. unfold base in Hp. lia. Qed.

(** The guard of the first branch. *)
Lemma not_finished : negb (length st =? 0)%nat && (t <=? n_height (node_at m (base + (length st - 1))))%nat = false.
Proof.
  destruct Hw as [_ [_ _ Hb _ _] Hr]. destruct st as [|[h' i] st']; [done|]. cbn [length rep] in *.
  destruct Hr as [[E _] _]. rewrite Nat.sub_1_r. cbn [Nat.pred]. fold base in E. rewrite E. cbn [n_height fst].
  apply Forall_cons_iff in Hb as [Hlt _]. cbn [fst] in Hlt. cbn [Nat.eqb negb andb]. apply Nat.leb_gt. exact Hlt.
Qed.

(** A push of a leaf. *)
Lemma update_leaf : distinct st ->
  let m' := mss_mt_update m h in
  frame h t m m' /\ shaped m' /\ stack_at m' h = mk_stack t (b + 1) (S (length st)) /\ rep m' base ((0%nat, b) :: st).
Proof.
  intros Hd m'. pose proof Hw as [Es Hbu Hr].
  destruct (building_leaf t L st b Hbu Hd) as (Hlen & Hb & _). pose proof end_bound as Hmax.
  assert (0 <= b) as Hb0.
  { pose proof (rising_size t 0 st L b ltac:(lia) (distinct_rising st (bu_wf _ _ _ _ Hbu) Hd) (bu_below _ _ _ _ Hbu) (bu_covers _ _ _ _ Hbu)). lia. }
  assert ((1 <? length st)%nat && (n_height (node_at m (base + (length st - 2))) =? n_height (node_at m (base + (length st - 1))))%nat = false) as Hne.
  { destruct st as [|[h1 i1] [|[h2 i2] st']]; [done|done|]. cbn [length rep] in *. destruct Hr as ([E1 _] & [E2 _] & _).
    fold base in E1, E2. replace (S (S (length st')) - 2)%nat with (length st') by lia.
    replace (S (S (length st')) - 1)%nat with (S (length st')) by lia. rewrite E1, E2. cbn [n_height fst].
    cbn in Hd. apply andb_false_iff. right. apply Nat.eqb_neq. congruence. }
  destruct (hash_idx_view (nodes_hashes m) (base + length st) (sh_nodes_hashes m Hs) (in_hashes (base + length st) ltac:(lia))) as [Ey Ev].
  assert (mss_mt_gen_leaf (common m) b (mss_hash_idx (nodes_hashes m) (base + length st)) = mss_node (common m) 0 b) as El.
  { rewrite Ev. rewrite gen_leaf_view by (done || lia). by rewrite app_nil_l, app_nil_r. }
  destruct (leaf_ok (common m) b Hk ltac:(lia)) as [Ll _].
  assert (m' = set_stack (set_mt_node (set_hash m (base + length st) (mss_node (common m) 0 b)) (base + length st) (mk_node 0 b)) h
    (mk_stack t (b + 1) (length st + 1))) as ->.
  { unfold m', mss_mt_update. rewrite Es. cbn [s_height s_level_idx s_size]. fold base. rewrite not_finished, Hne.
    rewrite (proj2 (Z.leb_le b (MAM_MSS_MAX_SKN (height (common m))))) by (unfold MAM_MSS_MAX_SKN; fold depth; lia).
    by rewrite El. }
  split; [|split; [|split]].
  - eapply frame_trans; [apply (frame_set_hash (base + length st)); lia|].
    eapply frame_trans; [apply (frame_set_node (base + length st)); lia|]. apply frame_set_stack.
  - apply shaped_set_stack, shaped_set_node, shaped_set_hash; [done|exact Ll].
  - unfold stack_at. cbn [stacks set_stack]. rewrite nth_insert_eq by (cbn; rewrite (sh_stacks m Hs); exact Hh).
    f_equal. lia.
  - cbn [rep]. split.
    + split; cbn [fst snd].
      * unfold node_at. cbn. apply nth_insert_eq, in_nodes. lia.
      * cbn [nodes_hashes set_stack set_mt_node set_hash common]. apply nth_insert_eq, in_hashes. lia.
    + eapply rep_same; [| |exact Hr]; [done|]. intros p Hp. fold base in Hp. split.
      * unfold node_at. cbn. apply nth_insert_ne. lia.
      * cbn. apply nth_insert_ne. lia.
Qed.
(** What a merge computes. *)
Lemma merged_hash h' i j st' : st = (h', i) :: (h', j) :: st' ->
  length (mss_node (common m) (S h') (j / 2)) = MAM_MSS_MT_HASH_SIZE /\
  forall into, (into <= base + t)%nat ->
    mss_hash2 zero_spongos (mss_hash_idx (nodes_hashes m) (base + length st')) (mss_hash_idx (nodes_hashes m) (base + S (length st')))
      (mss_hash_idx (nodes_hashes m) into) = mss_node (common m) (S h') (j / 2).
Proof.
  intros Est. pose proof Hw as [_ Hbu Hr]. rewrite Est in Hbu, Hr.
  destruct (building_pair _ _ _ _ _ _ _ Hbu) as (-> & Ej & Eb & Hrs & Hcv & Ht'). pose proof end_bound as Hmax.
  pose proof (bu_below _ _ _ _ Hbu) as Hbl. apply Forall_cons_iff in Hbl as [_ Hbl]. apply Forall_cons_iff in Hbl as [_ Hbl].
  pose proof (rising_size t (S h') st' L _ ltac:(lia) Hrs Hbl Hcv) as Hsz.
  pose proof (bu_end _ _ _ _ Hbu) as Hbe. pose proof (pow2_pos h') as Hp. pose proof (pow2_S h') as E2.
  destruct (node_ok (common m) h' Hk j) as [_ T0]; [nia|nia|].
  destruct (node_ok (common m) h' Hk (j + 1)) as [_ T1]; [nia|nia|].
  destruct (node_ok (common m) (S h') Hk (j / 2)) as [Lp _]; [nia|rewrite E2; nia|]. split; [exact Lp|]. intros into Hin.
  pose proof (rising_length t (S h') st' ltac:(lia) Hrs Hbl) as Hlen.
  cbn [rep length] in Hr. destruct Hr as ([_ H1] & [_ H0] & _). cbn [fst snd] in H0, H1. fold base in H0, H1.
  destruct (hash_idx_view (nodes_hashes m) (base + length st') (sh_nodes_hashes m Hs) (in_hashes (base + length st') ltac:(lia))) as [_ ->].
  destruct (hash_idx_view (nodes_hashes m) (base + S (length st')) (sh_nodes_hashes m Hs) (in_hashes (base + S (length st')) ltac:(lia))) as [_ ->].
  destruct (hash_idx_view (nodes_hashes m) into (sh_nodes_hashes m Hs) (in_hashes into Hin)) as [Li ->].
  rewrite H0, H1, hash2_view by (done || apply length_replicate). rewrite app_nil_l, app_nil_r, Li.
  cbn [mss_node]. replace (2 * (j / 2) + 1) with (j + 1) by lia. replace (2 * (j / 2)) with j by lia. exact eq_refl.
Qed.

Lemma update_merge_eq h' i j st' : st = (h', i) :: (h', j) :: st' ->
  mss_mt_update m h =
  set_stack (set_mt_node (set_hash m (base + (if (S h' =? depth)%nat then S (length st') else length st'))
      (mss_node (common m) (S h') (j / 2))) (base + length st') (mk_node (S h') (j / 2))) h
    (mk_stack t b (S (length st'))).
Proof.
  intros Est. destruct (merged_hash h' i j st' Est) as [_ Hhash]. pose proof Hw as [Es Hbu Hr].
  pose proof not_finished as Hnf. rewrite Est in *. 
  destruct (building_pair _ _ _ _ _ _ _ Hbu) as (-> & _ & _ & Hrs & _ & Ht').
  pose proof (bu_below _ _ _ _ Hbu) as Hbl. apply Forall_cons_iff in Hbl as [_ Hbl]. apply Forall_cons_iff in Hbl as [_ Hbl].
  pose proof (rising_length t (S h') st' ltac:(lia) Hrs Hbl) as Hlen.
  cbn [rep length] in *. destruct Hr as ([E1 _] & [E0 _] & _). fold base in E0, E1. cbn [fst snd] in E0, E1.
  unfold mss_mt_update. rewrite Es. cbn [s_height s_level_idx s_size]. fold base.
  rewrite Hnf. replace (S (S (length st')) - 2)%nat with (length st') by lia.
  replace (S (S (length st')) - 1)%nat with (S (length st')) by lia. rewrite E0, E1. cbn [n_height n_level_idx].
  rewrite Nat.eqb_refl. change (1 <? S (S (length st')))%nat with true. cbn [andb]. cbv zeta.
  rewrite Nat.add_1_r. fold depth.
  destruct (S h' =? depth)%nat; cbn [negb]; rewrite Hhash by lia; do 2 f_equal; rewrite ?Nat.add_1_r; done.
Qed.

Lemma update_merge h' i j st' : st = (h', i) :: (h', j) :: st' -> S h' <> depth ->
  let m' := mss_mt_update m h in
  frame h t m m' /\ shaped m' /\ stack_at m' h = mk_stack t b (S (length st')) /\ rep m' base ((S h', j / 2) :: st').
Proof.
  intros Est Hne m'. destruct (merged_hash h' i j st' Est) as [Lp _]. unfold m'. rewrite (update_merge_eq h' i j st' Est).
  rewrite (proj2 (Nat.eqb_neq _ _) Hne). pose proof Hw as [_ Hbu Hr]. rewrite Est in Hbu, Hr.
  destruct (building_pair _ _ _ _ _ _ _ Hbu) as (-> & _ & _ & Hrs & _ & Ht').
  pose proof (bu_below _ _ _ _ Hbu) as Hbl. apply Forall_cons_iff in Hbl as [_ Hbl]. apply Forall_cons_iff in Hbl as [_ Hbl].
  pose proof (rising_length t (S h') st' ltac:(lia) Hrs Hbl) as Hlen. cbn [rep length] in Hr. destruct Hr as (_ & _ & Hr).
  split; [|split; [|split]].
  - eapply frame_trans; [apply (frame_set_hash (base + length st')); lia|].
    eapply frame_trans; [apply (frame_set_node (base + length st')); lia|]. apply frame_set_stack.
  - apply shaped_set_stack, shaped_set_node, shaped_set_hash; [done|exact Lp].
  - unfold stack_at. cbn [stacks set_stack]. by rewrite nth_insert_eq by (cbn; rewrite (sh_stacks m Hs); exact Hh).
  - cbn [rep]. split.
    + split; cbn [fst snd].
      * unfold node_at. cbn. apply nth_insert_eq, in_nodes. lia.
      * cbn [nodes_hashes set_stack set_mt_node set_hash common]. apply nth_insert_eq, in_hashes. lia.
    + eapply rep_same; [| |exact Hr]; [done|]. intros p Hp. fold base in Hp. split.
      * unfold node_at. cbn. apply nth_insert_ne. lia.
      * cbn. apply nth_insert_ne. lia.
Qed.

(** The merge that gives the root of the tree: the left child keeps its place. *)
Lemma update_root h' i j st' : st = (h', i) :: (h', j) :: st' -> S h' = depth ->
  let m' := mss_mt_update m h in
  frame h t m m' /\ shaped m' /\ st' = [] /\ stack_at m' h = mk_stack t b 1 /\
  node_at m' base = mk_node depth (j / 2) /\
  nth base (nodes_hashes m') [] = mss_node (common m) h' j /\
  nth (base + 1) (nodes_hashes m') [] = mss_node (common m) depth (j / 2) /\ t = depth /\ L = j / 2 * 2 ^ Z.of_nat t.
Proof.
  intros Est Heq m'. destruct (merged_hash h' i j st' Est) as [Lp _]. unfold m'. rewrite (update_merge_eq h' i j st' Est).
  rewrite (proj2 (Nat.eqb_eq _ _) Heq). pose proof Hw as [_ Hbu Hr]. rewrite Est in Hbu, Hr.
  destruct (building_pair _ _ _ _ _ _ _ Hbu) as (Ei & Ej & Eb & Hrs & Hcv & Ht').
  assert (t = depth) as Etd.
  { assert (Z.of_nat t <= Z.of_nat depth); [|lia]. apply (Z.pow_le_mono_r_iff 2); lia. }
  destruct (building_merge_last _ _ _ _ _ _ _ Hbu ltac:(lia)) as (-> & EL & _).
  cbn [rep length] in Hr. destruct Hr as (_ & [_ H0] & _). cbn [fst snd] in H0. rewrite !Nat.add_0_r in *. cbn [length].
  split; [|split; [|split; [done|split]]].
  - eapply frame_trans; [apply (frame_set_hash (base + 1)); lia|].
    eapply frame_trans; [apply (frame_set_node base); lia|]. apply frame_set_stack.
  - apply shaped_set_stack, shaped_set_node, shaped_set_hash; [done|exact Lp].
  - unfold stack_at. cbn [stacks set_stack]. by rewrite nth_insert_eq by (cbn; rewrite (sh_stacks m Hs); exact Hh).
  - split; [|split; [|split; [|split; [done|exact EL]]]].
    + unfold node_at. cbn. rewrite nth_insert_eq by (apply in_nodes; lia). by rewrite <- Heq.
    + cbn [nodes_hashes set_stack set_mt_node set_hash]. rewrite nth_insert_ne by lia. exact H0.
    + cbn [nodes_hashes set_stack set_mt_node set_hash]. rewrite nth_insert_eq by (apply in_hashes; lia). by rewrite <- Heq.
Qed.
End Update.

(** ** The stacks between two signatures *)
Definition target (s : Z) (h : nat) : Z := sibling (s / 2 ^ Z.of_nat h + 1).

(** The node that the path will need is on the stack. *)
Record ready (m : mam_mss_t) (h : nat) (n : Z) : Prop := {
  rd_height : s_height (stack_at m h) = h;
  rd_size : s_size (stack_at m h) = 1%nat;
  rd_node : (h <= n_height (node_at m (MAM_MSS_MT_NODES h)))%nat;
  rd_hash : nth (MAM_MSS_MT_NODES h) (nodes_hashes m) [] = mss_node (common m) h n
}.

(** No node is needed any more. *)
Definition spent (m : mam_mss_t) (h : nat) : Prop :=
  s_size (stack_at m h) = 0%nat /\ MAM_MSS_MAX_SKN (height (common m)) < s_level_idx (stack_at m h).

(** With [u] steps made at least. *)
Definition stack_ok (m : mam_mss_t) (h : nat) (s u : Z) : Prop :=
  if decide (target s h < 2 ^ Z.of_nat (height (common m) - h))
  then ready m h (target s h) \/
    exists st b, working m h h (target s h * 2 ^ Z.of_nat h) st b /\ u <= progress (target s h * 2 ^ Z.of_nat h) st b
  else spent m h.

Lemma working_length m h t L st b : working m h t L st b -> (length st <= t + 1)%nat.
Proof.
  intros [_ [_ Hw Hb _ _] _]. destruct st as [|[h' i] st]; cbn [length]; [lia|]. apply Forall_cons_iff in Hb as [Hh Hb].
  cbn in Hw, Hh. pose proof (rising_length t h' st ltac:(lia) Hw Hb). lia.
Qed.

(** A change outside of the room of a stack. *)
Lemma working_same m m' h t L st b : common m' = common m -> stack_at m' h = stack_at m h ->
  (forall p, (MAM_MSS_MT_NODES h <= p < MAM_MSS_MT_NODES h + length st)%nat ->
    node_at m' p = node_at m p /\ nth p (nodes_hashes m') [] = nth p (nodes_hashes m) []) ->
  working m h t L st b -> working m' h t L st b.
Proof. intros C Es Hp [W1 W2 W3]. split; [by rewrite Es|done|by eapply rep_same]. Qed.

(** The rooms of two stacks do not meet. *)
Definition apart (h h' t' : nat) : Prop :=
  (MAM_MSS_MT_NODES h + h < MAM_MSS_MT_NODES h' \/ MAM_MSS_MT_NODES h' + t' < MAM_MSS_MT_NODES h)%nat.

Lemma levels_apart h h' : h <> h' -> apart h h' h'.
Proof. intros Hne. unfold apart. destruct (Nat.lt_total h h') as [Hl|[->|Hl]]; [left|done|right]; by apply NODES_region. Qed.

Lemma ready_frame h h' t' m m' n : h <> h' -> apart h h' t' -> frame h' t' m m' -> ready m h n -> ready m' h n.
Proof.
  intros Hne Hap F [R1 R2 R3 R4]. unfold apart in Hap. split.
  - by rewrite (fr_stacks _ _ _ _ F).
  - by rewrite (fr_stacks _ _ _ _ F).
  - rewrite (fr_nodes _ _ _ _ F) by lia. done.
  - rewrite (fr_hashes _ _ _ _ F), (fr_common _ _ _ _ F) by lia. done.
Qed.

Lemma target_nonneg s h : 0 <= s -> 0 <= target s h.
Proof.
  intros Hs. unfold target. assert (0 <= s / 2 ^ Z.of_nat h) by (apply Z.div_pos; [lia|apply pow2_pos]).
  destruct (sibling_pair (s / 2 ^ Z.of_nat h + 1) ltac:(lia)) as [(_ & -> & _)|(_ & -> & _)]; lia.
Qed.

Lemma target_end m h s : (h < height (common m))%nat -> target s h < 2 ^ Z.of_nat (height (common m) - h) ->
  target s h * 2 ^ Z.of_nat h + 2 ^ Z.of_nat h <= 2 ^ Z.of_nat (height (common m)).
Proof.
  intros Hh Ht. replace (Z.of_nat (height (common m))) with (Z.of_nat (height (common m) - h) + Z.of_nat h) by lia.
  rewrite Z.pow_add_r by lia. pose proof (pow2_pos h). nia.
Qed.

Lemma ready_update m h n : ready m h n -> mss_mt_update m h = m.
Proof.
  intros [R1 R2 R3 R4]. unfold mss_mt_update. rewrite R2, R1. cbn [Nat.eqb negb andb]. rewrite Nat.sub_diag, Nat.add_0_r.
  by rewrite (proj2 (Nat.leb_le _ _) R3).
Qed.

Lemma spent_update m h : spent m h -> mss_mt_update m h = m.
Proof.
  intros [E1 E2]. unfold mss_mt_update. rewrite E1. cbn [Nat.eqb negb andb]. change (1 <? 0)%nat with false. cbn [andb].
  rewrite (proj2 (Z.leb_gt _ _)) by lia. done.
Qed.

(** What a stack is doing. *)
Inductive phase :=
  | Ready
  | Work (st : stack_t) (b : Z)
  | Spent.

Definition in_phase (m : mam_mss_t) (h : nat) (s : Z) (ph : phase) : Prop :=
  match ph with
  | Ready => target s h < 2 ^ Z.of_nat (height (common m) - h) /\ ready m h (target s h)
  | Work st b => target s h < 2 ^ Z.of_nat (height (common m) - h) /\ working m h h (target s h * 2 ^ Z.of_nat h) st b
  | Spent => ~ target s h < 2 ^ Z.of_nat (height (common m) - h) /\ spent m h
  end.

Definition next_phase (h : nat) (ph : phase) : phase :=
  match ph with
  | Work st b =>
      match next_stack st b with
      | ([(h', i)], b') => if (h' =? h)%nat then Ready else Work [(h', i)] b'
      | (st', b') => Work st' b'
      end
  | ph => ph
  end.

Definition enough (L u : Z) (ph : phase) : Prop := match ph with Work st b => u <= progress L st b | _ => True end.

Lemma stack_ok_phase m h s u : stack_ok m h s u <-> exists ph, in_phase m h s ph /\ enough (target s h * 2 ^ Z.of_nat h) u ph.
Proof.
  unfold stack_ok. destruct (decide _) as [Ht|Ht]; split.
  - intros [Hr|(st & b & Hw & Hu)]; [by exists Ready|by exists (Work st b)].
  - intros ([|st b|] & Hin & Hu); [left; apply Hin|right|by destruct Hin]. exists st, b. by split; [apply Hin|].
  - intros Hsp. by exists Spent.
  - intros ([|st b|] & Hin & Hu); [by destruct Ht, Hin|by destruct Ht, Hin|apply Hin].
Qed.

Lemma next_phase_leaf t L st b : building t L st b -> distinct st ->
  next_phase t (Work st b) = if (t =? 0)%nat then Ready else Work ((0%nat, b) :: st) (b + 1).
Proof.
  intros Hbu Hd. unfold next_phase. destruct (building_leaf t L st b Hbu Hd) as (Hlen & _).
  assert (next_stack st b = ((0%nat, b) :: st, b + 1)) as ->.
  { destruct st as [|[h1 i1] [|[h2 i2] st]]; [done|done|]. cbn in Hd |- *. by rewrite (proj2 (Nat.eqb_neq _ _) Hd). }
  destruct st as [|x st]; [by destruct t|]. cbn [length] in Hlen. by destruct t; [lia|].
Qed.

Lemma next_phase_merge t L h' i j st b : building t L ((h', i) :: (h', j) :: st) b ->
  next_phase t (Work ((h', i) :: (h', j) :: st) b) =
    if (S h' =? t)%nat then Ready else Work ((S h', j / 2) :: st) b.
Proof.
  intros Hbu. cbn [next_phase next_stack]. rewrite Nat.eqb_refl. destruct (Nat.eqb_spec (S h') t) as [E|E].
  - by destruct (building_merge_last _ _ _ _ _ _ _ Hbu (eq_sym E)) as (-> & _).
  - by destruct st.
Qed.

(** Something to merge or a leaf to come. *)
Lemma stack_cases st : distinct st \/ exists h i j st', st = (h, i) :: (h, j) :: st'.
Proof.
  destruct (decide (distinct st)) as [Hd|Hd]; [by left|right]. destruct st as [|[h i] [|[h' j] st]]; [by destruct Hd|by destruct Hd|].
  cbn in Hd. destruct (decide (h = h')) as [<-|Hne]; [by exists h, i, j, st|by destruct Hd].
Qed.

Lemma next_phase_building ph t L : match ph with Work st b => building t L st b | _ => True end ->
  match next_phase t ph with Work st b => building t L st b | _ => True end.
Proof.
  destruct ph as [|st b|]; [done| |done]. intros Hbu. destruct (stack_cases st) as [Hd|(h' & i & j & st' & ->)].
  - rewrite (next_phase_leaf t L) by done. destruct (Nat.eqb_spec t 0); [done|]. apply building_leaf; [done|done|lia].
  - rewrite (next_phase_merge t L) by done. destruct (Nat.eqb_spec (S h') t); [done|].
    pose proof (bu_below _ _ _ _ Hbu) as Hbl. apply Forall_cons_iff in Hbl as [Hlt _]. cbn [fst] in Hlt.
    apply (building_merge t L h' i j); [done|lia].
Qed.

Lemma update_phase m h s ph : mss_keys_ok (common m) -> shaped m -> (h < height (common m))%nat -> 0 <= s ->
  in_phase m h s ph ->
  let m' := mss_mt_update m h in frame h h m m' /\ shaped m' /\ in_phase m' h s (next_phase h ph).
Proof.
  intros Hk Hs Hh H0 Hin. cbv zeta. destruct ph as [|st b|]; cbn [in_phase] in Hin.
  { rewrite (ready_update m h _ (proj2 Hin)). split; [apply frame_refl|by split]. }
  2: { rewrite (spent_update m h (proj2 Hin)). split; [apply frame_refl|by split]. }
  destruct Hin as [Ht Hw]. set (L := target s h * 2 ^ Z.of_nat h) in *.
  assert (0 <= L) as HL by (unfold L; pose proof (target_nonneg s h H0); pose proof (pow2_pos h); nia).
  pose proof (target_end m h s Hh Ht) as Hend. fold L in Hend.
  assert (MAM_MSS_MT_NODES h + h <= MAM_MSS_MT_NODES (height (common m)))%nat as Hroom by (pose proof (NODES_region _ _ Hh); lia).
  pose proof Hw as [_ Hbu _].
  assert (forall st' b', frame h h m (mss_mt_update m h) /\ shaped (mss_mt_update m h) /\
      stack_at (mss_mt_update m h) h = mk_stack h b' (length st') /\ rep (mss_mt_update m h) (MAM_MSS_MT_NODES h) st' ->
    forall ph', (building h L st' b' /\ ph' = Work st' b') \/ (st' = [(h, target s h)] /\ ph' = Ready) ->
    frame h h m (mss_mt_update m h) /\ shaped (mss_mt_update m h) /\ in_phase (mss_mt_update m h) h s ph') as Hdone.
  { intros st' b' (F & Hs' & Es' & Hr') ph' Hor. split; [done|]. split; [done|].
    destruct Hor as [(Hbu' & ->)|(-> & ->)]; cbn [in_phase]; rewrite (fr_common _ _ _ _ F); (split; [done|]); [by split|].
    cbn [rep length] in Hr'. rewrite Nat.add_0_r in Hr'. destruct Hr' as [[En Eh] _]. cbn [fst snd] in En, Eh.
    split; rewrite ?Es', ?En, ?(fr_common _ _ _ _ F); try done. by rewrite (fr_common _ _ _ _ F) in Eh. }
  destruct (stack_cases st) as [Hd|(h' & i & j & st' & ->)].
  - destruct (building_leaf h L st b Hbu Hd) as (Hlen & Hb & Hnext).
    apply (Hdone ((0%nat, b) :: st) (b + 1) (update_leaf m Hk Hs h h Hh Hroom L b st HL Hend Hw Hd)).
    rewrite (next_phase_leaf h L) by done. destruct (Nat.eqb_spec h 0) as [Eh|Hpos]; [right|left; split; [apply Hnext; lia|done]].
    split; [|done]. destruct st; [|cbn in Hlen; lia]. destruct Hbu as [Hc _ _ _ _]. cbn in Hc.
    rewrite Hc. unfold L. rewrite Eh. change (2 ^ Z.of_nat 0) with 1. by rewrite Z.mul_1_r.
  - pose proof (bu_below _ _ _ _ Hbu) as Hbl. apply Forall_cons_iff in Hbl as [Hlt _]. cbn [fst] in Hlt.
    apply (Hdone ((S h', j / 2) :: st') b (update_merge m Hk Hs h h Hh Hroom L b _ HL Hend Hw h' i j st' eq_refl ltac:(lia))).
    rewrite (next_phase_merge h L h' i j st' b) by done. destruct (Nat.eqb_spec (S h') h) as [E|E]; [right|left; split; [apply (building_merge h L h' i j); [done|lia]|done]].
    destruct (building_merge_last _ _ _ _ _ _ _ Hbu (eq_sym E)) as (-> & EL & _). rewrite E. split; [|done]. do 2 f_equal.
    pose proof (pow2_pos h). unfold L in EL. nia.
Qed.

(** A step is progress. *)
Lemma enough_next t L u ph : match ph with Work st b => building t L st b | _ => True end ->
  enough L u ph -> enough L (u + 1) (next_phase t ph).
Proof.
  destruct ph as [|st b|]; [done| |done]. intros Hbu Hu. cbn [enough] in Hu. destruct (stack_cases st) as [Hd|(h' & i & j & st' & ->)].
  - rewrite (next_phase_leaf t L) by done. destruct (t =? 0)%nat; [done|]. cbn [enough]. unfold progress in *. cbn [length]. lia.
  - rewrite (next_phase_merge t L) by done. destruct (S h' =? t)%nat; [done|]. cbn [enough]. unfold progress in *. cbn [length] in *. lia.
Qed.

(** ** From one key to the next *)
Lemma in_phase_frame h h' m m' s ph : h <> h' -> frame h' h' m m' -> in_phase m h s ph -> in_phase m' h s ph.
Proof.
  intros Hne F. pose proof (levels_apart h h' Hne) as Hap. destruct ph as [|st b|]; cbn [in_phase]; rewrite (fr_common _ _ _ _ F);
    intros [Ht Hp]; (split; [exact Ht|]).
  - by apply (ready_frame h h' h' m).
  - pose proof (working_length _ _ _ _ _ _ Hp) as Hlen. destruct Hp as [W1 W2 W3]. split; [by rewrite (fr_stacks _ _ _ _ F)|done|].
    eapply rep_frame; [exact F| |exact W3]. unfold apart in Hap. lia.
  - unfold spent in *. by rewrite (fr_stacks _ _ _ _ F), (fr_common _ _ _ _ F).
Qed.

(** Two steps on every stack. *)
Lemma build_stacks_phase m s : mss_keys_ok (common m) -> shaped m -> 0 <= s ->
  (forall h, (h < height (common m))%nat -> exists ph, in_phase m h s ph) ->
  let m' := mss_mt_build_stacks m in
  common m' = common m /\ auth_path m' = auth_path m /\ shaped m' /\
  forall h ph, (h < height (common m))%nat -> in_phase m h s ph -> in_phase m' h s (next_phase h (next_phase h ph)).
Proof.
  intros Hk Hs H0 Hok m'. unfold m', mss_mt_build_stacks.
  assert (forall n, (n <= height (common m))%nat ->
    let m' := foldl (fun m h => mss_mt_update (mss_mt_update m h) h) m (seq 0 n) in
    common m' = common m /\ auth_path m' = auth_path m /\ shaped m' /\
    forall h ph, (h < height (common m))%nat -> in_phase m h s ph ->
      in_phase m' h s (if (h <? n)%nat then next_phase h (next_phase h ph) else ph)) as Hn.
  { induction n as [|n IH]; intros Hn.
    { cbn [seq foldl]. split_and!; try done. }
    destruct (IH ltac:(lia)) as (C1 & A1 & S1 & O1). rewrite seq_S, foldl_app. cbn [foldl Nat.add].
    set (m1 := foldl _ m (seq 0 n)) in *. destruct (Hok n ltac:(lia)) as (phn & Hphn).
    pose proof (O1 n phn ltac:(lia) Hphn) as On. rewrite Nat.ltb_irrefl in On. rewrite <- C1 in Hn.
    assert (forall ph, in_phase m1 n s ph -> let m2 := mss_mt_update (mss_mt_update m1 n) n in
      frame n n m1 m2 /\ shaped m2 /\ in_phase m2 n s (next_phase n (next_phase n ph))) as Htwo.
    { intros ph Hph. destruct (update_phase m1 n s ph ltac:(by rewrite C1) S1 ltac:(lia) H0 Hph) as (F2 & S2 & O2).
      destruct (update_phase (mss_mt_update m1 n) n s (next_phase n ph)) as (F3 & S3 & O3);
        [by rewrite (fr_common _ _ _ _ F2), C1|done|rewrite (fr_common _ _ _ _ F2); lia|done|done|].
      split; [exact (frame_trans _ _ _ _ _ F2 F3)|by split]. }
    destruct (Htwo phn On) as (F & S2 & _). rewrite C1 in Hn. split_and!.
    - by rewrite (fr_common _ _ _ _ F).
    - by rewrite (fr_auth _ _ _ _ F).
    - done.
    - intros h ph Hh Hph. specialize (O1 h ph Hh Hph). destruct (decide (h = n)) as [->|Hne].
      + rewrite (proj2 (Nat.ltb_lt n (S n))) by lia. rewrite Nat.ltb_irrefl in O1. by apply Htwo.
      + apply (in_phase_frame h n m1); [exact Hne|exact F|].
        destruct (Nat.ltb_spec h n), (Nat.ltb_spec h (S n)); (lia || done). }
  destruct (Hn (height (common m)) (le_n _)) as (C & A & S & O). split_and!; try done.
  intros h ph Hh Hph. specialize (O h ph Hh Hph). by rewrite (proj2 (Nat.ltb_lt _ _) Hh) in O.
Qed.

Definition path_ok (m : mam_mss_t) (h : nat) (s : Z) : Prop :=
  nth h (auth_path m) [] = mss_node (common m) h (sibling (s / 2 ^ Z.of_nat h)).

(** The steps that were made since the last refresh. *)
Definition since (s : Z) (h : nat) : Z := s - s / 2 ^ Z.of_nat h * 2 ^ Z.of_nat h.

Lemma div_succ s h : 0 <= s -> (s + 1) mod 2 ^ Z.of_nat h <> 0 -> (s + 1) / 2 ^ Z.of_nat h = s / 2 ^ Z.of_nat h.
Proof.
  intros Hs Hm. pose proof (pow2_pos h). pose proof (Z.div_mod s (2 ^ Z.of_nat h) ltac:(lia)).
  pose proof (Z.mod_pos_bound s (2 ^ Z.of_nat h) ltac:(lia)).
  set (q := s / 2 ^ Z.of_nat h) in *. set (r := s mod 2 ^ Z.of_nat h) in *.
  assert (s + 1 = q * 2 ^ Z.of_nat h + (r + 1)) as E by lia. rewrite E in Hm |- *.
  rewrite Z.add_comm, Z.mod_add in Hm by lia. rewrite Z.add_comm, Z.div_add by lia.
  assert (r + 1 <> 2 ^ Z.of_nat h) by (intros E'; rewrite E', Z.mod_same in Hm by lia; done).
  rewrite Z.div_small by lia. lia.
Qed.

Lemma div_succ_multiple s h : 0 <= s -> (s + 1) mod 2 ^ Z.of_nat h = 0 ->
  (s + 1) / 2 ^ Z.of_nat h = s / 2 ^ Z.of_nat h + 1 /\ since s h + 1 = 2 ^ Z.of_nat h /\ since (s + 1) h = 0.
Proof.
  intros Hs Hm. pose proof (pow2_pos h). apply Z.mod_divide in Hm as [q Hq]; [|lia].
  assert (s / 2 ^ Z.of_nat h = q - 1) as E.
  { symmetry. apply (Z.div_unique s (2 ^ Z.of_nat h) (q - 1) (2 ^ Z.of_nat h - 1)); lia. }
  unfold since. rewrite E, Hq, Z.div_mul by lia. split; [lia|]. split; lia.
Qed.

Lemma mod_pow_up s h h' : (h <= h')%nat -> s mod 2 ^ Z.of_nat h <> 0 -> s mod 2 ^ Z.of_nat h' <> 0.
Proof.
  intros Hle Hm E. pose proof (pow2_pos h). pose proof (pow2_pos h'). apply Hm. apply Z.mod_divide; [lia|].
  apply Z.mod_divide in E; [|lia]. eapply Z.divide_trans; [|exact E]. exists (2 ^ Z.of_nat (h' - h)).
  rewrite <- Z.pow_add_r by lia. f_equal. lia.
Qed.

Lemma lxor_sibling a : 0 <= a -> Z.lxor a 1 = sibling a.
Proof.
  intros Ha. assert (forall q, Z.lxor (2 * q) 1 = 2 * q + 1) as He.
  { intros q. symmetry. apply Z.add_nocarry_lxor. rewrite Z.land_comm.
    change 1 with (Z.ones 1) at 1. rewrite Z.land_comm, Z.land_ones by lia. change (2 ^ 1) with 2.
    rewrite Z.mul_comm. by apply Z.mod_mul. }
  destruct (sibling_pair a Ha) as [(_ & -> & E)|(_ & -> & E)].
  - rewrite E at 1. rewrite He. lia.
  - rewrite E at 1. rewrite <- He, Z.lxor_assoc. change (Z.lxor 1 1) with 0. rewrite Z.lxor_0_r. lia.
Qed.

(** The first leaf below the node that a refreshed stack is to build. *)
Lemma refreshed_start s h : 0 <= s -> s mod 2 ^ Z.of_nat h = 0 ->
  Z.lxor (s + 2 ^ Z.of_nat h) (2 ^ Z.of_nat h) = target s h * 2 ^ Z.of_nat h.
Proof.
  intros Hs Hm. pose proof (pow2_pos h). unfold target. apply Z.mod_divide in Hm as [q ->]; [|lia].
  rewrite Z.div_mul by lia. assert (0 <= q) by nia. rewrite <- lxor_sibling by lia.
  rewrite <- !Z.shiftl_mul_pow2 by lia. rewrite Z.shiftl_lxor. f_equal; rewrite ?Z.shiftl_mul_pow2 by lia; lia.
Qed.

(** A stack after its refresh. *)
Definition fresh_phase (d : nat) (s : Z) (h : nat) : phase :=
  if decide (target s h < 2 ^ Z.of_nat (d - h)) then Work [] (target s h * 2 ^ Z.of_nat h) else Spent.

Definition refresh_phase (d : nat) (s : Z) (h : nat) (ph : phase) : phase :=
  if (s + 1) mod 2 ^ Z.of_nat h =? 0 then fresh_phase d (s + 1) h else ph.

(** What has changed before level [n] after a refresh. *)
Record refreshed (m m' : mam_mss_t) (s : Z) (n : nat) : Prop := {
  rf_common : common m' = common m;
  rf_shaped : shaped m';
  rf_path : forall h, (h < height (common m))%nat -> path_ok m' h (if (h <? n)%nat then s + 1 else s);
  rf_new : forall h, (h < n)%nat -> in_phase m' h (s + 1) (fresh_phase (height (common m)) (s + 1) h);
  rf_old : forall h ph, (n <= h < height (common m))%nat -> in_phase m h s ph -> in_phase m' h s ph
}.

Lemma target_same s s' h : s / 2 ^ Z.of_nat h = s' / 2 ^ Z.of_nat h -> target s h = target s' h.
Proof. intros E. unfold target. by rewrite E. Qed.

Lemma in_phase_same m h s s' ph : s / 2 ^ Z.of_nat h = s' / 2 ^ Z.of_nat h -> in_phase m h s ph -> in_phase m h s' ph.
Proof. intros E. unfold in_phase. by rewrite (target_same s s'). Qed.

Lemma in_phase_ext m m' h s ph : common m' = common m -> nodes_hashes m' = nodes_hashes m -> nodes m' = nodes m ->
  stack_at m' h = stack_at m h -> in_phase m h s ph -> in_phase m' h s ph.
Proof.
  intros Ec Eh En Es. assert (forall p, node_at m' p = node_at m p) as En' by (intros p; unfold node_at; by rewrite En).
  destruct ph as [|st b|]; cbn [in_phase]; rewrite Ec; intros [Ht Hp]; (split; [exact Ht|]).
  - destruct Hp as [R1 R2 R3 R4]. split; rewrite ?Es, ?En', ?Eh, ?Ec; done.
  - apply (working_same m); [done|done| |done]. intros p _. by rewrite En', Eh.
  - unfold spent in *. by rewrite Es, Ec.
Qed.

(** When a level is refreshed, its node is there. *)
Lemma stack_done m s n : 0 <= s -> s + 1 <= MAM_MSS_MAX_SKN (height (common m)) ->
  (n < height (common m))%nat -> (s + 1) mod 2 ^ Z.of_nat n = 0 -> stack_ok m n s (2 * since s n + 2) ->
  in_phase m n s Ready.
Proof.
  intros H0 Hmax Hn Hdiv Hok. pose proof (pow2_pos n) as Hp. destruct (div_succ_multiple s n H0 Hdiv) as (Eq & Esince & _).
  assert (2 ^ Z.of_nat (height (common m)) = 2 ^ Z.of_nat (height (common m) - n) * 2 ^ Z.of_nat n) as Epow.
  { rewrite <- Z.pow_add_r by lia. f_equal. lia. }
  assert (2 ^ Z.of_nat (height (common m) - n) = 2 * 2 ^ Z.of_nat (height (common m) - S n)) as Eeven.
  { rewrite <- pow2_S. do 2 f_equal. lia. }
  assert (0 <= s / 2 ^ Z.of_nat n) as Hq by (apply Z.div_pos; lia).
  assert (s / 2 ^ Z.of_nat n + 1 < 2 ^ Z.of_nat (height (common m) - n)) as Hlt.
  { rewrite <- Eq. apply Z.div_lt_upper_bound; [lia|]. unfold MAM_MSS_MAX_SKN in Hmax. lia. }
  assert (target s n < 2 ^ Z.of_nat (height (common m) - n)) as Ht.
  { unfold target. destruct (sibling_pair (s / 2 ^ Z.of_nat n + 1) ltac:(lia)) as [(_ & -> & ?)|(_ & -> & ?)]; lia. }
  apply stack_ok_phase in Hok as ([|st b|] & Hin & Hu); [exact Hin| |by destruct Hin].
  exfalso. pose proof (wk_building _ _ _ _ _ _ (proj2 Hin)) as Hbu. cbn [enough] in Hu.
  pose proof (progress_bound _ _ _ _ Hbu) as Hb. assert (st <> [] \/ b < target s n * 2 ^ Z.of_nat n + 2 ^ Z.of_nat n) as Hor.
  { destruct st; [right|by left]. destruct Hbu as [Hc _ _ _ _]. cbn in Hc. lia. }
  specialize (Hb Hor). lia.
Qed.

(** One level is refreshed. *)
Lemma refresh_step m m1 s n : mss_keys_ok (common m) -> 0 <= s -> s + 1 <= MAM_MSS_MAX_SKN (height (common m)) ->
  (n < height (common m))%nat -> (s + 1) mod 2 ^ Z.of_nat n = 0 -> stack_ok m n s (2 * since s n + 2) -> refreshed m m1 s n ->
  let hash := trits_copy (mss_mt_node_hash_trits m1 n (s_size (stack_at m1 n) - 1)) (mss_mt_auth_path_trits m1 n) in
  refreshed m (set_stack (set_auth m1 n hash) n (mk_stack n (Z.lxor (s + 1 + 2 ^ Z.of_nat n) (2 ^ Z.of_nat n)) 0)) s (S n).
Proof.
  intros Hk H0 Hmax Hn Hdiv Hok [C Sh P N O] hash. pose proof (pow2_pos n) as Hp.
  destruct (div_succ_multiple s n H0 Hdiv) as (Eq & _ & _).
  destruct (O n Ready ltac:(lia) (stack_done m s n H0 Hmax Hn Hdiv Hok)) as [Ht Hr]. rewrite C in Ht.
  assert (hash = mss_node (common m) n (target s n)) as Eh.
  { unfold hash, mss_mt_node_hash_trits, mss_mt_auth_path_trits. rewrite (rd_size _ _ _ Hr), Nat.sub_diag, Nat.add_0_r.
    pose proof (NODES_region _ _ Hn). rewrite copy_hash; [|apply Sh|rewrite (sh_hashes _ Sh), C; lia|apply Sh|rewrite (sh_auth _ Sh), C; lia].
    rewrite (rd_hash _ _ _ Hr). by rewrite C. }
  clearbody hash. subst hash.
  destruct (node_ok (common m) n Hk (target s n)) as [Ln _]; [by apply target_nonneg| |].
  { pose proof (target_end m n s Hn Ht). pose proof (max_skn_bound _ (ok_height _ Hk)). unfold MAM_MSS_MAX_SKN in *. lia. }
  set (m2 := set_stack _ n _).
  assert (common m2 = common m) as C2 by exact C.
  assert (shaped m2) as Sh2 by by apply shaped_set_stack, shaped_set_auth.
  assert (forall h ph s', h <> n -> in_phase m1 h s' ph -> in_phase m2 h s' ph) as Hkeep.
  { intros h ph s' Hne. apply in_phase_ext; [done..|]. by apply nth_insert_ne. }
  split; [done|done|..].
  - intros h Hh. unfold path_ok. rewrite C2. unfold m2. cbn [auth_path set_stack set_auth].
    destruct (decide (h = n)) as [->|Hne].
    + rewrite nth_insert_eq by (rewrite (sh_auth _ Sh), C; lia). rewrite (proj2 (Nat.ltb_lt n (S n))) by lia.
      unfold target. by rewrite Eq.
    + rewrite nth_insert_ne by done. specialize (P h Hh). unfold path_ok in P. rewrite C in P.
      destruct (Nat.ltb_spec h n), (Nat.ltb_spec h (S n)); (lia || exact P).
  - intros h Hh. destruct (decide (h = n)) as [->|Hne]; [|apply Hkeep; [done|]; apply N; lia].
    assert (stack_at m2 n = mk_stack n (target (s + 1) n * 2 ^ Z.of_nat n) 0) as Es2.
    { unfold stack_at, m2. cbn [stacks set_stack]. rewrite nth_insert_eq by (cbn; rewrite (sh_stacks _ Sh), C; lia).
      f_equal. apply refreshed_start; [lia|exact Hdiv]. }
    unfold fresh_phase. destruct (decide _) as [Ht'|Ht']; cbn [in_phase]; rewrite C2; (split; [exact Ht'|]).
    + split; [exact Es2|apply building_nil; by exists (target (s + 1) n)|done].
    + assert (2 ^ Z.of_nat (height (common m)) = 2 ^ Z.of_nat (height (common m) - n) * 2 ^ Z.of_nat n) as Epow.
      { rewrite <- Z.pow_add_r by lia. f_equal. lia. }
      split; rewrite Es2; [done|]. cbn [s_level_idx]. rewrite C2. unfold MAM_MSS_MAX_SKN. nia.
  - intros h ph Hh Hph. apply Hkeep; [lia|]. apply O; [lia|exact Hph].
Qed.

Lemma refresh_phases m s : mss_keys_ok (common m) -> shaped m -> 0 <= s -> skn (common m) = s ->
  s + 1 <= MAM_MSS_MAX_SKN (height (common m)) ->
  (forall h, (h < height (common m))%nat -> path_ok m h s /\ stack_ok m h s (2 * since s h + 2)) ->
  let m' := mss_mt_refresh m in
  common m' = common m /\ shaped m' /\
  forall h, (h < height (common m))%nat -> path_ok m' h (s + 1) /\
    forall ph, in_phase m h s ph -> in_phase m' h (s + 1) (refresh_phase (height (common m)) s h ph).
Proof.
  intros Hk Sh H0 Es Hmax Hok m'. unfold m', mss_mt_refresh.
  assert (forall r n m1, (n + r = height (common m))%nat -> refreshed m m1 s n ->
    (forall h, (h < n)%nat -> (s + 1) mod 2 ^ Z.of_nat h = 0) ->
    let m' := refresh_loop m1 (seq n r) in
    common m' = common m /\ shaped m' /\
    forall h, (h < height (common m))%nat -> path_ok m' h (s + 1) /\
      forall ph, in_phase m h s ph -> in_phase m' h (s + 1) (refresh_phase (height (common m)) s h ph)) as Hloop.
  { induction r as [|r IH]; intros n m1 Hn Hrf Hlow.
    - destruct Hrf as [C S' P N _]. cbn [seq refresh_loop]. split; [done|]. split; [done|]. intros h Hh. split.
      + specialize (P h Hh). by rewrite (proj2 (Nat.ltb_lt h n)) in P by lia.
      + intros ph _. unfold refresh_phase. rewrite Hlow by lia. apply N. lia.
    - cbn [seq refresh_loop]. rewrite (rf_common _ _ _ _ Hrf), Es.
      destruct (Z.eqb_spec ((s + 1) mod 2 ^ Z.of_nat n) 0) as [Hdiv|Hdiv]; cbn [negb].
      + apply IH; [lia| |].
        * pose proof (refresh_step m m1 s n Hk H0 Hmax ltac:(lia) Hdiv (proj2 (Hok n ltac:(lia))) Hrf) as Hstep. cbv zeta in Hstep.
          set (x := trits_copy _ _) in *. change (common (set_auth m1 n x)) with (common m1).
          rewrite (rf_common _ _ _ _ Hrf), Es. exact Hstep.
        * intros h Hh. destruct (decide (h = n)) as [->|]; [exact Hdiv|]. apply Hlow. lia.
      + destruct Hrf as [C S' P N O]. split; [done|]. split; [done|]. intros h Hh.
        specialize (P h Hh). destruct (Nat.ltb_spec h n) as [Hlt|Hge].
        * split; [exact P|]. intros ph _. unfold refresh_phase. rewrite Hlow by done. by apply N.
        * pose proof (mod_pow_up _ _ _ Hge Hdiv) as Hdiv'. pose proof (div_succ s h H0 Hdiv') as E. split.
          -- unfold path_ok in *. by rewrite E.
          -- intros ph Hph. unfold refresh_phase. rewrite (proj2 (Z.eqb_neq _ _) Hdiv').
             apply (in_phase_same _ _ s); [by symmetry|]. by apply O. }
  apply (Hloop (height (common m)) 0%nat m); [done| |lia]. split; [done|done|..].
  - intros h Hh. by apply Hok.
  - lia.
  - done.
Qed.

(** The two steps of a signature make up for the leaf that was used. *)
Lemma refresh_enough d s h ph : 0 <= s -> match ph with Work st b => building h (target s h * 2 ^ Z.of_nat h) st b | _ => True end ->
  enough (target s h * 2 ^ Z.of_nat h) (2 * since s h + 2) ph ->
  enough (target (s + 1) h * 2 ^ Z.of_nat h) (2 * since (s + 1) h) (refresh_phase d s h ph).
Proof.
  intros H0 Hbu Hu. unfold refresh_phase. destruct (Z.eqb_spec ((s + 1) mod 2 ^ Z.of_nat h) 0) as [Hdiv|Hdiv].
  - destruct (div_succ_multiple s h H0 Hdiv) as (_ & _ & ->). unfold fresh_phase. destruct (decide _); [|done].
    cbn [enough]. unfold progress. cbn [length]. lia.
  - pose proof (div_succ s h H0 Hdiv) as E. rewrite (target_same (s + 1) s) by done.
    replace (2 * since (s + 1) h) with (2 * since s h + 2) by (unfold since; rewrite E; lia). exact Hu.
Qed.

(** Another number of the key or another root: the nodes are the same. *)
Lemma rep_seed m k base st : same_seed (common m) k -> rep m base st -> rep (with_common m k) base st.
Proof.
  intros E. induction st as [|x st IH]; [done|]. cbn [rep]. intros [[Hn Hh] Hr]. split; [|by apply IH].
  split; [exact Hn|]. cbn [common with_common nodes_hashes]. by rewrite <- (node_seed _ _ _ E).
Qed.

Lemma stack_ok_seed m k h s u : same_seed (common m) k -> stack_ok m h s u -> stack_ok (with_common m k) h s u.
Proof.
  intros E. unfold stack_ok. cbn [common with_common]. rewrite <- (proj1 E). destruct (decide _).
  - intros [[R1 R2 R3 R4]|(st & b & [W1 W2 W3] & Hu)].
    + left. split; [done..|]. cbn [common with_common nodes_hashes]. by rewrite <- (node_seed _ _ _ E).
    + right. exists st, b. split; [|done]. split; [done|done|by apply rep_seed].
  - unfold spent. cbn [common with_common]. by rewrite <- (proj1 E).
Qed.

Lemma path_ok_seed m k h s : same_seed (common m) k -> path_ok m h s -> path_ok (with_common m k) h s.
Proof. intros E. unfold path_ok. cbn [common with_common auth_path]. by rewrite (node_seed _ _ _ E). Qed.

(** What holds between two signatures: the path belongs to the current key, and two steps per
    signature were made on every stack. *)
Record walking (m : mam_mss_t) : Prop := {
  wa_keys : mss_keys_ok (common m);
  wa_skn : 0 <= skn (common m) <= MAM_MSS_MAX_SKN (height (common m)) + 1;
  wa_shaped : shaped m;
  wa_root : root (common m) = mss_node (common m) (height (common m)) 0;
  wa_levels : skn (common m) <= MAM_MSS_MAX_SKN (height (common m)) -> forall h, (h < height (common m))%nat ->
    path_ok m h (skn (common m)) /\ stack_ok m h (skn (common m)) (2 * since (skn (common m)) h + 2)
}.

Lemma bump_walking m s : mss_keys_ok (common m) -> shaped m -> skn (common m) = s -> 0 <= s <= MAM_MSS_MAX_SKN (height (common m)) ->
  root (common m) = mss_node (common m) (height (common m)) 0 ->
  (s + 1 <= MAM_MSS_MAX_SKN (height (common m)) -> forall h, (h < height (common m))%nat ->
    path_ok m h (s + 1) /\ stack_ok m h (s + 1) (2 * since (s + 1) h + 2)) ->
  walking (bump_skn m).
Proof.
  intros Hk Hs Es Hr Hroot Hl. assert (same_seed (common m) (with_skn (common m) (skn (common m) + 1))) as E by done.
  unfold bump_skn. split; cbn [common with_common with_skn skn height root]; rewrite ?Es in *.
  - exact (keys_ok_seed _ _ E Hk).
  - lia.
  - by apply shaped_with_common.
  - by rewrite <- (node_seed _ _ _ E).
  - intros Hle h Hh. destruct (Hl Hle h Hh). split; [by apply path_ok_seed|by apply stack_ok_seed].
Qed.

Lemma in_phase_seed m k h s ph : same_seed (common m) k -> in_phase m h s ph -> in_phase (with_common m k) h s ph.
Proof.
  intros E. destruct ph as [|st b|]; cbn [in_phase common with_common]; rewrite <- (proj1 E); intros [Ht Hp]; (split; [exact Ht|]).
  - destruct Hp as [R1 R2 R3 R4]. split; [done..|]. cbn [common with_common nodes_hashes]. by rewrite <- (node_seed _ _ _ E).
  - destruct Hp as [W1 W2 W3]. split; [done|done|by apply rep_seed].
  - unfold spent in *. cbn [common with_common]. by rewrite <- (proj1 E).
Qed.

Definition advance_phase (d : nat) (s : Z) (h : nat) (ph : phase) : phase :=
  next_phase h (next_phase h (refresh_phase d s h ph)).

Lemma next_walking m : walking m -> skn (common m) <= MAM_MSS_MAX_SKN (height (common m)) ->
  exists m', mam_mss_next m = (true, m') /\ walking m' /\ common m' = with_skn (common m) (skn (common m) + 1) /\
    (skn (common m) + 1 <= MAM_MSS_MAX_SKN (height (common m)) -> forall h ph, (h < height (common m))%nat ->
      in_phase m h (skn (common m)) ph ->
      in_phase m' h (skn (common m) + 1) (advance_phase (height (common m)) (skn (common m)) h ph)).
Proof.
  intros [Hk Hr Hs Hroot Hl] Hle. specialize (Hl Hle). unfold mam_mss_next. rewrite remaining_sks_spec by done. cbv zeta.
  set (H := height (common m)) in *. set (s := skn (common m)) in *.
  destruct (Z.eqb_spec (MAM_MSS_MAX_SKN H + 1 - s) 0) as [|_]; [lia|].
  destruct (Z.eqb_spec (MAM_MSS_MAX_SKN H + 1 - s) 1) as [E1|E1]; cbn [negb]; eexists; (split; [done|]).
  { split; [apply (bump_walking m s); try done; fold H; lia|]. split; [done|lia]. }
  destruct (refresh_phases m s Hk Hs ltac:(lia) eq_refl ltac:(fold H; lia) Hl) as (C1 & S1 & O1). fold H in O1.
  set (m1 := mss_mt_refresh m) in *.
  destruct (build_stacks_phase m1 (s + 1)) as (C2 & A2 & S2 & O2); [by rewrite C1|done|lia| |].
  { rewrite C1. fold H. intros h Hh. destruct (proj1 (stack_ok_phase _ _ _ _) (proj2 (Hl h Hh))) as (ph & Hph & _).
    eexists. by apply O1. }
  set (m2 := mss_mt_build_stacks m1) in *. rewrite C1 in C2, O2. fold H in O2.
  assert (forall h ph, (h < H)%nat -> in_phase m h s ph -> in_phase m2 h (s + 1) (advance_phase H s h ph)) as Hadv.
  { intros h ph Hh Hph. apply O2; [done|]. by apply O1. }
  split; [|split].
  - apply (bump_walking m2 s); rewrite ?C2; fold H s; try done; [lia|]. intros _ h Hh. split.
    + unfold path_ok. rewrite C2, A2. destruct (O1 h Hh) as [P _]. unfold path_ok in P. by rewrite C1 in P.
    + destruct (proj1 (stack_ok_phase _ _ _ _) (proj2 (Hl h Hh))) as (ph & Hph & Hu). apply stack_ok_phase.
      exists (advance_phase H s h ph). split; [by apply Hadv|].
      assert (forall x, in_phase m1 h (s + 1) x -> match x with Work st b => building h (target (s + 1) h * 2 ^ Z.of_nat h) st b | _ => True end) as Hb1
        by (intros [|? ?|] Hx; [done|apply Hx|done]).
      assert (in_phase m1 h (s + 1) (refresh_phase H s h ph)) as Hph1 by by apply O1.
      replace (2 * since (s + 1) h + 2) with (2 * since (s + 1) h + 1 + 1) by lia. unfold advance_phase.
      apply enough_next; [apply next_phase_building, Hb1, Hph1|]. apply enough_next; [apply Hb1, Hph1|].
      apply refresh_enough; [lia| |exact Hu]. destruct ph; [done|apply Hph|done].
  - unfold bump_skn. cbn [common with_common]. by rewrite C2.
  - intros _ h ph Hh Hph. unfold bump_skn. apply in_phase_seed; [by rewrite C2|]. by apply Hadv.
Qed.

Lemma traversal_path_view m hs n : all_hashes (auth_path m) ->
  forall l p ys q, (l + n <= length (auth_path m))%nat -> length ys = (MAM_MSS_MT_HASH_SIZE * n)%nat ->
  (forall h, (l <= h < l + n)%nat -> nth h (auth_path m) [] = hs h) ->
  auth_path_loop m (seq l n) (view p ys q) = p ++ concat (map hs (seq l n)) ++ q.
Proof.
  intros Ha. induction n as [|n IH]; intros l p ys q Hl Hy Hh.
  - rewrite Nat.mul_0_r in Hy. destruct ys; [|discriminate]. apply mem_view.
  - cbn [seq auth_path_loop map concat]. rewrite <- (take_drop MAM_MSS_MT_HASH_SIZE ys).
    assert (length (take MAM_MSS_MT_HASH_SIZE ys) = MAM_MSS_MT_HASH_SIZE) as L1 by (rewrite length_take; lia).
    assert (length (drop MAM_MSS_MT_HASH_SIZE ys) = (MAM_MSS_MT_HASH_SIZE * n)%nat) as L2 by (rewrite length_drop; lia).
    set (y1 := take _ ys) in *. set (y2 := drop _ ys) in *.
    destruct (hash_idx_view (auth_path m) l Ha ltac:(lia)) as [Lh ->]. rewrite (Hh l) in * by lia.
    rewrite (take_view p y1) by exact L1. rewrite copy_view by congruence.
    assert (with_p (view p (y1 ++ y2) q) (p ++ hs l ++ y2 ++ q) = view p (hs l ++ y2) q) as ->.
    { rewrite (app_assoc (hs l)). apply with_view. rewrite !length_app. congruence. }
    rewrite (drop_view p (hs l)) by exact Lh. rewrite IH; [|lia|exact L2|intros h ?; apply Hh; lia].
    by rewrite <- !app_assoc.
Qed.

#[export] Instance traversal_paths : MssPaths mam_mss_t walking.
Proof.
  split.
  - intros m [Hk Hr _ _ _]. by split.
  - intros m [_ _ _ Hr _]. exact Hr.
  - intros m p ys q [Hk _ Hs _ Hl] Hle Hy. cbn [keys Mss.mam_mss_auth_path traversal_tree] in *.
    unfold mam_mss_auth_path, auth_path_of. apply traversal_path_view.
    + apply Hs.
    + rewrite (sh_auth m Hs). lia.
    + exact Hy.
    + intros h Hh. apply (Hl Hle h ltac:(lia)).
  - intros m Hw. pose proof Hw as [Hk Hr _ _ _]. cbn [keys Mss.mam_mss_next traversal_tree].
    destruct (Z.leb_spec (skn (common m)) (MAM_MSS_MAX_SKN (height (common m)))) as [Hle|Hgt].
    + destruct (next_walking m Hw Hle) as (m' & -> & Hw' & Hc & _). by split.
    + unfold mam_mss_next. rewrite remaining_sks_spec by done.
      destruct (Z.eqb_spec (MAM_MSS_MAX_SKN (height (common m)) + 1 - skn (common m)) 0); [|lia]. by split.
Qed.

(** ** The first path

    While the root is computed, a node is made when it or a node above it is on the stack. *)
Definition made (st : stack_t) (h : nat) (i : Z) : Prop :=
  Exists (fun x => (h <= x.1)%nat /\ i / 2 ^ Z.of_nat (x.1 - h) = x.2) st.

(** A made node is on the left of what comes next. *)
Lemma made_covered st : forall L b h i, stack_wf st -> covers L st b -> 0 <= L -> made st h i -> (i + 1) * 2 ^ Z.of_nat h <= b.
Proof.
  induction st as [|[h' j] st IH]; intros L b h i Hw Hc HL Hm; [by apply Exists_nil in Hm|].
  cbn in Hc. destruct Hc as [-> Hc]. apply Exists_cons in Hm as [[Hle E]|Hm].
  - cbn [fst snd] in *. pose proof (pow2_pos (h' - h)) as Hp. pose proof (pow2_pos h).
    replace (2 ^ Z.of_nat h') with (2 ^ Z.of_nat (h' - h) * 2 ^ Z.of_nat h) by (rewrite <- Z.pow_add_r by lia; f_equal; lia).
    pose proof (Z.mul_succ_div_gt i (2 ^ Z.of_nat (h' - h)) ltac:(lia)) as Hgt. rewrite E in Hgt. nia.
  - pose proof (IH L _ h i ltac:(destruct st as [|[h'' j'] st]; [done|apply (rising_weaken (S h'')); [lia|apply Hw]]) Hc HL Hm). pose proof (pow2_pos h'). nia.
Qed.

Lemma made_merge st h j : j = 2 * (j / 2) -> forall h' i,
  made ((S h, j / 2) :: st) h' i <-> made ((h, j + 1) :: (h, j) :: st) h' i \/ (h', i) = (S h, j / 2).
Proof.
  intros Ej h' i. unfold made. rewrite !Exists_cons. cbn [fst snd]. split.
  - intros [[Hle E]|Hm]; [|tauto]. destruct (decide (h' = S h)) as [->|Hne].
    + right. rewrite Nat.sub_diag in E. change (2 ^ Z.of_nat 0) with 1 in E. rewrite Z.div_1_r in E. by f_equal.
    + left. replace (S h - h')%nat with (S (h - h')) in E by lia. rewrite pow2_S, Z.mul_comm in E.
      rewrite <- Z.div_div in E by (pose proof (pow2_pos (h - h')); lia).
      pose proof (Z.div_mod (i / 2 ^ Z.of_nat (h - h')) 2 ltac:(lia)). pose proof (Z.mod_pos_bound (i / 2 ^ Z.of_nat (h - h')) 2 ltac:(lia)).
      assert (i / 2 ^ Z.of_nat (h - h') = j + 1 \/ i / 2 ^ Z.of_nat (h - h') = j) as [?|?] by lia; [left|right; left]; (split; [lia|done]).
  - assert (forall x, x / 2 = j / 2 -> (h' <= h)%nat -> i / 2 ^ Z.of_nat (h - h') = x -> (h' <= S h)%nat /\ i / 2 ^ Z.of_nat (S h - h') = j / 2) as Hup.
    { intros x Ex Hle E. split; [lia|]. replace (S h - h')%nat with (S (h - h')) by lia. rewrite pow2_S, Z.mul_comm.
      rewrite <- Z.div_div by (pose proof (pow2_pos (h - h')); lia). by rewrite E. }
    intros [[[Hle E]|[[Hle E]|Hm]]|[= -> ->]].
    + left. apply (Hup (j + 1)); [|done|done]. symmetry. apply (Z.div_unique (j + 1) 2 (j / 2) 1); lia.
    + left. by apply (Hup j).
    + by right.
    + left. rewrite Nat.sub_diag. change (2 ^ Z.of_nat 0) with 1. rewrite Z.div_1_r. split; [lia|done].
Qed.

Lemma made_leaf st b h i : made ((0%nat, b) :: st) h i <-> made st h i \/ (h, i) = (0%nat, b).
Proof.
  unfold made. rewrite Exists_cons. cbn [fst snd]. split.
  - intros [[Hle E]|Hm]; [|by left]. right. assert (h = 0%nat) as -> by lia. change (2 ^ Z.of_nat (0 - 0)) with 1 in E.
    rewrite Z.div_1_r in E. by f_equal.
  - intros [Hm|[= -> ->]]; [by right|]. left. change (2 ^ Z.of_nat (0 - 0)) with 1. by rewrite Z.div_1_r.
Qed.

(** The nodes [P] of the first path and of the next one are in their places. *)
Record kept (m : mam_mss_t) (P : nat -> Z -> Prop) : Prop := {
  kp_auth : forall h, (h < height (common m))%nat -> P h 1 -> nth h (auth_path m) [] = mss_node (common m) h 1;
  kp_ready : forall h, (S h < height (common m))%nat -> P h 0 -> ready m h 0;
  kp_empty : forall h, (S h < height (common m))%nat -> ~ P h 0 -> stack_at m h = mk_stack h 0 0
}.

Lemma kept_iff m P Q : (forall h i, P h i <-> Q h i) -> kept m P -> kept m Q.
Proof. intros E [A R S]. split; intros h Hh Hp; rewrite <- E in Hp; auto. Qed.

(** The update works in the room of the last stack. *)
Lemma kept_frame m m' P : frame (height (common m) - 1) (height (common m)) m m' -> kept m P -> kept m' P.
Proof.
  intros F [A R S]. pose proof (fr_common _ _ _ _ F) as C. split; rewrite C; intros h Hh HP.
  - rewrite (fr_auth _ _ _ _ F). by apply A.
  - eapply (ready_frame h (height (common m) - 1) (height (common m))); [lia| |exact F|by apply R].
    left. apply NODES_region. lia.
  - rewrite (fr_stacks _ _ _ _ F) by lia. by apply S.
Qed.

Lemma keep_auth m P h hash : kept m P -> (h < length (auth_path m))%nat -> hash = mss_node (common m) h 1 ->
  kept (set_auth m h hash) (fun h' i => P h' i \/ (h', i) = (h, 1)).
Proof.
  intros [A R S] Hl ->. split; cbn [common auth_path set_auth]; intros h' Hh' HP.
  - destruct (decide (h' = h)) as [->|Hne]; [by apply nth_insert_eq|]. rewrite nth_insert_ne by done.
    apply A; [done|]. destruct HP as [HP|[= ]]; [exact HP|by destruct Hne].
  - destruct HP as [HP|[= ]]. destruct (R h' Hh' HP). by split.
  - apply S; [done|]. intros HP'. apply HP. by left.
Qed.

Lemma keep_ready m P h hash : shaped m -> kept m P -> (S h < height (common m))%nat -> ~ P h 0 ->
  hash = mss_node (common m) h 0 ->
  let base := MAM_MSS_MT_NODES h in
  let current := stack_at m h in
  kept (set_stack (set_mt_node (set_hash m base hash) base (mk_node h 0)) h
    (mk_stack (s_height current) (s_level_idx current) (s_size current + 1))) (fun h' i => P h' i \/ (h', i) = (h, 0)).
Proof.
  intros Sh [A R S0] Hh Hn -> base current. set (m' := set_stack _ h _).
  assert (current = mk_stack h 0 0) as Ec by (unfold current; by apply S0).
  assert (stack_at m' h = mk_stack h 0 1) as Es.
  { unfold stack_at, m'. cbn [stacks set_stack]. rewrite nth_insert_eq by (cbn; rewrite (sh_stacks m Sh); lia). by rewrite Ec. }
  pose proof (NODES_region h (height (common m)) ltac:(lia)) as Hroom.
  assert (forall h', h' <> h -> MAM_MSS_MT_NODES h' <> base) as Hbase.
  { intros h' Hne. unfold base. destruct (levels_apart h' h Hne); lia. }
  split; unfold m'; cbn [common auth_path set_stack set_mt_node set_hash]; fold m'; intros h' Hh' HP.
  - apply A; [done|]. by destruct HP as [HP|[= ]].
  - destruct (decide (h' = h)) as [->|Hne].
    + split; rewrite ?Es; [done|done|..].
      * unfold node_at, m'. cbn. rewrite nth_insert_eq by (rewrite (sh_nodes m Sh); unfold base; lia). done.
      * unfold m'. cbn. apply nth_insert_eq. rewrite (sh_hashes m Sh). unfold base. lia.
    + destruct HP as [HP|[= ]]; [|by destruct Hne]. destruct (R h' Hh' HP) as [R1 R2 R3 R4].
      assert (stack_at m' h' = stack_at m h') as Es' by (unfold stack_at, m'; cbn; by apply nth_insert_ne).
      split; rewrite ?Es'; [done|done|..].
      * unfold node_at, m'. cbn. rewrite nth_insert_ne by by apply Hbase. exact R3.
      * unfold m'. cbn. rewrite nth_insert_ne by by apply Hbase. exact R4.
  - assert (h' <> h) as Hne by (intros ->; apply HP; by right).
    unfold stack_at, m'. cbn [stacks set_stack]. rewrite nth_insert_ne by done.
    apply S0; [done|]. intros HP'. apply HP. by left.
Qed.

Lemma keep_ok m P x st b : mss_keys_ok (common m) -> shaped m -> (0 < height (common m))%nat ->
  working m (height (common m) - 1) (height (common m)) 0 (x :: st) b -> kept m P -> ~ P x.1 x.2 ->
  let m' := keep_node m (height (common m) - 1) in
  common m' = common m /\ shaped m' /\ working m' (height (common m) - 1) (height (common m)) 0 (x :: st) b /\
  kept m' (fun h i => P h i \/ (h, i) = x).
Proof.
  intros Hk Sh Hpos Hw Hkp Hn m'. destruct x as [hx ix]. cbn [fst snd] in Hn.
  pose proof Hw as [Es Hbu Hr]. cbn [rep] in Hr. destruct Hr as [[En Eh] _]. cbn [fst snd] in En, Eh.
  pose proof (bu_below _ _ _ _ Hbu) as Hbl. apply Forall_cons_iff in Hbl as [Hlt _]. cbn [fst] in Hlt.
  pose proof (working_length _ _ _ _ _ _ Hw) as Hlen. cbn [length] in Hlen, Es.
  set (H := height (common m)) in *. set (base := MAM_MSS_MT_NODES (H - 1)) in *.
  assert (base + length st < MAM_MSS_MT_NODES H + 1)%nat as Hin.
  { unfold base. replace (MAM_MSS_MT_NODES H) with (MAM_MSS_MT_NODES (S (H - 1))) by (f_equal; lia). rewrite NODES_S. lia. }
  assert ((base + length st < length (nodes_hashes m))%nat) as Hin' by (rewrite (sh_hashes m Sh); exact Hin).
  unfold m', keep_node. rewrite Es. cbn [s_size]. fold base. cbv zeta.
  replace (base + (S (length st) - 1))%nat with (base + length st)%nat by lia. rewrite En. cbn [n_level_idx n_height]. fold H.
  destruct (hash_idx_view (nodes_hashes m) (base + length st) (sh_nodes_hashes m Sh) Hin') as [Lh _]. rewrite Eh in Lh.
  destruct (Z.eqb_spec ix 1) as [->|H1].
  { unfold mss_mt_auth_path_trits. rewrite copy_hash, Eh; [|apply Sh|exact Hin'|apply Sh|rewrite (sh_auth m Sh); exact Hlt].
    split; [done|]. split; [by apply shaped_set_auth|]. split.
    - eapply working_same; [..|exact Hw]; done.
    - apply keep_auth; [done|rewrite (sh_auth m Sh); exact Hlt|done]. }
  rewrite Nat.add_1_r. destruct (Z.eqb_spec ix 0) as [->|H0], (Nat.eqb_spec (S hx) H) as [EH|EH]; cbn [negb andb].
  2: { assert (S hx < H)%nat as Hlt' by lia. unfold mss_mt_node_hash_trits. rewrite Nat.add_0_r.
    pose proof (NODES_region hx (H - 1) ltac:(lia)) as Hroom. fold base in Hroom.
    rewrite copy_hash, Eh; [|apply Sh|exact Hin'|apply Sh|rewrite (sh_hashes m Sh); fold H; lia].
    split; [done|]. split; [by apply shaped_set_stack, shaped_set_node, shaped_set_hash|]. split.
    - eapply working_same; [..|exact Hw]; [done|unfold stack_at; cbn; apply nth_insert_ne; lia|].
      intros p Hp. fold base in Hp. unfold node_at. cbn. rewrite !nth_insert_ne by lia. done.
    - by apply keep_ready. }
  all: split; [done|]; split; [done|]; split; [done|]; destruct Hkp as [A R S0]; split; intros h Hh HP.
  all: try (destruct HP as [HP|E]; [by auto|exfalso; pose proof (f_equal fst E); pose proof (f_equal snd E); cbn [fst snd] in *; lia]).
  all: apply S0; [done|]; intros HP'; apply HP; by left.
Qed.

(** A step of the computation that does not give the root. *)
Lemma gen_step m st b : mss_keys_ok (common m) -> shaped m -> (0 < height (common m))%nat ->
  working m (height (common m) - 1) (height (common m)) 0 st b ->
  (forall h i j st', st = (h, i) :: (h, j) :: st' -> S h <> height (common m)) ->
  let m' := mss_mt_update m (height (common m) - 1) in
  exists x st' b', frame (height (common m) - 1) (height (common m)) m m' /\ shaped m' /\
    working m' (height (common m) - 1) (height (common m)) 0 (x :: st') b' /\
    ~ made st x.1 x.2 /\ (forall h i, made (x :: st') h i <-> made st h i \/ (h, i) = x) /\
    progress 0 (x :: st') b' = progress 0 st b + 1.
Proof.
  intros Hk Sh Hpos Hw Hne m'. set (H := height (common m)) in *. pose proof Hw as [_ Hbu _].
  assert (MAM_MSS_MT_NODES (H - 1) + H <= MAM_MSS_MT_NODES H)%nat as Hroom.
  { replace (MAM_MSS_MT_NODES H) with (MAM_MSS_MT_NODES (S (H - 1))) by (f_equal; lia). rewrite NODES_S. lia. }
  assert (forall h i, made st h i -> (i + 1) * 2 ^ Z.of_nat h <= b) as Hcov.
  { intros h i. apply (made_covered st 0); [apply Hbu|apply Hbu|lia]. }
  destruct (decide (distinct st)) as [Hd|Hd].
  - destruct (building_leaf H 0 st b Hbu Hd) as (_ & _ & Hnext). specialize (Hnext Hpos).
    destruct (update_leaf m Hk Sh (H - 1) H ltac:(fold H; lia) Hroom 0 b st ltac:(lia) ltac:(done) Hw Hd) as (F & S' & Es & Hr).
    exists (0%nat, b), st, (b + 1). split; [exact F|]. split; [exact S'|]. split; [by split|]. cbn [fst snd].
    split; [|split; [apply made_leaf|unfold progress; cbn [length]; lia]].
    intros Hm%Hcov. change (2 ^ Z.of_nat 0) with 1 in Hm. lia.
  - destruct st as [|[h i] [|[h' j] st']]; [by destruct Hd|by destruct Hd|]. cbn in Hd.
    destruct (decide (h = h')) as [<-|Hne']; [|by destruct Hd]. clear Hd. specialize (Hne h i j st' eq_refl).
    destruct (building_pair _ _ _ _ _ _ _ Hbu) as (-> & Ej & Eb & Hrs & Hcv & Hlt).
    destruct (update_merge m Hk Sh (H - 1) H ltac:(fold H; lia) Hroom 0 b _ ltac:(lia) ltac:(done) Hw h _ j st' eq_refl Hne)
      as (F & S' & Es & Hr).
    exists (S h, j / 2), st', b. split; [exact F|]. split; [exact S'|].
    split; [split; [exact Es|apply (building_merge H 0 h (j + 1) j); [done|lia]|exact Hr]|]. cbn [fst snd].
    split; [|split; [intros h' i'; by apply made_merge|unfold progress; cbn [length]; lia]].
    assert (made st' (S h) (j / 2) -> False) as Hst'.
    { intros Hm. pose proof (made_covered st' 0 _ _ _ ltac:(destruct st' as [|[h'' j'] st']; [done|apply (rising_weaken (S h'')); [lia|apply Hrs]]) Hcv ltac:(lia) Hm) as Hle.
      rewrite pow2_S in Hle. pose proof (pow2_pos h). nia. }
    intros Hm. apply Exists_cons in Hm as [[Hle _]|Hm]; [cbn in Hle; lia|].
    apply Exists_cons in Hm as [[Hle _]|Hm]; [cbn in Hle; lia|]. by apply Hst'.
Qed.

Lemma all_made H h : (h < H)%nat -> made [((H - 1)%nat, 1); ((H - 1)%nat, 0)] h 0 /\ made [((H - 1)%nat, 1); ((H - 1)%nat, 0)] h 1.
Proof.
  intros Hh. unfold made. rewrite !Exists_cons. cbn [fst snd]. split.
  - right. left. split; [lia|]. by apply Z.div_0_l, Z.pow_nonzero; lia.
  - destruct (decide (h = H - 1)%nat) as [->|Hne]; [left|right; left]; (split; [lia|]).
    + by rewrite Nat.sub_diag.
    + apply Z.div_small. split; [lia|]. apply Z.pow_gt_1; lia.
Qed.

(** A tree with its first path. *)
Definition started (k : mss_keys) (m : mam_mss_t) : Prop :=
  walking m /\ same_seed k (common m) /\ skn (common m) = 0 /\
  forall h, (h < height (common m))%nat -> ready m h 0.

Lemma gen_end m h i j st b : mss_keys_ok (common m) -> shaped m -> (0 < height (common m))%nat -> skn (common m) = 0 ->
  length (root (common m)) = MAM_MSS_PK_SIZE ->
  working m (height (common m) - 1) (height (common m)) 0 ((h, i) :: (h, j) :: st) b -> S h = height (common m) ->
  kept m (made ((h, i) :: (h, j) :: st)) ->
  forall fuel, exists m', gen_loop (S fuel) m (height (common m) - 1) = Some m' /\ started (common m) m'.
Proof.
  intros Hk Sh Hpos Hs0 Hroot Hw HeH Hkp fuel. set (H := height (common m)) in *. pose proof Hw as [_ Hbu _].
  assert (MAM_MSS_MT_NODES H = MAM_MSS_MT_NODES (H - 1) + H)%nat as Hroom.
  { replace (MAM_MSS_MT_NODES H) with (MAM_MSS_MT_NODES (S (H - 1))) by (f_equal; lia). rewrite NODES_S. lia. }
  destruct (building_pair _ _ _ _ _ _ _ Hbu) as (-> & Ej & _).
  destruct (update_root m Hk Sh (H - 1) H ltac:(fold H; lia) ltac:(fold H; lia) 0 b _ ltac:(lia) ltac:(done) Hw h _ j st eq_refl HeH)
    as (F & S' & -> & Es & En & Eh0 & Eh1 & _ & EL).
  set (base := MAM_MSS_MT_NODES (H - 1)) in *. set (m1 := mss_mt_update m (H - 1)) in *.
  fold H in En, Eh0, Eh1. assert (j / 2 = 0) as Ej0 by (pose proof (pow2_pos H); nia). rewrite Ej0 in *.
  assert (j = 0) as -> by lia. assert (h = H - 1)%nat as -> by lia. clear Ej EL HeH Ej0.
  pose proof (fr_common _ _ _ _ F) as C. pose proof (kept_frame m m1 _ F Hkp) as [A R _]. rewrite C in A, R.
  cbn [gen_loop]. fold m1. cbv zeta. rewrite Es. cbn [s_size]. rewrite Nat.sub_diag. fold base. rewrite Nat.add_0_r, En, C.
  fold H. cbn [n_height]. rewrite Nat.eqb_refl. eexists. split; [done|].
  destruct (hash_idx_view (nodes_hashes m1) (base + 1) (sh_nodes_hashes m1 S')) as [Lh ->].
  { rewrite (sh_hashes m1 S'), C. fold H. lia. }
  rewrite Eh1 in *. rewrite (from_rep_view _ _ Hroot). rewrite copy_view by (rewrite Hroot; exact Lh). rewrite app_nil_l, app_nil_r.
  set (k' := with_root (common m) (mss_node (common m) H 0)). assert (same_seed (common m) k') as Hseed by done.
  set (m2 := set_stack _ _ _). assert (common m2 = k') as C2 by done.
  assert (forall h, (h < H)%nat -> ready m2 h 0) as Hready.
  { intros h Hh. destruct (decide (h = H - 1)%nat) as [->|Hne].
    - assert (stack_at m2 (H - 1) = mk_stack (H - 1) 0 1) as Es2.
      { unfold stack_at, m2. cbn [stacks set_stack]. rewrite nth_insert_eq by (cbn; rewrite (sh_stacks m1 S'), C; fold H; lia).
        done. }
      split; rewrite ?Es2; [done|done|..].
      + unfold m2, node_at in *. cbn. fold base. rewrite En. cbn. lia.
      + rewrite C2, <- (node_seed _ _ _ Hseed). exact Eh0.
    - destruct (R h ltac:(fold H; lia) (proj1 (all_made H h Hh))) as [R1 R2 R3 R4].
      assert (stack_at m2 h = stack_at m1 h) as Es2 by (unfold stack_at, m2; cbn; apply nth_insert_ne; lia).
      split; rewrite ?Es2; [done|done|exact R3|]. rewrite C2, <- (node_seed _ _ _ Hseed). rewrite C in R4. exact R4. }
  assert (started (common m) m2); [|done]. split; [|rewrite C2; by split_and!].
  assert (0 <= MAM_MSS_MAX_SKN H) as Hmax by (unfold MAM_MSS_MAX_SKN; pose proof (pow2_pos H); lia).
  split; rewrite ?C2.
  - exact (keys_ok_seed _ _ Hseed Hk).
  - cbn [skn with_root k' height]. fold H. lia.
  - apply shaped_set_stack, shaped_with_common; [done|]. by rewrite C.
  - cbn [root with_root k' height]. by apply node_seed.
  - cbn [skn with_root k' height]. fold H. intros _ h Hh. rewrite Hs0.
    pose proof (pow2_pos h) as Hp. unfold path_ok, stack_ok. rewrite C2.
    assert (target 0 h = 0) as -> by (unfold target; by rewrite Z.div_0_l by lia). rewrite Z.div_0_l by lia.
    change (sibling 0) with 1. rewrite <- (node_seed _ _ _ Hseed).
    split; [exact (A h Hh (proj2 (all_made H h Hh)))|]. rewrite decide_True by (cbn [k' with_root height]; apply pow2_pos).
    left. by apply Hready.
Qed.

(** The loop ends, with the first path. *)
Lemma gen_loop_ok fuel : forall m st b, mss_keys_ok (common m) -> shaped m -> (0 < height (common m))%nat ->
  skn (common m) = 0 -> length (root (common m)) = MAM_MSS_PK_SIZE ->
  working m (height (common m) - 1) (height (common m)) 0 st b -> kept m (made st) ->
  2 * 2 ^ Z.of_nat (height (common m)) <= Z.of_nat fuel + progress 0 st b ->
  exists m', gen_loop fuel m (height (common m) - 1) = Some m' /\ started (common m) m'.
Proof.
  induction fuel as [|fuel IH]; intros m st b Hk Sh Hpos Hs0 Hroot Hw Hkp Hf.
  { exfalso. destruct Hw as [_ Hbu _]. pose proof (progress_bound _ _ _ _ Hbu) as Hb. pose proof (pow2_pos (height (common m))).
    assert (st <> [] \/ b < 0 + 2 ^ Z.of_nat (height (common m))) as Hor; [|specialize (Hb Hor); lia].
    destruct st; [right|by left]. pose proof (bu_covers _ _ _ _ Hbu) as Hc. cbn in Hc. lia. }
  assert ((exists h i j st', st = (h, i) :: (h, j) :: st' /\ S h = height (common m)) \/
    (forall h i j st', st = (h, i) :: (h, j) :: st' -> S h <> height (common m))) as [(h & i & j & st' & -> & E)|Hne].
  { destruct st as [|[h i] [|[h' j] st']]; [right; intros ? ? ? ? [=]..|].
    destruct (decide (h = h' /\ S h = height (common m))) as [[<- E]|Hne]; [left; by exists h, i, j, st'|right].
    intros h0 i0 j0 st0 [= -> -> <- -> ->] E. by apply Hne. }
  { by apply (gen_end m h i j st' b). }
  destruct (gen_step m st b Hk Sh Hpos Hw Hne) as (x & st1 & b1 & F & S1 & W1 & Hn & Hm & Hp).
  pose proof (kept_frame m _ _ F Hkp) as Hkp1. set (m1 := mss_mt_update m (height (common m) - 1)) in *.
  pose proof (fr_common _ _ _ _ F) as C. rewrite <- C in W1, Hpos.
  destruct (keep_ok m1 (made st) x st1 b1 ltac:(by rewrite C) S1 Hpos W1 Hkp1 Hn) as (C2 & S2 & W2 & K2).
  rewrite C in C2, S2, W2, K2. set (m2 := keep_node m1 (height (common m) - 1)) in *.
  destruct W1 as [Es Hbu Hr]. rewrite C in Es, Hr. cbn [rep length] in Es, Hr. destruct Hr as [[En _] _].
  pose proof (bu_below _ _ _ _ Hbu) as Hbl. apply Forall_cons_iff in Hbl as [Hlt _]. rewrite C in Hlt.
  cbn [gen_loop]. fold m1. cbv zeta. rewrite Es. cbn [s_size].
  replace (S (length st1) - 1)%nat with (length st1) by lia. rewrite En, C. cbn [n_height].
  rewrite (proj2 (Nat.eqb_neq _ _)) by lia. fold m2.
  destruct (IH m2 (x :: st1) b1) as (m' & E & Hst); rewrite ?C2; try assumption; [by rewrite C in Hpos| | |].
  - eapply kept_iff; [|exact K2]. intros h i. by rewrite Hm.
  - rewrite Hp. lia.
  - rewrite C2 in E. exists m'. split; [exact E|]. by rewrite C2 in Hst.
Qed.

Lemma gen_started m : mss_keys_ok (common m) -> shaped m -> skn (common m) = 0 ->
  length (root (common m)) = MAM_MSS_PK_SIZE ->
  (forall h, (h < height (common m))%nat -> stack_at m h = mk_stack h 0 0) ->
  exists m', mam_mss_gen m = Some m' /\ started (common m) m'.
Proof.
  intros Hk Sh Hs0 Hroot He. unfold mam_mss_gen. destruct (Nat.eqb_spec 0 (height (common m))) as [E|Hne].
  - eexists. split; [done|]. rewrite (from_rep_view _ _ Hroot).
    rewrite gen_leaf_view by (first [exact Hk|exact Hroot|unfold skn_bound; lia]). rewrite app_nil_l, app_nil_r.
    set (k' := with_root (common m) (mss_leaf (common m) 0)). assert (same_seed (common m) k') as Hseed by done.
    split; [|split; [done|split; [exact Hs0|cbn [common with_common with_root k' height]; lia]]].
    split; cbn [common with_common skn with_root k' height root]; rewrite <- ?E.
    + exact (keys_ok_seed _ _ Hseed Hk).
    + rewrite Hs0. unfold MAM_MSS_MAX_SKN. cbn. lia.
    + by apply shaped_with_common.
    + by rewrite <- (node_seed _ _ 0 Hseed).
    + intros _ h Hh. lia.
  - cbv zeta. set (H := height (common m)) in *. set (m0 := set_stack _ _ _).
    assert (shaped m0) as Sh0 by by apply shaped_set_stack.
    assert (forall h i, ~ made [] h i) as Hnone by (intros h i Hm; by apply Exists_nil in Hm).
    apply (gen_loop_ok _ m0 [] 0); [exact Hk|exact Sh0|cbn; fold H; lia|exact Hs0|exact Hroot|..].
    + split; [|apply building_nil; by exists 0|done]. unfold m0, stack_at. cbn [stacks set_stack common]. fold H.
      apply nth_insert_eq. rewrite (sh_stacks m Sh). fold H. lia.
    + split; cbn [common set_stack m0]; fold H; intros h Hh Hm; [by apply Hnone in Hm|by apply Hnone in Hm|].
      unfold stack_at, m0. cbn [stacks set_stack]. rewrite nth_insert_ne by lia. apply He. lia.
    + change (common m0) with (common m). fold H. unfold progress. cbn [length].
      rewrite Nat2Z.inj_pow, Nat.add_1_r, pow2_S. change (Z.of_nat 2) with 2. lia.
Qed.

(** [mam_mss_init] empties the stacks. *)
Lemma init_stacks m : shaped m -> let m' := mss_mt_init m in
  common m' = common m /\ shaped m' /\ forall h, (h < height (common m))%nat -> stack_at m' h = mk_stack h 0 0.
Proof.
  intros Sh m'. unfold m', mss_mt_init.
  assert (forall n, (n <= height (common m))%nat ->
    let m' := foldl (fun m height => set_stack m height (mk_stack height 0 0)) m (seq 0 n) in
    common m' = common m /\ shaped m' /\ forall h, (h < n)%nat -> stack_at m' h = mk_stack h 0 0) as Hn; [|by apply Hn].
  induction n as [|n IH]; intros Hn; [split; [done|split; [done|lia]]|].
  destruct (IH ltac:(lia)) as (C & S' & E). rewrite seq_S, foldl_app. cbn [foldl Nat.add].
  set (m1 := foldl _ m (seq 0 n)) in *. split; [exact C|]. split; [by apply shaped_set_stack|].
  intros h Hh. unfold stack_at. cbn [stacks set_stack]. destruct (decide (h = n)) as [->|Hne].
  - apply nth_insert_eq. rewrite (sh_stacks m1 S'), C. lia.
  - rewrite nth_insert_ne by done. apply E. lia.
Qed.
