(* ===== verification/MssLifetime.v ===== *)
(** * The life of a Merkle tree

    A tree that is created, initialised and computed signs once for each of its leaves, and
    every one of these signatures verifies under the root; after the last leaf the code is
    [RC_MAM_MSS_EXHAUSTED].  This holds of both implementations, and they sign alike: the
    traversal is a refinement of the tree that is kept in memory. *)
From S2P Require Import Prelude Errors Trits Troika Ftroika MamTrits MamSponge Pb3 Wots Mss MssClassic MssTraversal.

#[local] Opaque mam_sponge_transform digest chain.

(** ** A tree in memory that is created, initialised and computed *)
Definition classic_fresh (mt : list (list Z)) (k : mss_keys) : option MssClassic.mam_mss_t :=
  match MssClassic.mam_mss_create (fun _ => Some mt) (height k) with
  | (RC_OK, m) =>
      Some (MssClassic.mam_mss_gen (MssClassic.mam_mss_init m (prng k) (height k) (nonce1 k) (nonce2 k) (nonce3 k) (nonce4 k)))
  | _ => None
  end.

Lemma classic_fresh_ok mt k : mss_keys_ok k -> MssClassic.shaped k mt ->
  exists m, classic_fresh mt k = Some m /\ generated m /\ same_seed k (keys m) /\ skn (keys m) = 0.
Proof.
  intros Hk Hs. unfold classic_fresh, MssClassic.mam_mss_create.
  rewrite (proj2 (Nat.ltb_ge MAM_MSS_MAX_D (height k)) (ok_height k Hk)).
  eexists. split; [done|]. unfold MssClassic.mam_mss_init. cbn [MssClassic.common MssClassic.mt].
  set (k' := mk_keys (height k) 0 _ _ _ _ _ _). assert (same_seed k k') as Hseed by done.
  destruct (gen_generated (MssClassic.mk_mss k' mt)) as (G & E & E0).
  - exact (keys_ok_seed _ _ Hseed Hk).
  - done.
  - destruct Hs as [Hl Hh]. by split.
  - apply length_replicate.
  - split; [exact G|]. by split.
Qed.

(** ** The traversal, created, initialised and computed *)
(** Memory of the sizes that [mam_mss_create] asks for. *)
Definition room (d : nat) (path hashes : list (list Z)) (ns : list mss_mt_node_t) (ss : list mss_mt_stack_t) : Prop :=
  length path = d /\ all_hashes path /\ length hashes = (MAM_MSS_MT_NODES d + 1)%nat /\ all_hashes hashes /\
  length ns = (MAM_MSS_MT_NODES d + 1)%nat /\ length ss = d.

(** The tree is created and initialised. *)
Definition blank_tree (path hashes : list (list Z)) (ns : list mss_mt_node_t) (ss : list mss_mt_stack_t) (k : mss_keys)
    : option MssTraversal.mam_mss_t :=
  match MssTraversal.mam_mss_create (fun _ => Some path) (fun _ => Some hashes) (fun _ => Some ns) (fun _ => Some ss) (height k) with
  | (RC_OK, m) => Some (MssTraversal.mam_mss_init m (prng k) (height k) (nonce1 k) (nonce2 k) (nonce3 k) (nonce4 k))
  | _ => None
  end.

(** And computed. *)
Definition fresh_tree (path hashes : list (list Z)) (ns : list mss_mt_node_t) (ss : list mss_mt_stack_t) (k : mss_keys)
    : option MssTraversal.mam_mss_t :=
  match blank_tree path hashes ns ss k with
  | Some m => MssTraversal.mam_mss_gen m
  | None => None
  end.

Lemma blank_tree_ok path hashes ns ss k : mss_keys_ok k -> room (height k) path hashes ns ss ->
  exists m, blank_tree path hashes ns ss k = Some m /\ same_seed k (common m) /\ shaped m /\ skn (common m) = 0 /\
    length (root (common m)) = MAM_MSS_PK_SIZE /\
    forall h, (h < height (common m))%nat -> stack_at m h = mk_stack h 0 0.
Proof.
  intros Hk (R1 & R2 & R3 & R4 & R5 & R6). unfold blank_tree, MssTraversal.mam_mss_create.
  rewrite (proj2 (Nat.ltb_ge MAM_MSS_MAX_D (height k)) (ok_height k Hk)). cbn [default]. unfold MssTraversal.mam_mss_init.
  set (k' := mk_keys (height k) 0 _ _ _ _ _ _). assert (same_seed k k') as Hseed by done.
  unfold with_common. cbn [auth_path nodes_hashes nodes stacks].
  destruct (init_stacks (mk_mss k' path hashes ns ss)) as (C & S' & E); [by split|].
  set (m1 := mss_mt_init _) in *. cbn [common] in C, E. exists m1. rewrite C. split; [done|]. split; [done|]. split; [exact S'|].
  split; [done|]. split; [apply length_replicate|exact E].
Qed.

Lemma fresh_started path hashes ns ss k : mss_keys_ok k -> room (height k) path hashes ns ss ->
  exists m, fresh_tree path hashes ns ss k = Some m /\ started k m.
Proof.
  intros Hk Hr. destruct (blank_tree_ok path hashes ns ss k Hk Hr) as (m1 & E1 & Hseed & S1 & Z1 & R1 & St1).
  unfold fresh_tree. rewrite E1. destruct (gen_started m1 (keys_ok_seed _ _ Hseed Hk) S1 Z1 R1 St1) as (m & Em & W & E & E0 & Hr').
  exists m. split; [exact Em|]. split; [exact W|]. split; [|by split].
  destruct Hseed as (A1 & A2 & A3 & A4 & A5 & A6), E as (B1 & B2 & B3 & B4 & B5 & B6).
  split_and!; (etransitivity; [eassumption|assumption]).
Qed.

(** The signatures of a tree at its first key. *)
Lemma signs_lifetime {M inv} `{MssPaths M inv} (k : mss_keys) (m : M) requests : mss_keys_ok k -> inv m ->
  same_seed k (keys m) -> skn (keys m) = 0 -> fitting (height k) requests ->
  let pk := trits_from_rep MAM_MSS_PK_SIZE (root (keys m)) in
  let signatures := (sign_all m requests).2 in
  let n := (2 ^ height k)%nat in
  Forall2 (genuine (height k) pk) (take n requests) (take n signatures) /\
  drop n signatures = map (fun r => (RC_MAM_MSS_EXHAUSTED, t_p r.2)) (drop n requests).
Proof.
  intros Hk Hi E E0 Hreq pk signatures n. pose proof (proj1 E) as Eh. destruct (paths_keys m Hi) as [Hkm _].
  pose proof (max_skn_bound _ (ok_height k Hk)) as Hmax. unfold MAM_MSS_MAX_SKN in Hmax.
  destruct (node_ok (keys m) (height (keys m)) Hkm 0) as [Ln _]; [lia|rewrite <- Eh; lia|].
  pose proof (sign_all_genuine pk requests m Hi) as Hg. rewrite E0, <- Eh in Hg.
  assert (Z.to_nat (MAM_MSS_MAX_SKN (height k) + 1 - 0) = n) as En.
  { unfold MAM_MSS_MAX_SKN, n. replace (2 ^ Z.of_nat (height k) - 1 + 1 - 0) with (Z.of_nat (2 ^ height k)) by (rewrite Nat2Z.inj_pow; lia).
    apply Nat2Z.id. }
  rewrite En in Hg. assert (pk = view [] (mss_node (keys m) (height k) 0) []) as Epk.
  { unfold pk. rewrite (paths_root m Hi), <- Eh. rewrite <- Eh in Ln. by apply from_rep_view. }
  apply Hg; [rewrite Epk; apply view_valid|by rewrite Epk, get_view|exact Hreq].
Qed.

(** A Merkle tree that is kept in memory signs once for each of its [2 ^ height] leaves: after creation,
    initialisation and generation, the first [2 ^ height] signatures of [mam_mss_sign_and_next] are accepted by
    [mam_mss_verify] under the root with any sponge to start from, and every later request returns
    [RC_MAM_MSS_EXHAUSTED] and leaves the memory of the signature alone. *)
Theorem classic_signs_lifetime mt k requests : mss_keys_ok k -> MssClassic.shaped k mt -> fitting (height k) requests ->
  exists m, classic_fresh mt k = Some m /\
    let pk := trits_from_rep MAM_MSS_PK_SIZE (root (keys m)) in
    let signatures := (sign_all m requests).2 in
    let n := (2 ^ height k)%nat in
    Forall2 (genuine (height k) pk) (take n requests) (take n signatures) /\
    drop n signatures = map (fun r => (RC_MAM_MSS_EXHAUSTED, t_p r.2)) (drop n requests).
Proof.
  intros Hk Hs Hreq. destruct (classic_fresh_ok mt k Hk Hs) as (m & Em & G & E & E0). exists m. split; [exact Em|].
  by apply (signs_lifetime k m).
Qed.

(** C32: the same of the Merkle tree traversal, which keeps the path of the current key only: its generation ends,
    [mam_mss_next] always has the next path ready, the first [2 ^ height] signatures verify and the rest are
    refused. *)
Theorem traversal_signs_lifetime path hashes ns ss k requests :
  mss_keys_ok k -> room (height k) path hashes ns ss -> fitting (height k) requests ->
  exists m, fresh_tree path hashes ns ss k = Some m /\
    let pk := trits_from_rep MAM_MSS_PK_SIZE (root (keys m)) in
    let signatures := (sign_all m requests).2 in
    let n := (2 ^ height k)%nat in
    Forall2 (genuine (height k) pk) (take n requests) (take n signatures) /\
    drop n signatures = map (fun r => (RC_MAM_MSS_EXHAUSTED, t_p r.2)) (drop n requests).
Proof.
  intros Hk Hs Hreq. destruct (fresh_started path hashes ns ss k Hk Hs) as (m & Em & W & E & E0 & _).
  exists m. split; [exact Em|]. by apply (signs_lifetime k m).
Qed.

(** C33: the tree traversal refines the tree in memory: from the same seed they have the same root and, for any
    sequence of requests, they give the same codes and write the same signatures. *)
Theorem traversal_refines_classic mt path hashes ns ss k requests :
  mss_keys_ok k -> MssClassic.shaped k mt -> room (height k) path hashes ns ss -> fitting (height k) requests ->
  exists mc m, classic_fresh mt k = Some mc /\ fresh_tree path hashes ns ss k = Some m /\
    root (keys m) = root (keys mc) /\ (sign_all m requests).2 = (sign_all mc requests).2.
Proof.
  intros Hk Hmt Hs Hreq. destruct (classic_fresh_ok mt k Hk Hmt) as (mc & Ec & G & C & C0).
  destruct (fresh_started path hashes ns ss k Hk Hs) as (m & Em & W & E & E0 & _).
  change (common m) with (keys m) in E, E0. exists mc, m. split; [exact Ec|]. split; [exact Em|]. split.
  - rewrite (paths_root m W), (paths_root mc G), <- (node_seed k _ _ E), <- (node_seed k _ _ C).
    by rewrite <- (proj1 C), <- (proj1 E).
  - assert (same_seed (keys m) (keys mc)) as Hse.
    { destruct C as (C1 & C2 & C3 & C4 & C5 & C6), E as (E1 & E2 & E3 & E4 & E5 & E6).
      split_and!; (etransitivity; [symmetry; eassumption|assumption]). }
    apply (sign_all_agree requests m mc W G Hse); [transitivity 0; [exact E0|by symmetry]|].
    destruct E as [E1 _]. rewrite <- E1. exact Hreq.
Qed.

(** ** A tree with two leaves *)
Definition two_leaves : mss_keys :=
  mk_keys 1 0 (replicate MAM_PRNG_SECRET_KEY_SIZE 0) trits_null trits_null trits_null trits_null [].
Definition no_hash : list Z := replicate MAM_MSS_MT_HASH_SIZE 0.
Definition three_requests : list (trits_t * trits_t) :=
  replicate 3 (memory MAM_WOTS_HASH_SIZE, memory (MAM_MSS_SIG_SIZE 1)).

Lemma two_leaves_ok : mss_keys_ok two_leaves.
Proof.
  assert (valid trits_null) as Hv by (split; cbn; lia).
  split; cbn [height prng nonce1 nonce2 nonce3 nonce4 two_leaves].
  - unfold MAM_MSS_MAX_D. lia.
  - split; [apply length_replicate|apply Forall_replicate; unfold is_trit; lia].
  - by repeat constructor.
  - by repeat constructor.
Qed.

Lemma no_hashes n : all_hashes (replicate n no_hash).
Proof. apply Forall_replicate, length_replicate. Qed.

Lemma three_requests_fit : fitting 1 three_requests.
Proof.
  apply Forall_replicate. cbn [fst snd]. split; [split; [|split]|split].
  - rewrite memory_view. apply view_valid.
  - rewrite memory_view, size_view. apply length_replicate.
  - rewrite memory_view, get_view. apply Forall_replicate. unfold is_trit. lia.
  - rewrite memory_view. apply view_valid.
  - rewrite memory_view, size_view. apply length_replicate.
Qed.

Lemma classic_signs_lifetime_witness :
  exists m, classic_fresh (replicate 3 no_hash) two_leaves = Some m /\
    let pk := trits_from_rep MAM_MSS_PK_SIZE (root (keys m)) in
    let signatures := (sign_all m three_requests).2 in
    Forall2 (genuine 1 pk) (take 2 three_requests) (take 2 signatures) /\
    drop 2 signatures = map (fun r => (RC_MAM_MSS_EXHAUSTED, t_p r.2)) (drop 2 three_requests).
Proof.
  apply (classic_signs_lifetime (replicate 3 no_hash) two_leaves three_requests).
  - exact two_leaves_ok.
  - split; [apply length_replicate|apply no_hashes].
  - exact three_requests_fit.
Defined.

Lemma two_leaves_room : room 1 (replicate 1 no_hash) (replicate 2 no_hash) (replicate 2 no_node) (replicate 1 no_stack).
Proof. split_and!; first [apply no_hashes|apply length_replicate]. Qed.

Lemma traversal_signs_lifetime_witness :
  exists m, fresh_tree (replicate 1 no_hash) (replicate 2 no_hash) (replicate 2 no_node) (replicate 1 no_stack) two_leaves = Some m /\
    let pk := trits_from_rep MAM_MSS_PK_SIZE (root (keys m)) in
    let signatures := (sign_all m three_requests).2 in
    Forall2 (genuine 1 pk) (take 2 three_requests) (take 2 signatures) /\
    drop 2 signatures = map (fun r => (RC_MAM_MSS_EXHAUSTED, t_p r.2)) (drop 2 three_requests).
Proof.
  apply (traversal_signs_lifetime _ _ _ _ two_leaves three_requests).
  - exact two_leaves_ok.
  - exact two_leaves_room.
  - exact three_requests_fit.
Defined.

Lemma traversal_refines_classic_witness :
  exists mc m, classic_fresh (replicate 3 no_hash) two_leaves = Some mc /\
    fresh_tree (replicate 1 no_hash) (replicate 2 no_hash) (replicate 2 no_node) (replicate 1 no_stack) two_leaves = Some m /\
    root (keys m) = root (keys mc) /\ (sign_all m three_requests).2 = (sign_all mc three_requests).2.
Proof.
  apply (traversal_refines_classic _ _ _ _ _ two_leaves three_requests).
  - exact two_leaves_ok.
  - split; [apply length_replicate|apply no_hashes].
  - exact two_leaves_room.
  - exact three_requests_fit.
Defined.
