(* ===== verification/MssStorage.v ===== *)
(** * Storage of Merkle trees

    A tree is written as the number of its current key, its hashes and its root.  Of the tree
    in memory these are the levels from the leaves up.  Of the traversal they are the current
    path and the hashes on the stacks: what the stacks look like is not written but computed
    again from the number of the key by [mss_mt_rewind].  Either way the tree that is read
    back signs on as if it had never been away. *)
From S2P Require Import Prelude Errors Trits Troika Ftroika MamTrits MamSponge Pb3 Wots Mss MssClassic MssTraversal MssLifetime.

#[local] Opaque mam_sponge_transform digest chain.

(** ** Hashes in a buffer *)
Definition hash_at (l : list (list Z)) (i : nat) : list Z := nth i l [].

Definition write_hash (l : list (list Z)) (buffer : trits_t) (i : nat) : trits_t := put_hash (mss_hash_idx l i) buffer.

Definition read_hash (st : list (list Z) * trits_t) (i : nat) : list (list Z) * trits_t :=
  let '(l, buffer) := st in
  (<[i := trits_copy (trits_take buffer MAM_MSS_MT_HASH_SIZE) (mss_hash_idx l i)]> l, trits_drop buffer MAM_MSS_MT_HASH_SIZE).

Definition indices (l : list (list Z)) (ixs : list nat) : Prop := Forall (fun i => (i < length l)%nat) ixs.

Lemma length_hashes l ixs : all_hashes l -> indices l ixs ->
  length (concat (map (hash_at l) ixs)) = (MAM_MSS_MT_HASH_SIZE * length ixs)%nat.
Proof.
  intros Hl. induction 1 as [|i ixs Hi _ IH]; [cbn; lia|]. cbn [map concat length]. rewrite length_app, IH.
  unfold hash_at. rewrite (proj1 (hash_idx_view l i Hl Hi)). lia.
Qed.

Lemma put_hash_view p h q p' y rest q' : length y = length h -> length h = MAM_MSS_MT_HASH_SIZE ->
  put_hash (view p h q) (view p' (y ++ rest) q') = view (p' ++ h) rest q'.
Proof.
  intros Hy Hh. unfold put_hash. rewrite (take_view p' y) by (rewrite Hy; exact Hh). rewrite copy_view by (by symmetry).
  assert (with_p (view p' (y ++ rest) q') (p' ++ h ++ rest ++ q') = view p' (h ++ rest) q') as ->.
  { rewrite (app_assoc h). apply with_view. by rewrite !length_app, Hy. }
  by apply drop_view.
Qed.

Lemma write_hashes l ixs : all_hashes l -> indices l ixs ->
  forall p ys rest q, length ys = length (concat (map (hash_at l) ixs)) ->
  foldl (write_hash l) (view p (ys ++ rest) q) ixs = view (p ++ concat (map (hash_at l) ixs)) rest q.
Proof.
  intros Hl. induction 1 as [|i ixs Hi _ IH]; intros p ys rest q Hy; cbn [foldl map concat] in *.
  - destruct ys; [|discriminate]. by rewrite app_nil_r.
  - destruct (hash_idx_view l i Hl Hi) as [Lh Ev]. fold (hash_at l i) in Lh, Ev. rewrite length_app in Hy.
    rewrite <- (take_drop (length (hash_at l i)) ys). set (y := take _ ys). set (ys' := drop _ ys).
    assert (length y = length (hash_at l i)) as Ly by (unfold y; rewrite length_take; lia).
    assert (length ys' = length (concat (map (hash_at l) ixs))) as Lys by (unfold ys'; rewrite length_drop; lia).
    unfold write_hash at 2. rewrite Ev, <- app_assoc, put_hash_view by (first [exact Ly|exact Lh]).
    rewrite IH by exact Lys. by rewrite <- app_assoc.
Qed.

(** What was written comes back, whatever was there before. *)
Lemma read_hashes l ixs : all_hashes l -> indices l ixs ->
  forall l' p rest q, all_hashes l' -> indices l' ixs ->
  exists l'', foldl read_hash (l', view p (concat (map (hash_at l) ixs) ++ rest) q) ixs =
      (l'', view (p ++ concat (map (hash_at l) ixs)) rest q) /\
    all_hashes l'' /\ length l'' = length l' /\
    forall i, hash_at l'' i = if decide (i ∈ ixs) then hash_at l i else hash_at l' i.
Proof.
  intros Hl. induction 1 as [|i ixs Hi _ IH]; intros l' p rest q Hl' Hi'; cbn [foldl map concat].
  - exists l'. rewrite app_nil_r. by split_and!.
  - apply Forall_cons_iff in Hi' as [Hi' His']. destruct (hash_idx_view l i Hl Hi) as [Lh _]. fold (hash_at l i) in Lh.
    destruct (hash_idx_view l' i Hl' Hi') as [Lh' Ev]. fold (hash_at l' i) in Lh', Ev.
    unfold read_hash at 2. rewrite Ev, <- app_assoc, (take_view p (hash_at l i)), (drop_view p (hash_at l i)) by exact Lh.
    rewrite copy_view by (rewrite Lh'; exact Lh). rewrite app_nil_l, app_nil_r.
    destruct (IH (<[i := hash_at l i]> l') (p ++ hash_at l i) rest q) as (l'' & -> & H1 & H2 & H3).
    { by apply Forall_insert. }
    { unfold indices. rewrite length_insert. exact His'. }
    exists l''. rewrite <- app_assoc. split; [done|]. split; [done|]. split; [by rewrite H2, length_insert|].
    intros j. rewrite H3. unfold hash_at at 2. destruct (decide (j ∈ ixs)) as [Hj|Hj].
    + by rewrite decide_True by (by apply list_elem_of_further).
    + destruct (decide (j = i)) as [->|Hne].
      * rewrite nth_insert_eq by exact Hi'. by rewrite decide_True by (by apply list_elem_of_here).
      * rewrite nth_insert_ne by done. rewrite decide_False; [done|].
        by intros [->|?]%elem_of_cons.
Qed.

Lemma foldl_flat_map {A B C} (f : A -> B -> A) (g : C -> list B) cs a :
  foldl (fun a c => foldl f a (g c)) a cs = foldl f a (flat_map g cs).
Proof. revert a. induction cs as [|c cs IH]; intros a; [done|]. cbn [foldl flat_map]. by rewrite foldl_app, IH. Qed.

Lemma foldl_map_in {A B C} (f : A -> B -> A) (g : C -> B) cs a :
  foldl (fun a c => f a (g c)) a cs = foldl f a (map g cs).
Proof. revert a. induction cs as [|c cs IH]; intros a; [done|]. apply IH. Qed.

Lemma foldl_ext_in {A B} (f g : A -> B -> A) bs : (forall a b, b ∈ bs -> f a b = g a b) -> forall a, foldl f a bs = foldl g a bs.
Proof.
  induction bs as [|b bs IH]; intros E a; [done|]. cbn [foldl]. rewrite (E a b) by (by apply list_elem_of_here).
  apply IH. intros a' b' Hb'. apply E. by apply list_elem_of_further.
Qed.

(** ** The number of the key and the root around the hashes *)
Lemma advance_view p c1 c2 q n : length c1 = n ->
  trits_advance (view p (c1 ++ c2) q) n = (view p c1 (c2 ++ q), view (p ++ c1) c2 q).
Proof. intros H. unfold trits_advance. by rewrite (take_view p c1), (drop_view p c1). Qed.

Lemma root_hash k : mss_keys_ok k -> root k = mss_node k (height k) 0 -> length (root k) = MAM_MSS_PK_SIZE.
Proof.
  intros Hk ->. destruct (node_ok k (height k) Hk 0) as [Hl _]; [lia| |exact Hl].
  pose proof (max_skn_bound _ (ok_height k Hk)). unfold MAM_MSS_MAX_SKN in *. lia.
Qed.

(** What is written: [tree] stands for the hashes. *)
Lemma serialize_view {M inv} `{MssPaths M inv} (m : M) (tree : list Z) : inv m ->
  (forall p ys rest q, length ys = length tree ->
     Mss.mss_mt_serialize m (view p (ys ++ rest) q) = view (p ++ tree) rest q) ->
  exists ts, skn_trits_of (height (keys m)) (skn (keys m)) ts /\ length ts = MAM_MSS_SKN_SIZE /\
    forall p ys rest q, length ys = (MAM_MSS_SKN_SIZE + length tree + MAM_MSS_PK_SIZE)%nat ->
      mam_mss_serialize m (view p (ys ++ rest) q) = view (p ++ ts ++ tree ++ root (keys m)) rest q.
Proof.
  intros Hi Htree. destruct (paths_keys m Hi) as [Hk Hr]. set (k := keys m) in *.
  pose proof (max_skn_bound _ (ok_height k Hk)) as Hmax. pose proof (root_hash k Hk (paths_root m Hi)) as Hroot.
  destruct (skn_view k (ok_height k Hk) ltac:(lia)) as (ts & Hts & Hlts & Hput).
  exists ts. split; [exact Hts|]. split; [exact Hlts|]. intros p ys rest q Hy.
  rewrite <- (take_drop MAM_MSS_SKN_SIZE ys), <- (take_drop (length tree) (drop MAM_MSS_SKN_SIZE ys)), <- !app_assoc.
  set (y1 := take MAM_MSS_SKN_SIZE ys). set (y2 := take (length tree) _). set (y3 := drop (length tree) _).
  assert (length y1 = MAM_MSS_SKN_SIZE) as L1 by (unfold y1; rewrite length_take; lia).
  assert (length y2 = length tree) as L2 by (unfold y2; rewrite length_take, length_drop; lia).
  assert (length y3 = MAM_MSS_PK_SIZE) as L3 by (unfold y3; rewrite !length_drop; lia).
  unfold mam_mss_serialize. fold k. cbv zeta. rewrite (take_view p y1) by exact L1. rewrite Hput by exact L1.
  assert (with_p (view p (y1 ++ y2 ++ y3 ++ rest) q) (p ++ ts ++ (y2 ++ y3 ++ rest) ++ q) = view p (ts ++ y2 ++ y3 ++ rest) q) as ->.
  { rewrite (app_assoc ts). apply with_view. by rewrite !(length_app _ (y2 ++ y3 ++ rest)), Hlts, L1. }
  rewrite (advance_view p ts _ q _ Hlts). cbn [snd]. rewrite (Htree _ y2) by exact L2.
  rewrite (from_rep_view _ _ Hroot), encode_ntrytes_view by (rewrite Hroot; exact L3).
  by rewrite <- !app_assoc.
Qed.

(** ** The tree in memory *)
Definition tree_indices (d : nat) : list nat :=
  flat_map (fun l => map (mt_idx l) (seqZ 0 (2 ^ Z.of_nat l))) (rev (seq 0 (S d))).

Lemma tree_indices_spec d i : i ∈ tree_indices d <-> exists l j, (l <= d)%nat /\ 0 <= j < 2 ^ Z.of_nat l /\ i = mt_idx l j.
Proof.
  unfold tree_indices. rewrite list_elem_of_In, in_flat_map. split.
  - intros (l & Hl%in_rev & Hi). apply in_seq in Hl. apply in_map_iff in Hi as (j & <- & Hj).
    apply list_elem_of_In, elem_of_seqZ in Hj. exists l, j. split; [lia|]. split; [lia|done].
  - intros (l & j & Hl & Hj & ->). exists l. split; [rewrite <- in_rev; apply in_seq; lia|].
    apply in_map, list_elem_of_In, elem_of_seqZ. lia.
Qed.

Lemma length_seqZ_pow l : length (seqZ 0 (2 ^ Z.of_nat l)) = (2 ^ l)%nat.
Proof. rewrite length_seqZ. rewrite <- (Nat2Z.id (2 ^ l)), Nat2Z.inj_pow. done. Qed.

Lemma length_tree_indices d : length (tree_indices d) = (2 ^ (d + 1) - 1)%nat.
Proof.
  unfold tree_indices. induction d as [|d IH]; [done|]. rewrite seq_S, rev_app_distr. cbn [rev app flat_map].
  rewrite length_app, IH, length_map, length_seqZ_pow. rewrite !Nat.add_1_r, !Nat.pow_succ_r', Nat.add_0_l, Nat.pow_succ_r'.
  pose proof (Nat.pow_nonzero 2 d). lia.
Qed.

Lemma classic_serialize_writes m buffer :
  MssClassic.mss_mt_serialize m buffer = foldl (write_hash (mt m)) buffer (tree_indices (height (MssClassic.common m))).
Proof.
  unfold MssClassic.mss_mt_serialize, tree_indices. rewrite <- foldl_flat_map. apply foldl_ext_in. intros b l _.
  unfold serialize_level. rewrite <- foldl_map_in. reflexivity.
Qed.

Lemma classic_deserialize_reads m buffer :
  MssClassic.mss_mt_deserialize buffer m =
    MssClassic.mk_mss (MssClassic.common m) (foldl read_hash (mt m, buffer) (tree_indices (height (MssClassic.common m)))).1.
Proof.
  unfold MssClassic.mss_mt_deserialize, tree_indices. f_equal. f_equal. rewrite <- foldl_flat_map. apply foldl_ext_in. intros st l _.
  unfold deserialize_level. rewrite <- foldl_map_in. apply foldl_ext_in. intros [mt' b] i _. reflexivity.
Qed.

Definition classic_hashes (m : MssClassic.mam_mss_t) : list Z :=
  concat (map (hash_at (mt m)) (tree_indices (height (MssClassic.common m)))).

Lemma classic_indices k mt : MssClassic.shaped k mt -> indices mt (tree_indices (height k)).
Proof.
  intros Hs. apply List.Forall_forall. intros i (l & j & Hl & Hj & ->)%list_elem_of_In%tree_indices_spec. by apply (idx_in_tree k).
Qed.

Lemma length_classic_hashes m : MssClassic.shaped (MssClassic.common m) (mt m) ->
  length (classic_hashes m) = MssClassic.mss_mt_serialized_size m.
Proof.
  intros Hs. unfold classic_hashes, MssClassic.mss_mt_serialized_size.
  rewrite length_hashes by (first [apply Hs|by apply classic_indices]). rewrite length_tree_indices. lia.
Qed.

Lemma classic_writes m p ys rest q : MssClassic.shaped (MssClassic.common m) (mt m) -> length ys = length (classic_hashes m) ->
  MssClassic.mss_mt_serialize m (view p (ys ++ rest) q) = view (p ++ classic_hashes m) rest q.
Proof.
  intros Hs Hy. rewrite classic_serialize_writes. apply write_hashes; [apply Hs|by apply classic_indices|exact Hy].
Qed.

(** The number of the key is below the bound of the header of a stored tree. *)
Lemma parsed k n ts p q : mss_keys_ok k -> 0 <= n <= MAM_MSS_MAX_SKN (height k) -> skn_trits_of (height k) n ts ->
  mss_parse_skn (view p ts q) = Some (height k, n).
Proof.
  intros Hk Hn Hts. pose proof (max_skn_bound _ (ok_height k Hk)) as Hmax.
  rewrite (parse_skn_view (height k) n) by (first [apply ok_height, Hk|lia|exact Hts]).
  destruct (Z.gtb_spec n (MAM_MSS_MAX_SKN (height k))); [lia|done].
Qed.

Lemma classic_loads m m0 p ts rest q : generated m -> skn (MssClassic.common m) <= MAM_MSS_MAX_SKN (height (MssClassic.common m)) ->
  same_seed (MssClassic.common m) (MssClassic.common m0) -> MssClassic.shaped (MssClassic.common m0) (mt m0) ->
  length (root (MssClassic.common m0)) = MAM_MSS_PK_SIZE ->
  skn_trits_of (height (MssClassic.common m)) (skn (MssClassic.common m)) ts -> length ts = MAM_MSS_SKN_SIZE ->
  let written := ts ++ classic_hashes m ++ root (MssClassic.common m) in
  exists m', MssClassic.mam_mss_deserialize (view p (written ++ rest) q) m0 = (RC_OK, m', view (p ++ written) rest q) /\
    generated m' /\ same_seed (MssClassic.common m) (MssClassic.common m') /\
    skn (MssClassic.common m') = skn (MssClassic.common m).
Proof.
  intros [Hk Hr Hb Hroot] Hle Hseed Hs0 Hr0 Hts Hlts written. set (k := MssClassic.common m) in *.
  pose proof (root_hash k Hk Hroot) as Lr. pose proof (proj1 Hseed) as Eh. pose proof (proj1 Hb) as Hs.
  pose proof (length_classic_hashes m Hs) as Lh. unfold MssClassic.mss_mt_serialized_size in Lh. fold k in Lh.
  unfold written. rewrite <- !app_assoc. unfold MssClassic.mam_mss_deserialize.
  rewrite (advance_view p ts) by exact Hlts. cbv zeta beta iota. rewrite size_view, length_app, Hlts.
  destruct (Nat.ltb_spec (MAM_MSS_SKN_SIZE + length (classic_hashes m ++ root k ++ rest))
    (MAM_MSS_SKN_TREE_DEPTH_SIZE + MAM_MSS_SKN_KEY_NUMBER_SIZE)) as [Hlt|_]; [unfold MAM_MSS_SKN_SIZE in Hlt; lia|].
  rewrite (parsed k (skn k)) by (done || lia). rewrite Eh, Nat.eqb_refl. cbn [negb].
  unfold MssClassic.mss_mt_serialized_size. cbn [MssClassic.common height with_skn]. rewrite <- Eh, <- Lh.
  rewrite size_view, length_app. destruct (Nat.ltb_spec (length (classic_hashes m) + length (root k ++ rest)) (length (classic_hashes m))); [lia|].
  rewrite (advance_view (p ++ ts) (classic_hashes m)) by done. rewrite classic_deserialize_reads.
  cbn [MssClassic.common mt height with_skn]. rewrite <- Eh.
  destruct (read_hashes (mt m) (tree_indices (height k)) (shaped_hashes _ _ Hs) (classic_indices k _ Hs)
    (mt m0) (p ++ ts) [] ((root k ++ rest) ++ q) (shaped_hashes _ _ Hs0)) as (mt' & E & Ha & Hl & Hget).
  { rewrite Eh. by apply classic_indices. }
  rewrite app_nil_r in E. fold k in E. change (concat (map (hash_at (mt m)) (tree_indices (height k)))) with (classic_hashes m) in E.
  rewrite E. cbn [fst root with_skn]. clear E.
  rewrite (from_rep_view _ _ Hr0), decode_ntrytes_view by (by rewrite Lr). rewrite app_nil_l, app_nil_r.
  eexists. split; [by rewrite <- !app_assoc|].
  set (k' := with_root (with_skn (MssClassic.common m0) (skn k)) (root k)).
  assert (same_seed k k') as Hseed' by exact Hseed. split; [|by split].
  split; cbn [MssClassic.common mt].
  - exact (keys_ok_seed _ _ Hseed' Hk).
  - cbn [k' with_root with_skn skn height]. rewrite <- Eh. exact Hr.
  - apply (built_seed k k'); [exact Hseed'|]. split; [split; [rewrite Hl; destruct Hs0 as [-> _]; by rewrite Eh|exact Ha]|].
    intros l i Hli Hi. unfold built_node. specialize (Hget (mt_idx l i)). unfold hash_at in Hget. rewrite Hget.
    rewrite decide_True by (apply tree_indices_spec; exists l, i; split_and!; (lia || done)). by apply (proj2 Hb).
  - cbn [k' with_root with_skn root height]. rewrite Hroot, <- Eh. by apply node_seed.
Qed.

(** ** The traversal

    What every stack is doing depends on the number of the key only. *)
Fixpoint phase_at (d h n : nat) : phase :=
  match n with
  | O => Ready
  | S n => advance_phase d (Z.of_nat n) h (phase_at d h n)
  end.

(** The places of the nodes on the stacks. *)
Definition slots_of (m : MssTraversal.mam_mss_t) (h : nat) : list nat :=
  map (fun i => MAM_MSS_MT_NODES h + i)%nat (seq 0 (s_size (stack_at m h))).
Definition slots (m : MssTraversal.mam_mss_t) : list nat := flat_map (slots_of m) (seq 0 (height (common m))).
Definition levels (m : MssTraversal.mam_mss_t) : list nat := seq 0 (height (common m)).

Definition phase_size (ph : phase) : nat := match ph with Ready => 1 | Work st _ => length st | Spent => 0 end.

Lemma in_phase_size m h s ph : in_phase m h s ph -> s_size (stack_at m h) = phase_size ph /\ (phase_size ph <= h + 1)%nat.
Proof.
  destruct ph as [|st b|]; intros [_ Hp]; cbn [phase_size].
  - split; [by apply Hp|lia].
  - split; [by rewrite (wk_stack _ _ _ _ _ _ Hp)|by apply working_length in Hp].
  - split; [by apply Hp|lia].
Qed.

Lemma slots_spec m p : p ∈ slots m <-> exists h, (h < height (common m))%nat /\ p ∈ slots_of m h.
Proof.
  unfold slots. rewrite list_elem_of_In, in_flat_map. split.
  - intros (h & Hh%in_seq & Hp). exists h. split; [lia|by apply list_elem_of_In].
  - intros (h & Hh & Hp). exists h. split; [apply in_seq; lia|by apply list_elem_of_In].
Qed.

Lemma slots_indices m l : length l = (MAM_MSS_MT_NODES (height (common m)) + 1)%nat ->
  (forall h, (h < height (common m))%nat -> exists s ph, in_phase m h s ph) -> indices l (slots m).
Proof.
  intros Hl Hph. apply List.Forall_forall. intros p (h & Hh & Hp)%list_elem_of_In%slots_spec.
  destruct (Hph h Hh) as (s & ph & Hin). destruct (in_phase_size m h s ph Hin) as [E Hle].
  unfold slots_of in Hp. apply list_elem_of_In, in_map_iff in Hp as (i & <- & Hi%in_seq).
  pose proof (NODES_region _ _ Hh). rewrite Hl. lia.
Qed.

Record paced (m : MssTraversal.mam_mss_t) : Prop := {
  pc_walking : walking m;
  pc_phase : skn (common m) <= MAM_MSS_MAX_SKN (height (common m)) -> forall h, (h < height (common m))%nat ->
    in_phase m h (skn (common m)) (phase_at (height (common m)) h (Z.to_nat (skn (common m))));
  pc_slots : indices (nodes_hashes m) (slots m)
}.

Lemma phases_slots m s ph : shaped m -> (forall h, (h < height (common m))%nat -> in_phase m h s ph) ->
  indices (nodes_hashes m) (slots m).
Proof. intros Sh Hph. apply slots_indices; [apply Sh|]. intros h Hh. eexists _, _. by apply Hph. Qed.

Lemma ready_first m h : (h < height (common m))%nat -> ready m h 0 -> in_phase m h 0 Ready.
Proof.
  intros Hh Hr. cbn [in_phase]. assert (target 0 h = 0) as ->.
  { unfold target. rewrite Z.div_0_l by (pose proof (pow2_pos h); lia). reflexivity. }
  split; [apply pow2_pos|exact Hr].
Qed.

Lemma started_paced k m : started k m -> paced m.
Proof.
  intros (W & _ & E0 & Hr).
  assert (forall h, (h < height (common m))%nat -> in_phase m h 0 Ready) as Hph by (intros h Hh; apply ready_first; [exact Hh|by apply Hr]).
  split; [exact W|rewrite E0; intros _; exact Hph|]. exact (phases_slots m 0 _ (wa_shaped m W) Hph).
Qed.

Lemma paced_next m : paced m -> skn (common m) <= MAM_MSS_MAX_SKN (height (common m)) ->
  exists m', MssTraversal.mam_mss_next m = (true, m') /\ paced m' /\ common m' = with_skn (common m) (skn (common m) + 1).
Proof.
  intros [W P Hsl] Hle. specialize (P Hle). destruct (next_walking m W Hle) as (m' & E & W' & C & Hadv).
  pose proof (wa_skn m W) as Hr. exists m'. split; [exact E|]. split; [|exact C].
  assert (skn (common m) + 1 <= MAM_MSS_MAX_SKN (height (common m)) -> forall h, (h < height (common m))%nat ->
    in_phase m' h (skn (common m) + 1) (phase_at (height (common m)) h (Z.to_nat (skn (common m) + 1)))) as Hph.
  { intros Hle' h Hh. replace (Z.to_nat (skn (common m) + 1)) with (S (Z.to_nat (skn (common m)))) by lia.
    cbn [phase_at]. rewrite Z2Nat.id by lia. by apply Hadv, P. }
  split; [exact W'|rewrite C; exact Hph|].
  destruct (decide (skn (common m) + 1 <= MAM_MSS_MAX_SKN (height (common m)))) as [Hle'|Hgt].
  - apply slots_indices; [apply (sh_hashes m' (wa_shaped m' W'))|]. rewrite C. intros h Hh. eexists _, _. by apply (Hph Hle').
  - unfold MssTraversal.mam_mss_next in E. rewrite remaining_sks_spec in E by exact Hr.
    replace (MAM_MSS_MAX_SKN (height (common m)) + 1 - skn (common m)) with 1 in E by lia. injection E as <-. exact Hsl.
Qed.

#[export] Instance paced_paths : MssPaths MssTraversal.mam_mss_t paced.
Proof.
  split.
  - intros m [W _ _]. by apply paths_keys.
  - intros m [W _ _]. by apply paths_root.
  - intros m p ys q [W _ _]. by apply paths_auth.
  - intros m Hp. pose proof Hp as [W P _]. destruct (paths_next m W) as (_ & H2 & H3). split; [|by split].
    cbn [Mss.mam_mss_next traversal_tree] in *.
    destruct (decide (skn (common m) <= MAM_MSS_MAX_SKN (height (common m)))) as [Hle|Hgt].
    + destruct (paced_next m Hp Hle) as (m' & -> & Hp' & _). exact Hp'.
    + unfold MssTraversal.mam_mss_next. rewrite remaining_sks_spec by apply (wa_skn m W).
      pose proof (wa_skn m W). destruct (Z.eqb_spec (MAM_MSS_MAX_SKN (height (common m)) + 1 - skn (common m)) 0); [done|lia].
Qed.

(** *** The loading of stacks *)
Record skeleton (a b : MssTraversal.mam_mss_t) : Prop := {
  sk_height : height (common a) = height (common b);
  sk_skn : skn (common a) = skn (common b);
  sk_nodes : nodes a = nodes b;
  sk_stacks : stacks a = stacks b
}.

Lemma load_update_skeleton a b h : skeleton a b -> skeleton (mss_mt_load_update a h) (mss_mt_update b h).
Proof.
  intros [E1 E2 E3 E4]. unfold mss_mt_load_update, mss_mt_update, stack_at, node_at. rewrite E1, E3, E4. cbv zeta.
  destruct (negb _ && _); [by split|]. destruct ((1 <? _)%nat && _); [split; cbn; by rewrite ?E3, ?E4|].
  destruct (_ <=? _); split; cbn; by rewrite ?E3, ?E4.
Qed.

Lemma load_build_skeleton a b : skeleton a b -> skeleton (mss_mt_load_build_stacks a) (mss_mt_build_stacks b).
Proof.
  intros Hs. unfold mss_mt_load_build_stacks, mss_mt_build_stacks. rewrite (sk_height _ _ Hs).
  generalize (seq 0 (height (common b))) as hs. intros hs. revert a b Hs.
  induction hs as [|h hs IH]; intros a b Hs; [done|]. cbn [foldl]. by apply IH, load_update_skeleton, load_update_skeleton.
Qed.

Lemma load_refresh_skeleton a b : skeleton a b -> skeleton (mss_mt_load_refresh a) (mss_mt_refresh b).
Proof.
  intros Hs. unfold mss_mt_load_refresh, mss_mt_refresh. rewrite (sk_height _ _ Hs).
  generalize (seq 0 (height (common b))) as hs. intros hs. revert a b Hs.
  induction hs as [|h hs IH]; intros a b Hs; [done|]. cbn [load_refresh_loop refresh_loop]. rewrite (sk_skn _ _ Hs).
  destruct (negb _); [done|]. apply IH. destruct Hs as [E1 E2 E3 E4]. cbn [set_auth common]. split; cbn; by rewrite ?E4.
Qed.

Lemma rewind_skeleton m0 r n : 0 <= n -> paced r -> skn (common r) = 0 -> n <= MAM_MSS_MAX_SKN (height (common r)) ->
  skeleton (mss_mt_rewind m0 0) r ->
  exists r', paced r' /\ common r' = with_skn (common r) n /\ skeleton (mss_mt_rewind m0 n) r'.
Proof.
  intros Hn Hp E0 Hmax Hs. revert n Hn Hmax.
  apply (natlike_ind (fun n => n <= MAM_MSS_MAX_SKN (height (common r)) ->
    exists r', paced r' /\ common r' = with_skn (common r) n /\ skeleton (mss_mt_rewind m0 n) r')).
  - intros _. exists r. split; [exact Hp|]. split; [|exact Hs]. rewrite <- E0. by destruct (common r).
  - intros n Hn IH Hmax. destruct (IH ltac:(lia)) as (r1 & P1 & C1 & S1).
    destruct (paced_next r1 P1) as (r2 & E & P2 & C2); [rewrite C1; cbn; lia|].
    exists r2. split; [exact P2|]. rewrite C1 in C2. split; [exact C2|].
    assert (mss_mt_rewind m0 (Z.succ n) = bump_skn (mss_mt_load_build_stacks (mss_mt_load_refresh (mss_mt_rewind m0 n)))) as ->.
    { unfold mss_mt_rewind, Z.succ. rewrite seqZ_app by lia. change (seqZ (0 + n) 1) with [0 + n].
      by rewrite foldl_app. }
    unfold MssTraversal.mam_mss_next in E. rewrite remaining_sks_spec, C1 in E by apply (wa_skn r1 (pc_walking r1 P1)). cbn [height skn with_skn] in E.
    destruct (Z.eqb_spec (MAM_MSS_MAX_SKN (height (common r)) + 1 - n) 0); [lia|].
    destruct (Z.eqb_spec (MAM_MSS_MAX_SKN (height (common r)) + 1 - n) 1); [lia|]. injection E as <-.
    destruct (load_build_skeleton _ _ (load_refresh_skeleton _ _ S1)) as [E1 E2 E3 E4].
    split; cbn; [exact E1|by rewrite E2|exact E3|exact E4].
Qed.

(** Loading leaves the hashes alone. *)
Record untouched (m m' : MssTraversal.mam_mss_t) : Prop := {
  un_auth : auth_path m' = auth_path m;
  un_hashes : nodes_hashes m' = nodes_hashes m;
  un_seed : same_seed (common m) (common m');
  un_root : root (common m') = root (common m)
}.

Lemma untouched_refl m : untouched m m.
Proof. by split. Qed.

Lemma untouched_trans m1 m2 m3 : untouched m1 m2 -> untouched m2 m3 -> untouched m1 m3.
Proof.
  intros [A1 H1 (S1 & S2 & S3 & S4 & S5 & S6) R1] [A2 H2 (T1 & T2 & T3 & T4 & T5 & T6) R2].
  split; [congruence|congruence| |congruence]. split_and!; congruence.
Qed.

Lemma untouched_foldl {A} (f : MssTraversal.mam_mss_t -> A -> MssTraversal.mam_mss_t) xs :
  (forall m x, untouched m (f m x)) -> forall m, untouched m (foldl f m xs).
Proof.
  intros Hf. induction xs as [|x xs IH]; intros m; [apply untouched_refl|]. cbn [foldl].
  exact (untouched_trans _ _ _ (Hf m x) (IH _)).
Qed.

Lemma load_update_untouched m h : untouched m (mss_mt_load_update m h).
Proof. unfold mss_mt_load_update. cbv zeta. repeat match goal with |- context [if ?b then _ else _] => destruct b end; by split. Qed.

Lemma load_refresh_untouched m : untouched m (mss_mt_load_refresh m).
Proof.
  unfold mss_mt_load_refresh. generalize (seq 0 (height (common m))) as hs. intros hs. revert m.
  induction hs as [|h hs IH]; intros m; [apply untouched_refl|]. cbn [load_refresh_loop]. destruct (negb _); [apply untouched_refl|].
  eapply untouched_trans; [|apply IH]. by split.
Qed.

Lemma rewind_untouched m n : untouched m (mss_mt_rewind m n).
Proof.
  unfold mss_mt_rewind. cbv zeta. set (m1 := foldl _ m (seq 0 (height (common m)))).
  assert (untouched m m1) as H1 by (apply untouched_foldl; intros m' h; by split).
  set (m2 := if (0 <? height (common m))%nat then _ else _).
  assert (untouched m1 m2) as H2 by (unfold m2; destruct (0 <? height (common m))%nat; by split).
  apply (untouched_trans m (with_common m2 (with_skn (common m2) 0))).
  { apply (untouched_trans _ _ _ H1), (untouched_trans _ _ _ H2). by split. }
  apply untouched_foldl. intros m3 _. apply (untouched_trans _ _ _ (load_refresh_untouched m3)).
  apply (untouched_trans _ (mss_mt_load_build_stacks (mss_mt_load_refresh m3))); [|by split].
  apply untouched_foldl. intros m4 h. eapply untouched_trans; apply load_update_untouched.
Qed.

(** The start of the rewinding: a node on every stack. *)
Lemma rewind_start m : shaped m ->
  let a := mss_mt_rewind m 0 in
  skn (common a) = 0 /\ length (nodes a) = length (nodes m) /\ length (stacks a) = length (stacks m) /\
  forall h, (h < height (common m))%nat -> stack_at a h = mk_stack h 0 1 /\ (h <= n_height (node_at a (MAM_MSS_MT_NODES h)))%nat.
Proof.
  intros Sh. set (f := fun (m : MssTraversal.mam_mss_t) (h : nat) =>
    set_mt_node (set_stack m h (mk_stack h 0 1)) (MAM_MSS_MT_NODES h) (mk_node h 0)).
  set (H := height (common m)).
  assert (forall n, (n <= H)%nat -> let a := foldl f m (seq 0 n) in
    length (nodes a) = length (nodes m) /\ length (stacks a) = length (stacks m) /\
    forall h, (h < n)%nat -> stack_at a h = mk_stack h 0 1 /\ node_at a (MAM_MSS_MT_NODES h) = mk_node h 0) as Hn.
  { induction n as [|n IH]; intros Hn; [split; [done|split; [done|lia]]|].
    destruct (IH ltac:(lia)) as (L1 & L2 & E). rewrite seq_S, foldl_app. cbn [foldl Nat.add]. set (a := foldl f m (seq 0 n)) in *.
    unfold f. cbn [set_mt_node set_stack nodes stacks]. rewrite !length_insert. split; [done|]. split; [done|].
    pose proof (NODES_region n H ltac:(lia)) as Hreg.
    intros h Hh. unfold stack_at, node_at. cbn [nodes stacks set_mt_node set_stack]. destruct (decide (h = n)) as [->|Hne].
    - rewrite !nth_insert_eq; [done|rewrite L1, (sh_nodes m Sh); fold H; lia|rewrite L2, (sh_stacks m Sh); fold H; lia].
    - destruct (E h ltac:(lia)) as [E1 E2]. rewrite !nth_insert_ne; [done|destruct (levels_apart h n Hne); lia|done]. }
  destruct (Hn H (le_n _)) as (L1 & L2 & E). set (a0 := foldl f m (seq 0 H)) in *.
  intros a. assert (a = with_common (if (0 <? H)%nat then
      let i := MAM_MSS_MT_NODES (H - 1) in
      set_mt_node a0 i (mk_node (n_height (node_at a0 i) + 1) (n_level_idx (node_at a0 i))) else a0)
    (with_skn (common (if (0 <? H)%nat then
      let i := MAM_MSS_MT_NODES (H - 1) in
      set_mt_node a0 i (mk_node (n_height (node_at a0 i) + 1) (n_level_idx (node_at a0 i))) else a0)) 0)) as -> by reflexivity.
  destruct (Nat.ltb_spec 0 H) as [Hpos|Hz]; cbv zeta; cbn [with_common common nodes stacks set_mt_node skn with_skn].
  - rewrite length_insert. split; [done|]. split; [done|]. split; [done|]. intros h Hh. destruct (E h Hh) as [E1 E2].
    split; [exact E1|]. unfold node_at. cbn [nodes with_common set_mt_node]. destruct (decide (h = H - 1)%nat) as [->|Hne].
    + pose proof (NODES_region (H - 1) H ltac:(lia)) as Hreg.
      rewrite nth_insert_eq by (rewrite L1, (sh_nodes m Sh); fold H; lia). cbn [n_height]. fold (node_at a0 (MAM_MSS_MT_NODES (H - 1))).
      rewrite E2. cbn [n_height]. lia.
    + rewrite nth_insert_ne by (destruct (levels_apart h (H - 1) Hne); lia). fold (node_at a0 (MAM_MSS_MT_NODES h)). by rewrite E2.
  - split; [done|]. split; [done|]. split; [done|]. intros h Hh. lia.
Qed.

(** The first two nodes of a level below the root. *)
Lemma low_node k h i : mss_keys_ok k -> (h < height k)%nat -> 0 <= i <= 1 ->
  length (mss_node k h i) = MAM_MSS_MT_HASH_SIZE /\ trits_ok (mss_node k h i).
Proof.
  intros Hk Hh Hi. apply node_ok; [done|lia|]. pose proof (max_skn_bound _ (ok_height k Hk)) as Hmax. unfold MAM_MSS_MAX_SKN in Hmax.
  assert (2 ^ Z.of_nat (S h) <= 2 ^ Z.of_nat (height k)) by (apply Z.pow_le_mono_r; lia). rewrite pow2_S in *.
  pose proof (pow2_pos h). nia.
Qed.

Lemma first_nodes k : mss_keys_ok k -> forall n, (n <= height k)%nat ->
  exists hs, length hs = (MAM_MSS_MT_NODES (height k) + 1)%nat /\ all_hashes hs /\
    forall h, (h < n)%nat -> nth (MAM_MSS_MT_NODES h) hs [] = mss_node k h 0.
Proof.
  intros Hk. induction n as [|n IH]; intros Hn.
  - exists (replicate (MAM_MSS_MT_NODES (height k) + 1) no_hash). split; [apply length_replicate|]. split; [apply no_hashes|lia].
  - destruct (IH ltac:(lia)) as (hs & L & A & E). exists (<[MAM_MSS_MT_NODES n := mss_node k n 0]> hs).
    rewrite length_insert. split; [exact L|]. pose proof (NODES_region n (height k) ltac:(lia)).
    destruct (low_node k n 0 Hk ltac:(lia) ltac:(lia)) as [Ln _].
    split; [by apply Forall_insert|]. intros h Hh. destruct (decide (h = n)) as [->|Hne].
    + apply nth_insert_eq. lia.
    + rewrite nth_insert_ne by (destruct (levels_apart h n Hne); lia). apply E. lia.
Qed.

(** It is the start of a real walk, for some hashes. *)
Lemma rewind_base m0 : mss_keys_ok (common m0) -> shaped m0 ->
  exists r, paced r /\ skn (common r) = 0 /\ same_seed (common m0) (common r) /\ skeleton (mss_mt_rewind m0 0) r.
Proof.
  intros Hk Sh. destruct (rewind_start m0 Sh) as (E0 & L1 & L2 & Hst). set (a := mss_mt_rewind m0 0) in *.
  destruct (rewind_untouched m0 0) as [_ _ Hseed _]. fold a in Hseed. set (k := common m0) in *. set (H := height k) in *.
  destruct (first_nodes k Hk H (le_n _)) as (hs & Lh & Ah & Eh).
  set (k' := with_root (with_skn k 0) (mss_node k H 0)). assert (same_seed k k') as Hseed' by done.
  set (r := MssTraversal.mk_mss k' (map (fun h => mss_node k h 1) (seq 0 H)) hs (nodes a) (stacks a)).
  assert (forall h, (h < H)%nat -> ready r h 0) as Hready.
  { intros h Hh. destruct (Hst h Hh) as [S1 S2]. assert (stack_at r h = mk_stack h 0 1) as S1' by exact S1.
    split; rewrite ?S1'; [done|done|exact S2|]. cbn [r nodes_hashes common]. rewrite <- (node_seed _ _ _ Hseed'). by apply Eh. }
  assert (forall h, (h < H)%nat -> in_phase r h 0 Ready) as Hph by (intros h Hh; apply ready_first; [exact Hh|by apply Hready]).
  exists r. split; [|split; [done|split; [exact Hseed'|]]].
  2: { split; cbn [r common nodes stacks]; [symmetry; apply Hseed|exact E0|done|done]. }
  assert (0 <= MAM_MSS_MAX_SKN H) as Hmax by (unfold MAM_MSS_MAX_SKN; pose proof (pow2_pos H); lia).
  assert (walking r) as W.
  { split; cbn [r common k' with_root with_skn height skn root].
    - exact (keys_ok_seed _ _ Hseed' Hk).
    - fold H. lia.
    - split; cbn [r common k' with_root with_skn height auth_path nodes_hashes nodes stacks]; fold H.
      + by rewrite length_map, length_seq.
      + apply List.Forall_map, List.Forall_forall. intros h Hh%in_seq. apply low_node; [done|fold H; lia|lia].
      + exact Lh.
      + exact Ah.
      + rewrite L1. apply (sh_nodes m0 Sh).
      + rewrite L2. apply (sh_stacks m0 Sh).
    - fold H k'. by apply node_seed.
    - intros _ h Hh. fold H in Hh. split.
      + unfold path_ok. cbn [r auth_path common]. rewrite Z.div_0_l by (pose proof (pow2_pos h); lia). change (sibling 0) with 1.
        rewrite <- (node_seed _ _ _ Hseed'). rewrite (nth_indep _ [] (mss_node k 0 1)) by (by rewrite length_map, length_seq).
        rewrite (map_nth (fun h => mss_node k h 1)). by rewrite seq_nth.
      + apply stack_ok_phase. exists Ready. split; [by apply Hph|done]. }
  split; [exact W|intros _; exact Hph|]. exact (phases_slots r 0 _ (wa_shaped r W) Hph).
Qed.

(** *** Hashes of the stacks *)
Definition traversal_hashes (m : MssTraversal.mam_mss_t) : list Z :=
  concat (map (hash_at (auth_path m)) (levels m)) ++ concat (map (hash_at (nodes_hashes m)) (slots m)).

Lemma traversal_serialize_writes m buffer : MssTraversal.mss_mt_serialize m buffer =
  foldl (write_hash (nodes_hashes m)) (foldl (write_hash (auth_path m)) buffer (levels m)) (slots m).
Proof.
  unfold MssTraversal.mss_mt_serialize, slots, levels. cbv zeta. rewrite <- foldl_flat_map. apply foldl_ext_in. intros b h _.
  unfold serialize_stack, slots_of. by rewrite <- foldl_map_in.
Qed.

Lemma load_auth_reads hs : forall m buffer, foldl load_auth (m, buffer) hs =
  let '(l, buffer') := foldl read_hash (auth_path m, buffer) hs in
  (MssTraversal.mk_mss (common m) l (nodes_hashes m) (nodes m) (stacks m), buffer').
Proof.
  induction hs as [|h hs IH]; intros m buffer; [by destruct m|]. cbn [foldl]. unfold load_auth at 2. rewrite IH. reflexivity.
Qed.

Lemma load_stack_reads m buffer h : load_stack (m, buffer) h =
  let '(l, buffer') := foldl read_hash (nodes_hashes m, buffer) (slots_of m h) in
  (MssTraversal.mk_mss (common m) (auth_path m) l (nodes m) (stacks m), buffer').
Proof.
  unfold load_stack, slots_of. cbn [fst]. generalize (seq 0 (s_size (stack_at m h))) as js. intros js. revert m buffer.
  induction js as [|j js IH]; intros m buffer; [by destruct m|]. cbn [foldl map]. rewrite IH. reflexivity.
Qed.

Lemma load_stacks_reads hs : forall m buffer, foldl load_stack (m, buffer) hs =
  let '(l, buffer') := foldl read_hash (nodes_hashes m, buffer) (flat_map (slots_of m) hs) in
  (MssTraversal.mk_mss (common m) (auth_path m) l (nodes m) (stacks m), buffer').
Proof.
  induction hs as [|h hs IH]; intros m buffer; [by destruct m|]. cbn [foldl flat_map]. rewrite foldl_app, load_stack_reads.
  destruct (foldl read_hash (nodes_hashes m, buffer) (slots_of m h)) as [l b]. rewrite IH. reflexivity.
Qed.

Lemma traversal_deserialize_reads m buffer : MssTraversal.mss_mt_deserialize buffer m =
  let '(auth, buffer) := foldl read_hash (auth_path m, buffer) (levels m) in
  MssTraversal.mk_mss (common m) auth (foldl read_hash (nodes_hashes m, buffer) (slots m)).1 (nodes m) (stacks m).
Proof.
  unfold MssTraversal.mss_mt_deserialize, slots. rewrite load_auth_reads. fold (levels m).
  destruct (foldl read_hash (auth_path m, buffer) (levels m)) as [auth b]. cbn [fst]. rewrite load_stacks_reads.
  cbn [auth_path nodes_hashes nodes stacks common].
  assert (flat_map (slots_of (MssTraversal.mk_mss (common m) auth (nodes_hashes m) (nodes m) (stacks m))) (levels m) =
    flat_map (slots_of m) (levels m)) as -> by reflexivity.
  by destruct (foldl read_hash (nodes_hashes m, b) _).
Qed.

Lemma foldl_sum {A} (f : A -> nat) xs n : foldl (fun n x => n + f x)%nat n xs = (n + foldl (fun n x => n + f x)%nat 0%nat xs)%nat.
Proof.
  revert n. induction xs as [|x xs IH]; intros n; [cbn; lia|]. cbn [foldl]. rewrite IH, (IH (0 + f x)%nat). lia.
Qed.

Lemma traversal_size m : MssTraversal.mss_mt_serialized_size m =
  (MAM_MSS_MT_HASH_SIZE * (length (levels m) + length (slots m)))%nat.
Proof.
  unfold MssTraversal.mss_mt_serialized_size, slots, levels. rewrite foldl_sum, length_seq.
  assert (forall hs, foldl (fun size h => size + s_size (stack_at m h) * MAM_MSS_MT_HASH_SIZE)%nat 0%nat hs =
    (MAM_MSS_MT_HASH_SIZE * length (flat_map (slots_of m) hs))%nat) as E; [|rewrite E; lia].
  induction hs as [|h hs IH]; [cbn; lia|]. cbn [foldl flat_map]. rewrite foldl_sum, IH, length_app.
  unfold slots_of at 2. rewrite length_map, length_seq. lia.
Qed.

(** *** What is loaded *)
(** The shape of one tree and the hashes of the other. *)
Lemma in_phase_mixed m r m' h s ph : same_seed (common m) (common m') -> height (common r) = height (common m) -> in_phase r h s ph -> in_phase m h s ph ->
  stack_at m' h = stack_at r h -> (forall p, node_at m' p = node_at r p) ->
  (forall p, p ∈ slots_of m h -> hash_at (nodes_hashes m') p = hash_at (nodes_hashes m) p) -> in_phase m' h s ph.
Proof.
  intros Hseed Hht Hr Hm Es En Eh. destruct (in_phase_size m h s ph Hm) as [Hsz _].
  assert (forall i, (i < phase_size ph)%nat -> nth (MAM_MSS_MT_NODES h + i) (nodes_hashes m') [] = nth (MAM_MSS_MT_NODES h + i) (nodes_hashes m) []) as Eh'.
  { intros i Hi. apply Eh. unfold slots_of. apply list_elem_of_In, in_map_iff. exists i. split; [done|]. apply in_seq. lia. }
  destruct ph as [|st b|]; cbn [in_phase phase_size] in *; rewrite <- (proj1 Hseed); destruct Hm as [Ht Hm], Hr as [_ Hr]; (split; [exact Ht|]).
  - destruct Hr as [R1 R2 R3 _]. split; rewrite ?Es, ?En; try assumption. specialize (Eh' 0%nat ltac:(lia)). rewrite Nat.add_0_r in Eh'.
    rewrite Eh', <- (node_seed _ _ _ Hseed). apply Hm.
  - destruct Hr as [W1 W2 W3], Hm as [_ _ V3]. split; [by rewrite Es|exact W2|].
    clear W1 W2 Hsz. induction st as [|x st IH]; [done|]. cbn [rep length] in *. destruct W3 as [[N1 _] W3], V3 as [[_ H1] V3].
    split; [split; [by rewrite En|]|apply IH; [exact W3|exact V3|intros i Hi; apply Eh'; lia]].
    rewrite Eh' by lia. by rewrite H1, <- (node_seed _ _ _ Hseed).
  - destruct Hr as [R1 R2]. unfold spent. rewrite Es, <- (proj1 Hseed), <- Hht. by split.
Qed.

(** A stack is in one phase. *)
Lemma enough_unique m h s ph ph' L u : in_phase m h s ph -> in_phase m h s ph' -> enough L u ph -> enough L u ph'.
Proof.
  intros H1 H2 Hu. destruct ph' as [|st' b'|]; [done| |done].
  assert (ph = Work st' b') as ->; [|exact Hu]. destruct H2 as [Ht [W1 W2 W3]].
  destruct ph as [|st b|]; destruct H1 as [Ht1 Hp]; [exfalso| |done].
  - destruct Hp as [_ R2 R3 _]. rewrite W1 in R2. cbn [s_size] in R2. destruct st' as [|x [|y st']]; [done| |done].
    cbn [rep length] in W3. rewrite Nat.add_0_r in W3. destruct W3 as [[En _] _]. rewrite En in R3. cbn [n_height] in R3.
    pose proof (bu_below _ _ _ _ W2) as Hb. apply Forall_cons_iff in Hb as [Hb _]. lia.
  - destruct Hp as [V1 _ V3]. rewrite W1 in V1. injection V1 as <- Hl. f_equal. clear - V3 W3 Hl. revert st' W3 Hl.
    induction st as [|x st IH]; intros [|x' st'] W3 Hl; [done|done|done|]. cbn [length] in Hl. injection Hl as Hl.
    cbn [rep] in V3, W3. destruct V3 as [[N1 _] V3], W3 as [[N2 _] W3]. rewrite Hl, N1 in N2. injection N2 as E1 E2.
    rewrite (IH V3 st' W3 Hl). f_equal. destruct x, x'. cbn in *. by subst.
Qed.

Lemma levels_indices m l : length l = height (common m) -> indices l (levels m).
Proof. intros Hl. apply List.Forall_forall. intros h Hh%in_seq. lia. Qed.

Lemma length_traversal_hashes m : shaped m -> indices (nodes_hashes m) (slots m) ->
  length (traversal_hashes m) = MssTraversal.mss_mt_serialized_size m.
Proof.
  intros Sh Hi. unfold traversal_hashes. rewrite length_app, !length_hashes, traversal_size; [lia|apply Sh|exact Hi|apply Sh|].
  apply levels_indices, Sh.
Qed.

Lemma traversal_writes m p ys rest q : shaped m -> indices (nodes_hashes m) (slots m) -> length ys = length (traversal_hashes m) ->
  MssTraversal.mss_mt_serialize m (view p (ys ++ rest) q) = view (p ++ traversal_hashes m) rest q.
Proof.
  intros Sh Hi Hy. unfold traversal_hashes in *. rewrite length_app in Hy. rewrite traversal_serialize_writes.
  set (n := length (concat (map (hash_at (auth_path m)) (levels m)))) in *.
  rewrite <- (take_drop n ys), <- app_assoc.
  rewrite write_hashes; [|apply Sh|apply levels_indices, Sh|rewrite length_take; fold n; lia].
  rewrite write_hashes; [by rewrite <- app_assoc|apply Sh|exact Hi|rewrite length_drop; lia].
Qed.

(** The shape that is computed again is the shape of the tree that was written. *)
Lemma rewound m m0 : paced m -> skn (common m) <= MAM_MSS_MAX_SKN (height (common m)) ->
  same_seed (common m) (common m0) -> shaped m0 ->
  exists r, paced r /\ skn (common r) = skn (common m) /\ same_seed (common m) (common r) /\
    let a := mss_mt_rewind m0 (skn (common m)) in
    skeleton a r /\ untouched m0 a /\ levels a = levels m /\ slots a = slots m.
Proof.
  intros [W P _] Hle Hseed Sh. pose proof (wa_skn m W) as Hr. pose proof (proj1 Hseed) as Eh.
  destruct (rewind_base m0 (keys_ok_seed _ _ Hseed (wa_keys m W)) Sh) as (r0 & P0 & Z0 & S0 & K0).
  destruct (rewind_skeleton m0 r0 (skn (common m)) ltac:(lia) P0 Z0) as (r & Pr & Cr & Kr);
    [rewrite <- (proj1 S0), <- Eh; exact Hle|exact K0|].
  assert (same_seed (common m) (common r)) as Hsr.
  { rewrite Cr. destruct Hseed as (A1 & A2 & A3 & A4 & A5 & A6), S0 as (B1 & B2 & B3 & B4 & B5 & B6). split_and!; cbn; congruence. }
  exists r. split; [exact Pr|]. split; [by rewrite Cr|]. split; [exact Hsr|].
  pose proof (rewind_untouched m0 (skn (common m))) as Hun. set (a := mss_mt_rewind m0 (skn (common m))) in *. cbv zeta.
  split; [exact Kr|]. split; [exact Hun|].
  assert (height (common a) = height (common m)) as Ea by (by rewrite (sk_height _ _ Kr), <- (proj1 Hsr)).
  split; [unfold levels; by rewrite Ea|]. unfold slots. rewrite Ea. rewrite !flat_map_concat_map. f_equal. apply List.map_ext_in.
  intros h Hh%in_seq. unfold slots_of. do 2 f_equal. unfold stack_at at 1. rewrite (sk_stacks _ _ Kr). fold (stack_at r h).
  destruct Pr as [Wr Prr _]. rewrite Cr in Prr. cbn [skn height with_skn] in Prr.
  assert (height (common r0) = height (common m)) as Er0 by (by rewrite <- (proj1 S0), <- Eh). rewrite Er0 in Prr.
  destruct (in_phase_size r h _ _ (Prr Hle h ltac:(lia))) as [E1 _].
  destruct (in_phase_size m h _ _ (P Hle h ltac:(lia))) as [E2 _]. by rewrite E1, E2.
Qed.

Lemma loaded_paced m r m' : paced m -> paced r -> skn (common m) <= MAM_MSS_MAX_SKN (height (common m)) ->
  skn (common r) = skn (common m) -> same_seed (common m) (common r) ->
  same_seed (common m) (common m') -> skn (common m') = skn (common m) -> root (common m') = root (common m) ->
  nodes m' = nodes r -> stacks m' = stacks r ->
  all_hashes (auth_path m') -> length (auth_path m') = height (common m) ->
  all_hashes (nodes_hashes m') -> length (nodes_hashes m') = (MAM_MSS_MT_NODES (height (common m)) + 1)%nat ->
  (forall h, (h < height (common m))%nat -> hash_at (auth_path m') h = hash_at (auth_path m) h) ->
  (forall p, p ∈ slots m -> hash_at (nodes_hashes m') p = hash_at (nodes_hashes m) p) ->
  paced m'.
Proof.
  intros [W P Hsl] [Wr Pr _] Hle Esk Hsr Hseed Es Eroot En Est Aa La Ah Lh Hauth Hslots.
  pose proof (wa_shaped r Wr) as Shr. rewrite Esk, <- (proj1 Hsr) in Pr. specialize (P Hle). specialize (Pr Hle).
  assert (forall h, (h < height (common m))%nat ->
    in_phase m' h (skn (common m)) (phase_at (height (common m)) h (Z.to_nat (skn (common m))))) as Hph.
  { intros h Hh. apply (in_phase_mixed m r); [exact Hseed|symmetry; apply Hsr|by apply Pr|by apply P| | |].
    - unfold stack_at. by rewrite Est.
    - intros p. unfold node_at. by rewrite En.
    - intros p Hp. apply Hslots, slots_spec. by exists h. }
  split; [split| |]; rewrite ?Es, <- ?(proj1 Hseed).
  - exact (keys_ok_seed _ _ Hseed (wa_keys m W)).
  - exact (wa_skn m W).
  - split; rewrite <- ?(proj1 Hseed); try assumption.
    + rewrite En, (sh_nodes r Shr). by rewrite <- (proj1 Hsr).
    + rewrite Est, (sh_stacks r Shr). by rewrite <- (proj1 Hsr).
  - rewrite Eroot, (wa_root m W). by apply node_seed.
  - intros _ h Hh. destruct (wa_levels m W Hle h Hh) as [Hp Hst]. split.
    + unfold path_ok in *. specialize (Hauth h Hh). unfold hash_at in Hauth. rewrite Hauth, Hp. by apply node_seed.
    + destruct (proj1 (stack_ok_phase _ _ _ _) Hst) as (ph & Hin & Hu). apply stack_ok_phase.
      eexists. split; [by apply Hph|]. eapply enough_unique; [exact Hin|by apply P|exact Hu].
  - intros _. exact Hph.
  - apply slots_indices; [by rewrite Lh, (proj1 Hseed)|]. rewrite <- (proj1 Hseed). intros h Hh. eexists _, _. by apply Hph.
Qed.

Lemma traversal_loads m m0 p ts rest q : paced m -> skn (common m) <= MAM_MSS_MAX_SKN (height (common m)) ->
  same_seed (common m) (common m0) -> shaped m0 -> length (root (common m0)) = MAM_MSS_PK_SIZE ->
  skn_trits_of (height (common m)) (skn (common m)) ts -> length ts = MAM_MSS_SKN_SIZE ->
  let written := ts ++ traversal_hashes m ++ root (common m) in
  exists m', MssTraversal.mam_mss_deserialize (view p (written ++ rest) q) m0 = (RC_OK, m', view (p ++ written) rest q) /\
    paced m' /\ same_seed (common m) (common m') /\ skn (common m') = skn (common m).
Proof.
  intros Hp Hle Hseed Sh0 Hr0 Hts Hlts written. pose proof Hp as [W Pph _]. pose proof (wa_keys m W) as Hk.
  destruct (rewound m m0 Hp Hle Hseed Sh0) as (r & Pr & Esk & Hsr & Kr & [U1 U2 U3 U4] & El & Esl).
  set (a := mss_mt_rewind m0 (skn (common m))) in *. set (k := common m) in *.
  pose proof (root_hash k Hk (wa_root m W)) as Lr. pose proof (proj1 Hseed) as Eh. pose proof (wa_shaped m W) as Sh.
  assert (forall l, length l = (MAM_MSS_MT_NODES (height k) + 1)%nat -> indices l (slots m)) as Hslots
    by (intros l Hl; apply slots_indices; [exact Hl|intros h Hh; eexists _, _; by apply (Pph Hle)]).
  pose proof (length_traversal_hashes m Sh (Hslots _ (sh_hashes m Sh))) as Lh. rewrite traversal_size in Lh.
  unfold written. rewrite <- !app_assoc. unfold MssTraversal.mam_mss_deserialize.
  rewrite (advance_view p ts) by exact Hlts. cbv zeta beta iota. rewrite size_view, length_app, Hlts.
  destruct (Nat.ltb_spec (MAM_MSS_SKN_SIZE + length (traversal_hashes m ++ root k ++ rest))
    (MAM_MSS_SKN_TREE_DEPTH_SIZE + MAM_MSS_SKN_KEY_NUMBER_SIZE)) as [Hlt|_]; [unfold MAM_MSS_SKN_SIZE in Hlt; lia|].
  pose proof (wa_skn m W) as Hr. fold k in Hr. rewrite (parsed k (skn k)) by (first [exact Hk|exact Hts|lia]).
  rewrite Eh, Nat.eqb_refl. cbn [negb]. fold a. rewrite traversal_size, El, Esl, <- Lh.
  rewrite size_view, length_app. destruct (Nat.ltb_spec (length (traversal_hashes m) + length (root k ++ rest)) (length (traversal_hashes m))); [lia|].
  rewrite (advance_view (p ++ ts) (traversal_hashes m)) by done. rewrite traversal_deserialize_reads, El, Esl, U1, U2.
  destruct (read_hashes (auth_path m) (levels m) (sh_auth_hashes m Sh) (levels_indices m _ (sh_auth m Sh)) (auth_path m0) (p ++ ts)
    (concat (map (hash_at (nodes_hashes m)) (slots m))) ((root k ++ rest) ++ q) (sh_auth_hashes m0 Sh0)) as (l1 & E1 & A1 & L1 & G1).
  { apply levels_indices. rewrite (sh_auth m0 Sh0). by rewrite <- Eh. }
  destruct (read_hashes (nodes_hashes m) (slots m) (sh_nodes_hashes m Sh) (Hslots _ (sh_hashes m Sh)) (nodes_hashes m0)
    ((p ++ ts) ++ concat (map (hash_at (auth_path m)) (levels m))) [] ((root k ++ rest) ++ q) (sh_nodes_hashes m0 Sh0)) as (l2 & E2 & A2 & L2 & G2).
  { apply Hslots. rewrite (sh_hashes m0 Sh0). by rewrite <- Eh. }
  fold (traversal_hashes m) in E1. rewrite app_nil_r in E2. rewrite E1, E2. cbn [fst common]. clear E1 E2. rewrite U4.
  rewrite (from_rep_view _ _ Hr0), decode_ntrytes_view by (by rewrite Lr). rewrite app_nil_l, app_nil_r.
  eexists. split; [by rewrite <- !app_assoc|].
  assert (same_seed k (with_root (common a) (root k))) as Hseed'.
  { destruct Hseed as (S1 & S2 & S3 & S4 & S5 & S6), U3 as (V1 & V2 & V3 & V4 & V5 & V6). split_and!; cbn; congruence. }
  assert (skn (common a) = skn k) as Ea by (by rewrite (sk_skn _ _ Kr)).
  split; [|split; [exact Hseed'|exact Ea]].
  apply (loaded_paced m r); try assumption; cbn [common nodes stacks auth_path nodes_hashes with_common].
  - done.
  - apply (sk_nodes _ _ Kr).
  - apply (sk_stacks _ _ Kr).
  - rewrite L1, (sh_auth m0 Sh0). by rewrite <- Eh.
  - rewrite L2, (sh_hashes m0 Sh0). by rewrite <- Eh.
  - intros h Hh. rewrite G1, decide_True by (unfold levels; apply list_elem_of_In, in_seq; fold k; split; [lia|exact Hh]). done.
  - intros x Hx. rewrite G2. by rewrite decide_True.
Qed.

(** ** A tree that is saved and loaded *)
Definition saved {M} `{MssTree M} (m : M) : list Z := t_p (mam_mss_serialize m (memory (mam_mss_serialized_size m))).
Definition load_traversal (mem : list Z) (blank : MssTraversal.mam_mss_t) : retcode_t * MssTraversal.mam_mss_t * trits_t :=
  MssTraversal.mam_mss_deserialize (trits_from_rep (length mem) mem) blank.
Definition load_classic (mem : list Z) (blank : MssClassic.mam_mss_t) : retcode_t * MssClassic.mam_mss_t * trits_t :=
  MssClassic.mam_mss_deserialize (trits_from_rep (length mem) mem) blank.

Lemma saved_view {M inv} `{MssPaths M inv} (m : M) (tree : list Z) : inv m ->
  length tree = Mss.mss_mt_serialized_size m ->
  (forall p ys rest q, length ys = length tree ->
     Mss.mss_mt_serialize m (view p (ys ++ rest) q) = view (p ++ tree) rest q) ->
  exists ts, skn_trits_of (height (keys m)) (skn (keys m)) ts /\ length ts = MAM_MSS_SKN_SIZE /\
    saved m = ts ++ tree ++ root (keys m).
Proof.
  intros Hi Hl Htree. destruct (serialize_view m tree Hi Htree) as (ts & Hts & Hlts & Hser).
  exists ts. split; [exact Hts|]. split; [exact Hlts|]. unfold saved. rewrite memory_view.
  rewrite <- (app_nil_r (replicate _ 0)). rewrite Hser; [by rewrite mem_view, !app_nil_r|].
  rewrite length_replicate. unfold mam_mss_serialized_size. by rewrite Hl.
Qed.

Lemma traversal_saved m : paced m ->
  exists ts, skn_trits_of (height (common m)) (skn (common m)) ts /\ length ts = MAM_MSS_SKN_SIZE /\
    saved m = ts ++ traversal_hashes m ++ root (common m).
Proof.
  intros Hp. pose proof (wa_shaped m (pc_walking m Hp)) as Sh.
  refine (saved_view m (traversal_hashes m) Hp _ _).
  - apply length_traversal_hashes; [exact Sh|apply Hp].
  - intros p ys rest q Hy. apply traversal_writes; [exact Sh|apply Hp|exact Hy].
Qed.

Lemma classic_saved m : generated m ->
  exists ts, skn_trits_of (height (keys m)) (skn (keys m)) ts /\ length ts = MAM_MSS_SKN_SIZE /\
    saved m = ts ++ classic_hashes m ++ root (keys m).
Proof.
  intros G. pose proof (proj1 (gen_built m G)) as Hs.
  apply (saved_view m (classic_hashes m) G); [by apply length_classic_hashes|].
  intros p ys rest q Hy. by apply classic_writes.
Qed.

Lemma pow2_nat d : 2 ^ Z.of_nat d = Z.of_nat (2 ^ d).
Proof. by rewrite Nat2Z.inj_pow. Qed.

(** A fresh tree after some signatures. *)
Lemma walked path hashes ns ss k before : mss_keys_ok k -> room (height k) path hashes ns ss -> fitting (height k) before ->
  exists m0, fresh_tree path hashes ns ss k = Some m0 /\ let m := (sign_all m0 before).1 in
    paced m /\ same_seed k (common m) /\ skn (common m) = Z.min (Z.of_nat (length before)) (2 ^ Z.of_nat (height k)).
Proof.
  intros Hk Hr Hb. destruct (fresh_started path hashes ns ss k Hk Hr) as (m0 & E0 & St). exists m0. split; [exact E0|].
  pose proof (started_paced k m0 St) as P0. destruct St as (_ & S0 & Z0 & _). change (common m0) with (keys m0) in S0, Z0.
  pose proof (sign_all_state before m0 P0) as Hst. rewrite Z0, <- (proj1 S0) in Hst. specialize (Hst Hb). cbv zeta in Hst |- *.
  destruct Hst as (P & S & E). split; [exact P|].
  destruct S0 as (A1 & A2 & A3 & A4 & A5 & A6), S as (B1 & B2 & B3 & B4 & B5 & B6).
  split; [split_and!; (etransitivity; [eassumption|assumption])|]. unfold MAM_MSS_MAX_SKN in E. etransitivity; [exact E|]. lia.
Qed.

(** C34: a Merkle tree that is saved between two signatures and loaded into a new tree of the same keys signs on as if it
    had never been away: the buffer is used up, the root is the same, and every later request gets the same code and
    the same signature.  The stacks are not saved: [mss_mt_rewind] computes their shape again. *)
Theorem saved_tree_signs_on path hashes ns ss path' hashes' ns' ss' k before after :
  mss_keys_ok k -> room (height k) path hashes ns ss -> room (height k) path' hashes' ns' ss' ->
  fitting (height k) (before ++ after) -> (length before < 2 ^ height k)%nat ->
  exists m0 blank, fresh_tree path hashes ns ss k = Some m0 /\ blank_tree path' hashes' ns' ss' k = Some blank /\
    let m := (sign_all m0 before).1 in
    exists m' buffer, load_traversal (saved m) blank = (RC_OK, m', buffer) /\ trits_is_empty buffer = true /\
      root (keys m') = root (keys m) /\ (sign_all m' after).2 = (sign_all m after).2.
Proof.
  intros Hk Hr1 Hr2 [Hb Ha]%Forall_app Hn. destruct (walked path hashes ns ss k before Hk Hr1 Hb) as (m0 & E0 & P & S & Z).
  destruct (blank_tree_ok path' hashes' ns' ss' k Hk Hr2) as (blank & Eb & Sb & Shb & _ & Rb & _).
  exists m0, blank. split; [exact E0|]. split; [exact Eb|]. set (m := (sign_all m0 before).1) in *. cbv zeta.
  assert (skn (common m) <= MAM_MSS_MAX_SKN (height (common m))) as Hle.
  { rewrite Z, <- (proj1 S). unfold MAM_MSS_MAX_SKN. rewrite pow2_nat. lia. }
  destruct (traversal_saved m P) as (ts & Hts & Hlts & Es).
  assert (same_seed (common m) (common blank)) as Smb.
  { destruct S as (A1 & A2 & A3 & A4 & A5 & A6), Sb as (B1 & B2 & B3 & B4 & B5 & B6).
    split_and!; (etransitivity; [symmetry; eassumption|assumption]). }
  destruct (traversal_loads m blank [] ts [] [] P Hle Smb Shb Rb Hts Hlts) as (m' & E & P' & S' & Z').
  change (same_seed (keys m) (keys m')) in S'. change (skn (keys m') = skn (keys m)) in Z'.
  exists m', (view (saved m) [] []). unfold load_traversal. rewrite from_rep_view by reflexivity.
  rewrite app_nil_r, !app_nil_l, <- Es in E. split; [exact E|]. split; [by rewrite empty_view|]. split.
  - rewrite (paths_root m' P'), (paths_root m P). rewrite <- (proj1 S'). symmetry. by apply node_seed.
  - symmetry. apply (sign_all_agree after m m' P P' S'); [by symmetry|]. change (fitting (height (common m)) after). by rewrite <- (proj1 S).
Qed.

(** The header of a tree whose keys are used up is refused. *)
Lemma exhausted_header k ts p q : mss_keys_ok k -> skn_trits_of (height k) (2 ^ Z.of_nat (height k)) ts ->
  mss_parse_skn (view p ts q) = None.
Proof.
  intros Hk Hts. pose proof (max_skn_bound _ (ok_height k Hk)) as Hmax. unfold MAM_MSS_MAX_SKN in Hmax. pose proof (pow2_pos (height k)).
  rewrite (parse_skn_view (height k) (2 ^ Z.of_nat (height k))) by (first [apply ok_height, Hk|lia|exact Hts]).
  unfold MAM_MSS_MAX_SKN. by rewrite (proj2 (Z.gtb_lt _ _)) by lia.
Qed.

(** A tree whose last key was used can be saved but not loaded again: the number of its next key is one more than the
    greatest number that [mss_parse_skn] accepts, and the code is [RC_MAM_INVALID_VALUE]. *)
Theorem exhausted_tree_not_loaded path hashes ns ss k before blank :
  mss_keys_ok k -> room (height k) path hashes ns ss -> fitting (height k) before -> (2 ^ height k <= length before)%nat ->
  exists m0, fresh_tree path hashes ns ss k = Some m0 /\
    let m := (sign_all m0 before).1 in
    exists buffer, load_traversal (saved m) blank = (RC_MAM_INVALID_VALUE, blank, buffer).
Proof.
  intros Hk Hr Hb Hn. destruct (walked path hashes ns ss k before Hk Hr Hb) as (m0 & E0 & P & S & Z).
  exists m0. split; [exact E0|]. set (m := (sign_all m0 before).1) in *. cbv zeta.
  rewrite pow2_nat in Z. rewrite Z.min_r in Z by lia. rewrite <- pow2_nat, (proj1 S) in Z.
  pose proof (wa_keys m (pc_walking m P)) as Hkm.
  destruct (traversal_saved m P) as (ts & Hts & Hlts & Es). rewrite Z in Hts.
  exists (view ([] ++ ts) (traversal_hashes m ++ root (common m)) []). unfold load_traversal. rewrite from_rep_view by reflexivity.
  rewrite Es. unfold MssTraversal.mam_mss_deserialize. rewrite (advance_view [] ts) by exact Hlts. cbv zeta beta iota.
  rewrite size_view, length_app, Hlts.
  destruct (Nat.ltb_spec (MAM_MSS_SKN_SIZE + length (traversal_hashes m ++ root (common m)))
    (MAM_MSS_SKN_TREE_DEPTH_SIZE + MAM_MSS_SKN_KEY_NUMBER_SIZE)) as [Hlt|_]; [unfold MAM_MSS_SKN_SIZE in Hlt; lia|].
  by rewrite (exhausted_header (common m) ts _ _ Hkm Hts).
Qed.

(** The same of the tree in memory, for any tree that was computed. *)
Theorem saved_classic_tree_signs_on m blank after : generated m -> skn (keys m) <= MAM_MSS_MAX_SKN (height (keys m)) ->
  same_seed (keys m) (keys blank) -> MssClassic.shaped (keys blank) (mt blank) -> length (root (keys blank)) = MAM_MSS_PK_SIZE ->
  fitting (height (keys m)) after ->
  exists m' buffer, load_classic (saved m) blank = (RC_OK, m', buffer) /\ trits_is_empty buffer = true /\
    root (keys m') = root (keys m) /\ (sign_all m' after).2 = (sign_all m after).2.
Proof.
  intros G Hle Hseed Hs Hr Ha. destruct (classic_saved m G) as (ts & Hts & Hlts & Es).
  change (root (keys m)) with (root (MssClassic.common m)) in Es.
  destruct (classic_loads m blank [] ts [] [] G Hle Hseed Hs Hr Hts Hlts) as (m' & E & G' & S' & Z').
  change (same_seed (keys m) (keys m')) in S'. change (skn (keys m') = skn (keys m)) in Z'.
  exists m', (view (saved m) [] []). unfold load_classic. rewrite from_rep_view by reflexivity.
  rewrite app_nil_r, !app_nil_l, <- Es in E. split; [exact E|]. split; [by rewrite empty_view|]. split.
  - rewrite (paths_root m' G'), (paths_root m G). rewrite <- (proj1 S'). symmetry. by apply node_seed.
  - symmetry. by apply (sign_all_agree after m m' G G' S').
Qed.

Lemma fitting_take d n requests : fitting d requests -> fitting d (take n requests).
Proof. apply Forall_take. Qed.

Lemma saved_tree_signs_on_witness :
  let mem := replicate 1 no_hash in let mem2 := replicate 2 no_hash in
  let ns := replicate 2 no_node in let ss := replicate 1 no_stack in
  let after := drop 1 three_requests in
  exists m0 blank, fresh_tree mem mem2 ns ss two_leaves = Some m0 /\ blank_tree mem mem2 ns ss two_leaves = Some blank /\
    let m := (sign_all m0 (take 1 three_requests)).1 in
    exists m' buffer, load_traversal (saved m) blank = (RC_OK, m', buffer) /\ trits_is_empty buffer = true /\
      root (keys m') = root (keys m) /\ (sign_all m' after).2 = (sign_all m after).2.
Proof.
  intros mem mem2 ns ss after.
  apply (saved_tree_signs_on mem mem2 ns ss mem mem2 ns ss two_leaves (take 1 three_requests) after).
  - exact two_leaves_ok.
  - exact two_leaves_room.
  - exact two_leaves_room.
  - exact three_requests_fit.
  - apply le_n.
Defined.

Lemma exhausted_tree_not_loaded_witness :
  let blank := MssTraversal.mk_mss two_leaves [] [] [] [] in
  exists m0, fresh_tree (replicate 1 no_hash) (replicate 2 no_hash) (replicate 2 no_node) (replicate 1 no_stack) two_leaves = Some m0 /\
    let m := (sign_all m0 (take 2 three_requests)).1 in
    exists buffer, load_traversal (saved m) blank = (RC_MAM_INVALID_VALUE, blank, buffer).
Proof.
  intros blank. apply (exhausted_tree_not_loaded _ _ _ _ two_leaves (take 2 three_requests) blank).
  - exact two_leaves_ok.
  - exact two_leaves_room.
  - apply (fitting_take 1 2), three_requests_fit.
  - apply le_n.
Defined.
